(* ===== verification/_CoqProject ===== *)
-Q . S2P
Prelude.v
FreeBlockQueue.v
Request.v
BlockHash.v
BlockPool.v
KVCacheSpec.v
KVCachePlanning.v
SingleTypeManager.v
KVCacheCoordinator.v
KVCacheManager.v
SlotContract.v
HeapQueue.v
RequestQueue.v
EncoderCache.v
SchedulerData.v
Scheduler.v
SchedulerEncoder.v
SchedulerInvariant.v
SchedulerRunning.v
SchedulerWaiting.v
SchedulerStep.v
SchedulerLifecycle.v
SchedulerUpdate.v
SchedulerSystem.v
Samples.v
QueueTheorems.v
CacheTheorems.v
SchedulerSamples.v
NgramProposer.v
BlockTable.v
BatchUpdate.v
InputBatch.v
InputBatchFacts.v
InputBatchMoves.v
BatchReplay.v
BatchHistory.v
Arrays.v
AttentionMetadata.v
LocalAttention.v
RejectionSampler.v
ModelRunner.v
PrepareInputs.v
PrepareFacts.v
StepInputs.v
BatchRows.v
BatchReorder.v
UpdateStates.v
WorkerStep.v
ExecuteModel.v
ExecuteFacts.v
FinishStep.v
GrammarMask.v
MMEmbeddings.v
ExecuteStep.v
WorkerRun.v
WorkerSamples.v
WorkerTheorems.v
PartTheorems.v
StructuredOutput.v
GrammarManager.v
GrammarFacts.v
GrammarTheorems.v
Middleware.v
MiddlewareTheorems.v
Detokenizer.v
DetokenizerFacts.v
IncrementalDecoding.v
DecodingFacts.v
RequestOutputs.v
OutputProcessor.v
OutputFacts.v
OutputTheorems.v
SchedulerTheorems.v
PlanningFacts.v
PlanningTheorems.v
