(* ===== verification/Prelude.v ===== *)
(** * Verification of the serving engine and the middleware

    The repository serves language models: [src/inference_server/vllm/vllm] is the vLLM
    engine (its V1 architecture), and [src/middleware/src] a FastAPI middleware that is to
    log the use of the engine in a DuckDB database.  The rest is third-party models and
    kernels, shell scripts and a Streamlit page.  Paths below are relative to the [vllm]
    package unless they start with [src/].

    ** How the parts interact

    The engine core takes steps.  In each of them the scheduler chooses how many tokens of
    which requests the model computes next, and asks the KV-cache manager for the blocks
    those tokens are stored in; the worker brings its persistent batch in step with the
    scheduler's output, lays the inputs out, runs the model and the sampler, and reports
    the sampled tokens; the scheduler's update gives them to the requests, stops requests,
    frees their blocks, and reports to the output processor, which turns the tokens into
    text and hands that to the clients.  Before the first step the memory of the workers is
    planned.

    ** Which file models what

    Foundations: this file (exceptions, the state monad [M] with exceptions and its
    weakest-precondition rules, Python's slices and ranges, lists); [Arrays] (the NumPy
    operations of the worker).

    Planning: [KVCacheSpec] (v1/kv_cache_interface.py), [KVCachePlanning]
    (v1/core/kv_cache_utils.py from [check_enough_kv_cache_memory] on, and
    [EngineCore._initialize_kv_caches] of v1/engine/core.py); lemmas in [PlanningFacts],
    properties in [PlanningTheorems].

    KV cache: [FreeBlockQueue] and [BlockHash] (v1/core/kv_cache_utils.py), [BlockPool]
    (v1/core/block_pool.py), [SingleTypeManager] (v1/core/single_type_kv_cache_manager.py),
    [KVCacheCoordinator], [KVCacheManager] (the files of the same names); properties in
    [QueueTheorems] and [CacheTheorems].  Each manager's state is a record with the shared
    block pool inside, and [zoom] runs an operation of the pool in it.

    Scheduler: [Request] (v1/request.py and [check_stop] of v1/core/sched/utils.py),
    [HeapQueue] (CPython's heapq), [RequestQueue], [EncoderCache], [SchedulerData] (the
    messages), [Scheduler] (v1/core/sched/scheduler.py and async_scheduler.py).  The
    class [SlotContract] states what the scheduler relies on of the KV-cache manager; the
    scheduler's lemmas ([SchedulerInvariant] with the contract as a hypothesis of its
    sections, [SchedulerEncoder], [SchedulerRunning], [SchedulerWaiting], [SchedulerStep],
    [SchedulerLifecycle], [SchedulerUpdate]) are proved against it, and the manager with
    full-attention groups is shown to be an instance.  [SchedulerSystem] is the scheduler
    as a state machine; properties in [SchedulerTheorems].

    Worker: [BlockTable], [BatchUpdate] (v1/sample/logits_processor.py), [InputBatch]
    (v1/worker/gpu_input_batch.py), [ModelRunner], [PrepareInputs] and [ExecuteModel]
    (v1/worker/gpu_model_runner.py), [AttentionMetadata] (v1/attention/backends/utils.py),
    [RejectionSampler], [NgramProposer].  Lemmas: [InputBatchFacts], [InputBatchMoves],
    [BatchReplay] and [BatchHistory] (the batch), [UpdateStates], [BatchRows] and
    [BatchReorder] ([_update_states]), [PrepareFacts], [StepInputs] and [WorkerStep] (up to
    the forward pass), [MMEmbeddings], [GrammarMask], [ExecuteFacts], [FinishStep] and
    [ExecuteStep] (around and after it), [LocalAttention].  [WorkerRun] is the worker over
    many steps; properties in [WorkerTheorems] and, for the parts that have a reference
    definition, [PartTheorems].

    Structured outputs: [StructuredOutput] (the grammars of v1/structured_output's three
    backends, instances of the class [Grammar]), [GrammarManager] (its manager and
    request.py).  The class [GrammarLaws] states what the manager relies on; xgrammar's
    grammar is an instance when its matcher keeps [matcher_ok].  Lemmas in [GrammarFacts],
    properties in [GrammarTheorems], which join the manager to the worker's [GrammarMask].

    Outputs: [Detokenizer] (the common part of v1/engine/detokenizer.py, and
    engine/output_processor/stop_checker.py), [IncrementalDecoding] (its two decoders and
    transformers_utils/detokenizer_utils.py), [RequestOutputs] (v1/engine/logprobs.py,
    outputs.py, v1/engine/parallel_sampling.py, the collector), [OutputProcessor]
    (v1/engine/output_processor.py); lemmas in [DetokenizerFacts], [DecodingFacts] and
    [OutputFacts], properties in [OutputTheorems].

    Middleware: [Middleware] (database.py, routes.py and schemas.py of
    src/middleware/src); properties in [MiddlewareTheorems].

    [Samples], [SchedulerSamples] and [WorkerSamples] hold the data of the witnesses.

    ** What the theorems show

    Scheduler: in every reachable state adding and aborting requests, a step and its
    update raise nothing; a step stays within the token budget and gives every scheduled
    request blocks for its tokens; the update appends exactly the generated tokens and
    takes exactly the stopped requests out; in every reachable state blocks are conserved,
    and shared only when they are cached.  KV cache: the intrusive list of free blocks
    refines a list; an allocation finds its blocks or too few are free; equal block
    hashes mean equal prefixes; the prefix lookups find the longest, or the right-most,
    hit.  Planning: the estimate of the model length is the greatest that fits, a plan is a
    partition of the layers that uses the memory, the workers agree, and a planned engine
    gives a scheduler that never raises.  Worker: in every reachable state a fitting
    scheduler output is executed without an exception, every scheduled token is fed at its
    position with the slots of its blocks, the batch implements a map of requests, and the
    logits processors that keep an entry for some rows follow the rows, as does, where no
    backend reorders the batch, the mask of allowed tokens.  Parts: the Knuth-Morris-Pratt
    search, chunked local attention, rejection sampling and the gathered embeddings agree
    with reference definitions; greedy speculative decoding gives the tokens of the target
    model.  Structured outputs: for a backend that keeps the contract [GrammarLaws] the
    logits of every request are masked by its grammar after each of its drafts, and the
    grammars are left where they were.  Outputs: the deltas a client gets are the text it
    would get at once, where stop strings cut the text, decoding token by token gives the
    text of all tokens, and the outputs of the children of a request are put together.

    Some theorems state what the code does although it means something else: a prompt of
    the maximal length is stuck, the priority policy and a sliding window no larger than a
    block fail assertions, skipped requests come back in reverse, an accepted memory can
    starve a request, [swap_states] loses a mask, [condense] leaves the mask and the flag of
    a moved request behind, a request that a step has passed over loses its drafts, a stop
    string can remain in the text, a guidance grammar does not take the end of the text
    back, and the middleware neither starts on its own database nor answers anything.

    ** Fuel and bounds

    A Python loop whose end is not structural has fuel, and running out of it is the
    exception [OutOfFuel]; the lemmas that show that the operations raise nothing, or give
    a result, show that it is enough.  Walking the free list: the number of blocks.
    [gen_mm_loop]: the number of multi-modal inputs and one more.  The heap: its length and
    one more, as each step moves along one path.  [bisect]: the first upper bound and one
    more, as every step shrinks the interval.  [lps_loop] and [kmp_loop]: twice the length
    and one more, as each step either advances or falls back along a border.
    [condense_loop]: the number of empty rows and one more.  [allocate_or_preempt]: the
    number of running requests and one more, as each step preempts one.  [schedule_running]
    and [schedule_waiting]: the number of requests in the list or queue and one more.
    [abort_loop]: the number of parents, as each recursive call takes one out of the
    dictionary ([abort_requests_ends]).

    ** How the code is modelled

    An operation is a function in [M S], which passes the state [S] on and returns a value
    or raises a Python exception ([exn]); the state at the time of an exception is kept, but
    what a merge of two outputs or a bulk copy of rows has changed before it fails is not.
    Objects that are shared are in stores: request objects are known by their id, and the
    queues, lists and dictionaries hold ids; block objects are known by their pointers; a
    list of output tokens that the runner and the batch share is one entry of a store.  The
    methods that change a list they are given (the block hashes of a request) return it.
    Integers of Python are [Z]; the int32 and int64 arrays are unbounded too, as they hold
    positions, lengths and block numbers below the configured maxima; row indices are [nat].
    Times are [Z], other floats rationals, rounded to a 32-bit float by a parameter where
    the code stores them in an array of such floats.  Texts are lists of code points.
    Arrays with one entry for each row are one array of records.  Iterating a set takes
    [elements] as its order.  Block sizes are positive.  Library calls are given meaning
    only where they are Python's own: [heapq] is CPython's algorithm, [list.sort] a stable
    sort.

    Parameters: the block hash function (with injectivity as the hypothesis of the theorem
    on equal prefixes) and the sizes of data types; the KV connector and, for the
    scheduler, the structured output manager as classes of operations; the matchers of the
    grammar libraries; the model, the sampler, the multi-modal
    encoder and the drafting; the random numbers of the rejection sampler; the
    tokenizers and the decoding stream of their library; DuckDB, through [duckdb_ok], what the middleware relies on of it.

    ** Scope of the theorems

    The scheduler's theorems are about the first-come-first-served policy without a KV
    connector and without a limit on adapters, for prompts shorter than the maximal length,
    and with full-attention groups; those on updates are about the synchronous scheduler.
    The definitions cover the priority policy, connectors, adapters and the asynchronous
    scheduler too.  The allocation theorem covers windows larger than a block, and not
    smaller ones.  The worker's theorems are about the last rank of the pipeline, without
    chunked local attention inside the runner (it is verified by itself), M-RoPE,
    encoder-only layers and fast prefill; drafts are for requests that have a row; the
    backends of the KV-cache groups that reorder the batch do so by the decode threshold of
    v1/attention/backends/utils.py ([rc_decode_threshold] of a group) and agree on it; the
    theorem on whole steps is about batches of requests that sample, and of the logits
    processors it follows the one for logit biases.  The rows of the mask of allowed tokens
    are followed where no backend reorders, as the exchange of rows loses them.  The theorem on streams is about one request that streams deltas
    and has no parent.

    ** Not modelled

    Models, layers, kernels and attention backends (PyTorch, Triton and CUDA); the engine
    core's processes, sockets and asyncio tasks, and the HTTP server (input and output
    around the modelled operations); quantisation, model loading, distributed communication
    and compilation; configuration and argument parsing (the settings that are read are
    parameters); tokenizers and multi-modal processors (wrappers of libraries); LoRA
    weights; the statistics of iterations in the output processor; V0's engine, scheduler
    and workers, which the repository does not serve with; the executors and workers for
    other devices; the shell scripts and the Streamlit page.  The [infer] route of the
    middleware forwards to the engine over HTTP. *)
From Stdlib Require Import ZArith Lia.
From stdpp Require Import base strings countable gmap sets fin_maps list.

(** * Python exceptions and the state monad with exceptions *)

(** The exceptions the modelled code raises.  Two outcomes have no counterpart in
    Python: [DanglingReference] is a load through a pointer that the model's store
    does not hold, [OutOfFuel] a loop that has not ended within the fuel its
    definition gives it.  The theorems show that neither is ever the outcome of an
    operation that is used as its invariant allows. *)
Inductive exn : Type :=
  | AssertionError
  | ValueError
  | RuntimeError
  | IndexError
  | KeyError
  | TypeError
  | AttributeError
  | NotImplementedError
  | ZeroDivisionError
  | CatalogException
  | DanglingReference
  | OutOfFuel.

#[export] Instance exn_eq_dec : EqDecision exn.
Proof. solve_decision. Defined.

(** What a call yields: a value, or an exception. *)
Inductive outcome (A : Type) : Type :=
  | Ok (a : A)
  | Raise (e : exn).
Arguments Ok {A} a.
Arguments Raise {A} e.

#[export] Instance outcome_eq_dec `{EqDecision A} : EqDecision (outcome A).
Proof. solve_decision. Defined.

#[export] Instance outcome_ret : MRet outcome := λ A a, Ok a.
#[export] Instance outcome_bind : MBind outcome := λ A B f m,
  match m with Ok a => f a | Raise e => Raise e end.

(** A stateful computation.  The state reached when an exception is raised is
    kept, as Python keeps the mutations made before a [raise]. *)
Definition M (S A : Type) : Type := S → outcome A * S.

#[export] Instance M_ret {S} : MRet (M S) := λ A a s, (Ok a, s).
#[export] Instance M_bind {S} : MBind (M S) := λ A B f m s,
  match m s with
  | (Ok a, s') => f a s'
  | (Raise e, s') => (Raise e, s')
  end.

Definition raise {S A} (e : exn) : M S A := λ s, (Raise e, s).
Definition get {S} : M S S := λ s, (Ok s, s).
Definition put {S} (s' : S) : M S unit := λ _, (Ok tt, s').
Definition gets {S A} (f : S → A) : M S A := λ s, (Ok (f s), s).
Definition modify {S} (f : S → S) : M S unit := λ s, (Ok tt, f s).

(** [assert b] is Python's [assert b]. *)
Definition assert_ {S} (b : bool) : M S unit :=
  if b then mret tt else raise AssertionError.

(** A pure computation that may raise, run inside a stateful one. *)
Definition lift_outcome {S A} (o : outcome A) : M S A := λ s, (o, s).

(** [zoom g p m] runs [m] on the part of the state that [g] reads and [p]
    writes back: a method call on an attribute. *)
Definition zoom {S T A} (g : S → T) (p : T → S → S) (m : M T A) : M S A := λ s,
  match m (g s) with (o, t) => (o, p t s) end.

(** [for x in l: body]. *)
Fixpoint for_each {S A} (l : list A) (body : A → M S unit) : M S unit :=
  match l with
  | [] => mret tt
  | x :: l' => body x ;; for_each l' body
  end.

(** A loop that also threads local variables [b]. *)
Fixpoint fold_each {S A B} (l : list A) (b : B) (body : B → A → M S B) : M S B :=
  match l with
  | [] => mret b
  | x :: l' => b' ← body b x; fold_each l' b' body
  end.

(** The comprehension [[body x for x in l]]. *)
Fixpoint map_each {S A B} (l : list A) (body : A → M S B) : M S (list B) :=
  match l with
  | [] => mret []
  | x :: l' => y ← body x; ys ← map_each l' body; mret (y :: ys)
  end.

(** * Weakest preconditions

    [wp m Q s]: run from [s], the computation [m] raises nothing and ends with
    a value and a state that satisfy [Q]. *)
Definition wp {S A} (m : M S A) (Q : A → S → Prop) (s : S) : Prop :=
  match m s with
  | (Ok a, s') => Q a s'
  | (Raise _, _) => False
  end.

Section wp_rules.
Context {S : Type}.
Implicit Types s : S.

Lemma wp_elim {A} (m : M S A) Q s :
  wp m Q s ↔ ∃ a s', m s = (Ok a, s') ∧ Q a s'.
Proof.
  unfold wp. destruct (m s) as [[a|e] s'] eqn:E; split.
  - intros HQ. by exists a, s'.
  - intros (a' & s'' & ? & HQ). by simplify_eq.
  - done.
  - intros (a' & s'' & ? & HQ). by simplify_eq.
Qed.

Lemma wp_mono {A} (m : M S A) (Q Q' : A → S → Prop) s :
  wp m Q s → (∀ a s', Q a s' → Q' a s') → wp m Q' s.
Proof. unfold wp. destruct (m s) as [[a|e] s']; naive_solver. Qed.

Lemma wp_ret {A} (a : A) (Q : A → S → Prop) s : Q a s → wp (mret a) Q s.
Proof. done. Qed.

Lemma wp_bind {A B} (m : M S A) (f : A → M S B) Q s :
  wp m (λ a s', wp (f a) Q s') s → wp (m ≫= f) Q s.
Proof.
  unfold wp, mbind, M_bind. by destruct (m s) as [[a|e] s'].
Qed.

(** Reassociates a sequence, so that a lemma about its first two steps applies. *)
Lemma wp_assoc {A B C} (m : M S A) (f : A → M S B) (g : B → M S C) Q s :
  wp ((m ≫= f) ≫= g) Q s → wp (m ≫= λ x, f x ≫= g) Q s.
Proof. unfold wp, mbind, M_bind. by destruct (m s) as [[a|e] s']. Qed.

Lemma wp_get (Q : S → S → Prop) s : Q s s → wp get Q s.
Proof. done. Qed.
Lemma wp_put s' (Q : unit → S → Prop) s : Q tt s' → wp (put s') Q s.
Proof. done. Qed.
Lemma wp_gets {A} (f : S → A) (Q : A → S → Prop) s : Q (f s) s → wp (gets f) Q s.
Proof. done. Qed.
Lemma wp_modify (f : S → S) (Q : unit → S → Prop) s : Q tt (f s) → wp (modify f) Q s.
Proof. done. Qed.
Lemma wp_assert (b : bool) (Q : unit → S → Prop) s :
  b = true → Q tt s → wp (assert_ b) Q s.
Proof. by intros ->. Qed.
Lemma wp_lift_outcome {A} (o : outcome A) a (Q : A → S → Prop) s :
  o = Ok a → Q a s → wp (lift_outcome o) Q s.
Proof. by intros ->. Qed.

Lemma wp_zoom {T A} (g : S → T) (p : T → S → S) (m : M T A) Q s :
  wp m (λ a t, Q a (p t s)) (g s) → wp (zoom g p m) Q s.
Proof. unfold wp, zoom. by destruct (m (g s)) as [[a|e] t]. Qed.

(** Loops are reasoned about with an invariant on what is done and what is
    left to do. *)
Lemma wp_for_each {A} (I : list A → list A → S → Prop) (l : list A) body Q s :
  I [] l s →
  (∀ done x todo s', l = done ++ x :: todo → I done (x :: todo) s' →
     wp (body x) (λ _ s'', I (done ++ [x]) todo s'') s') →
  (∀ s', I l [] s' → Q tt s') →
  wp (for_each l body) Q s.
Proof.
  intros HI Hstep HQ.
  enough (∀ todo done s', l = done ++ todo → I done todo s' →
            wp (for_each todo body) Q s') as H by by apply (H l []).
  clear s HI. induction todo as [|x todo IH]; intros done s' Hl HI; subst l; simpl.
  - apply wp_ret. rewrite app_nil_r in *. by apply HQ.
  - apply wp_bind. eapply wp_mono; [by eapply Hstep|].
    intros [] s'' HI'. apply (IH (done ++ [x])); [by rewrite <- app_assoc|done].
Qed.

Lemma wp_fold_each {A B} (I : list A → list A → B → S → Prop) (l : list A) (b : B)
    (body : B → A → M S B) Q s :
  I [] l b s →
  (∀ done x todo b' s', l = done ++ x :: todo → I done (x :: todo) b' s' →
     wp (body b' x) (λ b'' s'', I (done ++ [x]) todo b'' s'') s') →
  (∀ b' s', I l [] b' s' → Q b' s') →
  wp (fold_each l b body) Q s.
Proof.
  intros HI Hstep HQ.
  enough (∀ todo done b' s', l = done ++ todo → I done todo b' s' →
            wp (fold_each todo b' body) Q s') as H by by apply (H l []).
  clear s b HI. induction todo as [|x todo IH]; intros done b s' Hl HI; subst l; simpl.
  - apply wp_ret. rewrite app_nil_r in *. by apply HQ.
  - apply wp_bind. eapply wp_mono; [by eapply Hstep|].
    intros b' s'' HI'. apply (IH (done ++ [x])); [by rewrite <- app_assoc|done].
Qed.

Lemma wp_map_each {A B} (I : list A → list A → list B → S → Prop) (l : list A)
    (body : A → M S B) Q s :
  I [] l [] s →
  (∀ done x todo ys s', l = done ++ x :: todo → I done (x :: todo) ys s' →
     wp (body x) (λ y s'', I (done ++ [x]) todo (ys ++ [y]) s'') s') →
  (∀ ys s', I l [] ys s' → Q ys s') →
  wp (map_each l body) Q s.
Proof.
  intros HI Hstep HQ.
  enough (∀ todo done ys s', l = done ++ todo → I done todo ys s' →
            wp (map_each todo body) (λ ys' s'', Q (ys ++ ys') s'') s') as H.
  { by apply (H l [] []). }
  clear s HI. induction todo as [|x todo IH]; intros done ys s' Hl HI; subst l; simpl.
  - apply wp_ret. rewrite app_nil_r in *. by apply HQ.
  - apply wp_bind. eapply wp_mono; [by eapply Hstep|].
    intros y s'' HI'. apply wp_bind.
    eapply wp_mono; [apply (IH (done ++ [x]) (ys ++ [y])); [by rewrite <- app_assoc|done]|].
    intros ys' s3 HQ'. apply wp_ret. cbn beta in HQ'. by rewrite <- app_assoc in HQ'.
Qed.

(** A comprehension that only reads the state. *)
Lemma wp_map_each_read {A B} (R : A → B → Prop) (l : list A) (body : A → M S B) s :
  (∀ x, x ∈ l → wp (body x) (λ y s', s' = s ∧ R x y) s) →
  wp (map_each l body) (λ ys s', s' = s ∧ Forall2 R l ys) s.
Proof.
  induction l as [|x l IH]; intros H; simpl; [by apply wp_ret|].
  apply wp_bind. eapply wp_mono; [apply H; by left|]. intros y s' [-> Hy].
  apply wp_bind. eapply wp_mono; [apply IH; intros z ?; apply H; by right|].
  intros ys s' [-> Hys]. apply wp_ret. split; [done|by constructor].
Qed.
End wp_rules.

(** Loops over the indices below [n]. *)
Section wp_seq.
Context {S : Type}.
Implicit Types s : S.

Lemma seq_split n done k todo :
  seq 0 n = done ++ k :: todo → done = seq 0 k ∧ (k < n)%nat.
Proof.
  intros Heq. assert (Hk : seq 0 n !! length done = Some k) by (by rewrite Heq, lookup_app_r, Nat.sub_diag by lia).
  apply lookup_seq in Hk as [-> Hlt]. split; [|done]. apply (f_equal (take (length done))) in Heq.
  rewrite take_app_length, take_seq in Heq. rewrite <- Heq at 1. f_equal. lia.
Qed.

Lemma wp_for_seq (I : nat → S → Prop) n (body : nat → M S unit) Q s :
  I 0%nat s →
  (∀ k s', (k < n)%nat → I k s' → wp (body k) (λ _ s'', I (Datatypes.S k) s'') s') →
  (∀ s', I n s' → Q tt s') →
  wp (for_each (seq 0 n) body) Q s.
Proof.
  intros HI Hstep HQ. apply (wp_for_each (λ done _ s', I (length done) s')); [done| |].
  - intros done k todo s' [-> Hk]%seq_split. rewrite length_app, length_seq, Nat.add_1_r. by apply Hstep.
  - intros s'. rewrite length_seq. apply HQ.
Qed.

Lemma wp_fold_seq {B} (I : nat → B → S → Prop) n b (body : B → nat → M S B) Q s :
  I 0%nat b s →
  (∀ k b' s', (k < n)%nat → I k b' s' → wp (body b' k) (λ b'' s'', I (Datatypes.S k) b'' s'') s') →
  (∀ b' s', I n b' s' → Q b' s') →
  wp (fold_each (seq 0 n) b body) Q s.
Proof.
  intros HI Hstep HQ. apply (wp_fold_each (λ done _ b' s', I (length done) b' s')); [done| |].
  - intros done k todo b' s' [-> Hk]%seq_split. rewrite length_app, length_seq, Nat.add_1_r. by apply Hstep.
  - intros b' s'. rewrite length_seq. apply HQ.
Qed.

Lemma wp_map_seq {B} (I : nat → list B → S → Prop) n (body : nat → M S B) Q s :
  I 0%nat [] s →
  (∀ k ys s', (k < n)%nat → I k ys s' → wp (body k) (λ y s'', I (Datatypes.S k) (ys ++ [y]) s'') s') →
  (∀ ys s', I n ys s' → Q ys s') →
  wp (map_each (seq 0 n) body) Q s.
Proof.
  intros HI Hstep HQ. apply (wp_map_each (λ done _ ys s', I (length done) ys s')); [done| |].
  - intros done k todo ys s' [-> Hk]%seq_split. rewrite length_app, length_seq, Nat.add_1_r. by apply Hstep.
  - intros ys s'. rewrite length_seq. apply HQ.
Qed.
End wp_seq.

(** [wp_step] applies the rule of the computation's head. *)
Ltac wp_step :=
  match goal with
  | |- wp (mbind _ _) _ _ => apply wp_bind
  | |- wp (mret _) _ _ => apply wp_ret
  | |- wp get _ _ => apply wp_get
  | |- wp (gets _) _ _ => apply wp_gets
  | |- wp (put _) _ _ => apply wp_put
  | |- wp (modify _) _ _ => apply wp_modify
  | |- wp (zoom _ _ _) _ _ => apply wp_zoom
  | |- wp (assert_ _) _ _ => apply wp_assert
  end.
Ltac wp_steps := repeat (wp_step; cbn beta).

(** Split the conjunctions that are written as such. *)
Ltac csplit := repeat match goal with |- _ ∧ _ => split end.

(** * Python integers and sequences *)

(** [cdiv] of [vllm/utils/__init__.py]; [//] is floor division, as [Z.div]. *)
Definition cdiv (a b : Z) : Z := - (- a / b).

Definition len {A} (l : list A) : Z := Z.of_nat (length l).

(** A slice bound: negative ones count from the end, as in Python. *)
Definition slice_bound (n i : Z) : Z := if decide (i < 0)%Z then (n + i)%Z else i.

(** [l[a:]], [l[:b]] and [l[a:b]]. *)
Definition slice_from {A} (a : Z) (l : list A) : list A :=
  drop (Z.to_nat (slice_bound (len l) a)) l.
Definition slice_to {A} (b : Z) (l : list A) : list A :=
  take (Z.to_nat (slice_bound (len l) b)) l.
Definition slice {A} (a b : Z) (l : list A) : list A :=
  drop (Z.to_nat (slice_bound (len l) a)) (slice_to b l).

(** [range(n)], [range(a, b)] and [range(a, b, step)] for [0 < step]. *)
Definition range2 (a b : Z) : list Z :=
  (λ i, a + Z.of_nat i)%Z <$> seq 0 (Z.to_nat (b - a)).
Definition range (n : Z) : list Z := range2 0 n.
Definition range_step (a b step : Z) : list Z :=
  (λ i, a + Z.of_nat i * step)%Z <$> seq 0 (Z.to_nat (cdiv (b - a) step)).

(** [range(n - 1, -1, -1)]: the indices below [n], downwards. *)
Definition range_down (n : Z) : list Z := reverse (range n).

(** [l[i]], with Python's negative indices. *)
Definition py_index {A} (l : list A) (i : Z) : outcome A :=
  let j := if decide (i < 0)%Z then (len l + i)%Z else i in
  if decide (j < 0)%Z then Raise IndexError
  else match l !! Z.to_nat j with Some x => Ok x | None => Raise IndexError end.

(** [sum] of a list of integers. *)
Definition zsum (l : list Z) : Z := foldr Z.add 0%Z l.

Create HintDb py.

Lemma py_index_lookup {A} (l : list A) (i : nat) x :
  l !! i = Some x → py_index l (Z.of_nat i) = Ok x.
Proof.
  intros H. unfold py_index. cbv zeta. rewrite (decide_False (P := (Z.of_nat i < 0)%Z)) by lia.
  rewrite decide_False by lia. by rewrite Nat2Z.id, H.
Qed.

Lemma py_index_last {A} (l : list A) x : py_index (l ++ [x]) (-1) = Ok x.
Proof.
  unfold py_index. cbv zeta. rewrite (decide_True (P := (-1 < 0)%Z)) by lia. unfold len. rewrite length_app. cbn [length].
  rewrite decide_False by lia.
  replace (Z.to_nat _) with (length l) by lia.
  by rewrite lookup_app_r, Nat.sub_diag by lia.
Qed.

Lemma range_lookup n i x : range n !! i = Some x ↔ x = Z.of_nat i ∧ (Z.of_nat i < n)%Z.
Proof.
  unfold range, range2. rewrite list_lookup_fmap, fmap_Some. split.
  - intros (j & Hj & ->). apply lookup_seq in Hj as [-> ?]. lia.
  - intros [-> ?]. exists i. split; [|lia]. apply lookup_seq. lia.
Qed.

Lemma range_split n done x todo :
  range n = done ++ x :: todo → x = len done ∧ (x < n)%Z.
Proof.
  intros H. assert (range n !! length done = Some x) as Hx.
  { by rewrite H, lookup_app_r, Nat.sub_diag by lia. }
  apply range_lookup in Hx as [-> ?]. done.
Qed.

(** ** Slices and ranges over non-negative bounds *)
Lemma slice_nonneg {A} (a b : Z) (l : list A) :
  (0 ≤ a)%Z → (0 ≤ b)%Z → slice a b l = drop (Z.to_nat a) (take (Z.to_nat b) l).
Proof.
  intros. unfold slice, slice_to, slice_bound. by rewrite !decide_False by lia.
Qed.

Lemma slice_from_nonneg {A} (a : Z) (l : list A) :
  (0 ≤ a)%Z → slice_from a l = drop (Z.to_nat a) l.
Proof. intros. unfold slice_from, slice_bound. by rewrite decide_False by lia. Qed.

Lemma len_slice {A} (a b : Z) (l : list A) :
  (0 ≤ a)%Z → (a ≤ b)%Z → len (slice a b l) = Z.max 0 (Z.min b (len l) - a).
Proof.
  intros. rewrite slice_nonneg by lia. unfold len. rewrite length_drop, length_take. lia.
Qed.

Lemma take_slice {A} (a b : Z) (l : list A) :
  (0 ≤ a)%Z → (a ≤ b)%Z → take (Z.to_nat b) l = take (Z.to_nat a) l ++ slice a b l.
Proof.
  intros. rewrite slice_nonneg by lia.
  rewrite <- (take_drop (Z.to_nat a) (take (Z.to_nat b) l)) at 1.
  by rewrite take_take, Nat.min_l by lia.
Qed.

Lemma len_app {A} (l k : list A) : len (l ++ k) = (len l + len k)%Z.
Proof. unfold len. rewrite length_app. lia. Qed.
Lemma len_cons {A} (x : A) (l : list A) : len (x :: l) = (len l + 1)%Z.
Proof. unfold len. simpl. lia. Qed.
Lemma len_nil {A} : len (@nil A) = 0%Z.
Proof. done. Qed.
Lemma len_nonneg {A} (l : list A) : (0 ≤ len l)%Z.
Proof. unfold len. lia. Qed.
Create Rewrite HintDb len.
#[export] Hint Rewrite @len_app @len_cons @len_nil : len.

(** [cdiv] is the ceiling of the quotient. *)
Lemma cdiv_bounds a b : (0 < b)%Z → (cdiv a b * b - b < a ≤ cdiv a b * b)%Z.
Proof.
  intros Hb. unfold cdiv. pose proof (Z.div_mod (- a) b). pose proof (Z.mod_pos_bound (- a) b). lia.
Qed.
Lemma cdiv_le a b c : (0 < b)%Z → (cdiv a b ≤ c ↔ a ≤ c * b)%Z.
Proof. intros Hb. pose proof (cdiv_bounds a b Hb). nia. Qed.
Lemma cdiv_mono a a' b : (0 < b)%Z → (a ≤ a')%Z → (cdiv a b ≤ cdiv a' b)%Z.
Proof. intros Hb Ha. apply cdiv_le; [done|]. pose proof (cdiv_bounds a' b Hb). lia. Qed.
Lemma cdiv_nonneg a b : (0 < b)%Z → (0 ≤ a)%Z → (0 ≤ cdiv a b)%Z.
Proof. intros Hb Ha. pose proof (cdiv_bounds a b Hb). nia. Qed.

(** ** Occurrences *)
Definition occ `{EqDecision A} (x : A) (l : list A) : Z := len (filter (x =.) l).

Section occ.
Context `{EqDecision A}.
Implicit Types (x y : A) (l k : list A).

Lemma occ_nil x : occ x [] = 0%Z.
Proof. done. Qed.
Lemma occ_cons x y l : occ x (y :: l) = ((if decide (x = y) then 1 else 0) + occ x l)%Z.
Proof. unfold occ. rewrite filter_cons. case_decide; rewrite ?len_cons; lia. Qed.
Lemma occ_app x l k : occ x (l ++ k) = (occ x l + occ x k)%Z.
Proof. unfold occ. by rewrite filter_app, len_app. Qed.
Lemma occ_nonneg x l : (0 ≤ occ x l)%Z.
Proof. apply len_nonneg. Qed.
Lemma occ_pos x l : x ∈ l ↔ (0 < occ x l)%Z.
Proof.
  induction l as [|y l IH]; [split; [by intros ?%not_elem_of_nil|by rewrite occ_nil]|].
  rewrite elem_of_cons, occ_cons, IH. pose proof (occ_nonneg x l). case_decide; split; naive_solver lia.
Qed.
Lemma occ_zero x l : x ∉ l ↔ occ x l = 0%Z.
Proof. rewrite occ_pos. pose proof (occ_nonneg x l). lia. Qed.
Lemma occ_nodup x l : NoDup l → occ x l = if decide (x ∈ l) then 1%Z else 0%Z.
Proof.
  induction 1 as [|y l Hy Hnd IH]; [done|]. rewrite occ_cons, IH.
  destruct (decide (x = y)) as [->|].
  - rewrite (decide_True (P := y ∈ y :: l)) by left. by rewrite decide_False.
  - destruct (decide (x ∈ l)) as [Hin|Hin]; destruct (decide (x ∈ y :: l)) as [Hin2|Hin2]; try done;
      rewrite elem_of_cons in Hin2; naive_solver.
Qed.
Lemma occ_filter_one (P : A → Prop) `{∀ x, Decision (P x)} x l :
  NoDup (filter P l) → x ∈ l → P x → occ x l = 1%Z.
Proof.
  intros Hnd Hx HP. pose proof (occ_nodup x _ Hnd) as Ho.
  rewrite decide_True in Ho by by apply list_elem_of_filter.
  rewrite <- Ho. unfold occ. rewrite list_filter_filter. f_equal. apply list_filter_iff. naive_solver.
Qed.
Lemma occ_insert x y z l i :
  l !! i = Some y →
  occ x (<[i := z]> l) =
    (occ x l - (if decide (x = y) then 1 else 0) + (if decide (x = z) then 1 else 0))%Z.
Proof.
  intros Hi. rewrite <- (take_drop_middle l i y Hi) at 2. rewrite insert_take_drop by by eapply lookup_lt_Some.
  rewrite !occ_app, !occ_cons. lia.
Qed.
Lemma occ_le_nodup l k : NoDup k → (∀ x, (occ x l ≤ occ x k)%Z) → NoDup l.
Proof.
  intros Hk Hle. induction l as [|y l IH]; [apply NoDup_nil_2|]. apply NoDup_cons. split.
  - intros Hy. apply occ_pos in Hy. specialize (Hle y). rewrite occ_cons, decide_True in Hle by done.
    rewrite (occ_nodup y k Hk) in Hle. case_decide; lia.
  - apply IH. intros x. specialize (Hle x). rewrite occ_cons in Hle. case_decide; lia.
Qed.
Lemma occ_filter (P : A → Prop) `{∀ x, Decision (P x)} x l :
  occ x (filter P l) = if decide (P x) then occ x l else 0%Z.
Proof.
  induction l as [|y l IH]; [by case_decide|]. rewrite filter_cons.
  destruct (decide (P y)); rewrite ?occ_cons, IH; destruct (decide (P x)), (decide (x = y)); subst; try done; lia.
Qed.
Lemma occ_perm x l k : l ≡ₚ k → occ x l = occ x k.
Proof. intros H. unfold occ, len. by rewrite H. Qed.
Lemma occ_reverse x l : occ x (reverse l) = occ x l.
Proof. apply occ_perm, reverse_Permutation. Qed.
End occ.
#[export] Hint Rewrite @occ_nil @occ_cons @occ_app @occ_reverse : len.

(** ** [enumerate] *)
Definition enumerate {A} (l : list A) : list (Z * A) := zip (range (len l)) l.

Lemma enumerate_lookup {A} (l : list A) i z x :
  enumerate l !! i = Some (z, x) ↔ z = Z.of_nat i ∧ l !! i = Some x.
Proof.
  unfold enumerate. rewrite lookup_zip_with_Some. split.
  - intros (? & ? & [= -> ->] & [-> _]%range_lookup & ?). done.
  - intros [-> Hx]. exists (Z.of_nat i), x. split_and!; [done| |done].
    apply range_lookup. apply lookup_lt_Some in Hx. unfold len. lia.
Qed.

Lemma enumerate_length {A} (l : list A) : length (enumerate l) = length l.
Proof.
  unfold enumerate, range, range2, len. rewrite length_zip_with, length_fmap, length_seq. lia.
Qed.

Lemma enumerate_split {A} (l : list A) done z x todo :
  enumerate l = done ++ (z, x) :: todo → z = len done ∧ l !! length done = Some x.
Proof.
  intros H. apply enumerate_lookup. by rewrite H, lookup_app_r, Nat.sub_diag by lia.
Qed.

(** ** Filters and nested loops *)
Lemma filter_fmap_comm {A B} (f : A → B) (P : B → Prop) `{∀ y, Decision (P y)} (l : list A) :
  f <$> filter (λ x, P (f x)) l = filter P (f <$> l).
Proof.
  induction l as [|x l IH]; [done|]. rewrite fmap_cons, !filter_cons.
  repeat case_decide; try done. by rewrite fmap_cons, IH.
Qed.

Lemma filter_ext_in {A} (P Q : A → Prop) `{∀ x, Decision (P x)} `{∀ x, Decision (Q x)} (l : list A) :
  (∀ x, x ∈ l → P x ↔ Q x) → filter P l = filter Q l.
Proof.
  induction l as [|x l IH]; intros HPQ; [done|]. rewrite !filter_cons.
  rewrite IH by (intros y Hy; apply HPQ; by right). destruct (HPQ x) as [? ?]; [by left|]. repeat case_decide; tauto.
Qed.

Lemma list_filter_id {A} (P : A → Prop) `{∀ x, Decision (P x)} (l : list A) :
  (∀ x, x ∈ l → P x) → filter P l = l.
Proof.
  induction l as [|x l IH]; [done|]. intros HP.
  rewrite filter_cons_True by (apply HP; left). f_equal. apply IH. intros y Hy. apply HP. by right.
Qed.

Lemma NoDup_filter_impl {A} (P Q : A → Prop) `{∀ x, Decision (P x), ∀ x, Decision (Q x)} (l : list A) :
  (∀ x, P x → Q x) → NoDup (filter Q l) → NoDup (filter P l).
Proof.
  intros HPQ. induction l as [|x l IH]; [done|]. rewrite !filter_cons.
  repeat case_decide; rewrite ?NoDup_cons, ?list_elem_of_filter; naive_solver.
Qed.

(** Where a filtered list has no duplicates, an element that passes has one index. *)
Lemma NoDup_filter_lookup {A} (P : A → Prop) `{∀ x, Decision (P x)} (l : list A) i j x :
  NoDup (filter P l) → l !! i = Some x → l !! j = Some x → P x → i = j.
Proof.
  revert i j. induction l as [|y l IH]; intros i j Hnd Hi Hj HP; [done|].
  assert (Hin : ∀ k, l !! k = Some x → x ∈ filter P l).
  { intros k Hk. apply list_elem_of_filter. split; [done|by eapply list_elem_of_lookup_2]. }
  rewrite filter_cons in Hnd. destruct i as [|i], j as [|j]; simplify_eq/=; [done|..].
  - rewrite decide_True in Hnd by done. apply NoDup_cons in Hnd as [Hx _]. by destruct Hx; eapply Hin.
  - rewrite decide_True in Hnd by done. apply NoDup_cons in Hnd as [Hx _]. by destruct Hx; eapply Hin.
  - f_equal. apply IH; try done. case_decide; [by apply NoDup_cons in Hnd as [_ ?]|done].
Qed.

Lemma NoDup_by_lookup {A} (l : list A) :
  (∀ i j x, l !! i = Some x → l !! j = Some x → i = j) → NoDup l.
Proof. intros H. apply NoDup_alt. intros i j x. apply H. Qed.

Lemma NoDup_filter_by_lookup {A} (P : A → Prop) `{∀ x, Decision (P x)} (l : list A) :
  (∀ i j x, P x → l !! i = Some x → l !! j = Some x → i = j) → NoDup (filter P l).
Proof.
  induction l as [|y l IH]; intros Hu; [constructor|].
  assert (Hl : NoDup (filter P l)).
  { apply IH. intros i j x HP Hi Hj. specialize (Hu (S i) (S j) x HP Hi Hj). lia. }
  rewrite filter_cons. case_decide as HP; [|done]. apply NoDup_cons. split; [|done].
  intros [_ Hin]%list_elem_of_filter. apply list_elem_of_lookup_1 in Hin as [i Hi].
  specialize (Hu 0%nat (S i) y HP eq_refl Hi). lia.
Qed.

(** A filter and its complement share out the list. *)
Lemma len_filter_split {A} (P : A → Prop) `{∀ x, Decision (P x)} (l : list A) :
  len l = (len (filter P l) + len (filter (λ x, ¬ P x) l))%Z.
Proof.
  induction l as [|x l IH]; [done|]. rewrite !filter_cons.
  destruct (decide (P x)), (decide (¬ P x)); try done; rewrite ?len_cons; lia.
Qed.

Lemma filter_ne_split `{EqDecision A} (x : A) l1 l2 :
  NoDup (l1 ++ x :: l2) → filter (.≠ x) (l1 ++ x :: l2) = l1 ++ l2.
Proof.
  intros Hnd. apply NoDup_app in Hnd as (_ & Hd & Hnd). apply NoDup_cons in Hnd as [Hx _].
  rewrite filter_app, filter_cons_False by naive_solver.
  f_equal; apply list_filter_id; intros y Hy ->; [|done]. apply (Hd _ Hy). left.
Qed.

Lemma for_each_app {S A} (l k : list A) (body : A → M S unit) s :
  for_each (l ++ k) body s = (for_each l body ;; for_each k body) s.
Proof.
  revert s. induction l as [|x l IH]; intros s; [done|]. simpl. unfold mbind, M_bind.
  destruct (body x s) as [[[]|e] s']; [|done]. apply IH.
Qed.
Lemma for_each_concat {S A} (ls : list (list A)) (body : A → M S unit) s :
  for_each ls (λ l, for_each l body) s = for_each (concat ls) body s.
Proof.
  revert s. induction ls as [|l ls IH]; intros s; [done|]. simpl. rewrite for_each_app.
  unfold mbind, M_bind. destruct (for_each l body s) as [[[]|e] s']; [|done]. apply IH.
Qed.

Lemma range_down_S (n : nat) : range_down (Z.of_nat (S n)) = Z.of_nat n :: range_down (Z.of_nat n).
Proof.
  unfold range_down, range, range2. rewrite !Z.sub_0_r, !Nat2Z.id, seq_S, fmap_app, reverse_app. done.
Qed.
Lemma range_down_neg n : (n ≤ 0)%Z → range_down n = [].
Proof. intros Hn. unfold range_down, range, range2. by replace (Z.to_nat (n - 0)) with 0%nat by lia. Qed.

Lemma zsum_app l k : zsum (l ++ k) = (zsum l + zsum k)%Z.
Proof. induction l as [|x l IH]; simpl; [done|]. unfold zsum in *. simpl. lia. Qed.
Lemma zsum_cons x l : zsum (x :: l) = (x + zsum l)%Z.
Proof. done. Qed.

#[export] Instance zsum_perm : Proper ((≡ₚ) ==> (=)) zsum.
Proof. induction 1; rewrite ?zsum_cons in *; lia. Qed.
Lemma zsum_take_S l k x : l !! k = Some x → zsum (take (S k) l) = (zsum (take k l) + x)%Z.
Proof. intros H. rewrite (take_S_r _ _ _ H), zsum_app. unfold zsum at 2. simpl. lia. Qed.
Lemma zsum_le l k : length l = length k → (∀ i x y, l !! i = Some x → k !! i = Some y → (x ≤ y)%Z) → (zsum l ≤ zsum k)%Z.
Proof.
  revert k. induction l as [|x l IH]; intros [|y k] Hlen Hle; try done. rewrite !zsum_cons.
  pose proof (Hle 0%nat x y eq_refl eq_refl). assert (zsum l ≤ zsum k)%Z; [|lia].
  apply IH; [by injection Hlen|]. intros i. apply (Hle (S i)).
Qed.
Lemma zsum_nonneg l : (∀ x, x ∈ l → (0 ≤ x)%Z) → (0 ≤ zsum l)%Z.
Proof.
  induction l as [|x l IH]; intros H; [done|]. rewrite zsum_cons.
  assert (0 ≤ x)%Z by (apply H; left). assert (0 ≤ zsum l)%Z; [|lia]. apply IH. intros y Hy. apply H. by right.
Qed.

(** ** Lists of lists *)
Lemma elem_of_concat {A} (x : A) (ls : list (list A)) : x ∈ concat ls ↔ ∃ l, l ∈ ls ∧ x ∈ l.
Proof.
  rewrite list_elem_of_In, in_concat. setoid_rewrite list_elem_of_In. naive_solver.
Qed.
Lemma concat_take_S {A} (ls : list (list A)) k l :
  ls !! k = Some l → concat (take (S k) ls) = concat (take k ls) ++ l.
Proof. intros Hk. rewrite (take_S_r _ _ _ Hk), concat_app. simpl. by rewrite app_nil_r. Qed.
Lemma concat_occ_split `{EqDecision A} (ls : list (list A)) k l x :
  ls !! k = Some l → (occ x (concat (take k ls)) + occ x l ≤ occ x (concat ls))%Z.
Proof.
  intros Hk. rewrite <- (take_drop (S k) ls) at 2.
  rewrite concat_app, (concat_take_S _ _ _ Hk), !occ_app.
  pose proof (occ_nonneg x (concat (drop (S k) ls))). lia.
Qed.

Lemma zsum_zip_add {A B} (f : A → B → Z) (h : B → Z) (l : list A) (k : list B) :
  length k = length l →
  zsum (zip_with (λ x y, (f x y + h y)%Z) l k) = (zsum (zip_with f l k) + zsum (h <$> k))%Z.
Proof.
  revert k. induction l as [|x l IH]; intros [|y k] Hlen; try done.
  rewrite fmap_cons. cbn [zip_with]. rewrite !zsum_cons, IH by (by injection Hlen). lia.
Qed.
Lemma zsum_replicate_0 n : zsum (replicate n 0%Z) = 0%Z.
Proof. induction n as [|n IH]; [done|]. cbn [replicate]. by rewrite zsum_cons, IH. Qed.

(** * [mapM] of calls that may raise *)
Lemma mapM_Ok {A B} (f : A → outcome B) l k : mapM f l = Ok k ↔ Forall2 (λ x y, f x = Ok y) l k.
Proof.
  revert k. induction l as [|x l IH]; intros k; cbn [mapM].
  - split; [intros [= <-]; constructor|by intros ->%Forall2_nil_inv_l].
  - destruct (f x) as [y|e] eqn:Hx; cbn [mbind outcome_bind].
    + destruct (mapM f l) as [k'|e] eqn:Hl; cbn [mbind outcome_bind].
      * split; [intros [= <-]; constructor; [done|by apply IH]|].
        intros (y' & k'' & Hy & Hk & ->)%Forall2_cons_inv_l. apply IH in Hk. cbn in Hy; rewrite Hx in Hy; injection Hy as ->; injection Hk as ->; reflexivity.
      * split; [done|]. intros (y' & k'' & Hy & Hk & ->)%Forall2_cons_inv_l. apply IH in Hk. done.
    + split; [done|]. intros (y' & k'' & Hy & Hk & ->)%Forall2_cons_inv_l. cbn in Hy; by rewrite Hx in Hy.
Qed.
