(* ===== verification/FreeBlockQueue.v ===== *)
(** Block metadata and the free-block queue of [v1/core/kv_cache_utils.py]:
    [BlockHash], [BlockHashWithGroupId], [KVCacheBlock] and the intrusive doubly
    linked list [FreeKVCacheBlockQueue], with the refinement of every queue
    operation to an operation on a plain list of free blocks. *)
From Stdlib Require Import ZArith Lia.
From stdpp Require Import base strings countable gmap sets fin_maps list.
From S2P Require Import Prelude.
Local Open Scope Z_scope.

(** * Block hashes *)

(** What the code puts in [extra_keys]: LoRA ids are [int]s, multi-modal hashes
    and cache salts are [str]s. *)
Inductive extra_key : Type :=
  | KInt (i : Z)
  | KStr (s : string).

#[export] Instance extra_key_eq_dec : EqDecision extra_key.
Proof. solve_decision. Defined.
#[export] Instance extra_key_countable : Countable extra_key.
Proof.
  refine (inj_countable' (λ k, match k with KInt i => inl i | KStr s => inr s end)
    (λ k, match k with inl i => KInt i | inr s => KStr s end) _).
  by intros [].
Defined.

Record BlockHash : Type := mkBlockHash {
  hash_value : Z;
  token_ids : list Z;
  extra_keys : option (list extra_key)
}.
#[export] Instance BlockHash_eq_dec : EqDecision BlockHash.
Proof. solve_decision. Defined.
#[export] Instance BlockHash_countable : Countable BlockHash.
Proof.
  refine (inj_countable' (λ h, (hash_value h, token_ids h, extra_keys h))
    (λ '(v, t, e), mkBlockHash v t e) _).
  by intros [].
Defined.

Record BlockHashWithGroupId : Type := mkBlockHashWithGroupId {
  block_hash_of : BlockHash;
  group_id : Z
}.
#[export] Instance BlockHashWithGroupId_eq_dec : EqDecision BlockHashWithGroupId.
Proof. solve_decision. Defined.
#[export] Instance BlockHashWithGroupId_countable : Countable BlockHashWithGroupId.
Proof.
  refine (inj_countable' (λ h, (block_hash_of h, group_id h))
    (λ '(b, g), mkBlockHashWithGroupId b g) _).
  by intros [].
Defined.

Definition get_hash_value (h : BlockHashWithGroupId) : Z :=
  hash_value (block_hash_of h).

(** * Blocks and the store that holds them

    A [KVCacheBlock] object is referred to by a pointer: [Blk i] is the block at
    index [i] of the pool's [blocks] list, [FakeHead] and [FakeTail] are the two
    sentinels the queue allocates. *)
Inductive ptr : Type :=
  | FakeHead
  | FakeTail
  | Blk (i : nat).

#[export] Instance ptr_eq_dec : EqDecision ptr.
Proof. solve_decision. Defined.
#[export] Instance ptr_countable : Countable ptr.
Proof.
  refine (inj_countable'
    (λ p, match p with FakeHead => inl false | FakeTail => inl true | Blk i => inr i end)
    (λ p, match p with inl false => FakeHead | inl true => FakeTail | inr i => Blk i end) _).
  by intros [].
Defined.

Record KVCacheBlock : Type := mkKVCacheBlock {
  block_id : Z;
  ref_cnt : Z;
  block_hash : option BlockHashWithGroupId;
  prev_free_block : option ptr;
  next_free_block : option ptr;
  is_null : bool
}.

(** [KVCacheBlock(block_id)]: the dataclass defaults. *)
Definition new_block (id : Z) : KVCacheBlock :=
  mkKVCacheBlock id 0 None None None false.

Definition with_prev (v : option ptr) (b : KVCacheBlock) : KVCacheBlock :=
  mkKVCacheBlock (block_id b) (ref_cnt b) (block_hash b) v (next_free_block b) (is_null b).
Definition with_next (v : option ptr) (b : KVCacheBlock) : KVCacheBlock :=
  mkKVCacheBlock (block_id b) (ref_cnt b) (block_hash b) (prev_free_block b) v (is_null b).
Definition with_ref_cnt (v : Z) (b : KVCacheBlock) : KVCacheBlock :=
  mkKVCacheBlock (block_id b) v (block_hash b) (prev_free_block b) (next_free_block b) (is_null b).
Definition with_hash (v : option BlockHashWithGroupId) (b : KVCacheBlock) : KVCacheBlock :=
  mkKVCacheBlock (block_id b) (ref_cnt b) v (prev_free_block b) (next_free_block b) (is_null b).
Definition with_null (v : bool) (b : KVCacheBlock) : KVCacheBlock :=
  mkKVCacheBlock (block_id b) (ref_cnt b) (block_hash b) (prev_free_block b) (next_free_block b) v.

(** The queue object together with the store its links live in. *)
Record FreeQueue : Type := mkFreeQueue {
  heap : gmap ptr KVCacheBlock;
  num_free_blocks : Z
}.

(** Attribute reads and writes. *)
Definition load (p : ptr) : M FreeQueue KVCacheBlock := λ s,
  match heap s !! p with Some b => (Ok b, s) | None => (Raise DanglingReference, s) end.
Definition update_block (p : ptr) (f : KVCacheBlock → KVCacheBlock) (s : FreeQueue) : FreeQueue :=
  mkFreeQueue (alter f p (heap s)) (num_free_blocks s).
Definition add_free (n : Z) (s : FreeQueue) : FreeQueue :=
  mkFreeQueue (heap s) (num_free_blocks s + n).

Definition set_prev (p : ptr) (v : option ptr) : M FreeQueue unit :=
  modify (update_block p (with_prev v)).
Definition set_next (p : ptr) (v : option ptr) : M FreeQueue unit :=
  modify (update_block p (with_next v)).

(** Using an attribute of [None] raises [AttributeError]. *)
Definition deref {S} (o : option ptr) : M S ptr :=
  match o with Some p => mret p | None => raise AttributeError end.

(** The [block_hash] setter and [reset_hash] of [KVCacheBlock]. *)
Definition set_block_hash (p : ptr) (h : BlockHashWithGroupId) : M FreeQueue unit :=
  b ← load p;
  assert_ (bool_decide (block_hash b = None)) ;;
  modify (update_block p (with_hash (Some h))).
Definition reset_hash (p : ptr) : M FreeQueue unit :=
  modify (update_block p (with_hash None)).

(** * [FreeKVCacheBlockQueue] *)

Definition FreeKVCacheBlockQueue_init (blocks : list ptr) : M FreeQueue unit :=
  let n := len blocks in
  modify (λ s, mkFreeQueue (heap s) n) ;;
  for_each (range n) (λ i,
    bi ← lift_outcome (py_index blocks i);
    (if decide (i > 0)
     then bp ← lift_outcome (py_index blocks (i - 1)); set_prev bi (Some bp)
     else mret tt) ;;
    (if decide (i < n - 1)
     then bn ← lift_outcome (py_index blocks (i + 1)); set_next bi (Some bn)
     else mret tt)) ;;
  modify (λ s, mkFreeQueue (<[FakeHead := new_block (-1)]> (heap s)) (num_free_blocks s)) ;;
  modify (λ s, mkFreeQueue (<[FakeTail := new_block (-1)]> (heap s)) (num_free_blocks s)) ;;
  if decide (n > 0) then
    b0 ← lift_outcome (py_index blocks 0);
    bl ← lift_outcome (py_index blocks (-1));
    set_next FakeHead (Some b0) ;;
    set_prev b0 (Some FakeHead) ;;
    set_prev FakeTail (Some bl) ;;
    set_next bl (Some FakeTail)
  else
    set_next FakeHead (Some FakeTail) ;;
    set_prev FakeTail (Some FakeHead).

Definition popleft : M FreeQueue ptr :=
  head ← load FakeHead;
  if decide (next_free_block head = Some FakeTail ∨ next_free_block head = None) then
    n ← gets num_free_blocks;
    assert_ (bool_decide (n = 0)) ;;
    raise ValueError
  else
    first_block ← deref (next_free_block head);
    fb ← load first_block;
    match next_free_block fb with
    | None => raise RuntimeError
    | Some second =>
      set_next FakeHead (Some second) ;;
      set_prev second (Some FakeHead) ;;
      set_prev first_block None ;;
      set_next first_block None ;;
      modify (add_free (-1)) ;;
      mret first_block
    end.

Fixpoint popleft_n_loop (n : nat) (curr_block : option ptr) (ret : list ptr)
    : M FreeQueue (option ptr * list ptr) :=
  match n with
  | O => mret (curr_block, ret)
  | S n' =>
    match curr_block with
    | None => raise AssertionError
    | Some last_block =>
      b ← load last_block;
      set_prev last_block None ;;
      set_next last_block None ;;
      popleft_n_loop n' (next_free_block b) (ret ++ [last_block])
    end
  end.

Definition popleft_n (n : Z) : M FreeQueue (list ptr) :=
  if decide (n = 0) then mret []
  else
    nf ← gets num_free_blocks;
    assert_ (bool_decide (nf >= n)) ;;
    modify (add_free (- n)) ;;
    head ← load FakeHead;
    '(curr_block, ret) ← popleft_n_loop (Z.to_nat n) (next_free_block head) [];
    match curr_block with
    | Some curr =>
      set_next FakeHead (Some curr) ;;
      set_prev curr (Some FakeHead) ;;
      mret ret
    | None => mret ret
    end.

Definition remove (block : ptr) : M FreeQueue unit :=
  b ← load block;
  match prev_free_block b, next_free_block b with
  | Some prev, Some next =>
    set_next prev (Some next) ;;
    b' ← load block;
    next' ← deref (next_free_block b');
    set_prev next' (prev_free_block b') ;;
    set_prev block None ;;
    set_next block None ;;
    modify (add_free (-1))
  | _, _ => raise RuntimeError
  end.

Definition append (block : ptr) : M FreeQueue unit :=
  tail ← load FakeTail;
  match prev_free_block tail with
  | None => raise RuntimeError
  | Some last_block =>
    set_next last_block (Some block) ;;
    set_prev block (Some last_block) ;;
    set_next block (Some FakeTail) ;;
    set_prev FakeTail (Some block) ;;
    modify (add_free 1)
  end.

Definition append_n (blocks : list ptr) : M FreeQueue unit :=
  if decide (len blocks = 0) then mret tt
  else
    modify (add_free (len blocks)) ;;
    tail ← load FakeTail;
    match prev_free_block tail with
    | None => raise AssertionError
    | Some last_block =>
      last ← fold_each blocks last_block (λ last_block block,
        set_prev block (Some last_block) ;;
        set_next last_block (Some block) ;;
        mret block);
      set_next last (Some FakeTail) ;;
      set_prev FakeTail (Some last)
    end.

(** The [while] loop of [get_all_free_blocks]. *)
Fixpoint get_all_loop (fuel : nat) (curr_block : ptr) (ret : list ptr) : M FreeQueue (list ptr) :=
  match fuel with
  | O => raise OutOfFuel
  | S fuel' =>
    b ← load curr_block;
    match next_free_block b with
    | None => mret ret
    | Some next => get_all_loop fuel' next (ret ++ [curr_block])
    end
  end.

(** A chain of distinct blocks is no longer than the store is large. *)
Definition get_all_free_blocks : M FreeQueue (list ptr) :=
  head ← load FakeHead;
  match next_free_block head with
  | None => raise RuntimeError
  | Some curr_block =>
    fuel ← gets (λ s, S (size (heap s)));
    get_all_loop fuel curr_block []
  end.

(** * The abstract view: a list of free blocks *)

Definition nxt (s : FreeQueue) (p : ptr) : option ptr := heap s !! p ≫= next_free_block.
Definition prv (s : FreeQueue) (p : ptr) : option ptr := heap s !! p ≫= prev_free_block.

(** Consecutive elements point at each other. *)
Fixpoint linked (s : FreeQueue) (l : list ptr) : Prop :=
  match l with
  | x :: ((y :: _) as t) => nxt s x = Some y ∧ prv s y = Some x ∧ linked s t
  | _ => True
  end.

Definition is_blk (p : ptr) : Prop := ∃ i, p = Blk i.

(** [queue_repr s l]: the queue in the store [s] holds exactly the blocks [l], in
    eviction order. *)
Record queue_repr (s : FreeQueue) (l : list ptr) : Prop := {
  repr_nodup : NoDup l;
  repr_blk : Forall is_blk l;
  repr_linked : linked s (FakeHead :: l ++ [FakeTail]);
  repr_num : num_free_blocks s = len l;
  repr_tail : nxt s FakeTail = None;
  repr_out : ∀ p, is_blk p → p ∉ l → nxt s p = None ∧ prv s p = None
}.

(** Everything about a block but its links. *)
Definition meta (b : KVCacheBlock) : Z * Z * option BlockHashWithGroupId * bool :=
  (block_id b, ref_cnt b, block_hash b, is_null b).

(** The queue operations change links and the counter, nothing else. *)
Definition same_meta (s s' : FreeQueue) : Prop :=
  ∀ p, meta <$> heap s !! p = meta <$> heap s' !! p.

#[export] Instance same_meta_equivalence : Equivalence same_meta.
Proof.
  split; [done|by intros s s' H p|]. intros s1 s2 s3 H12 H23 p. by rewrite H12.
Qed.

Lemma same_meta_is_Some s s' p :
  same_meta s s' → is_Some (heap s !! p) → is_Some (heap s' !! p).
Proof.
  intros H [b Hb]. specialize (H p). rewrite Hb in H. simpl in H.
  by destruct (heap s' !! p); [eexists|].
Qed.

(** ** Link updates *)
Section links.
Implicit Types (s : FreeQueue) (p q : ptr) (v : option ptr).

Lemma lookup_update_block s f p q :
  heap (update_block p f s) !! q =
    if decide (p = q) then f <$> heap s !! q else heap s !! q.
Proof.
  unfold update_block; simpl. case_decide; subst;
    [by rewrite lookup_alter_eq|by rewrite lookup_alter_ne].
Qed.

Lemma heap_set s f p q :
  is_Some (heap (update_block p f s) !! q) ↔ is_Some (heap s !! q).
Proof.
  rewrite lookup_update_block. case_decide; [|done]. by rewrite fmap_is_Some.
Qed.

Lemma nxt_set_next_eq s p v : is_Some (heap s !! p) → nxt (update_block p (with_next v) s) p = v.
Proof.
  intros [b Hb]. unfold nxt. by rewrite lookup_update_block, decide_True, Hb.
Qed.
Lemma nxt_set_next_ne s p q v : p ≠ q → nxt (update_block p (with_next v) s) q = nxt s q.
Proof. intros. unfold nxt. by rewrite lookup_update_block, decide_False. Qed.
Lemma prv_set_next s p q v : prv (update_block p (with_next v) s) q = prv s q.
Proof.
  unfold prv. rewrite lookup_update_block. case_decide; [|done].
  by destruct (heap s !! q).
Qed.
Lemma prv_set_prev_eq s p v : is_Some (heap s !! p) → prv (update_block p (with_prev v) s) p = v.
Proof.
  intros [b Hb]. unfold prv. by rewrite lookup_update_block, decide_True, Hb.
Qed.
Lemma prv_set_prev_ne s p q v : p ≠ q → prv (update_block p (with_prev v) s) q = prv s q.
Proof. intros. unfold prv. by rewrite lookup_update_block, decide_False. Qed.
Lemma nxt_set_prev s p q v : nxt (update_block p (with_prev v) s) q = nxt s q.
Proof.
  unfold nxt. rewrite lookup_update_block. case_decide; [|done].
  by destruct (heap s !! q).
Qed.
Lemma nxt_add_free s n p : nxt (add_free n s) p = nxt s p.
Proof. done. Qed.
Lemma prv_add_free s n p : prv (add_free n s) p = prv s p.
Proof. done. Qed.

Lemma same_meta_set_next s p v : same_meta s (update_block p (with_next v) s).
Proof.
  intros q. rewrite lookup_update_block. case_decide; [|done]. by destruct (heap s !! q).
Qed.
Lemma same_meta_set_prev s p v : same_meta s (update_block p (with_prev v) s).
Proof.
  intros q. rewrite lookup_update_block. case_decide; [|done]. by destruct (heap s !! q).
Qed.
Lemma same_meta_add_free s n : same_meta s (add_free n s).
Proof. done. Qed.

Lemma nxt_is_Some s p q : nxt s p = Some q → is_Some (heap s !! p).
Proof. unfold nxt. by destruct (heap s !! p). Qed.
Lemma prv_is_Some s p q : prv s p = Some q → is_Some (heap s !! p).
Proof. unfold prv. by destruct (heap s !! p). Qed.
End links.

Create HintDb links.
#[export] Hint Resolve nxt_is_Some prv_is_Some : links.
#[export] Hint Resolve same_meta_set_next same_meta_set_prev same_meta_add_free : links.

(** [links] computes the links after a sequence of updates. *)
Ltac links_side := first [done | congruence | by apply heap_set; links_side | by eauto with links].
Ltac links :=
  repeat first
    [ rewrite nxt_add_free | rewrite prv_add_free
    | rewrite nxt_set_prev | rewrite prv_set_next
    | rewrite nxt_set_next_eq by links_side | rewrite nxt_set_next_ne by links_side
    | rewrite prv_set_prev_eq by links_side | rewrite prv_set_prev_ne by links_side ].

(** [same_meta_tac] peels the updates off the final store. *)
Ltac same_meta_tac :=
  repeat first
    [ reflexivity
    | etransitivity; [|apply same_meta_set_next]
    | etransitivity; [|apply same_meta_set_prev]
    | etransitivity; [|apply same_meta_add_free] ].

(** ** Chains *)
Section chains.
Implicit Types (s : FreeQueue) (l : list ptr).

Lemma linked_lookup s l :
  linked s l ↔ ∀ i x y, l !! i = Some x → l !! S i = Some y →
    nxt s x = Some y ∧ prv s y = Some x.
Proof.
  induction l as [|x [|y l] IH]; simpl.
  - by split.
  - split; [|done]. by intros _ [|i] ?? ?%lookup_lt_Some ?%lookup_lt_Some; simpl in *; lia.
  - rewrite IH. split.
    + intros (? & ? & H) [|i] ????; simplify_eq/=; eauto.
    + intros H. split_and!; [by apply (H 0%nat)..|]. intros i. apply (H (S i)).
Qed.

Lemma linked_app s l1 x l2 :
  linked s (l1 ++ x :: l2) ↔ linked s (l1 ++ [x]) ∧ linked s (x :: l2).
Proof.
  induction l1 as [|y l1 IH]; simpl; [naive_solver|].
  destruct l1 as [|z l1]; simpl in *; [naive_solver|].
  rewrite IH. naive_solver.
Qed.

Lemma linked_cons s x y l :
  linked s (x :: y :: l) ↔ nxt s x = Some y ∧ prv s y = Some x ∧ linked s (y :: l).
Proof. done. Qed.

Lemma linked_heap s s' l : heap s = heap s' → linked s l → linked s' l.
Proof.
  intros Hh. rewrite !linked_lookup. intros H i x y ??. unfold nxt, prv.
  rewrite <- Hh. by eapply H.
Qed.

(** A chain only reads the [next] links of its elements but the last, and the
    [prev] links of its elements but the first. *)
Lemma linked_ext s s' x l :
  (∀ p, p ∈ l → prv s' p = prv s p) →
  (∀ p, p ∈ removelast (x :: l) → nxt s' p = nxt s p) →
  linked s (x :: l) → linked s' (x :: l).
Proof.
  revert x. induction l as [|y l IH]; intros x Hp Hn; [done|].
  rewrite !linked_cons. intros (? & ? & ?). split_and!.
  - rewrite Hn; [done|]. simpl. left.
  - rewrite Hp; [done|]. left.
  - apply IH; [| |done].
    + intros p Hin. apply Hp. by right.
    + intros p Hin. apply Hn. change (removelast (x :: y :: l)) with (x :: removelast (y :: l)).
      by right.
Qed.

Lemma removelast_snoc {A} (l : list A) x : removelast (l ++ [x]) = l.
Proof. apply removelast_last. Qed.
End chains.

(** ** Running the primitive steps *)
Section steps.
Implicit Types (s : FreeQueue).

Lemma wp_load s p b (Q : KVCacheBlock → FreeQueue → Prop) :
  heap s !! p = Some b → Q b s → wp (load p) Q s.
Proof. unfold wp, load. by intros ->. Qed.

Lemma wp_load_links s p (Q : KVCacheBlock → FreeQueue → Prop) :
  is_Some (heap s !! p) →
  (∀ b, heap s !! p = Some b → next_free_block b = nxt s p → prev_free_block b = prv s p → Q b s) →
  wp (load p) Q s.
Proof.
  intros [b Hb] HQ. apply (wp_load _ _ b); [done|].
  apply HQ; [done|unfold nxt|unfold prv]; by rewrite Hb.
Qed.

Lemma wp_set_next s p v (Q : unit → FreeQueue → Prop) :
  Q tt (update_block p (with_next v) s) → wp (set_next p v) Q s.
Proof. done. Qed.
Lemma wp_set_prev s p v (Q : unit → FreeQueue → Prop) :
  Q tt (update_block p (with_prev v) s) → wp (set_prev p v) Q s.
Proof. done. Qed.
Lemma wp_deref {S} p (Q : ptr → S → Prop) (s : S) : Q p s → wp (deref (Some p)) Q s.
Proof. done. Qed.
End steps.

Ltac q_step :=
  match goal with
  | |- wp (set_next _ _) _ _ => apply wp_set_next
  | |- wp (set_prev _ _) _ _ => apply wp_set_prev
  | |- wp (deref (Some _)) _ _ => apply wp_deref
  | _ => wp_step
  end.
Ltac q_steps := repeat (q_step; cbn beta).

(** ** Consequences of the representation *)
Section repr.
Implicit Types (s : FreeQueue) (l : list ptr).

Lemma repr_not_sentinel s l p : queue_repr s l → p ∈ l → p ≠ FakeHead ∧ p ≠ FakeTail.
Proof.
  intros Hr Hp. pose proof (repr_blk _ _ Hr) as HF.
  rewrite Forall_forall in HF. by destruct (HF p Hp) as [i ->].
Qed.

Lemma repr_chain_nodup s l : queue_repr s l → NoDup (FakeHead :: l ++ [FakeTail]).
Proof.
  intros Hr. apply NoDup_cons. split.
  - rewrite elem_of_app, list_elem_of_singleton. intros [H|H]; [|done].
    by apply (repr_not_sentinel _ _ _ Hr) in H as [? _].
  - apply NoDup_app. split_and!; [by eapply repr_nodup| |apply NoDup_singleton].
    intros p Hp ->%list_elem_of_singleton.
    by apply (repr_not_sentinel _ _ _ Hr) in Hp as [_ ?].
Qed.

(** The neighbours of an element of the chain. *)
Lemma chain_neighbours l1 x l2 :
  ∃ L a y R, FakeHead :: l1 = L ++ [a] ∧ l2 ++ [FakeTail] = y :: R ∧
    FakeHead :: (l1 ++ x :: l2) ++ [FakeTail] = L ++ a :: x :: y :: R ∧
    FakeHead :: (l1 ++ l2) ++ [FakeTail] = L ++ a :: y :: R.
Proof.
  destruct (exists_last (l := FakeHead :: l1)) as (L & a & HL); [done|].
  destruct (l2 ++ [FakeTail]) as [|y R] eqn:HR; [by destruct l2|].
  exists L, a, y, R. split_and!; [done|done| |].
  - rewrite <- app_assoc. simpl. rewrite HR.
    change (FakeHead :: l1 ++ x :: y :: R) with ((FakeHead :: l1) ++ x :: y :: R).
    by rewrite HL, <- app_assoc.
  - rewrite <- app_assoc, HR.
    change (FakeHead :: l1 ++ y :: R) with ((FakeHead :: l1) ++ y :: R).
    by rewrite HL, <- app_assoc.
Qed.

(** The store after [x] has been taken out between [a] and [y]. *)
Definition unlinked (a x y : ptr) s : FreeQueue :=
  add_free (-1) (update_block x (with_next None) (update_block x (with_prev None)
    (update_block y (with_prev (Some a)) (update_block a (with_next (Some y)) s)))).

Lemma unlink_repr s l1 x l2 L a y R :
  queue_repr s (l1 ++ x :: l2) →
  FakeHead :: l1 = L ++ [a] → l2 ++ [FakeTail] = y :: R →
  FakeHead :: (l1 ++ x :: l2) ++ [FakeTail] = L ++ a :: x :: y :: R →
  FakeHead :: (l1 ++ l2) ++ [FakeTail] = L ++ a :: y :: R →
  queue_repr (unlinked a x y s) (l1 ++ l2) ∧ same_meta s (unlinked a x y s).
Proof.
  intros Hr HL HR Hfull Hrest.
  pose proof (repr_chain_nodup _ _ Hr) as Hnd. rewrite Hfull in Hnd.
  pose proof (repr_linked _ _ Hr) as Hlk. rewrite Hfull in Hlk.
  apply linked_app in Hlk as [HlkL Hlk]. rewrite !linked_cons in Hlk.
  destruct Hlk as (Hna & Hpx & Hnx & Hpy & HlkR).
  apply NoDup_app in Hnd as (HndL & HdL & Hnd).
  rewrite !NoDup_cons, !not_elem_of_cons in Hnd.
  destruct Hnd as ((Hax & Hay & HaR) & (Hxy & HxR) & HyR & HndR).
  assert (Hx : is_blk x).
  { pose proof (repr_blk _ _ Hr) as HF. rewrite Forall_forall in HF.
    apply HF. rewrite elem_of_app, elem_of_cons. auto. }
  destruct Hx as [i ->]. unfold unlinked. split; [split|].
  - pose proof (repr_nodup _ _ Hr) as H. apply NoDup_app in H as (? & Hd & H).
    apply NoDup_cons in H as [? ?]. apply NoDup_app. split_and!; [done| |done].
    intros p Hp Hp2. eapply Hd; [done|by right].
  - pose proof (repr_blk _ _ Hr) as H. rewrite Forall_app, Forall_cons in H.
    apply Forall_app. naive_solver.
  - rewrite Hrest. apply linked_app. split; [|apply linked_cons; split_and!].
    + destruct L as [|z L]; [done|]. revert HlkL. apply (linked_ext s _ z).
      * intros p Hp.
        assert (p = a ∨ p ∈ (z :: L)) as Hp'
          by (rewrite elem_of_app, list_elem_of_singleton in Hp; rewrite elem_of_cons; tauto).
        assert (p ≠ Blk i ∧ p ≠ y) as [? ?].
        { destruct Hp' as [->|Hp']; [done|]. specialize (HdL _ Hp').
          rewrite !not_elem_of_cons in HdL. tauto. }
        by links.
      * intros p Hp. change (p ∈ removelast ((z :: L) ++ [a])) in Hp.
        rewrite removelast_snoc in Hp. specialize (HdL _ Hp).
        rewrite !not_elem_of_cons in HdL. destruct HdL as (? & ? & ? & ?).
        by links.
    + by links.
    + by links.
    + revert HlkR. apply linked_ext.
      * intros p Hp. assert (p ≠ Blk i ∧ p ≠ y) as [? ?] by set_solver. by links.
      * intros p Hp. assert (p ∈ y :: R) as Hp'.
        { rewrite (app_removelast_last y) by done. rewrite elem_of_app. by left. }
        assert (p ≠ Blk i ∧ p ≠ a) as [? ?] by set_solver. by links.
  - simpl. rewrite (repr_num _ _ Hr). unfold len. rewrite !length_app. simpl. lia.
  - assert (a ≠ FakeTail) as Ha.
    { assert (Hin : FakeTail ∈ y :: R) by (rewrite <- HR; set_solver).
      intros ->. rewrite elem_of_cons in Hin. naive_solver. }
    links. by apply (repr_tail _ _ Hr).
  - intros p Hp Hnin. destruct (decide (p = Blk i)) as [->|Hpi].
    { assert (is_Some (heap s !! Blk i)) by eauto with links. split; by links. }
    destruct (repr_out _ _ Hr p Hp) as [Hn Hpr].
    { rewrite elem_of_app, elem_of_cons in *. tauto. }
    assert (Hall : p ∉ L ++ a :: y :: R).
    { rewrite <- Hrest. destruct Hp as [j ->].
      rewrite elem_of_cons, (elem_of_app (l1 ++ l2)), list_elem_of_singleton. naive_solver. }
    rewrite elem_of_app, !elem_of_cons in Hall.
    assert (p ≠ a ∧ p ≠ y) as [? ?] by tauto. split; by links.
  - same_meta_tac.
Qed.
End repr.

(** ** Taking blocks out *)
Section take_out.
Implicit Types (s : FreeQueue) (l : list ptr).

(** The links around an element of the queue. *)
Lemma repr_neighbours s l1 x l2 :
  queue_repr s (l1 ++ x :: l2) →
  ∃ a y, nxt s a = Some x ∧ prv s x = Some a ∧ nxt s x = Some y ∧ prv s y = Some x ∧
    a ≠ x ∧ x ≠ y ∧ (l1 = [] → a = FakeHead) ∧
    queue_repr (unlinked a x y s) (l1 ++ l2) ∧ same_meta s (unlinked a x y s).
Proof.
  intros Hr. destruct (chain_neighbours l1 x l2) as (L & a & y & R & HL & HR & Hf & Hrest).
  pose proof (repr_linked _ _ Hr) as Hlk. pose proof (repr_chain_nodup _ _ Hr) as Hnd.
  rewrite Hf in Hlk, Hnd. apply linked_app in Hlk as [_ Hlk]. rewrite !linked_cons in Hlk.
  apply NoDup_app in Hnd as (_ & _ & Hnd). rewrite !NoDup_cons, !not_elem_of_cons in Hnd.
  exists a, y. destruct (unlink_repr _ _ _ _ _ _ _ _ Hr HL HR Hf Hrest) as [? ?].
  split_and!; try tauto. intros ->. by destruct L as [|? [|??]]; simplify_eq/=.
Qed.

Lemma popleft_spec s x l :
  queue_repr s (x :: l) →
  wp popleft (λ b s', b = x ∧ queue_repr s' l ∧ same_meta s s') s.
Proof.
  intros Hr. destruct (repr_neighbours s [] x l Hr) as (a & y & Hna & Hpx & Hnx & Hpy & ? & ? & Ha & Hr' & Hm).
  rewrite Ha in * by done. unfold popleft.
  assert (x ≠ FakeTail) by (apply (repr_not_sentinel s (x :: l)); [done|left]).
  apply wp_bind. apply wp_load_links; [eauto with links|]. intros b _ Hb _.
  rewrite Hb, Hna. rewrite decide_False by naive_solver. q_steps.
  apply wp_load_links; [eauto with links|]. intros fb _ Hfb _. rewrite Hfb, Hnx.
  by q_steps.
Qed.

Lemma popleft_empty s :
  queue_repr s [] → popleft s = (Raise ValueError, s).
Proof.
  intros Hr. pose proof (repr_linked _ _ Hr) as (Hn & _ & _).
  unfold popleft, load, mbind, M_bind. unfold nxt in Hn.
  destruct (heap s !! FakeHead) as [b|]; [|done]. simpl in Hn. rewrite Hn.
  rewrite decide_True by auto. unfold gets. by rewrite (repr_num _ _ Hr).
Qed.

Lemma remove_spec s l1 x l2 :
  queue_repr s (l1 ++ x :: l2) →
  wp (remove x) (λ _ s', queue_repr s' (l1 ++ l2) ∧ same_meta s s') s.
Proof.
  intros Hr. destruct (repr_neighbours s l1 x l2 Hr) as (a & y & Hna & Hpx & Hnx & Hpy & ? & ? & _ & Hr' & Hm).
  unfold remove. apply wp_bind. apply wp_load_links; [eauto with links|].
  intros b _ Hb Hb'. rewrite Hb, Hb', Hnx, Hpx. q_steps.
  apply wp_load_links.
  { apply heap_set. eauto with links. }
  intros b2 _ Hb2 Hb2'. rewrite Hb2, Hb2'. rewrite prv_set_next, nxt_set_next_ne by done.
  rewrite Hnx, Hpx. by q_steps.
Qed.

(** Removing a block that is not in the queue raises and changes nothing. *)
Lemma remove_not_free s l p :
  queue_repr s l → is_blk p → p ∉ l → is_Some (heap s !! p) →
  remove p s = (Raise RuntimeError, s).
Proof.
  intros Hr Hp Hnin [b Hb]. destruct (repr_out _ _ Hr p Hp Hnin) as [_ Hpr].
  unfold remove, mbind, M_bind, load. unfold prv in Hpr. rewrite Hb in *. simpl in Hpr.
  by rewrite Hpr.
Qed.

(** One run of the loop of [popleft_n]: it collects [l1] and clears its links. *)
Lemma popleft_n_loop_spec l1 : ∀ l2 y s acc,
  linked s (l1 ++ y :: l2) → NoDup (l1 ++ y :: l2) →
  wp (popleft_n_loop (length l1) (hd_error (l1 ++ [y])) acc)
    (λ r s', r = (Some y, acc ++ l1) ∧
      num_free_blocks s' = num_free_blocks s ∧ same_meta s s' ∧
      ∀ p, nxt s' p = (if decide (p ∈ l1) then None else nxt s p) ∧
           prv s' p = (if decide (p ∈ l1) then None else prv s p)) s.
Proof.
  induction l1 as [|x l1 IH]; intros l2 y s acc Hlk Hnd; simpl.
  { apply wp_ret. rewrite app_nil_r. split_and!; try done. }
  set (y' := default y (hd_error l1)).
  assert (Hy' : ∃ r, l1 ++ y :: l2 = y' :: r) by (unfold y'; destruct l1; eauto).
  destruct Hy' as [r Hy']. simpl in Hlk, Hnd. rewrite Hy' in Hlk.
  apply linked_cons in Hlk as (Hnx & Hpy & Hlk).
  rewrite <- Hy' in Hlk. apply NoDup_cons in Hnd as [Hx Hnd].
  apply wp_bind. apply wp_load_links; [eauto with links|]. intros b _ Hb _. q_steps.
  rewrite Hb, Hnx. replace (Some y') with (hd_error (l1 ++ [y])) by by destruct l1.
  eapply wp_mono.
  - apply (IH l2); [|done]. destruct (l1 ++ y :: l2) as [|z t]; [done|].
    revert Hlk. apply linked_ext.
    + intros p Hp. assert (p ≠ x) by (intros ->; apply Hx; by right). by links.
    + intros p Hp. assert (p ≠ x).
      { intros ->. apply Hx. rewrite (app_removelast_last z) by done.
        rewrite elem_of_app. by left. }
      by links.
  - intros res s' (-> & Hnum & Hm & Hl). split_and!; [by rewrite <- app_assoc|done| |].
    + etransitivity; [|exact Hm]. same_meta_tac.
    + assert (is_Some (heap s !! x)) by eauto with links.
      intros p. destruct (Hl p) as [-> ->]. destruct (decide (p = x)) as [->|Hne].
      * assert (x ∉ l1) by (intros Hin; apply Hx; rewrite elem_of_app; by left).
        rewrite !(decide_True (P := x ∈ x :: l1)), !decide_False by (done || left).
        split; by links.
      * destruct (decide (p ∈ l1)).
        -- by rewrite !decide_True by (by right).
        -- rewrite !(decide_False (P := p ∈ x :: l1)) by (rewrite elem_of_cons; tauto).
           split; by links.
Qed.

(** Reconnecting [FakeHead] after a prefix has been taken out. *)
Lemma drop_prefix_repr s s' x l1 l2 y R (l := (x :: l1)) :
  queue_repr s (l ++ l2) → l2 ++ [FakeTail] = y :: R →
  num_free_blocks s' = len l2 →
  (∀ p, nxt s' p = (if decide (p ∈ l) then None else nxt s p) ∧
        prv s' p = (if decide (p ∈ l) then None else prv s p)) →
  queue_repr (update_block y (with_prev (Some FakeHead))
               (update_block FakeHead (with_next (Some y)) s')) l2.
Proof.
  intros Hr HR Hnum Hl.
  pose proof (repr_linked _ _ Hr) as Hlk. pose proof (repr_chain_nodup _ _ Hr) as Hnd.
  rewrite <- (app_assoc l), HR in Hlk, Hnd.
  apply NoDup_cons in Hnd as [HnH Hnd]. apply NoDup_app in Hnd as (Hnd1 & Hdis & Hnd2).
  assert (Hkeep : ∀ p, p ∉ l → nxt s' p = nxt s p ∧ prv s' p = prv s p).
  { intros p Hp. destruct (Hl p) as [-> ->]. by rewrite !decide_False. }
  assert (HyR : ∀ p, p ∈ (y :: R) → p ∉ l) by (intros p Hp Hin; by apply (Hdis p Hin)).
  assert (HH : (FakeHead ∉ l) ∧ (FakeHead ∉ (y :: R))) by (rewrite elem_of_app in HnH; tauto).
  assert (nxt s' FakeHead = Some x) by (destruct (Hkeep FakeHead) as [-> _]; [tauto|by destruct Hlk]).
  assert (Hpy : is_Some (prv s' y)).
  { destruct (Hkeep y) as [_ ->]; [by apply HyR; left|].
    destruct (exists_last (l := l)) as (l0 & z & Hlz); [done|].
    rewrite Hlz, <- app_assoc, app_comm_cons in Hlk. apply linked_app in Hlk as [_ (_ & Hlk & _)]. eauto. }
  destruct Hpy as [z Hpy]. apply NoDup_cons in Hnd2 as [HyR' _]. split.
  - pose proof (repr_nodup _ _ Hr) as HN. apply NoDup_app in HN. tauto.
  - pose proof (repr_blk _ _ Hr) as HF. apply Forall_app in HF. tauto.
  - rewrite HR. apply linked_cons. split_and!; [by links|by links|].
    rewrite app_comm_cons in Hlk. apply linked_app in Hlk as [_ Hlk].
    revert Hlk. apply linked_ext.
    + intros p Hp. assert (y ≠ p) by (intros ->; done). links. apply Hkeep, HyR. by right.
    + intros p Hp.
      assert (Hp' : p ∈ y :: R).
      { rewrite (app_removelast_last y) by done. rewrite elem_of_app. by left. }
      assert (FakeHead ≠ p) by (intros <-; tauto). links. by apply Hkeep, HyR.
  - done.
  - links. destruct (Hkeep FakeTail) as [-> _]; [|by apply (repr_tail _ _ Hr)].
    apply HyR. rewrite <- HR, elem_of_app. right. left.
  - intros p [i ->] Hnin. assert (y ≠ Blk i).
    { intros ->. assert (Blk i ∈ l2 ++ [FakeTail]) as Hin by (rewrite HR; left).
      rewrite elem_of_app, list_elem_of_singleton in Hin. naive_solver. }
    links. destruct (Hl (Blk i)) as [-> ->]. destruct (decide (Blk i ∈ l)); [done|].
    apply (repr_out _ _ Hr); [by eexists|]. rewrite elem_of_app. tauto.
Qed.

Lemma popleft_n_spec s l1 l2 :
  queue_repr s (l1 ++ l2) →
  wp (popleft_n (len l1)) (λ bs s', bs = l1 ∧ queue_repr s' l2 ∧ same_meta s s') s.
Proof.
  intros Hr. unfold popleft_n. destruct (decide (len l1 = 0)) as [Hz|Hz].
  { destruct l1; [|done]. by apply wp_ret. }
  destruct l1 as [|x l1]; [done|]. clear Hz. set (l := x :: l1) in *.
  assert (Hlen : num_free_blocks s = len l + len l2).
  { rewrite (repr_num _ _ Hr). unfold len. rewrite length_app. lia. }
  q_steps.
  { apply bool_decide_eq_true_2. rewrite Hlen. unfold len. lia. }
  q_steps.
  destruct (l2 ++ [FakeTail]) as [|y R] eqn:HR; [by destruct l2|].
  pose proof (repr_linked _ _ Hr) as Hlk. pose proof (repr_chain_nodup _ _ Hr) as Hnd.
  rewrite <- (app_assoc l), HR in Hlk, Hnd. apply linked_cons in Hlk as (Hnh & _ & Hlk).
  apply NoDup_cons in Hnd as [_ Hnd].
  apply wp_load_links. { apply (nxt_is_Some _ _ x). by rewrite nxt_add_free. }
  intros h _ Hh _. rewrite Hh, nxt_add_free, Hnh. q_steps.
  unfold len. rewrite Nat2Z.id.
  eapply wp_mono; [apply (popleft_n_loop_spec l R y); [|exact Hnd]|].
  { by eapply linked_heap; [|exact Hlk]. }
  cbn beta. intros ? s' (-> & Hnum & Hm & Hl). q_steps. split_and!; [done| |].
  - eapply drop_prefix_repr; [done..| |done]. rewrite Hnum.
    change (num_free_blocks s + - len l = len l2). lia.
  - etransitivity; [exact Hm|]. same_meta_tac.
Qed.
End take_out.

(** ** Putting blocks back *)
Section put_back.
Implicit Types (s : FreeQueue) (l bs : list ptr).

(** Blocks that may be put back: distinct, real, in the store and not free. *)
Definition appendable s l bs : Prop :=
  NoDup bs ∧ Forall is_blk bs ∧ (∀ p, p ∈ bs → p ∉ l) ∧ ∀ p, p ∈ bs → is_Some (heap s !! p).

(** A store whose chain has been prolonged after its last element [a]. *)
Lemma extend_repr s s' l bs L a z M :
  queue_repr s l → appendable s l bs →
  FakeHead :: l = L ++ [a] → a :: bs = M ++ [z] →
  linked s' (a :: bs) → nxt s' z = Some FakeTail → prv s' FakeTail = Some z →
  (∀ p, p ∉ (a :: bs) → nxt s' p = nxt s p) →
  (∀ p, p ∉ bs → p ≠ FakeTail → prv s' p = prv s p) →
  num_free_blocks s' = num_free_blocks s + len bs →
  queue_repr s' (l ++ bs).
Proof.
  intros Hr (Hnd & HF & Hdis & _) HL HM Hlk Hz Ht Hn Hp Hnum.
  pose proof (repr_blk _ _ Hr) as HFl. pose proof (repr_chain_nodup _ _ Hr) as Hndc.
  assert (Hsent : ∀ p, p ∈ bs → p ≠ FakeHead ∧ p ≠ FakeTail).
  { intros p Hin. rewrite Forall_forall in HF. by destruct (HF p Hin) as [i ->]. }
  assert (HLbs : ∀ p, p ∈ (L ++ [a]) → (p ∉ bs) ∧ p ≠ FakeTail).
  { intros p Hin. rewrite <- HL in Hin. split.
    - intros Hbs. apply elem_of_cons in Hin as [->|Hin]; [by apply Hsent in Hbs as [? _]|].
      by apply (Hdis p).
    - intros ->. apply elem_of_cons in Hin as [?|Hin]; [done|].
      by apply (repr_not_sentinel _ _ _ Hr) in Hin as [_ ?]. }
  split.
  - apply NoDup_app. split_and!; [by eapply repr_nodup| |done]. intros p Hin Hbs. by apply (Hdis p).
  - by apply Forall_app.
  - replace (FakeHead :: (l ++ bs) ++ [FakeTail]) with (L ++ a :: bs ++ [FakeTail]).
    2: { rewrite <- (app_assoc l), (app_comm_cons l _ FakeHead), HL, <- app_assoc. done. }
    pose proof (repr_linked _ _ Hr) as Hlk0. rewrite app_comm_cons, HL, <- app_assoc in Hlk0.
    rewrite app_comm_cons, HL in Hndc. apply NoDup_app in Hndc as (Hndc & _ & _).
    apply linked_app in Hlk0 as [Hlk0 _]. apply linked_app. split.
    + destruct L as [|h L]; [done|]. revert Hlk0. apply (linked_ext s s' h).
      * intros p Hin. apply Hp; apply HLbs; by right.
      * intros p Hin. change (p ∈ removelast ((h :: L) ++ [a])) in Hin.
        rewrite removelast_snoc in Hin. apply Hn. rewrite not_elem_of_cons. split.
        -- intros ->. apply NoDup_app in Hndc as (_ & Hd & _). apply (Hd a); [done|left].
        -- apply HLbs. rewrite elem_of_app. by left.
    + rewrite app_comm_cons, HM, <- app_assoc. apply linked_app.
      rewrite <- HM. by split; [|apply linked_cons].
  - rewrite Hnum, (repr_num _ _ Hr). unfold len. rewrite length_app. lia.
  - rewrite Hn; [by apply (repr_tail _ _ Hr)|]. rewrite not_elem_of_cons. split.
    + apply not_eq_sym, HLbs. rewrite elem_of_app. right. left.
    + intros Hin. by apply Hsent in Hin as [_ ?].
  - intros p [i ->] Hnin. rewrite elem_of_app in Hnin.
    rewrite Hn, Hp; [|tauto|done|].
    + apply (repr_out _ _ Hr); [by eexists|tauto].
    + rewrite not_elem_of_cons. split; [|tauto]. intros <-.
      assert (Hin : Blk i ∈ (FakeHead :: l)) by (rewrite HL, elem_of_app; right; left).
      rewrite elem_of_cons in Hin. naive_solver.
Qed.

Lemma chain_last s l :
  queue_repr s l → ∃ L a, FakeHead :: l = L ++ [a] ∧ prv s FakeTail = Some a ∧
    nxt s a = Some FakeTail ∧ a ∉ [FakeTail].
Proof.
  intros Hr. destruct (exists_last (l := FakeHead :: l)) as (L & a & HL); [done|].
  exists L, a. pose proof (repr_linked _ _ Hr) as Hlk. pose proof (repr_chain_nodup _ _ Hr) as Hnd.
  rewrite app_comm_cons, HL, <- app_assoc in Hlk, Hnd.
  apply linked_app in Hlk as [_ (? & ? & _)]. apply NoDup_app in Hnd as (_ & _ & Hnd).
  apply NoDup_cons in Hnd as [? _]. done.
Qed.

Lemma last_not_appendable s l bs L a :
  appendable s l bs → FakeHead :: l = L ++ [a] → a ∉ bs.
Proof.
  intros (_ & HF & Hdis & _) HL Hin.
  assert (Ha : a ∈ (FakeHead :: l)) by (rewrite HL, elem_of_app; right; left).
  apply elem_of_cons in Ha as [->|Ha]; [|by apply (Hdis a)].
  rewrite Forall_forall in HF. by destruct (HF _ Hin).
Qed.

Lemma append_spec s l p :
  queue_repr s l → appendable s l [p] →
  wp (append p) (λ _ s', queue_repr s' (l ++ [p]) ∧ same_meta s s') s.
Proof.
  intros Hr Happ. destruct (chain_last _ _ Hr) as (L & a & HL & Hpt & Hna & Hat).
  pose proof (last_not_appendable _ _ _ _ _ Happ HL) as Hap.
  pose proof Happ as (_ & HF & _ & Hs). specialize (Hs p (list_elem_of_here _ _)).
  apply Forall_singleton in HF as [i ->]. rewrite list_elem_of_singleton in Hap, Hat.
  unfold append. apply wp_bind. apply wp_load_links; [eauto with links|].
  intros b _ _ Hb. rewrite Hb, Hpt. q_steps. split; [|same_meta_tac].
  eapply (extend_repr s _ l [Blk i] L a (Blk i) [a]); try done; try by links.
  - apply linked_cons. split_and!; [by links|by links|done].
  - intros p. rewrite !not_elem_of_cons. intros (? & ? & _). by links.
  - intros p. rewrite !not_elem_of_cons. intros (? & _) ?. by links.
Qed.

Lemma append_n_loop_spec bs : ∀ a s,
  NoDup (a :: bs) → (∀ p, p ∈ (a :: bs) → is_Some (heap s !! p)) →
  wp (fold_each bs a (λ last_block block,
        set_prev block (Some last_block) ;; set_next last_block (Some block) ;; mret block))
    (λ z s', (∃ M, a :: bs = M ++ [z]) ∧ linked s' (a :: bs) ∧
       (∀ p, p ∉ bs → prv s' p = prv s p) ∧
       (∀ p, p ∉ removelast (a :: bs) → nxt s' p = nxt s p) ∧
       num_free_blocks s' = num_free_blocks s ∧ same_meta s s') s.
Proof.
  induction bs as [|b bs IH]; intros a s Hnd Hs; cbn [fold_each].
  { apply wp_ret. split_and!; try done. by exists []. }
  apply NoDup_cons in Hnd as [Ha Hnd]. rewrite not_elem_of_cons in Ha. destruct Ha as [Hab Ha].
  assert (Hsa : is_Some (heap s !! a)) by (apply Hs; left).
  assert (Hsb : is_Some (heap s !! b)) by (apply Hs; right; left).
  q_steps. eapply wp_mono; [apply IH; [done|]|].
  { intros p Hp. apply heap_set, heap_set, Hs. by right. }
  apply NoDup_cons in Hnd as [Hb Hnd].
  intros z s' ((M & HM) & Hlk & Hp & Hn & Hnum & Hm). csplit.
  - exists (a :: M). by rewrite HM.
  - apply linked_cons. csplit; [| |done].
    + rewrite Hn; [by links|]. intros Hin. assert (a ∈ (b :: bs)) as Hin2.
      { rewrite (app_removelast_last b) by done. rewrite elem_of_app. by left. }
      rewrite elem_of_cons in Hin2. naive_solver.
    + rewrite Hp by done. by links.
  - intros p Hp'. rewrite not_elem_of_cons in Hp'. destruct Hp'. rewrite Hp by done. by links.
  - intros p Hp'. change (p ∉ a :: removelast (b :: bs)) in Hp'.
    rewrite not_elem_of_cons in Hp'. destruct Hp' as [? Hp']. rewrite Hn by exact Hp'. by links.
  - done.
  - etransitivity; [|exact Hm]. same_meta_tac.
Qed.

Lemma append_n_spec s l bs :
  queue_repr s l → appendable s l bs →
  wp (append_n bs) (λ _ s', queue_repr s' (l ++ bs) ∧ same_meta s s') s.
Proof.
  intros Hr Happ. unfold append_n. destruct (decide (len bs = 0)) as [Hz|Hz].
  { destruct bs; [|done]. apply wp_ret. by rewrite app_nil_r. }
  destruct (chain_last _ _ Hr) as (L & a & HL & Hpt & Hna & Hat).
  pose proof (last_not_appendable _ _ _ _ _ Happ HL) as Hab.
  pose proof Happ as (Hnd & HF & _ & Hs). q_steps.
  apply wp_load_links; [eauto with links|]. intros b _ _ Hb. rewrite Hb, prv_add_free, Hpt.
  apply wp_bind. eapply wp_mono; [apply append_n_loop_spec|].
  { by apply NoDup_cons. }
  { intros p [->|?]%elem_of_cons; [by eauto with links|by apply Hs]. }
  intros z s' ((M & HM) & Hlk & Hp & Hn & Hnum & Hm). cbn beta. q_steps.
  assert (Hnt : FakeTail ∉ (a :: bs)).
  { rewrite not_elem_of_cons. rewrite not_elem_of_cons in Hat. split; [naive_solver|].
    rewrite Forall_forall in HF. intros Hin. by destruct (HF _ Hin). }
  assert (Hzin : z ∈ (a :: bs)) by (rewrite HM, elem_of_app; right; left).
  assert (Hzs : is_Some (heap s' !! z)).
  { eapply same_meta_is_Some; [exact Hm|]. apply elem_of_cons in Hzin as [->|?];
      [by eauto with links|by apply Hs]. }
  assert (Htp : prv s' FakeTail = Some a).
  { rewrite Hp by (by intros ?; apply Hnt; right). done. }
  rewrite not_elem_of_cons in Hnt. destruct Hnt as [Hta Htb]. split.
  - eapply (extend_repr s _ l bs L a z M); try done.
    + revert Hlk. apply linked_ext.
      * intros p Hin. assert (FakeTail ≠ p) by (intros <-; done). by links.
      * intros p Hin. rewrite HM, removelast_snoc in Hin.
        assert (z ≠ p).
        { intros <-. pose proof (conj Hab Hnd) as Hnd2. apply NoDup_cons in Hnd2.
          rewrite HM in Hnd2.
          apply NoDup_app in Hnd2 as (_ & Hd & _). apply (Hd z); [done|left]. }
        by links.
    + by links.
    + by links.
    + intros p Hin. assert (z ≠ p) by (intros <-; done). links. apply Hn.
      intros Hin2. apply Hin. rewrite (app_removelast_last a) by done. rewrite elem_of_app. by left.
    + intros p Hin ?. links. by apply Hp.
  - etransitivity; [exact Hm|]. same_meta_tac.
Qed.
End put_back.

(** ** Listing and building the queue *)
Section whole_queue.
Implicit Types (s : FreeQueue) (l bs : list ptr).

Lemma get_all_loop_spec s l : ∀ p acc fuel,
  linked s (p :: l) → (∀ z, last (p :: l) = Some z → is_Some (heap s !! z) ∧ nxt s z = None) →
  (length l < fuel)%nat →
  get_all_loop fuel p acc s = (Ok (acc ++ removelast (p :: l)), s).
Proof.
  induction l as [|q l IH]; intros p acc [|fuel] Hlk Hlast Hf; try (simpl in *; lia); simpl;
    unfold mbind, M_bind, load.
  - destruct (Hlast p eq_refl) as [[b Hb] Hn]. unfold nxt in Hn. rewrite Hb in *. simpl in Hn.
    by rewrite Hn, app_nil_r.
  - apply linked_cons in Hlk as (Hn & _ & Hlk). unfold nxt in Hn.
    destruct (heap s !! p) as [b|]; [|done]. simpl in Hn. rewrite Hn.
    rewrite IH; [|done|exact Hlast|simpl in Hf; lia]. by rewrite <- app_assoc.
Qed.

Lemma repr_length s l : queue_repr s l → (length l < size (heap s))%nat.
Proof.
  intros Hr. pose proof (repr_linked _ _ Hr) as Hlk.
  rewrite <- (size_dom (D := gset ptr)).
  apply Nat.lt_le_trans with (size (list_to_set (FakeTail :: l) : gset ptr)).
  - rewrite size_list_to_set; [simpl; lia|]. apply NoDup_cons. split; [|by eapply repr_nodup].
    intros Hin. by apply (repr_not_sentinel _ _ _ Hr) in Hin as [_ ?].
  - apply subseteq_size. intros p Hp. apply elem_of_dom.
    assert (Hin : p ∈ l ++ [FakeTail]) by set_solver. clear Hp.
    revert Hlk. generalize FakeHead. revert Hin. generalize (l ++ [FakeTail]).
    intros l'. induction l' as [|q l' IH]; [by intros ?%not_elem_of_nil|].
    intros Hin h (? & ? & Hlk). apply elem_of_cons in Hin as [->|Hin]; [by eauto with links|].
    by eapply IH.
Qed.

Lemma get_all_free_blocks_spec s l :
  queue_repr s l → get_all_free_blocks s = (Ok l, s).
Proof.
  intros Hr. pose proof (repr_linked _ _ Hr) as Hlk. pose proof (repr_length _ _ Hr) as Hlen.
  destruct (chain_last _ _ Hr) as (? & ? & _ & Hpt & _).
  unfold get_all_free_blocks, mbind, M_bind, gets.
  destruct (l ++ [FakeTail]) as [|p R] eqn:HR; [by destruct l|].
  apply linked_cons in Hlk as (Hn & _ & Hlk). unfold load. unfold nxt in Hn.
  destruct (heap s !! FakeHead) as [h|]; [|done]. simpl in Hn. rewrite Hn.
  assert (length l = length R) as HlR.
  { apply (f_equal length) in HR. rewrite length_app in HR. simpl in HR. lia. }
  rewrite (get_all_loop_spec s R); [|done| |lia].
  - by rewrite <- HR, removelast_snoc.
  - intros z. rewrite <- HR, last_snoc. intros [= <-]. split; [by eauto with links|].
    by apply (repr_tail _ _ Hr).
Qed.

(** The links [FreeKVCacheBlockQueue.__init__] gives to the block at index [i]. *)
Definition init_prev bs (i : nat) : option ptr := if decide (i = 0)%nat then None else bs !! (i - 1)%nat.
Definition init_next bs (i : nat) : option ptr := bs !! S i.

Definition unlinked_store s bs : Prop :=
  NoDup bs ∧ Forall is_blk bs ∧ (∀ p, p ∈ bs → is_Some (heap s !! p)) ∧
  ∀ p, is_blk p → nxt s p = None ∧ prv s p = None.

Definition init_inv s0 bs (k : nat) s : Prop :=
  num_free_blocks s = len bs ∧ same_meta s0 s ∧
  (∀ j p, bs !! j = Some p →
     prv s p = (if decide (j < k)%nat then init_prev bs j else None) ∧
     nxt s p = (if decide (j < k)%nat then init_next bs j else None)) ∧
  (∀ p, is_blk p → p ∉ bs → nxt s p = None ∧ prv s p = None).

(** One round of the loop sets the links of the next block. *)
Lemma init_inv_step s0 bs k p s s' :
  NoDup bs → bs !! k = Some p → is_Some (heap s0 !! p) →
  init_inv s0 bs k s →
  heap s' = heap (update_block p (with_next (init_next bs k))
                   (update_block p (with_prev (init_prev bs k)) s)) →
  num_free_blocks s' = num_free_blocks s →
  init_inv s0 bs (S k) s'.
Proof.
  intros Hnd Hk Hs (Hnum & Hm & Hin & Hout) Hheap Hnum'.
  assert (Hps : is_Some (heap s !! p)) by by eapply same_meta_is_Some.
  assert (Hlnk : ∀ q, nxt s' q = nxt (update_block p (with_next (init_next bs k))
            (update_block p (with_prev (init_prev bs k)) s)) q ∧
          prv s' q = prv (update_block p (with_next (init_next bs k))
            (update_block p (with_prev (init_prev bs k)) s)) q).
  { intros q. unfold nxt, prv. by rewrite Hheap. }
  split_and!.
  - by rewrite Hnum'.
  - intros q. rewrite Hheap, (Hm q).
    trans (meta <$> heap (update_block p (with_prev (init_prev bs k)) s) !! q);
      [apply same_meta_set_prev|apply same_meta_set_next].
  - intros j q Hj. destruct (Hlnk q) as [-> ->]. destruct (decide (j = k)) as [->|Hjk].
    + simplify_eq. rewrite !decide_True by lia. split; by links.
    + assert (p ≠ q) by (intros ->; by eapply Hjk, NoDup_lookup).
      links. destruct (Hin j q Hj) as [-> ->].
      by destruct (decide (j < k)%nat), (decide (j < S k)%nat); try lia.
  - intros q Hq Hnin. destruct (Hlnk q) as [-> ->].
    assert (p ≠ q) by (intros ->; by eapply Hnin, list_elem_of_lookup_2).
    links. by apply Hout.
Qed.

(** Writing a link its own value changes nothing. *)
Lemma update_prev_id s p : heap (update_block p (with_prev (prv s p)) s) = heap s.
Proof.
  apply alter_id. intros b Hb. unfold prv. rewrite Hb. by destruct b.
Qed.
Lemma update_next_id s p : heap (update_block p (with_next (nxt s p)) s) = heap s.
Proof.
  apply alter_id. intros b Hb. unfold nxt. rewrite Hb. by destruct b.
Qed.

(** The two halves of the loop body, at index [k]. *)
Lemma init_set_prev_spec s0 bs k p s :
  bs !! k = Some p → init_inv s0 bs k s →
  wp (if decide (Z.of_nat k > 0)
      then bp ← lift_outcome (py_index bs (Z.of_nat k - 1)); set_prev p (Some bp)
      else mret tt)
    (λ _ s', heap s' = heap (update_block p (with_prev (init_prev bs k)) s) ∧
             num_free_blocks s' = num_free_blocks s) s.
Proof.
  intros Hk (_ & _ & Hin & _). destruct (Hin k p Hk) as [Hp _].
  rewrite decide_False in Hp by lia. unfold init_prev. destruct (decide (k = 0%nat)) as [->|Hk0].
  - rewrite decide_False by lia. apply wp_ret. by rewrite <- Hp, update_prev_id.
  - rewrite decide_True by lia. apply wp_bind.
    destruct (lookup_lt_is_Some_2 bs (k - 1)) as [q Hq]; [apply lookup_lt_Some in Hk; lia|].
    eapply wp_lift_outcome.
    { replace (Z.of_nat k - 1) with (Z.of_nat (k - 1)) by lia. by apply py_index_lookup. }
    rewrite Hq. by q_steps.
Qed.

Lemma init_set_next_spec s0 bs k p s s1 :
  bs !! k = Some p → init_inv s0 bs k s →
  heap s1 = heap (update_block p (with_prev (init_prev bs k)) s) →
  wp (if decide (Z.of_nat k < len bs - 1)
      then bn ← lift_outcome (py_index bs (Z.of_nat k + 1)); set_next p (Some bn)
      else mret tt)
    (λ _ s', heap s' = heap (update_block p (with_next (init_next bs k))
                              (update_block p (with_prev (init_prev bs k)) s)) ∧
             num_free_blocks s' = num_free_blocks s1) s1.
Proof.
  intros Hk (_ & _ & Hin & _) Hh. destruct (Hin k p Hk) as [_ Hn].
  rewrite decide_False in Hn by lia. unfold init_next, len. case_decide as Hlt.
  - apply wp_bind. destruct (lookup_lt_is_Some_2 bs (S k)) as [q Hq]; [lia|].
    eapply wp_lift_outcome.
    { replace (Z.of_nat k + 1) with (Z.of_nat (S k)) by lia. by apply py_index_lookup. }
    rewrite Hq. q_steps. simpl. by rewrite Hh.
  - apply wp_ret. split; [|done]. rewrite lookup_ge_None_2 by lia.
    rewrite <- Hn, <- (nxt_set_prev s p p (init_prev bs k)). by rewrite update_next_id.
Qed.

Lemma init_loop_spec s bs :
  unlinked_store s bs →
  wp (for_each (range (len bs)) (λ i,
       bi ← lift_outcome (py_index bs i);
       (if decide (i > 0)
        then bp ← lift_outcome (py_index bs (i - 1)); set_prev bi (Some bp)
        else mret tt) ;;
       (if decide (i < len bs - 1)
        then bn ← lift_outcome (py_index bs (i + 1)); set_next bi (Some bn)
        else mret tt)))
    (λ _ s', init_inv s bs (length bs) s') (mkFreeQueue (heap s) (len bs)).
Proof.
  intros (Hnd & HF & Hs & Hnone).
  apply (wp_for_each (λ done _ s', init_inv s bs (length done) s')).
  - split_and!; [done|done| |].
    + intros j p Hj. rewrite !decide_False by (simpl; lia). apply and_comm, Hnone.
      rewrite Forall_forall in HF. by eapply HF, list_elem_of_lookup_2.
    + intros p Hp _. by apply Hnone.
  - intros done i todo s' Hsplit Hinv. apply range_split in Hsplit as [-> Hlt].
    unfold len in Hlt |- * at 1 2 3 4. rewrite length_app, Nat.add_1_r.
    destruct (lookup_lt_is_Some_2 bs (length done)) as [p Hk]; [lia|].
    q_steps. eapply wp_lift_outcome; [by apply py_index_lookup|]. apply wp_bind.
    eapply wp_mono; [by eapply init_set_prev_spec|]. intros [] s1 [Hh1 Hn1].
    eapply wp_mono; [by eapply init_set_next_spec|]. intros [] s2 [Hh2 Hn2].
    eapply init_inv_step; [done|done|by eapply Hs, list_elem_of_lookup_2|exact Hinv|done|congruence].
  - intros s'. unfold range, range2, len.
    by rewrite length_fmap, length_seq, Z.sub_0_r, Nat2Z.id.
Qed.

Lemma init_inv_linked s0 bs s : init_inv s0 bs (length bs) s → linked s bs.
Proof.
  intros (_ & _ & Hin & _). apply linked_lookup. intros i x y Hx Hy.
  destruct (Hin i x Hx) as [_ ->]. destruct (Hin (S i) y Hy) as [-> _].
  apply lookup_lt_Some in Hx as ?. apply lookup_lt_Some in Hy as ?.
  rewrite !decide_True by lia. unfold init_next, init_prev. rewrite decide_False by lia.
  simpl. by rewrite Nat.sub_0_r.
Qed.

(** Connecting the sentinels to the two ends of the chain of blocks. *)
Lemma connect_ends_spec s bs :
  NoDup bs → Forall is_blk bs → (∀ p, p ∈ bs → is_Some (heap s !! p)) →
  is_Some (heap s !! FakeHead) → is_Some (heap s !! FakeTail) → nxt s FakeTail = None →
  linked s bs → num_free_blocks s = len bs →
  (∀ p, is_blk p → p ∉ bs → nxt s p = None ∧ prv s p = None) →
  wp (if decide (len bs > 0) then
        b0 ← lift_outcome (py_index bs 0); bl ← lift_outcome (py_index bs (-1));
        set_next FakeHead (Some b0) ;; set_prev b0 (Some FakeHead) ;;
        set_prev FakeTail (Some bl) ;; set_next bl (Some FakeTail)
      else set_next FakeHead (Some FakeTail) ;; set_prev FakeTail (Some FakeHead))
    (λ _ s', queue_repr s' bs ∧ same_meta s s') s.
Proof.
  intros Hnd HF Hs Hh Ht Htn Hlk Hnum Hout.
  assert (Hsent : ∀ p, p ∈ bs → FakeHead ≠ p ∧ FakeTail ≠ p).
  { intros p Hin. rewrite Forall_forall in HF. by destruct (HF p Hin) as [i ->]. }
  destruct bs as [|b0 bs].
  { rewrite decide_False by done. q_steps. split; [|same_meta_tac].
    split; [done|done| |done|by links|].
    - apply linked_cons. csplit; [by links|by links|done].
    - intros p [i ->] _. links. apply Hout; [by eexists|by apply not_elem_of_nil]. }
  rewrite decide_True by (unfold len; simpl; lia).
  destruct (exists_last (l := b0 :: bs)) as (M & z & Hz); [done|].
  apply wp_bind. eapply wp_lift_outcome; [by apply (py_index_lookup _ 0)|].
  apply wp_bind. eapply wp_lift_outcome; [rewrite Hz; apply py_index_last|]. q_steps.
  assert (Hzin : z ∈ b0 :: bs) by (rewrite Hz, elem_of_app; right; left).
  assert (Hbin : b0 ∈ b0 :: bs) by left.
  pose proof (Hs _ Hzin). pose proof (Hs _ Hbin).
  pose proof (Hsent _ Hzin) as [? ?]. pose proof (Hsent _ Hbin) as [? ?].
  split; [|same_meta_tac]. split; [done|done| |done|by links|].
  - simpl. apply linked_cons. csplit; [by links|by links|].
    rewrite app_comm_cons, Hz, <- app_assoc. apply linked_app. rewrite <- Hz. split.
    + revert Hlk. apply linked_ext.
      * intros p Hp. apply NoDup_cons in Hnd as [? _].
        assert (b0 ≠ p) by (intros ->; done).
        destruct (Hsent p) as [? ?]; [by right|]. by links.
      * intros p Hp. rewrite Hz, removelast_snoc in Hp.
        assert (z ≠ p).
        { intros ->. rewrite Hz in Hnd. apply NoDup_app in Hnd as (_ & Hd & _).
          apply (Hd p); [done|left]. }
        destruct (Hsent p) as [? ?]; [rewrite Hz, elem_of_app; by left|]. by links.
    + apply linked_cons. csplit; [by links|by links|done].
  - intros p Hp Hnin. assert (b0 ≠ p ∧ z ≠ p) as [? ?] by (split; intros <-; done).
    destruct Hp as [i ->]. links. apply Hout; [by eexists|done].
Qed.

(** [FreeKVCacheBlockQueue(blocks)] builds a queue of exactly these blocks. *)
Lemma init_spec s bs :
  unlinked_store s bs →
  wp (FreeKVCacheBlockQueue_init bs)
    (λ _ s', queue_repr s' bs ∧ ∀ i, meta <$> heap s' !! Blk i = meta <$> heap s !! Blk i) s.
Proof.
  intros Hun. pose proof Hun as (Hnd & HF & Hs & Hnone).
  unfold FreeKVCacheBlockQueue_init. q_steps.
  eapply wp_mono; [by apply init_loop_spec|]. intros [] s1 Hinv. cbn beta. q_steps.
  pose proof (init_inv_linked _ _ _ Hinv) as Hlk. destruct Hinv as (Hnum & Hm & _ & Hout).
  set (s2 := mkFreeQueue _ _).
  assert (Hsame : ∀ i, heap s2 !! Blk i = heap s1 !! Blk i).
  { intros i. simpl. by rewrite !lookup_insert_ne. }
  assert (Hblk : ∀ p, is_blk p → nxt s2 p = nxt s1 p ∧ prv s2 p = prv s1 p).
  { intros p [i ->]. unfold nxt, prv. by rewrite Hsame. }
  rewrite Forall_forall in HF. eapply wp_mono; [apply (connect_ends_spec s2 bs)|].
  - done.
  - by apply Forall_forall.
  - intros p Hp. destruct (HF p Hp) as [i ->]. rewrite Hsame.
    eapply same_meta_is_Some; [done|by apply Hs].
  - simpl. rewrite lookup_insert_ne, lookup_insert_eq by done. by eexists.
  - simpl. rewrite lookup_insert_eq. by eexists.
  - unfold nxt. simpl. by rewrite lookup_insert_eq.
  - apply linked_lookup. intros i x y Hx Hy. rewrite linked_lookup in Hlk.
    destruct (Hblk x) as [-> _]; [by eapply HF, list_elem_of_lookup_2|].
    destruct (Hblk y) as [_ ->]; [by eapply HF, list_elem_of_lookup_2|]. by eapply Hlk.
  - done.
  - intros p Hp Hnin. destruct (Hblk p Hp) as [-> ->]. by apply Hout.
  - intros [] s3 [Hr Hm3]. split; [done|]. intros i.
    by rewrite <- (Hm3 (Blk i)), Hsame, (Hm (Blk i)).
Qed.
End whole_queue.
