(* ===== verification/Request.v ===== *)
(** The request object of [v1/request.py]: its construction, its status machine
    and the accessors the scheduler and the cache managers read.  The fields fixed
    at construction are in [RequestParams], the mutable attributes in [Request].
    Also [check_stop] of [v1/core/sched/utils.py]. *)
From Stdlib Require Import ZArith Lia.
From stdpp Require Import base strings countable gmap sets fin_maps list.
From S2P Require Import Prelude.
Local Open Scope Z_scope.

(** Python objects the modelled code only passes along (tensors, parameter
    dictionaries, grammars) are handles. *)
Definition handle : Type := Z.

(** [is_embed] says which of the placeholder's positions take an embedding; all of them
    without it. *)
Record PlaceholderRange : Type := mkPlaceholderRange { offset : Z; length_ : Z; is_embed : option (list bool) }.

Record LoRARequest : Type := mkLoRARequest {
  lora_name : string;
  lora_int_id : Z
}.

(** The sampling parameters the engine core reads. *)
Record SamplingParams : Type := mkSamplingParams {
  sp_max_tokens : option Z;
  guided_decoding : option handle;
  sp_kv_transfer_params : option handle;
  prompt_logprobs : option Z;
  logprobs : option Z;
  ignore_eos : bool;
  stop_token_ids : option (list Z)
}.

Inductive EngineCoreEventType : Type := QUEUED | SCHEDULED | PREEMPTED_EVENT.
Definition EngineCoreEvent : Type := (EngineCoreEventType * Z)%type.

Inductive FinishReason : Type := STOP | LENGTH | ABORT.

Inductive RequestStatus : Type :=
  | WAITING
  | WAITING_FOR_FSM
  | WAITING_FOR_REMOTE_KVS
  | RUNNING
  | PREEMPTED
  | FINISHED_STOPPED
  | FINISHED_LENGTH_CAPPED
  | FINISHED_ABORTED
  | FINISHED_IGNORED.
#[export] Instance RequestStatus_eq_dec : EqDecision RequestStatus.
Proof. solve_decision. Defined.

(** The values [enum.auto()] gives, in order. *)
Definition status_value (st : RequestStatus) : Z :=
  match st with
  | WAITING => 1
  | WAITING_FOR_FSM => 2
  | WAITING_FOR_REMOTE_KVS => 3
  | RUNNING => 4
  | PREEMPTED => 5
  | FINISHED_STOPPED => 6
  | FINISHED_LENGTH_CAPPED => 7
  | FINISHED_ABORTED => 8
  | FINISHED_IGNORED => 9
  end.

Definition status_is_finished (st : RequestStatus) : bool :=
  bool_decide (status_value st > status_value PREEMPTED).

(** [_FINISHED_REASON_MAP.get(status)]. *)
Definition status_get_finished_reason (st : RequestStatus) : option FinishReason :=
  match st with
  | FINISHED_STOPPED => Some STOP
  | FINISHED_LENGTH_CAPPED => Some LENGTH
  | FINISHED_ABORTED => Some ABORT
  | FINISHED_IGNORED => Some LENGTH
  | _ => None
  end.

Record RequestParams : Type := mkRequestParams {
  request_id : string;
  client_index : Z;
  priority : Z;
  (** [time.time()]; only compared, so any totally ordered numbers do. *)
  arrival_time : Z;
  sampling_params : option SamplingParams;
  pooling_params : option handle;
  eos_token_id : option Z;
  lora_request : option LoRARequest;
  structured_output_request : option handle;
  cache_salt : option string;
  prompt_token_ids : list Z;
  mm_inputs : list handle;
  mm_positions : list PlaceholderRange;
  mm_hashes : list string
}.

Record Request : Type := mkRequest {
  params :> RequestParams;
  max_tokens : Z;
  kv_transfer_params : option handle;
  status : RequestStatus;
  events : list EngineCoreEvent;
  stop_reason : option Z;
  output_token_ids : list Z;
  all_token_ids : list Z;
  num_output_placeholders : Z;
  spec_token_ids : list Z;
  num_computed_tokens : Z;
  num_cached_tokens : Z;
  num_nans_in_logits : Z
}.

Definition set_status (v : RequestStatus) (r : Request) : Request :=
  mkRequest (params r) (max_tokens r) (kv_transfer_params r) v (events r) (stop_reason r)
    (output_token_ids r) (all_token_ids r) (num_output_placeholders r) (spec_token_ids r)
    (num_computed_tokens r) (num_cached_tokens r) (num_nans_in_logits r).
Definition set_events (v : list EngineCoreEvent) (r : Request) : Request :=
  mkRequest (params r) (max_tokens r) (kv_transfer_params r) (status r) v (stop_reason r)
    (output_token_ids r) (all_token_ids r) (num_output_placeholders r) (spec_token_ids r)
    (num_computed_tokens r) (num_cached_tokens r) (num_nans_in_logits r).
Definition set_stop_reason (v : option Z) (r : Request) : Request :=
  mkRequest (params r) (max_tokens r) (kv_transfer_params r) (status r) (events r) v
    (output_token_ids r) (all_token_ids r) (num_output_placeholders r) (spec_token_ids r)
    (num_computed_tokens r) (num_cached_tokens r) (num_nans_in_logits r).
Definition set_tokens (out all : list Z) (r : Request) : Request :=
  mkRequest (params r) (max_tokens r) (kv_transfer_params r) (status r) (events r) (stop_reason r)
    out all (num_output_placeholders r) (spec_token_ids r)
    (num_computed_tokens r) (num_cached_tokens r) (num_nans_in_logits r).
Definition set_num_output_placeholders (v : Z) (r : Request) : Request :=
  mkRequest (params r) (max_tokens r) (kv_transfer_params r) (status r) (events r) (stop_reason r)
    (output_token_ids r) (all_token_ids r) v (spec_token_ids r)
    (num_computed_tokens r) (num_cached_tokens r) (num_nans_in_logits r).
Definition set_spec_token_ids (v : list Z) (r : Request) : Request :=
  mkRequest (params r) (max_tokens r) (kv_transfer_params r) (status r) (events r) (stop_reason r)
    (output_token_ids r) (all_token_ids r) (num_output_placeholders r) v
    (num_computed_tokens r) (num_cached_tokens r) (num_nans_in_logits r).
Definition set_num_computed_tokens (v : Z) (r : Request) : Request :=
  mkRequest (params r) (max_tokens r) (kv_transfer_params r) (status r) (events r) (stop_reason r)
    (output_token_ids r) (all_token_ids r) (num_output_placeholders r) (spec_token_ids r)
    v (num_cached_tokens r) (num_nans_in_logits r).
Definition set_num_cached_tokens (v : Z) (r : Request) : Request :=
  mkRequest (params r) (max_tokens r) (kv_transfer_params r) (status r) (events r) (stop_reason r)
    (output_token_ids r) (all_token_ids r) (num_output_placeholders r) (spec_token_ids r)
    (num_computed_tokens r) v (num_nans_in_logits r).
Definition set_num_nans_in_logits (v : Z) (r : Request) : Request :=
  mkRequest (params r) (max_tokens r) (kv_transfer_params r) (status r) (events r) (stop_reason r)
    (output_token_ids r) (all_token_ids r) (num_output_placeholders r) (spec_token_ids r)
    (num_computed_tokens r) (num_cached_tokens r) v.

(** [Request.__init__].  [arrival_time] and the [or []] defaults of the
    multi-modal arguments are resolved by the caller that builds the record. *)
Definition Request_init (p : RequestParams) : outcome Request :=
  let status0 :=
    match sampling_params p with
    | Some sp => if decide (guided_decoding sp = None) then WAITING else WAITING_FOR_FSM
    | None => WAITING
    end in
  '(mt, status1, kvp) ←
    match pooling_params p, sampling_params p with
    | Some _, _ => Ok (1, status0, None)
    | None, Some sp =>
      match sp_max_tokens sp with
      | None => Raise AssertionError
      | Some mt =>
        Ok (mt, if decide (guided_decoding sp = None) then status0 else WAITING_FOR_FSM,
            sp_kv_transfer_params sp)
      end
    | None, None => Raise ValueError
    end;
  if decide (len (mm_inputs p) = len (mm_positions p)) then
    if decide (mm_hashes p = [] ∨ len (mm_inputs p) = len (mm_hashes p)) then
      Ok (mkRequest p mt kvp status1 [] None [] (prompt_token_ids p) 0 [] 0 (-1) 0)
    else Raise AssertionError
  else Raise AssertionError.

Definition num_prompt_tokens (r : Request) : Z := len (prompt_token_ids r).
Definition num_encoder_inputs (r : Request) : Z := len (mm_inputs r).
Definition has_encoder_inputs (r : Request) : bool := bool_decide (num_encoder_inputs r > 0).

Definition append_output_token_ids (toks : list Z) (r : Request) : Request :=
  set_tokens (output_token_ids r ++ toks) (all_token_ids r ++ toks) r.

Definition is_output_corrupted (r : Request) : bool := bool_decide (num_nans_in_logits r > 0).
Definition num_tokens (r : Request) : Z := len (all_token_ids r).
Definition num_tokens_with_spec (r : Request) : Z :=
  len (all_token_ids r) + len (spec_token_ids r).
Definition num_output_tokens (r : Request) : Z := len (output_token_ids r).
Definition is_finished (r : Request) : bool := status_is_finished (status r).
Definition get_finished_reason (r : Request) : option FinishReason :=
  status_get_finished_reason (status r).

(** [assert input_id < len(self.mm_positions)], then the indexing, which Python
    allows from the end for a negative id. *)
Definition get_num_encoder_tokens (r : Request) (input_id : Z) : outcome Z :=
  if decide (input_id < len (mm_positions r)) then
    p ← py_index (mm_positions r) input_id; Ok (length_ p)
  else Raise AssertionError.

Definition use_structured_output (r : Request) : bool :=
  match sampling_params r with
  | Some sp => bool_decide (guided_decoding sp ≠ None)
  | None => false
  end.

Definition record_event (t : EngineCoreEventType) (timestamp : Z) (r : Request) : Request :=
  set_events (events r ++ [(t, timestamp)]) r.
Definition take_request_events (r : Request) : option (list EngineCoreEvent) * Request :=
  match events r with [] => (None, r) | evs => (Some evs, set_events [] r) end.

(** [check_stop]: whether the request is to stop, and the request with the status
    (and stop reason) the stop gives it.  [pooler_output] says whether a pooler
    output was passed. *)
Definition check_stop (r : Request) (max_model_len : Z) (pooler_output : bool)
    : outcome (bool * Request) :=
  if decide (num_tokens r >= max_model_len ∨ num_output_tokens r >= max_tokens r) then
    Ok (true, set_status FINISHED_LENGTH_CAPPED r)
  else match pooling_params r with
  | Some _ =>
    if pooler_output then Ok (true, set_status FINISHED_STOPPED r) else Ok (false, r)
  | None =>
    match sampling_params r with
    | None => Raise AssertionError
    | Some sp =>
      last_token_id ← py_index (output_token_ids r) (-1);
      if decide (ignore_eos sp = false ∧ Some last_token_id = eos_token_id r) then
        Ok (true, set_status FINISHED_STOPPED r)
      else if decide (last_token_id ∈ default [] (stop_token_ids sp)) then
        Ok (true, set_stop_reason (Some last_token_id) (set_status FINISHED_STOPPED r))
      else Ok (false, r)
    end
  end.
