(* ===== verification/BlockHash.v ===== *)
(** Prefix-cache hashing of [v1/core/kv_cache_utils.py]: the extra keys of a block,
    [hash_block_tokens] and [hash_request_tokens], and the soundness of the hash
    chain: equal block hashes mean equal token prefixes. *)
From Stdlib Require Import ZArith Lia.
From stdpp Require Import base strings countable gmap sets fin_maps list.
From S2P Require Import Prelude FreeBlockQueue Request.
Local Open Scope Z_scope.

Definition need_extra_keys (r : Request) : bool :=
  bool_decide (mm_hashes r ≠ []) || bool_decide (is_Some (lora_request r))
    || bool_decide (is_Some (cache_salt r)).

(** The [while] loop of [_gen_mm_extra_hash_keys].  Each round that goes on
    increments [curr_mm_idx], so [len mm_positions - curr_mm_idx] rounds suffice. *)
Fixpoint gen_mm_loop (fuel : nat) (r : Request) (start_token_idx end_token_idx curr_mm_idx : Z)
    (keys : list extra_key) : outcome (list extra_key * Z) :=
  match fuel with
  | O => Raise OutOfFuel
  | S fuel' =>
    if decide (mm_positions r ≠ [] ∧ curr_mm_idx < len (mm_positions r)) then
      h ← py_index (mm_hashes r) curr_mm_idx;
      p ← py_index (mm_positions r) curr_mm_idx;
      if decide (end_token_idx > offset p) then
        if decide (start_token_idx > offset p + length_ p) then
          gen_mm_loop fuel' r start_token_idx end_token_idx (curr_mm_idx + 1) keys
        else
          let keys' := keys ++ [KStr h] in
          if decide (end_token_idx >= offset p + length_ p) then
            gen_mm_loop fuel' r start_token_idx end_token_idx (curr_mm_idx + 1) keys'
          else Ok (keys', curr_mm_idx)
      else Ok (keys, curr_mm_idx)
    else Ok (keys, curr_mm_idx)
  end.

Definition _gen_mm_extra_hash_keys (r : Request) (start_token_idx end_token_idx start_mm_idx : Z)
    : outcome (list extra_key * Z) :=
  if decide (mm_positions r = []) then Ok ([], start_mm_idx)
  else if decide (len (mm_positions r) ≠ len (mm_hashes r)) then Raise ValueError
  else
    last ← py_index (mm_positions r) (-1);
    if decide (offset last + length_ last < start_token_idx) then Ok ([], start_mm_idx)
    else
      start ← (if decide (start_mm_idx < 0) then
                 if decide (- start_mm_idx <= len (mm_positions r))
                 then Ok (len (mm_positions r) + start_mm_idx) else Raise AssertionError
               else Ok start_mm_idx);
      gen_mm_loop (S (length (mm_positions r))) r start_token_idx end_token_idx start [].

Definition _gen_lora_extra_hash_keys (r : Request) : list extra_key :=
  match lora_request r with None => [] | Some lr => [KInt (lora_int_id lr)] end.

(** An empty [cache_salt] is falsy and adds no key. *)
Definition cache_salt_keys (r : Request) (start_token_idx : Z) : list extra_key :=
  match cache_salt r with
  | Some salt => if decide (start_token_idx = 0 ∧ salt ≠ EmptyString) then [KStr salt] else []
  | None => []
  end.

Definition generate_block_hash_extra_keys (r : Request)
    (start_token_idx end_token_idx start_mm_idx : Z)
    : outcome (option (list extra_key) * Z) :=
  '(mm_extra_keys, new_start_mm_idx) ←
    _gen_mm_extra_hash_keys r start_token_idx end_token_idx start_mm_idx;
  let keys := _gen_lora_extra_hash_keys r ++ mm_extra_keys ++ cache_salt_keys r start_token_idx in
  Ok (match keys with [] => None | _ => Some keys end, new_start_mm_idx).

Section hashing.
(** The configured hash function ([hash], [sha256] or [sha256_cbor_64bit], all
    outside the repository's engine code) on the tuple that is hashed, and the
    process-wide [NONE_HASH]. *)
Variable hash_function : Z * list Z * option (list extra_key) → Z.
Variable NONE_HASH : Z.

(** [if not parent_block_hash]: [None] and [0] both fall back to [NONE_HASH]. *)
Definition parent_or_none (parent_block_hash : option Z) : Z :=
  match parent_block_hash with
  | None => NONE_HASH
  | Some h => if decide (h = 0) then NONE_HASH else h
  end.

Definition hash_block_tokens (parent_block_hash : option Z) (curr_block_token_ids : list Z)
    (extra : option (list extra_key)) : BlockHash :=
  mkBlockHash
    (hash_function (parent_or_none parent_block_hash, curr_block_token_ids, extra))
    curr_block_token_ids extra.

(** The [for] loop of [hash_request_tokens]. *)
Fixpoint hash_request_loop (starts : list Z) (r : Request) (block_size : Z)
    (req_need_extra_keys : bool) (req_extra_keys : option (list extra_key)) (curr_mm_idx : Z)
    (parent : option Z) (ret : list BlockHash) : outcome (list BlockHash) :=
  match starts with
  | [] => Ok ret
  | start :: starts' =>
    let end_ := start + block_size in
    let block_token_ids := slice start end_ (all_token_ids r) in
    if decide (len block_token_ids < block_size) then Ok ret
    else
      '(req_extra_keys', curr_mm_idx') ←
        (if req_need_extra_keys
         then generate_block_hash_extra_keys r start end_ curr_mm_idx
         else Ok (req_extra_keys, curr_mm_idx));
      let block_hash := hash_block_tokens parent block_token_ids req_extra_keys' in
      hash_request_loop starts' r block_size req_need_extra_keys req_extra_keys' curr_mm_idx'
        (Some (hash_value block_hash)) (ret ++ [block_hash])
  end.

(** [range] raises [ValueError] for a step of [0]; a negative step yields an
    empty range. *)
Definition hash_request_tokens (block_size : Z) (r : Request) : outcome (list BlockHash) :=
  if decide (block_size = 0) then Raise ValueError
  else
    let starts := if decide (block_size < 0) then []
                  else range_step 0 (len (all_token_ids r)) block_size in
    hash_request_loop starts r block_size (need_extra_keys r) None 0 None [].
End hashing.

(** * Totality *)

(** The constructor leaves the multi-modal hashes empty or as many as the
    positions; a request whose blocks need extra keys must have them. *)
Definition mm_wf (r : Request) : Prop :=
  mm_positions r = [] ∨ len (mm_positions r) = len (mm_hashes r).

Section totality.
Implicit Types (r : Request).

Lemma gen_mm_loop_total r s e fuel : ∀ curr keys,
  len (mm_positions r) = len (mm_hashes r) → 0 <= curr →
  Z.max 0 (len (mm_positions r) - curr) < Z.of_nat fuel →
  ∃ keys' curr', gen_mm_loop fuel r s e curr keys = Ok (keys', curr') ∧ 0 <= curr'.
Proof.
  induction fuel as [|fuel IH]; intros curr keys Hlen Hc Hf; [lia|]. simpl.
  case_decide as Hw; [|eauto]. destruct Hw as [_ Hw].
  destruct (lookup_lt_is_Some_2 (mm_hashes r) (Z.to_nat curr)) as [h Hh];
    [unfold len in *; lia|].
  destruct (lookup_lt_is_Some_2 (mm_positions r) (Z.to_nat curr)) as [p Hp];
    [unfold len in *; lia|].
  apply py_index_lookup in Hh, Hp. rewrite Z2Nat.id in Hh, Hp by lia.
  rewrite Hh. simpl. rewrite Hp. simpl.
  repeat case_decide; eauto; apply IH; lia.
Qed.

Lemma generate_block_hash_extra_keys_total r s e i :
  mm_wf r → 0 <= i →
  ∃ ke i', generate_block_hash_extra_keys r s e i = Ok (ke, i') ∧ 0 <= i'.
Proof.
  intros Hwf Hi. unfold generate_block_hash_extra_keys, _gen_mm_extra_hash_keys.
  case_decide as Hnil; cbn [mbind outcome_bind]; [by eauto|].
  destruct Hwf as [?|Hlen]; [done|]. rewrite decide_False by lia.
  destruct (exists_last Hnil) as (l & x & Hx). 
  assert (py_index (mm_positions r) (-1) = Ok x) as -> by (rewrite Hx; apply py_index_last).
  cbn [mbind outcome_bind].
  case_decide; cbn [mbind outcome_bind]; [by eauto|]. rewrite decide_False by lia.
  cbn [mbind outcome_bind].
  destruct (gen_mm_loop_total r s e (S (length (mm_positions r))) i []) as (k & c & -> & ?);
    [done|done|unfold len; lia|]. simpl. eauto.
Qed.

(** The start index [-1], "the last input", of [BlockPool.cache_full_blocks]. *)
Lemma generate_block_hash_extra_keys_last r s e :
  mm_wf r → ∃ ke i', generate_block_hash_extra_keys r s e (-1) = Ok (ke, i').
Proof.
  intros Hwf. unfold generate_block_hash_extra_keys, _gen_mm_extra_hash_keys.
  case_decide as Hnil; cbn [mbind outcome_bind]; [by eauto|].
  destruct Hwf as [?|Hlen]; [done|]. rewrite decide_False by lia.
  destruct (exists_last Hnil) as (l & x & Hx).
  assert (py_index (mm_positions r) (-1) = Ok x) as -> by (rewrite Hx; apply py_index_last).
  assert (1 <= len (mm_positions r)) by (rewrite Hx, len_app; pose proof (len_nonneg l); change (len [x]) with 1; lia).
  cbn [mbind outcome_bind].
  case_decide; cbn [mbind outcome_bind]; [by eauto|].
  rewrite decide_True by lia. rewrite decide_True by lia. cbn [mbind outcome_bind].
  destruct (gen_mm_loop_total r s e (S (length (mm_positions r))) (len (mm_positions r) + -1) [])
    as (k & c & -> & ?); [done|lia|unfold len in *; lia|]. simpl. eauto.
Qed.
End totality.

(** * The hash chain *)

(** The tokens of the block at index [i]. *)
Definition block_tokens (block_size : Z) (tokens : list Z) (i : nat) : list Z :=
  slice (Z.of_nat i * block_size) (Z.of_nat i * block_size + block_size) tokens.

Section chain.
Context (hash_function : Z * list Z * option (list extra_key) → Z) (NONE_HASH : Z).

(** The value of the block before index [i]. *)
Definition parent_value (hs : list BlockHash) (i : nat) : option Z :=
  match i with O => None | S j => hash_value <$> hs !! j end.

(** [hs] is a chain of hashes of full blocks of [tokens]: the specification of
    the hashes of a request, whichever function computed them. *)
Definition is_chain (block_size : Z) (tokens : list Z) (hs : list BlockHash) : Prop :=
  ∀ i h, hs !! i = Some h →
    len (block_tokens block_size tokens i) = block_size ∧
    ∃ ke, h = hash_block_tokens hash_function NONE_HASH (parent_value hs i)
                (block_tokens block_size tokens i) ke.

Lemma parent_value_app hs h i :
  (i <= length hs)%nat → parent_value (hs ++ [h]) i = parent_value hs i.
Proof. intros. destruct i as [|j]; [done|]. simpl. by rewrite lookup_app_l by lia. Qed.

Lemma is_chain_nil bs tokens : is_chain bs tokens [].
Proof. by intros i h ?. Qed.

(** A chain grows by the hash of its next block. *)
Lemma is_chain_snoc bs tokens hs ke :
  is_chain bs tokens hs → len (block_tokens bs tokens (length hs)) = bs →
  is_chain bs tokens (hs ++ [hash_block_tokens hash_function NONE_HASH
    (parent_value hs (length hs)) (block_tokens bs tokens (length hs)) ke]).
Proof.
  intros Hc Hlen i h Hi. apply lookup_app_Some in Hi as [Hi|[Hge Hi]].
  - rewrite parent_value_app by (apply lookup_lt_Some in Hi; lia). by apply Hc.
  - apply list_lookup_singleton_Some in Hi as [Hz <-].
    assert (i = length hs) as -> by lia. rewrite parent_value_app by lia. eauto.
Qed.

Lemma parent_value_last hs :
  parent_value hs (length hs) = hash_value <$> last hs.
Proof.
  destruct hs as [|h hs _] using rev_ind; [done|].
  rewrite length_app, Nat.add_1_r, last_snoc. simpl.
  by rewrite lookup_app_r, Nat.sub_diag by lia.
Qed.

Lemma block_tokens_len bs tokens i :
  0 < bs → len (block_tokens bs tokens i) = Z.max 0 (Z.min bs (len tokens - Z.of_nat i * bs)).
Proof. intros. unfold block_tokens. rewrite len_slice by nia. lia. Qed.

Lemma is_chain_length bs tokens hs :
  0 < bs → is_chain bs tokens hs → len hs * bs <= len tokens.
Proof.
  intros Hbs Hc. destruct hs as [|h hs _] using rev_ind.
  { rewrite (len_nil (A := BlockHash)). pose proof (len_nonneg tokens). lia. }
  destruct (Hc (length hs) h) as [Hfull _]; [by rewrite lookup_app_r, Nat.sub_diag by lia|].
  rewrite block_tokens_len in Hfull by done. autorewrite with len. unfold len at 1. nia.
Qed.

(** The hashes of full blocks do not change when tokens are added. *)
Lemma is_chain_prefix bs t t' hs :
  0 < bs → t `prefix_of` t' → is_chain bs t hs → is_chain bs t' hs.
Proof.
  intros Hbs [k ->] Hc i h Hi. destruct (Hc i h Hi) as (Hl & ke & ->).
  assert (block_tokens bs (t ++ k) i = block_tokens bs t i) as ->; [|by eauto].
  rewrite block_tokens_len in Hl by done. unfold block_tokens. rewrite !slice_nonneg by nia.
  rewrite take_app_le; [done|]. unfold len in Hl. nia.
Qed.

(** What the loop returns, from any point of the chain on. *)
Lemma hash_request_loop_spec r bs nk n : ∀ k ke0 mi ret,
  mm_wf r → 0 < bs → 0 <= mi →
  Z.of_nat (k + n) = cdiv (len (all_token_ids r)) bs →
  length ret = k → is_chain bs (all_token_ids r) ret →
  ∃ hs, hash_request_loop hash_function NONE_HASH
          ((λ i, 0 + Z.of_nat i * bs) <$> seq k n) r bs nk ke0 mi (parent_value ret k) ret = Ok hs ∧
    len hs = len (all_token_ids r) / bs ∧ is_chain bs (all_token_ids r) hs.
Proof.
  induction n as [|n IH]; intros k ke0 mi ret Hwf Hbs Hmi Hkn Hk Hc; simpl;
    pose proof (is_chain_length _ _ _ Hbs Hc) as Hl; unfold len at 1 in Hl; rewrite Hk in Hl;
    pose proof (cdiv_bounds (len (all_token_ids r)) bs Hbs) as Hcd.
  - exists ret. split_and!; [done| |done]. unfold len at 1. rewrite Hk.
    apply (Z.div_unique_pos _ _ _ 0); nia.
  - rewrite Z.add_0_l. change (slice _ _ _) with (block_tokens bs (all_token_ids r) k).
    pose proof (block_tokens_len bs (all_token_ids r) k Hbs) as Hbl. case_decide as Hpart.
    { exists ret. split_and!; [done| |done]. unfold len at 1. rewrite Hk.
      apply (Z.div_unique_pos _ _ _ (len (all_token_ids r) - Z.of_nat k * bs)); lia. }
    assert (∃ ke' mi', (if nk then generate_block_hash_extra_keys r (Z.of_nat k * bs)
              (Z.of_nat k * bs + bs) mi else Ok (ke0, mi)) = Ok (ke', mi') ∧ 0 <= mi')
      as (ke' & mi' & -> & Hmi').
    { destruct nk; [by apply generate_block_hash_extra_keys_total|eauto]. }
    simpl. rewrite <- Hk.
    set (h := hash_block_tokens hash_function NONE_HASH (parent_value ret (length ret))
                (block_tokens bs (all_token_ids r) (length ret)) ke').
    replace (Some _) with (parent_value (ret ++ [h]) (S (length ret))).
    2: { simpl. by rewrite lookup_app_r, Nat.sub_diag by lia. }
    apply IH; [done|done|done|lia|by rewrite length_app, Nat.add_1_r|].
    apply is_chain_snoc; [done|]. rewrite Hk. lia.
Qed.

Lemma hash_request_tokens_spec r bs :
  mm_wf r → 0 < bs →
  ∃ hs, hash_request_tokens hash_function NONE_HASH bs r = Ok hs ∧
    len hs = len (all_token_ids r) / bs ∧ is_chain bs (all_token_ids r) hs.
Proof.
  intros Hwf Hbs. unfold hash_request_tokens. rewrite !decide_False by lia.
  unfold range_step. rewrite Z.sub_0_r.
  pose proof (cdiv_nonneg (len (all_token_ids r)) bs Hbs (len_nonneg _)).
  apply (hash_request_loop_spec r bs _ _ 0%nat); [done|done|done|lia|done|apply is_chain_nil].
Qed.

(** A hash function without collisions, whose values differ from the two that
    stand for "no parent". *)
Class CollisionFree : Prop := {
  hash_inj :: Inj (=) (=) hash_function;
  hash_nonzero x : hash_function x ≠ 0;
  hash_not_none x : hash_function x ≠ NONE_HASH
}.

(** The parent of a block of a chain is [NONE_HASH] exactly for the first one. *)
Lemma chain_parent `{!CollisionFree} bs tokens hs i :
  is_chain bs tokens hs → is_Some (hs !! i) →
  match i with
  | O => parent_or_none NONE_HASH (parent_value hs i) = NONE_HASH
  | S j => ∃ h, hs !! j = Some h ∧ hash_value h ≠ NONE_HASH ∧
             parent_or_none NONE_HASH (parent_value hs i) = hash_value h
  end.
Proof.
  intros Hc [x Hx]. destruct i as [|j]; [done|].
  destruct (lookup_lt_is_Some_2 hs j) as [h Hh]; [apply lookup_lt_Some in Hx; lia|].
  destruct (Hc _ _ Hh) as [_ [ke E]]. exists h. split_and!; [done| |].
  - rewrite E. apply hash_not_none.
  - simpl. rewrite Hh. simpl. rewrite decide_False; [done|]. rewrite E. apply hash_nonzero.
Qed.

(** Equal hash values come from the same index, equal tokens up to and including
    the block, and equal extra keys of the block. *)
Lemma chain_inj `{!CollisionFree} bs t1 t2 hs1 hs2 i : ∀ j h1 h2,
  0 < bs → is_chain bs t1 hs1 → is_chain bs t2 hs2 →
  hs1 !! i = Some h1 → hs2 !! j = Some h2 → hash_value h1 = hash_value h2 →
  i = j ∧ take (Z.to_nat (Z.of_nat i * bs + bs)) t1 = take (Z.to_nat (Z.of_nat i * bs + bs)) t2 ∧
  extra_keys h1 = extra_keys h2.
Proof.
  induction i as [|i IH]; intros j h1 h2 Hbs Hc1 Hc2 H1 H2 Heq;
    destruct (Hc1 _ _ H1) as [_ [k1 E1]]; destruct (Hc2 _ _ H2) as [_ [k2 E2]];
    pose proof (chain_parent _ _ _ _ Hc1 (mk_is_Some _ _ H1)) as Hp1;
    pose proof (chain_parent _ _ _ _ Hc2 (mk_is_Some _ _ H2)) as Hp2;
    rewrite E1, E2 in Heq; cbn [hash_value hash_block_tokens] in Heq;
    apply (inj hash_function) in Heq; apply pair_equal_spec in Heq as [[Hp Ht]%pair_equal_spec Hk].
  - destruct j as [|j]; [|by destruct Hp2 as (h & _ & ? & ?); congruence].
    unfold block_tokens in Ht. rewrite !Z.mul_0_l, !slice_nonneg, !drop_0 in Ht by lia.
    split_and!; [done|done|rewrite E1, E2; exact Hk].
  - destruct Hp1 as (p1 & Hi & Hn1 & Hpp1). rewrite Hpp1 in Hp.
    destruct j as [|j]; [congruence|]. destruct Hp2 as (p2 & Hj & Hn2 & Hpp2).
    destruct (IH j p1 p2) as (<- & Htk & _); [done..|congruence|].
    split_and!; [done| |rewrite E1, E2; exact Hk].
    unfold block_tokens in Ht.
    rewrite (take_slice (Z.of_nat (S i) * bs) (Z.of_nat (S i) * bs + bs) t1),
      (take_slice (Z.of_nat (S i) * bs) (Z.of_nat (S i) * bs + bs) t2), Ht by lia.
    f_equal. by replace (Z.of_nat (S i) * bs) with (Z.of_nat i * bs + bs) by lia.
Qed.
End chain.
