(* ===== verification/BlockPool.v ===== *)
(** The block pool of [v1/core/block_pool.py]: allocation, caching, eviction, touching
    and freeing of KV-cache blocks over the free-block queue of [FreeBlockQueue], with
    the invariant that ties free list, reference counts, block hashes and the
    prefix-cache map together. *)
From Stdlib Require Import ZArith Lia QArith.
From stdpp Require Import base strings countable gmap sets fin_maps list.
From S2P Require Import Prelude FreeBlockQueue Request BlockHash.
Local Open Scope Z_scope.

(** * Events ([distributed/kv_events.py]) *)

Inductive KVCacheEvent : Type :=
  | BlockStored (block_hashes : list Z) (parent_block_hash : option Z) (token_ids : list Z)
      (block_size : Z) (lora_id : option Z)
  | BlockRemoved (block_hashes : list Z)
  | AllBlocksCleared.

(** * State *)

(** The inner dictionaries [{block_id: block}] keep the insertion order, which
    [next(iter(d.values()))] observes. *)
Abbreviation block_dict := (list (Z * ptr)).

Record BlockPool : Type := mkBlockPool {
  num_gpu_blocks : Z;
  enable_caching : bool;
  blocks : list ptr;
  free_block_queue : FreeQueue;
  cached_block_hash_to_block : gmap BlockHashWithGroupId block_dict;
  null_block : ptr;
  enable_kv_cache_events : bool;
  kv_event_queue : list KVCacheEvent
}.

Definition set_queue (q : FreeQueue) (p : BlockPool) : BlockPool :=
  mkBlockPool (num_gpu_blocks p) (enable_caching p) (blocks p) q
    (cached_block_hash_to_block p) (null_block p) (enable_kv_cache_events p) (kv_event_queue p).
Definition set_cache (c : gmap BlockHashWithGroupId block_dict) (p : BlockPool) : BlockPool :=
  mkBlockPool (num_gpu_blocks p) (enable_caching p) (blocks p) (free_block_queue p)
    c (null_block p) (enable_kv_cache_events p) (kv_event_queue p).
Definition set_event_queue (l : list KVCacheEvent) (p : BlockPool) : BlockPool :=
  mkBlockPool (num_gpu_blocks p) (enable_caching p) (blocks p) (free_block_queue p)
    (cached_block_hash_to_block p) (null_block p) (enable_kv_cache_events p) l.

(** A call on [self.free_block_queue] or on one of the blocks in its store. *)
Definition on_queue {A} (m : M FreeQueue A) : M BlockPool A := zoom free_block_queue set_queue m.

Definition set_ref_cnt (p : ptr) (v : Z) : M FreeQueue unit := modify (update_block p (with_ref_cnt v)).

(** [self.kv_event_queue.append(e)]. *)
Definition emit (e : KVCacheEvent) : M BlockPool unit :=
  modify (λ p, set_event_queue (kv_event_queue p ++ [e]) p).

(** [d[k] = v] and [d.pop(k, None)] on an insertion-ordered dictionary. *)
Fixpoint dict_set (k : Z) (v : ptr) (d : block_dict) : block_dict :=
  match d with
  | [] => [(k, v)]
  | (k', v') :: d' => if decide (k' = k) then (k, v) :: d' else (k', v') :: dict_set k v d'
  end.
Fixpoint dict_pop (k : Z) (d : block_dict) : block_dict :=
  match d with
  | [] => []
  | (k', v') :: d' => if decide (k' = k) then d' else (k', v') :: dict_pop k d'
  end.

(** * Operations *)

(** The store after the comprehension [[KVCacheBlock(idx) for idx in range(n)]]. *)
Definition initial_blocks (n : Z) : gmap ptr KVCacheBlock :=
  list_to_map ((λ i, (Blk i, new_block (Z.of_nat i))) <$> seq 0 (Z.to_nat n)).

Definition BlockPool_init (num_gpu_blocks : Z) (enable_caching enable_kv_cache_events : bool)
    : outcome BlockPool :=
  if decide (num_gpu_blocks > 0) then
    let bs := Blk <$> seq 0 (Z.to_nat num_gpu_blocks) in
    let build :=
      FreeKVCacheBlockQueue_init bs ;;
      null ← popleft;
      modify (update_block null (with_null true)) ;;
      mret null in
    match build (mkFreeQueue (initial_blocks num_gpu_blocks) 0) with
    | (Ok null, q) =>
      Ok (mkBlockPool num_gpu_blocks enable_caching bs q ∅ null enable_kv_cache_events [])
    | (Raise e, _) => Raise e
    end
  else Raise AssertionError.

(** The value of [self.cached_block_hash_to_block.get(...)]'s first entry. *)
Definition first_cached (p : BlockPool) (h : BlockHashWithGroupId) : option ptr :=
  match cached_block_hash_to_block p !! h with
  | Some ((_, b) :: _) => Some b
  | _ => None
  end.

Fixpoint get_cached_block (p : BlockPool) (block_hash : BlockHash) (kv_cache_group_ids : list Z)
    : option (list ptr) :=
  match kv_cache_group_ids with
  | [] => Some []
  | g :: gs =>
    b ← first_cached p (mkBlockHashWithGroupId block_hash g);
    bs ← get_cached_block p block_hash gs;
    Some (b :: bs)
  end.

Section cache_full_blocks.
Variable hash_function : Z * list Z * option (list extra_key) → Z.
Variable NONE_HASH : Z.

(** The hash of the block at [num_cached_blocks + i]: an element of
    [new_block_hashes] or a new one, which is also appended to [block_hashes]. *)
Definition next_block_hash (request : Request) (new_block_hashes block_hashes : list BlockHash)
    (num_cached_blocks block_size i : Z) (prev_block_hash_value : option Z)
    : M BlockPool (BlockHash * list BlockHash) :=
  if decide (i < len new_block_hashes) then
    h ← lift_outcome (py_index new_block_hashes i);
    mret (h, block_hashes)
  else
    let blk_idx := num_cached_blocks + i in
    let start_token_idx := blk_idx * block_size in
    let end_token_idx := (blk_idx + 1) * block_size in
    let block_tokens := slice start_token_idx end_token_idx (all_token_ids request) in
    assert_ (bool_decide (len block_tokens = block_size)) ;;
    '(extra_keys, _) ← lift_outcome
      (generate_block_hash_extra_keys request start_token_idx end_token_idx (-1));
    let h := hash_block_tokens hash_function NONE_HASH prev_block_hash_value block_tokens extra_keys in
    mret (h, block_hashes ++ [h]).

(** One round of the loop over [new_full_blocks]. *)
Definition cache_one_block (request : Request) (new_block_hashes : list BlockHash)
    (num_cached_blocks block_size kv_cache_group_id : Z)
    (st : list BlockHash * option Z * list Z) (ib : Z * ptr)
    : M BlockPool (list BlockHash * option Z * list Z) :=
  let '(block_hashes, prev_block_hash_value, new_hashes) := st in
  let '(i, blk) := ib in
  b ← on_queue (load blk);
  assert_ (bool_decide (block_hash b = None)) ;;
  '(h, block_hashes') ← next_block_hash request new_block_hashes block_hashes
                          num_cached_blocks block_size i prev_block_hash_value;
  let hg := mkBlockHashWithGroupId h kv_cache_group_id in
  on_queue (set_block_hash blk hg) ;;
  modify (λ p, set_cache
    (<[hg := dict_set (block_id b) blk (default ([] : block_dict) (cached_block_hash_to_block p !! hg))]>
       (cached_block_hash_to_block p)) p) ;;
  mret (block_hashes', Some (hash_value h), new_hashes ++ [hash_value h]).

(** Returns [block_hashes] as the call leaves the caller's list. *)
Definition cache_full_blocks (request : Request) (blocks : list ptr) (block_hashes : list BlockHash)
    (num_cached_blocks num_full_blocks block_size kv_cache_group_id : Z)
    : M BlockPool (list BlockHash) :=
  if decide (num_cached_blocks = num_full_blocks) then mret block_hashes
  else
    let new_full_blocks := slice num_cached_blocks num_full_blocks blocks in
    assert_ (bool_decide (len block_hashes >= num_cached_blocks)) ;;
    let new_block_hashes := slice_from num_cached_blocks block_hashes in
    parent_block_hash ←
      (if decide (num_cached_blocks = 0) then mret None
       else
         prev_block ← lift_outcome (py_index blocks (num_cached_blocks - 1));
         b ← on_queue (load prev_block);
         match FreeBlockQueue.block_hash b with
         | None => raise AssertionError
         | Some hg => mret (Some (get_hash_value hg))
         end);
    '(block_hashes', _, new_hashes) ←
      fold_each (enumerate new_full_blocks) (block_hashes, parent_block_hash, [])
        (cache_one_block request new_block_hashes num_cached_blocks block_size kv_cache_group_id);
    ev ← gets enable_kv_cache_events;
    (if (ev : bool) then
       (** [request.lora_request.id]: [LoRARequest] has no attribute [id]. *)
       match lora_request request with
       | Some _ => raise AttributeError
       | None =>
         emit (BlockStored new_hashes parent_block_hash
           (slice (num_cached_blocks * block_size) (num_full_blocks * block_size)
              (all_token_ids request)) block_size None)
       end
     else mret tt) ;;
    mret block_hashes'.
End cache_full_blocks.

Definition get_num_free_blocks (p : BlockPool) : Z := num_free_blocks (free_block_queue p).

Definition _maybe_evict_cached_block (block : ptr) : M BlockPool bool :=
  b ← on_queue (load block);
  match block_hash b with
  | None => mret false
  | Some h =>
    c ← gets cached_block_hash_to_block;
    match c !! h with
    | None => mret false
    | Some blocks_by_id =>
      on_queue (reset_hash block) ;;
      let blocks_by_id' := dict_pop (block_id b) blocks_by_id in
      modify (λ p, set_cache
        (if decide (len blocks_by_id' = 0) then delete h (cached_block_hash_to_block p)
         else <[h := blocks_by_id']> (cached_block_hash_to_block p)) p) ;;
      ev ← gets enable_kv_cache_events;
      (if (ev : bool) then emit (BlockRemoved [get_hash_value h]) else mret tt) ;;
      mret true
    end
  end.

(** [assert block.ref_cnt == 0; block.ref_cnt += 1]. *)
Definition take_reference (block : ptr) : M BlockPool unit :=
  b ← on_queue (load block);
  assert_ (bool_decide (ref_cnt b = 0)) ;;
  on_queue (set_ref_cnt block (ref_cnt b + 1)).

Definition get_new_blocks (num_blocks : Z) : M BlockPool (list ptr) :=
  nf ← gets get_num_free_blocks;
  if decide (num_blocks > nf) then raise ValueError
  else
    ret ← on_queue (popleft_n num_blocks);
    caching ← gets enable_caching;
    (if (caching : bool) then
       for_each ret (λ block, _maybe_evict_cached_block block ;; take_reference block)
     else for_each ret take_reference) ;;
    mret ret.

Definition touch_block (block : ptr) : M BlockPool unit :=
  b ← on_queue (load block);
  (if decide (ref_cnt b = 0 ∧ is_null b = false) then on_queue (remove block) else mret tt) ;;
  b' ← on_queue (load block);
  on_queue (set_ref_cnt block (ref_cnt b' + 1)).

Definition touch (blocks : list (list ptr)) : M BlockPool unit :=
  for_each blocks (λ blocks_per_group, for_each blocks_per_group touch_block).

(** The comprehension that selects the blocks to put back. *)
Definition unreferenced (q : FreeQueue) (block : ptr) : bool :=
  match heap q !! block with
  | Some b => bool_decide (ref_cnt b = 0) && negb (is_null b)
  | None => false
  end.

Definition free_blocks (ordered_blocks : list ptr) : M BlockPool unit :=
  for_each ordered_blocks (λ block,
    b ← on_queue (load block);
    on_queue (set_ref_cnt block (ref_cnt b - 1))) ;;
  q ← gets free_block_queue;
  on_queue (append_n (List.filter (unreferenced q) ordered_blocks)).

Definition reset_prefix_cache : M BlockPool bool :=
  n ← gets num_gpu_blocks;
  nf ← gets get_num_free_blocks;
  if decide (n - nf ≠ 1) then mret false
  else
    modify (set_cache ∅) ;;
    bs ← gets blocks;
    for_each bs (λ block, on_queue (reset_hash block)) ;;
    ev ← gets enable_kv_cache_events;
    (if (ev : bool) then emit AllBlocksCleared else mret tt) ;;
    mret true.

(** [1.0 - free / total], on exact rationals. *)
Definition get_usage (p : BlockPool) : Q :=
  (1 - inject_Z (get_num_free_blocks p) / inject_Z (num_gpu_blocks p))%Q.

Definition take_events : M BlockPool (list KVCacheEvent) :=
  ev ← gets enable_kv_cache_events;
  if (ev : bool) then
    l ← gets kv_event_queue;
    modify (set_event_queue []) ;;
    mret l
  else mret [].

(** * The prefix-cache map *)

(** Relates the map to the hash every block carries: an entry lists exactly the
    blocks with its hash, and no entry is empty. *)
Definition dict_of (c : gmap BlockHashWithGroupId block_dict) (h : BlockHashWithGroupId) : block_dict :=
  default ([] : block_dict) (c !! h).

Record cache_inv (hash : ptr → option BlockHashWithGroupId)
    (c : gmap BlockHashWithGroupId block_dict) : Prop := {
  ci_nonempty : ∀ h, c !! h ≠ Some [];
  ci_nodup : ∀ h, NoDup (dict_of c h).*1;
  ci_iff : ∀ h k q, (k, q) ∈ dict_of c h ↔ ∃ i, k = Z.of_nat i ∧ q = Blk i ∧ hash (Blk i) = Some h
}.

Section dicts.
Implicit Types (d : block_dict) (k : Z) (v : ptr).

Lemma dict_pop_elem d k k' v' :
  NoDup d.*1 → (k', v') ∈ dict_pop k d ↔ k' ≠ k ∧ (k', v') ∈ d.
Proof.
  induction d as [|[k0 v0] d IH]; intros Hnd; simpl.
  { split; [by intros ?%not_elem_of_nil|by intros [_ ?%not_elem_of_nil]]. }
  apply NoDup_cons in Hnd as [Hk Hnd].
  assert (Hin : ∀ w, (k0, w) ∉ d).
  { intros w Hw. apply Hk, list_elem_of_fmap. by exists (k0, w). }
  case_decide as Heq; rewrite !elem_of_cons.
  - subst. split; [|naive_solver]. intros Hin'. split; [intros ->; by eapply Hin|by right].
  - rewrite IH by done. naive_solver.
Qed.

Lemma dict_pop_subset d k : ∀ x, x ∈ (dict_pop k d).*1 → x ∈ d.*1.
Proof.
  induction d as [|[k0 v0] d IH]; simpl; [done|]. intros x.
  case_decide; simpl; rewrite ?elem_of_cons; naive_solver.
Qed.
Lemma dict_pop_nodup d k : NoDup d.*1 → NoDup (dict_pop k d).*1.
Proof.
  induction d as [|[k0 v0] d IH]; simpl; [done|]. intros [Hk Hnd]%NoDup_cons.
  case_decide; simpl; [done|]. apply NoDup_cons. split; [|by apply IH].
  intros Hin. by apply dict_pop_subset in Hin.
Qed.

(** A new key goes to the end. *)
Lemma dict_set_fresh d k v : k ∉ d.*1 → dict_set k v d = d ++ [(k, v)].
Proof.
  induction d as [|[k0 v0] d IH]; simpl; [done|].
  intros [? ?]%not_elem_of_cons. rewrite decide_False by done. by rewrite IH.
Qed.
End dicts.

Section cache_inv.
Implicit Types (hash : ptr → option BlockHashWithGroupId)
  (c : gmap BlockHashWithGroupId block_dict).

Lemma cache_inv_ext hash hash' c :
  (∀ i, hash' (Blk i) = hash (Blk i)) → cache_inv hash c → cache_inv hash' c.
Proof.
  intros H [Hne Hnd Hiff]. split; [done|done|]. intros h k q. rewrite Hiff.
  split; intros (i & -> & -> & Hh); exists i; [by rewrite H|by rewrite <- H].
Qed.

Lemma cache_inv_empty hash : (∀ i, hash (Blk i) = None) → cache_inv hash ∅.
Proof.
  intros H. split.
  - intros h. by rewrite lookup_empty.
  - intros h. unfold dict_of. rewrite lookup_empty. apply NoDup_nil_2.
  - intros h k q. unfold dict_of. rewrite lookup_empty. simpl. split.
    + by intros ?%not_elem_of_nil.
    + intros (i & _ & _ & Hi). by rewrite H in Hi.
Qed.

Lemma cache_inv_lookup hash c i h :
  cache_inv hash c → hash (Blk i) = Some h → ∃ d, c !! h = Some d ∧ (Z.of_nat i, Blk i) ∈ d.
Proof.
  intros Hc Hi. assert (Hin : (Z.of_nat i, Blk i) ∈ dict_of c h) by (apply (ci_iff _ _ Hc); eauto).
  unfold dict_of in Hin. destruct (c !! h); [by eauto|]. by apply not_elem_of_nil in Hin.
Qed.

Lemma cache_inv_evict hash hash' c i h (d' := dict_pop (Z.of_nat i) (dict_of c h)) :
  cache_inv hash c → hash (Blk i) = Some h →
  (∀ j, hash' (Blk j) = if decide (j = i) then None else hash (Blk j)) →
  cache_inv hash' (if decide (len d' = 0) then delete h c else <[h := d']> c).
Proof.
  intros [Hne Hnd Hiff] Hi Hh'. set (c' := if decide _ then _ else _).
  assert (Hd : ∀ h0, dict_of c' h0 = if decide (h0 = h) then d' else dict_of c h0).
  { intros h0. unfold c', dict_of. destruct (decide (len d' = 0)) as [Hz|Hz].
    - destruct d'; [|done]. case_decide; subst;
        [by rewrite lookup_delete_eq|by rewrite lookup_delete_ne].
    - case_decide; subst; [by rewrite lookup_insert_eq|by rewrite lookup_insert_ne]. }
  split.
  - intros h0. unfold c'. destruct (decide (len d' = 0)) as [Hz|Hz]; destruct (decide (h0 = h)) as [->|].
    + by rewrite lookup_delete_eq.
    + by rewrite lookup_delete_ne.
    + rewrite lookup_insert_eq. by intros [= Hd'%(f_equal len)].
    + by rewrite lookup_insert_ne.
  - intros h0. rewrite Hd. case_decide; [|done]. by apply dict_pop_nodup.
  - intros h0 k q. rewrite Hd. case_decide as Hh; subst.
    + unfold d'. rewrite dict_pop_elem, Hiff by done. split.
      * intros (? & j & -> & -> & ?). exists j. rewrite Hh', decide_False by congruence. done.
      * intros (j & -> & -> & Hj). rewrite Hh' in Hj. case_decide; [done|].
        split; [lia|eauto].
    + rewrite Hiff. split; intros (j & -> & -> & Hj); exists j; rewrite ?Hh' in *;
        case_decide; naive_solver.
Qed.

Lemma cache_inv_insert hash hash' c i h :
  cache_inv hash c → hash (Blk i) = None →
  (∀ j, hash' (Blk j) = if decide (j = i) then Some h else hash (Blk j)) →
  cache_inv hash' (<[h := dict_set (Z.of_nat i) (Blk i) (dict_of c h)]> c).
Proof.
  intros [Hne Hnd Hiff] Hi Hh'. rewrite dict_set_fresh.
  2: { intros Hin. apply list_elem_of_fmap in Hin as ([k q] & ? & Hin); simplify_eq/=.
       apply Hiff in Hin as (j & ?%Nat2Z.inj & _ & Hj). by simplify_eq. }
  set (d' := _ ++ _). set (c' := <[h := d']> c).
  assert (Hd : ∀ h0, dict_of c' h0 = if decide (h0 = h) then d' else dict_of c h0).
  { intros h0. unfold c', dict_of. case_decide; subst;
      [by rewrite lookup_insert_eq|by rewrite lookup_insert_ne]. }
  split.
  - intros h0. unfold c'. destruct (decide (h0 = h)) as [->|].
    + rewrite lookup_insert_eq. unfold d'. by destruct (dict_of c h).
    + by rewrite lookup_insert_ne.
  - intros h0. rewrite Hd. case_decide; [|done]. unfold d'. rewrite fmap_app.
    apply NoDup_app. split_and!; [done| |apply NoDup_singleton].
    intros k Hin ->%list_elem_of_singleton. apply list_elem_of_fmap in Hin as ([k q] & ? & Hin).
    simplify_eq/=. apply Hiff in Hin as (j & ?%Nat2Z.inj & _ & Hj). by simplify_eq.
  - intros h0 k q. rewrite Hd. case_decide as Hh; subst.
    + unfold d'. rewrite elem_of_app, list_elem_of_singleton, Hiff. split.
      * intros [(j & -> & -> & Hj)|[= -> ->]]; [exists j|exists i]; rewrite Hh';
          case_decide; naive_solver.
      * intros (j & -> & -> & Hj). rewrite Hh' in Hj. case_decide; naive_solver.
    + rewrite Hiff. split; intros (j & -> & -> & Hj); exists j; rewrite ?Hh' in *;
        case_decide; naive_solver.
Qed.
End cache_inv.

(** * The pool invariant *)

Definition blk_ref (p : BlockPool) (q : ptr) : Z :=
  match heap (free_block_queue p) !! q with Some b => ref_cnt b | None => 0 end.
Definition blk_hash (p : BlockPool) (q : ptr) : option BlockHashWithGroupId :=
  heap (free_block_queue p) !! q ≫= block_hash.

(** The block objects of the pool; [Blk 0] is the null block. *)
Definition valid (p : BlockPool) (q : ptr) : Prop :=
  ∃ i, q = Blk i ∧ (i < Z.to_nat (num_gpu_blocks p))%nat.

Definition same_config (p p' : BlockPool) : Prop :=
  num_gpu_blocks p' = num_gpu_blocks p ∧ enable_caching p' = enable_caching p ∧
  blocks p' = blocks p ∧ null_block p' = null_block p ∧
  enable_kv_cache_events p' = enable_kv_cache_events p.

#[export] Instance same_config_preorder : PreOrder same_config.
Proof. split; unfold same_config; [done|]. intros ???; intuition congruence. Qed.

(** Everything but the link between reference counts and free list. *)
Record pool_core (p : BlockPool) (free : list ptr) : Prop := {
  pc_queue : queue_repr (free_block_queue p) free;
  pc_pos : 0 < num_gpu_blocks p;
  pc_blocks : blocks p = Blk <$> seq 0 (Z.to_nat (num_gpu_blocks p));
  pc_null : null_block p = Blk 0;
  pc_store : ∀ i, is_Some (heap (free_block_queue p) !! Blk i) ↔ (i < Z.to_nat (num_gpu_blocks p))%nat;
  pc_meta : ∀ i b, heap (free_block_queue p) !! Blk i = Some b →
    block_id b = Z.of_nat i ∧ is_null b = bool_decide (Blk i = null_block p);
  pc_free : ∀ q, q ∈ free → valid p q ∧ q ≠ null_block p;
  pc_cache : cache_inv (blk_hash p) (cached_block_hash_to_block p)
}.

(** A block is free exactly when nobody refers to it. *)
Definition refs_ok (p : BlockPool) (free : list ptr) : Prop :=
  ∀ q, valid p q → q ≠ null_block p → 0 ≤ blk_ref p q ∧ (q ∈ free ↔ blk_ref p q = 0).

Definition pool_inv (p : BlockPool) (free : list ptr) : Prop := pool_core p free ∧ refs_ok p free.

(** [p'] is [p] with other reference counts and hashes. *)
Definition pool_upd (p p' : BlockPool) (ref : ptr → Z)
    (hash : ptr → option BlockHashWithGroupId) : Prop :=
  same_config p p' ∧ (∀ q, blk_ref p' q = ref q) ∧ (∀ q, blk_hash p' q = hash q).

Section core_steps.
Implicit Types (p : BlockPool) (s : FreeQueue) (free : list ptr) (q : ptr).

Lemma valid_config p p' q : same_config p p' → valid p q ↔ valid p' q.
Proof. intros (Hn & _). unfold valid. by rewrite Hn. Qed.

Lemma same_meta_views p s : same_meta (free_block_queue p) s →
  pool_upd p (set_queue s p) (blk_ref p) (blk_hash p).
Proof.
  intros Hm. split_and!; [done|..]; intros q; unfold blk_ref, blk_hash; simpl; specialize (Hm q);
    destruct (heap (free_block_queue p) !! q) as [b|], (heap s !! q) as [b'|]; try done;
    simpl in *; unfold meta in Hm; injection Hm; intros; congruence.
Qed.

(** A queue operation keeps the core. *)
Lemma core_queue_op p free free' s :
  pool_core p free → queue_repr s free' → same_meta (free_block_queue p) s →
  (∀ q, q ∈ free' → valid p q ∧ q ≠ null_block p) →
  pool_core (set_queue s p) free'.
Proof.
  intros [Hq Hpos Hb Hn Hs Hm Hf Hc] Hr Hsm Hf'. split; try done.
  - intros i. simpl. rewrite <- Hs. split; apply same_meta_is_Some; [by symmetry|done].
  - simpl. intros i b Hi. specialize (Hsm (Blk i)). rewrite Hi in Hsm.
    destruct (heap (free_block_queue p) !! Blk i) as [b0|] eqn:E; [|done].
    destruct (Hm _ _ E). simpl in Hsm. injection Hsm. intros. by split; congruence.
  - destruct (same_meta_views p s Hsm) as (_ & _ & Hh). revert Hc. apply cache_inv_ext. intros i. apply Hh.
Qed.

Lemma core_popleft_n p l1 l2 :
  pool_core p (l1 ++ l2) →
  wp (on_queue (popleft_n (len l1)))
    (λ bs p', bs = l1 ∧ pool_core p' l2 ∧ pool_upd p p' (blk_ref p) (blk_hash p)) p.
Proof.
  intros Hc. apply wp_zoom. eapply wp_mono; [apply popleft_n_spec, (pc_queue _ _ Hc)|].
  intros bs s (-> & Hr & Hm). csplit; [done| |by apply same_meta_views].
  eapply core_queue_op; [done..|]. intros q Hq. apply (pc_free _ _ Hc).
  rewrite elem_of_app. by right.
Qed.

Lemma core_remove p l1 q l2 :
  pool_core p (l1 ++ q :: l2) →
  wp (on_queue (remove q))
    (λ _ p', pool_core p' (l1 ++ l2) ∧ pool_upd p p' (blk_ref p) (blk_hash p)) p.
Proof.
  intros Hc. apply wp_zoom. eapply wp_mono; [apply remove_spec, (pc_queue _ _ Hc)|].
  intros _ s (Hr & Hm). split; [|by apply same_meta_views].
  eapply core_queue_op; [done..|]. intros q' Hq. apply (pc_free _ _ Hc).
  rewrite elem_of_app, elem_of_cons in *. tauto.
Qed.

Lemma core_append_n p free bs :
  pool_core p free → NoDup bs → (∀ q, q ∈ bs → valid p q ∧ (q ∉ free) ∧ q ≠ null_block p) →
  wp (on_queue (append_n bs))
    (λ _ p', pool_core p' (free ++ bs) ∧ pool_upd p p' (blk_ref p) (blk_hash p)) p.
Proof.
  intros Hc Hnd Hbs. apply wp_zoom.
  eapply wp_mono; [apply append_n_spec; [apply (pc_queue _ _ Hc)|]|].
  - split_and!; [done|apply Forall_forall| |].
    + intros q Hq. destruct (Hbs q Hq) as ((i & -> & _) & _). by eexists.
    + intros q Hq. by destruct (Hbs q Hq) as (_ & ? & _).
    + intros q Hq. destruct (Hbs q Hq) as ((i & -> & Hi) & _). by apply (pc_store _ _ Hc).
  - intros _ s (Hr & Hm). split; [|by apply same_meta_views].
    eapply core_queue_op; [done..|]. intros q. rewrite elem_of_app. intros [Hq|Hq].
    + by apply (pc_free _ _ Hc).
    + by destruct (Hbs q Hq) as (? & _ & ?).
Qed.

Lemma wp_load_block p free q (Q : KVCacheBlock → BlockPool → Prop) :
  pool_core p free → valid p q →
  (∀ i b, q = Blk i → block_id b = Z.of_nat i → ref_cnt b = blk_ref p q → block_hash b = blk_hash p q →
     is_null b = bool_decide (q = null_block p) → Q b p) →
  wp (on_queue (load q)) Q p.
Proof.
  intros Hc (i & -> & Hi) HQ. apply (pc_store _ _ Hc) in Hi as [b Hb]. apply wp_zoom.
  apply (wp_load _ _ b); [done|]. destruct (pc_meta _ _ Hc _ _ Hb) as [? ?].
  replace (set_queue _ p) with p by by destruct p.
  apply (HQ i); try done; unfold blk_ref, blk_hash; by rewrite Hb.
Qed.

(** Writing a reference count or a hash leaves the queue as it is. *)
Lemma queue_repr_links s s' l :
  (∀ r, nxt s' r = nxt s r ∧ prv s' r = prv s r) → num_free_blocks s' = num_free_blocks s →
  queue_repr s l → queue_repr s' l.
Proof.
  intros Hl Hn [Hnd HF Hlk Hnum Ht Ho]. split; try done.
  - revert Hlk. rewrite !linked_lookup. intros Hlk i x y Hx Hy.
    destruct (Hl x) as [-> _], (Hl y) as [_ ->]. by eapply Hlk.
  - by rewrite Hn.
  - by destruct (Hl FakeTail) as [-> _].
  - intros r ??. destruct (Hl r) as [-> ->]. by apply Ho.
Qed.

Lemma queue_repr_update s l q f :
  (∀ b, next_free_block (f b) = next_free_block b ∧ prev_free_block (f b) = prev_free_block b) →
  queue_repr s l → queue_repr (update_block q f s) l.
Proof.
  intros Hf. apply queue_repr_links; [|done]. intros r. unfold nxt, prv.
  rewrite lookup_update_block. case_decide; [|done].
  destruct (heap s !! r) as [b|]; [|done]. simpl. apply Hf.
Qed.

Lemma core_update_block p free q f c :
  (∀ b, next_free_block (f b) = next_free_block b ∧ prev_free_block (f b) = prev_free_block b ∧
        block_id (f b) = block_id b ∧ is_null (f b) = is_null b) →
  pool_core p free →
  let p' := set_cache c (set_queue (update_block q f (free_block_queue p)) p) in
  cache_inv (blk_hash p') c → pool_core p' free.
Proof.
  intros Hf [Hq Hpos Hb Hn Hs Hm Hfr Hc] p' Hc'. split; try done.
  - apply queue_repr_update; [|done]. intros b. by destruct (Hf b) as (? & ? & _).
  - intros i. etransitivity; [apply heap_set|apply Hs].
  - intros i b. cbn [free_block_queue set_queue set_cache p'].
    rewrite lookup_update_block. case_decide; [|apply Hm].
    rewrite fmap_Some. intros (b0 & Hb0 & ->). destruct (Hf b0) as (_ & _ & -> & ->). by apply Hm.
Qed.

Lemma set_cache_id p : set_cache (cached_block_hash_to_block p) p = p.
Proof. by destruct p. Qed.

Lemma core_set_ref p free q v :
  pool_core p free → valid p q →
  wp (on_queue (set_ref_cnt q v))
    (λ _ p', pool_core p' free ∧
       pool_upd p p' (λ r, if decide (r = q) then v else blk_ref p r) (blk_hash p)) p.
Proof.
  intros Hc (i & -> & Hi). apply wp_zoom, wp_modify.
  apply (pc_store _ _ Hc) in Hi as [b0 Hb0].
  assert (Hh : ∀ r, blk_hash (set_queue (update_block (Blk i) (with_ref_cnt v) (free_block_queue p)) p) r
                    = blk_hash p r).
  { intros r. unfold blk_hash. cbn [free_block_queue set_queue set_cache]. rewrite lookup_update_block. case_decide; [|done].
    by destruct (heap (free_block_queue p) !! r). }
  split; [|split_and!; [done| |done]].
  - pose proof (core_update_block p free (Blk i) (with_ref_cnt v) (cached_block_hash_to_block p)) as H.
    apply H; [done|done|]. eapply cache_inv_ext, (pc_cache _ _ Hc). intros j. apply Hh.
  - intros r. unfold blk_ref. cbn [free_block_queue set_queue set_cache]. rewrite lookup_update_block.
    destruct (decide (r = Blk i)) as [->|]; [by rewrite decide_True, Hb0|by rewrite decide_False by done].
Qed.

(** Writing the hash of a block together with the map that goes with it. *)
Lemma core_set_hash p free i h c :
  pool_core p free → (i < Z.to_nat (num_gpu_blocks p))%nat →
  (∀ hash', (∀ j, hash' (Blk j) = if decide (j = i) then h else blk_hash p (Blk j)) → cache_inv hash' c) →
  let p' := set_cache c (set_queue (update_block (Blk i) (with_hash h) (free_block_queue p)) p) in
  pool_core p' free ∧
  pool_upd p p' (blk_ref p) (λ r, if decide (r = Blk i) then h else blk_hash p r).
Proof.
  intros Hc Hi Hci p'. apply (pc_store _ _ Hc) in Hi as [b0 Hb0].
  assert (Hh : ∀ r, blk_hash p' r = if decide (r = Blk i) then h else blk_hash p r).
  { intros r. unfold blk_hash, p'. cbn [free_block_queue set_queue set_cache]. rewrite lookup_update_block.
    destruct (decide (r = Blk i)) as [->|]; [by rewrite decide_True, Hb0|by rewrite decide_False by done]. }
  split; [|split_and!; [done| |done]].
  - apply core_update_block; [done|done|]. apply Hci. intros j. rewrite Hh.
    destruct (decide (j = i)) as [->|]; [by rewrite decide_True|by rewrite decide_False by congruence].
  - intros r. unfold blk_ref, p'. cbn [free_block_queue set_queue set_cache]. rewrite lookup_update_block. case_decide; [|done].
    by destruct (heap (free_block_queue p) !! r).
Qed.
End core_steps.

(** * What the operations do *)

Section views.
Implicit Types (p : BlockPool) (ref : ptr → Z) (hash : ptr → option BlockHashWithGroupId).

Lemma pool_upd_refl p : pool_upd p p (blk_ref p) (blk_hash p).
Proof. by split_and!. Qed.
Lemma pool_upd_trans p p1 p2 ref1 hash1 ref2 hash2 :
  pool_upd p p1 ref1 hash1 → pool_upd p1 p2 ref2 hash2 → pool_upd p p2 ref2 hash2.
Proof. intros (Hc1 & _ & _) (Hc2 & ? & ?). split_and!; [by etransitivity|done..]. Qed.
Lemma pool_upd_ext p p' ref ref' hash hash' :
  pool_upd p p' ref hash → (∀ q, ref q = ref' q) → (∀ q, hash q = hash' q) →
  pool_upd p p' ref' hash'.
Proof. intros (? & Hr & Hh) Hr' Hh'. split_and!; [done|..]; intros q; [by rewrite Hr|by rewrite Hh]. Qed.
Lemma pool_upd_valid p p' ref hash q : pool_upd p p' ref hash → valid p' q ↔ valid p q.
Proof. intros [Hc _]. symmetry. by apply valid_config. Qed.
Lemma pool_upd_null p p' ref hash : pool_upd p p' ref hash → null_block p' = null_block p.
Proof. by intros [(_ & _ & _ & ? & _) _]. Qed.
End views.

Section allocation.
Implicit Types (p : BlockPool) (free : list ptr) (q : ptr).

Lemma take_reference_spec p free q :
  pool_core p free → valid p q → blk_ref p q = 0 →
  wp (take_reference q) (λ _ p', pool_core p' free ∧
    pool_upd p p' (λ r, if decide (r = q) then 1 else blk_ref p r) (blk_hash p)) p.
Proof.
  intros Hc Hv H0. unfold take_reference. apply wp_bind.
  eapply wp_load_block; [done..|]. intros i b _ _ Hrc _ _. rewrite Hrc, H0. wp_steps; [done|].
  by apply core_set_ref.
Qed.

Lemma _maybe_evict_cached_block_spec p free q :
  pool_core p free → valid p q →
  wp (_maybe_evict_cached_block q) (λ res p', pool_core p' free ∧
    res = bool_decide (is_Some (blk_hash p q)) ∧
    pool_upd p p' (blk_ref p) (λ r, if decide (r = q) then None else blk_hash p r)) p.
Proof.
  intros Hc Hv. unfold _maybe_evict_cached_block. apply wp_bind.
  eapply wp_load_block; [done..|]. intros i b -> Hid _ Hbh _. rewrite Hbh, Hid.
  destruct (blk_hash p (Blk i)) as [h|] eqn:Hh; cbn [option_map].
  2: { apply wp_ret. split_and!; [done|by rewrite bool_decide_eq_false_2 by by intros [??]|].
       eapply pool_upd_ext; [apply pool_upd_refl|done|]. intros r. by case_decide; subst. }
  destruct (cache_inv_lookup _ _ _ _ (pc_cache _ _ Hc) Hh) as (d & Hd & _).
  assert (Hi : (i < Z.to_nat (num_gpu_blocks p))%nat) by by destruct Hv as (? & [= ->] & ?).
  destruct (core_set_hash p free i None
    (if decide (len (dict_pop (Z.of_nat i) d) = 0) then delete h (cached_block_hash_to_block p)
     else <[h := dict_pop (Z.of_nat i) d]> (cached_block_hash_to_block p)) Hc Hi) as [Hc' Hu'].
  { intros hash' Hh'. replace d with (dict_of (cached_block_hash_to_block p) h)
      by (unfold dict_of; by rewrite Hd).
    eapply cache_inv_evict; [apply (pc_cache _ _ Hc)|done|done]. }
  wp_steps. rewrite Hd. unfold on_queue, reset_hash. wp_steps.
  match goal with |- context [if enable_kv_cache_events ?x then _ else _] =>
    destruct (enable_kv_cache_events x) end; unfold emit; wp_steps;
    (split_and!; [|by rewrite bool_decide_eq_true_2 by eauto|exact Hu']).
  - destruct Hc'. by split.
  - exact Hc'.
Qed.

(** What one block of [get_new_blocks] goes through. *)
Lemma new_block_spec p free q (caching : bool) :
  pool_core p free → valid p q → blk_ref p q = 0 →
  wp (if caching then _maybe_evict_cached_block q ;; take_reference q else take_reference q)
    (λ _ p', pool_core p' free ∧
      pool_upd p p' (λ r, if decide (r = q) then 1 else blk_ref p r)
        (λ r, if decide (r = q ∧ caching = true) then None else blk_hash p r)) p.
Proof.
  intros Hc Hv H0. destruct caching.
  - apply wp_bind. eapply wp_mono; [by apply _maybe_evict_cached_block_spec|].
    intros _ p1 (Hc1 & _ & Hu1). eapply wp_mono; [apply take_reference_spec; [done|..]|].
    + by eapply pool_upd_valid.
    + by destruct Hu1 as (_ & -> & _).
    + intros _ p2 (Hc2 & Hu2). split; [done|].
      pose proof Hu1 as (_ & Hr1 & Hh1).
      eapply pool_upd_ext; [by eapply pool_upd_trans|..]; intros r; cbn beta.
      * by rewrite Hr1.
      * rewrite Hh1. destruct (decide (r = q)); [by rewrite decide_True|by rewrite decide_False by tauto].
  - eapply wp_mono; [by apply take_reference_spec|]. intros _ p1 (Hc1 & Hu1). split; [done|].
    eapply pool_upd_ext; [done|done|]. intros r. by rewrite decide_False by naive_solver.
Qed.

(** The loop of [get_new_blocks], in both of its forms. *)
Lemma new_blocks_loop_spec p l1 free (caching : bool) :
  pool_core p free → NoDup l1 → (∀ q, q ∈ l1 → valid p q ∧ blk_ref p q = 0) →
  wp (for_each l1 (λ q, if caching then _maybe_evict_cached_block q ;; take_reference q
                        else take_reference q))
    (λ _ p', pool_core p' free ∧
      pool_upd p p' (λ r, if decide (r ∈ l1) then 1 else blk_ref p r)
        (λ r, if decide (r ∈ l1 ∧ caching = true) then None else blk_hash p r)) p.
Proof.
  intros Hc Hnd Hl.
  apply (wp_for_each (λ done todo p', pool_core p' free ∧
      pool_upd p p' (λ r, if decide (r ∈ done) then 1 else blk_ref p r)
        (λ r, if decide (r ∈ done ∧ caching = true) then None else blk_hash p r))); [| |done].
  - split; [done|]. eapply pool_upd_ext; [apply pool_upd_refl|..]; intros r.
    + by rewrite decide_False by apply not_elem_of_nil.
    + rewrite decide_False; [done|]. by intros [?%not_elem_of_nil _].
  - intros done q todo p1 -> [Hc1 Hu1]. pose proof Hu1 as (_ & Hr1 & Hh1).
    apply NoDup_app in Hnd as (_ & Hd & _).
    assert (Hq : q ∉ done) by (intros Hin; apply (Hd _ Hin); left).
    destruct (Hl q) as [Hv H0]; [rewrite elem_of_app; right; left|].
    eapply wp_mono; [apply (new_block_spec p1 free)|].
    + done.
    + by eapply pool_upd_valid.
    + by rewrite Hr1, decide_False.
    + intros _ p2 (Hc2 & Hu2). split; [exact Hc2|].
      eapply pool_upd_ext; [by eapply pool_upd_trans|..]; intros r; cbn beta.
      * rewrite Hr1. destruct (decide (r = q)) as [->|].
        -- rewrite decide_True; [done|]. rewrite elem_of_app. right. left.
        -- destruct (decide (r ∈ done)); [rewrite decide_True; [done|]|rewrite decide_False; [done|]];
             rewrite elem_of_app, list_elem_of_singleton; tauto.
      * rewrite Hh1. destruct (decide (r = q ∧ caching = true)) as [[-> ->]|].
        -- rewrite decide_True; [done|]. rewrite elem_of_app. split; [right; left|done].
        -- destruct (decide (r ∈ done ∧ caching = true));
             [rewrite decide_True; [done|]|rewrite decide_False; [done|]];
             rewrite elem_of_app, list_elem_of_singleton; tauto.
Qed.

Lemma get_new_blocks_spec p l1 l2 :
  pool_inv p (l1 ++ l2) →
  wp (get_new_blocks (len l1)) (λ bs p', bs = l1 ∧ pool_inv p' l2 ∧
    pool_upd p p' (λ r, if decide (r ∈ l1) then 1 else blk_ref p r)
      (λ r, if decide (r ∈ l1 ∧ enable_caching p = true) then None else blk_hash p r)) p.
Proof.
  intros [Hc Hrefs]. unfold get_new_blocks. apply wp_bind, wp_gets. unfold get_num_free_blocks.
  pose proof (repr_num _ _ (pc_queue _ _ Hc)) as Hnum. pose proof (len_nonneg l2).
  rewrite decide_False by (rewrite Hnum, len_app; lia).
  pose proof (repr_nodup _ _ (pc_queue _ _ Hc)) as Hnd. apply NoDup_app in Hnd as (Hnd1 & Hd & _).
  apply wp_bind. eapply wp_mono; [by apply core_popleft_n|].
  intros ? p1 (-> & Hc1 & Hu1). cbn beta. pose proof Hu1 as ((_ & Hen & _ & Hnu & _) & Hr1 & Hh1). wp_steps.
  replace (if enable_caching p1 then _ else _) with (for_each l1 (λ q,
    if enable_caching p1 then _maybe_evict_cached_block q ;; take_reference q else take_reference q))
    by by destruct (enable_caching p1).
  rewrite Hen. eapply wp_mono; [apply (new_blocks_loop_spec _ _ l2); [done|done|]|].
  - intros q Hq. assert (Hq' : q ∈ l1 ++ l2) by (rewrite elem_of_app; by left).
    destruct (pc_free _ _ Hc q Hq') as [Hv Hn]. split; [by eapply pool_upd_valid|].
    rewrite Hr1. by apply (Hrefs q Hv Hn).
  - intros _ p2 (Hc2 & Hu2). pose proof Hu2 as (_ & Hr2 & _). apply wp_ret. csplit; [done|split; [exact Hc2|]|].
    + intros q Hv Hn. apply (pool_upd_valid _ _ _ _ _ Hu2), (pool_upd_valid _ _ _ _ _ Hu1) in Hv.
      rewrite (pool_upd_null _ _ _ _ Hu2), Hnu in Hn. destruct (Hrefs q Hv Hn) as [Hpos Hiff].
      rewrite Hr2, Hr1. destruct (decide (q ∈ l1)) as [Hin|Hin].
      * split; [lia|]. split; [|done]. intros Hin2. by destruct (Hd _ Hin).
      * split; [done|]. rewrite <- Hiff, elem_of_app. tauto.
    + eapply pool_upd_ext; [by eapply pool_upd_trans|..]; intros r; cbn beta; by rewrite ?Hr1, ?Hh1.
Qed.

Lemma get_new_blocks_too_many p n :
  n > get_num_free_blocks p → get_new_blocks n p = (Raise ValueError, p).
Proof. intros Hn. unfold get_new_blocks, mbind, M_bind, gets. by rewrite decide_True. Qed.
End allocation.

Section touching.
Implicit Types (p : BlockPool) (free bs : list ptr) (q : ptr).

Lemma touch_block_spec p free q :
  pool_inv p free → valid p q →
  wp (touch_block q) (λ _ p', pool_inv p' (filter (.≠ q) free) ∧
    pool_upd p p' (λ r, blk_ref p r + if decide (r = q) then 1 else 0) (blk_hash p)) p.
Proof.
  intros [Hc Hrefs] Hv. unfold touch_block. apply wp_bind.
  eapply wp_load_block; [done..|]. intros i b -> _ Hrc _ Hnl. rewrite Hrc, Hnl. apply wp_bind.
  apply (wp_mono _ (λ _ p1, pool_core p1 (filter (.≠ Blk i) free) ∧
    pool_upd p p1 (blk_ref p) (blk_hash p))).
  { pose proof (repr_nodup _ _ (pc_queue _ _ Hc)) as Hnd.
    destruct (decide (Blk i ∈ free)) as [Hin|Hin].
    - destruct (pc_free _ _ Hc _ Hin) as [_ Hnn]. destruct (Hrefs _ Hv Hnn) as [_ Hiff].
      rewrite decide_True by (rewrite bool_decide_eq_false_2 by done; tauto).
      apply list_elem_of_split in Hin as (l1 & l2 & ->). rewrite filter_ne_split by done.
      by apply core_remove.
    - rewrite decide_False.
      2: { intros [H0 Hnn%bool_decide_eq_false]. by apply Hin, (Hrefs _ Hv Hnn). }
      apply wp_ret. split; [|apply pool_upd_refl].
      rewrite list_filter_id; [done|]. by intros x ? ->. }
  intros _ p1 (Hc1 & Hu1). pose proof Hu1 as (_ & Hr1 & Hh1). apply wp_bind.
  assert (Hv1 : valid p1 (Blk i)) by by eapply pool_upd_valid.
  eapply wp_load_block; [done..|]. intros _ b1 _ _ Hrc1 _ _. rewrite Hrc1, Hr1.
  eapply wp_mono; [by apply core_set_ref|]. intros _ p2 (Hc2 & Hu2). pose proof Hu2 as (_ & Hr2 & _).
  assert (Hr2' : ∀ r, blk_ref p2 r = blk_ref p r + if decide (r = Blk i) then 1 else 0).
  { intros r. rewrite Hr2, Hr1. destruct (decide (r = Blk i)) as [->|]; lia. }
  split; [split; [exact Hc2|]|].
  - intros r Hvr Hnr. apply (pool_upd_valid _ _ _ _ _ Hu2), (pool_upd_valid _ _ _ _ _ Hu1) in Hvr.
    rewrite (pool_upd_null _ _ _ _ Hu2), (pool_upd_null _ _ _ _ Hu1) in Hnr.
    destruct (Hrefs r Hvr Hnr) as [? Hiff]. rewrite Hr2', list_elem_of_filter, Hiff.
    destruct (decide (r = Blk i)); (split; [lia|split; [|intros ?]; [intros [??]|..]; try split; try done; lia]).
  - eapply pool_upd_ext; [by eapply pool_upd_trans| |done]. intros r. cbn beta. by rewrite <- Hr2, Hr2'.
Qed.

Lemma touch_list_spec p free bs :
  pool_inv p free → (∀ q, q ∈ bs → valid p q) →
  wp (for_each bs touch_block) (λ _ p', pool_inv p' (filter (.∉ bs) free) ∧
    pool_upd p p' (λ r, blk_ref p r + occ r bs) (blk_hash p)) p.
Proof.
  intros Hi Hv. apply (wp_for_each (λ done _ p', pool_inv p' (filter (.∉ done) free) ∧
    pool_upd p p' (λ r, blk_ref p r + occ r done) (blk_hash p))); [| |done].
  - split.
    + rewrite list_filter_id; [done|]. by intros ?? ?%not_elem_of_nil.
    + eapply pool_upd_ext; [apply pool_upd_refl| |done]. intros r. rewrite occ_nil. lia.
  - intros done q todo p1 -> [Hi1 Hu1]. pose proof Hu1 as (_ & Hr1 & _).
    eapply wp_mono; [apply touch_block_spec; [exact Hi1|]|].
    { eapply pool_upd_valid; [done|]. apply Hv. rewrite elem_of_app. right. left. }
    intros _ p2 (Hi2 & Hu2). split.
    + rewrite list_filter_filter in Hi2. erewrite list_filter_iff; [exact Hi2|].
      intros x. cbn beta. rewrite not_elem_of_app, list_elem_of_singleton. tauto.
    + eapply pool_upd_ext; [by eapply pool_upd_trans| |by destruct Hu1 as (_ & _ & ?)].
      intros r. cbn beta. rewrite Hr1. autorewrite with len. lia.
Qed.

Lemma touch_spec p free (bss : list (list ptr)) :
  pool_inv p free → (∀ q, q ∈ concat bss → valid p q) →
  wp (touch bss) (λ _ p', pool_inv p' (filter (.∉ concat bss) free) ∧
    pool_upd p p' (λ r, blk_ref p r + occ r (concat bss)) (blk_hash p)) p.
Proof.
  intros Hi Hv. unfold wp, touch. rewrite for_each_concat. by apply touch_list_spec.
Qed.
End touching.

Section freeing.
Implicit Types (p : BlockPool) (free bs : list ptr) (q : ptr).

Lemma decrement_loop_spec p free bs :
  pool_core p free → (∀ q, q ∈ bs → valid p q) →
  wp (for_each bs (λ block, b ← on_queue (load block); on_queue (set_ref_cnt block (ref_cnt b - 1))))
    (λ _ p', pool_core p' free ∧
      pool_upd p p' (λ r, blk_ref p r - occ r bs) (blk_hash p)) p.
Proof.
  intros Hc Hv. apply (wp_for_each (λ done _ p', pool_core p' free ∧
    pool_upd p p' (λ r, blk_ref p r - occ r done) (blk_hash p))); [| |done].
  - split; [done|]. eapply pool_upd_ext; [apply pool_upd_refl| |done]. intros r. rewrite occ_nil. lia.
  - intros done q todo p1 -> [Hc1 Hu1]. pose proof Hu1 as (_ & Hr1 & Hh1).
    assert (Hv1 : valid p1 q).
    { eapply pool_upd_valid; [done|]. apply Hv. rewrite elem_of_app. right. left. }
    apply wp_bind. eapply wp_load_block; [done..|]. intros i b -> _ Hrc _ _.
    eapply wp_mono; [by apply core_set_ref|]. intros _ p2 (Hc2 & Hu2). split; [exact Hc2|].
    eapply pool_upd_ext; [by eapply pool_upd_trans| |done]. intros r. cbn beta.
    rewrite Hrc, !Hr1. autorewrite with len.
    destruct (decide (r = Blk i)) as [->|]; lia.
Qed.

(** The blocks whose last reference the call drops. *)
Definition released p bs : list ptr := filter (λ q, q ≠ null_block p ∧ blk_ref p q = 1) bs.

Lemma unreferenced_released p p' free bs :
  pool_core p' free → (∀ q, q ∈ bs → valid p q) →
  NoDup (filter (.≠ null_block p) bs) → (∀ q, q ∈ bs → q ≠ null_block p → 0 < blk_ref p q) →
  pool_upd p p' (λ r, blk_ref p r - occ r bs) (blk_hash p) →
  List.filter (unreferenced (free_block_queue p')) bs = released p bs.
Proof.
  intros Hc' Hv Hnd Hpos Hu. pose proof Hu as (_ & Hr & _).
  pose proof (pool_upd_null _ _ _ _ Hu) as Hn.
  unfold released.
  assert (Hall : ∀ q, q ∈ bs → (unreferenced (free_block_queue p') q = true ↔ q ≠ null_block p ∧ blk_ref p q = 1)).
  { intros q Hq. apply Hv in Hq as Hvq.
    apply (pool_upd_valid _ _ _ _ _ Hu) in Hvq as (i & -> & Hi).
    apply (pc_store _ _ Hc') in Hi as [b Hb]. destruct (pc_meta _ _ Hc' _ _ Hb) as [_ Hnl].
    unfold unreferenced. rewrite Hb, Hnl, andb_true_iff, negb_true_iff, bool_decide_eq_true, bool_decide_eq_false, Hn.
    specialize (Hr (Blk i)). unfold blk_ref in Hr at 1. rewrite Hb in Hr. rewrite Hr.
    destruct (decide (Blk i = null_block p)) as [|Hne]; [tauto|].
    rewrite (occ_filter_one _ _ _ Hnd Hq Hne). naive_solver lia. }
  clear Hpos Hnd. revert Hall. generalize (blk_ref p). intros f Hall. clear Hr Hu Hv.
  induction bs as [|q bs IH]; [done|]. simpl.
  pose proof (Hall q (list_elem_of_here _ _)) as Hq. rewrite filter_cons, IH
    by (intros q' Hq'; apply Hall; by right).
  destruct (unreferenced _ q); case_decide; naive_solver.
Qed.

Lemma free_blocks_spec p free bs :
  pool_inv p free → (∀ q, q ∈ bs → valid p q) →
  NoDup (filter (.≠ null_block p) bs) → (∀ q, q ∈ bs → q ≠ null_block p → 0 < blk_ref p q) →
  wp (free_blocks bs) (λ _ p', pool_inv p' (free ++ released p bs) ∧
    pool_upd p p' (λ r, blk_ref p r - occ r bs) (blk_hash p)) p.
Proof.
  intros [Hc Hrefs] Hv Hnd Hpos. unfold free_blocks. apply wp_bind.
  eapply wp_mono; [by apply decrement_loop_spec|]. intros _ p1 (Hc1 & Hu1).
  pose proof Hu1 as (_ & Hr1 & Hh1). wp_steps.
  erewrite (unreferenced_released p p1) by done.
  assert (Hrel : ∀ q, q ∈ released p bs ↔ (q ≠ null_block p ∧ blk_ref p q = 1) ∧ q ∈ bs)
    by (intros q; unfold released; by rewrite list_elem_of_filter).
  assert (Hndr : NoDup (released p bs)).
  { eapply NoDup_filter_impl; [|exact Hnd]. by intros ? [? _]. }
  eapply wp_mono; [apply core_append_n; [exact Hc1|done|]|].
  - intros q ((Hqn & Hq1) & Hq)%Hrel. csplit.
    + eapply pool_upd_valid; [done|by apply Hv].
    + intros Hin. apply (Hrefs q) in Hin; [lia|by apply Hv|done].
    + by rewrite (pool_upd_null _ _ _ _ Hu1).
  - intros _ p2 (Hc2 & Hu2). pose proof Hu2 as (_ & Hr2 & _).
    split; [split; [exact Hc2|]|].
    + intros r Hvr Hnr. apply (pool_upd_valid _ _ _ _ _ Hu2), (pool_upd_valid _ _ _ _ _ Hu1) in Hvr.
      rewrite (pool_upd_null _ _ _ _ Hu2), (pool_upd_null _ _ _ _ Hu1) in Hnr.
      destruct (Hrefs r Hvr Hnr) as [H0 Hiff]. rewrite Hr2, Hr1, elem_of_app, Hiff, Hrel.
      destruct (decide (r ∈ bs)) as [Hin|Hin].
      * pose proof (Hpos r Hin Hnr). rewrite (occ_filter_one _ _ _ Hnd Hin Hnr).
        split; [lia|split; [naive_solver lia|naive_solver lia]].
      * apply occ_zero in Hin as Ho. rewrite Ho, Z.sub_0_r. split; [done|tauto].
    + eapply pool_upd_ext; [by eapply pool_upd_trans| |]; intros r; cbn beta; by rewrite ?Hr1, ?Hh1.
Qed.
End freeing.

Section lookups.
Implicit Types (p : BlockPool) (free : list ptr) (q : ptr).

Lemma first_cached_sound p free h q :
  pool_core p free → first_cached p h = Some q →
  valid p q ∧ blk_hash p q = Some h.
Proof.
  intros Hc Hf. unfold first_cached in Hf.
  destruct (cached_block_hash_to_block p !! h) as [[|[k b] d]|] eqn:Hd; simplify_eq.
  assert (Hin : (k, q) ∈ dict_of (cached_block_hash_to_block p) h) by (unfold dict_of; rewrite Hd; left).
  apply (ci_iff _ _ (pc_cache _ _ Hc)) in Hin as (i & -> & -> & Hi). split; [|done].
  exists i. split; [done|]. apply (pc_store _ _ Hc). unfold blk_hash in Hi.
  by destruct (heap (free_block_queue p) !! Blk i).
Qed.

Lemma first_cached_complete p free h q :
  pool_core p free → valid p q → blk_hash p q = Some h → is_Some (first_cached p h).
Proof.
  intros Hc (i & -> & _) Hh. destruct (cache_inv_lookup _ _ _ _ (pc_cache _ _ Hc) Hh) as (d & Hd & Hin).
  unfold first_cached. rewrite Hd. destruct d as [|[??]]; [by apply not_elem_of_nil in Hin|eauto].
Qed.

(** One block for every group, each with the hash asked for. *)
Lemma get_cached_block_sound p free bh gs bs :
  pool_core p free → get_cached_block p bh gs = Some bs →
  Forall2 (λ g q, valid p q ∧ blk_hash p q = Some (mkBlockHashWithGroupId bh g)) gs bs.
Proof.
  intros Hc. revert bs. induction gs as [|g gs IH]; intros bs; simpl; [by intros [= <-]|].
  destruct (first_cached p _) as [b|] eqn:Hf; [|done]. simpl.
  destruct (get_cached_block p bh gs) as [bs'|]; [|done]. simpl. intros [= <-].
  constructor; [by eapply first_cached_sound|by apply IH].
Qed.

(** A miss means that some group has no block with the hash. *)
Lemma get_cached_block_complete p free bh gs :
  pool_core p free →
  get_cached_block p bh gs = None ↔
  ∃ g, g ∈ gs ∧ ∀ q, valid p q → blk_hash p q ≠ Some (mkBlockHashWithGroupId bh g).
Proof.
  intros Hc. induction gs as [|g gs IH]; simpl.
  { split; [done|]. by intros (? & ?%not_elem_of_nil & _). }
  destruct (first_cached p _) as [b|] eqn:Hf; simpl.
  - assert (Hg : ∃ q, valid p q ∧ blk_hash p q = Some (mkBlockHashWithGroupId bh g))
      by (exists b; by eapply first_cached_sound).
    setoid_rewrite elem_of_cons. destruct (get_cached_block p bh gs) as [bs|]; simpl.
    + split; [done|]. intros (g' & [->|Hin] & Hno).
      * destruct Hg as (q & Hv & Hq). by destruct (Hno q Hv).
      * destruct IH as [_ IH]. discriminate IH. eauto.
    + split; [|done]. intros _. destruct IH as [IH _]. destruct (IH eq_refl) as (g' & ? & ?). eauto.
  - split; [|done]. intros _. exists g. split; [left|]. intros q Hv Hh.
    destruct (first_cached_complete _ _ _ _ Hc Hv Hh) as [??]. congruence.
Qed.
End lookups.

Section resetting.
Implicit Types (p : BlockPool) (free : list ptr) (q : ptr).

(** Clears the hash of the blocks of [l]. *)
Definition cleared (l : list ptr) (s0 s : FreeQueue) : Prop :=
  num_free_blocks s = num_free_blocks s0 ∧
  ∀ q, heap s !! q = (λ b, if decide (q ∈ l) then with_hash None b else b) <$> heap s0 !! q.

Lemma cleared_step l q s0 s :
  cleared l s0 s → cleared (l ++ [q]) s0 (update_block q (with_hash None) s).
Proof.
  intros [Hn Hs]. split; [done|]. intros r. rewrite lookup_update_block, Hs.
  destruct (decide (r ∈ l ++ [q])) as [Hin|Hin]; rewrite elem_of_app, list_elem_of_singleton in Hin;
    destruct (heap s0 !! r) as [b|]; simpl; destruct (decide (q = r)); destruct (decide (r ∈ l));
    try done; try tauto; naive_solver.
Qed.

Lemma reset_loop_spec p s0 l :
  wp (for_each l (λ block, on_queue (reset_hash block)))
    (λ _ p', ∃ s', p' = set_queue s' p ∧ cleared l s0 s') (set_queue s0 p).
Proof.
  apply (wp_for_each (λ done _ p', ∃ s', p' = set_queue s' p ∧ cleared done s0 s')); [| |done].
  - exists s0. split; [done|]. split; [done|]. intros q.
    by destruct (heap s0 !! q).
  - intros done q todo p1 _ (s1 & -> & Hs). unfold on_queue, reset_hash. wp_steps.
    eexists. split; [done|]. by apply cleared_step.
Qed.

Lemma pc_blocks_elem p free i :
  pool_core p free → Blk i ∈ blocks p ↔ (i < Z.to_nat (num_gpu_blocks p))%nat.
Proof.
  intros Hc. rewrite (pc_blocks _ _ Hc), list_elem_of_fmap. split.
  - intros (j & [= ->] & Hj%elem_of_seq). lia.
  - intros Hi. exists i. split; [done|]. apply elem_of_seq. lia.
Qed.

Lemma cleared_views p s :
  cleared (blocks p) (free_block_queue p) s →
  pool_upd p (set_queue s (set_cache ∅ p)) (blk_ref p)
    (λ q, if decide (q ∈ blocks p) then None else blk_hash p q).
Proof.
  intros [_ Hcl]. split_and!; [done|..]; intros q; unfold blk_ref, blk_hash;
    cbn [free_block_queue set_queue]; rewrite Hcl;
    destruct (heap (free_block_queue p) !! q) as [b|]; simpl; by repeat case_decide.
Qed.

Lemma cleared_core p free s :
  pool_core p free → cleared (blocks p) (free_block_queue p) s →
  pool_core (set_queue s (set_cache ∅ p)) free.
Proof.
  intros Hc Hcl. pose proof (cleared_views _ _ Hcl) as (_ & _ & Hh). destruct Hcl as [Hnum Hcl].
  pose proof (λ i, pc_blocks_elem p free i Hc) as Hel.
  destruct Hc as [Hq Hpos Hb Hn Hs Hm Hf Hci]. split; try done.
  - eapply queue_repr_links; [|done|exact Hq]. intros r. unfold nxt, prv. simpl. rewrite Hcl.
    destruct (heap (free_block_queue p) !! r) as [b|]; [|done]. simpl. by case_decide.
  - intros i. simpl. by rewrite Hcl, fmap_is_Some.
  - intros i b. simpl. rewrite Hcl, fmap_Some. intros (b0 & Hb0 & ->).
    destruct (Hm _ _ Hb0). by destruct (decide (Blk i ∈ blocks p)).
  - apply cache_inv_empty. intros i. rewrite Hh. case_decide as Hin; [done|].
    rewrite Hel in Hin. unfold blk_hash. destruct (heap _ !! Blk i) eqn:E; [|done].
    by apply (mk_is_Some _ _), Hs in E.
Qed.

Lemma reset_prefix_cache_spec p free :
  pool_inv p free → num_gpu_blocks p = len free + 1 →
  wp reset_prefix_cache (λ res p', res = true ∧ pool_inv p' free ∧
    pool_upd p p' (blk_ref p) (λ q, if decide (q ∈ blocks p) then None else blk_hash p q) ∧
    cached_block_hash_to_block p' = ∅) p.
Proof.
  intros [Hc Hr] Hn. unfold reset_prefix_cache, get_num_free_blocks. wp_steps.
  rewrite (repr_num _ _ (pc_queue _ _ Hc)), decide_False by lia. wp_steps.
  pose proof (reset_loop_spec (set_cache ∅ p) (free_block_queue p) (blocks p)) as Hl.
  replace (set_queue (free_block_queue p) _) with (set_cache ∅ p) in Hl by by destruct p.
  eapply wp_mono; [exact Hl|]. intros _ p1 (s & -> & Hcl). cbn beta. wp_steps.
  pose proof (cleared_core _ _ _ Hc Hcl) as Hc'. pose proof (cleared_views _ _ Hcl) as Hu.
  assert (Hr' : refs_ok (set_queue s (set_cache ∅ p)) free).
  { intros q Hv Hq. pose proof Hu as (_ & -> & _). by apply Hr. }
  match goal with |- context [if enable_kv_cache_events ?x then _ else _] =>
    destruct (enable_kv_cache_events x) end; unfold emit; wp_steps; split_and!; try done.
  destruct Hc'. by split.
Qed.

(** With blocks in use the call refuses and changes nothing. *)
Lemma reset_prefix_cache_refused p free :
  pool_core p free → num_gpu_blocks p ≠ len free + 1 →
  reset_prefix_cache p = (Ok false, p).
Proof.
  intros Hc Hn. unfold reset_prefix_cache, mbind, M_bind, gets, get_num_free_blocks.
  rewrite (repr_num _ _ (pc_queue _ _ Hc)). by rewrite decide_True by lia.
Qed.
End resetting.

(** * Construction *)
Section init.
Lemma initial_blocks_lookup n i :
  initial_blocks n !! Blk i =
    if decide (i < Z.to_nat n)%nat then Some (new_block (Z.of_nat i)) else None.
Proof.
  unfold initial_blocks. case_decide as Hi.
  - apply elem_of_list_to_map_1.
    + rewrite <- list_fmap_compose. apply NoDup_fmap_2; [intros ?? [=]; done|apply NoDup_seq].
    + apply list_elem_of_fmap. exists i. split; [done|]. apply elem_of_seq. lia.
  - apply not_elem_of_list_to_map_1. rewrite <- list_fmap_compose. intros Hin.
    apply list_elem_of_fmap in Hin as (j & [= ->] & Hj%elem_of_seq). lia.
Qed.

Lemma initial_store_unlinked n :
  unlinked_store (mkFreeQueue (initial_blocks n) 0) (Blk <$> seq 0 (Z.to_nat n)).
Proof.
  split_and!.
  - apply NoDup_fmap_2; [intros ?? [=]; done|apply NoDup_seq].
  - apply Forall_forall. intros q (i & -> & _)%list_elem_of_fmap. by eexists.
  - intros q (i & -> & Hi%elem_of_seq)%list_elem_of_fmap. simpl.
    rewrite initial_blocks_lookup, decide_True by lia. by eexists.
  - intros q [i ->]. unfold nxt, prv. simpl. rewrite initial_blocks_lookup. by case_decide.
Qed.

(** A new pool: every block but the null block is free, nothing is cached. *)
Lemma BlockPool_init_spec n caching ev :
  0 < n →
  ∃ p, BlockPool_init n caching ev = Ok p ∧
    pool_inv p (Blk <$> seq 1 (Z.to_nat n - 1)) ∧ num_gpu_blocks p = n ∧
    enable_caching p = caching ∧ enable_kv_cache_events p = ev ∧ null_block p = Blk 0 ∧
    kv_event_queue p = [] ∧
    ∀ i, blk_ref p (Blk i) = 0 ∧ blk_hash p (Blk i) = None.
Proof.
  intros Hn. unfold BlockPool_init. rewrite decide_True by lia.
  assert (Hseq : seq 0 (Z.to_nat n) = 0%nat :: seq 1 (Z.to_nat n - 1)).
  { replace (Z.to_nat n) with (S (Z.to_nat n - 1)) at 1 by lia. done. }
  assert (Hw : wp (FreeKVCacheBlockQueue_init (Blk <$> seq 0 (Z.to_nat n)) ;;
      null ← popleft; modify (update_block null (with_null true)) ;; mret null)
    (λ null q, null = Blk 0 ∧ queue_repr q (Blk <$> seq 1 (Z.to_nat n - 1)) ∧
      ∀ i, meta <$> heap q !! Blk i = if decide (i < Z.to_nat n)%nat
           then Some (Z.of_nat i, 0, None, bool_decide (i = 0%nat)) else None)
    (mkFreeQueue (initial_blocks n) 0)).
  { apply wp_bind. eapply wp_mono; [apply init_spec, initial_store_unlinked|].
    intros _ s1 [Hr1 Hm1]. cbn beta. rewrite Hseq in Hr1. apply wp_bind.
    eapply wp_mono; [by apply popleft_spec|]. intros null s2 (-> & Hr2 & Hm2). wp_steps.
    csplit; [done|by apply queue_repr_update|]. intros i. rewrite lookup_update_block.
    specialize (Hm1 i). specialize (Hm2 (Blk i)). rewrite Hm2 in Hm1. simpl in Hm1.
    rewrite initial_blocks_lookup in Hm1.
    destruct (decide (i < Z.to_nat n)%nat); destruct (heap s2 !! Blk i) as [b|]; try done.
    - simpl in Hm1. unfold meta in *. injection Hm1 as Hid Hrc Hbh Hnl.
      destruct i as [|i]; simpl; rewrite Hid, Hrc, Hbh; [done|]. by rewrite Hnl.
    - by case_decide. }
  apply wp_elim in Hw as (null & q & -> & -> & Hr & Hm).
  set (p := mkBlockPool _ _ _ _ _ _ _ _). exists p.
  assert (Hview : ∀ i, blk_ref p (Blk i) = 0 ∧ blk_hash p (Blk i) = None).
  { intros i. specialize (Hm i). unfold blk_ref, blk_hash, p. cbn [free_block_queue].
    destruct (heap q !! Blk i) as [b|]; [|done]. simpl in *. unfold meta in Hm.
    case_decide; simplify_eq; done. }
  split_and!; try done. split; [split; try done|].
  - intros i. specialize (Hm i). simpl.
    by destruct (heap q !! Blk i), (decide (i < Z.to_nat n)%nat); try done; split; eauto; intros [??].
  - intros i b Hb. specialize (Hm i). simpl in Hb. rewrite Hb in Hm. simpl in Hm. unfold meta in Hm.
    case_decide; [|done]. simplify_eq. split; [done|]. simpl.
    by destruct i.
  - intros r (i & -> & Hi%elem_of_seq)%list_elem_of_fmap. split; [|intros [=]; lia].
    exists i. split; [done|simpl; lia].
  - apply cache_inv_empty. intros i. apply Hview.
  - intros r (i & -> & Hi) Hne. destruct (Hview i) as [-> _]. split; [done|]. split; [done|].
    intros _. apply list_elem_of_fmap. exists i. split; [done|]. apply elem_of_seq.
    simpl in Hi. assert (i ≠ 0%nat) by (intros ->; done). lia.
Qed.
End init.

(** * Caching full blocks *)
Section caching.
Context (hash_function : Z * list Z * option (list extra_key) → Z) (NONE_HASH : Z).
Implicit Types (p : BlockPool) (free bls : list ptr) (q : ptr) (r : Request).

Abbreviation is_chain := (is_chain hash_function NONE_HASH).
Abbreviation cache_full_blocks := (cache_full_blocks hash_function NONE_HASH).

(** The next hash prolongs the chain where the chain does not have it yet. *)
Lemma next_block_hash_spec r hs cur nc k bs p :
  mm_wf r → 0 < bs → (nc <= length hs)%nat → hs `prefix_of` cur →
  is_chain bs (all_token_ids r) cur → length cur = Nat.max (length hs) (nc + k) →
  Z.of_nat (nc + k + 1) * bs <= len (all_token_ids r) →
  wp (next_block_hash hash_function NONE_HASH r (slice_from (Z.of_nat nc) hs) cur (Z.of_nat nc) bs
        (Z.of_nat k) (parent_value cur (nc + k)))
    (λ '(h, cur') p', p' = p ∧ cur `prefix_of` cur' ∧ is_chain bs (all_token_ids r) cur' ∧
       length cur' = Nat.max (length hs) (nc + k + 1) ∧ cur' !! (nc + k)%nat = Some h) p.
Proof.
  intros Hwf Hbs Hnc Hpre Hch Hlen Htok. unfold next_block_hash.
  rewrite slice_from_nonneg, Nat2Z.id by lia. case_decide as Hk.
  - assert (Hlt : (nc + k < length hs)%nat) by (unfold len in Hk; rewrite length_drop in Hk; lia).
    destruct (lookup_lt_is_Some_2 hs (nc + k) Hlt) as [h Hh].
    apply wp_bind. eapply wp_lift_outcome; [apply py_index_lookup; rewrite lookup_drop; exact Hh|].
    apply wp_ret. split_and!; [done|done|done|lia|]. by eapply prefix_lookup_Some.
  - assert (Hge : (length hs <= nc + k)%nat) by (unfold len in Hk; rewrite length_drop in Hk; lia).
    assert (Hcl : length cur = (nc + k)%nat) by lia.
    replace (slice _ _ _) with (block_tokens bs (all_token_ids r) (nc + k))
      by (unfold block_tokens; f_equal; lia).
    assert (Hfull : len (block_tokens bs (all_token_ids r) (nc + k)) = bs)
      by (rewrite block_tokens_len by done; nia).
    wp_steps; [by apply bool_decide_eq_true_2|]. wp_steps.
    destruct (generate_block_hash_extra_keys_last r ((Z.of_nat nc + Z.of_nat k) * bs)
      ((Z.of_nat nc + Z.of_nat k + 1) * bs) Hwf) as (ke & i' & Hke).
    eapply wp_lift_outcome; [exact Hke|]. apply wp_ret.
    split_and!; [done|by apply prefix_app_r| |rewrite length_app; simpl; lia|].
    + rewrite <- Hcl at 1 2. apply is_chain_snoc; [done|]. by rewrite Hcl.
    + by rewrite lookup_app_r, Hcl, Nat.sub_diag by lia.
Qed.

Lemma cache_one_block_spec p free r hs cur nc k bs g q new :
  pool_core p free → valid p q → q ≠ null_block p → blk_hash p q = None →
  mm_wf r → 0 < bs → (nc <= length hs)%nat → hs `prefix_of` cur →
  is_chain bs (all_token_ids r) cur → length cur = Nat.max (length hs) (nc + k) →
  Z.of_nat (nc + k + 1) * bs <= len (all_token_ids r) →
  wp (cache_one_block hash_function NONE_HASH r (slice_from (Z.of_nat nc) hs) (Z.of_nat nc) bs g
        (cur, parent_value cur (nc + k), new) (Z.of_nat k, q))
    (λ '(cur', prev', _) p', cur `prefix_of` cur' ∧ is_chain bs (all_token_ids r) cur' ∧
       length cur' = Nat.max (length hs) (nc + k + 1) ∧ prev' = parent_value cur' (nc + k + 1) ∧
       pool_core p' free ∧ ∃ h, cur' !! (nc + k)%nat = Some h ∧
       pool_upd p p' (blk_ref p)
         (λ x, if decide (x = q) then Some (mkBlockHashWithGroupId h g) else blk_hash p x)) p.
Proof.
  intros Hc Hv Hnn Hnone Hwf Hbs Hnc Hpre Hch Hlen Htok. unfold cache_one_block. apply wp_bind.
  eapply wp_load_block; [done..|]. intros i b -> Hid _ Hbh _. rewrite Hbh, Hnone, Hid.
  assert (Hi : (i < Z.to_nat (num_gpu_blocks p))%nat) by by destruct Hv as (? & [= ->] & ?).
  wp_steps; [done|]. eapply wp_mono; [by apply next_block_hash_spec|].
  intros [h cur'] p1 (-> & Hpre' & Hch' & Hlen' & Hh). cbn beta iota zeta.
  unfold on_queue, set_block_hash. wp_steps.
  pose proof Hi as Hs. apply (pc_store _ _ Hc) in Hs as [b0 Hb0].
  apply (wp_load _ _ b0); [done|]. wp_steps.
  { apply bool_decide_eq_true_2. unfold blk_hash in Hnone. by rewrite Hb0 in Hnone. }
  wp_steps.
  destruct (core_set_hash p free i (Some (mkBlockHashWithGroupId h g))
    (<[mkBlockHashWithGroupId h g := dict_set (Z.of_nat i) (Blk i)
         (dict_of (cached_block_hash_to_block p) (mkBlockHashWithGroupId h g))]>
       (cached_block_hash_to_block p)) Hc Hi) as [Hc' Hu'].
  { intros hash' Hh'. by eapply cache_inv_insert; [apply (pc_cache _ _ Hc)|..]. }
  split_and!; [done|done|done| |exact Hc'|eauto].
  replace (nc + k + 1)%nat with (S (nc + k)) by lia. simpl. by rewrite Hh.
Qed.

(** What the caller of [cache_full_blocks] guarantees: the blocks from [nc] to
    [nf] are filled, not cached yet and no other request's; the one before them
    carries the hash the chain gives it. *)
Record cacheable p r bls hs (nc nf : nat) (bs : Z) : Prop := {
  ca_wf : mm_wf r;
  ca_bs : 0 < bs;
  ca_order : (nc <= nf <= length bls)%nat;
  ca_hashes : (nc <= length hs)%nat;
  ca_chain : is_chain bs (all_token_ids r) hs;
  ca_tokens : Z.of_nat nf * bs <= len (all_token_ids r);
  ca_new : ∀ i q, (nc <= i < nf)%nat → bls !! i = Some q →
    valid p q ∧ q ≠ null_block p ∧ blk_hash p q = None;
  ca_distinct : NoDup (drop nc (take nf bls));
  ca_parent : nc ≠ 0%nat → ∃ q h g, bls !! (nc - 1)%nat = Some q ∧ valid p q ∧
    hs !! (nc - 1)%nat = Some h ∧ blk_hash p q = Some (mkBlockHashWithGroupId h g)
}.

(** What has happened after the blocks [new] before index [k] went through the
    loop. *)
Record cached_upto p free r (new : list ptr) hs (nc k : nat) bs g
    (st : list BlockHash * option Z * list Z) p' : Prop := {
  cu_prefix : hs `prefix_of` st.1.1;
  cu_chain : is_chain bs (all_token_ids r) st.1.1;
  cu_length : length st.1.1 = Nat.max (length hs) (nc + k);
  cu_parent : st.1.2 = parent_value st.1.1 (nc + k);
  cu_core : pool_core p' free;
  cu_config : same_config p p';
  cu_refs : ∀ q, blk_ref p' q = blk_ref p q;
  cu_cached : ∀ j q, (j < k)%nat → new !! j = Some q → ∃ h,
    st.1.1 !! (nc + j)%nat = Some h ∧ blk_hash p' q = Some (mkBlockHashWithGroupId h g);
  cu_others : ∀ q, q ∉ take k new → blk_hash p' q = blk_hash p q
}.

Lemma cached_upto_step p free r bls hs nc nf bs g k q st p1 :
  cacheable p r bls hs nc nf bs → drop nc (take nf bls) !! k = Some q →
  cached_upto p free r (drop nc (take nf bls)) hs nc k bs g st p1 →
  wp (cache_one_block hash_function NONE_HASH r (slice_from (Z.of_nat nc) hs) (Z.of_nat nc) bs g
        st (Z.of_nat k, q))
    (cached_upto p free r (drop nc (take nf bls)) hs nc (S k) bs g) p1.
Proof.
  intros Hca Hq [Hpre Hch Hlen Hpar Hc1 Hcfg Hrf Hdone Hoth]. destruct st as [[cur prev] newh]. simpl in *.
  subst prev. set (new := drop nc (take nf bls)) in *.
  assert (Hfresh : q ∉ take k new).
  { intros (j & Hj)%list_elem_of_lookup_1. apply lookup_take_Some in Hj as [Hj Hjk].
    pose proof (NoDup_lookup _ _ _ _ (ca_distinct _ _ _ _ _ _ _ Hca) Hj Hq). lia. }
  pose proof Hq as Hb. unfold new in Hb. rewrite lookup_drop in Hb.
  apply lookup_take_Some in Hb as [Hb Hkn].
  destruct (ca_new _ _ _ _ _ _ _ Hca (nc + k) q) as (Hv & Hnn & Hh); [lia|done|].
  eapply wp_mono; [apply (cache_one_block_spec p1 free)|].
  - done.
  - by apply (valid_config _ _ _ Hcfg).
  - destruct Hcfg as (_ & _ & _ & -> & _). done.
  - by rewrite Hoth.
  - apply Hca.
  - apply Hca.
  - apply Hca.
  - done.
  - done.
  - done.
  - pose proof (ca_tokens _ _ _ _ _ _ _ Hca). pose proof (ca_bs _ _ _ _ _ _ _ Hca). nia.
  - intros [[cur' prev'] newh'] p2 (Hpre' & Hch' & Hlen' & -> & Hc2 & h & Hh2 & Hcfg2 & Hrf2 & Hhs2).
    replace (nc + k + 1)%nat with (nc + S k)%nat in * by lia.
    split; simpl; try done; [by etransitivity|by etransitivity|by intros x; rewrite Hrf2| |].
    + intros j x Hj Hx. destruct (decide (j = k)) as [->|Hjk].
      * simplify_eq. exists h. split; [done|]. by rewrite Hhs2, decide_True.
      * destruct (Hdone j x) as (h' & Hh' & Hhx); [lia|done|]. exists h'.
        split; [by eapply prefix_lookup_Some|]. rewrite Hhs2, decide_False; [done|].
        intros ->. pose proof (NoDup_lookup _ _ _ _ (ca_distinct _ _ _ _ _ _ _ Hca) Hx Hq). lia.
    + intros x Hx. rewrite (take_S_r _ _ _ Hq), not_elem_of_app, list_elem_of_singleton in Hx.
      rewrite Hhs2, decide_False, Hoth; tauto.
Qed.

Lemma cache_loop_spec p free r bls hs nc nf bs g :
  pool_core p free → cacheable p r bls hs nc nf bs →
  wp (fold_each (enumerate (drop nc (take nf bls))) (hs, parent_value hs nc, [])
        (cache_one_block hash_function NONE_HASH r (slice_from (Z.of_nat nc) hs) (Z.of_nat nc) bs g))
    (cached_upto p free r (drop nc (take nf bls)) hs nc (nf - nc) bs g) p.
Proof.
  intros Hc Hca. set (new := drop nc (take nf bls)).
  assert (Hln : length new = (nf - nc)%nat).
  { unfold new. rewrite length_drop, length_take. pose proof (ca_order _ _ _ _ _ _ _ Hca). lia. }
  rewrite <- Hln.
  apply (wp_fold_each (λ done _ st p', cached_upto p free r new hs nc (length done) bs g st p')).
  - split; simpl; try done.
    + apply Hca.
    + pose proof (ca_hashes _ _ _ _ _ _ _ Hca). lia.
    + by rewrite Nat.add_0_r.
    + intros j q Hj. lia.
  - intros done [z q] todo st p1 Hsplit Hup. apply enumerate_split in Hsplit as [-> Hq].
    rewrite length_app, Nat.add_1_r. by apply (cached_upto_step p free r bls hs nc nf).
  - intros st p1. by rewrite enumerate_length.
Qed.

(** The parent the loop starts with. *)
Lemma parent_block_spec p free r bls hs nc nf bs :
  pool_core p free → cacheable p r bls hs nc nf bs →
  wp (if decide (Z.of_nat nc = 0) then mret None
      else prev_block ← lift_outcome (py_index bls (Z.of_nat nc - 1));
           b ← on_queue (load prev_block);
           match FreeBlockQueue.block_hash b with
           | None => raise AssertionError
           | Some hg => mret (Some (get_hash_value hg))
           end)
    (λ v p', v = parent_value hs nc ∧ p' = p) p.
Proof.
  intros Hc Hca. destruct nc as [|j]; [by apply wp_ret|]. rewrite decide_False by lia.
  destruct (ca_parent _ _ _ _ _ _ _ Hca) as (q & h & g & Hq & Hv & Hh & Hbh); [lia|].
  replace (S j - 1)%nat with j in * by lia. replace (Z.of_nat (S j) - 1) with (Z.of_nat j) by lia.
  apply wp_bind. eapply wp_lift_outcome; [by apply py_index_lookup|]. apply wp_bind.
  eapply wp_load_block; [done..|]. intros i b _ _ _ -> _. rewrite Hbh. apply wp_ret.
  simpl. by rewrite Hh.
Qed.

(** What a call promises: the hash list has grown to a chain that covers every
    full block, exactly the new blocks carry their hashes now. *)
Definition full_blocks_cached p free r bls hs (nc nf : nat) bs g hs' p' : Prop :=
  hs `prefix_of` hs' ∧ is_chain bs (all_token_ids r) hs' ∧ (nf <= length hs')%nat ∧
  pool_inv p' free ∧ same_config p p' ∧ (∀ q, blk_ref p' q = blk_ref p q) ∧
  (∀ i q, (nc <= i < nf)%nat → bls !! i = Some q → ∃ h,
     hs' !! i = Some h ∧ blk_hash p' q = Some (mkBlockHashWithGroupId h g)) ∧
  (∀ q, q ∉ drop nc (take nf bls) → blk_hash p' q = blk_hash p q).

Lemma cached_upto_all p free r bls hs nc nf bs g st p' :
  cacheable p r bls hs nc nf bs → refs_ok p free →
  cached_upto p free r (drop nc (take nf bls)) hs nc (nf - nc) bs g st p' →
  full_blocks_cached p free r bls hs nc nf bs g st.1.1 p'.
Proof.
  intros Hca Hrefs [Hpre Hch Hlen _ Hc Hcfg Hrf Hdone Hoth].
  pose proof (ca_order _ _ _ _ _ _ _ Hca). unfold full_blocks_cached. csplit; try done.
  - lia.
  - split; [done|]. intros q Hv Hn. rewrite Hrf. apply Hrefs; [by apply (valid_config _ _ _ Hcfg)|].
    by destruct Hcfg as (_ & _ & _ & <- & _).
  - intros i q Hi Hq. destruct (Hdone (i - nc)%nat q) as (h & Hh & Hbh); [lia| |].
    + rewrite lookup_drop, lookup_take_Some. split; [|lia]. by replace (nc + (i - nc))%nat with i by lia.
    + exists h. split; [|done]. by replace i with (nc + (i - nc))%nat by lia.
  - intros q Hq. apply Hoth. rewrite take_ge; [done|]. rewrite length_drop, length_take. lia.
Qed.

Lemma cache_full_blocks_spec p free r bls hs nc nf bs g :
  pool_inv p free → cacheable p r bls hs nc nf bs →
  (enable_kv_cache_events p = true → lora_request r = None) →
  wp (cache_full_blocks r bls hs (Z.of_nat nc) (Z.of_nat nf) bs g)
    (full_blocks_cached p free r bls hs nc nf bs g) p.
Proof.
  intros [Hc Hrefs] Hca Hev. pose proof (ca_order _ _ _ _ _ _ _ Hca).
  pose proof (ca_hashes _ _ _ _ _ _ _ Hca) as Hhs. unfold BlockPool.cache_full_blocks.
  destruct (decide (Z.of_nat nc = Z.of_nat nf)) as [Heq|Hne].
  { apply wp_ret. assert (nc = nf) as <- by lia.
    apply (cached_upto_all _ _ _ _ _ _ _ _ _ (hs, parent_value hs nc, [])); [done|done|].
    rewrite Nat.sub_diag. split; simpl; try done; [apply Hca|lia|by rewrite Nat.add_0_r|].
    intros j q Hj. lia. }
  wp_steps; [apply bool_decide_eq_true_2; unfold len; lia|]. wp_steps.
  eapply wp_mono; [by eapply parent_block_spec|]. intros v p0 [-> ->]. cbn beta.
  rewrite (slice_nonneg (Z.of_nat nc) (Z.of_nat nf) bls), !Nat2Z.id by lia. apply wp_bind.
  eapply wp_mono; [by apply cache_loop_spec|]. intros [[cur prev] newh] p1 Hup. cbn beta iota.
  pose proof (cached_upto_all _ _ _ _ _ _ _ _ _ _ _ Hca Hrefs Hup) as Hfull. wp_steps.
  destruct (enable_kv_cache_events p1) eqn:Hen; [|by apply wp_ret].
  rewrite Hev.
  - unfold emit. wp_steps. destruct Hfull as (? & ? & ? & [[] ?] & ? & ? & ? & ?). by split_and!.
  - destruct Hup as [_ _ _ _ _ (_ & _ & _ & _ & Hcf) _ _ _]. congruence.
Qed.
End caching.
