(* ===== verification/KVCacheSpec.v ===== *)
(** The KV-cache formats of [v1/kv_cache_interface.py]: the four spec classes, their
    page sizes and memory bounds, and the merging of the specs of a group. *)
From Stdlib Require Import ZArith Lia.
From stdpp Require Import base strings countable gmap sets fin_maps list.
From S2P Require Import Prelude.
Local Open Scope Z_scope.

(** A [torch.dtype] is an identifier; its size in bytes is torch's to say. *)
Definition dtype : Type := Z.

(** The fields of [AttentionSpec] (and of its base class). *)
Record AttentionSpec : Type := mkAttentionSpec {
  attn_block_size : Z;
  num_kv_heads : Z;
  head_size : Z;
  attn_dtype : dtype;
  use_mla : bool
}.
#[export] Instance AttentionSpec_eq_dec : EqDecision AttentionSpec.
Proof. solve_decision. Defined.

Inductive KVCacheSpec : Type :=
  | FullAttentionSpec (attn : AttentionSpec) (sliding_window attention_chunk_size : option Z)
  | ChunkedLocalAttentionSpec (attn : AttentionSpec) (attention_chunk_size : Z)
  | SlidingWindowSpec (attn : AttentionSpec) (sliding_window : Z)
  | MambaSpec (block_size : Z) (shapes : list (list Z)) (mamba_dtype : dtype)
      (page_size_padded : option Z) (mamba_type : string).

(** The [__eq__] of the dataclasses: same class, equal fields. *)
#[export] Instance KVCacheSpec_eq_dec : EqDecision KVCacheSpec.
Proof. solve_decision. Defined.

Definition block_size (s : KVCacheSpec) : Z :=
  match s with
  | FullAttentionSpec a _ _ | ChunkedLocalAttentionSpec a _ | SlidingWindowSpec a _ => attn_block_size a
  | MambaSpec bs _ _ _ _ => bs
  end.

(** The attention fields, for the classes that have them. *)
Definition attention_of (s : KVCacheSpec) : option AttentionSpec :=
  match s with
  | FullAttentionSpec a _ _ | ChunkedLocalAttentionSpec a _ | SlidingWindowSpec a _ => Some a
  | MambaSpec _ _ _ _ _ => None
  end.

(** [isinstance(spec, FullAttentionSpec)] and the like. *)
Definition is_full_attention (s : KVCacheSpec) : bool :=
  match s with FullAttentionSpec _ _ _ => true | _ => false end.
Definition is_chunked_local (s : KVCacheSpec) : bool :=
  match s with ChunkedLocalAttentionSpec _ _ => true | _ => false end.
Definition is_sliding_window (s : KVCacheSpec) : bool :=
  match s with SlidingWindowSpec _ _ => true | _ => false end.
Definition is_mamba (s : KVCacheSpec) : bool :=
  match s with MambaSpec _ _ _ _ _ => true | _ => false end.

(** [SlidingWindowSpec.__post_init__]. *)
Definition SlidingWindowSpec_init (a : AttentionSpec) (sliding_window : Z) : outcome KVCacheSpec :=
  if use_mla a then Raise AssertionError else Ok (SlidingWindowSpec a sliding_window).

(** The part of the configuration the memory bounds read. *)
Record ModelLimits : Type := mkModelLimits {
  max_model_len : Z;
  max_num_batched_tokens : Z
}.

Section sizes.
(** [vllm.utils.get_dtype_size], which asks torch. *)
Variable get_dtype_size : dtype → Z.

Definition attn_page_size_bytes (a : AttentionSpec) : Z :=
  let coef := if use_mla a then 1 else 2 in
  coef * attn_block_size a * num_kv_heads a * head_size a * get_dtype_size (attn_dtype a).

Definition prod (l : list Z) : Z := foldr Z.mul 1 l.

Definition page_size_bytes (s : KVCacheSpec) : outcome Z :=
  match s with
  | FullAttentionSpec a _ _ | ChunkedLocalAttentionSpec a _ | SlidingWindowSpec a _ =>
    Ok (attn_page_size_bytes a)
  | MambaSpec _ shapes dt padded _ =>
    let num_elements := zsum (prod <$> shapes) in
    let page_size := num_elements * get_dtype_size dt in
    match padded with
    | Some p => if decide (p >= page_size) then Ok p else Raise AssertionError
    | None => Ok page_size
    end
  end.

(** The number of tokens and of extra blocks each class accounts for. *)
Definition max_blocks (s : KVCacheSpec) (lim : ModelLimits) : Z :=
  match s with
  | FullAttentionSpec a _ _ => cdiv (max_model_len lim) (attn_block_size a)
  | ChunkedLocalAttentionSpec a chunk =>
    let num_tokens := Z.min (chunk + max_num_batched_tokens lim) (max_model_len lim) in
    cdiv num_tokens (attn_block_size a)
  | SlidingWindowSpec a window =>
    let num_tokens := Z.min (window - 1 + max_num_batched_tokens lim) (max_model_len lim) in
    cdiv num_tokens (attn_block_size a) + 1
  | MambaSpec _ _ _ _ _ => 1
  end.

Definition max_memory_usage_bytes (s : KVCacheSpec) (lim : ModelLimits) : outcome Z :=
  page ← page_size_bytes s; Ok (max_blocks s lim * page).
End sizes.

(** * Merging *)

(** [merge_window_sizes] on the set of the window sizes that are not [None]. *)
Definition merge_window_sizes (window_sizes : list Z) : outcome (option Z) :=
  match window_sizes with
  | [] => Ok None
  | [w] => Ok (Some w)
  | _ => Raise ValueError
  end.

Definition window_of (s : KVCacheSpec) : option Z :=
  match s with FullAttentionSpec _ w _ => w | _ => None end.
Definition chunk_of (s : KVCacheSpec) : option Z :=
  match s with FullAttentionSpec _ _ c => c | _ => None end.

(** [set(f(spec) for spec in specs if f(spec) is not None)]. *)
Definition set_of (f : KVCacheSpec → option Z) (specs : list KVCacheSpec) : list Z :=
  remove_dups (omap f specs).

Definition merge_full (specs : list KVCacheSpec) : outcome KVCacheSpec :=
  if forallb is_full_attention specs then
    s0 ← py_index specs 0;
    match attention_of s0 with
    | None => Raise AttributeError
    | Some a0 =>
      w ← merge_window_sizes (set_of window_of specs);
      c ← merge_window_sizes (set_of chunk_of specs);
      if forallb (λ s, bool_decide (attention_of s = Some a0)) specs then
        if decide (is_Some w ∧ is_Some c) then Raise AssertionError
        else Ok (FullAttentionSpec a0 w c)
      else Raise AssertionError
    end
  else Raise AssertionError.

(** [KVCacheSpec.merge]: every spec equals the first. *)
Definition merge_equal (specs : list KVCacheSpec) : outcome KVCacheSpec :=
  if forallb (λ s, bool_decide (Some s = head specs)) (tail specs) then py_index specs 0
  else Raise AssertionError.

(** [specs[0].merge(specs)]: the class method of the first spec's class. *)
Definition merge (specs : list KVCacheSpec) : outcome KVCacheSpec :=
  s0 ← py_index specs 0;
  if is_full_attention s0 then merge_full specs else merge_equal specs.

(** * Groups *)

Record KVCacheTensor : Type := mkKVCacheTensor { size : Z; shared_by : list string }.
Record KVCacheGroupSpec : Type := mkKVCacheGroupSpec {
  layer_names : list string;
  kv_cache_spec : KVCacheSpec
}.
Record KVCacheConfig : Type := mkKVCacheConfig {
  num_blocks : Z;
  kv_cache_tensors : list KVCacheTensor;
  kv_cache_groups : list KVCacheGroupSpec
}.

(** * Properties of the sizes *)
Section size_properties.
Context (get_dtype_size : dtype → Z).

(** The bounds grow with the model length. *)
Lemma max_blocks_mono s lim lim' :
  0 < block_size s → max_model_len lim <= max_model_len lim' →
  max_num_batched_tokens lim = max_num_batched_tokens lim' →
  max_blocks s lim <= max_blocks s lim'.
Proof.
  intros Hbs Hlen Hb. destruct s; simpl in *; try lia.
  - by apply cdiv_mono.
  - apply cdiv_mono; [done|lia].
  - apply Z.add_le_mono_r, cdiv_mono; [done|lia].
Qed.

(** [max_blocks] of a sliding-window layer covers the blocks that a request with
    [computed] computed tokens and [new] scheduled ones holds: those from the
    first useful block (see [SlidingWindowManager.remove_skipped_blocks]) on. *)
Lemma sliding_window_blocks_fit a window lim computed new :
  0 < attn_block_size a → 0 <= computed → 0 <= new <= max_num_batched_tokens lim →
  computed + new <= max_model_len lim →
  cdiv (computed + new) (attn_block_size a)
    - Z.max 0 ((computed - window + 1) / attn_block_size a)
  <= max_blocks (SlidingWindowSpec a window) lim.
Proof.
  intros Hbs Hc Hn Hlen. simpl. set (bs := attn_block_size a) in *.
  pose proof (cdiv_bounds (computed + new) bs Hbs).
  pose proof (cdiv_bounds (Z.min (window - 1 + max_num_batched_tokens lim) (max_model_len lim)) bs Hbs).
  pose proof (Z.div_mod (computed - window + 1) bs). pose proof (Z.mod_pos_bound (computed - window + 1) bs).
  nia.
Qed.
End size_properties.

(** A merged spec describes every layer of the group: same attention fields, and
    each window that a layer sets is the merged one. *)
Lemma remove_dups_singleton (l : list Z) w x : remove_dups l = [w] → x ∈ l → x = w.
Proof. intros H Hx. apply elem_of_remove_dups in Hx. rewrite H in Hx. by apply list_elem_of_singleton in Hx. Qed.

Lemma merge_window_sizes_spec f specs w s x :
  merge_window_sizes (set_of f specs) = Ok w → s ∈ specs → f s = Some x → w = Some x.
Proof.
  intros Hm Hs Hx. assert (Hin : x ∈ omap f specs) by (apply list_elem_of_omap; eauto).
  unfold set_of in Hm. destruct (remove_dups (omap f specs)) as [|y [|??]] eqn:E; simplify_eq/=.
  - apply elem_of_remove_dups in Hin. rewrite E in Hin. by apply not_elem_of_nil in Hin.
  - by rewrite (remove_dups_singleton _ _ _ E Hin).
Qed.

Lemma merge_full_spec specs m :
  merge_full specs = Ok m →
  ∃ a w c, m = FullAttentionSpec a w c ∧ (w = None ∨ c = None) ∧
    ∀ s, s ∈ specs → ∃ sw sc, s = FullAttentionSpec a sw sc ∧
      (sw = None ∨ sw = w) ∧ (sc = None ∨ sc = c).
Proof.
  unfold merge_full. destruct (forallb is_full_attention specs) eqn:Hfull; [|done].
  destruct (py_index specs 0) as [s0|]; [|done]; cbn [mbind outcome_bind].
  destruct (attention_of s0) as [a0|]; [|done].
  destruct (merge_window_sizes (set_of window_of specs)) as [w|] eqn:Hw; [|done].
  destruct (merge_window_sizes (set_of chunk_of specs)) as [c|] eqn:Hc; [|done]. cbn [mbind outcome_bind].
  destruct (forallb (λ s, bool_decide (attention_of s = Some a0)) specs) eqn:Hattn; [|done].
  destruct (decide (is_Some w ∧ is_Some c)) as [|Hboth]; [done|]. intros [= <-].
  exists a0, w, c. split_and!; [done| |].
  - destruct w, c; auto. destruct Hboth; eauto.
  - intros s Hs. rewrite forallb_forall in Hfull. rewrite forallb_forall in Hattn.
    apply list_elem_of_In in Hs as Hs'. specialize (Hfull s Hs'). specialize (Hattn s Hs').
    apply bool_decide_eq_true in Hattn. destruct s as [a sw sc| | |]; try done. simplify_eq/=.
    exists sw, sc. split_and!; [done| |].
    + destruct sw as [x|]; [right|by left]. symmetry. by eapply (merge_window_sizes_spec window_of).
    + destruct sc as [x|]; [right|by left]. symmetry. by eapply (merge_window_sizes_spec chunk_of).
Qed.

Lemma merge_equal_spec specs m :
  merge_equal specs = Ok m → ∀ s, s ∈ specs → s = m.
Proof.
  unfold merge_equal. destruct specs as [|s0 specs]; [done|]. simpl.
  destruct (forallb _ specs) eqn:Hall; [|done]. intros Hm.
  rewrite (py_index_lookup _ 0 s0) in Hm by done. simplify_eq.
  intros s [->|Hs]%elem_of_cons; [done|]. rewrite forallb_forall in Hall.
  apply list_elem_of_In in Hs. specialize (Hall s Hs). apply bool_decide_eq_true in Hall. by simplify_eq.
Qed.
