(* ===== verification/KVCachePlanning.v ===== *)
(** The planning of the KV cache, from [v1/core/kv_cache_utils.py]: the check that the
    memory is enough, the longest model that fits, the groups of layers, the tensors
    and the number of blocks; and [EngineCore._initialize_kv_caches], which plans for
    every worker and makes the plans agree.

    A dictionary from layer names to specs is the list of its items in insertion
    order.  The log messages are left out, but not the divisions they make. *)
From Stdlib Require Import ZArith QArith Lia.
From stdpp Require Import base strings countable gmap sets fin_maps list.
From S2P Require Import Prelude KVCacheSpec.
Local Open Scope Z_scope.

(** The part of [VllmConfig] the planning reads. *)
Record VllmConfig : Type := mkVllmConfig {
  limits : ModelLimits;
  num_gpu_blocks_override : option Z;
  disable_hybrid_kv_cache_manager : bool
}.

(** [vllm_config.model_config.max_model_len = model_len]. *)
Definition set_max_model_len (model_len : Z) (c : VllmConfig) : VllmConfig :=
  mkVllmConfig (mkModelLimits model_len (max_num_batched_tokens (limits c)))
    (num_gpu_blocks_override c) (disable_hybrid_kv_cache_manager c).

(** [dict[str, KVCacheSpec]]. *)
Definition LayerSpecs : Type := list (string * KVCacheSpec).

Definition layer_spec (specs : LayerSpecs) (layer_name : string) : outcome KVCacheSpec :=
  match list_find (λ kv, kv.1 = layer_name) specs with
  | Some (_, (_, s)) => Ok s
  | None => Raise KeyError
  end.

(** [a // b]. *)
Definition floordiv (a b : Z) : outcome Z := if decide (b = 0) then Raise ZeroDivisionError else Ok (a / b).

(** [min] and [max] of a list, which must not be empty. *)
Definition py_min (l : list Z) : outcome Z :=
  match l with [] => Raise ValueError | x :: l' => Ok (foldl Z.min x l') end.
Definition py_max (l : list Z) : outcome Z :=
  match l with [] => Raise ValueError | x :: l' => Ok (foldl Z.max x l') end.

Section planning.
(** The size of a [torch.dtype]. *)
Variable get_dtype_size : dtype → Z.

(** * Enough memory *)

Definition max_memory_usage_bytes (c : VllmConfig) (specs : list KVCacheSpec) : outcome Z :=
  sizes ← mapM (λ s, KVCacheSpec.max_memory_usage_bytes get_dtype_size s (limits c)) specs;
  Ok (zsum sizes).

(** The local function of [estimate_max_model_len]; it sets the length in the
    configuration. *)
Definition fits_in_memory (specs : LayerSpecs) (available_memory model_len : Z) : M VllmConfig bool :=
  modify (set_max_model_len model_len) ;;
  c ← get;
  memory_needed ← lift_outcome (max_memory_usage_bytes c specs.*2);
  mret (bool_decide (memory_needed <= available_memory)).

(** [while left <= right]. *)
Fixpoint bisect (fuel : nat) (specs : LayerSpecs) (available_memory left right result : Z) : M VllmConfig Z :=
  match fuel with
  | O => raise OutOfFuel
  | S fuel =>
    if decide (left <= right) then
      let mid := (left + right) / 2 in
      fits ← fits_in_memory specs available_memory mid;
      if (fits : bool) then bisect fuel specs available_memory (mid + 1) right mid
      else bisect fuel specs available_memory left (mid - 1) result
    else mret result
  end.

(** The fuel is one more than the length of the interval, which every pass shortens. *)
Definition estimate_max_model_len (specs : LayerSpecs) (available_memory : Z) : M VllmConfig Z :=
  current_max ← gets (max_model_len ∘ limits);
  fits ← fits_in_memory specs available_memory 1;
  if (fits : bool) then bisect (S (Z.to_nat current_max)) specs available_memory 1 current_max 1
  else mret 0.

Definition check_enough_kv_cache_memory (specs : LayerSpecs) (available_memory : Z) : M VllmConfig unit :=
  match specs with
  | [] => mret tt
  | _ =>
    if decide (available_memory <= 0) then raise ValueError
    else
      c ← get;
      needed_memory ← lift_outcome (max_memory_usage_bytes c specs.*2);
      if decide (needed_memory > available_memory) then
        estimate_max_model_len specs available_memory ;; raise ValueError
      else mret tt
  end.

(** * Groups *)

Definition create_kv_cache_group_specs (specs : LayerSpecs) (grouped_layer_names : list (list string))
    : outcome (list KVCacheGroupSpec) :=
  mapM (λ layer_names_one_group,
    layer_specs ← mapM (layer_spec specs) layer_names_one_group;
    merged_layer_spec ← merge layer_specs;
    Ok (mkKVCacheGroupSpec layer_names_one_group merged_layer_spec)) grouped_layer_names.

(** Only the failure of an assertion is caught. *)
Definition is_kv_cache_type_uniform (specs : LayerSpecs) : outcome bool :=
  match merge specs.*2 with
  | Ok _ => Ok true
  | Raise AssertionError => Ok false
  | Raise e => Raise e
  end.

Definition get_max_concurrency_for_kv_cache_config (c : VllmConfig) (kv : KVCacheConfig) : outcome Q :=
  num_layer_per_group ← py_max ((λ g, len (layer_names g)) <$> kv_cache_groups kv);
  per_request ← max_memory_usage_bytes c (kv_cache_spec <$> kv_cache_groups kv);
  let max_memory_usage_per_request := num_layer_per_group * per_request in
  g0 ← py_index (kv_cache_groups kv) 0;
  page ← page_size_bytes get_dtype_size (kv_cache_spec g0);
  let memory_per_block := page * num_layer_per_group in
  if decide (memory_per_block = 0) then Raise ZeroDivisionError
  else
    let num_block_per_request := cdiv max_memory_usage_per_request memory_per_block in
    if decide (num_block_per_request = 0) then Raise ZeroDivisionError
    else Ok (inject_Z (num_blocks kv) / inject_Z num_block_per_request)%Q.

Definition get_num_blocks (c : VllmConfig) (num_layers available_memory page_size : Z) : outcome Z :=
  q ← floordiv available_memory page_size;
  q ← floordiv q num_layers;
  let num_blocks := Z.max q 0 in
  Ok (default num_blocks (num_gpu_blocks_override c)).

(** The set of the page sizes. *)
Definition page_sizes (specs : LayerSpecs) : outcome (list Z) :=
  sizes ← mapM (page_size_bytes get_dtype_size) specs.*2; Ok (remove_dups sizes).
Definition get_uniform_page_size (specs : LayerSpecs) : outcome Z :=
  sizes ← page_sizes specs;
  match sizes with [p] => Ok p | _ => Raise AssertionError end.
Definition is_kv_cache_page_size_uniform (specs : LayerSpecs) : outcome bool :=
  sizes ← page_sizes specs; Ok (bool_decide (len sizes = 1)).

Definition _get_kv_cache_config_uniform_type (c : VllmConfig) (specs : LayerSpecs) (available_memory : Z)
    : outcome KVCacheConfig :=
  page_size ← get_uniform_page_size specs;
  num_blocks ← get_num_blocks c (len specs) available_memory page_size;
  let per_layer_size := page_size * num_blocks in
  let kv_cache_tensors := (λ layer_name, mkKVCacheTensor per_layer_size [layer_name]) <$> specs.*1 in
  groups ← create_kv_cache_group_specs specs [specs.*1];
  let kv_cache_config := mkKVCacheConfig num_blocks kv_cache_tensors groups in
  _ ← get_max_concurrency_for_kv_cache_config c kv_cache_config;
  Ok kv_cache_config.

Definition is_kv_cache_type_attention_free (specs : LayerSpecs) : bool :=
  match specs with [] => true | _ => false end.

(** [same_type_layers[layer_spec].append(layer_name)]. *)
Fixpoint add_layer (s : KVCacheSpec) (layer_name : string) (d : list (KVCacheSpec * list string))
    : list (KVCacheSpec * list string) :=
  match d with
  | [] => [(s, [layer_name])]
  | (s', names) :: d' =>
    if decide (s' = s) then (s', names ++ [layer_name]) :: d' else (s', names) :: add_layer s layer_name d'
  end.
Definition same_type_layers (specs : LayerSpecs) : list (KVCacheSpec * list string) :=
  foldl (λ d '(layer_name, s), add_layer s layer_name d) [] specs.

(** [[layers[i:i + group_size] for i in range(0, len(layers), group_size)]]. *)
Definition chunks (group_size : Z) (layers : list string) : list (list string) :=
  (λ i, slice i (i + group_size) layers) <$> range_step 0 (len layers) group_size.

Definition _get_kv_cache_config_uniform_page_size (c : VllmConfig) (specs : LayerSpecs) (available_memory : Z)
    : outcome KVCacheConfig :=
  let same := same_type_layers specs in
  group_size ← py_min ((λ d, len d.2) <$> same);
  let grouped_layers := concat ((λ d, chunks group_size d.2) <$> same) in
  groups ← create_kv_cache_group_specs specs grouped_layers;
  page_size ← get_uniform_page_size specs;
  num_blocks ← get_num_blocks c group_size available_memory page_size;
  let per_memory_pool_size := page_size * num_blocks in
  let kv_cache_tensors :=
    (λ i, mkKVCacheTensor per_memory_pool_size
            (omap (λ names, names !! Z.to_nat i) (take (length groups) grouped_layers)))
      <$> range group_size in
  let kv_cache_config := mkKVCacheConfig num_blocks kv_cache_tensors groups in
  _ ← get_max_concurrency_for_kv_cache_config c kv_cache_config;
  Ok kv_cache_config.

Definition _get_kv_cache_config_attention_free : KVCacheConfig := mkKVCacheConfig 1 [] [].

(** The conversion of the specs that are not full attention. *)
Definition to_full_attention (s : KVCacheSpec) : KVCacheSpec :=
  match s with
  | SlidingWindowSpec a sliding_window => FullAttentionSpec a (Some sliding_window) None
  | ChunkedLocalAttentionSpec a attention_chunk_size => FullAttentionSpec a None (Some attention_chunk_size)
  | _ => s
  end.

(** The dictionary after the call, which changes it in place. *)
Definition unify_hybrid_kv_cache_specs (specs : LayerSpecs) : outcome LayerSpecs :=
  uniform ← is_kv_cache_type_uniform specs;
  if (uniform : bool) then Ok specs
  else
    let has_full_attention := existsb is_full_attention specs.*2 in
    let has_sliding_window := existsb is_sliding_window specs.*2 in
    let has_chunked_local_attention := existsb is_chunked_local specs.*2 in
    let specs :=
      if has_full_attention && (has_sliding_window || has_chunked_local_attention)
      then prod_map id to_full_attention <$> specs else specs in
    uniform ← is_kv_cache_type_uniform specs;
    if (uniform : bool) then Ok specs else Raise ValueError.

Definition get_kv_cache_config (specs : LayerSpecs) (available_memory : Z) : M VllmConfig KVCacheConfig :=
  check_enough_kv_cache_memory specs available_memory ;;
  c ← get;
  specs ← lift_outcome (if disable_hybrid_kv_cache_manager c then unify_hybrid_kv_cache_specs specs else Ok specs);
  if is_kv_cache_type_attention_free specs then mret _get_kv_cache_config_attention_free
  else
    uniform_type ← lift_outcome (is_kv_cache_type_uniform specs);
    if (uniform_type : bool) then lift_outcome (_get_kv_cache_config_uniform_type c specs available_memory)
    else
      uniform_page_size ← lift_outcome (is_kv_cache_page_size_uniform specs);
      if (uniform_page_size : bool)
      then lift_outcome (_get_kv_cache_config_uniform_page_size c specs available_memory)
      else raise NotImplementedError.
End planning.

(** * The plans of several workers *)

(** A component of the sort key: [astuple] of a spec. *)
Inductive key_field : Type :=
  | KInt (z : Z)
  | KNone
  | KDtype (d : dtype)
  | KShapes (l : list (list Z))
  | KStr (s : string).
#[export] Instance key_field_eq_dec : EqDecision key_field.
Proof. solve_decision. Defined.

Definition key_option (o : option Z) : key_field := match o with Some z => KInt z | None => KNone end.

(** [type(spec).__name__] and [astuple(spec)]. *)
Definition class_name (s : KVCacheSpec) : string :=
  match s with
  | FullAttentionSpec _ _ _ => "FullAttentionSpec"
  | ChunkedLocalAttentionSpec _ _ => "ChunkedLocalAttentionSpec"
  | SlidingWindowSpec _ _ => "SlidingWindowSpec"
  | MambaSpec _ _ _ _ _ => "MambaSpec"
  end.
Definition attn_tuple (a : AttentionSpec) : list key_field :=
  [KInt (attn_block_size a); KInt (num_kv_heads a); KInt (head_size a); KDtype (attn_dtype a);
   KInt (if use_mla a then 1 else 0)].
Definition astuple (s : KVCacheSpec) : list key_field :=
  match s with
  | FullAttentionSpec a w c => attn_tuple a ++ [key_option w; key_option c]
  | ChunkedLocalAttentionSpec a c => attn_tuple a ++ [KInt c]
  | SlidingWindowSpec a w => attn_tuple a ++ [KInt w]
  | MambaSpec bs shapes dt padded ty => [KInt bs; KShapes shapes; KDtype dt; key_option padded; KStr ty]
  end.

(** The order of tuples: the first components that differ decide; of two that agree
    the shorter is less. *)
Fixpoint lex_lt {A} `{EqDecision A} (lt : A → A → outcome bool) (l k : list A) : outcome bool :=
  match l, k with
  | [], [] => Ok false
  | [], _ :: _ => Ok true
  | _ :: _, [] => Ok false
  | x :: l', y :: k' => if decide (x = y) then lex_lt lt l' k' else lt x y
  end.

Definition int_lt (x y : Z) : outcome bool := Ok (bool_decide (x < y)).
Definition field_lt (a b : key_field) : outcome bool :=
  match a, b with
  | KInt x, KInt y => int_lt x y
  | KStr x, KStr y => Ok (String.ltb x y)
  | KShapes x, KShapes y => lex_lt (lex_lt int_lt) x y
  | _, _ => Raise TypeError
  end.

(** [key(x) < key(y)] for the key [(type name, astuple)]. *)
Definition spec_lt (x y : KVCacheSpec) : outcome bool :=
  if decide (class_name x = class_name y) then lex_lt field_lt (astuple x) (astuple y)
  else Ok (String.ltb (class_name x) (class_name y)).

(** [list.sort], which is stable and only asks whether a later element is less than an
    earlier one. *)
Fixpoint insert_group (g : KVCacheGroupSpec) (l : list KVCacheGroupSpec) : outcome (list KVCacheGroupSpec) :=
  match l with
  | [] => Ok [g]
  | h :: l' =>
    less ← spec_lt (kv_cache_spec g) (kv_cache_spec h);
    if (less : bool) then Ok (g :: h :: l') else l'' ← insert_group g l'; Ok (h :: l'')
  end.
Definition sort_groups (l : list KVCacheGroupSpec) : outcome (list KVCacheGroupSpec) :=
  foldl (λ acc g, sorted ← acc; insert_group g sorted) (Ok []) l.

Definition set_groups (groups : list KVCacheGroupSpec) (kv : KVCacheConfig) : KVCacheConfig :=
  mkKVCacheConfig (num_blocks kv) (kv_cache_tensors kv) groups.
Definition set_num_blocks (n : Z) (kv : KVCacheConfig) : KVCacheConfig :=
  mkKVCacheConfig n (kv_cache_tensors kv) (kv_cache_groups kv).

(** The assertion on the groups of two workers, as far as both have groups. *)
Definition same_group_specs (kv0 kv : KVCacheConfig) : bool :=
  forallb (λ '(g0, g), bool_decide (kv_cache_spec g0 = kv_cache_spec g))
    (zip (kv_cache_groups kv0) (kv_cache_groups kv)).

Definition unify_kv_cache_configs (kvs : list KVCacheConfig) : outcome (list KVCacheConfig) :=
  kvs ← mapM (λ kv, groups ← sort_groups (kv_cache_groups kv); Ok (set_groups groups kv)) kvs;
  let agree := match kvs with [] => true | kv0 :: rest => forallb (same_group_specs kv0) rest end in
  if agree then
    min_num_blocks ← py_min (num_blocks <$> kvs);
    Ok (set_num_blocks min_num_blocks <$> kvs)
  else Raise AssertionError.

(** [EngineCore._initialize_kv_caches].  What the executor answers is an argument: the
    specs of each worker and the memory each has; [synced] is the memory agreed on with
    the running engines in an elastic scale-up.  The result is the number of GPU and CPU
    blocks and the scheduler's plan, and what the executor is initialised with. *)
Definition _initialize_kv_caches (get_dtype_size : dtype → Z) (kv_cache_specs : list LayerSpecs)
    (determine_available_memory : list Z) (synced : option Z)
    : M VllmConfig (Z * Z * KVCacheConfig * list KVCacheConfig) :=
  let has_kv_cache := existsb (λ specs, negb (is_kv_cache_type_attention_free specs)) kv_cache_specs in
  available_gpu_memory ←
    (if has_kv_cache then
       match synced with
       | Some n => mret (replicate (length kv_cache_specs) n)
       | None => lift_outcome (py_index determine_available_memory 0) ;; mret determine_available_memory
       end
     else mret (replicate (length kv_cache_specs) 0));
  assert_ (bool_decide (length kv_cache_specs = length available_gpu_memory)) ;;
  kv_cache_configs ← map_each (zip kv_cache_specs available_gpu_memory)
    (λ '(specs, memory), get_kv_cache_config get_dtype_size specs memory);
  kv_cache_configs ← lift_outcome (unify_kv_cache_configs kv_cache_configs);
  kv0 ← lift_outcome (py_index kv_cache_configs 0);
  assert_ (forallb (λ kv, bool_decide (num_blocks kv = num_blocks kv0)) kv_cache_configs) ;;
  mret (num_blocks kv0, 0, kv0, kv_cache_configs).
