(* ===== verification/SingleTypeManager.v ===== *)
(** The per-type managers of [v1/core/single_type_kv_cache_manager.py]: full
    attention, sliding window, chunked local attention and Mamba.  Each keeps the
    block table of every request in one KV-cache group; all share the block pool. *)
From Stdlib Require Import ZArith Lia.
From stdpp Require Import base strings countable gmap sets fin_maps list.
From S2P Require Import Prelude FreeBlockQueue Request BlockHash BlockPool KVCacheSpec.
Local Open Scope Z_scope.

(** * State *)

Inductive manager_class : Type :=
  | FullAttentionManager
  | SlidingWindowManager
  | ChunkedLocalAttentionManager
  | MambaManager.

Record SingleTypeKVCacheManager : Type := mkManager {
  manager_cls : manager_class;
  manager_spec : KVCacheSpec;
  req_to_blocks : gmap string (list ptr);
  num_cached_block : gmap string Z;
  kv_cache_group_id : Z;
  _null_block : ptr
}.

(** [self.block_size], [self.sliding_window], [self.attention_chunk_size]. *)
Definition manager_block_size (m : SingleTypeKVCacheManager) : Z := block_size (manager_spec m).
Definition manager_window (m : SingleTypeKVCacheManager) : Z :=
  match manager_spec m with SlidingWindowSpec _ w => w | _ => 0 end.
Definition manager_chunk (m : SingleTypeKVCacheManager) : Z :=
  match manager_spec m with ChunkedLocalAttentionSpec _ c => c | _ => 0 end.

Definition set_req_to_blocks (v : gmap string (list ptr)) (m : SingleTypeKVCacheManager) :=
  mkManager (manager_cls m) (manager_spec m) v (num_cached_block m) (kv_cache_group_id m) (_null_block m).
Definition set_num_cached_block (v : gmap string Z) (m : SingleTypeKVCacheManager) :=
  mkManager (manager_cls m) (manager_spec m) (req_to_blocks m) v (kv_cache_group_id m) (_null_block m).

Definition spec_manager_map (s : KVCacheSpec) : manager_class :=
  match s with
  | FullAttentionSpec _ _ _ => FullAttentionManager
  | SlidingWindowSpec _ _ => SlidingWindowManager
  | ChunkedLocalAttentionSpec _ _ => ChunkedLocalAttentionManager
  | MambaSpec _ _ _ _ _ => MambaManager
  end.

Definition get_manager_for_kv_cache_spec (s : KVCacheSpec) (p : BlockPool) (kv_cache_group_id : Z)
    : SingleTypeKVCacheManager :=
  mkManager (spec_manager_map s) s ∅ ∅ kv_cache_group_id (null_block p).

(** A manager and the pool it shares with the others. *)
Definition ManagerState : Type := BlockPool * SingleTypeKVCacheManager.
Definition on_pool {A} (m : M BlockPool A) : M ManagerState A :=
  zoom fst (λ p s, (p, snd s)) m.
Definition modify_manager (f : SingleTypeKVCacheManager → SingleTypeKVCacheManager) : M ManagerState unit :=
  modify (λ s, (fst s, f (snd s))).

(** The list a request's entry holds; a missing one reads as empty. *)
Definition blocks_of (m : SingleTypeKVCacheManager) (request_id : string) : list ptr :=
  default [] (req_to_blocks m !! request_id).

(** [self.req_to_blocks[request_id]]: the [defaultdict] inserts a missing entry. *)
Definition read_blocks (request_id : string) : M ManagerState (list ptr) :=
  l ← gets (λ s, blocks_of (snd s) request_id);
  modify_manager (λ m, set_req_to_blocks (<[request_id := l]> (req_to_blocks m)) m) ;;
  mret l.
Definition write_blocks (request_id : string) (l : list ptr) : M ManagerState unit :=
  modify_manager (λ m, set_req_to_blocks (<[request_id := l]> (req_to_blocks m)) m).

(** * Operations common to all classes *)

(** [blk.ref_cnt == 0 and not blk.is_null]. *)
Definition evictable (p : BlockPool) (b : ptr) : bool := unreferenced (free_block_queue p) b.

Definition get_num_blocks_to_allocate (request_id : string) (num_tokens : Z)
    (new_computed_blocks : list ptr) : M ManagerState Z :=
  bs ← gets (λ s, manager_block_size (snd s));
  let num_required_blocks := cdiv num_tokens bs in
  req_blocks ← read_blocks request_id;
  let num_new_blocks := num_required_blocks - len new_computed_blocks - len req_blocks in
  p ← gets fst;
  let num_evictable_computed_blocks := len (List.filter (evictable p) new_computed_blocks) in
  mret (num_new_blocks + num_evictable_computed_blocks).

Definition save_new_computed_blocks (request_id : string) (new_computed_blocks : list ptr)
    : M ManagerState unit :=
  nc ← gets (λ s, num_cached_block (snd s) !! request_id);
  match nc with
  | None =>
    req_blocks ← read_blocks request_id;
    assert_ (bool_decide (len req_blocks = 0)) ;;
    write_blocks request_id (req_blocks ++ new_computed_blocks) ;;
    modify_manager (λ m, set_num_cached_block
      (<[request_id := len new_computed_blocks]> (num_cached_block m)) m)
  | Some _ => assert_ (bool_decide (len new_computed_blocks = 0))
  end.

(** [SingleTypeKVCacheManager.allocate_new_blocks]. *)
Definition allocate_new_blocks_base (request_id : string) (num_tokens : Z) : M ManagerState (list ptr) :=
  req_blocks ← read_blocks request_id;
  bs ← gets (λ s, manager_block_size (snd s));
  let num_required_blocks := cdiv num_tokens bs in
  let num_new_blocks := num_required_blocks - len req_blocks in
  if decide (num_new_blocks <= 0) then mret []
  else
    new_blocks ← on_pool (get_new_blocks num_new_blocks);
    write_blocks request_id (req_blocks ++ new_blocks) ;;
    mret new_blocks.

(** With the override of [MambaManager]. *)
Definition allocate_new_blocks (request_id : string) (num_tokens : Z) : M ManagerState (list ptr) :=
  new_blocks ← allocate_new_blocks_base request_id num_tokens;
  cls ← gets (λ s, manager_cls (snd s));
  match cls with
  | MambaManager =>
    req_blocks ← read_blocks request_id;
    assert_ (bool_decide (len req_blocks = 1)) ;;
    mret new_blocks
  | _ => mret new_blocks
  end.

(** [self.req_to_blocks.pop(request_id, [])], then the blocks in reverse order. *)
Definition free (request_id : string) : M ManagerState unit :=
  req_blocks ← gets (λ s, blocks_of (snd s) request_id);
  modify_manager (λ m, set_req_to_blocks (delete request_id (req_to_blocks m)) m) ;;
  on_pool (free_blocks (reverse req_blocks)) ;;
  modify_manager (λ m, set_num_cached_block (delete request_id (num_cached_block m)) m).

Section caching.
Variable hash_function : Z * list Z * option (list extra_key) → Z.
Variable NONE_HASH : Z.

(** Returns [block_hashes] as [cache_full_blocks] leaves it. *)
Definition cache_blocks (request : Request) (block_hashes : list BlockHash) (num_tokens : Z)
    : M ManagerState (list BlockHash) :=
  let rid := request_id request in
  nc ← gets (λ s, num_cached_block (snd s) !! rid);
  match nc with
  | None => raise KeyError
  | Some num_cached_blocks =>
    bs ← gets (λ s, manager_block_size (snd s));
    let num_full_blocks := num_tokens / bs in
    req_blocks ← read_blocks rid;
    g ← gets (λ s, kv_cache_group_id (snd s));
    block_hashes' ← on_pool (cache_full_blocks hash_function NONE_HASH request req_blocks block_hashes
      num_cached_blocks num_full_blocks bs g);
    modify_manager (λ m, set_num_cached_block (<[rid := num_full_blocks]> (num_cached_block m)) m) ;;
    mret block_hashes'
  end.
End caching.

(** * Longest cache hit *)

(** [if cached_block := block_pool.get_cached_block(...)]: [None] and the empty
    list are both falsy. *)
Definition cached_hit (p : BlockPool) (h : BlockHash) (group_ids : list Z) : option (list ptr) :=
  match get_cached_block p h group_ids with
  | Some [] => None
  | r => r
  end.

(** [for computed, cached in zip(computed_blocks, cached_block): computed.append(cached)]. *)
Definition append_each (computed : list (list ptr)) (cached : list ptr) : list (list ptr) :=
  zip_with (λ c b, c ++ [b]) computed cached ++ drop (length cached) computed.

(** [computed[i] = cached] for each. *)
Definition assign_each (i : Z) (computed : list (list ptr)) (cached : list ptr) : list (list ptr) :=
  zip_with (λ c b, <[Z.to_nat i := b]> c) computed cached ++ drop (length cached) computed.

(** [for computed in computed_blocks: computed.pop()]. *)
Definition pop_each (computed : list (list ptr)) : outcome (list (list ptr)) :=
  if forallb (λ c, bool_decide (c ≠ [])) computed then Ok (@removelast ptr <$> computed)
  else Raise IndexError.

(** [if use_eagle and computed_blocks[0]: ...]. *)
Definition drop_last_for_eagle (use_eagle : bool) (computed : list (list ptr)) : outcome (list (list ptr)) :=
  if use_eagle then
    c0 ← py_index computed 0;
    match c0 with [] => Ok computed | _ => pop_each computed end
  else Ok computed.

(** The loop of [FullAttentionManager.find_longest_cache_hit]. *)
Fixpoint full_hit_loop (p : BlockPool) (group_ids : list Z) (hashes : list BlockHash)
    (computed : list (list ptr)) : list (list ptr) :=
  match hashes with
  | [] => computed
  | h :: hashes' =>
    match cached_hit p h group_ids with
    | Some cached => full_hit_loop p group_ids hashes' (append_each computed cached)
    | None => computed
    end
  end.

(** The loop of [SlidingWindowManager.find_longest_cache_hit] over the remaining
    indices; the second component tells whether a match was found. *)
Fixpoint window_hit_loop (p : BlockPool) (group_ids : list Z) (block_hashes : list BlockHash)
    (needed : Z) (indices : list Z) (computed : list (list ptr)) (num_contiguous_blocks : Z)
    : outcome (list (list ptr) * Z * bool) :=
  match indices with
  | [] => Ok (computed, num_contiguous_blocks, false)
  | i :: indices' =>
    h ← py_index block_hashes i;
    match cached_hit p h group_ids with
    | Some cached =>
      let computed' := assign_each i computed cached in
      let n := num_contiguous_blocks + 1 in
      if decide (n >= needed) then
        Ok ((take (Z.to_nat (i + n)) <$> computed'), n, true)
      else window_hit_loop p group_ids block_hashes needed indices' computed' n
    | None => window_hit_loop p group_ids block_hashes needed indices' computed 0
    end
  end.

(** The loop of [ChunkedLocalAttentionManager.find_longest_cache_hit]. *)
Fixpoint chunk_hit_loop (p : BlockPool) (group_ids : list Z) (block_hashes : list BlockHash)
    (indices : list Z) (computed : list (list ptr)) : outcome (list (list ptr)) :=
  match indices with
  | [] => Ok computed
  | i :: indices' =>
    h ← py_index block_hashes i;
    match cached_hit p h group_ids with
    | Some cached => chunk_hit_loop p group_ids block_hashes indices' (append_each computed cached)
    | None => Ok computed
    end
  end.

(** [[null] * n for _ in group_ids]; a negative [n] gives empty lists. *)
Definition nulls (p : BlockPool) (n : Z) (group_ids : list Z) : list (list ptr) :=
  replicate (length group_ids) (replicate (Z.to_nat n) (null_block p)).

(** [itertools.islice] refuses a negative bound. *)
Definition find_longest_cache_hit_full (block_hashes : list BlockHash) (max_length : Z)
    (group_ids : list Z) (p : BlockPool) (s : KVCacheSpec) (use_eagle : bool)
    : outcome (list (list ptr)) :=
  if is_full_attention s || is_chunked_local s then
    let max_num_blocks := max_length / block_size s in
    if decide (max_num_blocks < 0) then Raise ValueError
    else
      drop_last_for_eagle use_eagle
        (full_hit_loop p group_ids (slice_to max_num_blocks block_hashes) (nulls p 0 group_ids))
  else Raise AssertionError.

Definition find_longest_cache_hit_window (block_hashes : list BlockHash) (max_length : Z)
    (group_ids : list Z) (p : BlockPool) (s : KVCacheSpec) (use_eagle : bool)
    : outcome (list (list ptr)) :=
  match s with
  | SlidingWindowSpec a window =>
    let needed := cdiv (window - 1) (block_size s) + (if use_eagle then 1 else 0) in
    let max_num_blocks := max_length / block_size s in
    '(computed, n, match_found) ←
      window_hit_loop p group_ids block_hashes needed (range_down max_num_blocks)
        (nulls p max_num_blocks group_ids) 0;
    drop_last_for_eagle use_eagle
      (if (match_found : bool) then computed else take (Z.to_nat n) <$> computed)
  | _ => Raise AssertionError
  end.

Definition find_longest_cache_hit_chunked (block_hashes : list BlockHash) (max_length : Z)
    (group_ids : list Z) (p : BlockPool) (s : KVCacheSpec) (use_eagle : bool)
    : outcome (list (list ptr)) :=
  match s with
  | ChunkedLocalAttentionSpec a chunk =>
    if use_eagle then Raise AssertionError
    else
      let max_num_blocks := max_length / block_size s in
      let local_attention_start_idx :=
        if decide (max_length > 0) then max_length / chunk * chunk else 0 in
      let start_block := local_attention_start_idx / block_size s in
      chunk_hit_loop p group_ids block_hashes (range2 start_block max_num_blocks)
        (nulls p start_block group_ids)
  | _ => Raise AssertionError
  end.

Definition find_longest_cache_hit (cls : manager_class) (block_hashes : list BlockHash)
    (max_length : Z) (group_ids : list Z) (p : BlockPool) (s : KVCacheSpec) (use_eagle : bool)
    : outcome (list (list ptr)) :=
  match cls with
  | FullAttentionManager => find_longest_cache_hit_full block_hashes max_length group_ids p s use_eagle
  | SlidingWindowManager => find_longest_cache_hit_window block_hashes max_length group_ids p s use_eagle
  | ChunkedLocalAttentionManager =>
    find_longest_cache_hit_chunked block_hashes max_length group_ids p s use_eagle
  | MambaManager => if is_mamba s then Ok (nulls p 0 group_ids) else Raise AssertionError
  end.

(** * Skipped blocks *)

(** The loop over [range(first_useful_block - 1, -1, -1)].  [==] on blocks compares
    the [block_id] first, and ids are distinct, so it is identity of pointers. *)
Fixpoint skip_loop (null : ptr) (indices : list Z) (blocks removed : list ptr)
    : outcome (list ptr * list ptr) :=
  match indices with
  | [] => Ok (blocks, removed)
  | i :: indices' =>
    b ← py_index blocks i;
    if decide (b = null) then Ok (blocks, removed)
    else skip_loop null indices' (<[Z.to_nat i := null]> blocks) (removed ++ [b])
  end.

Definition replace_skipped (request_id : string) (first_useful_block : Z) : M ManagerState unit :=
  bls ← read_blocks request_id;
  null ← gets (λ s, _null_block (snd s));
  '(bls', removed) ← lift_outcome (skip_loop null (range_down first_useful_block) bls []);
  write_blocks request_id bls' ;;
  on_pool (free_blocks removed).

Definition remove_skipped_blocks (request_id : string) (num_computed_tokens : Z) : M ManagerState unit :=
  m ← gets snd;
  match manager_cls m with
  | FullAttentionManager | MambaManager => mret tt
  | SlidingWindowManager =>
    let last_useful_token := num_computed_tokens - manager_window m + 1 in
    replace_skipped request_id (last_useful_token / manager_block_size m)
  | ChunkedLocalAttentionManager =>
    let nc := default 0 (num_cached_block m !! request_id) in
    let local_attention_start_idx := num_computed_tokens / manager_chunk m * manager_chunk m in
    let first_useful_block_idx := local_attention_start_idx / manager_block_size m in
    let first_useful_block_idx :=
      if decide (nc > 0) then Z.min first_useful_block_idx (nc - 1) else first_useful_block_idx in
    replace_skipped request_id first_useful_block_idx
  end.

(** * Common prefix *)

Fixpoint count_common (p : BlockPool) (num_running_requests : Z) (blocks : list ptr) : outcome Z :=
  match blocks with
  | [] => Ok 0
  | b :: blocks' =>
    match heap (free_block_queue p) !! b with
    | None => Raise DanglingReference
    | Some blk =>
      if decide (ref_cnt blk = num_running_requests) then
        n ← count_common p num_running_requests blocks'; Ok (1 + n)
      else Ok 0
    end
  end.

Definition get_num_common_prefix_blocks (request_id : string) (num_running_requests : Z)
    : M ManagerState Z :=
  cls ← gets (λ s, manager_cls (snd s));
  match cls with
  | FullAttentionManager =>
    bls ← read_blocks request_id;
    p ← gets fst;
    lift_outcome (count_common p num_running_requests bls)
  | _ => mret 0
  end.

(** * What the operations do *)

(** [m'] is [m] with the block table and the cached-block count of one request
    replaced. *)
Definition mgr_upd (m m' : SingleTypeKVCacheManager) (rid : string) (l : list ptr) (nc : option Z) : Prop :=
  manager_cls m' = manager_cls m ∧ manager_spec m' = manager_spec m ∧
  kv_cache_group_id m' = kv_cache_group_id m ∧ _null_block m' = _null_block m ∧
  (∀ r, blocks_of m' r = if decide (r = rid) then l else blocks_of m r) ∧
  (∀ r, num_cached_block m' !! r = if decide (r = rid) then nc else num_cached_block m !! r).

Section manager_updates.
Implicit Types (m : SingleTypeKVCacheManager) (rid : string) (l : list ptr).

Lemma mgr_upd_refl m rid : mgr_upd m m rid (blocks_of m rid) (num_cached_block m !! rid).
Proof. split_and!; try done; intros r; by case_decide; subst. Qed.

Lemma mgr_upd_trans m m1 m2 rid l1 l2 nc1 nc2 :
  mgr_upd m m1 rid l1 nc1 → mgr_upd m1 m2 rid l2 nc2 → mgr_upd m m2 rid l2 nc2.
Proof.
  intros (? & ? & ? & ? & Hb1 & Hn1) (? & ? & ? & ? & Hb2 & Hn2). split_and!; try congruence.
  - intros r. rewrite Hb2, Hb1. by case_decide.
  - intros r. rewrite Hn2, Hn1. by case_decide.
Qed.

Lemma mgr_upd_blocks m m' rid l nc : mgr_upd m m' rid l nc → blocks_of m' rid = l.
Proof. intros (_ & _ & _ & _ & Hb & _). by rewrite Hb, decide_True. Qed.
Lemma mgr_upd_cached m m' rid l nc : mgr_upd m m' rid l nc → num_cached_block m' !! rid = nc.
Proof. intros (_ & _ & _ & _ & _ & Hn). by rewrite Hn, decide_True. Qed.

Lemma blocks_of_insert m rid l r :
  blocks_of (set_req_to_blocks (<[rid := l]> (req_to_blocks m)) m) r =
    if decide (r = rid) then l else blocks_of m r.
Proof.
  unfold blocks_of. simpl. case_decide; subst; [by rewrite lookup_insert_eq|by rewrite lookup_insert_ne].
Qed.

Lemma mgr_upd_write m rid l :
  mgr_upd m (set_req_to_blocks (<[rid := l]> (req_to_blocks m)) m) rid l (num_cached_block m !! rid).
Proof.
  split_and!; try done; intros r; [apply blocks_of_insert|simpl; by case_decide; subst].
Qed.
Lemma mgr_upd_count m rid n :
  mgr_upd m (set_num_cached_block (<[rid := n]> (num_cached_block m)) m) rid (blocks_of m rid) (Some n).
Proof.
  split_and!; try done; intros r; simpl; case_decide; subst; try done;
    [by rewrite lookup_insert_eq|by rewrite lookup_insert_ne].
Qed.
Lemma mgr_upd_forget_blocks m rid :
  mgr_upd m (set_req_to_blocks (delete rid (req_to_blocks m)) m) rid [] (num_cached_block m !! rid).
Proof.
  split_and!; try done; intros r; unfold blocks_of; simpl; case_decide; subst; try done;
    [by rewrite lookup_delete_eq|by rewrite lookup_delete_ne].
Qed.
Lemma mgr_upd_forget_count m rid :
  mgr_upd m (set_num_cached_block (delete rid (num_cached_block m)) m) rid (blocks_of m rid) None.
Proof.
  split_and!; try done; intros r; simpl; case_decide; subst; try done;
    [by rewrite lookup_delete_eq|by rewrite lookup_delete_ne].
Qed.

(** Reading an entry changes no view of the manager. *)
Lemma wp_read_blocks p m rid (Q : list ptr → ManagerState → Prop) :
  (∀ m', mgr_upd m m' rid (blocks_of m rid) (num_cached_block m !! rid) → Q (blocks_of m rid) (p, m')) →
  wp (read_blocks rid) Q (p, m).
Proof. intros HQ. unfold read_blocks, modify_manager. wp_steps. apply HQ, mgr_upd_write. Qed.

Lemma wp_on_pool {A} (op : M BlockPool A) p m (Q : A → ManagerState → Prop) :
  wp op (λ a p', Q a (p', m)) p → wp (on_pool op) Q (p, m).
Proof. intros H. apply wp_zoom. exact H. Qed.
End manager_updates.

Section effects.
Implicit Types (p : BlockPool) (m : SingleTypeKVCacheManager) (rid : string) (l free : list ptr).

(** The blocks a prefix hit would take from the free list. *)
Definition evictable_blocks p (l : list ptr) : list ptr :=
  filter (λ q, q ≠ null_block p ∧ blk_ref p q = 0) l.

Lemma evictable_filter p free l :
  pool_core p free → (∀ q, q ∈ l → valid p q) →
  List.filter (evictable p) l = evictable_blocks p l.
Proof.
  intros Hc Hv. unfold evictable_blocks. induction l as [|q l IH]; [done|]. simpl.
  rewrite filter_cons, IH by (intros x Hx; apply Hv; by right).
  destruct (Hv q) as (i & -> & Hi); [left|]. apply (pc_store _ _ Hc) in Hi as [b Hb].
  destruct (pc_meta _ _ Hc _ _ Hb) as [_ Hnl]. unfold evictable, unreferenced, blk_ref.
  rewrite Hb, Hnl. destruct (decide (ref_cnt b = 0)); destruct (decide (Blk i = null_block p)).
  - rewrite !bool_decide_eq_true_2 by done. by rewrite decide_False by tauto.
  - rewrite bool_decide_eq_true_2, bool_decide_eq_false_2 by done. by rewrite decide_True by tauto.
  - rewrite bool_decide_eq_false_2 by done. by rewrite decide_False by tauto.
  - rewrite bool_decide_eq_false_2 by done. by rewrite decide_False by tauto.
Qed.

Lemma get_num_blocks_to_allocate_spec p free m rid nt new :
  pool_core p free → (∀ q, q ∈ new → valid p q) →
  wp (get_num_blocks_to_allocate rid nt new) (λ n s, fst s = p ∧
    mgr_upd m (snd s) rid (blocks_of m rid) (num_cached_block m !! rid) ∧
    n = cdiv nt (manager_block_size m) - len new - len (blocks_of m rid)
        + len (evictable_blocks p new)) (p, m).
Proof.
  intros Hc Hv. unfold get_num_blocks_to_allocate. wp_steps.
  apply wp_read_blocks. intros m' Hm'. wp_steps. simpl. csplit; [done|done|].
  by erewrite evictable_filter.
Qed.

Lemma save_new_computed_blocks_spec p m rid new :
  (num_cached_block m !! rid = None → blocks_of m rid = []) →
  (is_Some (num_cached_block m !! rid) → new = []) →
  wp (save_new_computed_blocks rid new) (λ _ s, fst s = p ∧
    mgr_upd m (snd s) rid (blocks_of m rid ++ new)
      (Some (default (len new) (num_cached_block m !! rid)))) (p, m).
Proof.
  intros Hfresh Hrun. unfold save_new_computed_blocks. wp_steps. simpl.
  destruct (num_cached_block m !! rid) as [nc|] eqn:Hnc.
  - rewrite (Hrun (mk_is_Some _ _ eq_refl)). wp_steps; [done|].
    simpl. split; [done|]. rewrite app_nil_r, <- Hnc. apply mgr_upd_refl.
  - apply wp_bind, wp_read_blocks. intros m1 H1. unfold write_blocks, modify_manager.
    wp_steps; [by rewrite Hfresh|]. wp_steps. simpl. split; [done|].
    pose proof (mgr_upd_trans _ _ _ _ _ _ _ _ H1 (mgr_upd_write m1 rid (blocks_of m rid ++ new))) as H2.
    pose proof (mgr_upd_trans _ _ _ _ _ _ _ _ H2 (mgr_upd_count _ rid (len new))) as H3.
    by rewrite (mgr_upd_blocks _ _ _ _ _ H2) in H3.
Qed.

(** The number of blocks a call of [allocate_new_blocks] takes from the pool. *)
Definition missing_blocks m rid (num_tokens : Z) : Z :=
  Z.max 0 (cdiv num_tokens (manager_block_size m) - len (blocks_of m rid)).

Lemma allocate_new_blocks_base_spec p m rid nt new rest :
  pool_inv p (new ++ rest) → len new = missing_blocks m rid nt →
  wp (allocate_new_blocks_base rid nt) (λ r s, r = new ∧ pool_inv (fst s) rest ∧
    pool_upd p (fst s) (λ q, if decide (q ∈ new) then 1 else blk_ref p q)
      (λ q, if decide (q ∈ new ∧ BlockPool.enable_caching p = true) then None else blk_hash p q) ∧
    mgr_upd m (snd s) rid (blocks_of m rid ++ new) (num_cached_block m !! rid)) (p, m).
Proof.
  intros Hp Hn. unfold allocate_new_blocks_base. apply wp_bind, wp_read_blocks. intros m1 H1.
  wp_steps. simpl. unfold missing_blocks in Hn. unfold manager_block_size in *.
  pose proof H1 as (_ & Hspec & _ & _ & _ & Hnc). rewrite Hspec.
  case_decide as Hle.
  - assert (new = []) as -> by (destruct new; [done|rewrite len_cons in Hn; pose proof (len_nonneg new); lia]).
    apply wp_ret. simpl. csplit; [done|done| |].
    + by eapply pool_upd_ext; [apply pool_upd_refl|..].
    + by rewrite app_nil_r.
  - apply wp_bind, wp_on_pool. rewrite Z.max_r in Hn by lia. rewrite <- Hn.
    eapply wp_mono; [by apply get_new_blocks_spec|]. intros r p1 (-> & Hp1 & Hu1).
    unfold write_blocks, modify_manager. wp_steps. simpl. csplit; [done|done|done|].
    eapply mgr_upd_trans; [exact H1|].
    pose proof (mgr_upd_write m1 rid (blocks_of m rid ++ new)) as Hw.
    by rewrite Hnc, decide_True in Hw.
Qed.

Lemma allocate_new_blocks_spec p m rid nt new rest :
  pool_inv p (new ++ rest) → len new = missing_blocks m rid nt →
  (manager_cls m = MambaManager → len (blocks_of m rid ++ new) = 1) →
  wp (allocate_new_blocks rid nt) (λ r s, r = new ∧ pool_inv (fst s) rest ∧
    pool_upd p (fst s) (λ q, if decide (q ∈ new) then 1 else blk_ref p q)
      (λ q, if decide (q ∈ new ∧ BlockPool.enable_caching p = true) then None else blk_hash p q) ∧
    mgr_upd m (snd s) rid (blocks_of m rid ++ new) (num_cached_block m !! rid)) (p, m).
Proof.
  intros Hp Hn Hmamba. unfold allocate_new_blocks. apply wp_bind.
  eapply wp_mono; [by apply allocate_new_blocks_base_spec|]. intros r [p1 m1] (-> & Hp1 & Hu1 & Hm1).
  simpl in Hp1, Hu1, Hm1. wp_steps. simpl. pose proof Hm1 as (Hcls & _). rewrite Hcls.
  destruct (manager_cls m); try (by apply wp_ret). apply wp_bind, wp_read_blocks. intros m2 Hm2.
  rewrite (mgr_upd_blocks _ _ _ _ _ Hm1) in *. rewrite (mgr_upd_cached _ _ _ _ _ Hm1) in Hm2.
  wp_steps; [apply bool_decide_eq_true_2; by apply Hmamba|]. simpl. csplit; try done.
  by eapply mgr_upd_trans.
Qed.

Lemma filter_reverse_nodup (P : ptr → Prop) `{∀ x, Decision (P x)} l :
  NoDup (filter P l) → NoDup (filter P (reverse l)).
Proof. rewrite filter_reverse. by rewrite (reverse_Permutation (filter P l)). Qed.

Lemma free_spec p free m rid :
  pool_inv p free → (∀ q, q ∈ blocks_of m rid → valid p q) →
  NoDup (filter (.≠ null_block p) (blocks_of m rid)) →
  (∀ q, q ∈ blocks_of m rid → q ≠ null_block p → 0 < blk_ref p q) →
  wp (SingleTypeManager.free rid) (λ _ s,
    pool_inv (fst s) (free ++ released p (reverse (blocks_of m rid))) ∧
    pool_upd p (fst s) (λ q, blk_ref p q - occ q (blocks_of m rid)) (blk_hash p) ∧
    mgr_upd m (snd s) rid [] None) (p, m).
Proof.
  intros Hp Hv Hnd Hpos. unfold SingleTypeManager.free, modify_manager. wp_steps. apply wp_on_pool. simpl.
  eapply wp_mono; [apply free_blocks_spec; [exact Hp|..]|].
  - intros q Hq. apply Hv. by apply elem_of_reverse.
  - by apply filter_reverse_nodup.
  - intros q Hq. apply Hpos. by apply elem_of_reverse.
  - intros _ p1 (Hp1 & Hu1). wp_steps. simpl. csplit; [done| |].
    + eapply pool_upd_ext; [done| |done]. intros q. cbn beta. by rewrite occ_reverse.
    + pose proof (mgr_upd_trans _ _ _ _ _ _ _ _ (mgr_upd_forget_blocks m rid)
        (mgr_upd_forget_count _ rid)) as H.
      by rewrite (mgr_upd_blocks _ _ _ _ _ (mgr_upd_forget_blocks m rid)) in H.
Qed.
End effects.

(** ** Skipped blocks *)

(** [l'] is [l] with the blocks [removed], all before index [first], replaced by the
    null block. *)
Record skipped (null : ptr) (first : nat) (l l' removed : list ptr) : Prop := {
  sk_length : length l' = length l;
  sk_kept : ∀ i, (first <= i)%nat → l' !! i = l !! i;
  sk_entries : ∀ i q, l' !! i = Some q → q = null ∨ l !! i = Some q;
  sk_removed : ∀ q, q ∈ removed → q ≠ null ∧ q ∈ l;
  sk_occ : ∀ q, q ≠ null → occ q l' = occ q l - occ q removed;
  sk_all : (∀ i j, (j <= i < first)%nat → l !! i = Some null → l !! j = Some null) →
    ∀ i, (i < first)%nat → (i < length l)%nat → l' !! i = Some null
}.

Section skipping.
Implicit Types (p : BlockPool) (m : SingleTypeKVCacheManager) (l : list ptr).

Lemma skipped_nothing null l k : 
  (k = 0%nat ∨ l !! (k - 1)%nat = Some null) → skipped null k l l [].
Proof.
  intros Hk. split; try done.
  - intros i q. auto.
  - by intros q ?%not_elem_of_nil.
  - intros q _. rewrite occ_nil. lia.
  - intros Hall i Hi _. destruct Hk as [->|Hk]; [lia|]. eapply (Hall (k - 1)%nat); [lia|done].
Qed.

Lemma skipped_one null l l' removed k b :
  l !! k = Some b → b ≠ null →
  skipped null k (<[k := null]> l) l' removed → skipped null (S k) l l' (b :: removed).
Proof.
  intros Hb Hbn [Hlen Hkept Hent Hrem Hocc Hall]. rewrite length_insert in Hlen.
  pose proof (lookup_lt_Some _ _ _ Hb) as Hlt. split.
  - done.
  - intros i Hi. rewrite Hkept by lia. by rewrite list_lookup_insert_ne by lia.
  - intros i q Hq. destruct (Hent i q Hq) as [->|Hq2]; [by left|].
    apply list_lookup_insert_Some in Hq2 as [(_ & <- & _)|[_ ?]]; auto.
  - intros q [->|Hq]%elem_of_cons; [split; [done|by eapply list_elem_of_lookup_2]|].
    destruct (Hrem q Hq) as [Hqn Hin]. split; [done|].
    apply list_elem_of_lookup_1 in Hin as [i Hi]. apply list_lookup_insert_Some in Hi as [(_ & <- & _)|[_ ?]]; [done|].
    by eapply list_elem_of_lookup_2.
  - intros q Hq. rewrite (Hocc q Hq), (occ_insert _ _ _ _ _ Hb), occ_cons.
    rewrite (decide_False (P := q = null)) by done. lia.
  - intros Hpre i Hi Hil. rewrite length_insert in Hall. destruct (decide (i = k)) as [->|Hik].
    + rewrite Hkept by lia. rewrite list_lookup_insert_eq; [done|lia].
    + apply Hall; [|lia|lia]. intros i' j' Hj' Hi'. rewrite list_lookup_insert_ne in Hi' by lia.
      rewrite list_lookup_insert_ne by lia. eapply Hpre; [|exact Hi']. lia.
Qed.

Lemma skip_loop_spec null k : ∀ l acc,
  (k <= length l)%nat →
  ∃ l' removed, skip_loop null (range_down (Z.of_nat k)) l acc = Ok (l', acc ++ removed) ∧
    skipped null k l l' removed.
Proof.
  induction k as [|k IH]; intros l acc Hk.
  { exists l, []. rewrite app_nil_r. split; [done|]. apply skipped_nothing. auto. }
  rewrite range_down_S. cbn [skip_loop].
  destruct (lookup_lt_is_Some_2 l k) as [b Hb]; [lia|]. rewrite (py_index_lookup l k b Hb).
  cbn [mbind outcome_bind]. case_decide as Hbn; subst.
  - exists l, []. rewrite app_nil_r. split; [done|]. apply skipped_nothing. right.
    by replace (S k - 1)%nat with k by lia.
  - rewrite Nat2Z.id. destruct (IH (<[k := null]> l) (acc ++ [b])) as (l' & rem & -> & Hsk);
      [rewrite length_insert; lia|]. exists l', (b :: rem). rewrite <- app_assoc.
    split; [done|]. by apply skipped_one.
Qed.

Lemma skipped_valid null k l l' removed (P : ptr → Prop) :
  skipped null k l l' removed → P null → (∀ q, q ∈ l → P q) → ∀ q, q ∈ l' → P q.
Proof.
  intros Hs Hn Hl q (i & Hi)%list_elem_of_lookup_1. destruct (sk_entries _ _ _ _ _ Hs _ _ Hi) as [->|Hi']; [done|].
  by eapply Hl, list_elem_of_lookup_2.
Qed.
Lemma skipped_occ_null null k l l' removed : skipped null k l l' removed → occ null removed = 0.
Proof.
  intros Hs. apply occ_zero. intros Hin. by apply (sk_removed _ _ _ _ _ Hs) in Hin as [? _].
Qed.
Lemma skipped_nodup null k l l' removed :
  skipped null k l l' removed → NoDup (filter (.≠ null) l) →
  NoDup (filter (.≠ null) l') ∧ NoDup (filter (.≠ null) removed).
Proof.
  intros Hs Hnd. split; eapply occ_le_nodup; try exact Hnd; intros q; rewrite !occ_filter;
    (destruct (decide (q ≠ null)) as [Hq|]; [|done]); pose proof (sk_occ _ _ _ _ _ Hs q Hq).
  - pose proof (occ_nonneg q removed). lia.
  - pose proof (occ_nonneg q l'). lia.
Qed.

(** The index of the first block a class keeps. *)
Definition first_useful_block m (rid : string) (c : Z) : Z :=
  match manager_cls m with
  | FullAttentionManager | MambaManager => 0
  | SlidingWindowManager => (c - manager_window m + 1) / manager_block_size m
  | ChunkedLocalAttentionManager =>
    let nc := default 0 (num_cached_block m !! rid) in
    let first := c / manager_chunk m * manager_chunk m / manager_block_size m in
    if decide (nc > 0) then Z.min first (nc - 1) else first
  end.

Definition skip_post p free m rid c (s : ManagerState) : Prop :=
  ∃ l' removed,
    skipped (null_block p) (Z.to_nat (first_useful_block m rid c)) (blocks_of m rid) l' removed ∧
    pool_inv (fst s) (free ++ released p removed) ∧
    pool_upd p (fst s) (λ q, blk_ref p q - occ q removed) (blk_hash p) ∧
    mgr_upd m (snd s) rid l' (num_cached_block m !! rid).

Lemma replace_skipped_spec p free m rid first :
  pool_inv p free → _null_block m = null_block p → valid p (null_block p) →
  (∀ q, q ∈ blocks_of m rid → valid p q) →
  NoDup (filter (.≠ null_block p) (blocks_of m rid)) →
  (∀ q, q ∈ blocks_of m rid → q ≠ null_block p → 0 < blk_ref p q) →
  first <= len (blocks_of m rid) →
  wp (replace_skipped rid first) (λ _ s, ∃ l' removed,
    skipped (null_block p) (Z.to_nat first) (blocks_of m rid) l' removed ∧
    pool_inv (fst s) (free ++ released p removed) ∧
    pool_upd p (fst s) (λ q, blk_ref p q - occ q removed) (blk_hash p) ∧
    mgr_upd m (snd s) rid l' (num_cached_block m !! rid)) (p, m).
Proof.
  intros Hp Hnull Hvn Hv Hnd Hpos Hfirst. unfold replace_skipped. apply wp_bind, wp_read_blocks.
  intros m1 H1. wp_steps. simpl. pose proof H1 as (_ & _ & _ & Hn1 & _). rewrite Hn1, Hnull.
  assert (Hlen : (Z.to_nat first <= length (blocks_of m rid))%nat) by (unfold len in Hfirst; lia).
  destruct (skip_loop_spec (null_block p) (Z.to_nat first) (blocks_of m rid) [] Hlen)
    as (l' & removed & Hloop & Hsk).
  replace (range_down (Z.of_nat (Z.to_nat first))) with (range_down first) in Hloop.
  2: { destruct (decide (first <= 0)); [|by rewrite Z2Nat.id by lia]. by rewrite !range_down_neg by lia. }
  eapply wp_lift_outcome; [exact Hloop|]. unfold write_blocks, modify_manager. wp_steps. apply wp_on_pool. simpl.
  pose proof (skipped_nodup _ _ _ _ _ Hsk Hnd) as [_ Hndr].
  eapply wp_mono; [apply free_blocks_spec; [exact Hp| |exact Hndr|]|].
  - intros q Hq. apply Hv. by apply (sk_removed _ _ _ _ _ Hsk).
  - intros q Hq. apply Hpos. by apply (sk_removed _ _ _ _ _ Hsk).
  - intros _ p1 (Hp1 & Hu1). exists l', removed. simpl. csplit; [done|done|done|].
    pose proof (mgr_upd_trans _ _ _ _ _ _ _ _ H1 (mgr_upd_write m1 rid l')) as H2.
    by rewrite (mgr_upd_cached _ _ _ _ _ H1) in H2.
Qed.

Lemma remove_skipped_blocks_spec p free m rid c :
  pool_inv p free → _null_block m = null_block p → valid p (null_block p) →
  (∀ q, q ∈ blocks_of m rid → valid p q) →
  NoDup (filter (.≠ null_block p) (blocks_of m rid)) →
  (∀ q, q ∈ blocks_of m rid → q ≠ null_block p → 0 < blk_ref p q) →
  first_useful_block m rid c <= len (blocks_of m rid) →
  wp (remove_skipped_blocks rid c) (λ _ s, skip_post p free m rid c s) (p, m).
Proof.
  intros Hp Hnull Hvn Hv Hnd Hpos Hfirst. unfold remove_skipped_blocks. wp_steps. simpl.
  unfold skip_post, first_useful_block in *.
  assert (Hid : ∃ l' removed, skipped (null_block p) 0 (blocks_of m rid) l' removed ∧
    pool_inv p (free ++ released p removed) ∧
    pool_upd p p (λ q, blk_ref p q - occ q removed) (blk_hash p) ∧
    mgr_upd m m rid l' (num_cached_block m !! rid)).
  { exists (blocks_of m rid), []. csplit; [apply skipped_nothing; auto| | |apply mgr_upd_refl].
    - by rewrite app_nil_r.
    - eapply pool_upd_ext; [apply pool_upd_refl| |done]. intros q. rewrite occ_nil. lia. }
  destruct (manager_cls m); try (by apply wp_ret); by apply replace_skipped_spec.
Qed.

Section with_hash.
Context (hash_function : Z * list Z * option (list extra_key) → Z) (NONE_HASH : Z).

Lemma cache_blocks_spec p free m (r : Request) hs (nc nf : nat) n :
  pool_inv p free → num_cached_block m !! request_id r = Some (Z.of_nat nc) →
  n / manager_block_size m = Z.of_nat nf →
  cacheable hash_function NONE_HASH p r (blocks_of m (request_id r)) hs nc nf (manager_block_size m) →
  (enable_kv_cache_events p = true → lora_request r = None) →
  wp (cache_blocks hash_function NONE_HASH r hs n) (λ hs' s,
    full_blocks_cached hash_function NONE_HASH p free r (blocks_of m (request_id r)) hs nc nf
      (manager_block_size m) (kv_cache_group_id m) hs' (fst s) ∧
    mgr_upd m (snd s) (request_id r) (blocks_of m (request_id r)) (Some (Z.of_nat nf))) (p, m).
Proof.
  intros Hp Hnc Hnf Hca Hev. unfold cache_blocks. wp_steps. simpl. rewrite Hnc. wp_steps. simpl.
  apply wp_read_blocks. intros m1 H1. wp_steps. simpl. rewrite Hnf.
  pose proof H1 as (_ & _ & Hg & _). rewrite Hg. apply wp_on_pool.
  eapply wp_mono; [by apply cache_full_blocks_spec|]. intros hs' p1 Hfull. unfold modify_manager. wp_steps. simpl.
  split; [done|].
  pose proof (mgr_upd_trans _ _ _ _ _ _ _ _ H1 (mgr_upd_count m1 (request_id r) (Z.of_nat nf))) as H2.
  by rewrite (mgr_upd_blocks _ _ _ _ _ H1) in H2.
Qed.
End with_hash.
End skipping.

(** ** The longest cache hit *)

(** A block hash hits when every group has a block for it. *)
Definition hits (p : BlockPool) (gs : list Z) (h : BlockHash) : Prop := is_Some (cached_hit p h gs).

(** The block a group gets for the hash at index [i]. *)
Definition hit_entry (p : BlockPool) (hs : list BlockHash) (g : Z) (i : nat) (q : ptr) : Prop :=
  valid p q ∧ ∃ h, hs !! i = Some h ∧ blk_hash p q = Some (mkBlockHashWithGroupId h g).

Section columns.
Implicit Types (p : BlockPool) (gs : list Z) (cols : list (list ptr)).

Lemma cached_hit_sound p free h gs bs :
  pool_core p free → cached_hit p h gs = Some bs →
  Forall2 (λ g q, valid p q ∧ blk_hash p q = Some (mkBlockHashWithGroupId h g)) gs bs.
Proof.
  intros Hc Hh. unfold cached_hit in Hh. destruct (get_cached_block p h gs) as [l|] eqn:E; [|done].
  eapply get_cached_block_sound; [done|]. destruct l; [done|]. by rewrite E, Hh.
Qed.

(** With at least one group, a miss is a miss of [get_cached_block]. *)
Lemma hits_iff p free gs h :
  pool_core p free → gs ≠ [] →
  hits p gs h ↔ ∀ g, g ∈ gs → ∃ q, valid p q ∧ blk_hash p q = Some (mkBlockHashWithGroupId h g).
Proof.
  intros Hc Hgs. unfold hits, cached_hit. pose proof (get_cached_block_complete p free h gs Hc) as Hiff.
  destruct (get_cached_block p h gs) as [bs|] eqn:E.
  - pose proof (get_cached_block_sound _ _ _ _ _ Hc E) as HF. split.
    + intros _ g Hg. apply list_elem_of_lookup_1 in Hg as [i Hi].
      destruct (Forall2_lookup_l _ _ _ _ _ HF Hi) as (q & _ & ? & ?). eauto.
    + intros _. destruct bs; [|by eexists]. by apply Forall2_nil_inv_r in HF.
  - split; [by intros [??]|]. intros Hall. destruct Hiff as [Hiff _].
    destruct (Hiff eq_refl) as (g & Hg & Hno). destruct (Hall g Hg) as (q & Hv & Hq). by destruct (Hno q Hv).
Qed.

Lemma combine_each_Forall2 (f : list ptr → ptr → list ptr) (R : Z → list ptr → Prop) (Sb : Z → ptr → Prop)
    (R' : Z → list ptr → Prop) gs cols bs :
  Forall2 R gs cols → Forall2 Sb gs bs → (∀ g c b, R g c → Sb g b → R' g (f c b)) →
  Forall2 R' gs (zip_with f cols bs ++ drop (length bs) cols).
Proof.
  intros HR. revert bs. induction HR as [|g c gs cols Hc HR IH]; intros bs HS Hf; inversion HS; subst; simpl.
  - constructor.
  - constructor; [by apply Hf|by apply IH].
Qed.

Lemma Forall2_fmap_cols (f : list ptr → list ptr) (R R' : Z → list ptr → Prop) gs cols :
  Forall2 R gs cols → (∀ g c, R g c → R' g (f c)) → Forall2 R' gs (f <$> cols).
Proof. intros H Hf. induction H; simpl; constructor; auto. Qed.

Lemma nulls_Forall2 p n gs : Forall2 (λ _ c, c = replicate (Z.to_nat n) (null_block p)) gs (nulls p n gs).
Proof. unfold nulls. induction gs; simpl; by constructor. Qed.
End columns.

Section full_hit.
Implicit Types (p : BlockPool) (gs : list Z) (hs : list BlockHash).

(** [k] blocks per group, the ones the hashes name. *)
Definition full_columns p hs gs k cols : Prop :=
  Forall2 (λ g c, length c = k ∧ ∀ i q, c !! i = Some q → hit_entry p hs g i q) gs cols.

(** The loop extends every column as long as the hashes hit. *)
Lemma full_hit_loop_spec p free gs todo : ∀ done cols,
  pool_core p free → full_columns p (done ++ todo) gs (length done) cols →
  ∃ k, (length done <= k <= length (done ++ todo))%nat ∧
    full_columns p (done ++ todo) gs k (full_hit_loop p gs todo cols) ∧
    (∀ i h, (length done <= i < k)%nat → (done ++ todo) !! i = Some h → hits p gs h) ∧
    (∀ h, (done ++ todo) !! k = Some h → ¬ hits p gs h).
Proof.
  induction todo as [|h todo IH]; intros done cols Hc Hcols; cbn [full_hit_loop].
  { exists (length done). rewrite app_nil_r in *. split_and!; [lia|lia|done|intros; lia|].
    intros h Hh. apply lookup_lt_Some in Hh. lia. }
  destruct (cached_hit p h gs) as [bs|] eqn:Hh.
  - rewrite cons_middle, (app_assoc done) in *.
    assert (Hi : (done ++ [h]) !! length done = Some h) by (by rewrite lookup_app_r, Nat.sub_diag by lia).
    destruct (IH (done ++ [h]) (append_each cols bs) Hc) as (k & Hk & Hres & Hhits & Hmax).
    { eapply combine_each_Forall2; [exact Hcols|by eapply cached_hit_sound|].
      intros g c b [Hlen Hent] [Hv Hb]. rewrite !length_app, Hlen. split; [done|].
      intros i q Hq. apply lookup_app_Some in Hq as [Hq|[Hge Hq]]; [by apply Hent|].
      apply list_lookup_singleton_Some in Hq as [Hi0 <-]. split; [done|]. exists h.
      split; [|done]. rewrite lookup_app_l by (rewrite length_app; simpl; lia).
      by replace i with (length done) by lia. }
    rewrite length_app in Hk, Hhits. simpl in *. exists k. split_and!; [lia|lia|done| |done].
    intros i h' Hi' Hlook. destruct (decide (i = length done)) as [->|]; [|apply (Hhits i); [lia|done]].
    rewrite lookup_app_l in Hlook by (rewrite length_app; simpl; lia). simplify_eq. by eexists.
  - exists (length done). rewrite length_app. simpl. split_and!; [lia|lia|done|intros; lia|].
    intros h' Hlook. rewrite lookup_app_r, Nat.sub_diag in Hlook by lia. simplify_eq/=.
    unfold hits. rewrite Hh. by intros [??].
Qed.

(** Dropping the last block of every column. *)
Lemma drop_last_spec p hs gs k cols (use_eagle : bool) :
  gs ≠ [] → full_columns p hs gs k cols →
  ∃ cols', drop_last_for_eagle use_eagle cols = Ok cols' ∧
    full_columns p hs gs (if use_eagle then pred k else k) cols'.
Proof.
  intros Hgs Hcols. unfold drop_last_for_eagle. destruct use_eagle; [|by eauto].
  destruct gs as [|g gs]; [done|]. destruct cols as [|c cols]; [by inversion Hcols|].
  rewrite (py_index_lookup _ 0 c) by done. cbn [mbind outcome_bind].
  pose proof Hcols as Hc0. apply Forall2_cons in Hc0 as [[Hlen _] _].
  destruct c as [|q c].
  - simpl in Hlen. subst k. eauto.
  - unfold pop_each. set (all := (q :: c) :: cols) in *.
    assert (forallb (λ c, bool_decide (c ≠ [])) all = true) as ->.
    { apply forallb_forall. intros c' Hin. apply list_elem_of_In, list_elem_of_lookup_1 in Hin as [i Hi].
      apply bool_decide_eq_true_2. destruct (Forall2_lookup_r _ _ _ _ _ Hcols Hi) as (g' & _ & Hl & _).
      intros ->. simpl in *. by rewrite <- Hl in Hlen. }
    eexists. split; [done|]. eapply Forall2_fmap_cols; [exact Hcols|]. intros g' c' [Hl Hent].
    destruct c' as [|x c' _] using rev_ind; [simpl in *; by subst|].
    rewrite removelast_snoc. rewrite length_app in Hl. simpl in Hl. split; [lia|].
    intros i b Hb. apply Hent. by apply lookup_app_l_Some.
Qed.

(** [FullAttentionManager.find_longest_cache_hit] returns for every group the
    blocks of the longest prefix of the hashes, within [max_length], that all
    groups have cached; with EAGLE one block less. *)
Lemma find_longest_cache_hit_full_spec p free hs max_length gs s use_eagle :
  pool_core p free → gs ≠ [] → is_full_attention s || is_chunked_local s = true →
  0 < block_size s → 0 <= max_length →
  ∃ cols k, find_longest_cache_hit_full hs max_length gs p s use_eagle = Ok cols ∧
    (k <= length hs)%nat ∧ Z.of_nat k <= max_length / block_size s ∧
    full_columns p hs gs (if use_eagle then pred k else k) cols ∧
    (∀ i h, (i < k)%nat → hs !! i = Some h → hits p gs h) ∧
    (∀ h, Z.of_nat k < max_length / block_size s → hs !! k = Some h → ¬ hits p gs h).
Proof.
  intros Hc Hgs Hs Hbs Hmax. unfold find_longest_cache_hit_full. rewrite Hs.
  set (n := max_length / block_size s). assert (0 <= n) by by apply Z.div_pos.
  rewrite decide_False by lia. unfold slice_to, slice_bound. rewrite decide_False by lia.
  set (pre := take (Z.to_nat n) hs).
  destruct (full_hit_loop_spec p free gs pre [] (nulls p 0 gs) Hc) as (k & Hk & Hcols & Hhits & Hmiss).
  { eapply Forall2_impl; [apply nulls_Forall2|]. intros g c ->. by split. }
  simpl in *. unfold pre in Hk. rewrite length_take in Hk.
  assert (Hcols' : full_columns p hs gs k (full_hit_loop p gs pre (nulls p 0 gs))).
  { eapply Forall2_impl; [exact Hcols|]. intros g c [Hl Hent]. split; [done|].
    intros i q Hq. destruct (Hent i q Hq) as (Hv & h & Hh & Hb). split; [done|]. exists h.
    split; [|done]. by apply lookup_take_Some in Hh as [??]. }
  destruct (drop_last_spec p hs gs k _ use_eagle Hgs Hcols') as (cols' & -> & Hres).
  exists cols', k. split_and!; [done|lia|lia|done| |].
  - intros i h Hi Hh. apply (Hhits i); [lia|]. unfold pre. rewrite lookup_take_lt by lia. done.
  - intros h Hlt Hh. apply Hmiss. unfold pre. rewrite lookup_take_lt by lia. done.
Qed.
End full_hit.

Section window_hit.
Implicit Types (p : BlockPool) (gs : list Z) (hs : list BlockHash) (k n K N need : nat).

(** A column while indices below [k] remain to be tried and the [n] ones from
    [k] on are hits. *)
Definition window_column p hs N k n (g : Z) (c : list ptr) : Prop :=
  length c = N ∧
  (∀ i q, c !! i = Some q → q = null_block p ∨ hit_entry p hs g i q) ∧
  (∀ i q, (k <= i < k + n)%nat → c !! i = Some q → hit_entry p hs g i q).

(** A result column: [K] blocks, null or hits, the last [need] of them hits. *)
Definition window_result p hs need K (g : Z) (c : list ptr) : Prop :=
  length c = K ∧
  (∀ i q, c !! i = Some q → q = null_block p ∨ hit_entry p hs g i q) ∧
  (∀ i q, (K - need <= i)%nat → c !! i = Some q → hit_entry p hs g i q).

(** Some hash among the last [need] before [K] misses. *)
Definition window_misses p gs hs need K : Prop :=
  ∃ i h, (K - need <= i < K)%nat ∧ hs !! i = Some h ∧ ¬ hits p gs h.

Lemma window_column_hit p free h gs hs N k n cols bs :
  pool_core p free → hs !! k = Some h → cached_hit p h gs = Some bs → (k < N)%nat →
  Forall2 (window_column p hs N (S k) n) gs cols →
  Forall2 (window_column p hs N k (S n)) gs (assign_each (Z.of_nat k) cols bs).
Proof.
  intros Hc Hk Hh HkN Hcols. eapply combine_each_Forall2; [exact Hcols|by eapply cached_hit_sound|].
  intros g c b (Hlen & Hent & Hrun) [Hv Hb]. rewrite Nat2Z.id.
  assert (Hhit : hit_entry p hs g k b) by (split; eauto).
  split_and!.
  - by rewrite length_insert.
  - intros i q [(-> & <- & _)|[_ Hq]]%list_lookup_insert_Some; [by right|by apply Hent].
  - intros i q Hi [(-> & <- & _)|[Hne Hq]]%list_lookup_insert_Some; [done|]. apply (Hrun i); [lia|done].
Qed.

Lemma window_column_miss p hs N k n g c :
  window_column p hs N (S k) n g c → window_column p hs N k 0 g c.
Proof. intros (? & ? & _). split_and!; [done|done|]. intros; lia. Qed.

Lemma window_column_take p hs N k n need g c :
  (k + n <= N)%nat → (n <= need)%nat → (need <= n ∨ k = 0%nat)%nat → window_column p hs N k n g c →
  window_result p hs need (k + n) g (take (k + n) c).
Proof.
  intros Hkn Hn Hor (Hlen & Hent & Hrun). split_and!.
  - rewrite length_take. lia.
  - intros i q [Hq _]%lookup_take_Some. by apply Hent.
  - intros i q Hi [Hq Hlt]%lookup_take_Some. apply (Hrun i); [lia|done].
Qed.

Lemma window_hit_loop_spec p free gs hs need (needed : Z) N k : ∀ n cols,
  pool_core p free → need = Z.to_nat (Z.max 1 needed) →
  (k + n <= N)%nat → (N <= length hs)%nat → (n < need)%nat →
  Forall2 (window_column p hs N k n) gs cols →
  (∀ K, (k + n < K <= N)%nat → window_misses p gs hs need K) →
  ∃ cols' (n' : Z) (b : bool) K,
    window_hit_loop p gs hs needed (range_down (Z.of_nat k)) cols (Z.of_nat n) = Ok (cols', n', b) ∧
    Forall2 (window_result p hs need K) gs (if b then cols' else take (Z.to_nat n') <$> cols') ∧
    (K <= N)%nat ∧ ∀ K', (K < K' <= N)%nat → window_misses p gs hs need K'.
Proof.
  induction k as [|k IH]; intros n cols Hc Hneed Hkn HN Hn Hcols Hmiss.
  - exists cols, (Z.of_nat n), false, n. simpl. rewrite Nat2Z.id. split_and!; [done| |lia|done].
    eapply Forall2_fmap_cols; [exact Hcols|]. intros g c Hcol.
    apply (window_column_take p hs N 0 n); [lia|lia|by right|done].
  - rewrite range_down_S. cbn [window_hit_loop].
    destruct (lookup_lt_is_Some_2 hs k) as [h Hh]; [lia|]. rewrite (py_index_lookup _ _ _ Hh).
    cbn [mbind outcome_bind]. destruct (cached_hit p h gs) as [bs|] eqn:Hhit.
    + assert (HkN : (k < N)%nat) by lia.
      pose proof (window_column_hit _ _ _ _ _ _ _ _ _ _ Hc Hh Hhit HkN Hcols) as Hcols'.
      case_decide as Hfound.
      * exists (take (Z.to_nat (Z.of_nat k + (Z.of_nat n + 1))) <$> assign_each (Z.of_nat k) cols bs),
          (Z.of_nat n + 1), true, (k + S n)%nat.
        split_and!; [done| |lia|]. 
        -- eapply Forall2_fmap_cols; [exact Hcols'|]. intros g c Hcol.
           replace (Z.to_nat (Z.of_nat k + (Z.of_nat n + 1))) with (k + S n)%nat by lia.
           apply (window_column_take p hs N); [lia|lia|left; lia|done].
        -- intros K' HK'. apply Hmiss. lia.
      * replace (Z.of_nat n + 1) with (Z.of_nat (S n)) by lia.
        apply IH; try done; try lia. intros K' HK'. apply Hmiss. lia.
    + change 0 with (Z.of_nat 0). apply IH; try done; try lia.
      * eapply Forall2_impl; [exact Hcols|]. intros g c. apply window_column_miss.
      * intros K' HK'. destruct (decide (S k + n < K')%nat); [apply Hmiss; lia|].
        exists k, h. split_and!; [lia|lia|done|]. unfold hits. rewrite Hhit. by intros [??].
Qed.

(** Without EAGLE the result is a hit for the layer: its last blocks, as many as
    the window reaches back, are cached for every group, and no longer result
    within [max_length] would be. *)
Lemma find_longest_cache_hit_window_spec p free hs max_length gs a window (use_eagle : bool)
    (need := Z.to_nat (Z.max 1 (cdiv (window - 1) (attn_block_size a) + (if use_eagle then 1 else 0)))) :
  pool_core p free → gs ≠ [] → 0 < attn_block_size a → 0 <= max_length →
  max_length / attn_block_size a <= len hs →
  ∃ cols K, find_longest_cache_hit_window hs max_length gs p (SlidingWindowSpec a window) use_eagle
      = drop_last_for_eagle use_eagle cols ∧
    Forall2 (window_result p hs need K) gs cols ∧ Z.of_nat K <= max_length / attn_block_size a ∧
    ∀ K', (K < K')%nat → Z.of_nat K' <= max_length / attn_block_size a → window_misses p gs hs need K'.
Proof.
  intros Hc Hgs Hbs Hmax Hhs. unfold find_longest_cache_hit_window. cbn [block_size].
  set (n := max_length / attn_block_size a) in *. assert (0 <= n) by by apply Z.div_pos.
  destruct (window_hit_loop_spec p free gs hs need
    (cdiv (window - 1) (attn_block_size a) + (if use_eagle then 1 else 0)) (Z.to_nat n) (Z.to_nat n) 0
    (nulls p n gs)) as (cols' & n' & b & K & Hloop & Hres & HK & Hmiss); try done; try lia.
  { unfold len in Hhs. lia. }
  { eapply Forall2_impl; [apply nulls_Forall2|]. intros g c ->. split_and!.
    - by rewrite length_replicate.
    - intros i q [-> _]%lookup_replicate. by left.
    - intros i q Hi. lia. }
  rewrite Z2Nat.id in Hloop by done. change (Z.of_nat 0) with 0 in Hloop. rewrite Hloop.
  cbn [mbind outcome_bind]. eexists _, K. split_and!; [done|exact Hres|lia|].
  intros K' ??. apply Hmiss. lia.
Qed.
End window_hit.

(** * Who holds a block *)

(** How often the block tables of a manager mention a block. *)
Definition table_occ (q : ptr) (t : gmap string (list ptr)) : Z :=
  map_fold (λ _ l n, occ q l + n) 0 t.

Section tables.
Implicit Types (q : ptr) (t : gmap string (list ptr)) (rid : string) (l : list ptr).

Lemma table_occ_insert q t rid l :
  t !! rid = None → table_occ q (<[rid := l]> t) = occ q l + table_occ q t.
Proof. intros Hr. unfold table_occ. rewrite map_fold_insert_L; [done| |done]. intros; lia. Qed.

Lemma table_occ_delete q t rid :
  table_occ q t = occ q (default [] (t !! rid)) + table_occ q (delete rid t).
Proof.
  destruct (t !! rid) as [l|] eqn:E; simpl.
  - rewrite <- (insert_delete_id t rid l E) at 1. rewrite table_occ_insert; [done|]. by rewrite lookup_delete_eq.
  - rewrite delete_id by done. by rewrite occ_nil.
Qed.

(** Only what the entries read as matters; an empty entry counts nothing. *)
Lemma table_occ_ext q t t' :
  (∀ r, default [] (t !! r) = default [] (t' !! r)) → table_occ q t = table_occ q t'.
Proof.
  revert t'. induction t as [|rid l t Hr IH] using map_ind; intros t' Hv.
  - induction t' as [|rid l t' Hr IH] using map_ind; [done|].
    pose proof (Hv rid) as Hl. rewrite lookup_empty, lookup_insert_eq in Hl. simpl in Hl. subst l.
    rewrite table_occ_insert, occ_nil, <- IH; [done| |done]. intros r. rewrite lookup_empty.
    specialize (Hv r). rewrite lookup_empty in Hv. destruct (decide (r = rid)) as [->|]; [by rewrite Hr|].
    by rewrite lookup_insert_ne in Hv.
  - rewrite table_occ_insert by done. rewrite (table_occ_delete q t' rid).
    pose proof (Hv rid) as Hl. rewrite lookup_insert_eq in Hl. simpl in Hl. rewrite <- Hl. f_equal.
    apply IH. intros r. specialize (Hv r). destruct (decide (r = rid)) as [->|].
    + by rewrite Hr, lookup_delete_eq.
    + rewrite lookup_insert_ne in Hv by done. by rewrite lookup_delete_ne.
Qed.

Lemma table_occ_nonneg q t : 0 <= table_occ q t.
Proof.
  induction t as [|rid l t Hr IH] using map_ind; [done|].
  rewrite table_occ_insert by done. pose proof (occ_nonneg q l). lia.
Qed.
End tables.

Definition held_by (q : ptr) (m : SingleTypeKVCacheManager) : Z := table_occ q (req_to_blocks m).

Section held.
Implicit Types (q : ptr) (m : SingleTypeKVCacheManager) (rid : string) (l : list ptr).

Lemma held_by_upd q m m' rid l nc :
  mgr_upd m m' rid l nc → held_by q m' = held_by q m - occ q (blocks_of m rid) + occ q l.
Proof.
  intros (_ & _ & _ & _ & Hb & _). unfold held_by.
  rewrite (table_occ_delete q (req_to_blocks m) rid), (table_occ_delete q (req_to_blocks m') rid).
  change (default [] (req_to_blocks m !! rid)) with (blocks_of m rid).
  change (default [] (req_to_blocks m' !! rid)) with (blocks_of m' rid).
  rewrite (Hb rid), decide_True by done.
  rewrite (table_occ_ext q (delete rid (req_to_blocks m')) (delete rid (req_to_blocks m))); [simpl; lia|].
  intros r. destruct (decide (r = rid)) as [->|Hne]; [by rewrite !lookup_delete_eq|].
  rewrite !lookup_delete_ne by done. specialize (Hb r). rewrite decide_False in Hb by done. exact Hb.
Qed.

Lemma held_by_occ q m rid : occ q (blocks_of m rid) <= held_by q m.
Proof.
  unfold held_by. rewrite (table_occ_delete q (req_to_blocks m) rid).
  pose proof (table_occ_nonneg q (delete rid (req_to_blocks m))). unfold blocks_of. lia.
Qed.
Lemma held_by_two q m r1 r2 : r1 ≠ r2 →
  occ q (blocks_of m r1) + occ q (blocks_of m r2) <= held_by q m.
Proof.
  intros Hne. unfold held_by. rewrite (table_occ_delete q (req_to_blocks m) r1).
  rewrite (table_occ_delete q (delete r1 (req_to_blocks m)) r2). rewrite lookup_delete_ne by done.
  pose proof (table_occ_nonneg q (delete r2 (delete r1 (req_to_blocks m)))). unfold blocks_of. lia.
Qed.
Lemma held_by_nonneg q m : 0 <= held_by q m.
Proof. apply table_occ_nonneg. Qed.

(** Over all managers of a coordinator. *)
Definition held q (ms : list SingleTypeKVCacheManager) : Z := zsum (held_by q <$> ms).

Lemma held_cons q m ms : held q (m :: ms) = held_by q m + held q ms.
Proof. done. Qed.

Lemma held_insert q ms i m m' :
  ms !! i = Some m → held q (<[i := m']> ms) = held q ms - held_by q m + held_by q m'.
Proof.
  revert i. induction ms as [|m0 ms IH]; intros [|i] Hi; simplify_eq/=; rewrite !held_cons; [lia|].
  specialize (IH i Hi). lia.
Qed.
Lemma held_nonneg q ms : 0 <= held q ms.
Proof.
  induction ms as [|m ms IH]; [done|]. rewrite held_cons. pose proof (held_by_nonneg q m). lia.
Qed.
Lemma held_lookup q ms i m : ms !! i = Some m → held_by q m <= held q ms.
Proof.
  revert i. induction ms as [|m0 ms IH]; intros [|i] Hi; simplify_eq/=; rewrite held_cons.
  - pose proof (held_nonneg q ms). lia.
  - specialize (IH i Hi). pose proof (held_by_nonneg q m0). lia.
Qed.
Lemma held_lookup_two q ms i j m1 m2 :
  i ≠ j → ms !! i = Some m1 → ms !! j = Some m2 → held_by q m1 + held_by q m2 <= held q ms.
Proof.
  revert i j. induction ms as [|m0 ms IH]; intros [|i] [|j] Hne Hi Hj; simplify_eq/=; rewrite held_cons.
  - pose proof (held_lookup q ms j m2 Hj). lia.
  - pose proof (held_lookup q ms i m1 Hi). lia.
  - assert (i ≠ j) as Hij by congruence. specialize (IH i j Hij Hi Hj). pose proof (held_by_nonneg q m0). lia.
Qed.

(** A block that two entries mention is held twice. *)
Lemma held_twice q ms i j m1 m2 r1 r2 :
  ms !! i = Some m1 → ms !! j = Some m2 → q ∈ blocks_of m1 r1 → q ∈ blocks_of m2 r2 →
  (i = j ∧ r1 = r2) ∨ 2 <= held q ms.
Proof.
  intros Hi Hj Hq1 Hq2. apply occ_pos in Hq1, Hq2. destruct (decide (i = j)) as [->|Hne].
  - assert (m1 = m2) as <- by congruence. destruct (decide (r1 = r2)) as [->|Hr]; [by left|right].
    pose proof (held_by_two q m1 r1 r2 Hr). pose proof (held_lookup q ms j m1 Hi). lia.
  - right. pose proof (held_lookup_two q ms i j m1 m2 Hne Hi Hj).
    pose proof (held_by_occ q m1 r1). pose proof (held_by_occ q m2 r2). lia.
Qed.
End held.
