(* ===== verification/KVCacheCoordinator.v ===== *)
(** The coordinators of [v1/core/kv_cache_coordinator.py]: one single-type manager
    per KV-cache group over a shared block pool, and the search for the longest
    prefix hit common to all groups. *)
From Stdlib Require Import ZArith Lia.
From stdpp Require Import base strings countable gmap sets fin_maps sorting list.
From S2P Require Import Prelude FreeBlockQueue Request BlockHash BlockPool KVCacheSpec SingleTypeManager.
Local Open Scope Z_scope.

(** What the subclasses of [KVCacheCoordinator] add to its attributes. *)
Record HybridGroups : Type := mkHybridGroups {
  full_attention_group_ids : list Z;
  other_group_ids : list Z;
  other_attention_cls : manager_class;
  full_attention_spec : KVCacheSpec;
  other_spec : KVCacheSpec;
  full_attn_first : bool
}.
Definition full_attention_block_size (h : HybridGroups) : Z := block_size (full_attention_spec h).
Definition other_block_size (h : HybridGroups) : Z := block_size (other_spec h).

Inductive coordinator_kind : Type :=
  | KVCacheCoordinatorNoPrefixCache
  | UnitaryKVCacheCoordinator (unitary_spec : KVCacheSpec)
  | HybridKVCacheCoordinator (groups : HybridGroups).

Record KVCacheCoordinator : Type := mkCoordinator {
  kind : coordinator_kind;
  coord_config : KVCacheConfig;
  coord_enable_caching : bool;
  use_eagle : bool;
  block_pool : BlockPool;
  single_type_managers : list SingleTypeKVCacheManager
}.

Definition set_block_pool (p : BlockPool) (c : KVCacheCoordinator) : KVCacheCoordinator :=
  mkCoordinator (kind c) (coord_config c) (coord_enable_caching c) (use_eagle c) p (single_type_managers c).
Definition set_managers (ms : list SingleTypeKVCacheManager) (c : KVCacheCoordinator) : KVCacheCoordinator :=
  mkCoordinator (kind c) (coord_config c) (coord_enable_caching c) (use_eagle c) (block_pool c) ms.

(** * Construction *)

(** [KVCacheCoordinator.__init__]. *)
Definition base_init (k : coordinator_kind) (cfg : KVCacheConfig) (use_eagle enable_caching ev : bool)
    : outcome KVCacheCoordinator :=
  p ← BlockPool_init (num_blocks cfg) enable_caching ev;
  Ok (mkCoordinator k cfg enable_caching use_eagle p
    ((λ '(i, g), get_manager_for_kv_cache_spec (kv_cache_spec g) p i) <$> enumerate (kv_cache_groups cfg))).

(** The loop of [verify_and_split_kv_cache_groups]. *)
Fixpoint split_groups (groups : list (Z * KVCacheGroupSpec)) (full other : option KVCacheSpec)
    (full_ids other_ids : list Z)
    : outcome (option KVCacheSpec * option KVCacheSpec * list Z * list Z) :=
  match groups with
  | [] => Ok (full, other, full_ids, other_ids)
  | (i, g) :: groups' =>
    let s := kv_cache_spec g in
    if is_full_attention s then
      match full with
      | None => split_groups groups' (Some s) other (full_ids ++ [i]) other_ids
      | Some s0 => if decide (s0 = s) then split_groups groups' full other (full_ids ++ [i]) other_ids
                   else Raise AssertionError
      end
    else
      match other with
      | None => split_groups groups' full (Some s) full_ids (other_ids ++ [i])
      | Some s0 => if decide (s0 = s) then split_groups groups' full other full_ids (other_ids ++ [i])
                   else Raise AssertionError
      end
  end.

(** [max] and [min] of a list that is not empty. *)
Definition list_max (l : list Z) : Z := match l with [] => 0 | x :: l' => foldr Z.max x l' end.
Definition list_min (l : list Z) : Z := match l with [] => 0 | x :: l' => foldr Z.min x l' end.

Definition verify_and_split_kv_cache_groups (cfg : KVCacheConfig) (enable_caching : bool)
    : outcome HybridGroups :=
  '(full, other, full_ids, other_ids) ←
    split_groups (enumerate (kv_cache_groups cfg)) None None [] [];
  match full, other with
  | Some f, Some o =>
    if decide (enable_caching = true ∧ block_size o mod block_size f ≠ 0) then Raise AssertionError
    else if decide (list_max full_ids < list_min other_ids) then
      Ok (mkHybridGroups full_ids other_ids (spec_manager_map o) f o true)
    else if decide (list_max other_ids < list_min full_ids) then
      Ok (mkHybridGroups full_ids other_ids (spec_manager_map o) f o false)
    else Raise ValueError
  | _, _ => Raise AssertionError
  end.

Definition get_kv_cache_coordinator (cfg : KVCacheConfig) (use_eagle enable_caching ev : bool)
    : outcome KVCacheCoordinator :=
  if negb enable_caching then base_init KVCacheCoordinatorNoPrefixCache cfg use_eagle false ev
  else match kv_cache_groups cfg with
  | [g] => base_init (UnitaryKVCacheCoordinator (kv_cache_spec g)) cfg use_eagle enable_caching ev
  | _ =>
    c ← base_init KVCacheCoordinatorNoPrefixCache cfg use_eagle enable_caching ev;
    h ← verify_and_split_kv_cache_groups cfg enable_caching;
    Ok (mkCoordinator (HybridKVCacheCoordinator h) (coord_config c) (coord_enable_caching c)
          (KVCacheCoordinator.use_eagle c) (block_pool c) (single_type_managers c))
  end.

(** * Calls on the managers *)

(** A call on [self.single_type_managers[i]], which shares [self.block_pool]. *)
Definition on_manager {A} (i : nat) (m : M ManagerState A) : M KVCacheCoordinator A := λ c,
  match single_type_managers c !! i with
  | None => (Raise IndexError, c)
  | Some mgr =>
    match m (block_pool c, mgr) with
    | (o, (p, mgr')) => (o, set_managers (<[i := mgr']> (single_type_managers c)) (set_block_pool p c))
    end
  end.

(** [for i, manager in enumerate(self.single_type_managers)]. *)
Definition manager_indices (c : KVCacheCoordinator) : list nat := seq 0 (length (single_type_managers c)).

Definition coord_get_num_blocks_to_allocate (request_id : string) (num_tokens : Z)
    (new_computed_blocks : list (list ptr)) : M KVCacheCoordinator Z :=
  ids ← gets manager_indices;
  fold_each ids 0 (λ n i,
    new_computed ← lift_outcome (py_index new_computed_blocks (Z.of_nat i));
    k ← on_manager i (get_num_blocks_to_allocate request_id num_tokens new_computed);
    mret (n + k)).

Definition coord_save_new_computed_blocks (request_id : string) (new_computed_blocks : list (list ptr))
    : M KVCacheCoordinator unit :=
  ids ← gets manager_indices;
  for_each ids (λ i,
    new_computed ← lift_outcome (py_index new_computed_blocks (Z.of_nat i));
    on_manager i (save_new_computed_blocks request_id new_computed)).

Definition coord_allocate_new_blocks (request_id : string) (num_tokens : Z)
    : M KVCacheCoordinator (list (list ptr)) :=
  ids ← gets manager_indices;
  map_each ids (λ i, on_manager i (allocate_new_blocks request_id num_tokens)).

Section caching.
Variable hash_function : Z * list Z * option (list extra_key) → Z.
Variable NONE_HASH : Z.

(** All managers append to the same list [block_hashes]. *)
Definition coord_cache_blocks (request : Request) (block_hashes : list BlockHash)
    (num_computed_tokens : Z) : M KVCacheCoordinator (list BlockHash) :=
  ids ← gets manager_indices;
  fold_each ids block_hashes (λ hs i,
    on_manager i (cache_blocks hash_function NONE_HASH request hs num_computed_tokens)).
End caching.

Definition coord_free (request_id : string) : M KVCacheCoordinator unit :=
  ids ← gets manager_indices; for_each ids (λ i, on_manager i (free request_id)).

Definition coord_remove_skipped_blocks (request_id : string) (num_computed_tokens : Z)
    : M KVCacheCoordinator unit :=
  ids ← gets manager_indices;
  for_each ids (λ i, on_manager i (remove_skipped_blocks request_id num_computed_tokens)).

Definition coord_get_num_common_prefix_blocks (request_id : string) (num_running_requests : Z)
    : M KVCacheCoordinator (list Z) :=
  c ← get;
  match kind c with
  | KVCacheCoordinatorNoPrefixCache => mret (replicate (length (single_type_managers c)) 0)
  | _ => map_each (manager_indices c) (λ i,
           on_manager i (get_num_common_prefix_blocks request_id num_running_requests))
  end.

(** [manager.req_to_blocks.get(request_id) or []]. *)
Definition get_blocks (c : KVCacheCoordinator) (request_id : string) : list (list ptr) :=
  (λ m, blocks_of m request_id) <$> single_type_managers c.

(** * The longest cache hit *)

(** [del l[n:]], where a negative [n] counts from the end. *)
Definition hybrid_hit (p : BlockPool) (h : HybridGroups) (use_eagle : bool)
    (block_hashes : list BlockHash) (max_cache_hit_length : Z) : outcome (list (list ptr) * Z) :=
  hit_blocks_full_attn ← SingleTypeManager.find_longest_cache_hit FullAttentionManager block_hashes
    max_cache_hit_length (full_attention_group_ids h) p (full_attention_spec h) use_eagle;
  full0 ← py_index hit_blocks_full_attn 0;
  let hit_length := len full0 * full_attention_block_size h in
  hit_blocks_other_attn ← SingleTypeManager.find_longest_cache_hit (other_attention_cls h) block_hashes
    hit_length (other_group_ids h) p (other_spec h) use_eagle;
  other0 ← py_index hit_blocks_other_attn 0;
  let hit_length := len other0 * other_block_size h in
  if decide (hit_length mod full_attention_block_size h = 0) then
    let hit_blocks_full_attn :=
      slice_to (hit_length / full_attention_block_size h) <$> hit_blocks_full_attn in
    Ok (if full_attn_first h then hit_blocks_full_attn ++ hit_blocks_other_attn
        else hit_blocks_other_attn ++ hit_blocks_full_attn, hit_length)
  else Raise AssertionError.

Definition coord_find_longest_cache_hit (c : KVCacheCoordinator) (block_hashes : list BlockHash)
    (max_cache_hit_length : Z) : outcome (list (list ptr) * Z) :=
  match kind c with
  | KVCacheCoordinatorNoPrefixCache => Ok (replicate (length (single_type_managers c)) [], 0)
  | UnitaryKVCacheCoordinator s =>
    m0 ← py_index (single_type_managers c) 0;
    hit_blocks ← SingleTypeManager.find_longest_cache_hit (manager_cls m0) block_hashes
      max_cache_hit_length [0] (block_pool c) s (use_eagle c);
    hit0 ← py_index hit_blocks 0;
    Ok (hit_blocks, len hit0 * block_size s)
  | HybridKVCacheCoordinator h =>
    hybrid_hit (block_pool c) h (use_eagle c) block_hashes max_cache_hit_length
  end.

(** * The invariant of pool and block tables *)

(** The table of one request in one group, against the block hashes [hs] of the
    request: distinct real blocks, the first [num_cached_block] of them settled, the
    rest not cached yet. *)
Record req_wf (p : BlockPool) (m : SingleTypeKVCacheManager) (rid : string) (hs : list BlockHash) : Prop := {
  rw_valid : ∀ q, q ∈ blocks_of m rid → valid p q;
  rw_nodup : NoDup (filter (.≠ null_block p) (blocks_of m rid));
  rw_fresh : num_cached_block m !! rid = None → blocks_of m rid = [];
  rw_count : ∀ nc, num_cached_block m !! rid = Some nc → 0 <= nc <= len (blocks_of m rid);
  rw_cached : ∀ nc, num_cached_block m !! rid = Some nc → BlockPool.enable_caching p = true →
    nc <= len hs ∧
    (∀ i q, nc <= Z.of_nat i → blocks_of m rid !! i = Some q → q ≠ null_block p ∧ blk_hash p q = None) ∧
    (0 < nc → ∃ q h, blocks_of m rid !! Z.to_nat (nc - 1) = Some q ∧ hs !! Z.to_nat (nc - 1) = Some h ∧
       blk_hash p q = Some (mkBlockHashWithGroupId h (kv_cache_group_id m)))
}.

(** [pend] counts the references already taken for blocks that no table mentions
    yet: it is zero between operations of the coordinator's client. *)
Record kv_inv (p : BlockPool) (ms : list SingleTypeKVCacheManager) (H : string → list BlockHash)
    (free : list ptr) (pend : ptr → Z) : Prop := {
  ki_pool : pool_inv p free;
  ki_null_hash : blk_hash p (null_block p) = None;
  ki_mgr_null : ∀ i m, ms !! i = Some m → _null_block m = null_block p;
  ki_group : ∀ i m, ms !! i = Some m → kv_cache_group_id m = Z.of_nat i;
  ki_refs : ∀ q, valid p q → q ≠ null_block p → blk_ref p q = held q ms + pend q;
  ki_pend : ∀ q, 0 <= pend q;
  ki_excl : ∀ q, valid p q → q ≠ null_block p → blk_hash p q = None → blk_ref p q <= 1;
  ki_nocache : BlockPool.enable_caching p = false → ∀ q, valid p q → blk_hash p q = None;
  ki_req : ∀ i m rid, ms !! i = Some m → req_wf p m rid (H rid)
}.

Section invariant.
Implicit Types (p : BlockPool) (m : SingleTypeKVCacheManager) (ms : list SingleTypeKVCacheManager)
  (H : string → list BlockHash) (free l : list ptr) (pend : ptr → Z) (q : ptr) (rid : string).

Lemma valid_null p free : pool_core p free → valid p (null_block p).
Proof.
  intros Hc. rewrite (pc_null _ _ Hc). exists 0%nat. split; [done|]. pose proof (pc_pos _ _ Hc). lia.
Qed.

Lemma ki_core p ms H free pend : kv_inv p ms H free pend → pool_core p free.
Proof. intros Hk. apply (ki_pool _ _ _ _ _ Hk). Qed.

(** A block of a table is in use. *)
Lemma ki_used p ms H free pend i m rid q :
  kv_inv p ms H free pend → ms !! i = Some m → q ∈ blocks_of m rid → q ≠ null_block p →
  valid p q ∧ occ q (blocks_of m rid) = 1 ∧ 0 < blk_ref p q ∧ q ∉ free.
Proof.
  intros Hk Hi Hq Hn. pose proof (ki_req _ _ _ _ _ Hk i m rid Hi) as Hw.
  pose proof (rw_valid _ _ _ _ Hw q Hq) as Hv.
  pose proof (occ_filter_one _ q _ (rw_nodup _ _ _ _ Hw) Hq Hn) as Ho.
  assert (0 < blk_ref p q) as Hpos.
  { rewrite (ki_refs _ _ _ _ _ Hk q Hv Hn). pose proof (held_lookup q ms i m Hi).
    pose proof (held_by_occ q m rid). pose proof (ki_pend _ _ _ _ _ Hk q). lia. }
  split_and!; try done. destruct (ki_pool _ _ _ _ _ Hk) as [_ Hr].
  destruct (Hr q Hv Hn) as [_ Hiff]. rewrite Hiff. lia.
Qed.

(** A block nobody else may use: not cached, and in a table. *)
Lemma ki_exclusive p ms H free pend i j m m2 rid r2 q :
  kv_inv p ms H free pend → ms !! i = Some m → ms !! j = Some m2 →
  q ∈ blocks_of m rid → q ∈ blocks_of m2 r2 → q ≠ null_block p → blk_hash p q = None →
  i = j ∧ rid = r2.
Proof.
  intros Hk Hi Hj Hq Hq2 Hn Hh.
  destruct (ki_used _ _ _ _ _ _ _ _ _ Hk Hi Hq Hn) as (Hv & _ & _ & _).
  destruct (held_twice q ms i j m m2 rid r2 Hi Hj Hq Hq2) as [[-> ->]|Htwo]; [done|].
  pose proof (ki_excl _ _ _ _ _ Hk q Hv Hn Hh). rewrite (ki_refs _ _ _ _ _ Hk q Hv Hn) in *.
  pose proof (ki_pend _ _ _ _ _ Hk q). lia.
Qed.

(** A table stays well-formed when the pool changes no hash of its blocks, the
    hash list only grows, and the views of the manager are the same. *)
Lemma req_wf_frame p p' m m' rid hs hs' :
  req_wf p m rid hs → same_config p p' → hs `prefix_of` hs' →
  blocks_of m' rid = blocks_of m rid → num_cached_block m' !! rid = num_cached_block m !! rid →
  kv_cache_group_id m' = kv_cache_group_id m →
  (∀ q, q ∈ blocks_of m rid → q ≠ null_block p → blk_hash p' q = blk_hash p q) →
  blk_hash p (null_block p) = None →
  req_wf p' m' rid hs'.
Proof.
  intros [Hv Hnd Hf Hc Hca] Hcfg Hpre Hb Hn Hg Hh Hnull.
  destruct Hcfg as (Hnum & Hen & Hbl & Hnl & Hev) eqn:E.
  split; rewrite ?Hb, ?Hn; try done.
  - intros q Hq. apply (valid_config p p'); [done|by apply Hv].
  - by rewrite Hnl.
  - intros nc Hnc Hcaching. rewrite Hen in Hcaching. destruct (Hca nc Hnc Hcaching) as (Hle & Hnew & Hpar).
    rewrite Hg, Hnl. split_and!.
    + apply prefix_length in Hpre. unfold len in *. lia.
    + intros i q Hi Hq. destruct (Hnew i q Hi Hq) as [Hqn Hqh]. split; [done|].
      rewrite Hh; [done|by eapply list_elem_of_lookup_2|done].
    + intros Hpos. destruct (Hpar Hpos) as (q & h & Hq & Hhs & Hqh). exists q, h.
      split_and!; [done|by eapply prefix_lookup_Some|].
      rewrite Hh; [done|by eapply list_elem_of_lookup_2|]. intros ->. congruence.
Qed.

(** One request's table in one group changes, the pool with it. *)
Lemma kv_inv_step p ms H free pend i m p' m' H' free' pend' rid l nc :
  kv_inv p ms H free pend → ms !! i = Some m → mgr_upd m m' rid l nc →
  pool_inv p' free' → same_config p p' →
  (∀ q, valid p q → q ≠ null_block p →
     blk_ref p' q - pend' q = blk_ref p q - pend q + occ q l - occ q (blocks_of m rid)) →
  (∀ q, 0 <= pend' q) →
  (∀ q, valid p q → q ≠ null_block p → blk_hash p' q = None → blk_ref p' q <= 1) →
  blk_hash p' (null_block p) = None →
  (BlockPool.enable_caching p = false → ∀ q, valid p q → blk_hash p' q = None) →
  (∀ j m2 r2 q, ms !! j = Some m2 → q ∈ blocks_of m2 r2 → q ≠ null_block p →
     (j ≠ i ∨ r2 ≠ rid) → blk_hash p' q = blk_hash p q) →
  (∀ r, H r `prefix_of` H' r) →
  req_wf p' m' rid (H' rid) →
  kv_inv p' (<[i := m']> ms) H' free' pend'.
Proof.
  intros Hk Hi Hm Hp' Hcfg Hrefs Hpend Hexcl Hnull Hnoc Hframe HH Hwf.
  pose proof Hcfg as (Hnum & Hen & Hbl & Hnl & Hev). pose proof Hm as (Hcls & Hspec & Hg & Hmn & Hb & Hnc).
  assert (Hms : ∀ j m2, <[i := m']> ms !! j = Some m2 →
    (j = i ∧ m2 = m') ∨ (j ≠ i ∧ ms !! j = Some m2)).
  { intros j m2 [(-> & -> & _)|[? ?]]%list_lookup_insert_Some; [by left|by right]. }
  split; try done.
  - by rewrite Hnl.
  - intros j m2 [[-> ->]|[_ Hj]]%Hms; rewrite Hnl; [rewrite Hmn|]; by eapply ki_mgr_null.
  - intros j m2 [[-> ->]|[_ Hj]]%Hms; [rewrite Hg|]; by eapply ki_group.
  - intros q Hv Hn. apply (valid_config p p' q Hcfg) in Hv. rewrite Hnl in Hn.
    specialize (Hrefs q Hv Hn). rewrite (ki_refs _ _ _ _ _ Hk q Hv Hn) in Hrefs.
    rewrite (held_insert q ms i m m' Hi), (held_by_upd q m m' rid l nc Hm). lia.
  - intros q Hv Hn. rewrite Hnl in Hn. apply Hexcl; [by apply (valid_config p p' q Hcfg)|done].
  - intros Hc q Hv. rewrite Hen in Hc. apply Hnoc; [done|]. by apply (valid_config p p' q Hcfg).
  - intros j m2 r2 [[-> ->]|[Hji Hj]]%Hms.
    + destruct (decide (r2 = rid)) as [->|Hr]; [done|].
      eapply req_wf_frame; [apply (ki_req _ _ _ _ _ Hk i m r2 Hi)|done|apply HH| | |done| |by eapply ki_null_hash].
      * by rewrite Hb, decide_False.
      * by rewrite Hnc, decide_False.
      * intros q Hq Hn. eapply Hframe; eauto.
    + eapply req_wf_frame; [apply (ki_req _ _ _ _ _ Hk j m2 r2 Hj)|done|apply HH|done|done|done| |by eapply ki_null_hash].
      intros q Hq Hn. eapply Hframe; eauto.
Qed.

(** Nothing but the defaultdict entry of the request changes. *)
Lemma kv_inv_read p ms H free pend i m m' rid :
  kv_inv p ms H free pend → ms !! i = Some m →
  mgr_upd m m' rid (blocks_of m rid) (num_cached_block m !! rid) →
  kv_inv p (<[i := m']> ms) H free pend.
Proof.
  intros Hk Hi Hm. pose proof Hm as (_ & _ & Hg & _ & Hb & Hnc).
  apply (kv_inv_step p ms H free pend i m p m' H free pend rid (blocks_of m rid) (num_cached_block m !! rid));
    try done; try apply Hk.
  - intros q Hv Hn. lia.
  - eapply req_wf_frame; [apply (ki_req _ _ _ _ _ Hk i m rid Hi)|done|done| | |done|done|by eapply ki_null_hash].
    + by rewrite Hb, decide_True.
    + by rewrite Hnc, decide_True.
Qed.

(** Taking references to cached blocks. *)
Lemma kv_inv_touch p ms H free pend bss :
  kv_inv p ms H free pend →
  (∀ q, q ∈ concat bss → valid p q ∧ (q = null_block p ∨ is_Some (blk_hash p q))) →
  wp (touch bss) (λ _ p', kv_inv p' ms H (filter (.∉ concat bss) free) (λ q, pend q + occ q (concat bss)) ∧
    pool_upd p p' (λ r, blk_ref p r + occ r (concat bss)) (blk_hash p)) p.
Proof.
  intros Hk Hbs. eapply wp_mono; [apply touch_spec; [apply (ki_pool _ _ _ _ _ Hk)|]|].
  { intros q Hq. by apply Hbs. }
  intros _ p' (Hp' & Hu). split; [|done]. pose proof Hu as (Hcfg & Hr & Hh).
  pose proof Hcfg as (_ & Hen & _ & Hnl & _).
  split; try done.
  - rewrite Hnl, Hh. by eapply ki_null_hash.
  - intros i m Hi. rewrite Hnl. by eapply ki_mgr_null.
  - apply Hk.
  - intros q Hv Hn. apply (valid_config p p' q Hcfg) in Hv. rewrite Hnl in Hn.
    rewrite Hr, (ki_refs _ _ _ _ _ Hk q Hv Hn). lia.
  - intros q. pose proof (ki_pend _ _ _ _ _ Hk q). pose proof (occ_nonneg q (concat bss)). lia.
  - intros q Hv Hn Hnone. apply (valid_config p p' q Hcfg) in Hv. rewrite Hnl in Hn. rewrite Hh in Hnone.
    rewrite Hr. destruct (decide (q ∈ concat bss)) as [Hin|Hin].
    + destruct (Hbs q Hin) as [_ [?|[??]]]; congruence.
    + apply occ_zero in Hin. pose proof (ki_excl _ _ _ _ _ Hk q Hv Hn Hnone). lia.
  - intros Hc q Hv. rewrite Hen in Hc. rewrite Hh. apply (ki_nocache _ _ _ _ _ Hk Hc).
    by apply (valid_config p p' q Hcfg).
  - intros i m rid Hi. eapply req_wf_frame;
      [by apply (ki_req _ _ _ _ _ Hk i m rid Hi)|done|done|done|done|done| |by eapply ki_null_hash].
    intros q _ _. apply Hh.
Qed.
End invariant.

(** * One manager's operation under the invariant *)
Section manager_steps.
Implicit Types (p : BlockPool) (m : SingleTypeKVCacheManager) (ms : list SingleTypeKVCacheManager)
  (H : string → list BlockHash) (free l new : list ptr) (pend : ptr → Z) (q : ptr) (rid : string).

(** Skipping must spare the blocks that are not settled yet and the last settled
    one, whose hash is the parent of the next. *)
Definition skip_ok p m rid (c : Z) : Prop :=
  first_useful_block m rid c <= len (blocks_of m rid) ∧
  (BlockPool.enable_caching p = true →
     first_useful_block m rid c <= Z.max 0 (default 0 (num_cached_block m !! rid) - 1)).

Lemma req_wf_skipped p m m' rid hs l' removed k :
  req_wf p m rid hs → skipped (null_block p) k (blocks_of m rid) l' removed →
  valid p (null_block p) → mgr_upd m m' rid l' (num_cached_block m !! rid) →
  (BlockPool.enable_caching p = true → Z.of_nat k <= Z.max 0 (default 0 (num_cached_block m !! rid) - 1)) →
  req_wf p m' rid hs.
Proof.
  intros [Hv Hnd Hf Hc Hca] Hsk Hvn Hm Hk. pose proof Hm as (_ & _ & Hg & _).
  pose proof (mgr_upd_blocks _ _ _ _ _ Hm) as Hb. pose proof (mgr_upd_cached _ _ _ _ _ Hm) as Hnc.
  pose proof (sk_length _ _ _ _ _ Hsk) as Hlen.
  split; rewrite ?Hb, ?Hnc.
  - eapply skipped_valid; [exact Hsk|done|done].
  - by apply (skipped_nodup _ _ _ _ _ Hsk Hnd).
  - intros Hnone. rewrite (Hf Hnone) in Hlen. by destruct l'.
  - intros nc Hnc'. unfold len. rewrite Hlen. by apply Hc.
  - intros nc Hnc' Hcaching. destruct (Hca nc Hnc' Hcaching) as (Hle & Hnew & Hpar).
    specialize (Hk Hcaching). rewrite Hnc' in Hk. simpl in Hk. destruct (Hc nc Hnc') as [Hnc0 _].
    rewrite Hg. split_and!; [done| |].
    + intros i q Hi Hq. rewrite (sk_kept _ _ _ _ _ Hsk) in Hq by lia. by eapply Hnew.
    + intros Hpos. destruct (Hpar Hpos) as (q & h & Hq & Hh & Hqh). exists q, h.
      rewrite (sk_kept _ _ _ _ _ Hsk) by lia. done.
Qed.

Lemma kv_inv_skip p ms H free pend i m rid c :
  kv_inv p ms H free pend → ms !! i = Some m → skip_ok p m rid c →
  wp (remove_skipped_blocks rid c) (λ _ s, skip_post p free m rid c s ∧
    ∃ released, kv_inv (fst s) (<[i := snd s]> ms) H (free ++ released) pend) (p, m).
Proof.
  intros Hk Hi [Hfirst Hkeep]. pose proof (ki_core _ _ _ _ _ Hk) as Hc.
  pose proof (ki_req _ _ _ _ _ Hk i m rid Hi) as Hw. pose proof (valid_null _ _ Hc) as Hvn.
  eapply wp_mono; [apply remove_skipped_blocks_spec|].
  - apply Hk.
  - by apply (ki_mgr_null _ _ _ _ _ Hk i).
  - done.
  - apply Hw.
  - apply Hw.
  - intros q Hq Hn. by eapply ki_used.
  - done.
  - intros _ [p' m'] Hpost. split; [done|].
    destruct Hpost as (l' & removed & Hsk & Hp' & Hu & Hm). simpl in *.
    exists (released p removed). pose proof Hu as (Hcfg & Hr & Hh).
    eapply kv_inv_step; [exact Hk|exact Hi|exact Hm|exact Hp'|exact Hcfg|..].
    + intros q Hv Hn. rewrite Hr, (sk_occ _ _ _ _ _ Hsk q Hn). lia.
    + apply Hk.
    + intros q Hv Hn Hnone. rewrite Hh in Hnone. rewrite Hr.
      pose proof (ki_excl _ _ _ _ _ Hk q Hv Hn Hnone). pose proof (occ_nonneg q removed). lia.
    + rewrite Hh. by eapply ki_null_hash.
    + intros Hcaching q Hv. rewrite Hh. by apply (ki_nocache _ _ _ _ _ Hk Hcaching).
    + intros j m2 r2 q _ _ _ _. apply Hh.
    + done.
    + assert (Hwf : req_wf p m' rid (H rid)).
      { eapply (req_wf_skipped p m m' rid (H rid)); [exact Hw|exact Hsk|done|exact Hm|].
        intros Hcaching. specialize (Hkeep Hcaching). lia. }
      eapply req_wf_frame; [exact Hwf|exact Hcfg|done|done|done|done| |by eapply ki_null_hash].
      intros q _ _. apply Hh.
Qed.

Lemma kv_inv_get_num p ms H free pend i m rid nt new :
  kv_inv p ms H free pend → ms !! i = Some m → (∀ q, q ∈ new → valid p q) →
  wp (get_num_blocks_to_allocate rid nt new) (λ n s, fst s = p ∧
    kv_inv p (<[i := snd s]> ms) H free pend ∧
    mgr_upd m (snd s) rid (blocks_of m rid) (num_cached_block m !! rid) ∧
    n = cdiv nt (manager_block_size m) - len new - len (blocks_of m rid)
        + len (evictable_blocks p new)) (p, m).
Proof.
  intros Hk Hi Hv. eapply wp_mono; [by eapply get_num_blocks_to_allocate_spec, Hv; apply (ki_core _ _ _ _ _ Hk)|].
  intros n [p' m'] (? & Hm & Hn). simpl in *. subst p'. csplit; [done| |done|done]. by eapply kv_inv_read.
Qed.

(** What a prefix hit may be: null blocks and blocks with the hashes of the
    request, distinct, the last one not null. *)
Record hit_list p (hs : list BlockHash) (g : Z) (l : list ptr) : Prop := {
  hl_entry : ∀ i q, l !! i = Some q → q = null_block p ∨ hit_entry p hs g i q;
  hl_last : ∀ q, last l = Some q → hit_entry p hs g (length l - 1) q;
  hl_nodup : NoDup (filter (.≠ null_block p) l)
}.

Lemma hit_list_valid p free hs g l q :
  pool_core p free → hit_list p hs g l → q ∈ l → valid p q ∧ (q = null_block p ∨ is_Some (blk_hash p q)).
Proof.
  intros Hc Hl (i & Hi)%list_elem_of_lookup_1.
  destruct (hl_entry _ _ _ _ Hl i q Hi) as [->|(Hv & h & _ & ->)]; [|by eauto].
  split; [by eapply valid_null|by left].
Qed.

Lemma hit_list_length p hs g l : hit_list p hs g l → (length l <= length hs)%nat.
Proof.
  intros Hl. destruct l as [|x l _] using rev_ind; [simpl; lia|].
  destruct (hl_last _ _ _ _ Hl x) as (_ & h & Hh & _); [by rewrite last_snoc|].
  apply lookup_lt_Some in Hh. rewrite length_app in *. simpl in *. lia.
Qed.

Lemma hit_list_upd p p' ref hs g l :
  pool_upd p p' ref (blk_hash p) → hit_list p hs g l → hit_list p' hs g l.
Proof.
  intros (Hcfg & _ & Hh) [He Hla Hnd]. pose proof Hcfg as (_ & _ & _ & Hnl & _).
  assert (Hent : ∀ i q, hit_entry p hs g i q → hit_entry p' hs g i q).
  { intros i q (Hv & h & Hi & Hq). split; [by apply (valid_config p p')|]. exists h. by rewrite Hh. }
  split; rewrite ?Hnl; [|by intros q Hq; apply Hent, Hla|done].
  intros i q Hq. destruct (He i q Hq); auto.
Qed.

Lemma req_wf_saved p m m' rid hs new :
  num_cached_block m !! rid = None → req_wf p m rid hs →
  (∀ q, q ∈ new → valid p q) → hit_list p hs (kv_cache_group_id m) new →
  mgr_upd m m' rid (blocks_of m rid ++ new) (Some (len new)) →
  req_wf p m' rid hs.
Proof.
  intros Hnone Hw Hv Hl Hm. pose proof Hm as (_ & _ & Hg & _).
  pose proof (mgr_upd_blocks _ _ _ _ _ Hm) as Hb. pose proof (mgr_upd_cached _ _ _ _ _ Hm) as Hnc.
  rewrite (rw_fresh _ _ _ _ Hw Hnone) in Hb. simpl in Hb.
  split; rewrite ?Hb, ?Hnc; [done|apply Hl|done|..].
  - intros nc [= <-]. pose proof (len_nonneg new). lia.
  - intros nc [= <-] Hcaching. rewrite Hg. split_and!.
    + pose proof (hit_list_length _ _ _ _ Hl). unfold len. lia.
    + intros i q Hi Hq. apply lookup_lt_Some in Hq. unfold len in Hi. lia.
    + intros Hpos. destruct new as [|x new _] using rev_ind; [done|].
      destruct (hl_last _ _ _ _ Hl x) as (_ & h & Hh & Hx); [by rewrite last_snoc|].
      replace (Z.to_nat (len (new ++ [x]) - 1)) with (length new) by (unfold len; rewrite length_app; simpl; lia).
      rewrite length_app in Hh. simpl in Hh. replace (length new + 1 - 1)%nat with (length new) in Hh by lia.
      exists x, h. split_and!; [|done|done]. by rewrite lookup_app_r, Nat.sub_diag by lia.
Qed.

(** A running request has no new computed blocks; a new one stores the hit. *)
Definition save_ok p m rid (hs : list BlockHash) new : Prop :=
  (is_Some (num_cached_block m !! rid) → new = []) ∧ hit_list p hs (kv_cache_group_id m) new.

Lemma kv_inv_save p ms H free pend i m rid new :
  kv_inv p ms H free pend → ms !! i = Some m → save_ok p m rid (H rid) new →
  (∀ q, q ≠ null_block p → occ q new <= pend q) →
  wp (save_new_computed_blocks rid new) (λ _ s, fst s = p ∧
    kv_inv p (<[i := snd s]> ms) H free (λ q, if decide (q = null_block p) then pend q else pend q - occ q new) ∧
    mgr_upd m (snd s) rid (blocks_of m rid ++ new)
      (Some (default (len new) (num_cached_block m !! rid)))) (p, m).
Proof.
  intros Hk Hi [Hrun Hl] Hpend. pose proof (ki_core _ _ _ _ _ Hk) as Hc.
  pose proof (ki_req _ _ _ _ _ Hk i m rid Hi) as Hw.
  eapply wp_mono; [apply save_new_computed_blocks_spec; [apply Hw|done]|].
  intros _ [p' m'] [? Hm]. simpl in *. subst p'. csplit; [done| |done].
  eapply kv_inv_step; [exact Hk|exact Hi|exact Hm|apply Hk|done|..].
  - intros q Hv Hn. rewrite decide_False by done. rewrite occ_app. lia.
  - intros q. case_decide as Hq; [apply Hk|]. specialize (Hpend q Hq). lia.
  - apply Hk.
  - by eapply ki_null_hash.
  - apply Hk.
  - done.
  - done.
  - destruct (num_cached_block m !! rid) as [nc|] eqn:Hnc.
    + rewrite (Hrun (mk_is_Some _ _ eq_refl)), app_nil_r in Hm. simpl in Hm. rewrite <- Hnc in Hm.
      eapply req_wf_frame; [exact Hw|done|done|by eapply mgr_upd_blocks|by eapply mgr_upd_cached|apply Hm|done|by eapply ki_null_hash].
    + eapply req_wf_saved; [done|done| |done|done].
      intros q Hq. by eapply hit_list_valid.
Qed.

Lemma req_wf_extended p p' m m' rid hs new :
  req_wf p m rid hs → same_config p p' → is_Some (num_cached_block m !! rid) →
  mgr_upd m m' rid (blocks_of m rid ++ new) (num_cached_block m !! rid) →
  NoDup new → (∀ q, q ∈ new → valid p q ∧ q ≠ null_block p ∧ (q ∉ blocks_of m rid) ∧
    (BlockPool.enable_caching p = true → blk_hash p' q = None)) →
  (∀ q, q ∈ blocks_of m rid → q ≠ null_block p → blk_hash p' q = blk_hash p q) →
  blk_hash p (null_block p) = None →
  req_wf p' m' rid hs.
Proof.
  intros [Hv Hnd Hf Hc Hca] Hcfg [nc0 Hsome] Hm Hndn Hnew Hh Hnull. pose proof Hm as (_ & _ & Hg & _).
  pose proof (mgr_upd_blocks _ _ _ _ _ Hm) as Hb. pose proof (mgr_upd_cached _ _ _ _ _ Hm) as Hnc.
  pose proof Hcfg as (_ & Hen & _ & Hnl & _).
  split; rewrite ?Hb, ?Hnc.
  - intros q [Hq|Hq]%elem_of_app; apply (valid_config p p' q Hcfg); [by apply Hv|by apply Hnew].
  - rewrite Hnl, filter_app. apply NoDup_app. split_and!; [done| |by apply NoDup_filter].
    intros q [_ Hq]%list_elem_of_filter [_ Hq']%list_elem_of_filter. by apply (Hnew q Hq').
  - congruence.
  - intros nc Hnc'. rewrite len_app. pose proof (Hc nc Hnc'). pose proof (len_nonneg new). lia.
  - intros nc Hnc' Hcaching. rewrite Hen in Hcaching. destruct (Hca nc Hnc' Hcaching) as (Hle & Hun & Hpar).
    rewrite Hg, Hnl. split_and!; [done| |].
    + intros i q Hi [Hq|[_ Hq]]%lookup_app_Some.
      * destruct (Hun i q Hi Hq) as [Hqn Hqh]. split; [done|].
        rewrite Hh; [done|by eapply list_elem_of_lookup_2|done].
      * apply list_elem_of_lookup_2 in Hq. destruct (Hnew q Hq) as (_ & Hqn & _ & Hqh). split; [done|by apply Hqh].
    + intros Hpos. destruct (Hpar Hpos) as (q & h & Hq & Hhs & Hqh). exists q, h.
      split_and!; [by apply lookup_app_l_Some|done|].
      rewrite Hh; [done|by eapply list_elem_of_lookup_2|]. intros ->. congruence.
Qed.

Lemma kv_inv_allocate p ms H pend i m rid nt new rest :
  kv_inv p ms H (new ++ rest) pend → ms !! i = Some m → is_Some (num_cached_block m !! rid) →
  len new = missing_blocks m rid nt →
  (manager_cls m = MambaManager → len (blocks_of m rid ++ new) = 1) →
  wp (allocate_new_blocks rid nt) (λ r s, r = new ∧
    kv_inv (fst s) (<[i := snd s]> ms) H rest pend ∧ same_config p (fst s) ∧
    mgr_upd m (snd s) rid (blocks_of m rid ++ new) (num_cached_block m !! rid)) (p, m).
Proof.
  intros Hk Hi Hsome Hn Hmamba. pose proof (ki_core _ _ _ _ _ Hk) as Hc.
  pose proof (ki_req _ _ _ _ _ Hk i m rid Hi) as Hw.
  pose proof (repr_nodup _ _ (pc_queue _ _ Hc)) as Hnd. apply NoDup_app in Hnd as (Hnd & Hdis & _).
  assert (Hfree : ∀ q, q ∈ new → valid p q ∧ q ≠ null_block p ∧ blk_ref p q = 0).
  { intros q Hq. destruct (pc_free _ _ Hc q) as [Hv Hqn]; [rewrite elem_of_app; by left|].
    split_and!; try done. apply (ki_pool _ _ _ _ _ Hk); [done|done|]. rewrite elem_of_app. by left. }
  eapply wp_mono; [eapply allocate_new_blocks_spec; [apply Hk|done|done]|].
  intros r [p' m'] (-> & Hp' & Hu & Hm). simpl in *. pose proof Hu as (Hcfg & Hr & Hh).
  csplit; [done| |done|done].
  assert (Hkeep : ∀ q, q ∉ new → blk_hash p' q = blk_hash p q).
  { intros q Hq. by rewrite Hh, decide_False by tauto. }
  assert (Husedn : ∀ j m2 r2 q, ms !! j = Some m2 → q ∈ blocks_of m2 r2 → q ≠ null_block p → q ∉ new).
  { intros j m2 r2 q Hj Hq Hqn Hin. destruct (ki_used _ _ _ _ _ _ _ _ _ Hk Hj Hq Hqn) as (_ & _ & Hpos & _).
    destruct (Hfree q Hin) as (_ & _ & H0). lia. }
  eapply kv_inv_step; [exact Hk|exact Hi|exact Hm|exact Hp'|exact Hcfg|..].
  - intros q Hv Hqn. rewrite Hr, occ_app, (occ_nodup q new Hnd).
    destruct (decide (q ∈ new)) as [Hin|]; [|lia]. destruct (Hfree q Hin) as (_ & _ & ->). lia.
  - apply Hk.
  - intros q Hv Hqn Hnone. rewrite Hr. destruct (decide (q ∈ new)) as [|Hin]; [lia|].
    apply (ki_excl _ _ _ _ _ Hk q Hv Hqn). by rewrite <- Hkeep.
  - rewrite Hkeep; [by eapply ki_null_hash|]. intros Hin. by destruct (Hfree _ Hin) as (_ & ? & _).
  - intros Hcaching q Hv. rewrite Hh.
    destruct (decide (q ∈ new ∧ BlockPool.enable_caching p = true)); [done|]. by apply (ki_nocache _ _ _ _ _ Hk Hcaching).
  - intros j m2 r2 q Hj Hq Hqn _. apply Hkeep. by eapply Husedn.
  - done.
  - eapply req_wf_extended; [exact Hw|exact Hcfg|done|exact Hm|done| | |by eapply ki_null_hash].
    + intros q Hin. destruct (Hfree q Hin) as (? & ? & _). split_and!; try done.
      * intros Hq. by eapply Husedn.
      * intros Hcaching. by rewrite Hh, decide_True.
    + intros q Hq Hqn. apply Hkeep. by eapply Husedn.
Qed.

Lemma kv_inv_free p ms H free pend i m rid :
  kv_inv p ms H free pend → ms !! i = Some m →
  wp (SingleTypeManager.free rid) (λ _ s, 
    kv_inv (fst s) (<[i := snd s]> ms) H (free ++ released p (reverse (blocks_of m rid))) pend ∧
    mgr_upd m (snd s) rid [] None ∧
    pool_upd p (fst s) (λ q, blk_ref p q - occ q (blocks_of m rid)) (blk_hash p)) (p, m).
Proof.
  intros Hk Hi. pose proof (ki_req _ _ _ _ _ Hk i m rid Hi) as Hw.
  eapply wp_mono; [apply free_spec; [apply Hk|apply Hw|apply Hw|]|].
  { intros q Hq Hn. by eapply ki_used. }
  intros _ [p' m'] (Hp' & Hu & Hm). simpl in *. pose proof Hu as (Hcfg & Hr & Hh). csplit; [|done|done].
  eapply kv_inv_step; [exact Hk|exact Hi|exact Hm|exact Hp'|exact Hcfg|..].
  - intros q Hv Hn. rewrite Hr, occ_nil. lia.
  - apply Hk.
  - intros q Hv Hn Hnone. rewrite Hh in Hnone. rewrite Hr.
    pose proof (ki_excl _ _ _ _ _ Hk q Hv Hn Hnone). pose proof (occ_nonneg q (blocks_of m rid)). lia.
  - rewrite Hh. by eapply ki_null_hash.
  - intros Hcaching q Hv. rewrite Hh. by apply (ki_nocache _ _ _ _ _ Hk Hcaching).
  - intros j m2 r2 q _ _ _ _. apply Hh.
  - done.
  - pose proof (mgr_upd_blocks _ _ _ _ _ Hm) as Hb. pose proof (mgr_upd_cached _ _ _ _ _ Hm) as Hnc.
    split; rewrite ?Hb, ?Hnc; try done; [by intros q ?%not_elem_of_nil|constructor].
Qed.
End manager_steps.

(** * Caching under the invariant *)
Section cache_step.
Context (hash_function : Z * list Z * option (list extra_key) → Z) (NONE_HASH : Z).
Implicit Types (p : BlockPool) (m : SingleTypeKVCacheManager) (ms : list SingleTypeKVCacheManager)
  (H : string → list BlockHash) (free l : list ptr) (pend : ptr → Z) (q : ptr) (r : Request).

Abbreviation is_chain := (is_chain hash_function NONE_HASH).

(** What the caller of [cache_blocks] guarantees about the number [nf] of full
    blocks and the tokens. *)
Record commit_ok p m r hs (nc nf : nat) : Prop := {
  co_caching : BlockPool.enable_caching p = true;
  co_events : enable_kv_cache_events p = true → lora_request r = None;
  co_wf : mm_wf r;
  co_bs : 0 < manager_block_size m;
  co_count : num_cached_block m !! request_id r = Some (Z.of_nat nc);
  co_order : (nc <= nf <= length (blocks_of m (request_id r)))%nat;
  co_tokens : Z.of_nat nf * manager_block_size m <= len (all_token_ids r);
  co_chain : is_chain (manager_block_size m) (all_token_ids r) hs
}.

Lemma req_wf_cacheable p m r hs nc nf :
  req_wf p m (request_id r) hs → commit_ok p m r hs nc nf →
  cacheable hash_function NONE_HASH p r (blocks_of m (request_id r)) hs nc nf (manager_block_size m).
Proof.
  intros [Hv Hnd Hf Hc Hca] [Hcaching _ Hwf Hbs Hnc Hord Htok Hch].
  destruct (Hca _ Hnc Hcaching) as (Hle & Hnew & Hpar).
  assert (Hin : ∀ i q, (nc <= i)%nat → blocks_of m (request_id r) !! i = Some q →
    q ≠ null_block p ∧ blk_hash p q = None) by (intros i q Hi; apply Hnew; lia).
  split; try done.
  - unfold len in Hle. lia.
  - intros i q Hi Hq. split; [by eapply Hv, list_elem_of_lookup_2|]. apply (Hin i); [lia|done].
  - apply NoDup_by_lookup. intros i j q Hi Hj. rewrite lookup_drop in Hi, Hj.
    apply lookup_take_Some in Hi as [Hi _]. apply lookup_take_Some in Hj as [Hj _].
    destruct (Hin (nc + i)%nat q) as [Hqn _]; [lia|done|].
    pose proof (NoDup_filter_lookup _ _ _ _ _ Hnd Hi Hj Hqn). lia.
  - intros Hpos. destruct Hpar as (q & h & Hq & Hh & Hqh); [lia|].
    replace (Z.to_nat (Z.of_nat nc - 1)) with (nc - 1)%nat in * by lia.
    exists q, h, (kv_cache_group_id m). split_and!; try done. by eapply Hv, list_elem_of_lookup_2.
Qed.

Lemma req_wf_committed p p' m m' r hs hs' nc nf free :
  req_wf p m (request_id r) hs → commit_ok p m r hs nc nf →
  full_blocks_cached hash_function NONE_HASH p free r (blocks_of m (request_id r)) hs nc nf
    (manager_block_size m) (kv_cache_group_id m) hs' p' →
  mgr_upd m m' (request_id r) (blocks_of m (request_id r)) (Some (Z.of_nat nf)) →
  blk_hash p (null_block p) = None →
  req_wf p' m' (request_id r) hs'.
Proof.
  intros [Hv Hnd Hf Hc Hca] [Hcaching _ _ _ Hnc Hord _ _] (Hpre & _ & Hnf & _ & Hcfg & _ & Hcached & Hoth) Hm Hnull.
  set (bls := blocks_of m (request_id r)) in *. pose proof Hm as (_ & _ & Hg & _).
  pose proof (mgr_upd_blocks _ _ _ _ _ Hm) as Hb. pose proof (mgr_upd_cached _ _ _ _ _ Hm) as Hnc'.
  pose proof Hcfg as (_ & Hen & _ & Hnl & _). destruct (Hca _ Hnc Hcaching) as (Hle & Hnew & Hpar).
  split; rewrite ?Hb, ?Hnc'; try done.
  - intros q Hq. apply (valid_config p p' q Hcfg). by apply Hv.
  - by rewrite Hnl.
  - intros n [= <-]. unfold len. lia.
  - intros n [= <-] _. rewrite Hg, Hnl. split_and!; [unfold len; lia| |].
    + intros i q Hi Hq. destruct (Hnew i q) as [Hqn Hqh]; [lia|done|]. split; [done|].
      rewrite Hoth; [done|]. intros (j & Hj)%list_elem_of_lookup_1. rewrite lookup_drop in Hj.
      apply lookup_take_Some in Hj as [Hj Hlt]. pose proof (NoDup_filter_lookup _ _ _ _ _ Hnd Hq Hj Hqn). lia.
    + intros Hpos. replace (Z.to_nat (Z.of_nat nf - 1)) with (nf - 1)%nat by lia.
      destruct (lookup_lt_is_Some_2 bls (nf - 1)) as [q Hq]; [unfold bls in *; lia|].
      destruct (decide (nc = nf)) as [->|Hne].
      * destruct (Hpar Hpos) as (q' & h & Hq' & Hh & Hqh).
        replace (Z.to_nat (Z.of_nat nf - 1)) with (nf - 1)%nat in * by lia. simplify_eq. exists q, h.
        split_and!; [done|by eapply prefix_lookup_Some|]. rewrite Hoth; [done|].
        intros (j & Hj)%list_elem_of_lookup_1. rewrite lookup_drop in Hj.
        apply lookup_take_Some in Hj as [_ Hlt]. lia.
      * destruct (Hcached (nf - 1)%nat q) as (h & Hh & Hqh); [lia|done|]. exists q, h. done.
Qed.

Lemma kv_inv_cache p ms H free pend i m r nc nf n :
  kv_inv p ms H free pend → ms !! i = Some m →
  commit_ok p m r (H (request_id r)) nc nf → n / manager_block_size m = Z.of_nat nf →
  wp (cache_blocks hash_function NONE_HASH r (H (request_id r)) n) (λ hs' s,
    full_blocks_cached hash_function NONE_HASH p free r (blocks_of m (request_id r)) (H (request_id r)) nc nf
      (manager_block_size m) (kv_cache_group_id m) hs' (fst s) ∧
    mgr_upd m (snd s) (request_id r) (blocks_of m (request_id r)) (Some (Z.of_nat nf)) ∧
    kv_inv (fst s) (<[i := snd s]> ms) (λ x, if decide (x = request_id r) then hs' else H x) free pend) (p, m).
Proof.
  intros Hk Hi Hco Hn. pose proof (ki_req _ _ _ _ _ Hk i m (request_id r) Hi) as Hw.
  pose proof (req_wf_cacheable _ _ _ _ _ _ Hw Hco) as Hcab.
  eapply wp_mono; [apply cache_blocks_spec; [apply Hk|apply Hco|exact Hn|done|apply Hco]|].
  intros hs' [p' m'] [Hfull Hm]. simpl in *. csplit; [done|done|].
  pose proof Hfull as (Hpre & Hch & Hnf & Hp' & Hcfg & Hr & Hcached & Hoth).
  assert (Hnewin : ∀ q, q ∈ drop nc (take nf (blocks_of m (request_id r))) →
    q ∈ blocks_of m (request_id r) ∧ q ≠ null_block p ∧ blk_hash p q = None).
  { intros q (j & Hj)%list_elem_of_lookup_1. rewrite lookup_drop in Hj.
    apply lookup_take_Some in Hj as [Hj Hlt]. split; [by eapply list_elem_of_lookup_2|].
    eapply (ca_new _ _ _ _ _ _ _ _ _ Hcab); [|exact Hj]. lia. }
  eapply kv_inv_step; [exact Hk|exact Hi|exact Hm|exact Hp'|exact Hcfg|..].
  - intros q Hv Hqn. rewrite Hr. lia.
  - apply Hk.
  - intros q Hv Hqn Hnone. rewrite Hr. apply (ki_excl _ _ _ _ _ Hk q Hv Hqn).
    destruct (decide (q ∈ drop nc (take nf (blocks_of m (request_id r))))) as [Hin|Hin].
    + by apply Hnewin.
    + by rewrite <- Hoth.
  - rewrite Hoth; [by eapply ki_null_hash|]. intros Hin. by apply Hnewin in Hin as (_ & ? & _).
  - intros Hcaching. pose proof (co_caching _ _ _ _ _ _ Hco). congruence.
  - intros j m2 r2 q Hj Hq Hqn Hne. apply Hoth. intros Hin. apply Hnewin in Hin as (Hq1 & _ & Hqh).
    destruct (ki_exclusive _ _ _ _ _ _ _ _ _ _ _ _ Hk Hi Hj Hq1 Hq Hqn Hqh). naive_solver.
  - intros x. destruct (decide (x = request_id r)) as [->|]; done.
  - rewrite decide_True by done. eapply req_wf_committed; [exact Hw|exact Hco|exact Hfull|exact Hm|by eapply ki_null_hash].
Qed.
End cache_step.

(** * The coordinator's operations *)

Definition coord_at (p : BlockPool) (ms : list SingleTypeKVCacheManager) (c : KVCacheCoordinator) :=
  set_managers ms (set_block_pool p c).

(** The first [k] managers have been through a step described by [R], the others
    are as they were. *)
Definition walked (R : nat → SingleTypeKVCacheManager → SingleTypeKVCacheManager → Prop) (k : nat)
    (ms0 ms : list SingleTypeKVCacheManager) : Prop :=
  length ms = length ms0 ∧
  ∀ j m0 m, ms0 !! j = Some m0 → ms !! j = Some m → if decide (j < k)%nat then R j m0 m else m = m0.

Section walks.
Implicit Types (ms : list SingleTypeKVCacheManager) (m : SingleTypeKVCacheManager).

Lemma walked_0 R ms : walked R 0 ms ms.
Proof. split; [done|]. intros. rewrite decide_False by lia. congruence. Qed.

Lemma walked_lookup R k ms0 ms :
  walked R k ms0 ms → (k < length ms0)%nat → ∃ m, ms0 !! k = Some m ∧ ms !! k = Some m.
Proof.
  intros [Hlen Hw] Hk. destruct (lookup_lt_is_Some_2 ms0 k Hk) as [m0 H0].
  destruct (lookup_lt_is_Some_2 ms k) as [m Hm]; [lia|]. exists m0. split; [done|].
  pose proof (Hw k m0 m H0 Hm) as Heq. rewrite decide_False in Heq by lia. congruence.
Qed.

Lemma walked_step (R : nat → SingleTypeKVCacheManager → SingleTypeKVCacheManager → Prop) k ms0 ms m m' :
  walked R k ms0 ms → ms0 !! k = Some m → R k m m' → walked R (S k) ms0 (<[k := m']> ms).
Proof.
  intros [Hlen Hw] Hk HR. split; [by rewrite length_insert|].
  intros j m0 m1 H0 [(-> & <- & _)|[Hne H1]]%list_lookup_insert_Some.
  - rewrite decide_True by lia. by simplify_eq.
  - pose proof (Hw j m0 m1 H0 H1) as Hj. destruct (decide (j < k)%nat).
    + by rewrite decide_True by lia.
    + by rewrite decide_False by lia.
Qed.

Lemma walked_all R ms0 ms j m0 m :
  walked R (length ms0) ms0 ms → ms0 !! j = Some m0 → ms !! j = Some m → R j m0 m.
Proof.
  intros [_ Hw] H0 Hm. pose proof (Hw j m0 m H0 Hm) as HR.
  apply lookup_lt_Some in H0. by rewrite decide_True in HR by lia.
Qed.

(** The managers seen from the other side. *)
Lemma walked_back (R : nat → SingleTypeKVCacheManager → SingleTypeKVCacheManager → Prop) ms0 ms j m :
  walked R (length ms0) ms0 ms → ms !! j = Some m → ∃ m0, ms0 !! j = Some m0 ∧ R j m0 m.
Proof.
  intros Hw Hm. pose proof Hw as [Hlen _]. destruct (lookup_lt_is_Some_2 ms0 j) as [m0 H0].
  { apply lookup_lt_Some in Hm. lia. }
  exists m0. split; [done|]. by eapply walked_all.
Qed.

Lemma wp_on_manager {A} k (op : M ManagerState A) p ms c m (Q : A → KVCacheCoordinator → Prop) :
  ms !! k = Some m →
  wp op (λ a s, Q a (coord_at (fst s) (<[k := snd s]> ms) c)) (p, m) →
  wp (on_manager k op) Q (coord_at p ms c).
Proof.
  intros Hk Hop. unfold wp, on_manager in *. cbn [single_type_managers coord_at set_managers].
  rewrite Hk. cbn [block_pool coord_at set_managers set_block_pool].
  destruct (op (p, m)) as [[a|e] [p' m']]; [exact Hop|done].
Qed.
End walks.

Section coordinator_ops.
Implicit Types (p : BlockPool) (m : SingleTypeKVCacheManager) (ms : list SingleTypeKVCacheManager)
  (H : string → list BlockHash) (free l : list ptr) (news : list (list ptr)) (pend : ptr → Z)
  (q : ptr) (rid : string) (c : KVCacheCoordinator).

Lemma coord_remove_skipped_blocks_spec p ms c H free pend rid n :
  kv_inv p ms H free pend → (∀ i m, ms !! i = Some m → skip_ok p m rid n) →
  wp (coord_remove_skipped_blocks rid n) (λ _ c', ∃ p' ms' rel, c' = coord_at p' ms' c ∧
    kv_inv p' ms' H (free ++ rel) pend ∧ same_config p p' ∧ (∀ q, blk_hash p' q = blk_hash p q) ∧
    walked (λ _ m m', ∃ l' removed, mgr_upd m m' rid l' (num_cached_block m !! rid) ∧
      skipped (null_block p) (Z.to_nat (first_useful_block m rid n)) (blocks_of m rid) l' removed)
      (length ms) ms ms') (coord_at p ms c).
Proof.
  intros Hk Hok. unfold coord_remove_skipped_blocks. wp_steps. unfold manager_indices. simpl.
  set (R := λ (_ : nat) m m', ∃ l' removed, mgr_upd m m' rid l' (num_cached_block m !! rid) ∧
      skipped (null_block p) (Z.to_nat (first_useful_block m rid n)) (blocks_of m rid) l' removed).
  apply (wp_for_seq (λ k c', ∃ p' ms' rel, c' = coord_at p' ms' c ∧
    kv_inv p' ms' H (free ++ rel) pend ∧ same_config p p' ∧ (∀ q, blk_hash p' q = blk_hash p q) ∧
    walked R k ms ms')); [| |done].
  - exists p, ms, []. rewrite app_nil_r. csplit; try done. apply walked_0.
  - intros k c' Hlt (p1 & ms1 & rel & -> & Hk1 & Hcfg & Hh & Hw).
    destruct (walked_lookup _ _ _ _ Hw Hlt) as (m & Hm0 & Hm1). pose proof Hcfg as (_ & Hen & _ & Hnl & _).
    eapply wp_on_manager; [exact Hm1|]. eapply wp_mono; [eapply kv_inv_skip; [exact Hk1|exact Hm1|]|].
    { destruct (Hok k m Hm0) as [? Hc]. split; [done|]. rewrite Hen. exact Hc. }
    intros _ [p2 m2] [Hpost (rel2 & Hk2)]. destruct Hpost as (l' & removed & Hsk & _ & (Hcfg2 & _ & Hh2) & Hm).
    simpl in *. exists p2, (<[k := m2]> ms1), (rel ++ rel2). rewrite app_assoc. csplit; try done.
    + by etransitivity.
    + intros q. by rewrite Hh2.
    + eapply walked_step; [exact Hw|done|]. exists l', removed. by rewrite <- Hnl.
Qed.

(** The blocks the groups still need, per group. *)
Definition group_need p nt rid m new : Z :=
  cdiv nt (manager_block_size m) - len new - len (blocks_of m rid) + len (evictable_blocks p new).

Lemma coord_get_num_blocks_spec p ms c H free pend rid nt news :
  kv_inv p ms H free pend → length news = length ms → (∀ q, q ∈ concat news → valid p q) →
  wp (coord_get_num_blocks_to_allocate rid nt news) (λ n c', ∃ ms', c' = coord_at p ms' c ∧
    kv_inv p ms' H free pend ∧ n = zsum (zip_with (group_need p nt rid) ms news) ∧
    walked (λ _ m m', mgr_upd m m' rid (blocks_of m rid) (num_cached_block m !! rid)) (length ms) ms ms')
    (coord_at p ms c).
Proof.
  intros Hk Hlen Hv. unfold coord_get_num_blocks_to_allocate. wp_steps. unfold manager_indices. simpl.
  set (R := λ (_ : nat) m m', mgr_upd m m' rid (blocks_of m rid) (num_cached_block m !! rid)).
  set (needs := zip_with (group_need p nt rid) ms news).
  apply (wp_fold_seq (λ k n c', ∃ ms', c' = coord_at p ms' c ∧ kv_inv p ms' H free pend ∧
    n = zsum (take k needs) ∧ walked R k ms ms')).
  - exists ms. csplit; try done. apply walked_0.
  - intros k n c' Hlt (ms1 & -> & Hk1 & -> & Hw).
    destruct (walked_lookup _ _ _ _ Hw Hlt) as (m & Hm0 & Hm1).
    destruct (lookup_lt_is_Some_2 news k) as [new Hnew]; [lia|].
    apply wp_bind. eapply wp_lift_outcome; [by apply py_index_lookup|]. apply wp_bind.
    eapply wp_on_manager; [exact Hm1|]. eapply wp_mono; [eapply kv_inv_get_num; [exact Hk1|exact Hm1|]|].
    { intros q Hq. apply Hv. apply elem_of_concat. exists new. split; [by eapply list_elem_of_lookup_2|done]. }
    intros n [p2 m2] (? & Hk2 & Hm & Hn). simpl in *. subst p2. wp_steps. exists (<[k := m2]> ms1).
    csplit; [done|done| |by eapply walked_step].
    assert (Hneed : needs !! k = Some (group_need p nt rid m new)) by (apply lookup_zip_with_Some; eauto).
    rewrite (zsum_take_S _ _ _ Hneed). unfold group_need. lia.
  - intros n c' (ms' & -> & Hk' & -> & Hw). exists ms'. csplit; try done. f_equal. apply take_ge.
    unfold needs. rewrite length_zip_with. lia.
Qed.

Lemma coord_save_spec p ms c H free rid news (pend := λ q, occ q (concat news)) :
  kv_inv p ms H free pend → length news = length ms →
  (∀ i m new, ms !! i = Some m → news !! i = Some new → save_ok p m rid (H rid) new) →
  wp (coord_save_new_computed_blocks rid news) (λ _ c', ∃ ms', c' = coord_at p ms' c ∧
    (∃ pend', kv_inv p ms' H free pend' ∧ ∀ q, q ≠ null_block p → pend' q = 0) ∧
    walked (λ i m m', ∀ new, news !! i = Some new → mgr_upd m m' rid (blocks_of m rid ++ new)
      (Some (default (len new) (num_cached_block m !! rid)))) (length ms) ms ms') (coord_at p ms c).
Proof.
  intros Hk Hlen Hok. unfold coord_save_new_computed_blocks. wp_steps. unfold manager_indices. simpl.
  set (R := λ (i : nat) m m', ∀ new, news !! i = Some new → mgr_upd m m' rid (blocks_of m rid ++ new)
      (Some (default (len new) (num_cached_block m !! rid)))).
  apply (wp_for_seq (λ k c', ∃ ms', c' = coord_at p ms' c ∧ (∃ pend', kv_inv p ms' H free pend' ∧
    ∀ q, q ≠ null_block p → pend' q = occ q (concat news) - occ q (concat (take k news))) ∧ walked R k ms ms')).
  - exists ms. csplit; [done| |apply walked_0]. exists pend. split; [done|]. intros q _. unfold pend. simpl.
    rewrite occ_nil. lia.
  - intros k c' Hlt (ms1 & -> & (pend1 & Hk1 & Hpend1) & Hw).
    destruct (walked_lookup _ _ _ _ Hw Hlt) as (m & Hm0 & Hm1).
    destruct (lookup_lt_is_Some_2 news k) as [new Hnew]; [lia|].
    apply wp_bind. eapply wp_lift_outcome; [by apply py_index_lookup|].
    eapply wp_on_manager; [exact Hm1|]. eapply wp_mono; [eapply kv_inv_save; [exact Hk1|exact Hm1|by eapply Hok|]|].
    { intros q Hq. rewrite (Hpend1 q Hq). pose proof (concat_occ_split news k new q Hnew). lia. }
    intros _ [p2 m2] (? & Hk2 & Hm). simpl in *. subst p2. exists (<[k := m2]> ms1). csplit; [done| |].
    + eexists. split; [exact Hk2|]. intros q Hq. cbn beta. rewrite decide_False by done.
      rewrite (Hpend1 q Hq), (concat_take_S _ _ _ Hnew), occ_app. lia.
    + eapply walked_step; [exact Hw|done|]. intros new' Hnew'. by simplify_eq.
  - intros c' (ms' & -> & (pend' & Hk' & Hpend) & Hw). exists ms'. csplit; [done| |done].
    exists pend'. split; [done|]. intros q Hq. rewrite (Hpend q Hq), take_ge by lia. lia.
Qed.
End coordinator_ops.

Section coordinator_allocation.
Implicit Types (p : BlockPool) (m : SingleTypeKVCacheManager) (ms : list SingleTypeKVCacheManager)
  (H : string → list BlockHash) (free l : list ptr) (news : list (list ptr)) (pend : ptr → Z)
  (q : ptr) (rid : string) (c : KVCacheCoordinator).

Definition total_missing rid nt ms : Z := zsum ((λ m, missing_blocks m rid nt) <$> ms).

Lemma missing_blocks_nonneg m rid nt : 0 <= missing_blocks m rid nt.
Proof. unfold missing_blocks. lia. Qed.

Lemma total_missing_split rid nt ms k m :
  ms !! k = Some m →
  zsum (take k ((λ m, missing_blocks m rid nt) <$> ms)) + missing_blocks m rid nt <= total_missing rid nt ms.
Proof.
  intros Hk. unfold total_missing. set (l := _ <$> ms).
  assert (Hl : l !! k = Some (missing_blocks m rid nt)) by (unfold l; by rewrite list_lookup_fmap, Hk).
  rewrite <- (take_drop (S k) l) at 2. rewrite zsum_app, (zsum_take_S _ _ _ Hl).
  assert (0 <= zsum (drop (S k) l)); [|lia]. apply zsum_nonneg. intros x Hx.
  apply (list_elem_of_lookup_1 (drop (S k) l)) in Hx as [i Hi]. rewrite lookup_drop in Hi.
  unfold l in Hi. rewrite list_lookup_fmap in Hi. apply fmap_Some in Hi as (m1 & _ & ->).
  apply missing_blocks_nonneg.
Qed.

(** Every group gets its missing blocks, in the order of the free list. *)
Lemma coord_allocate_new_blocks_spec p ms c H free pend rid nt :
  kv_inv p ms H free pend → (∀ i m, ms !! i = Some m → is_Some (num_cached_block m !! rid)) →
  total_missing rid nt ms <= len free →
  (∀ i m, ms !! i = Some m → manager_cls m = MambaManager →
     len (blocks_of m rid) + missing_blocks m rid nt = 1) →
  wp (coord_allocate_new_blocks rid nt) (λ news c', ∃ p' ms' rest, c' = coord_at p' ms' c ∧
    free = concat news ++ rest ∧ length news = length ms ∧
    kv_inv p' ms' H rest pend ∧ same_config p p' ∧
    walked (λ i m m', ∃ new, news !! i = Some new ∧ len new = missing_blocks m rid nt ∧
      mgr_upd m m' rid (blocks_of m rid ++ new) (num_cached_block m !! rid)) (length ms) ms ms')
    (coord_at p ms c).
Proof.
  intros Hk Hsome Hfree Hmamba. unfold coord_allocate_new_blocks. wp_steps. unfold manager_indices. simpl.
  set (R := λ (news : list (list ptr)) (i : nat) m m', ∃ new, news !! i = Some new ∧
    len new = missing_blocks m rid nt ∧ mgr_upd m m' rid (blocks_of m rid ++ new) (num_cached_block m !! rid)).
  apply (wp_map_seq (λ k news c', ∃ p' ms' rest, c' = coord_at p' ms' c ∧
    free = concat news ++ rest ∧ length news = k ∧ kv_inv p' ms' H rest pend ∧ same_config p p' ∧
    len (concat news) = zsum (take k ((λ m, missing_blocks m rid nt) <$> ms)) ∧ walked (R news) k ms ms')).
  - exists p, ms, free. csplit; try done. apply walked_0.
  - intros k news c' Hlt (p1 & ms1 & rest & -> & Hf & Hln & Hk1 & Hcfg & Hlen & Hw).
    destruct (walked_lookup _ _ _ _ Hw Hlt) as (m & Hm0 & Hm1).
    pose proof (total_missing_split rid nt ms k m Hm0) as Htot.
    pose proof (missing_blocks_nonneg m rid nt) as Hnn.
    assert (Hrest : missing_blocks m rid nt <= len rest) by (rewrite Hf, len_app in Hfree; lia).
    rewrite <- (take_drop (Z.to_nat (missing_blocks m rid nt)) rest) in Hk1.
    set (new := take _ rest) in *. set (rest' := drop _ rest) in *.
    assert (Hnew : len new = missing_blocks m rid nt)
      by (unfold new, len in *; rewrite length_take; lia).
    eapply wp_on_manager; [exact Hm1|].
    eapply wp_mono; [eapply kv_inv_allocate; [exact Hk1|exact Hm1|by eapply Hsome|exact Hnew|]|].
    { intros Hcls. rewrite len_app, Hnew. by eapply Hmamba. }
    intros r [p2 m2] (-> & Hk2 & Hcfg2 & Hm). simpl in *. exists p2, (<[k := m2]> ms1), rest'.
    csplit; try done.
    + rewrite concat_app. simpl. rewrite app_nil_r, <- app_assoc. unfold new, rest'. by rewrite take_drop.
    + rewrite length_app. simpl. lia.
    + by etransitivity.
    + rewrite concat_app, len_app. simpl. rewrite app_nil_r, Hlen, Hnew. symmetry. apply zsum_take_S.
      by rewrite list_lookup_fmap, Hm0.
    + eapply walked_step; [|done|].
      * destruct Hw as [Hl Hw]. split; [done|]. intros j m0 m1 H0 H1. specialize (Hw j m0 m1 H0 H1).
        destruct (decide (j < k)%nat); [|done]. destruct Hw as (x & Hx & ? & ?). exists x.
        split; [by apply lookup_app_l_Some|done].
      * exists new. split; [|done]. by rewrite lookup_app_r, Hln, Nat.sub_diag by lia.
  - intros news c' (p' & ms' & rest & -> & Hf & Hln & Hk' & Hcfg & _ & Hw). exists p', ms', rest. by csplit.
Qed.

Lemma coord_free_spec p ms c H free pend rid :
  kv_inv p ms H free pend →
  wp (coord_free rid) (λ _ c', ∃ p' ms' rel, c' = coord_at p' ms' c ∧
    kv_inv p' ms' H (free ++ rel) pend ∧ same_config p p' ∧ (∀ q, blk_hash p' q = blk_hash p q) ∧
    walked (λ _ m m', mgr_upd m m' rid [] None) (length ms) ms ms') (coord_at p ms c).
Proof.
  intros Hk. unfold coord_free. wp_steps. unfold manager_indices. simpl.
  apply (wp_for_seq (λ k c', ∃ p' ms' rel, c' = coord_at p' ms' c ∧
    kv_inv p' ms' H (free ++ rel) pend ∧ same_config p p' ∧ (∀ q, blk_hash p' q = blk_hash p q) ∧
    walked (λ _ m m', mgr_upd m m' rid [] None) k ms ms')); [| |done].
  - exists p, ms, []. rewrite app_nil_r. csplit; try done. apply walked_0.
  - intros k c' Hlt (p1 & ms1 & rel & -> & Hk1 & Hcfg & Hh & Hw).
    destruct (walked_lookup _ _ _ _ Hw Hlt) as (m & Hm0 & Hm1).
    eapply wp_on_manager; [exact Hm1|]. eapply wp_mono; [eapply kv_inv_free; [exact Hk1|exact Hm1]|].
    intros _ [p2 m2] (Hk2 & Hm & (Hcfg2 & _ & Hh2)). simpl in *. rewrite <- app_assoc in Hk2.
    eexists p2, (<[k := m2]> ms1), _. csplit; [done|exact Hk2| | |].
    + by etransitivity.
    + intros q. by rewrite Hh2.
    + by eapply walked_step.
Qed.
End coordinator_allocation.

Section coordinator_caching.
Context (hash_function : Z * list Z * option (list extra_key) → Z) (NONE_HASH : Z).
Implicit Types (p : BlockPool) (m : SingleTypeKVCacheManager) (ms : list SingleTypeKVCacheManager)
  (H : string → list BlockHash) (free : list ptr) (pend : ptr → Z) (c : KVCacheCoordinator) (r : Request).

(** The hash list of one request replaced. *)
Definition upd_hashes H (rid : string) (hs : list BlockHash) : string → list BlockHash :=
  λ x, if decide (x = rid) then hs else H x.

(** What the caller guarantees for all groups: one block size, and in every group
    the table covers the tokens to cache and the count does not decrease. *)
Record commit_all_ok p ms r hs (bs n : Z) : Prop := {
  ca_caching : BlockPool.enable_caching p = true;
  ca_events : enable_kv_cache_events p = true → lora_request r = None;
  ca_mm : mm_wf r;
  ca_size : 0 < bs;
  ca_range : 0 <= n <= len (all_token_ids r);
  ca_hash_chain : is_chain hash_function NONE_HASH bs (all_token_ids r) hs;
  ca_groups : ∀ i m, ms !! i = Some m → manager_block_size m = bs ∧
    ∃ nc, num_cached_block m !! request_id r = Some nc ∧ 0 <= nc <= n / bs ∧
      n / bs <= len (blocks_of m (request_id r))
}.

Lemma coord_cache_blocks_spec p ms c H free pend r bs n :
  kv_inv p ms H free pend → commit_all_ok p ms r (H (request_id r)) bs n →
  wp (coord_cache_blocks hash_function NONE_HASH r (H (request_id r)) n) (λ hs' c', ∃ p' ms',
    c' = coord_at p' ms' c ∧ kv_inv p' ms' (upd_hashes H (request_id r) hs') free pend ∧ same_config p p' ∧
    H (request_id r) `prefix_of` hs' ∧ is_chain hash_function NONE_HASH bs (all_token_ids r) hs' ∧
    walked (λ _ m m', mgr_upd m m' (request_id r) (blocks_of m (request_id r)) (Some (n / bs)))
      (length ms) ms ms') (coord_at p ms c).
Proof.
  intros Hk Hok. set (rid := request_id r) in *. unfold coord_cache_blocks. wp_steps. unfold manager_indices. simpl.
  set (R := λ (_ : nat) m m', mgr_upd m m' rid (blocks_of m rid) (Some (n / bs))).
  assert (Hnb : 0 <= n / bs) by (apply Z.div_pos; [apply Hok|apply Hok]).
  apply (wp_fold_seq (λ k hs' c', ∃ p' ms', c' = coord_at p' ms' c ∧
    kv_inv p' ms' (upd_hashes H rid hs') free pend ∧ same_config p p' ∧
    H rid `prefix_of` hs' ∧ is_chain hash_function NONE_HASH bs (all_token_ids r) hs' ∧ walked R k ms ms')); [| |done].
  - exists p, ms. csplit; try done; [|apply Hok|apply walked_0].
    destruct Hk as [? ? ? ? ? ? ? ? Hreq]. split; try done. intros i m x Hi. unfold upd_hashes.
    case_decide; subst; by apply (Hreq i).
  - intros k hs c' Hlt (p1 & ms1 & -> & Hk1 & Hcfg & Hpre & Hch & Hw).
    destruct (walked_lookup _ _ _ _ Hw Hlt) as (m & Hm0 & Hm1). pose proof Hcfg as (_ & Hen & _ & _ & Hev).
    destruct (ca_groups _ _ _ _ _ _ Hok k m Hm0) as (Hbs & nc & Hnc & Hnc0 & Hcov).
    fold rid in Hnc, Hcov.
    assert (Hrid : upd_hashes H rid hs rid = hs) by (unfold upd_hashes; by rewrite decide_True).
    assert (Hco : commit_ok hash_function NONE_HASH p1 m r hs (Z.to_nat nc) (Z.to_nat (n / bs))).
    { split; fold rid.
      - rewrite Hen. apply Hok.
      - rewrite Hev. apply Hok.
      - apply Hok.
      - rewrite Hbs. apply Hok.
      - by rewrite Z2Nat.id by lia.
      - unfold len in Hcov. lia.
      - rewrite Hbs, Z2Nat.id by lia. pose proof (ca_range _ _ _ _ _ _ Hok). pose proof (ca_size _ _ _ _ _ _ Hok).
        pose proof (Z.div_mod n bs). pose proof (Z.mod_pos_bound n bs). lia.
      - by rewrite Hbs. }
    pose proof (kv_inv_cache hash_function NONE_HASH p1 ms1 (upd_hashes H rid hs) free pend k m r
      (Z.to_nat nc) (Z.to_nat (n / bs)) n Hk1 Hm1) as Hstep.
    fold rid in Hstep. rewrite Hrid in Hstep. specialize (Hstep Hco).
    eapply wp_on_manager; [exact Hm1|]. eapply wp_mono; [apply Hstep; rewrite Hbs; lia|].
    intros hs' [p2 m2] (Hfull & Hm & Hk2). simpl in *. destruct Hfull as (Hpre2 & Hch2 & _ & _ & Hcfg2 & _). exists p2, (<[k := m2]> ms1).
    csplit; [done| |by etransitivity|by etransitivity|by rewrite Hbs in Hch2|].
    + destruct Hk2 as [? ? ? ? ? ? ? ? Hreq]. split; try done. intros i x y Hi. specialize (Hreq i x y Hi).
      unfold upd_hashes in *. by destruct (decide (y = rid)).
    + eapply walked_step; [exact Hw|done|]. unfold R. by rewrite Z2Nat.id in Hm by lia.
Qed.
End coordinator_caching.

Section walk_composition.
Implicit Types (ms : list SingleTypeKVCacheManager) (m : SingleTypeKVCacheManager).

Lemma walked_trans (R1 R2 : nat → SingleTypeKVCacheManager → SingleTypeKVCacheManager → Prop) ms0 ms1 ms2 :
  walked R1 (length ms0) ms0 ms1 → walked R2 (length ms1) ms1 ms2 →
  walked (λ i m m', ∃ m1, ms1 !! i = Some m1 ∧ R1 i m m1 ∧ R2 i m1 m') (length ms0) ms0 ms2.
Proof.
  intros H1 H2. pose proof H1 as [Hl1 _]. pose proof H2 as [Hl2 _]. split; [congruence|].
  intros j m0 m Hm0 Hm. rewrite decide_True by by eapply lookup_lt_Some.
  destruct (walked_back _ _ _ _ _ H2 Hm) as (m1 & Hm1 & HR2). exists m1. split_and!; [done| |done].
  by eapply walked_all.
Qed.

Lemma walked_impl (R R' : nat → SingleTypeKVCacheManager → SingleTypeKVCacheManager → Prop) k ms0 ms :
  walked R k ms0 ms → (∀ i m m', ms0 !! i = Some m → R i m m' → R' i m m') → walked R' k ms0 ms.
Proof.
  intros [Hl Hw] HR. split; [done|]. intros j m0 m H0 Hm. specialize (Hw j m0 m H0 Hm).
  case_decide; [by apply HR|done].
Qed.
End walk_composition.

(** * Prefix hits *)
Section prefix_hits.
Context (hash_function : Z * list Z * option (list extra_key) → Z) (NONE_HASH : Z).
Context `{!CollisionFree hash_function NONE_HASH}.
Implicit Types (p : BlockPool) (hs : list BlockHash) (l : list ptr) (q : ptr) (toks : list Z).

(** The hashes of a chain are distinct, so no block is found twice. *)
Lemma hit_nodup p bs toks hs g l :
  0 < bs → is_chain hash_function NONE_HASH bs toks hs →
  (∀ i q, l !! i = Some q → q = null_block p ∨ hit_entry p hs g i q) →
  NoDup (filter (.≠ null_block p) l).
Proof.
  intros Hbs Hch Hent. apply NoDup_filter_by_lookup. intros i j q Hn Hi Hj.
  destruct (Hent i q Hi) as [?|(_ & h1 & Hh1 & Hq1)]; [done|].
  destruct (Hent j q Hj) as [?|(_ & h2 & Hh2 & Hq2)]; [done|].
  assert (h1 = h2) as <- by congruence.
  destruct (chain_inj hash_function NONE_HASH bs toks toks hs hs i j h1 h1) as [Hij _]; done.
Qed.

Lemma full_columns_hit_list p bs toks hs gs k cols i g l :
  0 < bs → is_chain hash_function NONE_HASH bs toks hs → full_columns p hs gs k cols →
  gs !! i = Some g → cols !! i = Some l → hit_list p hs g l ∧ length l = k.
Proof.
  intros Hbs Hch Hcols Hg Hl. destruct (Forall2_lookup_lr _ _ _ _ _ _ Hcols Hg Hl) as [Hlen Hent].
  split; [|done]. split.
  - intros j q Hq. right. by apply Hent.
  - intros q Hq. rewrite last_lookup in Hq. apply Hent. by rewrite Nat.sub_1_r.
  - eapply hit_nodup; [done|done|]. intros j q Hq. right. by apply Hent.
Qed.

Lemma window_result_hit_list p bs toks hs need K g l :
  0 < bs → is_chain hash_function NONE_HASH bs toks hs → (1 <= need)%nat →
  window_result p hs need K g l → hit_list p hs g l.
Proof.
  intros Hbs Hch Hneed (Hlen & Hent & Hlast). split; [done| |by eapply hit_nodup].
  intros q Hq. rewrite last_lookup in Hq. apply lookup_lt_Some in Hq as Hlt.
  rewrite Nat.sub_1_r. apply (Hlast (pred (length l))); [lia|done].
Qed.

(** A prefix of a hit of full attention is one. *)
Lemma full_columns_take p hs gs k k' cols :
  full_columns p hs gs k cols → full_columns p hs gs (Nat.min k' k) (take k' <$> cols).
Proof.
  intros H. eapply Forall2_fmap_cols; [exact H|]. intros g c [Hlen Hent]. rewrite length_take, Hlen.
  split; [done|]. intros i q [Hq _]%lookup_take_Some. by apply Hent.
Qed.

(** Dropping the last block of a window hit, for EAGLE. *)
Lemma window_drop_last p hs gs need K cols (use_eagle : bool) :
  gs ≠ [] → Forall2 (window_result p hs need K) gs cols →
  ∃ cols', drop_last_for_eagle use_eagle cols = Ok cols' ∧
    Forall2 (window_result p hs (if use_eagle then pred need else need) (if use_eagle then pred K else K)) gs cols'.
Proof.
  intros Hgs Hcols. unfold drop_last_for_eagle. destruct use_eagle; [|by eauto].
  destruct gs as [|g gs]; [done|]. destruct cols as [|c cols]; [by inversion Hcols|].
  rewrite (py_index_lookup _ 0 c) by done. cbn [mbind outcome_bind].
  pose proof Hcols as Hc0. apply Forall2_cons in Hc0 as [(Hlen & _) _].
  destruct c as [|q c].
  - simpl in Hlen. subst K. eexists. split; [done|]. eapply Forall2_impl; [exact Hcols|].
    intros g' c' (Hl & He & _). split_and!; [done|done|]. intros i q Hi Hq. apply lookup_lt_Some in Hq. lia.
  - unfold pop_each. set (all := (q :: c) :: cols) in *.
    assert (forallb (λ c, bool_decide (c ≠ [])) all = true) as ->.
    { apply forallb_forall. intros c' Hin. apply list_elem_of_In, list_elem_of_lookup_1 in Hin as [i Hi].
      apply bool_decide_eq_true_2. destruct (Forall2_lookup_r _ _ _ _ _ Hcols Hi) as (g' & _ & Hl & _).
      intros ->. simpl in *. by rewrite <- Hl in Hlen. }
    eexists. split; [done|]. eapply Forall2_fmap_cols; [exact Hcols|]. intros g' c' (Hl & He & Hrun).
    destruct c' as [|x c' _] using rev_ind; [simpl in *; by subst|].
    rewrite removelast_snoc. rewrite length_app in Hl. simpl in Hl. split_and!; [lia| |].
    + intros i b Hb. apply He. by apply lookup_app_l_Some.
    + intros i b Hi Hb. apply lookup_lt_Some in Hb as Hlt. apply Hrun; [lia|by apply lookup_app_l_Some].
Qed.

(** The hit of one class of layers that prefix caching supports. *)
Definition cacheable_spec (s : KVCacheSpec) : Prop :=
  0 < block_size s ∧
  match s with
  | FullAttentionSpec _ _ _ => True
  | SlidingWindowSpec _ window => 2 <= window
  | _ => False
  end.

Lemma find_longest_cache_hit_spec p free bs toks hs max_length gs s use_eagle :
  pool_core p free → is_chain hash_function NONE_HASH bs toks hs → block_size s = bs →
  cacheable_spec s → gs ≠ [] → 0 <= max_length →
  (is_sliding_window s = true → max_length / bs <= len hs) →
  ∃ cols K, SingleTypeManager.find_longest_cache_hit (spec_manager_map s) hs max_length gs p s use_eagle = Ok cols ∧
    length cols = length gs ∧ Z.of_nat K * bs <= max_length ∧ (K <= length hs)%nat ∧
    (∀ i g l, gs !! i = Some g → cols !! i = Some l → hit_list p hs g l ∧ length l = K) ∧
    (is_full_attention s = true → full_columns p hs gs K cols).
Proof.
  intros Hc Hch Hbs [Hpos Hs] Hgs Hmax Hlen.
  assert (Hmul : ∀ K : nat, Z.of_nat K <= max_length / bs → Z.of_nat K * bs <= max_length).
  { intros K HK. pose proof (Z.div_mod max_length bs). pose proof (Z.mod_pos_bound max_length bs). nia. }
  destruct s as [a w ch|a ch|a w|]; try done; simpl in Hbs, Hpos;
    cbn [spec_manager_map SingleTypeManager.find_longest_cache_hit].
  - destruct (find_longest_cache_hit_full_spec p free hs max_length gs (FullAttentionSpec a w ch) use_eagle)
      as (cols & k & -> & Hk & Hkm & Hcols & _); [done..|]. simpl in Hkm. rewrite Hbs in *.
    exists cols, (if use_eagle then pred k else k). split_and!; [done| | | | |done].
    + symmetry. by eapply Forall2_length.
    + apply Hmul. destruct use_eagle; lia.
    + destruct use_eagle; lia.
    + intros i g l Hg Hl. eapply full_columns_hit_list; [exact Hpos|exact Hch|exact Hcols|done|done].
  - rewrite Hbs in Hpos. pose proof (Hlen eq_refl) as Hlen'. clear Hlen. rewrite <- Hbs in Hpos, Hlen'.
    destruct (find_longest_cache_hit_window_spec p free hs max_length gs a w use_eagle)
      as (cols & K & -> & Hcols & HK & _); [done..|].
    destruct (window_drop_last _ _ _ _ _ _ use_eagle Hgs Hcols) as (cols' & -> & Hcols').
    assert (1 <= cdiv (w - 1) (attn_block_size a)) as Hneed.
    { pose proof (cdiv_bounds (w - 1) (attn_block_size a) Hpos). nia. }
    rewrite Hbs in *. exists cols', (if use_eagle then pred K else K). split_and!; [done| | | | |done].
    + symmetry. by eapply Forall2_length.
    + apply Hmul. destruct use_eagle; lia.
    + unfold len in Hlen'. destruct use_eagle; lia.
    + intros i g l Hg Hl. pose proof (Forall2_lookup_lr _ _ _ _ _ _ Hcols' Hg Hl) as Hres.
      split; [|by destruct Hres]. eapply window_result_hit_list; [exact Hpos|exact Hch| |exact Hres].
      destruct use_eagle; lia.
Qed.

(** How the groups of a coordinator and its managers fit together. *)
Definition coord_wf (c : KVCacheCoordinator) : Prop :=
  match kind c with
  | KVCacheCoordinatorNoPrefixCache => True
  | UnitaryKVCacheCoordinator s =>
    ∃ g, single_type_managers c = [g] ∧ manager_cls g = spec_manager_map s ∧ manager_spec g = s
  | HybridKVCacheCoordinator h =>
    is_full_attention (full_attention_spec h) = true ∧ other_attention_cls h = spec_manager_map (other_spec h) ∧
    full_attention_group_ids h ≠ [] ∧ other_group_ids h ≠ [] ∧
    (if full_attn_first h then full_attention_group_ids h ++ other_group_ids h
     else other_group_ids h ++ full_attention_group_ids h) = range (len (single_type_managers c))
  end.

(** The specs prefix caching is used with, all of block size [bs]. *)
Definition coord_cacheable (c : KVCacheCoordinator) (bs : Z) : Prop :=
  match kind c with
  | KVCacheCoordinatorNoPrefixCache => False
  | UnitaryKVCacheCoordinator s => cacheable_spec s ∧ block_size s = bs
  | HybridKVCacheCoordinator h =>
    cacheable_spec (full_attention_spec h) ∧ block_size (full_attention_spec h) = bs ∧
    cacheable_spec (other_spec h) ∧ block_size (other_spec h) = bs
  end.

(** Only a lone sliding-window group indexes the hashes up to [max_length]. *)
Definition enough_hashes (c : KVCacheCoordinator) (bs : Z) (hs : list BlockHash) (max_length : Z) : Prop :=
  match kind c with
  | UnitaryKVCacheCoordinator s => is_sliding_window s = true → max_length / bs <= len hs
  | _ => True
  end.

Definition common_hit p hs (n : nat) (news : list (list ptr)) (K : nat) : Prop :=
  length news = n ∧ ∀ i l, news !! i = Some l → hit_list p hs (Z.of_nat i) l ∧ length l = K.

Lemma column_head {A} (P : Z → list A → Prop) (ids : list Z) (cols : list (list A)) (K : nat) :
  ids ≠ [] → length cols = length ids →
  (∀ (i : nat) g c, ids !! i = Some g → cols !! i = Some c → P g c ∧ length c = K) →
  ∃ c0, py_index cols 0 = Ok c0 ∧ len c0 = Z.of_nat K.
Proof.
  intros Hn Hl H. destruct ids as [|g ids]; [done|]. destruct cols as [|c cols]; [done|].
  exists c. rewrite (py_index_lookup _ 0 c) by done. split; [done|].
  unfold len. f_equal. by destruct (H 0%nat g c).
Qed.

Lemma range_app_lookup ids1 ids2 (cols1 cols2 : list (list ptr)) n i l :
  ids1 ++ ids2 = range n → (cols1 ++ cols2) !! i = Some l →
  length cols1 = length ids1 → length cols2 = length ids2 →
  ∃ (ids : list Z) cols j, ids !! j = Some (Z.of_nat i) ∧ cols !! j = Some l ∧ 
    ((ids = ids1 ∧ cols = cols1) ∨ (ids = ids2 ∧ cols = cols2)).
Proof.
  intros Hids Hi Hl1 Hl2.
  assert (Hid : (ids1 ++ ids2) !! i = Some (Z.of_nat i)).
  { destruct (lookup_lt_is_Some_2 (ids1 ++ ids2) i) as [x Hx].
    { apply lookup_lt_Some in Hi. rewrite length_app in *. lia. }
    rewrite Hx. f_equal. rewrite Hids in Hx. by apply range_lookup in Hx as [-> _]. }
  apply lookup_app_Some in Hi as [Hi|[Hge Hi]].
  - exists ids1, cols1, i. split_and!; [|done|by left].
    rewrite lookup_app_l in Hid; [done|]. apply lookup_lt_Some in Hi. lia.
  - exists ids2, cols2, (i - length cols1)%nat. split_and!; [|done|by right].
    rewrite lookup_app_r in Hid by lia. by rewrite Hl1.
Qed.

Lemma hybrid_hit_spec p free bs toks hs max_length h use_eagle n :
  pool_core p free → is_chain hash_function NONE_HASH bs toks hs →
  is_full_attention (full_attention_spec h) = true → other_attention_cls h = spec_manager_map (other_spec h) →
  full_attention_group_ids h ≠ [] → other_group_ids h ≠ [] →
  (if full_attn_first h then full_attention_group_ids h ++ other_group_ids h
   else other_group_ids h ++ full_attention_group_ids h) = range (Z.of_nat n) →
  cacheable_spec (full_attention_spec h) → block_size (full_attention_spec h) = bs →
  cacheable_spec (other_spec h) → block_size (other_spec h) = bs → 0 <= max_length →
  ∃ news K, hybrid_hit p h use_eagle hs max_length = Ok (news, Z.of_nat K * bs) ∧
    common_hit p hs n news K ∧ Z.of_nat K * bs <= max_length.
Proof.
  intros Hc Hch Hf Hcls Hfi Hoi Hids Hfs Hfb Hos Hob Hmax. unfold hybrid_hit, full_attention_block_size, other_block_size.
  assert (Hbs : 0 < bs) by (rewrite <- Hfb; apply Hfs).
  destruct (find_longest_cache_hit_spec p free bs toks hs max_length (full_attention_group_ids h)
    (full_attention_spec h) use_eagle Hc Hch Hfb Hfs Hfi Hmax)
    as (fcols & K1 & Hfcols & Hlf & HK1 & HK1h & Hfhit & Hcols).
  { by destruct (full_attention_spec h). }
  specialize (Hcols Hf).
  assert (Hfull : spec_manager_map (full_attention_spec h) = FullAttentionManager) by by destruct (full_attention_spec h).
  rewrite Hfull in Hfcols. rewrite Hfcols. cbn [mbind outcome_bind].
  destruct (column_head (hit_list p hs) _ _ _ Hfi Hlf Hfhit) as (fc0 & Hfc0 & Hlfc).
  rewrite Hfc0. cbn [mbind outcome_bind]. rewrite Hlfc, Hcls, Hfb.
  destruct (find_longest_cache_hit_spec p free bs toks hs (Z.of_nat K1 * bs) (other_group_ids h)
    (other_spec h) use_eagle Hc Hch Hob Hos Hoi ltac:(lia)) as (ocols & K2 & -> & Hlo & HK2 & HK2h & Hohit & _).
  { intros _. rewrite Z.div_mul by lia. unfold len. lia. }
  cbn [mbind outcome_bind]. destruct (column_head (hit_list p hs) _ _ _ Hoi Hlo Hohit) as (oc0 & Hoc0 & Hloc).
  rewrite Hoc0. cbn [mbind outcome_bind]. rewrite Hloc, Hob, Z.mod_mul, decide_True, Z.div_mul by lia.
  assert (Hbound : Z.of_nat K2 * bs <= max_length) by lia.
  assert (Hmin : Nat.min K2 K1 = K2) by nia.
  assert (Hfcols' : slice_to (Z.of_nat K2) <$> fcols = take K2 <$> fcols).
  { apply list_fmap_ext. intros i l _. unfold slice_to, slice_bound. by rewrite decide_False, Nat2Z.id by lia. }
  rewrite Hfcols'. pose proof (full_columns_take _ _ _ _ K2 _ Hcols) as Htake. rewrite Hmin in Htake.
  pose proof (Forall2_length _ _ _ Htake) as Hlt.
  assert (Hfhit' : ∀ i g l, full_attention_group_ids h !! i = Some g → (take K2 <$> fcols) !! i = Some l →
    hit_list p hs g l ∧ length l = K2) by (intros i g l; by apply (full_columns_hit_list p bs toks)).
  eexists _, K2. split_and!; [done| |done]. apply (f_equal length) in Hids as Hlids.
  unfold range, range2 in Hlids. rewrite length_fmap, length_seq, Z.sub_0_r, Nat2Z.id in Hlids.
  destruct (full_attn_first h); (split; [rewrite length_app in *; lia|]); intros i l Hi.
  all: destruct (range_app_lookup _ _ _ _ _ _ _ Hids Hi ltac:(lia) ltac:(lia))
    as (ids & cols & j & Hj & Hjl & [[-> ->]|[-> ->]]); eauto.
Qed.

(** The search of the coordinator: a prefix of whole blocks cached for every group. *)
Lemma coord_find_longest_cache_hit_spec c free bs toks hs max_length :
  pool_core (block_pool c) free → is_chain hash_function NONE_HASH bs toks hs → coord_wf c →
  coord_cacheable c bs → enough_hashes c bs hs max_length → 0 <= max_length →
  ∃ news K, coord_find_longest_cache_hit c hs max_length = Ok (news, Z.of_nat K * bs) ∧
    common_hit (block_pool c) hs (length (single_type_managers c)) news K ∧ Z.of_nat K * bs <= max_length.
Proof.
  intros Hc Hch Hwf Hca Hen Hmax. unfold coord_find_longest_cache_hit, coord_wf, coord_cacheable, enough_hashes in *.
  destruct (kind c) as [|s|h]; [done| |].
  - destruct Hwf as (g & -> & Hcls & Hspec), Hca as [Hs Hbs].
    rewrite (py_index_lookup _ 0 g) by done. cbn [mbind outcome_bind]. rewrite Hcls.
    destruct (find_longest_cache_hit_spec (block_pool c) free bs toks hs max_length [0] s
      (KVCacheCoordinator.use_eagle c) Hc Hch Hbs Hs ltac:(done) Hmax Hen)
      as (cols & K & -> & Hl & HK & _ & Hhit & _).
    cbn [mbind outcome_bind]. destruct (column_head (hit_list (block_pool c) hs) [0] _ _ ltac:(done) Hl Hhit) as (c0 & Hc0 & Hlc).
    rewrite Hc0. cbn [mbind outcome_bind]. rewrite Hlc, Hbs. exists cols, K.
    split; [done|]. split; [|done]. split; [done|]. intros i l Hi. apply lookup_lt_Some in Hi as Hlt. rewrite Hl in Hlt.
    destruct i as [|i]; [|simpl in Hlt; lia]. by apply (Hhit 0%nat).
  - destruct Hwf as (Hf & Hcls & Hfi & Hoi & Hids), Hca as (Hfs & Hfb & Hos & Hob).
    by eapply hybrid_hit_spec.
Qed.
End prefix_hits.

(** * A new coordinator *)
Section construction.
Implicit Types (cfg : KVCacheConfig) (c : KVCacheCoordinator) (l : list Z).

Lemma list_max_le l x : x ∈ l → x <= list_max l.
Proof.
  destruct l as [|y l]; [by intros ?%not_elem_of_nil|]. simpl. intros Hx.
  assert (x = y ∨ x ∈ l) as H by by apply elem_of_cons in Hx. clear Hx.
  induction l as [|z l IH]; simpl; [destruct H as [->|?%not_elem_of_nil]; [lia|done]|].
  rewrite elem_of_cons in H. destruct H as [->|[->|H]]; [|lia|]; etrans; [apply IH; tauto|lia|apply IH; tauto|lia].
Qed.
Lemma list_min_le l x : x ∈ l → list_min l <= x.
Proof.
  destruct l as [|y l]; [by intros ?%not_elem_of_nil|]. simpl. intros Hx.
  assert (x = y ∨ x ∈ l) as H by by apply elem_of_cons in Hx. clear Hx.
  induction l as [|z l IH]; simpl; [destruct H as [->|?%not_elem_of_nil]; [lia|done]|].
  rewrite elem_of_cons in H. destruct H as [->|[->|H]]; [|lia|]; (etrans; [|apply IH; tauto]; lia).
Qed.

(** The groups a split has seen: the specs agree within each part, and the two
    lists of group numbers are increasing and make up all the numbers. *)
Definition split_inv (n : nat) (full other : option KVCacheSpec) (fi oi : list Z) : Prop :=
  StronglySorted Z.le fi ∧ StronglySorted Z.le oi ∧ fi ++ oi ≡ₚ range (Z.of_nat n) ∧
  (∀ s, full = Some s → is_full_attention s = true ∧ fi ≠ []) ∧
  (∀ s, other = Some s → is_full_attention s = false ∧ oi ≠ []).

Lemma range_succ (n : nat) : range (Z.of_nat (S n)) = range (Z.of_nat n) ++ [Z.of_nat n].
Proof. unfold range, range2. rewrite !Z.sub_0_r, !Nat2Z.id, seq_S, fmap_app. done. Qed.

Lemma sorted_snoc (n : nat) l :
  (∀ x, x ∈ l → x ∈ range (Z.of_nat n)) → StronglySorted Z.le l → StronglySorted Z.le (l ++ [Z.of_nat n]).
Proof.
  intros Hsub Hs. apply StronglySorted_app. split; [|split; [done|repeat constructor]].
  intros x y Hx ->%list_elem_of_singleton. apply Hsub in Hx as [i Hi]%list_elem_of_lookup.
  apply range_lookup in Hi. lia.
Qed.

Lemma sorted_range (n : nat) : StronglySorted Z.le (range (Z.of_nat n)).
Proof.
  induction n as [|n IH]; [constructor|]. rewrite range_succ. by apply sorted_snoc.
Qed.

Lemma split_inv_full n full other fi oi s :
  split_inv n full other fi oi → is_full_attention s = true →
  split_inv (S n) (Some s) other (fi ++ [Z.of_nat n]) oi.
Proof.
  intros (Hfi & Hoi & Hp & Hf & Ho) Hs. split_and!; [|done| | |done].
  - apply sorted_snoc; [|done]. intros x Hx. rewrite <- Hp. apply elem_of_app. by left.
  - rewrite range_succ, <- Hp, <- !app_assoc. by rewrite (Permutation_app_comm [_]).
  - intros s' [= <-]. split; [done|]. by destruct fi.
Qed.

Lemma split_inv_other n full other fi oi s :
  split_inv n full other fi oi → is_full_attention s = false →
  split_inv (S n) full (Some s) fi (oi ++ [Z.of_nat n]).
Proof.
  intros (Hfi & Hoi & Hp & Hf & Ho) Hs. split_and!; [done| | |done|].
  - apply sorted_snoc; [|done]. intros x Hx. rewrite <- Hp. apply elem_of_app. by right.
  - by rewrite range_succ, <- Hp, app_assoc.
  - intros s' [= <-]. split; [done|]. by destruct oi.
Qed.

Lemma split_groups_spec gs : ∀ n full other fi oi full' other' fi' oi',
  (∀ i z g, gs !! i = Some (z, g) → z = Z.of_nat (n + i)) → split_inv n full other fi oi →
  split_groups gs full other fi oi = Ok (full', other', fi', oi') →
  split_inv (n + length gs) full' other' fi' oi'.
Proof.
  induction gs as [|[z g] gs IH]; intros n full other fi oi full' other' fi' oi' Hids Hinv; simpl.
  - intros [= <- <- <- <-]. by rewrite Nat.add_0_r.
  - pose proof (Hids 0%nat z g eq_refl) as ->. rewrite Nat.add_0_r, <- Nat.add_succ_comm.
    assert (Hids' : ∀ i z g, gs !! i = Some (z, g) → z = Z.of_nat (S n + i)).
    { intros i z g' Hi. rewrite (Hids (S i) z g' Hi). lia. }
    destruct (is_full_attention (kv_cache_spec g)) eqn:Es; [destruct full as [s0|]|destruct other as [s0|]];
      try case_decide; try done; intros Hgo; (eapply (IH (S n)); [exact Hids'| |exact Hgo]); subst;
      eauto using split_inv_full, split_inv_other.
Qed.

Lemma verify_and_split_spec cfg enable_caching h :
  verify_and_split_kv_cache_groups cfg enable_caching = Ok h →
  is_full_attention (full_attention_spec h) = true ∧ other_attention_cls h = spec_manager_map (other_spec h) ∧
  full_attention_group_ids h ≠ [] ∧ other_group_ids h ≠ [] ∧
  (if full_attn_first h then full_attention_group_ids h ++ other_group_ids h
   else other_group_ids h ++ full_attention_group_ids h) = range (len (kv_cache_groups cfg)).
Proof.
  unfold verify_and_split_kv_cache_groups.
  destruct (split_groups _ _ _ _ _) as [[[[full other] fi] oi]|e] eqn:E; cbn [mbind outcome_bind]; [|done].
  apply (split_groups_spec _ 0) in E as (Hfi & Hoi & Hp & Hf & Ho);
    [|intros i z g Hi; by apply enumerate_lookup in Hi as [-> _]|by split_and!; try constructor].
  rewrite enumerate_length in Hp. change (Z.of_nat (0 + length _)) with (len (kv_cache_groups cfg)) in Hp.
  destruct full as [f|], other as [o|]; try done. destruct (Hf f eq_refl) as [Hff Hfn], (Ho o eq_refl) as [_ Hon].
  assert (Hsr : StronglySorted Z.le (range (len (kv_cache_groups cfg)))) by apply sorted_range.
  assert (Hsep : ∀ l1 l2, list_max l1 < list_min l2 → StronglySorted Z.le l1 → StronglySorted Z.le l2 →
    l1 ++ l2 ≡ₚ range (len (kv_cache_groups cfg)) → l1 ++ l2 = range (len (kv_cache_groups cfg))).
  { intros l1 l2 Hlt H1 H2 Hp12. eapply (StronglySorted_unique Z.le); [|done|done].
    apply StronglySorted_app. split; [|done]. intros x y Hx%list_max_le Hy%list_min_le. lia. }
  case_decide; [done|]. case_decide; [intros [= <-]; simpl; csplit; try done; by apply Hsep|].
  case_decide; [|done]. intros [= <-]. simpl. csplit; try done. apply Hsep; [done..|].
  by rewrite Permutation_app_comm.
Qed.

(** What every constructor builds. *)
Lemma base_init_spec k cfg eagle caching ev :
  0 < num_blocks cfg →
  ∃ c p, base_init k cfg eagle caching ev = Ok c ∧ kind c = k ∧ block_pool c = p ∧
    BlockPool.enable_caching p = caching ∧ num_gpu_blocks p = num_blocks cfg ∧
    single_type_managers c =
      ((λ '(i, g), get_manager_for_kv_cache_spec (kv_cache_spec g) p i) <$> enumerate (kv_cache_groups cfg)) ∧
    kv_inv p (single_type_managers c) (λ _, []) (Blk <$> seq 1 (Z.to_nat (num_blocks cfg) - 1)) (λ _, 0).
Proof.
  intros Hn. unfold base_init.
  destruct (BlockPool_init_spec (num_blocks cfg) caching ev Hn)
    as (p & -> & Hp & Hnum & Hca & Hev & Hnull & Hq & Hmeta).
  cbn [mbind outcome_bind]. eexists _, p. split_and!; [done..|]. cbn [single_type_managers].
  assert (Hm : ∀ i m, ((λ '(i, g), get_manager_for_kv_cache_spec (kv_cache_spec g) p i)
    <$> enumerate (kv_cache_groups cfg)) !! i = Some m →
    ∃ g, m = get_manager_for_kv_cache_spec (kv_cache_spec g) p (Z.of_nat i)).
  { intros i m. rewrite list_lookup_fmap. intros ([z g] & Hi & ->)%fmap_Some.
    apply enumerate_lookup in Hi as [-> _]. by exists g. }
  assert (Hheld : ∀ q, held q ((λ '(i, g), get_manager_for_kv_cache_spec (kv_cache_spec g) p i)
    <$> enumerate (kv_cache_groups cfg)) = 0).
  { intros q. unfold held. clear Hm. induction (enumerate (kv_cache_groups cfg)) as [|[z g] l IH]; [done|].
    cbn [fmap list_fmap] in *. by rewrite zsum_cons, IH. }
  constructor; [done|by rewrite Hnull; apply Hmeta| | | |done| | |].
  - intros i m (g & ->)%Hm. done.
  - intros i m (g & ->)%Hm. done.
  - intros q (i & -> & _) _. rewrite Hheld. by destruct (Hmeta i) as [-> _].
  - intros q (i & -> & _) _ _. by destruct (Hmeta i) as [-> _].
  - intros _ q (i & -> & _). by destruct (Hmeta i) as [_ ->].
  - intros i m rid (g & ->)%Hm. split; cbn; rewrite ?lookup_empty; try done; [by intros q ?%not_elem_of_nil|].
    constructor.
Qed.

(** A coordinator [get_kv_cache_coordinator] returns is well-formed, and its block
    tables are empty. *)
Lemma get_kv_cache_coordinator_spec cfg eagle caching ev c :
  0 < num_blocks cfg → get_kv_cache_coordinator cfg eagle caching ev = Ok c →
  coord_wf c ∧ BlockPool.enable_caching (block_pool c) = caching ∧ num_gpu_blocks (block_pool c) = num_blocks cfg ∧
  single_type_managers c = ((λ '(i, g), get_manager_for_kv_cache_spec (kv_cache_spec g) (block_pool c) i)
    <$> enumerate (kv_cache_groups cfg)) ∧
  kv_inv (block_pool c) (single_type_managers c) (λ _, [])
    (Blk <$> seq 1 (Z.to_nat (num_blocks cfg) - 1)) (λ _, 0).
Proof.
  intros Hn. unfold get_kv_cache_coordinator.
  destruct (negb caching) eqn:Hca.
  - destruct (base_init_spec KVCacheCoordinatorNoPrefixCache cfg eagle false ev Hn)
      as (c' & p & -> & Hk & <- & Hen & Hnum & Hms & Hinv). destruct caching; [done|]. intros [= <-].
    split_and!; try done. unfold coord_wf. by rewrite Hk.
  - destruct caching; [|done].
    assert (Hmulti : (c0 ← base_init KVCacheCoordinatorNoPrefixCache cfg eagle true ev;
        h ← verify_and_split_kv_cache_groups cfg true;
        Ok (mkCoordinator (HybridKVCacheCoordinator h) (coord_config c0) (coord_enable_caching c0)
          (KVCacheCoordinator.use_eagle c0) (block_pool c0) (single_type_managers c0))) = Ok c → coord_wf c ∧ BlockPool.enable_caching (block_pool c) = true ∧ num_gpu_blocks (block_pool c) = num_blocks cfg ∧
  single_type_managers c = ((λ '(i, g), get_manager_for_kv_cache_spec (kv_cache_spec g) (block_pool c) i)
    <$> enumerate (kv_cache_groups cfg)) ∧
  kv_inv (block_pool c) (single_type_managers c) (λ _, [])
    (Blk <$> seq 1 (Z.to_nat (num_blocks cfg) - 1)) (λ _, 0)).
    { destruct (base_init_spec KVCacheCoordinatorNoPrefixCache cfg eagle true ev Hn)
        as (c' & p & -> & Hk & <- & Hen & Hnum & Hms & Hinv). cbn [mbind outcome_bind].
      destruct (verify_and_split_kv_cache_groups cfg true) as [h|e] eqn:Eh; cbn [mbind outcome_bind]; [|done].
      intros [= <-]. split_and!; try done. apply verify_and_split_spec in Eh as (? & ? & ? & ? & Hids).
      unfold coord_wf. cbn [kind single_type_managers]. split_and!; try done. rewrite Hids, Hms.
      unfold len. by rewrite length_fmap, enumerate_length. }
    destruct (kv_cache_groups cfg) as [|g [|g2 gs]] eqn:Egs; [exact Hmulti| |exact Hmulti].
    destruct (base_init_spec (UnitaryKVCacheCoordinator (kv_cache_spec g)) cfg eagle true ev Hn)
      as (c' & p & -> & Hk & <- & Hen & Hnum & Hms & Hinv). intros [= <-]. rewrite Egs in Hms.
    split_and!; try done. unfold coord_wf. rewrite Hk, Hms. by eexists.
Qed.
End construction.
