(* ===== verification/KVCacheManager.v ===== *)
(** The KV-cache manager of [v1/core/kv_cache_manager.py], the scheduler's interface
    to the block pool: prefix-cache lookups, slot allocation and freeing. *)
From Stdlib Require Import ZArith Lia QArith.
From stdpp Require Import base strings countable gmap sets fin_maps list.
From S2P Require Import Prelude FreeBlockQueue Request BlockHash BlockPool KVCacheSpec SingleTypeManager KVCacheCoordinator.
Local Open Scope Z_scope.

(** * [KVCacheBlocks] *)

Definition KVCacheBlocks : Type := list (list ptr).

Definition KVCacheBlocks_add (a b : KVCacheBlocks) : KVCacheBlocks := zip_with app a b.
Definition new_empty (a : KVCacheBlocks) : KVCacheBlocks := replicate (length a) [].

Definition load_in (p : BlockPool) (b : ptr) : outcome KVCacheBlock :=
  match heap (free_block_queue p) !! b with Some blk => Ok blk | None => Raise DanglingReference end.

Fixpoint map_outcome {A B} (f : A → outcome B) (l : list A) : outcome (list B) :=
  match l with
  | [] => Ok []
  | x :: l' => y ← f x; ys ← map_outcome f l'; Ok (y :: ys)
  end.

Definition get_block_ids (p : BlockPool) (a : KVCacheBlocks) : outcome (list (list Z)) :=
  map_outcome (map_outcome (λ b, blk ← load_in p b; Ok (block_id blk))) a.

Definition get_unhashed_block_ids (p : BlockPool) (a : KVCacheBlocks) : outcome (list Z) :=
  match a with
  | [group] =>
    blks ← map_outcome (load_in p) group;
    Ok (block_id <$> List.filter (λ blk, bool_decide (block_hash blk = None)) blks)
  | _ => Raise AssertionError
  end.

(** * State *)

(** [PrefixCacheStats] of [v1/metrics/stats.py]. *)
Record PrefixCacheStats : Type := mkPrefixCacheStats {
  stats_reset : bool;
  requests : Z;
  queries : Z;
  hits : Z
}.
Definition empty_stats : PrefixCacheStats := mkPrefixCacheStats false 0 0 0.

Record KVCacheManager : Type := mkKVCacheManager {
  manager_max_model_len : Z;
  enable_caching : bool;
  manager_block_size_opt : option Z;
  coordinator : KVCacheCoordinator;
  num_kv_cache_groups : Z;
  req_to_block_hashes : gmap string (list BlockHash);
  log_stats : bool;
  prefix_cache_stats : option PrefixCacheStats
}.

Definition set_coordinator (c : KVCacheCoordinator) (m : KVCacheManager) : KVCacheManager :=
  mkKVCacheManager (manager_max_model_len m) (enable_caching m) (manager_block_size_opt m) c
    (num_kv_cache_groups m) (req_to_block_hashes m) (log_stats m) (prefix_cache_stats m).
Definition set_hashes (h : gmap string (list BlockHash)) (m : KVCacheManager) : KVCacheManager :=
  mkKVCacheManager (manager_max_model_len m) (enable_caching m) (manager_block_size_opt m) (coordinator m)
    (num_kv_cache_groups m) h (log_stats m) (prefix_cache_stats m).
Definition set_stats (st : option PrefixCacheStats) (m : KVCacheManager) : KVCacheManager :=
  mkKVCacheManager (manager_max_model_len m) (enable_caching m) (manager_block_size_opt m) (coordinator m)
    (num_kv_cache_groups m) (req_to_block_hashes m) (log_stats m) st.

Definition on_coordinator {A} (m : M KVCacheCoordinator A) : M KVCacheManager A :=
  zoom coordinator set_coordinator m.
Definition the_pool (m : KVCacheManager) : BlockPool := block_pool (coordinator m).
Definition on_block_pool {A} (m : M BlockPool A) : M KVCacheManager A :=
  on_coordinator (zoom block_pool set_block_pool m).

Definition hashes_of (m : KVCacheManager) (request_id : string) : list BlockHash :=
  default [] (req_to_block_hashes m !! request_id).
Definition write_hashes (request_id : string) (hs : list BlockHash) : M KVCacheManager unit :=
  modify (λ m, set_hashes (<[request_id := hs]> (req_to_block_hashes m)) m).
(** [self.req_to_block_hashes[request_id]] of the [defaultdict]. *)
Definition read_hashes (request_id : string) : M KVCacheManager (list BlockHash) :=
  hs ← gets (λ m, hashes_of m request_id); write_hashes request_id hs ;; mret hs.

Definition create_empty_block_list (m : KVCacheManager) : KVCacheBlocks :=
  replicate (Z.to_nat (num_kv_cache_groups m)) [].

(** * Operations *)

Definition KVCacheManager_init (cfg : KVCacheConfig) (max_model_len : Z)
    (enable_caching use_eagle log_stats enable_kv_cache_events : bool) : outcome KVCacheManager :=
  let enable_caching := if decide (len (kv_cache_groups cfg) = 0) then false else enable_caching in
  bs ← (if enable_caching then
          match remove_dups ((λ g, block_size (kv_cache_spec g)) <$> kv_cache_groups cfg) with
          | [bs] => Ok (Some bs)
          | _ => Raise AssertionError
          end
        else Ok None);
  c ← get_kv_cache_coordinator cfg use_eagle enable_caching enable_kv_cache_events;
  Ok (mkKVCacheManager max_model_len enable_caching bs c (len (kv_cache_groups cfg)) ∅ log_stats
        (if log_stats then Some empty_stats else None)).

Definition usage (m : KVCacheManager) : Q := get_usage (the_pool m).

Definition make_prefix_cache_stats : M KVCacheManager (option PrefixCacheStats) :=
  ls ← gets log_stats;
  if (ls : bool) then
    st ← gets prefix_cache_stats;
    modify (set_stats (Some empty_stats)) ;;
    mret st
  else mret None.

Definition free (request : Request) : M KVCacheManager unit :=
  on_coordinator (coord_free (request_id request)).

Definition reset_prefix_cache : M KVCacheManager bool :=
  ok ← on_block_pool BlockPool.reset_prefix_cache;
  if (ok : bool) then
    ls ← gets log_stats;
    (if (ls : bool) then
       st ← gets prefix_cache_stats;
       match st with
       | None => raise AssertionError
       | Some s => modify (set_stats (Some (mkPrefixCacheStats true (requests s) (queries s) (hits s))))
       end
     else mret tt) ;;
    mret true
  else mret false.

Definition get_num_common_prefix_blocks (request : Request) (num_running_requests : Z)
    : M KVCacheManager (list Z) :=
  assert_ (bool_decide (status request = RUNNING)) ;;
  on_coordinator (coord_get_num_common_prefix_blocks (request_id request) num_running_requests).

Definition free_block_hashes (request : Request) : M KVCacheManager unit :=
  modify (λ m, set_hashes (delete (request_id request) (req_to_block_hashes m)) m).

Definition take_events : M KVCacheManager (list KVCacheEvent) := on_block_pool BlockPool.take_events.

Definition manager_get_block_ids (request_id : string) : M KVCacheManager (list (list Z)) :=
  m ← get;
  lift_outcome (get_block_ids (the_pool m) (get_blocks (coordinator m) request_id)).

Section with_hash.
Variable hash_function : Z * list Z * option (list extra_key) → Z.
Variable NONE_HASH : Z.

(** Prompt log-probabilities need every prompt token computed. *)
Definition skips_prefix_cache (m : KVCacheManager) (request : Request) : bool :=
  negb (enable_caching m) ||
  match sampling_params request with
  | Some sp => bool_decide (is_Some (prompt_logprobs sp))
  | None => false
  end.

Definition count_hit (request : Request) (num_new_computed_tokens : Z) : M KVCacheManager unit :=
  ls ← gets log_stats;
  if (ls : bool) then
    st ← gets prefix_cache_stats;
    match st with
    | None => raise AssertionError
    | Some s => modify (set_stats (Some (mkPrefixCacheStats (stats_reset s) (requests s + 1)
                  (queries s + num_tokens request) (hits s + num_new_computed_tokens))))
    end
  else mret tt.

(** The request's block hashes, computed when there are none yet. *)
Definition request_block_hashes (request : Request) : M KVCacheManager (list BlockHash) :=
  block_hashes ← read_hashes (request_id request);
  match block_hashes with
  | [] =>
    bs ← gets manager_block_size_opt;
    match bs with
    | None => raise AssertionError
    | Some bs =>
      hs ← lift_outcome (hash_request_tokens hash_function NONE_HASH bs request);
      write_hashes (request_id request) hs ;;
      mret hs
    end
  | _ => mret block_hashes
  end.

Definition get_computed_blocks (request : Request) : M KVCacheManager (KVCacheBlocks * Z) :=
  m ← get;
  if skips_prefix_cache m request then mret (create_empty_block_list m, 0)
  else
    block_hashes ← request_block_hashes request;
    let max_cache_hit_length := num_tokens request - 1 in
    c ← gets coordinator;
    '(computed_blocks, num_new_computed_tokens) ←
      lift_outcome (coord_find_longest_cache_hit c block_hashes max_cache_hit_length);
    count_hit request num_new_computed_tokens ;;
    mret (computed_blocks, num_new_computed_tokens).

(** [self.coordinator.cache_blocks(request, self.req_to_block_hashes[...], n)]. *)
Definition commit_blocks (request : Request) (n : Z) : M KVCacheManager unit :=
  hs ← read_hashes (request_id request);
  hs' ← on_coordinator (coord_cache_blocks hash_function NONE_HASH request hs n);
  write_hashes (request_id request) hs'.

(** Taking references to the blocks the prefix cache has found. *)
Definition claim_computed_blocks (new_computed_block_list : KVCacheBlocks) : M KVCacheManager unit :=
  caching ← gets enable_caching;
  if (caching : bool) then on_block_pool (touch new_computed_block_list)
  else assert_ (forallb (λ l, bool_decide (l = [])) new_computed_block_list).

Definition allocate_slots (request : Request) (num_new_tokens num_new_computed_tokens : Z)
    (new_computed_blocks : option KVCacheBlocks) (num_lookahead_tokens : Z) (delay_cache_blocks : bool)
    : M KVCacheManager (option KVCacheBlocks) :=
  if decide (num_new_tokens = 0) then raise ValueError
  else
    m ← get;
    let rid := request_id request in
    let new_computed_block_list :=
      match new_computed_blocks with Some b => b | None => create_empty_block_list m end in
    on_coordinator (coord_remove_skipped_blocks rid (Request.num_computed_tokens request)) ;;
    let num_computed_tokens := Request.num_computed_tokens request + num_new_computed_tokens in
    let num_tokens_need_slot :=
      Z.min (num_computed_tokens + num_new_tokens + num_lookahead_tokens) (manager_max_model_len m) in
    num_blocks_to_allocate ←
      on_coordinator (coord_get_num_blocks_to_allocate rid num_tokens_need_slot new_computed_block_list);
    num_free ← gets (λ m, get_num_free_blocks (the_pool m));
    if decide (num_blocks_to_allocate > num_free) then mret None
    else
      claim_computed_blocks new_computed_block_list ;;
      on_coordinator (coord_save_new_computed_blocks rid new_computed_block_list) ;;
      new_blocks ← on_coordinator (coord_allocate_new_blocks rid num_tokens_need_slot);
      if negb (enable_caching m) || delay_cache_blocks then mret (Some new_blocks)
      else
        commit_blocks request (Z.min (num_computed_tokens + num_new_tokens) (num_tokens request)) ;;
        mret (Some new_blocks).

Definition cache_blocks (request : Request) (num_computed_tokens : Z) : M KVCacheManager unit :=
  caching ← gets enable_caching;
  if (caching : bool) then commit_blocks request num_computed_tokens else mret tt.
End with_hash.

(** * Correctness *)

(** The manager's invariant.  [toks] is what the requests' token lists are; the
    manager itself never sees a request between calls. *)
Record kvm_inv (m : KVCacheManager) (toks : string → list Z) (free : list ptr)
    (hash_function : Z * list Z * option (list extra_key) → Z) (NONE_HASH : Z) : Prop := {
  km_inv : kv_inv (the_pool m) (single_type_managers (coordinator m)) (hashes_of m) free (λ _, 0);
  km_caching : BlockPool.enable_caching (the_pool m) = enable_caching m;
  km_groups : num_kv_cache_groups m = len (single_type_managers (coordinator m));
  km_sizes : ∀ i g, single_type_managers (coordinator m) !! i = Some g → 0 < manager_block_size g;
  km_block_size : enable_caching m = true → ∃ bs, manager_block_size_opt m = Some bs ∧ 0 < bs ∧
    (∀ i g, single_type_managers (coordinator m) !! i = Some g → manager_block_size g = bs) ∧
    ∀ rid, is_chain hash_function NONE_HASH bs (toks rid) (hashes_of m rid)
}.

Section pool_arithmetic.
Implicit Types (p : BlockPool) (free : list ptr) (news : list (list ptr)) (q : ptr).

Lemma evictable_concat p news :
  len (evictable_blocks p (concat news)) = zsum ((λ new, len (evictable_blocks p new)) <$> news).
Proof.
  induction news as [|new news IH]; [done|]. cbn [concat fmap list_fmap]. rewrite zsum_cons, <- IH.
  unfold evictable_blocks. by rewrite filter_app, len_app.
Qed.

(** Claiming a prefix hit takes no more blocks off the free list than
    [get_num_blocks_to_allocate] has counted. *)
Lemma evictable_bound p free news :
  pool_inv p free → (∀ q, q ∈ concat news → valid p q) →
  len free <= len (filter (.∉ concat news) free) + zsum ((λ new, len (evictable_blocks p new)) <$> news).
Proof.
  intros [Hc Hr] Hv. rewrite (len_filter_split (.∈ concat news) free), <- evictable_concat.
  assert (len (filter (.∈ concat news) free) <= len (evictable_blocks p (concat news))); [|lia].
  unfold len. apply inj_le, submseteq_length, NoDup_submseteq.
  - apply NoDup_filter. apply (repr_nodup _ _ (pc_queue _ _ Hc)).
  - intros q [Hin Hq]%list_elem_of_filter. destruct (pc_free _ _ Hc q Hq) as [Hvq Hn].
    apply list_elem_of_filter. split; [|done]. split; [done|]. by apply (Hr q Hvq Hn).
Qed.
End pool_arithmetic.

Section slot_arithmetic.
Implicit Types (g : SingleTypeKVCacheManager).

(** When every group covers the same number [N] of tokens, the groups' needs have
    one sign, and their sum bounds the blocks that are really taken. *)
Lemma missing_of_need g rid nt N l :
  0 < manager_block_size g → len (blocks_of g rid) = cdiv N (manager_block_size g) - len (l : list ptr) →
  ∀ g', manager_spec g' = manager_spec g → blocks_of g' rid = blocks_of g rid ++ l →
  missing_blocks g' rid nt = Z.max 0 (cdiv nt (manager_block_size g) - cdiv N (manager_block_size g)).
Proof.
  intros Hbs Hlen g' Hspec Hb. unfold missing_blocks, manager_block_size in *. rewrite Hspec, Hb, len_app. lia.
Qed.

Lemma cdiv_max a b bs : 0 < bs → cdiv a bs + Z.max 0 (cdiv b bs - cdiv a bs) = cdiv (Z.max a b) bs.
Proof.
  intros Hbs. destruct (Z.max_spec a b) as [[? ->]|[? ->]].
  - pose proof (cdiv_mono a b bs Hbs). lia.
  - pose proof (cdiv_mono b a bs Hbs). lia.
Qed.
End slot_arithmetic.

Definition km_at (m : KVCacheManager) (p : BlockPool) (ms : list SingleTypeKVCacheManager)
    (hm : gmap string (list BlockHash)) : KVCacheManager :=
  set_hashes hm (set_coordinator (coord_at p ms (coordinator m)) m).

(** What no operation changes. *)
Record same_settings (m m' : KVCacheManager) : Prop := {
  ss_pool : same_config (the_pool m) (the_pool m');
  ss_max_model_len : manager_max_model_len m' = manager_max_model_len m;
  ss_caching : enable_caching m' = enable_caching m;
  ss_block_size : manager_block_size_opt m' = manager_block_size_opt m;
  ss_groups : num_kv_cache_groups m' = num_kv_cache_groups m;
  ss_log_stats : log_stats m' = log_stats m;
  ss_stats : is_Some (prefix_cache_stats m) → is_Some (prefix_cache_stats m');
  ss_kind : kind (coordinator m') = kind (coordinator m)
}.

#[export] Instance same_settings_preorder : PreOrder same_settings.
Proof.
  split; [by split|]. intros m1 m2 m3 H12 H23. destruct H12, H23. split; try congruence; [by etransitivity|auto].
Qed.

Section km_steps.
Implicit Types (m : KVCacheManager) (p : BlockPool) (ms : list SingleTypeKVCacheManager)
  (hm : gmap string (list BlockHash)).

Lemma km_at_settings m p ms hm : same_config (the_pool m) p → same_settings m (km_at m p ms hm).
Proof. by split. Qed.

Lemma km_at_id m : km_at m (the_pool m) (single_type_managers (coordinator m)) (req_to_block_hashes m) = m.
Proof. destruct m as [? ? ? [] ? ? ? ?]. done. Qed.

Lemma wp_km_start {A} (op : M KVCacheManager A) m Q :
  wp op Q (km_at m (the_pool m) (single_type_managers (coordinator m)) (req_to_block_hashes m)) → wp op Q m.
Proof. by rewrite km_at_id. Qed.

Lemma wp_on_coordinator {A} (op : M KVCacheCoordinator A) m p ms hm (Q : A → KVCacheManager → Prop) :
  wp op (λ a c', ∃ p' ms', c' = coord_at p' ms' (coordinator m) ∧ Q a (km_at m p' ms' hm))
    (coord_at p ms (coordinator m)) →
  wp (on_coordinator op) Q (km_at m p ms hm).
Proof.
  intros Hop. apply wp_zoom. eapply wp_mono; [exact Hop|]. by intros a c' (p' & ms' & -> & HQ).
Qed.

Lemma wp_on_block_pool {A} (op : M BlockPool A) m p ms hm (Q : A → KVCacheManager → Prop) :
  wp op (λ a p', Q a (km_at m p' ms hm)) p → wp (on_block_pool op) Q (km_at m p ms hm).
Proof. intros Hop. apply wp_zoom, wp_zoom. exact Hop. Qed.

Lemma wp_read_hashes m p ms hm rid (Q : list BlockHash → KVCacheManager → Prop) :
  Q (default [] (hm !! rid)) (km_at m p ms (<[rid := default [] (hm !! rid)]> hm)) →
  wp (read_hashes rid) Q (km_at m p ms hm).
Proof. intros HQ. exact HQ. Qed.

Lemma kv_inv_hashes_ext p ms H H' free pend :
  kv_inv p ms H free pend → (∀ rid, H' rid = H rid) → kv_inv p ms H' free pend.
Proof.
  intros [? ? ? ? ? ? ? ? Hreq] HH. split; try done. intros i g rid Hi. rewrite HH. by apply (Hreq i).
Qed.
Lemma kv_inv_pend_ext p ms H free pend pend' :
  kv_inv p ms H free pend → (∀ q, q ≠ null_block p → pend' q = pend q) → (∀ q, 0 <= pend' q) →
  kv_inv p ms H free pend'.
Proof.
  intros [? ? ? ? Hrefs ? ? ? ?] Hp H0. split; try done. intros q Hv Hn. rewrite Hp by done. by apply Hrefs.
Qed.
End km_steps.

Section allocate_slots.
Context (hash_function : Z * list Z * option (list extra_key) → Z) (NONE_HASH : Z).
Implicit Types (m : KVCacheManager) (p : BlockPool) (g : SingleTypeKVCacheManager)
  (ms : list SingleTypeKVCacheManager) (toks : string → list Z) (free : list ptr)
  (news : list (list ptr)) (r : Request) (n N : Z).

Abbreviation allocate_slots := (allocate_slots hash_function NONE_HASH).

(** The numbers [allocate_slots] computes. *)
Definition tokens_needing_slots m r n nc_new lookahead : Z :=
  Z.min (num_computed_tokens r + nc_new + n + lookahead) (manager_max_model_len m).
Definition tokens_to_cache r n nc_new : Z := Z.min (num_computed_tokens r + nc_new + n) (num_tokens r).

(** What a call relies on: the tables and the new hit of the request cover the same [N]
    tokens in every group, skipping spares what is not settled ([so_skip]: the last
    cached block is still in the window), and the tokens to cache do not fall behind the
    cached ones. The scheduler's calls are such for groups of full attention and for
    windows larger than a block; with a window no larger than a block the last cached
    block can have left it, and the call can fail. *)
Record slots_ok m r n nc_new news lookahead (delay : bool) N : Prop := {
  so_new : 0 < n;
  so_nonneg : 0 <= num_computed_tokens r + nc_new ∧ 0 <= lookahead;
  so_limit : num_tokens r <= manager_max_model_len m;
  so_length : length news = length (single_type_managers (coordinator m));
  so_skip : ∀ i g, single_type_managers (coordinator m) !! i = Some g →
    skip_ok (the_pool m) g (request_id r) (num_computed_tokens r);
  so_save : ∀ i g new, single_type_managers (coordinator m) !! i = Some g → news !! i = Some new →
    save_ok (the_pool m) g (request_id r) (hashes_of m (request_id r)) new;
  so_cover : ∀ i g new, single_type_managers (coordinator m) !! i = Some g → news !! i = Some new →
    len (blocks_of g (request_id r)) + len new = cdiv N (manager_block_size g);
  so_mamba : ∀ i g, single_type_managers (coordinator m) !! i = Some g → manager_cls g = MambaManager →
    cdiv (Z.max N (tokens_needing_slots m r n nc_new lookahead)) (manager_block_size g) = 1;
  so_nocache : enable_caching m = false → ∀ new, new ∈ news → new = [];
  so_commit : enable_caching m = true → delay = false →
    mm_wf r ∧ (enable_kv_cache_events (the_pool m) = true → lora_request r = None) ∧
    ∀ i g new, single_type_managers (coordinator m) !! i = Some g → news !! i = Some new →
      default (len new) (num_cached_block g !! request_id r)
        <= tokens_to_cache r n nc_new / manager_block_size g
}.

(** What a successful call does to one group. *)
Definition group_allocated p r (T : Z) news (res : list (list ptr)) (i : nat) g g' : Prop :=
  manager_cls g' = manager_cls g ∧ manager_spec g' = manager_spec g ∧
  (∃ l' removed hits new,
    skipped (null_block p) (Z.to_nat (first_useful_block g (request_id r) (num_computed_tokens r)))
      (blocks_of g (request_id r)) l' removed ∧
    news !! i = Some hits ∧ res !! i = Some new ∧
    blocks_of g' (request_id r) = l' ++ hits ++ new ∧
    len (blocks_of g' (request_id r)) = cdiv T (manager_block_size g)) ∧
  ∀ rid2, rid2 ≠ request_id r →
    blocks_of g' rid2 = blocks_of g rid2 ∧ num_cached_block g' !! rid2 = num_cached_block g !! rid2.

(** The first half of the call, up to the decision whether there is room. *)
Definition room_left m p1 ms1 rid nt news (free : list ptr) : Prop :=
  zsum (zip_with (group_need p1 nt rid) ms1 news) <= len free.

Lemma save_ok_upd p p' g g' rid hs new l' :
  save_ok p g rid hs new → same_config p p' → (∀ q, blk_hash p' q = blk_hash p q) →
  mgr_upd g g' rid l' (num_cached_block g !! rid) → save_ok p' g' rid hs new.
Proof.
  intros [Hrun Hl] Hcfg Hh Hm. pose proof Hm as (_ & _ & Hg & _).
  rewrite <- (mgr_upd_cached _ _ _ _ _ Hm) in Hrun. split; [done|]. rewrite Hg.
  eapply (hit_list_upd p p' (blk_ref p')); [by split_and!|done].
Qed.

(** After the groups have stored the hit, the blocks that are still missing are
    on the free list. *)
Lemma room_suffices p ms ms' rid nt N free news :
  pool_inv p free → (∀ q, q ∈ concat news → valid p q) → length news = length ms → length ms' = length ms →
  (∀ i g g' new, ms !! i = Some g → ms' !! i = Some g' → news !! i = Some new →
     0 < manager_block_size g ∧ len (blocks_of g rid) + len new = cdiv N (manager_block_size g) ∧
     manager_spec g' = manager_spec g ∧ blocks_of g' rid = blocks_of g rid ++ new) →
  zsum (zip_with (group_need p nt rid) ms news) <= len free →
  total_missing rid nt ms' <= len (filter (.∉ concat news) free).
Proof.
  intros Hp Hv Hln Hlm Hgr Hroom. pose proof (evictable_bound p free news Hp Hv) as Hev.
  assert (Hsum : zsum (zip_with (group_need p nt rid) ms news) =
    zsum (zip_with (λ g new, cdiv nt (manager_block_size g) - len new - len (blocks_of g rid)) ms news)
    + zsum ((λ new, len (evictable_blocks p new)) <$> news)).
  { rewrite <- zsum_zip_add by done. done. }
  destruct (Z.le_ge_cases nt N) as [Hle|Hge].
  - (* every group has enough already *)
    assert (total_missing rid nt ms' <= zsum (replicate (length ms') 0)).
    { unfold total_missing. apply zsum_le; [by rewrite length_fmap, length_replicate|].
      intros i x y Hx [-> _]%lookup_replicate. rewrite list_lookup_fmap in Hx.
      apply fmap_Some in Hx as (g' & Hg' & ->).
      destruct (lookup_lt_is_Some_2 ms i) as [g Hg]; [apply lookup_lt_Some in Hg'; lia|].
      destruct (lookup_lt_is_Some_2 news i) as [new Hnew]; [apply lookup_lt_Some in Hg; lia|].
      destruct (Hgr i g g' new Hg Hg' Hnew) as (Hbs & Hcov & Hspec & Hb).
      rewrite (missing_of_need g rid nt N new Hbs ltac:(lia) g' Hspec Hb).
      pose proof (cdiv_mono nt N _ Hbs Hle). lia. }
    rewrite zsum_replicate_0 in *.
    pose proof (len_nonneg (filter (.∉ concat news) free)). lia.
  - assert (total_missing rid nt ms' <=
      zsum (zip_with (λ g new, cdiv nt (manager_block_size g) - len new - len (blocks_of g rid)) ms news)); [|lia].
    unfold total_missing. apply zsum_le; [rewrite length_fmap, length_zip_with; lia|].
    intros i x y Hx Hy. rewrite list_lookup_fmap in Hx. apply fmap_Some in Hx as (g' & Hg' & ->).
    apply lookup_zip_with_Some in Hy as (g & new & -> & Hg & Hnew).
    destruct (Hgr i g g' new Hg Hg' Hnew) as (Hbs & Hcov & Hspec & Hb).
    rewrite (missing_of_need g rid nt N new Hbs ltac:(lia) g' Hspec Hb).
    pose proof (cdiv_mono N nt _ Hbs ltac:(lia)). lia.
Qed.

Definition skip_rel p rid (c : Z) (_ : nat) g g' : Prop := ∃ l' removed,
  mgr_upd g g' rid l' (num_cached_block g !! rid) ∧
  skipped (null_block p) (Z.to_nat (first_useful_block g rid c)) (blocks_of g rid) l' removed.

Lemma skip_rel_length p rid c i g g' : skip_rel p rid c i g g' → len (blocks_of g' rid) = len (blocks_of g rid).
Proof.
  intros (l' & removed & Hm & Hsk). rewrite (mgr_upd_blocks _ _ _ _ _ Hm). unfold len.
  by rewrite (sk_length _ _ _ _ _ Hsk).
Qed.

Lemma prepare_spec m toks free r n nc_new news lookahead delay N
    (p := the_pool m) (ms := single_type_managers (coordinator m)) (rid := request_id r)
    (nt := tokens_needing_slots m r n nc_new lookahead) :
  kvm_inv m toks free hash_function NONE_HASH → slots_ok m r n nc_new news lookahead delay N →
  wp (on_coordinator (coord_remove_skipped_blocks rid (num_computed_tokens r)) ;;
      on_coordinator (coord_get_num_blocks_to_allocate rid nt news))
    (λ k m', ∃ p1 ms1 rel, m' = km_at m p1 ms1 (req_to_block_hashes m) ∧
      kv_inv p1 ms1 (hashes_of m) (free ++ rel) (λ _, 0) ∧
      same_config p p1 ∧ (∀ q, blk_hash p1 q = blk_hash p q) ∧
      k = zsum (zip_with (group_need p1 nt rid) ms1 news) ∧
      walked (skip_rel p rid (num_computed_tokens r)) (length ms) ms ms1) m.
Proof.
  intros Hinv Hok. apply wp_km_start. fold p ms. apply wp_bind, wp_on_coordinator.
  eapply wp_mono; [apply coord_remove_skipped_blocks_spec; [apply Hinv|apply Hok]|].
  intros _ c1 (p1 & ms1 & rel & -> & Hk1 & Hcfg1 & Hh1 & Hw1). exists p1, ms1. split; [done|].
  apply wp_on_coordinator. pose proof Hw1 as [Hl1 _].
  eapply wp_mono; [eapply coord_get_num_blocks_spec; [exact Hk1| |]|].
  - rewrite (so_length _ _ _ _ _ _ _ _ Hok). done.
  - intros q Hq. apply elem_of_concat in Hq as (new & (i & Hnew)%list_elem_of_lookup_1 & Hq).
    destruct (lookup_lt_is_Some_2 ms i) as [g Hg].
    { apply lookup_lt_Some in Hnew. rewrite (so_length _ _ _ _ _ _ _ _ Hok) in Hnew. done. }
    destruct (so_save _ _ _ _ _ _ _ _ Hok i g new Hg Hnew) as [_ Hl].
    apply (valid_config p p1 q Hcfg1). eapply hit_list_valid; [|exact Hl|done].
    eapply ki_core. apply Hinv.
  - intros k c2 (ms2 & -> & Hk2 & Hn & Hw2). exists p1, ms2. split; [done|].
    exists p1, ms2, rel. csplit; try done.
    + rewrite Hn. f_equal. apply list_eq_same_length with (n := length (zip_with (group_need p1 nt rid) ms1 news)); [|done|].
      * rewrite !length_zip_with. destruct Hw2 as [-> _]. done.
      * intros i x y _ Hx Hy. apply lookup_zip_with_Some in Hx as (g1 & new & -> & Hg1 & Hnew).
        apply lookup_zip_with_Some in Hy as (g2 & new' & -> & Hg2 & Hnew'). simplify_eq.
        pose proof (walked_all _ _ _ _ _ _ Hw2 Hg1 Hg2) as Hm. unfold group_need, manager_block_size.
        rewrite (mgr_upd_blocks _ _ _ _ _ Hm). destruct Hm as (_ & -> & _). done.
    + eapply walked_impl; [by eapply walked_trans|]. intros i g g' _ (g1 & _ & (l' & removed & Hm1 & Hsk) & Hm2).
      exists l', removed. split; [|done].
      rewrite <- (mgr_upd_blocks _ _ _ _ _ Hm1), <- (mgr_upd_cached _ _ _ _ _ Hm1).
      by eapply mgr_upd_trans.
Qed.

Lemma claim_spec m p ms hm H free news :
  kv_inv p ms H free (λ _, 0) → BlockPool.enable_caching p = enable_caching m →
  (∀ q, q ∈ concat news → valid p q ∧ (q = null_block p ∨ is_Some (blk_hash p q))) →
  (enable_caching m = false → ∀ new, new ∈ news → new = []) →
  wp (claim_computed_blocks news) (λ _ m', ∃ p2, m' = km_at m p2 ms hm ∧
    kv_inv p2 ms H (filter (.∉ concat news) free) (λ q, occ q (concat news)) ∧
    same_config p p2 ∧ ∀ q, blk_hash p2 q = blk_hash p q) (km_at m p ms hm).
Proof.
  intros Hk Hen Hhit Hnoc. unfold claim_computed_blocks. wp_steps. simpl.
  destruct (enable_caching m) eqn:Hc.
  - apply wp_on_block_pool. eapply wp_mono; [by apply kv_inv_touch|].
    intros _ p2 (Hk2 & (Hcfg & _ & Hh)). exists p2. by csplit.
  - assert (Hemp : ∀ q, q ∉ concat news).
    { intros q (new & Hnew & Hq)%elem_of_concat. rewrite (Hnoc eq_refl new Hnew) in Hq.
      by apply not_elem_of_nil in Hq. }
    apply wp_assert.
    { apply forallb_forall. intros new Hnew. apply bool_decide_eq_true_2, Hnoc; [done|].
      by apply list_elem_of_In. }
    exists p. csplit; try done. rewrite list_filter_id by (intros q _; apply Hemp).
    eapply kv_inv_pend_ext; [exact Hk| |intros q; apply occ_nonneg].
    intros q _. by apply occ_zero.
Qed.

(** One group through skipping, storing the hit and allocating. *)
Lemma group_allocated_intro p r N nt news res i g g1 g2 g3 hits new :
  0 < manager_block_size g → len (blocks_of g (request_id r)) + len hits = cdiv N (manager_block_size g) →
  news !! i = Some hits → res !! i = Some new →
  skip_rel p (request_id r) (num_computed_tokens r) i g g1 →
  mgr_upd g1 g2 (request_id r) (blocks_of g1 (request_id r) ++ hits)
    (Some (default (len hits) (num_cached_block g1 !! request_id r))) →
  len new = missing_blocks g2 (request_id r) nt →
  mgr_upd g2 g3 (request_id r) (blocks_of g2 (request_id r) ++ new) (num_cached_block g2 !! request_id r) →
  group_allocated p r (Z.max N nt) news res i g g3 ∧
  num_cached_block g3 !! request_id r = Some (default (len hits) (num_cached_block g !! request_id r)).
Proof.
  intros Hbs Hcov Hhits Hnew Hskip H2 Hlen H3. pose proof (skip_rel_length _ _ _ _ _ _ Hskip) as Hl1.
  destruct Hskip as (l' & removed & H1 & Hsk). set (rid := request_id r) in *.
  pose proof (mgr_upd_blocks _ _ _ _ _ H1) as Hb1. pose proof (mgr_upd_blocks _ _ _ _ _ H2) as Hb2.
  pose proof (mgr_upd_blocks _ _ _ _ _ H3) as Hb3. rewrite Hb2 in Hb3.
  pose proof H1 as (Hc1 & Hs1 & _ & _ & Ho1 & Hn1). pose proof H2 as (Hc2 & Hs2 & _ & _ & Ho2 & Hn2).
  pose proof H3 as (Hc3 & Hs3 & _ & _ & Ho3 & Hn3). split.
  - split_and!; [congruence|congruence| |].
    + exists l', removed, hits, new. split_and!; try done.
      * fold rid. rewrite Hb3, Hb1. by rewrite <- app_assoc.
      * fold rid. rewrite Hb3, len_app, Hlen.
        assert (Hbs1 : 0 < manager_block_size g1) by (unfold manager_block_size in *; congruence).
        rewrite (missing_of_need g1 rid nt N hits Hbs1) with (g' := g2); [|unfold manager_block_size in *; rewrite Hs1; lia|done|done].
        rewrite len_app, Hl1, <- (cdiv_max N nt _ Hbs). unfold manager_block_size in *. rewrite Hs1. lia.
    + intros rid2 Hne. fold rid in Hne. rewrite Ho3, decide_False, Ho2, decide_False, Ho1, decide_False by done.
      split; [done|]. by rewrite Hn3, decide_False, Hn2, decide_False, Hn1, decide_False.
  - rewrite (mgr_upd_cached _ _ _ _ _ H3), (mgr_upd_cached _ _ _ _ _ H2).
    by rewrite (mgr_upd_cached _ _ _ _ _ H1).
Qed.

Lemma obtain_spec m toks free0 p2 ms1 free2 r n nc_new news lookahead delay N
    (p := the_pool m) (ms := single_type_managers (coordinator m)) (rid := request_id r)
    (nt := tokens_needing_slots m r n nc_new lookahead) :
  kvm_inv m toks free0 hash_function NONE_HASH → slots_ok m r n nc_new news lookahead delay N →
  kv_inv p2 ms1 (hashes_of m) free2 (λ q, occ q (concat news)) →
  same_config p p2 → (∀ q, blk_hash p2 q = blk_hash p q) →
  walked (skip_rel p rid (num_computed_tokens r)) (length ms) ms ms1 →
  (∀ ms2, length ms2 = length ms1 → (∀ i g g' new, ms1 !! i = Some g → ms2 !! i = Some g' → news !! i = Some new →
     0 < manager_block_size g ∧ len (blocks_of g rid) + len new = cdiv N (manager_block_size g) ∧
     manager_spec g' = manager_spec g ∧ blocks_of g' rid = blocks_of g rid ++ new) →
     total_missing rid nt ms2 <= len free2) →
  wp (on_coordinator (coord_save_new_computed_blocks rid news) ;;
      on_coordinator (coord_allocate_new_blocks rid nt))
    (λ res m', ∃ p3 ms3 rest, m' = km_at m p3 ms3 (req_to_block_hashes m) ∧
      kv_inv p3 ms3 (hashes_of m) rest (λ _, 0) ∧ same_config p p3 ∧ length res = length ms ∧
      walked (λ i g g', group_allocated p r (Z.max N nt) news res i g g' ∧
        ∃ hits, news !! i = Some hits ∧
          num_cached_block g' !! rid = Some (default (len hits) (num_cached_block g !! rid)))
        (length ms) ms ms3) (km_at m p2 ms1 (req_to_block_hashes m)).
Proof.
  intros Hinv Hok Hk2 Hcfg Hh Hw1 Hroom. pose proof Hw1 as [Hl1 _].
  pose proof (so_length _ _ _ _ _ _ _ _ Hok) as Hlen. fold ms in Hlen.
  apply wp_bind, wp_on_coordinator.
  eapply wp_mono; [eapply coord_save_spec; [exact Hk2|lia|]|].
  { intros i g1 new Hg1 Hnew. destruct (walked_back _ _ _ _ _ Hw1 Hg1) as (g & Hg & l' & removed & Hm & _).
    eapply (save_ok_upd p); [by eapply so_save|done|done|exact Hm]. }
  intros _ c2 (ms2 & -> & (pend' & Hk3 & Hpend) & Hw2). exists p2, ms2. split; [done|].
  pose proof Hw2 as [Hl2 _]. apply wp_on_coordinator.
  assert (Hchain : ∀ i g2, ms2 !! i = Some g2 → ∃ g g1 hits, ms !! i = Some g ∧ news !! i = Some hits ∧
    ms1 !! i = Some g1 ∧ skip_rel p rid (num_computed_tokens r) i g g1 ∧
    mgr_upd g1 g2 rid (blocks_of g1 rid ++ hits) (Some (default (len hits) (num_cached_block g1 !! rid)))).
  { intros i g2 Hg2. destruct (walked_back _ _ _ _ _ Hw2 Hg2) as (g1 & Hg1 & Hm2).
    destruct (walked_back _ _ _ _ _ Hw1 Hg1) as (g & Hg & Hskip).
    destruct (lookup_lt_is_Some_2 news i) as [hits Hhits]; [apply lookup_lt_Some in Hg; lia|].
    exists g, g1, hits. split_and!; auto. }
  eapply wp_mono; [eapply coord_allocate_new_blocks_spec|].
  - eapply (kv_inv_pend_ext _ _ _ _ _ (λ _, 0)); [exact Hk3| |done]. intros q Hq. by rewrite Hpend.
  - intros i g2 Hg2. destruct (Hchain i g2 Hg2) as (g & g1 & hits & _ & _ & _ & _ & Hm2).
    rewrite (mgr_upd_cached _ _ _ _ _ Hm2). by eexists.
  - apply Hroom; [done|]. intros i g1 g2 new Hg1 Hg2 Hnew.
    destruct (Hchain i g2 Hg2) as (g & g1' & hits & Hg & Hhits & Hg1' & Hskip & Hm2). simplify_eq.
    pose proof (skip_rel_length _ _ _ _ _ _ Hskip) as Hll.
    destruct Hskip as (l' & removed & (_ & Hs1 & _) & _). pose proof Hm2 as (_ & Hs2 & _).
    pose proof (so_cover _ _ _ _ _ _ _ _ Hok i g new Hg Hnew) as Hcov.
    pose proof (km_sizes _ _ _ _ _ Hinv i g Hg) as Hbs.
    unfold manager_block_size in *. rewrite Hs1. fold rid in Hcov. rewrite Hll. split_and!; [done|lia|congruence|].
    by apply (mgr_upd_blocks _ _ _ _ _ Hm2).
  - intros i g2 Hg2 Hcls. destruct (Hchain i g2 Hg2) as (g & g1 & hits & Hg & Hhits & Hg1 & Hskip & Hm2).
    pose proof (skip_rel_length _ _ _ _ _ _ Hskip) as Hll.
    destruct Hskip as (l' & removed & (Hc1 & Hs1 & _) & _). pose proof Hm2 as (Hc2 & Hs2 & _).
    pose proof (so_cover _ _ _ _ _ _ _ _ Hok i g hits Hg Hhits) as Hcov. fold rid in Hcov.
    pose proof (km_sizes _ _ _ _ _ Hinv i g Hg) as Hbs.
    pose proof (so_mamba _ _ _ _ _ _ _ _ Hok i g Hg ltac:(congruence)) as Hone. fold nt in Hone.
    rewrite <- (cdiv_max N nt _ Hbs) in Hone. unfold missing_blocks, manager_block_size in *.
    rewrite Hs2, Hs1, (mgr_upd_blocks _ _ _ _ _ Hm2), len_app. lia.
  - intros res c3 (p3 & ms3 & rest & -> & _ & Hlres & Hk4 & Hcfg3 & Hw3). exists p3, ms3. split; [done|].
    exists p3, ms3, rest. csplit; [done|done|by etransitivity|congruence|].
    pose proof Hw3 as [Hl3 _]. split; [lia|]. intros i g g3 Hg Hg3. rewrite decide_True by by eapply lookup_lt_Some.
    destruct (walked_back _ _ _ _ _ Hw3 Hg3) as (g2 & Hg2 & new & Hnew & Hln & Hm3).
    destruct (Hchain i g2 Hg2) as (g' & g1 & hits & Hg' & Hhits & Hg1 & Hskip & Hm2). simplify_eq.
    destruct (group_allocated_intro p r N nt news res i g g1 g2 g3 hits new) as [Hga Hnc]; try done.
    + by eapply km_sizes.
    + by eapply so_cover.
    + split; [done|]. by exists hits.
Qed.

Lemma commit_blocks_spec m p ms free r bs n (rid := request_id r) :
  kv_inv p ms (hashes_of m) free (λ _, 0) →
  commit_all_ok hash_function NONE_HASH p ms r (hashes_of m rid) bs n →
  wp (commit_blocks hash_function NONE_HASH r n) (λ _ m', ∃ p' ms' hs',
    m' = km_at m p' ms' (<[rid := hs']> (<[rid := hashes_of m rid]> (req_to_block_hashes m))) ∧
    kv_inv p' ms' (upd_hashes (hashes_of m) rid hs') free (λ _, 0) ∧ same_config p p' ∧
    is_chain hash_function NONE_HASH bs (all_token_ids r) hs' ∧
    walked (λ _ g g', mgr_upd g g' rid (blocks_of g rid) (Some (n / bs))) (length ms) ms ms')
    (km_at m p ms (req_to_block_hashes m)).
Proof.
  intros Hk Hok. unfold commit_blocks. apply wp_bind, wp_read_hashes. apply wp_bind, wp_on_coordinator.
  eapply wp_mono; [exact (coord_cache_blocks_spec hash_function NONE_HASH p ms _ (hashes_of m) free _ r bs n Hk Hok)|].
  intros hs' c' (p' & ms' & -> & Hk' & Hcfg & _ & Hch & Hw). exists p', ms'. split; [done|].
  unfold write_hashes. wp_steps. exists p', ms', hs'. by csplit.
Qed.

Lemma kvm_inv_at m toks free p' ms' hm' H' free' :
  kvm_inv m toks free hash_function NONE_HASH → kv_inv p' ms' H' free' (λ _, 0) →
  same_config (the_pool m) p' →
  walked (λ _ g g', manager_spec g' = manager_spec g) (length (single_type_managers (coordinator m)))
    (single_type_managers (coordinator m)) ms' →
  (∀ x, default [] (hm' !! x) = H' x) →
  (∀ bs, enable_caching m = true → manager_block_size_opt m = Some bs →
     ∀ rid, is_chain hash_function NONE_HASH bs (toks rid) (H' rid)) →
  kvm_inv (km_at m p' ms' hm') toks free' hash_function NONE_HASH.
Proof.
  intros Hinv Hk' Hcfg Hw Hhm Hch. pose proof Hcfg as (_ & Hen & _). pose proof Hw as [Hl _].
  assert (Hsz : ∀ i g', ms' !! i = Some g' → ∃ g, single_type_managers (coordinator m) !! i = Some g ∧
    manager_block_size g' = manager_block_size g).
  { intros i g' Hg'. destruct (walked_back _ _ _ _ _ Hw Hg') as (g & Hg & Hs). exists g. split; [done|].
    unfold manager_block_size. by rewrite Hs. }
  split; simpl.
  - eapply kv_inv_hashes_ext; [exact Hk'|]. intros x. apply Hhm.
  - change (the_pool (km_at m p' ms' hm')) with p'. rewrite Hen. apply Hinv.
  - unfold len. rewrite Hl. apply Hinv.
  - intros i g' Hg'. destruct (Hsz i g' Hg') as (g & Hg & ->). by eapply km_sizes.
  - intros Hc. destruct (km_block_size _ _ _ _ _ Hinv Hc) as (bs & Hbs & Hpos & Hall & _). exists bs.
    split_and!; [done|done| |].
    + intros i g' Hg'. destruct (Hsz i g' Hg') as (g & Hg & ->). by eapply Hall.
    + intros rid. unfold hashes_of. simpl. rewrite Hhm. by apply Hch.
Qed.

(** The tables after an allocation cover the tokens to cache. *)
Lemma commit_after_allocation m toks free p3 ms3 r n nc_new news lookahead N res
    (ms := single_type_managers (coordinator m)) (rid := request_id r)
    (nt := tokens_needing_slots m r n nc_new lookahead) :
  kvm_inv m toks free hash_function NONE_HASH → slots_ok m r n nc_new news lookahead false N →
  enable_caching m = true → toks rid = all_token_ids r → same_config (the_pool m) p3 →
  walked (λ i g g', group_allocated (the_pool m) r (Z.max N nt) news res i g g' ∧
        ∃ hits, news !! i = Some hits ∧
          num_cached_block g' !! rid = Some (default (len hits) (num_cached_block g !! rid)))
        (length ms) ms ms3 →
  ∃ bs, manager_block_size_opt m = Some bs ∧
    commit_all_ok hash_function NONE_HASH p3 ms3 r (hashes_of m rid) bs (tokens_to_cache r n nc_new).
Proof.
  intros Hinv Hok Hc Htoks Hcfg Hw. pose proof Hcfg as (_ & Hen & _ & _ & Hev).
  destruct (km_block_size _ _ _ _ _ Hinv Hc) as (bs & Hbs & Hpos & Hall & Hch).
  destruct (so_commit _ _ _ _ _ _ _ _ Hok Hc eq_refl) as (Hmm & Hlora & Hcount).
  pose proof (so_nonneg _ _ _ _ _ _ _ _ Hok) as [Hnn Hla]. pose proof (so_new _ _ _ _ _ _ _ _ Hok) as Hn0.
  pose proof (so_limit _ _ _ _ _ _ _ _ Hok) as Hlim. pose proof (len_nonneg (all_token_ids r)) as Htl.
  exists bs. split; [done|]. split; try done.
  - rewrite Hen. rewrite <- Hc. apply Hinv.
  - by rewrite Hev.
  - unfold tokens_to_cache, num_tokens in *. lia.
  - rewrite <- Htoks. apply Hch.
  - intros i g3 Hg3. destruct (walked_back _ _ _ _ _ Hw Hg3) as (g & Hg & (_ & Hspec & (l' & rem & hits & new & Hsk & Hhits & Hnew & Hb & Hlen) & _) & hits' & Hhits' & Hnc).
    simplify_eq. pose proof (Hall i g Hg) as Hgs. split; [unfold manager_block_size in *; congruence|].
    eexists. split; [exact Hnc|]. pose proof (Hcount i g hits Hg Hhits) as Hle. rewrite Hgs in Hle, Hlen.
    split; [split; [|exact Hle]|].
    + destruct (num_cached_block g !! rid) as [nc|] eqn:E; simpl; [|apply len_nonneg].
      pose proof (ki_req _ _ _ _ _ (km_inv _ _ _ _ _ Hinv) i g rid Hg) as Hreq.
      pose proof (rw_count _ _ _ _ Hreq nc E). lia.
    + fold rid in Hlen |- *. rewrite Hlen. apply Z.div_le_upper_bound; [done|].
      pose proof (cdiv_bounds (Z.max N nt) bs Hpos).
      assert (tokens_to_cache r n nc_new <= nt) by (unfold nt, tokens_to_cache, tokens_needing_slots, num_tokens in *; lia).
      lia.
Qed.

Lemma claim_valid free p p1 m r n nc_new news lookahead delay N q :
  p = the_pool m → slots_ok m r n nc_new news lookahead delay N → pool_core p free →
  same_config p p1 → (∀ q, blk_hash p1 q = blk_hash p q) →
  q ∈ concat news → valid p1 q ∧ (q = null_block p1 ∨ is_Some (blk_hash p1 q)).
Proof.
  intros -> Hok Hc Hcfg Hh (new & (i & Hnew)%list_elem_of_lookup_1 & Hq)%elem_of_concat.
  destruct (lookup_lt_is_Some_2 (single_type_managers (coordinator m)) i) as [g Hg].
  { apply lookup_lt_Some in Hnew. by rewrite (so_length _ _ _ _ _ _ _ _ Hok) in Hnew. }
  destruct (so_save _ _ _ _ _ _ _ _ Hok i g new Hg Hnew) as [_ Hl].
  destruct (hit_list_valid _ _ _ _ _ _ Hc Hl Hq) as [Hv Ho].
  pose proof Hcfg as (_ & _ & _ & -> & _). rewrite Hh. split; [|done]. by apply (valid_config _ _ _ Hcfg).
Qed.

(** The count of cached blocks after a successful call. *)
Definition group_counted r (not_cached : bool) (to_cache : Z) news (i : nat) g g' : Prop :=
  ∃ hits, news !! i = Some hits ∧
    num_cached_block g' !! request_id r =
      Some (if not_cached then default (len hits) (num_cached_block g !! request_id r)
            else to_cache / manager_block_size g).

(** [allocate_slots] raises nothing; it either leaves the request as it is, but
    for skipped blocks, because there is no room, or gives every group blocks for
    the tokens asked for.  The invariant holds again afterwards. *)
Definition allocation_result m toks r n nc_new news lookahead (delay : bool) N (res : option KVCacheBlocks) m' : Prop :=
  let nt := tokens_needing_slots m r n nc_new lookahead in
  let ms := single_type_managers (coordinator m) in
  let ms' := single_type_managers (coordinator m') in
  (∃ free', kvm_inv m' toks free' hash_function NONE_HASH ∧
     (res = None → len free' < zsum (zip_with (group_need (the_pool m') nt (request_id r)) ms' news))) ∧
  same_settings m m' ∧
  match res with
  | None => walked (skip_rel (the_pool m) (request_id r) (num_computed_tokens r)) (length ms) ms ms'
  | Some res => length res = length ms ∧
      walked (λ i g g', group_allocated (the_pool m) r (Z.max N nt) news res i g g' ∧
        group_counted r (negb (enable_caching m) || delay) (tokens_to_cache r n nc_new) news i g g') (length ms) ms ms'
  end.

Lemma allocate_slots_finish m toks free p3 ms3 rest r n nc_new news lookahead (delay : bool) N res
    (nt := tokens_needing_slots m r n nc_new lookahead) :
  kvm_inv m toks free hash_function NONE_HASH → toks (request_id r) = all_token_ids r →
  slots_ok m r n nc_new news lookahead delay N →
  kv_inv p3 ms3 (hashes_of m) rest (λ _, 0) → same_config (the_pool m) p3 →
  length res = length (single_type_managers (coordinator m)) →
  walked (λ i g g', group_allocated (the_pool m) r (Z.max N nt) news res i g g' ∧
        ∃ hits, news !! i = Some hits ∧
          num_cached_block g' !! request_id r = Some (default (len hits) (num_cached_block g !! request_id r)))
        (length (single_type_managers (coordinator m))) (single_type_managers (coordinator m)) ms3 →
  wp (if negb (enable_caching m) || delay then mret (Some res)
      else commit_blocks hash_function NONE_HASH r (tokens_to_cache r n nc_new) ;; mret (Some res))
    (allocation_result m toks r n nc_new news lookahead delay N) (km_at m p3 ms3 (req_to_block_hashes m)).
Proof.
  intros Hinv Htoks Hok Hk3 Hcfg3 Hlres Hw3. unfold allocation_result.
  destruct (negb (enable_caching m) || delay) eqn:Hb.
  - apply wp_ret. split; [exists rest; split; [|done]|split; [by apply km_at_settings|split; [done|]]].
    + eapply kvm_inv_at; [exact Hinv|exact Hk3|exact Hcfg3| |done|].
      * eapply walked_impl; [exact Hw3|]. by intros i g g' _ [(_ & ? & _) _].
      * intros bs Hc Hbs rid. destruct (km_block_size _ _ _ _ _ Hinv Hc) as (bs' & Hbs' & _ & _ & Hch).
        simplify_eq. apply Hch.
    + eapply walked_impl; [exact Hw3|]. by intros i g g' _ [? ?].
  - apply orb_false_iff in Hb as [Hc%negb_false_iff ->].
    destruct (commit_after_allocation _ _ _ _ _ _ _ _ _ _ _ _ Hinv Hok Hc Htoks Hcfg3 Hw3) as (bs & Hbs & Hall).
    apply wp_bind. eapply wp_mono; [by eapply commit_blocks_spec|].
    intros _ m4 (p4 & ms4 & hs' & -> & Hk4 & Hcfg4 & Hch & Hw4). apply wp_ret. pose proof Hw3 as [Hl3 _].
    assert (Hw : walked (λ i g g', group_allocated (the_pool m) r (Z.max N nt) news res i g g' ∧
      group_counted r false (tokens_to_cache r n nc_new) news i g g')
      (length (single_type_managers (coordinator m))) (single_type_managers (coordinator m)) ms4).
    { rewrite <- Hl3 in Hw3 at 1. eapply walked_impl; [eapply walked_trans; [by rewrite <- Hl3|exact Hw4]|].
      intros i g g4 Hg (g3 & _ & [(Hc3 & Hs & (l' & rem & hits & new & Hsk & ? & ? & Hbl & Hln) & Ho) _] & Hm).
      pose proof Hm as (Hc4 & Hs4 & _ & _ & Ho4 & Hn4). pose proof (mgr_upd_blocks _ _ _ _ _ Hm) as Hb4. split.
      2: { exists hits. split; [done|]. rewrite (mgr_upd_cached _ _ _ _ _ Hm).
           destruct (km_block_size _ _ _ _ _ Hinv Hc) as (bs' & Hbs' & _ & Hall' & _). simplify_eq. by rewrite (Hall' i g Hg). }
      split_and!; [congruence|congruence| |].
      - exists l', rem, hits, new. rewrite Hb4. done.
      - intros rid2 Hne. rewrite Ho4, Hn4, !decide_False by done. by apply Ho. }
    split; [exists rest; split; [|done]|split; [apply km_at_settings; by etransitivity|by split]]. eapply kvm_inv_at; [exact Hinv|exact Hk4|by etransitivity| | |].
    + eapply walked_impl; [exact Hw|]. by intros i g g' _ [(_ & ? & _) _].
    + intros x. unfold upd_hashes. destruct (decide (x = request_id r)) as [->|Hne].
      * by rewrite lookup_insert_eq.
      * by rewrite !lookup_insert_ne.
    + intros bs' _ Hbs' rid. simplify_eq. unfold upd_hashes.
      destruct (decide (rid = request_id r)) as [->|]; [by rewrite Htoks|].
      destruct (km_block_size _ _ _ _ _ Hinv Hc) as (bs' & Hbs' & _ & _ & Hall'). simplify_eq. apply Hall'.
Qed.

Lemma allocate_slots_spec m toks free r n nc_new blocks lookahead delay N
    (news := match blocks with Some b => b | None => create_empty_block_list m end) :
  kvm_inv m toks free hash_function NONE_HASH → toks (request_id r) = all_token_ids r →
  slots_ok m r n nc_new news lookahead delay N →
  wp (allocate_slots r n nc_new blocks lookahead delay)
    (allocation_result m toks r n nc_new news lookahead delay N) m.
Proof.
  intros Hinv Htoks Hok. unfold KVCacheManager.allocate_slots.
  pose proof (so_new _ _ _ _ _ _ _ _ Hok). rewrite decide_False by lia.
  apply wp_bind, wp_get. cbv zeta. fold news. apply wp_assoc, wp_bind.
  eapply wp_mono; [by eapply prepare_spec|].
  intros k m1 (p1 & ms1 & rel & -> & Hk1 & Hcfg1 & Hh1 & -> & Hw1). wp_steps.
  change (get_num_free_blocks (the_pool (km_at m p1 ms1 (req_to_block_hashes m)))) with (num_free_blocks (free_block_queue p1)).
  rewrite (repr_num _ _ (pc_queue _ _ (ki_core _ _ _ _ _ Hk1))).
  assert (Hspecs : walked (λ _ g g', manager_spec g' = manager_spec g) (length (single_type_managers (coordinator m)))
    (single_type_managers (coordinator m)) ms1).
  { eapply walked_impl; [exact Hw1|]. by intros i g g' _ (? & ? & (_ & ? & _) & _). }
  case_decide as Hroom.
  - apply wp_ret. split; [exists (free ++ rel); split; [|intros _; apply Z.gt_lt; exact Hroom]|split; [by apply km_at_settings|exact Hw1]].
    eapply kvm_inv_at; [exact Hinv|exact Hk1|exact Hcfg1|exact Hspecs|done|].
    intros bs Hc Hbs rid. destruct (km_block_size _ _ _ _ _ Hinv Hc) as (bs' & Hbs' & _ & _ & Hch).
    simplify_eq. apply Hch.
  - assert (Hen1 : BlockPool.enable_caching p1 = enable_caching m).
    { destruct Hcfg1 as (_ & -> & _). apply Hinv. }
    assert (Hvalid : ∀ q, q ∈ concat news → valid p1 q ∧ (q = null_block p1 ∨ is_Some (blk_hash p1 q))).
    { intros q Hq. eapply claim_valid; [done|exact Hok|eapply ki_core; apply Hinv|exact Hcfg1|exact Hh1|exact Hq]. }
    apply wp_bind. eapply wp_mono; [eapply claim_spec; [exact Hk1|exact Hen1|exact Hvalid|apply Hok]|].
    intros _ m2 (p2 & -> & Hk2 & Hcfg2 & Hh2). apply wp_assoc, wp_bind.
    eapply wp_mono; [eapply (obtain_spec m toks free p2 ms1); [exact Hinv|exact Hok|exact Hk2| | |exact Hw1|]|].
    + by etransitivity.
    + intros q. by rewrite Hh2.
    + intros ms2 Hl2 Hgr. pose proof Hw1 as [Hl1 _].
      eapply (room_suffices p1 ms1); [apply Hk1|by intros q Hq; apply Hvalid| |done|exact Hgr|].
      * rewrite (so_length _ _ _ _ _ _ _ _ Hok). done.
      * apply Z.nlt_ge. intros Hlt. by apply Hroom, Z.lt_gt.
    + intros res m3 (p3 & ms3 & rest & -> & Hk3 & Hcfg3 & Hlres & Hw3). cbn beta.
      by eapply allocate_slots_finish.
Qed.
End allocate_slots.

(** ** The other operations *)
Section other_operations.
Context (hash_function : Z * list Z * option (list extra_key) → Z) (NONE_HASH : Z).
Implicit Types (m : KVCacheManager) (p : BlockPool) (g : SingleTypeKVCacheManager)
  (ms : list SingleTypeKVCacheManager) (toks : string → list Z) (free : list ptr) (r : Request).

Lemma kvm_chains m toks free :
  kvm_inv m toks free hash_function NONE_HASH → ∀ bs, enable_caching m = true → manager_block_size_opt m = Some bs →
  ∀ rid, is_chain hash_function NONE_HASH bs (toks rid) (hashes_of m rid).
Proof.
  intros Hinv bs Hc Hbs. destruct (km_block_size _ _ _ _ _ Hinv Hc) as (bs' & Hbs' & _ & _ & Hch). by simplify_eq.
Qed.

(** Freeing a request empties its tables and puts the blocks nobody else uses
    back. *)
Lemma free_request_spec m toks free r :
  kvm_inv m toks free hash_function NONE_HASH →
  wp (KVCacheManager.free r) (λ _ m', ∃ rel, kvm_inv m' toks (free ++ rel) hash_function NONE_HASH ∧
    walked (λ _ g g', mgr_upd g g' (request_id r) [] None) (length (single_type_managers (coordinator m)))
      (single_type_managers (coordinator m)) (single_type_managers (coordinator m')) ∧
    (∀ q, blk_hash (the_pool m') q = blk_hash (the_pool m) q) ∧ same_settings m m') m.
Proof.
  intros Hinv. apply wp_km_start. apply wp_on_coordinator.
  eapply wp_mono; [eapply coord_free_spec; apply Hinv|].
  intros _ c' (p' & ms' & rel & -> & Hk' & Hcfg & Hh & Hw). exists p', ms'. split; [done|].
  exists rel. csplit; [|exact Hw|exact Hh|by apply km_at_settings].
  eapply kvm_inv_at; [exact Hinv|exact Hk'|exact Hcfg| |done|by eapply kvm_chains].
  eapply walked_impl; [exact Hw|]. by intros i g g' _ (_ & ? & _).
Qed.

(** A reset needs every block free and no request running; afterwards nothing is
    cached. *)
Lemma manager_reset_prefix_cache_spec m toks free :
  kvm_inv m toks free hash_function NONE_HASH → num_gpu_blocks (the_pool m) = len free + 1 →
  (log_stats m = true → is_Some (prefix_cache_stats m)) →
  (∀ i g rid, single_type_managers (coordinator m) !! i = Some g → num_cached_block g !! rid = None) →
  wp reset_prefix_cache (λ ok m', ok = true ∧ kvm_inv m' toks free hash_function NONE_HASH ∧
    cached_block_hash_to_block (the_pool m') = ∅) m.
Proof.
  intros Hinv Hn Hst Hcount. unfold reset_prefix_cache. apply wp_km_start, wp_bind, wp_on_block_pool.
  pose proof (km_inv _ _ _ _ _ Hinv) as Hk.
  assert (Hempty : ∀ i g rid, single_type_managers (coordinator m) !! i = Some g → blocks_of g rid = []).
  { intros i g rid Hi. by eapply (rw_fresh _ _ _ _ (ki_req _ _ _ _ _ Hk i g rid Hi)), Hcount. }
  eapply wp_mono; [apply reset_prefix_cache_spec; [apply Hk|done]|].
  intros ok p' (-> & Hp' & (Hcfg & Hr & Hh) & Hcache). set (m1 := km_at m p' _ _).
  assert (Hnone : ∀ q, valid (the_pool m) q → blk_hash p' q = None).
  { intros q (i & -> & Hi). rewrite Hh, decide_True; [done|]. apply (pc_blocks_elem _ free); [|done].
    eapply ki_core. apply Hk. }
  assert (Hk1 : kv_inv p' (single_type_managers (coordinator m)) (hashes_of m) free (λ _, 0)).
  { pose proof Hcfg as (_ & Hen & _ & Hnl & _). destruct Hk as [Hkp Hkn Hkm Hkg Hkr Hkpd Hke Hknc Hkq]. split; try done.
    - rewrite Hnl. apply Hnone. eapply valid_null. apply Hkp.
    - by rewrite Hnl.
    - intros q Hv Hq. rewrite Hr. rewrite Hnl in Hq. apply Hkr; [by apply (valid_config _ _ _ Hcfg)|done].
    - intros q Hv Hq _. apply (valid_config _ _ _ Hcfg) in Hv. rewrite Hnl in Hq. rewrite Hr.
      destruct Hkp as [_ Hrf]. destruct (Hrf q Hv Hq) as [_ Hiff].
      rewrite (Hkr q Hv Hq). assert (held q (single_type_managers (coordinator m)) = 0) as ->; [|lia].
      apply Z.le_antisymm; [|apply held_nonneg]. unfold held. rewrite <- (zsum_replicate_0 (length (single_type_managers (coordinator m)))).
      apply zsum_le; [by rewrite length_fmap, length_replicate|].
      intros i x y Hx [-> _]%lookup_replicate. rewrite list_lookup_fmap in Hx.
      apply fmap_Some in Hx as (g & Hg & ->). unfold held_by.
      rewrite (table_occ_ext q (req_to_blocks g) ∅); [done|]. intros rid. rewrite lookup_empty. by apply (Hempty i).
    - intros _ q Hv. apply Hnone. by apply (valid_config _ _ _ Hcfg).
    - intros i g rid Hi. pose proof (Hempty i g rid Hi) as He. pose proof (Hcount i g rid Hi) as Hc0.
      split; rewrite ?He, ?Hc0; try done; [by intros q ?%not_elem_of_nil|constructor]. }
  assert (Hm1 : kvm_inv m1 toks free hash_function NONE_HASH).
  { eapply kvm_inv_at; [exact Hinv|exact Hk1|exact Hcfg| |done|by eapply kvm_chains].
    split; [done|]. intros j g0 g H0 H1. case_decide; congruence. }
  wp_steps. simpl. destruct (log_stats m) eqn:Hls.
  - destruct (Hst eq_refl) as [st Hst']. wp_steps. simpl. rewrite Hst'. wp_steps. csplit; [done| |done].
    by destruct Hm1.
  - by wp_steps.
Qed.
End other_operations.

(** ** Looking up the prefix cache *)
Section lookup.
Context (hash_function : Z * list Z * option (list extra_key) → Z) (NONE_HASH : Z).
Context `{!CollisionFree hash_function NONE_HASH}.
Implicit Types (m : KVCacheManager) (p : BlockPool) (g : SingleTypeKVCacheManager)
  (ms : list SingleTypeKVCacheManager) (toks : string → list Z) (free : list ptr) (r : Request).

Lemma kv_inv_hashes_grow p ms H H' free pend :
  kv_inv p ms H free pend → (∀ rid, H rid `prefix_of` H' rid) → kv_inv p ms H' free pend.
Proof.
  intros Hk Hpre. pose proof Hk as [? Hnull ? ? ? ? ? ? Hreq]. split; try done.
  intros i g rid Hi. eapply req_wf_frame; [by apply (Hreq i)|done|apply Hpre|done|done|done|done|done].
Qed.

(** What [get_computed_blocks] needs of the request. *)
Record lookup_ok m toks r (bs : Z) : Prop := {
  lo_tokens : toks (request_id r) = all_token_ids r;
  lo_nonempty : 0 < num_tokens r;
  lo_mm : mm_wf r;
  lo_wf : coord_wf (coordinator m);
  lo_specs : coord_cacheable (coordinator m) bs;
  lo_size : manager_block_size_opt m = Some bs;
  lo_stats : log_stats m = true → is_Some (prefix_cache_stats m);
  lo_hashes : hashes_of m (request_id r) ≠ [] →
    enough_hashes (coordinator m) bs (hashes_of m (request_id r)) (num_tokens r - 1)
}.

Definition computed_blocks_result m toks free r (bs : Z) (res : KVCacheBlocks * Z) m' : Prop :=
  kvm_inv m' toks free hash_function NONE_HASH ∧ coordinator m' = coordinator m ∧ same_settings m m' ∧
  ∃ K : nat, res.2 = Z.of_nat K * bs ∧ res.2 < num_tokens r ∧
    common_hit (the_pool m') (hashes_of m' (request_id r))
      (length (single_type_managers (coordinator m'))) res.1 K.

(** More hashes for a request, as long as they are those of its tokens. *)
Lemma kvm_inv_set_hashes m toks free bs hm :
  kvm_inv m toks free hash_function NONE_HASH → enable_caching m = true → manager_block_size_opt m = Some bs →
  (∀ x, hashes_of m x `prefix_of` default [] (hm !! x)) →
  (∀ x, is_chain hash_function NONE_HASH bs (toks x) (default [] (hm !! x))) →
  kvm_inv (set_hashes hm m) toks free hash_function NONE_HASH.
Proof.
  intros [Hk Hc Hg Hs Hb] Hca Hbs Hpre Hch. split; try done.
  - eapply kv_inv_hashes_grow; [exact Hk|done].
  - intros _. destruct (Hb Hca) as (bs' & Hbs' & Hpos & Hsz & _). simplify_eq. by exists bs.
Qed.

Lemma request_block_hashes_spec m toks free r bs :
  kvm_inv m toks free hash_function NONE_HASH → enable_caching m = true → lookup_ok m toks r bs →
  wp (request_block_hashes hash_function NONE_HASH r) (λ hs m', ∃ hm, m' = set_hashes hm m ∧
    kvm_inv m' toks free hash_function NONE_HASH ∧
    hs = hashes_of m' (request_id r) ∧ enough_hashes (coordinator m) bs hs (num_tokens r - 1)) m.
Proof.
  intros Hinv Hca Hlo. unfold request_block_hashes. set (rid := request_id r).
  pose proof (kvm_chains _ _ _ _ _ Hinv bs Hca (lo_size _ _ _ _ Hlo)) as Hch.
  destruct (km_block_size _ _ _ _ _ Hinv Hca) as (bs' & Hbs' & Hpos & _).
  rewrite (lo_size _ _ _ _ Hlo) in Hbs'. simplify_eq.
  assert (Hm1 : kvm_inv (set_hashes (<[rid := hashes_of m rid]> (req_to_block_hashes m)) m) toks free hash_function NONE_HASH).
  { eapply kvm_inv_set_hashes; [exact Hinv|done|apply Hlo|..]; intros x; destruct (decide (x = rid)) as [->|Hx];
      rewrite ?lookup_insert_eq, ?lookup_insert_ne by done; try done; apply Hch. }
  unfold read_hashes, write_hashes. wp_steps. destruct (hashes_of m rid) as [|h hs] eqn:Eh; wp_steps.
  - cbn. rewrite (lo_size _ _ _ _ Hlo).
    destruct (hash_request_tokens_spec hash_function NONE_HASH r bs' (lo_mm _ _ _ _ Hlo) Hpos)
      as (hs & -> & Hlen & Hchain). wp_steps. eexists. csplit; [done| | |].
    + change (kvm_inv (set_hashes (<[rid := hs]> (<[rid := []]> (req_to_block_hashes m))) m) toks free hash_function NONE_HASH).
      eapply kvm_inv_set_hashes; [exact Hinv|done|apply Hlo|..]; intros x; destruct (decide (x = rid)) as [->|Hx];
        cbn; rewrite ?lookup_insert_eq, ?lookup_insert_ne by done; cbn.
      * rewrite Eh. apply prefix_nil.
      * done.
      * unfold rid. by rewrite (lo_tokens _ _ _ _ Hlo).
      * apply Hch.
    + unfold hashes_of. cbn. by rewrite lookup_insert_eq.
    + unfold enough_hashes. destruct (kind (coordinator m)); [done| |done]. intros _. rewrite Hlen.
      unfold num_tokens. apply Z.div_le_mono; lia.
  - eexists. csplit; [done|done| |].
    + unfold hashes_of. cbn. by rewrite lookup_insert_eq.
    + rewrite <- Eh. apply Hlo. unfold rid in Eh. by rewrite Eh.
Qed.

(** A lookup raises nothing and returns, for every group, the same number of
    blocks: those of a prefix of the prompt that is cached in all of them, short of
    at least one token of the request. *)
Lemma get_computed_blocks_spec m toks free r bs :
  kvm_inv m toks free hash_function NONE_HASH → enable_caching m = true → lookup_ok m toks r bs →
  wp (get_computed_blocks hash_function NONE_HASH r) (computed_blocks_result m toks free r bs) m.
Proof.
  intros Hinv Hca Hlo. unfold get_computed_blocks. pose proof (lo_nonempty _ _ _ _ Hlo) as Hpos.
  apply wp_bind, wp_get. destruct (skips_prefix_cache m r).
  - apply wp_ret. apply conj; [done|]. apply conj; [done|]. apply conj; [done|]. exists 0%nat. cbn [fst snd]. csplit; [lia|lia|]. unfold create_empty_block_list.
    apply conj; simpl.
    + rewrite length_replicate, (km_groups _ _ _ _ _ Hinv). unfold len. lia.
    + intros i l [-> _]%lookup_replicate. apply conj; [|done].
      constructor; [done|done|constructor].
  - apply wp_bind. eapply wp_mono; [by eapply request_block_hashes_spec|].
    intros hs m' (hm & -> & Hinv' & Hhs & Hen). apply wp_bind, wp_gets. cbv zeta.
    pose proof (km_inv _ _ _ _ _ Hinv') as Hk'. apply ki_core in Hk' as Hcore.
    destruct (coord_find_longest_cache_hit_spec hash_function NONE_HASH (coordinator m) free bs
      (toks (request_id r)) hs (num_tokens r - 1)) as (news & K & Hfind & Hhit & HK); [done| |apply Hlo..|done|lia|].
    { subst hs. by eapply kvm_chains; [exact Hinv'|done|apply Hlo]. }
    change (coordinator (set_hashes hm m)) with (coordinator m). rewrite Hfind.
    apply wp_bind. eapply wp_lift_outcome; [done|]. cbv beta iota. apply wp_bind.
    unfold count_hit. assert (Hres : ∀ st m', m' = set_stats st (set_hashes hm m) →
      (is_Some (prefix_cache_stats m) → is_Some st) → computed_blocks_result m toks free r bs (news, Z.of_nat K * bs) m').
    { intros st m' -> Hst. apply conj; [by destruct Hinv'|]. apply conj; [done|]. apply conj; [by split|]. exists K. cbn [fst snd]. csplit; [lia|lia|].
      by subst hs. }
    wp_steps. change (log_stats (set_hashes hm m)) with (log_stats m).
    destruct (log_stats m) eqn:Hls; wp_steps.
    + destruct (lo_stats _ _ _ _ Hlo Hls) as [st Hst]. cbn. rewrite Hst. wp_steps. by eapply Hres.
    + by eapply (Hres (prefix_cache_stats m)).
Qed.
End lookup.

(** ** A new manager *)
Section new_manager.
Context (hash_function : Z * list Z * option (list extra_key) → Z) (NONE_HASH : Z).
Implicit Types (m : KVCacheManager) (cfg : KVCacheConfig) (toks : string → list Z).

Lemma KVCacheManager_init_spec cfg max_model_len caching eagle log_stats ev toks m :
  0 < num_blocks cfg → (∀ g, g ∈ kv_cache_groups cfg → 0 < block_size (kv_cache_spec g)) →
  KVCacheManager_init cfg max_model_len caching eagle log_stats ev = Ok m →
  kvm_inv m toks (Blk <$> seq 1 (Z.to_nat (num_blocks cfg) - 1)) hash_function NONE_HASH ∧
  coord_wf (coordinator m) ∧
  (KVCacheManager.log_stats m = true → is_Some (prefix_cache_stats m)) ∧
  (∀ i g rid, single_type_managers (coordinator m) !! i = Some g →
     blocks_of g rid = [] ∧ num_cached_block g !! rid = None).
Proof.
  intros Hn Hbs. unfold KVCacheManager_init.
  set (ca := if decide (len (kv_cache_groups cfg) = 0) then false else caching).
  set (sizes := (λ g, block_size (kv_cache_spec g)) <$> kv_cache_groups cfg).
  destruct (if ca then _ else _) as [bs|] eqn:Ebs; cbn [mbind outcome_bind]; [|done].
  destruct (get_kv_cache_coordinator cfg eagle ca ev) as [c|] eqn:Ec; cbn [mbind outcome_bind]; [|done].
  intros [= <-]. apply get_kv_cache_coordinator_spec in Ec as (Hwf & Hca & Hnum & Hms & Hk); [|done].
  assert (Hg : ∀ i g, single_type_managers c !! i = Some g →
    ∃ gs, gs ∈ kv_cache_groups cfg ∧ g = get_manager_for_kv_cache_spec (kv_cache_spec gs) (block_pool c) (Z.of_nat i)).
  { intros i g. rewrite Hms, list_lookup_fmap. intros ([z gs] & Hi & ->)%fmap_Some.
    apply enumerate_lookup in Hi as [-> Hi]. exists gs. split; [by eapply list_elem_of_lookup_2|done]. }
  split; [|split; [done|split]].
  - split; cbn; try done.
    + rewrite Hms. unfold len. by rewrite length_fmap, enumerate_length.
    + intros i g (gs & Hgs & ->)%Hg. by apply Hbs.
    + intros Hcat. rewrite Hcat in Ebs. destruct (remove_dups sizes) as [|b [|? ?]] eqn:Ed; try done. simplify_eq.
      assert (Hsz : ∀ gs, gs ∈ kv_cache_groups cfg → block_size (kv_cache_spec gs) = b).
      { intros gs Hgs. apply list_elem_of_singleton. rewrite <- Ed. apply elem_of_remove_dups.
        unfold sizes. apply list_elem_of_fmap. by exists gs. }
      exists b. split_and!; [done| | |].
      * assert (b ∈ sizes) as (gs & -> & Hgs)%list_elem_of_fmap by (apply elem_of_remove_dups; rewrite Ed; by left).
        by apply Hbs.
      * intros i g (gs & Hgs & ->)%Hg. by apply Hsz.
      * intros rid. unfold hashes_of. cbn. rewrite lookup_empty. apply is_chain_nil.
  - cbn. intros ->. by eexists.
  - intros i g rid (gs & _ & ->)%Hg. by cbn; rewrite lookup_empty.
Qed.

(** The hashes of a request are dropped once its tables are empty. *)
Lemma free_block_hashes_spec m toks free (r : Request) :
  kvm_inv m toks free hash_function NONE_HASH →
  (∀ i g, single_type_managers (coordinator m) !! i = Some g → num_cached_block g !! request_id r = None) →
  wp (free_block_hashes r) (λ _ m', kvm_inv m' toks free hash_function NONE_HASH ∧
    hashes_of m' (request_id r) = [] ∧ coordinator m' = coordinator m ∧
    (∀ rid, rid ≠ request_id r → hashes_of m' rid = hashes_of m rid) ∧ same_settings m m') m.
Proof.
  intros [Hk Hc Hg Hs Hb] Hnone. unfold free_block_hashes. wp_steps.
  set (m' := set_hashes _ m).
  assert (Hh : ∀ rid, hashes_of m' rid = if decide (rid = request_id r) then [] else hashes_of m rid).
  { intros rid. unfold m', hashes_of. cbn. case_decide as E; [by rewrite E, lookup_delete_eq|by rewrite lookup_delete_ne by done]. }
  csplit; [|by rewrite Hh, decide_True|done|intros rid Hrid; by rewrite Hh, decide_False|done].
  split; try done.
  - destruct Hk as [? ? ? ? ? ? ? ? Hreq]. split; try done. intros i g rid Hi.
    destruct (decide (rid = request_id r)) as [->|Hne]; [|by rewrite Hh, decide_False; [apply (Hreq i)|done]].
    destruct (Hreq i g (request_id r) Hi) as [Hv Hnd Hf Hcn Hca]. rewrite (Hnone i g Hi) in *.
    split; rewrite ?(Hnone i g Hi); done.
  - intros Hca. destruct (Hb Hca) as (bs & Hbs & Hpos & Hsz & Hch). exists bs. split_and!; try done.
    intros rid. rewrite Hh. case_decide; [apply is_chain_nil|apply Hch].
Qed.

(** Requests may grow: the hashes a table has stay those of its tokens. *)
Lemma kvm_inv_tokens m toks toks' free :
  kvm_inv m toks free hash_function NONE_HASH → (∀ rid, toks rid `prefix_of` toks' rid) →
  kvm_inv m toks' free hash_function NONE_HASH.
Proof.
  intros [Hk Hc Hg Hs Hb] Hpre. split; try done. intros Hca.
  destruct (Hb Hca) as (bs & Hbs & Hpos & Hsz & Hch). exists bs. split_and!; try done.
  intros rid. eapply is_chain_prefix; [exact Hpos|apply Hpre|apply Hch].
Qed.
End new_manager.
