(* ===== verification/SlotContract.v ===== *)
(** What the scheduler relies on of the KV-cache manager, as an interface: a request
    has no slots, or has slots for the tokens computed and being computed; the
    manager's operations keep an invariant, touch no other request, and raise nothing.
    The manager implements the interface when all its groups are full attention. *)
From Stdlib Require Import ZArith Lia.
From stdpp Require Import base strings countable gmap sets fin_maps list.
From S2P Require Import Prelude FreeBlockQueue Request BlockHash BlockPool KVCacheSpec SingleTypeManager KVCacheCoordinator KVCacheManager.
Local Open Scope Z_scope.

(** What a request must be like to be given slots. *)
Record request_fits (m : KVCacheManager) (toks : string → list Z) (r : Request) : Prop := {
  rf_tokens : toks (request_id r) = all_token_ids r;
  rf_nonempty : 0 < num_tokens r;
  rf_limit : num_tokens r <= manager_max_model_len m;
  rf_mm : mm_wf r;
  rf_lora : enable_kv_cache_events (the_pool m) = true → lora_request r = None
}.

Section contract.
Context (hash_function : Z * list Z * option (list extra_key) → Z) (NONE_HASH : Z).

Class SlotContract : Type := {
  (** The invariant, for requests of the given tokens. *)
  slots_inv : KVCacheManager → (string → list Z) → Prop;
  no_slots : KVCacheManager → string → Prop;
  (** Slots for the first [c] tokens. *)
  has_slots : KVCacheManager → (string → list Z) → string → Z → Prop;
  (** The result of a prefix lookup: blocks of so many tokens. *)
  is_hit : KVCacheManager → string → KVCacheBlocks → Z → Prop;
  (** What an operation keeps for the requests that satisfy [P]. *)
  slots_frame (P : string → Prop) m m' toks := slots_inv m' toks ∧ same_settings m m' ∧
    (∀ x, P x → no_slots m x → no_slots m' x) ∧ ∀ x c, P x → has_slots m toks x c → has_slots m' toks x c;
  lookup_law m toks (r : Request) :
    slots_inv m toks → request_fits m toks r →
    wp (get_computed_blocks hash_function NONE_HASH r) (λ '(news, local) m',
      slots_frame (λ _, True) m m' toks ∧ 0 <= local < num_tokens r ∧ is_hit m' (request_id r) news local) m;
  start_law m toks (r : Request) n news local lookahead :
    slots_inv m toks → request_fits m toks r → no_slots m (request_id r) → is_hit m (request_id r) news local →
    num_computed_tokens r = 0 → 0 <= local → 0 < n → local + n <= num_tokens r → 0 <= lookahead →
    wp (allocate_slots hash_function NONE_HASH r n local (Some news) lookahead false) (λ res m',
      slots_frame (.≠ request_id r) m m' toks ∧
      match res with
      | None => no_slots m' (request_id r)
      | Some bls => has_slots m' toks (request_id r) (local + n) ∧ ∃ ids, get_block_ids (the_pool m') bls = Ok ids
      end) m;
  continue_law m toks (r : Request) n lookahead :
    slots_inv m toks → request_fits m toks r → has_slots m toks (request_id r) (num_computed_tokens r) →
    0 <= num_computed_tokens r → 0 < n → num_computed_tokens r + n <= manager_max_model_len m → 0 <= lookahead →
    wp (allocate_slots hash_function NONE_HASH r n 0 None lookahead false) (λ res m',
      slots_frame (.≠ request_id r) m m' toks ∧
      match res with
      | None => has_slots m' toks (request_id r) (num_computed_tokens r)
      | Some bls => has_slots m' toks (request_id r) (num_computed_tokens r + n) ∧
          ∃ ids, get_block_ids (the_pool m') bls = Ok ids
      end) m;
  free_law m toks (r : Request) :
    slots_inv m toks →
    wp (KVCacheManager.free r) (λ _ m', slots_frame (.≠ request_id r) m m' toks ∧ no_slots m' (request_id r)) m;
  forget_law m toks (r : Request) :
    slots_inv m toks → no_slots m (request_id r) →
    wp (free_block_hashes r) (λ _ m', slots_frame (λ _, True) m m' toks) m;
  common_prefix_law m toks (r : Request) n :
    slots_inv m toks → status r = RUNNING →
    wp (get_num_common_prefix_blocks r n) (λ _ m', slots_frame (λ _, True) m m' toks) m;
  block_ids_law m toks rid :
    slots_inv m toks → wp (manager_get_block_ids rid) (λ _ m', m' = m) m;
  events_law m toks :
    slots_inv m toks → wp take_events (λ _ m', slots_frame (λ _, True) m m' toks) m;
  grow_law m toks toks' :
    slots_inv m toks → (∀ x, toks x `prefix_of` toks' x) →
    slots_inv m toks' ∧ ∀ x c, has_slots m toks x c → has_slots m toks' x c;
  (** The configurations the invariant holds of a new manager for. *)
  supported : KVCacheConfig → bool → Prop;
  init_law cfg max_model_len caching eagle stats ev m toks :
    supported cfg caching → KVCacheManager_init cfg max_model_len caching eagle stats ev = Ok m →
    slots_inv m toks ∧ (∀ x, no_slots m x) ∧ manager_max_model_len m = max_model_len ∧ log_stats m = stats;
  (** The tokens beyond the request's own can be taken back. *)
  rollback_law m toks x c c' :
    has_slots m toks x c → Z.min c (len (toks x)) <= c' <= c → has_slots m toks x c';
  stats_law m toks :
    slots_inv m toks → wp make_prefix_cache_stats (λ st m', slots_frame (λ _, True) m m' toks ∧
      (log_stats m = true → is_Some st)) m
}.
End contract.
Arguments slots_inv {_ _ _}. Arguments no_slots {_ _ _}. Arguments has_slots {_ _ _}. Arguments is_hit {_ _ _}.
Arguments slots_frame {_ _ _}. Arguments lookup_law {_ _ _}. Arguments start_law {_ _ _}.
Arguments continue_law {_ _ _}. Arguments free_law {_ _ _}. Arguments forget_law {_ _ _}.
Arguments common_prefix_law {_ _ _}. Arguments block_ids_law {_ _ _}. Arguments events_law {_ _ _}.
Arguments grow_law {_ _ _}. Arguments supported {_ _ _}. Arguments init_law {_ _ _}. Arguments rollback_law {_ _ _}. Arguments stats_law {_ _ _}.

(** * Full attention *)
Section full_attention.
Context (hash_function : Z * list Z * option (list extra_key) → Z) (NONE_HASH : Z).
Context `{!CollisionFree hash_function NONE_HASH}.
Implicit Types (m : KVCacheManager) (p : BlockPool) (g : SingleTypeKVCacheManager)
  (ms : list SingleTypeKVCacheManager) (toks : string → list Z) (free : list ptr) (r : Request).

Abbreviation managers m := (single_type_managers (coordinator m)).

Record full_inv m toks : Prop := {
  fi_inv : ∃ free, kvm_inv m toks free hash_function NONE_HASH;
  fi_full : ∀ i g, managers m !! i = Some g → manager_cls g = FullAttentionManager;
  fi_stats : log_stats m = true → is_Some (prefix_cache_stats m);
  fi_wf : coord_wf (coordinator m);
  fi_cacheable : KVCacheManager.enable_caching m = true →
    ∃ bs, manager_block_size_opt m = Some bs ∧ coord_cacheable (coordinator m) bs ∧
      ∀ s, kind (coordinator m) = UnitaryKVCacheCoordinator s → is_sliding_window s = false
}.

Definition full_no_slots m rid : Prop :=
  ∀ i g, managers m !! i = Some g → blocks_of g rid = [] ∧ num_cached_block g !! rid = None.
Definition full_has_slots m toks rid (c : Z) : Prop :=
  ∃ N, c <= N ∧ ∀ i g, managers m !! i = Some g →
    len (blocks_of g rid) = cdiv N (manager_block_size g) ∧
    (KVCacheManager.enable_caching m = true →
       ∃ k, num_cached_block g !! rid = Some k ∧ k * manager_block_size g <= Z.min c (len (toks rid))).
Definition full_is_hit m rid news (local : Z) : Prop :=
  length news = length (managers m) ∧ ∀ i g new, managers m !! i = Some g → news !! i = Some new →
    hit_list (the_pool m) (hashes_of m rid) (Z.of_nat i) new ∧ len new * manager_block_size g = local ∧
    (KVCacheManager.enable_caching m = false → new = []).

(** Two managers whose groups correspond. *)
Definition same_groups (R : SingleTypeKVCacheManager → SingleTypeKVCacheManager → Prop) m m' : Prop :=
  length (managers m') = length (managers m) ∧
  ∀ i g', managers m' !! i = Some g' → ∃ g, managers m !! i = Some g ∧
    manager_cls g' = manager_cls g ∧ manager_spec g' = manager_spec g ∧ R g g'.

Lemma same_groups_size (R : SingleTypeKVCacheManager → SingleTypeKVCacheManager → Prop) m m' i g' :
  same_groups R m m' → managers m' !! i = Some g' →
  ∃ g, managers m !! i = Some g ∧ manager_cls g' = manager_cls g ∧ manager_block_size g' = manager_block_size g ∧ R g g'.
Proof.
  intros [_ H] Hi. destruct (H i g' Hi) as (g & ? & ? & Hs & ?). exists g. unfold manager_block_size. by rewrite Hs.
Qed.

Lemma walked_groups (R : nat → SingleTypeKVCacheManager → SingleTypeKVCacheManager → Prop)
    (R' : SingleTypeKVCacheManager → SingleTypeKVCacheManager → Prop) m m' :
  walked R (length (managers m)) (managers m) (managers m') →
  (∀ i g g', managers m !! i = Some g → R i g g' → manager_cls g' = manager_cls g ∧ manager_spec g' = manager_spec g ∧ R' g g') →
  same_groups R' m m'.
Proof.
  intros Hw HR. pose proof Hw as [Hl _]. split; [done|]. intros i g' Hi.
  destruct (walked_back _ _ _ _ _ Hw Hi) as (g & Hg & Hr). destruct (HR i g g' Hg Hr) as (? & ? & ?). by exists g.
Qed.

Lemma full_inv_keep (R : SingleTypeKVCacheManager → SingleTypeKVCacheManager → Prop) m m' toks :
  full_inv m toks → same_settings m m' → same_groups R m m' →
  (∃ free, kvm_inv m' toks free hash_function NONE_HASH) → full_inv m' toks.
Proof.
  intros [_ Hf Hst Hwf Hca] Hs Hg Hi. split; [done| | | |].
  - intros i g' Hg'. destruct (same_groups_size _ _ _ _ _ Hg Hg') as (g & ? & -> & _). by eapply Hf.
  - rewrite (ss_log_stats _ _ Hs). intros H. by apply (ss_stats _ _ Hs), Hst.
  - unfold coord_wf in *. rewrite (ss_kind _ _ Hs). destruct (kind (coordinator m)); [done| |].
    + destruct Hwf as (g & Hgs & Hcls & Hsp). destruct Hg as [Hl Hg]. rewrite Hgs in Hl.
      destruct (managers m') as [|g' [|]] eqn:E; [done| |done].
      destruct (Hg 0%nat g') as (g0 & Hg0 & Hc0 & Hs0 & _); [done|]. rewrite Hgs in Hg0. simplify_eq/=.
      exists g'. split_and!; congruence.
    + destruct Hg as [Hl _]. unfold len. by rewrite Hl.
  - rewrite (ss_caching _ _ Hs), (ss_block_size _ _ Hs). intros Hc. destruct (Hca Hc) as (bs & ? & ? & ?).
    exists bs. unfold coord_cacheable. rewrite (ss_kind _ _ Hs). done.
Qed.

(** What is kept for a request whose tables stay. *)
Definition keeps (P : string → Prop) g g' : Prop :=
  ∀ x, P x → blocks_of g' x = blocks_of g x ∧ num_cached_block g' !! x = num_cached_block g !! x.

Lemma keeps_no_slots P m m' x : same_groups (keeps P) m m' → P x → full_no_slots m x → full_no_slots m' x.
Proof.
  intros Hg Hx Hn i g' Hi. destruct (same_groups_size _ _ _ _ _ Hg Hi) as (g & Hg' & _ & _ & Hk).
  destruct (Hk x Hx) as [-> ->]. by eapply Hn.
Qed.
Lemma keeps_has_slots P m m' toks x c :
  same_groups (keeps P) m m' → KVCacheManager.enable_caching m' = KVCacheManager.enable_caching m →
  P x → full_has_slots m toks x c → full_has_slots m' toks x c.
Proof.
  intros Hg Hc Hx (N & HN & Hh). exists N. split; [done|]. intros i g' Hi.
  destruct (same_groups_size _ _ _ _ _ Hg Hi) as (g & Hg' & _ & -> & Hk).
  destruct (Hk x Hx) as [-> ->]. rewrite Hc. by eapply Hh.
Qed.

Definition full_frame (P : string → Prop) m m' toks : Prop := full_inv m' toks ∧ same_settings m m' ∧
  (∀ x, P x → full_no_slots m x → full_no_slots m' x) ∧
  ∀ x c, P x → full_has_slots m toks x c → full_has_slots m' toks x c.

Lemma full_frame_intro P m m' toks :
  full_inv m toks → same_settings m m' → same_groups (keeps P) m m' →
  (∃ free, kvm_inv m' toks free hash_function NONE_HASH) → full_frame P m m' toks.
Proof.
  intros Hi Hs Hg Hk. split; [by eapply full_inv_keep|]. split; [done|]. split.
  - intros x. by apply keeps_no_slots.
  - intros x c. apply keeps_has_slots; [done|apply Hs].
Qed.

Lemma same_groups_refl P m m' : coordinator m' = coordinator m → same_groups (keeps P) m m'.
Proof. intros E. unfold same_groups. rewrite E. split; [done|]. intros i g Hi. exists g. by split_and!. Qed.

Lemma empty_hit m toks rid bls :
  full_inv m toks → bls = create_empty_block_list m → full_is_hit m rid bls 0.
Proof.
  intros [[free Hi] _ _ _ _] ->. unfold create_empty_block_list. split.
  - rewrite length_replicate, (km_groups _ _ _ _ _ Hi). unfold len. lia.
  - intros i g new _ [-> _]%lookup_replicate. split_and!; [|done|done]. by constructor; [..|constructor].
Qed.

Lemma full_lookup m toks r :
  full_inv m toks → request_fits m toks r →
  wp (get_computed_blocks hash_function NONE_HASH r) (λ '(news, local) m',
    full_frame (λ _, True) m m' toks ∧ 0 <= local < num_tokens r ∧ full_is_hit m' (request_id r) news local) m.
Proof.
  intros Hf Hr. pose proof Hf as [[free Hi] Hfull Hst Hwf Hca]. pose proof (rf_nonempty _ _ _ Hr).
  destruct (KVCacheManager.enable_caching m) eqn:Hc.
  - destruct (Hca eq_refl) as (bs & Hbs & Hcb & Hns).
    eapply wp_mono; [eapply (get_computed_blocks_spec _ _ m toks free r bs Hi Hc)|].
    + split; try done; try apply Hr. intros _. unfold enough_hashes.
      destruct (kind (coordinator m)) as [|s|h] eqn:Ek; try done. rewrite (Hns s eq_refl). done.
    + intros [news local] m' (Hi' & Hco & Hs & K & Hl & Hlt & [Hlen Hcommon]). simpl in *.
      split; [|split].
      * apply full_frame_intro; [done|done|by apply same_groups_refl|by eexists].
      * destruct (km_block_size _ _ _ _ _ Hi Hc) as (bs' & Hbs' & Hpos & _). simplify_eq. split; [|done]. lia.
      * split; [done|]. intros i g new Hg Hnew. destruct (Hcommon i new Hnew) as [Hhl HK].
        split; [done|]. rewrite (ss_caching _ _ Hs), Hc. split; [|done].
        destruct (km_block_size _ _ _ _ _ Hi' ltac:(rewrite (ss_caching _ _ Hs); exact Hc)) as (bs' & Hbs' & _ & Hall & _).
        rewrite (ss_block_size _ _ Hs) in Hbs'. simplify_eq. rewrite (Hall i g Hg). unfold len. lia.
  - unfold get_computed_blocks, skips_prefix_cache. apply wp_bind, wp_get. rewrite Hc. simpl. apply wp_ret.
    split; [|split; [lia|by eapply empty_hit]].
    apply full_frame_intro; [done|done|by apply same_groups_refl|by eexists].
Qed.

(** The allocation of a request whose tables cover [N] tokens together with a hit. *)
Record full_slots_ok m toks r n local news (lookahead N : Z) : Prop := {
  fs_new : 0 < n;
  fs_computed : 0 <= num_computed_tokens r;
  fs_local : 0 <= local;
  fs_lookahead : 0 <= lookahead;
  fs_limit : num_computed_tokens r + local + n <= manager_max_model_len m;
  fs_hit : full_is_hit m (request_id r) news local ∨ news = create_empty_block_list m;
  fs_cover : ∀ i g new, managers m !! i = Some g → news !! i = Some new →
    (is_Some (num_cached_block g !! request_id r) → new = []) ∧
    len (blocks_of g (request_id r)) + len new = cdiv N (manager_block_size g) ∧
    (KVCacheManager.enable_caching m = true →
       default (len new) (num_cached_block g !! request_id r) * manager_block_size g
         <= Z.min (num_computed_tokens r + local + n) (num_tokens r))
}.

Lemma full_slots_length m toks r n local news lookahead N :
  full_inv m toks → full_slots_ok m toks r n local news lookahead N → length news = length (managers m).
Proof.
  intros [[free Hi] _ _ _ _] Hs. destruct (fs_hit _ _ _ _ _ _ _ _ Hs) as [[? _]| ->]; [done|].
  unfold create_empty_block_list. rewrite length_replicate, (km_groups _ _ _ _ _ Hi). unfold len. lia.
Qed.

Lemma full_useful g rid c : manager_cls g = FullAttentionManager → first_useful_block g rid c = 0.
Proof. intros H. unfold first_useful_block. by rewrite H. Qed.

Lemma full_slots_are_ok m toks r n local news lookahead N :
  full_inv m toks → request_fits m toks r → full_slots_ok m toks r n local news lookahead N →
  slots_ok m r n local news lookahead false N.
Proof.
  intros Hf Hr Hs. pose proof Hf as [[free Hi] Hfull _ _ _]. pose proof (full_slots_length _ _ _ _ _ _ _ _ Hf Hs) as Hlen.
  pose proof Hs as [Hn Hc Hl Hla Hlim Hhit Hcov].
  assert (Hnew : ∀ i g new, managers m !! i = Some g → news !! i = Some new →
    hit_list (the_pool m) (hashes_of m (request_id r)) (Z.of_nat i) new ∧
    (KVCacheManager.enable_caching m = false → new = [])).
  { destruct Hhit as [[_ Hhit]| ->].
    - intros i g new Hg Hn'. destruct (Hhit i g new Hg Hn') as (? & _ & ?). done.
    - intros i g new _ [-> _]%lookup_replicate. split; [|done]. by constructor; [..|constructor]. }
  split.
  - done.
  - lia.
  - apply Hr.
  - done.
  - intros i g Hg. unfold skip_ok. rewrite full_useful by by eapply Hfull. split; [apply len_nonneg|lia].
  - intros i g new Hg Hn'. split; [by apply (Hcov i g new Hg Hn')|].
    rewrite (ki_group _ _ _ _ _ (km_inv _ _ _ _ _ Hi) i g Hg). by eapply Hnew.
  - intros i g new Hg Hn'. by apply (Hcov i g new Hg Hn').
  - intros i g Hg Hm. rewrite (Hfull i g Hg) in Hm. done.
  - intros Hoff new (i & Hn')%list_elem_of_lookup_1.
    destruct (lookup_lt_is_Some_2 (managers m) i) as [g Hg]; [apply lookup_lt_Some in Hn'; lia|].
    by apply (Hnew i g new Hg Hn').
  - intros Hon _. split; [apply Hr|]. split; [apply Hr|]. intros i g new Hg Hn'.
    destruct (Hcov i g new Hg Hn') as (_ & _ & Hle). specialize (Hle Hon). pose proof (km_sizes _ _ _ _ _ Hi i g Hg).
    unfold tokens_to_cache. apply Z.div_le_lower_bound; lia.
Qed.

Lemma map_outcome_total {A B} (f : A → outcome B) l :
  (∀ x, x ∈ l → ∃ y, f x = Ok y) → ∃ ys, map_outcome f l = Ok ys.
Proof.
  induction l as [|x l IH]; intros H; simpl; [by eexists|].
  destruct (H x) as [y ->]; [by left|]. cbn [mbind outcome_bind].
  destruct IH as [ys ->]; [intros z ?; apply H; by right|]. by eexists.
Qed.

Lemma get_block_ids_total p free (bls : KVCacheBlocks) :
  pool_core p free → (∀ l q, l ∈ bls → q ∈ l → valid p q) → ∃ ids, get_block_ids p bls = Ok ids.
Proof.
  intros Hc Hv. apply map_outcome_total. intros l Hl. apply map_outcome_total. intros q Hq.
  destruct (Hv l q Hl Hq) as (i & -> & Hi). apply (pc_store _ _ Hc) in Hi as [b Hb].
  unfold load_in. rewrite Hb. by eexists.
Qed.

Lemma skipped_none null l l' removed : skipped null 0 l l' removed → l' = l.
Proof. intros H. apply list_eq. intros i. apply (sk_kept _ _ _ _ _ H). lia. Qed.

Lemma full_allocate m toks r n local blocks lookahead N
    (news := match blocks with Some b => b | None => create_empty_block_list m end) :
  full_inv m toks → request_fits m toks r → full_slots_ok m toks r n local news lookahead N →
  wp (allocate_slots hash_function NONE_HASH r n local blocks lookahead false) (λ res m',
    full_frame (.≠ request_id r) m m' toks ∧
    match res with
    | None => same_groups (keeps (λ _, True)) m m'
    | Some bls => full_has_slots m' toks (request_id r) (num_computed_tokens r + local + n) ∧
        ∃ ids, get_block_ids (the_pool m') bls = Ok ids
    end) m.
Proof.
  intros Hf Hr Hs. pose proof Hf as [[free Hi] Hfull _ _ _].
  pose proof (full_slots_are_ok _ _ _ _ _ _ _ _ Hf Hr Hs) as Hok.
  eapply wp_mono; [by eapply allocate_slots_spec; [|apply Hr|]|]. fold news.
  intros res m' ((free' & Hi' & _) & Hset & Hres). pose proof Hs as [Hn Hc Hl Hla Hlim _ _].
  set (nt := tokens_needing_slots m r n local lookahead) in *.
  destruct res as [res|].
  - destruct Hres as [Hlres Hw].
    assert (Hg : same_groups (keeps (.≠ request_id r)) m m').
    { eapply walked_groups; [exact Hw|]. intros i g g' _ [(? & ? & _ & Hk) _]. by split_and!. }
    split; [apply full_frame_intro; [done|done|done|by eexists]|]. split.
    + exists (Z.max N nt). split; [unfold nt, tokens_needing_slots; lia|]. intros i g' Hg'.
      destruct (walked_back _ _ _ _ _ Hw Hg') as (g & Hgi & (_ & Hsp & (l' & rem & hits & new & _ & _ & _ & _ & Hlen) & _) & (hits' & _ & Hcnt)).
      assert (manager_block_size g' = manager_block_size g) as -> by (unfold manager_block_size; by rewrite Hsp).
      split; [done|]. intros Hon. rewrite (ss_caching _ _ Hset) in Hon. rewrite Hon in Hcnt. cbn in Hcnt.
      eexists. split; [exact Hcnt|]. pose proof (km_sizes _ _ _ _ _ Hi i g Hgi) as Hbs.
      rewrite (rf_tokens _ _ _ Hr). unfold tokens_to_cache. fold (num_tokens r).
      pose proof (Z.mul_div_le (Z.min (num_computed_tokens r + local + n) (num_tokens r)) (manager_block_size g) Hbs).
      unfold num_tokens in *. lia.
    + eapply get_block_ids_total; [eapply ki_core; by apply (km_inv _ _ _ _ _ Hi')|].
      intros l q (i & Hli)%list_elem_of_lookup_1 Hq.
      destruct (lookup_lt_is_Some_2 (managers m') i) as [g' Hg'].
      { destruct Hw as [-> _]. rewrite <- Hlres. by eapply lookup_lt_Some. }
      destruct (walked_back _ _ _ _ _ Hw Hg') as (g & _ & (_ & _ & (l' & rem & hits & new & _ & _ & Hnew & Hb & _) & _) & _).
      simplify_eq. apply (rw_valid _ _ _ _ (ki_req _ _ _ _ _ (km_inv _ _ _ _ _ Hi') i g' (request_id r) Hg')).
      rewrite Hb. apply elem_of_app. right. apply elem_of_app. by right.
  - assert (Hg : same_groups (keeps (λ _, True)) m m').
    { eapply walked_groups; [exact Hres|]. intros i g g' Hgi (l' & rem & Hu & Hsk).
      rewrite full_useful in Hsk by by eapply Hfull. apply skipped_none in Hsk as ->.
      destruct Hu as (? & ? & _ & _ & Hb & Hk). split_and!; [done|done|]. intros x _. rewrite Hb, Hk.
      by destruct (decide (x = request_id r)) as [->|]. }
    split; [|done]. apply full_frame_intro; [done|done| |by eexists].
    destruct Hg as [Hlg Hg]. split; [done|]. intros i g' Hg'. destruct (Hg i g' Hg') as (g & ? & ? & ? & Hk).
    exists g. split_and!; [done|done|done|]. intros x _. by apply Hk.
Qed.

Lemma full_start m toks r n news local lookahead :
  full_inv m toks → request_fits m toks r → full_no_slots m (request_id r) → full_is_hit m (request_id r) news local →
  num_computed_tokens r = 0 → 0 <= local → 0 < n → local + n <= num_tokens r → 0 <= lookahead →
  wp (allocate_slots hash_function NONE_HASH r n local (Some news) lookahead false) (λ res m',
    full_frame (.≠ request_id r) m m' toks ∧
    match res with
    | None => full_no_slots m' (request_id r)
    | Some bls => full_has_slots m' toks (request_id r) (local + n) ∧ ∃ ids, get_block_ids (the_pool m') bls = Ok ids
    end) m.
Proof.
  intros Hf Hr Hno Hhit H0 Hl Hn Hlen Hla. eapply wp_mono; [eapply (full_allocate _ _ _ _ _ (Some news) _ local Hf Hr)|].
  - pose proof (rf_limit _ _ _ Hr). split; try done; [lia|lia|by left|].
    intros i g new Hg Hnew. destruct (Hno i g Hg) as [-> ->]. destruct Hhit as [_ Hhit].
    destruct (Hhit i g new Hg Hnew) as (_ & Hln & _). destruct Hf as [[free Hi] _ _ _ _].
    pose proof (km_sizes _ _ _ _ _ Hi i g Hg). split; [by intros [? ?]|]. split.
    + rewrite len_nil. pose proof (cdiv_bounds local (manager_block_size g)). nia.
    + intros _. simpl. rewrite Hln. lia.
  - intros [bls|] m' [Hfr Hres]; (split; [done|]).
    + by replace (local + n) with (num_computed_tokens r + local + n) by lia.
    + by eapply keeps_no_slots.
Qed.

Lemma full_continue m toks r n lookahead :
  full_inv m toks → request_fits m toks r → full_has_slots m toks (request_id r) (num_computed_tokens r) →
  0 <= num_computed_tokens r → 0 < n → num_computed_tokens r + n <= manager_max_model_len m → 0 <= lookahead →
  wp (allocate_slots hash_function NONE_HASH r n 0 None lookahead false) (λ res m',
    full_frame (.≠ request_id r) m m' toks ∧
    match res with
    | None => full_has_slots m' toks (request_id r) (num_computed_tokens r)
    | Some bls => full_has_slots m' toks (request_id r) (num_computed_tokens r + n) ∧
        ∃ ids, get_block_ids (the_pool m') bls = Ok ids
    end) m.
Proof.
  intros Hf Hr (N & HN & Hh) Hc Hn Hlim Hla. eapply wp_mono; [eapply (full_allocate _ _ _ _ _ None _ N Hf Hr)|].
  - split; try done; [lia|by right|].
    intros i g new Hg [-> _]%lookup_replicate. destruct (Hh i g Hg) as [Hlen Hcnt]. split; [done|].
    split; [rewrite len_nil; lia|]. intros Hon. destruct (Hcnt Hon) as (k & -> & Hk). simpl.
    rewrite (rf_tokens _ _ _ Hr) in Hk. unfold num_tokens. lia.
  - intros [bls|] m' [Hfr Hres]; (split; [done|]).
    + by replace (num_computed_tokens r + n) with (num_computed_tokens r + 0 + n) by lia.
    + eapply keeps_has_slots; [exact Hres|apply Hfr|done|]. by exists N.
Qed.

Lemma full_free m toks r :
  full_inv m toks →
  wp (KVCacheManager.free r) (λ _ m', full_frame (.≠ request_id r) m m' toks ∧ full_no_slots m' (request_id r)) m.
Proof.
  intros Hf. pose proof Hf as [[free Hi] _ _ _ _]. eapply wp_mono; [by eapply free_request_spec|].
  intros _ m' (rel & Hi' & Hw & _ & Hs). split.
  - apply full_frame_intro; [done|done| |by eexists]. eapply walked_groups; [exact Hw|].
    intros i g g' _ (? & ? & _ & _ & Hb & Hk). split_and!; [done|done|]. intros x Hx. by rewrite Hb, Hk, !decide_False.
  - intros i g' Hg'. destruct (walked_back _ _ _ _ _ Hw Hg') as (g & _ & Hm).
    split; [by apply (mgr_upd_blocks _ _ _ _ _ Hm)|by apply (mgr_upd_cached _ _ _ _ _ Hm)].
Qed.

Lemma full_forget m toks r :
  full_inv m toks → full_no_slots m (request_id r) →
  wp (free_block_hashes r) (λ _ m', full_frame (λ _, True) m m' toks) m.
Proof.
  intros Hf Hno. pose proof Hf as [[free Hi] _ _ _ _].
  eapply wp_mono; [eapply free_block_hashes_spec; [exact Hi|]|].
  - intros i g Hg. by apply (Hno i g Hg).
  - intros _ m' (Hi' & _ & Hco & _ & Hs). apply full_frame_intro; [done|done|by apply same_groups_refl|by eexists].
Qed.

Lemma count_common_total p free n l :
  pool_core p free → (∀ q, q ∈ l → valid p q) → ∃ k, count_common p n l = Ok k.
Proof.
  intros Hc. induction l as [|q l IH]; intros Hv; simpl; [by eexists|].
  destruct (Hv q) as (i & -> & Hi); [by left|]. apply (pc_store _ _ Hc) in Hi as [b ->].
  case_decide; [|by eexists]. destruct IH as [k ->]; [intros x ?; apply Hv; by right|]. by eexists.
Qed.

Lemma coord_common_prefix_spec p ms c H free pend rid n :
  kv_inv p ms H free pend →
  wp (coord_get_num_common_prefix_blocks rid n) (λ _ c', ∃ ms', c' = coord_at p ms' c ∧ kv_inv p ms' H free pend ∧
    walked (λ _ g g', mgr_upd g g' rid (blocks_of g rid) (num_cached_block g !! rid)) (length ms) ms ms')
    (coord_at p ms c).
Proof.
  intros Hk. unfold coord_get_num_common_prefix_blocks. wp_steps. unfold manager_indices. simpl.
  set (R := λ (_ : nat) g g', mgr_upd g g' rid (blocks_of g rid) (num_cached_block g !! rid)).
  assert (Hsame : walked R (length ms) ms ms).
  { split; [done|]. intros j g0 g H0 H1. simplify_eq. case_decide; [apply mgr_upd_refl|done]. }
  assert (Hloop : wp (map_each (seq 0 (length ms)) (λ i, on_manager i (SingleTypeManager.get_num_common_prefix_blocks rid n)))
    (λ _ c', ∃ ms', c' = coord_at p ms' c ∧ kv_inv p ms' H free pend ∧ walked R (length ms) ms ms') (coord_at p ms c)).
  { apply (wp_map_seq (λ k _ c', ∃ ms', c' = coord_at p ms' c ∧ kv_inv p ms' H free pend ∧ walked R k ms ms')).
    - exists ms. csplit; try done. apply walked_0.
    - intros k ys c' Hlt (ms1 & -> & Hk1 & Hw). destruct (walked_lookup _ _ _ _ Hw Hlt) as (g & Hm0 & Hm1).
      eapply wp_on_manager; [exact Hm1|]. unfold SingleTypeManager.get_num_common_prefix_blocks. wp_steps. simpl.
      assert (Hdone : ∀ g2, mgr_upd g g2 rid (blocks_of g rid) (num_cached_block g !! rid) →
        ∃ ms', coord_at p (<[k:=g2]> ms1) c = coord_at p ms' c ∧ kv_inv p ms' H free pend ∧ walked R (S k) ms ms').
      { intros g2 Hm2. eexists. split; [done|]. split; [by eapply kv_inv_read|by eapply walked_step]. }
      destruct (manager_cls g); try (apply wp_ret; apply Hdone, mgr_upd_refl).
      apply wp_bind, wp_read_blocks. intros g2 Hm2. wp_steps. simpl.
      destruct (count_common_total p free n (blocks_of g rid)) as [v Hv]; [by eapply ki_core| |].
      { intros q. apply (rw_valid _ _ _ _ (ki_req _ _ _ _ _ Hk1 k g rid Hm1)). }
      eapply wp_lift_outcome; [exact Hv|]. by apply Hdone.
    - done. }
  destruct (kind c); [apply wp_ret; by exists ms|exact Hloop|exact Hloop].
Qed.

Lemma full_common_prefix m toks r n :
  full_inv m toks → status r = RUNNING →
  wp (KVCacheManager.get_num_common_prefix_blocks r n) (λ _ m', full_frame (λ _, True) m m' toks) m.
Proof.
  intros Hf Hr. pose proof Hf as [[free Hi] _ _ _ _]. unfold KVCacheManager.get_num_common_prefix_blocks.
  apply wp_bind, wp_assert; [by rewrite bool_decide_true|]. apply wp_km_start, wp_on_coordinator.
  eapply wp_mono; [eapply coord_common_prefix_spec; apply Hi|].
  intros ids c' (ms' & -> & Hk' & Hw). exists (the_pool m), ms'. split; [done|].
  set (m' := km_at m _ _ _). assert (Hs : same_settings m m') by (by apply km_at_settings).
  apply full_frame_intro; [done|done| |].
  - eapply walked_groups; [exact Hw|]. intros i g g' _ (? & ? & _ & _ & Hb & Hk). split_and!; [done|done|].
    intros x _. rewrite Hb, Hk. by destruct (decide (x = request_id r)) as [->|].
  - exists free. eapply kvm_inv_at; [exact Hi|exact Hk'|done| |done|by eapply kvm_chains].
    eapply walked_impl; [exact Hw|]. by intros i g g' _ (_ & ? & _).
Qed.

Lemma full_block_ids m toks rid : full_inv m toks → wp (manager_get_block_ids rid) (λ _ m', m' = m) m.
Proof.
  intros [[free Hi] _ _ _ _]. unfold manager_get_block_ids. wp_steps.
  destruct (get_block_ids_total (the_pool m) free (get_blocks (coordinator m) rid)) as [ids Hids].
  - eapply ki_core. by apply (km_inv _ _ _ _ _ Hi).
  - intros l q (g & -> & (i & Hg)%list_elem_of_lookup_1)%list_elem_of_fmap Hq.
    by apply (rw_valid _ _ _ _ (ki_req _ _ _ _ _ (km_inv _ _ _ _ _ Hi) i g rid Hg)).
  - by eapply wp_lift_outcome.
Qed.

Lemma kv_inv_events p ms H free pend l : kv_inv p ms H free pend → kv_inv (set_event_queue l p) ms H free pend.
Proof.
  intros [[[? ? ? ? ? ? ? ?] ?] ? ? ? ? ? ? ? Hq]. split; try done. intros i g rid Hi. by destruct (Hq i g rid Hi).
Qed.

Lemma full_events m toks :
  full_inv m toks → wp KVCacheManager.take_events (λ _ m', full_frame (λ _, True) m m' toks) m.
Proof.
  intros Hf. pose proof Hf as [[free Hi] _ _ _ _]. unfold KVCacheManager.take_events.
  apply wp_km_start, wp_on_block_pool. 
  assert (Hat : ∀ p, (p = the_pool m ∨ p = set_event_queue [] (the_pool m)) →
    full_frame (λ _, True) m (km_at m p (managers m) (req_to_block_hashes m)) toks).
  { intros p Hp. assert (Hcfg : same_config (the_pool m) p) by (destruct Hp as [-> | ->]; done).
    apply full_frame_intro; [done|by apply km_at_settings| |exists free].
    - split; [done|]. intros i g Hg. by exists g.
    - eapply kvm_inv_at; [exact Hi| |done| |done|by eapply kvm_chains].
      + destruct Hp as [-> | ->]; [apply Hi|apply kv_inv_events, Hi].
      + split; [done|]. intros j g0 g H0 H1. case_decide; congruence. }
  unfold BlockPool.take_events. wp_steps. destruct (enable_kv_cache_events (the_pool m)).
  - wp_steps. apply Hat. by right.
  - wp_steps. apply Hat. by left.
Qed.

Lemma full_grow m toks toks' :
  full_inv m toks → (∀ x, toks x `prefix_of` toks' x) →
  full_inv m toks' ∧ ∀ x c, full_has_slots m toks x c → full_has_slots m toks' x c.
Proof.
  intros [[free Hi] ? ? ? ?] Hp. split.
  - split; try done. exists free. by eapply kvm_inv_tokens.
  - intros x c (N & HN & Hh). exists N. split; [done|]. intros i g Hg. destruct (Hh i g Hg) as [? Hk].
    split; [done|]. intros Hon. destruct (Hk Hon) as (k & ? & ?). exists k. split; [done|].
    pose proof (prefix_length _ _ (Hp x)). unfold len in *. lia.
Qed.

Lemma full_rollback m toks x c c' :
  full_has_slots m toks x c → Z.min c (len (toks x)) <= c' <= c → full_has_slots m toks x c'.
Proof.
  intros (N & HN & Hh) Hc. exists N. split; [lia|]. intros i g Hg. destruct (Hh i g Hg) as [? Hk].
  split; [done|]. intros Hon. destruct (Hk Hon) as (k & ? & ?). exists k. split; [done|lia].
Qed.

Lemma full_stats m toks :
  full_inv m toks → wp make_prefix_cache_stats (λ st m', full_frame (λ _, True) m m' toks ∧
    (log_stats m = true → is_Some st)) m.
Proof.
  intros Hf. pose proof Hf as [[free Hi] Hfull Hst Hwf Hca]. unfold make_prefix_cache_stats. wp_steps.
  destruct (log_stats m) eqn:Hl; wp_steps; (split; [|by try (intros _; apply Hst)]).
  - apply full_frame_intro; [done|split; try done; by intros _ _|by apply same_groups_refl|exists free].
    by destruct Hi.
  - apply full_frame_intro; [done|done|by apply same_groups_refl|by exists free].
Qed.

(** Groups of full attention; prefix caching works for one group of them. *)
Record full_config (cfg : KVCacheConfig) (caching : bool) : Prop := {
  fc_blocks : 0 < num_blocks cfg;
  fc_groups : ∀ g : KVCacheGroupSpec, g ∈ kv_cache_groups cfg → ∃ a w c, kv_cache_spec g = FullAttentionSpec a w c ∧ 0 < attn_block_size a;
  fc_one : caching = true → ∃ g : KVCacheGroupSpec, kv_cache_groups cfg = [g]
}.

Lemma full_init cfg max_model_len caching eagle stats ev m toks :
  full_config cfg caching → KVCacheManager_init cfg max_model_len caching eagle stats ev = Ok m →
  full_inv m toks ∧ (∀ x, full_no_slots m x) ∧ manager_max_model_len m = max_model_len ∧ log_stats m = stats.
Proof.
  intros [Hn Hg Ho] Hm. assert (Hbs : ∀ g : KVCacheGroupSpec, g ∈ kv_cache_groups cfg → 0 < block_size (kv_cache_spec g)).
  { intros g (a & w & c & -> & ?)%Hg. done. }
  destruct (KVCacheManager_init_spec hash_function NONE_HASH cfg max_model_len caching eagle stats ev toks m Hn Hbs Hm)
    as (Hinv & Hwf & Hst & Hno).
  unfold KVCacheManager_init in Hm. revert Hm. set (ca := if decide (len (kv_cache_groups cfg) = 0) then false else caching).
  destruct (if ca then _ else _) as [bs|] eqn:Ebs; cbn [mbind outcome_bind]; [|done].
  destruct (get_kv_cache_coordinator cfg eagle ca ev) as [c|] eqn:Ec; cbn [mbind outcome_bind]; [|done].
  intros [= <-]. pose proof (get_kv_cache_coordinator_spec cfg eagle ca ev c Hn Ec) as (_ & _ & _ & Hms & _).
  split; [|split; [by intros x i g Hi; apply (Hno i g x Hi)|done]].
  split; [by eexists| |done|done|].
  - intros i g. cbn. rewrite Hms, list_lookup_fmap. intros ([z gs] & Hi & ->)%fmap_Some.
    apply enumerate_lookup in Hi as [-> Hi]. destruct (Hg gs) as (a & w & c0 & -> & _); [by eapply list_elem_of_lookup_2|done].
  - cbn. intros Hcat. assert (caching = true) as Hcaching by (unfold ca in Hcat; case_decide; done).
    destruct (Ho Hcaching) as (g & Hgs). destruct (Hg g) as (a & w & c0 & Hspec & Hpos); [rewrite Hgs; by left|].
    rewrite Hcat in Ebs, Ec. rewrite Hgs in Ebs. cbn in Ebs. injection Ebs as <-.
    exists (block_size (kv_cache_spec g)). split; [done|].
    assert (kind c = UnitaryKVCacheCoordinator (kv_cache_spec g)) as Hk.
    { unfold get_kv_cache_coordinator in Ec. cbn in Ec. rewrite Hgs in Ec. unfold base_init in Ec.
      destruct (BlockPool_init (num_blocks cfg) true ev); cbn [mbind outcome_bind] in Ec; [|done]. by injection Ec as <-. }
    unfold coord_cacheable. rewrite Hk. split; [by rewrite Hspec|].
    intros s [= <-]. by rewrite Hspec.
Qed.

#[export] Instance full_attention_slots : SlotContract hash_function NONE_HASH := {
  slots_inv := full_inv;
  no_slots := full_no_slots;
  has_slots := full_has_slots;
  is_hit := full_is_hit;
  lookup_law := full_lookup;
  start_law := full_start;
  continue_law := full_continue;
  free_law := full_free;
  forget_law := full_forget;
  common_prefix_law := full_common_prefix;
  block_ids_law := full_block_ids;
  events_law := full_events;
  grow_law := full_grow;
  supported := full_config;
  init_law := full_init;
  rollback_law := full_rollback;
  stats_law := full_stats
}.

(** What the interface's [has_slots] comes to: every group has blocks for the tokens. *)
Lemma full_slots_cover m toks rid c i g :
  full_inv m toks → full_has_slots m toks rid c → managers m !! i = Some g →
  c <= len (blocks_of g rid) * manager_block_size g.
Proof.
  intros [[free Hi] _ _ _ _] (N & HN & Hh) Hg. destruct (Hh i g Hg) as [-> _].
  pose proof (cdiv_bounds N (manager_block_size g) (km_sizes _ _ _ _ _ Hi i g Hg)). lia.
Qed.
End full_attention.
