(* ===== verification/HeapQueue.v ===== *)
(** The binary heap of CPython's [heapq], which [v1/core/sched/request_queue.py]
    keeps its priority queue in.  The comparison may raise, as the comparison of the
    queue's tuples does. *)
From Stdlib Require Import ZArith Lia.
From stdpp Require Import base list.
From S2P Require Import Prelude.
Local Open Scope nat_scope.

Definition swap {A} (i j : nat) (l : list A) : list A :=
  match l !! i, l !! j with
  | Some a, Some b => <[i := b]> (<[j := a]> l)
  | _, _ => l
  end.

(** The parent of a position: [(pos - 1) >> 1]. *)
Definition parent (i : nat) : nat := (i - 1) / 2.

Section heapq.
Context {A : Type} (lt : A → A → outcome bool).

(** [heap[i] < heap[j]]. *)
Definition lt_at (l : list A) (i j : nat) : outcome bool :=
  a ← py_index l (Z.of_nat i); b ← py_index l (Z.of_nat j); lt a b.

(** [_siftdown(heap, startpos, pos)]. *)
Fixpoint siftdown (fuel : nat) (startpos pos : nat) (l : list A) : outcome (list A) :=
  match fuel with
  | O => Raise OutOfFuel
  | S fuel =>
    if decide (startpos < pos) then
      c ← lt_at l pos (parent pos);
      if (c : bool) then siftdown fuel startpos (parent pos) (swap pos (parent pos) l) else Ok l
    else Ok l
  end.

(** The first loop of [_siftup]: the smaller child moves up until [pos] is a leaf. *)
Fixpoint sift_to_leaf (fuel : nat) (pos : nat) (l : list A) : outcome (nat * list A) :=
  match fuel with
  | O => Raise OutOfFuel
  | S fuel =>
    if decide (pos < length l / 2) then
      c ← (if decide (2 * pos + 2 < length l) then lt_at l (2 * pos + 1) (2 * pos + 2) else Ok true);
      let child := if (c : bool) then 2 * pos + 1 else 2 * pos + 2 in
      sift_to_leaf fuel child (swap pos child l)
    else Ok (pos, l)
  end.

(** [_siftup(heap, pos)]. *)
Definition siftup (startpos : nat) (l : list A) : outcome (list A) :=
  '(pos, l') ← sift_to_leaf (S (length l)) startpos l;
  siftdown (S pos) startpos pos l'.

Definition heappush (l : list A) (x : A) : outcome (list A) :=
  siftdown (S (length l)) 0 (length l) (l ++ [x]).

(** [heap.pop()] of an empty list raises [IndexError]. *)
Definition heappop (l : list A) : outcome (A * list A) :=
  match last l with
  | None => Raise IndexError
  | Some lastelt =>
    match removelast l with
    | [] => Ok (lastelt, [])
    | (returnitem :: _) as heap =>
      l' ← siftup 0 (<[0 := lastelt]> heap);
      Ok (returnitem, l')
    end
  end.

(** [for i in reversed(range(n//2)): _siftup(x, i)]. *)
Fixpoint heapify_from (n : nat) (l : list A) : outcome (list A) :=
  match n with
  | O => Ok l
  | S i => l' ← siftup i l; heapify_from i l'
  end.
Definition heapify (l : list A) : outcome (list A) := heapify_from (length l / 2) l.
End heapq.

(** * The heap property *)

Lemma swap_perm {A} i j (l : list A) : swap i j l ≡ₚ l.
Proof.
  unfold swap. destruct (l !! i) as [a|] eqn:Hi; [|done]. destruct (l !! j) as [b|] eqn:Hj; [|done].
  destruct (decide (i = j)) as [->|Hne].
  { simplify_eq. rewrite list_insert_insert_eq, list_insert_id; done. }
  by apply Permutation_insert_swap.
Qed.

Lemma swap_length {A} i j (l : list A) : length (swap i j l) = length l.
Proof. by rewrite swap_perm. Qed.

Lemma lookup_swap {A} i j (l : list A) k :
  i < length l → j < length l →
  swap i j l !! k = if decide (k = i) then l !! j else if decide (k = j) then l !! i else l !! k.
Proof.
  intros Hi Hj. unfold swap. destruct (lookup_lt_is_Some_2 _ _ Hi) as [a Ha], (lookup_lt_is_Some_2 _ _ Hj) as [b Hb].
  rewrite Ha, Hb. case_decide as E1; [subst; rewrite list_lookup_insert_eq; [done|by rewrite length_insert]|].
  rewrite list_lookup_insert_ne by done. case_decide as E2; [subst; by rewrite list_lookup_insert_eq|].
  by rewrite list_lookup_insert_ne.
Qed.

Lemma parent_children i k : 0 < k → (parent k = i ↔ k = 2 * i + 1 ∨ k = 2 * i + 2).
Proof.
  intros Hk. unfold parent. pose proof (Nat.div_mod (k - 1) 2). pose proof (Nat.mod_upper_bound (k - 1) 2). lia.
Qed.

Lemma parent_lt k : 0 < k → parent k < k.
Proof. intros. unfold parent. apply Nat.Div0.div_lt_upper_bound. lia. Qed.

(** [desc s i]: position [i] is in the subtree of [s]. *)
Inductive desc (s : nat) : nat → Prop :=
  | desc_root : desc s s
  | desc_left i : desc s i → desc s (2 * i + 1)
  | desc_right i : desc s i → desc s (2 * i + 2).

Lemma desc_ge s i : desc s i → s ≤ i.
Proof. induction 1; lia. Qed.

Lemma desc_parent s i : desc s i → i ≠ s → desc s (parent i) ∧ 0 < i.
Proof.
  intros H Hne. destruct H as [|i H|i H]; [done|..]; (split; [|lia]).
  - assert (parent (2 * i + 1) = i) as -> by (apply parent_children; lia). done.
  - assert (parent (2 * i + 2) = i) as -> by (apply parent_children; lia). done.
Qed.

Lemma desc_0 i : desc 0 i.
Proof.
  induction i as [i IH] using lt_wf_ind. destruct i as [|k]; [constructor|].
  pose proof (parent_lt (S k)) as Hlt.
  assert (S k = 2 * parent (S k) + 1 ∨ S k = 2 * parent (S k) + 2) as [E|E] by (apply parent_children; lia);
    rewrite E; constructor; apply IH; lia.
Qed.

(** The comparison decides a total preorder on the elements of [l]. *)
Definition decides {A} (lt : A → A → outcome bool) (le : A → A → Prop) (l : list A) : Prop :=
  ∀ x y, x ∈ l → y ∈ l → ∃ c, lt x y = Ok c ∧ (if c then le x y else le y x).

#[export] Instance decides_proper {A} (lt : A → A → outcome bool) le :
  Proper ((≡ₚ) ==> iff) (decides lt le).
Proof.
  intros l k Hlk. unfold decides. by setoid_rewrite Hlk.
Qed.

Section heap_property.
Context {A : Type} (lt : A → A → outcome bool) (le : A → A → Prop) `{!Reflexive le, !Transitive le}.
Implicit Types (l : list A) (i j s n pos : nat).

(** The value at [i] is at most the one at [j]. *)
Definition le_at l i j : Prop := ∀ x y, l !! i = Some x → l !! j = Some y → le x y.

Lemma le_at_trans l i j k : j < length l → le_at l i j → le_at l j k → le_at l i k.
Proof.
  intros Hj H1 H2 x z Hx Hz. destruct (lookup_lt_is_Some_2 _ _ Hj) as [y Hy]. etrans; [by apply H1|by apply H2].
Qed.

(** Every position whose parent is at [s] or later is at least its parent. *)
Definition heap_from s l : Prop := ∀ i, 0 < i → s ≤ parent i → i < length l → le_at l (parent i) i.
Definition is_heap l : Prop := heap_from 0 l.

(** All is well but for the value at [pos], which may be too small. *)
Definition low_at s pos l : Prop :=
  (∀ i, 0 < i → s ≤ parent i → i < length l → i ≠ pos → le_at l (parent i) i) ∧
  (∀ i, 0 < i → parent i = pos → i < length l → 0 < pos → s ≤ parent pos → le_at l (parent pos) i).

(** All is well but for the value at [pos], which may be anything. *)
Definition hole_at s pos l : Prop :=
  (∀ i, 0 < i → s ≤ parent i → i < length l → i ≠ pos → parent i ≠ pos → le_at l (parent i) i) ∧
  (∀ i, 0 < i → parent i = pos → i < length l → 0 < pos → s ≤ parent pos → le_at l (parent pos) i).

Lemma lt_at_spec l i j :
  decides lt le l → i < length l → j < length l →
  ∃ c, lt_at lt l i j = Ok c ∧ (if c then le_at l i j else le_at l j i).
Proof.
  intros Hd Hi Hj. destruct (lookup_lt_is_Some_2 _ _ Hi) as [x Hx], (lookup_lt_is_Some_2 _ _ Hj) as [y Hy].
  destruct (Hd x y) as (c & Hc & Hle); [by eapply list_elem_of_lookup_2..|].
  exists c. unfold lt_at. rewrite (py_index_lookup _ _ x Hx), (py_index_lookup _ _ y Hy). split; [done|].
  destruct c; intros ????; by simplify_eq.
Qed.

Lemma le_at_swap l i j a b :
  i < length l → j < length l →
  le_at (swap i j l) a b ↔
  le_at l (if decide (a = i) then j else if decide (a = j) then i else a)
          (if decide (b = i) then j else if decide (b = j) then i else b).
Proof.
  intros Hi Hj. unfold le_at. rewrite !lookup_swap by done.
  repeat case_decide; done.
Qed.

Lemma siftdown_spec fuel : ∀ s pos l,
  decides lt le l → pos < fuel → desc s pos → pos < length l → low_at s pos l →
  ∃ l', siftdown lt fuel s pos l = Ok l' ∧ l' ≡ₚ l ∧ heap_from s l'.
Proof.
  induction fuel as [|fuel IH]; intros s pos l Hd Hf Hdesc Hpos [Hlow Hgp]; [lia|]. simpl.
  pose proof (desc_ge _ _ Hdesc) as Hge.
  case_decide as Hs.
  - destruct (desc_parent _ _ Hdesc) as [Hdp Hpos0]; [lia|]. pose proof (parent_lt pos Hpos0) as Hpl.
    pose proof (desc_ge _ _ Hdp) as Hsp.
    destruct (lt_at_spec l pos (parent pos) Hd) as (c & -> & Hc); [lia..|]. cbn [mbind outcome_bind]. destruct c.
    + destruct (IH s (parent pos) (swap pos (parent pos) l)) as (l' & -> & Hp & Hh);
        [by rewrite swap_perm|lia|done|rewrite swap_length; lia| |].
      * rewrite <- swap_length with (i := pos) (j := parent pos) in Hpos.
        split; intros i Hi; rewrite swap_length in *.
        -- intros Hsi Hil Hne. rewrite le_at_swap by lia.
           destruct (decide (i = pos)) as [->|Hip].
           { rewrite (decide_False (P := parent pos = pos)) by lia. by rewrite !decide_True. }
           rewrite (decide_False (P := i = parent pos)) by done.
           destruct (decide (parent i = pos)) as [Hpi|Hpi]; [apply Hgp; lia|].
           destruct (decide (parent i = parent pos)) as [Hpp|Hpp]; [|by apply Hlow].
           eapply le_at_trans; [|exact Hc|]; [lia|]. rewrite <- Hpp. apply Hlow; lia.
        -- intros Hpi Hil Hpp0 Hspp. rewrite le_at_swap by lia.
           pose proof (parent_lt (parent pos) Hpp0) as Hppl.
           rewrite (decide_False (P := parent (parent pos) = pos)), (decide_False (P := parent (parent pos) = parent pos)) by lia.
           assert (Hgpp : le_at l (parent (parent pos)) (parent pos)) by (apply Hlow; lia).
           destruct (decide (i = pos)) as [->|Hip]; [done|].
           pose proof (parent_lt i Hi). rewrite (decide_False (P := i = parent pos)) by lia.
           eapply le_at_trans; [|exact Hgpp|]; [lia|]. rewrite <- Hpi. apply Hlow; lia.
      * exists l'. split; [done|]. split; [|done]. by rewrite Hp, swap_perm.
    + exists l. split_and!; [done|done|]. intros i Hi Hsi Hil. destruct (decide (i = pos)) as [->|]; [done|by apply Hlow].
  - exists l. split_and!; [done|done|]. intros i Hi Hsi Hil. apply Hlow; try done. intros ->.
    pose proof (parent_lt pos Hi). lia.
Qed.

Lemma sift_to_leaf_spec fuel : ∀ s pos l,
  decides lt le l → length l - pos < fuel → desc s pos → pos < length l → hole_at s pos l →
  ∃ pos' l', sift_to_leaf lt fuel pos l = Ok (pos', l') ∧ l' ≡ₚ l ∧ desc s pos' ∧ pos' < length l' ∧ low_at s pos' l'.
Proof.
  induction fuel as [|fuel IH]; intros s pos l Hd Hf Hdesc Hpos [Hh Hgp]; [lia|]. cbn [sift_to_leaf].
  pose proof (desc_ge _ _ Hdesc) as Hge.
  pose proof (Nat.div_mod (length l) 2) as Hdm. pose proof (Nat.mod_upper_bound (length l) 2) as Hmb.
  case_decide as Hlt.
  - assert (∃ c, (if decide (2 * pos + 2 < length l) then lt_at lt l (2 * pos + 1) (2 * pos + 2) else Ok true) = Ok c ∧
      (if c then (2 * pos + 2 < length l → le_at l (2 * pos + 1) (2 * pos + 2))
       else 2 * pos + 2 < length l ∧ le_at l (2 * pos + 2) (2 * pos + 1))) as (c & Hc & Hle).
    { case_decide; [|exists true; split; [done|lia]].
      destruct (lt_at_spec l (2 * pos + 1) (2 * pos + 2) Hd) as (c & -> & Hc); [lia..|].
      exists c. split; [done|]. by destruct c. }
    rewrite Hc. cbn [mbind outcome_bind].
    set (child := if c then 2 * pos + 1 else 2 * pos + 2).
    assert (Hchild : child < length l ∧ 0 < child ∧ parent child = pos ∧ pos < child ∧
      (∀ i, 0 < i → parent i = pos → i < length l → le_at l child i)).
    { assert (parent child = pos) as Hp by (apply parent_children; destruct c; lia).
      assert (pos < child ∧ child < length l) as [? ?] by (unfold child; destruct c; lia).
      split_and!; [lia|lia|done|lia|].
      intros i Hi Hpi Hil. apply parent_children in Hpi; [|done].
      assert (i = child ∨ i ≠ child) as [->|Hne] by lia; [intros ????; by simplify_eq|].
      destruct c, Hpi as [->| ->]; unfold child in *; try lia.
      - by apply Hle.
      - by apply Hle. }
    destruct Hchild as (Hcl & Hc0 & Hcp & Hpc & Hmin).
    destruct (IH s child (swap pos child l)) as (pos' & l' & -> & Hp & Hrest).
    + by rewrite swap_perm.
    + rewrite swap_length. lia.
    + destruct c; unfold child; [apply (desc_left _ pos)|apply (desc_right _ pos)]; done.
    + by rewrite swap_length.
    + split; intros i Hi; rewrite swap_length.
      * intros Hsi Hil Hne Hpne. rewrite le_at_swap by lia.
        destruct (decide (i = pos)) as [->|Hip].
        { pose proof (parent_lt pos Hi). rewrite (decide_False (P := parent pos = pos)), (decide_False (P := parent pos = child)) by lia.
          apply Hgp; lia. }
        rewrite (decide_False (P := i = child)), (decide_False (P := parent i = child)) by done.
        destruct (decide (parent i = pos)) as [Hpi|Hpi]; [by apply Hmin|by apply Hh].
      * intros Hpi Hil _ _. rewrite le_at_swap by lia. rewrite Hcp.
        pose proof (parent_lt i Hi). rewrite (decide_True (P := pos = pos)), (decide_False (P := i = pos)), (decide_False (P := i = child)) by lia.
        rewrite <- Hpi. apply Hh; lia.
    + exists pos', l'. split; [done|]. split; [|done]. by rewrite Hp, swap_perm.
  - exists pos, l. split_and!; try done. split; [|done]. intros i Hi Hsi Hil Hne. apply Hh; try done.
    intros Hpi. apply parent_children in Hpi; lia.
Qed.
End heap_property.

(** * The operations *)
Section heap_operations.
Context {A : Type} (lt : A → A → outcome bool) (le : A → A → Prop) `{!Reflexive le, !Transitive le}.
Implicit Types (l : list A).

Lemma siftup_spec s l :
  decides lt le l → s < length l → heap_from le (S s) l →
  ∃ l', siftup lt s l = Ok l' ∧ l' ≡ₚ l ∧ heap_from le s l'.
Proof.
  intros Hd Hs Hh. unfold siftup.
  destruct (sift_to_leaf_spec lt le (S (length l)) s s l Hd) as (pos & l1 & -> & Hp & Hdesc & Hpos & Hlow);
    [lia|constructor|done| |].
  - split; intros i Hi; [intros Hsi Hil Hne Hpne; apply Hh; lia|].
    intros Hpi Hil Hs0 Hsp. pose proof (parent_lt s Hs0). lia.
  - cbn [mbind outcome_bind]. destruct (siftdown_spec lt le (S pos) s pos l1) as (l2 & -> & Hp2 & Hh2);
      [by rewrite Hp|lia|done..|]. exists l2. split; [done|]. split; [by rewrite Hp2|done].
Qed.

Lemma heap_min l x y : is_heap le (x :: l) → y ∈ (x :: l) → le x y.
Proof.
  intros Hh [i Hi]%list_elem_of_lookup. revert y Hi. induction i as [i IH] using lt_wf_ind. intros y Hi.
  destruct (decide (i = 0)) as [->|Hne]; [by simpl in Hi; simplify_eq|].
  pose proof (parent_lt i) as Hlt. apply lookup_lt_Some in Hi as Hil.
  destruct (lookup_lt_is_Some_2 (x :: l) (parent i)) as [z Hz]; [lia|].
  etrans; [by apply (IH (parent i)); [lia|]|]. eapply (Hh i); [lia|lia|done|done|done].
Qed.

(** A push raises nothing and keeps a heap of the same elements. *)
Lemma heappush_spec l x :
  decides lt le (x :: l) → is_heap le l →
  ∃ l', heappush lt l x = Ok l' ∧ l' ≡ₚ x :: l ∧ is_heap le l'.
Proof.
  intros Hd Hh. unfold heappush. pose proof (Permutation_cons_append l x) as Hp.
  destruct (siftdown_spec lt le (S (length l)) 0 (length l) (l ++ [x])) as (l' & -> & Hp' & Hh').
  - by rewrite <- Hp.
  - lia.
  - apply desc_0.
  - rewrite length_app. simpl. lia.
  - split; intros i Hi; rewrite length_app; simpl.
    + intros _ Hil Hne. pose proof (parent_lt i Hi). intros a b. rewrite !lookup_app_l by lia.
      apply Hh; lia.
    + intros Hpi Hil. pose proof (parent_lt i Hi). lia.
  - exists l'. split; [done|]. split; [by rewrite Hp', Hp|done].
Qed.

(** A pop of a heap returns a least element, and keeps a heap of the others. *)
Lemma heappop_spec l :
  decides lt le l → is_heap le l → l ≠ [] →
  ∃ x l', heappop lt l = Ok (x, l') ∧ l ≡ₚ x :: l' ∧ is_heap le l' ∧ ∀ y, y ∈ l → le x y.
Proof.
  intros Hd Hh Hne. destruct (exists_last Hne) as (k & z & ->). unfold heappop.
  rewrite last_snoc, removelast_last. destruct k as [|x k].
  - exists z, []. split_and!; [done|done| |].
    + intros i _ _ Hi. simpl in Hi. lia.
    + by intros y ->%list_elem_of_singleton.
  - assert (Hp : (x :: k) ++ [z] ≡ₚ x :: z :: k).
    { simpl. constructor. by rewrite <- Permutation_cons_append. }
    destruct (siftup_spec 0 (z :: k)) as (l' & Hl' & Hp' & Hh').
    + intros a b Ha Hb. apply Hd; rewrite Hp; by right.
    + simpl. lia.
    + intros i Hi Hpi Hil a b Ha Hb. pose proof (parent_lt i Hi). cbn [length] in *. apply (Hh i); [lia|lia| | |].
      * rewrite length_app. cbn [length]. lia.
      * rewrite lookup_app_l by (cbn [length]; lia). destruct i as [|i]; [lia|].
        destruct (parent (S i)) as [|j] eqn:E; [lia|]. done.
      * destruct i as [|i]; [lia|]. rewrite lookup_app_l by (cbn [length]; lia). done.
    + exists x, l'. cbn [app]. change (<[0:=z]> (x :: k)) with (z :: k). rewrite Hl'. cbn [mbind outcome_bind].
      split_and!; [done|by rewrite Hp, Hp'|done|]. intros y Hy. eapply heap_min; [exact Hh|done].
Qed.

Lemma heapify_from_spec n : ∀ l,
  decides lt le l → n ≤ length l → heap_from le n l →
  ∃ l', heapify_from lt n l = Ok l' ∧ l' ≡ₚ l ∧ is_heap le l'.
Proof.
  induction n as [|n IH]; intros l Hd Hn Hh; simpl; [by exists l|].
  destruct (siftup_spec n l) as (l1 & -> & Hp1 & Hh1); [done|lia|done|]. cbn [mbind outcome_bind].
  destruct (IH l1) as (l2 & -> & Hp2 & Hh2); [by rewrite Hp1|rewrite Hp1; lia|done|].
  exists l2. split; [done|]. split; [by rewrite Hp2|done].
Qed.

(** Any list becomes a heap of the same elements. *)
Lemma heapify_spec l :
  decides lt le l → ∃ l', heapify lt l = Ok l' ∧ l' ≡ₚ l ∧ is_heap le l'.
Proof.
  intros Hd. unfold heapify. apply heapify_from_spec; [done|apply Nat.Div0.div_le_upper_bound; lia|].
  intros i Hi Hpi Hil. exfalso. unfold parent in Hpi.
  pose proof (Nat.div_mod (length l) 2). pose proof (Nat.mod_upper_bound (length l) 2).
  pose proof (Nat.div_mod (i - 1) 2). pose proof (Nat.mod_upper_bound (i - 1) 2). lia.
Qed.
End heap_operations.
