(* ===== verification/RequestQueue.v ===== *)
(** The waiting queues of [v1/core/sched/request_queue.py]: first come first served,
    and by priority.  A queue holds references to request objects; the objects
    themselves, which the scheduler's store maps the references to, are not read but
    for the priority and the arrival time of the request that is added. *)
From Stdlib Require Import ZArith Lia.
From stdpp Require Import base strings countable gmap sets fin_maps sorting list.
From S2P Require Import Prelude Request HeapQueue.
Local Open Scope Z_scope.

Inductive SchedulingPolicy : Type := FCFS | PRIORITY.

(** A reference to a request object.  The object of a request is created once, so its
    [request_id] identifies it. *)
Definition req_ref : Type := string.

(** * [FCFSRequestQueue], a deque *)
Module FCFSRequestQueue.
Definition add_request (q : list req_ref) (r : req_ref) : list req_ref := q ++ [r].
Definition pop_request (q : list req_ref) : outcome (req_ref * list req_ref) :=
  match q with [] => Raise IndexError | r :: q' => Ok (r, q') end.
Definition peek_request (q : list req_ref) : outcome req_ref :=
  match q with [] => Raise IndexError | r :: _ => Ok r end.
Definition prepend_request (q : list req_ref) (r : req_ref) : list req_ref := r :: q.
(** [self.extendleft(reversed(requests))]. *)
Definition prepend_requests (q requests : list req_ref) : list req_ref :=
  foldl (λ q r, r :: q) q (reverse requests).
(** [deque.remove] takes out the first occurrence and raises without one. *)
Fixpoint remove_request (q : list req_ref) (r : req_ref) : outcome (list req_ref) :=
  match q with
  | [] => Raise ValueError
  | x :: q' => if decide (x = r) then Ok q' else q'' ← remove_request q' r; Ok (x :: q'')
  end.
Definition remove_requests (q requests : list req_ref) : list req_ref :=
  filter (λ r, r ∉ requests) q.
End FCFSRequestQueue.

(** * [PriorityRequestQueue], a heap of tuples *)

(** [(priority, arrival_time, request)]. *)
Definition entry : Type := Z * Z * req_ref.
Definition entry_request (e : entry) : req_ref := e.2.

(** [<] of tuples: the first components that differ decide.  Requests have no [<], so
    two different requests of the same priority and arrival time raise. *)
Definition entry_lt (a b : entry) : outcome bool :=
  match a, b with
  | (p, t, r), (p', t', r') =>
    if decide (p = p') then
      if decide (t = t') then
        if decide (r = r') then Ok false else Raise TypeError
      else Ok (bool_decide (t < t'))
    else Ok (bool_decide (p < p'))
  end.

Module PriorityRequestQueue.
Definition entry_of (r : Request) : entry := (priority r, arrival_time r, request_id r).

Definition add_request (h : list entry) (r : Request) : outcome (list entry) :=
  heappush entry_lt h (entry_of r).
Definition pop_request (h : list entry) : outcome (req_ref * list entry) :=
  match h with
  | [] => Raise IndexError
  | _ => '(e, h') ← heappop entry_lt h; Ok (entry_request e, h')
  end.
Definition peek_request (h : list entry) : outcome req_ref :=
  match h with [] => Raise IndexError | e :: _ => Ok (entry_request e) end.
Definition prepend_request (h : list entry) (r : Request) : outcome (list entry) := add_request h r.
Fixpoint prepend_requests (h : list entry) (requests : list Request) : outcome (list entry) :=
  match requests with
  | [] => Ok h
  | r :: requests' => h' ← add_request h r; prepend_requests h' requests'
  end.
Definition remove_request (h : list entry) (r : req_ref) : outcome (list entry) :=
  heapify entry_lt (filter (λ e, entry_request e ≠ r) h).
Definition remove_requests (h : list entry) (requests : list req_ref) : outcome (list entry) :=
  heapify entry_lt (filter (λ e, entry_request e ∉ requests) h).
(** [__iter__] pops a copy of the heap until it is empty. *)
Fixpoint iter_from (fuel : nat) (h : list entry) : outcome (list req_ref) :=
  match h, fuel with
  | [], _ => Ok []
  | _, O => Raise OutOfFuel
  | _, S fuel => '(e, h') ← heappop entry_lt h; rs ← iter_from fuel h'; Ok (entry_request e :: rs)
  end.
Definition iter (h : list entry) : outcome (list req_ref) := iter_from (length h) h.
Definition reversed (h : list entry) : outcome (list req_ref) := rs ← iter h; Ok (reverse rs).
End PriorityRequestQueue.

(** * [RequestQueue], either of them *)
Inductive RequestQueue : Type :=
  | FCFSQueue (q : list req_ref)
  | PriorityQueue (h : list entry).

Definition create_request_queue (policy : SchedulingPolicy) : RequestQueue :=
  match policy with
  | PRIORITY => PriorityQueue []
  | FCFS => FCFSQueue []
  end.

Definition add_request (w : RequestQueue) (r : Request) : outcome RequestQueue :=
  match w with
  | FCFSQueue q => Ok (FCFSQueue (FCFSRequestQueue.add_request q (request_id r)))
  | PriorityQueue h => h' ← PriorityRequestQueue.add_request h r; Ok (PriorityQueue h')
  end.
Definition pop_request (w : RequestQueue) : outcome (req_ref * RequestQueue) :=
  match w with
  | FCFSQueue q => '(r, q') ← FCFSRequestQueue.pop_request q; Ok (r, FCFSQueue q')
  | PriorityQueue h => '(r, h') ← PriorityRequestQueue.pop_request h; Ok (r, PriorityQueue h')
  end.
Definition peek_request (w : RequestQueue) : outcome req_ref :=
  match w with
  | FCFSQueue q => FCFSRequestQueue.peek_request q
  | PriorityQueue h => PriorityRequestQueue.peek_request h
  end.
Definition prepend_request (w : RequestQueue) (r : Request) : outcome RequestQueue :=
  match w with
  | FCFSQueue q => Ok (FCFSQueue (FCFSRequestQueue.prepend_request q (request_id r)))
  | PriorityQueue h => h' ← PriorityRequestQueue.prepend_request h r; Ok (PriorityQueue h')
  end.
Definition remove_requests (w : RequestQueue) (requests : list req_ref) : outcome RequestQueue :=
  match w with
  | FCFSQueue q => Ok (FCFSQueue (FCFSRequestQueue.remove_requests q requests))
  | PriorityQueue h => h' ← PriorityRequestQueue.remove_requests h requests; Ok (PriorityQueue h')
  end.
(** The requests in the order [__iter__] yields them. *)
Definition queue_iter (w : RequestQueue) : outcome (list req_ref) :=
  match w with
  | FCFSQueue q => Ok q
  | PriorityQueue h => PriorityRequestQueue.iter h
  end.
(** The objects the requests of [requests] refer to, added in the order they are
    iterated in. *)
Definition prepend_requests (w requests : RequestQueue) (objects : list req_ref → outcome (list Request))
    : outcome RequestQueue :=
  rs ← queue_iter requests;
  match w with
  | FCFSQueue q => Ok (FCFSQueue (FCFSRequestQueue.prepend_requests q rs))
  | PriorityQueue h =>
    os ← objects rs; h' ← PriorityRequestQueue.prepend_requests h os; Ok (PriorityQueue h')
  end.
Definition queue_refs (w : RequestQueue) : list req_ref :=
  match w with
  | FCFSQueue q => q
  | PriorityQueue h => entry_request <$> h
  end.
Definition queue_len (w : RequestQueue) : Z := len (queue_refs w).
(** [bool(queue)]. *)
Definition queue_nonempty (w : RequestQueue) : bool := bool_decide (queue_len w > 0).

(** * Correctness *)

Definition entry_le (a b : entry) : Prop := a.1.1 < b.1.1 ∨ (a.1.1 = b.1.1 ∧ a.1.2 <= b.1.2).
#[export] Instance entry_le_refl : Reflexive entry_le.
Proof. intros [[p t] r]. right. simpl. lia. Qed.
#[export] Instance entry_le_trans : Transitive entry_le.
Proof. intros [[p t] r] [[p2 t2] r2] [[p3 t3] r3]. unfold entry_le. simpl. lia. Qed.

(** Entries of the same priority and arrival time are of the same request. *)
Definition no_ties (h : list entry) : Prop :=
  ∀ a b, a ∈ h → b ∈ h → a.1 = b.1 → a.2 = b.2.

#[export] Instance no_ties_proper : Proper ((≡ₚ) ==> iff) no_ties.
Proof. intros l k Hlk. unfold no_ties. by setoid_rewrite Hlk. Qed.

Lemma no_ties_decides h : no_ties h → decides entry_lt entry_le h.
Proof.
  intros Hn [[p t] r] [[p' t'] r'] Ha Hb. unfold entry_lt, entry_le. simpl.
  case_decide as Hp; [|exists (bool_decide (p < p')); split; [done|]; case_bool_decide; lia].
  case_decide as Ht; [|exists (bool_decide (t < t')); split; [done|]; case_bool_decide; lia].
  subst. pose proof (Hn _ _ Ha Hb eq_refl) as E. simpl in E. rewrite decide_True by done.
  exists false. split; [done|lia].
Qed.

Lemma no_ties_incl h h' : (∀ e, e ∈ h' → e ∈ h) → no_ties h → no_ties h'.
Proof. unfold no_ties. eauto. Qed.

(** A queue in working order: a heap without ties. *)
Definition queue_wf (w : RequestQueue) : Prop :=
  match w with
  | FCFSQueue _ => True
  | PriorityQueue h => is_heap entry_le h ∧ no_ties h
  end.

Lemma fcfs_remove_spec q r :
  ((r ∈ q) → ∃ q1 q2, q = q1 ++ (r :: q2) ∧ (r ∉ q1) ∧ FCFSRequestQueue.remove_request q r = Ok (q1 ++ q2)) ∧
  (r ∉ q → FCFSRequestQueue.remove_request q r = Raise ValueError).
Proof.
  induction q as [|x q [IHin IHout]]; simpl; [split; [by intros ?%not_elem_of_nil|done]|].
  rewrite elem_of_cons. case_decide as E; [subst; split; [intros _; exists [], q; set_solver|tauto]|].
  split; [|intros Hn; rewrite IHout by tauto; done].
  intros [->|Hr]; [done|]. destruct (IHin Hr) as (q1 & q2 & -> & Hq1 & ->). exists (x :: q1), q2.
  split; [done|]. split; [|done]. rewrite elem_of_cons. intros [?|?]; [congruence|tauto].
Qed.

Lemma fcfs_prepend_spec q rs : FCFSRequestQueue.prepend_requests q rs = rs ++ q.
Proof.
  unfold FCFSRequestQueue.prepend_requests. revert q. induction rs as [|r rs IH] using rev_ind; intros q; [done|].
  rewrite reverse_app. simpl. rewrite IH, <- app_assoc. done.
Qed.

Lemma priority_add_spec h r :
  is_heap entry_le h → no_ties (PriorityRequestQueue.entry_of r :: h) →
  ∃ h', PriorityRequestQueue.add_request h r = Ok h' ∧ h' ≡ₚ PriorityRequestQueue.entry_of r :: h ∧ is_heap entry_le h'.
Proof. intros Hh Hn. by apply heappush_spec, Hh; [apply _..|apply no_ties_decides]. Qed.

Lemma priority_pop_spec h :
  is_heap entry_le h → no_ties h → h ≠ [] →
  ∃ e h', PriorityRequestQueue.pop_request h = Ok (entry_request e, h') ∧ h ≡ₚ e :: h' ∧ is_heap entry_le h' ∧
    no_ties h' ∧ (∀ y, y ∈ h → entry_le e y) ∧ PriorityRequestQueue.peek_request h = Ok (entry_request e).
Proof.
  intros Hh Hn Hne. unfold PriorityRequestQueue.pop_request. pose proof (no_ties_decides _ Hn) as Hd.
  destruct (heappop_spec entry_lt entry_le h Hd Hh Hne) as (e & h' & He & Hp & Hh' & Hmin).
  rewrite He. destruct h as [|e0 h]; [done|]. cbn [mbind outcome_bind]. exists e, h'. split_and!; try done.
  - eapply no_ties_incl; [|exact Hn]. intros x Hx. rewrite Hp. by right.
  - simpl. unfold heappop in He. destruct (exists_last Hne) as (k & z & E). rewrite E in *.
    rewrite last_snoc, removelast_last in He. destruct k as [|x k]; simpl in *; [by simplify_eq|].
    destruct (siftup _ _ _); simpl in He; by simplify_eq.
Qed.

Lemma priority_remove_spec h P `{∀ e : entry, Decision (P e)} :
  no_ties h → ∃ h', heapify entry_lt (filter P h) = Ok h' ∧ h' ≡ₚ filter P h ∧ is_heap entry_le h' ∧ no_ties h'.
Proof.
  intros Hn. assert (Hn' : no_ties (filter P h)).
  { eapply no_ties_incl; [|exact Hn]. by intros e [_ He]%list_elem_of_filter. }
  destruct (heapify_spec entry_lt entry_le (filter P h)) as (h' & -> & Hp & Hh); [by apply no_ties_decides|].
  exists h'. split; [done|]. split; [done|]. split; [done|]. by rewrite Hp.
Qed.

(** Iteration yields the requests in the order of their keys. *)
Lemma priority_iter_spec h :
  is_heap entry_le h → no_ties h →
  ∃ es, PriorityRequestQueue.iter h = Ok (entry_request <$> es) ∧ es ≡ₚ h ∧ StronglySorted entry_le es.
Proof.
  unfold PriorityRequestQueue.iter. remember (length h) as n eqn:En. revert h En.
  induction n as [|n IH]; intros h En Hh Hn.
  { destruct h; [|done]. exists []. split_and!; [done|done|constructor]. }
  destruct h as [|e0 h0]; [done|]. set (h := e0 :: h0) in *.
  destruct (heappop_spec entry_lt entry_le h) as (e & h' & He & Hp & Hh' & Hmin); [by apply no_ties_decides|done|done|].
  destruct (IH h') as (es & Hes & Hpe & Hs).
  - apply Permutation_length in Hp. simpl in Hp. simpl in En. lia.
  - done.
  - eapply no_ties_incl; [|exact Hn]. intros x Hx. rewrite Hp. by right.
  - exists (e :: es). simpl. fold h. rewrite He. cbn [mbind outcome_bind]. rewrite Hes. cbn [mbind outcome_bind].
    split; [done|]. split; [by rewrite Hpe, Hp|]. constructor; [done|].
    apply Forall_forall. intros y Hy. apply Hmin. rewrite Hp, <- Hpe. right. done.
Qed.

(** ** Either queue, against the store of request objects *)
Section queues.
Implicit Types (w : RequestQueue) (reqs : gmap req_ref Request) (r : Request).

(** The entries of a priority queue carry the keys of their requests. *)
Definition queue_inv w reqs : Prop :=
  match w with
  | FCFSQueue _ => True
  | PriorityQueue h => is_heap entry_le h ∧
      ∀ e, e ∈ h → ∃ r, reqs !! entry_request e = Some r ∧ e = PriorityRequestQueue.entry_of r
  end.

(** No two requests of a priority queue's scheduler have the same key. *)
Definition keys_distinct w reqs : Prop :=
  match w with
  | FCFSQueue _ => True
  | PriorityQueue _ => ∀ i j r r', reqs !! i = Some r → reqs !! j = Some r' →
      priority r = priority r' → arrival_time r = arrival_time r' → i = j
  end.

Lemma entries_no_ties h reqs :
  keys_distinct (PriorityQueue h) reqs →
  (∀ e, e ∈ h → ∃ r, reqs !! entry_request e = Some r ∧ e = PriorityRequestQueue.entry_of r) → no_ties h.
Proof.
  intros Hk He a b Ha Hb Hab. destruct (He a Ha) as (ra & Hra & Ea), (He b Hb) as (rb & Hrb & Eb).
  eapply (Hk a.2 b.2); [exact Hra|exact Hrb|..]; rewrite Ea, Eb in Hab; by simplify_eq/=.
Qed.

Lemma queue_inv_ext w reqs reqs' :
  (∀ i r, reqs !! i = Some r → ∃ r', reqs' !! i = Some r' ∧ params r' = params r) →
  queue_inv w reqs → queue_inv w reqs'.
Proof.
  intros Hext. destruct w as [q|h]; [done|]. intros [Hh He]. split; [done|]. intros e Hin.
  destruct (He e Hin) as (r & Hr & ->). destruct (Hext _ _ Hr) as (r' & Hr' & Hp).
  exists r'. split; [done|]. unfold PriorityRequestQueue.entry_of. by rewrite Hp.
Qed.

Lemma queue_add_spec w reqs r :
  queue_inv w reqs → keys_distinct w reqs → reqs !! request_id r = Some r →
  ∃ w', add_request w r = Ok w' ∧ queue_refs w' ≡ₚ request_id r :: queue_refs w ∧ queue_inv w' reqs ∧
    (keys_distinct w' reqs ↔ keys_distinct w reqs).
Proof.
  intros Hinv Hk Hr. destruct w as [q|h]; simpl.
  - eexists. csplit; [done| |done|done]. unfold FCFSRequestQueue.add_request. simpl.
    by rewrite <- Permutation_cons_append.
  - destruct Hinv as [Hh He].
    assert (He' : ∀ e, e ∈ PriorityRequestQueue.entry_of r :: h →
      ∃ r, reqs !! entry_request e = Some r ∧ e = PriorityRequestQueue.entry_of r).
    { intros e [->|Hin]%elem_of_cons; [by exists r|by apply He]. }
    destruct (priority_add_spec h r Hh) as (h' & -> & Hp & Hh'); [by apply (entries_no_ties _ reqs)|].
    cbn [mbind outcome_bind]. eexists. csplit; [done|by simpl; rewrite Hp| |done].
    split; [done|]. intros e. rewrite Hp. apply He'.
Qed.

Lemma queue_prepend_spec w reqs r :
  queue_inv w reqs → keys_distinct w reqs → reqs !! request_id r = Some r →
  ∃ w', prepend_request w r = Ok w' ∧ queue_refs w' ≡ₚ request_id r :: queue_refs w ∧ queue_inv w' reqs ∧
    (keys_distinct w' reqs ↔ keys_distinct w reqs).
Proof.
  intros Hinv Hk Hr. destruct w as [q|h]; [by eexists|]. by apply (queue_add_spec (PriorityQueue h)).
Qed.

Lemma queue_pop_spec w reqs :
  queue_inv w reqs → keys_distinct w reqs → queue_nonempty w = true →
  ∃ id w', pop_request w = Ok (id, w') ∧ peek_request w = Ok id ∧ queue_refs w ≡ₚ id :: queue_refs w' ∧
    queue_inv w' reqs ∧ (keys_distinct w' reqs ↔ keys_distinct w reqs).
Proof.
  intros Hinv Hk Hne%bool_decide_eq_true. destruct w as [[|id q]|h]; [done|by exists id, (FCFSQueue q)|].
  destruct Hinv as [Hh He]. assert (h ≠ []) as Hh0 by (by intros ->).
  destruct (priority_pop_spec h Hh) as (e & h' & Hpop & Hp & Hh' & _ & _ & Hpeek);
    [by apply (entries_no_ties _ reqs)|done|].
  exists (entry_request e), (PriorityQueue h'). simpl. rewrite Hpop, Hpeek. cbn [mbind outcome_bind].
  csplit; [done|done|by rewrite Hp|done| |done]. intros x Hx. apply He. rewrite Hp. by right.
Qed.

Lemma queue_remove_spec w reqs ids :
  queue_inv w reqs → keys_distinct w reqs →
  ∃ w', remove_requests w ids = Ok w' ∧ queue_refs w' ≡ₚ filter (.∉ ids) (queue_refs w) ∧
    queue_inv w' reqs ∧ (keys_distinct w' reqs ↔ keys_distinct w reqs).
Proof.
  intros Hinv Hk. destruct w as [q|h]; [by eexists|]. destruct Hinv as [Hh He]. simpl.
  unfold PriorityRequestQueue.remove_requests.
  destruct (priority_remove_spec h (λ e, entry_request e ∉ ids)) as (h' & -> & Hp & Hh' & _);
    [by apply (entries_no_ties _ reqs)|].
  cbn [mbind outcome_bind]. eexists. csplit; [done| | |done].
  - simpl. rewrite Hp. by rewrite <- (filter_fmap_comm entry_request (.∉ ids)).
  - split; [done|]. intros e. rewrite Hp, list_elem_of_filter. intros [_ Hin]. by apply He.
Qed.
End queues.
