(* ===== verification/EncoderCache.v ===== *)
(** The encoder cache of [v1/core/encoder_cache_manager.py]: which encoder outputs of
    which requests are kept, and how many token slots are left. *)
From Stdlib Require Import ZArith Lia.
From stdpp Require Import base strings countable gmap sets fin_maps list.
From S2P Require Import Prelude Request.
Local Open Scope Z_scope.

Record EncoderCacheManager : Type := mkEncoderCacheManager {
  cache_size : Z;
  num_free_slots : Z;
  cached : gmap string (gset Z);
  freed : list (string * Z)
}.

Definition EncoderCacheManager_init (cache_size : Z) : EncoderCacheManager :=
  mkEncoderCacheManager cache_size cache_size ∅ [].

Definition set_cached (v : gmap string (gset Z)) (m : EncoderCacheManager) : EncoderCacheManager :=
  mkEncoderCacheManager (cache_size m) (num_free_slots m) v (freed m).
Definition set_free_slots (v : Z) (m : EncoderCacheManager) : EncoderCacheManager :=
  mkEncoderCacheManager (cache_size m) v (cached m) (freed m).
Definition set_freed (v : list (string * Z)) (m : EncoderCacheManager) : EncoderCacheManager :=
  mkEncoderCacheManager (cache_size m) (num_free_slots m) (cached m) v.

Definition get_cached_input_ids (m : EncoderCacheManager) (request : Request) : gset Z :=
  default ∅ (cached m !! request_id request).

Definition has_cache (m : EncoderCacheManager) (request : Request) (input_id : Z) : bool :=
  bool_decide (input_id ∈ get_cached_input_ids m request).

Definition can_allocate (m : EncoderCacheManager) (request : Request) (input_id : Z) : outcome bool :=
  n ← get_num_encoder_tokens request input_id; Ok (bool_decide (n <= num_free_slots m)).

Definition allocate (request : Request) (input_id : Z) : M EncoderCacheManager unit :=
  modify (λ m, set_cached (<[request_id request := {[input_id]} ∪ get_cached_input_ids m request]> (cached m)) m) ;;
  n ← lift_outcome (get_num_encoder_tokens request input_id);
  modify (λ m, set_free_slots (num_free_slots m - n) m).

(** [discard], and the entry goes when its set is empty. *)
Definition discard_input (rid : string) (input_id : Z) (m : EncoderCacheManager) : EncoderCacheManager :=
  let ids := default ∅ (cached m !! rid) ∖ {[input_id]} in
  set_cached (if decide (ids = ∅) then delete rid (cached m) else <[rid := ids]> (cached m)) m.

Definition free_encoder_input (request : Request) (input_id : Z) : M EncoderCacheManager unit :=
  m ← get;
  if decide (cached m !! request_id request = None) then mret tt
  else
    modify (discard_input (request_id request) input_id) ;;
    n ← lift_outcome (get_num_encoder_tokens request input_id);
    modify (λ m, set_free_slots (num_free_slots m + n) m) ;;
    modify (λ m, set_freed (freed m ++ [(request_id request, input_id)]) m).

(** The copy of the set is iterated in some order; [elements] gives one. *)
Definition free (request : Request) : M EncoderCacheManager unit :=
  m ← get;
  for_each (elements (get_cached_input_ids m request)) (free_encoder_input request).

Definition get_freed_ids : M EncoderCacheManager (list (string * Z)) :=
  fr ← gets freed; modify (set_freed []) ;; mret fr.

(** * The budget *)

(** What the budget reads of the configurations; the multi-modal registry's answer,
    the most tokens an item of each modality has, is an argument. *)
Definition _compute_encoder_budget_multimodal (max_tokens_by_modality : list (string * Z))
    (disable_chunked_mm_input : bool) (max_num_batched_tokens max_num_encoder_input_tokens encoder_cache_size : Z)
    : outcome (Z * Z) :=
  match max_tokens_by_modality with
  | [] => Ok (0, 0)
  | (_, n) :: rest =>
    let max_tokens_per_mm_item := foldl (λ a p, Z.max a p.2) n rest in
    if decide (disable_chunked_mm_input = true ∧ max_tokens_per_mm_item > max_num_batched_tokens) then
      Raise ValueError
    else Ok (Z.max max_num_encoder_input_tokens max_tokens_per_mm_item,
             Z.max encoder_cache_size max_tokens_per_mm_item)
  end.

Definition compute_encoder_budget (is_multimodal_model : bool) (max_tokens_by_modality : list (string * Z))
    (disable_chunked_mm_input : bool) (max_num_batched_tokens max_num_encoder_input_tokens encoder_cache_size : Z)
    : outcome (Z * Z) :=
  if is_multimodal_model then
    _compute_encoder_budget_multimodal max_tokens_by_modality disable_chunked_mm_input max_num_batched_tokens
      max_num_encoder_input_tokens encoder_cache_size
  else Ok (0, 0).

(** * Correctness *)

Section encoder_cache.
(** The tokens of each input of each request. *)
Variable tok : string → Z → Z.

Definition set_tokens (rid : string) (ids : gset Z) : Z := zsum (tok rid <$> elements ids).
Definition used (c : gmap string (gset Z)) : Z := map_fold (λ rid ids n, set_tokens rid ids + n) 0 c.

(** The slots in use are those of the cached inputs, and no entry is empty. *)
Record enc_inv (m : EncoderCacheManager) : Prop := {
  ei_slots : num_free_slots m = cache_size m - used (cached m);
  ei_nonempty : ∀ rid ids, cached m !! rid = Some ids → ids ≠ ∅
}.

(** [tok] says what the requests say. *)
Definition tok_of (r : Request) : Prop :=
  ∀ i, 0 <= i < len (mm_positions r) → get_num_encoder_tokens r i = Ok (tok (request_id r) i).

Lemma set_tokens_insert rid ids i : i ∉ ids → set_tokens rid ({[i]} ∪ ids) = tok rid i + set_tokens rid ids.
Proof.
  intros Hi. unfold set_tokens. rewrite (elements_union_singleton ids i Hi). cbn [fmap list_fmap].
  by rewrite zsum_cons.
Qed.

Lemma used_insert c rid ids : c !! rid = None → used (<[rid := ids]> c) = set_tokens rid ids + used c.
Proof. intros Hr. unfold used. rewrite map_fold_insert_L; [done| |done]. intros; lia. Qed.

Lemma used_delete c rid : used c = set_tokens rid (default ∅ (c !! rid)) + used (delete rid c).
Proof.
  destruct (c !! rid) as [ids|] eqn:E; simpl.
  - rewrite <- (insert_delete_id c rid ids E) at 1. rewrite used_insert; [done|]. by rewrite lookup_delete_eq.
  - rewrite delete_id by done. unfold set_tokens. by rewrite elements_empty.
Qed.
End encoder_cache.

Section operations.
Variable tok : string → Z → Z.
Implicit Types (m : EncoderCacheManager) (r : Request) (i : Z).
Abbreviation enc_inv := (enc_inv tok).

(** The inputs a request has cached; [input_of] says an input is one of its own. *)
Definition ids_of m rid : gset Z := default ∅ (cached m !! rid).
Definition input_of r i : Prop := 0 <= i < len (mm_positions r).

(** Caching an input takes its tokens off the free slots. *)
Lemma allocate_spec m r i :
  enc_inv m → tok_of tok r → input_of r i → has_cache m r i = false →
  wp (allocate r i) (λ _ m', enc_inv m' ∧ num_free_slots m' = num_free_slots m - tok (request_id r) i ∧
    cache_size m' = cache_size m ∧ freed m' = freed m ∧
    ∀ rid, ids_of m' rid = if decide (rid = request_id r) then {[i]} ∪ ids_of m rid else ids_of m rid) m.
Proof.
  intros [Hs Hn] Ht Hi Hnc%bool_decide_eq_false. unfold get_cached_input_ids in Hnc.
  unfold allocate. wp_steps. rewrite (Ht i Hi). apply wp_lift_outcome with (a := tok (request_id r) i); [done|].
  wp_steps. csplit; [|done|done|done|].
  - constructor.
    + cbn. rewrite Hs. rewrite (used_delete tok (<[_:=_]> _) (request_id r)), (used_delete tok (cached m) (request_id r)).
      rewrite lookup_insert_eq, delete_insert_eq. cbn. unfold get_cached_input_ids. rewrite set_tokens_insert by done. lia.
    + intros rid ids. cbn. intros [[_ <-]|[_ H]]%lookup_insert_Some; [set_solver|by eapply Hn].
  - intros rid. unfold ids_of. cbn. case_decide as E; [by rewrite E, lookup_insert_eq|by rewrite lookup_insert_ne].
Qed.

(** Freeing a cached input gives its tokens back and reports it once. *)
Lemma free_encoder_input_spec m r i :
  enc_inv m → tok_of tok r → input_of r i → has_cache m r i = true →
  wp (free_encoder_input r i) (λ _ m', enc_inv m' ∧ num_free_slots m' = num_free_slots m + tok (request_id r) i ∧
    cache_size m' = cache_size m ∧ freed m' = freed m ++ [(request_id r, i)] ∧
    ∀ rid, ids_of m' rid = if decide (rid = request_id r) then ids_of m rid ∖ {[i]} else ids_of m rid) m.
Proof.
  intros [Hs Hn] Ht Hi Hc%bool_decide_eq_true. unfold get_cached_input_ids in Hc.
  unfold free_encoder_input. wp_steps. rewrite decide_False by (intros E; rewrite E in Hc; set_solver).
  wp_steps. rewrite (Ht i Hi). apply wp_lift_outcome with (a := tok (request_id r) i); [done|]. wp_steps.
  set (rest := default ∅ (cached m !! request_id r) ∖ {[i]}).
  assert (Hids : ∀ rid, default ∅ (cached (discard_input (request_id r) i m) !! rid) =
    if decide (rid = request_id r) then rest else default ∅ (cached m !! rid)).
  { intros rid. unfold discard_input. fold rest. cbn.
    destruct (decide (rid = request_id r)) as [->|Hne]; destruct (decide (rest = ∅)) as [E|E].
    - by rewrite E, lookup_delete_eq.
    - by rewrite lookup_insert_eq.
    - by rewrite lookup_delete_ne.
    - by rewrite lookup_insert_ne. }
  assert (Hdel : delete (request_id r) (cached (discard_input (request_id r) i m)) = delete (request_id r) (cached m)).
  { unfold discard_input. fold rest. cbn. case_decide; [by rewrite delete_delete_eq|by rewrite delete_insert_eq]. }
  assert (Hsplit : default ∅ (cached m !! request_id r) = {[i]} ∪ rest).
  { unfold rest. rewrite <- union_difference_L; [done|set_solver]. }
  csplit; [|done|done|done|].
  - constructor.
    + change (num_free_slots m + tok (request_id r) i = cache_size m - used tok (cached (discard_input (request_id r) i m))).
      rewrite Hs, (used_delete tok (cached (discard_input _ _ _)) (request_id r)),
        (used_delete tok (cached m) (request_id r)).
      rewrite Hids, Hdel, decide_True, Hsplit, set_tokens_insert by (done || set_solver). lia.
    + intros rid ids. cbn. unfold discard_input. fold rest. cbn. case_decide as E.
      * intros [_ H]%lookup_delete_Some. by eapply Hn.
      * intros [[_ <-]|[_ H]]%lookup_insert_Some; [done|by eapply Hn].
  - intros rid. unfold ids_of. change (cached (set_freed _ _)) with (cached (discard_input (request_id r) i m)).
    rewrite Hids. case_decide as E; [by rewrite E|done].
Qed.
End operations.

Section freeing.
Variable tok : string → Z → Z.
Implicit Types (m : EncoderCacheManager) (r : Request) (i : Z).
Abbreviation enc_inv := (enc_inv tok).

Lemma free_inputs_spec r l : ∀ m,
  enc_inv m → tok_of tok r → NoDup l → (∀ i, i ∈ l → input_of r i ∧ i ∈ ids_of m (request_id r)) →
  wp (for_each l (free_encoder_input r)) (λ _ m', enc_inv m' ∧
    num_free_slots m' = num_free_slots m + zsum (tok (request_id r) <$> l) ∧ cache_size m' = cache_size m ∧
    freed m' = freed m ++ (pair (request_id r) <$> l) ∧
    ∀ rid, ids_of m' rid = if decide (rid = request_id r) then ids_of m rid ∖ list_to_set l else ids_of m rid) m.
Proof.
  induction l as [|i l IH]; intros m Hinv Ht Hnd Hl; cbn [for_each].
  - apply wp_ret. csplit; [done|cbn; lia|done|by rewrite app_nil_r|]. intros rid. case_decide; [|done].
    by rewrite list_to_set_nil, difference_empty_L.
  - apply NoDup_cons in Hnd as [Hil Hnd]. destruct (Hl i) as [Hi Hin]; [by left|].
    apply wp_bind. eapply wp_mono; [apply (free_encoder_input_spec tok m r i); try done; by apply bool_decide_eq_true_2|].
    intros _ m1 (Hinv1 & Hs1 & Hc1 & Hf1 & Hids1). eapply wp_mono; [apply IH; try done|].
    + intros j Hj. destruct (Hl j) as [? Hjm]; [by right|]. split; [done|].
      rewrite Hids1, decide_True by done. set_solver.
    + intros _ m2 (Hinv2 & Hs2 & Hc2 & Hf2 & Hids2). csplit; [done| |by rewrite Hc2| |].
      * rewrite Hs2, Hs1. cbn [fmap list_fmap]. rewrite zsum_cons. lia.
      * rewrite Hf2, Hf1, <- app_assoc. done.
      * intros rid. rewrite Hids2, Hids1. case_decide; [|done]. rewrite list_to_set_cons. set_solver.
Qed.

(** Freeing a request gives back the slots of all its cached inputs, each reported
    once. *)
Lemma encoder_free_spec m r :
  enc_inv m → tok_of tok r → (∀ i, i ∈ ids_of m (request_id r) → input_of r i) →
  wp (free r) (λ _ m', enc_inv m' ∧
    num_free_slots m' = num_free_slots m + set_tokens tok (request_id r) (ids_of m (request_id r)) ∧
    cache_size m' = cache_size m ∧
    freed m' = freed m ++ (pair (request_id r) <$> elements (ids_of m (request_id r))) ∧
    (∀ rid, ids_of m' rid = if decide (rid = request_id r) then ∅ else ids_of m rid)) m.
Proof.
  intros Hinv Ht Hids. unfold free. apply wp_bind, wp_get. eapply wp_mono.
  - apply free_inputs_spec; [done|done|apply NoDup_elements|].
    intros i Hi%elem_of_elements. split; [by apply Hids|done].
  - intros _ m' (Hi' & Hs & Hc & Hf & Hid). csplit; [done|done|done|done|].
    intros rid. rewrite Hid. case_decide as E; [|done]. subst rid. rewrite list_to_set_elements_L.
    unfold get_cached_input_ids, ids_of. set_solver.
Qed.

(** What is admitted by [can_allocate] leaves no negative number of slots. *)
Lemma can_allocate_spec m r i :
  tok_of tok r → input_of r i →
  can_allocate m r i = Ok (bool_decide (tok (request_id r) i <= num_free_slots m)).
Proof. intros Ht Hi. unfold can_allocate. by rewrite (Ht i Hi). Qed.
End freeing.

(** ** The budget *)
Section budget.
Lemma foldl_max_ge (l : list (string * Z)) a :
  a <= foldl (λ a p, Z.max a p.2) a l ∧ ∀ p, p ∈ l → p.2 <= foldl (λ a p, Z.max a p.2) a l.
Proof.
  revert a. induction l as [|q l IH]; intros a; simpl; [split; [lia|by intros p ?%not_elem_of_nil]|].
  destruct (IH (Z.max a q.2)) as [H1 H2]. split; [lia|]. intros p [->|Hp]%elem_of_cons; [lia|by apply H2].
Qed.

(** Both budgets fit any single item of every modality, and are no less than what
    is configured. *)
Lemma compute_encoder_budget_spec items chunked_off batched compute size cb cs :
  items ≠ [] → compute_encoder_budget true items chunked_off batched compute size = Ok (cb, cs) →
  compute <= cb ∧ size <= cs ∧ ∀ p, p ∈ items → p.2 <= cb ∧ p.2 <= cs ∧ (chunked_off = true → p.2 <= batched).
Proof.
  intros Hne. unfold compute_encoder_budget, _compute_encoder_budget_multimodal.
  destruct items as [|[name n] rest]; [done|]. case_decide as Hc; [done|]. intros [= <- <-].
  destruct (foldl_max_ge rest n) as [H1 H2]. split; [lia|]. split; [lia|].
  intros p Hp. assert (p.2 <= foldl (λ a p, Z.max a p.2) n rest) as Hle.
  { apply elem_of_cons in Hp as [->|Hp]; [done|by apply H2]. }
  split_and!; [lia|lia|]. intros ->. apply not_and_l in Hc. destruct Hc; [done|lia].
Qed.
End budget.
