(* ===== verification/SchedulerData.v ===== *)
(** What the scheduler exchanges with the engine: its output
    ([v1/core/sched/output.py]), the model runner's ([v1/outputs.py]), the engine
    core's ([v1/engine/__init__.py]) and the statistics ([v1/metrics/stats.py],
    [v1/spec_decode/metrics.py]). *)
From Stdlib Require Import ZArith Lia QArith.
From stdpp Require Import base strings countable gmap sets fin_maps list.
From S2P Require Import Prelude Request FreeBlockQueue BlockHash BlockPool KVCacheManager.
Local Open Scope Z_scope.

(** * Dictionaries whose order is observed: pairs in the order of insertion *)
Section dict.
Context {K V : Type} `{EqDecision K}.

(** [d[k] = v]: in place for a key that is there, at the end for a new one. *)
Fixpoint dict_set (k : K) (v : V) (d : list (K * V)) : list (K * V) :=
  match d with
  | [] => [(k, v)]
  | (k', v') :: d' => if decide (k' = k) then (k, v) :: d' else (k', v') :: dict_set k v d'
  end.
Fixpoint dict_get (k : K) (d : list (K * V)) : option V :=
  match d with
  | [] => None
  | (k', v') :: d' => if decide (k' = k) then Some v' else dict_get k d'
  end.

Lemma dict_set_new k v d : k ∉ d.*1 → dict_set k v d = d ++ [(k, v)].
Proof.
  induction d as [|[k' v'] d IH]; simpl; [done|]. intros [Hne Hin]%not_elem_of_cons.
  rewrite decide_False by done. by rewrite IH.
Qed.
Lemma dict_get_set k v k' d : dict_get k' (dict_set k v d) = if decide (k' = k) then Some v else dict_get k' d.
Proof.
  induction d as [|[k2 v2] d IH]; simpl; [repeat case_decide; congruence|].
  destruct (decide (k2 = k)) as [->|Hk]; simpl.
  - destruct (decide (k = k')) as [->|]; [by rewrite decide_True|by rewrite (decide_False (P := k' = k)) by done].
  - destruct (decide (k2 = k')) as [->|]; [by rewrite (decide_False (P := k' = k)) by done|exact IH].
Qed.
Lemma dict_set_keys k v d x : x ∈ (dict_set k v d).*1 ↔ x = k ∨ x ∈ d.*1.
Proof.
  induction d as [|[k' v'] d IH]; simpl; [by rewrite list_elem_of_singleton; split; [left|intros [?|?%not_elem_of_nil]]|].
  case_decide; subst; simpl; rewrite !elem_of_cons, ?IH; tauto.
Qed.
Lemma dict_set_nodup k v d : NoDup d.*1 → NoDup (dict_set k v d).*1.
Proof.
  induction d as [|[k' v'] d IH]; simpl; [intros; by apply NoDup_singleton|].
  intros [Hn Hd]%NoDup_cons. case_decide; subst; simpl; constructor; try done; [|by apply IH].
  rewrite dict_set_keys. tauto.
Qed.
End dict.

(** * [SchedulerOutput] *)
Record NewRequestData : Type := mkNewRequestData {
  new_req_id : string;
  new_params : RequestParams;
  new_block_ids_of : list (list Z);
  new_num_computed_tokens : Z
}.
(** [NewRequestData.from_request]; the fields copied from the request's constant
    attributes are those of its parameters. *)
Definition from_request (request : Request) (block_ids : list (list Z)) : NewRequestData :=
  mkNewRequestData (request_id request) (params request) block_ids (num_computed_tokens request).

Record CachedRequestData : Type := mkCachedRequestData {
  req_ids : list string;
  resumed_from_preemption : list bool;
  new_token_ids : list (list Z);
  new_block_ids : list (list (list Z));
  cached_num_computed_tokens : list Z
}.
Definition num_reqs (d : CachedRequestData) : Z := len (req_ids d).
Definition make_empty : CachedRequestData := mkCachedRequestData [] [] [] [] [].

Record SchedulerOutput : Type := mkSchedulerOutput {
  scheduled_new_reqs : list NewRequestData;
  scheduled_cached_reqs : CachedRequestData;
  num_scheduled_tokens : list (string * Z);
  total_num_scheduled_tokens : Z;
  scheduled_spec_decode_tokens : gmap string (list Z);
  scheduled_encoder_inputs : gmap string (list Z);
  num_common_prefix_blocks : list Z;
  out_finished_req_ids : gset string;
  free_encoder_input_ids : list (string * Z);
  structured_output_request_ids : gmap string Z;
  grammar_bitmask : option handle;
  kv_connector_metadata : option handle
}.
Definition set_kv_connector_metadata (v : option handle) (o : SchedulerOutput) : SchedulerOutput :=
  mkSchedulerOutput (scheduled_new_reqs o) (scheduled_cached_reqs o) (num_scheduled_tokens o)
    (total_num_scheduled_tokens o) (scheduled_spec_decode_tokens o) (scheduled_encoder_inputs o)
    (num_common_prefix_blocks o) (out_finished_req_ids o) (free_encoder_input_ids o)
    (structured_output_request_ids o) (grammar_bitmask o) v.

(** * [ModelRunnerOutput] *)
Record ModelRunnerOutput : Type := mkModelRunnerOutput {
  req_id_to_index : gmap string Z;
  sampled_token_ids : list (list Z);
  runner_spec_token_ids : option (list (list Z));
  runner_logprobs : option handle;
  prompt_logprobs_dict : gmap string (option handle);
  runner_pooler_output : list (option handle);
  finished_sending : option (list string);
  finished_recving : option (list string);
  runner_num_nans_in_logits : option (gmap string Z)
}.
Definition EMPTY_MODEL_RUNNER_OUTPUT : ModelRunnerOutput :=
  mkModelRunnerOutput ∅ [] None None ∅ [] None None None.

(** * Statistics *)
Record SpecDecodingStats : Type := mkSpecDecodingStats {
  stats_num_spec_tokens : Z;
  num_drafts : Z;
  num_draft_tokens : Z;
  num_accepted_tokens : Z;
  num_accepted_tokens_per_pos : list Z
}.
Definition SpecDecodingStats_new (num_spec_tokens : Z) : SpecDecodingStats :=
  mkSpecDecodingStats num_spec_tokens 0 0 0 (replicate (Z.to_nat num_spec_tokens) 0).

(** [self.num_accepted_tokens_per_pos[i] += 1] for the first [n] positions. *)
Fixpoint count_positions (n : nat) (l : list Z) : outcome (list Z) :=
  match n, l with
  | O, _ => Ok l
  | S _, [] => Raise IndexError
  | S n, x :: l' => l'' ← count_positions n l'; Ok (x + 1 :: l'')
  end.
Definition observe_draft (num_draft num_accepted : Z) (st : SpecDecodingStats) : outcome SpecDecodingStats :=
  if decide (num_accepted <= stats_num_spec_tokens st) then
    l ← count_positions (Z.to_nat num_accepted) (num_accepted_tokens_per_pos st);
    Ok (mkSpecDecodingStats (stats_num_spec_tokens st) (num_drafts st + 1) (num_draft_tokens st + num_draft)
          (num_accepted_tokens st + num_accepted) l)
  else Raise AssertionError.

Record SchedulerStats : Type := mkSchedulerStats {
  num_running_reqs : Z;
  num_waiting_reqs : Z;
  kv_cache_usage : Q;
  scheduler_prefix_cache_stats : PrefixCacheStats;
  spec_decoding_stats : option SpecDecodingStats;
  num_corrupted_reqs : Z
}.

(** * [EngineCoreOutputs] *)
Record EngineCoreOutput : Type := mkEngineCoreOutput {
  eco_request_id : string;
  eco_new_token_ids : list Z;
  eco_new_logprobs : option handle;
  eco_new_prompt_logprobs_tensors : option handle;
  eco_pooling_output : option handle;
  eco_finish_reason : option FinishReason;
  eco_stop_reason : option Z;
  eco_events : option (list EngineCoreEvent);
  eco_kv_transfer_params : option handle;
  eco_num_cached_tokens : Z
}.
Definition eco_finished (o : EngineCoreOutput) : bool := bool_decide (is_Some (eco_finish_reason o)).

Record EngineCoreOutputs : Type := mkEngineCoreOutputs {
  ecos_outputs : list EngineCoreOutput;
  ecos_scheduler_stats : option SchedulerStats;
  ecos_finished_requests : option (gset string)
}.
Definition set_ecos_stats (v : option SchedulerStats) (o : EngineCoreOutputs) : EngineCoreOutputs :=
  mkEngineCoreOutputs (ecos_outputs o) v (ecos_finished_requests o).
Definition set_ecos_finished (v : option (gset string)) (o : EngineCoreOutputs) : EngineCoreOutputs :=
  mkEngineCoreOutputs (ecos_outputs o) (ecos_scheduler_stats o) v.
