(* ===== verification/Scheduler.v ===== *)
(** The scheduler of [v1/core/sched/scheduler.py] and its asynchronous variant of
    [v1/core/sched/async_scheduler.py]: one step of scheduling, the update from the
    model runner's output, and the arrival and the end of requests.

    Requests are shared objects: the queues, the list of running requests and the
    dictionary of requests refer to the same mutable object.  The model has a store of
    request objects, [objects], and the queues hold references into it.  A request's
    object is the one created for its [request_id]. *)
From Stdlib Require Import ZArith Lia QArith.
From stdpp Require Import base strings countable gmap sets fin_maps list.
From S2P Require Import Prelude Request FreeBlockQueue BlockHash BlockPool KVCacheSpec SingleTypeManager KVCacheCoordinator KVCacheManager RequestQueue EncoderCache SchedulerData.
Local Open Scope Z_scope.

(** * What the scheduler calls *)

(** The scheduler's side of a KV connector ([KVConnectorBase_V1], an abstract class),
    over the connector's own state. *)
Class KVConnector (C : Type) : Type := {
  get_num_new_matched_tokens : Request → Z → M C (Z * bool);
  update_state_after_alloc : Request → KVCacheBlocks → Z → M C unit;
  build_connector_meta : SchedulerOutput → M C handle;
  request_finished : Request → list Z → M C (bool * option handle)
}.

(** What the scheduler uses of the structured-output manager and of the grammars of
    requests, over the manager's state. *)
Class StructuredOutputManager (G : Type) : Type := {
  grammar_ready : G → handle → bool;
  make_grammar_bitmask : gmap string Request → gmap string Z → gmap string (list Z) → M G (option handle);
  should_advance : Request → M G bool;
  accept_tokens : handle → string → list Z → M G unit;
  validate_tokens : handle → list Z → M G (list Z)
}.

(** * State *)
Record SchedulerConfig : Type := mkSchedulerConfig {
  policy : SchedulingPolicy;
  max_num_running_reqs : Z;
  max_num_scheduled_tokens : Z;
  max_model_len : Z;
  long_prefill_token_threshold : Z;
  chunked_prefill_enabled : bool;
  disable_chunked_mm_input : bool;
  (** [lora_config.max_loras] when there is a LoRA configuration. *)
  max_loras : option Z;
  cfg_log_stats : bool;
  num_spec_tokens : Z;
  num_lookahead_tokens : Z;
  use_pp : bool;
  cfg_block_size : Z;
  max_num_encoder_input_tokens : Z;
  (** Whether the scheduler is an [AsyncScheduler]. *)
  is_async : bool
}.

Record Scheduler (C G : Type) : Type := mkScheduler {
  config : SchedulerConfig;
  objects : gmap req_ref Request;
  requests : gset string;
  waiting : RequestQueue;
  running : list req_ref;
  finished_req_ids : gset string;
  finished_req_ids_dict : option (list (Z * gset string));
  finished_recving_kv_req_ids : gset string;
  encoder_cache_manager : EncoderCacheManager;
  kv_cache_manager : KVCacheManager;
  connector : option C;
  structured_output_manager : G;
  (** The batches of events given to the publisher, with their time. *)
  published : list (Z * list KVCacheEvent)
}.
Arguments mkScheduler {C G}.
Arguments config {C G}. Arguments objects {C G}. Arguments requests {C G}. Arguments waiting {C G}.
Arguments running {C G}. Arguments finished_req_ids {C G}. Arguments finished_req_ids_dict {C G}.
Arguments finished_recving_kv_req_ids {C G}. Arguments encoder_cache_manager {C G}.
Arguments kv_cache_manager {C G}. Arguments connector {C G}. Arguments structured_output_manager {C G}.
Arguments published {C G}.

Section setters.
Context {C G : Type}.
Implicit Types (s : Scheduler C G).
Definition set_objects v s := mkScheduler (config s) v (requests s) (waiting s) (running s) (finished_req_ids s)
  (finished_req_ids_dict s) (finished_recving_kv_req_ids s) (encoder_cache_manager s) (kv_cache_manager s)
  (connector s) (structured_output_manager s) (published s).
Definition set_requests v s := mkScheduler (config s) (objects s) v (waiting s) (running s) (finished_req_ids s)
  (finished_req_ids_dict s) (finished_recving_kv_req_ids s) (encoder_cache_manager s) (kv_cache_manager s)
  (connector s) (structured_output_manager s) (published s).
Definition set_waiting v s := mkScheduler (config s) (objects s) (requests s) v (running s) (finished_req_ids s)
  (finished_req_ids_dict s) (finished_recving_kv_req_ids s) (encoder_cache_manager s) (kv_cache_manager s)
  (connector s) (structured_output_manager s) (published s).
Definition set_running v s := mkScheduler (config s) (objects s) (requests s) (waiting s) v (finished_req_ids s)
  (finished_req_ids_dict s) (finished_recving_kv_req_ids s) (encoder_cache_manager s) (kv_cache_manager s)
  (connector s) (structured_output_manager s) (published s).
Definition set_finished_req_ids v s := mkScheduler (config s) (objects s) (requests s) (waiting s) (running s) v
  (finished_req_ids_dict s) (finished_recving_kv_req_ids s) (encoder_cache_manager s) (kv_cache_manager s)
  (connector s) (structured_output_manager s) (published s).
Definition set_finished_dict v s := mkScheduler (config s) (objects s) (requests s) (waiting s) (running s)
  (finished_req_ids s) v (finished_recving_kv_req_ids s) (encoder_cache_manager s) (kv_cache_manager s)
  (connector s) (structured_output_manager s) (published s).
Definition set_finished_recving v s := mkScheduler (config s) (objects s) (requests s) (waiting s) (running s)
  (finished_req_ids s) (finished_req_ids_dict s) v (encoder_cache_manager s) (kv_cache_manager s)
  (connector s) (structured_output_manager s) (published s).
Definition set_encoder v s := mkScheduler (config s) (objects s) (requests s) (waiting s) (running s)
  (finished_req_ids s) (finished_req_ids_dict s) (finished_recving_kv_req_ids s) v (kv_cache_manager s)
  (connector s) (structured_output_manager s) (published s).
Definition set_kv v s := mkScheduler (config s) (objects s) (requests s) (waiting s) (running s)
  (finished_req_ids s) (finished_req_ids_dict s) (finished_recving_kv_req_ids s) (encoder_cache_manager s) v
  (connector s) (structured_output_manager s) (published s).
Definition set_connector (v : option C) s : Scheduler C G := mkScheduler (config s) (objects s) (requests s) (waiting s) (running s)
  (finished_req_ids s) (finished_req_ids_dict s) (finished_recving_kv_req_ids s) (encoder_cache_manager s)
  (kv_cache_manager s) v (structured_output_manager s) (published s).
Definition set_structured (v : G) s : Scheduler C G := mkScheduler (config s) (objects s) (requests s) (waiting s) (running s)
  (finished_req_ids s) (finished_req_ids_dict s) (finished_recving_kv_req_ids s) (encoder_cache_manager s)
  (kv_cache_manager s) (connector s) v (published s).
Definition set_published v s := mkScheduler (config s) (objects s) (requests s) (waiting s) (running s)
  (finished_req_ids s) (finished_req_ids_dict s) (finished_recving_kv_req_ids s) (encoder_cache_manager s)
  (kv_cache_manager s) (connector s) (structured_output_manager s) v.
End setters.

(** The local variables of [schedule]. *)
Record Plan : Type := mkPlan {
  scheduled_new : list req_ref;
  scheduled_resumed : list req_ref;
  scheduled_running : list req_ref;
  preempted_reqs : list req_ref;
  structured_ids : gmap string Z;
  req_to_new_block_ids : gmap string (list (list Z));
  plan_tokens : list (string * Z);
  token_budget : Z;
  plan_encoder_inputs : gmap string (list Z);
  encoder_budget : Z;
  plan_spec_tokens : gmap string (list Z);
  scheduled_loras : gset Z;
  req_index : Z
}.

Section plan_setters.
Implicit Types (p : Plan).
Definition set_scheduled_new v p := mkPlan v (scheduled_resumed p) (scheduled_running p) (preempted_reqs p)
  (structured_ids p) (req_to_new_block_ids p) (plan_tokens p) (token_budget p) (plan_encoder_inputs p)
  (encoder_budget p) (plan_spec_tokens p) (scheduled_loras p) (req_index p).
Definition set_scheduled_resumed v p := mkPlan (scheduled_new p) v (scheduled_running p) (preempted_reqs p)
  (structured_ids p) (req_to_new_block_ids p) (plan_tokens p) (token_budget p) (plan_encoder_inputs p)
  (encoder_budget p) (plan_spec_tokens p) (scheduled_loras p) (req_index p).
Definition set_scheduled_running v p := mkPlan (scheduled_new p) (scheduled_resumed p) v (preempted_reqs p)
  (structured_ids p) (req_to_new_block_ids p) (plan_tokens p) (token_budget p) (plan_encoder_inputs p)
  (encoder_budget p) (plan_spec_tokens p) (scheduled_loras p) (req_index p).
Definition set_preempted v p := mkPlan (scheduled_new p) (scheduled_resumed p) (scheduled_running p) v
  (structured_ids p) (req_to_new_block_ids p) (plan_tokens p) (token_budget p) (plan_encoder_inputs p)
  (encoder_budget p) (plan_spec_tokens p) (scheduled_loras p) (req_index p).
Definition set_structured_ids v p := mkPlan (scheduled_new p) (scheduled_resumed p) (scheduled_running p)
  (preempted_reqs p) v (req_to_new_block_ids p) (plan_tokens p) (token_budget p) (plan_encoder_inputs p)
  (encoder_budget p) (plan_spec_tokens p) (scheduled_loras p) (req_index p).
Definition set_spec_tokens v p := mkPlan (scheduled_new p) (scheduled_resumed p) (scheduled_running p)
  (preempted_reqs p) (structured_ids p) (req_to_new_block_ids p) (plan_tokens p) (token_budget p)
  (plan_encoder_inputs p) (encoder_budget p) v (scheduled_loras p) (req_index p).
Definition set_loras v p := mkPlan (scheduled_new p) (scheduled_resumed p) (scheduled_running p)
  (preempted_reqs p) (structured_ids p) (req_to_new_block_ids p) (plan_tokens p) (token_budget p)
  (plan_encoder_inputs p) (encoder_budget p) (plan_spec_tokens p) v (req_index p).
Definition set_req_index v p := mkPlan (scheduled_new p) (scheduled_resumed p) (scheduled_running p)
  (preempted_reqs p) (structured_ids p) (req_to_new_block_ids p) (plan_tokens p) (token_budget p)
  (plan_encoder_inputs p) (encoder_budget p) (plan_spec_tokens p) (scheduled_loras p) v.
(** [req_to_new_block_ids[id] = blocks], [num_scheduled_tokens[id] = n] and
    [token_budget -= n]. *)
Definition commit_tokens (id : string) (n : Z) (blocks : list (list Z)) p :=
  mkPlan (scheduled_new p) (scheduled_resumed p) (scheduled_running p) (preempted_reqs p) (structured_ids p)
    (<[id := blocks]> (req_to_new_block_ids p)) (dict_set id n (plan_tokens p)) (token_budget p - n)
    (plan_encoder_inputs p) (encoder_budget p) (plan_spec_tokens p) (scheduled_loras p) (req_index p).
Definition commit_encoder (id : string) (inputs : list Z) (budget : Z) p :=
  mkPlan (scheduled_new p) (scheduled_resumed p) (scheduled_running p) (preempted_reqs p) (structured_ids p)
    (req_to_new_block_ids p) (plan_tokens p) (token_budget p) (<[id := inputs]> (plan_encoder_inputs p))
    budget (plan_spec_tokens p) (scheduled_loras p) (req_index p).
End plan_setters.

(** * Encoder inputs *)

(** The loop of [_try_schedule_encoder_inputs] over the inputs from [i] on. *)
Fixpoint try_encoder_loop (cfg : SchedulerConfig) (ecm : EncoderCacheManager) (request : Request)
    (num_computed num_new budget : Z) (todo : list (Z * PlaceholderRange)) (inputs : list Z)
    : outcome (list Z * Z * Z) :=
  match todo with
  | [] => Ok (inputs, num_new, budget)
  | (i, pos_info) :: todo' =>
    let start_pos := offset pos_info in
    let num_encoder_tokens := length_ pos_info in
    if decide (start_pos >= num_computed + num_new) then Ok (inputs, num_new, budget)
    else if decide (start_pos + num_encoder_tokens <= num_computed) then
      try_encoder_loop cfg ecm request num_computed num_new budget todo' inputs
    else if has_cache ecm request i then
      try_encoder_loop cfg ecm request num_computed num_new budget todo' inputs
    else if decide (disable_chunked_mm_input cfg = true ∧ num_computed < start_pos ∧
                    num_computed + num_new < start_pos + num_encoder_tokens) then
      Ok (inputs, start_pos - num_computed, budget)
    else
      can ← can_allocate ecm request i;
      if decide (can = false ∨ num_encoder_tokens > budget) then
        Ok (inputs, if decide (num_computed < start_pos) then start_pos - num_computed else 0, budget)
      else
        try_encoder_loop cfg ecm request num_computed num_new (budget - num_encoder_tokens) todo' (inputs ++ [i])
  end.

Definition _try_schedule_encoder_inputs (cfg : SchedulerConfig) (ecm : EncoderCacheManager) (request : Request)
    (num_computed_tokens num_new_tokens encoder_budget : Z) : outcome (list Z * Z * Z) :=
  if decide (num_new_tokens = 0 ∨ has_encoder_inputs request = false) then
    Ok ([], num_new_tokens, encoder_budget)
  else if decide (len (mm_positions request) > 0) then
    try_encoder_loop cfg ecm request num_computed_tokens num_new_tokens encoder_budget
      (enumerate (mm_positions request)) []
  else Raise AssertionError.

(** [max(self.running, key=lambda r: (r.priority, r.arrival_time))]: the first of the
    greatest. *)
Definition key_le (a b : Request) : bool :=
  bool_decide (priority a < priority b ∨ (priority a = priority b ∧ arrival_time a <= arrival_time b)).
Fixpoint max_request (best : Request) (rs : list Request) : Request :=
  match rs with
  | [] => best
  | r :: rs' => max_request (if key_le r best then best else r) rs'
  end.

Section scheduler.
Context {C G : Type} `{!KVConnector C, !StructuredOutputManager G}.
Variable hash_function : Z * list Z * option (list extra_key) → Z.
Variable NONE_HASH : Z.
(** [LogprobsLists.slice] and the truth of a dictionary of transfer parameters. *)
Variable slice_logprobs : handle → Z → Z → handle.
Variable dict_truthy : handle → bool.

Abbreviation Sched := (Scheduler C G).
Implicit Types (s : Sched).

(** ** Access to the parts of the state *)
Definition the_request (r : req_ref) : M Sched Request :=
  o ← gets objects;
  match o !! r with Some req => mret req | None => raise DanglingReference end.
Definition update_request (r : req_ref) (f : Request → Request) : M Sched unit :=
  modify (λ s, set_objects (alter f r (objects s)) s).
Definition on_kv {A} (m : M KVCacheManager A) : M Sched A := zoom kv_cache_manager set_kv m.
Definition on_encoder {A} (m : M EncoderCacheManager A) : M Sched A := zoom encoder_cache_manager set_encoder m.
Definition on_structured {A} (m : M G A) : M Sched A := zoom structured_output_manager set_structured m.
(** A call on [self.connector], which is there. *)
Definition on_connector {A} (m : M C A) : M Sched A := λ s,
  match connector s with
  | None => (Raise AttributeError, s)
  | Some c => match m c with (o, c') => (o, set_connector (Some c') s) end
  end.
Definition load_requests (rs : list req_ref) : M Sched (list Request) := map_each rs the_request.
Definition on_waiting (f : RequestQueue → outcome RequestQueue) : M Sched unit :=
  w ← gets waiting; w' ← lift_outcome (f w); modify (set_waiting w').

(** ** Running requests *)

(** The state of [schedule]: the scheduler and the local variables. *)
Definition St : Type := Sched * Plan.
Definition on_sched {A} (m : M Sched A) : M St A := zoom fst (λ s x, (s, snd x)) m.
Definition on_plan (f : Plan → Plan) : M St unit := modify (λ x, (fst x, f (snd x))).
Definition plan_of : M St Plan := gets snd.
Definition sched_of : M St Sched := gets fst.

(** [num_new_tokens] of a running request, before the encoder inputs. *)
Definition new_tokens_running (cfg : SchedulerConfig) (request : Request) (budget : Z) : Z :=
  let n := num_tokens_with_spec request + num_output_placeholders request - num_computed_tokens request in
  let n := if decide (0 < long_prefill_token_threshold cfg < n) then long_prefill_token_threshold cfg else n in
  Z.min (Z.min n budget) (max_model_len cfg - 1 - num_computed_tokens request).

(** The request the policy preempts, taken out of [self.running]. *)
Definition pop_preempted : M Sched req_ref :=
  cfg ← gets config;
  rs ← gets running;
  match policy cfg with
  | PRIORITY =>
    os ← load_requests rs;
    match os with
    | [] => raise ValueError
    | o :: os' =>
      let victim := request_id (max_request o os') in
      rs' ← lift_outcome (FCFSRequestQueue.remove_request rs victim);
      modify (set_running rs') ;; mret victim
    end
  | FCFS =>
    match last rs with
    | None => raise IndexError
    | Some victim => modify (set_running (removelast rs)) ;; mret victim
    end
  end.

Definition preempt (scheduled_timestamp : Z) : M Sched req_ref :=
  victim ← pop_preempted;
  request ← the_request victim;
  on_kv (KVCacheManager.free request) ;;
  update_request victim (λ r, set_num_computed_tokens 0 (set_status PREEMPTED r)) ;;
  cfg ← gets config;
  (if cfg_log_stats cfg then update_request victim (record_event PREEMPTED_EVENT scheduled_timestamp) else mret tt) ;;
  request ← the_request victim;
  on_waiting (λ w, prepend_request w request) ;;
  mret victim.

(** The inner [while True]: slots for the request, preempting others until there
    are enough or the request itself has been preempted. *)
Fixpoint allocate_or_preempt (fuel : nat) (r : req_ref) (num_new_tokens scheduled_timestamp : Z)
    : M St (option KVCacheBlocks) :=
  match fuel with
  | O => raise OutOfFuel
  | S fuel =>
    request ← on_sched (the_request r);
    cfg ← on_sched (gets config);
    new_blocks ← on_sched (on_kv (allocate_slots hash_function NONE_HASH request num_new_tokens 0 None
                                    (num_lookahead_tokens cfg) false));
    match new_blocks with
    | Some blocks => mret (Some blocks)
    | None =>
      victim ← on_sched (preempt scheduled_timestamp);
      on_plan (λ p, set_preempted (preempted_reqs p ++ [victim]) p) ;;
      if decide (victim = r) then mret None
      else allocate_or_preempt fuel r num_new_tokens scheduled_timestamp
    end
  end.

(** [if encoder_inputs_to_schedule: ...]. *)
Definition schedule_encoder_inputs (request : Request) (inputs : list Z) (new_budget : Z) : M St unit :=
  match inputs with
  | [] => mret tt
  | _ =>
    on_plan (commit_encoder (request_id request) inputs new_budget) ;;
    for_each inputs (λ i, on_sched (on_encoder (EncoderCache.allocate request i)))
  end.

(** [del request.spec_token_ids[n:]] and the entry of the tokens that are left. *)
Definition schedule_spec_tokens (r : req_ref) (request : Request) (num_new_tokens : Z) : M St unit :=
  match spec_token_ids request with
  | [] => mret tt
  | spec =>
    let n := num_new_tokens + num_computed_tokens request - num_tokens request in
    if decide (n > 0) then
      on_sched (update_request r (set_spec_token_ids (slice_to n spec))) ;;
      on_plan (λ p, set_spec_tokens (<[r := slice_to n spec]> (plan_spec_tokens p)) p)
    else mret tt
  end.

(** One pass of the loop over the running requests; whether the loop goes on. *)
Definition schedule_running_one (scheduled_timestamp : Z) (r : req_ref) : M St bool :=
  request ← on_sched (the_request r);
  cfg ← on_sched (gets config);
  p ← plan_of;
  ecm ← on_sched (gets encoder_cache_manager);
  '(inputs, num_new_tokens, new_budget) ← lift_outcome
    (let n := new_tokens_running cfg request (token_budget p) in
     if has_encoder_inputs request then
       _try_schedule_encoder_inputs cfg ecm request (num_computed_tokens request) n (encoder_budget p)
     else Ok ([], n, encoder_budget p));
  if decide (num_new_tokens = 0) then on_plan (λ p, set_req_index (req_index p + 1) p) ;; mret true
  else
    n_running ← on_sched (gets (λ s, length (running s)));
    new_blocks ← allocate_or_preempt (S n_running) r num_new_tokens scheduled_timestamp;
    match new_blocks with
    | None => mret false
    | Some blocks =>
      request ← on_sched (the_request r);
      kv ← on_sched (gets kv_cache_manager);
      block_ids ← lift_outcome (get_block_ids (the_pool kv) blocks);
      on_plan (λ p, set_scheduled_running (scheduled_running p ++ [r]) p) ;;
      (if use_structured_output request then
         on_plan (λ p, set_structured_ids (<[r := req_index p]> (structured_ids p)) p)
       else mret tt) ;;
      on_plan (commit_tokens r num_new_tokens block_ids) ;;
      on_plan (λ p, set_req_index (req_index p + 1) p) ;;
      schedule_spec_tokens r request num_new_tokens ;;
      schedule_encoder_inputs request inputs new_budget ;;
      mret true
    end.

(** [while req_index < len(self.running) and token_budget > 0]. *)
Fixpoint schedule_running (fuel : nat) (scheduled_timestamp : Z) : M St unit :=
  match fuel with
  | O => raise OutOfFuel
  | S fuel =>
    p ← plan_of;
    rs ← on_sched (gets running);
    if decide (req_index p < len rs ∧ token_budget p > 0) then
      r ← lift_outcome (py_index rs (req_index p));
      go_on ← schedule_running_one scheduled_timestamp r;
      if (go_on : bool) then schedule_running fuel scheduled_timestamp else mret tt
    else mret tt
  end.

(** [len] of a set. *)
Definition set_len (x : gset Z) : Z := Z.of_nat (base.size x).
(** The adapter of a request, when its id is positive. *)
Definition lora_id_of (r : Request) : option Z :=
  match lora_request r with
  | Some l => if decide (lora_int_id l > 0) then Some (lora_int_id l) else None
  | None => None
  end.

(** [scheduled_loras] of the running requests. *)
Definition record_loras : M St unit :=
  cfg ← on_sched (gets config);
  match max_loras cfg with
  | None => mret tt
  | Some max_loras =>
    p ← plan_of;
    rs ← on_sched (load_requests (scheduled_running p));
    let ids : gset Z := list_to_set (omap lora_id_of rs) in
    on_plan (set_loras ids) ;;
    assert_ (bool_decide (set_len ids <= max_loras))
  end.

(** ** Waiting requests *)

Definition _update_waiting_for_remote_kv (r : req_ref) : M Sched bool :=
  s ← get;
  assert_ (bool_decide (is_Some (connector s))) ;;
  if decide (r ∉ finished_recving_kv_req_ids s) then mret false
  else
    request ← the_request r;
    block_ids ← on_kv (manager_get_block_ids r);
    match block_ids with
    | [ids] =>
      let n := Z.min (len ids * cfg_block_size (config s)) (num_tokens request) in
      let n := if decide (n = num_tokens request) then n - 1 else n in
      on_kv (KVCacheManager.cache_blocks hash_function NONE_HASH request n) ;;
      update_request r (set_num_computed_tokens n) ;;
      modify (λ s, set_finished_recving (finished_recving_kv_req_ids s ∖ {[r]}) s) ;;
      mret true
    | _ => raise ValueError
    end.

(** What a pass over the head of the waiting queue comes to: go on without it, skip
    the request, or try to schedule it. *)
Inductive admission : Type := Skip | Admit.

(** The checks of the status and of the LoRA constraint. *)
Definition admit_status (r : req_ref) : M St admission :=
  request ← on_sched (the_request r);
  ready ← (if decide (status request = WAITING_FOR_REMOTE_KVS) then
             is_ready ← on_sched (_update_waiting_for_remote_kv r);
             if (is_ready : bool) then on_sched (update_request r (set_status WAITING)) ;; mret true
             else mret false
           else mret true);
  if negb ready then mret Skip
  else
    request ← on_sched (the_request r);
    g ← on_sched (gets structured_output_manager);
    compiled ← (if decide (status request = WAITING_FOR_FSM) then
                  match structured_output_request (params request) with
                  | Some sor => if grammar_ready g sor then on_sched (update_request r (set_status WAITING)) ;; mret true
                                else mret false
                  | None => mret false
                  end
                else mret true);
    if negb compiled then mret Skip
    else
      cfg ← on_sched (gets config);
      p ← plan_of;
      match max_loras cfg, lora_request (params request) with
      | Some max_loras, Some l =>
        if decide (set_len (scheduled_loras p) = max_loras ∧ lora_int_id l ∉ scheduled_loras p)
        then mret Skip else mret Admit
      | _, _ => mret Admit
      end.

(** The computed tokens of a waiting request: the blocks of the local hit, its
    tokens, the connector's tokens, all of them, and whether the connector loads
    asynchronously. *)
Definition computed_tokens (request : Request) : M Sched (KVCacheBlocks * Z * Z * Z * bool) :=
  if decide (num_computed_tokens request = 0) then
    '(new_computed_blocks, local) ← on_kv (get_computed_blocks hash_function NONE_HASH request);
    c ← gets connector;
    '(external, load_kv_async) ←
      (match c with
       | Some _ => on_connector (get_num_new_matched_tokens request local)
       | None => mret (0, false)
       end);
    mret (new_computed_blocks, local, external, local + external, load_kv_async)
  else
    kv ← gets kv_cache_manager;
    mret (create_empty_block_list kv, 0, 0, num_computed_tokens request, false).

Inductive sizing : Type := SkipRequest | StopLoop | Schedule (num_new_tokens : Z) (inputs : list Z) (budget : Z).

(** [num_new_tokens] of a waiting request. *)
Definition new_tokens_waiting (request : Request) (num_computed external : Z) (load_kv_async : bool)
    : M St sizing :=
  cfg ← on_sched (gets config);
  p ← plan_of;
  if load_kv_async then
    assert_ (bool_decide (external > 0)) ;; mret (Schedule 0 [] (encoder_budget p))
  else
    let n := num_tokens request - num_computed in
    let n := if decide (0 < long_prefill_token_threshold cfg < n) then long_prefill_token_threshold cfg else n in
    if decide (chunked_prefill_enabled cfg = false ∧ n > token_budget p) then mret SkipRequest
    else
      let n := Z.min n (token_budget p) in
      assert_ (bool_decide (n > 0)) ;;
      if has_encoder_inputs request then
        ecm ← on_sched (gets encoder_cache_manager);
        '(inputs, n, budget) ←
          lift_outcome (_try_schedule_encoder_inputs cfg ecm request num_computed n (encoder_budget p));
        if decide (n = 0) then mret StopLoop else mret (Schedule n inputs budget)
      else mret (Schedule n [] (encoder_budget p)).

(** The two ways a request leaves the head of the waiting queue. *)
Definition pop_waiting : M Sched req_ref :=
  w ← gets waiting;
  '(r, w') ← lift_outcome (pop_request w);
  modify (set_waiting w') ;; mret r.
Definition skip_request (r : req_ref) (skipped : RequestQueue) : M Sched RequestQueue :=
  pop_waiting ;;
  request ← the_request r;
  lift_outcome (prepend_request skipped request).

(** The bookkeeping of a request that starts, or resumes, running. *)
Definition start_running (r : req_ref) (num_new_tokens num_computed : Z) (inputs : list Z) (budget now : Z)
    : M St unit :=
  request ← on_sched (the_request r);
  (if use_structured_output request then
     on_plan (λ p, set_structured_ids (<[r := req_index p]> (structured_ids p)) p)
   else mret tt) ;;
  on_plan (λ p, set_req_index (req_index p + 1) p) ;;
  on_sched (modify (λ s, set_running (running s ++ [r]) s)) ;;
  cfg ← on_sched (gets config);
  (if cfg_log_stats cfg then on_sched (update_request r (record_event SCHEDULED now)) else mret tt) ;;
  match status request with
  | WAITING => on_plan (λ p, set_scheduled_new (scheduled_new p ++ [r]) p)
  | PREEMPTED => on_plan (λ p, set_scheduled_resumed (scheduled_resumed p ++ [r]) p)
  | _ => raise RuntimeError
  end ;;
  match max_loras cfg, lora_request (params request) with
  | Some _, Some l => on_plan (λ p, set_loras ({[lora_int_id l]} ∪ scheduled_loras p) p)
  | _, _ => mret tt
  end ;;
  block_ids ← on_sched (on_kv (manager_get_block_ids r));
  on_plan (commit_tokens r num_new_tokens block_ids) ;;
  on_sched (update_request r (λ x, set_num_computed_tokens num_computed (set_status RUNNING x))) ;;
  on_sched (update_request r (λ x, if decide (num_cached_tokens x < 0) then set_num_cached_tokens num_computed x else x)) ;;
  request ← on_sched (the_request r);
  schedule_encoder_inputs request inputs budget.

(** One pass of the loop over the waiting queue: the queue of skipped requests and
    whether the loop goes on. *)
Definition schedule_waiting_one (now : Z) (r : req_ref) (skipped : RequestQueue) : M St (RequestQueue * bool) :=
  adm ← admit_status r;
  match adm with
  | Skip => sk ← on_sched (skip_request r skipped); mret (sk, true)
  | Admit =>
    request ← on_sched (the_request r);
    '(new_computed_blocks, local, external, num_computed, load_kv_async) ← on_sched (computed_tokens request);
    sz ← new_tokens_waiting request num_computed external load_kv_async;
    match sz with
    | SkipRequest => sk ← on_sched (skip_request r skipped); mret (sk, true)
    | StopLoop => mret (skipped, false)
    | Schedule num_new_tokens inputs budget =>
      cfg ← on_sched (gets config);
      new_blocks ← on_sched (on_kv (allocate_slots hash_function NONE_HASH request (num_new_tokens + external)
                     local (Some new_computed_blocks) (num_lookahead_tokens cfg) load_kv_async));
      match new_blocks with
      | None => mret (skipped, false)
      | Some new_blocks =>
        c ← on_sched (gets connector);
        match (c : option C) with
        | Some _ => on_sched (on_connector
                      (update_state_after_alloc request (KVCacheBlocks_add new_computed_blocks new_blocks) external))
        | None => mret tt
        end ;;
        r ← on_sched pop_waiting;
        if (load_kv_async : bool) then
          request ← on_sched (the_request r);
          sk ← lift_outcome (prepend_request skipped request);
          on_sched (update_request r (set_status WAITING_FOR_REMOTE_KVS)) ;;
          mret (sk, true)
        else
          start_running r num_new_tokens num_computed inputs budget now ;;
          mret (skipped, true)
      end
    end
  end.

(** [while self.waiting and token_budget > 0]; returns the skipped requests. *)
Fixpoint schedule_waiting (fuel : nat) (now : Z) (skipped : RequestQueue) : M St RequestQueue :=
  match fuel with
  | O => raise OutOfFuel
  | S fuel =>
    s ← sched_of;
    p ← plan_of;
    if negb (queue_nonempty (waiting s)) || bool_decide (token_budget p <= 0) then mret skipped
    else if decide (len (running s) = max_num_running_reqs (config s)) then mret skipped
    else
      r ← lift_outcome (peek_request (waiting s));
      '(skipped, go_on) ← schedule_waiting_one now r skipped;
      if (go_on : bool) then schedule_waiting fuel now skipped else mret skipped
  end.

(** ** The output of a step *)

(** The requests of [self.requests]. *)
Definition request_dict s : gmap string Request := filter (λ kv, kv.1 ∈ requests s) (objects s).
(** [self.requests[id]]. *)
Definition request_at (id : string) : M Sched Request :=
  s ← get;
  match request_dict s !! id with Some r => mret r | None => raise KeyError end.

Definition from_dict {K V} `{Countable K} (k : K) (m : gmap K V) : outcome V :=
  match m !! k with Some v => Ok v | None => Raise KeyError end.

(** One request's part of [_make_cached_request_data]. *)
Definition cached_request_row (cfg : SchedulerConfig) (use_connector : bool) (p : Plan) (r : req_ref)
    : M Sched (string * list (list Z) * list (list Z) * Z) :=
  request ← the_request r;
  n ← lift_outcome (match dict_get r (plan_tokens p) with Some n => Ok n | None => Raise KeyError end);
  let n := n - len (default [] (plan_spec_tokens p !! r)) in
  let c := num_computed_tokens request in
  let token_ids := if use_pp cfg then [slice c (c + n) (all_token_ids request)]
                   else if use_connector then [[]] else [] in
  blocks ← lift_outcome (from_dict r (req_to_new_block_ids p));
  mret (request_id request, token_ids, blocks, c).

Definition _make_cached_request_data (p : Plan) : M Sched CachedRequestData :=
  cfg ← gets config;
  c ← gets connector;
  rows ← map_each (scheduled_running p ++ scheduled_resumed p)
           (cached_request_row cfg (bool_decide (is_Some c)) p);
  mret (mkCachedRequestData ((λ x, x.1.1.1) <$> rows)
          (replicate (length (scheduled_running p)) false ++ replicate (length (scheduled_resumed p)) true)
          (concat ((λ x, x.1.1.2) <$> rows)) ((λ x, x.1.2) <$> rows) ((λ x, x.2) <$> rows)).

Definition _free_encoder_inputs (r : req_ref) : M Sched unit :=
  request ← the_request r;
  ecm ← gets encoder_cache_manager;
  for_each (elements (get_cached_input_ids ecm request)) (λ input_id,
    pos ← lift_outcome (py_index (mm_positions request) input_id);
    if decide (offset pos + length_ pos <= num_computed_tokens request) then
      on_encoder (free_encoder_input request input_id)
    else mret tt).

(** [Scheduler._update_after_schedule]. *)
Definition base_update_after_schedule (tokens : list (string * Z)) : M Sched unit :=
  for_each tokens (λ '(id, n),
    request ← request_at id;
    update_request id (set_num_computed_tokens (num_computed_tokens request + n)) ;;
    if has_encoder_inputs request then _free_encoder_inputs id else mret tt) ;;
  modify (set_finished_req_ids ∅).

(** [AsyncScheduler._update_after_schedule] adds the placeholders of the tokens that
    are to come. *)
Definition _update_after_schedule (tokens : list (string * Z)) : M Sched unit :=
  base_update_after_schedule tokens ;;
  cfg ← gets config;
  if is_async cfg then
    for_each tokens (λ '(id, _),
      request ← request_at id;
      if decide (num_computed_tokens request = num_tokens request + num_output_placeholders request) then
        update_request id (set_num_output_placeholders (num_output_placeholders request + 1))
      else mret tt)
  else mret tt.

(** The checks after the two loops. *)
Definition check_constraints : M St unit :=
  s ← sched_of;
  p ← plan_of;
  assert_ (bool_decide (zsum (plan_tokens p).*2 <= max_num_scheduled_tokens (config s))) ;;
  assert_ (bool_decide (token_budget p >= 0)) ;;
  assert_ (bool_decide (len (running s) <= max_num_running_reqs (config s))) ;;
  assert_ (bool_decide (len (scheduled_new p) + len (scheduled_resumed p) + len (scheduled_running p)
                        <= len (running s))).

Definition common_prefix_blocks : M Sched (list Z) :=
  rs ← gets running;
  match rs with
  | [] => kv ← gets kv_cache_manager; mret (replicate (Z.to_nat (num_kv_cache_groups kv)) 0)
  | r :: _ => any_request ← the_request r;
              on_kv (KVCacheManager.get_num_common_prefix_blocks any_request (len rs))
  end.

(** The construction of the [SchedulerOutput]. *)
Definition make_output (p : Plan) : M Sched SchedulerOutput :=
  common ← common_prefix_blocks;
  s ← get;
  bitmask ← on_structured (make_grammar_bitmask (request_dict s) (structured_ids p) (plan_spec_tokens p));
  new_reqs ← map_each (scheduled_new p) (λ r,
    request ← the_request r;
    blocks ← lift_outcome (from_dict r (req_to_new_block_ids p));
    mret (from_request request blocks));
  cached_reqs ← _make_cached_request_data p;
  fin ← gets finished_req_ids;
  freed_ids ← on_encoder get_freed_ids;
  mret (mkSchedulerOutput new_reqs cached_reqs (plan_tokens p) (zsum (plan_tokens p).*2) (plan_spec_tokens p)
          (plan_encoder_inputs p) common fin freed_ids (structured_ids p) bitmask None).

Definition publish_events (now : Z) : M Sched unit :=
  evs ← on_kv KVCacheManager.take_events;
  match evs with
  | [] => mret tt
  | _ => modify (λ s, set_published (published s ++ [(now, evs)]) s)
  end.

Definition initial_plan (cfg : SchedulerConfig) : Plan :=
  mkPlan [] [] [] [] ∅ ∅ [] (max_num_scheduled_tokens cfg) ∅ (max_num_encoder_input_tokens cfg) ∅ ∅ 0.

(** The scheduling proper: the running requests, then, when none was preempted, the
    waiting ones; the skipped ones go back to the head of the queue. *)
Definition plan_step (scheduled_timestamp : Z) : M St unit :=
  s ← sched_of;
  schedule_running (S (length (running s))) scheduled_timestamp ;;
  record_loras ;;
  p ← plan_of;
  s ← sched_of;
  let empty := create_request_queue (policy (config s)) in
  skipped ← (if decide (preempted_reqs p = []) then
               schedule_waiting (S (length (queue_refs (waiting s)))) scheduled_timestamp empty
             else mret empty);
  (if queue_nonempty skipped then
     s ← sched_of;
     on_sched (on_waiting (λ w, prepend_requests w skipped (λ rs, (load_requests rs s).1)))
   else mret tt) ;;
  check_constraints.

(** [schedule]; [now] is what the clock says. *)
Definition schedule (now : Z) : M Sched SchedulerOutput := λ s,
  match plan_step now (s, initial_plan (config s)) with
  | (Raise e, (s', _)) => (Raise e, s')
  | (Ok _, (s', p)) =>
    (out ← make_output p;
     c ← gets connector;
     out ← (match (c : option C) with
            | Some _ => meta ← on_connector (build_connector_meta out);
                        mret (set_kv_connector_metadata (Some meta) out)
            | None => mret out
            end);
     publish_events now ;;
     _update_after_schedule (num_scheduled_tokens out) ;;
     mret out) s'
  end.

(** ** The end of a request *)
Definition _connector_finished (r : req_ref) : M Sched (bool * option handle) :=
  c ← gets connector;
  match (c : option C) with
  | None => mret (false, None)
  | Some _ =>
    request ← the_request r;
    block_ids ← on_kv (manager_get_block_ids r);
    match block_ids with
    | [ids] => on_connector (request_finished request ids)
    | _ => raise ValueError
    end
  end.

Definition _free_blocks (r : req_ref) : M Sched unit :=
  request ← the_request r;
  assert_ (is_finished request) ;;
  on_kv (KVCacheManager.free request) ;;
  on_kv (free_block_hashes request) ;;
  s ← get;
  if decide (r ∈ requests s) then modify (λ s, set_requests (requests s ∖ {[r]}) s) else raise KeyError.

(** [self.finished_req_ids_dict[client].add(id)] of the [defaultdict]. *)
Definition add_finished (client : Z) (id : string) (d : list (Z * gset string)) : list (Z * gset string) :=
  dict_set client ({[id]} ∪ default ∅ (dict_get client d)) d.

Definition _free_request (r : req_ref) : M Sched (option handle) :=
  request ← the_request r;
  assert_ (is_finished request) ;;
  '(delay_free_blocks, kv_xfer_params) ← _connector_finished r;
  on_encoder (EncoderCache.free request) ;;
  modify (λ s, set_finished_req_ids ({[r]} ∪ finished_req_ids s) s) ;;
  modify (λ s, set_finished_dict (add_finished (client_index (params request)) r <$> finished_req_ids_dict s) s) ;;
  (if (delay_free_blocks : bool) then mret tt else _free_blocks r) ;;
  mret kv_xfer_params.

(** [finish_requests] for the ids in the order they are iterated in. *)
Definition finish_requests (request_ids : list string) (finished_status : RequestStatus) : M Sched unit :=
  assert_ (status_is_finished finished_status) ;;
  s ← get;
  let valid := filter (.∈ requests s) request_ids in
  valid_requests ← load_requests valid;
  let is_running (r : Request) := bool_decide (status r = RUNNING) in
  let running_to_remove := request_id ∘ params <$> List.filter is_running valid_requests in
  let waiting_to_remove := request_id ∘ params <$> List.filter (λ r, negb (is_running r)) valid_requests in
  for_each running_to_remove (λ r,
    rs ← gets running;
    rs' ← lift_outcome (FCFSRequestQueue.remove_request rs r);
    modify (set_running rs')) ;;
  (match waiting_to_remove with
   | [] => mret tt
   | _ => on_waiting (λ w, remove_requests w waiting_to_remove)
   end) ;;
  for_each valid (λ r, update_request r (set_status finished_status) ;; _free_request r ;; mret tt).

(** ** The model runner's output *)

(** The loop of [_update_request_with_output]: the tokens that are kept, and whether
    the request has stopped. *)
Fixpoint append_until_stop (r : req_ref) (kept todo : list Z) : M Sched (list Z * bool) :=
  match todo with
  | [] => mret (kept, false)
  | t :: todo' =>
    update_request r (append_output_token_ids [t]) ;;
    cfg ← gets config;
    request ← the_request r;
    '(stopped, request') ← lift_outcome (check_stop request (max_model_len cfg) false);
    update_request r (λ _, request') ;;
    if (stopped : bool) then mret (kept ++ [t], true) else append_until_stop r (kept ++ [t]) todo'
  end.

(** [_update_request_with_output], of both schedulers. *)
Definition _update_request_with_output (r : req_ref) (tokens : list Z) : M Sched (list Z * bool) :=
  cfg ← gets config;
  request ← the_request r;
  let status_before_update := status request in
  '(tokens, stopped) ← append_until_stop r [] tokens;
  if is_async cfg then
    update_request r (λ x, set_num_output_placeholders (num_output_placeholders x - len tokens) x) ;;
    request ← the_request r;
    assert_ (bool_decide (num_output_placeholders request >= 0)) ;;
    (if decide (status_before_update = RUNNING) then
       on_kv (KVCacheManager.cache_blocks hash_function NONE_HASH request
                (num_computed_tokens request - num_output_placeholders request))
     else mret tt) ;;
    mret (tokens, stopped)
  else mret (tokens, stopped).

Definition make_spec_decoding_stats (st : option SpecDecodingStats) (num_draft num_accepted : Z)
    : M Sched (option SpecDecodingStats) :=
  cfg ← gets config;
  if cfg_log_stats cfg then
    st ← lift_outcome (observe_draft num_draft num_accepted
           (default (SpecDecodingStats_new (num_spec_tokens cfg)) st));
    mret (Some st)
  else mret None.

Definition make_stats (st : option SpecDecodingStats) : M Sched (option SchedulerStats) :=
  cfg ← gets config;
  if cfg_log_stats cfg then
    prefix_stats ← on_kv make_prefix_cache_stats;
    match prefix_stats with
    | None => raise AssertionError
    | Some prefix_stats =>
      s ← get;
      rs ← load_requests (running s);
      mret (Some (mkSchedulerStats (len (running s)) (queue_len (waiting s)) (usage (kv_cache_manager s))
                    prefix_stats st (len (List.filter is_output_corrupted rs))))
    end
  else mret None.

(** The local variables of [update_from_output]. *)
Record Collected : Type := mkCollected {
  outs : list (Z * list EngineCoreOutput);
  spec_stats : option SpecDecodingStats;
  stopped_running : list req_ref;
  stopped_preempted : list req_ref
}.

(** The tokens the draft model's rejections take back. *)
Definition account_rejections (r : req_ref) (scheduled_spec generated : list Z) (col : Collected)
    : M Sched Collected :=
  match scheduled_spec with
  | [] => mret col
  | _ =>
    let rejected := len scheduled_spec + 1 - len generated in
    update_request r (λ x, set_num_computed_tokens (num_computed_tokens x - rejected) x) ;;
    st ← make_spec_decoding_stats (spec_stats col) (len scheduled_spec) (len generated - 1);
    mret (mkCollected (outs col) st (stopped_running col) (stopped_preempted col))
  end.

(** The grammar of a request that uses structured output. *)
Definition grammar_of (request : Request) : outcome handle :=
  match structured_output_request (params request) with Some h => Ok h | None => Raise AttributeError end.

(** The new draft tokens of a request. *)
Definition store_spec_tokens (r : req_ref) (tokens : list Z) : M Sched unit :=
  request ← the_request r;
  advance ← on_structured (should_advance request);
  if (advance : bool) then
    h ← lift_outcome (grammar_of request);
    valid ← on_structured (validate_tokens h tokens);
    update_request r (set_spec_token_ids valid)
  else update_request r (set_spec_token_ids tokens).

(** The tokens, the stop and the pooler output of one request. *)
Definition apply_output (mro : ModelRunnerOutput) (r : req_ref) (req_index : Z) (generated : list Z)
    : M Sched (list Z * bool * option handle) :=
  '(tokens, stopped) ←
    (match generated with [] => mret ([], false) | _ => _update_request_with_output r generated end);
  match runner_pooler_output mro with
  | [] => mret (tokens, stopped, None)
  | pooled =>
    pooler_output ← lift_outcome (py_index pooled req_index);
    cfg ← gets config;
    request ← the_request r;
    '(stopped, request') ←
      lift_outcome (check_stop request (max_model_len cfg) (bool_decide (is_Some pooler_output)));
    update_request r (λ _, request') ;;
    mret (tokens, stopped, pooler_output)
  end.

(** The [EngineCoreOutput] of one request, when there is something to send. *)
Definition emit_output (mro : ModelRunnerOutput) (r : req_ref) (tokens : list Z)
    (new_logprobs pooler_output kv_transfer_params : option handle) (col : Collected) : M Sched Collected :=
  let prompt_logprobs_tensors := mjoin (prompt_logprobs_dict mro !! r) in
  let has_params := match kv_transfer_params with Some h => dict_truthy h | None => false end in
  if decide (tokens ≠ [] ∨ is_Some pooler_output ∨ has_params = true) then
    request ← the_request r;
    let '(evs, request') := take_request_events request in
    update_request r (λ _, request') ;;
    let out := mkEngineCoreOutput r tokens new_logprobs prompt_logprobs_tensors pooler_output
                 (get_finished_reason request) (stop_reason request) evs kv_transfer_params
                 (num_cached_tokens request) in
    let c := client_index request in
    mret (mkCollected (dict_set c (default [] (dict_get c (outs col)) ++ [out]) (outs col))
            (spec_stats col) (stopped_running col) (stopped_preempted col))
  else assert_ (bool_decide (prompt_logprobs_tensors = None)) ;; mret col.

(** The loop body of [update_from_output]. *)
Definition update_one (so : SchedulerOutput) (mro : ModelRunnerOutput) (col : Collected) (entry : string * Z)
    : M Sched Collected :=
  let '(r, num_tokens_scheduled) := entry in
  assert_ (bool_decide (num_tokens_scheduled > 0)) ;;
  s ← get;
  match request_dict s !! r with
  | None => mret col
  | Some request =>
    req_index ← lift_outcome (from_dict r (req_id_to_index mro));
    generated ← lift_outcome (match sampled_token_ids mro with
                              | [] => Ok []
                              | l => py_index l req_index
                              end);
    col ← account_rejections r (default [] (scheduled_spec_decode_tokens so !! r)) generated col;
    let status_before_stop := status request in
    '(tokens, stopped, pooler_output) ← apply_output mro r req_index generated;
    kv_transfer_params ← (if (stopped : bool) then _free_request r else mret None);
    let col := if (stopped : bool) then
                 if decide (status_before_stop = RUNNING)
                 then mkCollected (outs col) (spec_stats col) (stopped_running col ++ [r]) (stopped_preempted col)
                 else mkCollected (outs col) (spec_stats col) (stopped_running col) (stopped_preempted col ++ [r])
               else col in
    let new_logprobs := match sampling_params request, runner_logprobs mro with
                        | Some sp, Some h => if decide (is_Some (logprobs sp))
                                             then Some (slice_logprobs h req_index (req_index + 1)) else None
                        | _, _ => None
                        end in
    match tokens with
    | [] => mret tt
    | _ =>
      request ← the_request r;
      advance ← on_structured (should_advance request);
      if (advance : bool) then
        h ← lift_outcome (grammar_of request); on_structured (accept_tokens h r tokens)
      else mret tt
    end ;;
    match runner_num_nans_in_logits mro with
    | Some d => match d !! r with
                | Some n => update_request r (set_num_nans_in_logits n)
                | None => mret tt
                end
    | None => mret tt
    end ;;
    match runner_spec_token_ids mro with
    | Some l => spec ← lift_outcome (py_index l req_index); store_spec_tokens r spec
    | None => mret tt
    end ;;
    emit_output mro r tokens new_logprobs pooler_output kv_transfer_params col
  end.

Definition _update_from_kv_xfer_finished (mro : ModelRunnerOutput) : M Sched unit :=
  for_each (default [] (finished_recving mro)) (λ id,
    modify (λ s, set_finished_recving ({[id]} ∪ finished_recving_kv_req_ids s) s)) ;;
  for_each (default [] (finished_sending mro)) (λ id, request_at id ;; _free_blocks id).

(** The finished requests of each client join its outputs. *)
Definition add_finished_requests (fin : list (Z * gset string)) (l : list (Z * EngineCoreOutputs))
    : list (Z * EngineCoreOutputs) :=
  foldl (λ l '(c, ids), dict_set c
    (match dict_get c l with
     | Some eco => set_ecos_finished (Some ids) eco
     | None => mkEngineCoreOutputs [] None (Some ids)
     end) l) l fin.

Definition update_from_output (so : SchedulerOutput) (mro : ModelRunnerOutput)
    : M Sched (list (Z * EngineCoreOutputs)) :=
  col ← fold_each (num_scheduled_tokens so) (mkCollected [] None [] []) (update_one so mro);
  (match stopped_running col with
   | [] => mret tt
   | l => modify (λ s, set_running (filter (.∉ l) (running s)) s)
   end) ;;
  (match stopped_preempted col with
   | [] => mret tt
   | l => on_waiting (λ w, remove_requests w l)
   end) ;;
  _update_from_kv_xfer_finished mro ;;
  fin ← gets finished_req_ids_dict;
  let base := (λ '(c, l), (c, mkEngineCoreOutputs l None None)) <$> outs col in
  let all := add_finished_requests (default [] fin) base in
  modify (λ s, set_finished_dict ((λ _, []) <$> finished_req_ids_dict s) s) ;;
  match all with
  | [] => mret []
  | (c, eco) :: rest => st ← make_stats (spec_stats col); mret ((c, set_ecos_stats st eco) :: rest)
  end.

(** ** The rest of the interface *)
Definition add_request (request : Request) (now : Z) : M Sched unit :=
  on_waiting (λ w, RequestQueue.add_request w request) ;;
  modify (λ s, set_requests ({[request_id request]} ∪ requests s)
                 (set_objects (<[request_id request := request]> (objects s)) s)) ;;
  cfg ← gets config;
  if cfg_log_stats cfg then update_request (request_id request) (record_event QUEUED now) else mret tt.

Definition get_request_counts s : Z * Z := (len (running s), queue_len (waiting s)).
Definition get_num_unfinished_requests s : Z := queue_len (waiting s) + len (running s).
Definition has_finished_requests s : bool := bool_decide (finished_req_ids s ≠ ∅).
Definition reset_prefix_cache : M Sched bool := on_kv KVCacheManager.reset_prefix_cache.

(** [Scheduler.__init__], given what the configurations and the encoder budget come
    to, and the connector when there is a transfer configuration. *)
Definition Scheduler_init (cfg : SchedulerConfig) (kv_cfg : KVCacheConfig) (enable_caching use_eagle ev : bool)
    (num_gpu_blocks encoder_cache_size : Z) (include_finished_set : bool) (conn : option C) (g : G) : outcome Sched :=
  if decide (is_Some conn ∧ len (kv_cache_groups kv_cfg) ≠ 1) then Raise AssertionError
  else if decide (num_gpu_blocks > 0) then
    kv ← KVCacheManager_init kv_cfg (max_model_len cfg) enable_caching use_eagle (cfg_log_stats cfg) ev;
    Ok (mkScheduler cfg ∅ ∅ (create_request_queue (policy cfg)) [] ∅
          (if include_finished_set then Some [] else None) ∅ (EncoderCacheManager_init encoder_cache_size)
          kv conn g [])
  else Raise AssertionError.
End scheduler.
