(* ===== verification/SchedulerEncoder.v ===== *)
(** The choice of encoder inputs of a step: which inputs are scheduled, how far the
    step's tokens are cut back, and what is left of the budget. *)
From Stdlib Require Import ZArith Lia QArith.
From stdpp Require Import base strings countable gmap sets fin_maps sorting list.
From S2P Require Import Prelude Request FreeBlockQueue BlockHash BlockPool KVCacheSpec SingleTypeManager KVCacheCoordinator KVCacheManager RequestQueue EncoderCache SchedulerData Scheduler.
Local Open Scope Z_scope.

Section encoder_inputs.
Context (tok : string → Z → Z) (cfg : SchedulerConfig) (ecm : EncoderCacheManager) (r : Request) (c : Z).
Implicit Types (inputs : list Z) (n budget : Z).

(** The input at [pos] feeds a position from [c] up to [c + n]. *)
Definition feeds (pos : PlaceholderRange) n : Prop := offset pos < c + n ∧ c < offset pos + length_ pos.
Definition ready inputs (i : Z) : Prop := has_cache ecm r i = true ∨ i ∈ inputs.

(** What the result of the loop promises: the first [k] inputs have been dealt with. *)
Record encoder_choice (k : nat) (inputs0 : list Z) n0 budget0 inputs n budget : Prop := {
  ec_tokens : 0 <= n <= Z.max 0 n0;
  ec_nodup : NoDup inputs;
  ec_inputs : ∀ i, i ∈ inputs → input_of r i ∧ has_cache ecm r i = false;
  ec_budget : budget + zsum (tok (request_id r) <$> inputs) = budget0 + zsum (tok (request_id r) <$> inputs0);
  ec_nonneg : 0 <= budget0 → 0 <= budget;
  ec_ready : 0 < n → StronglySorted (λ a b, offset a <= offset b) (mm_positions r) →
    (∀ (i : nat) pos, (i < k)%nat → mm_positions r !! i = Some pos → feeds pos n0 → ready inputs0 (Z.of_nat i)) →
    ∀ (i : nat) pos, mm_positions r !! i = Some pos → feeds pos n → ready inputs (Z.of_nat i)
}.

Lemma tok_length i pos : tok_of tok r → mm_positions r !! i = Some pos → tok (request_id r) (Z.of_nat i) = length_ pos.
Proof.
  intros Ht Hi. assert (0 <= Z.of_nat i < len (mm_positions r)) as Hin.
  { apply lookup_lt_Some in Hi. unfold len. lia. }
  specialize (Ht _ Hin). unfold get_num_encoder_tokens in Ht. rewrite decide_True in Ht by lia.
  rewrite (py_index_lookup _ _ _ Hi) in Ht. cbn in Ht. congruence.
Qed.

Lemma sorted_positions i j a b :
  StronglySorted (λ a b, offset a <= offset b) (mm_positions r) → (i <= j)%nat →
  mm_positions r !! i = Some a → mm_positions r !! j = Some b → offset a <= offset b.
Proof.
  generalize (mm_positions r). intros l Hs. revert i j. induction Hs as [|x l Hs IH Hx]; intros i j Hij Hi Hj; [done|].
  destruct i as [|i], j as [|j]; simplify_eq/=; try lia.
  - rewrite Forall_forall in Hx. by eapply Hx, list_elem_of_lookup_2.
  - eapply (IH i j); [lia|done..].
Qed.

(** The loop ends early, with its tokens cut back to [n'] that no later input feeds. *)
Lemma choice_stop k inputs n n' budget :
  NoDup inputs → (∀ i, i ∈ inputs → input_of r i ∧ has_cache ecm r i = false) →
  0 <= n' <= Z.max 0 n →
  (∀ pos, 0 < n' → mm_positions r !! k = Some pos → c + n' <= offset pos) →
  encoder_choice k inputs n budget inputs n' budget.
Proof.
  intros Hnd Hin Hn Hstop. split; try done. intros Hpos Hs Hdone i pos Hi [Hf1 Hf2].
  destruct (decide (i < k)%nat) as [Hlt|Hge]; [apply (Hdone i pos Hlt Hi); split; lia|].
  destruct (lookup_lt_is_Some_2 (mm_positions r) k) as [pk Hk]; [apply lookup_lt_Some in Hi; lia|].
  specialize (Hstop pk Hpos Hk). assert (offset pk <= offset pos) by (eapply sorted_positions; [done| |done|done]; lia). lia.
Qed.

Lemma choice_step k inputs inputs1 n budget budget1 inputs2 n2 budget2 :
  encoder_choice (S k) inputs1 n budget1 inputs2 n2 budget2 →
  budget1 + zsum (tok (request_id r) <$> inputs1) = budget + zsum (tok (request_id r) <$> inputs) →
  (0 <= budget → 0 <= budget1) →
  (∀ i, ready inputs i → ready inputs1 i) →
  (∀ pos, mm_positions r !! k = Some pos → feeds pos n → ready inputs1 (Z.of_nat k)) →
  encoder_choice k inputs n budget inputs2 n2 budget2.
Proof.
  intros [Ht Hnd Hin Hb Hnn Hr] Hb1 Hnn1 Hmono Hk. split; try done; [lia|auto|].
  intros Hpos Hs Hdone. apply Hr; [done|done|]. intros i pos Hi Hpi Hf.
  destruct (decide (i = k)) as [->|]; [by eapply Hk|]. apply Hmono. eapply Hdone; [lia|done..].
Qed.

Lemma try_encoder_loop_spec n todo : ∀ k inputs budget,
  tok_of tok r → todo = drop k (enumerate (mm_positions r)) →
  NoDup inputs → (∀ i, i ∈ inputs → input_of r i ∧ has_cache ecm r i = false ∧ i < Z.of_nat k) → 0 <= n →
  ∃ inputs' n' budget', try_encoder_loop cfg ecm r c n budget todo inputs = Ok (inputs', n', budget') ∧
    encoder_choice k inputs n budget inputs' n' budget'.
Proof.
  induction todo as [|[z pos] todo IH]; intros k inputs budget Htok Htodo Hnd Hin Hn; simpl.
  - exists inputs, n, budget. split; [done|]. apply choice_stop; [done|by intros i Hi; apply Hin in Hi as (? & ? & _)|lia|].
    intros pos _ Hk. apply (f_equal length) in Htodo. rewrite length_drop, enumerate_length in Htodo.
    apply lookup_lt_Some in Hk. simpl in Htodo. lia.
  - assert (z = Z.of_nat k ∧ mm_positions r !! k = Some pos) as [-> Hk].
    { apply enumerate_lookup. rewrite <- (Nat.add_0_r k), <- lookup_drop, <- Htodo. done. }
    assert (todo = drop (S k) (enumerate (mm_positions r))) as Htodo'.
    { rewrite <- Nat.add_1_r, <- drop_drop, <- Htodo. done. }
    assert (Hin' : ∀ i, i ∈ inputs → input_of r i ∧ has_cache ecm r i = false) by (intros i Hi; by apply Hin in Hi as (? & ? & _)).
    assert (Hin1 : ∀ i, i ∈ inputs → input_of r i ∧ has_cache ecm r i = false ∧ i < Z.of_nat (S k)).
    { intros i Hi. apply Hin in Hi as (? & ? & ?). split_and!; [done|done|lia]. }
    assert (input_of r (Z.of_nat k)) as Hof by (split; [lia|apply lookup_lt_Some in Hk; unfold len; lia]).
    case_decide as H1; [|case_decide as H2; [|destruct (has_cache ecm r (Z.of_nat k)) eqn:Hc; [|case_decide as H3]]].
    + eexists _, _, _. split; [done|]. apply choice_stop; [done|done|lia|]. intros p _ ?. simplify_eq. lia.
    + destruct (IH (S k) inputs budget Htok Htodo' Hnd Hin1 Hn) as (i2 & n2 & b2 & -> & Hch).
      eexists _, _, _. split; [done|]. eapply choice_step; [exact Hch|done|done|done|].
      intros p ? [_ ?]. simplify_eq. lia.
    + destruct (IH (S k) inputs budget Htok Htodo' Hnd Hin1 Hn) as (i2 & n2 & b2 & -> & Hch).
      eexists _, _, _. split; [done|]. eapply choice_step; [exact Hch|done|done|done|]. by left.
    + eexists _, _, _. split; [done|]. apply choice_stop; [done|done|lia|]. intros p _ ?. simplify_eq. lia.
    + rewrite (can_allocate_spec tok) by done. cbn [mbind outcome_bind]. case_decide as H4.
      * eexists _, _, _. split; [done|]. destruct (decide (c < offset pos)) as [Hs|Hs].
        all: apply choice_stop; [done|done|lia|intros p Hpos ?; simplify_eq; lia].
      * destruct (IH (S k) (inputs ++ [Z.of_nat k]) (budget - length_ pos) Htok Htodo') as (i2 & n2 & b2 & -> & Hch); [| |done|].
        -- apply NoDup_app. split_and!; [done| |by apply NoDup_singleton].
           intros i Hi ->%list_elem_of_singleton. apply Hin in Hi as (_ & _ & ?). lia.
        -- intros i [Hi| ->%list_elem_of_singleton]%elem_of_app; [by apply Hin1|]. split_and!; [done|done|lia].
        -- eexists _, _, _. split; [done|]. eapply choice_step; [exact Hch| | | |].
           ++ rewrite fmap_app, zsum_app. simpl. rewrite (tok_length k pos Htok Hk). lia.
           ++ lia.
           ++ intros i [?|?]; [by left|right; apply elem_of_app; by left].
           ++ intros p _ _. right. apply elem_of_app. right. by apply list_elem_of_singleton.
Qed.

(** [_try_schedule_encoder_inputs] raises nothing; it never schedules more tokens than
    asked for, nor an input that is cached, stays within the budget, and every input
    that feeds one of the step's tokens is cached or scheduled. *)
Lemma try_schedule_encoder_inputs_spec n budget :
  tok_of tok r → len (mm_inputs r) = len (mm_positions r) → 0 <= n →
  ∃ inputs n' budget', _try_schedule_encoder_inputs cfg ecm r c n budget = Ok (inputs, n', budget') ∧
    encoder_choice 0 [] n budget inputs n' budget'.
Proof.
  intros Htok Hlen Hn. unfold _try_schedule_encoder_inputs, has_encoder_inputs, num_encoder_inputs.
  case_decide as H0.
  - eexists _, _, _. split; [done|]. apply choice_stop; [apply NoDup_nil_2|by intros i ?%not_elem_of_nil|lia|].
    intros pos Hpos Hk. destruct H0 as [?|H0]; [lia|]. apply bool_decide_eq_false in H0. apply lookup_lt_Some in Hk.
    unfold len in *. lia.
  - rewrite decide_True.
    + apply try_encoder_loop_spec; [done|done|apply NoDup_nil_2|by intros i ?%not_elem_of_nil|done].
    + apply Decidable.not_or in H0 as [_ H0]. apply not_false_iff_true, bool_decide_eq_true in H0. lia.
Qed.
End encoder_inputs.
