(* ===== verification/SchedulerInvariant.v ===== *)
(** The invariant of the scheduler, for the configuration the theorems are about (first
    come first served, no KV connector, no LoRA limit), and the basic steps that keep
    it: loads and updates of request objects, calls of the KV-cache manager, encoder
    allocations and preemption.  The KV-cache manager is used through [SlotContract]. *)
From Stdlib Require Import ZArith Lia QArith.
From stdpp Require Import base strings countable gmap sets fin_maps list.
From S2P Require Import Prelude Request FreeBlockQueue BlockHash BlockPool KVCacheSpec SingleTypeManager KVCacheCoordinator KVCacheManager SlotContract RequestQueue EncoderCache SchedulerData Scheduler SchedulerEncoder.
Local Open Scope Z_scope.

(** The token lists of the request objects. *)
Definition obj_toks (objs : gmap req_ref Request) (id : req_ref) : list Z :=
  match objs !! id with Some r => all_token_ids r | None => [] end.

(** The configurations covered. *)
Record config_ok (cfg : SchedulerConfig) : Prop := {
  cf_policy : policy cfg = FCFS;
  cf_lookahead : 0 <= num_lookahead_tokens cfg;
  cf_budget : 0 <= max_num_scheduled_tokens cfg;
  cf_encoder : 0 <= max_num_encoder_input_tokens cfg;
  cf_loras : max_loras cfg = None
}.

Section invariant.
Context {C G : Type} `{!KVConnector C, !StructuredOutputManager G}.
Context (hash_function : Z * list Z * option (list extra_key) → Z) (NONE_HASH : Z).
Context `{!SlotContract hash_function NONE_HASH}.
(** The tokens of each encoder input of each request. *)
Context (tok : string → Z → Z).
Abbreviation Sched := (Scheduler C G).
Implicit Types (s : Sched) (t : req_ref → Z) (rs wl : list req_ref) (r : Request) (id : req_ref).

(** A request object.  A request that is not finished is shorter than the longest
    sequence: a prompt of exactly that length is never finished. *)
Record request_ok (cfg : SchedulerConfig) (kv_events : bool) id r : Prop := {
  ro_id : request_id r = id;
  ro_nonempty : 0 < num_tokens r;
  ro_limit : is_finished r = false → num_tokens r < max_model_len cfg;
  ro_mm : mm_wf r;
  ro_inputs : len (mm_inputs r) = len (mm_positions r);
  ro_tok : tok_of tok r;
  ro_lora : kv_events = true → lora_request r = None;
  ro_placeholders : 0 <= num_output_placeholders r;
  ro_sync : is_async cfg = false → num_output_placeholders r = 0;
  ro_drafts : len (spec_token_ids r) <= num_spec_tokens cfg;
  ro_params : is_Some (pooling_params r) ∨ is_Some (sampling_params r)
}.

Abbreviation kv_events s := (enable_kv_cache_events (the_pool (kv_cache_manager s))).

Record core_ok s : Prop := {
  co_config : config_ok (config s);
  co_limit : manager_max_model_len (kv_cache_manager s) = max_model_len (config s);
  co_connector : connector s = None;
  co_objects : ∀ id r, objects s !! id = Some r → request_ok (config s) (kv_events s) id r;
  co_kv : slots_inv (kv_cache_manager s) (obj_toks (objects s));
  co_enc : enc_inv tok (encoder_cache_manager s);
  co_cached : ∀ id r i, objects s !! id = Some r → i ∈ ids_of (encoder_cache_manager s) id → input_of r i;
  (** An id that has not been seen has left no trace. *)
  co_fresh : ∀ id, objects s !! id = None →
    no_slots (kv_cache_manager s) id ∧ ids_of (encoder_cache_manager s) id = ∅;
  co_log : KVCacheManager.log_stats (kv_cache_manager s) = cfg_log_stats (config s)
}.

(** A running request has slots for its computed tokens and the [t] scheduled ones. *)
Definition running_ok s (t : Z) id : Prop := ∃ r, objects s !! id = Some r ∧ (id ∈ requests s) ∧
  status r = RUNNING ∧ 0 <= num_computed_tokens r ∧ 0 <= t ∧
  has_slots (kv_cache_manager s) (obj_toks (objects s)) id (num_computed_tokens r + t) ∧
  num_computed_tokens r + t <= num_tokens_with_spec r + num_output_placeholders r ∧
  num_computed_tokens r + t < max_model_len (config s).

Definition waiting_status (st : RequestStatus) : Prop := st = WAITING ∨ st = PREEMPTED ∨ st = WAITING_FOR_FSM.
Definition waiting_ok s id : Prop := ∃ r, objects s !! id = Some r ∧ (id ∈ requests s) ∧
  waiting_status (status r) ∧ num_computed_tokens r = 0 ∧ no_slots (kv_cache_manager s) id.

(** The requests of [rs] run, those of [wl] wait. *)
Record members_ok s t (rs wl : list req_ref) : Prop := {
  mo_running : ∀ id, id ∈ rs → running_ok s (t id) id;
  mo_waiting : ∀ id, id ∈ wl → waiting_ok s id
}.

(** The invariant between two steps. *)
Definition sched_ok s : Prop := ∃ w, waiting s = FCFSQueue w ∧ core_ok s ∧ members_ok s (λ _, 0) (running s) w ∧
  NoDup (running s ++ w) ∧ len (running s) <= max_num_running_reqs (config s) ∧
  ∀ id, id ∈ requests s → id ∈ running s ++ w.

(** What the steps inside [schedule] leave alone. *)
Record sched_frame s s' : Prop := {
  sf_config : config s' = config s;
  sf_requests : requests s' = requests s;
  sf_connector : connector s' = connector s;
  sf_dom : ∀ id, is_Some (objects s' !! id) ↔ is_Some (objects s !! id);
  sf_finished : finished_req_ids s' = finished_req_ids s;
  sf_structured : structured_output_manager s' = structured_output_manager s;
  sf_groups : same_settings (kv_cache_manager s) (kv_cache_manager s')
}.
#[export] Instance sched_frame_preorder : PreOrder sched_frame.
Proof.
  split; [by split|]. intros s1 s2 s3 H12 H23. destruct H12, H23. split; try congruence; [|by etransitivity].
  intros id. by rewrite <- sf_dom0.
Qed.

(** * Loads and updates of objects *)
Lemma wp_the_request id s r (Q : Request → Sched → Prop) :
  objects s !! id = Some r → Q r s → wp (the_request id) Q s.
Proof. intros Hr HQ. unfold the_request. wp_steps. by rewrite Hr. Qed.

(** What an update inside a step keeps of a request. *)
Record same_request (async : bool) r r' : Prop := {
  sr_params : params r' = params r;
  sr_tokens : all_token_ids r' = all_token_ids r;
  sr_placeholders : num_output_placeholders r <= num_output_placeholders r';
  sr_sync : async = false → num_output_placeholders r' = num_output_placeholders r;
  sr_drafts : len (spec_token_ids r') <= len (spec_token_ids r);
  sr_finished : is_finished r' = false → is_finished r = false
}.

Lemma waiting_unfinished r : waiting_status (status r) → is_finished r = false.
Proof. unfold is_finished. by intros [-> |[-> | ->]]. Qed.
Lemma running_unfinished r : status r = RUNNING → is_finished r = false.
Proof. unfold is_finished. by intros ->. Qed.

Lemma request_fits_ok s id r :
  core_ok s → objects s !! id = Some r → is_finished r = false →
  request_fits (kv_cache_manager s) (obj_toks (objects s)) r.
Proof.
  intros Hc Hr Hun. destruct (co_objects _ Hc id r Hr). split; try done.
  - unfold obj_toks. by rewrite ro_id0, Hr.
  - rewrite (co_limit _ Hc). pose proof (ro_limit0 Hun). lia.
Qed.

(** Replacing the manager. *)
Lemma core_ok_kv s m' P :
  core_ok s → slots_frame P (kv_cache_manager s) m' (obj_toks (objects s)) →
  (∀ id, objects s !! id = None → P id) → core_ok (set_kv m' s).
Proof.
  intros Hc (Hi & Hs & Hno & _) HP. pose proof (ss_pool _ _ Hs) as (_ & _ & _ & _ & Hev). destruct Hc. split; try done.
  - cbn. by rewrite (ss_max_model_len _ _ Hs).
  - intros id r Hr. destruct (co_objects0 id r Hr). split; try done. cbn. by rewrite Hev.
  - intros id Hid. destruct (co_fresh0 id Hid). split; [|done]. by apply Hno; [apply HP|].
  - cbn. by rewrite (ss_log_stats _ _ Hs).
Qed.
Lemma running_ok_kv s m' P (t : Z) id :
  slots_frame P (kv_cache_manager s) m' (obj_toks (objects s)) → P id → running_ok s t id → running_ok (set_kv m' s) t id.
Proof. intros (_ & _ & _ & Hh) HP (r & ? & ? & ? & ? & ? & ? & ? & ?). exists r. csplit; try done. by apply Hh. Qed.
Lemma waiting_ok_kv s m' P id :
  slots_frame P (kv_cache_manager s) m' (obj_toks (objects s)) → P id → waiting_ok s id → waiting_ok (set_kv m' s) id.
Proof. intros (_ & _ & Hn & _) HP (r & ? & ? & ? & ? & ?). exists r. csplit; try done. by apply Hn. Qed.

(** Replacing an object. *)
Lemma obj_toks_alter objs id f x :
  (∀ r, objs !! id = Some r → all_token_ids (f r) = all_token_ids r) → obj_toks (alter f id objs) x = obj_toks objs x.
Proof.
  intros Hf. unfold obj_toks. destruct (decide (x = id)) as [->|Hne]; [|by rewrite lookup_alter_ne].
  rewrite lookup_alter_eq. destruct (objs !! id) as [r|] eqn:E; [|done]. simpl. by apply Hf.
Qed.
Lemma core_ok_alter s id f :
  core_ok s → (∀ r, objects s !! id = Some r → same_request (is_async (config s)) r (f r)) →
  core_ok (set_objects (alter f id (objects s)) s) ∧
  ∀ x c, has_slots (kv_cache_manager s) (obj_toks (objects s)) x c →
    has_slots (kv_cache_manager s) (obj_toks (alter f id (objects s))) x c.
Proof.
  intros Hc Hf. destruct (grow_law (kv_cache_manager s) _ (obj_toks (alter f id (objects s))) (co_kv _ Hc)) as [Hi Hh].
  { intros x. rewrite obj_toks_alter; [done|]. intros r Hr. by destruct (Hf r Hr). }
  split; [|done]. destruct Hc. split; try done; cbn.
  - intros x r' [(<- & r & Hr & ->)|[_ Hr]]%lookup_alter_Some; [|by apply co_objects0].
    destruct (co_objects0 id r Hr). destruct (Hf r Hr) as [Hp Ht Hpl Hsy Hdr Hfi].
    split; rewrite ?Hp; try done; try lia; unfold num_tokens in *; rewrite ?Ht; try done; auto.
    + unfold mm_wf in *. by rewrite Hp.
    + intros i. unfold tok_of, get_num_encoder_tokens in *. rewrite Hp. apply ro_tok0.
    + intros Ha. rewrite (Hsy Ha). by apply ro_sync0.
  - intros x r' i [(<- & r & Hr & ->)|[_ Hr]]%lookup_alter_Some Hi'; [|by eapply co_cached0].
    destruct (Hf r Hr) as [Hp _ _ _ _ _]. unfold input_of. rewrite Hp. by eapply co_cached0.
  - intros x Hx%lookup_alter_None. by apply co_fresh0.
Qed.

Lemma wp_update_request id f (Q : unit → Sched → Prop) s :
  Q tt (set_objects (alter f id (objects s)) s) → wp (update_request id f) Q s.
Proof. done. Qed.

Lemma members_ok_alter s t rs wl id f :
  core_ok s → (∀ r, objects s !! id = Some r → same_request (is_async (config s)) r (f r)) →
  members_ok s t rs wl → (id ∉ rs) → (id ∉ wl) → members_ok (set_objects (alter f id (objects s)) s) t rs wl.
Proof.
  intros Hc Hf [Hr Hw] Hrs Hwl. destruct (core_ok_alter s id f Hc Hf) as [_ Hh]. split; intros x Hx.
  - destruct (Hr x Hx) as (r & ? & ? & ? & ? & ? & ? & ? & ?). exists r. csplit; try done; [|by apply Hh].
    cbn. rewrite lookup_alter_ne; [done|]. by intros <-.
  - destruct (Hw x Hx) as (r & ? & ? & ? & ? & ?). exists r. csplit; try done.
    cbn. rewrite lookup_alter_ne; [done|]. by intros <-.
Qed.

Lemma members_ok_kv s t rs wl m' P :
  slots_frame P (kv_cache_manager s) m' (obj_toks (objects s)) → (∀ x, x ∈ rs ++ wl → P x) →
  members_ok s t rs wl → members_ok (set_kv m' s) t rs wl.
Proof.
  intros Hf HP [Hr Hw]. split; intros x Hx.
  - eapply running_ok_kv; [exact Hf|apply HP, elem_of_app; by left|by apply Hr].
  - eapply waiting_ok_kv; [exact Hf|apply HP, elem_of_app; by right|by apply Hw].
Qed.

Lemma frame_alter s id f : sched_frame s (set_objects (alter f id (objects s)) s).
Proof.
  split; try done. intros x. cbn. destruct (decide (x = id)) as [->|]; [|by rewrite lookup_alter_ne].
  rewrite lookup_alter_eq. by rewrite fmap_is_Some.
Qed.

(** An update of an object that is there replaces it. *)
Lemma wp_update_object id f s r (Q : unit → Sched → Prop) :
  objects s !! id = Some r → Q tt (set_objects (<[id := f r]> (objects s)) s) → wp (update_request id f) Q s.
Proof.
  intros Hr HQ. apply wp_update_request. assert (alter f id (objects s) = <[id := f r]> (objects s)) as ->; [|done].
  apply map_eq. intros x. destruct (decide (x = id)) as [->|Hne].
  - by rewrite lookup_alter_eq, lookup_insert_eq, Hr.
  - by rewrite lookup_alter_ne, lookup_insert_ne.
Qed.

(** An object is replaced by one that has more tokens. *)
Lemma obj_toks_insert objs id r r' x :
  objs !! id = Some r → all_token_ids r `prefix_of` all_token_ids r' →
  obj_toks objs x `prefix_of` obj_toks (<[id := r']> objs) x.
Proof.
  intros Hr Hp. unfold obj_toks. destruct (decide (x = id)) as [->|Hne]; [by rewrite lookup_insert_eq, Hr|by rewrite lookup_insert_ne].
Qed.
Lemma core_ok_insert s id r r' :
  core_ok s → objects s !! id = Some r → params r' = params r → all_token_ids r `prefix_of` all_token_ids r' →
  request_ok (config s) (kv_events s) id r' →
  core_ok (set_objects (<[id := r']> (objects s)) s) ∧
  ∀ x c, has_slots (kv_cache_manager s) (obj_toks (objects s)) x c →
    has_slots (kv_cache_manager s) (obj_toks (<[id := r']> (objects s))) x c.
Proof.
  intros Hc Hr Hp Ht Hok.
  destruct (grow_law (kv_cache_manager s) _ (obj_toks (<[id := r']> (objects s))) (co_kv _ Hc)) as [Hi Hh].
  { intros x. by eapply obj_toks_insert. }
  split; [|done]. destruct Hc. split; try done; cbn.
  - intros x r0 [[<- <-]|[_ Hr0]]%lookup_insert_Some; [done|by apply co_objects0].
  - intros x r0 i [[<- <-]|[_ Hr0]]%lookup_insert_Some Hi'; [|by eapply co_cached0].
    unfold input_of. rewrite Hp. by eapply co_cached0.
  - intros x [Hx _]%lookup_insert_None. by apply co_fresh0.
Qed.
Lemma members_ok_insert s t rs wl id r r' :
  core_ok s → objects s !! id = Some r → params r' = params r → all_token_ids r `prefix_of` all_token_ids r' →
  request_ok (config s) (kv_events s) id r' →
  members_ok s t rs wl → (id ∉ rs) → (id ∉ wl) → members_ok (set_objects (<[id := r']> (objects s)) s) t rs wl.
Proof.
  intros Hc Hr Hp Ht Hok [Hmr Hmw] Hrs Hwl. destruct (core_ok_insert s id r r' Hc Hr Hp Ht Hok) as [_ Hh]. split; intros x Hx.
  - destruct (Hmr x Hx) as (r0 & ? & ? & ? & ? & ? & ? & ? & ?). exists r0. csplit; try done; [|by apply Hh].
    cbn. rewrite lookup_insert_ne; [done|]. by intros <-.
  - destruct (Hmw x Hx) as (r0 & ? & ? & ? & ? & ?). exists r0. csplit; try done.
    cbn. rewrite lookup_insert_ne; [done|]. by intros <-.
Qed.

(** * Preemption *)
Lemma preempt_spec now s t rs wl run v w :
  core_ok s → members_ok s t rs wl → running s = run ++ [v] → (v ∉ rs) → (v ∉ wl) →
  (∃ r, objects s !! v = Some r ∧ status r = RUNNING) → (v ∈ requests s) → waiting s = FCFSQueue w →
  wp (preempt now) (λ v' s', v' = v ∧ core_ok s' ∧ members_ok s' t rs (v :: wl) ∧ running s' = run ∧
    waiting s' = FCFSQueue (v :: w) ∧ encoder_cache_manager s' = encoder_cache_manager s ∧
    sched_frame s s' ∧ ∀ x, x ≠ v → objects s' !! x = objects s !! x) s.
Proof.
  intros Hc Hm Hrun Hrs Hwl (r & Hr & Hst) Hreq Hw. unfold preempt, pop_preempted. wp_steps.
  rewrite (cf_policy _ (co_config _ Hc)), Hrun, last_snoc. wp_steps. rewrite removelast_snoc.
  set (s1 := set_running run s).
  assert (Hc1 : core_ok s1) by (by destruct Hc). assert (Hm1 : members_ok s1 t rs wl) by (by destruct Hm).
  eapply (wp_the_request v s1 r); [exact Hr|]. apply wp_bind. unfold on_kv. apply wp_zoom.
  pose proof (ro_id _ _ _ _ (co_objects _ Hc v r Hr)) as Hid.
  eapply wp_mono; [apply free_law, (co_kv _ Hc1)|]. intros _ m' [Hfr Hno]. rewrite Hid in Hfr, Hno.
  set (s2 := set_kv m' s1).
  assert (Hc2 : core_ok s2).
  { eapply core_ok_kv; [done|exact Hfr|]. intros x Hx ->. change (objects s1) with (objects s) in Hx. congruence. }
  assert (Hm2 : members_ok s2 t rs wl).
  { eapply members_ok_kv; [exact Hfr| |done]. intros x [Hx|Hx]%elem_of_app; intros ->; done. }
  apply wp_bind, wp_update_request. 
  set (f := λ r, set_num_computed_tokens 0 (set_status PREEMPTED r)). set (s3 := set_objects _ s2).
  assert (Hf : ∀ r, objects s2 !! v = Some r → same_request (is_async (config s2)) r (f r)).
  { intros r' Hr'. change (objects s2) with (objects s) in Hr'. assert (r' = r) as -> by congruence.
    split; try done. intros _. by apply running_unfinished. }
  assert (Hc3 : core_ok s3) by (by apply core_ok_alter).
  assert (Hm3 : members_ok s3 t rs wl) by (by apply members_ok_alter).
  assert (Hr3 : objects s3 !! v = Some (f r)).
  { cbn. rewrite lookup_alter_eq. change (objects s2) with (objects s). by rewrite Hr. }
  assert (Hdone : ∀ s4 r4, core_ok s4 → members_ok s4 t rs wl → sched_frame s s4 → running s4 = run → waiting s4 = FCFSQueue w →
    encoder_cache_manager s4 = encoder_cache_manager s → kv_cache_manager s4 = m' →
    (∀ x, x ≠ v → objects s4 !! x = objects s !! x) → objects s4 !! v = Some r4 →
    status r4 = PREEMPTED → num_computed_tokens r4 = 0 →
    wp (request ← the_request v; on_waiting (λ w, prepend_request w request) ;; mret v)
      (λ v' s', v' = v ∧ core_ok s' ∧ members_ok s' t rs (v :: wl) ∧ running s' = run ∧
    waiting s' = FCFSQueue (v :: w) ∧ encoder_cache_manager s' = encoder_cache_manager s ∧
    sched_frame s s' ∧ ∀ x, x ≠ v → objects s' !! x = objects s !! x) s4).
  { intros s4 r4 Hc4 Hm4 Hfr4 Hru Hwa Hen Hkv Ho Hr4 Hst4 Hz. apply wp_bind. eapply wp_the_request; [exact Hr4|].
    unfold on_waiting. wp_steps. rewrite Hwa. cbn [prepend_request]. unfold FCFSRequestQueue.prepend_request.
    eapply wp_lift_outcome; [done|]. wp_steps.
    pose proof (ro_id _ _ _ _ (co_objects _ Hc4 v r4 Hr4)) as Hid4. rewrite Hid4.
    csplit; try done; [by destruct Hc4| |by destruct Hfr4]. destruct Hm4 as [Hmr Hmw]. split; [done|].
    intros x [-> |Hx]%elem_of_cons; [|by apply Hmw]. exists r4. csplit; try done.
    - cbn. by rewrite (sf_requests _ _ Hfr4).
    - by right; left.
    - cbn. by rewrite Hkv. }
  assert (Hfr3 : sched_frame s s3).
  { etransitivity; [|apply frame_alter]. split; try done. by destruct Hfr as (_ & ? & _). }
  assert (Ho3 : ∀ x, x ≠ v → objects s3 !! x = objects s !! x) by (intros x Hx; cbn; by rewrite lookup_alter_ne).
  apply wp_bind, wp_gets. apply wp_bind. destruct (cfg_log_stats (config s3)).
  - apply wp_update_request. set (s4 := set_objects _ s3).
    eapply Hdone; [by apply core_ok_alter|by apply members_ok_alter|etransitivity; [exact Hfr3|apply frame_alter]|done..| | | |].
    + intros x Hx. cbn. rewrite lookup_alter_ne by done. by apply Ho3.
    + cbn. rewrite !lookup_alter_eq. by rewrite Hr.
    + done.
    + done.
  - apply wp_ret. by eapply Hdone.
Qed.
End invariant.
