(* ===== verification/SchedulerRunning.v ===== *)
(** The loop of [schedule] over the running requests: slots for the request's tokens,
    preemption of the requests at the end of the list when there is no room, and the
    bookkeeping of the plan.  The loop ends within its fuel, raises nothing and keeps
    the invariant and the budget. *)
From Stdlib Require Import ZArith Lia QArith.
From stdpp Require Import base strings countable gmap sets fin_maps sorting list.
From S2P Require Import Prelude Request FreeBlockQueue BlockHash BlockPool KVCacheSpec SingleTypeManager KVCacheCoordinator KVCacheManager SlotContract RequestQueue EncoderCache SchedulerData Scheduler SchedulerEncoder SchedulerInvariant.
Local Open Scope Z_scope.

(** The tokens a plan gives a request. *)
Definition plan_t (p : Plan) (id : req_ref) : Z := default 0 (dict_get id (plan_tokens p)).

(** The plan against the budget [total], with every scheduled request in [rs]. *)
Record plan_ok (total : Z) (p : Plan) (rs : list req_ref) : Prop := {
  pl_perm : (plan_tokens p).*1 ≡ₚ scheduled_new p ++ scheduled_resumed p ++ scheduled_running p;
  pl_nodup : NoDup (plan_tokens p).*1;
  pl_subset : ∀ id, id ∈ (plan_tokens p).*1 → id ∈ rs;
  pl_blocks : ∀ id, id ∈ (plan_tokens p).*1 → is_Some (req_to_new_block_ids p !! id);
  pl_pos : ∀ n, n ∈ (plan_tokens p).*2 → 0 < n;
  pl_total : token_budget p + zsum (plan_tokens p).*2 = total;
  pl_budget : 0 <= token_budget p;
  pl_encoder : 0 <= encoder_budget p
}.

Section running.
Context {C G : Type} `{!KVConnector C, !StructuredOutputManager G}.
Context (hash_function : Z * list Z * option (list extra_key) → Z) (NONE_HASH : Z).
Context `{!SlotContract hash_function NONE_HASH}.
Context (tok : string → Z → Z).
Abbreviation Sched := (Scheduler C G).
Abbreviation St := (Sched * Plan)%type.
Abbreviation core_ok := (core_ok hash_function NONE_HASH tok).
Abbreviation members_ok := (members_ok hash_function NONE_HASH).
Abbreviation running_ok := (running_ok hash_function NONE_HASH).
Abbreviation waiting_ok := (waiting_ok hash_function NONE_HASH).
Implicit Types (s : Sched) (t : req_ref → Z) (rs wl w pre post : list req_ref) (r : req_ref) (p : Plan).

Definition upd_t (r : req_ref) (n : Z) t : req_ref → Z := λ x, if decide (x = r) then n else t x.

(** The scheduler part of the state inside the loops. *)
Record loop_ok s t rs w : Prop := {
  lp_waiting : waiting s = FCFSQueue w;
  lp_core : core_ok s;
  lp_running : running s = rs;
  lp_members : members_ok s t rs w;
  lp_nodup : NoDup (rs ++ w);
  lp_all : ∀ id, id ∈ requests s → id ∈ rs ++ w
}.

Lemma loop_ok_ext s t t' rs w : loop_ok s t rs w → (∀ x, x ∈ rs → t' x = t x) → loop_ok s t' rs w.
Proof.
  intros [? ? ? [Hr Hw] ?] Ht. split; try done. split; [|done]. intros x Hx. rewrite Ht by done. by apply Hr.
Qed.

(** A call of [allocate_slots] for the running request [r]. *)
Lemma loop_ok_allocated s t rs w r m' req n res :
  loop_ok s t rs w → r ∈ rs → t r = 0 → objects s !! r = Some req →
  slots_frame (.≠ r) (kv_cache_manager s) m' (obj_toks (objects s)) →
  has_slots m' (obj_toks (objects s)) r (num_computed_tokens req + res) → 0 <= res <= n →
  num_computed_tokens req + n <= num_tokens_with_spec req + num_output_placeholders req →
  num_computed_tokens req + n < max_model_len (config s) →
  loop_ok (set_kv m' s) (upd_t r res t) rs w.
Proof.
  intros [Hwa Hc Hru [Hr Hw] Hnd] Hin Ht Hreq Hf Hh Hn Hb1 Hb2. split; try done.
  - eapply core_ok_kv; [done|exact Hf|]. intros x Hx ->. congruence.
  - split.
    + intros x Hx. unfold upd_t. case_decide as E.
      * subst x. destruct (Hr r Hin) as (req' & Hreq' & ? & ? & ? & _). simplify_eq.
        exists req. csplit; try done; cbn; lia.
      * eapply running_ok_kv; [exact Hf|exact E|by apply Hr].
    + intros x Hx. eapply waiting_ok_kv; [exact Hf| |by apply Hw]. intros ->.
      apply NoDup_app in Hnd as (_ & Hd & _). by eapply Hd.
Qed.

Lemma loop_ok_kv_same s t rs w r m' req :
  loop_ok s t rs w → r ∈ rs → t r = 0 → objects s !! r = Some req →
  slots_frame (.≠ r) (kv_cache_manager s) m' (obj_toks (objects s)) →
  has_slots m' (obj_toks (objects s)) r (num_computed_tokens req) → loop_ok (set_kv m' s) t rs w.
Proof.
  intros Hl Hin Ht Hreq Hf Hh. destruct (mo_running _ _ _ _ _ _ (lp_members _ _ _ _ Hl) r Hin) as (req' & Hreq' & _ & _ & _ & _ & _ & Hb1 & Hb2).
  simplify_eq. rewrite Ht in Hb1, Hb2. eapply loop_ok_ext; [eapply (loop_ok_allocated _ _ _ _ _ _ _ 0 0); try done; [by rewrite Z.add_0_r]|].
  intros x _. unfold upd_t. case_decide; congruence.
Qed.

Lemma destruct_last {A} (l : list A) : (∃ l' x, l = l' ++ [x]) ∨ l = [].
Proof. destruct l as [|x l _] using rev_ind; [by right|left; by eexists _, _]. Qed.

(** Some requests at the end of the list have been preempted. *)
Definition preempted_some p p' : Prop := ∃ l, p' = set_preempted (preempted_reqs p ++ l) p.

(** What [allocate_or_preempt] leaves for a request in the list after [pre]. *)
Definition slots_or_preempted s p t pre post r n (res : option KVCacheBlocks) (st : St) : Prop :=
  preempted_some p (snd st) ∧ sched_frame s (fst st) ∧
  encoder_cache_manager (fst st) = encoder_cache_manager s ∧
  (∀ x, x ∈ pre → objects (fst st) !! x = objects s !! x) ∧
  match res with
  | Some bls => ∃ post' w', post' `prefix_of` post ∧ loop_ok (fst st) (upd_t r n t) (pre ++ r :: post') w' ∧
      objects (fst st) !! r = objects s !! r ∧ ∃ ids, get_block_ids (the_pool (kv_cache_manager (fst st))) bls = Ok ids
  | None => (∃ w', loop_ok (fst st) t pre w') ∧ preempted_reqs (snd st) ≠ []
  end.

Lemma loop_ok_preempt now s t rs v w :
  loop_ok s t (rs ++ [v]) w →
  wp (preempt now) (λ v' s', v' = v ∧ loop_ok s' t rs (v :: w) ∧ encoder_cache_manager s' = encoder_cache_manager s ∧
    sched_frame s s' ∧ ∀ x, x ≠ v → objects s' !! x = objects s !! x) s.
Proof.
  intros [Hwa Hc Hru [Hr Hw] Hnd Hall]. destruct (Hr v) as (req & Hreq & Hin & Hstat & _); [set_solver|].
  rewrite <- app_assoc in Hnd. cbn [app] in Hnd. pose proof Hnd as (Hnd1 & Hd & Hnd2)%NoDup_app.
  apply NoDup_cons in Hnd2 as [Hvw _].
  eapply wp_mono; [apply (preempt_spec hash_function NONE_HASH tok now s t rs w rs v w); try done|].
  - split; [|done]. intros x Hx. apply Hr. set_solver.
  - intros Hv. apply (Hd v Hv). by left.
  - by exists req.
  - intros v' s' (-> & Hc' & Hm' & Hru' & Hwa' & He & Hf & Ho). split_and!; try done. split; try done.
    intros x Hx. rewrite (sf_requests _ _ Hf) in Hx. apply Hall in Hx. set_solver.
Qed.

Lemma allocate_or_preempt_spec fuel r n now pre req : ∀ s p t post w,
  loop_ok s t (pre ++ r :: post) w → t r = 0 → objects s !! r = Some req →
  0 < n → num_computed_tokens req + n <= num_tokens_with_spec req + num_output_placeholders req →
  num_computed_tokens req + n < max_model_len (config s) → (length post < fuel)%nat →
  wp (allocate_or_preempt hash_function NONE_HASH fuel r n now) (slots_or_preempted s p t pre post r n) (s, p).
Proof.
  induction fuel as [|fuel IH]; intros s p t post w Hl Ht Hreq Hn Hb1 Hb2 Hfuel; [lia|].
  cbn [allocate_or_preempt]. unfold on_plan. pose proof (lp_core _ _ _ _ Hl) as Hc.
  assert (Hin : r ∈ pre ++ r :: post) by set_solver.
  pose proof (ro_id _ _ _ _ _ (co_objects _ _ _ _ Hc r req Hreq)) as Hid.
  destruct (mo_running _ _ _ _ _ _ (lp_members _ _ _ _ Hl) r Hin) as (req' & Hreq' & _ & Hstat & Hc0 & _ & Hh & _ & _).
  assert (req' = req) as -> by congruence. rewrite Ht, Z.add_0_r in Hh.
  apply wp_bind, wp_zoom. eapply wp_the_request; [exact Hreq|]. wp_steps. apply wp_bind, wp_zoom, wp_zoom. cbn [fst snd].
  eapply wp_mono; [apply (continue_law (kv_cache_manager s) (obj_toks (objects s)))|].
  1: apply Hc. 1: by eapply request_fits_ok, running_unfinished. 1: by rewrite Hid. 1,2: lia. 1: rewrite (co_limit _ _ _ _ Hc); lia.
  1: apply (cf_lookahead _ (co_config _ _ _ _ Hc)).
  rewrite Hid. intros [bls|] m' [Hf Hres].
  - wp_steps. split; [exists []; rewrite app_nil_r; by destruct p|]. split; [split; try done; by apply Hf|]. split; [done|]. split; [done|].
    destruct Hres as [Hslots Hids]. exists post, w. split; [done|]. split; [|done].
    eapply (loop_ok_allocated _ _ _ _ _ _ req n n); try done; lia.
  - assert (Hl' : loop_ok (set_kv m' s) t (pre ++ r :: post) w) by (by eapply loop_ok_kv_same).
    set (s1 := set_kv m' s) in *. assert (Hf1 : sched_frame s s1) by (split; try done; by apply Hf).
    wp_steps. apply wp_zoom. cbn [fst snd].
    assert (Hpre_ne : ∀ y, y ∈ r :: post → y ∉ pre).
    { intros y Hy Hyp. pose proof (lp_nodup _ _ _ _ Hl) as (Hnd & _)%NoDup_app.
      apply NoDup_app in Hnd as (_ & Hd & _). by apply (Hd y). }
    destruct (destruct_last post) as [(post0 & v & ->)| ->].
    + eapply wp_mono; [apply (loop_ok_preempt now s1 t (pre ++ r :: post0) v w); by rewrite <- app_assoc|].
      intros v' s2 (-> & Hl2 & He2 & Hf2 & Ho2). wp_steps. cbn [fst snd].
      assert (Hvr : v ≠ r).
      { intros ->. pose proof (lp_nodup _ _ _ _ Hl) as Hnd. apply NoDup_app in Hnd as (Hnd & _).
        apply NoDup_app in Hnd as (_ & _ & Hnd). apply NoDup_cons in Hnd as [Hnd _]. set_solver. }
      rewrite decide_False by done. rewrite length_app in Hfuel. cbn in Hfuel.
      eapply wp_mono; [eapply (IH s2 _ t post0); [exact Hl2|done|by rewrite Ho2|done|done| |lia]|].
      { rewrite (sf_config _ _ Hf2). done. }
      intros res [s3 p3] ((l & Hp3) & Hf3 & He3 & Hpre3 & Hres3). cbn [fst snd] in *.
      split; [exists (v :: l); rewrite Hp3; cbn; by rewrite <- app_assoc|].
      split; [by etransitivity; [|etransitivity]|]. split; [cbn [fst]; by rewrite He3, He2|].
      split; [intros x Hx; cbn [fst]; rewrite Hpre3 by done; apply Ho2; intros ->; apply (Hpre_ne v); [set_solver|done]|].
      destruct res as [bls|].
      * destruct Hres3 as (post' & w' & [k ->] & Hl3 & Ho3 & Hids). exists post', w'.
        split; [exists (k ++ [v]); by rewrite app_assoc|]. split; [done|]. split; [|done].
        cbn [fst]. rewrite Ho3. by apply Ho2.
      * done.
    + eapply wp_mono; [apply (loop_ok_preempt now s1 t pre r w); done|].
      intros v' s2 (-> & Hl2 & He2 & Hf2 & Ho2). wp_steps. cbn [fst snd]. rewrite decide_True by done. wp_steps.
      split; [by eexists|]. cbn [fst snd]. split; [by etransitivity|]. split; [by rewrite He2|].
      split; [intros x Hx; apply Ho2; intros ->; apply (Hpre_ne r); [by left|done]|]. split; [by eexists|].
      destruct (preempted_reqs p); done.
Qed.

(** ** Encoder inputs and draft tokens *)
Lemma core_ok_encoder s ecm :
  core_ok s → enc_inv tok ecm →
  (∀ (id : req_ref) i, i ∈ ids_of ecm id → i ∈ ids_of (encoder_cache_manager s) id ∨
     ∃ req, objects s !! id = Some req ∧ input_of req i) →
  core_ok (set_encoder ecm s).
Proof.
  intros Hc He Hi. destruct Hc. split; try done; cbn.
  - intros id req i Hr Hin. destruct (Hi id i Hin) as [?|(req' & Hr' & ?)]; [by eapply co_cached|]. by assert (req = req') as -> by (cbn in Hr; congruence).
  - intros id Hid. destruct (co_fresh id Hid) as [? Hempty]. split; [done|].
    apply set_eq. intros i. split; [|set_solver]. intros [Hin|(req' & ? & _)]%Hi; [by rewrite Hempty in Hin|congruence].
Qed.

Lemma loop_ok_encoder s t rs w ecm : loop_ok s t rs w → core_ok (set_encoder ecm s) → loop_ok (set_encoder ecm s) t rs w.
Proof. intros [Hwa Hc Hru Hm Hnd] Hc'. split; try done. by destruct Hm. Qed.

Definition new_inputs (request : Request) (ecm : EncoderCacheManager) (inputs : list Z) : Prop :=
  NoDup inputs ∧ ∀ i, i ∈ inputs → input_of request i ∧ has_cache ecm request i = false.

Lemma set_encoder_same s : set_encoder (encoder_cache_manager s) s = s.
Proof. by destruct s. Qed.

Lemma allocate_inputs_spec (request : Request) inputs : ∀ s p,
  core_ok s → (∃ req0, objects s !! request_id request = Some req0 ∧ params req0 = params request) →
  new_inputs request (encoder_cache_manager s) inputs →
  wp (for_each inputs (λ i, on_sched (on_encoder (EncoderCache.allocate request i))))
    (λ _ st, ∃ ecm, st = (set_encoder ecm s, p) ∧ core_ok (set_encoder ecm s)) (s, p).
Proof.
  induction inputs as [|i inputs IH]; intros s p Hc Hreq [Hnd Hin]; cbn [for_each].
  - apply wp_ret. exists (encoder_cache_manager s). by rewrite set_encoder_same.
  - apply NoDup_cons in Hnd as [Hni Hnd]. destruct (Hin i) as [Hof Hca]; [by left|].
    destruct Hreq as (req0 & Hreq0 & Hp).
    assert (Htok : tok_of tok request).
    { pose proof (ro_tok _ _ _ _ _ (co_objects _ _ _ _ Hc _ _ Hreq0)) as Ht. intros j Hj. unfold tok_of, get_num_encoder_tokens in *.
      rewrite Hp in Ht. by apply Ht. }
    apply wp_bind, wp_zoom, wp_zoom. cbn [fst snd].
    eapply wp_mono; [by apply (EncoderCache.allocate_spec tok); [apply Hc|..]|].
    intros _ ecm (He & _ & _ & _ & Hids). set (s1 := set_encoder ecm s).
    assert (Hc1 : core_ok s1).
    { apply core_ok_encoder; [done|done|]. intros id j. rewrite Hids. case_decide as E; [|by left].
      subst id. intros [->%elem_of_singleton|Hj]%elem_of_union; [|by left].
      right. exists req0. split; [done|]. unfold input_of in *. by rewrite Hp. }
    eapply wp_mono; [apply (IH s1 p Hc1)|].
    + by exists req0.
    + split; [done|]. intros j Hj. destruct (Hin j) as [? Hcj]; [by right|]. split; [done|].
      unfold has_cache in *. apply bool_decide_eq_false in Hcj. apply bool_decide_eq_false. cbn.
      unfold get_cached_input_ids in *. change (default ∅ (cached ecm !! request_id request)) with (ids_of ecm (request_id request)).
      rewrite Hids, decide_True by done. intros [->%elem_of_singleton|?]%elem_of_union; done.
    + intros _ st (ecm2 & -> & Hc2). by exists ecm2.
Qed.

(** [schedule_encoder_inputs] changes the plan's encoder part only. *)
Definition same_tokens p p' : Prop :=
  plan_tokens p' = plan_tokens p ∧ scheduled_new p' = scheduled_new p ∧ scheduled_resumed p' = scheduled_resumed p ∧
  scheduled_running p' = scheduled_running p ∧ req_to_new_block_ids p' = req_to_new_block_ids p ∧
  token_budget p' = token_budget p ∧ preempted_reqs p' = preempted_reqs p.

Lemma plan_ok_same total p p' rs :
  same_tokens p p' → 0 <= encoder_budget p' → plan_ok total p rs → plan_ok total p' rs.
Proof.
  intros (Ht & Hn & Hr & Hru & Hb & Hbu & _) He [? ? ? ? ? ? ? ?]. split; rewrite ?Ht, ?Hn, ?Hr, ?Hru, ?Hb, ?Hbu; done.
Qed.

Lemma schedule_encoder_inputs_spec (request : Request) inputs budget s p :
  core_ok s → (∃ req0, objects s !! request_id request = Some req0 ∧ params req0 = params request) →
  new_inputs request (encoder_cache_manager s) inputs → 0 <= encoder_budget p → 0 <= budget →
  wp (schedule_encoder_inputs request inputs budget)
    (λ _ st, ∃ ecm p', st = (set_encoder ecm s, p') ∧ core_ok (set_encoder ecm s) ∧ same_tokens p p' ∧
       req_index p' = req_index p ∧ 0 <= encoder_budget p' ∧ plan_spec_tokens p' = plan_spec_tokens p) (s, p).
Proof.
  intros Hc Hreq Hin Hb0 Hb. unfold schedule_encoder_inputs, on_plan.
  destruct inputs as [|i inputs].
  - apply wp_ret. exists (encoder_cache_manager s), p. rewrite set_encoder_same. by split_and!.
  - wp_steps. cbn [fst snd]. eapply wp_mono; [by eapply allocate_inputs_spec|].
    intros _ st (ecm & -> & ?). eexists ecm, _. split; [done|]. by split_and!.
Qed.

(** A scheduled request is computed up to its last draft token at most, and its
    scheduled draft tokens come after all of its tokens. *)
Definition computed_to (req : Request) (n : Z) (drafts : list Z) : Prop :=
  num_computed_tokens req + n <= num_tokens req + len drafts + num_output_placeholders req ∧
  (drafts ≠ [] → num_tokens req + len drafts <= num_computed_tokens req + n ∧ spec_token_ids req = drafts).
Implicit Types (objs : gmap req_ref Request).
Definition draft_ok objs p (id : req_ref) : Prop :=
  ∃ req, objs !! id = Some req ∧ computed_to req (plan_t p id) (default [] (plan_spec_tokens p !! id)).

(** The same of all scheduled requests that satisfy [P]. *)
Record drafts_where (P : req_ref → Prop) objs p : Prop := {
  dr_scheduled : ∀ id, id ∈ (plan_tokens p).*1 → P id → draft_ok objs p id;
  dr_keys : ∀ id, is_Some (plan_spec_tokens p !! id) → id ∈ (plan_tokens p).*1
}.
Abbreviation drafts_ok := (drafts_where (λ _, True)).

Lemma drafts_keep (P P' : req_ref → Prop) objs objs' p p' :
  drafts_where P objs p → plan_spec_tokens p' = plan_spec_tokens p →
  (∀ id, id ∈ (plan_tokens p').*1 → P' id → P id ∧ (id ∈ (plan_tokens p).*1) ∧
     objs' !! id = objs !! id ∧ plan_t p' id = plan_t p id) →
  (∀ id, id ∈ (plan_tokens p).*1 → id ∈ (plan_tokens p').*1) →
  drafts_where P' objs' p'.
Proof.
  intros [Hd Hk] Hs Ho Hsub. split; [|intros id; rewrite Hs; by intros ?%Hk%Hsub].
  intros id Hin HP. destruct (Ho id Hin HP) as (HP' & Hin' & E1 & E2).
  unfold draft_ok. rewrite E1, E2, Hs. by apply Hd.
Qed.

(** One request is added to the plan. *)
Lemma drafts_commit objs p p1 r n :
  drafts_ok objs p → plan_tokens p1 = dict_set r n (plan_tokens p) → plan_spec_tokens p1 = plan_spec_tokens p →
  drafts_where (.≠ r) objs p1.
Proof.
  intros Hd Ht Hs. eapply drafts_keep; [exact Hd|exact Hs| |].
  - intros id Hin Hne. rewrite Ht, dict_set_keys in Hin. split; [done|]. split; [by destruct Hin|]. split; [done|].
    unfold plan_t. rewrite Ht, dict_get_set. by rewrite decide_False.
  - intros id Hin. rewrite Ht, dict_set_keys. by right.
Qed.
Lemma drafts_add objs p r : drafts_where (.≠ r) objs p → draft_ok objs p r → drafts_ok objs p.
Proof.
  intros [Hd Hk] Hr. split; [|done]. intros id Hin _. destruct (decide (id = r)) as [->|Hne]; [done|by apply Hd].
Qed.

(** The draft tokens beyond the scheduled ones are dropped. *)
Lemma schedule_spec_tokens_spec (request : Request) s t rs w r n p :
  loop_ok s t rs w → objects s !! r = Some request → r ∈ rs → t r = n →
  plan_t p r = n → r ∈ (plan_tokens p).*1 → plan_spec_tokens p !! r = None →
  wp (schedule_spec_tokens r request n)
    (λ _ st, loop_ok (fst st) t rs w ∧ same_tokens p (snd st) ∧ req_index (snd st) = req_index p ∧
       encoder_budget (snd st) = encoder_budget p ∧ sched_frame s (fst st) ∧
       (drafts_where (.≠ r) (objects s) p → drafts_ok (objects (fst st)) (snd st)) ∧
       encoder_cache_manager (fst st) = encoder_cache_manager s ∧
       ∃ req0, objects (fst st) !! r = Some req0 ∧ params req0 = params request) (s, p).
Proof.
  intros Hl Hr Hin Ht Hpt Hpin Hpn. unfold schedule_spec_tokens, on_plan. set (spec := spec_token_ids request).
  destruct (mo_running _ _ _ _ _ _ (lp_members _ _ _ _ Hl) r Hin) as (request' & Hr' & Hq & Hst & Hc0 & Ht0 & Hsl & Hb1 & Hb2).
  assert (request' = request) as -> by congruence. unfold num_tokens_with_spec in Hb1. fold spec in Hb1.
  pose proof (co_objects _ _ _ _ (lp_core _ _ _ _ Hl) r request Hr) as Hro.
  pose proof (ro_placeholders _ _ _ _ _ Hro) as Hpl. pose proof (ro_drafts _ _ _ _ _ Hro) as Hdr. fold spec in Hdr.
  assert (Hno : num_computed_tokens request + n <= num_tokens request + num_output_placeholders request →
    wp (mret tt) (λ _ st, loop_ok (fst st) t rs w ∧ same_tokens p (snd st) ∧ req_index (snd st) = req_index p ∧
       encoder_budget (snd st) = encoder_budget p ∧ sched_frame s (fst st) ∧
       (drafts_where (.≠ r) (objects s) p → drafts_ok (objects (fst st)) (snd st)) ∧
       encoder_cache_manager (fst st) = encoder_cache_manager s ∧
       ∃ req0, objects (fst st) !! r = Some req0 ∧ params req0 = params request) (s, p)).
  { intros Hle. apply wp_ret. cbn [fst snd]. split_and!; try done; [|by exists request]. intros Hd.
    eapply drafts_add; [exact Hd|]. exists request. rewrite Hpn, Hpt. split; [done|].
    split; [cbn [default]; unfold len in *; cbn [length]; lia|done]. }
  destruct spec as [|x l] eqn:Hspec.
  { apply Hno. rewrite Ht, len_nil in Hb1. unfold num_tokens. lia. }
  rewrite <- Hspec in *. cbv zeta.
  destruct (decide (n + num_computed_tokens request - num_tokens request > 0)) as [Hk|]; [|apply Hno; lia].
  set (k := n + num_computed_tokens request - num_tokens request) in *.
  apply wp_bind, wp_zoom, wp_update_request. wp_steps. cbn [fst snd].
  set (f := set_spec_token_ids (slice_to k spec)). destruct Hl as [Hwa Hc Hru [Hmr Hmw] Hnd Hall].
  assert (Hk0 : len (slice_to k spec) = Z.min k (len spec)).
  { unfold slice_to, slice_bound, len. rewrite decide_False by lia. rewrite length_take. lia. }
  destruct (core_ok_alter hash_function NONE_HASH tok s r f Hc) as [Hc' Hh].
  { intros r1 Hr1. assert (r1 = request) as -> by congruence. split; try done. unfold f. cbn. fold spec. lia. }
  split_and!; try done.
  - split; try done. split.
    + intros y Hy. destruct (decide (y = r)) as [->|Hne].
      * exists (f request). csplit; try done; [cbn; by rewrite lookup_alter_eq, Hr|by apply Hh|].
        unfold f, num_tokens_with_spec. cbn. unfold k, num_tokens in *. lia.
      * destruct (Hmr y Hy) as (ry & ? & ? & ? & ? & ? & ? & ? & ?). exists ry. csplit; try done; [|by apply Hh].
        cbn. by rewrite lookup_alter_ne.
    + intros y Hy. destruct (Hmw y Hy) as (ry & ? & ? & ? & ? & ?). exists ry. csplit; try done.
      cbn. rewrite lookup_alter_ne; [done|]. intros <-. apply NoDup_app in Hnd as (_ & Hd & _). by eapply Hd.
  - apply frame_alter.
  - intros Hd. apply (drafts_add _ _ r); cbn [fst snd].
    + destruct Hd as [Hd Hks]. split.
      * intros id Hid Hne. destruct (Hd id Hid Hne) as (req & Hreq & Hto). exists req. cbn.
        rewrite lookup_alter_ne, lookup_insert_ne by done. done.
      * intros id. cbn. intros [v [[<- _]|[_ Hv]]%lookup_insert_Some]; [done|]. apply Hks. by eexists.
    + exists (f request). cbn. rewrite lookup_alter_eq, Hr, lookup_insert_eq. split; [done|].
      fold (plan_t p r). rewrite Hpt. unfold computed_to, f. cbn. unfold k, num_tokens in *. cbn.
      split; [|intros _; split; [|done]]; lia.
  - exists (f request). cbn. by rewrite lookup_alter_eq, Hr.
Qed.

(** ** The plan *)
Lemma plan_ok_commit total p p1 rs r n ids :
  plan_ok total p rs → (r ∉ (plan_tokens p).*1) → 0 < n → n <= token_budget p →
  plan_tokens p1 = dict_set r n (plan_tokens p) →
  scheduled_new p1 ++ scheduled_resumed p1 ++ scheduled_running p1
    ≡ₚ r :: (scheduled_new p ++ scheduled_resumed p ++ scheduled_running p) →
  req_to_new_block_ids p1 = <[r := ids]> (req_to_new_block_ids p) →
  token_budget p1 = token_budget p - n → encoder_budget p1 = encoder_budget p →
  plan_ok total p1 (rs ++ [r]).
Proof.
  intros [Hp Hnd Hs Hb Hpos Ht Hbu He] Hr Hn Hle Ht1 Hp1 Hb1 Hbu1 He1. rewrite dict_set_new in Ht1 by done.
  split; rewrite ?Ht1, ?Hb1, ?Hbu1, ?He1, ?fmap_app; cbn.
  - rewrite Hp1, <- Hp. by rewrite Permutation_app_comm.
  - apply NoDup_app. split_and!; [done| |by apply NoDup_singleton]. by intros x Hx ->%list_elem_of_singleton.
  - intros x [Hx| ->%list_elem_of_singleton]%elem_of_app; apply elem_of_app; [left; by apply Hs|right; by left].
  - intros x [Hx| ->%list_elem_of_singleton]%elem_of_app; [|by rewrite lookup_insert_eq].
    rewrite lookup_insert_ne; [by apply Hb|]. by intros <-.
  - intros x [Hx| ->%list_elem_of_singleton]%elem_of_app; [by apply Hpos|done].
  - rewrite zsum_app. cbn. lia.
  - lia.
  - done.
Qed.

Lemma plan_t_none p r : r ∉ (plan_tokens p).*1 → plan_t p r = 0.
Proof.
  unfold plan_t. intros Hr. induction (plan_tokens p) as [|[k v] d IH]; simpl in *; [done|].
  apply not_elem_of_cons in Hr as [? ?]. rewrite decide_False by congruence. by apply IH.
Qed.
Lemma plan_t_commit p p1 r n : plan_tokens p1 = dict_set r n (plan_tokens p) → ∀ x, plan_t p1 x = upd_t r n (plan_t p) x.
Proof. intros E x. unfold plan_t, upd_t. rewrite E, dict_get_set. by case_decide. Qed.

Lemma new_tokens_running_bounds cfg (request : Request) budget (n := new_tokens_running cfg request budget) :
  num_computed_tokens request <= num_tokens_with_spec request + num_output_placeholders request →
  num_computed_tokens request < max_model_len cfg → 0 <= budget →
  0 <= n ∧ n <= budget ∧ num_computed_tokens request + n <= num_tokens_with_spec request + num_output_placeholders request ∧
  num_computed_tokens request + n < max_model_len cfg.
Proof. intros H1 H2 H3. unfold n, new_tokens_running. case_decide; lia. Qed.

(** ** One running request *)

(** The loop is at the request after [pre]. *)
Definition at_request total pre rest w (st : St) : Prop :=
  loop_ok (fst st) (plan_t (snd st)) (pre ++ rest) w ∧ plan_ok total (snd st) pre ∧ req_index (snd st) = len pre ∧
  scheduled_new (snd st) = [] ∧ scheduled_resumed (snd st) = [] ∧ drafts_ok (objects (fst st)) (snd st).

Lemma at_request_fresh total pre rest w r st : at_request total pre (r :: rest) w st → plan_t (snd st) r = 0 ∧ (r ∉ (plan_tokens (snd st)).*1).
Proof.
  intros (Hl & Hp & _). assert (r ∉ (plan_tokens (snd st)).*1) as Hr; [|split; [by apply plan_t_none|done]].
  intros Hin%(pl_subset _ _ _ Hp). pose proof (lp_nodup _ _ _ _ Hl) as Hnd.
  apply NoDup_app in Hnd as (Hnd & _). apply NoDup_app in Hnd as (_ & Hd & _). apply (Hd r Hin). by left.
Qed.

Definition running_step_post total pre r post s (go : bool) (st : St) : Prop :=
  sched_frame s (fst st) ∧
  if go then ∃ post' w', post' `prefix_of` post ∧ at_request total (pre ++ [r]) post' w' st
  else (∃ w', at_request total pre [] w' st) ∧ preempted_reqs (snd st) ≠ [].

Lemma encoder_part_spec cfg ecm (request : Request) (n budget : Z) :
  tok_of tok request → len (mm_inputs request) = len (mm_positions request) → 0 <= n → 0 <= budget →
  ∃ inputs n' budget',
    (if has_encoder_inputs request then
       _try_schedule_encoder_inputs cfg ecm request (num_computed_tokens request) n budget
     else Ok ([], n, budget)) = Ok (inputs, n', budget') ∧
    0 <= n' <= n ∧ new_inputs request ecm inputs ∧ 0 <= budget'.
Proof.
  intros Ht Hl Hn Hb. destruct (has_encoder_inputs request).
  - destruct (try_schedule_encoder_inputs_spec tok cfg ecm request (num_computed_tokens request) n budget Ht Hl Hn)
      as (inputs & n' & b' & -> & [Hn' Hnd Hin _ Hb' _]). exists inputs, n', b'. csplit; [done|lia|lia|done|by apply Hb'].
  - exists [], n, budget. split_and!; try done. split; [by apply NoDup_nil_2|by intros i ?%not_elem_of_nil].
Qed.

(** The bookkeeping of a running request that got its slots. *)
Lemma record_running_spec total (req : Request) s p pre post r w n ids inputs budget :
  loop_ok s (upd_t r n (plan_t p)) (pre ++ r :: post) w → plan_ok total p pre → req_index p = len pre →
  scheduled_new p = [] ∧ scheduled_resumed p = [] → drafts_ok (objects s) p → (r ∉ (plan_tokens p).*1) → objects s !! r = Some req →
  0 < n → n <= token_budget p → new_inputs req (encoder_cache_manager s) inputs → 0 <= budget →
  wp (on_plan (λ p, set_scheduled_running (scheduled_running p ++ [r]) p) ;;
      (if use_structured_output req then
         on_plan (λ p, set_structured_ids (<[r := req_index p]> (structured_ids p)) p)
       else mret tt) ;;
      on_plan (commit_tokens r n ids) ;;
      on_plan (λ p, set_req_index (req_index p + 1) p) ;;
      schedule_spec_tokens r req n ;;
      schedule_encoder_inputs req inputs budget ;;
      mret true)
    (λ go st, go = true ∧ sched_frame s (fst st) ∧ ∃ w', at_request total (pre ++ [r]) post w' st) (s, p).
Proof.
  intros Hl Hp Hidx [Hnew Hres] Hdr Hfresh Hreq Hn Hle Hin Hb. unfold on_plan. wp_steps. cbn [fst snd].
  set (pa := set_scheduled_running _ p).
  assert (Hstr : wp (if use_structured_output req then
         modify (λ x : St, (fst x, set_structured_ids (<[r := req_index (snd x)]> (structured_ids (snd x))) (snd x)))
       else mret tt) (λ _ st, ∃ m, st = (s, set_structured_ids m pa)) (s, pa)).
  { destruct (use_structured_output req); wp_steps; [by eexists|]. exists (structured_ids pa). by destruct pa. }
  eapply wp_mono; [exact Hstr|]. intros _ st [m ->]. wp_steps. cbn [fst snd].
  set (p1 := set_req_index _ _). pose proof (ro_id _ _ _ _ _ (co_objects _ _ _ _ (lp_core _ _ _ _ Hl) r req Hreq)) as Hid.
  assert (Hp1 : plan_ok total p1 (pre ++ [r])).
  { eapply (plan_ok_commit total p); try done. cbn. rewrite Hnew, Hres. cbn. by rewrite Permutation_app_comm. }
  assert (Hl1 : loop_ok s (plan_t p1) (pre ++ r :: post) w).
  { eapply loop_ok_ext; [exact Hl|]. intros x _. by apply plan_t_commit. }
  assert (Hin1 : r ∈ pre ++ r :: post) by set_solver.
  eapply wp_mono; [apply (schedule_spec_tokens_spec req s _ _ w r n p1 Hl1 Hreq Hin1)|].
  1,2: rewrite (plan_t_commit p p1 r n eq_refl); unfold upd_t; by rewrite decide_True.
  { cbn. rewrite dict_set_keys. by left. }
  { change (plan_spec_tokens p1) with (plan_spec_tokens p). apply eq_None_not_Some. by intros ?%(dr_keys _ _ _ Hdr). }
  intros _ [s2 p2] (Hl2 & Hs2 & Hi2 & He2 & Hf2 & Hdr2 & Hec2 & req2 & Hr2 & Hpar2). cbn [fst snd] in *. apply wp_bind.
  eapply wp_mono; [apply (schedule_encoder_inputs_spec req inputs budget s2 p2 (lp_core _ _ _ _ Hl2))|].
  - rewrite Hid. by exists req2.
  - by rewrite Hec2.
  - rewrite He2. apply Hp1.
  - done.
  - intros _ st (ecm & p3 & -> & Hc3 & Hs3 & Hi3 & He3 & Hspec3). apply wp_ret. split; [done|].
    split; [etransitivity; [exact Hf2|by split]|].
    exists w. assert (Hs13 : same_tokens p1 p3).
    { destruct Hs2 as (? & ? & ? & ? & ? & ? & ?), Hs3 as (? & ? & ? & ? & ? & ? & ?). split_and!; congruence. }
    split_and!; cbn [fst snd].
    + rewrite <- app_assoc. eapply loop_ok_ext; [apply loop_ok_encoder; [exact Hl2|done]|].
      intros x _. unfold plan_t. by destruct Hs13 as (-> & _).
    + by eapply plan_ok_same.
    + rewrite Hi3, Hi2. cbn. rewrite Hidx, len_app. done.
    + destruct Hs13 as (_ & -> & _). done.
    + destruct Hs13 as (_ & _ & -> & _). done.
    + assert (Hdr1 : drafts_where (.≠ r) (objects s) p1) by (by eapply drafts_commit).
      pose proof Hs3 as (Ht3 & _). eapply drafts_keep; [exact (Hdr2 Hdr1)|exact Hspec3| |by rewrite Ht3].
      intros id Hid0 _. unfold plan_t. rewrite Ht3 in *. done.
Qed.

Lemma schedule_running_one_spec total now r pre post w s p :
  at_request total pre (r :: post) w (s, p) → 0 < token_budget p →
  wp (schedule_running_one hash_function NONE_HASH now r) (running_step_post total pre r post s) (s, p).
Proof.
  intros Hat Hbud. destruct (at_request_fresh _ _ _ _ _ _ Hat) as [Ht0 Hfresh].
  destruct Hat as (Hl & Hp & Hidx & Hnew & Hres & Hdr). cbn [fst snd] in *.
  pose proof (lp_core _ _ _ _ Hl) as Hc. assert (Hin : r ∈ pre ++ r :: post) by set_solver.
  destruct (mo_running _ _ _ _ _ _ (lp_members _ _ _ _ Hl) r Hin) as (req & Hreq & Hq & Hst & Hc0 & _ & Hh & Hb1 & Hb2).
  rewrite Ht0, Z.add_0_r in Hb1, Hb2. pose proof (co_objects _ _ _ _ Hc r req Hreq) as Hro.
  unfold schedule_running_one, on_plan, plan_of. apply wp_bind, wp_zoom. eapply wp_the_request; [exact Hreq|].
  apply wp_bind, wp_zoom, wp_gets, wp_bind, wp_gets, wp_bind, wp_zoom, wp_gets. cbn [fst snd].
  destruct (new_tokens_running_bounds (config s) req (token_budget p)) as (Hn0 & Hnb & Hnt & Hnm); [lia|lia|lia|].
  set (n := new_tokens_running (config s) req (token_budget p)) in *.
  destruct (encoder_part_spec (config s) (encoder_cache_manager s) req n (encoder_budget p)) as (inputs & n' & b' & Henc & Hn' & Hinputs & Hb');
    [apply Hro|apply Hro|done|apply Hp|]. 
  apply wp_bind. eapply wp_lift_outcome; [exact Henc|]. cbv beta iota.
  destruct (decide (n' = 0)) as [Hz|Hz].
  - wp_steps. cbn [fst snd]. split; [done|]. exists post, w. split; [done|].
    split_and!; cbn [fst snd]; try done.
    + by rewrite <- app_assoc.
    + destruct Hp as [? ? Hs ? ? ? ? ?]. split; try done. intros x Hx. apply elem_of_app. left. by apply Hs.
    + cbn. rewrite Hidx, len_app. done.
    + by eapply drafts_keep.
  - apply wp_bind, wp_zoom, wp_gets. cbn [fst snd]. apply wp_bind.
    eapply wp_mono; [eapply (allocate_or_preempt_spec _ r n' now pre req s p _ post w Hl Ht0 Hreq)|].
    1-3: lia. { rewrite (lp_running _ _ _ _ Hl), length_app. cbn. lia. }
    intros res [s1 p1] ([l Hp1] & Hf1 & He1 & Hpre1 & Hr1). cbn [fst snd] in *.
    assert (Hdr1 : drafts_ok (objects s1) p1).
    { subst p1. eapply drafts_keep; [exact Hdr|done| |done]. intros x Hx _. split; [done|]. split; [done|]. split; [|done].
      by apply Hpre1, (pl_subset _ _ _ Hp). }
    destruct res as [bls|].
    + destruct Hr1 as (post' & w' & Hpre & Hl1 & Ho1 & [ids Hids]). 
      cbn [fst snd] in *. rewrite Hreq in Ho1.
      apply wp_bind, wp_zoom. eapply wp_the_request; [exact Ho1|].
      apply wp_bind, wp_zoom, wp_gets. cbn [fst snd]. apply wp_bind. eapply wp_lift_outcome; [exact Hids|].
      eapply wp_mono; [apply (record_running_spec total req s1 p1 pre post' r w' n' ids inputs b'); try done|].
      * subst p1. eapply loop_ok_ext; [exact Hl1|done].
      * subst p1. by destruct Hp.
      * subst p1. by apply Hidx.
      * subst p1. split; [apply Hnew|apply Hres].
      * subst p1. done.
      * lia.
      * subst p1. cbn. lia.
      * by rewrite He1.
      * intros go st (-> & Hf & w2 & Hat). split; [by etransitivity|]. by exists post', w2.
    + destruct Hr1 as [[w' Hl1] Hne]. cbn [fst snd] in *. apply wp_ret. split; [done|]. split; [|done]. exists w'. subst p1.
      split_and!; cbn [fst snd]; try done; [by rewrite app_nil_r|by destruct Hp].
Qed.

(** ** The loop *)
Lemma prefix_length_le {A} (l k : list A) : l `prefix_of` k → (length l <= length k)%nat.
Proof. apply prefix_length. Qed.

Lemma schedule_running_spec total now fuel : ∀ s p pre rest w,
  at_request total pre rest w (s, p) → (length rest < fuel)%nat →
  wp (schedule_running hash_function NONE_HASH fuel now) (λ _ st, sched_frame s (fst st) ∧
    ∃ pre' rest' w', at_request total pre' rest' w' st ∧ (rest' = [] ∨ token_budget (snd st) = 0) ∧
      (length (pre' ++ rest') <= length (pre ++ rest))%nat) (s, p).
Proof.
  induction fuel as [|fuel IH]; intros s p pre rest w Hat Hf; [lia|]. cbn [schedule_running].
  pose proof Hat as (Hl & Hp & Hidx & _). cbn [fst snd] in *. unfold plan_of.
  wp_steps. apply wp_zoom, wp_gets. cbn [fst snd]. rewrite (lp_running _ _ _ _ Hl).
  destruct rest as [|r post].
  - rewrite decide_False by (rewrite Hidx, app_nil_r; lia). apply wp_ret. split; [done|]. exists pre, [], w. split; [done|]. split; [by left|lia].
  - destruct (decide (token_budget p > 0)) as [Hb|Hb].
    + rewrite decide_True by (rewrite Hidx, len_app, len_cons; pose proof (len_nonneg post); lia).
      apply wp_bind. eapply wp_lift_outcome.
      { rewrite Hidx. apply py_index_lookup. by rewrite lookup_app_r, Nat.sub_diag by lia. }
      apply wp_bind. eapply wp_mono; [eapply schedule_running_one_spec; [exact Hat|lia]|].
      intros [|] [s1 p1] (Hf1 & H1); cbn [fst snd] in *.
      * destruct H1 as (post' & w' & Hpre & Hat1). apply prefix_length_le in Hpre. cbn in Hf.
        eapply wp_mono; [eapply IH; [exact Hat1|lia]|]. intros _ st (Hf2 & pre2 & rest2 & w2 & ? & ? & Hlen).
        split; [by etransitivity|]. exists pre2, rest2, w2. split; [done|]. split; [done|].
        rewrite !length_app in *. cbn in *. lia.
      * destruct H1 as [[w' Hat1] _]. apply wp_ret. split; [done|]. exists pre, [], w'. split; [done|]. split; [by left|].
        rewrite !length_app. cbn. lia.
    + rewrite decide_False by (intros [_ ?]; done). apply wp_ret. split; [done|]. exists pre, (r :: post), w.
      split; [done|]. split; [|done]. right. pose proof (pl_budget _ _ _ Hp). cbn. lia.
Qed.
End running.
