(* ===== verification/SchedulerWaiting.v ===== *)
(** The loop of [schedule] over the waiting queue: prefix hits, slots, the start and the
    resumption of requests, and the requests that are skipped.  The loop ends within its
    fuel, raises nothing and keeps the invariant, the budget and the limit on running
    requests. *)
From Stdlib Require Import ZArith Lia QArith.
From stdpp Require Import base strings countable gmap sets fin_maps sorting list.
From S2P Require Import Prelude Request FreeBlockQueue BlockHash BlockPool KVCacheSpec SingleTypeManager KVCacheCoordinator KVCacheManager SlotContract RequestQueue EncoderCache SchedulerData Scheduler SchedulerEncoder SchedulerInvariant SchedulerRunning.
Local Open Scope Z_scope.

Section waiting.
Context {C G : Type} `{!KVConnector C, !StructuredOutputManager G}.
Context (hash_function : Z * list Z * option (list extra_key) → Z) (NONE_HASH : Z).
Context `{!SlotContract hash_function NONE_HASH}.
Context (tok : string → Z → Z).
Abbreviation Sched := (Scheduler C G).
Abbreviation St := (Sched * Plan)%type.
Abbreviation core_ok := (core_ok hash_function NONE_HASH tok).
Abbreviation members_ok := (members_ok hash_function NONE_HASH).
Abbreviation running_ok := (running_ok hash_function NONE_HASH).
Abbreviation waiting_ok := (waiting_ok hash_function NONE_HASH).
Abbreviation drafts_ok := (drafts_where (λ _, True)).
Implicit Types (s : Sched) (t : req_ref → Z) (rs wl w sk : list req_ref) (r : req_ref) (p : Plan) (req : Request).

(** The state of the loop: [w] is waiting, [sk] has been skipped. *)
Record wloop (total : Z) s p rs w sk : Prop := {
  wl_waiting : waiting s = FCFSQueue w;
  wl_core : core_ok s;
  wl_running : running s = rs;
  wl_members : members_ok s (plan_t p) rs (w ++ sk);
  wl_nodup : NoDup (rs ++ w ++ sk);
  wl_plan : plan_ok total p rs;
  wl_drafts : drafts_ok (objects s) p;
  wl_max : len rs <= max_num_running_reqs (config s);
  wl_all : ∀ id, id ∈ requests s → id ∈ rs ++ w ++ sk
}.

(** ** Leaving the queue *)
Lemma pop_waiting_spec total s p rs r w sk :
  wloop total s p rs (r :: w) sk →
  wp pop_waiting (λ r' s', r' = r ∧ s' = set_waiting (FCFSQueue w) s) s.
Proof. intros H. unfold pop_waiting. wp_steps. rewrite (wl_waiting _ _ _ _ _ _ H). by eapply wp_lift_outcome. Qed.

Lemma skip_request_spec total s p rs r w sk :
  wloop total s p rs (r :: w) sk →
  wp (skip_request r (FCFSQueue sk)) (λ q s', q = FCFSQueue (r :: sk) ∧ wloop total s' p rs w (r :: sk) ∧ sched_frame s s') s.
Proof.
  intros Hw. unfold skip_request. apply wp_bind. eapply wp_mono; [by eapply pop_waiting_spec|].
  intros _ s' [_ ->]. destruct Hw as [Hwa Hc Hru [Hmr Hmw] Hnd Hp Hdr Hmax Hall].
  destruct (Hmw r) as (req & Hreq & Hw'); [by left|]. apply wp_bind. eapply wp_the_request; [exact Hreq|].
  pose proof (ro_id _ _ _ _ _ (co_objects _ _ _ _ Hc r req Hreq)) as Hid.
  eapply wp_lift_outcome; [cbn; unfold FCFSRequestQueue.prepend_request; by rewrite Hid|].
  split; [done|]. split; [|by split]. split; try done; [by destruct Hc| | |].
  - split; [done|]. intros x Hx. apply Hmw. set_solver.
  - by rewrite <- Permutation_middle.
  - intros x Hx%Hall. set_solver.
Qed.

(** ** The status checks *)
Definition admitted_ok r s : Prop := ∃ req, objects s !! r = Some req ∧ (status req = WAITING ∨ status req = PREEMPTED).

Lemma wloop_alter_head total s p rs r w sk f :
  wloop total s p rs (r :: w) sk →
  (∀ req, objects s !! r = Some req → same_request (is_async (config s)) req (f req) ∧ waiting_status (status (f req)) ∧
     num_computed_tokens (f req) = num_computed_tokens req) →
  wloop total (set_objects (alter f r (objects s)) s) p rs (r :: w) sk.
Proof.
  intros [Hwa Hc Hru Hm Hnd Hp Hdr Hmax Hall] Hf.
  assert (Hsame : ∀ req, objects s !! r = Some req → same_request (is_async (config s)) req (f req)) by (intros req Hreq; by apply Hf).
  destruct (core_ok_alter hash_function NONE_HASH tok s r f Hc Hsame) as [Hc' Hh].
  assert (Hm' : members_ok (set_objects (alter f r (objects s)) s) (plan_t p) rs (w ++ sk)).
  { pose proof Hnd as (_ & Hd & Hnd2)%NoDup_app. apply NoDup_cons in Hnd2 as [Hr _].
    apply (members_ok_alter hash_function NONE_HASH tok); [done|done| |by intros Hrs; apply (Hd r Hrs); left|done].
    destruct Hm as [? Hmw]. split; [done|]. intros x Hx. apply Hmw. by right. }
  split; try done.
  2: { eapply drafts_keep; [exact Hdr|done| |done]. intros x Hx _. do 2 (split; [done|]). split; [|done].
       cbn. apply lookup_alter_ne. intros <-. apply (pl_subset _ _ _ Hp) in Hx. apply NoDup_app in Hnd as (_ & Hd & _). apply (Hd r Hx). by left. }
  destruct Hm as [_ Hmw]. destruct (Hmw r) as (req & Hreq & Hq & Hst & Hz & Hno); [by left|].
  destruct (Hf req Hreq) as (_ & Hst' & Hz'). split; [apply Hm'|].
  intros x [-> |Hx]%elem_of_cons; [|by apply Hm'].
  exists (f req). csplit; try done; [cbn; by rewrite lookup_alter_eq, Hreq|by rewrite Hz'].
Qed.

Lemma admit_status_spec total s p rs r w sk :
  wloop total s p rs (r :: w) sk →
  wp (admit_status hash_function NONE_HASH r) (λ adm st, snd st = p ∧ wloop total (fst st) p rs (r :: w) sk ∧
    sched_frame s (fst st) ∧ (adm = Admit → admitted_ok r (fst st))) (s, p).
Proof.
  intros Hw. pose proof Hw as [Hwa Hc Hru [Hmr Hmw] Hnd Hp Hdr Hmax Hall].
  destruct (Hmw r) as (req & Hreq & Hq & Hst & Hz & Hno); [by left|].
  unfold admit_status. apply wp_bind, wp_zoom. eapply wp_the_request; [exact Hreq|]. cbn [fst snd].
  rewrite decide_False by (destruct Hst as [-> |[-> | ->]]; done). wp_steps. cbn [negb].
  apply wp_bind, wp_zoom. eapply wp_the_request; [exact Hreq|]. cbn [fst snd].
  apply wp_bind, wp_zoom, wp_gets, wp_bind. cbn [fst snd].
  assert (Hend : ∀ s', sched_frame s s' → wloop total s' p rs (r :: w) sk → (∃ req', objects s' !! r = Some req' ∧
      (status req' = WAITING ∨ status req' = PREEMPTED)) →
    wp (cfg ← on_sched (gets config); p ← plan_of;
        match max_loras cfg, lora_request (params req) with
        | Some max_loras, Some l =>
          if decide (set_len (scheduled_loras p) = max_loras ∧ lora_int_id l ∉ scheduled_loras p)
          then mret Skip else mret Admit
        | _, _ => mret Admit
        end) (λ adm st, snd st = p ∧ wloop total (fst st) p rs (r :: w) sk ∧
    sched_frame s (fst st) ∧ (adm = Admit → admitted_ok r (fst st))) (s', p)).
  { intros s' Hf Hw' Hreq'. unfold plan_of. apply wp_bind, wp_zoom, wp_gets, wp_bind, wp_gets. cbn [fst snd].
    rewrite (cf_loras _ (co_config _ _ _ _ (wl_core _ _ _ _ _ _ Hw'))). apply wp_ret. by split_and!. }
  destruct (decide (status req = WAITING_FOR_FSM)) as [Hfsm|Hfsm].
  - assert (Hskip : snd (s, p) = p ∧ wloop total (fst (s, p)) p rs (r :: w) sk ∧
      sched_frame s (fst (s, p)) ∧ (Skip = Admit → admitted_ok r (fst (s, p)))) by done.
    destruct (structured_output_request (params req)) as [sor|]; [|wp_steps; exact Hskip].
    destruct (grammar_ready (structured_output_manager s) sor); [|wp_steps; exact Hskip].
    apply wp_bind, wp_zoom, wp_update_request. wp_steps. cbn [fst snd negb]. apply Hend.
    + apply frame_alter.
    + apply wloop_alter_head; [done|]. intros req' Hreq'. assert (req' = req) as -> by congruence.
      split_and!; try done; [|by left]. split; try done. intros _. by apply waiting_unfinished.
    + exists (set_status WAITING req). cbn. rewrite lookup_alter_eq, Hreq. split; [done|by left].
  - wp_steps. cbn [fst snd negb]. apply Hend; [done|done|]. exists req. split; [done|].
    destruct Hst as [?|[?|?]]; [by left|by right|done].
Qed.

(** ** Computed and new tokens *)
Lemma wloop_kv total s p rs w sk m' P :
  wloop total s p rs w sk → slots_frame P (kv_cache_manager s) m' (obj_toks (objects s)) →
  (∀ x, P x) → wloop total (set_kv m' s) p rs w sk.
Proof.
  intros [Hwa Hc Hru Hm Hnd Hp Hdr Hmax Hall] Hf HP. split; try done; [by eapply core_ok_kv|eapply members_ok_kv; [exact Hf|auto|done]].
Qed.

Lemma frame_kv s m' P toks : slots_frame P (kv_cache_manager s) m' toks → sched_frame s (set_kv m' s).
Proof. intros (_ & ? & _). by split. Qed.

Lemma computed_tokens_spec total s p rs r w sk req :
  wloop total s p rs (r :: w) sk → objects s !! r = Some req →
  wp (computed_tokens hash_function NONE_HASH req) (λ '(news, local, external, n, load) s',
    (external = 0 ∧ n = local ∧ load = false) ∧ 0 <= local < num_tokens req ∧
    wloop total s' p rs (r :: w) sk ∧ sched_frame s s' ∧ objects s' = objects s ∧
    encoder_cache_manager s' = encoder_cache_manager s ∧
    is_hit (kv_cache_manager s') r news local) s.
Proof.
  intros Hw Hreq. pose proof (wl_core _ _ _ _ _ _ Hw) as Hc.
  destruct (mo_waiting _ _ _ _ _ _ (wl_members _ _ _ _ _ _ Hw) r) as (req' & Hreq' & _ & Hst & Hz & _); [by left|].
  assert (req' = req) as -> by congruence. pose proof (ro_id _ _ _ _ _ (co_objects _ _ _ _ Hc r req Hreq)) as Hid.
  unfold computed_tokens. rewrite decide_True by done. apply wp_bind, wp_zoom.
  eapply wp_mono; [apply (lookup_law (kv_cache_manager s) (obj_toks (objects s)) req)|].
  { apply Hc. } { by eapply request_fits_ok, waiting_unfinished. }
  intros [news local] m' (Hf & Hl & Hhit). rewrite Hid in Hhit. cbv beta iota. wp_steps. cbn.
  rewrite (co_connector _ _ _ _ Hc). wp_steps. cbv beta iota. wp_steps. split_and!; try done; try lia.
  - by eapply wloop_kv.
  - by eapply frame_kv.
Qed.

Lemma new_tokens_waiting_spec total s p rs w sk req local :
  wloop total s p rs w sk → tok_of tok req → len (mm_inputs req) = len (mm_positions req) →
  0 <= local < num_tokens req → 0 < token_budget p →
  wp (new_tokens_waiting req local 0 false) (λ sz st, st = (s, p) ∧
    match sz with
    | Schedule n inputs budget => 0 < n ∧ n <= token_budget p ∧ local + n <= num_tokens req ∧
        new_inputs req (encoder_cache_manager s) inputs ∧ 0 <= budget
    | _ => True
    end) (s, p).
Proof.
  intros Hw Htok Hlen Hl Hb. pose proof (pl_encoder _ _ _ (wl_plan _ _ _ _ _ _ Hw)) as He.
  unfold new_tokens_waiting, plan_of. apply wp_bind, wp_zoom, wp_gets, wp_bind, wp_gets. cbn [fst snd].
  set (n0 := num_tokens req - local). cbv zeta.
  set (n1 := if decide (0 < long_prefill_token_threshold (config s) < n0) then long_prefill_token_threshold (config s) else n0).
  assert (0 < n1 <= n0) as Hn1 by (unfold n1; case_decide; lia). clearbody n1.
  destruct (decide (chunked_prefill_enabled (config s) = false ∧ n1 > token_budget p)); [by apply wp_ret|].
  apply wp_bind, wp_assert; [apply bool_decide_eq_true; lia|].
  destruct (has_encoder_inputs req).
  - destruct (try_schedule_encoder_inputs_spec tok (config s) (encoder_cache_manager s) req local (Z.min n1 (token_budget p))
      (encoder_budget p) Htok Hlen) as (inputs & n' & b' & Hs & [Hn' Hnd Hin _ Hb' _]); [lia|].
    wp_steps. apply wp_zoom, wp_gets. cbn [fst snd]. apply wp_bind. eapply wp_lift_outcome; [exact Hs|]. cbv beta iota.
    destruct (decide (n' = 0)); apply wp_ret; [done|]. split; [done|]. csplit; [lia|lia|lia|by split|by apply Hb'].
  - apply wp_ret. split; [done|]. csplit; [lia|lia|lia| |lia]. split; [by apply NoDup_nil_2|by intros i ?%not_elem_of_nil].
Qed.

(** ** Starting a request *)

(** The request [r], with the object [req], is on its way from the queue to the list of
    running requests. *)
Record starting s p rs r w sk req (c : Z) : Prop := {
  sg_waiting : waiting s = FCFSQueue w;
  sg_core : core_ok s;
  sg_members : members_ok s (plan_t p) rs (w ++ sk);
  sg_object : objects s !! r = Some req;
  sg_known : r ∈ requests s;
  sg_slots : has_slots (kv_cache_manager s) (obj_toks (objects s)) r c;
  sg_nodup : NoDup (rs ++ r :: w ++ sk);
  sg_plan : ∀ x, x ∈ (plan_tokens p).*1 → x ∈ rs;
  sg_drafts : drafts_ok (objects s) p;
  sg_all : ∀ id, id ∈ requests s → id ∈ rs ++ r :: w ++ sk
}.

Lemma starting_fresh s p rs r w sk req c : starting s p rs r w sk req c → (r ∉ rs) ∧ (r ∉ w ++ sk).
Proof.
  intros [_ _ _ _ _ _ (_ & Hd & [Hn _]%NoDup_cons)%NoDup_app _ _ _]. split; [|done]. intros Hr. apply (Hd r Hr). by left.
Qed.

Lemma starting_alter s p rs r w sk req c f :
  starting s p rs r w sk req c → same_request (is_async (config s)) req (f req) →
  starting (set_objects (alter f r (objects s)) s) p rs r w sk (f req) c.
Proof.
  intros Hs Hf. destruct (starting_fresh _ _ _ _ _ _ _ _ Hs) as [Hrs Hw]. destruct Hs as [Hwa Hc Hm Hr Hq Hh Hnd Hpl Hdr Hall].
  assert (Hsame : ∀ req, objects s !! r = Some req → same_request (is_async (config s)) req (f req)) by (intros req' Hr'; by simplify_eq).
  destruct (core_ok_alter hash_function NONE_HASH tok s r f Hc Hsame) as [Hc' Hh']. split; try done.
  - by apply (members_ok_alter hash_function NONE_HASH tok).
  - cbn. by rewrite lookup_alter_eq, Hr.
  - by apply Hh'.
  - eapply drafts_keep; [exact Hdr|done| |done]. intros x Hx _. do 2 (split; [done|]). split; [|done].
    cbn. apply lookup_alter_ne. intros <-. by apply Hrs, Hpl.
Qed.

Lemma starting_running s p rs r w sk req c l : starting s p rs r w sk req c → starting (set_running l s) p rs r w sk req c.
Proof. intros [Hwa Hc Hm Hr Hq Hh Hnd Hpl Hdr Hall]. split; try done; [by destruct Hc|by destruct Hm]. Qed.

(** The request is in its place. *)
Lemma starting_done total s p p1 rs r w sk req c n ids :
  starting s p rs r w sk req (c + n) → running s = rs ++ [r] → plan_ok total p rs → (r ∉ (plan_tokens p).*1) →
  0 < n → n <= token_budget p → status req = RUNNING → num_computed_tokens req = c → 0 <= c → c + n <= num_tokens req →
  len rs < max_num_running_reqs (config s) →
  plan_tokens p1 = dict_set r n (plan_tokens p) →
  scheduled_new p1 ++ scheduled_resumed p1 ++ scheduled_running p1
    ≡ₚ r :: (scheduled_new p ++ scheduled_resumed p ++ scheduled_running p) →
  req_to_new_block_ids p1 = <[r := ids]> (req_to_new_block_ids p) →
  token_budget p1 = token_budget p - n → encoder_budget p1 = encoder_budget p →
  plan_spec_tokens p1 = plan_spec_tokens p →
  wloop total s p1 (rs ++ [r]) w sk.
Proof.
  intros Hs Hru Hp Hfresh Hn Hle Hst Hcm Hc0 Hcn Hmax Ht1 Hp1 Hb1 Hbu1 He1 Hsp1.
  destruct (starting_fresh _ _ _ _ _ _ _ _ Hs) as [Hrs Hws]. destruct Hs as [Hwa Hc Hm Hr Hq Hh Hnd Hpl Hdr Hall].
  pose proof (co_objects _ _ _ _ Hc r req Hr) as [_ _ Hlim _ _ _ _ Hph _ _ _]. specialize (Hlim (running_unfinished _ Hst)).
  split; try done.
  - destruct Hm as [Hmr Hmw]. split; [|done]. intros x [Hx| ->%list_elem_of_singleton]%elem_of_app.
    + rewrite (plan_t_commit p p1 r n Ht1). unfold upd_t. rewrite decide_False by (intros ->; done). by apply Hmr.
    + rewrite (plan_t_commit p p1 r n Ht1). unfold upd_t. rewrite decide_True by done.
      exists req. rewrite Hcm. unfold num_tokens, num_tokens_with_spec in *. pose proof (len_nonneg (spec_token_ids req)).
      csplit; try done; lia.
  - by rewrite <- app_assoc.
  - by eapply (plan_ok_commit total p).
  - eapply drafts_add; [by eapply drafts_commit|]. exists req. split; [done|].
    rewrite (plan_t_commit p p1 r n Ht1), Hsp1. unfold upd_t. rewrite decide_True by done.
    assert (plan_spec_tokens p !! r = None) as -> by (apply eq_None_not_Some; by intros ?%(dr_keys _ _ _ Hdr)).
    split; [|done]. change (len (default [] None)) with 0. lia.
  - rewrite len_app, len_cons, len_nil. lia.
  - by rewrite <- app_assoc.
Qed.

(** Where the loop can place the request: the plan before the commit. *)
Lemma start_running_spec total s p rs r w sk req c n inputs budget now :
  starting s p rs r w sk req (c + n) → running s = rs → plan_ok total p rs → admitted_ok r s →
  0 < n → n <= token_budget p → 0 <= c → c + n <= num_tokens req →
  len rs < max_num_running_reqs (config s) → new_inputs req (encoder_cache_manager s) inputs → 0 <= budget →
  wp (start_running r n c inputs budget now) (λ _ st, sched_frame s (fst st) ∧
    wloop total (fst st) (snd st) (rs ++ [r]) w sk ∧ preempted_reqs (snd st) = preempted_reqs p) (s, p).
Proof.
  intros Hs Hru Hp (req' & Hreq' & Hst) Hn Hle Hc0 Hcn Hmax Hin Hb.
  destruct (starting_fresh _ _ _ _ _ _ _ _ Hs) as [Hrs _].
  assert (Hfresh : r ∉ (plan_tokens p).*1) by (intros Hk%(pl_subset _ _ _ Hp); done).
  pose proof (sg_object _ _ _ _ _ _ _ _ Hs) as Hr. assert (req' = req) as -> by congruence.
  pose proof (ro_id _ _ _ _ _ (co_objects _ _ _ _ (sg_core _ _ _ _ _ _ _ _ Hs) r req Hr)) as Hid.
  unfold start_running, on_plan. apply wp_bind, wp_zoom. eapply wp_the_request; [exact Hr|]. cbn [fst snd].
  assert (Hstr : wp (if use_structured_output req then
         modify (λ x : St, (fst x, set_structured_ids (<[r := req_index (snd x)]> (structured_ids (snd x))) (snd x)))
       else mret tt) (λ _ st, ∃ m, st = (s, set_structured_ids m p)) (s, p)).
  { destruct (use_structured_output req); wp_steps; [by eexists|]. exists (structured_ids p). by destruct p. }
  apply wp_bind. eapply wp_mono; [exact Hstr|]. intros _ st (m & ->). apply wp_bind, wp_modify. cbn [fst snd]. set (p1 := set_req_index _ _).
  apply wp_bind, wp_zoom, wp_modify. cbn [fst snd]. set (s1 := set_running (running s ++ [r]) s).
  assert (Hs1 : starting s1 p rs r w sk req (c + n)) by (by apply starting_running).
  apply wp_bind, wp_zoom, wp_gets, wp_bind. cbn [fst snd].
  assert (Hlog : wp (if cfg_log_stats (config s1) then on_sched (update_request r (record_event SCHEDULED now)) else mret tt)
    (λ _ st, snd st = p1 ∧ ∃ req1, starting (fst st) p rs r w sk req1 (c + n) ∧ sched_frame s (fst st) ∧
       running (fst st) = rs ++ [r] ∧ params req1 = params req ∧ all_token_ids req1 = all_token_ids req ∧ status req1 = status req ∧
       encoder_cache_manager (fst st) = encoder_cache_manager s) (s1, p1)).
  { assert (sched_frame s s1) by (by split). destruct (cfg_log_stats (config s1)).
    - apply wp_zoom, wp_update_request. split; [done|]. exists (record_event SCHEDULED now req). cbn [fst snd].
      split_and!; try done; [by apply starting_alter|etransitivity; [done|apply frame_alter]|cbn; by rewrite Hru].
    - apply wp_ret. split; [done|]. exists req. split_and!; try done. cbn. by rewrite Hru. }
  eapply wp_mono; [exact Hlog|]. clear Hlog Hs1. intros _ [s2 p2] (Hp2 & req1 & Hs2 & Hf2 & Hru2 & Hpar & Htok & Hst1 & He2). cbn [fst snd] in *. subst p2.
  (* the list the request is recorded in *)
  set (Q := λ (_ : unit) (st : St), ∃ p3, st = (s2, p3) ∧ plan_tokens p3 = plan_tokens p ∧
    scheduled_new p3 ++ scheduled_resumed p3 ++ scheduled_running p3
      ≡ₚ r :: (scheduled_new p ++ scheduled_resumed p ++ scheduled_running p) ∧
    req_to_new_block_ids p3 = req_to_new_block_ids p ∧ token_budget p3 = token_budget p ∧
    encoder_budget p3 = encoder_budget p ∧ plan_spec_tokens p3 = plan_spec_tokens p ∧ preempted_reqs p3 = preempted_reqs p).
  apply wp_bind, (wp_mono _ Q).
  { destruct Hst as [-> | ->]; apply wp_modify; (eexists; split; [done|]); split_and!; try done; cbn.
    - rewrite <- app_assoc. cbn [app]. by rewrite <- Permutation_middle.
    - rewrite <- (app_assoc (scheduled_resumed p)). cbn [app]. by rewrite <- !Permutation_middle. }
  intros _ st (p3 & -> & Ht3 & Hp3 & Hb3 & Hbu3 & He3 & Hsp3 & Hpre3).
  change (config s1) with (config s). rewrite (cf_loras _ (co_config _ _ _ _ (sg_core _ _ _ _ _ _ _ _ Hs))).
  apply wp_bind, wp_ret, wp_bind, wp_zoom, wp_zoom. cbn [fst snd].
  eapply wp_mono; [eapply block_ids_law, (co_kv _ _ _ _ (sg_core _ _ _ _ _ _ _ _ Hs2))|]. intros ids m' ->.
  assert (set_kv (kv_cache_manager s2) s2 = s2) as -> by (by destruct s2).
  wp_steps. apply wp_zoom, wp_update_request. cbn [fst snd]. apply wp_bind, wp_zoom, wp_update_request. cbn [fst snd].
  set (f1 := λ x, set_num_computed_tokens c (set_status RUNNING x)).
  set (f2 := λ x, if decide (num_cached_tokens x < 0) then set_num_cached_tokens c x else x).
  set (s3 := set_objects (alter f1 r (objects s2)) s2). change (alter f1 r (objects s2)) with (objects s3).
  set (s4 := set_objects (alter f2 r (objects s3)) s3).
  assert (Hs4 : starting s4 p rs r w sk (f2 (f1 req1)) (c + n)).
  { apply starting_alter; [apply starting_alter; [done|]|].
    - split; try done. intros _. unfold is_finished. rewrite Hst1. by destruct Hst as [-> | ->].
    - unfold f2. by case_decide. }
  assert (Hf4 : sched_frame s s4) by (etransitivity; [exact Hf2|etransitivity; apply frame_alter]).
  apply wp_bind, wp_zoom. eapply wp_the_request; [apply (sg_object _ _ _ _ _ _ _ _ Hs4)|]. cbn [fst snd].
  set (p4 := commit_tokens r n ids p3). set (req4 := f2 (f1 req1)) in *.
  assert (Hpar4 : params req4 = params req ∧ all_token_ids req4 = all_token_ids req ∧ status req4 = RUNNING ∧ num_computed_tokens req4 = c).
  { unfold req4, f2. case_decide; by split_and!. }
  destruct Hpar4 as (Hpar4 & Htok4 & Hst4 & Hc4).
  assert (Hdone : wloop total s4 p4 (rs ++ [r]) w sk).
  { eapply (starting_done total s4 p p4); try done.
    - unfold num_tokens. by rewrite Htok4.
    - by rewrite (sf_config _ _ Hf4).
    - cbn. by rewrite Ht3.
    - cbn. by rewrite Hb3.
    - cbn. by rewrite Hbu3. }
  eapply wp_mono; [apply (schedule_encoder_inputs_spec hash_function NONE_HASH tok req4 inputs budget s4 p4)|].
  - apply Hs4.
  - exists req4. split; [|done]. rewrite Hpar4, Hid. apply (sg_object _ _ _ _ _ _ _ _ Hs4).
  - destruct Hin as [Hnd Hin]. split; [done|]. intros j Hj. change (encoder_cache_manager s4) with (encoder_cache_manager s2).
    rewrite He2. unfold input_of, has_cache, get_cached_input_ids in *. rewrite Hpar4. by apply Hin.
  - change (encoder_budget p4) with (encoder_budget p3). rewrite He3. apply Hp.
  - done.
  - intros _ st (ecm & p5 & -> & Hc5 & Hsame & _ & He5 & Hsp5). cbn [fst snd].
    split; [etransitivity; [exact Hf4|by split]|].
    pose proof Hsame as (Ht5 & _ & _ & _ & _ & _ & Hpre5). split; [|by rewrite Hpre5].
    destruct Hdone as [Hwa5 _ Hru5 Hm5 Hnd5 Hp5 Hdr5 Hmax5 Hall5]. split; try done.
    + destruct Hm5 as [Hmr5 Hmw5]. split; [|done]. intros x Hx. unfold plan_t. rewrite Ht5. by apply Hmr5.
    + by eapply plan_ok_same.
    + eapply drafts_keep; [exact Hdr5|exact Hsp5| |by rewrite Ht5]. intros x Hx _. unfold plan_t.
      rewrite Ht5 in *. done.
Qed.

(** ** One waiting request *)
Definition waiting_step_post total s p rs r w sk (res : RequestQueue * bool) (st : St) : Prop :=
  sched_frame s (fst st) ∧ preempted_reqs (snd st) = preempted_reqs p ∧
  ∃ sk' rs', res.1 = FCFSQueue sk' ∧ rs `prefix_of` rs' ∧
    if res.2 then wloop total (fst st) (snd st) rs' w sk' else wloop total (fst st) (snd st) rs' (r :: w) sk'.

Lemma schedule_waiting_one_spec total now s p rs r w sk :
  wloop total s p rs (r :: w) sk → 0 < token_budget p → len rs < max_num_running_reqs (config s) →
  wp (schedule_waiting_one hash_function NONE_HASH now r (FCFSQueue sk))
    (waiting_step_post total s p rs r w sk) (s, p).
Proof.
  intros Hw Hb Hmax. unfold schedule_waiting_one. apply wp_bind.
  eapply wp_mono; [by eapply admit_status_spec|]. intros adm [s1 p1] (Hp1 & Hw1 & Hf1 & Hadm). cbn [fst snd] in *. subst p1.
  assert (Hskip : ∀ s2, sched_frame s s2 → wloop total s2 p rs (r :: w) sk →
    wp (sk ← on_sched (skip_request r (FCFSQueue sk)); mret (sk, true)) (waiting_step_post total s p rs r w sk) (s2, p)).
  { intros s2 Hf2 Hw2. apply wp_bind, wp_zoom. eapply wp_mono; [by eapply skip_request_spec|].
    intros q s3 (-> & Hw3 & Hf3). apply wp_ret. split; [by etransitivity|]. split; [done|]. by exists (r :: sk), rs. }
  destruct adm; [by apply Hskip|]. destruct (Hadm eq_refl) as (req & Hreq & Hst).
  apply wp_bind, wp_zoom. eapply wp_the_request; [exact Hreq|]. cbn [fst snd].
  apply wp_bind, wp_zoom. eapply wp_mono; [by eapply computed_tokens_spec|].
  intros [[[[news local] external] c] load] s2 ((-> & -> & ->) & Hl & Hw2 & Hf2 & Ho2 & He2 & Hhit). cbn [fst snd] in *. cbv beta iota.
  rewrite <- Ho2 in Hreq. pose proof (co_objects _ _ _ _ (wl_core _ _ _ _ _ _ Hw2) r req Hreq) as Hro.
  pose proof (ro_id _ _ _ _ _ Hro) as Hid.
  apply wp_bind. eapply wp_mono; [eapply (new_tokens_waiting_spec total s2 p rs (r :: w) sk); [done|apply Hro|apply Hro|lia|done]|].
  intros sz st (-> & Hsz). assert (Hf12 : sched_frame s s2) by (by etransitivity).
  destruct sz as [| |n inputs budget]; [by apply Hskip| |].
  { apply wp_ret. split; [done|]. split; [done|]. by exists sk, rs. }
  destruct Hsz as (Hn & Hle & Hcn & Hin & Hbu). rewrite Z.add_0_r.
  apply wp_bind, wp_zoom, wp_gets, wp_bind, wp_zoom, wp_zoom. cbn [fst snd].
  destruct (mo_waiting _ _ _ _ _ _ (wl_members _ _ _ _ _ _ Hw2) r) as (req' & Hreq' & Hq & Hws & Hz & Hno); [by left|].
  assert (req' = req) as -> by congruence.
  eapply wp_mono; [apply (start_law (kv_cache_manager s2) (obj_toks (objects s2)) req)|].
  1: apply (wl_core _ _ _ _ _ _ Hw2). 1: by eapply request_fits_ok; [apply Hw2|done|apply waiting_unfinished]. 1,2: by rewrite Hid. 1-4: lia.
  1: apply (cf_lookahead _ (co_config _ _ _ _ (wl_core _ _ _ _ _ _ Hw2))).
  rewrite Hid. intros res m' [Hfr Hres]. set (s3 := set_kv m' s2).
  assert (Hf3 : sched_frame s s3) by (etransitivity; [exact Hf12|by eapply frame_kv]).
  pose proof (wl_nodup _ _ _ _ _ _ Hw2) as Hnd. pose proof Hnd as (_ & Hd & Hnd2)%NoDup_app. cbn [app] in Hnd2. apply NoDup_cons in Hnd2 as [Hrw _].
  assert (Hr : r ∉ rs) by (intros Hrs; apply (Hd r Hrs); by left).
  assert (Hc3 : core_ok s3).
  { eapply core_ok_kv; [apply Hw2|exact Hfr|]. intros x Hx ->. congruence. }
  assert (Hm3 : members_ok s3 (plan_t p) rs (w ++ sk)).
  { eapply members_ok_kv; [exact Hfr| |].
    - intros x [Hx|Hx]%elem_of_app; intros ->; done.
    - destruct (wl_members _ _ _ _ _ _ Hw2) as [? Hmw]. split; [done|]. intros x Hx. apply Hmw. by right. }
  destruct res as [bls|].
  - destruct Hres as [Hslots _]. apply wp_bind, wp_zoom, wp_gets. cbn [fst snd].
    rewrite (co_connector _ _ _ _ Hc3). apply wp_bind, wp_ret, wp_bind, wp_zoom. cbn [fst snd].
    unfold pop_waiting. apply wp_bind, wp_gets. change (waiting s3) with (waiting s2). rewrite (wl_waiting _ _ _ _ _ _ Hw2).
    apply wp_bind. eapply wp_lift_outcome; [done|]. cbv beta iota. wp_steps. cbn [fst snd].
    set (s4 := set_waiting (FCFSQueue w) s3).
    eapply wp_mono; [apply (start_running_spec total s4 p rs r w sk req local n inputs budget now)|].
    + split; try done; [by destruct Hc3|by destruct Hm3|apply (pl_subset _ _ _ (wl_plan _ _ _ _ _ _ Hw2))|exact (wl_drafts _ _ _ _ _ _ Hw2)|exact (wl_all _ _ _ _ _ _ Hw2)].
    + apply (wl_running _ _ _ _ _ _ Hw2).
    + apply Hw2.
    + by exists req.
    + done.
    + done.
    + lia.
    + done.
    + change (config s4) with (config s2). by rewrite (sf_config _ _ Hf12).
    + change (encoder_cache_manager s4) with (encoder_cache_manager s2). exact Hin.
    + done.
    + intros _ [s5 p5] (Hf5 & Hw5 & Hpre5). apply wp_ret. cbn [fst snd] in *.
      split; [etransitivity; [exact Hf3|etransitivity; [|exact Hf5]; by split]|]. split; [done|].
      exists sk, (rs ++ [r]). split; [done|]. split; [by eexists|done].
  - apply wp_ret. split; [done|]. split; [done|]. exists sk, rs. split; [done|]. split; [done|]. cbn [fst snd].
    destruct Hw2 as [Hwa2 _ Hru2 [_ Hmw2] _ Hp2 Hdr2 Hmax2 Hall2]. split; try done. split; [apply Hm3|].
    intros x [-> |Hx]%elem_of_cons; [|by apply Hm3]. exists req. csplit; try done.
Qed.

(** ** The loop *)
Lemma schedule_waiting_spec total now fuel : ∀ s p rs w sk,
  wloop total s p rs w sk → (length w < fuel)%nat →
  wp (schedule_waiting hash_function NONE_HASH fuel now (FCFSQueue sk)) (λ q st, sched_frame s (fst st) ∧
    ∃ rs' w' sk', q = FCFSQueue sk' ∧ rs `prefix_of` rs' ∧ wloop total (fst st) (snd st) rs' w' sk') (s, p).
Proof.
  induction fuel as [|fuel IH]; intros s p rs w sk Hw Hf; [lia|]. cbn [schedule_waiting].
  unfold plan_of, sched_of. apply wp_bind, wp_gets, wp_bind, wp_gets. cbn [fst snd]. rewrite (wl_waiting _ _ _ _ _ _ Hw), (wl_running _ _ _ _ _ _ Hw).
  assert (Hstop : wp (mret (FCFSQueue sk)) (λ q (st : St), sched_frame s (fst st) ∧
    ∃ rs' w' sk', q = FCFSQueue sk' ∧ rs `prefix_of` rs' ∧ wloop total (fst st) (snd st) rs' w' sk') (s, p)).
  { apply wp_ret. split; [done|]. by exists rs, w, sk. }
  destruct (negb (queue_nonempty (FCFSQueue w)) || bool_decide (token_budget p <= 0)) eqn:Hend; [exact Hstop|].
  apply orb_false_iff in Hend as [Hne%negb_false_iff Hb%bool_decide_eq_false].
  unfold queue_nonempty, queue_len in Hne. apply bool_decide_eq_true in Hne. cbn in Hne.
  destruct w as [|r w]; [done|].
  destruct (decide (len rs = max_num_running_reqs (config s))) as [|Hmax]; [exact Hstop|].
  apply wp_bind. eapply wp_lift_outcome; [done|]. cbv beta.
  apply wp_bind. eapply wp_mono; [apply (schedule_waiting_one_spec total now s p rs r w sk Hw); [lia|]|].
  { pose proof (wl_max _ _ _ _ _ _ Hw). lia. }
  intros [q go] [s1 p1] (Hf1 & _ & sk' & rs' & Hq & Hpre & Hw1). cbn [fst snd] in *. subst q. cbn in Hf.
  destruct go.
  - eapply wp_mono; [eapply (IH s1 p1 rs' w sk'); [done|lia]|].
    intros q st (Hf2 & rs2 & w2 & sk2 & -> & Hpre2 & Hw2). split; [by etransitivity|]. exists rs2, w2, sk2.
    split; [done|]. split; [by etransitivity|done].
  - apply wp_ret. split; [done|]. by exists rs', (r :: w), sk'.
Qed.
End waiting.
