(* ===== verification/SchedulerStep.v ===== *)
(** A whole step of [schedule]: the two loops, the checks after them, the output, and
    the update of the requests that were scheduled. *)
From Stdlib Require Import ZArith Lia QArith.
From stdpp Require Import base strings countable gmap sets fin_maps sorting list.
From S2P Require Import Prelude Request FreeBlockQueue BlockHash BlockPool KVCacheSpec SingleTypeManager KVCacheCoordinator KVCacheManager SlotContract RequestQueue EncoderCache SchedulerData Scheduler SchedulerEncoder SchedulerInvariant SchedulerRunning SchedulerWaiting.
Local Open Scope Z_scope.

Section step.
Context {C G : Type} `{!KVConnector C, !StructuredOutputManager G}.
Context (hash_function : Z * list Z * option (list extra_key) → Z) (NONE_HASH : Z).
Context `{!SlotContract hash_function NONE_HASH}.
Context (tok : string → Z → Z).
(** The bitmask of the grammars is always computed. *)
Context (bitmask_total : ∀ reqs ids spec (g : G), ∃ v g', make_grammar_bitmask reqs ids spec g = (Ok v, g')).
Abbreviation Sched := (Scheduler C G).
Abbreviation St := (Sched * Plan)%type.
Abbreviation core_ok := (core_ok hash_function NONE_HASH tok).
Abbreviation members_ok := (members_ok hash_function NONE_HASH).
Abbreviation sched_ok := (sched_ok hash_function NONE_HASH tok).
Abbreviation wloop := (wloop hash_function NONE_HASH tok).
Implicit Types (s : Sched) (t : req_ref → Z) (rs wl w sk : list req_ref) (r : req_ref) (p : Plan) (req : Request).

(** ** The two loops *)
Lemma initial_at_request s w :
  waiting s = FCFSQueue w → core_ok s → members_ok s (λ _, 0) (running s) w → NoDup (running s ++ w) →
  (∀ id, id ∈ requests s → id ∈ running s ++ w) →
  at_request hash_function NONE_HASH tok (max_num_scheduled_tokens (config s)) [] (running s) w (s, initial_plan (config s)).
Proof.
  intros Hw Hc Hm Hnd Hall. split_and!; cbn [fst snd]; try done.
  pose proof (co_config _ _ _ _ Hc) as [_ _ ? ? _].
  - split; cbn; try done; try lia; [by apply NoDup_nil_2|by intros ? ?%not_elem_of_nil..].
  - split; cbn; [by intros ? ?%not_elem_of_nil|by intros ? [? ?]].
Qed.

Lemma plan_counts total p rs :
  plan_ok total p rs → len (scheduled_new p) + len (scheduled_resumed p) + len (scheduled_running p) <= len rs.
Proof.
  intros [Hp Hnd Hs _ _ _ _ _]. apply Permutation_length in Hp as Hl. rewrite !length_app, length_fmap in Hl.
  pose proof (NoDup_submseteq _ rs Hnd Hs) as Hle%submseteq_length. rewrite length_fmap in Hle. unfold len. lia.
Qed.

Lemma plan_step_spec now s :
  sched_ok s →
  wp (plan_step hash_function NONE_HASH now) (λ _ st, sched_frame s (fst st) ∧
    ∃ rs w, wloop (max_num_scheduled_tokens (config s)) (fst st) (snd st) rs w []) (s, initial_plan (config s)).
Proof.
  intros (w & Hwa & Hc & Hm & Hnd & Hmax & Hall). set (total := max_num_scheduled_tokens (config s)).
  unfold plan_step, sched_of, plan_of. apply wp_bind, wp_gets, wp_bind. cbn [fst snd].
  eapply wp_mono; [eapply (schedule_running_spec _ _ tok total); [by apply initial_at_request|lia]|].
  intros _ [s1 p1] (Hf1 & pre & rest & w1 & Hat & _ & Hlen). cbn [fst snd app] in *.
  assert (Hw1 : wloop total s1 p1 (pre ++ rest) w1 []).
  { destruct Hat as ([Hwa1 Hc1 Hru1 Hm1 Hnd1 Hall1] & Hp1 & _ & _ & _ & Hdr1). cbn [fst snd] in *. split; rewrite ?app_nil_r; try done.
    - destruct Hp1 as [? ? Hs ? ? ? ? ?]. split; try done. intros x Hx. apply elem_of_app. left. by apply Hs.
    - rewrite (sf_config _ _ Hf1). unfold len in *. lia. }
  clear Hat. unfold record_loras. wp_steps. apply wp_zoom, wp_gets. cbn [fst snd].
  rewrite (cf_loras _ (co_config _ _ _ _ (wl_core _ _ _ _ _ _ _ _ _ Hw1))). apply wp_ret. wp_steps. cbn [fst snd].
  rewrite (cf_policy _ (co_config _ _ _ _ (wl_core _ _ _ _ _ _ _ _ _ Hw1))). cbn [create_request_queue].
  rewrite (wl_waiting _ _ _ _ _ _ _ _ _ Hw1). cbn [queue_refs].
  assert (Hafter : ∀ s2 p2 rs w2 sk, sched_frame s s2 → wloop total s2 p2 rs w2 sk →
    wp ((if queue_nonempty (FCFSQueue sk) then
           s ← gets fst;
           on_sched (on_waiting (λ q : RequestQueue, prepend_requests q (FCFSQueue sk) (λ rs, (load_requests rs s).1)))
         else mret tt) ;; check_constraints)
      (λ _ st, sched_frame s (fst st) ∧ ∃ rs w, wloop total (fst st) (snd st) rs w []) (s2, p2)).
  { intros s2 p2 rs w2 sk Hf2 Hw2.
    assert (Hcheck : ∀ s3 w3, sched_frame s s3 → wloop total s3 p2 rs w3 [] →
      wp check_constraints (λ _ st, sched_frame s (fst st) ∧ ∃ rs w, wloop total (fst st) (snd st) rs w []) (s3, p2)).
    { intros s3 w3 Hf3 Hw3. pose proof (wl_plan _ _ _ _ _ _ _ _ _ Hw3) as Hp3. unfold check_constraints, sched_of, plan_of.
      pose proof (pl_total _ _ _ Hp3). pose proof (pl_budget _ _ _ Hp3). pose proof (plan_counts _ _ _ Hp3).
      pose proof (wl_max _ _ _ _ _ _ _ _ _ Hw3). assert (running s3 = rs) as Hru by apply Hw3.
      wp_steps; cbn [fst snd]; rewrite ?Hru; try (apply bool_decide_eq_true); try lia.
      - rewrite (sf_config _ _ Hf3). fold total. lia.
      - split; [done|]. by exists rs, w3. }
    apply wp_bind. destruct (queue_nonempty (FCFSQueue sk)) eqn:Hne.
    - wp_steps. cbn [fst snd]. apply wp_zoom. unfold on_waiting. wp_steps. cbn [fst snd].
      rewrite (wl_waiting _ _ _ _ _ _ _ _ _ Hw2). unfold prepend_requests. cbn [queue_iter mbind outcome_bind].
      rewrite fcfs_prepend_spec. eapply wp_lift_outcome; [done|]. wp_steps. cbn [fst snd].
      apply (Hcheck _ (sk ++ w2)); [etransitivity; [exact Hf2|by split]|].
      destruct Hw2 as [_ Hc2 Hru2 [Hmr2 Hmw2] Hnd2 Hp2 Hdr2 Hmax2 Hall2]. split; rewrite ?app_nil_r; try done.
      + by destruct Hc2.
      + split; [done|]. intros x Hx. apply Hmw2. set_solver.
      + by rewrite (Permutation_app_comm sk w2).
      + intros x Hx%Hall2. set_solver.
    - apply wp_ret. assert (sk = []) as ->; [|by eapply Hcheck].
      unfold queue_nonempty, queue_len in Hne. apply bool_decide_eq_false in Hne. cbn in Hne. destruct sk; [done|].
      rewrite len_cons in Hne. pose proof (len_nonneg sk). lia. }
  destruct (decide (preempted_reqs p1 = [])).
  - eapply wp_mono; [eapply schedule_waiting_spec; [exact Hw1|lia]|].
    intros q [s2 p2] (Hf2 & rs & w2 & sk & -> & _ & Hw2). cbn [fst snd] in *. eapply Hafter; [by etransitivity|done].
  - apply wp_ret. by eapply (Hafter s1 p1).
Qed.

(** ** The output *)
Lemma from_dict_some {K V} `{Countable K} (k : K) (d : gmap K V) v : d !! k = Some v → from_dict k d = Ok v.
Proof. unfold from_dict. by intros ->. Qed.
Lemma loop_ok_kv_all s t rs w m' :
  loop_ok hash_function NONE_HASH tok s t rs w → slots_frame (λ _, True) (kv_cache_manager s) m' (obj_toks (objects s)) →
  loop_ok hash_function NONE_HASH tok (set_kv m' s) t rs w.
Proof.
  intros [Hwa Hc Hru Hm Hnd] Hf. split; try done; [by eapply core_ok_kv|].
  eapply members_ok_kv; [exact Hf|done|done].
Qed.

(** What is left alone once the plan is made. *)
Record output_frame s s' : Prop := {
  of_config : config s' = config s;
  of_requests : requests s' = requests s;
  of_objects : objects s' = objects s;
  of_finished : finished_req_ids s' = finished_req_ids s
}.
#[local] Instance output_frame_preorder : PreOrder output_frame.
Proof. split; [by split|]. intros s1 s2 s3 [? ? ? ?] [? ? ? ?]. split; congruence. Qed.

Lemma common_prefix_blocks_spec s t rs w :
  loop_ok hash_function NONE_HASH tok s t rs w →
  wp common_prefix_blocks (λ _ s', loop_ok hash_function NONE_HASH tok s' t rs w ∧ output_frame s s') s.
Proof.
  intros Hl. unfold common_prefix_blocks. apply wp_bind, wp_gets. rewrite (lp_running _ _ _ _ _ _ _ Hl).
  destruct rs as [|r rs]; [by wp_steps|].
  destruct (mo_running _ _ _ _ _ _ (lp_members _ _ _ _ _ _ _ Hl) r) as (req & Hreq & _ & Hst & _); [by left|].
  apply wp_bind. eapply wp_the_request; [exact Hreq|]. apply wp_zoom.
  eapply wp_mono; [apply (common_prefix_law (kv_cache_manager s) (obj_toks (objects s))); [apply Hl|done]|].
  intros ids m' Hf. split; [by apply loop_ok_kv_all|by split].
Qed.

Definition output_of p (fin : gset string) (out : SchedulerOutput) : Prop :=
  (new_req_id <$> scheduled_new_reqs out) = scheduled_new p ∧
  req_ids (scheduled_cached_reqs out) = scheduled_running p ++ scheduled_resumed p ∧
  scheduled_spec_decode_tokens out = plan_spec_tokens p ∧
  num_scheduled_tokens out = plan_tokens p ∧ total_num_scheduled_tokens out = zsum (plan_tokens p).*2 ∧
  out_finished_req_ids out = fin.

Lemma plan_keys total p rs r :
  plan_ok total p rs → r ∈ scheduled_new p ++ scheduled_resumed p ++ scheduled_running p →
  (r ∈ rs) ∧ is_Some (dict_get r (plan_tokens p)) ∧ is_Some (req_to_new_block_ids p !! r).
Proof.
  intros [Hp _ Hs Hb _ _ _ _] Hr. rewrite <- Hp in Hr. split; [by apply Hs|]. split; [|by apply Hb].
  clear -Hr. induction (plan_tokens p) as [|[k v] d IH]; cbn in *; [by apply not_elem_of_nil in Hr|].
  case_decide; [by eexists|]. apply IH. apply elem_of_cons in Hr as [->|?]; done.
Qed.

Lemma make_cached_spec total s t rs w p :
  loop_ok hash_function NONE_HASH tok s t rs w → plan_ok total p rs →
  wp (_make_cached_request_data p) (λ d s', s' = s ∧ req_ids d = scheduled_running p ++ scheduled_resumed p) s.
Proof.
  intros Hl Hp. unfold _make_cached_request_data. apply wp_bind, wp_gets, wp_bind, wp_gets, wp_bind.
  eapply wp_mono; [apply (wp_map_each_read (λ r row, row.1.1.1 = r))|].
  - intros r Hr. destruct (plan_keys total p rs r Hp) as (Hin & [n Hn] & [bl Hbl]).
    { apply elem_of_app in Hr as [?|?]; rewrite !elem_of_app; tauto. }
    destruct (mo_running _ _ _ _ _ _ (lp_members _ _ _ _ _ _ _ Hl) r Hin) as (req & Hreq & _).
    unfold cached_request_row. apply wp_bind. eapply wp_the_request; [exact Hreq|].
    rewrite Hn. apply wp_bind. eapply wp_lift_outcome; [done|]. cbv zeta.
    apply wp_bind. eapply wp_lift_outcome; [apply from_dict_some; exact Hbl|]. apply wp_ret. split; [done|].
    apply (ro_id _ _ _ _ _ (co_objects _ _ _ _ (lp_core _ _ _ _ _ _ _ Hl) r req Hreq)).
  - intros rows s' [-> Hrows]. apply wp_ret. split; [done|]. cbn [req_ids].
    induction Hrows as [|r row l rows <- _ IH]; [done|]. cbn. by rewrite IH.
Qed.

Lemma make_output_spec total s t rs w p :
  loop_ok hash_function NONE_HASH tok s t rs w → plan_ok total p rs →
  wp (make_output p) (λ out s', loop_ok hash_function NONE_HASH tok s' t rs w ∧ output_frame s s' ∧
    output_of p (finished_req_ids s) out) s.
Proof.
  intros Hl Hp. unfold make_output. apply wp_bind. eapply wp_mono; [by eapply common_prefix_blocks_spec|].
  intros common s1 [Hl1 Hf1]. apply wp_bind, wp_get, wp_bind, wp_zoom.
  destruct (bitmask_total (request_dict s1) (structured_ids p) (plan_spec_tokens p) (structured_output_manager s1)) as (v & g' & Hv).
  unfold wp at 1. rewrite Hv. set (s2 := set_structured g' s1).
  assert (Hl2 : loop_ok hash_function NONE_HASH tok s2 t rs w).
  { destruct Hl1 as [? Hc ? Hm ?]. split; try done; [by destruct Hc|by destruct Hm]. }
  assert (Hf2 : output_frame s s2) by (etransitivity; [exact Hf1|by split]).
  apply wp_bind. eapply wp_mono; [apply (wp_map_each_read (λ r row, new_req_id row = r))|].
  { intros r Hr. destruct (plan_keys total p rs r Hp) as (Hin & _ & [bl Hbl]); [rewrite !elem_of_app; tauto|].
    destruct (mo_running _ _ _ _ _ _ (lp_members _ _ _ _ _ _ _ Hl2) r Hin) as (req & Hreq & _).
    apply wp_bind. eapply wp_the_request; [exact Hreq|]. 
    apply wp_bind. eapply wp_lift_outcome; [apply from_dict_some; exact Hbl|]. apply wp_ret. split; [done|].
    apply (ro_id _ _ _ _ _ (co_objects _ _ _ _ (lp_core _ _ _ _ _ _ _ Hl2) r req Hreq)). }
  intros news s' [-> Hnews]. apply wp_bind. eapply wp_mono; [by eapply make_cached_spec|]. intros d s' [-> Hd].
  apply wp_bind, wp_gets, wp_bind, wp_zoom. unfold get_freed_ids. wp_steps.
  set (ecm := set_freed [] (encoder_cache_manager s2)). csplit.
  - eapply (loop_ok_encoder hash_function NONE_HASH tok s2); [done|].
    pose proof (lp_core _ _ _ _ _ _ _ Hl2) as Hc2.
    apply core_ok_encoder; [done| |by left]. destruct (co_enc _ _ _ _ Hc2). by split.
  - etransitivity; [exact Hf2|by split].
  - split_and!; cbn; try done; [|by destruct Hf2].
    clear -Hnews. induction Hnews as [|r row l rows <- _ IH]; [done|]. cbn. by rewrite IH.
Qed.

(** ** After the step *)
Lemma free_encoder_inputs_spec s r req :
  core_ok s → objects s !! r = Some req →
  wp (_free_encoder_inputs r) (λ _ s', ∃ ecm, s' = set_encoder ecm s ∧ core_ok s') s.
Proof.
  intros Hc Hreq. unfold _free_encoder_inputs. apply wp_bind. eapply wp_the_request; [exact Hreq|]. apply wp_bind, wp_gets.
  pose proof (co_objects _ _ _ _ Hc r req Hreq) as Hro. pose proof (ro_id _ _ _ _ _ Hro) as Hid.
  set (ids := elements (get_cached_input_ids (encoder_cache_manager s) req)).
  assert (Hnd : NoDup ids) by apply NoDup_elements.
  apply (wp_for_each (λ _ todo s', ∃ ecm, s' = set_encoder ecm s ∧ core_ok s' ∧ ∀ i, i ∈ todo → i ∈ ids_of ecm r)).
  - exists (encoder_cache_manager s). rewrite set_encoder_same. split_and!; [done|done|].
    intros i Hi. apply elem_of_elements in Hi. unfold get_cached_input_ids in Hi. by rewrite Hid in Hi.
  - intros done i todo s' Hl (ecm & -> & Hc' & Htodo). pose proof (Htodo i ltac:(by left)) as Hi.
    assert (Hof : input_of req i) by (by eapply (co_cached _ _ _ _ Hc'); [|exact Hi]).
    destruct (lookup_lt_is_Some_2 (mm_positions req) (Z.to_nat i)) as [pos Hpos]; [unfold input_of, len in Hof; lia|].
    apply wp_bind. eapply wp_lift_outcome.
    { destruct Hof as [Hi0 _]. rewrite <- (Z2Nat.id i) by done. by apply py_index_lookup. }
    assert (Hni : i ∉ todo). { rewrite Hl in Hnd. apply NoDup_app in Hnd as (_ & _ & [Hn _]%NoDup_cons). done. }
    case_decide.
    + apply wp_zoom. cbn [encoder_cache_manager set_encoder].
      eapply wp_mono; [apply (free_encoder_input_spec tok)|].
      * apply (co_enc _ _ _ _ Hc').
      * apply Hro.
      * done.
      * unfold has_cache, get_cached_input_ids. rewrite Hid. by apply bool_decide_eq_true.
      * intros _ ecm' (He & _ & _ & _ & Hids). exists ecm'. split; [done|]. split.
        -- apply (core_ok_encoder hash_function NONE_HASH tok (set_encoder ecm s)); [done|done|]. intros id j Hj.
           rewrite Hids in Hj. left. cbn. case_decide; [|done]. by apply elem_of_difference in Hj as [? _].
        -- intros j Hj. rewrite Hids, Hid. rewrite decide_True by done. apply elem_of_difference.
           split; [apply Htodo; by right|]. intros ->%elem_of_singleton. done.
    + apply wp_ret. exists ecm. split_and!; [done|done|]. intros j Hj. apply Htodo. by right.
  - intros s' (ecm & -> & Hc' & _). by exists ecm.
Qed.

(** The tokens of the entries that are still to be handled. *)
Definition todo_t (todo : list (string * Z)) (x : req_ref) : Z := default 0 (dict_get x todo).
Lemma todo_t_none todo x : x ∉ todo.*1 → todo_t todo x = 0.
Proof.
  unfold todo_t. intros Hr. induction todo as [|[k v] d IH]; simpl in *; [done|].
  apply not_elem_of_cons in Hr as [? ?]. rewrite decide_False by congruence. by apply IH.
Qed.

Lemma wp_request_at id (Q : Request → Sched → Prop) s req :
  (id ∈ requests s) → objects s !! id = Some req → Q req s → wp (request_at id) Q s.
Proof.
  intros Hid Hreq HQ. unfold request_at. apply wp_bind, wp_get. unfold request_dict.
  rewrite (map_lookup_filter_Some_2 _ (objects s) id req); [by apply wp_ret|done|done].
Qed.

(** A running request's object changes. *)
Lemma loop_ok_alter s t t' rs w r f :
  loop_ok hash_function NONE_HASH tok s t rs w → r ∈ rs →
  (∀ req, objects s !! r = Some req → same_request (is_async (config s)) req (f req) ∧ status (f req) = status req ∧
     num_computed_tokens (f req) + t' r = num_computed_tokens req + t r ∧
     num_tokens_with_spec (f req) = num_tokens_with_spec req ∧ 0 <= num_computed_tokens (f req)) →
  0 <= t' r → (∀ x, x ≠ r → t' x = t x) →
  loop_ok hash_function NONE_HASH tok (set_objects (alter f r (objects s)) s) t' rs w.
Proof.
  intros [Hwa Hc Hru [Hmr Hmw] Hnd] Hin Hf Ht0 Ht.
  assert (Hsame : ∀ req, objects s !! r = Some req → same_request (is_async (config s)) req (f req)) by (intros req Hreq; by apply Hf).
  destruct (core_ok_alter hash_function NONE_HASH tok s r f Hc Hsame) as [Hc' Hh]. split; try done. split.
  - intros x Hx. destruct (Hmr x Hx) as (req & Hreq & ? & ? & ? & ? & ? & ? & ?). destruct (decide (x = r)) as [->|Hne].
    + destruct (Hf req Hreq) as ([_ _ Hpl _ _ _] & Hst & Hsum & Hspec & Hc0).
      exists (f req). rewrite Hst, Hsum, Hspec. csplit; try done; [cbn; by rewrite lookup_alter_eq, Hreq|by apply Hh|lia].
    + exists req. rewrite (Ht x Hne). csplit; try done; [cbn; by rewrite lookup_alter_ne|by apply Hh].
  - intros x Hx. destruct (Hmw x Hx) as (req & ? & ? & ? & ? & ?). exists req. csplit; try done.
    cbn. rewrite lookup_alter_ne; [done|]. intros <-. apply NoDup_app in Hnd as (_ & Hd & _). by eapply Hd.
Qed.

(** What the updates after a step leave alone. *)
Record update_frame s s' : Prop := {
  uf_config : config s' = config s;
  uf_requests : requests s' = requests s;
  uf_finished : finished_req_ids s' = finished_req_ids s
}.
#[local] Instance update_frame_preorder : PreOrder update_frame.
Proof. split; [by split|]. intros s1 s2 s3 [? ? ?] [? ? ?]. split; congruence. Qed.

(** Scheduled requests with the draft tokens [spec], the tokens of [todo] still to be
    counted. *)
Definition drafts_left (ids : list req_ref) (spec : gmap string (list Z)) s (todo : list (string * Z)) : Prop :=
  ∀ id, id ∈ ids → ∃ req, objects s !! id = Some req ∧ computed_to req (todo_t todo id) (default [] (spec !! id)).

Lemma drafts_left_alter ids spec s s' todo todo' r f :
  drafts_left ids spec s todo → objects s' = alter f r (objects s) →
  (∀ req, objects s !! r = Some req → num_tokens (f req) = num_tokens req ∧ spec_token_ids (f req) = spec_token_ids req ∧
     num_output_placeholders req <= num_output_placeholders (f req) ∧
     num_computed_tokens (f req) + todo_t todo' r = num_computed_tokens req + todo_t todo r) →
  (∀ x, x ≠ r → todo_t todo' x = todo_t todo x) → drafts_left ids spec s' todo'.
Proof.
  intros Hd Ho Hf Ht id Hl. destruct (Hd id Hl) as (req & Hreq & Hto & Hdr). rewrite Ho.
  destruct (decide (id = r)) as [->|Hne].
  - exists (f req). destruct (Hf req Hreq) as (E1 & E2 & ? & E3). rewrite lookup_alter_eq, Hreq. split; [done|].
    unfold computed_to. rewrite E1, E2, E3. split; [lia|done].
  - exists req. rewrite lookup_alter_ne, Ht by done. done.
Qed.

Lemma advance_requests_spec s tokens rs w ids spec :
  loop_ok hash_function NONE_HASH tok s (todo_t tokens) rs w → NoDup tokens.*1 → (∀ x, x ∈ tokens.*1 → x ∈ rs) →
  drafts_left ids spec s tokens →
  wp (for_each tokens (λ '(id, n),
    request ← request_at id;
    update_request id (set_num_computed_tokens (num_computed_tokens request + n)) ;;
    if has_encoder_inputs request then _free_encoder_inputs id else mret tt))
    (λ _ s', loop_ok hash_function NONE_HASH tok s' (λ _, 0) rs w ∧ update_frame s s' ∧ drafts_left ids spec s' []) s.
Proof.
  intros Hl Hnd Hsub Hdr.
  apply (wp_for_each (λ _ todo s', loop_ok hash_function NONE_HASH tok s' (todo_t todo) rs w ∧ update_frame s s' ∧
    drafts_left ids spec s' todo)).
  - done.
  - intros done [id n] todo s' Htok (Hl' & Hf' & Hdr'). rewrite Htok, fmap_app in Hnd. cbn in Hnd.
    apply NoDup_app in Hnd as (_ & _ & [Hni _]%NoDup_cons).
    assert (Hin : id ∈ rs) by (apply Hsub; rewrite Htok, fmap_app; apply elem_of_app; right; by left).
    destruct (mo_running _ _ _ _ _ _ (lp_members _ _ _ _ _ _ _ Hl') id Hin) as (req & Hreq & Hq & _ & Hc0 & Ht0 & _).
    assert (Ht : todo_t ((id, n) :: todo) id = n) by (unfold todo_t; cbn; by rewrite decide_True).
    rewrite Ht in Ht0. apply wp_bind. eapply wp_request_at; [done|done|]. apply wp_bind, wp_update_request.
    set (f := set_num_computed_tokens (num_computed_tokens req + n)). set (s1 := set_objects (alter f id (objects s')) s').
    assert (Hl1 : loop_ok hash_function NONE_HASH tok s1 (todo_t todo) rs w).
    { eapply (loop_ok_alter s' (todo_t ((id, n) :: todo))); [done|done| | |].
      - intros req' Hreq'. assert (req' = req) as -> by congruence.
        rewrite Ht, (todo_t_none todo id Hni). unfold f. split_and!; try done; cbn; lia.
      - by rewrite (todo_t_none todo id Hni).
      - intros x Hx. unfold todo_t. cbn. by rewrite decide_False by congruence. }
    assert (Hf1 : update_frame s s1) by (etransitivity; [exact Hf'|by split]).
    assert (Hdr1 : drafts_left ids spec s1 todo).
    { eapply drafts_left_alter; [exact Hdr'|done| |].
      - intros req' Hreq'. assert (req' = req) as -> by congruence. rewrite Ht, (todo_t_none todo id Hni).
        unfold f. cbn. split_and!; [done|done|lia|lia].
      - intros x Hx. unfold todo_t. cbn. by rewrite decide_False by congruence. }
    destruct (has_encoder_inputs req); [|by apply wp_ret].
    eapply wp_mono; [apply (free_encoder_inputs_spec s1 id (f req)); [apply Hl1|cbn; by rewrite lookup_alter_eq, Hreq]|].
    intros _ s2 (ecm & -> & Hc2). split; [|split; [etransitivity; [exact Hf1|by split]|done]].
    by apply (loop_ok_encoder hash_function NONE_HASH tok s1).
  - intros s' (Hl' & Hf' & Hdr'). split; [|done]. eapply loop_ok_ext; [exact Hl'|]. done.
Qed.

(** The placeholders of the asynchronous scheduler. *)
Lemma add_placeholders_spec s (tokens : list (string * Z)) rs w ids spec :
  loop_ok hash_function NONE_HASH tok s (λ _, 0) rs w → (∀ x, x ∈ tokens.*1 → x ∈ rs) →
  is_async (config s) = true → drafts_left ids spec s [] →
  wp (for_each tokens (λ '(id, _),
      request ← request_at id;
      if decide (num_computed_tokens request = num_tokens request + num_output_placeholders request) then
        update_request id (set_num_output_placeholders (num_output_placeholders request + 1))
      else mret tt))
    (λ _ s', loop_ok hash_function NONE_HASH tok s' (λ _, 0) rs w ∧ update_frame s s' ∧ drafts_left ids spec s' []) s.
Proof.
  intros Hl Hsub Has Hdr.
  apply (wp_for_each (λ _ _ s', loop_ok hash_function NONE_HASH tok s' (λ _, 0) rs w ∧ update_frame s s' ∧
    drafts_left ids spec s' [])).
  - done.
  - intros done [id n] todo s' Htok (Hl' & Hf' & Hdr').
    assert (Hin : id ∈ rs) by (apply Hsub; rewrite Htok, fmap_app; apply elem_of_app; right; by left).
    destruct (mo_running _ _ _ _ _ _ (lp_members _ _ _ _ _ _ _ Hl') id Hin) as (req & Hreq & Hq & _ & Hc0 & _).
    apply wp_bind. eapply wp_request_at; [done|done|]. case_decide; [|by apply wp_ret].
    apply wp_update_request. split; [|split; [etransitivity; [exact Hf'|by split]|]].
    + apply (loop_ok_alter s' (λ _, 0)); try done. intros req' Hreq'. assert (req' = req) as -> by congruence.
      split; [|by split_and!]. rewrite (uf_config _ _ Hf'), Has. split; try done. cbn. lia.
    + eapply drafts_left_alter; [exact Hdr'|done| |done]. intros req' Hreq'.
      assert (req' = req) as -> by congruence. cbn. split_and!; [done|done|lia|lia].
  - done.
Qed.

Lemma update_after_schedule_spec s tokens rs w ids spec :
  loop_ok hash_function NONE_HASH tok s (todo_t tokens) rs w → NoDup tokens.*1 → (∀ x, x ∈ tokens.*1 → x ∈ rs) →
  drafts_left ids spec s tokens →
  wp (_update_after_schedule tokens) (λ _ s', loop_ok hash_function NONE_HASH tok s' (λ _, 0) rs w ∧
    config s' = config s ∧ requests s' = requests s ∧ finished_req_ids s' = ∅ ∧ drafts_left ids spec s' []) s.
Proof.
  intros Hl Hnd Hsub Hdr. unfold _update_after_schedule, base_update_after_schedule. apply wp_bind, wp_bind.
  eapply wp_mono; [by eapply advance_requests_spec|]. intros _ s1 (Hl1 & [Hf1 Hf2 _] & Hdr1). wp_steps.
  set (s2 := set_finished_req_ids ∅ s1).
  assert (Hl2 : loop_ok hash_function NONE_HASH tok s2 (λ _, 0) rs w).
  { destruct Hl1 as [? Hc ? Hm ?]. split; try done; [by destruct Hc|by destruct Hm]. }
  destruct (is_async (config s2)) eqn:Has; [|by wp_steps].
  eapply wp_mono; [by eapply add_placeholders_spec|]. intros _ s3 (Hl3 & [Hc3 Hr3 Hf3] & Hdr3).
  split; [done|]. split_and!; [by rewrite Hc3|by rewrite Hr3|by rewrite Hf3|done].
Qed.

(** ** [schedule] *)

(** What a step promises of its output. *)
Record step_output s s' (out : SchedulerOutput) : Prop := {
  so_distinct : NoDup (num_scheduled_tokens out).*1;
  so_requests : (num_scheduled_tokens out).*1 ≡ₚ
    (new_req_id <$> scheduled_new_reqs out) ++ req_ids (scheduled_cached_reqs out);
  so_running : ∀ id, id ∈ (num_scheduled_tokens out).*1 → id ∈ running s';
  so_positive : ∀ n, n ∈ (num_scheduled_tokens out).*2 → 0 < n;
  so_total : total_num_scheduled_tokens out = zsum (num_scheduled_tokens out).*2;
  so_budget : total_num_scheduled_tokens out <= max_num_scheduled_tokens (config s);
  so_finished : out_finished_req_ids out = finished_req_ids s;
  so_cleared : finished_req_ids s' = ∅;
  so_config : config s' = config s;
  so_known : requests s' = requests s;
  (** A scheduled request is computed up to its last draft token at most, and its draft
      tokens come after all of its tokens. *)
  so_drafts : drafts_left (num_scheduled_tokens out).*1 (scheduled_spec_decode_tokens out) s' []
}.

Lemma publish_events_spec now s t rs w :
  loop_ok hash_function NONE_HASH tok s t rs w →
  wp (publish_events now) (λ _ s', loop_ok hash_function NONE_HASH tok s' t rs w ∧ output_frame s s') s.
Proof.
  intros Hl. unfold publish_events. apply wp_bind, wp_zoom.
  eapply wp_mono; [apply events_law; apply Hl|]. intros evs m' Hf.
  assert (Hl1 : loop_ok hash_function NONE_HASH tok (set_kv m' s) t rs w) by (by apply loop_ok_kv_all).
  destruct evs; wp_steps; [done|]. split; [|by split].
  destruct Hl1 as [? Hc ? Hm ?]. split; try done; [by destruct Hc|by destruct Hm].
Qed.

Lemma schedule_spec now s :
  sched_ok s →
  wp (schedule hash_function NONE_HASH now) (λ out s', sched_ok s' ∧ step_output s s' out) s.
Proof.
  intros Hok. pose proof (plan_step_spec now s Hok) as Hplan. unfold wp in Hplan. unfold schedule, wp.
  destruct (plan_step hash_function NONE_HASH now (s, initial_plan (config s))) as [[[]|e] [s1 p]]; [|done].
  destruct Hplan as (Hf1 & rs & w & Hw). cbn [fst snd] in *.
  pose proof Hw as [Hwa1 Hc1 Hru1 Hm1 Hnd1 Hp1 Hdr1 Hmax1 Hall1]. rewrite !app_nil_r in *.
  assert (Hl1 : loop_ok hash_function NONE_HASH tok s1 (plan_t p) rs w) by (by split).
  match goal with |- match ?m s1 with _ => _ end => enough (wp m (λ out s', sched_ok s' ∧ step_output s s' out) s1) as Hwp by exact Hwp end.
  apply wp_bind. eapply wp_mono; [by eapply make_output_spec|].
  intros out s2 (Hl2 & Hf2 & Hnew & Hcached & Hspec & Htok & Htotal & Hfin). apply wp_bind, wp_gets.
  rewrite (co_connector _ _ _ _ (lp_core _ _ _ _ _ _ _ Hl2)). apply wp_bind, wp_ret, wp_bind.
  eapply wp_mono; [by eapply publish_events_spec|]. intros _ s3 [Hl3 Hf3]. apply wp_bind.
  eapply wp_mono; [apply (update_after_schedule_spec s3 (num_scheduled_tokens out) rs w (plan_tokens p).*1 (plan_spec_tokens p))|].
  - rewrite Htok. exact Hl3.
  - rewrite Htok. apply Hp1.
  - intros x Hx. rewrite Htok in Hx. by apply (pl_subset _ _ _ Hp1).
  - intros id Hid. destruct (dr_scheduled _ _ _ Hdr1 id Hid I) as (req & ? & ?). exists req. rewrite Htok.
    rewrite (of_objects _ _ Hf3), (of_objects _ _ Hf2). done.
  - intros _ s4 (Hl4 & Hc4 & Hr4 & Hfin4 & Hdr4). apply wp_ret.
    pose proof Hf1 as [Hcf1 Hrq1 _ _ Hfn1 _ _]. destruct Hf2 as [Hcf2 Hrq2 _ Hfn2], Hf3 as [Hcf3 Hrq3 _ Hfn3].
    assert (config s4 = config s) as Hcfg by congruence. split.
    + destruct Hl4 as [Hwa4 Hcore4 Hru4 Hm4 Hnd4 Hall4]. exists w. rewrite Hru4. split_and!; try done.
      rewrite Hcfg, <- Hcf1. done.
    + pose proof (pl_total _ _ _ Hp1). pose proof (pl_budget _ _ _ Hp1).
      split; rewrite ?Htotal, ?Hcfg, ?Htok; try done.
      * apply Hp1.
      * rewrite Hnew, Hcached, (pl_perm _ _ _ Hp1). f_equiv. apply Permutation_app_comm.
      * intros x Hx. rewrite (lp_running _ _ _ _ _ _ _ Hl4). by apply (pl_subset _ _ _ Hp1).
      * intros n Hn. by apply (pl_pos _ _ _ Hp1).
      * lia.
      * by rewrite Hfin.
      * congruence.
      * by rewrite Hspec.
Qed.
End step.
