(* ===== verification/SchedulerLifecycle.v ===== *)
(** The beginning and the end of a request: a new scheduler, [add_request],
    [_free_request] and [finish_requests].  Each raises nothing and keeps the
    scheduler's invariant. *)
From Stdlib Require Import ZArith Lia QArith.
From stdpp Require Import base strings countable gmap sets fin_maps sorting list.
From S2P Require Import Prelude Request FreeBlockQueue BlockHash BlockPool KVCacheSpec SingleTypeManager KVCacheCoordinator KVCacheManager SlotContract RequestQueue EncoderCache SchedulerData Scheduler SchedulerEncoder SchedulerInvariant SchedulerRunning.
Local Open Scope Z_scope.

Section lifecycle.
Context {C G : Type} `{!KVConnector C, !StructuredOutputManager G}.
Context (hash_function : Z * list Z * option (list extra_key) → Z) (NONE_HASH : Z).
Context `{!SlotContract hash_function NONE_HASH}.
Context (tok : string → Z → Z).
Abbreviation Sched := (Scheduler C G).
Abbreviation core_ok := (core_ok hash_function NONE_HASH tok).
Abbreviation members_ok := (members_ok hash_function NONE_HASH).
Abbreviation sched_ok := (sched_ok hash_function NONE_HASH tok).
Implicit Types (s : Sched) (t : req_ref → Z) (rs wl w : list req_ref) (r : req_ref) (req : Request).
Abbreviation kv_events s := (enable_kv_cache_events (the_pool (kv_cache_manager s))).

(** * A new scheduler *)
Lemma new_encoder_inv size : enc_inv tok (EncoderCacheManager_init size).
Proof.
  split; [|by intros rid ids; cbn; rewrite lookup_empty]. cbn. unfold used. rewrite map_fold_empty. lia.
Qed.

Lemma Scheduler_init_spec cfg kv_cfg caching eagle ev blocks size inc (g : G) s :
  config_ok cfg → 0 <= max_num_running_reqs cfg → supported kv_cfg caching →
  Scheduler_init cfg kv_cfg caching eagle ev blocks size inc (None : option C) g = Ok s →
  sched_ok s ∧ config s = cfg ∧ objects s = ∅ ∧ requests s = ∅ ∧ running s = [] ∧ waiting s = FCFSQueue [] ∧
  structured_output_manager s = g.
Proof.
  intros Hcfg Hmax Hsup. unfold Scheduler_init.
  rewrite decide_False by (intros [[? ?] _]; done). case_decide; [|done].
  destruct (KVCacheManager_init kv_cfg (max_model_len cfg) caching eagle (cfg_log_stats cfg) ev) as [kv|] eqn:Ekv;
    cbn [mbind outcome_bind]; [|done].
  intros [= <-]. destruct (init_law kv_cfg _ _ _ _ _ kv (obj_toks ∅) Hsup Ekv) as (Hinv & Hno & Hlen & Hlog).
  rewrite (cf_policy _ Hcfg). split; [|done]. exists []. split; [done|]. split; [|split; [|split; [|split]]].
  - split; cbn; try done. apply new_encoder_inv.
  - split; cbn; by intros id ?%not_elem_of_nil.
  - by apply NoDup_nil_2.
  - done.
  - intros id. cbn. set_solver.
Qed.

(** * Arrival *)

(** A request that arrives: well formed, with an id of its own. *)
Record arriving s req : Prop := {
  ar_ok : request_ok tok (config s) (kv_events s) (request_id req) req;
  ar_status : status req = WAITING ∨ status req = WAITING_FOR_FSM;
  ar_computed : num_computed_tokens req = 0;
  ar_new : objects s !! (request_id req : req_ref) = None
}.

Lemma members_known s t rs wl id : members_ok s t rs wl → id ∈ rs ++ wl → is_Some (objects s !! id) ∧ id ∈ requests s.
Proof.
  intros [Hr Hw] [Hin|Hin]%elem_of_app.
  - destruct (Hr id Hin) as (req & ? & ? & _). split; [by eexists|done].
  - destruct (Hw id Hin) as (req & ? & ? & _). split; [by eexists|done].
Qed.

Lemma core_ok_new s req :
  core_ok s → arriving s req →
  core_ok (set_objects (<[request_id req := req]> (objects s)) s) ∧
  ∀ x c, has_slots (kv_cache_manager s) (obj_toks (objects s)) x c →
    has_slots (kv_cache_manager s) (obj_toks (<[request_id req := req]> (objects s))) x c.
Proof.
  intros Hc [Hok _ _ Hnew].
  destruct (grow_law (kv_cache_manager s) _ (obj_toks (<[request_id req := req]> (objects s))) (co_kv _ _ _ _ Hc)) as [Hi Hh].
  { intros x. unfold obj_toks. destruct (decide (x = request_id req)) as [->|Hne].
    - rewrite Hnew. apply prefix_nil.
    - by rewrite lookup_insert_ne. }
  split; [|done]. destruct (co_fresh _ _ _ _ Hc _ Hnew) as [_ Hempty]. destruct Hc. split; try done; cbn.
  - intros x r0 [[<- <-]|[_ Hr0]]%lookup_insert_Some; [done|by apply co_objects].
  - intros x r0 i [[<- <-]|[_ Hr0]]%lookup_insert_Some Hi'; [by rewrite Hempty in Hi'|by eapply co_cached].
  - intros x [Hx _]%lookup_insert_None. by apply co_fresh.
Qed.

(** The request joins the end of the queue. *)
Lemma add_request_spec now s req :
  sched_ok s → arriving s req →
  wp (add_request req now) (λ _ s', sched_ok s' ∧ config s' = config s ∧
    requests s' = {[request_id req]} ∪ requests s ∧ running s' = running s ∧
    queue_refs (waiting s') = queue_refs (waiting s) ++ [request_id req] ∧
    (∀ x, x ≠ request_id req → objects s' !! x = objects s !! x) ∧
    structured_output_manager s' = structured_output_manager s) s.
Proof.
  intros (w & Hwa & Hc & Hm & Hnd & Hmax & Hall) Har. set (id := request_id req : req_ref).
  assert (Hnew : objects s !! id = None) by apply Har.
  assert (Hno : id ∉ running s ++ w).
  { intros [[x Hx] _]%(members_known _ _ _ _ _ Hm). rewrite Hnew in Hx. done. }
  unfold add_request, on_waiting. wp_steps. rewrite Hwa. eapply wp_lift_outcome; [done|]. wp_steps.
  set (s1 := set_requests _ _).
  destruct (core_ok_new s req Hc Har) as [Hc1 Hh].
  assert (Hok : ∀ req', all_token_ids req' = all_token_ids req → params req' = params req → status req' = status req →
    num_computed_tokens req' = 0 → core_ok (set_objects (<[id := req']> (objects s1)) s1) →
    (∀ x c, has_slots (kv_cache_manager s) (obj_toks (objects s)) x c →
      has_slots (kv_cache_manager s) (obj_toks (<[id := req']> (objects s1))) x c) →
    sched_ok (set_objects (<[id := req']> (objects s1)) s1)).
  { intros req' Htok Hpar Hst Hz Hc' Hh'. exists (w ++ [id]). split; [done|]. split; [done|]. split; [|split; [|split]].
    - destruct Hm as [Hmr Hmw]. split; intros x Hx.
      + destruct (Hmr x Hx) as (r0 & ? & ? & ? & ? & ? & ? & ? & ?). exists r0. cbn.
        csplit; try done; [|set_solver|by apply Hh'].
        rewrite !lookup_insert_ne; [done|..]; intros <-; apply Hno, elem_of_app; by left.
      + apply elem_of_app in Hx as [Hx| ->%list_elem_of_singleton].
        * destruct (Hmw x Hx) as (r0 & ? & ? & ? & ? & ?). exists r0. cbn. csplit; try done; [|set_solver].
          rewrite !lookup_insert_ne; [done|..]; intros <-; apply Hno, elem_of_app; by right.
        * exists req'. cbn. rewrite lookup_insert_eq. csplit; try done; [set_solver| |by apply (co_fresh _ _ _ _ Hc), Har].
          rewrite Hst. destruct (ar_status _ _ Har); [by left|by right; right].
    - rewrite app_assoc. apply NoDup_app. split_and!; [done| |by apply NoDup_singleton].
      by intros x Hx ->%list_elem_of_singleton.
    - done.
    - intros x. cbn. fold id. intros [->%elem_of_singleton|Hx%Hall]%elem_of_union; set_solver. }
  assert (Hins : <[id := req]> (objects s1) = objects s1) by apply insert_insert_eq.
  assert (Hc1' : core_ok s1) by (by destruct Hc1).
  destruct (cfg_log_stats (config s1)).
  - apply (wp_update_object id _ s1 req); [cbn; apply lookup_insert_eq|]. split_and!; try done.
    + destruct (core_ok_insert hash_function NONE_HASH tok s1 id req (record_event QUEUED now req) Hc1') as [Hc2 Hh2]; try done.
      * cbn. apply lookup_insert_eq.
      * destruct (ar_ok _ _ Har). by split.
      * apply Hok; try done; [apply Har|]. intros x c Hx. by apply Hh2, Hh.
    + intros x Hx. cbn. by rewrite !lookup_insert_ne.
  - apply wp_ret. split_and!; try done.
    + assert (s1 = set_objects (<[id := req]> (objects s1)) s1) as -> by (rewrite Hins; by destruct s1).
      apply Hok; try done; [apply Har|by rewrite Hins; destruct Hc1'|]. by rewrite Hins.
    + intros x Hx. cbn. by rewrite !lookup_insert_ne.
Qed.

(** * The end of a request *)

(** [r] has left everything but the store of objects. *)
Record released s s' r : Prop := {
  re_core : core_ok s';
  re_members : ∀ t rs wl, members_ok s t rs wl → r ∉ rs → r ∉ wl → members_ok s' t rs wl;
  re_config : config s' = config s;
  re_objects : objects s' = objects s;
  re_requests : requests s' = requests s ∖ {[r]};
  re_waiting : waiting s' = waiting s;
  re_running : running s' = running s;
  re_structured : structured_output_manager s' = structured_output_manager s;
  re_finished : finished_req_ids s' = {[r]} ∪ finished_req_ids s;
  re_dict : finished_req_ids_dict s' =
    (λ d, add_finished (default 0 (client_index <$> (params <$> objects s !! r))) r d) <$> finished_req_ids_dict s;
  re_settings : same_settings (kv_cache_manager s) (kv_cache_manager s')
}.

Lemma members_ok_fields s s' t rs wl :
  config s' = config s → objects s' = objects s → kv_cache_manager s' = kv_cache_manager s →
  (∀ x, x ∈ rs ++ wl → x ∈ requests s → x ∈ requests s') → members_ok s t rs wl → members_ok s' t rs wl.
Proof.
  intros Hc Ho Hk Hq [Hmr Hmw]. split; intros x Hx.
  - destruct (Hmr x Hx) as (req & ? & ? & ?). exists req. rewrite Hc, Ho, Hk. split; [done|].
    split; [apply Hq; [apply elem_of_app; by left|done]|done].
  - destruct (Hmw x Hx) as (req & ? & ? & ?). exists req. rewrite Ho, Hk. split; [done|].
    split; [apply Hq; [apply elem_of_app; by right|done]|done].
Qed.

(** [_free_blocks] gives back the blocks and the hashes. *)
Lemma sched_free_blocks_spec s r req :
  core_ok s → objects s !! r = Some req → is_finished req = true → r ∈ requests s →
  wp (_free_blocks r) (λ _ s', ∃ m', s' = set_requests (requests s ∖ {[r]}) (set_kv m' s) ∧
    core_ok (set_kv m' s) ∧ slots_frame (.≠ r) (kv_cache_manager s) m' (obj_toks (objects s))) s.
Proof.
  intros Hc Hr Hfin Hq. pose proof (ro_id _ _ _ _ _ (co_objects _ _ _ _ Hc r req Hr)) as Hid.
  unfold _free_blocks, on_kv. apply wp_bind. eapply wp_the_request; [exact Hr|]. rewrite Hfin.
  apply wp_bind, wp_assert; [done|]. apply wp_bind, wp_zoom. eapply wp_mono; [apply free_law, (co_kv _ _ _ _ Hc)|]. intros _ m1 [Hf1 Hno]. rewrite Hid in Hf1, Hno.
  apply wp_bind, wp_zoom. cbn [fst snd]. change (kv_cache_manager (set_kv m1 s)) with m1.
  eapply wp_mono; [apply (forget_law m1 (obj_toks (objects s))); [apply Hf1|by rewrite Hid]|]. intros [] m2 Hf2; cbv beta in Hf2.
  wp_steps. rewrite decide_True by done. wp_steps. exists m2.
  assert (Hf : slots_frame (.≠ r) (kv_cache_manager s) m2 (obj_toks (objects s))).
  { destruct Hf1 as (_ & Hs1 & Hn1 & Hh1), Hf2 as (Hi2 & Hs2 & Hn2 & Hh2). split; [done|]. split; [by etransitivity|].
    split; intros; [by apply Hn2, Hn1|by apply Hh2, Hh1]. }
  split; [done|]. split; [|done]. apply (core_ok_kv _ _ _ _ _ _ Hc Hf). intros x Hx ->. congruence.
Qed.

Lemma sched_free_request_spec s r req :
  core_ok s → objects s !! r = Some req → is_finished req = true → r ∈ requests s →
  wp (_free_request r) (λ res s', res = None ∧ released s s' r) s.
Proof.
  intros Hc Hr Hfin Hq. pose proof (co_objects _ _ _ _ Hc r req Hr) as Hro. pose proof (ro_id _ _ _ _ _ Hro) as Hid.
  unfold _free_request, _connector_finished, on_encoder. apply wp_bind. eapply wp_the_request; [exact Hr|].
  rewrite Hfin. wp_steps; [done|]. rewrite (co_connector _ _ _ _ Hc). apply wp_ret. wp_steps.
  eapply wp_mono; [apply (encoder_free_spec tok); [apply Hc|apply Hro|]|].
  { intros i Hi. rewrite Hid in Hi. by apply (co_cached _ _ _ _ Hc r req). }
  intros _ ecm (He & _ & _ & _ & Hids). rewrite Hid in Hids. wp_steps.
  set (s1 := set_finished_dict _ _).
  assert (Hc1 : core_ok s1).
  { assert (core_ok (set_encoder ecm s)) as [] by (apply core_ok_encoder; [done|done|]; intros x i; rewrite Hids; case_decide; set_solver).
    by split. }
  eapply wp_mono; [by apply (sched_free_blocks_spec s1 r req)|]. intros _ s2 (m' & -> & Hc2 & Hf). wp_steps.
  split; [done|]. split; try done.
  - by destruct Hc2.
  - intros t rs wl Hm Hrs Hwl. apply (members_ok_fields (set_kv m' s1)); try done.
    + intros x Hx Hxq. cbn. apply elem_of_difference. split; [done|]. intros ->%elem_of_singleton.
      apply elem_of_app in Hx as [?|?]; done.
    + eapply members_ok_kv; [exact Hf| |by apply (members_ok_fields s)].
      intros x [Hx|Hx]%elem_of_app; intros ->; done.
  - cbn. by rewrite Hr.
  - by destruct Hf as (_ & ? & _).
Qed.

(** * Abort *)
Lemma load_requests_spec s (l : list req_ref) :
  (∀ r, r ∈ l → is_Some (objects s !! r)) →
  wp (load_requests l) (λ reqs s', s' = s ∧ Forall2 (λ r req, objects s !! r = Some req) l reqs) s.
Proof.
  intros Hl. apply wp_map_each_read. intros r Hr. destruct (Hl r Hr) as [req Hreq].
  eapply wp_the_request; [exact Hreq|]. by split.
Qed.

Lemma loaded_ids s (l : list req_ref) reqs (f : Request → bool) :
  core_ok s → Forall2 (λ r req, objects s !! r = Some req) l reqs → NoDup l →
  let ids := request_id ∘ params <$> List.filter f reqs in
  NoDup ids ∧ ∀ r, r ∈ ids ↔ r ∈ l ∧ ∃ req, objects s !! r = Some req ∧ f req = true.
Proof.
  intros Hc Hall Hnd. cbv zeta. induction Hall as [|r req l reqs Hr _ IH]; cbn.
  - split; [by apply NoDup_nil_2|]. intros r. rewrite !elem_of_nil. tauto.
  - apply NoDup_cons in Hnd as [Hrl Hnd]. destruct (IH Hnd) as [Hnd' Hin].
    pose proof (ro_id _ _ _ _ _ (co_objects _ _ _ _ Hc r req Hr)) as Hid. destruct (f req) eqn:Ef; cbn.
    + split; [constructor; [|done]; rewrite Hid, Hin; tauto|]. intros x. rewrite !elem_of_cons, Hid, Hin.
      split; [|tauto]. intros [->|[? ?]]; [|tauto]. split; [by left|]. by exists req.
    + split; [done|]. intros x. rewrite elem_of_cons, Hin. split; [tauto|]. intros [[->|?] (req' & ? & ?)]; [congruence|].
      split; [done|]. by exists req'.
Qed.

Lemma fcfs_remove_filter (q : list req_ref) r :
  NoDup q → r ∈ q → FCFSRequestQueue.remove_request q r = Ok (filter (.≠ r) q).
Proof.
  intros Hnd Hin. destruct (fcfs_remove_spec q r) as [Hspec _]. destruct (Hspec Hin) as (q1 & q2 & -> & Hq1 & ->).
  f_equal. apply NoDup_app in Hnd as (_ & _ & [Hq2 _]%NoDup_cons).
  rewrite filter_app, filter_cons_False by (intros H; by apply H).
  rewrite !list_filter_id; [done|..]; intros x Hx ->; done.
Qed.

Lemma remove_running_spec s (l : list req_ref) :
  NoDup (running s) → NoDup l → (∀ r, r ∈ l → r ∈ running s) →
  wp (for_each l (λ r, rs ← gets running;
        rs' ← lift_outcome (FCFSRequestQueue.remove_request rs r); modify (set_running rs')))
    (λ _ s', s' = set_running (filter (.∉ l) (running s)) s) s.
Proof.
  intros Hnd Hl Hsub. apply (wp_for_each (λ done todo s', s' = set_running (filter (.∉ done) (running s)) s)).
  - rewrite list_filter_id; [by destruct s|]. by intros x _ ?%not_elem_of_nil.
  - intros done r todo s' Hd ->. rewrite Hd in Hl. apply NoDup_app in Hl as (_ & Hdis & _).
    apply wp_bind, wp_gets, wp_bind. cbn [running set_running]. eapply wp_lift_outcome.
    { apply fcfs_remove_filter; [by apply NoDup_filter|]. apply list_elem_of_filter. split.
      - intros Hr. apply (Hdis r Hr). by left.
      - apply Hsub. rewrite Hd. set_solver. }
    apply wp_modify. unfold set_running. cbn. f_equal. rewrite list_filter_filter. apply list_filter_iff.
    intros x. rewrite elem_of_app, list_elem_of_singleton. tauto.
  - done.
Qed.

(** The last loop: every request ends with the status. *)
Lemma finish_loop_spec s rs w (l : list req_ref) st :
  core_ok s → members_ok s (λ _, 0) rs w → running s = rs → waiting s = FCFSQueue w → NoDup l →
  status_is_finished st = true →
  (∀ r, r ∈ l → is_Some (objects s !! r) ∧ (r ∈ requests s) ∧ (r ∉ rs) ∧ (r ∉ w)) →
  wp (for_each l (λ r, update_request r (set_status st) ;; _free_request r ;; mret tt))
    (λ _ s', core_ok s' ∧ members_ok s' (λ _, 0) rs w ∧ running s' = rs ∧ waiting s' = FCFSQueue w ∧
       config s' = config s ∧ structured_output_manager s' = structured_output_manager s ∧
       requests s' = requests s ∖ list_to_set l ∧ (∀ id, is_Some (objects s' !! id) ↔ is_Some (objects s !! id)) ∧
       finished_req_ids s' = list_to_set l ∪ finished_req_ids s) s.
Proof.
  intros Hc Hm Hru Hwa Hnd Hst Hl.
  apply (wp_for_each (λ done todo s', core_ok s' ∧ members_ok s' (λ _, 0) rs w ∧ running s' = rs ∧
       waiting s' = FCFSQueue w ∧ config s' = config s ∧ structured_output_manager s' = structured_output_manager s ∧
       requests s' = requests s ∖ list_to_set done ∧ (∀ id, is_Some (objects s' !! id) ↔ is_Some (objects s !! id)) ∧
       finished_req_ids s' = list_to_set done ∪ finished_req_ids s)).
  - split_and!; try done; set_solver.
  - intros done r todo s' Hd (Hc' & Hm' & Hru' & Hwa' & Hcf & Hso & Hrq & Hdom & Hfin).
    rewrite Hd in Hnd. apply NoDup_app in Hnd as (_ & Hdis & [Hrt _]%NoDup_cons).
    destruct (Hl r) as (Hsome & Hq & Hrs & Hrw); [rewrite Hd; set_solver|].
    apply Hdom in Hsome as [req Hreq]. set (req' := set_status st req).
    pose proof (co_objects _ _ _ _ Hc' r req Hreq) as Hro.
    assert (Hok : request_ok tok (config s') (kv_events s') r req').
    { destruct Hro. split; try done. unfold is_finished. cbn. by rewrite Hst. }
    apply wp_bind. eapply wp_update_object; [exact Hreq|]. fold req'. set (s1 := set_objects _ s').
    destruct (core_ok_insert hash_function NONE_HASH tok s' r req req' Hc' Hreq) as [Hc1 _]; [done..|].
    apply wp_bind. eapply wp_mono; [apply (sched_free_request_spec s1 r req'); [exact Hc1| |done|]|].
    + apply lookup_insert_eq.
    + cbn. rewrite Hrq. apply elem_of_difference. split; [done|]. rewrite elem_of_list_to_set.
      intros Hr. apply (Hdis r Hr). by left.
    + intros _ s2 [_ Hre]. apply wp_ret. destruct Hre as [Hc2 Hm2 Hcf2 Ho2 Hq2 Hw2 Hru2 Hso2 Hf2 _ _].
      split_and!; try done; try congruence.
      * apply Hm2; [|done|done]. by apply (members_ok_insert hash_function NONE_HASH tok s' _ _ _ r req req').
      * by rewrite Hru2.
      * by rewrite Hw2.
      * by rewrite Hcf2.
      * by rewrite Hso2.
      * rewrite Hq2. change (requests s1) with (requests s'). rewrite Hrq. set_solver.
      * intros id. rewrite Ho2. cbn. rewrite lookup_insert_is_Some, Hdom. split; [|destruct (decide (r = id)); tauto].
        intros [<-|[_ ?]]; [|done]. apply Hdom. by eexists.
      * rewrite Hf2. change (finished_req_ids s1) with (finished_req_ids s'). rewrite Hfin. set_solver.
  - done.
Qed.

(** The requests of [ids] that are known leave the queues and end with the status. *)
Lemma finish_requests_spec s (ids : list string) st :
  sched_ok s → NoDup ids → status_is_finished st = true →
  wp (finish_requests ids st) (λ _ s', sched_ok s' ∧ config s' = config s ∧
    structured_output_manager s' = structured_output_manager s ∧
    requests s' = requests s ∖ list_to_set ids ∧ running s' = filter (.∉ ids) (running s) ∧
    queue_refs (waiting s') = filter (.∉ ids) (queue_refs (waiting s)) ∧
    (∀ id, is_Some (objects s' !! id) ↔ is_Some (objects s !! id)) ∧
    finished_req_ids s' = (list_to_set ids ∩ requests s) ∪ finished_req_ids s) s.
Proof.
  intros (w & Hwa & Hc & Hm & Hnd & Hmax & Hall) Hids Hst.
  unfold finish_requests. apply wp_bind, wp_assert; [done|]. apply wp_bind, wp_get.
  set (valid := filter (.∈ requests s) ids).
  assert (Hvnd : NoDup valid) by (by apply NoDup_filter).
  assert (Hv : ∀ r, r ∈ valid → (r ∈ requests s) ∧ r ∈ ids) by (by intros r Hr%list_elem_of_filter).
  apply wp_bind. eapply wp_mono; [apply load_requests_spec|].
  { intros r Hr. by apply (members_known _ _ _ _ _ Hm), Hall, Hv. }
  intros reqs s' [-> Hreqs].
  destruct (loaded_ids s valid reqs (λ x : Request, bool_decide (status x = RUNNING)) Hc Hreqs Hvnd) as [Hn1 Hi1].
  destruct (loaded_ids s valid reqs (λ x : Request, negb (bool_decide (status x = RUNNING))) Hc Hreqs Hvnd) as [Hn2 Hi2].
  cbv beta zeta in *. set (run := request_id ∘ params <$> List.filter (λ x, bool_decide (status x = RUNNING)) reqs) in *.
  set (wait := request_id ∘ params <$> List.filter (λ x, negb (bool_decide (status x = RUNNING))) reqs) in *.
  pose proof Hnd as (Hndr & Hdis & _)%NoDup_app. destruct Hm as [Hmr Hmw].
  assert (Hrun : ∀ r, r ∈ run ↔ r ∈ running s ∧ r ∈ ids).
  { intros r. rewrite Hi1. split.
    - intros (Hr & req & Hreq & Hs%bool_decide_eq_true). split; [|by apply Hv]. destruct (Hv r Hr) as [Hq _].
      apply Hall, elem_of_app in Hq as [?|Hw]; [done|]. destruct (Hmw r Hw) as (req' & ? & _ & Hws & _).
      assert (req' = req) as -> by congruence. rewrite Hs in Hws. by destruct Hws as [?|[?|?]].
    - intros [Hr Hrid]. destruct (Hmr r Hr) as (req & Hreq & Hq & Hs & _). split; [by apply list_elem_of_filter|].
      exists req. split; [done|]. by apply bool_decide_eq_true. }
  assert (Hwait : ∀ r, r ∈ wait ↔ r ∈ w ∧ r ∈ ids).
  { intros r. rewrite Hi2. split.
    - intros (Hr & req & Hreq & Hs%negb_true_iff%bool_decide_eq_false). split; [|by apply Hv]. destruct (Hv r Hr) as [Hq _].
      apply Hall, elem_of_app in Hq as [Hw|?]; [|done]. destruct (Hmr r Hw) as (req' & ? & _ & Hws & _).
      congruence.
    - intros [Hr Hrid]. destruct (Hmw r Hr) as (req & Hreq & Hq & Hs & _). split; [by apply list_elem_of_filter|].
      exists req. split; [done|]. apply negb_true_iff, bool_decide_eq_false. intros E. rewrite E in Hs. by destruct Hs as [?|[?|?]]. }
  clearbody run wait. apply wp_bind. eapply wp_mono; [apply remove_running_spec; [done|done|by intros r [? _]%Hrun]|].
  intros _ s1 ->. set (rs1 := filter (.∉ run) (running s)). set (w1 := filter (.∉ wait) w).
  assert (Hrs1 : rs1 = filter (.∉ ids) (running s)).
  { apply filter_ext_in. intros r Hr. rewrite Hrun. tauto. }
  assert (Hw1 : w1 = filter (.∉ ids) w).
  { apply filter_ext_in. intros r Hr. rewrite Hwait. tauto. }
  apply wp_bind, (wp_mono _ (λ _ s2, s2 = set_waiting (FCFSQueue w1) (set_running rs1 s))).
  { destruct wait as [|y0 ys] eqn:Ew.
    - apply wp_ret. assert (w1 = w) as -> by (apply list_filter_id; by intros y _ ?%not_elem_of_nil). rewrite <- Hwa. by destruct s.
    - rewrite <- Ew. unfold on_waiting. apply wp_bind, wp_gets, wp_bind. cbn [waiting set_running]. rewrite Hwa.
      eapply wp_lift_outcome; [done|]. apply wp_modify. rewrite Ew. done. }
  intros _ s2 ->. set (s2 := set_waiting _ _).
  assert (Hc2 : core_ok s2) by (by destruct Hc).
  assert (Hm2 : members_ok s2 (λ _, 0) rs1 w1).
  { split; intros x [_ Hx]%list_elem_of_filter; [by apply Hmr|by apply Hmw]. }
  eapply wp_mono; [apply (finish_loop_spec s2 rs1 w1 valid st Hc2 Hm2 eq_refl eq_refl Hvnd Hst)|].
  { intros r Hr. destruct (Hv r Hr) as [Hq Hrid]. rewrite Hrs1, Hw1, !list_elem_of_filter. split; [|tauto].
    by apply (members_known s (λ _, 0) (running s) w), Hall. }
  intros _ s3 (Hc3 & Hm3 & Hru3 & Hwa3 & Hcf3 & Hso3 & Hq3 & Hdom3 & Hfin3).
  assert (Hqs : requests s3 = requests s ∖ list_to_set ids).
  { rewrite Hq3. change (requests s2) with (requests s). apply set_eq. intros x.
    rewrite !elem_of_difference, !elem_of_list_to_set. unfold valid. rewrite list_elem_of_filter. tauto. }
  rewrite Hru3, Hrs1, Hwa3, Hwa. cbn [queue_refs]. rewrite Hw1. split_and!; try done.
  - exists w1. rewrite Hru3. split_and!; try done.
    + rewrite Hrs1, Hw1. rewrite <- filter_app. by apply NoDup_filter.
    + rewrite Hcf3. unfold rs1, len in *. pose proof (length_filter (.∉ run) (running s)). cbn. lia.
    + intros x. rewrite Hqs, Hrs1, Hw1, <- filter_app, list_elem_of_filter, elem_of_difference, elem_of_list_to_set.
      intros [Hx ?]. split; [done|by apply Hall].
  - rewrite Hfin3. f_equal. apply set_eq. intros x. unfold valid.
    rewrite elem_of_intersection, !elem_of_list_to_set, list_elem_of_filter. tauto.
Qed.
End lifecycle.
