(* ===== verification/SchedulerUpdate.v ===== *)
(** The update from the model runner's output, for the synchronous scheduler without a
    KV connector: accepted and rejected draft tokens, the stop of requests, the new
    draft tokens and the outputs for the clients.  Given an output that fits what was
    scheduled, the update raises nothing and keeps the scheduler's invariant. *)
From Stdlib Require Import ZArith Lia QArith.
From stdpp Require Import base strings countable gmap sets fin_maps sorting list.
From S2P Require Import Prelude Request FreeBlockQueue BlockHash BlockPool KVCacheSpec SingleTypeManager KVCacheCoordinator KVCacheManager SlotContract RequestQueue EncoderCache SchedulerData Scheduler SchedulerEncoder SchedulerInvariant SchedulerRunning SchedulerStep SchedulerLifecycle.
Local Open Scope Z_scope.

(** * One request's tokens *)

(** [r'] is [r] with the tokens [new] appended. *)
Record extended (r r' : Request) (new : list Z) : Prop := {
  ex_params : params r' = params r;
  ex_tokens : all_token_ids r' = all_token_ids r ++ new;
  ex_output : output_token_ids r' = output_token_ids r ++ new;
  ex_max : max_tokens r' = max_tokens r;
  ex_computed : num_computed_tokens r' = num_computed_tokens r;
  ex_placeholders : num_output_placeholders r' = num_output_placeholders r;
  ex_drafts : spec_token_ids r' = spec_token_ids r
}.

Lemma extended_refl r : extended r r [].
Proof. split; by rewrite ?app_nil_r. Qed.
Lemma extended_trans r1 r2 r3 l k : extended r1 r2 l → extended r2 r3 k → extended r1 r3 (l ++ k).
Proof. intros [] []. split; rewrite ?app_assoc; congruence. Qed.
Lemma extended_append r l : extended r (append_output_token_ids l r) l.
Proof. by split. Qed.

(** [check_stop] decides; it changes the status and the stop reason only. *)
Lemma check_stop_spec (r : Request) max_model_len pooled :
  is_Some (pooling_params r) ∨ is_Some (sampling_params r) → (pooling_params r = None → output_token_ids r ≠ []) →
  is_finished r = false →
  ∃ b r', check_stop r max_model_len pooled = Ok (b, r') ∧ extended r r' [] ∧ is_finished r' = b ∧
    (b = false → r' = r ∧ num_tokens r < max_model_len ∧ num_output_tokens r < max_tokens r).
Proof.
  intros Hpar Hout Hfin. unfold check_stop.
  destruct (decide (num_tokens r >= max_model_len ∨ num_output_tokens r >= max_tokens r)) as [|Hlim].
  - eexists _, _. split; [done|]. split; [by split; rewrite ?app_nil_r|]. by split.
  - assert (Hgo : ∃ b r', Ok (false, r) = Ok (b, r') ∧ extended r r' [] ∧ is_finished r' = b ∧
      (b = false → r' = r ∧ num_tokens r < max_model_len ∧ num_output_tokens r < max_tokens r)).
    { exists false, r. split; [done|]. split; [apply extended_refl|]. split; [done|]. intros _. split; [done|lia]. }
    assert (Hstop : ∀ why, ∃ b r', Ok (true, set_stop_reason why (set_status FINISHED_STOPPED r)) = Ok (b, r') ∧
      extended r r' [] ∧ is_finished r' = b ∧
      (b = false → r' = r ∧ num_tokens r < max_model_len ∧ num_output_tokens r < max_tokens r)).
    { intros why. eexists _, _. split; [done|]. split; [by split; rewrite ?app_nil_r|]. by split. }
    assert (Hstop' := Hstop (stop_reason r)). change (set_stop_reason (stop_reason r) (set_status FINISHED_STOPPED r))
      with (set_status FINISHED_STOPPED r) in Hstop'.
    destruct (pooling_params r) as [pp|]; [by destruct pooled|]. destruct (sampling_params r) as [sp|].
    + destruct (destruct_last (output_token_ids r)) as [(l & x & Hl)|Hl]; [|by specialize (Hout eq_refl)].
      rewrite Hl, py_index_last. cbn [mbind outcome_bind]. repeat case_decide; [exact Hstop'|apply Hstop|exact Hgo].
    + destruct Hpar as [[? ?]|[? ?]]; done.
Qed.

Section update.
Context {C G : Type} `{!KVConnector C, !StructuredOutputManager G}.
Context (hash_function : Z * list Z * option (list extra_key) → Z) (NONE_HASH : Z).
Context `{!SlotContract hash_function NONE_HASH}.
Context (slice_logprobs : handle → Z → Z → handle) (dict_truthy : handle → bool).
Context (tok : string → Z → Z).
Abbreviation Sched := (Scheduler C G).
Abbreviation core_ok := (core_ok hash_function NONE_HASH tok).
Abbreviation members_ok := (members_ok hash_function NONE_HASH).
Abbreviation running_ok := (running_ok hash_function NONE_HASH).
Abbreviation sched_ok := (sched_ok hash_function NONE_HASH tok).
Implicit Types (s : Sched) (t : req_ref → Z) (rs wl w : list req_ref) (r : req_ref) (req : Request).
Abbreviation kv_events s := (enable_kv_cache_events (the_pool (kv_cache_manager s))).

(** The state with another object for [r]. *)
Definition with_object r req s : Sched := set_objects (<[r := req]> (objects s)) s.

Lemma with_object_twice r req req' s : with_object r req' (with_object r req s) = with_object r req' s.
Proof. unfold with_object. cbn. by rewrite insert_insert_eq. Qed.
Lemma with_object_at r req s : objects (with_object r req s) !! r = Some req.
Proof. apply lookup_insert_eq. Qed.
Lemma with_object_same r req s : objects s !! r = Some req → with_object r req s = s.
Proof. intros H. unfold with_object. rewrite insert_id by done. by destruct s. Qed.

(** The tokens are appended up to the one that stops the request. *)
Lemma append_until_stop_spec r todo : ∀ kept s req,
  objects s !! r = Some req → is_finished req = false → num_tokens req < max_model_len (config s) →
  is_Some (pooling_params req) ∨ is_Some (sampling_params req) →
  wp (append_until_stop r kept todo) (λ '(tokens, stopped) s', ∃ new req', tokens = kept ++ new ∧
    (new `prefix_of` todo) ∧ s' = with_object r req' s ∧ extended req req' new ∧ is_finished req' = stopped ∧
    (if (stopped : bool) then new ≠ [] else new = todo ∧ status req' = status req ∧ num_tokens req' < max_model_len (config s))) s.
Proof.
  induction todo as [|x todo IH]; intros kept s req Hr Hfin Hlim Hpar; cbn [append_until_stop].
  - apply wp_ret. exists [], req. rewrite app_nil_r, with_object_same by done. split_and!; try done. apply extended_refl.
  - apply wp_bind. eapply wp_update_object; [exact Hr|]. set (req1 := append_output_token_ids [x] req).
    fold (with_object r req1 s). apply wp_bind, wp_gets, wp_bind. eapply wp_the_request; [apply with_object_at|].
    pose proof (extended_append req [x]) as Hext. fold req1 in Hext.
    assert (Hfin1 : is_finished req1 = false) by done.
    destruct (check_stop_spec req1 (max_model_len (config s)) false) as (b & req2 & Hcs & Hext2 & Hb & Hgo); [done| |done|].
    { intros _. cbn. by destruct (output_token_ids req). }
    apply wp_bind. eapply wp_lift_outcome; [exact Hcs|]. cbv beta iota.
    apply wp_bind. eapply wp_update_object; [apply with_object_at|]. fold (with_object r req2 (with_object r req1 s)).
    rewrite with_object_twice. pose proof (extended_trans _ _ _ _ _ Hext Hext2) as Hext12. rewrite app_nil_r in Hext12.
    destruct b.
    + apply wp_ret. exists [x], req2. split_and!; try done. apply prefix_cons, prefix_nil.
    + destruct (Hgo eq_refl) as (-> & Hl & _). eapply wp_mono; [apply (IH (kept ++ [x]) _ req1)|]; try done.
      * apply with_object_at.
      * intros [tokens stopped] s' (new & req' & -> & Hpre & -> & Hext' & Hst & Hend). exists (x :: new), req'.
        rewrite <- app_assoc, with_object_twice. split; [done|]. split; [by apply prefix_cons|]. split; [done|].
        split; [by eapply (extended_trans _ _ _ [x])|]. split; [done|]. destruct stopped; [done|].
        destruct Hend as (-> & ? & ?). by split_and!.
Qed.

(** * The model runner's output *)

(** What the runner reports of the request [r], which is in its row [i]. *)
Record row_ok s (so : SchedulerOutput) (mro : ModelRunnerOutput) r (i : Z) (generated : list Z) : Prop := {
  row_tokens : (match sampled_token_ids mro with [] => Ok [] | l => py_index l i end) = Ok generated;
  (** At least one token, and at most one more than the drafts, when there are drafts. *)
  row_drafts : ∀ l, scheduled_spec_decode_tokens so !! r = Some l → l ≠ [] → 0 < len generated <= len l + 1;
  (** Pooler outputs are for pooling requests. *)
  row_pooled : runner_pooler_output mro = [] ∨
    (generated = [] ∧ (∃ x, py_index (runner_pooler_output mro) i = Ok x) ∧
     ∃ req, objects s !! r = Some req ∧ is_Some (pooling_params req));
  (** Log probabilities of the prompt come with a token. *)
  row_prompt : generated = [] → mjoin (prompt_logprobs_dict mro !! r) = None;
  row_next : ∀ l, runner_spec_token_ids mro = Some l → ∃ d, py_index l i = Ok d ∧ len d <= num_spec_tokens (config s)
}.

Record runner_ok s (so : SchedulerOutput) (mro : ModelRunnerOutput) : Prop := {
  ru_row : ∀ r, r ∈ (num_scheduled_tokens so).*1 → ∃ i generated, req_id_to_index mro !! r = Some i ∧ row_ok s so mro r i generated;
  ru_sending : default [] (finished_sending mro) = [];
  ru_receiving : default [] (finished_recving mro) = []
}.

(** The structured-output manager answers, and knows a grammar for the requests it
    wants advanced. *)
Record structured_total : Prop := {
  st_bitmask : ∀ reqs ids spec (g : G), ∃ v g', make_grammar_bitmask reqs ids spec g = (Ok v, g');
  st_advance : ∀ req (g : G), ∃ b g', should_advance req g = (Ok b, g') ∧
    (b = true → is_Some (structured_output_request (params req)));
  st_accept : ∀ h id l (g : G), ∃ g', accept_tokens h id l g = (Ok tt, g');
  st_validate : ∀ h l (g : G), ∃ l' g', validate_tokens h l g = (Ok l', g') ∧ len l' <= len l
}.

(** ** Accepted and rejected draft tokens *)
Definition stats_ok s (st : option SpecDecodingStats) : Prop := ∀ x, st = Some x →
  stats_num_spec_tokens x = num_spec_tokens (config s) ∧
  length (num_accepted_tokens_per_pos x) = Z.to_nat (num_spec_tokens (config s)).

Lemma count_positions_total n : ∀ l, (n <= length l)%nat → ∃ l', count_positions n l = Ok l' ∧ length l' = length l.
Proof.
  induction n as [|n IH]; intros l Hl; cbn; [by eexists|]. destruct l as [|x l]; cbn in Hl; [lia|].
  destruct (IH l) as (l' & -> & ?); [lia|]. eexists. split; [done|]. cbn. lia.
Qed.

Lemma make_spec_stats_spec s st a b :
  stats_ok s st → b <= num_spec_tokens (config s) →
  wp (make_spec_decoding_stats st a b) (λ st' s', s' = s ∧ stats_ok s st') s.
Proof.
  intros Hst Hb. unfold make_spec_decoding_stats. apply wp_bind, wp_gets. destruct (cfg_log_stats (config s)); [|by apply wp_ret].
  set (x := default (SpecDecodingStats_new (num_spec_tokens (config s))) st).
  assert (Hx : stats_ok s (Some x)).
  { intros y [= <-]. unfold x. destruct st as [y|]; [by apply Hst|]. cbn. by rewrite length_replicate. }
  destruct (Hx x eq_refl) as [Hn Hl]. apply wp_bind.
  destruct (count_positions_total (Z.to_nat b) (num_accepted_tokens_per_pos x)) as (l' & Hcount & Hl'); [lia|].
  eapply wp_lift_outcome.
  { unfold observe_draft. rewrite decide_True by lia. rewrite Hcount. done. }
  apply wp_ret. split; [done|]. intros y [= <-]. cbn. split; [done|lia].
Qed.

(** The computed tokens once the rejected drafts are taken back. *)
Definition accepted_to (req : Request) (drafts generated : list Z) : Z :=
  match drafts with [] => num_computed_tokens req | _ => num_computed_tokens req - (len drafts + 1 - len generated) end.

Lemma account_rejections_spec s r req drafts generated col :
  objects s !! r = Some req → stats_ok s (spec_stats col) → (drafts ≠ [] → len generated <= len drafts + 1) →
  len drafts <= num_spec_tokens (config s) →
  wp (account_rejections r drafts generated col) (λ col' s',
    s' = with_object r (set_num_computed_tokens (accepted_to req drafts generated) req) s ∧
    outs col' = outs col ∧ stats_ok s (spec_stats col') ∧ stopped_running col' = stopped_running col ∧
    stopped_preempted col' = stopped_preempted col) s.
Proof.
  intros Hr Hst Hg Hd. unfold account_rejections. destruct drafts as [|x l] eqn:E.
  - apply wp_ret. split; [|done]. cbn. rewrite with_object_same; [done|]. rewrite Hr. by destruct req.
  - rewrite <- E in *. specialize (Hg ltac:(by rewrite E)). apply wp_bind. eapply wp_update_object; [exact Hr|].
    fold (with_object r (set_num_computed_tokens (num_computed_tokens req - (len drafts + 1 - len generated)) req) s).
    apply wp_bind. eapply wp_mono; [apply make_spec_stats_spec; [exact Hst|cbn; lia]|].
    intros st s' [-> Hst']. apply wp_ret. split; [|done]. unfold accepted_to. by rewrite E.
Qed.

(** ** Tokens, stop and pooler output *)
Lemma apply_output_spec s so mro r i generated req :
  is_async (config s) = false → row_ok s so mro r i generated → objects s !! r = Some req → is_finished req = false →
  num_tokens req < max_model_len (config s) → is_Some (pooling_params req) ∨ is_Some (sampling_params req) →
  wp (apply_output hash_function NONE_HASH mro r i generated) (λ '(tokens, stopped, _) s', ∃ req',
    (tokens `prefix_of` generated) ∧ s' = with_object r req' s ∧ extended req req' tokens ∧ is_finished req' = stopped ∧
    ((stopped : bool) = false → tokens = generated ∧ status req' = status req ∧ num_tokens req' < max_model_len (config s)) ∧
    (generated ≠ [] → tokens ≠ [])) s.
Proof.
  intros Has Hrow Hr Hfin Hlim Hpar. unfold apply_output. apply wp_bind.
  apply (wp_mono _ (λ '(tokens, stopped) s', ∃ req', (tokens `prefix_of` generated) ∧ s' = with_object r req' s ∧
    extended req req' tokens ∧ is_finished req' = stopped ∧
    ((stopped : bool) = false → tokens = generated ∧ status req' = status req ∧ num_tokens req' < max_model_len (config s)) ∧
    (generated ≠ [] → tokens ≠ []) ∧ (generated = [] → stopped = false))).
  { destruct generated as [|x l] eqn:E.
    - apply wp_ret. exists req. rewrite with_object_same by done. split_and!; try done. apply extended_refl.
    - rewrite <- E. unfold _update_request_with_output. apply wp_bind, wp_gets, wp_bind. eapply wp_the_request; [exact Hr|].
      apply wp_bind. eapply wp_mono; [by apply append_until_stop_spec|].
      intros [tokens stopped] s' (new & req' & -> & Hpre & -> & Hext & Hst & Hend). rewrite Has. apply wp_ret.
      exists req'. cbn [app]. split_and!; try done.
      + intros ->. by destruct Hend as (-> & ? & ?).
      + intros _. destruct stopped; [done|]. destruct Hend as [-> _]. by rewrite E.
      + by rewrite E. }
  intros [tokens stopped] s' (req' & Hpre & -> & Hext & Hst & Hgo & Hne & Hnil).
  destruct (runner_pooler_output mro) as [|px pl] eqn:Epool.
  { apply wp_ret. exists req'. by split_and!. }
  destruct (row_pooled _ _ _ _ _ _ Hrow) as [?|(-> & [x Hx] & req0 & Hr0 & Hpool)]; [congruence|].
  assert (req0 = req) as -> by congruence. apply prefix_nil_inv in Hpre as ->. rewrite Epool in Hx.
  apply wp_bind. eapply wp_lift_outcome; [exact Hx|]. apply wp_bind, wp_gets, wp_bind. eapply wp_the_request; [apply with_object_at|].
  rewrite (Hnil eq_refl) in Hst. destruct (Hgo (Hnil eq_refl)) as (_ & Hst' & Hlim').
  destruct (check_stop_spec req' (max_model_len (config s)) (bool_decide (is_Some x))) as (b & req2 & Hcs & Hext2 & Hb & Hb2);
    [rewrite (ex_params _ _ _ Hext); by left|rewrite (ex_params _ _ _ Hext); by intros E; rewrite E in Hpool; destruct Hpool|done|].
  apply wp_bind. eapply wp_lift_outcome; [exact Hcs|]. cbv beta iota.
  apply wp_bind. eapply wp_update_object; [apply with_object_at|]. fold (with_object r req2 (with_object r req' s)).
  rewrite with_object_twice. apply wp_ret. exists req2. split_and!; try done.
  - by apply (extended_trans _ _ _ [] [] Hext).
  - intros ->. destruct (Hb2 eq_refl) as (-> & _). by split_and!.
Qed.

(** ** What follows the tokens: the grammar, the drafts and the output *)

(** Changes that concern neither the tokens nor the status. *)
Record touched (n : Z) req req' : Prop := {
  to_params : params req' = params req;
  to_tokens : all_token_ids req' = all_token_ids req;
  to_status : status req' = status req;
  to_computed : num_computed_tokens req' = num_computed_tokens req;
  to_placeholders : num_output_placeholders req' = num_output_placeholders req;
  to_drafts : len (spec_token_ids req) <= n → len (spec_token_ids req') <= n
}.
Definition tail_of s r req s' : Prop :=
  ∃ req' g, s' = set_structured g (with_object r req' s) ∧ touched (num_spec_tokens (config s)) req req'.

Lemma tail_refl s r req : objects s !! r = Some req → tail_of s r req s.
Proof.
  intros Hr. exists req, (structured_output_manager s). rewrite with_object_same by done. split; [by destruct s|by split].
Qed.
Lemma tail_object s r req req' : objects s !! r = Some req → touched (num_spec_tokens (config s)) req req' →
  tail_of s r req (with_object r req' s).
Proof. intros Hr Ht. exists req', (structured_output_manager s). split; [by destruct s|done]. Qed.
Lemma tail_structured s r req g : objects s !! r = Some req → tail_of s r req (set_structured g s).
Proof. intros Hr. exists req, g. rewrite with_object_same by done. split; [done|by split]. Qed.
Lemma tail_then s r req s1 {A} (m : M Sched A) (Q : A → Sched → Prop) :
  tail_of s r req s1 →
  (∀ s1 req1, objects s1 !! r = Some req1 → config s1 = config s → status req1 = status req → params req1 = params req →
     wp m (λ a s2, tail_of s1 r req1 s2 ∧ Q a s2) s1) →
  wp m (λ a s2, tail_of s r req s2 ∧ Q a s2) s1.
Proof.
  intros (req1 & g & -> & Ht) Hm. eapply wp_mono; [eapply Hm; [apply with_object_at|done|apply Ht|apply Ht]|].
  intros a s2 [(req2 & g2 & -> & Ht2) HQ]. split; [|done]. exists req2, g2. split.
  - unfold with_object. cbn. by rewrite insert_insert_eq.
  - destruct Ht, Ht2. split; try congruence. auto.
Qed.

Context (Hst : structured_total).

Lemma should_advance_spec req s r req0 :
  objects s !! r = Some req0 →
  wp (on_structured (should_advance req)) (λ b s', tail_of s r req0 s' ∧
    ((b : bool) = true → is_Some (structured_output_request (params req)))) s.
Proof.
  intros Hr. apply wp_zoom. destruct (st_advance Hst req (structured_output_manager s)) as (b & g & E & Hb).
  unfold wp. rewrite E. split; [by apply tail_structured|done].
Qed.

Lemma advance_grammar_spec s r req tokens :
  objects s !! r = Some req →
  wp (match tokens with
      | [] => mret tt
      | _ =>
        request ← the_request r;
        advance ← on_structured (should_advance request);
        if (advance : bool) then
          h ← lift_outcome (grammar_of request); on_structured (accept_tokens h r tokens)
        else mret tt
      end) (λ _ s', tail_of s r req s' ∧ True) s.
Proof.
  intros Hr. destruct tokens as [|x l] eqn:E; [apply wp_ret; split; [by apply tail_refl|done]|]. rewrite <- E.
  apply wp_bind. eapply wp_the_request; [exact Hr|]. apply wp_bind. eapply wp_mono; [by apply should_advance_spec|].
  intros [|] s1 [Ht Hb]; [|by apply wp_ret]. eapply tail_then; [exact Ht|]. intros s2 req2 Hr2 _ _ _.
  destruct (Hb eq_refl) as [h Hh]. unfold grammar_of. rewrite Hh. apply wp_bind. eapply wp_lift_outcome; [done|].
  apply wp_zoom. destruct (st_accept Hst h r tokens (structured_output_manager s2)) as [g E2]. unfold wp. rewrite E2.
  split; [by apply tail_structured|done].
Qed.

Lemma count_nans_spec s r req (mro : ModelRunnerOutput) :
  objects s !! r = Some req →
  wp (match runner_num_nans_in_logits mro with
      | Some d => match d !! r with Some n => update_request r (set_num_nans_in_logits n) | None => mret tt end
      | None => mret tt
      end) (λ _ s', tail_of s r req s' ∧ True) s.
Proof.
  intros Hr. assert (Hno : wp (mret tt) (λ _ s', tail_of s r req s' ∧ True) s) by (apply wp_ret; split; [by apply tail_refl|done]).
  destruct (runner_num_nans_in_logits mro) as [d|]; [|exact Hno]. destruct (d !! r) as [n|]; [|exact Hno].
  eapply wp_update_object; [exact Hr|]. split; [|done]. apply tail_object; [done|by split].
Qed.

Lemma store_spec_tokens_spec s r req (d : list Z) :
  objects s !! r = Some req → len d <= num_spec_tokens (config s) →
  wp (store_spec_tokens r d) (λ _ s', tail_of s r req s' ∧ True) s.
Proof.
  intros Hr Hd. unfold store_spec_tokens. apply wp_bind. eapply wp_the_request; [exact Hr|].
  assert (Hset : ∀ l s1 req1, objects s1 !! r = Some req1 → config s1 = config s → len l <= num_spec_tokens (config s) →
    wp (update_request r (set_spec_token_ids l)) (λ _ s', tail_of s1 r req1 s' ∧ True) s1).
  { intros l s1 req1 Hr1 Hc1 Hl. eapply wp_update_object; [exact Hr1|]. split; [|done]. apply tail_object; [done|].
    rewrite Hc1. by split. }
  apply wp_bind. eapply wp_mono; [by apply should_advance_spec|]. intros [|] s1 [Ht Hb].
  - destruct (Hb eq_refl) as [h Hh]. unfold grammar_of. rewrite Hh. apply wp_bind. eapply wp_lift_outcome; [done|].
    eapply tail_then; [exact Ht|]. intros s2 req2 Hr2 Hc2 _ _. apply wp_bind, wp_zoom.
    destruct (st_validate Hst h d (structured_output_manager s2)) as (l & g & E & Hl). unfold wp at 1. rewrite E.
    eapply tail_then; [by apply tail_structured|]. intros s3 req3 Hr3 Hc3 _ _. apply Hset; [done|by rewrite Hc3|lia].
  - eapply tail_then; [exact Ht|]. intros s2 req2 Hr2 Hc2 _ _. by apply Hset.
Qed.

(** The outputs collected so far. *)
Definition emitted (col : Collected) : list EngineCoreOutput := concat (outs col).*2.

Lemma dict_set_concat {K V} `{EqDecision K} (k : K) (x : V) (d : list (K * list V)) :
  concat (dict_set k (default [] (dict_get k d) ++ [x]) d).*2 ≡ₚ concat d.*2 ++ [x].
Proof.
  induction d as [|[k' l] d IH]; [done|]. cbn. destruct (decide (k' = k)) as [->|Hne]; cbn.
  - rewrite <- !app_assoc. f_equiv. apply Permutation_app_comm.
  - rewrite IH. by rewrite app_assoc.
Qed.

(** One request's output: its new tokens, with the reason when it has finished. *)
Definition reports (req : Request) r tokens (o : EngineCoreOutput) : Prop :=
  eco_request_id o = r ∧ eco_new_token_ids o = tokens ∧ eco_finish_reason o = get_finished_reason req.

Lemma emit_output_spec s r req mro (tokens : list Z) logprobs pooled (col : Collected) :
  objects s !! r = Some req → (tokens = [] → mjoin (prompt_logprobs_dict mro !! r) = None) →
  wp (emit_output dict_truthy mro r tokens logprobs pooled None col) (λ col' s', tail_of s r req s' ∧
    (spec_stats col' = spec_stats col ∧ stopped_running col' = stopped_running col ∧
     stopped_preempted col' = stopped_preempted col ∧
     ((tokens = [] ∧ outs col' = outs col) ∨ ∃ o, emitted col' ≡ₚ emitted col ++ [o] ∧ reports req r tokens o))) s.
Proof.
  intros Hr Hp. unfold emit_output. case_decide as Hd.
  - apply wp_bind. eapply wp_the_request; [exact Hr|].
    assert (Ht : ∀ evs, touched (num_spec_tokens (config s)) req (set_events evs req)) by done.
    destruct (take_request_events req) as [evs req'] eqn:Ev.
    assert (Hreq' : touched (num_spec_tokens (config s)) req req' ∧ get_finished_reason req' = get_finished_reason req).
    { unfold take_request_events in Ev. destruct (events req); by simplify_eq. }
    destruct Hreq' as [Htouch Hreason]. apply wp_bind. eapply wp_update_object; [exact Hr|]. apply wp_ret.
    split; [by apply tail_object|]. split_and!; try done. right.
    eexists. split; [unfold emitted; cbn [outs]; apply dict_set_concat|]. by split_and!.
  - destruct tokens as [|x l]; [|destruct Hd; by left]. rewrite Hp by done. apply wp_bind, wp_assert; [done|]. apply wp_ret.
    split; [by apply tail_refl|]. split_and!; try done. by left.
Qed.

(** ** One request *)
Lemma set_structured_members s t rs wl g : members_ok s t rs wl → members_ok (set_structured g s) t rs wl.
Proof. by intros []. Qed.
Lemma set_structured_core s g : core_ok s → core_ok (set_structured g s).
Proof. by intros []. Qed.

Lemma touched_ok s r req req' :
  core_ok s → objects s !! r = Some req → touched (num_spec_tokens (config s)) req req' →
  request_ok tok (config s) (kv_events s) r req'.
Proof.
  intros Hc Hr [Hp Ht Hs Hcm Hpl Hd]. destruct (co_objects _ _ _ _ Hc r req Hr).
  split; unfold num_tokens, is_finished in *; rewrite ?Hp, ?Ht, ?Hs, ?Hpl; try done; auto.
  - unfold mm_wf in *. by rewrite Hp.
  - intros i. unfold tok_of, get_num_encoder_tokens in *. rewrite Hp. apply ro_tok.
Qed.

(** The tail keeps the invariant, and the request in its place. *)
Lemma tail_keeps s r req s' others w :
  core_ok s → objects s !! r = Some req → tail_of s r req s' → members_ok s (λ _, 0) others w → r ∉ others → r ∉ w →
  core_ok s' ∧ members_ok s' (λ _, 0) others w ∧ config s' = config s ∧ running s' = running s ∧ waiting s' = waiting s ∧
  requests s' = requests s ∧ finished_req_ids s' = finished_req_ids s ∧
  (∃ req', objects s' = <[r := req']> (objects s) ∧ touched (num_spec_tokens (config s)) req req') ∧
  (running_ok s 0 r → num_computed_tokens req <= num_tokens req → running_ok s' 0 r).
Proof.
  intros Hc Hr (req' & g & -> & Ht) Hm Ho Hw. pose proof (touched_ok s r req req' Hc Hr Ht) as Hok.
  assert (Hpre : all_token_ids req `prefix_of` all_token_ids req') by (by rewrite (to_tokens _ _ _ Ht)).
  destruct (core_ok_insert hash_function NONE_HASH tok s r req req' Hc Hr (to_params _ _ _ Ht) Hpre Hok) as [Hc' Hh].
  split_and!; try done.
  - by apply set_structured_core.
  - apply set_structured_members. eapply (members_ok_insert hash_function NONE_HASH tok); try done. apply Ht.
  - by exists req'.
  - intros (req0 & Hr0 & Hq & Hs & Hc0 & _ & Hsl & _ & Hb) Hle. assert (req0 = req) as -> by congruence.
    exists req'. destruct Ht as [Hp Htk Hst' Hcm Hpl _]. rewrite Hst', Hcm. csplit; try done.
    + apply with_object_at.
    + by apply Hh.
    + unfold num_tokens, num_tokens_with_spec in *. rewrite Htk.
      pose proof (len_nonneg (spec_token_ids req')). pose proof (ro_placeholders _ _ _ _ _ Hok). lia.
Qed.

(** What the update makes of a request. *)
Record updated (drafts generated tokens : list Z) (req req' : Request) : Prop := {
  ud_params : params req' = params req;
  ud_tokens : all_token_ids req' = all_token_ids req ++ tokens;
  ud_prefix : tokens `prefix_of` generated;
  ud_computed : num_computed_tokens req' = accepted_to req drafts generated;
  ud_unfinished : is_finished req' = false → tokens = generated ∧ status req' = status req
}.

Lemma row_ok_same s s' so mro r i generated :
  row_ok s so mro r i generated → config s' = config s → (∀ req, objects s !! r = Some req →
    ∃ req', objects s' !! r = Some req' ∧ params req' = params req) → row_ok s' so mro r i generated.
Proof.
  intros [Ht Hd Hp Hpr Hn] Hc Ho. split; rewrite ?Hc; try done.
  destruct Hp as [?|(? & ? & req & Hr & ?)]; [by left|right]. split; [done|]. split; [done|].
  destruct (Ho req Hr) as (req' & ? & E). exists req'. by rewrite E.
Qed.

(** The computed tokens stay within the tokens and the slots. *)
Lemma accepted_bounds req drafts generated :
  computed_to req 0 drafts → num_output_placeholders req = 0 → 0 < num_tokens req → 0 <= num_computed_tokens req →
  (drafts ≠ [] → 0 < len generated <= len drafts + 1) →
  let c := accepted_to req drafts generated in
  0 <= c ∧ Z.min (num_computed_tokens req) (num_tokens req) <= c <= num_computed_tokens req ∧
  c <= num_tokens req + len generated.
Proof.
  intros [Hle Hd] Hpl Hpos Hc0 Hg. unfold accepted_to. pose proof (len_nonneg generated).
  destruct drafts as [|x l]; [cbn zeta; change (len []) with 0 in Hle; lia|].
  destruct (Hd ltac:(done)) as [Hge _]. specialize (Hg ltac:(done)). cbn zeta. lia.
Qed.

Lemma release_or_keep s r req others w (stopped : bool) :
  core_ok s → objects s !! r = Some req → is_finished req = stopped → r ∈ requests s →
  members_ok s (λ _, 0) others w → r ∉ others → r ∉ w →
  wp (if stopped then _free_request r else mret None) (λ kvp s', kvp = None ∧ core_ok s' ∧
    members_ok s' (λ _, 0) others w ∧ objects s' = objects s ∧ config s' = config s ∧ running s' = running s ∧
    waiting s' = waiting s ∧
    if stopped then requests s' = requests s ∖ {[r]} ∧ finished_req_ids s' = {[r]} ∪ finished_req_ids s else s' = s) s.
Proof.
  intros Hc Hr Hfin Hq Hm Ho Hw. destruct stopped; [|by apply wp_ret].
  eapply wp_mono; [by eapply sched_free_request_spec|]. intros kvp s' [-> []]. split_and!; try done. by apply re_members.
Qed.

(** The tokens of one request are appended: the state before the request is released. *)
Lemma tokens_spec s so mro r i generated req drafts others w :
  core_ok s → is_async (config s) = false → objects s !! r = Some req → r ∈ requests s → running_ok s 0 r →
  computed_to req 0 drafts → row_ok s so mro r i generated → drafts = default [] (scheduled_spec_decode_tokens so !! r) →
  members_ok s (λ _, 0) others w → r ∉ others → r ∉ w →
  let req1 := set_num_computed_tokens (accepted_to req drafts generated) req in
  wp (apply_output hash_function NONE_HASH mro r i generated) (λ '(tokens, stopped, _) s', ∃ req',
    s' = with_object r req' s ∧ updated drafts generated tokens req req' ∧ is_finished req' = stopped ∧
    ((stopped : bool) = false → num_computed_tokens req' <= num_tokens req') ∧
    core_ok s' ∧ members_ok s' (λ _, 0) others w ∧ ((stopped : bool) = false → running_ok s' 0 r) ∧
    (generated ≠ [] → tokens ≠ [])) (with_object r req1 s).
Proof.
  intros Hc Has Hr Hq Hrun Hto Hrow -> Hm Ho Hw req1. set (drafts := default [] _) in *.
  pose proof Hrun as (req0 & Hr0 & _ & Hs & Hc0 & _ & Hsl & _ & Hb). assert (req0 = req) as -> by congruence.
  pose proof (co_objects _ _ _ _ Hc r req Hr) as Hro. pose proof (running_unfinished _ Hs) as Hun.
  destruct (accepted_bounds req drafts generated Hto (ro_sync _ _ _ _ _ Hro Has) (ro_nonempty _ _ _ _ _ Hro) Hc0)
    as (Hb0 & Hb1 & Hb2).
  { intros Hd. unfold drafts in *. destruct (scheduled_spec_decode_tokens so !! r) as [l|] eqn:E; [|done]. by eapply row_drafts. }
  eapply wp_mono; [apply (apply_output_spec _ so mro r i generated req1)|]; try done.
  - eapply row_ok_same; [exact Hrow|done|]. intros req0 Hreq0. assert (req0 = req) as -> by congruence. exists req1.
    split; [apply with_object_at|done].
  - apply with_object_at.
  - by apply Hro.
  - apply Hro.
  - intros [[tokens stopped] pooled] s' (req' & Hpre & -> & Hext & Hfin & Hgo & Hne). rewrite with_object_twice.
    pose proof Hext as [Hp Ht Ho' _ Hcm Hpl Hdr]. cbn [num_computed_tokens set_num_computed_tokens req1] in Hcm.
    change (all_token_ids req1) with (all_token_ids req) in Ht.
    assert (Hpre' : all_token_ids req `prefix_of` all_token_ids req') by (rewrite Ht; by apply prefix_app_r).
    assert (Hok : request_ok tok (config s) (kv_events s) r req').
    { destruct Hro. split; unfold num_tokens in *; rewrite ?Hp, ?Ht, ?Hpl, ?Hdr; try done.
      - rewrite len_app. pose proof (len_nonneg tokens). lia.
      - rewrite Hfin. intros ->. rewrite <- Ht. by apply Hgo.
      - unfold mm_wf in *. by rewrite Hp.
      - intros j. unfold tok_of, get_num_encoder_tokens in *. rewrite Hp. apply ro_tok. }
    destruct (core_ok_insert hash_function NONE_HASH tok s r req req' Hc Hr Hp Hpre' Hok) as [Hc' Hh].
    assert (Hcnt : stopped = false → num_computed_tokens req' <= num_tokens req').
    { intros E. destruct (Hgo E) as (-> & _). unfold num_tokens in *. rewrite Hcm, Ht, len_app. lia. }
    exists req'. split; [done|]. split.
    { split; try done. intros E. rewrite E in Hfin. destruct stopped; [done|]. by destruct (Hgo eq_refl) as (-> & ? & _). }
    split; [done|]. split; [done|]. split; [done|]. split; [|split; [|done]].
    { by apply (members_ok_insert hash_function NONE_HASH tok s _ _ _ r req req'). }
    intros E. destruct (Hgo E) as (-> & Hst' & Hlim). exists req'. rewrite Hst', Hcm. csplit; try done.
    + apply with_object_at.
    + apply Hh. eapply rollback_law; [exact Hsl|]. unfold obj_toks. rewrite Hr. unfold num_tokens in *. lia.
    + specialize (Hcnt E). unfold num_tokens, num_tokens_with_spec in *. rewrite Hcm in Hcnt.
      pose proof (len_nonneg (spec_token_ids req')). pose proof (ro_placeholders _ _ _ _ _ Hok). lia.
    + cbn. lia.
Qed.

(** The whole of the loop's body. *)
Record one_updated s r req drafts generated others w (col col' : Collected) s' : Prop := {
  on_core : core_ok s';
  on_members : members_ok s' (λ _, 0) others w;
  on_config : config s' = config s;
  on_running : running s' = running s;
  on_waiting_same : waiting s' = waiting s;
  on_stats : stats_ok s' (spec_stats col');
  on_preempted : stopped_preempted col' = stopped_preempted col;
  on_object : ∃ req' tokens, objects s' = <[r := req']> (objects s) ∧ updated drafts generated tokens req req' ∧
    ((tokens = [] ∧ outs col' = outs col) ∨ ∃ o, emitted col' ≡ₚ emitted col ++ [o] ∧ reports req' r tokens o) ∧
    (generated ≠ [] → tokens ≠ []) ∧
    if is_finished req' then stopped_running col' = stopped_running col ++ [r] ∧
      requests s' = requests s ∖ {[r]} ∧ finished_req_ids s' = {[r]} ∪ finished_req_ids s
    else stopped_running col' = stopped_running col ∧ requests s' = requests s ∧
      finished_req_ids s' = finished_req_ids s ∧ running_ok s' 0 r
}.

Lemma update_one_spec s so mro col r n i req drafts generated others w :
  core_ok s → is_async (config s) = false → 0 < n → objects s !! r = Some req → r ∈ requests s → running_ok s 0 r →
  computed_to req 0 drafts → req_id_to_index mro !! r = Some i → row_ok s so mro r i generated →
  drafts = default [] (scheduled_spec_decode_tokens so !! r) → stats_ok s (spec_stats col) →
  members_ok s (λ _, 0) others w → r ∉ others → r ∉ w →
  wp (update_one hash_function NONE_HASH slice_logprobs dict_truthy so mro col (r, n))
    (one_updated s r req drafts generated others w col) s.
Proof.
  intros Hc Has Hn Hr Hq Hrun Hto Hidx Hrow Hdrafts Hst0 Hm Ho Hw. unfold update_one.
  apply wp_bind, wp_assert; [by apply bool_decide_eq_true; lia|]. apply wp_bind, wp_get.
  unfold request_dict. rewrite (map_lookup_filter_Some_2 _ (objects s) r req) by done.
  apply wp_bind. eapply wp_lift_outcome; [by apply from_dict_some|]. apply wp_bind. eapply wp_lift_outcome; [apply Hrow|].
  rewrite Hdrafts in *. clear Hdrafts drafts. set (drafts := default [] (scheduled_spec_decode_tokens so !! r)) in *.
  pose proof Hrun as (req0 & Hr0 & _ & Hs & _). assert (req0 = req) as -> by congruence.
  pose proof (co_objects _ _ _ _ Hc r req Hr) as Hro.
  assert (Hdl : len drafts <= num_spec_tokens (config s)).
  { pose proof (ro_drafts _ _ _ _ _ Hro). destruct Hto as [_ Hd]. destruct drafts as [|x l] eqn:E.
    - pose proof (len_nonneg (spec_token_ids req)). change (len []) with 0. lia.
    - destruct Hd as [_ Hd]; [done|by rewrite Hd in *]. }
  apply wp_bind. eapply wp_mono; [apply (account_rejections_spec s r req drafts generated col Hr Hst0); [|done]|].
  { intros Hd. unfold drafts in *. destruct (scheduled_spec_decode_tokens so !! r) as [l|] eqn:E; [|done].
    cbn in *. destruct (row_drafts _ _ _ _ _ _ Hrow l E Hd). lia. }
  intros col1 s1 (-> & Houts1 & Hstat1 & Hrun1 & Hpre1). cbv zeta. apply wp_bind.
  eapply wp_mono; [by apply (tokens_spec s so mro r i generated req drafts others w)|].
  intros [[tokens stopped] pooled] s2 (req2 & -> & Hud & Hfin & Hle & Hc2 & Hm2 & Hrun2 & Hne).
  apply wp_bind. eapply wp_mono; [apply (release_or_keep (with_object r req2 s) r req2 others w stopped); try done; apply with_object_at|].
  intros kvp s3 (-> & Hc3 & Hm3 & Ho3 & Hcf3 & Hru3 & Hwa3 & Hsto3). rewrite Hs, decide_True by done.
  assert (Hr3 : objects s3 !! r = Some req2) by (rewrite Ho3; apply with_object_at).
  set (col2 := if stopped then _ else col1). apply wp_bind. eapply wp_mono; [by apply (advance_grammar_spec s3 r req2)|].
  intros _ s4 [Ht4 _]. apply wp_bind. eapply wp_mono.
  { eapply tail_then; [exact Ht4|]. intros s5 req5 Hr5 _ _ _. by apply count_nans_spec. }
  intros _ s5 [Ht5 _]. apply wp_bind. apply (wp_mono _ (λ _ s6, tail_of s3 r req2 s6 ∧ True)).
  { eapply tail_then; [exact Ht5|]. intros s6 req6 Hr6 Hc6 _ _.
    destruct (runner_spec_token_ids mro) as [l|] eqn:El; [|apply wp_ret; split; [by apply tail_refl|done]].
    destruct (row_next _ _ _ _ _ _ Hrow l El) as (d & Hd & Hdn). apply wp_bind. eapply wp_lift_outcome; [exact Hd|].
    apply store_spec_tokens_spec; [done|]. by rewrite Hc6, Hcf3. }
  intros _ s6 [Ht6 _]. eapply wp_mono.
  { eapply tail_then; [exact Ht6|]. intros s7 req7 Hr7 Hc7 Hs7 _. eapply wp_mono; [apply (emit_output_spec s7 r req7)|].
    - done.
    - intros E. apply (row_prompt _ _ _ _ _ _ Hrow). destruct generated; [done|]. by destruct (Hne ltac:(done)).
    - intros col' s' [Ht Hcol]. split; [exact Ht|]. unfold reports, get_finished_reason in Hcol. rewrite Hs7 in Hcol. exact Hcol. }
  intros col' s' (Ht & Hspec' & Hrunc' & Hprec' & Hemit).
  destruct (tail_keeps s3 r req2 s' others w) as (Hc' & Hm' & Hcf' & Hru' & Hwa' & Hq' & Hfn' & (req' & Hobj & Htouch) & Hrunok); try done.
  assert (Hcol2 : outs col2 = outs col ∧ spec_stats col2 = spec_stats col1 ∧ stopped_preempted col2 = stopped_preempted col ∧
    stopped_running col2 = if stopped then stopped_running col ++ [r] else stopped_running col).
  { unfold col2. destruct stopped; cbn; rewrite ?Houts1, ?Hrun1, ?Hpre1; done. }
  destruct Hcol2 as (Ho2 & Hsp2 & Hpr2 & Hsr2). destruct Htouch as [Hp2 Ht2 Hst2 Hcm2 Hpl2 Hdr2].
  assert (Hfin' : is_finished req' = stopped) by (unfold is_finished in *; by rewrite Hst2).
  change (running (with_object r req2 s)) with (running s) in Hru3.
  change (waiting (with_object r req2 s)) with (waiting s) in Hwa3.
  change (config (with_object r req2 s)) with (config s) in Hcf3.
  split; try done; try congruence.
  - rewrite Hspec', Hsp2. intros x Hx. rewrite Hcf', Hcf3. by apply Hstat1.
  - exists req', tokens. split; [rewrite Hobj, Ho3; unfold with_object; cbn; by rewrite insert_insert_eq|].
    split; [destruct Hud; split; try congruence; intros E; rewrite Hst2; apply ud_unfinished0; congruence|].
    split; [unfold emitted, reports, get_finished_reason in *; rewrite Hst2, <- Ho2; exact Hemit|].
    split; [done|]. rewrite Hfin', Hrunc', Hsr2, Hq', Hfn'. destruct stopped; [done|]. subst s3. split_and!; try done.
    apply Hrunok; [by apply Hrun2|by apply Hle].
Qed.

(** ** The loop over the scheduled requests *)

(** What [schedule] leaves for the update. *)
Record scheduled s (so : SchedulerOutput) : Prop := {
  sc_distinct : NoDup (num_scheduled_tokens so).*1;
  sc_positive : ∀ n, n ∈ (num_scheduled_tokens so).*2 → 0 < n;
  sc_running : ∀ r, r ∈ (num_scheduled_tokens so).*1 → r ∈ running s;
  sc_drafts : ∀ r, r ∈ (num_scheduled_tokens so).*1 → ∃ req, objects s !! r = Some req ∧
    computed_to req 0 (default [] (scheduled_spec_decode_tokens so !! r))
}.

(** What became of a scheduled request: its object before and after, the tokens the
    runner gave it, and the output that reports them. *)
Definition request_done s0 (so : SchedulerOutput) (mro : ModelRunnerOutput) (os : list EngineCoreOutput)
    (stopped : list req_ref) s r : Prop :=
  ∃ req req' i generated tokens, objects s0 !! r = Some req ∧ objects s !! r = Some req' ∧
    req_id_to_index mro !! r = Some i ∧
    (match sampled_token_ids mro with [] => Ok [] | l => py_index l i end) = Ok generated ∧
    updated (default [] (scheduled_spec_decode_tokens so !! r)) generated tokens req req' ∧
    (tokens = [] ∨ ∃ o, o ∈ os ∧ reports req' r tokens o) ∧ (generated ≠ [] → tokens ≠ []) ∧
    (is_finished req' = true ↔ r ∈ stopped).

Record update_inv s0 so mro rs w (done : list (string * Z)) (col : Collected) s : Prop := {
  ui_core : core_ok s;
  ui_members : members_ok s (λ _, 0) (filter (.∉ stopped_running col) rs) w;
  ui_config : config s = config s0;
  ui_running : running s = rs;
  ui_waiting : waiting s = FCFSQueue w;
  ui_stats : stats_ok s (spec_stats col);
  ui_preempted : stopped_preempted col = [];
  ui_requests : requests s = requests s0 ∖ list_to_set (stopped_running col);
  ui_finished : finished_req_ids s = list_to_set (stopped_running col) ∪ finished_req_ids s0;
  ui_stopped : ∀ r, r ∈ stopped_running col → r ∈ done.*1;
  ui_done : ∀ r, r ∈ done.*1 → request_done s0 so mro (emitted col) (stopped_running col) s r;
  ui_todo : ∀ r : req_ref, r ∉ done.*1 → objects s !! r = objects s0 !! r;
  ui_distinct : NoDup (eco_request_id <$> emitted col);
  ui_ids : ∀ o, o ∈ emitted col → eco_request_id o ∈ done.*1
}.

Lemma running_split (rs : list req_ref) stopped r :
  NoDup rs → r ∈ rs → r ∉ stopped → filter (.∉ stopped) rs ≡ₚ r :: filter (.∉ r :: stopped) rs.
Proof.
  intros Hnd Hr Hs. apply NoDup_Permutation; [by apply NoDup_filter|constructor; [|by apply NoDup_filter]|].
  - rewrite list_elem_of_filter, elem_of_cons. tauto.
  - intros x. rewrite elem_of_cons, !list_elem_of_filter, elem_of_cons. destruct (decide (x = r)) as [->|]; tauto.
Qed.

Lemma members_ok_subset s t rs rs' w : members_ok s t rs w → (∀ x, x ∈ rs' → x ∈ rs) → members_ok s t rs' w.
Proof. intros [Hr Hw] Hs. split; [|done]. intros x Hx. by apply Hr, Hs. Qed.

Lemma update_inv_step s0 so mro rs w done r n col s :
  runner_ok s0 so mro → scheduled s0 so → is_async (config s0) = false → NoDup (rs ++ w) → running s0 = rs →
  (∀ x, x ∈ rs → x ∈ requests s0) →
  r ∉ done.*1 → r ∈ (num_scheduled_tokens so).*1 → 0 < n → update_inv s0 so mro rs w done col s →
  wp (update_one hash_function NONE_HASH slice_logprobs dict_truthy so mro col (r, n))
    (λ col' s', update_inv s0 so mro rs w (done ++ [(r, n)]) col' s') s.
Proof.
  intros Hro Hsc Has Hnd Hru0 Hq0 Hnew Hr Hn [Hc Hm Hcf Hru Hwa Hstat Hpre Hreq Hfin Hstop Hdone Htodo Hdis Hids].
  destruct (ru_row _ _ _ Hro r Hr) as (i & generated & Hidx & Hrow).
  destruct (sc_drafts _ _ Hsc r Hr) as (req & Hr0 & Hto).
  assert (Hrs : r ∈ rs) by (rewrite <- Hru0; by apply Hsc).
  assert (Hns : r ∉ stopped_running col) by (intros H; by apply Hnew, Hstop).
  pose proof Hnd as (Hndr & Hdis' & _)%NoDup_app.
  assert (Hreqs : objects s !! r = Some req) by (by rewrite Htodo).
  set (others := filter (.∉ r :: stopped_running col) rs).
  assert (Hrin : r ∈ filter (.∉ stopped_running col) rs) by (by apply list_elem_of_filter).
  eapply wp_mono; [apply (update_one_spec s so mro col r n i req (default [] (scheduled_spec_decode_tokens so !! r)) generated others w)|]; try done.
  - by rewrite Hcf.
  - rewrite Hreq. apply elem_of_difference. split; [by apply Hq0|]. by rewrite elem_of_list_to_set.
  - by apply Hm.
  - eapply row_ok_same; [exact Hrow|done|]. intros req0 Hreq0. exists req0. split; [|done]. by rewrite Htodo.
  - eapply members_ok_subset; [exact Hm|]. intros x. unfold others. rewrite !list_elem_of_filter, elem_of_cons. tauto.
  - unfold others. rewrite list_elem_of_filter, elem_of_cons. tauto.
  - by apply Hdis'.
  - intros col' s' [Hc' Hm' Hcf' Hru' Hwa' Hstat' Hpre' (req' & tokens & Hobj & Hud & Hemit & Hne & Hend)].
    set (b := is_finished req') in *.
    assert (Hst' : ∀ x, x ∈ stopped_running col' ↔ x ∈ stopped_running col ∨ (x = r ∧ b = true)).
    { intros x. destruct b; destruct Hend as [-> _]; rewrite ?elem_of_app, ?list_elem_of_singleton; naive_solver. }
    assert (Hos : ∀ o, o ∈ emitted col → o ∈ emitted col').
    { intros o Hin. destruct Hemit as [[_ E]|(o' & E & _)]; [unfold emitted in *; by rewrite E|]. rewrite E. set_solver. }
    assert (Hdone' : ∀ x, x ∈ (done ++ [(r, n)]).*1 ↔ x ∈ done.*1 ∨ x = r).
    { intros x. rewrite fmap_app, elem_of_app. cbn. by rewrite list_elem_of_singleton. }
    split; try done; try congruence.
    + split; [|apply Hm']. intros x [Hns' Hx]%list_elem_of_filter. destruct (decide (x = r)) as [->|Hne'].
      * destruct b eqn:Eb; [destruct Hns'; apply Hst'; by right|]. apply Hend.
      * apply Hm', list_elem_of_filter. rewrite elem_of_cons. split; [|done]. intros [?|?]; [done|]. apply Hns', Hst'. by left.
    + destruct b; destruct Hend as (E1 & E2 & _); rewrite E1, E2, Hreq; [|done]. set_solver.
    + destruct b; [destruct Hend as (E1 & _ & E2)|destruct Hend as (E1 & _ & E2 & _)]; rewrite E1, E2, Hfin; set_solver.
    + intros x [Hx|[-> _]]%Hst'; apply Hdone'; [left; by apply Hstop|by right].
    + intros x [Hx| ->]%Hdone'.
      * assert (x ≠ r) as Hxr by (intros ->; done).
        destruct (Hdone x Hx) as (q & q' & j & gen & tk & ? & ? & ? & ? & ? & Hrep & ? & Hiff). exists q, q', j, gen, tk.
        split_and!; try done.
        -- rewrite Hobj, lookup_insert_ne; done.
        -- destruct Hrep as [?|(o & ? & ?)]; [by left|right]. exists o. split; [by apply Hos|done].
        -- rewrite Hst'. naive_solver.
      * exists req, req', i, generated, tokens. split_and!; try done.
        -- by rewrite Hobj, lookup_insert_eq.
        -- apply Hrow.
        -- destruct Hemit as [[-> _]|(o & E & ?)]; [by left|right]. exists o. split; [rewrite E; set_solver|done].
        -- rewrite Hst'. naive_solver.
    + intros x Hx. rewrite Hdone' in Hx. rewrite Hobj, lookup_insert_ne by naive_solver. apply Htodo. naive_solver.
    + destruct Hemit as [[_ E]|(o & E & Hid & _)]; [unfold emitted in *; by rewrite E|]. rewrite E, fmap_app.
      apply NoDup_app. split_and!; [done| |by apply NoDup_singleton]. cbn. intros x Hx ->%list_elem_of_singleton.
      apply list_elem_of_fmap in Hx as (o' & E' & Ho'). apply Hnew. rewrite <- Hid, E'. by apply Hids.
    + intros o Ho. apply Hdone'. destruct Hemit as [[_ E]|(o' & E & Hid & _)].
      * left. apply Hids. unfold emitted in *. by rewrite <- E.
      * rewrite E in Ho. apply elem_of_app in Ho as [Ho| ->%list_elem_of_singleton]; [left; by apply Hids|by right].
Qed.

(** ** [update_from_output] *)

(** All the outputs that are returned. *)
Definition result_outputs (res : list (Z * EngineCoreOutputs)) : list EngineCoreOutput :=
  concat ((λ p, ecos_outputs p.2) <$> res).

Lemma result_outputs_set (c : Z) (f : EngineCoreOutputs → EngineCoreOutputs) new (l : list (Z * EngineCoreOutputs)) :
  (∀ eco, ecos_outputs (f eco) = ecos_outputs eco) → ecos_outputs new = [] →
  result_outputs (dict_set c (match dict_get c l with Some eco => f eco | None => new end) l) = result_outputs l.
Proof.
  intros Hf Hn. unfold result_outputs. induction l as [|[k eco] l IH]; cbn; [by rewrite Hn|].
  destruct (decide (k = c)) as [->|]; cbn; [by rewrite Hf|by rewrite IH].
Qed.

Lemma add_finished_outputs fin : ∀ l, result_outputs (add_finished_requests fin l) = result_outputs l.
Proof.
  unfold add_finished_requests. induction fin as [|[c ids] fin IH]; intros l; [done|]. cbn [foldl]. rewrite IH.
  by apply result_outputs_set.
Qed.

Lemma base_outputs (o : list (Z * list EngineCoreOutput)) :
  result_outputs ((λ '(c, l), (c, mkEngineCoreOutputs l None None)) <$> o) = concat o.*2.
Proof. unfold result_outputs. induction o as [|[c l] o IH]; [done|]. cbn. by rewrite IH. Qed.

Lemma make_stats_spec s rs w st :
  core_ok s → members_ok s (λ _, 0) rs w → running s = rs →
  wp (make_stats st) (λ _ s', core_ok s' ∧ members_ok s' (λ _, 0) rs w ∧
    ∃ m', s' = set_kv m' s) s.
Proof.
  intros Hc Hm Hru. unfold make_stats. apply wp_bind, wp_gets. destruct (cfg_log_stats (config s)) eqn:Hl.
  - apply wp_bind, wp_zoom. eapply wp_mono; [apply stats_law, Hc|]. intros st' m' [Hf Hsome].
    destruct Hsome as [x ->]; [by rewrite (co_log _ _ _ _ Hc)|].
    assert (Hc' : core_ok (set_kv m' s)) by (by eapply core_ok_kv).
    assert (Hm' : members_ok (set_kv m' s) (λ _, 0) rs w) by (eapply members_ok_kv; [exact Hf|done|done]).
    apply wp_bind, wp_get, wp_bind. eapply wp_mono; [apply load_requests_spec|].
    { intros r Hr. cbn in Hr. rewrite Hru in Hr. destruct (mo_running _ _ _ _ _ _ Hm r Hr) as (req & ? & _). by exists req. }
    intros reqs s' [-> _]. apply wp_ret. split_and!; [done|done|by exists m'].
  - apply wp_ret. split_and!; [done|done|]. exists (kv_cache_manager s). by destruct s.
Qed.

(** The update's result: what became of the scheduled requests, and their outputs. *)
Record update_result s0 so mro (res : list (Z * EngineCoreOutputs)) s : Prop := {
  ur_config : config s = config s0;
  ur_waiting : waiting s = waiting s0;
  ur_structure : ∃ stopped, running s = filter (.∉ stopped) (running s0) ∧
    requests s = requests s0 ∖ list_to_set stopped ∧ finished_req_ids s = list_to_set stopped ∪ finished_req_ids s0 ∧
    (∀ r, r ∈ stopped → r ∈ (num_scheduled_tokens so).*1) ∧
    (∀ r, r ∈ (num_scheduled_tokens so).*1 → request_done s0 so mro (result_outputs res) stopped s r);
  ur_others : ∀ r : req_ref, r ∉ (num_scheduled_tokens so).*1 → objects s !! r = objects s0 !! r;
  ur_distinct : NoDup (eco_request_id <$> result_outputs res);
  ur_ids : ∀ o, o ∈ result_outputs res → eco_request_id o ∈ (num_scheduled_tokens so).*1
}.

Lemma update_from_output_spec s so mro :
  sched_ok s → is_async (config s) = false → scheduled s so → runner_ok s so mro →
  wp (update_from_output hash_function NONE_HASH slice_logprobs dict_truthy so mro)
    (λ res s', sched_ok s' ∧ update_result s so mro res s') s.
Proof.
  intros (w & Hwa & Hc & Hm & Hnd & Hmax & Hall) Has Hsc Hro. unfold update_from_output. apply wp_bind.
  set (rs := running s) in *.
  eapply wp_mono; [apply (wp_fold_each (λ done _ col s', update_inv s so mro rs w done col s') _ _ _ (λ col s',
    update_inv s so mro rs w (num_scheduled_tokens so) col s'))|].
  - split; cbn; try done; rewrite ?list_filter_id; try done; try (by intros ? _ ?%not_elem_of_nil);
      try (by intros ? ?%not_elem_of_nil); [set_solver|set_solver|by apply NoDup_nil_2].
  - intros done [r n] todo col s' Hd Hi. apply update_inv_step; try done.
    + intros x Hx. by apply (mo_running _ _ _ _ _ _ Hm) in Hx as (req & _ & ? & _).
    + intros Hr. pose proof (sc_distinct _ _ Hsc) as Hnd'. rewrite Hd, fmap_app in Hnd'.
      apply NoDup_app in Hnd' as (_ & Hdis & _). apply (Hdis r Hr). by left.
    + rewrite Hd, fmap_app. apply elem_of_app. right. by left.
    + apply (sc_positive _ _ Hsc). rewrite Hd, fmap_app. apply elem_of_app. right. by left.
  - done.
  - intros col s1 [Hc1 Hm1 Hcf1 Hru1 Hwa1 Hstat1 Hpre1 Hreq1 Hfin1 Hstop1 Hdone1 Htodo1 Hdis1 Hids1].
    set (stopped := stopped_running col) in *. set (rs' := filter (.∉ stopped) rs) in *.
    apply wp_bind, (wp_mono _ (λ _ s2, s2 = set_running rs' s1)).
    { destruct stopped eqn:E; [|apply wp_modify; by rewrite Hru1]. apply wp_ret.
      assert (rs' = rs) as -> by (apply list_filter_id; by intros ? _ ?%not_elem_of_nil). rewrite <- Hru1. by destruct s1. }
    intros _ s2 ->. rewrite Hpre1. apply wp_bind, wp_ret, wp_bind. unfold _update_from_kv_xfer_finished.
    rewrite (ru_sending _ _ _ Hro), (ru_receiving _ _ _ Hro). apply wp_bind, wp_ret, wp_ret, wp_bind, wp_gets. cbv zeta.
    set (all := add_finished_requests _ _). apply wp_bind, wp_modify. set (s3 := set_finished_dict _ _).
    assert (Hc3 : core_ok s3) by (by destruct Hc1).
    assert (Hm3 : members_ok s3 (λ _, 0) rs' w) by (by destruct Hm1).
    assert (Hos : result_outputs all = emitted col) by (unfold all; rewrite add_finished_outputs; apply base_outputs).
    assert (Hend : ∀ res s4, result_outputs res = emitted col → core_ok s4 → members_ok s4 (λ _, 0) rs' w →
      (∃ m', s4 = set_kv m' s3) → sched_ok s4 ∧ update_result s so mro res s4).
    { intros res s4 Hres Hc4 Hm4 [m' Hs4]. split.
      - exists w. subst s4. split_and!; try done.
        + cbn. apply NoDup_app in Hnd as (? & Hd & ?). apply NoDup_app. split_and!; [by apply NoDup_filter| |done].
          intros x [_ Hx]%list_elem_of_filter. by apply Hd.
        + cbn. rewrite Hcf1. unfold rs', len in *. pose proof (length_filter (.∉ stopped) rs). lia.
        + intros x. cbn. rewrite Hreq1, elem_of_difference, elem_of_list_to_set. intros [Hx Hns].
          apply Hall in Hx. unfold rs'. rewrite elem_of_app, list_elem_of_filter in *. tauto.
      - subst s4. split; try done; rewrite ?Hres; try done; [cbn; congruence|].
        by exists stopped. }
    destruct all as [|[c eco] rest] eqn:Eall.
    + apply wp_ret. apply Hend; try done. exists (kv_cache_manager s3). by destruct s3.
    + apply wp_bind. eapply wp_mono; [by apply (make_stats_spec s3 rs' w)|]. intros st s4 (Hc4 & Hm4 & Hs4). apply wp_ret.
      by apply Hend.
Qed.
End update.
