(* ===== verification/SchedulerSystem.v ===== *)
(** The scheduler as a state machine: requests arrive, requests are aborted, and the
    engine core takes a step (schedule, run the model, update).  Every reachable state
    satisfies the invariant, and in none of them can an operation raise. *)
From Stdlib Require Import ZArith Lia QArith.
From stdpp Require Import base strings countable gmap sets fin_maps sorting list relations.
From S2P Require Import Prelude Request FreeBlockQueue BlockHash BlockPool KVCacheSpec SingleTypeManager KVCacheCoordinator KVCacheManager SlotContract RequestQueue EncoderCache SchedulerData Scheduler SchedulerEncoder SchedulerInvariant SchedulerRunning SchedulerStep SchedulerLifecycle SchedulerUpdate.
Local Open Scope Z_scope.

Section system.
Context {C G : Type} `{!KVConnector C, !StructuredOutputManager G}.
Context (hash_function : Z * list Z * option (list extra_key) → Z) (NONE_HASH : Z).
Context `{!SlotContract hash_function NONE_HASH}.
Context (slice_logprobs : handle → Z → Z → handle) (dict_truthy : handle → bool).
Context (tok : string → Z → Z).
Context (Hst : structured_total (G := G)).
Abbreviation Sched := (Scheduler C G).
Abbreviation sched_ok := (sched_ok hash_function NONE_HASH tok).
Abbreviation schedule := (schedule hash_function NONE_HASH).
Abbreviation update_from_output := (update_from_output hash_function NONE_HASH slice_logprobs dict_truthy).
Implicit Types (s : Sched) (req : Request).

(** A step of the engine core's loop.  [EngineCore.step] schedules, runs the model and
    updates; requests are added and aborted between steps. *)
Inductive engine_step : Sched → Sched → Prop :=
  | step_add now req s s' :
      arriving tok s req → add_request req now s = (Ok tt, s') → engine_step s s'
  | step_finish ids st s s' :
      NoDup ids → status_is_finished st = true → finish_requests ids st s = (Ok tt, s') → engine_step s s'
  | step_run now out mro res s s1 s' :
      schedule now s = (Ok out, s1) → runner_ok s1 out mro → update_from_output out mro s1 = (Ok res, s') →
      engine_step s s'.

(** The operations that are possible in [s] raise nothing. *)
Record never_raises s : Prop := {
  nr_add : ∀ now req, arriving tok s req → ∃ s', add_request req now s = (Ok tt, s');
  nr_finish : ∀ ids st, NoDup ids → status_is_finished st = true → ∃ s', finish_requests ids st s = (Ok tt, s');
  nr_schedule : ∀ now, ∃ out s1, schedule now s = (Ok out, s1) ∧
    ∀ mro, runner_ok s1 out mro → ∃ res s', update_from_output out mro s1 = (Ok res, s')
}.

Definition engine_ok s : Prop := sched_ok s ∧ is_async (config s) = false.

Lemma step_output_scheduled s s' out : step_output s s' out → scheduled s' out.
Proof. intros []. by split. Qed.

Lemma engine_step_ok s s' : engine_ok s → engine_step s s' → engine_ok s'.
Proof.
  intros Hok0 Hs. revert Hok0.
  destruct Hs as [now req s0 s1 Har E|ids st s0 s1 Hnd Hfin E|now out mro res s0 s1 s2 E1 Hro E2]; intros [Hok Has].
  - pose proof (add_request_spec hash_function NONE_HASH tok now s0 req Hok Har) as H. unfold wp in H. rewrite E in H.
    destruct H as (? & Hc & _). split; [done|by rewrite Hc].
  - pose proof (finish_requests_spec hash_function NONE_HASH tok s0 ids st Hok Hnd Hfin) as H. unfold wp in H. rewrite E in H.
    destruct H as (? & Hc & _). split; [done|by rewrite Hc].
  - pose proof (schedule_spec hash_function NONE_HASH tok (st_bitmask Hst) now s0 Hok) as H. unfold wp in H. rewrite E1 in H.
    destruct H as [Hok1 Hout]. assert (Has1 : is_async (config s1) = false) by (by rewrite (so_config _ _ _ Hout)).
    pose proof (update_from_output_spec hash_function NONE_HASH slice_logprobs dict_truthy tok Hst s1 out mro Hok1 Has1
      (step_output_scheduled _ _ _ Hout) Hro) as H. unfold wp in H. rewrite E2 in H.
    destruct H as [? Hr]. split; [done|]. by rewrite (ur_config _ _ _ _ _ Hr).
Qed.

Lemma engine_reachable_ok s s' : engine_ok s → rtc engine_step s s' → engine_ok s'.
Proof. intros Hok Hr. induction Hr as [|? ? ? Hs _ IH]; [done|]. by eapply IH, engine_step_ok. Qed.

Lemma engine_ok_never_raises s : engine_ok s → never_raises s.
Proof.
  intros [Hok Has]. split.
  - intros now req Har. pose proof (add_request_spec hash_function NONE_HASH tok now s req Hok Har) as H.
    unfold wp in H. destruct (add_request req now s) as [[[]|e] s']; [by exists s'|done].
  - intros ids st Hnd Hfin. pose proof (finish_requests_spec hash_function NONE_HASH tok s ids st Hok Hnd Hfin) as H.
    unfold wp in H. destruct (finish_requests ids st s) as [[[]|e] s']; [by exists s'|done].
  - intros now. pose proof (schedule_spec hash_function NONE_HASH tok (st_bitmask Hst) now s Hok) as H. unfold wp in H.
    destruct (schedule now s) as [[out|e] s1]; [|done]. destruct H as [Hok1 Hout]. exists out, s1. split; [done|].
    intros mro Hro. assert (Has1 : is_async (config s1) = false) by (by rewrite (so_config _ _ _ Hout)).
    pose proof (update_from_output_spec hash_function NONE_HASH slice_logprobs dict_truthy tok Hst s1 out mro Hok1 Has1
      (step_output_scheduled _ _ _ Hout) Hro) as H. unfold wp in H.
    destruct (update_from_output out mro s1) as [[res|e] s2]; [by exists res, s2|done].
Qed.
End system.
