(* ===== verification/Samples.v ===== *)
(** Concrete data the witnesses of the theorems run on: a collision-free hash function,
    a request, a configuration of one full-attention group, and the managers it gives. *)
From Stdlib Require Import ZArith Lia.
From stdpp Require Import base strings countable gmap sets fin_maps list.
From S2P Require Import Prelude FreeBlockQueue Request BlockHash BlockPool KVCacheSpec SingleTypeManager KVCacheCoordinator KVCacheManager.
Local Open Scope Z_scope.

(** An injective hash function: the code of its argument, made even. *)
Definition sample_hash (x : Z * list Z * option (list extra_key)) : Z := Z.pos (encode x)~0.
Definition sample_none : Z := 1.

#[export] Instance sample_collision_free : CollisionFree sample_hash sample_none.
Proof.
  split; [|done|done]. intros x y H. unfold sample_hash in H. apply (inj encode). congruence.
Qed.

(** A request of the given id, priority, arrival time and prompt. *)
Definition sample_request_of (id : string) (prio arrival : Z) (prompt : list Z) : Request :=
  mkRequest (mkRequestParams id 0 prio arrival (Some (mkSamplingParams (Some 16) None None None None false None))
               None None None None None prompt [] [] [])
    16 None WAITING [] None [] prompt 0 [] 0 (-1) 0.
Definition sample_request (id : string) (prio arrival : Z) : Request :=
  sample_request_of id prio arrival [1; 2; 3; 4; 5].

(** Seven blocks of four tokens for one group of full attention. *)
Definition sample_spec : KVCacheSpec := FullAttentionSpec (mkAttentionSpec 4 1 1 0 false) None None.
Definition sample_config : KVCacheConfig :=
  mkKVCacheConfig 8 [] [mkKVCacheGroupSpec ["layer"%string] sample_spec].

Definition or_else {A} (d : A) (o : outcome A) : A := match o with Ok a => a | Raise _ => d end.

(** A new pool of eight blocks. *)
Definition no_pool : BlockPool := mkBlockPool 0 false [] (mkFreeQueue ∅ 0) ∅ FakeHead false [].
Definition sample_pool : BlockPool := or_else no_pool (BlockPool_init 8 true false).

Lemma sample_pool_inv : pool_inv sample_pool (Blk <$> seq 1 7) ∧ num_gpu_blocks sample_pool = 8 ∧
  BlockPool.enable_caching sample_pool = true ∧ null_block sample_pool = Blk 0 ∧
  ∀ i, blk_ref sample_pool (Blk i) = 0 ∧ blk_hash sample_pool (Blk i) = None.
Proof.
  destruct (BlockPool_init_spec 8 true false) as (p & Hp & Hinv & Hn & Hc & _ & Hnull & _ & Hm); [done|].
  assert (sample_pool = p) as -> by (unfold sample_pool; by rewrite Hp). done.
Qed.

(** A new manager. *)
Definition no_manager : KVCacheManager :=
  mkKVCacheManager 0 false None
    (mkCoordinator KVCacheCoordinatorNoPrefixCache sample_config false false no_pool []) 0 ∅ false None.
Definition sample_manager : KVCacheManager :=
  or_else no_manager (KVCacheManager_init sample_config 64 true false true false).

Lemma sample_manager_ok : KVCacheManager_init sample_config 64 true false true false = Ok sample_manager.
Proof. vm_compute. reflexivity. Qed.

Lemma sample_manager_inv toks :
  kvm_inv sample_manager toks (Blk <$> seq 1 7) sample_hash sample_none ∧ coord_wf (coordinator sample_manager) ∧
  (log_stats sample_manager = true → is_Some (prefix_cache_stats sample_manager)) ∧
  ∀ i g rid, single_type_managers (coordinator sample_manager) !! i = Some g →
    blocks_of g rid = [] ∧ num_cached_block g !! rid = None.
Proof.
  apply (KVCacheManager_init_spec sample_hash sample_none sample_config 64 true false true false toks); [done| |].
  - intros g ->%list_elem_of_singleton. done.
  - exact sample_manager_ok.
Qed.

(** The manager after the five-token prompt of request "a" has been given slots. *)
Definition request_a : Request := sample_request "a" 0 0.
Definition sample_toks : string → list Z := λ _, [1; 2; 3; 4; 5].
Definition sample_group : SingleTypeKVCacheManager := mkManager FullAttentionManager sample_spec ∅ ∅ 0 (Blk 0).

Lemma sample_groups i g :
  single_type_managers (coordinator sample_manager) !! i = Some g → i = 0%nat ∧ g = sample_group.
Proof.
  change (single_type_managers (coordinator sample_manager)) with [sample_group].
  destruct i; simpl; [naive_solver|done].
Qed.

Lemma sample_slots_ok (delay : bool) : slots_ok sample_manager request_a 5 0 [[]] 0 delay 0.
Proof.
  split.
  - done.
  - done.
  - done.
  - done.
  - intros i g [-> ->]%sample_groups. vm_compute. split; done.
  - intros i g new [-> ->]%sample_groups [= <-]. split; [done|]. split; [done|done|apply NoDup_nil_2].
  - intros i g new [-> ->]%sample_groups [= <-]. done.
  - intros i g [-> ->]%sample_groups. done.
  - done.
  - intros _ _. split; [by left|]. split; [done|]. intros i g new [-> ->]%sample_groups [= <-]. done.
Qed.

Definition manager_a : KVCacheManager :=
  (allocate_slots sample_hash sample_none request_a 5 0 None 0 false sample_manager).2.
Lemma manager_a_groups : single_type_managers (coordinator manager_a) =
  [mkManager FullAttentionManager sample_spec {["a"%string := [Blk 1; Blk 2]]} {["a"%string := 1]} 0 (Blk 0)].
Proof. vm_compute. reflexivity. Qed.

(** What holds of it; its two blocks are [Blk 1], which is cached, and [Blk 2]. *)
Lemma manager_a_inv : ∃ free, kvm_inv manager_a sample_toks free sample_hash sample_none.
Proof.
  pose proof (allocate_slots_spec sample_hash sample_none sample_manager sample_toks (Blk <$> seq 1 7) request_a 5 0 None 0 false 0
    (proj1 (sample_manager_inv _)) eq_refl (sample_slots_ok false)) as H.
  unfold manager_a, wp in *. destruct (allocate_slots _ _ _ _ _ _ _ _ _) as [[res|e] m']; [|done].
  destruct H as [(free' & H & _) _]. by exists free'.
Qed.

(** The same for a sliding window of two tokens and a prompt of nine. *)
Definition window_spec : KVCacheSpec := SlidingWindowSpec (mkAttentionSpec 4 1 1 0 false) 2.
Definition window_config : KVCacheConfig :=
  mkKVCacheConfig 8 [] [mkKVCacheGroupSpec ["layer"%string] window_spec].
Definition new_window_manager : KVCacheManager :=
  or_else no_manager (KVCacheManager_init window_config 64 true false false false).
Definition request_w : Request := sample_request_of "w" 0 0 [1; 2; 3; 4; 5; 6; 7; 8; 9].
Definition window_toks : string → list Z := λ _, all_token_ids request_w.
Definition new_window_group : SingleTypeKVCacheManager := mkManager SlidingWindowManager window_spec ∅ ∅ 0 (Blk 0).
Definition window_group : SingleTypeKVCacheManager :=
  mkManager SlidingWindowManager window_spec {["w"%string := [Blk 1; Blk 2; Blk 3]]} {["w"%string := 2]} 0 (Blk 0).

Lemma new_window_groups i g :
  single_type_managers (coordinator new_window_manager) !! i = Some g → i = 0%nat ∧ g = new_window_group.
Proof.
  change (single_type_managers (coordinator new_window_manager)) with [new_window_group].
  destruct i; simpl; [naive_solver|done].
Qed.

Lemma window_slots_ok : slots_ok new_window_manager request_w 9 0 [[]] 0 false 0.
Proof.
  split.
  - done.
  - done.
  - done.
  - done.
  - intros i g [-> ->]%new_window_groups. vm_compute. split; done.
  - intros i g new [-> ->]%new_window_groups [= <-]. split; [done|]. split; [done|done|apply NoDup_nil_2].
  - intros i g new [-> ->]%new_window_groups [= <-]. done.
  - intros i g [-> ->]%new_window_groups. done.
  - done.
  - intros _ _. split; [by left|]. split; [done|]. intros i g new [-> ->]%new_window_groups [= <-]. done.
Qed.

Definition window_manager : KVCacheManager :=
  (allocate_slots sample_hash sample_none request_w 9 0 None 0 false new_window_manager).2.
Lemma window_manager_groups : single_type_managers (coordinator window_manager) = [window_group].
Proof. vm_compute. reflexivity. Qed.

Lemma window_manager_inv : ∃ free, kvm_inv window_manager window_toks free sample_hash sample_none.
Proof.
  destruct (KVCacheManager_init_spec sample_hash sample_none window_config 64 true false false false window_toks new_window_manager)
    as (Hm & _); [done|by intros g ->%list_elem_of_singleton|vm_compute; reflexivity|].
  pose proof (allocate_slots_spec sample_hash sample_none new_window_manager window_toks _ request_w 9 0 None 0 false 0
    Hm eq_refl window_slots_ok) as H.
  unfold window_manager, wp in *. destruct (allocate_slots _ _ _ _ _ _ _ _ _) as [[res|e] m']; [|done].
  destruct H as [(free' & H & _) _]. by exists free'.
Qed.

(** Unfold these last. *)
Strategy 100 [sample_pool sample_manager manager_a window_manager new_window_manager].
