(* ===== verification/QueueTheorems.v ===== *)
(** The contracts of the queues: the free-block queue refines a list of blocks, and the
    priority queue delivers requests in the order of their keys. *)
From Stdlib Require Import ZArith Lia.
From stdpp Require Import base strings countable gmap sets fin_maps sorting list.
From S2P Require Import Prelude FreeBlockQueue Request BlockHash BlockPool HeapQueue RequestQueue Samples.
Local Open Scope Z_scope.

(** * The free-block queue as a list *)

Inductive queue_op : Type :=
  | PopLeft
  | PopLeftN (n : nat)
  | Remove (b : ptr)
  | Append (b : ptr)
  | AppendN (bs : list ptr)
  | GetAll.

(** What an operation does to the list of free blocks, [None] when it is not allowed;
    [store] holds the blocks there are. *)
Definition list_step (store : ptr → bool) (o : queue_op) (l : list ptr) : option (list ptr * list ptr) :=
  match o with
  | PopLeft => match l with b :: l' => Some ([b], l') | [] => None end
  | PopLeftN n => if decide (n <= length l)%nat then Some (take n l, drop n l) else None
  | Remove b => if decide (b ∈ l) then Some ([], filter (.≠ b) l) else None
  | Append b => if decide ((b ∉ l) ∧ store b = true) then Some ([], l ++ [b]) else None
  | AppendN bs => if decide (NoDup bs ∧ Forall (λ b, (b ∉ l) ∧ store b = true) bs) then Some ([], l ++ bs) else None
  | GetAll => Some (l, l)
  end.

Definition queue_step (o : queue_op) : M FreeQueue (list ptr) :=
  match o with
  | PopLeft => b ← popleft; mret [b]
  | PopLeftN n => popleft_n (Z.of_nat n)
  | Remove b => remove b ;; mret []
  | Append b => append b ;; mret []
  | AppendN bs => append_n bs ;; mret []
  | GetAll => get_all_free_blocks
  end.

Fixpoint list_run (store : ptr → bool) (os : list queue_op) (l : list ptr) : option (list (list ptr) * list ptr) :=
  match os with
  | [] => Some ([], l)
  | o :: os' => '(r, l') ← list_step store o l; '(rs, l'') ← list_run store os' l'; Some (r :: rs, l'')
  end.
Definition queue_run (os : list queue_op) : M FreeQueue (list (list ptr)) := map_each os queue_step.

Definition in_store (s : FreeQueue) (b : ptr) : bool :=
  match b with Blk _ => bool_decide (is_Some (heap s !! b)) | _ => false end.

Section refinement.
Implicit Types (s : FreeQueue) (l : list ptr) (b : ptr).

Lemma in_store_spec s b : in_store s b = true ↔ is_blk b ∧ is_Some (heap s !! b).
Proof.
  unfold in_store, is_blk. destruct b; try (split; [done|by intros [[? ?] _]]).
  rewrite bool_decide_eq_true. naive_solver.
Qed.

Lemma in_store_same s s' b : same_meta s s' → in_store s' b = in_store s b.
Proof.
  intros H. unfold in_store. destruct b as [| |n]; [done..|]. specialize (H (Blk n)).
  apply bool_decide_ext. rewrite <- !(fmap_is_Some meta), H. done.
Qed.

Lemma list_step_ext st st' o l : (∀ b, st b = st' b) → list_step st o l = list_step st' o l.
Proof.
  intros H. destruct o; simpl; try done.
  - by rewrite H.
  - assert (Forall (λ b, (b ∉ l) ∧ st b = true) bs ↔ Forall (λ b, (b ∉ l) ∧ st' b = true) bs) as Hiff.
    { rewrite !Forall_forall. by setoid_rewrite H. }
    repeat case_decide; tauto.
Qed.

Lemma queue_step_refines s l o r l' :
  queue_repr s l → list_step (in_store s) o l = Some (r, l') →
  wp (queue_step o) (λ r' s', r' = r ∧ queue_repr s' l' ∧ same_meta s s') s.
Proof.
  intros Hr Hl. destruct o; simpl in *.
  - destruct l as [|b l0]; simplify_eq. apply wp_bind. eapply wp_mono; [by eapply popleft_spec|].
    intros b' s' (-> & ? & ?). by apply wp_ret.
  - case_decide as Hn; simplify_eq. rewrite <- (take_drop n l) in Hr.
    pose proof (popleft_n_spec _ _ _ Hr) as Hp. unfold len in Hp. rewrite length_take, Nat.min_l in Hp by done. exact Hp.
  - case_decide as Hb; simplify_eq. apply list_elem_of_split in Hb as (l1 & l2 & ->).
    pose proof (repr_nodup _ _ Hr) as Hnd. apply wp_bind. eapply wp_mono; [by eapply remove_spec|].
    intros _ s' (? & ?). apply wp_ret. split_and!; try done.
    apply NoDup_app in Hnd as (_ & Hd & [Hn _]%NoDup_cons).
    rewrite filter_app, filter_cons, decide_False by naive_solver. rewrite !list_filter_id; [done| |].
    + intros x Hx ->. done.
    + intros x Hx ->. apply (Hd b Hx). by left.
  - case_decide as Hb; simplify_eq. destruct Hb as [Hb [Hk Hs]%in_store_spec]. apply wp_bind.
    eapply wp_mono; [apply append_spec; [done|]|].
    + split_and!; [by apply NoDup_singleton|by constructor|by intros ? ->%list_elem_of_singleton..].
    + intros _ s' (? & ?). by apply wp_ret.
  - case_decide as Hb; simplify_eq. destruct Hb as [Hnd Hb]. rewrite Forall_forall in Hb. apply wp_bind.
    eapply wp_mono; [apply append_n_spec; [done|]|].
    + split_and!; [done| |intros x Hx; by apply Hb|intros x Hx; by apply in_store_spec, Hb].
      apply Forall_forall. intros x Hx. by apply (in_store_spec s), Hb.
    + intros _ s' (? & ?). by apply wp_ret.
  - simplify_eq. unfold wp. rewrite (get_all_free_blocks_spec _ _ Hr). by split_and!.
Qed.

Lemma queue_run_refines os : ∀ s l rs l',
  queue_repr s l → list_run (in_store s) os l = Some (rs, l') →
  wp (queue_run os) (λ rs' s', rs' = rs ∧ queue_repr s' l' ∧ same_meta s s') s.
Proof.
  induction os as [|o os IH]; intros s l rs l' Hr Hrun; simpl in Hrun.
  - simplify_eq. by apply wp_ret.
  - destruct (list_step (in_store s) o l) as [[r l1]|] eqn:Hs; [|done]. simpl in Hrun.
    destruct (list_run (in_store s) os l1) as [[rs1 l2]|] eqn:Hrest; [|done]. simplify_eq/=.
    apply wp_bind. eapply wp_mono; [by eapply queue_step_refines|]. intros r' s1 (-> & Hr1 & Hm1).
    apply wp_bind. eapply wp_mono; [eapply (IH s1 l1 rs1 l'); [done|]|].
    + rewrite <- Hrest. clear -Hm1. revert l1.
      induction os as [|o os IH]; intros l1; simpl; [done|].
      rewrite (list_step_ext _ (in_store s)) by (intros; by apply in_store_same).
      destruct (list_step _ o l1) as [[? ?]|]; simpl; [|done]. by rewrite IH.
    + intros rs' s2 (-> & ? & ?). apply wp_ret. split_and!; [done|done|]. by etrans.
Qed.
End refinement.

(** C29: the linked list of free blocks implements a list: for every sequence of
    [popleft], [popleft_n], [remove], [append], [append_n] and [get_all_free_blocks]
    that is possible on the list, the calls on the linked structure raise nothing,
    return what the list operations return, leave a well-formed linked list of the
    resulting blocks, and touch no block's id, reference count or hash. *)
Theorem queue_refines_list s l os rs l' :
  queue_repr s l → list_run (in_store s) os l = Some (rs, l') →
  wp (queue_run os) (λ rs' s', rs' = rs ∧ queue_repr s' l' ∧ same_meta s s') s.
Proof. apply queue_run_refines. Qed.

(** A store of three fresh blocks. *)
Definition three_blocks : FreeQueue := mkFreeQueue (initial_blocks 3) 0.
Definition three_queue : FreeQueue := (FreeKVCacheBlockQueue_init [Blk 0; Blk 1; Blk 2] three_blocks).2.

Lemma three_queue_repr : queue_repr three_queue [Blk 0; Blk 1; Blk 2].
Proof.
  pose proof (init_spec three_blocks [Blk 0; Blk 1; Blk 2]) as H. unfold wp in H.
  unfold three_queue. destruct (FreeKVCacheBlockQueue_init _ _) as [[[]|e] s'] eqn:E;
    [apply H|exfalso; apply H]; apply (initial_store_unlinked 3).
Qed.

Lemma queue_refines_list_witness :
  wp (queue_run [PopLeft; Remove (Blk 2); Append (Blk 0); GetAll])
    (λ rs' s', rs' = [[Blk 0]; []; []; [Blk 1; Blk 0]] ∧ queue_repr s' [Blk 1; Blk 0] ∧ same_meta three_queue s')
    three_queue.
Proof.
  apply (queue_refines_list three_queue [Blk 0; Blk 1; Blk 2]); [exact three_queue_repr|vm_compute; reflexivity].
Defined.

(** * The priority queue *)

Section priority.
Implicit Types (h : list entry) (rs : list Request).

(** Requests of the same priority and arrival time are the same request. *)
Definition requests_distinct rs : Prop := no_ties (PriorityRequestQueue.entry_of <$> rs).

Lemma prepend_requests_spec rs : ∀ h,
  is_heap entry_le h → no_ties ((PriorityRequestQueue.entry_of <$> rs) ++ h) →
  ∃ h', PriorityRequestQueue.prepend_requests h rs = Ok h' ∧
    h' ≡ₚ (PriorityRequestQueue.entry_of <$> rs) ++ h ∧ is_heap entry_le h'.
Proof.
  induction rs as [|r rs IH]; intros h Hh Hn; simpl; [by eauto|].
  destruct (priority_add_spec h r Hh) as (h1 & -> & Hp1 & Hh1).
  { eapply no_ties_incl; [|exact Hn]. intros e. rewrite fmap_cons, <- app_comm_cons, !elem_of_cons, elem_of_app. intros [?|?]; [by left|by right; right]. }
  cbn [mbind outcome_bind]. destruct (IH h1 Hh1) as (h2 & -> & Hp2 & Hh2).
  { rewrite Hp1. rewrite <- Permutation_middle. exact Hn. }
  exists h2. split; [done|]. split; [|done]. rewrite Hp2, Hp1. by rewrite <- Permutation_middle.
Qed.

(** [no_ties], computed. *)
Definition ties_free h : bool :=
  forallb (λ a, forallb (λ b, bool_decide (a.1 ≠ b.1) || bool_decide (a.2 = b.2)) h) h.
Lemma ties_free_spec h : ties_free h = true → no_ties h.
Proof.
  intros Hf a b Ha Hb Hab. unfold ties_free in Hf. rewrite forallb_forall in Hf.
  apply list_elem_of_In in Ha, Hb. specialize (Hf a Ha). rewrite forallb_forall in Hf. specialize (Hf b Hb).
  apply orb_true_iff in Hf as [Hf|Hf]; by apply bool_decide_eq_true in Hf.
Qed.

Lemma heap_nil : is_heap entry_le [].
Proof. intros i Hi Hp Hl. simpl in Hl. lia. Qed.
End priority.

(** Adding requests of distinct keys to an empty priority queue raises nothing, and
    iterating over the queue then yields exactly these requests, each once, in the order
    of [(priority, arrival_time)]. *)
Theorem priority_queue_sorts rs :
  requests_distinct rs →
  ∃ h es, PriorityRequestQueue.prepend_requests [] rs = Ok h ∧
    PriorityRequestQueue.iter h = Ok (entry_request <$> es) ∧
    es ≡ₚ PriorityRequestQueue.entry_of <$> rs ∧ StronglySorted entry_le es.
Proof.
  intros Hn. destruct (prepend_requests_spec rs []) as (h & Hadd & Hp & Hh).
  - apply heap_nil.
  - by rewrite app_nil_r.
  - rewrite app_nil_r in Hp. destruct (priority_iter_spec h Hh) as (es & Hit & Hpe & Hs).
    + by rewrite Hp.
    + exists h, es. split_and!; try done. by rewrite Hpe.
Qed.

Definition three_requests : list Request :=
  [sample_request "late" 1 7; sample_request "urgent" 0 9; sample_request "early" 1 3].

Lemma three_requests_distinct : requests_distinct three_requests.
Proof. apply ties_free_spec. vm_compute. reflexivity. Qed.

Lemma priority_queue_sorts_witness :
  PriorityRequestQueue.prepend_requests [] three_requests ≫= PriorityRequestQueue.iter
    = Ok ["urgent"; "early"; "late"]%string ∧
  ∃ h es, PriorityRequestQueue.prepend_requests [] three_requests = Ok h ∧
    PriorityRequestQueue.iter h = Ok (entry_request <$> es) ∧
    es ≡ₚ PriorityRequestQueue.entry_of <$> three_requests ∧ StronglySorted entry_le es.
Proof.
  split; [vm_compute; reflexivity|]. apply priority_queue_sorts. exact three_requests_distinct.
Defined.

(** Popping a well-formed priority queue without ties returns a request no other one
    goes before, the same that [peek_request] shows, and leaves a well-formed queue of
    the others; removing requests leaves a well-formed queue of the rest. *)
Theorem priority_pop_and_remove h ids :
  queue_wf (PriorityQueue h) → h ≠ [] →
  (∃ e h', PriorityRequestQueue.pop_request h = Ok (entry_request e, h') ∧
    PriorityRequestQueue.peek_request h = Ok (entry_request e) ∧
    h ≡ₚ e :: h' ∧ queue_wf (PriorityQueue h') ∧ ∀ y, y ∈ h → entry_le e y) ∧
  ∃ h2, PriorityRequestQueue.remove_requests h ids = Ok h2 ∧
    h2 ≡ₚ filter (λ e, entry_request e ∉ ids) h ∧ queue_wf (PriorityQueue h2).
Proof.
  intros [Hh Hn] Hne. split.
  - destruct (priority_pop_spec h Hh Hn Hne) as (e & h' & Hpop & Hp & Hh' & Hn' & Hmin & Hpeek).
    exists e, h'. split_and!; try done.
  - destruct (priority_remove_spec h (λ e, entry_request e ∉ ids) Hn) as (h2 & ? & ? & ? & ?).
    exists h2. by split_and!.
Qed.

Definition three_heap : list entry := [(0, 9, "urgent"); (1, 7, "late"); (1, 3, "early")]%string.

Lemma three_heap_wf : queue_wf (PriorityQueue three_heap).
Proof.
  split.
  - intros i Hi _ Hl. unfold three_heap in *. simpl in Hl.
    assert (i = 1 ∨ i = 2)%nat as [-> | ->] by lia; intros x y Hx Hy; vm_compute in Hx, Hy; simplify_eq; left; done.
  - apply ties_free_spec. vm_compute. reflexivity.
Qed.

Lemma priority_pop_and_remove_witness :
  (∃ e h', PriorityRequestQueue.pop_request three_heap = Ok (entry_request e, h') ∧
    PriorityRequestQueue.peek_request three_heap = Ok (entry_request e) ∧
    three_heap ≡ₚ e :: h' ∧ queue_wf (PriorityQueue h') ∧ ∀ y, y ∈ three_heap → entry_le e y) ∧
  ∃ h2, PriorityRequestQueue.remove_requests three_heap ["late"%string] = Ok h2 ∧
    h2 ≡ₚ filter (λ e, entry_request e ∉ ["late"%string]) three_heap ∧ queue_wf (PriorityQueue h2).
Proof. apply priority_pop_and_remove; [exact three_heap_wf|discriminate]. Defined.

(** A priority queue cannot take a request whose priority and arrival time another
    waiting request has: Python compares the requests themselves and raises
    [TypeError]. *)
Theorem priority_tie_raises (r1 r2 : Request) :
  priority r1 = priority r2 → arrival_time r1 = arrival_time r2 → request_id r1 ≠ request_id r2 →
  (h ← PriorityRequestQueue.add_request [] r1; PriorityRequestQueue.add_request h r2) = Raise TypeError.
Proof.
  intros Hp Ht Hid. unfold PriorityRequestQueue.add_request, heappush. cbn [length app siftdown].
  rewrite decide_False by lia. cbn [mbind outcome_bind length app siftdown].
  rewrite decide_True by lia. change (parent 1) with 0%nat. unfold lt_at.
  set (two := [_; _]). rewrite (py_index_lookup two 1 (PriorityRequestQueue.entry_of r2)) by done.
  cbn [mbind outcome_bind]. rewrite (py_index_lookup two 0 (PriorityRequestQueue.entry_of r1)) by done.
  cbn [mbind outcome_bind]. unfold PriorityRequestQueue.entry_of, entry_lt.
  rewrite Hp, Ht, (decide_True (P := priority r2 = priority r2)), (decide_True (P := arrival_time r2 = arrival_time r2)) by done.
  by rewrite (decide_False (P := request_id r2 = request_id r1)) by (intros E; by apply Hid).
Qed.

Lemma priority_tie_raises_witness :
  (h ← PriorityRequestQueue.add_request [] (sample_request "a" 0 5);
   PriorityRequestQueue.add_request h (sample_request "b" 0 5)) = Raise TypeError.
Proof. apply priority_tie_raises; [reflexivity|reflexivity|discriminate]. Defined.
