(* ===== verification/CacheTheorems.v ===== *)
(** The contracts of the KV cache: block hashes, the block pool, the lookups of the
    managers and the operations of the KV-cache manager. *)
From Stdlib Require Import ZArith Lia.
From stdpp Require Import base strings countable gmap sets fin_maps list.
From S2P Require Import Prelude FreeBlockQueue Request BlockHash BlockPool KVCacheSpec SingleTypeManager KVCacheCoordinator KVCacheManager Samples.
Local Open Scope Z_scope.

(** * The block pool *)

Section pool_conservation.
Implicit Types (p : BlockPool) (free : list ptr).

(** The blocks in use: all but the null block with a reference. *)
Definition used_blocks p : list ptr := filter (λ q, q ≠ null_block p ∧ 0 < blk_ref p q) (blocks p).

Lemma blocks_nodup p free : pool_core p free → NoDup (blocks p).
Proof.
  intros Hc. rewrite (pc_blocks _ _ Hc). apply NoDup_fmap_2_strong; [by intros ? ? _ _ [=]|apply NoDup_seq].
Qed.

Lemma blocks_valid p free q : pool_core p free → q ∈ blocks p ↔ valid p q.
Proof.
  intros Hc. rewrite (pc_blocks _ _ Hc), list_elem_of_fmap. unfold valid. setoid_rewrite elem_of_seq.
  split; intros (i & ? & ?); exists i; (split; [done|lia]).
Qed.

Lemma free_perm p free :
  pool_inv p free → free ++ used_blocks p ++ [null_block p] ≡ₚ blocks p.
Proof.
  intros [Hc Hr]. pose proof (valid_null _ _ Hc) as Hn. apply NoDup_Permutation.
  - apply NoDup_app. split; [apply (pc_queue _ _ Hc)|]. split.
    + intros q Hq [Hu|Hu]%elem_of_app.
      * apply list_elem_of_filter in Hu as [[Hne Hp] _]. destruct (pc_free _ _ Hc q Hq) as [Hv _].
        destruct (Hr q Hv Hne) as [_ Hiff]. apply Hiff in Hq. lia.
      * apply list_elem_of_singleton in Hu as ->. by destruct (pc_free _ _ Hc _ Hq).
    + apply NoDup_app. split; [apply NoDup_filter; by eapply blocks_nodup|]. split; [|apply NoDup_singleton].
      intros q Hu ->%list_elem_of_singleton. by apply list_elem_of_filter in Hu as [[? _] _].
  - by eapply blocks_nodup.
  - intros q. rewrite !elem_of_app, list_elem_of_singleton. unfold used_blocks. rewrite list_elem_of_filter.
    rewrite (blocks_valid p free) by done. split.
    + intros [Hq|[[_ ?]| ->]]; [|done|done]. by apply (pc_free _ _ Hc).
    + intros Hv. destruct (decide (q = null_block p)) as [|Hne]; [tauto|].
      destruct (Hr q Hv Hne) as [Hpos Hiff]. destruct (decide (blk_ref p q = 0)); [left; by apply Hiff|].
      right; left. split; [|done]. split; [done|lia].
Qed.
End pool_conservation.

(** No block is lost or counted twice: at any time the free blocks, the blocks with
    a reference and the null block are all the blocks of the pool, each once. *)
Theorem pool_conserves_blocks p free :
  pool_inv p free →
  free ++ used_blocks p ++ [null_block p] ≡ₚ blocks p ∧ NoDup (blocks p) ∧
  get_num_free_blocks p + len (used_blocks p) + 1 = num_gpu_blocks p.
Proof.
  intros Hp. pose proof (free_perm _ _ Hp) as Hperm. pose proof Hp as [Hc _].
  split; [done|]. split; [by eapply blocks_nodup|].
  apply Permutation_length in Hperm. rewrite !length_app, (pc_blocks _ _ Hc), length_fmap, length_seq in Hperm.
  pose proof (repr_num _ _ (pc_queue _ _ Hc)) as Hnum. pose proof (pc_pos _ _ Hc).
  unfold get_num_free_blocks. rewrite Hnum. unfold len. simpl in Hperm. lia.
Qed.

Lemma pool_conserves_blocks_witness :
  (Blk <$> seq 1 7) ++ used_blocks sample_pool ++ [null_block sample_pool] ≡ₚ blocks sample_pool ∧
  NoDup (blocks sample_pool) ∧
  get_num_free_blocks sample_pool + len (used_blocks sample_pool) + 1 = num_gpu_blocks sample_pool.
Proof. apply pool_conserves_blocks. apply sample_pool_inv. Defined.

(** [get_new_blocks n] takes the first [n] free blocks in eviction order, gives each
    one reference, and drops what the prefix cache had on them when caching is on; no
    other block changes.  For more blocks than are free it raises [ValueError] and
    changes nothing. *)
Theorem get_new_blocks_takes p free n :
  pool_inv p free →
  (n <= len free → 0 <= n →
   wp (get_new_blocks n) (λ bs p', bs = take (Z.to_nat n) free ∧ pool_inv p' (drop (Z.to_nat n) free) ∧
     pool_upd p p' (λ r, if decide (r ∈ bs) then 1 else blk_ref p r)
       (λ r, if decide (r ∈ bs ∧ BlockPool.enable_caching p = true) then None else blk_hash p r)) p) ∧
  (n > len free → get_new_blocks n p = (Raise ValueError, p)).
Proof.
  intros Hp. split.
  - intros Hn H0. rewrite <- (take_drop (Z.to_nat n) free) in Hp. pose proof (get_new_blocks_spec _ _ _ Hp) as Hs.
    assert (len (take (Z.to_nat n) free) = n) as Hl by (unfold len in *; rewrite length_take; lia).
    rewrite Hl in Hs. eapply wp_mono; [exact Hs|]. intros bs p' (-> & ? & ?). by split_and!.
  - intros Hn. apply get_new_blocks_too_many. destruct Hp as [Hc _].
    unfold get_num_free_blocks. rewrite (repr_num _ _ (pc_queue _ _ Hc)). lia.
Qed.

Lemma get_new_blocks_takes_witness :
  (3 <= len (Blk <$> seq 1 7) → 0 <= 3 →
   wp (get_new_blocks 3) (λ bs p', bs = take 3 (Blk <$> seq 1 7) ∧ pool_inv p' (drop 3 (Blk <$> seq 1 7)) ∧
     pool_upd sample_pool p' (λ r, if decide (r ∈ bs) then 1 else blk_ref sample_pool r)
       (λ r, if decide (r ∈ bs ∧ BlockPool.enable_caching sample_pool = true) then None else blk_hash sample_pool r))
     sample_pool) ∧
  (3 > len (Blk <$> seq 1 7) → get_new_blocks 3 sample_pool = (Raise ValueError, sample_pool)).
Proof. exact (get_new_blocks_takes sample_pool (Blk <$> seq 1 7) 3 (proj1 sample_pool_inv)). Defined.

(** [touch] adds a reference per mention and takes the touched blocks off the free
    list, cached hashes staying; [free_blocks] takes a reference per mention away and
    appends the blocks whose last reference that was, in the given order. *)
Theorem touch_and_free p free bss bs :
  pool_inv p free → (∀ q, q ∈ concat bss → valid p q) → (∀ q, q ∈ bs → valid p q) →
  NoDup (filter (.≠ null_block p) bs) → (∀ q, q ∈ bs → q ≠ null_block p → 0 < blk_ref p q) →
  wp (touch bss) (λ _ p', pool_inv p' (filter (.∉ concat bss) free) ∧
    pool_upd p p' (λ r, blk_ref p r + occ r (concat bss)) (blk_hash p)) p ∧
  wp (free_blocks bs) (λ _ p',
    pool_inv p' (free ++ filter (λ q, q ≠ null_block p ∧ blk_ref p q = 1) bs) ∧
    pool_upd p p' (λ r, blk_ref p r - occ r bs) (blk_hash p)) p.
Proof. intros. split; [by apply touch_spec|by apply free_blocks_spec]. Qed.

(** The pool after its first two blocks have been handed out. *)
Definition busy_pool : BlockPool := (get_new_blocks 2 sample_pool).2.
Lemma busy_pool_inv : pool_inv busy_pool (Blk <$> seq 3 5) ∧ null_block busy_pool = Blk 0 ∧
  num_gpu_blocks busy_pool = 8 ∧ blk_ref busy_pool (Blk 1) = 1 ∧ blk_ref busy_pool (Blk 2) = 1.
Proof.
  pose proof sample_pool_inv as (Hp & Hn & _ & Hnull & _).
  pose proof (get_new_blocks_spec sample_pool [Blk 1; Blk 2] (fmap (M := list) Blk (seq 3 5)) Hp) as H.
  unfold wp in H. change (len [Blk 1; Blk 2]) with 2 in H. unfold busy_pool.
  destruct (get_new_blocks 2 sample_pool) as [[bs|e] p']; [|done].
  destruct H as (-> & Hp' & (Hn' & _ & _ & Hnull' & _) & Href & _). cbn [snd]. rewrite Hnull', Hn', !Href, Hnull, Hn.
  by split_and!.
Qed.

Lemma touch_and_free_witness :
  wp (touch [[Blk 1; Blk 4]]) (λ _ p', pool_inv p' (filter (.∉ concat [[Blk 1; Blk 4]]) (Blk <$> seq 3 5)) ∧
    pool_upd busy_pool p' (λ r, blk_ref busy_pool r + occ r (concat [[Blk 1; Blk 4]])) (blk_hash busy_pool)) busy_pool ∧
  wp (free_blocks [Blk 2; Blk 1]) (λ _ p',
    pool_inv p' ((Blk <$> seq 3 5) ++ filter (λ q, q ≠ null_block busy_pool ∧ blk_ref busy_pool q = 1) [Blk 2; Blk 1]) ∧
    pool_upd busy_pool p' (λ r, blk_ref busy_pool r - occ r [Blk 2; Blk 1]) (blk_hash busy_pool)) busy_pool.
Proof.
  pose proof busy_pool_inv as (Hp & Hnull & Hn & H1 & H2).
  apply touch_and_free; [exact Hp| | | |].
  - intros q Hq. apply elem_of_cons in Hq as [-> |Hq]; [|apply list_elem_of_singleton in Hq as ->];
      (eexists; split; [done|rewrite Hn; lia]).
  - intros q Hq. apply elem_of_cons in Hq as [-> |Hq]; [|apply list_elem_of_singleton in Hq as ->];
      (eexists; split; [done|rewrite Hn; lia]).
  - apply NoDup_filter, (bool_decide_unpack (NoDup [Blk 2; Blk 1])). vm_compute. exact I.
  - intros q Hq _. apply elem_of_cons in Hq as [-> |Hq]; [|apply list_elem_of_singleton in Hq as ->]; lia.
Defined.

(** * Prefix lookups *)

(** The pool of the sample manager and the hashes of its request. *)
Definition pool_a : BlockPool := the_pool manager_a.
Definition hashes_a : list BlockHash := hashes_of manager_a "a".

Lemma pool_a_core : ∃ free, pool_core pool_a free.
Proof. destruct manager_a_inv as [free H]. exists free. eapply ki_core. apply (km_inv _ _ _ _ _ H). Qed.

Lemma manager_a_caching : KVCacheManager.enable_caching manager_a = true ∧ manager_block_size_opt manager_a = Some 4.
Proof. split; vm_compute; reflexivity. Qed.

Lemma hashes_a_chain : is_chain sample_hash sample_none 4 [1; 2; 3; 4; 5] hashes_a.
Proof.
  destruct manager_a_inv as [free H]. destruct manager_a_caching as [Hcaching Hsize].
  destruct (km_block_size _ _ _ _ _ H Hcaching) as (bs & Hbs & _ & _ & Hc).
  rewrite Hsize in Hbs. injection Hbs as <-. exact (Hc "a"%string).
Qed.

(** [get_cached_block] finds a block for every one of the given groups exactly when
    there is one, and what it finds is a block of the pool that holds this hash for the
    group. *)
Theorem cached_block_lookup p free bh gs :
  pool_core p free →
  match get_cached_block p bh gs with
  | Some bs => Forall2 (λ g q, valid p q ∧ blk_hash p q = Some (mkBlockHashWithGroupId bh g)) gs bs
  | None => ∃ g, g ∈ gs ∧ ∀ q, valid p q → blk_hash p q ≠ Some (mkBlockHashWithGroupId bh g)
  end.
Proof.
  intros Hc. destruct (get_cached_block p bh gs) as [bs|] eqn:E; [by eapply get_cached_block_sound|].
  by apply (get_cached_block_complete _ _ _ _ Hc).
Qed.

Lemma cached_block_lookup_witness :
  get_cached_block pool_a (default (mkBlockHash 0 [] None) (hashes_a !! 0%nat)) [0] = Some [Blk 1] ∧
  match get_cached_block pool_a (default (mkBlockHash 0 [] None) (hashes_a !! 0%nat)) [0] with
  | Some bs => Forall2 (λ g q, valid pool_a q ∧ blk_hash pool_a q =
      Some (mkBlockHashWithGroupId (default (mkBlockHash 0 [] None) (hashes_a !! 0%nat)) g)) [0] bs
  | None => ∃ g, g ∈ [0] ∧ ∀ q, valid pool_a q → blk_hash pool_a q ≠
      Some (mkBlockHashWithGroupId (default (mkBlockHash 0 [] None) (hashes_a !! 0%nat)) g)
  end.
Proof.
  split; [vm_compute; reflexivity|]. destruct pool_a_core as [free Hc].
  apply (cached_block_lookup pool_a free _ [0] Hc).
Defined.

(** C32: hashing a request yields one hash per full block and never fails, and hashes
    identify prefixes: when a block of one request and a block of another (or the same)
    have equal hash values, the blocks are at the same position, all tokens up to the
    end of the block are equal, and so are the extra keys. *)
Theorem block_hash_identifies_prefix bs r1 r2
    (hf : Z * list Z * option (list extra_key) → Z) (none : Z) :
  CollisionFree hf none → 0 < bs → mm_wf r1 → mm_wf r2 →
  ∃ hs1 hs2, hash_request_tokens hf none bs r1 = Ok hs1 ∧ hash_request_tokens hf none bs r2 = Ok hs2 ∧
    len hs1 = len (all_token_ids r1) / bs ∧ len hs2 = len (all_token_ids r2) / bs ∧
    ∀ i j h1 h2, hs1 !! i = Some h1 → hs2 !! j = Some h2 → hash_value h1 = hash_value h2 →
      i = j ∧ extra_keys h1 = extra_keys h2 ∧
      take (Z.to_nat (Z.of_nat (S i) * bs)) (all_token_ids r1) = take (Z.to_nat (Z.of_nat (S i) * bs)) (all_token_ids r2).
Proof.
  intros Hcf Hbs H1 H2.
  destruct (hash_request_tokens_spec hf none r1 bs H1 Hbs) as (hs1 & ? & ? & Hc1).
  destruct (hash_request_tokens_spec hf none r2 bs H2 Hbs) as (hs2 & ? & ? & Hc2).
  exists hs1, hs2. csplit; try done. intros i j h1 h2 Hi Hj Hh.
  destruct (chain_inj hf none bs _ _ hs1 hs2 i j h1 h2 Hbs Hc1 Hc2 Hi Hj Hh) as (-> & Ht & He).
  replace (Z.of_nat (S j) * bs) with (Z.of_nat j * bs + bs) by lia. done.
Qed.

Lemma block_hash_identifies_prefix_witness :
  ∃ hs1 hs2, hash_request_tokens sample_hash sample_none 2 request_a = Ok hs1 ∧
    hash_request_tokens sample_hash sample_none 2 (sample_request_of "b" 0 1 [1; 2; 4]) = Ok hs2 ∧
    len hs1 = len (all_token_ids request_a) / 2 ∧ len hs2 = len (all_token_ids (sample_request_of "b" 0 1 [1; 2; 4])) / 2 ∧
    ∀ i j h1 h2, hs1 !! i = Some h1 → hs2 !! j = Some h2 → hash_value h1 = hash_value h2 →
      i = j ∧ extra_keys h1 = extra_keys h2 ∧
      take (Z.to_nat (Z.of_nat (S i) * 2)) (all_token_ids request_a)
        = take (Z.to_nat (Z.of_nat (S i) * 2)) (all_token_ids (sample_request_of "b" 0 1 [1; 2; 4])).
Proof. apply block_hash_identifies_prefix; [exact sample_collision_free|lia|by left|by left]. Defined.

(** C33: for full attention (and for the chunked layers the lookup treats alike) the
    prefix hit is the longest one: it covers the first [k] hashes, each found for every
    group, and either reaches the limit or the next hash is not cached for some group;
    with EAGLE the last block is given up. *)
Theorem full_attention_hit_is_longest p free hs max_length gs s use_eagle :
  pool_core p free → gs ≠ [] → is_full_attention s || is_chunked_local s = true →
  0 < block_size s → 0 <= max_length →
  ∃ cols k, find_longest_cache_hit_full hs max_length gs p s use_eagle = Ok cols ∧
    (k <= length hs)%nat ∧ Z.of_nat k <= max_length / block_size s ∧
    Forall2 (λ g c, length c = (if use_eagle then pred k else k) ∧ ∀ i q, c !! i = Some q → hit_entry p hs g i q) gs cols ∧
    (∀ i h, (i < k)%nat → hs !! i = Some h → is_Some (cached_hit p h gs)) ∧
    (∀ h, Z.of_nat k < max_length / block_size s → hs !! k = Some h → cached_hit p h gs = None).
Proof.
  intros Hc Hg Hs Hb Hm.
  destruct (find_longest_cache_hit_full_spec p free hs max_length gs s use_eagle Hc Hg Hs Hb Hm)
    as (cols & k & ? & ? & ? & ? & ? & Hlast).
  exists cols, k. csplit; try done. intros h Hk Hh. specialize (Hlast h Hk Hh). unfold hits in Hlast.
  by apply eq_None_not_Some.
Qed.

Lemma full_attention_hit_is_longest_witness :
  find_longest_cache_hit_full hashes_a 5 [0] pool_a sample_spec false = Ok [[Blk 1]] ∧
  ∃ cols k, find_longest_cache_hit_full hashes_a 5 [0] pool_a sample_spec false = Ok cols ∧
    (k <= length hashes_a)%nat ∧ Z.of_nat k <= 5 / block_size sample_spec ∧
    Forall2 (λ g c, length c = k ∧ ∀ i q, c !! i = Some q → hit_entry pool_a hashes_a g i q) [0] cols ∧
    (∀ i h, (i < k)%nat → hashes_a !! i = Some h → is_Some (cached_hit pool_a h [0])) ∧
    (∀ h, Z.of_nat k < 5 / block_size sample_spec → hashes_a !! k = Some h → cached_hit pool_a h [0] = None).
Proof.
  split; [vm_compute; reflexivity|]. destruct pool_a_core as [free Hc].
  apply (full_attention_hit_is_longest pool_a free hashes_a 5 [0] sample_spec false Hc); [discriminate|reflexivity|reflexivity|lia].
Defined.

(** C34: the sliding-window lookup takes the right-most place where enough consecutive
    blocks are cached: it returns, per group, [K] entries that are the null block or a
    cached block of that position, the last [need] of them all cached blocks ([need]
    covers the window), and at every longer cut below the limit one of the [need]
    blocks before the cut is not cached. *)
Theorem window_hit_is_rightmost p free hs max_length gs a window (use_eagle : bool)
    (need := Z.to_nat (Z.max 1 (cdiv (window - 1) (attn_block_size a) + (if use_eagle then 1 else 0)))) :
  pool_core p free → gs ≠ [] → 0 < attn_block_size a → 0 <= max_length →
  max_length / attn_block_size a <= len hs →
  ∃ cols K, find_longest_cache_hit_window hs max_length gs p (SlidingWindowSpec a window) use_eagle
      = drop_last_for_eagle use_eagle cols ∧
    Forall2 (window_result p hs need K) gs cols ∧ Z.of_nat K <= max_length / attn_block_size a ∧
    ∀ K', (K < K')%nat → Z.of_nat K' <= max_length / attn_block_size a → window_misses p gs hs need K'.
Proof. apply find_longest_cache_hit_window_spec. Qed.

Lemma window_hit_is_rightmost_witness :
  find_longest_cache_hit_window hashes_a 5 [0] pool_a (SlidingWindowSpec (mkAttentionSpec 4 1 1 0 false) 4) false
    = Ok [[Blk 1]] ∧
  ∃ cols K, find_longest_cache_hit_window hashes_a 5 [0] pool_a (SlidingWindowSpec (mkAttentionSpec 4 1 1 0 false) 4) false
      = drop_last_for_eagle false cols ∧
    Forall2 (window_result pool_a hashes_a 1 K) [0] cols ∧ Z.of_nat K <= 5 / 4 ∧
    ∀ K', (K < K')%nat → Z.of_nat K' <= 5 / 4 → window_misses pool_a [0] hashes_a 1 K'.
Proof.
  split; [vm_compute; reflexivity|]. destruct pool_a_core as [free Hc].
  apply (window_hit_is_rightmost pool_a free hashes_a 5 [0] (mkAttentionSpec 4 1 1 0 false) 4 false Hc); [discriminate|done|lia|done].
Defined.

(** A coordinator's lookup, of one group or of full attention together with one
    other kind, returns the same number [K] of blocks for every group; each is the null
    block or caches the request's hash of its position for the group, the last one does,
    no block occurs twice, and [K] blocks fit the limit. *)
Theorem coordinator_hit_is_common hf none c free bs toks hs max_length :
  CollisionFree hf none →
  pool_core (block_pool c) free → is_chain hf none bs toks hs → coord_wf c →
  coord_cacheable c bs → enough_hashes c bs hs max_length → 0 <= max_length →
  ∃ news K, coord_find_longest_cache_hit c hs max_length = Ok (news, Z.of_nat K * bs) ∧
    common_hit (block_pool c) hs (length (single_type_managers c)) news K ∧ Z.of_nat K * bs <= max_length.
Proof. intros ?. by apply coord_find_longest_cache_hit_spec. Qed.

Definition coord_a : KVCacheCoordinator := coordinator manager_a.

Lemma coord_a_kind : kind coord_a = UnitaryKVCacheCoordinator sample_spec.
Proof. vm_compute. reflexivity. Qed.
Lemma coord_a_wf : coord_wf coord_a.
Proof.
  unfold coord_wf. rewrite coord_a_kind.
  exists (mkManager FullAttentionManager sample_spec {["a"%string := [Blk 1; Blk 2]]} {["a"%string := 1]} 0 (Blk 0)).
  split; [exact manager_a_groups|done].
Qed.
Lemma coord_a_cacheable : coord_cacheable coord_a 4.
Proof. unfold coord_cacheable. by rewrite coord_a_kind. Qed.

Lemma coordinator_hit_is_common_witness :
  coord_find_longest_cache_hit coord_a hashes_a 5 = Ok ([[Blk 1]], 4) ∧
  ∃ news K, coord_find_longest_cache_hit coord_a hashes_a 5 = Ok (news, Z.of_nat K * 4) ∧
    common_hit (block_pool coord_a) hashes_a (length (single_type_managers coord_a)) news K ∧ Z.of_nat K * 4 <= 5.
Proof.
  split; [vm_compute; reflexivity|]. destruct pool_a_core as [free Hc].
  apply (coordinator_hit_is_common sample_hash sample_none coord_a free 4 [1; 2; 3; 4; 5] hashes_a 5).
  - exact sample_collision_free.
  - exact Hc.
  - exact hashes_a_chain.
  - exact coord_a_wf.
  - exact coord_a_cacheable.
  - unfold enough_hashes. by rewrite coord_a_kind.
  - lia.
Defined.

(** [cache_full_blocks] extends the request's hash chain as far as needed and
    registers each new full block of the request under the hash of its position and
    the group; nothing else about the pool changes, and the pool stays well formed. *)
Theorem cache_full_blocks_registers hf none p free r bls hs nc nf bs g :
  pool_inv p free → cacheable hf none p r bls hs nc nf bs →
  (enable_kv_cache_events p = true → lora_request r = None) →
  wp (cache_full_blocks hf none r bls hs (Z.of_nat nc) (Z.of_nat nf) bs g) (λ hs' p',
    hs `prefix_of` hs' ∧ is_chain hf none bs (all_token_ids r) hs' ∧ (nf <= length hs')%nat ∧
    pool_inv p' free ∧ same_config p p' ∧ (∀ q, blk_ref p' q = blk_ref p q) ∧
    (∀ i q, (nc <= i < nf)%nat → bls !! i = Some q → ∃ h,
       hs' !! i = Some h ∧ blk_hash p' q = Some (mkBlockHashWithGroupId h g)) ∧
    (∀ q, q ∉ drop nc (take nf bls) → blk_hash p' q = blk_hash p q)) p.
Proof. apply cache_full_blocks_spec. Qed.

Lemma cache_full_blocks_registers_witness :
  wp (cache_full_blocks sample_hash sample_none request_a [Blk 1; Blk 2] [] (Z.of_nat 0) (Z.of_nat 1) 4 0) (λ hs' p',
    [] `prefix_of` hs' ∧ is_chain sample_hash sample_none 4 (all_token_ids request_a) hs' ∧ (1 <= length hs')%nat ∧
    pool_inv p' (Blk <$> seq 3 5) ∧ same_config busy_pool p' ∧ (∀ q, blk_ref p' q = blk_ref busy_pool q) ∧
    (∀ i q, (0 <= i < 1)%nat → [Blk 1; Blk 2] !! i = Some q → ∃ h,
       hs' !! i = Some h ∧ blk_hash p' q = Some (mkBlockHashWithGroupId h 0)) ∧
    (∀ q, q ∉ drop 0 (take 1 [Blk 1; Blk 2]) → blk_hash p' q = blk_hash busy_pool q)) busy_pool.
Proof.
  pose proof busy_pool_inv as (Hp & Hnull & Hn & H1 & H2).
  apply (cache_full_blocks_registers sample_hash sample_none busy_pool (Blk <$> seq 3 5) request_a [Blk 1; Blk 2] [] 0 1 4 0); [exact Hp| |done].
  split; [by left|lia|simpl; lia|simpl; lia|apply is_chain_nil|done| |by apply NoDup_singleton|done].
  intros i q Hi Hq. assert (i = 0%nat) as -> by lia. injection Hq as <-.
  split; [exists 1%nat; split; [done|rewrite Hn; lia]|]. split; [by rewrite Hnull|]. vm_compute. reflexivity.
Defined.

(** * The KV-cache manager *)

(** A new manager has all blocks but the null block free and nothing in its tables,
    and it satisfies the invariant the other operations keep. *)
Theorem new_manager_ok hf none cfg max_model_len caching eagle log_stats ev toks m :
  0 < num_blocks cfg → (∀ g, g ∈ kv_cache_groups cfg → 0 < block_size (kv_cache_spec g)) →
  KVCacheManager_init cfg max_model_len caching eagle log_stats ev = Ok m →
  kvm_inv m toks (Blk <$> seq 1 (Z.to_nat (num_blocks cfg) - 1)) hf none ∧ coord_wf (coordinator m) ∧
  ∀ i g rid, single_type_managers (coordinator m) !! i = Some g →
    blocks_of g rid = [] ∧ num_cached_block g !! rid = None.
Proof.
  intros Hn Hg Hi. destruct (KVCacheManager_init_spec hf none cfg max_model_len caching eagle log_stats ev toks m Hn Hg Hi)
    as (? & ? & _ & ?). by csplit.
Qed.

Lemma new_manager_ok_witness :
  kvm_inv sample_manager sample_toks (Blk <$> seq 1 (Z.to_nat (num_blocks sample_config) - 1)) sample_hash sample_none ∧
  coord_wf (coordinator sample_manager) ∧
  ∀ i g rid, single_type_managers (coordinator sample_manager) !! i = Some g →
    blocks_of g rid = [] ∧ num_cached_block g !! rid = None.
Proof.
  apply (new_manager_ok sample_hash sample_none sample_config 64 true false true false); [done| |exact sample_manager_ok].
  intros g ->%list_elem_of_singleton. done.
Defined.

(** C30: [allocate_slots] in a call that [slots_ok] describes (every group full attention,
    or a window of which the last cached block of the request has not left yet, as with
    windows larger than a block) raises nothing and keeps the manager's invariant.  When it returns [None] the free blocks do not
    cover the need and no group has lost anything but the blocks that left its window;
    when it returns blocks, every group's table of the request is what was kept of it,
    the blocks of the prefix hit and the returned new blocks, enough for all the
    tokens, and no other request's table has changed. *)
Theorem allocate_slots_total hf none m toks free (r : Request) n nc_new blocks lookahead delay N
    (news := match blocks with Some b => b | None => create_empty_block_list m end) :
  kvm_inv m toks free hf none → toks (request_id r) = all_token_ids r →
  slots_ok m r n nc_new news lookahead delay N →
  wp (allocate_slots hf none r n nc_new blocks lookahead delay)
    (allocation_result hf none m toks r n nc_new news lookahead delay N) m.
Proof. apply allocate_slots_spec. Qed.

Lemma sample_empty : create_empty_block_list sample_manager = [[]].
Proof. vm_compute. reflexivity. Qed.

Lemma allocate_slots_total_witness :
  wp (allocate_slots sample_hash sample_none request_a 5 0 None 0 false)
    (allocation_result sample_hash sample_none sample_manager sample_toks request_a 5 0
       (create_empty_block_list sample_manager) 0 false 0) sample_manager.
Proof.
  refine (allocate_slots_total sample_hash sample_none sample_manager sample_toks (Blk <$> seq 1 7) request_a 5 0 None 0 false 0 _ _ _).
  - exact (proj1 (sample_manager_inv sample_toks)).
  - reflexivity.
  - rewrite sample_empty. exact (sample_slots_ok false).
Defined.

(** C31: [get_computed_blocks] raises nothing, keeps the invariant and the coordinator
    (only hashes and statistics are added), and returns a prefix of whole blocks that is
    shorter than the request, with, for every group, blocks that cache the hashes of
    these positions. *)
Theorem get_computed_blocks_finds_prefix hf none m toks free (r : Request) bs :
  CollisionFree hf none →
  kvm_inv m toks free hf none → KVCacheManager.enable_caching m = true → lookup_ok m toks r bs →
  wp (get_computed_blocks hf none r) (computed_blocks_result hf none m toks free r bs) m.
Proof. intros ?. by apply get_computed_blocks_spec. Qed.

Definition request_b : Request := sample_request_of "b" 0 1 [1; 2; 3; 4; 5].

Lemma request_b_lookup : lookup_ok manager_a sample_toks request_b 4.
Proof.
  split; [done|done|by left|exact coord_a_wf|exact coord_a_cacheable|apply manager_a_caching| |].
  - intros _. vm_compute. by eexists.
  - intros _. unfold enough_hashes. change (coordinator manager_a) with coord_a. rewrite coord_a_kind. intros [=].
Qed.

Lemma get_computed_blocks_finds_prefix_witness :
  (get_computed_blocks sample_hash sample_none request_b manager_a).1 = Ok ([[Blk 1]], 4) ∧
  ∃ free, wp (get_computed_blocks sample_hash sample_none request_b)
    (computed_blocks_result sample_hash sample_none manager_a sample_toks free request_b 4) manager_a.
Proof.
  split; [vm_compute; reflexivity|]. destruct manager_a_inv as [free Hm]. exists free.
  exact (get_computed_blocks_finds_prefix sample_hash sample_none manager_a sample_toks free request_b 4
    sample_collision_free Hm (proj1 manager_a_caching) request_b_lookup).
Defined.

(** Freeing a request empties its table and its count of cached blocks in every
    group, gives its blocks back to the pool, changes no hash (freed blocks can still be
    hit) and no other
    request. *)
Theorem free_releases_request hf none m toks free (r : Request) :
  kvm_inv m toks free hf none →
  wp (KVCacheManager.free r) (λ _ m', ∃ rel, kvm_inv m' toks (free ++ rel) hf none ∧
    walked (λ _ g g', mgr_upd g g' (request_id r) [] None) (length (single_type_managers (coordinator m)))
      (single_type_managers (coordinator m)) (single_type_managers (coordinator m')) ∧
    (∀ q, blk_hash (the_pool m') q = blk_hash (the_pool m) q) ∧ same_settings m m') m.
Proof. apply free_request_spec. Qed.

Lemma free_releases_request_witness :
  ∃ free, wp (KVCacheManager.free request_a) (λ _ m', ∃ rel, kvm_inv m' sample_toks (free ++ rel) sample_hash sample_none ∧
    walked (λ _ g g', mgr_upd g g' (request_id request_a) [] None) (length (single_type_managers (coordinator manager_a)))
      (single_type_managers (coordinator manager_a)) (single_type_managers (coordinator m')) ∧
    (∀ q, blk_hash (the_pool m') q = blk_hash (the_pool manager_a) q) ∧ same_settings manager_a m') manager_a.
Proof.
  destruct manager_a_inv as [free Hm]. exists free.
  exact (free_releases_request sample_hash sample_none manager_a sample_toks free request_a Hm).
Defined.

(** Resetting the prefix cache is refused, without any effect, while a block other
    than the null block is in use; otherwise it empties the cache and keeps the
    invariant. *)
Theorem reset_needs_idle_pool hf none m toks free :
  kvm_inv m toks free hf none →
  (num_gpu_blocks (the_pool m) ≠ len free + 1 → KVCacheManager.reset_prefix_cache m = (Ok false, m)) ∧
  (num_gpu_blocks (the_pool m) = len free + 1 → (log_stats m = true → is_Some (prefix_cache_stats m)) →
   (∀ i g rid, single_type_managers (coordinator m) !! i = Some g → num_cached_block g !! rid = None) →
   wp KVCacheManager.reset_prefix_cache (λ ok m', ok = true ∧ kvm_inv m' toks free hf none ∧
     cached_block_hash_to_block (the_pool m') = ∅) m).
Proof.
  intros Hm. split; [|by apply manager_reset_prefix_cache_spec].
  intros Hn. pose proof (ki_core _ _ _ _ _ (km_inv _ _ _ _ _ Hm)) as Hc.
  unfold KVCacheManager.reset_prefix_cache, on_block_pool, on_coordinator, zoom, mbind, M_bind.
  change (block_pool (coordinator m)) with (the_pool m). rewrite (reset_prefix_cache_refused _ _ Hc Hn).
  by destruct m as [? ? ? []].
Qed.

Lemma reset_needs_idle_pool_witness :
  (num_gpu_blocks (the_pool sample_manager) ≠ len (Blk <$> seq 1 7) + 1 →
     KVCacheManager.reset_prefix_cache sample_manager = (Ok false, sample_manager)) ∧
  (num_gpu_blocks (the_pool sample_manager) = len (Blk <$> seq 1 7) + 1 →
   (log_stats sample_manager = true → is_Some (prefix_cache_stats sample_manager)) →
   (∀ i g rid, single_type_managers (coordinator sample_manager) !! i = Some g → num_cached_block g !! rid = None) →
   wp KVCacheManager.reset_prefix_cache (λ ok m', ok = true ∧ kvm_inv m' sample_toks (Blk <$> seq 1 7) sample_hash sample_none ∧
     cached_block_hash_to_block (the_pool m') = ∅) sample_manager).
Proof.
  exact (reset_needs_idle_pool sample_hash sample_none sample_manager sample_toks (Blk <$> seq 1 7)
    (proj1 (sample_manager_inv sample_toks))).
Defined.

(** A block is shared only through the prefix cache: a block that is not the null
    block and is in the tables of two requests, or of one request in two groups, is
    cached; the reference count of every block is the number of its occurrences in the
    tables, and a block in a table is not free. *)
Theorem sharing_needs_cache hf none m toks (free : list ptr) i j g1 g2 rid1 rid2 q :
  kvm_inv m toks free hf none →
  single_type_managers (coordinator m) !! i = Some g1 → single_type_managers (coordinator m) !! j = Some g2 →
  q ∈ blocks_of g1 rid1 → q ∈ blocks_of g2 rid2 → q ≠ null_block (the_pool m) →
  blk_ref (the_pool m) q = held q (single_type_managers (coordinator m)) ∧ (q ∉ free) ∧
  ((i ≠ j ∨ rid1 ≠ rid2) → is_Some (blk_hash (the_pool m) q)).
Proof.
  intros Hm Hi Hj H1 H2 Hq. pose proof (km_inv _ _ _ _ _ Hm) as Hk.
  destruct (ki_used _ _ _ _ _ _ _ _ _ Hk Hi H1 Hq) as (Hv & _ & _ & Hfree).
  split; [rewrite (ki_refs _ _ _ _ _ Hk) by done; lia|]. split; [done|].
  intros Hne. destruct (blk_hash (the_pool m) q) eqn:E; [done|].
  destruct (ki_exclusive _ _ _ _ _ _ _ _ _ _ _ _ Hk Hi Hj H1 H2 Hq E). naive_solver.
Qed.

(** Requests "a" and "b" with the same prompt: the first block is shared. *)
Definition news_b : list (list ptr) := [[Blk 1]].
Lemma manager_a_group i g : single_type_managers (coordinator manager_a) !! i = Some g →
  i = 0%nat ∧ g = mkManager FullAttentionManager sample_spec {["a"%string := [Blk 1; Blk 2]]} {["a"%string := 1]} 0 (Blk 0).
Proof. rewrite manager_a_groups. destruct i; simpl; [naive_solver|done]. Qed.

Lemma sharing_needs_cache_witness :
  ∃ free : list ptr, blk_ref (the_pool manager_a) (Blk 2) = held (Blk 2) (single_type_managers (coordinator manager_a)) ∧
    (Blk 2 ∉ free) ∧ ((0%nat ≠ 0%nat ∨ "a"%string ≠ "a"%string) → is_Some (blk_hash (the_pool manager_a) (Blk 2))).
Proof.
  destruct manager_a_inv as [free Hm]. exists free.
  apply (sharing_needs_cache sample_hash sample_none manager_a sample_toks free 0 0
    (mkManager FullAttentionManager sample_spec {["a"%string := [Blk 1; Blk 2]]} {["a"%string := 1]} 0 (Blk 0))
    (mkManager FullAttentionManager sample_spec {["a"%string := [Blk 1; Blk 2]]} {["a"%string := 1]} 0 (Blk 0)) "a" "a" (Blk 2) Hm);
    [by rewrite manager_a_groups|by rewrite manager_a_groups| | |].
  - change (Blk 2 ∈ [Blk 1; Blk 2]). right. by left.
  - change (Blk 2 ∈ [Blk 1; Blk 2]). right. by left.
  - assert (null_block (the_pool manager_a) = Blk 0) as -> by (vm_compute; reflexivity). discriminate.
Defined.

(** * Sliding windows *)

(** Dropping the blocks a sliding window has left behind keeps the invariant, drops
    no block the window still needs (position [t] is needed by a token after the first
    [c] when [c - window < t]), replaces the others by the null block and gives them
    back to the pool. *)
Theorem skipped_blocks_are_outside_window p ms H (free : list ptr) pend i g rid c :
  kv_inv p ms H free pend → ms !! i = Some g → manager_cls g = SlidingWindowManager →
  0 < manager_block_size g → skip_ok p g rid c →
  wp (remove_skipped_blocks rid c) (λ _ s, ∃ l' rel,
    kv_inv (fst s) (<[i := snd s]> ms) H (free ++ rel) pend ∧
    mgr_upd g (snd s) rid l' (num_cached_block g !! rid) ∧ length l' = length (blocks_of g rid) ∧
    (∀ t, 0 <= t → c - manager_window g < t →
       l' !! Z.to_nat (t / manager_block_size g) = blocks_of g rid !! Z.to_nat (t / manager_block_size g)) ∧
    ∀ k q, l' !! k = Some q → q = null_block p ∨ blocks_of g rid !! k = Some q) (p, g).
Proof.
  intros Hk Hi Hcls Hbs Hok. eapply wp_mono; [by eapply kv_inv_skip|].
  intros _ [p' g'] [(l' & removed & Hs & _ & _ & Hu) [rel Hk']]. exists l', rel. csplit; [done|done|apply Hs| |apply Hs].
  intros t Ht Hw. apply (sk_kept _ _ _ _ _ Hs). unfold first_useful_block. rewrite Hcls.
  assert ((c - manager_window g + 1) / manager_block_size g <= t / manager_block_size g) by (apply Z.div_le_mono; lia).
  lia.
Qed.

Lemma skipped_blocks_are_outside_window_witness :
  ∃ free, wp (remove_skipped_blocks "w" 8) (λ _ s, ∃ l' rel,
    kv_inv (fst s) (<[0%nat := snd s]> (single_type_managers (coordinator window_manager)))
      (hashes_of window_manager) (free ++ rel) (λ _, 0) ∧
    mgr_upd window_group (snd s) "w" l' (num_cached_block window_group !! "w"%string) ∧
    length l' = length (blocks_of window_group "w") ∧
    (∀ t, 0 <= t → 8 - manager_window window_group < t →
       l' !! Z.to_nat (t / manager_block_size window_group)
         = blocks_of window_group "w" !! Z.to_nat (t / manager_block_size window_group)) ∧
    ∀ k q, l' !! k = Some q → q = null_block (the_pool window_manager) ∨ blocks_of window_group "w" !! k = Some q)
    (the_pool window_manager, window_group).
Proof.
  destruct window_manager_inv as [free Hm]. exists free.
  refine (skipped_blocks_are_outside_window (the_pool window_manager) (single_type_managers (coordinator window_manager))
    (hashes_of window_manager) free (λ _, 0) 0 window_group "w" 8 (km_inv _ _ _ _ _ Hm) _ eq_refl _ _).
  - by rewrite window_manager_groups.
  - reflexivity.
  - split; [by vm_compute|]. intros _. by vm_compute.
Defined.

(** Under sliding-window attention a step of at most [max_num_batched_tokens] new
    tokens never needs more blocks than the memory planning reserves for the layer,
    when the blocks behind the window have been dropped before, although the blocks
    are not aligned with the window. *)
Theorem window_blocks_within_plan a window lim computed new :
  0 < attn_block_size a → 0 <= computed → 0 <= new <= max_num_batched_tokens lim →
  computed + new <= max_model_len lim →
  cdiv (computed + new) (attn_block_size a) - Z.max 0 ((computed - window + 1) / attn_block_size a)
  <= max_blocks (SlidingWindowSpec a window) lim.
Proof. apply sliding_window_blocks_fit. Qed.

Lemma window_blocks_within_plan_witness :
  cdiv (100 + 30) 16 - Z.max 0 ((100 - 50 + 1) / 16)
  <= max_blocks (SlidingWindowSpec (mkAttentionSpec 16 1 1 0 false) 50) (mkModelLimits 1000 32).
Proof. apply (window_blocks_within_plan (mkAttentionSpec 16 1 1 0 false)); simpl; lia. Defined.

(** Merging the specs of full-attention layers succeeds only for layers of the same
    sizes; the result has those sizes, the only window or chunk size that occurs, and
    not both. *)
Theorem merged_spec_is_common specs m :
  merge_full specs = Ok m →
  ∃ a w c, m = FullAttentionSpec a w c ∧ (w = None ∨ c = None) ∧
    ∀ s, s ∈ specs → ∃ sw sc, s = FullAttentionSpec a sw sc ∧ (sw = None ∨ sw = w) ∧ (sc = None ∨ sc = c).
Proof. apply merge_full_spec. Qed.

Lemma merged_spec_is_common_witness :
  ∃ a w c, FullAttentionSpec (mkAttentionSpec 4 1 1 0 false) (Some 8) None = FullAttentionSpec a w c ∧ (w = None ∨ c = None) ∧
    ∀ s, s ∈ [sample_spec; FullAttentionSpec (mkAttentionSpec 4 1 1 0 false) (Some 8) None] →
      ∃ sw sc, s = FullAttentionSpec a sw sc ∧ (sw = None ∨ sw = w) ∧ (sc = None ∨ sc = c).
Proof.
  apply (merged_spec_is_common [sample_spec; FullAttentionSpec (mkAttentionSpec 4 1 1 0 false) (Some 8) None]).
  vm_compute. reflexivity.
Defined.
