(* ===== verification/SchedulerSamples.v ===== *)
(** Concrete schedulers the witnesses of the scheduler's theorems run on: no connector,
    no structured output, one group of full attention, one request. *)
From Stdlib Require Import ZArith Lia QArith.
From stdpp Require Import base strings countable gmap sets fin_maps list relations.
From S2P Require Import Prelude Request FreeBlockQueue BlockHash BlockPool KVCacheSpec SingleTypeManager KVCacheCoordinator KVCacheManager SlotContract RequestQueue EncoderCache SchedulerData Scheduler SchedulerEncoder SchedulerInvariant SchedulerRunning SchedulerStep SchedulerLifecycle SchedulerUpdate SchedulerSystem Samples.
Local Open Scope Z_scope.

(** No connector, and a structured-output manager that has nothing to do. *)
#[export] Instance no_connector : KVConnector unit := {
  get_num_new_matched_tokens := λ _ _, mret (0, false);
  update_state_after_alloc := λ _ _ _, mret tt;
  build_connector_meta := λ _, mret 0;
  request_finished := λ _ _, mret (false, None)
}.
#[export] Instance no_structured_output : StructuredOutputManager unit := {
  grammar_ready := λ _ _, false;
  make_grammar_bitmask := λ _ _ _, mret None;
  should_advance := λ _, mret false;
  accept_tokens := λ _ _ _, mret tt;
  validate_tokens := λ _ l, mret l
}.
Lemma no_structured_output_total : structured_total (G := unit).
Proof.
  split.
  - intros. by eexists None, _.
  - intros. by eexists false, _.
  - intros. by eexists _.
  - intros h l g. eexists l, g. split; [done|lia].
Qed.

Definition sample_cfg : SchedulerConfig :=
  mkSchedulerConfig FCFS 2 8 64 0 true false None true 0 0 false 4 0 false.
Definition no_scheduler : Scheduler unit unit :=
  mkScheduler sample_cfg ∅ ∅ (FCFSQueue []) [] ∅ None ∅ (EncoderCacheManager_init 0) no_manager None tt [].
Definition sample_scheduler : Scheduler unit unit :=
  or_else no_scheduler (Scheduler_init sample_cfg sample_config true false false 8 0 false None tt).

Lemma sample_scheduler_ok :
  Scheduler_init sample_cfg sample_config true false false 8 0 false (None : option unit) tt = Ok sample_scheduler.
Proof. vm_compute. reflexivity. Qed.

Lemma sample_supported : full_config sample_config true.
Proof.
  split; [done| |by intros _; eexists].
  intros g ->%list_elem_of_singleton. by eexists _, _, _.
Qed.

Lemma sample_cfg_ok : config_ok sample_cfg.
Proof. by split. Qed.

Definition sample_tok : string → Z → Z := λ _ _, 0.

Lemma sample_scheduler_inv :
  sched_ok sample_hash sample_none sample_tok sample_scheduler ∧ config sample_scheduler = sample_cfg ∧
  objects sample_scheduler = ∅ ∧ requests sample_scheduler = ∅ ∧ running sample_scheduler = [] ∧
  waiting sample_scheduler = FCFSQueue [] ∧ structured_output_manager sample_scheduler = tt.
Proof.
  exact (Scheduler_init_spec sample_hash sample_none sample_tok sample_cfg sample_config true false false 8 0 false tt
    sample_scheduler sample_cfg_ok ltac:(done) sample_supported sample_scheduler_ok).
Qed.

(** The scheduler once the request "a" has arrived. *)
Lemma sample_arriving : arriving sample_tok sample_scheduler request_a.
Proof.
  destruct sample_scheduler_inv as (_ & Hc & Ho & _). split.
  - rewrite Hc. split; try done.
    + by left.
    + intros i [H0 H1]. exfalso. change (len (mm_positions request_a)) with 0 in H1. lia.
    + right. by eexists.
  - by left.
  - done.
  - by rewrite Ho.
Qed.
Definition scheduler_a : Scheduler unit unit := (add_request request_a 0 sample_scheduler).2.
Lemma scheduler_a_ok :
  add_request request_a 0 sample_scheduler = (Ok tt, scheduler_a) ∧
  sched_ok sample_hash sample_none sample_tok scheduler_a ∧ is_async (config scheduler_a) = false.
Proof.
  pose proof (add_request_spec sample_hash sample_none sample_tok 0 sample_scheduler request_a
    (proj1 sample_scheduler_inv) sample_arriving) as H.
  unfold wp in H. unfold scheduler_a. destruct (add_request request_a 0 sample_scheduler) as [[[]|e] s']; [|done].
  destruct H as (? & Hc & _). split; [done|]. split; [done|]. cbn. rewrite Hc. by destruct sample_scheduler_inv as (_ & -> & _).
Qed.

(** The output of its first step, and the scheduler after it. *)
Definition no_output : SchedulerOutput :=
  mkSchedulerOutput [] make_empty [] 0 ∅ ∅ [] ∅ [] ∅ None None.
Definition output_a : SchedulerOutput := or_else no_output (schedule sample_hash sample_none 1 scheduler_a).1.
Definition scheduler_b : Scheduler unit unit := (schedule sample_hash sample_none 1 scheduler_a).2.

Lemma step_a :
  schedule sample_hash sample_none 1 scheduler_a = (Ok output_a, scheduler_b) ∧
  sched_ok sample_hash sample_none sample_tok scheduler_b ∧ step_output scheduler_a scheduler_b output_a ∧
  is_async (config scheduler_b) = false.
Proof.
  pose proof (schedule_spec sample_hash sample_none sample_tok (st_bitmask no_structured_output_total) 1 scheduler_a
    (proj1 (proj2 scheduler_a_ok))) as H.
  unfold wp in H. unfold output_a, scheduler_b. destruct (schedule sample_hash sample_none 1 scheduler_a) as [[out|e] s']; [|done].
  destruct H as [Hok Hout]. cbn [fst snd or_else]. split; [reflexivity|]. split; [exact Hok|]. split; [exact Hout|].
  rewrite (so_config _ _ _ Hout). exact (proj2 (proj2 scheduler_a_ok)).
Qed.

Lemma output_a_tokens : num_scheduled_tokens output_a = [("a"%string, 5)] ∧ scheduled_spec_decode_tokens output_a = ∅.
Proof. vm_compute. done. Qed.

(** A run of the model that gives the request one token. *)
Definition runner_a : ModelRunnerOutput := mkModelRunnerOutput {["a"%string := 0]} [[7]] None None ∅ [] None None None.
Lemma runner_a_ok : runner_ok scheduler_b output_a runner_a.
Proof.
  destruct output_a_tokens as [Ht Hd]. split; [|done|done]. rewrite Ht. intros r ->%list_elem_of_singleton.
  exists 0, [7]. split; [reflexivity|]. split.
  - reflexivity.
  - intros l. rewrite Hd, lookup_empty. intros [=].
  - by left.
  - intros [=].
  - intros l [=].
Qed.

(** A model that gives every scheduled request the token 9. *)
Definition nine_for_each (out : SchedulerOutput) : ModelRunnerOutput :=
  let ids := (num_scheduled_tokens out).*1 in
  mkModelRunnerOutput (list_to_map (zip ids (Z.of_nat <$> seq 0 (length ids)))) ((λ _, [9]) <$> ids) None None ∅ [] None None None.

(** One step of the engine core with that model. *)
Definition sample_step (now : Z) : M (Scheduler unit unit) unit :=
  out ← schedule sample_hash sample_none now;
  update_from_output sample_hash sample_none (λ h _ _, h) (λ _, false) out (nine_for_each out) ;;
  mret tt.
