(* ===== verification/NgramProposer.v ===== *)
(** The n-gram proposer of [v1/spec_decode/ngram_proposer.py]: draft tokens are those that
    follow an earlier occurrence of the last tokens of the context, which is searched
    with the algorithm of Knuth, Morris and Pratt.  The file ends with the proof that the
    search finds what a search at every position finds. *)
From Stdlib Require Import ZArith Lia.
From stdpp Require Import base list.
From S2P Require Import Prelude.
Local Open Scope Z_scope.

Record NgramProposer : Type := mkNgramProposer {
  min_n : Z;
  max_n : Z;
  num_speculative_tokens : Z;
  max_model_len : Z
}.

(** [while i < len(pattern)]: the failure table, the length of the border that is
    extended and the index. *)
Fixpoint lps_loop (fuel : nat) (pattern lps : list Z) (prev_lps i : Z) : outcome (list Z) :=
  match fuel with
  | O => Raise OutOfFuel
  | S fuel =>
    if decide (i < len pattern) then
      x ← py_index pattern i;
      y ← py_index pattern prev_lps;
      if decide (x = y) then
        lps_loop fuel pattern (<[Z.to_nat i := prev_lps + 1]> lps) (prev_lps + 1) (i + 1)
      else if decide (prev_lps ≠ 0) then
        prev_lps ← py_index lps (prev_lps - 1);
        lps_loop fuel pattern lps prev_lps i
      else lps_loop fuel pattern (<[Z.to_nat i := 0]> lps) prev_lps (i + 1)
    else Ok lps
  end.

(** Every pass increases [2 * i - prev_lps], so twice the length is enough fuel. *)
Definition _kmp_lps_array (pattern : list Z) : outcome (list Z) :=
  lps_loop (S (2 * length pattern)) pattern (replicate (length pattern) 0) 0 1.

(** [while i < context_len - n]. *)
Fixpoint kmp_loop (fuel : nat) (context_token_ids pattern lps : list Z) (n k i j : Z) : outcome (option (list Z)) :=
  match fuel with
  | O => Raise OutOfFuel
  | S fuel =>
    if decide (i < len context_token_ids - n) then
      x ← py_index context_token_ids i;
      y ← py_index pattern j;
      if decide (x = y) then
        if decide (j + 1 = n) then Ok (Some (slice (i + 1) (i + 1 + k) context_token_ids))
        else kmp_loop fuel context_token_ids pattern lps n k (i + 1) (j + 1)
      else if decide (j ≠ 0) then
        j ← py_index lps (j - 1);
        kmp_loop fuel context_token_ids pattern lps n k i j
      else kmp_loop fuel context_token_ids pattern lps n k (i + 1) j
    else Ok None
  end.

Definition _find_subarray_kmp (context_token_ids : list Z) (n k : Z) : outcome (option (list Z)) :=
  if decide (n > 0) then
    let pattern := slice_from (- n) context_token_ids in
    lps ← _kmp_lps_array pattern;
    kmp_loop (S (2 * length context_token_ids)) context_token_ids pattern lps n k 0 0
  else Raise AssertionError.

(** [for n in range(self.max_n, self.min_n - 1, -1)]. *)
Fixpoint propose_loop (context_token_ids : list Z) (k : Z) (ns : list Z) : outcome (option (list Z)) :=
  match ns with
  | [] => Ok None
  | n :: ns' =>
    result ← _find_subarray_kmp context_token_ids n k;
    match result with
    | Some l => Ok (Some l)
    | None => propose_loop context_token_ids k ns'
    end
  end.

Definition propose (self : NgramProposer) (context_token_ids : list Z) : outcome (option (list Z)) :=
  let k := Z.min (num_speculative_tokens self) (max_model_len self - len context_token_ids) in
  if decide (k <= 0) then Ok None
  else propose_loop context_token_ids k (reverse (range2 (min_n self) (max_n self + 1))).

(** * The specification: a search at every position *)

(** The first place where the last [n] tokens occur, followed by at least [n] tokens. *)
Definition occurs_at (ctx : list Z) (n p : nat) : Prop := take n (drop p ctx) = drop (length ctx - n) ctx.
#[export] Instance occurs_at_dec ctx n p : Decision (occurs_at ctx n p) := decide (_ = _).
Definition first_occurrence (ctx : list Z) (n : nat) : option nat :=
  head (filter (occurs_at ctx n) (seq 0 (length ctx - n - n + 1))).

Definition reference_match (ctx : list Z) (n k : Z) : option (list Z) :=
  if decide (2 * n <= len ctx) then
    p ← first_occurrence ctx (Z.to_nat n); Some (take (Z.to_nat k) (drop (p + Z.to_nat n) ctx))
  else None.

(** The longest n-gram that has a match decides. *)
Definition reference_propose (self : NgramProposer) (ctx : list Z) : option (list Z) :=
  let k := Z.min (num_speculative_tokens self) (max_model_len self - len ctx) in
  if decide (k <= 0) then None
  else head (omap (λ n, reference_match ctx n k) (reverse (range2 (min_n self) (max_n self + 1)))).

Example propose_example :
  propose (mkNgramProposer 2 3 4 100) [1; 2; 3; 4; 2; 3] = Ok (Some [4; 2; 3]).
Proof. vm_compute. reflexivity. Qed.

(** * The search finds what the specification says *)
Section kmp.
Context (P : list Z).
Implicit Types (T : list Z) (i j b q e : nat).

(** The first [j] tokens of the pattern end at position [i] of the text. *)
Definition ends T i j : Prop := (j <= i)%nat ∧ take j P `suffix_of` take i T.

Lemma ends_0 T i : ends T i 0.
Proof. split; [lia|]. rewrite take_0. apply suffix_nil. Qed.

Lemma ends_S T i j x y :
  T !! i = Some x → P !! j = Some y → ends T (S i) (S j) ↔ ends T i j ∧ x = y.
Proof.
  intros Hx Hy. unfold ends. rewrite (take_S_r _ _ _ Hx), (take_S_r _ _ _ Hy). split.
  - intros [? Hs]. split_and!; [lia|by eapply suffix_snoc_inv_2|by apply suffix_snoc_inv_1 in Hs].
  - intros [[? ?] ->]. split; [lia|by apply suffix_snoc].
Qed.

Lemma ends_trans T i j b : ends T i j → ends P j b → ends T i b.
Proof. intros [? ?] [? ?]. split; [lia|]. by etrans. Qed.

(** Of two prefixes that end at one place the shorter one ends the longer one. *)
Lemma ends_nested T i j b : (j <= length P)%nat → ends T i j → ends T i b → (b <= j)%nat → ends P j b.
Proof.
  intros HP [? Hj] [? Hb] Hle. split; [done|].
  destruct (suffix_weak_total _ _ _ Hb Hj) as [?|Hs]; [done|].
  pose proof (suffix_length _ _ Hs) as Hl. rewrite !length_take in Hl.
  assert (b = j) as -> by lia. done.
Qed.

(** [j] can be extended at [i], and no longer prefix below the bound can. *)
Definition candidate T (bound : nat) i j : Prop := (j < bound)%nat ∧ ends T i j.
Definition longest T bound i j : Prop :=
  candidate T bound i j ∧ ∀ j' x y, candidate T bound i j' → (j < j')%nat → T !! i = Some x → P !! j' = Some y → x ≠ y.

(** The [q]-th entry of the failure table: the longest border of the first [q] tokens. *)
Definition border q b : Prop := candidate P q q b ∧ ∀ b', candidate P q q b' → (b' <= b)%nat.
Definition table (lps : list Z) (upto : nat) : Prop :=
  ∀ q, (0 < q <= upto)%nat → ∃ b, lps !! pred q = Some (Z.of_nat b) ∧ border q b.

(** After a mismatch the next shorter candidate is the border. *)
Lemma longest_fallback T bound i j b x y :
  (bound <= length P)%nat → longest T bound i j → border j b →
  T !! i = Some x → P !! j = Some y → x ≠ y → longest T bound i b.
Proof.
  intros Hbound [[Hj Hends] Hlong] [[Hb Hbe] Hbmax] Hx Hy Hne. split; [split; [lia|by eapply ends_trans]|].
  intros j' x' y' [Hj' Hends'] Hlt Hx' Hy'. destruct (lt_eq_lt_dec j' j) as [[Hlt'| ->]|Hgt].
  - assert (j' <= b)%nat; [|lia]. apply Hbmax. split; [done|]. eapply (ends_nested T i); eauto; lia.
  - by simplify_eq.
  - by eapply Hlong.
Qed.

(** A match extends the candidate, to the longest one of the next position. *)
Lemma longest_match T bound i j x y :
  longest T bound i j → T !! i = Some x → P !! j = Some y → x = y →
  ends T (S i) (S j) ∧ ∀ j', candidate T bound i j' → (∀ y', P !! j' = Some y' → x = y') → (j' < length P)%nat → (j' <= j)%nat.
Proof.
  intros [[Hj Hends] Hlong] Hx Hy ->. split; [by apply (ends_S T i j y y)|].
  intros j' Hc Heq Hlen. destruct (decide (j < j')%nat); [|lia]. apply lookup_lt_is_Some in Hlen as [y' Hy'].
  destruct (Hlong j' y y' Hc); auto.
Qed.

(** ** The failure table *)
Lemma lps_loop_spec fuel lps prev i :
  (2 * (length P - i) + prev < fuel)%nat → (1 <= i <= length P)%nat → length lps = length P →
  table lps i → longest P i i prev →
  ∃ lps', lps_loop fuel P lps (Z.of_nat prev) (Z.of_nat i) = Ok lps' ∧ length lps' = length P ∧ table lps' (length P).
Proof.
  revert lps prev i. induction fuel as [|fuel IH]; intros lps prev i Hfuel Hi Hlen Htab Hlong; [lia|].
  cbn [lps_loop]. unfold len at 1. case_decide as Hlt.
  2:{ exists lps. split_and!; [done|done|]. by replace (length P) with i by lia. }
  pose proof Hlong as [[Hprev Hends] Hmax].
  destruct (lookup_lt_is_Some_2 P i) as [x Hx]; [lia|]. destruct (lookup_lt_is_Some_2 P prev) as [y Hy]; [lia|].
  rewrite (py_index_lookup P i x Hx), (py_index_lookup P prev y Hy). cbn [mbind outcome_bind].
  assert (Hnext : ∀ b, border (S i) b → table (<[i := Z.of_nat b]> lps) (S i)).
  { intros b Hb q Hq. destruct (decide (q = S i)) as [->|Hne].
    - exists b. cbn [pred]. rewrite list_lookup_insert_eq by lia. done.
    - destruct (Htab q) as (b' & Hb' & ?); [lia|]. exists b'. by rewrite list_lookup_insert_ne by lia. }
  assert (Hcand : ∀ j, candidate P (S i) (S i) (S j) → candidate P i i j ∧ ∃ z, P !! j = Some z ∧ x = z).
  { intros j [Hj He]. destruct (lookup_lt_is_Some_2 P j) as [z Hz]; [lia|].
    destruct (proj1 (ends_S P i j x z Hx Hz) He) as [He1 Hxz]. split; [split; [lia|done]|eauto]. }
  case_decide as Heq.
  - destruct (longest_match P i i prev x y Hlong Hx Hy Heq) as [Hext Hbest].
    assert (border (S i) (S prev)) as Hbord.
    { split; [split; [lia|done]|]. intros [|j] Hc; [lia|]. apply Hcand in Hc as [Hc (z & Hz & ->)].
      assert (j <= prev)%nat; [|lia]. apply Hbest; [done|intros y' ?; congruence|]. by eapply lookup_lt_Some. }
    rewrite Nat2Z.id. replace (Z.of_nat prev + 1) with (Z.of_nat (S prev)) by lia. replace (Z.of_nat i + 1) with (Z.of_nat (S i)) by lia.
    apply IH; [lia|lia|by rewrite length_insert|by apply Hnext|].
    destruct Hbord as [Hc Hb]. split; [done|]. intros j' x' y' Hc' Hlt'. specialize (Hb j' Hc'). lia.
  - case_decide as Hz.
    + destruct (Htab prev) as (b & Hb & Hbord); [lia|].
      replace (Z.of_nat prev - 1) with (Z.of_nat (pred prev)) by lia. rewrite (py_index_lookup _ _ _ Hb). cbn [mbind outcome_bind].
      apply IH; [|done|done|done|by eapply longest_fallback; eauto; lia]. destruct Hbord as [[? ?] ?]. lia.
    + assert (prev = 0)%nat as -> by lia.
      assert (border (S i) 0) as Hbord.
      { split; [split; [lia|apply ends_0]|]. intros [|j] Hc; [lia|]. apply Hcand in Hc as [Hc (z & Hz' & ->)].
        destruct (decide (j = 0)%nat) as [->|]; [by simplify_eq|]. by destruct (Hmax j z z Hc); [lia|..]. }
      rewrite Nat2Z.id. replace (Z.of_nat i + 1) with (Z.of_nat (S i)) by lia. change 0 with (Z.of_nat 0).
      apply IH; [lia|lia|by rewrite length_insert|by apply Hnext|].
      destruct Hbord as [Hc Hb]. split; [done|]. intros j' x' y' Hc' Hlt'. specialize (Hb j' Hc'). lia.
Qed.

Lemma kmp_lps_array_spec :
  P ≠ [] → ∃ lps, _kmp_lps_array P = Ok lps ∧ length lps = length P ∧ table lps (length P).
Proof.
  intros HP. assert (0 < length P)%nat by (destruct P; [done|cbn; lia]). unfold _kmp_lps_array.
  assert (border 1 0) as Hb by (split; [split; [lia|apply ends_0]|]; intros b' [? _]; lia).
  apply (lps_loop_spec _ _ 0 1); [lia|lia|by rewrite length_replicate| |].
  - intros q Hq. assert (q = 1)%nat as -> by lia. exists 0%nat. split; [|done]. apply lookup_replicate_2. cbn. lia.
  - destruct Hb as [Hc Hb]. split; [done|]. intros j' x y Hc' Hlt. specialize (Hb j' Hc'). lia.
Qed.
End kmp.

Section search.
Context (ctx : list Z) (n : nat) (k : Z).
Abbreviation m := (length ctx - n)%nat.
Abbreviation P := (drop m ctx).
Abbreviation T := (take m ctx).
Implicit Types (i j e : nat).

(** What the search returns: the tokens after the first place where the pattern ends. *)
Definition search_result (o : option (list Z)) : Prop :=
  match o with
  | None => ∀ e, (e <= m)%nat → ¬ ends P T e n
  | Some l => ∃ e, (e <= m)%nat ∧ ends P T e n ∧ (∀ e', (e' < e)%nat → ¬ ends P T e' n) ∧
      l = slice (Z.of_nat e) (Z.of_nat e + k) ctx
  end.

Lemma kmp_loop_spec fuel lps i j :
  (0 < n <= length ctx)%nat → table P lps n → (i <= m)%nat → (2 * (m - i) + j < fuel)%nat →
  longest P T n i j → (∀ e, (e <= i)%nat → ¬ ends P T e n) →
  ∃ o, kmp_loop fuel ctx P lps (Z.of_nat n) k (Z.of_nat i) (Z.of_nat j) = Ok o ∧ search_result o.
Proof.
  intros Hn Htab. assert (HP : length P = n) by (rewrite length_drop; lia).
  revert i j. induction fuel as [|fuel IH]; intros i j Hi Hfuel Hlong Hnone; [lia|].
  cbn [kmp_loop]. unfold len. case_decide as Hlt.
  2:{ exists None. split; [done|]. intros e He. apply Hnone. lia. }
  pose proof Hlong as [[Hj Hends] Hmax].
  destruct (lookup_lt_is_Some_2 ctx i) as [x Hx]; [lia|]. destruct (lookup_lt_is_Some_2 P j) as [y Hy]; [lia|].
  assert (HTx : T !! i = Some x) by (rewrite lookup_take_lt by lia; done).
  rewrite (py_index_lookup ctx i x Hx), (py_index_lookup P j y Hy). cbn [mbind outcome_bind].
  (** A candidate of the next position extends one of this position. *)
  assert (Hcand : ∀ b, (b < n)%nat → ends P T (S i) (S b) → candidate P T n i b ∧ P !! b = Some x).
  { intros b Hb He. destruct (lookup_lt_is_Some_2 P b) as [z Hz]; [lia|].
    destruct (proj1 (ends_S P T i b x z HTx Hz) He) as [He1 ->]. split; [by split|done]. }
  assert (Hskip : (∀ b, candidate P T n i b → P !! b ≠ Some x) → ¬ ends P T (S i) n).
  { intros Hno He. destruct n as [|n']; [lia|]. destruct (Hcand n') as [Hc Hz]; [lia|done|]. by eapply Hno. }
  case_decide as Heq.
  - destruct (longest_match P T n i j x y Hlong HTx Hy Heq) as [Hext Hbest]. case_decide as Hfull.
    + assert (n = S j) as Hnj by lia. eexists. split; [done|]. exists (S i). split_and!; [lia|by rewrite Hnj at 3| |].
      * intros e' He'. apply Hnone. lia.
      * f_equal; lia.
    + replace (Z.of_nat i + 1) with (Z.of_nat (S i)) by lia. replace (Z.of_nat j + 1) with (Z.of_nat (S j)) by lia.
      assert (Hnext : ∀ b, (b < n)%nat → ends P T (S i) (S b) → (b <= j)%nat).
      { intros b Hb He. destruct (Hcand b Hb He) as [Hc Hz]. apply Hbest; [done|intros y' ?; congruence|lia]. }
      apply IH; [lia|lia| |].
      * split; [split; [lia|done]|]. intros [|b] x' y' [Hb He] Hlt'; [lia|]. specialize (Hnext b ltac:(lia) He). lia.
      * intros e He Hocc. destruct (decide (e = S i)) as [->|]; [|by apply (Hnone e); [lia|]].
        destruct n as [|n'] eqn:En; [lia|]. specialize (Hnext n' ltac:(lia) Hocc). lia.
  - case_decide as Hz.
    + destruct (Htab j) as (b & Hb & Hbord); [lia|].
      replace (Z.of_nat j - 1) with (Z.of_nat (pred j)) by lia. rewrite (py_index_lookup _ _ _ Hb). cbn [mbind outcome_bind].
      apply IH; [done| |by eapply longest_fallback; eauto; lia|done]. destruct Hbord as [[? ?] ?]. lia.
    + assert (j = 0)%nat as -> by lia. replace (Z.of_nat i + 1) with (Z.of_nat (S i)) by lia.
      assert (Hno : ∀ b, candidate P T n i b → P !! b ≠ Some x).
      { intros b Hc Hb. destruct (decide (b = 0)%nat) as [->|]; [congruence|]. by destruct (Hmax b x x Hc); [lia|..]. }
      apply IH; [lia|lia| |].
      * split; [split; [lia|apply ends_0]|]. intros [|b] x' y' [Hb He] Hlt'; [lia|].
        destruct (Hcand b) as [Hc Hbx]; [lia|done|]. by destruct (Hno b Hc).
      * intros e He Hocc. destruct (decide (e = S i)) as [->|]; [by apply Hskip|]. by apply (Hnone e); [lia|].
Qed.

(** Ending at [e] is occurring [n] tokens before. *)
Lemma ends_occurs e :
  (n <= length ctx)%nat → (n <= e <= m)%nat → ends P T e n ↔ occurs_at ctx n (e - n).
Proof.
  intros Hn He. unfold ends, occurs_at. rewrite (take_ge P n) by (rewrite length_drop; lia).
  rewrite take_take, Nat.min_l by lia. rewrite take_drop_commute. replace (e - n + n)%nat with e by lia. split.
  - intros [_ [l Hl]]. rewrite Hl. apply (f_equal length) in Hl as Hlen.
    rewrite length_take, length_app, length_drop in Hlen. by rewrite drop_app_length' by lia.
  - intros Hd. split; [lia|]. exists (take (e - n) (take e ctx)). by rewrite <- Hd, take_drop.
Qed.
End search.

Lemma head_filter_seq (Q : nat → Prop) `{∀ x, Decision (Q x)} a l :
  match head (filter Q (seq a l)) with
  | Some p => (a <= p < a + l)%nat ∧ Q p ∧ ∀ p', (a <= p' < p)%nat → ¬ Q p'
  | None => ∀ p, (a <= p < a + l)%nat → ¬ Q p
  end.
Proof.
  revert a. induction l as [|l IH]; intros a; cbn [seq]; [intros p ?; lia|]. rewrite filter_cons. case_decide as HQ.
  - cbn [head]. split_and!; [lia|lia|done|]. intros p' ?. lia.
  - specialize (IH (S a)). destruct (head (filter Q (seq (S a) l))) as [p|].
    + destruct IH as (? & ? & Hlt). split_and!; [lia|lia|done|]. intros p' ?. destruct (decide (p' = a)) as [->|]; [done|]. apply Hlt. lia.
    + intros p ?. destruct (decide (p = a)) as [->|]; [done|]. apply IH. lia.
Qed.

(** One search: the algorithm and the specification agree. *)
Lemma find_subarray_spec ctx n k :
  0 < n → 0 <= k → _find_subarray_kmp ctx n k = Ok (reference_match ctx n k).
Proof.
  intros Hn Hk. unfold _find_subarray_kmp, reference_match. rewrite decide_True by lia.
  destruct (decide (len ctx < n)) as [Hshort|Hlong].
  { rewrite (decide_False (P := 2 * n <= len ctx)) by lia.
    assert (slice_from (- n) ctx = ctx) as ->.
    { unfold slice_from, slice_bound. rewrite decide_True by lia. by replace (Z.to_nat (len ctx + - n)) with 0%nat by lia. }
    destruct (decide (ctx = [])) as [->|Hne].
    - change (_kmp_lps_array []) with (Ok (@nil Z)). cbn [mbind outcome_bind kmp_loop]. by rewrite decide_False by lia.
    - destruct (kmp_lps_array_spec ctx Hne) as (lps & -> & _). cbn [mbind outcome_bind kmp_loop]. by rewrite decide_False by lia. }
  assert (exists n' : nat, n = Z.of_nat n') as [n' ->] by (exists (Z.to_nat n); lia).
  rewrite Nat2Z.id. unfold len in *.
  assert (slice_from (- Z.of_nat n') ctx = drop (length ctx - n') ctx) as ->.
  { unfold slice_from, slice_bound. rewrite decide_True by lia. f_equal. unfold len. lia. }
  assert (Hlen : length (drop (length ctx - n') ctx) = n') by (rewrite length_drop; lia).
  destruct (kmp_lps_array_spec (drop (length ctx - n') ctx)) as (lps & -> & _ & Htab).
  { intros Hnil. rewrite Hnil in Hlen. cbn in Hlen. lia. }
  rewrite Hlen in Htab. cbn [mbind outcome_bind].
  destruct (kmp_loop_spec ctx n' k (S (2 * length ctx)) lps 0 0) as (o & Ho & Hres); [lia|done|lia|lia| | |].
  { split; [split; [lia|apply ends_0]|]. intros j x y [_ [? _]] ?. lia. }
  { intros e He [? _]. lia. }
  change (Z.of_nat 0) with 0 in Ho. rewrite Ho. f_equal. clear Ho Htab lps.
  assert (Hocc : ∀ p, (p + n' <= length ctx - n')%nat → ends (drop (length ctx - n') ctx) (take (length ctx - n') ctx) (p + n') n' ↔ occurs_at ctx n' p).
  { intros p Hp. rewrite (ends_occurs ctx n' (p + n')) by lia. by replace (p + n' - n')%nat with p by lia. }
  case_decide as H2.
  2:{ destruct o as [l|]; [|done]. destruct Hres as (e & He & [Hge _] & _). lia. }
  unfold first_occurrence. pose proof (head_filter_seq (occurs_at ctx n') 0 (length ctx - n' - n' + 1)) as Hhead.
  destruct (head _) as [p|]; cbn [mbind option_bind].
  - destruct Hhead as (Hp & Hoc & Hmin). apply Hocc in Hoc; [|lia]. destruct o as [l|]; [|by destruct (Hres (p + n')%nat); [lia|]].
    destruct Hres as (e & He & Hee & Hfirst & ->). assert (Hge : (n' <= e)%nat) by apply Hee.
    assert (e = p + n')%nat as ->.
    { destruct (lt_eq_lt_dec e (p + n')) as [[Hlt|?]|Hgt]; [|done|by destruct (Hfirst (p + n')%nat)].
      destruct (Hmin (e - n')%nat); [lia|]. apply Hocc; [lia|]. by replace (e - n' + n')%nat with e by lia. }
    f_equal. unfold slice, slice_to, slice_bound. rewrite !decide_False by lia. rewrite take_drop_commute. repeat f_equal; lia.
  - destruct o as [l|]; [|done]. destruct Hres as (e & He & Hee & _). assert (Hge : (n' <= e)%nat) by apply Hee.
    destruct (Hhead (e - n')%nat); [lia|]. apply Hocc; [lia|]. by replace (e - n' + n')%nat with e by lia.
Qed.

Lemma propose_spec self ctx :
  0 < min_n self → propose self ctx = Ok (reference_propose self ctx).
Proof.
  intros Hmin. unfold propose, reference_propose. set (k := Z.min _ _). case_decide as Hk; [done|].
  assert (Hns : ∀ n, n ∈ reverse (range2 (min_n self) (max_n self + 1)) → 0 < n).
  { intros n. rewrite elem_of_reverse. unfold range2. intros (i & -> & _)%list_elem_of_fmap. lia. }
  revert Hns. generalize (reverse (range2 (min_n self) (max_n self + 1))). intros ns Hns.
  induction ns as [|n ns IH]; [done|]. cbn [propose_loop]. rewrite find_subarray_spec; [|apply Hns; by left|lia].
  cbn [mbind outcome_bind omap list_omap]. destruct (reference_match ctx n k); [done|]. apply IH. intros n' ?. apply Hns. by right.
Qed.
