(* ===== verification/BlockTable.v ===== *)
(** The block tables of the worker, from [v1/worker/block_table.py]: for every row of the
    persistent batch the blocks of its request, and the slots of the KV cache in which
    the tokens of a step are stored.  Row indices are natural numbers: the code never
    passes a negative one. *)
From Stdlib Require Import ZArith Lia.
From stdpp Require Import base list.
From S2P Require Import Prelude.
Local Open Scope Z_scope.

(** * NumPy assignments *)

(** [a[start:start + len(vals)] = vals]: the slice is cut off at the end of the array, and
    only a single value can then be broadcast to it. *)
Definition assign_slice {A} (a : list A) (start : nat) (vals : list A) : outcome (list A) :=
  if decide (start + length vals <= length a)%nat then Ok (take start a ++ vals ++ drop (start + length vals) a)
  else if decide (length vals = 1%nat) then Ok a
  else Raise ValueError.

(** [a[i]] and [a[i] = x] for an index of an array. *)
Definition array_get {A} (a : list A) (i : nat) : outcome A :=
  match a !! i with Some x => Ok x | None => Raise IndexError end.
Definition array_set {A} (a : list A) (i : nat) (x : A) : outcome (list A) :=
  if decide (i < length a)%nat then Ok (<[i := x]> a) else Raise IndexError.

(** * One table *)

(** The rows on the host and on the device, and the slots of the scheduled tokens. *)
Record BlockTable : Type := mkBlockTable {
  bt_block_size : Z;
  max_num_blocks_per_req : nat;
  max_num_batched_tokens : nat;
  block_table_np : list (list Z);
  num_blocks_per_row : list Z;
  block_table : list (list Z);
  slot_mapping_np : list Z;
  slot_mapping : list Z
}.

Definition BlockTable_init (block_size : Z) (max_num_reqs max_blocks max_tokens : nat) : BlockTable :=
  mkBlockTable block_size max_blocks max_tokens
    (replicate max_num_reqs (replicate max_blocks 0)) (replicate max_num_reqs 0)
    (replicate max_num_reqs (replicate max_blocks 0)) (replicate max_tokens 0) (replicate max_tokens 0).

Definition set_table (v : list (list Z)) (t : BlockTable) : BlockTable :=
  mkBlockTable (bt_block_size t) (max_num_blocks_per_req t) (max_num_batched_tokens t) v (num_blocks_per_row t)
    (block_table t) (slot_mapping_np t) (slot_mapping t).
Definition set_num_blocks_per_row (v : list Z) (t : BlockTable) : BlockTable :=
  mkBlockTable (bt_block_size t) (max_num_blocks_per_req t) (max_num_batched_tokens t) (block_table_np t) v
    (block_table t) (slot_mapping_np t) (slot_mapping t).
Definition set_device_table (v : list (list Z)) (t : BlockTable) : BlockTable :=
  mkBlockTable (bt_block_size t) (max_num_blocks_per_req t) (max_num_batched_tokens t) (block_table_np t)
    (num_blocks_per_row t) v (slot_mapping_np t) (slot_mapping t).
Definition set_slots (v : list Z) (t : BlockTable) : BlockTable :=
  mkBlockTable (bt_block_size t) (max_num_blocks_per_req t) (max_num_batched_tokens t) (block_table_np t)
    (num_blocks_per_row t) (block_table t) v (slot_mapping t).
Definition set_device_slots (v : list Z) (t : BlockTable) : BlockTable :=
  mkBlockTable (bt_block_size t) (max_num_blocks_per_req t) (max_num_batched_tokens t) (block_table_np t)
    (num_blocks_per_row t) (block_table t) (slot_mapping_np t) v.

(** [self.num_blocks_per_row[row] = n] and [self.block_table_np[row, start:...] = ids]. *)
Definition set_row_length (row : nat) (n : Z) : M BlockTable unit :=
  t ← get; l ← lift_outcome (array_set (num_blocks_per_row t) row n); modify (set_num_blocks_per_row l).
Definition write_row (row : nat) (start : Z) (block_ids : list Z) : M BlockTable unit :=
  t ← get;
  r ← lift_outcome (array_get (block_table_np t) row);
  r ← lift_outcome (assign_slice r (Z.to_nat start) block_ids);
  modify (set_table (<[row := r]> (block_table_np t))).

Definition append_row (block_ids : list Z) (row_idx : nat) : M BlockTable unit :=
  match block_ids with
  | [] => mret tt
  | _ =>
    t ← get;
    start ← lift_outcome (array_get (num_blocks_per_row t) row_idx);
    set_row_length row_idx (start + len block_ids) ;;
    write_row row_idx start block_ids
  end.

Definition add_row (block_ids : list Z) (row_idx : nat) : M BlockTable unit :=
  set_row_length row_idx 0 ;; append_row block_ids row_idx.

Definition move_row (src tgt : nat) : M BlockTable unit :=
  t ← get;
  num_blocks ← lift_outcome (array_get (num_blocks_per_row t) src);
  r ← lift_outcome (array_get (block_table_np t) src);
  write_row tgt 0 (take (Z.to_nat num_blocks) r) ;;
  set_row_length tgt num_blocks.

(** The rows are exchanged through a copy that the fancy index makes. *)
Definition swap_row (src tgt : nat) : M BlockTable unit :=
  t ← get;
  num_blocks_src ← lift_outcome (array_get (num_blocks_per_row t) src);
  num_blocks_tgt ← lift_outcome (array_get (num_blocks_per_row t) tgt);
  set_row_length src num_blocks_tgt ;;
  set_row_length tgt num_blocks_src ;;
  row_src ← lift_outcome (array_get (block_table_np t) src);
  row_tgt ← lift_outcome (array_get (block_table_np t) tgt);
  modify (set_table (<[tgt := row_src]> (<[src := row_tgt]> (block_table_np t)))).

(** The slot of one token: the row's block at the position, and the offset in it; the
    table is indexed flattened. *)
Definition slot_of (t : BlockTable) (req_index : nat) (position : Z) : outcome Z :=
  let i := Z.of_nat req_index * Z.of_nat (max_num_blocks_per_req t) + position / bt_block_size t in
  block_number ← array_get (concat (block_table_np t)) (Z.to_nat i);
  Ok (block_number * bt_block_size t + position mod bt_block_size t).

Definition compute_slot_mapping (req_indices : list nat) (positions : list Z) : M BlockTable unit :=
  t ← get;
  slots ← lift_outcome (mapM (λ '(r, p), slot_of t r p) (zip req_indices positions));
  l ← lift_outcome (if decide (length slots <= length (slot_mapping_np t))%nat
                    then Ok (slots ++ drop (length slots) (slot_mapping_np t)) else Raise ValueError);
  modify (set_slots l).

(** The copies to the device. *)
Definition commit_block_table (num_reqs : nat) : M BlockTable unit :=
  modify (λ t, set_device_table (take num_reqs (block_table_np t) ++ drop num_reqs (block_table t)) t).
Definition commit_slot_mapping (num_tokens : nat) : M BlockTable unit :=
  modify (λ t, set_device_slots (take num_tokens (slot_mapping_np t) ++ drop num_tokens (slot_mapping t)) t).

Definition clear : M BlockTable unit :=
  modify (λ t, set_device_table (fmap (M := list) (λ _, 0) <$> block_table t) t) ;;
  modify (λ t, set_table (fmap (M := list) (λ _, 0) <$> block_table_np t) t).

(** * The tables of all groups *)
Abbreviation MultiGroupBlockTable := (list BlockTable).

Definition MultiGroupBlockTable_init (max_num_reqs max_model_len max_num_batched_tokens : nat) (block_sizes : list Z)
    : MultiGroupBlockTable :=
  (λ bs, BlockTable_init bs max_num_reqs (Z.to_nat (cdiv (Z.of_nat max_model_len) bs)) max_num_batched_tokens) <$> block_sizes.

(** [for i, block_table in enumerate(self.block_tables): f(i, block_table)]. *)
Fixpoint each_table (i : nat) (f : nat → M BlockTable unit) (ts : MultiGroupBlockTable)
    : outcome unit * MultiGroupBlockTable :=
  match ts with
  | [] => (Ok tt, [])
  | t :: ts' =>
    match f i t with
    | (Ok _, t') => let '(o, ts'') := each_table (S i) f ts' in (o, t' :: ts'')
    | (Raise e, t') => (Raise e, t' :: ts')
    end
  end.
Definition on_each_table (f : nat → M BlockTable unit) : M MultiGroupBlockTable unit := each_table 0 f.

Definition multi_append_row (block_ids : list (list Z)) (row_idx : nat) : M MultiGroupBlockTable unit :=
  on_each_table (λ i, ids ← lift_outcome (array_get block_ids i); append_row ids row_idx).
Definition multi_add_row (block_ids : list (list Z)) (row_idx : nat) : M MultiGroupBlockTable unit :=
  on_each_table (λ i, ids ← lift_outcome (array_get block_ids i); add_row ids row_idx).
Definition multi_move_row (src tgt : nat) : M MultiGroupBlockTable unit := on_each_table (λ _, move_row src tgt).
Definition multi_swap_row (src tgt : nat) : M MultiGroupBlockTable unit := on_each_table (λ _, swap_row src tgt).
Definition multi_compute_slot_mapping (req_indices : list nat) (positions : list Z) : M MultiGroupBlockTable unit :=
  on_each_table (λ _, compute_slot_mapping req_indices positions).
Definition multi_commit_block_table (num_reqs : nat) : M MultiGroupBlockTable unit :=
  on_each_table (λ _, commit_block_table num_reqs).
Definition multi_commit_slot_mapping (num_tokens : nat) : M MultiGroupBlockTable unit :=
  on_each_table (λ _, commit_slot_mapping num_tokens).
Definition multi_clear : M MultiGroupBlockTable unit := on_each_table (λ _, clear).

(** * Correctness *)

(** A table of [n] rows: every row has the table's width and a valid length. *)
Record table_ok (n : nat) (t : BlockTable) : Prop := {
  to_rows : length (block_table_np t) = n;
  to_lengths : length (num_blocks_per_row t) = n;
  to_width : ∀ i r, block_table_np t !! i = Some r → length r = max_num_blocks_per_req t;
  to_bound : ∀ i k, num_blocks_per_row t !! i = Some k → 0 <= k <= Z.of_nat (max_num_blocks_per_req t)
}.

(** The blocks of a row. *)
Definition row_blocks (t : BlockTable) (i : nat) : list Z :=
  match block_table_np t !! i, num_blocks_per_row t !! i with
  | Some r, Some k => take (Z.to_nat k) r
  | _, _ => []
  end.

(** What no operation on rows changes. *)
Record table_frame (t t' : BlockTable) : Prop := {
  tf_block_size : bt_block_size t' = bt_block_size t;
  tf_width : max_num_blocks_per_req t' = max_num_blocks_per_req t;
  tf_slots : slot_mapping_np t' = slot_mapping_np t;
  tf_device_slots : slot_mapping t' = slot_mapping t
}.

Lemma assign_slice_fits {A} (a : list A) start vals :
  (start + length vals <= length a)%nat →
  assign_slice a start vals = Ok (take start a ++ vals ++ drop (start + length vals) a).
Proof. intros H. unfold assign_slice. by rewrite decide_True by lia. Qed.
Lemma assign_slice_length {A} (a : list A) start vals a' :
  assign_slice a start vals = Ok a' → length a' = length a.
Proof.
  unfold assign_slice. case_decide; [intros [= <-]|case_decide; [by intros [= <-]|done]].
  rewrite !length_app, length_take, length_drop. lia.
Qed.
Lemma assign_slice_take {A} (a : list A) start vals a' :
  (start + length vals <= length a)%nat → assign_slice a start vals = Ok a' →
  take (start + length vals) a' = take start a ++ vals.
Proof.
  intros Hl. rewrite assign_slice_fits by done. intros [= <-]. rewrite app_assoc. apply take_app_length'.
  rewrite length_app, length_take. lia.
Qed.
Lemma assign_slice_ok {A} (a : list A) start vals :
  (start + length vals <= length a)%nat →
  ∃ a', assign_slice a start vals = Ok a' ∧ length a' = length a ∧ take (start + length vals) a' = take start a ++ vals.
Proof.
  intros Hl. pose proof (assign_slice_fits a start vals Hl) as H. eexists. split_and!; [done| |].
  - by eapply assign_slice_length.
  - by eapply assign_slice_take.
Qed.
Lemma array_get_Some {A} (a : list A) i x : a !! i = Some x → array_get a i = Ok x.
Proof. intros H. unfold array_get. by rewrite H. Qed.
Lemma array_set_lt {A} (a : list A) i x : (i < length a)%nat → array_set a i x = Ok (<[i := x]> a).
Proof. intros H. unfold array_set. by rewrite decide_True. Qed.

Section table_proofs.
Implicit Types (t : BlockTable) (i n : nat).

Lemma lookup_row n t i : table_ok n t → (i < n)%nat → ∃ r k, block_table_np t !! i = Some r ∧ num_blocks_per_row t !! i = Some k ∧
  length r = max_num_blocks_per_req t ∧ 0 <= k <= Z.of_nat (max_num_blocks_per_req t).
Proof.
  intros [Hr Hl Hw Hb] Hi. destruct (lookup_lt_is_Some_2 (block_table_np t) i) as [r Er]; [lia|].
  destruct (lookup_lt_is_Some_2 (num_blocks_per_row t) i) as [k Ek]; [lia|]. exists r, k. pose proof (Hb i k Ek). split_and!; eauto; lia.
Qed.

(** Writing blocks behind the first [start] ones of a row. *)
Lemma write_row_spec n t i start ids Q :
  table_ok n t → (i < n)%nat → 0 <= start → start + len ids <= Z.of_nat (max_num_blocks_per_req t) →
  (∀ r r', block_table_np t !! i = Some r → length r' = length r →
     take (Z.to_nat (start + len ids)) r' = take (Z.to_nat start) r ++ ids →
     Q tt (set_table (<[i := r']> (block_table_np t)) t)) →
  wp (write_row i start ids) Q t.
Proof.
  intros Hok Hi Hs Hfit HQ. destruct (lookup_row n t i Hok Hi) as (r & k & Hr & _ & Hw & _). unfold write_row, len in *.
  apply wp_bind, wp_get, wp_bind. eapply wp_lift_outcome; [by apply array_get_Some|].
  assert (Z.to_nat start + length ids <= length r)%nat as Hl by lia.
  apply wp_bind. eapply wp_lift_outcome; [by apply assign_slice_fits|]. apply wp_modify. eapply HQ; [done| |].
  - by eapply assign_slice_length, assign_slice_fits.
  - replace (Z.to_nat (start + Z.of_nat (length ids))) with (Z.to_nat start + length ids)%nat by lia.
    by apply assign_slice_take; [|apply assign_slice_fits].
Qed.

Lemma set_row_length_spec n t i k Q :
  table_ok n t → (i < n)%nat → Q tt (set_num_blocks_per_row (<[i := k]> (num_blocks_per_row t)) t) →
  wp (set_row_length i k) Q t.
Proof.
  intros Hok Hi HQ. unfold set_row_length. apply wp_bind, wp_get, wp_bind.
  eapply wp_lift_outcome; [apply array_set_lt; by rewrite (to_lengths _ _ Hok)|]. by apply wp_modify.
Qed.

(** A table in which one row has changed. *)
Record row_changed n t t' i (blocks : list Z) : Prop := {
  rc_ok : table_ok n t';
  rc_frame : table_frame t t';
  rc_row : row_blocks t' i = blocks;
  rc_others : ∀ j, j ≠ i → row_blocks t' j = row_blocks t j
}.

Lemma row_changed_intro n t i k r r' :
  table_ok n t → (i < n)%nat → block_table_np t !! i = Some r → length r' = length r →
  0 <= k <= Z.of_nat (max_num_blocks_per_req t) →
  row_changed n t (set_table (<[i := r']> (block_table_np t)) (set_num_blocks_per_row (<[i := k]> (num_blocks_per_row t)) t)) i (take (Z.to_nat k) r').
Proof.
  intros [Hr Hl Hw Hb] Hi Hri Hlen Hk. split.
  - split; cbn; rewrite ?length_insert; try done.
    + intros j q [(<- & <- & _)|[? Hj]]%list_lookup_insert_Some; [rewrite Hlen|]; eauto.
    + intros j q [(<- & <- & _)|[? Hj]]%list_lookup_insert_Some; eauto.
  - done.
  - unfold row_blocks. cbn. by rewrite !list_lookup_insert_eq by lia.
  - intros j Hj. unfold row_blocks. cbn. by rewrite !list_lookup_insert_ne by done.
Qed.
Lemma row_unchanged n t i : table_ok n t → row_changed n t t i (row_blocks t i).
Proof. done. Qed.

Lemma append_row_spec n t i ids :
  table_ok n t → (i < n)%nat → len (row_blocks t i) + len ids <= Z.of_nat (max_num_blocks_per_req t) →
  wp (append_row ids i) (λ _ t', row_changed n t t' i (row_blocks t i ++ ids)) t.
Proof.
  intros Hok Hi Hfit. destruct (lookup_row n t i Hok Hi) as (r & k & Hr & Hk & Hw & Hb).
  assert (Hblocks : row_blocks t i = take (Z.to_nat k) r) by (unfold row_blocks; by rewrite Hr, Hk).
  rewrite Hblocks in *. unfold len in Hfit. rewrite length_take in Hfit. unfold append_row. destruct ids as [|x ids].
  { apply wp_ret. rewrite app_nil_r, <- Hblocks. by apply row_unchanged. }
  set (ids' := x :: ids) in *. apply wp_bind, wp_get, wp_bind. eapply wp_lift_outcome; [by apply array_get_Some|].
  apply wp_bind, (set_row_length_spec n); [done|done|].
  assert (table_ok n (set_num_blocks_per_row (<[i := k + len ids']> (num_blocks_per_row t)) t)) as Hok'.
  { destruct Hok as [H1 H2 H3 H4]. split; cbn; rewrite ?length_insert; try done.
    intros j q [(<- & <- & _)|[? Hj]]%list_lookup_insert_Some; [unfold len; lia|eauto]. }
  apply (write_row_spec n); [done|done|lia|unfold len; cbn [max_num_blocks_per_req set_num_blocks_per_row]; lia|].
  intros r0 r' Hr0 Hlen Htake. cbn in Hr0. rewrite Hr in Hr0. injection Hr0 as <-. rewrite <- Htake.
  apply (row_changed_intro n t i (k + len ids') r r'); try done. unfold len. lia.
Qed.

Lemma add_row_spec n t i ids :
  table_ok n t → (i < n)%nat → len ids <= Z.of_nat (max_num_blocks_per_req t) →
  wp (add_row ids i) (λ _ t', row_changed n t t' i ids) t.
Proof.
  intros Hok Hi Hfit. destruct (lookup_row n t i Hok Hi) as (r & k & Hr & Hk & Hw & Hb). unfold add_row.
  apply wp_bind, (set_row_length_spec n); [done|done|].
  pose proof (row_changed_intro n t i 0 r r Hok Hi Hr eq_refl ltac:(lia)) as Hc.
  rewrite list_insert_id in Hc by done.
  change (set_table (block_table_np t) ?x) with x in Hc. destruct Hc as [Hok' Hf Hrow Hothers].
  eapply wp_mono; [apply (append_row_spec n _ i ids Hok' Hi)|].
  - rewrite Hrow. change (take (Z.to_nat 0) r) with (@nil Z). cbn [max_num_blocks_per_req set_num_blocks_per_row]. unfold len in *. cbn [length]. lia.
  - intros [] t' [H1 H2 H3 H4]. split; [done|by destruct Hf, H2; split; congruence| |].
    + rewrite H3, Hrow. done.
    + intros j Hj. by rewrite H4, Hothers.
Qed.

Lemma move_row_spec n t src tgt :
  table_ok n t → (src < n)%nat → (tgt < n)%nat →
  wp (move_row src tgt) (λ _ t', row_changed n t t' tgt (row_blocks t src)) t.
Proof.
  intros Hok Hs Ht. destruct (lookup_row n t src Hok Hs) as (r & k & Hr & Hk & Hw & Hb).
  destruct (lookup_row n t tgt Hok Ht) as (r2 & k2 & Hr2 & Hk2 & Hw2 & Hb2). unfold move_row.
  apply wp_bind, wp_get, wp_bind. eapply wp_lift_outcome; [by apply array_get_Some|].
  apply wp_bind. eapply wp_lift_outcome; [by apply array_get_Some|].
  assert (len (take (Z.to_nat k) r) = k) as Hlen by (unfold len; rewrite length_take; lia).
  apply wp_bind, (write_row_spec n); [done|done|lia|lia|].
  intros r0 r' Hr0 Hl Htake. rewrite Hr2 in Hr0. injection Hr0 as <-. rewrite Hlen in Htake. cbn [Z.to_nat take app] in Htake.
  replace (0 + k) with k in Htake by lia.
  pose proof (row_changed_intro n t tgt k r2 r' Hok Ht Hr2 Hl Hb) as Hc.
  assert (table_ok n (set_table (<[tgt := r']> (block_table_np t)) t)) as Hok'.
  { destruct Hok as [H1 H2 H3 H4]. split; cbn; rewrite ?length_insert; try done.
    intros j q [(<- & <- & _)|[? Hj]]%list_lookup_insert_Some; [rewrite Hl|]; eauto. }
  apply (set_row_length_spec n); [done|done|]. unfold row_blocks at 1. rewrite Hr, Hk.
  cbn [Z.to_nat take app] in Htake. rewrite take_0 in Htake. cbn [app] in Htake. rewrite <- Htake. exact Hc.
Qed.

Lemma swap_row_spec n t src tgt :
  table_ok n t → (src < n)%nat → (tgt < n)%nat →
  wp (swap_row src tgt) (λ _ t', table_ok n t' ∧ table_frame t t' ∧
    row_blocks t' src = row_blocks t tgt ∧ row_blocks t' tgt = row_blocks t src ∧
    ∀ j, j ≠ src → j ≠ tgt → row_blocks t' j = row_blocks t j) t.
Proof.
  intros Hok Hs Ht. destruct (lookup_row n t src Hok Hs) as (r & k & Hr & Hk & Hw & Hb).
  destruct (lookup_row n t tgt Hok Ht) as (r2 & k2 & Hr2 & Hk2 & Hw2 & Hb2). unfold swap_row.
  apply wp_bind, wp_get, wp_bind. eapply wp_lift_outcome; [by apply array_get_Some|].
  apply wp_bind. eapply wp_lift_outcome; [by apply array_get_Some|].
  apply wp_bind, (set_row_length_spec n); [done|done|]. 
  pose proof (row_changed_intro n t src k2 r r Hok Hs Hr eq_refl Hb2) as Hc. rewrite list_insert_id in Hc by done.
  change (set_table (block_table_np t) ?x) with x in Hc. apply wp_bind, (set_row_length_spec n); [apply Hc|done|].
  apply wp_bind. eapply wp_lift_outcome; [by apply array_get_Some|]. apply wp_bind. eapply wp_lift_outcome; [by apply array_get_Some|].
  apply wp_modify. destruct Hok as [H1 H2 H3 H4]. split_and!.
  - split; cbn; rewrite ?length_insert; try done.
    + intros j q [(<- & <- & _)|[? [(<- & <- & _)|[? ?]]%list_lookup_insert_Some]]%list_lookup_insert_Some; eauto.
    + intros j q [(<- & <- & _)|[? [(<- & <- & _)|[? ?]]%list_lookup_insert_Some]]%list_lookup_insert_Some; eauto.
  - done.
  - unfold row_blocks. cbn. rewrite Hr2, Hk2. destruct (decide (src = tgt)) as [->|Hne].
    + rewrite Hr2 in Hr. rewrite Hk2 in Hk. injection Hr as <-. injection Hk as <-.
      by rewrite !list_lookup_insert_eq by (rewrite ?length_insert; lia).
    + do 2 (rewrite list_lookup_insert_ne by congruence; rewrite list_lookup_insert_eq by lia). done.
  - unfold row_blocks. cbn. rewrite Hr, Hk. by rewrite !list_lookup_insert_eq by (rewrite ?length_insert; lia).
  - intros j Hj1 Hj2. unfold row_blocks. cbn. by rewrite !list_lookup_insert_ne by congruence.
Qed.

(** ** All groups *)

Definition group_blocks (ts : MultiGroupBlockTable) (i : nat) : list (list Z) := (λ t, row_blocks t i) <$> ts.
Lemma group_blocks_length ts i : length (group_blocks ts i) = length ts.
Proof. apply length_fmap. Qed.
Definition tables_ok n (ts : MultiGroupBlockTable) : Prop := ∀ t, t ∈ ts → table_ok n t.
Definition tables_frame (ts ts' : MultiGroupBlockTable) : Prop := Forall2 table_frame ts ts'.

(** One row has changed in every table. *)
Record tables_changed n ts ts' i (blocks : list (list Z)) : Prop := {
  tc_ok : tables_ok n ts';
  tc_frame : tables_frame ts ts';
  tc_row : group_blocks ts' i = blocks;
  tc_others : ∀ j, j ≠ i → group_blocks ts' j = group_blocks ts j
}.

Lemma wp_each_table (R : nat → BlockTable → BlockTable → Prop) f k (ts : MultiGroupBlockTable) :
  (∀ i t, ts !! i = Some t → wp (f (k + i)%nat) (λ _ t', R (k + i)%nat t t') t) →
  wp (each_table k f) (λ _ ts', length ts' = length ts ∧
    ∀ i t t', ts !! i = Some t → ts' !! i = Some t' → R (k + i)%nat t t') ts.
Proof.
  revert k. induction ts as [|t ts IH]; intros k Hf; [done|]. pose proof (Hf 0%nat t eq_refl) as Ht. rewrite Nat.add_0_r in Ht.
  assert (wp (each_table (S k) f) (λ _ ts', length ts' = length ts ∧
    ∀ i t t', ts !! i = Some t → ts' !! i = Some t' → R (S k + i)%nat t t') ts) as Hts.
  { apply IH. intros i t' Hi. replace (S k + i)%nat with (k + S i)%nat by lia. by apply Hf. }
  unfold wp in *. cbn [each_table]. destruct (f k t) as [[[]|e] t1]; [|done].
  destruct (each_table (S k) f ts) as [[[]|e] ts1]; [|done]. destruct Hts as [Hl HR]. split; [cbn; by rewrite Hl|].
  intros [|i] u u' Hu Hu'; cbn in *; [injection Hu as <-; injection Hu' as <-; by rewrite Nat.add_0_r|].
  replace (k + S i)%nat with (S k + i)%nat by lia. by apply HR.
Qed.

(** An operation that changes the row [i] of each table to [blocks g t]. *)
Lemma wp_tables_changed n (ts : MultiGroupBlockTable) i f (blocks : nat → BlockTable → list Z) result :
  tables_ok n ts →
  (∀ g t, ts !! g = Some t → table_ok n t → wp (f g) (λ _ t', row_changed n t t' i (blocks g t)) t) →
  length result = length ts → (∀ g t, ts !! g = Some t → result !! g = Some (blocks g t)) →
  wp (on_each_table f) (λ _ ts', tables_changed n ts ts' i result) ts.
Proof.
  intros Hok Hf Hlen Hres. eapply wp_mono.
  - apply (wp_each_table (λ g t t', row_changed n t t' i (blocks g t)) f 0). intros g t Hg.
    apply (Hf g t Hg), Hok. by eapply list_elem_of_lookup_2.
  - intros [] ts' [Hl HR]. cbn [Nat.add] in HR. split.
    + intros t' [g Hg]%list_elem_of_lookup_1. destruct (lookup_lt_is_Some_2 ts g) as [t Ht].
      { rewrite <- Hl. by eapply lookup_lt_Some. }
      by destruct (HR g t t' Ht Hg).
    + apply Forall2_same_length_lookup. split; [done|]. intros g t t' H1 H2. by destruct (HR g t t' H1 H2).
    + apply list_eq_same_length with (length ts); [by rewrite Hlen|by rewrite group_blocks_length|].
      intros g x y Hg Hx Hy. apply list_lookup_fmap_Some in Hx as (t' & -> & Ht').
      destruct (lookup_lt_is_Some_2 ts g) as [t Ht]; [done|]. rewrite (Hres g t Ht) in Hy. injection Hy as <-.
      by destruct (HR g t t' Ht Ht').
    + intros j Hj. apply list_eq_same_length with (length ts); [by rewrite group_blocks_length|by rewrite group_blocks_length|].
      intros g x y Hg Hx Hy. apply list_lookup_fmap_Some in Hx as (t' & -> & Ht'). apply list_lookup_fmap_Some in Hy as (t & -> & Ht).
      by destruct (HR g t t' Ht Ht') as [_ _ _ ->].
Qed.

(** Every group has blocks that fit in a row. *)
Definition blocks_fit (ts : MultiGroupBlockTable) (i : nat) (ids : list (list Z)) : Prop :=
  ∀ g t b, ts !! g = Some t → ids !! g = Some b → len (row_blocks t i) + len b <= Z.of_nat (max_num_blocks_per_req t).

Lemma multi_add_row_spec n ts i ids :
  tables_ok n ts → (i < n)%nat → length ids = length ts →
  (∀ g t b, ts !! g = Some t → ids !! g = Some b → len b <= Z.of_nat (max_num_blocks_per_req t)) →
  wp (multi_add_row ids i) (λ _ ts', tables_changed n ts ts' i ids) ts.
Proof.
  intros Hok Hi Hlen Hfit. eapply (wp_tables_changed n ts i _ (λ g _, default [] (ids !! g))); [done| |done|].
  - intros g t Hg Ht. destruct (lookup_lt_is_Some_2 ids g) as [b Hb]; [rewrite Hlen; by eapply lookup_lt_Some|].
    apply wp_bind. eapply wp_lift_outcome; [by apply array_get_Some|]. rewrite Hb. apply add_row_spec; eauto.
  - intros g t Hg. destruct (lookup_lt_is_Some_2 ids g) as [b Hb]; [rewrite Hlen; by eapply lookup_lt_Some|]. by rewrite Hb.
Qed.

Lemma multi_append_row_spec n ts i ids :
  tables_ok n ts → (i < n)%nat → length ids = length ts → blocks_fit ts i ids →
  wp (multi_append_row ids i) (λ _ ts', tables_changed n ts ts' i (zip_with app (group_blocks ts i) ids)) ts.
Proof.
  intros Hok Hi Hlen Hfit. eapply (wp_tables_changed n ts i _ (λ g t, row_blocks t i ++ default [] (ids !! g))); [done| | |].
  - intros g t Hg Ht. destruct (lookup_lt_is_Some_2 ids g) as [b Hb]; [rewrite Hlen; by eapply lookup_lt_Some|].
    apply wp_bind. eapply wp_lift_outcome; [by apply array_get_Some|]. rewrite Hb. apply append_row_spec; eauto.
  - unfold group_blocks. rewrite length_zip_with, length_fmap. lia.
  - intros g t Hg. destruct (lookup_lt_is_Some_2 ids g) as [b Hb]; [rewrite Hlen; by eapply lookup_lt_Some|].
    unfold group_blocks. by rewrite lookup_zip_with, list_lookup_fmap, Hg, Hb.
Qed.

Lemma multi_move_row_spec n ts src tgt :
  tables_ok n ts → (src < n)%nat → (tgt < n)%nat →
  wp (multi_move_row src tgt) (λ _ ts', tables_changed n ts ts' tgt (group_blocks ts src)) ts.
Proof.
  intros Hok Hs Ht. eapply (wp_tables_changed n ts tgt _ (λ _ t, row_blocks t src)); [done| | |].
  - intros g t Hg Hokt. by apply move_row_spec.
  - apply group_blocks_length.
  - intros g t Hg. unfold group_blocks. by rewrite list_lookup_fmap, Hg.
Qed.

Lemma multi_swap_row_spec n ts src tgt :
  tables_ok n ts → (src < n)%nat → (tgt < n)%nat →
  wp (multi_swap_row src tgt) (λ _ ts', tables_ok n ts' ∧ tables_frame ts ts' ∧
    group_blocks ts' src = group_blocks ts tgt ∧ group_blocks ts' tgt = group_blocks ts src ∧
    ∀ j, j ≠ src → j ≠ tgt → group_blocks ts' j = group_blocks ts j) ts.
Proof.
  intros Hok Hs Ht. eapply wp_mono.
  - apply (wp_each_table (λ g t t', table_ok n t' ∧ table_frame t t' ∧
      row_blocks t' src = row_blocks t tgt ∧ row_blocks t' tgt = row_blocks t src ∧
      ∀ j, j ≠ src → j ≠ tgt → row_blocks t' j = row_blocks t j) _ 0).
    intros g t Hg. apply swap_row_spec; [|done|done]. apply Hok. by eapply list_elem_of_lookup_2.
  - intros [] ts' [Hl HR]. cbn [Nat.add] in HR.
    assert (∀ j k, (∀ g t t', ts !! g = Some t → ts' !! g = Some t' → row_blocks t' j = row_blocks t k) →
      group_blocks ts' j = group_blocks ts k) as Heq.
    { intros j k Hjk. apply list_eq_same_length with (length ts); [by rewrite group_blocks_length|by rewrite group_blocks_length|].
      intros g x y Hg Hx Hy. apply list_lookup_fmap_Some in Hx as (t' & -> & Ht'). apply list_lookup_fmap_Some in Hy as (t & -> & Ht2).
      by eapply Hjk. }
    split_and!.
    + intros t' [g Hg]%list_elem_of_lookup_1. destruct (lookup_lt_is_Some_2 ts g) as [t Ht2].
      { rewrite <- Hl. by eapply lookup_lt_Some. }
      by destruct (HR g t t' Ht2 Hg).
    + apply Forall2_same_length_lookup. split; [done|]. intros g t t' H1 H2. by destruct (HR g t t' H1 H2) as (_ & ? & _).
    + apply Heq. intros g t t' H1 H2. by destruct (HR g t t' H1 H2) as (_ & _ & ? & _).
    + apply Heq. intros g t t' H1 H2. by destruct (HR g t t' H1 H2) as (_ & _ & _ & ? & _).
    + intros j Hj1 Hj2. apply Heq. intros g t t' H1 H2. destruct (HR g t t' H1 H2) as (_ & _ & _ & _ & H). by apply H.
Qed.

(** ** The slots *)

(** A table is indexed flattened. *)
Lemma lookup_concat_uniform {A} (w : nat) (ls : list (list A)) i r j x :
  (∀ i r, ls !! i = Some r → length r = w) → ls !! i = Some r → r !! j = Some x →
  concat ls !! (i * w + j)%nat = Some x.
Proof.
  revert i. induction ls as [|r0 ls IH]; intros i Hw Hr Hx; [done|].
  pose proof (Hw 0%nat r0 eq_refl) as H0. cbn [concat]. destruct i as [|i]; cbn in Hr.
  - injection Hr as ->. rewrite lookup_app_l; [done|]. by eapply lookup_lt_Some.
  - rewrite lookup_app_r by lia. replace (S i * w + j - length r0)%nat with (i * w + j)%nat by lia.
    apply IH; [|done|done]. intros k q Hk. by apply (Hw (S k)).
Qed.

(** The slot of a position of a row is in the row's block for the position, at the
    position's offset. *)
Lemma slot_of_spec n t i p blk :
  table_ok n t → (i < n)%nat → 0 < bt_block_size t → 0 <= p →
  row_blocks t i !! Z.to_nat (p / bt_block_size t) = Some blk →
  slot_of t i p = Ok (blk * bt_block_size t + p mod bt_block_size t).
Proof.
  intros Hok Hi Hbs Hp Hblk. destruct (lookup_row n t i Hok Hi) as (r & k & Hr & Hk & Hw & Hb).
  unfold row_blocks in Hblk. rewrite Hr, Hk in Hblk. apply lookup_take_Some in Hblk as [Hblk Hlt].
  unfold slot_of. pose proof (Z.div_pos p (bt_block_size t) Hp Hbs).
  assert (concat (block_table_np t) !! Z.to_nat (Z.of_nat i * Z.of_nat (max_num_blocks_per_req t) + p / bt_block_size t) = Some blk) as Hc.
  { replace (Z.to_nat _) with (i * max_num_blocks_per_req t + Z.to_nat (p / bt_block_size t))%nat by lia.
    by eapply lookup_concat_uniform; [apply (to_width _ _ Hok)| |]. }
  by rewrite (array_get_Some _ _ _ Hc).
Qed.
End table_proofs.
