(* ===== verification/BatchUpdate.v ===== *)
(** The changes of the persistent batch, from [v1/sample/logits_processor.py]: the builder
    that records them, and the logits processors that replay them on what they keep for
    each row.  Rows are natural numbers, floating-point numbers are rationals. *)
From Stdlib Require Import ZArith QArith Lia.
From stdpp Require Import base strings countable gmap sets list sorting.
From S2P Require Import Prelude Request.
Local Open Scope Z_scope.

(** What the worker reads of [SamplingParams]; an empty list or dictionary and [None]
    are kept apart, although the code only asks for their truth. *)
Record SamplingParams : Type := mkSamplingParams {
  temperature : Q;
  top_p : Q;
  top_k : Z;
  min_p : Q;
  frequency_penalty : Q;
  presence_penalty : Q;
  repetition_penalty : Q;
  logprobs : option Z;
  prompt_logprobs : option Z;
  allowed_token_ids : option (list Z);
  bad_words_token_ids : option (list (list Z));
  logit_bias : option (gmap Z Q);
  min_tokens : Z;
  all_stop_token_ids : gset Z
}.
(** What it reads of [PoolingParams]. *)
Record PoolingParams : Type := mkPoolingParams { requires_token_ids : bool; task : option string }.

Inductive BatchParams : Type :=
  | Sampling (p : SamplingParams)
  | Pooling (p : PoolingParams)
  | NoParams.

(** A reference to a list of output tokens, which the worker goes on extending. *)
Definition list_ref : Type := Z.

Inductive MoveDirectionality : Type := UNIDIRECTIONAL | SWAP.
Definition AddedRequest : Type := nat * BatchParams * list_ref.
Definition MovedRequest : Type := nat * nat * MoveDirectionality.

Record BatchUpdate : Type := mkBatchUpdate {
  batch_size : nat;
  removed : list nat;
  moved : list MovedRequest;
  added : list AddedRequest
}.

(** * The builder *)
Record BatchUpdateBuilder : Type := mkBuilder {
  _removed : list nat;
  _is_removed_sorted : bool;
  b_moved : list MovedRequest;
  b_added : list AddedRequest
}.
Definition BatchUpdateBuilder_init : BatchUpdateBuilder := mkBuilder [] false [] [].

(** [list.sort(reverse=True)]. *)
Definition sort_descending (l : list nat) : list nat := merge_sort (flip le) l.

Definition _ensure_removed_sorted (b : BatchUpdateBuilder) : BatchUpdateBuilder :=
  if _is_removed_sorted b then b else mkBuilder (sort_descending (_removed b)) true (b_moved b) (b_added b).

(** The property [removed] sorts the list it returns. *)
Definition read_removed : M BatchUpdateBuilder (list nat) :=
  modify _ensure_removed_sorted ;; gets _removed.

Definition removed_append (index : nat) : M BatchUpdateBuilder unit :=
  b ← get;
  if _is_removed_sorted b then raise RuntimeError
  else modify (λ b, mkBuilder (_removed b ++ [index]) (_is_removed_sorted b) (b_moved b) (b_added b)).

Definition peek_removed : M BatchUpdateBuilder (option nat) :=
  b ← get;
  match _removed b with
  | [] => mret None
  | _ => modify _ensure_removed_sorted ;; gets (λ b, last (_removed b))
  end.

Definition pop_removed : M BatchUpdateBuilder (option nat) :=
  b ← get;
  match _removed b with
  | [] => mret None
  | _ =>
    modify _ensure_removed_sorted ;;
    r ← gets (λ b, last (_removed b));
    modify (λ b, mkBuilder (removelast (_removed b)) (_is_removed_sorted b) (b_moved b) (b_added b)) ;;
    mret r
  end.

Definition record_moved (m : MovedRequest) : M BatchUpdateBuilder unit :=
  modify (λ b, mkBuilder (_removed b) (_is_removed_sorted b) (b_moved b ++ [m]) (b_added b)).
Definition record_added (a : AddedRequest) : M BatchUpdateBuilder unit :=
  modify (λ b, mkBuilder (_removed b) (_is_removed_sorted b) (b_moved b) (b_added b ++ [a])).

Definition get_and_reset (size : nat) : M BatchUpdateBuilder (option BatchUpdate) := λ b,
  match _removed b, b_moved b, b_added b with
  | [], [], [] => (Ok None, mkBuilder [] false [] [])
  | r, m, a => (Ok (Some (mkBatchUpdate size r m a)), mkBuilder [] false [] [])
  end.

(** * Processors that keep an entry for some rows

    [LogitBiasLogitsProcessor] and [MinTokensLogitsProcessor] process the three kinds of
    changes in the same way; [entry] is what a new request leaves, if anything.  The
    second component says whether the tensors have to be built again. *)
Section entries.
Context {V : Type} (entry : BatchParams → list_ref → option V).
Implicit Types (d : gmap nat V).

Definition apply_added (x : gmap nat V * bool) (a : AddedRequest) : gmap nat V * bool :=
  let '(d, needs_update) := x in
  let '(index, params, output_tok_ids) := a in
  match entry params output_tok_ids with
  | Some v => (<[index := v]> d, true)
  | None => (delete index d, match d !! index with Some _ => true | None => needs_update end)
  end.

Definition apply_removed (x : gmap nat V * bool) (index : nat) : gmap nat V * bool :=
  let '(d, needs_update) := x in
  (delete index d, match d !! index with Some _ => true | None => needs_update end).

Definition apply_moved (x : gmap nat V * bool) (m : MovedRequest) : gmap nat V * bool :=
  let '(d, needs_update) := x in
  let '(a_index, b_index, direct) := m in
  let a_entry := d !! a_index in
  let d := delete a_index d in
  match direct with
  | UNIDIRECTIONAL =>
    match a_entry with
    | None => (delete b_index d, match d !! b_index with Some _ => true | None => needs_update end)
    | Some a => (<[b_index := a]> d, true)
    end
  | SWAP =>
    let b_entry := d !! b_index in
    let d := delete b_index d in
    let '(d, needs_update) := match b_entry with Some b => (<[a_index := b]> d, true) | None => (d, needs_update) end in
    match a_entry with Some a => (<[b_index := a]> d, true) | None => (d, needs_update) end
  end.

Definition replay (u : BatchUpdate) (d : gmap nat V) : gmap nat V * bool :=
  let '(d, needs_update) := foldl apply_added (d, false) (added u) in
  if decide (d = ∅) then (d, needs_update)
  else
    let x := foldl apply_removed (d, needs_update) (removed u) in
    foldl apply_moved x (moved u).
End entries.

(** [LogitBiasLogitsProcessor.update_state]: the biases, and the tensors' content when they
    are built again: the rows, tokens and values in the order of the dictionaries. *)
Definition bias_entry (params : BatchParams) (_ : list_ref) : option (gmap Z Q) :=
  match params with
  | Sampling p => match logit_bias p with Some lb => if decide (lb = ∅) then None else Some lb | None => None end
  | _ => None
  end.

Record LogitBiasLogitsProcessor : Type := mkLogitBias {
  biases : gmap nat (gmap Z Q);
  bias_tensors : list (nat * Z * Q)
}.
Definition bias_rows (d : gmap nat (gmap Z Q)) : list (nat * Z * Q) :=
  concat ((λ '(req, lb), (λ '(tok, x), (req, tok, x)) <$> map_to_list lb) <$> map_to_list d).
Definition logit_bias_update_state (u : option BatchUpdate) (p : LogitBiasLogitsProcessor) : LogitBiasLogitsProcessor :=
  match u with
  | None => p
  | Some u =>
    let '(d, needs_update) := replay bias_entry u (biases p) in
    mkLogitBias d (if needs_update then bias_rows d else bias_tensors p)
  end.

(** [MinTokensLogitsProcessor.update_state]; [out_len] is the length of a list of output
    tokens. *)
Record MinTokensLogitsProcessor : Type := mkMinTokens {
  min_toks : gmap nat (Z * list_ref * gset Z);
  min_tensors : list (nat * Z)
}.
Definition min_tokens_entry (out_len : list_ref → Z) (params : BatchParams) (out : list_ref) : option (Z * list_ref * gset Z) :=
  match params with
  | Sampling p =>
    if decide (min_tokens p ≠ 0 ∧ out_len out < min_tokens p)
    then Some (min_tokens p, out, all_stop_token_ids p) else None
  | _ => None
  end.
Definition min_rows (d : gmap nat (Z * list_ref * gset Z)) : list (nat * Z) :=
  concat ((λ '(req, (_, _, stop)), pair req <$> elements stop) <$> map_to_list d).
Definition min_tokens_update_state (out_len : list_ref → Z) (u : option BatchUpdate) (p : MinTokensLogitsProcessor)
    : MinTokensLogitsProcessor :=
  let '(d, needs_update) :=
    match u with Some u => replay (min_tokens_entry out_len) u (min_toks p) | None => (min_toks p, false) end in
  let attained (e : nat * (Z * list_ref * gset Z)) : Prop := out_len e.2.1.2 >= e.2.1.1 in
  let needs_update := needs_update || bool_decide (filter attained d ≠ ∅) in
  let d := filter (λ e, ¬ attained e) d in
  mkMinTokens d (if needs_update then min_rows d else min_tensors p).

(** * Min-p, which keeps a number for every row *)
Record MinPLogitsProcessor : Type := mkMinP {
  min_p_count : Z;
  min_p_cpu : list Q;
  min_p_slice : list Q
}.
Definition q_truthy (x : Q) : bool := negb (Qeq_bool x 0).
Definition min_p_of (params : BatchParams) : Q := match params with Sampling p => min_p p | _ => 0%Q end.
Definition row_of (l : list Q) (i : nat) : Q := default 0%Q (l !! i).

(** Rows beyond the array raise an IndexError in the code; [update_state] is only called
    with rows of the batch.  [to_float32] rounds on storing. *)
Section min_p.
Variable to_float32 : Q → Q.
Definition min_p_added (x : MinPLogitsProcessor * bool) (a : AddedRequest) : MinPLogitsProcessor * bool :=
  let '(p, needs_update) := x in
  let '(index, params, _) := a in
  let m := min_p_of params in
  let differs := negb (Qeq_bool (row_of (min_p_cpu p) index) m) in
  (mkMinP (if q_truthy m then min_p_count p + 1 else min_p_count p)
     (if differs then <[index := to_float32 m]> (min_p_cpu p) else min_p_cpu p) (min_p_slice p),
   needs_update || differs).
Definition min_p_removed (p : MinPLogitsProcessor) (index : nat) : MinPLogitsProcessor :=
  if q_truthy (row_of (min_p_cpu p) index)
  then mkMinP (min_p_count p - 1) (min_p_cpu p) (min_p_slice p) else p.
Definition min_p_moved (x : MinPLogitsProcessor * bool) (m : MovedRequest) : MinPLogitsProcessor * bool :=
  let '(p, needs_update) := x in
  let '(adx, bdx, direct) := m in
  let a := row_of (min_p_cpu p) adx in
  let b := row_of (min_p_cpu p) bdx in
  if Qeq_bool a b then (p, needs_update)
  else
    let l := <[bdx := a]> (min_p_cpu p) in
    (mkMinP (min_p_count p) (match direct with SWAP => <[adx := b]> l | UNIDIRECTIONAL => l end) (min_p_slice p), true).
Definition min_p_update_state (u : option BatchUpdate) (p : MinPLogitsProcessor) : MinPLogitsProcessor :=
  match u with
  | None => p
  | Some u =>
    let '(p, needs_update) := foldl min_p_added (p, false) (added u) in
    let '(p, needs_update) :=
      if decide (min_p_count p ≠ 0) then
        let needs_update := needs_update || negb (bool_decide (removed u = [])) in
        foldl min_p_moved (foldl min_p_removed p (removed u), needs_update) (moved u)
      else (p, needs_update) in
    if decide (min_p_count p ≠ 0 ∧ (needs_update = true ∨ length (min_p_slice p) ≠ batch_size u))
    then mkMinP (min_p_count p) (min_p_cpu p) (take (batch_size u) (min_p_cpu p)) else p
  end.
End min_p.

(** * The builder keeps its rows *)
Section builder_proofs.
Implicit Types (b : BatchUpdateBuilder) (i j : nat).

#[local] Instance descending_total : Total (flip le).
Proof. intros i j. unfold flip. lia. Qed.
#[local] Instance descending_trans : Transitive (flip le).
Proof. intros i j k. unfold flip. lia. Qed.

Definition builder_ok b : Prop := _is_removed_sorted b = true → StronglySorted (flip le) (_removed b).

Lemma descending_last_least (l : list nat) i :
  StronglySorted (flip le) l → last l = Some i → ∀ j, j ∈ l → (i <= j)%nat.
Proof.
  induction l as [|x l IH]; [done|]. intros [Hl Hx]%StronglySorted_inv Hi j Hj.
  destruct l as [|y l]; [cbn in Hi; injection Hi as ->; apply elem_of_cons in Hj as [->|Hj]; [lia|by apply not_elem_of_nil in Hj]|].
  cbn [last] in Hi. apply elem_of_cons in Hj as [->|Hj]; [|by apply IH].
  rewrite Forall_forall in Hx. change (flip le x i). apply Hx.
  by apply last_Some_elem_of.
Qed.

Lemma last_removelast (l : list nat) i : last l = Some i → l = removelast l ++ [i].
Proof. intros (l' & ->)%last_Some. by rewrite removelast_last. Qed.

Lemma _ensure_removed_sorted_spec b :
  builder_ok b → StronglySorted (flip le) (_removed (_ensure_removed_sorted b)) ∧ _removed (_ensure_removed_sorted b) ≡ₚ _removed b
  ∧ b_moved (_ensure_removed_sorted b) = b_moved b ∧ b_added (_ensure_removed_sorted b) = b_added b ∧ builder_ok (_ensure_removed_sorted b).
Proof.
  intros Hok. unfold _ensure_removed_sorted. destruct (_is_removed_sorted b) eqn:E; [by split_and!; auto|].
  assert (StronglySorted (flip le) (sort_descending (_removed b))) as Hs.
  { apply (StronglySorted_merge_sort (flip le)). }
  cbn. split_and!; [done|apply merge_sort_Permutation|done|done|]. by intros _.
Qed.

(** The least removed row. *)
Definition least_removed b (r : option nat) : Prop :=
  match r with
  | None => _removed b = []
  | Some i => i ∈ _removed b ∧ ∀ j, j ∈ _removed b → (i <= j)%nat
  end.

Lemma pop_removed_spec b :
  builder_ok b →
  wp pop_removed (λ r b', builder_ok b' ∧ b_moved b' = b_moved b ∧ b_added b' = b_added b ∧ least_removed b r ∧
    match r with None => b' = b | Some i => _removed b ≡ₚ i :: _removed b' end) b.
Proof.
  intros Hok. unfold pop_removed. apply wp_bind, wp_get. destruct (_removed b) as [|x l] eqn:E; [by apply wp_ret|].
  pose proof (_ensure_removed_sorted_spec b Hok) as (Hs & Hp & Hm & Ha & Hok'). wp_steps.
  set (b1 := _ensure_removed_sorted b) in *. rewrite E in Hp. destruct (last (_removed b1)) as [i|] eqn:Hi.
  2:{ apply last_None in Hi. rewrite Hi in Hp. by apply Permutation_nil_cons in Hp. }
  pose proof (last_removelast _ _ Hi) as Hl. split_and!; [|done|done| |].
  - intros _. cbn. rewrite Hl in Hs. by apply StronglySorted_app_1_l in Hs.
  - cbn. rewrite E. rewrite <- Hp. split; [by apply last_Some_elem_of|]. intros j Hj. rewrite <- Hp in Hj. by eapply descending_last_least.
  - cbn. rewrite <- Hp, Hl at 1. by rewrite Permutation_app_comm.
Qed.

Lemma peek_removed_spec b :
  builder_ok b →
  wp peek_removed (λ r b', builder_ok b' ∧ b_moved b' = b_moved b ∧ b_added b' = b_added b ∧ least_removed b r ∧ _removed b' ≡ₚ _removed b) b.
Proof.
  intros Hok. unfold peek_removed. apply wp_bind, wp_get. destruct (_removed b) as [|x l] eqn:E; [apply wp_ret; by rewrite E|].
  pose proof (_ensure_removed_sorted_spec b Hok) as (Hs & Hp & Hm & Ha & Hok'). wp_steps.
  set (b1 := _ensure_removed_sorted b) in *. rewrite E in Hp. destruct (last (_removed b1)) as [i|] eqn:Hi.
  2:{ apply last_None in Hi. rewrite Hi in Hp. by apply Permutation_nil_cons in Hp. }
  split_and!; try done. cbn. rewrite E. split; [rewrite <- Hp; by apply last_Some_elem_of|].
  intros j Hj. rewrite <- Hp in Hj. by eapply descending_last_least.
Qed.

Lemma read_removed_spec b :
  builder_ok b →
  wp read_removed (λ l b', builder_ok b' ∧ b_moved b' = b_moved b ∧ b_added b' = b_added b ∧ _removed b' = l ∧ l ≡ₚ _removed b) b.
Proof.
  intros Hok. pose proof (_ensure_removed_sorted_spec b Hok) as (Hs & Hp & Hm & Ha & Hok'). unfold read_removed. by wp_steps.
Qed.
End builder_proofs.
