(* ===== verification/InputBatch.v ===== *)
(** The persistent batch of the worker, from [v1/worker/gpu_input_batch.py]: requests come
    and go, and their data stays in rows that are moved as little as possible.

    The arrays with one entry per row, all of one length, are one array of records
    ([Row]); the attributes are grouped by how they are indexed.  A float is a rational,
    rounded by [to_float32] when a 32-bit array stores it. *)
From Stdlib Require Import ZArith QArith Lia.
From stdpp Require Import base strings countable gmap sets list sorting.
From S2P Require Import Prelude Request BlockTable BatchUpdate.
Local Open Scope Z_scope.

(** [CachedRequestState]; the output tokens are a list others hold too. *)
Record CachedRequestState : Type := mkCachedRequestState {
  req_id : string;
  prompt_token_ids : list Z;
  params_of : BatchParams;
  generator : option handle;
  block_ids : list (list Z);
  num_computed_tokens : Z;
  output_token_ids : list Z;
  output_ref : list_ref;
  lora_request : option LoRARequest;
  cached_mm_inputs : list handle;
  cached_mm_positions : list PlaceholderRange
}.
Definition cached_num_tokens (r : CachedRequestState) : Z := len (prompt_token_ids r) + len (output_token_ids r).
Definition get_token_id (r : CachedRequestState) (idx : Z) : outcome Z :=
  if decide (idx < len (prompt_token_ids r)) then py_index (prompt_token_ids r) idx
  else py_index (output_token_ids r) (idx - len (prompt_token_ids r)).

(** One row of the arrays. *)
Record Row : Type := mkRow {
  row_token_ids : list Z;
  row_num_tokens : Z;
  row_num_tokens_no_spec : Z;
  row_num_prompt_tokens : Z;
  row_num_computed_tokens : Z;
  row_temperature : Q;
  row_top_p : Q;
  row_top_k : Z;
  row_frequency_penalty : Q;
  row_presence_penalty : Q;
  row_repetition_penalty : Q;
  row_lora : Z
}.

Record BatchConfig : Type := mkBatchConfig {
  max_num_reqs : nat;
  max_model_len : nat;
  vocab_size : Z;
  is_spec_decode : bool
}.

(** What is indexed by rows. *)
Record Slots : Type := mkSlots {
  _req_ids : list (option string);
  req_output_token_ids : list (option list_ref);
  rows : list Row;
  block_table : MultiGroupBlockTable;
  generators : gmap nat handle;
  bad_words : gmap nat (list (list Z));
  allowed_token_ids_mask : option (list (list bool));
  logits_processing_needs_token_ids : list bool
}.

(** The log-probabilities of a prompt, of each position that is already computed. *)
Definition PromptLogprobs : Type := list (option handle).

(** What is indexed by request ids. *)
Record ReqSets : Type := mkReqSets {
  greedy_reqs : gset string;
  random_reqs : gset string;
  top_p_reqs : gset string;
  top_k_reqs : gset string;
  spec_decode_unsupported_reqs : gset string;
  frequency_penalties_reqs : gset string;
  presence_penalties_reqs : gset string;
  repetition_penalties_reqs : gset string;
  has_allowed_token_ids : gset string
}.
Record ReqDicts : Type := mkReqDicts {
  num_logprobs : gmap string Z;
  num_prompt_logprobs : gmap string Z;
  in_progress_prompt_logprobs_cpu : gmap string PromptLogprobs;
  pooling_params : gmap string PoolingParams
}.

Record InputBatch : Type := mkInputBatch {
  cfg : BatchConfig;
  req_id_to_index : gmap string nat;
  slots : Slots;
  sets : ReqSets;
  dicts : ReqDicts;
  lora_id_to_request_ids : gmap Z (gset string);
  lora_id_to_lora_request : gmap Z LoRARequest;
  batch_update_builder : BatchUpdateBuilder
}.

Definition set_index v b := mkInputBatch (cfg b) v (slots b) (sets b) (dicts b) (lora_id_to_request_ids b) (lora_id_to_lora_request b) (batch_update_builder b).
Definition set_slots v b := mkInputBatch (cfg b) (req_id_to_index b) v (sets b) (dicts b) (lora_id_to_request_ids b) (lora_id_to_lora_request b) (batch_update_builder b).
Definition set_sets v b := mkInputBatch (cfg b) (req_id_to_index b) (slots b) v (dicts b) (lora_id_to_request_ids b) (lora_id_to_lora_request b) (batch_update_builder b).
Definition set_dicts v b := mkInputBatch (cfg b) (req_id_to_index b) (slots b) (sets b) v (lora_id_to_request_ids b) (lora_id_to_lora_request b) (batch_update_builder b).
Definition set_loras v w b := mkInputBatch (cfg b) (req_id_to_index b) (slots b) (sets b) (dicts b) v w (batch_update_builder b).
Definition set_builder v b := mkInputBatch (cfg b) (req_id_to_index b) (slots b) (sets b) (dicts b) (lora_id_to_request_ids b) (lora_id_to_lora_request b) v.

Definition set_req_ids v s := mkSlots v (req_output_token_ids s) (rows s) (block_table s) (generators s) (bad_words s) (allowed_token_ids_mask s) (logits_processing_needs_token_ids s).
Definition set_outputs v s := mkSlots (_req_ids s) v (rows s) (block_table s) (generators s) (bad_words s) (allowed_token_ids_mask s) (logits_processing_needs_token_ids s).
Definition set_rows v s := mkSlots (_req_ids s) (req_output_token_ids s) v (block_table s) (generators s) (bad_words s) (allowed_token_ids_mask s) (logits_processing_needs_token_ids s).
Definition set_block_table v s := mkSlots (_req_ids s) (req_output_token_ids s) (rows s) v (generators s) (bad_words s) (allowed_token_ids_mask s) (logits_processing_needs_token_ids s).
Definition set_generators v s := mkSlots (_req_ids s) (req_output_token_ids s) (rows s) (block_table s) v (bad_words s) (allowed_token_ids_mask s) (logits_processing_needs_token_ids s).
Definition set_bad_words v s := mkSlots (_req_ids s) (req_output_token_ids s) (rows s) (block_table s) (generators s) v (allowed_token_ids_mask s) (logits_processing_needs_token_ids s).
Definition set_mask v s := mkSlots (_req_ids s) (req_output_token_ids s) (rows s) (block_table s) (generators s) (bad_words s) v (logits_processing_needs_token_ids s).
Definition set_needs v s := mkSlots (_req_ids s) (req_output_token_ids s) (rows s) (block_table s) (generators s) (bad_words s) (allowed_token_ids_mask s) v.

Definition set_row_tokens v r := mkRow v (row_num_tokens r) (row_num_tokens_no_spec r) (row_num_prompt_tokens r) (row_num_computed_tokens r) (row_temperature r) (row_top_p r) (row_top_k r) (row_frequency_penalty r) (row_presence_penalty r) (row_repetition_penalty r) (row_lora r).
Definition set_row_counts n nns np nc r := mkRow (row_token_ids r) n nns np nc (row_temperature r) (row_top_p r) (row_top_k r) (row_frequency_penalty r) (row_presence_penalty r) (row_repetition_penalty r) (row_lora r).
Definition set_row_sampling t p k f pr rep r := mkRow (row_token_ids r) (row_num_tokens r) (row_num_tokens_no_spec r) (row_num_prompt_tokens r) (row_num_computed_tokens r) t p k f pr rep (row_lora r).
Definition set_row_lora l r := mkRow (row_token_ids r) (row_num_tokens r) (row_num_tokens_no_spec r) (row_num_prompt_tokens r) (row_num_computed_tokens r) (row_temperature r) (row_top_p r) (row_top_k r) (row_frequency_penalty r) (row_presence_penalty r) (row_repetition_penalty r) l.

Section input_batch.
Variable to_float32 : Q → Q.
Implicit Types (b : InputBatch) (s : Slots) (p : SamplingParams).

Definition on_slots {A} (m : M Slots A) : M InputBatch A := zoom slots set_slots m.
Definition on_builder {A} (m : M BatchUpdateBuilder A) : M InputBatch A := zoom batch_update_builder set_builder m.
Definition on_blocks {A} (m : M MultiGroupBlockTable A) : M InputBatch A :=
  on_slots (zoom block_table set_block_table m).
(** [row[i]] is read and written. *)
Definition update_row (i : nat) (f : Row → outcome Row) : M InputBatch unit :=
  on_slots (s ← get; r ← lift_outcome (array_get (rows s) i); r' ← lift_outcome (f r);
            modify (set_rows (<[i := r']> (rows s)))).

Definition zero_row (max_model_len : nat) : Row := mkRow (replicate max_model_len 0) 0 0 0 0 0 0 0 0 0 0 0.
Definition InputBatch_init (c : BatchConfig) (max_num_batched_tokens : nat) (block_sizes : list Z) : InputBatch :=
  mkInputBatch c ∅
    (mkSlots [] [] (replicate (max_num_reqs c) (zero_row (max_model_len c)))
       (MultiGroupBlockTable_init (max_num_reqs c) (max_model_len c) max_num_batched_tokens block_sizes)
       ∅ ∅ None (replicate (max_num_reqs c) false))
    (mkReqSets ∅ ∅ ∅ ∅ ∅ ∅ ∅ ∅ ∅) (mkReqDicts ∅ ∅ ∅ ∅) ∅ ∅ BatchUpdateBuilder_init.

Definition num_reqs b : nat := base.size (req_id_to_index b).
Definition all_greedy b : bool := bool_decide (random_reqs (sets b) = ∅).
Definition all_random b : bool := bool_decide (greedy_reqs (sets b) = ∅).
Definition no_top_p b : bool := bool_decide (top_p_reqs (sets b) = ∅).
Definition no_top_k b : bool := bool_decide (top_k_reqs (sets b) = ∅).
Definition no_penalties b : bool :=
  bool_decide (presence_penalties_reqs (sets b) = ∅) && bool_decide (frequency_penalties_reqs (sets b) = ∅)
  && bool_decide (repetition_penalties_reqs (sets b) = ∅).
Definition no_prompt_logprob b : bool := bool_decide (num_prompt_logprobs (dicts b) = ∅).
Definition no_allowed_token_ids b : bool := bool_decide (has_allowed_token_ids (sets b) = ∅).

(** * Adding a request *)

Definition _get_next_add_index : M InputBatch nat :=
  r ← on_builder pop_removed;
  match r with Some i => mret i | None => gets num_reqs end.

Definition _register_add_request (request : CachedRequestState) : M InputBatch nat :=
  req_index ← _get_next_add_index;
  c ← gets cfg;
  assert_ (bool_decide (req_index < max_num_reqs c)%nat) ;;
  on_builder (record_added (req_index, params_of request, output_ref request)) ;;
  mret req_index.

(** [l.append(x)] when [i] is the length, and [l[i] = x] otherwise. *)
Definition place {A} (l : list A) (i : nat) (x : A) : outcome (list A) :=
  if decide (i = length l) then Ok (l ++ [x]) else array_set l i x.

(** The prompt and the output tokens, and the four counts. *)
Definition write_tokens (request : CachedRequestState) (r : Row) : outcome Row :=
  toks ← assign_slice (row_token_ids r) 0 (prompt_token_ids request);
  toks ← assign_slice toks (length (prompt_token_ids request)) (output_token_ids request);
  Ok (set_row_counts (cached_num_tokens request) (cached_num_tokens request) (len (prompt_token_ids request))
        (num_computed_tokens request) (set_row_tokens toks r)).

Definition _SAMPLING_EPS : Q := 1 # 100000.
Definition q_lt (x y : Q) : bool := negb (Qle_bool y x).
Definition is_greedy p : bool := q_lt (temperature p) _SAMPLING_EPS.
Definition is_spec_decode_unsupported p : bool :=
  q_truthy (frequency_penalty p) || q_truthy (presence_penalty p) || negb (Qeq_bool (repetition_penalty p) 1)
  || q_lt _SAMPLING_EPS (min_p p) || bool_decide (is_Some (logprobs p)).

Definition add_if (c : bool) (id : string) (X : gset string) : gset string := if c then {[id]} ∪ X else X.
Definition effective_top_k (c : BatchConfig) p : Z :=
  if decide (0 < top_k p < vocab_size c) then top_k p else vocab_size c.
(** The truth of an optional list. *)
Definition given {A} (o : option (list A)) : bool := match o with Some (_ :: _) => true | _ => false end.

Definition sampling_sets (c : BatchConfig) (id : string) p (x : ReqSets) : ReqSets :=
  mkReqSets (add_if (is_greedy p) id (greedy_reqs x)) (add_if (negb (is_greedy p)) id (random_reqs x))
    (add_if (q_lt (top_p p) 1) id (top_p_reqs x)) (add_if (bool_decide (0 < top_k p < vocab_size c)) id (top_k_reqs x))
    (add_if (is_spec_decode c && is_spec_decode_unsupported p) id (spec_decode_unsupported_reqs x))
    (add_if (q_truthy (frequency_penalty p)) id (frequency_penalties_reqs x))
    (add_if (q_truthy (presence_penalty p)) id (presence_penalties_reqs x))
    (add_if (negb (Qeq_bool (repetition_penalty p) 1)) id (repetition_penalties_reqs x))
    (add_if (given (allowed_token_ids p)) id (has_allowed_token_ids x)).

Definition sampling_row (c : BatchConfig) p (r : Row) : Row :=
  set_row_sampling (if is_greedy p then (-1)%Q else to_float32 (temperature p)) (to_float32 (top_p p))
    (effective_top_k c p) (to_float32 (frequency_penalty p)) (to_float32 (presence_penalty p))
    (to_float32 (repetition_penalty p)) r.

(** A row of the mask that forbids everything but the given tokens. *)
Definition allow_row (vocab : nat) (ids : list Z) : outcome (list bool) :=
  foldl (λ acc t, row ← acc;
    let j := if decide (t < 0) then Z.of_nat vocab + t else t in
    if decide (0 <= j) then array_set row (Z.to_nat j) false else Raise IndexError) (Ok (replicate vocab true)) ids.

Definition write_allowed (req_index : nat) (o : option (list Z)) : M InputBatch unit :=
  match o with
  | Some ((_ :: _) as ids) =>
    c ← gets cfg;
    on_slots (modify (λ s, match allowed_token_ids_mask s with
                           | Some _ => s
                           | None => set_mask (Some (replicate (max_num_reqs c) (replicate (Z.to_nat (vocab_size c)) false))) s
                           end)) ;;
    row ← lift_outcome (allow_row (Z.to_nat (vocab_size c)) ids);
    s ← gets slots;
    m ← lift_outcome (array_set (default [] (allowed_token_ids_mask s)) req_index row);
    on_slots (modify (set_mask (Some m)))
  | _ => mret tt
  end.

Definition opt_insert {K V} `{Countable K} (k : K) (o : option V) (d : gmap K V) : gmap K V :=
  match o with Some v => <[k := v]> d | None => d end.

Definition add_sampling (req_index : nat) (request : CachedRequestState) p : M InputBatch unit :=
  let id := req_id request in
  c ← gets cfg;
  modify (λ b, set_sets (sampling_sets c id p (sets b)) b) ;;
  update_row req_index (λ r, Ok (sampling_row c p r)) ;;
  on_slots (modify (λ s, set_generators (opt_insert req_index (generator request) (generators s)) s)) ;;
  modify (λ b, let d := dicts b in
    set_dicts (mkReqDicts (opt_insert id (logprobs p) (num_logprobs d)) (opt_insert id (prompt_logprobs p) (num_prompt_logprobs d))
                 (in_progress_prompt_logprobs_cpu d) (pooling_params d)) b) ;;
  write_allowed req_index (allowed_token_ids p) ;;
  match bad_words_token_ids p with
  | Some ((_ :: _) as l) => on_slots (modify (λ s, set_bad_words (<[req_index := l]> (bad_words s)) s))
  | _ => mret tt
  end.

Definition add_pooling (req_index : nat) (id : string) (p : PoolingParams) : M InputBatch unit :=
  modify (λ b, let d := dicts b in
    set_dicts (mkReqDicts (num_logprobs d) (num_prompt_logprobs d) (in_progress_prompt_logprobs_cpu d)
                 (<[id := p]> (pooling_params d))) b) ;;
  on_slots (s ← get; l ← lift_outcome (array_set (logits_processing_needs_token_ids s) req_index (requires_token_ids p));
            modify (set_needs l)).

Definition add_lora (req_index : nat) (id : string) (l : option LoRARequest) : M InputBatch unit :=
  match l with
  | Some l =>
    let lora_id := lora_int_id l in
    update_row req_index (λ r, Ok (set_row_lora lora_id r)) ;;
    modify (λ b, set_loras (<[lora_id := {[id]} ∪ default ∅ (lora_id_to_request_ids b !! lora_id)]> (lora_id_to_request_ids b))
                   (<[lora_id := l]> (lora_id_to_lora_request b)) b)
  | None => update_row req_index (λ r, Ok (set_row_lora 0 r))
  end.

Definition add_request (request : CachedRequestState) : M InputBatch nat :=
  req_index ← _register_add_request request;
  let id := req_id request in
  on_slots (s ← get; l ← lift_outcome (place (_req_ids s) req_index (Some id)); modify (set_req_ids l)) ;;
  on_slots (s ← get; l ← lift_outcome (place (req_output_token_ids s) req_index (Some (output_ref request)));
            modify (set_outputs l)) ;;
  modify (λ b, set_index (<[id := req_index]> (req_id_to_index b)) b) ;;
  update_row req_index (write_tokens request) ;;
  on_blocks (multi_add_row (block_ids request) req_index) ;;
  match params_of request with
  | Sampling p => add_sampling req_index request p
  | Pooling p => add_pooling req_index id p
  | NoParams => raise NotImplementedError
  end ;;
  add_lora req_index id (lora_request request) ;;
  mret req_index.

(** * Removing a request *)
Definition discard_sets (id : string) (x : ReqSets) : ReqSets :=
  mkReqSets (greedy_reqs x ∖ {[id]}) (random_reqs x ∖ {[id]}) (top_p_reqs x ∖ {[id]}) (top_k_reqs x ∖ {[id]})
    (spec_decode_unsupported_reqs x ∖ {[id]}) (frequency_penalties_reqs x ∖ {[id]}) (presence_penalties_reqs x ∖ {[id]})
    (repetition_penalties_reqs x ∖ {[id]}) (has_allowed_token_ids x ∖ {[id]}).
Definition discard_dicts (id : string) (d : ReqDicts) : ReqDicts :=
  mkReqDicts (delete id (num_logprobs d)) (delete id (num_prompt_logprobs d))
    (delete id (in_progress_prompt_logprobs_cpu d)) (delete id (pooling_params d)).

Definition remove_lora (req_index : nat) (id : string) : M InputBatch unit :=
  b ← get;
  r ← lift_outcome (array_get (rows (slots b)) req_index);
  let lora_id := row_lora r in
  if decide (lora_id = 0) then mret tt
  else
    match lora_id_to_request_ids b !! lora_id with
    | None => raise KeyError
    | Some ids =>
      let ids := ids ∖ {[id]} in
      (if decide (ids = ∅) then
         if decide (is_Some (lora_id_to_lora_request b !! lora_id)) then
           modify (set_loras (delete lora_id (lora_id_to_request_ids b)) (delete lora_id (lora_id_to_lora_request b)))
         else raise KeyError
       else modify (set_loras (<[lora_id := ids]> (lora_id_to_request_ids b)) (lora_id_to_lora_request b))) ;;
      update_row req_index (λ r, Ok (set_row_lora 0 r))
    end.

(** [mask[i].fill_(False)] when there is a mask. *)
Definition clear_mask_row (i : nat) : M InputBatch unit :=
  s ← gets slots;
  match allowed_token_ids_mask s with
  | None => mret tt
  | Some m =>
    r ← lift_outcome (array_get m i);
    on_slots (modify (set_mask (Some (<[i := (λ _, false) <$> r]> m))))
  end.

Definition remove_request (id : string) : M InputBatch (option nat) :=
  b ← get;
  match req_id_to_index b !! id with
  | None => mret None
  | Some req_index =>
    modify (λ b, set_index (delete id (req_id_to_index b)) b) ;;
    on_builder (removed_append req_index) ;;
    on_slots (s ← get; l ← lift_outcome (array_set (_req_ids s) req_index None); modify (set_req_ids l)) ;;
    on_slots (s ← get; l ← lift_outcome (array_set (req_output_token_ids s) req_index None); modify (set_outputs l)) ;;
    modify (λ b, set_sets (discard_sets id (sets b)) b) ;;
    on_slots (modify (λ s, set_generators (delete req_index (generators s)) s)) ;;
    modify (λ b, set_dicts (discard_dicts id (dicts b)) b) ;;
    remove_lora req_index id ;;
    clear_mask_row req_index ;;
    on_slots (modify (λ s, set_bad_words (delete req_index (bad_words s)) s)) ;;
    mret (Some req_index)
  end.

(** * Moving rows *)

(** [l[i], l[j] = l[j], l[i]]. *)
Definition swap_entries {A} (l : list A) (i j : nat) : outcome (list A) :=
  x ← array_get l i; y ← array_get l j; Ok (<[j := x]> (<[i := y]> l)).
(** The same for the rows of a tensor, whose rows are views: the first assignment has
    changed the row when the second one reads it. *)
Definition swap_views {A} (m : list (list A)) (i j : nat) : outcome (list (list A)) :=
  array_get m i ;;
  y ← array_get m j;
  let m := <[i := y]> m in
  x ← array_get m i;
  Ok (<[j := x]> m).
(** [swap_dict_values]. *)
Definition swap_dict_values {V} (d : gmap nat V) (key1 key2 : nat) : gmap nat V :=
  let v1 := d !! key1 in
  let v2 := d !! key2 in
  let d := match v1 with Some v => <[key2 := v]> d | None => delete key2 d end in
  match v2 with Some v => <[key1 := v]> d | None => delete key1 d end.

Definition swap_mask_rows (i1 i2 : nat) : M InputBatch unit :=
  s ← gets slots;
  match allowed_token_ids_mask s with
  | Some m => m ← lift_outcome (swap_views m i1 i2); on_slots (modify (set_mask (Some m)))
  | None => mret tt
  end.

Definition swap_states (i1 i2 : nat) : M InputBatch unit :=
  on_builder (record_moved (i1, i2, SWAP)) ;;
  s ← gets slots;
  old_id_i1 ← lift_outcome (array_get (_req_ids s) i1);
  old_id_i2 ← lift_outcome (array_get (_req_ids s) i2);
  on_slots (l ← lift_outcome (swap_entries (_req_ids s) i1 i2); modify (set_req_ids l)) ;;
  on_slots (l ← lift_outcome (swap_entries (req_output_token_ids s) i1 i2); modify (set_outputs l)) ;;
  match old_id_i1, old_id_i2 with
  | Some id1, Some id2 =>
    b ← get;
    i1' ← lift_outcome (match req_id_to_index b !! id1 with Some i => Ok i | None => Raise KeyError end);
    i2' ← lift_outcome (match req_id_to_index b !! id2 with Some i => Ok i | None => Raise KeyError end);
    modify (set_index (<[id2 := i1']> (<[id1 := i2']> (req_id_to_index b)))) ;;
    on_slots (l ← lift_outcome (swap_entries (rows s) i1 i2); modify (set_rows l)) ;;
    on_slots (modify (λ s, set_generators (swap_dict_values (generators s) i1 i2) s)) ;;
    on_slots (modify (λ s, set_bad_words (swap_dict_values (bad_words s) i1 i2) s)) ;;
    swap_mask_rows i1 i2 ;;
    on_blocks (multi_swap_row i1 i2)
  | _, _ => raise AssertionError
  end.

(** The assignments of one row to another in [condense]; of the tokens only the valid
    ones are copied. *)
Definition move_row_data (from to : Row) : outcome Row :=
  toks ← assign_slice (row_token_ids to) 0 (take (Z.to_nat (row_num_tokens from)) (row_token_ids from));
  Ok (mkRow toks (row_num_tokens from) (row_num_tokens_no_spec from) (row_num_prompt_tokens from)
        (row_num_computed_tokens from) (row_temperature from) (row_top_p from) (row_top_k from)
        (row_frequency_penalty from) (row_presence_penalty from) (row_repetition_penalty from) (row_lora from)).

(** [d.pop(i)] and, when there was an entry, [d[j] = entry]. *)
Definition move_entry {V} (d : gmap nat V) (i j : nat) : gmap nat V :=
  match d !! i with Some v => <[j := v]> (delete i d) | None => d end.

(** [mask[empty_index] = mask[last_req_index]]; the source row keeps its mask. *)
Definition copy_mask_row (last_req_index empty_index : nat) : M InputBatch unit :=
  s ← gets slots;
  match allowed_token_ids_mask s with
  | Some m =>
    r ← lift_outcome (array_get m last_req_index);
    m ← lift_outcome (array_set m empty_index r);
    on_slots (modify (set_mask (Some m)))
  | None => mret tt
  end.

Definition move_request (last_req_index empty_index : nat) : M InputBatch unit :=
  on_builder (record_moved (last_req_index, empty_index, UNIDIRECTIONAL)) ;;
  s ← gets slots;
  id ← lift_outcome (array_get (_req_ids s) last_req_index);
  out ← lift_outcome (array_get (req_output_token_ids s) last_req_index);
  match id with
  | None => raise AssertionError
  | Some id =>
    on_slots (l ← lift_outcome (array_set (_req_ids s) empty_index (Some id));
              l ← lift_outcome (array_set l last_req_index None); modify (set_req_ids l)) ;;
    on_slots (l ← lift_outcome (array_set (req_output_token_ids s) empty_index out);
              l ← lift_outcome (array_set l last_req_index None); modify (set_outputs l)) ;;
    modify (λ b, set_index (<[id := empty_index]> (req_id_to_index b)) b) ;;
    from ← lift_outcome (array_get (rows s) last_req_index);
    update_row empty_index (move_row_data from) ;;
    on_blocks (multi_move_row last_req_index empty_index) ;;
    on_slots (modify (λ s, set_generators (move_entry (generators s) last_req_index empty_index) s)) ;;
    copy_mask_row last_req_index empty_index ;;
    on_slots (modify (λ s, set_bad_words (move_entry (bad_words s) last_req_index empty_index) s))
  end.

(** [while last_req_index in empty_req_indices: last_req_index -= 1]. *)
Fixpoint skip_empty (last_req_index : nat) (empty : list nat) : nat :=
  if decide (last_req_index ∈ empty) then
    match last_req_index with O => O | S i => skip_empty i empty end
  else last_req_index.

(** [while empty_req_indices]; the fuel is the number of empty rows and one more. *)
Fixpoint condense_loop (fuel : nat) (last_req_index : nat) : M InputBatch unit :=
  match fuel with
  | O => raise OutOfFuel
  | S fuel =>
    empty ← on_builder read_removed;
    match empty with
    | [] => mret tt
    | _ =>
      let last_req_index := skip_empty last_req_index empty in
      empty_index ← on_builder peek_removed;
      match empty_index with
      | None => raise AssertionError
      | Some empty_index =>
        if decide (last_req_index <= empty_index)%nat then mret tt
        else
          on_builder pop_removed ;;
          move_request last_req_index empty_index ;;
          condense_loop fuel (pred last_req_index)
      end
    end
  end.

Definition condense : M InputBatch unit :=
  empty ← on_builder read_removed;
  match empty with
  | [] => mret tt
  | _ =>
    n ← gets num_reqs;
    if decide (n = 0%nat) then
      on_slots (modify (set_req_ids [])) ;; on_slots (modify (set_outputs []))
    else
      condense_loop (S (length empty)) (n + length empty - 1) ;;
      n ← gets num_reqs;
      on_slots (modify (λ s, set_req_ids (take n (_req_ids s)) s)) ;;
      on_slots (modify (λ s, set_outputs (take n (req_output_token_ids s)) s))
  end.

(** The batch's part of [refresh_metadata]: the update the logits processors get. *)
Definition take_batch_update : M InputBatch (option BatchUpdate) :=
  n ← gets num_reqs; on_builder (get_and_reset n).

(** [make_lora_inputs]: the adapter of each request, of each token, and all adapters. *)
Definition make_lora_inputs (num_scheduled_tokens : list nat) b : list Z * list Z * list LoRARequest :=
  let req_lora_mapping := row_lora <$> take (num_reqs b) (rows (slots b)) in
  (req_lora_mapping, concat (zip_with (λ l n, replicate n l) req_lora_mapping num_scheduled_tokens),
   (map_to_list (lora_id_to_lora_request b)).*2).
End input_batch.
