(* ===== verification/InputBatchFacts.v ===== *)
(** The invariant of the persistent batch, the requests it shows to the model, and what
    adding and removing a request does to them. *)
From Stdlib Require Import ZArith QArith Lia.
From stdpp Require Import base strings countable gmap sets list sorting.
From S2P Require Import Prelude Request BlockTable BatchUpdate InputBatch.
Local Open Scope Z_scope.

(** * Which rows are occupied *)
Section occupancy.
Implicit Types (ix : gmap string nat) (ids : list (option string)) (removed : list nat).

Definition index_ok ix ids : Prop := ∀ id i, ix !! id = Some i ↔ ids !! i = Some (Some id).
Definition holes_ok removed ids : Prop := NoDup removed ∧ ∀ i, i ∈ removed ↔ ids !! i = Some None.
Definition keys_ok {V} (d : gmap nat V) ids : Prop := ∀ i, is_Some (d !! i) → ∃ id, ids !! i = Some (Some id).
Definition dense ids : Prop := ∀ i, ids !! i ≠ Some None.

Lemma index_rows_NoDup ix ids : index_ok ix ids → NoDup (map_to_list ix).*2.
Proof.
  intros Hix. apply NoDup_fmap_2_strong; [|apply NoDup_map_to_list].
  intros [id1 i1] [id2 i2] H1%elem_of_map_to_list H2%elem_of_map_to_list Heq. cbn in Heq. subst i2.
  apply Hix in H1, H2. by simplify_eq.
Qed.
Lemma index_rows_elem ix ids i : index_ok ix ids → i ∈ (map_to_list ix).*2 ↔ ∃ id, ids !! i = Some (Some id).
Proof.
  intros Hix. rewrite list_elem_of_fmap. split.
  - intros ([id j] & -> & H%elem_of_map_to_list). exists id. by apply Hix.
  - intros [id H]. exists (id, i). split; [done|]. by apply elem_of_map_to_list, Hix.
Qed.
Lemma index_rows_length ix : length (map_to_list ix).*2 = base.size ix.
Proof. rewrite length_fmap. by rewrite length_map_to_list. Qed.

(** The rows are those of the requests and the holes. *)
Lemma rows_counted ix ids removed :
  index_ok ix ids → holes_ok removed ids → length ids = (base.size ix + length removed)%nat.
Proof.
  intros Hix [Hnd Hr]. rewrite <- (index_rows_length ix), <- length_app, <- (length_seq (length ids) 0).
  apply Permutation_length, NoDup_Permutation; [apply NoDup_seq| |].
  - apply NoDup_app. split_and!; [by eapply index_rows_NoDup| |done].
    intros i Hi Hi'. apply (index_rows_elem _ _ _ Hix) in Hi as [id Hid]. apply Hr in Hi'. congruence.
  - intros i. rewrite elem_of_app, (index_rows_elem _ _ _ Hix), Hr, elem_of_seq. split.
    + intros [_ Hi]. cbn in Hi. destruct (lookup_lt_is_Some_2 ids i Hi) as [[id|] ?]; [left; by exists id|by right].
    + intros [[id Hi]|Hi]; apply lookup_lt_Some in Hi; lia.
Qed.

(** Where the occupied rows are an initial segment, they are the first ones. *)
Lemma dense_prefix ix ids L :
  index_ok ix ids → (∀ i, (∃ id, ids !! i = Some (Some id)) ↔ (i < L)%nat) → L = base.size ix.
Proof.
  intros Hix HL. rewrite <- (index_rows_length ix), <- (length_seq L 0).
  apply Permutation_length, NoDup_Permutation; [apply NoDup_seq|by eapply index_rows_NoDup|].
  intros i. rewrite (index_rows_elem _ _ _ Hix), HL, elem_of_seq. lia.
Qed.

Lemma index_ok_lt ix ids id i : index_ok ix ids → ix !! id = Some i → (i < length ids)%nat.
Proof. intros Hix Hi. apply Hix in Hi. by eapply lookup_lt_Some. Qed.

Lemma holes_ok_add removed ids i id :
  holes_ok removed ids → ids !! i = Some (Some id) → holes_ok (removed ++ [i]) (<[i := None]> ids).
Proof.
  intros [Hnd Hr] Hi. pose proof (lookup_lt_Some _ _ _ Hi). split.
  - apply NoDup_app. split_and!; [done| |apply NoDup_singleton]. intros j Hj ->%list_elem_of_singleton. apply Hr in Hj. congruence.
  - intros j. rewrite elem_of_app, list_elem_of_singleton, Hr, list_lookup_insert_Some. destruct (decide (i = j)) as [->|Hne]; naive_solver.
Qed.
Lemma holes_ok_fill removed removed' ids ids' i id :
  holes_ok removed ids → removed ≡ₚ i :: removed' → ids' !! i = Some (Some id) → (∀ j, j ≠ i → ids' !! j = ids !! j) →
  holes_ok removed' ids'.
Proof.
  intros [Hnd Hr] Hp Hi Hj. rewrite Hp in Hnd. apply NoDup_cons in Hnd as [Hni Hnd]. split; [done|]. intros j.
  destruct (decide (j = i)) as [->|Hne]; [rewrite Hi; by split|]. rewrite (Hj j Hne), <- Hr, Hp, elem_of_cons. naive_solver.
Qed.
(** ** One row gets a request, or loses it *)
Lemma index_ok_insert ix ids ids' id i :
  index_ok ix ids → ix !! id = None → (∀ id', ids !! i ≠ Some (Some id')) →
  ids' !! i = Some (Some id) → (∀ j, j ≠ i → ids' !! j = ids !! j) → index_ok (<[id := i]> ix) ids'.
Proof.
  intros Hix Hid Hi Hi' Hj id' j. rewrite lookup_insert_Some. destruct (decide (j = i)) as [->|Hne].
  - rewrite Hi'. split; [intros [[<- _]|[_ H]]; [done|]|intros [= <-]; by left]. apply Hix in H. by destruct (Hi id').
  - rewrite (Hj j Hne), <- (Hix id' j). split; [intros [[_ ?]|[_ ?]]; [congruence|done]|]. intros H. right. split; [|done].
    intros <-. congruence.
Qed.
Lemma index_ok_delete ix ids id i :
  index_ok ix ids → ix !! id = Some i → index_ok (delete id ix) (<[i := None]> ids).
Proof.
  intros Hix Hid id' j. pose proof (index_ok_lt _ _ _ _ Hix Hid). rewrite lookup_delete_Some, (Hix id' j). destruct (decide (j = i)) as [->|Hne].
  - rewrite list_lookup_insert_eq by done. apply Hix in Hid. split; [intros [? ?]; congruence|done].
  - rewrite list_lookup_insert_ne by done. split; [by intros []|]. intros H'. split; [|done].
    intros <-. apply Hix in H'. congruence.
Qed.
(** A request moves from the row [i] to the hole [j]. *)
Lemma index_ok_move ix ids id i j :
  index_ok ix ids → ids !! i = Some (Some id) → ids !! j = Some None →
  index_ok (<[id := j]> ix) (<[i := None]> (<[j := Some id]> ids)).
Proof.
  intros Hix Hi Hj. assert (i ≠ j) as Hij by congruence. pose proof (lookup_lt_Some _ _ _ Hi). pose proof (lookup_lt_Some _ _ _ Hj).
  rewrite <- insert_delete_eq. apply index_ok_insert with (<[i := None]> ids).
  - apply index_ok_delete; [done|]. by apply Hix.
  - apply lookup_delete_eq.
  - intros id'. rewrite list_lookup_insert_ne by done. congruence.
  - rewrite list_lookup_insert_ne by done. by rewrite list_lookup_insert_eq.
  - intros k Hk. destruct (decide (k = i)) as [->|]; [by rewrite !list_lookup_insert_eq by (rewrite ?length_insert; done)|].
    by rewrite !list_lookup_insert_ne by done.
Qed.
(** Two requests exchange their rows. *)
Lemma index_ok_swap ix ids id1 id2 i j :
  index_ok ix ids → ids !! i = Some (Some id1) → ids !! j = Some (Some id2) →
  index_ok (<[id2 := i]> (<[id1 := j]> ix)) (<[j := Some id1]> (<[i := Some id2]> ids)).
Proof.
  intros Hix Hi Hj. pose proof (lookup_lt_Some _ _ _ Hi). pose proof (lookup_lt_Some _ _ _ Hj). intros id k.
  pose proof (Hix id1 i) as [_ H1]. specialize (H1 Hi). pose proof (Hix id2 j) as [_ H2]. specialize (H2 Hj). pose proof (Hix id k) as Hk.
  destruct (decide (i = j)) as [->|Hij].
  - assert (id1 = id2) as -> by congruence. rewrite !list_insert_id by (rewrite ?list_insert_id; congruence).
    rewrite !insert_id by (rewrite ?insert_id; congruence). done.
  - assert (id1 ≠ id2) as Hids by congruence. rewrite !lookup_insert_Some, !list_lookup_insert_Some, length_insert.
    naive_solver.
Qed.

Lemma keys_ok_insert {V} (d : gmap nat V) ids ids' i id v :
  keys_ok d ids → ids' !! i = Some (Some id) → (∀ j, j ≠ i → ids' !! j = ids !! j) → keys_ok (<[i := v]> d) ids'.
Proof.
  intros Hd Hi Hj j. destruct (decide (j = i)) as [->|Hne]; [intros _; by exists id|].
  rewrite lookup_insert_ne by done. rewrite (Hj j Hne). apply Hd.
Qed.
Lemma keys_ok_keep {V} (d : gmap nat V) ids ids' i id :
  keys_ok d ids → ids' !! i = Some (Some id) → (∀ j, j ≠ i → ids' !! j = ids !! j) → keys_ok d ids'.
Proof.
  intros Hd Hi Hj j Hs. destruct (decide (j = i)) as [->|Hne]; [by exists id|]. rewrite (Hj j Hne). by apply Hd.
Qed.
Lemma keys_ok_delete {V} (d : gmap nat V) ids i : keys_ok d ids → keys_ok (delete i d) (<[i := None]> ids).
Proof.
  intros Hd j [v Hv]. apply lookup_delete_Some in Hv as [Hne Hv]. rewrite list_lookup_insert_ne by done. apply Hd. by exists v.
Qed.
Lemma keys_ok_free {V} (d : gmap nat V) ids i : keys_ok d ids → (∀ id, ids !! i ≠ Some (Some id)) → d !! i = None.
Proof. intros Hd Hi. apply eq_None_not_Some. intros Hs. destruct (Hd i Hs) as [id ?]. by destruct (Hi id). Qed.
Lemma keys_ok_move {V} (d : gmap nat V) ids id i j :
  keys_ok d ids → ids !! i = Some (Some id) → ids !! j = Some None →
  keys_ok (move_entry d i j) (<[i := None]> (<[j := Some id]> ids)).
Proof.
  intros Hd Hi Hj. assert (i ≠ j) as Hij by congruence. pose proof (lookup_lt_Some _ _ _ Hj).
  assert (keys_ok (delete i d) (<[i := None]> (<[j := Some id]> ids))) as Hk.
  { apply keys_ok_delete. apply (keys_ok_keep d ids _ j id); [done|by rewrite list_lookup_insert_eq|].
    intros k Hk. by rewrite list_lookup_insert_ne. }
  unfold move_entry. destruct (d !! i) as [v|] eqn:Hv; [|by rewrite delete_id in Hk].
  apply (keys_ok_insert _ (<[i := None]> (<[j := Some id]> ids)) _ j id); [done| |done].
  rewrite list_lookup_insert_ne by done. by rewrite list_lookup_insert_eq.
Qed.
Lemma keys_ok_swap {V} (d : gmap nat V) ids id1 id2 i j :
  keys_ok d ids → ids !! i = Some (Some id1) → ids !! j = Some (Some id2) →
  keys_ok (swap_dict_values d i j) (<[j := Some id1]> (<[i := Some id2]> ids)).
Proof.
  intros Hd Hi Hj k Hs. pose proof (lookup_lt_Some _ _ _ Hi). pose proof (lookup_lt_Some _ _ _ Hj).
  destruct (decide (k = j)) as [->|Hkj]; [exists id1; rewrite list_lookup_insert_eq; by rewrite ?length_insert|].
  destruct (decide (k = i)) as [->|Hki]; [exists id2; rewrite list_lookup_insert_ne, list_lookup_insert_eq; done|].
  rewrite !list_lookup_insert_ne by done. apply Hd. destruct Hs as [v Hv]. exists v. unfold swap_dict_values in Hv.
  destruct (d !! i), (d !! j);
    repeat first [rewrite lookup_insert_ne in Hv by congruence | rewrite lookup_delete_ne in Hv by congruence]; done.
Qed.
End occupancy.

(** * What a row and an identifier show *)

Definition valid_tokens (r : Row) : list Z := take (Z.to_nat (row_num_tokens r)) (row_token_ids r).
Definition trim (r : Row) : Row := set_row_tokens (valid_tokens r) r.

Record RowView : Type := mkRowView {
  rv_row : Row;
  rv_blocks : list (list Z);
  rv_generator : option handle;
  rv_bad_words : option (list (list Z));
  rv_output : option list_ref
}.
Definition row_view (s : Slots) (i : nat) : option RowView :=
  r ← rows s !! i;
  Some (mkRowView (trim r) (group_blocks (block_table s) i) (generators s !! i) (bad_words s !! i) (mjoin (req_output_token_ids s !! i))).

Lemma row_view_mk ids outs rs ts g w m needs i :
  row_view (mkSlots ids outs rs ts g w m needs) i
  = (r ← rs !! i; Some (mkRowView (trim r) (group_blocks ts i) (g !! i) (w !! i) (mjoin (outs !! i)))).
Proof. done. Qed.

Record IdView : Type := mkIdView {
  iv_flags : list bool;
  iv_logprobs : option Z;
  iv_prompt_logprobs : option Z;
  iv_in_progress : option PromptLogprobs;
  iv_pooling : option PoolingParams
}.
Definition id_flags (x : ReqSets) (id : string) : list bool :=
  [bool_decide (id ∈ greedy_reqs x); bool_decide (id ∈ random_reqs x); bool_decide (id ∈ top_p_reqs x);
   bool_decide (id ∈ top_k_reqs x); bool_decide (id ∈ spec_decode_unsupported_reqs x);
   bool_decide (id ∈ frequency_penalties_reqs x); bool_decide (id ∈ presence_penalties_reqs x);
   bool_decide (id ∈ repetition_penalties_reqs x); bool_decide (id ∈ has_allowed_token_ids x)].
Definition id_view (x : ReqSets) (d : ReqDicts) (id : string) : IdView :=
  mkIdView (id_flags x id) (num_logprobs d !! id) (num_prompt_logprobs d !! id)
    (in_progress_prompt_logprobs_cpu d !! id) (pooling_params d !! id).
Definition blank_id : IdView := mkIdView (replicate 9 false) None None None None.

(** A pooling request leaves the sampling parameters of its row as they are: they are not
    part of what it shows. *)
Definition blank_sampling (v : RowView) : RowView :=
  mkRowView (set_row_sampling 0 0 0 0 0 0 (rv_row v)) (rv_blocks v) (rv_generator v) (rv_bad_words v) (rv_output v).
Definition visible_row (iv : IdView) (v : RowView) : RowView :=
  match iv_pooling iv with Some _ => blank_sampling v | None => v end.

(** The requests of the batch with what is kept for them, in the row and under the
    identifier; the rows of the mask of allowed tokens are treated apart ([masks_follow] of
    InputBatchMoves.v), and the flags of the requests that need token ids follow no request. *)
Definition shown (b : InputBatch) : gmap string (RowView * IdView) :=
  map_imap (λ id i, let iv := id_view (sets b) (dicts b) id in v ← row_view (slots b) i; Some (visible_row iv v, iv)) (req_id_to_index b).

(** What a request that has been added shows. *)
Definition request_shown (to_float32 : Q → Q) (c : BatchConfig) (request : CachedRequestState) : RowView * IdView :=
  let lora := match lora_request request with Some l => lora_int_id l | None => 0 end in
  let n := cached_num_tokens request in
  let blank := mkRow (prompt_token_ids request ++ output_token_ids request) n n (len (prompt_token_ids request))
                 (num_computed_tokens request) 0 0 0 0 0 0 lora in
  match params_of request with
  | Sampling p =>
    (mkRowView (sampling_row to_float32 c p blank) (block_ids request) (generator request)
       (match bad_words_token_ids p with Some ((_ :: _) as l) => Some l | _ => None end) (Some (output_ref request)),
     mkIdView [is_greedy p; negb (is_greedy p); q_lt (top_p p) 1; bool_decide (0 < top_k p < vocab_size c);
               is_spec_decode c && is_spec_decode_unsupported p; q_truthy (frequency_penalty p); q_truthy (presence_penalty p);
               negb (Qeq_bool (repetition_penalty p) 1); given (allowed_token_ids p)]
       (logprobs p) (prompt_logprobs p) None None)
  | Pooling p => (mkRowView blank (block_ids request) None None (Some (output_ref request)),
                  mkIdView (replicate 9 false) None None None (Some p))
  | NoParams => (mkRowView blank (block_ids request) None None (Some (output_ref request)), blank_id)
  end.

(** * The invariant *)

Record rows_ok (c : BatchConfig) (rs : list Row) : Prop := {
  ro_length : length rs = max_num_reqs c;
  ro_row : ∀ i r, rs !! i = Some r → length (row_token_ids r) = max_model_len c ∧ 0 <= row_num_tokens r <= Z.of_nat (max_model_len c)
}.
Definition mask_ok (c : BatchConfig) (o : option (list (list bool))) : Prop :=
  ∀ m, o = Some m → length m = max_num_reqs c.

Record slots_ok (c : BatchConfig) (s : Slots) : Prop := {
  so_rows : rows_ok c (rows s);
  so_tables : tables_ok (max_num_reqs c) (block_table s);
  so_outputs : length (req_output_token_ids s) = length (_req_ids s);
  so_ids : (length (_req_ids s) <= max_num_reqs c)%nat;
  so_generators : keys_ok (generators s) (_req_ids s);
  so_bad_words : keys_ok (bad_words s) (_req_ids s);
  so_mask : mask_ok c (allowed_token_ids_mask s);
  so_needs : length (logits_processing_needs_token_ids s) = max_num_reqs c
}.

(** The adapter of each request, and the two dictionaries about them. *)
Definition lora_of (ix : gmap string nat) (rs : list Row) (id : string) : option Z :=
  i ← ix !! id; r ← rs !! i; Some (row_lora r).
Record lora_ok (L : string → option Z) (ids : gmap Z (gset string)) (loras : gmap Z LoRARequest) : Prop := {
  lo_ids : ∀ l id, id ∈ default ∅ (ids !! l) ↔ l ≠ 0 ∧ L id = Some l;
  lo_nonempty : ∀ l, ids !! l ≠ Some ∅;
  lo_dom : ∀ l, is_Some (ids !! l) ↔ is_Some (loras !! l)
}.

Record batch_ok (b : InputBatch) : Prop := {
  bo_slots : slots_ok (cfg b) (slots b);
  bo_index : index_ok (req_id_to_index b) (_req_ids (slots b));
  bo_ids : ∀ id, req_id_to_index b !! id = None → id_view (sets b) (dicts b) id = blank_id;
  bo_lora : lora_ok (lora_of (req_id_to_index b) (rows (slots b))) (lora_id_to_request_ids b) (lora_id_to_lora_request b);
  bo_builder : builder_ok (batch_update_builder b)
}.

(** While requests are removed and added the holes are the builder's removed rows. *)
Definition batch_open (b : InputBatch) : Prop :=
  batch_ok b ∧ holes_ok (_removed (batch_update_builder b)) (_req_ids (slots b)).
(** Afterwards there are no holes. *)
Definition batch_dense (b : InputBatch) : Prop := batch_ok b ∧ dense (_req_ids (slots b)).

(** Computes the fields of a batch that has been updated. *)
Ltac batch_simpl :=
  cbn [set_index set_slots set_sets set_dicts set_loras set_builder set_req_ids set_outputs set_rows set_block_table set_generators
       set_bad_words set_mask set_needs cfg req_id_to_index slots sets dicts lora_id_to_request_ids lora_id_to_lora_request
       batch_update_builder _req_ids req_output_token_ids rows block_table generators bad_words allowed_token_ids_mask
       logits_processing_needs_token_ids] in *.

(** * Lemmas on the parts *)
Section parts.
Implicit Types (b : InputBatch) (c : BatchConfig) (s : Slots).

Lemma shown_lookup b id i v :
  req_id_to_index b !! id = Some i → row_view (slots b) i = Some v →
  shown b !! id = Some (visible_row (id_view (sets b) (dicts b) id) v, id_view (sets b) (dicts b) id).
Proof. intros Hi Hv. unfold shown. rewrite map_lookup_imap, Hi. cbn. by rewrite Hv. Qed.
Lemma shown_None b id : req_id_to_index b !! id = None → shown b !! id = None.
Proof. intros Hi. unfold shown. by rewrite map_lookup_imap, Hi. Qed.

(** A request shows the same where its row does. *)
Lemma shown_agree b b' id :
  match req_id_to_index b !! id, req_id_to_index b' !! id with
  | Some i, Some i' => row_view (slots b') i' = row_view (slots b) i
  | None, None => True
  | _, _ => False
  end →
  id_view (sets b') (dicts b') id = id_view (sets b) (dicts b) id → shown b' !! id = shown b !! id.
Proof.
  intros Hrow Hid. unfold shown. rewrite !map_lookup_imap.
  destruct (req_id_to_index b !! id) as [i|], (req_id_to_index b' !! id) as [i'|]; try done. cbn. by rewrite Hrow, Hid.
Qed.

Lemma row_view_Some c s i : slots_ok c s → (i < max_num_reqs c)%nat → is_Some (row_view s i).
Proof.
  intros Hs Hi. unfold row_view. destruct (lookup_lt_is_Some_2 (rows s) i) as [r Hr].
  { by rewrite (ro_length _ _ (so_rows _ _ Hs)). }
  rewrite Hr. by eexists.
Qed.

Lemma occupied_lt c s id i : slots_ok c s → _req_ids s !! i = Some (Some id) → (i < max_num_reqs c)%nat.
Proof. intros Hs Hi. apply lookup_lt_Some in Hi. pose proof (so_ids _ _ Hs). lia. Qed.

(** ** Rows *)
Lemma rows_ok_insert c rs i r :
  rows_ok c rs → length (row_token_ids r) = max_model_len c → 0 <= row_num_tokens r <= Z.of_nat (max_model_len c) →
  rows_ok c (<[i := r]> rs).
Proof.
  intros [Hl Hr] H1 H2. split; [by rewrite length_insert|].
  intros j r' [(<- & <- & _)|[_ Hj]]%list_lookup_insert_Some; eauto.
Qed.

Lemma wp_update_row b i f r r' Q :
  rows (slots b) !! i = Some r → f r = Ok r' →
  Q tt (set_slots (set_rows (<[i := r']> (rows (slots b))) (slots b)) b) → wp (update_row i f) Q b.
Proof.
  intros Hr Hf HQ. unfold update_row, on_slots. apply wp_zoom, wp_bind, wp_get, wp_bind.
  eapply wp_lift_outcome; [by apply array_get_Some|]. apply wp_bind. eapply wp_lift_outcome; [done|]. by apply wp_modify.
Qed.

Lemma write_tokens_spec c request r :
  length (row_token_ids r) = max_model_len c →
  (length (prompt_token_ids request) + length (output_token_ids request) <= max_model_len c)%nat →
  ∃ toks, length toks = max_model_len c ∧
    take (Z.to_nat (cached_num_tokens request)) toks = prompt_token_ids request ++ output_token_ids request ∧
    write_tokens request r =
      Ok (set_row_counts (cached_num_tokens request) (cached_num_tokens request) (len (prompt_token_ids request))
            (num_computed_tokens request) (set_row_tokens toks r)).
Proof.
  intros Hl Hfit. unfold write_tokens.
  destruct (assign_slice_ok (row_token_ids r) 0 (prompt_token_ids request)) as (t1 & -> & Hl1 & Ht1); [lia|].
  cbn [mbind outcome_bind].
  destruct (assign_slice_ok t1 (length (prompt_token_ids request)) (output_token_ids request)) as (t2 & -> & Hl2 & Ht2); [lia|].
  cbn [mbind outcome_bind].
  exists t2. split_and!; [lia| |done]. unfold cached_num_tokens, len.
  replace (Z.to_nat _) with (length (prompt_token_ids request) + length (output_token_ids request))%nat by lia.
  rewrite Ht2. f_equal. exact Ht1.
Qed.

Lemma place_spec {A} (l : list A) i x :
  (i <= length l)%nat → ∃ l', place l i x = Ok l' ∧ l' !! i = Some x ∧ (∀ j, j ≠ i → l' !! j = l !! j) ∧
    length l' = Nat.max (length l) (S i).
Proof.
  intros Hi. unfold place. case_decide as Hd.
  - subst i. exists (l ++ [x]). split_and!; [done|by rewrite lookup_app_r, Nat.sub_diag by done| |rewrite length_app; cbn; lia].
    intros j Hj. destruct (decide (j < length l)%nat); [by rewrite lookup_app_l|].
    rewrite (lookup_ge_None_2 l) by lia. rewrite lookup_ge_None. rewrite length_app. cbn. lia.
  - exists (<[i := x]> l). rewrite array_set_lt by lia. rewrite length_insert. split_and!; [done| | |lia].
    + by rewrite list_lookup_insert_eq by lia.
    + intros j Hj. by rewrite list_lookup_insert_ne.
Qed.

(** ** Adapters *)
Lemma lora_ok_ext L L' ids loras : lora_ok L ids loras → (∀ id, L' id = L id) → lora_ok L' ids loras.
Proof. intros [H1 H2 H3] HL. split; [|done|done]. intros l id. by rewrite HL. Qed.
Lemma lora_ok_add L L' ids loras id l r :
  lora_ok L ids loras → L id = None → l ≠ 0 → L' id = Some l → (∀ id', id' ≠ id → L' id' = L id') →
  lora_ok L' (<[l := {[id]} ∪ default ∅ (ids !! l)]> ids) (<[l := r]> loras).
Proof.
  intros [H1 H2 H3] Hid Hl Hid' HL. split.
  - intros l' id'. destruct (decide (l' = l)) as [->|Hne].
    + rewrite lookup_insert_eq. cbn. rewrite elem_of_union, elem_of_singleton, H1.
      destruct (decide (id' = id)) as [->|Hni]; [naive_solver|]. rewrite (HL id' Hni). naive_solver.
    + rewrite lookup_insert_ne by done. rewrite H1. destruct (decide (id' = id)) as [->|Hni]; [|by rewrite (HL id' Hni)].
      rewrite Hid, Hid'. naive_solver.
  - intros l'. rewrite lookup_insert_Some. intros [[<- ?]|[? ?]]; [set_solver|by eapply H2].
  - intros l'. rewrite !lookup_insert_is_Some. by rewrite H3.
Qed.
Lemma lora_ok_add_none L L' ids loras id :
  lora_ok L ids loras → L id = None → L' id = Some 0 → (∀ id', id' ≠ id → L' id' = L id') → lora_ok L' ids loras.
Proof.
  intros [H1 H2 H3] Hid Hid' HL. split; [|done|done]. intros l id'. rewrite H1.
  destruct (decide (id' = id)) as [->|Hni]; [|by rewrite (HL id' Hni)]. rewrite Hid, Hid'. naive_solver.
Qed.
Lemma lora_ok_remove L L' ids loras id l X :
  lora_ok L ids loras → l ≠ 0 → L id = Some l → L' id = None → (∀ id', id' ≠ id → L' id' = L id') → ids !! l = Some X →
  lora_ok L' (if decide (X ∖ {[id]} = ∅) then delete l ids else <[l := X ∖ {[id]}]> ids)
    (if decide (X ∖ {[id]} = ∅) then delete l loras else loras).
Proof.
  intros [H1 H2 H3] Hl Hid Hid' HL HX. assert (∀ id', id' ∈ X ↔ L id' = Some l) as HXL.
  { intros id'. specialize (H1 l id'). rewrite HX in H1. cbn in H1. naive_solver. }
  assert (∀ id' l', l' ≠ l → L' id' = Some l' ↔ L id' = Some l') as Hother.
  { intros id' l' Hne. destruct (decide (id' = id)) as [->|Hni]; [|by rewrite (HL id' Hni)]. rewrite Hid, Hid'. naive_solver. }
  assert (∀ id', id' ∈ X ∖ {[id]} ↔ L' id' = Some l) as HXL'.
  { intros id'. rewrite elem_of_difference, elem_of_singleton, HXL. destruct (decide (id' = id)) as [->|Hni]; [naive_solver|]. rewrite (HL id' Hni). naive_solver. }
  case_decide as He; split.
  - intros l' id'. destruct (decide (l' = l)) as [->|Hne].
    + rewrite lookup_delete_eq. cbn. rewrite <- HXL', He. set_solver.
    + rewrite lookup_delete_ne by done. by rewrite H1, Hother.
  - intros l'. rewrite lookup_delete_Some. intros [_ ?]. by eapply H2.
  - intros l'. rewrite !lookup_delete_is_Some. by rewrite H3.
  - intros l' id'. destruct (decide (l' = l)) as [->|Hne].
    + rewrite lookup_insert_eq. cbn. rewrite HXL'. naive_solver.
    + rewrite lookup_insert_ne by done. by rewrite H1, Hother.
  - intros l'. rewrite lookup_insert_Some. intros [[<- ?]|[? ?]]; [done|by eapply H2].
  - intros l'. rewrite lookup_insert_is_Some, <- H3. split; [intros [<-|[_ ?]]; [by exists X|done]|].
    intros Hs. destruct (decide (l = l')); [by left|by right].
Qed.
End parts.

(** * Removing a request *)
Section removing.
Implicit Types (b : InputBatch) (c : BatchConfig) (s : Slots).

Lemma set_row_lora_id r : set_row_lora (row_lora r) r = r.
Proof. by destruct r. Qed.
Lemma set_rows_id s : set_rows (rows s) s = s.
Proof. by destruct s. Qed.
Lemma set_slots_id b : set_slots (slots b) b = b.
Proof. by destruct b. Qed.
Lemma set_loras_id b : set_loras (lora_id_to_request_ids b) (lora_id_to_lora_request b) b = b.
Proof. by destruct b. Qed.

Lemma wp_remove_lora L L' b i id r Q :
  rows (slots b) !! i = Some r → lora_ok L (lora_id_to_request_ids b) (lora_id_to_lora_request b) →
  L id = Some (row_lora r) → L' id = None → (∀ id', id' ≠ id → L' id' = L id') →
  (∀ ids loras, lora_ok L' ids loras →
     Q tt (set_loras ids loras (set_slots (set_rows (<[i := set_row_lora 0 r]> (rows (slots b))) (slots b)) b))) →
  wp (remove_lora i id) Q b.
Proof.
  intros Hr Hok Hid Hid' HL HQ. unfold remove_lora. apply wp_bind, wp_get, wp_bind.
  eapply wp_lift_outcome; [by apply array_get_Some|]. cbv zeta. case_decide as Hz.
  - apply wp_ret. specialize (HQ (lora_id_to_request_ids b) (lora_id_to_lora_request b)).
    rewrite <- Hz, set_row_lora_id, list_insert_id, set_rows_id, set_slots_id, set_loras_id in HQ by done. apply HQ.
    destruct Hok as [H1 H2 H3]. split; [|done|done]. intros l id'. rewrite H1.
    destruct (decide (id' = id)) as [->|Hni]; [|by rewrite (HL id' Hni)]. rewrite Hid, Hid'. naive_solver.
  - destruct (lora_id_to_request_ids b !! row_lora r) as [X|] eqn:HX.
    2:{ exfalso. pose proof (lo_ids _ _ _ Hok (row_lora r) id) as H. rewrite HX in H. cbn in H. set_solver. }
    pose proof (lora_ok_remove L L' _ _ id (row_lora r) X Hok Hz Hid Hid' HL HX) as Hok'.
    apply wp_bind. destruct (decide (X ∖ {[id]} = ∅)) as [He|He].
    + rewrite decide_True by (apply (lo_dom _ _ _ Hok); by exists X). apply wp_modify.
      eapply wp_update_row; [done|done|]. by apply HQ.
    + apply wp_modify. eapply wp_update_row; [done|done|]. by apply HQ.
Qed.

(** A row of the mask, when there is a mask. *)
Definition row_in (m : option (list (list bool))) (i : nat) : option (list bool) := m ≫= λ l, l !! i.
Definition mask_row b (i : nat) : option (list bool) := row_in (allowed_token_ids_mask (slots b)) i.

Lemma wp_clear_mask_row b c i Q :
  mask_ok c (allowed_token_ids_mask (slots b)) → (i < max_num_reqs c)%nat →
  (∀ m, mask_ok c m → (∀ j, j ≠ i → row_in m j = mask_row b j) → Q tt (set_slots (set_mask m (slots b)) b)) → wp (clear_mask_row i) Q b.
Proof.
  intros Hok Hi HQ. unfold clear_mask_row. apply wp_bind, wp_gets. destruct (allowed_token_ids_mask (slots b)) as [m|] eqn:Hm.
  - destruct (lookup_lt_is_Some_2 m i) as [r Hr]; [by rewrite (Hok m eq_refl)|]. apply wp_bind.
    eapply wp_lift_outcome; [by apply array_get_Some|]. apply wp_zoom, wp_modify. apply HQ.
    + intros m' [= <-]. rewrite length_insert. by apply Hok.
    + intros j Hj. unfold mask_row. rewrite Hm. cbn. by rewrite list_lookup_insert_ne.
  - apply wp_ret. specialize (HQ None). unfold mask_row in HQ. destruct b as [? ? [] ? ? ? ? ?]. cbn in *. subst. by apply HQ.
Qed.

Lemma id_view_discard x d id id' :
  id_view (discard_sets id x) (discard_dicts id d) id' = if decide (id' = id) then blank_id else id_view x d id'.
Proof.
  case_decide as He.
  - subst. unfold id_view, id_flags. cbn. rewrite !lookup_delete_eq. unfold blank_id. f_equal. cbn.
    repeat f_equal; apply bool_decide_eq_false_2; set_solver.
  - unfold id_view, id_flags. cbn. rewrite !lookup_delete_ne by done. f_equal.
    repeat f_equal; apply bool_decide_ext; set_solver.
Qed.

Lemma index_ok_inj ix ids id id' i : index_ok ix ids → ix !! id = Some i → ix !! id' = Some i → id = id'.
Proof. intros Hix H1%Hix H2%Hix. congruence. Qed.

(** Changing one row leaves the adapters of the requests in other rows. *)
Lemma lora_of_other ix ix' ids rs i r id' :
  index_ok ix ids → ix' !! id' = ix !! id' → ix !! id' ≠ Some i → lora_of ix' (<[i := r]> rs) id' = lora_of ix rs id'.
Proof.
  intros Hix Heq Hne. unfold lora_of. rewrite Heq. destruct (ix !! id') as [j|]; [|done]. cbn.
  by rewrite list_lookup_insert_ne by congruence.
Qed.

(** What removing a request leaves. *)
Record removed_request b id i b' : Prop := {
  rr_open : batch_open b';
  rr_builder : batch_update_builder b' = mkBuilder (_removed (batch_update_builder b) ++ [i]) false
                 (b_moved (batch_update_builder b)) (b_added (batch_update_builder b));
  rr_cfg : cfg b' = cfg b;
  rr_ids : _req_ids (slots b') = <[i := None]> (_req_ids (slots b));
  rr_index : req_id_to_index b' = delete id (req_id_to_index b);
  rr_shown : shown b' = delete id (shown b);
  rr_tables : block_table (slots b') = block_table (slots b);
  rr_masks : ∀ j, j ≠ i → mask_row b' j = mask_row b j
}.

Lemma wp_remove_request b id i :
  batch_open b → _is_removed_sorted (batch_update_builder b) = false → req_id_to_index b !! id = Some i →
  wp (remove_request id) (λ r b', r = Some i ∧ removed_request b id i b') b.
Proof.
  intros [[Hs Hix Hids Hlora Hb] Hholes] Hsorted Hi. pose proof (proj1 (Hix id i) Hi) as Hid.
  pose proof (lookup_lt_Some _ _ _ Hid) as Hlt. pose proof (occupied_lt _ _ _ _ Hs Hid) as Hmax.
  destruct (lookup_lt_is_Some_2 (rows (slots b)) i) as [r Hr]; [by rewrite (ro_length _ _ (so_rows _ _ Hs))|].
  unfold remove_request. apply wp_bind, wp_get. rewrite Hi. wp_steps. unfold on_builder, on_slots. wp_steps.
  unfold removed_append. wp_steps. cbn [batch_update_builder set_index]. rewrite Hsorted. wp_steps.
  eapply wp_lift_outcome; [by apply array_set_lt|]. wp_steps.
  eapply wp_lift_outcome; [apply array_set_lt; cbn; by rewrite (so_outputs _ _ Hs)|]. wp_steps.
  assert (∀ id', id' ≠ id → req_id_to_index b !! id' ≠ Some i) as Hother.
  { intros id' Hne Hi'. apply Hne. symmetry. by eapply index_ok_inj. }
  eapply (wp_remove_lora _ (lora_of (delete id (req_id_to_index b)) (<[i := set_row_lora 0 r]> (rows (slots b))))).
  1: exact Hr. 1: exact Hlora.
  1: unfold lora_of; rewrite Hi; cbn; by rewrite Hr.
  1: unfold lora_of; by rewrite lookup_delete_eq.
  { intros id' Hne. eapply lora_of_other; [done| |by apply Hother]. by rewrite lookup_delete_ne. }
  intros lids loras Hlora'. wp_steps. eapply (wp_clear_mask_row _ (cfg b)); [exact (so_mask _ _ Hs)|done|].
  intros m Hm Hrows. wp_steps. split; [done|]. destruct Hs as [S1 S2 S3 S4 S5 S6 S7 S8].
  split; [| |reflexivity|reflexivity|reflexivity| |reflexivity|exact Hrows].
  - split; [split; cbn; try done|].
    + split; cbn; rewrite ?length_insert; try done; [|by apply keys_ok_delete|by apply keys_ok_delete].
      destruct (ro_row _ _ S1 i r Hr). by apply rows_ok_insert.
    + by apply index_ok_delete.
    + intros id' Hid'. rewrite id_view_discard. case_decide; [done|]. apply Hids. by rewrite lookup_delete_ne in Hid'.
    + intros Htrue. cbn in Htrue. by rewrite Hsorted in Htrue.
    + cbn. by eapply holes_ok_add.
  - cbn. by rewrite Hsorted.
  - apply map_eq. intros id'. destruct (decide (id' = id)) as [->|Hne].
    + rewrite lookup_delete_eq. apply shown_None. cbn. by rewrite lookup_delete_eq.
    + rewrite lookup_delete_ne by done. apply shown_agree; cbn; [|rewrite id_view_discard; by rewrite decide_False].
      rewrite lookup_delete_ne by done. destruct (req_id_to_index b !! id') as [j|] eqn:Hj; [|done].
      assert (j ≠ i) as Hji by (intros ->; by apply (Hother id')). unfold row_view. cbn.
      by rewrite !list_lookup_insert_ne, !lookup_delete_ne by done.
Qed.

Lemma wp_remove_absent b id Q : req_id_to_index b !! id = None → Q None b → wp (remove_request id) Q b.
Proof. intros Hi HQ. unfold remove_request. apply wp_bind, wp_get. rewrite Hi. by apply wp_ret. Qed.
End removing.

(** * Adding a request *)
Section adding.
Context (to_float32 : Q → Q).
Implicit Types (b : InputBatch) (c : BatchConfig) (s : Slots) (p : SamplingParams).

(** The next free row: the least hole, or the end. *)
Lemma wp_register_add b request Q :
  batch_open b → (num_reqs b < max_num_reqs (cfg b))%nat →
  (∀ i bd, (i <= length (_req_ids (slots b)))%nat → (i < max_num_reqs (cfg b))%nat → (∀ id, _req_ids (slots b) !! i ≠ Some (Some id)) →
     builder_ok bd → b_moved bd = b_moved (batch_update_builder b) →
     b_added bd = b_added (batch_update_builder b) ++ [(i, params_of request, output_ref request)] →
     (_removed (batch_update_builder b) ≡ₚ i :: _removed bd
      ∨ _removed (batch_update_builder b) = [] ∧ _removed bd = [] ∧ i = length (_req_ids (slots b))) →
     Q i (set_builder bd b)) →
  wp (_register_add_request request) Q b.
Proof.
  intros [[Hs Hix Hids Hlora Hb] Hholes] Hroom HQ. unfold _register_add_request, _get_next_add_index, on_builder.
  wp_steps. eapply wp_mono; [by apply pop_removed_spec|]. intros r bd (Hb' & Hm & Ha & Hleast & Hp).
  destruct r as [i|]; cbn in Hleast.
  - destruct Hleast as [Hin Hleast]. apply (proj2 Hholes) in Hin. pose proof (lookup_lt_Some _ _ _ Hin).
    pose proof (so_ids _ _ Hs). wp_steps. cbn [cfg set_builder]. { rewrite bool_decide_eq_true. cbn. lia. }
    wp_steps. apply (HQ i (mkBuilder (_removed bd) (_is_removed_sorted bd) (b_moved bd) (b_added bd ++ [_]))); cbn; try done; try lia.
    + by rewrite Hin.
    + by rewrite Ha.
    + by left.
  - subst bd. pose proof (rows_counted _ _ _ Hix Hholes) as Hl. rewrite Hleast in Hl. cbn in Hl. wp_steps. cbn [cfg set_builder].
    { rewrite bool_decide_eq_true. exact Hroom. }
    wp_steps. unfold num_reqs. cbn [req_id_to_index set_builder].
    replace (base.size (req_id_to_index b)) with (length (_req_ids (slots b))) by lia.
    apply (HQ _ (mkBuilder (_removed (batch_update_builder b)) (_is_removed_sorted (batch_update_builder b)) (b_moved (batch_update_builder b)) (b_added (batch_update_builder b) ++ [_]))); cbn; try done.
    + unfold num_reqs in Hroom. lia.
    + intros id Hid. apply lookup_lt_Some in Hid. lia.
    + by right.
Qed.

Lemma allow_row_ok vocab ids :
  (∀ t, t ∈ ids → - Z.of_nat vocab <= t < Z.of_nat vocab) → ∃ row, allow_row vocab ids = Ok row.
Proof.
  intros Hids. unfold allow_row. set (f := λ (acc : outcome (list bool)) (t : Z), _).
  assert (∀ row, length row = vocab → ∃ row', foldl f (Ok row) ids = Ok row') as H; [|by apply H, length_replicate].
  induction ids as [|t ids IH]; intros row Hrow; [by exists row|]. cbn [foldl].
  assert (∃ row1, f (Ok row) t = Ok row1 ∧ length row1 = vocab) as (row1 & -> & Hrow1).
  { unfold f. cbn [mbind outcome_bind]. pose proof (Hids t ltac:(left)). cbv zeta.
    set (j := if decide (t < 0) then _ else _). assert (0 <= j < Z.of_nat vocab) by (unfold j; case_decide; lia).
    rewrite decide_True, array_set_lt by lia. eexists. split; [done|by rewrite length_insert]. }
  apply IH; [|done]. intros t' Ht'. apply Hids. by right.
Qed.

Lemma set_mask_id s : set_mask (allowed_token_ids_mask s) s = s.
Proof. by destruct s. Qed.

(** The row [i] is written for the allowed tokens [o], if there are any. *)
Record mask_written (vocab i : nat) (o : option (list Z)) (m m' : option (list (list bool))) : Prop := {
  mw_others : ∀ j row, j ≠ i → row_in m j = Some row → row_in m' j = Some row;
  mw_row : ∀ t ids, o = Some (t :: ids) → ∃ row, allow_row vocab (t :: ids) = Ok row ∧ row_in m' i = Some row
}.

Lemma wp_write_allowed b i o Q :
  mask_ok (cfg b) (allowed_token_ids_mask (slots b)) → (i < max_num_reqs (cfg b))%nat → 0 <= vocab_size (cfg b) →
  (∀ t ids, o = Some ids → t ∈ ids → - vocab_size (cfg b) <= t < vocab_size (cfg b)) →
  (∀ m, mask_ok (cfg b) m → mask_written (Z.to_nat (vocab_size (cfg b))) i o (allowed_token_ids_mask (slots b)) m →
     Q tt (set_slots (set_mask m (slots b)) b)) → wp (write_allowed i o) Q b.
Proof.
  intros Hok Hi Hv Ho HQ. unfold write_allowed, on_slots.
  assert ((∀ t ids, o ≠ Some (t :: ids)) → Q tt b) as HQb.
  { intros Hno. specialize (HQ _ Hok). rewrite set_mask_id, set_slots_id in HQ. apply HQ. split; [done|]. intros t ids Heq. by destruct (Hno t ids). }
  destruct o as [[|t0 ids]|]; [by apply wp_ret, HQb| |by apply wp_ret, HQb].
  destruct (allow_row_ok (Z.to_nat (vocab_size (cfg b))) (t0 :: ids)) as [row Hrow].
  { intros t Ht. pose proof (Ho t _ eq_refl Ht). lia. }
  wp_steps. eapply wp_lift_outcome; [done|]. wp_steps. cbn [slots set_slots].
  set (m0 := match allowed_token_ids_mask (slots b) with Some _ => _ | None => _ end).
  assert (∃ m, allowed_token_ids_mask m0 = Some m ∧ length m = max_num_reqs (cfg b) ∧ ∀ m', set_mask m' m0 = set_mask m' (slots b)) as (m & Hm & Hl & Hset).
  { subst m0. destruct (allowed_token_ids_mask (slots b)) as [m|] eqn:E; [exists m; split_and!; [done|by apply Hok|done]|].
    cbn. eexists. split_and!; [done|by rewrite length_replicate|done]. }
  rewrite Hm. cbn [default]. eapply wp_lift_outcome; [apply array_set_lt; cbn; by rewrite Hl|]. wp_steps. cbn. rewrite Hset.
  apply HQ; [intros m' [= <-]; by rewrite length_insert|]. split.
  - intros j r Hj Hr. cbn. rewrite list_lookup_insert_ne by done. subst m0. destruct (allowed_token_ids_mask (slots b)) as [m1|] eqn:E; [|done].
    rewrite E in Hm. injection Hm as ->. exact Hr.
  - intros t ids' [= <- <-]. exists row. split; [exact Hrow|]. cbn. rewrite list_lookup_insert_eq by lia. done.
Qed.

(** The batch after the sampling parameters have been noted in the row [i]. *)
Definition sampling_added (i : nat) (request : CachedRequestState) p (r : Row) (m : option (list (list bool))) b : InputBatch :=
  let s := slots b in
  let d := dicts b in
  mkInputBatch (cfg b) (req_id_to_index b)
    (mkSlots (_req_ids s) (req_output_token_ids s) (<[i := sampling_row to_float32 (cfg b) p r]> (rows s)) (block_table s)
       (opt_insert i (generator request) (generators s))
       (opt_insert i (match bad_words_token_ids p with Some ((_ :: _) as l) => Some l | _ => None end) (bad_words s))
       m (logits_processing_needs_token_ids s))
    (sampling_sets (cfg b) (req_id request) p (sets b))
    (mkReqDicts (opt_insert (req_id request) (logprobs p) (num_logprobs d)) (opt_insert (req_id request) (prompt_logprobs p) (num_prompt_logprobs d))
       (in_progress_prompt_logprobs_cpu d) (pooling_params d))
    (lora_id_to_request_ids b) (lora_id_to_lora_request b) (batch_update_builder b).

Lemma wp_add_sampling b i request p r Q :
  rows (slots b) !! i = Some r → mask_ok (cfg b) (allowed_token_ids_mask (slots b)) → (i < max_num_reqs (cfg b))%nat →
  0 <= vocab_size (cfg b) →
  (∀ t ids, allowed_token_ids p = Some ids → t ∈ ids → - vocab_size (cfg b) <= t < vocab_size (cfg b)) →
  (∀ m, mask_ok (cfg b) m → mask_written (Z.to_nat (vocab_size (cfg b))) i (allowed_token_ids p) (allowed_token_ids_mask (slots b)) m →
     Q tt (sampling_added i request p r m b)) → wp (add_sampling to_float32 i request p) Q b.
Proof.
  intros Hr Hok Hi Hv Ho HQ. unfold add_sampling, on_slots. wp_steps. eapply wp_update_row; [exact Hr|done|]. wp_steps.
  eapply wp_write_allowed; [exact Hok|done|done|exact Ho|]. intros m Hm Hmw. cbn.
  specialize (HQ m Hm Hmw). unfold sampling_added in HQ. destruct (bad_words_token_ids p) as [[|w l]|]; [by apply wp_ret| |by apply wp_ret].
  by wp_steps.
Qed.

Lemma lookup_opt_insert_eq {K V} `{Countable K} (k : K) (o : option V) (d : gmap K V) :
  d !! k = None → opt_insert k o d !! k = o.
Proof. intros Hd. destruct o; cbn; [by rewrite lookup_insert_eq|done]. Qed.
Lemma lookup_opt_insert_ne {K V} `{Countable K} (k k' : K) (o : option V) (d : gmap K V) :
  k' ≠ k → opt_insert k o d !! k' = d !! k'.
Proof. intros Hd. destruct o; cbn; [by rewrite lookup_insert_ne|done]. Qed.
Lemma keys_ok_opt_insert {V} (d : gmap nat V) ids ids' i id o :
  keys_ok d ids → ids' !! i = Some (Some id) → (∀ j, j ≠ i → ids' !! j = ids !! j) → keys_ok (opt_insert i o d) ids'.
Proof. intros Hd Hi Hj. destruct o; cbn; [by eapply keys_ok_insert|by eapply keys_ok_keep]. Qed.

Lemma elem_of_add_if id id' (f : bool) (X : gset string) : id' ∈ add_if f id X ↔ (f = true ∧ id' = id) ∨ id' ∈ X.
Proof. unfold add_if. destruct f; set_solver. Qed.

Lemma decide_add_if id (f : bool) (X : gset string) : id ∉ X → bool_decide (id ∈ add_if f id X) = f.
Proof. intros Hid. apply eq_bool_prop_intro. rewrite bool_decide_spec, elem_of_add_if. destruct f; naive_solver. Qed.
Lemma decide_add_if_ne id id' (f : bool) (X : gset string) : id' ≠ id → bool_decide (id' ∈ add_if f id X) = bool_decide (id' ∈ X).
Proof. intros Hid. apply bool_decide_ext. rewrite elem_of_add_if. naive_solver. Qed.

Lemma id_view_sampling c id p x d lp plp id' :
  id_view x d id = blank_id →
  id_view (sampling_sets c id p x)
    (mkReqDicts (opt_insert id lp (num_logprobs d)) (opt_insert id plp (num_prompt_logprobs d)) (in_progress_prompt_logprobs_cpu d) (pooling_params d)) id'
  = if decide (id' = id) then
      mkIdView [is_greedy p; negb (is_greedy p); q_lt (top_p p) 1; bool_decide (0 < top_k p < vocab_size c);
                is_spec_decode c && is_spec_decode_unsupported p; q_truthy (frequency_penalty p); q_truthy (presence_penalty p);
                negb (Qeq_bool (repetition_penalty p) 1); given (allowed_token_ids p)] lp plp None None
    else id_view x d id'.
Proof.
  intros Hid. unfold id_view, blank_id in Hid. injection Hid as F1 F2 F3 F4 F5 F6 F7 F8 F9 L1 L2 L3 L4.
  rewrite bool_decide_eq_false in F1, F2, F3, F4, F5, F6, F7, F8, F9. case_decide as He.
  - subst id'. unfold id_view, id_flags. cbn. rewrite !lookup_opt_insert_eq by done. rewrite L3, L4. f_equal.
    by rewrite !decide_add_if by done.
  - unfold id_view, id_flags. cbn. rewrite !lookup_opt_insert_ne by done. f_equal.
    by rewrite !decide_add_if_ne by done.
Qed.

Lemma id_view_pooling id pp x d id' :
  id_view x d id = blank_id →
  id_view x (mkReqDicts (num_logprobs d) (num_prompt_logprobs d) (in_progress_prompt_logprobs_cpu d) (<[id := pp]> (pooling_params d))) id'
  = if decide (id' = id) then mkIdView (replicate 9 false) None None None (Some pp) else id_view x d id'.
Proof.
  intros Hid. case_decide as He.
  - subst id'. unfold id_view, blank_id in *. injection Hid. cbn. intros. rewrite lookup_insert_eq. unfold id_flags. congruence.
  - unfold id_view. cbn. by rewrite lookup_insert_ne.
Qed.

Lemma wp_add_lora L L' b i id l r Q :
  rows (slots b) !! i = Some r → lora_ok L (lora_id_to_request_ids b) (lora_id_to_lora_request b) → L id = None →
  (∀ a, l = Some a → lora_int_id a ≠ 0) → let k := match l with Some a => lora_int_id a | None => 0 end in
  L' id = Some k → (∀ id', id' ≠ id → L' id' = L id') →
  (∀ ids loras, lora_ok L' ids loras →
     Q tt (set_loras ids loras (set_slots (set_rows (<[i := set_row_lora k r]> (rows (slots b))) (slots b)) b))) →
  wp (add_lora i id l) Q b.
Proof.
  intros Hr Hok Hid Hl k Hk HL HQ. unfold add_lora. destruct l as [a|].
  - apply wp_bind. eapply wp_update_row; [done|done|]. apply wp_modify. apply HQ. eapply lora_ok_add; eauto.
  - eapply wp_update_row; [done|done|]. specialize (HQ (lora_id_to_request_ids b) (lora_id_to_lora_request b)).
    destruct b. apply HQ. by eapply lora_ok_add_none.
Qed.

(** A new request that fits. *)
Record request_fits b (request : CachedRequestState) : Prop := {
  rf_new : req_id_to_index b !! req_id request = None;
  rf_room : (num_reqs b < max_num_reqs (cfg b))%nat;
  rf_tokens : (length (prompt_token_ids request) + length (output_token_ids request) <= max_model_len (cfg b))%nat;
  rf_groups : length (block_ids request) = length (block_table (slots b));
  rf_blocks : ∀ g t l, block_table (slots b) !! g = Some t → block_ids request !! g = Some l →
    len l <= Z.of_nat (max_num_blocks_per_req t);
  rf_vocab : 0 <= vocab_size (cfg b);
  rf_params : match params_of request with
    | Sampling p => ∀ t ids, allowed_token_ids p = Some ids → t ∈ ids → - vocab_size (cfg b) <= t < vocab_size (cfg b)
    | Pooling _ => True
    | NoParams => False
    end;
  rf_lora : ∀ l, lora_request request = Some l → lora_int_id l ≠ 0
}.

Record added_request b (request : CachedRequestState) i b' : Prop := {
  ar_open : batch_open b';
  ar_moved : b_moved (batch_update_builder b') = b_moved (batch_update_builder b);
  ar_added : b_added (batch_update_builder b') = b_added (batch_update_builder b) ++ [(i, params_of request, output_ref request)];
  ar_cfg : cfg b' = cfg b;
  ar_free : ∀ id, _req_ids (slots b) !! i ≠ Some (Some id);
  ar_row : _req_ids (slots b') !! i = Some (Some (req_id request));
  ar_others : ∀ j, j ≠ i → _req_ids (slots b') !! j = _req_ids (slots b) !! j;
  ar_index : req_id_to_index b' = <[req_id request := i]> (req_id_to_index b);
  ar_tables : tables_frame (block_table (slots b)) (block_table (slots b'));
  ar_shown : shown b' = <[req_id request := request_shown to_float32 (cfg b) request]> (shown b);
  ar_masks : mask_written (Z.to_nat (vocab_size (cfg b))) i (match params_of request with Sampling p => allowed_token_ids p | _ => None end)
    (allowed_token_ids_mask (slots b)) (allowed_token_ids_mask (slots b'))
}.

Section finish.
Context b (request : CachedRequestState) (i : nat) (bd : BatchUpdateBuilder).
Context (Hopen : batch_open b) (Hnew : req_id_to_index b !! req_id request = None).
Context (Hi : (i < max_num_reqs (cfg b))%nat) (Hfree : ∀ id, _req_ids (slots b) !! i ≠ Some (Some id)).
Context (Hbd : builder_ok bd) (Hmoved : b_moved bd = b_moved (batch_update_builder b)).
Context (Hadded : b_added bd = b_added (batch_update_builder b) ++ [(i, params_of request, output_ref request)]).
Context (Hremoved : _removed (batch_update_builder b) ≡ₚ i :: _removed bd
  ∨ _removed (batch_update_builder b) = [] ∧ _removed bd = [] ∧ i = length (_req_ids (slots b))).
Context (ids : list (option string)) (Hid : ids !! i = Some (Some (req_id request))) (Hids : ∀ j, j ≠ i → ids !! j = _req_ids (slots b) !! j).
Context (outs : list (option list_ref)) (Hout : outs !! i = Some (Some (output_ref request)))
  (Houts : ∀ j, j ≠ i → outs !! j = req_output_token_ids (slots b) !! j).
Context (Hlen : length ids = Nat.max (length (_req_ids (slots b))) (S i)) (Hlen' : length outs = Nat.max (length (req_output_token_ids (slots b))) (S i)).
Context (ts : MultiGroupBlockTable) (Hts : tables_changed (max_num_reqs (cfg b)) (block_table (slots b)) ts i (block_ids request)).
Context (r : Row) (Hr : length (row_token_ids r) = max_model_len (cfg b)) (Hn : 0 <= row_num_tokens r <= Z.of_nat (max_model_len (cfg b))).
Context (g : option handle) (w : option (list (list Z))) (m : option (list (list bool))) (needs : list bool).
Context (Hmw : mask_written (Z.to_nat (vocab_size (cfg b))) i (match params_of request with Sampling p => allowed_token_ids p | _ => None end)
  (allowed_token_ids_mask (slots b)) m).
Context (Hm : mask_ok (cfg b) m) (Hneeds : length needs = max_num_reqs (cfg b)).
Context (x : ReqSets) (d : ReqDicts) (iv : IdView).
Context (Hiv : ∀ id', id_view x d id' = if decide (id' = req_id request) then iv else id_view (sets b) (dicts b) id').
Context (lids : gmap Z (gset string)) (loras : gmap Z LoRARequest).
Context (Hlora : lora_ok (lora_of (<[req_id request := i]> (req_id_to_index b)) (<[i := r]> (rows (slots b)))) lids loras).
Context (Hshown : request_shown to_float32 (cfg b) request
  = (visible_row iv (mkRowView (trim r) (block_ids request) g w (Some (output_ref request))), iv)).

Let b' := mkInputBatch (cfg b) (<[req_id request := i]> (req_id_to_index b))
  (mkSlots ids outs (<[i := r]> (rows (slots b))) ts (opt_insert i g (generators (slots b))) (opt_insert i w (bad_words (slots b))) m needs)
  x d lids loras bd.

Lemma add_finish_open : batch_open b'.
Proof.
  destruct Hopen as [[Hs Hix Hv _ _] Hholes]. pose proof (so_ids _ _ Hs). pose proof (so_outputs _ _ Hs). split; [split; cbn; try done|].
  - split; cbn; try done; [by apply rows_ok_insert; [apply (so_rows _ _ Hs)|..]|by destruct Hts|lia|lia| |].
    + eapply keys_ok_opt_insert; [apply (so_generators _ _ Hs)|exact Hid|exact Hids].
    + eapply keys_ok_opt_insert; [apply (so_bad_words _ _ Hs)|exact Hid|exact Hids].
  - by eapply index_ok_insert.
  - intros id' Hnone. apply lookup_insert_None in Hnone as [Hnone Hne]. rewrite Hiv, decide_False by congruence. by apply Hv.
  - cbn. destruct Hremoved as [Hp|(H1 & H2 & H3)]; [by eapply holes_ok_fill|]. rewrite H2. rewrite H1 in Hholes. destruct Hholes as [_ Hr'].
    split; [constructor|]. intros j. destruct (decide (j = i)) as [->|Hne]; [rewrite Hid; split; [by intros ?%not_elem_of_nil|done]|].
    by rewrite Hids, <- Hr'.
Qed.

Lemma add_finish_shown : shown b' = <[req_id request := request_shown to_float32 (cfg b) request]> (shown b).
Proof.
  destruct Hopen as [[Hs Hix Hv _ _] Hholes]. apply map_eq. intros id'.
  pose proof (keys_ok_free _ _ _ (so_generators _ _ Hs) Hfree) as Hg. pose proof (keys_ok_free _ _ _ (so_bad_words _ _ Hs) Hfree) as Hw.
  destruct (decide (id' = req_id request)) as [->|Hne].
  - rewrite lookup_insert_eq, Hshown. erewrite (shown_lookup b' _ i); [|apply lookup_insert_eq|].
    2:{ unfold b'. cbn [slots]. rewrite row_view_mk, list_lookup_insert_eq by (by rewrite (ro_length _ _ (so_rows _ _ Hs))).
        rewrite !lookup_opt_insert_eq, Hout, (tc_row _ _ _ _ _ Hts) by done. done. }
    cbn [sets dicts b']. by rewrite Hiv, decide_True.
  - rewrite lookup_insert_ne by done. apply shown_agree; cbn; [|by rewrite Hiv, decide_False].
    rewrite lookup_insert_ne by done. destruct (req_id_to_index b !! id') as [j|] eqn:Hj; [|done].
    assert (j ≠ i) as Hji by (intros ->; apply Hix in Hj; by destruct (Hfree id')). rewrite row_view_mk.
    rewrite list_lookup_insert_ne, !lookup_opt_insert_ne by done. by rewrite (Houts j Hji), (tc_others _ _ _ _ _ Hts j Hji).
Qed.

Lemma add_finish : added_request b request i b'.
Proof.
  split; [apply add_finish_open|done|done|done|done|done|done|done|by destruct Hts|apply add_finish_shown|exact Hmw].
Qed.
End finish.

Lemma wp_add_request b request :
  batch_open b → request_fits b request →
  wp (add_request to_float32 request) (λ i b', added_request b request i b') b.
Proof.
  intros Hopen Hfits. pose proof Hopen as [[Hs Hix Hids Hlora Hb] Hholes]. destruct Hfits as [F1 F2 F3 F4 F5 F6 F7 F8].
  unfold add_request. apply wp_bind, wp_register_add; [done|done|]. intros i bd Hi Hmax Hfree Hbd Hmoved Hadded Hrem.
  destruct (place_spec (_req_ids (slots b)) i (Some (req_id request)) Hi) as (ids & Hids1 & Hids2 & Hids3 & Hids4).
  destruct (place_spec (req_output_token_ids (slots b)) i (Some (output_ref request))) as (outs & Ho1 & Ho2 & Ho3 & Ho4); [by rewrite (so_outputs _ _ Hs)|].
  destruct (lookup_lt_is_Some_2 (rows (slots b)) i) as [r Hr]; [by rewrite (ro_length _ _ (so_rows _ _ Hs))|].
  destruct (ro_row _ _ (so_rows _ _ Hs) i r Hr) as [Hw Hn].
  destruct (write_tokens_spec (cfg b) request r Hw F3) as (toks & Ht1 & Ht2 & Ht3).
  unfold on_slots, on_blocks. wp_steps. eapply wp_lift_outcome; [exact Hids1|]. wp_steps.
  eapply wp_lift_outcome; [exact Ho1|]. wp_steps. eapply wp_update_row; [exact Hr|exact Ht3|].
  apply wp_bind. unfold on_slots. apply wp_zoom, wp_zoom.
  eapply wp_mono; [apply (multi_add_row_spec (max_num_reqs (cfg b))); [exact (so_tables _ _ Hs)|done|exact F4|exact F5]|].
  batch_simpl. intros [] ts Hts. batch_simpl. set (r1 := set_row_counts _ _ _ _ _) in *. pose proof (so_ids _ _ Hs) as Hsi.
  set (k := match lora_request request with Some l => lora_int_id l | None => 0 end).
  set (L' := λ rs, lora_of (<[req_id request := i]> (req_id_to_index b)) (<[i := rs]> (rows (slots b)))).
  assert (∀ rs, row_lora rs = k → L' rs (req_id request) = Some k ∧ ∀ id', id' ≠ req_id request →
    L' rs id' = lora_of (req_id_to_index b) (rows (slots b)) id') as HL.
  { intros rs Hk. unfold L'. split.
    - unfold lora_of. rewrite lookup_insert_eq. cbn. rewrite list_lookup_insert_eq by (by rewrite (ro_length _ _ (so_rows _ _ Hs))). cbn. by rewrite Hk.
    - intros id' Hne. eapply lora_of_other; [done|by rewrite lookup_insert_ne|]. intros Hi'. apply Hix in Hi'. by destruct (Hfree id'). }
  assert (lora_of (req_id_to_index b) (rows (slots b)) (req_id request) = None) as HLnone by (unfold lora_of; by rewrite F1).
  assert (0 <= cached_num_tokens request <= Z.of_nat (max_model_len (cfg b))) as Hbound by (unfold cached_num_tokens, len; lia).
  pose proof (Hids _ F1) as Hblank. apply wp_bind. destruct (params_of request) as [p|pp|] eqn:Hp; [| |done]; rewrite <- Hp in Hadded.
  - eapply wp_add_sampling; [cbn; by rewrite list_lookup_insert_eq by (by rewrite (ro_length _ _ (so_rows _ _ Hs)))| | |exact F6|exact F7|]; [exact (so_mask _ _ Hs)|exact Hmax|].
    unfold sampling_added. batch_simpl. intros m Hm Hmw. wp_steps. eapply (wp_add_lora _ (L' (set_row_lora k (sampling_row to_float32 (cfg b) p r1)))); [cbn; by rewrite list_insert_insert_eq, list_lookup_insert_eq by (by rewrite (ro_length _ _ (so_rows _ _ Hs)))|exact Hlora|done|exact F8|by apply HL|by apply HL|].
    intros lids loras Hlora'. batch_simpl. apply wp_ret. rewrite !list_insert_insert_eq.
    eapply (add_finish b request i bd Hopen F1 Hmax Hfree Hbd Hmoved Hadded Hrem ids Hids2 Hids3 outs Ho2 Ho3 Hids4 Ho4 ts Hts
      (set_row_lora k (sampling_row to_float32 (cfg b) p r1)) Ht1 Hbound _ _ m _ ltac:(by rewrite Hp) Hm (so_needs _ _ Hs)); [|exact Hlora'|].
    + intros id'. by apply id_view_sampling.
    + unfold request_shown. rewrite Hp. cbn. unfold trim, valid_tokens. cbn. by rewrite Ht2.
  - unfold add_pooling, on_slots. wp_steps. eapply wp_lift_outcome; [apply array_set_lt; cbn; by rewrite (so_needs _ _ Hs)|]. wp_steps. batch_simpl.
    eapply (wp_add_lora _ (L' (set_row_lora k r1))); [cbn; by rewrite list_lookup_insert_eq by (by rewrite (ro_length _ _ (so_rows _ _ Hs)))|exact Hlora|done|exact F8|by apply HL|by apply HL|].
    intros lids loras Hlora'. batch_simpl. apply wp_ret. rewrite !list_insert_insert_eq.
    eapply (add_finish b request i bd Hopen F1 Hmax Hfree Hbd Hmoved Hadded Hrem ids Hids2 Hids3 outs Ho2 Ho3 Hids4 Ho4 ts Hts
      (set_row_lora k r1) Ht1 Hbound None None _ _ ltac:(rewrite Hp; by split) (so_mask _ _ Hs)); [| |exact Hlora'|].
    + batch_simpl. rewrite length_insert. apply (so_needs _ _ Hs).
    + intros id'. by apply id_view_pooling.
    + unfold request_shown. rewrite Hp. cbn. unfold visible_row, trim, valid_tokens, blank_sampling. cbn. by rewrite Ht2.
Qed.
End adding.
