(* ===== verification/InputBatchMoves.v ===== *)
(** Moving the rows of the persistent batch: [condense] and [swap_states] leave what every
    request shows as it is, and [condense] leaves the requests in the first rows. *)
From Stdlib Require Import ZArith QArith Lia.
From stdpp Require Import base strings countable gmap sets list sorting relations.
From S2P Require Import Prelude Request BlockTable BatchUpdate InputBatch InputBatchFacts.
Local Open Scope Z_scope.

(** * Condensing *)
Section condensing.
Implicit Types (b : InputBatch) (c : BatchConfig) (s : Slots).

Lemma move_row_data_spec c from to :
  length (row_token_ids from) = max_model_len c → length (row_token_ids to) = max_model_len c →
  0 <= row_num_tokens from <= Z.of_nat (max_model_len c) →
  ∃ r, move_row_data from to = Ok r ∧ trim r = trim from ∧ row_lora r = row_lora from ∧
    length (row_token_ids r) = max_model_len c ∧ row_num_tokens r = row_num_tokens from.
Proof.
  intros Hf Ht Hn. unfold move_row_data.
  assert (length (take (Z.to_nat (row_num_tokens from)) (row_token_ids from)) = Z.to_nat (row_num_tokens from)) as Hl by (rewrite length_take; lia).
  destruct (assign_slice_ok (row_token_ids to) 0 (take (Z.to_nat (row_num_tokens from)) (row_token_ids from))) as (toks & -> & Hlt & Htk); [lia|].
  cbn [mbind outcome_bind]. eexists. split_and!; [done| |done|by rewrite <- Ht|done].
  unfold trim, valid_tokens. cbn. cbn in Htk. rewrite Hl in Htk. by rewrite Htk.
Qed.

Lemma lookup_move_entry {V} (d : gmap nat V) i j k :
  i ≠ j → d !! j = None → move_entry d i j !! k = if decide (k = j) then d !! i else if decide (k = i) then None else d !! k.
Proof.
  intros Hij Hj. unfold move_entry. repeat case_decide; subst; destruct (d !! i) as [v|] eqn:Hv;
    rewrite ?lookup_insert_eq, ?lookup_insert_ne, ?lookup_delete_eq, ?lookup_delete_ne by congruence; congruence.
Qed.

Lemma wp_copy_mask_row b c i j Q :
  mask_ok c (allowed_token_ids_mask (slots b)) → (i < max_num_reqs c)%nat → (j < max_num_reqs c)%nat →
  (∀ m, mask_ok c m → row_in m j = mask_row b i → (∀ k, k ≠ j → row_in m k = mask_row b k) → Q tt (set_slots (set_mask m (slots b)) b)) →
  wp (copy_mask_row i j) Q b.
Proof.
  intros Hok Hi Hj HQ. unfold copy_mask_row. apply wp_bind, wp_gets. destruct (allowed_token_ids_mask (slots b)) as [m|] eqn:Hm.
  - pose proof (Hok m eq_refl). destruct (lookup_lt_is_Some_2 m i) as [r Hr]; [lia|]. apply wp_bind.
    eapply wp_lift_outcome; [by apply array_get_Some|]. apply wp_bind. eapply wp_lift_outcome; [apply array_set_lt; lia|].
    apply wp_zoom, wp_modify. unfold mask_row in HQ. rewrite Hm in HQ. cbn [row_in option_bind mbind] in HQ. apply HQ.
    + intros m' [= <-]. by rewrite length_insert.
    + cbn. by rewrite list_lookup_insert_eq, Hr by lia.
    + intros k Hk. cbn. by rewrite list_lookup_insert_ne.
  - apply wp_ret. specialize (HQ None). unfold mask_row in HQ. destruct b as [? ? [] ? ? ? ? ?]. cbn in *. subst. by apply HQ.
Qed.

(** The request in the row [i] has moved into the hole [j]. *)
Record moved_request b i j b' : Prop := {
  mv_ok : batch_ok b';
  mv_builder : batch_update_builder b' = mkBuilder (_removed (batch_update_builder b)) (_is_removed_sorted (batch_update_builder b))
                 (b_moved (batch_update_builder b) ++ [(i, j, UNIDIRECTIONAL)]) (b_added (batch_update_builder b));
  mv_cfg : cfg b' = cfg b;
  mv_ids : ∀ id, _req_ids (slots b) !! i = Some (Some id) → _req_ids (slots b') = <[i := None]> (<[j := Some id]> (_req_ids (slots b)));
  mv_size : num_reqs b' = num_reqs b;
  mv_tables : tables_frame (block_table (slots b)) (block_table (slots b'));
  mv_shown : shown b' = shown b;
  mv_mask : mask_row b' j = mask_row b i;
  mv_masks : ∀ k, k ≠ j → mask_row b' k = mask_row b k
}.

Lemma wp_move_request b i j id :
  batch_ok b → _req_ids (slots b) !! i = Some (Some id) → _req_ids (slots b) !! j = Some None →
  wp (move_request i j) (λ _ b', moved_request b i j b') b.
Proof.
  intros [Hs Hix Hids Hlora Hb] Hi Hj. assert (i ≠ j) as Hij by congruence. assert (j ≠ i) as Hji by congruence.
  pose proof (lookup_lt_Some _ _ _ Hi) as Hli. pose proof (lookup_lt_Some _ _ _ Hj) as Hlj. pose proof (so_ids _ _ Hs) as Hsi.
  pose proof (proj2 (Hix id i) Hi) as Hixi. pose proof (so_outputs _ _ Hs) as Hso.
  destruct (lookup_lt_is_Some_2 (req_output_token_ids (slots b)) i) as [out Hout]; [lia|].
  destruct (lookup_lt_is_Some_2 (rows (slots b)) i) as [from Hfrom]; [rewrite (ro_length _ _ (so_rows _ _ Hs)); lia|].
  destruct (lookup_lt_is_Some_2 (rows (slots b)) j) as [to Hto]; [rewrite (ro_length _ _ (so_rows _ _ Hs)); lia|].
  destruct (ro_row _ _ (so_rows _ _ Hs) i from Hfrom) as [Hf1 Hf2]. destruct (ro_row _ _ (so_rows _ _ Hs) j to Hto) as [Ht1 _].
  destruct (move_row_data_spec (cfg b) from to Hf1 Ht1 Hf2) as (r & Hmove & Htrim & Hrl & Hr1 & Hr2).
  unfold move_request, on_builder, on_slots, on_blocks, record_moved. wp_steps. batch_simpl.
  eapply wp_lift_outcome; [by apply array_get_Some|]. wp_steps. eapply wp_lift_outcome; [by apply array_get_Some|]. wp_steps.
  eapply wp_lift_outcome; [apply array_set_lt; lia|]. wp_steps. eapply wp_lift_outcome; [apply array_set_lt; rewrite length_insert; lia|]. wp_steps. batch_simpl.
  eapply wp_lift_outcome; [apply array_set_lt; lia|]. wp_steps. eapply wp_lift_outcome; [apply array_set_lt; rewrite length_insert; lia|]. wp_steps. batch_simpl.
  eapply wp_lift_outcome; [by apply array_get_Some|]. apply wp_bind. eapply wp_update_row; [exact Hto|exact Hmove|]. batch_simpl.
  apply wp_bind. unfold on_slots. apply wp_zoom, wp_zoom. eapply wp_mono.
  { apply (multi_move_row_spec (max_num_reqs (cfg b))); [exact (so_tables _ _ Hs)|lia|lia]. }
  batch_simpl. intros [] ts [Hts Hframe Hrow Hothers]. wp_steps. batch_simpl.
  eapply (wp_copy_mask_row _ (cfg b)); [exact (so_mask _ _ Hs)|lia|lia|]. intros m Hm Hmj Hmk. wp_steps. batch_simpl.
  assert (∀ id', id' ≠ id → ∀ k, req_id_to_index b !! id' = Some k → k ≠ i ∧ k ≠ j) as Hother.
  { intros id' Hne k Hk. split; intros ->; [apply Hne; symmetry; by eapply index_ok_inj|]. apply Hix in Hk. congruence. }
  assert (j < length (rows (slots b)))%nat as Hjr by by eapply lookup_lt_Some.
  assert (generators (slots b) !! j = None) as Hgj by (eapply keys_ok_free; [apply (so_generators _ _ Hs)|congruence]).
  assert (bad_words (slots b) !! j = None) as Hwj by (eapply keys_ok_free; [apply (so_bad_words _ _ Hs)|congruence]).
  split; try done; batch_simpl.
  - split; batch_simpl; try done.
    + split; batch_simpl; rewrite ?length_insert; try done; [|by eapply keys_ok_move; [apply (so_generators _ _ Hs)| |]|by eapply keys_ok_move; [apply (so_bad_words _ _ Hs)| |]|apply (so_needs _ _ Hs)].
      apply rows_ok_insert; [apply (so_rows _ _ Hs)|done|lia].
    + by apply index_ok_move.
    + intros id' Hnone. apply lookup_insert_None in Hnone as [Hnone _]. by apply Hids.
    + eapply lora_ok_ext; [exact Hlora|]. intros id'. unfold lora_of. destruct (decide (id' = id)) as [->|Hne].
      * rewrite lookup_insert_eq, Hixi. cbn. rewrite list_lookup_insert_eq, Hfrom by done. cbn. by rewrite Hrl.
      * rewrite lookup_insert_ne by done. destruct (req_id_to_index b !! id') as [k|] eqn:Hk; [|done]. cbn.
        destruct (Hother id' Hne k Hk). by rewrite list_lookup_insert_ne.
  - intros id' Hid'. by simplify_eq.
  - unfold num_reqs. batch_simpl. apply map_size_insert_Some. by exists i.
  - apply map_eq. intros id'. apply shown_agree; [|done]. batch_simpl. destruct (decide (id' = id)) as [->|Hne].
    + rewrite Hixi, lookup_insert_eq. unfold row_view. batch_simpl. rewrite list_lookup_insert_eq, Hfrom by done. cbn.
      rewrite Htrim, Hrow. do 2 f_equal.
      * by rewrite lookup_move_entry, decide_True.
      * by rewrite lookup_move_entry, decide_True.
      * rewrite list_lookup_insert_ne, list_lookup_insert_eq, Hout by (done || lia). done.
    + rewrite lookup_insert_ne by done. destruct (req_id_to_index b !! id') as [k|] eqn:Hk; [|done].
      destruct (Hother id' Hne k Hk) as [Hki Hkj]. unfold row_view. batch_simpl.
      rewrite !list_lookup_insert_ne, (Hothers k Hkj) by congruence.
      rewrite !lookup_move_entry by done.
      by rewrite !decide_False.
Qed.

(** [condense] as steps: the builder's rows are sorted, or a request moves from the row
    [i] into the removed row [j]. *)
Record row_step b b' (i j : nat) : Prop := {
  rs_from : ∃ id, _req_ids (slots b) !! i = Some (Some id) ∧ _req_ids (slots b') = <[i := None]> (<[j := Some id]> (_req_ids (slots b)));
  rs_to : _req_ids (slots b) !! j = Some None;
  rs_source : i ∉ _removed (batch_update_builder b);
  rs_removed : _removed (batch_update_builder b) ≡ₚ j :: _removed (batch_update_builder b');
  rs_moved : b_moved (batch_update_builder b') = b_moved (batch_update_builder b) ++ [(i, j, UNIDIRECTIONAL)];
  rs_mask : mask_row b' j = mask_row b i;
  rs_masks : ∀ k, k ≠ j → mask_row b' k = mask_row b k
}.
Record sort_step b b' : Prop := {
  ss_slots : slots b' = slots b;
  ss_removed : _removed (batch_update_builder b) ≡ₚ _removed (batch_update_builder b');
  ss_moved : b_moved (batch_update_builder b') = b_moved (batch_update_builder b)
}.
Record condense_frame b b' : Prop := {
  cf_ok : batch_ok b';
  cf_cfg : cfg b' = cfg b;
  cf_size : num_reqs b' = num_reqs b;
  cf_added : b_added (batch_update_builder b') = b_added (batch_update_builder b);
  cf_tables : tables_frame (block_table (slots b)) (block_table (slots b'));
  cf_shown : shown b' = shown b
}.
Definition condense_step b b' : Prop := condense_frame b b' ∧ (sort_step b b' ∨ ∃ i j, row_step b b' i j).

Lemma tables_frame_refl ts : tables_frame ts ts.
Proof. apply Forall2_same_length_lookup. split; [done|]. intros g t t' H1 H2. by simplify_eq. Qed.
Lemma tables_frame_trans ts1 ts2 ts3 : tables_frame ts1 ts2 → tables_frame ts2 ts3 → tables_frame ts1 ts3.
Proof.
  intros H1 H2. eapply Forall2_trans; [|exact H1|exact H2]. intros x y z [] []. split; congruence.
Qed.

Lemma condense_frame_refl b : batch_ok b → condense_frame b b.
Proof. intros H. by split; [| | | |apply tables_frame_refl|]. Qed.
Lemma condense_frame_trans b1 b2 b3 : condense_frame b1 b2 → condense_frame b2 b3 → condense_frame b1 b3.
Proof.
  intros [A1 A2 A3 A4 A5 A6] [B1 B2 B3 B4 B5 B6]. split; [done|congruence|congruence|congruence|by eapply tables_frame_trans|congruence].
Qed.
Lemma condense_steps_frame b b' : batch_ok b → rtc condense_step b b' → condense_frame b b'.
Proof.
  intros Hb. induction 1 as [b|b1 b2 b3 [Hf _] _ IH]; [by apply condense_frame_refl|].
  eapply condense_frame_trans; [done|]. apply IH, Hf.
Qed.

Lemma sort_step_intro b bd :
  batch_ok b → builder_ok bd → _removed bd ≡ₚ _removed (batch_update_builder b) → b_moved bd = b_moved (batch_update_builder b) →
  b_added bd = b_added (batch_update_builder b) → condense_step b (set_builder bd b).
Proof.
  intros [Hs Hix Hids Hlora Hb] Hbd Hr Hm Ha. split; [|left; by split].
  by split; [split| | | |apply tables_frame_refl|].
Qed.

Lemma skip_empty_spec (empty : list nat) last :
  (∃ i, (i <= last)%nat ∧ (i ∉ empty)) →
  (skip_empty last empty <= last)%nat ∧ (skip_empty last empty ∉ empty) ∧
  ∀ k, (skip_empty last empty < k)%nat → (k <= last)%nat → k ∈ empty.
Proof.
  induction last as [|last IH]; intros (i & Hi & Hin); cbn [skip_empty]; (destruct (decide _) as [He|He]).
  - by replace i with 0%nat in Hin by lia.
  - split_and!; [lia|done|]. intros k ??. lia.
  - destruct IH as (H1 & H2 & H3); [exists i; split; [|done]; destruct (decide (i = S last)); [by subst|lia]|].
    split_and!; [lia|done|]. intros k Hk Hk'. destruct (decide (k = S last)) as [->|]; [done|]. apply H3; lia.
  - split_and!; [lia|done|]. intros k ??. lia.
Qed.

(** No request is behind the row [last], and the builder's rows before it are the holes. *)
Record loop_ok (last : nat) b : Prop := {
  lk_ok : batch_ok b;
  lk_some : (0 < num_reqs b)%nat;
  lk_last : (last < length (_req_ids (slots b)))%nat;
  lk_occupied : ∀ i id, _req_ids (slots b) !! i = Some (Some id) → (i <= last)%nat;
  lk_nodup : NoDup (_removed (batch_update_builder b));
  lk_holes : ∀ i, (i <= last)%nat → i ∈ _removed (batch_update_builder b) ↔ _req_ids (slots b) !! i = Some None
}.

Lemma loop_ok_occupied last b : loop_ok last b → ∃ i id, _req_ids (slots b) !! i = Some (Some id).
Proof.
  intros H. pose proof (lk_some _ _ H) as Hn. unfold num_reqs in Hn. destruct (map_choose (req_id_to_index b)) as (id & i & Hi).
  { intros He. rewrite He, map_size_empty in Hn. lia. }
  exists i, id. by apply (bo_index _ (lk_ok _ _ H)).
Qed.

(** The requests are in the first rows. *)
Definition compact b : Prop := ∀ i, (∃ id, _req_ids (slots b) !! i = Some (Some id)) ↔ (i < num_reqs b)%nat.

(** The rows are dense when the last request is before the first hole. *)
Lemma loop_ok_dense last b L :
  loop_ok last b → (L <= last)%nat → (∀ i id, _req_ids (slots b) !! i = Some (Some id) → (i <= L)%nat) →
  (∀ j, j ∈ _removed (batch_update_builder b) → (L < j)%nat) → compact b.
Proof.
  intros H HL Hocc Hholes. assert (∀ i, (∃ id, _req_ids (slots b) !! i = Some (Some id)) ↔ (i < S L)%nat) as Hpre.
  { intros i. split; [intros [id Hi]; apply Hocc in Hi; lia|]. intros Hi.
    destruct (lookup_lt_is_Some_2 (_req_ids (slots b)) i) as [[id|] Hid]; [pose proof (lk_last _ _ H); lia|by exists id|].
    apply (lk_holes _ _ H) in Hid; [|lia]. apply Hholes in Hid. lia. }
  intros i. rewrite Hpre. by rewrite (dense_prefix _ _ _ (bo_index _ (lk_ok _ _ H)) Hpre).
Qed.


Lemma loop_ok_sort last b bd :
  loop_ok last b → builder_ok bd → _removed bd ≡ₚ _removed (batch_update_builder b) → loop_ok last (set_builder bd b).
Proof.
  intros [[Hs Hix Hids Hlora Hb] H2 H3 H4 H5 H6] Hbd Hr. split; batch_simpl; try done; [by rewrite Hr|].
  intros i Hi. rewrite Hr. by apply H6.
Qed.

(** One round: the last request moves into the first hole. *)
Lemma wp_condense_round last b bd L e Q :
  loop_ok last b → builder_ok bd → _removed (batch_update_builder b) ≡ₚ e :: _removed bd →
  b_moved bd = b_moved (batch_update_builder b) → b_added bd = b_added (batch_update_builder b) →
  (L <= last)%nat → (L ∉ _removed (batch_update_builder b)) → (e < L)%nat →
  (∀ i id, _req_ids (slots b) !! i = Some (Some id) → (i <= L)%nat) →
  (∀ b', condense_step b b' → loop_ok (pred L) b' → length (_removed (batch_update_builder b')) = length (_removed bd) → Q tt b') →
  wp (move_request L e) Q (set_builder bd b).
Proof.
  intros Hl Hbd Hr Hm Ha HL HLr HeL Hocc HQ. pose proof Hl as [Hok H2 H3 H4 H5 H6].
  destruct (lookup_lt_is_Some_2 (_req_ids (slots b)) L) as [[id|] HidL]; [lia| |apply (H6 L HL) in HidL; done].
  assert (_req_ids (slots b) !! e = Some None) as He by (apply H6; [lia|]; rewrite Hr; by left).
  eapply wp_mono; [eapply (wp_move_request _ L e id); [|done|done]|].
  { destruct Hok as [A1 A2 A3 A4 A5]. by split. }
  intros [] b' [M1 M2 M3 M4 M5 M6 M7 M8 M9]. specialize (M4 id HidL). batch_simpl.
  assert (condense_step b b') as Hstep.
  { split.
    - split; [done|done|done|by rewrite M2|done|]. by rewrite M7.
    - right. exists L, e. split; [by exists id|done|done|by rewrite M2|by rewrite M2, <- Hm|exact M8|exact M9]. }
  apply HQ; [done| |by rewrite M2]. pose proof (lookup_lt_Some _ _ _ HidL) as HLlt. pose proof (lookup_lt_Some _ _ _ He) as Helt.
  rewrite Hr in H5. apply NoDup_cons in H5 as [He5 H5]. split; rewrite ?M2; cbn [_removed]; try done.
  - unfold num_reqs in *. by rewrite M5.
  - rewrite M4, !length_insert. lia.
  - intros i id'. rewrite M4. rewrite !list_lookup_insert_Some. intros [(<- & ? & _)|[Hi [(<- & _ & _)|[_ Hi']]]]; [done|lia|].
    apply Hocc in Hi'. lia.
  - intros i Hi. rewrite M4, list_lookup_insert_ne by lia. destruct (decide (i = e)) as [->|Hie].
    + rewrite list_lookup_insert_eq by done. split; [done|]. by intros [= ?].
    + rewrite list_lookup_insert_ne by done. rewrite <- H6 by lia. rewrite Hr, elem_of_cons. naive_solver.
Qed.

Lemma wp_condense_loop fuel last b :
  loop_ok last b → (length (_removed (batch_update_builder b)) < fuel)%nat →
  wp (condense_loop fuel last) (λ _ b', rtc condense_step b b' ∧ compact b') b.
Proof.
  revert last b. induction fuel as [|fuel IH]; intros last b Hl Hfuel; [lia|]. cbn [condense_loop]. unfold on_builder.
  wp_steps. eapply wp_mono; [apply read_removed_spec, (bo_builder _ (lk_ok _ _ Hl))|].
  intros empty bd (Hbd & Hbm & Hba & Hbr & Hbp).
  assert (_removed bd ≡ₚ _removed (batch_update_builder b)) as Hbp' by by rewrite Hbr.
  pose proof (sort_step_intro b bd (lk_ok _ _ Hl) Hbd Hbp' Hbm Hba) as Hsort1. pose proof (loop_ok_sort last b bd Hl Hbd Hbp') as Hl1.
  destruct empty as [|x empty].
  { apply wp_ret. split; [by apply rtc_once|]. apply (loop_ok_dense last _ last Hl1); [done|apply (lk_occupied _ _ Hl1)|].
    batch_simpl. rewrite Hbr. by intros j ?%not_elem_of_nil. }
  set (empty0 := x :: empty) in *. destruct (loop_ok_occupied _ _ Hl1) as (o & oid & Ho).
  destruct (skip_empty_spec empty0 last) as (HL1 & HL2 & HL3).
  { exists o. pose proof (lk_occupied _ _ Hl1 _ _ Ho). split; [done|]. rewrite <- Hbr.
    change (o ∉ _removed (batch_update_builder (set_builder bd b))). rewrite (lk_holes _ _ Hl1) by done. by rewrite Ho. }
  set (L := skip_empty last empty0) in *. cbv zeta. wp_steps. batch_simpl.
  eapply wp_mono; [by apply peek_removed_spec|]. intros r bd2 (Hbd2 & Hbm2 & Hba2 & Hleast & Hbp2).
  destruct r as [e|]; cbn in Hleast; [|by rewrite Hbr in Hleast]. destruct Hleast as [He Hleast].
  assert (_removed bd2 ≡ₚ _removed (batch_update_builder b)) as Hbp2' by by rewrite Hbp2.
  pose proof (sort_step_intro b bd2 (lk_ok _ _ Hl) Hbd2 Hbp2' ltac:(congruence) ltac:(congruence)) as Hsort2.
  pose proof (loop_ok_sort last b bd2 Hl Hbd2 Hbp2') as Hl2.
  change (set_builder bd2 (set_builder bd b)) with (set_builder bd2 b).
  assert (∀ i id, _req_ids (slots b) !! i = Some (Some id) → (i <= L)%nat) as Hocc.
  { intros i id Hi. pose proof (lk_occupied _ _ Hl _ _ Hi) as Hil. destruct (decide (i <= L)%nat) as [|Hgt]; [done|].
    exfalso. pose proof (HL3 i ltac:(lia) Hil) as Hin. rewrite <- Hbr, Hbp' in Hin. apply (lk_holes _ _ Hl i Hil) in Hin. congruence. }
  case_decide as Hle.
  { apply wp_ret. split; [by apply rtc_once|]. apply (loop_ok_dense last _ L Hl2); [done|exact Hocc|].
    batch_simpl. intros j Hj. rewrite Hbp2 in Hj. pose proof (Hleast j Hj). destruct (decide (j = L)) as [->|]; [|lia].
    by rewrite Hbr in Hj. }
  wp_steps. batch_simpl. eapply wp_mono; [by apply pop_removed_spec|]. intros r bd3 (Hbd3 & Hbm3 & Hba3 & Hleast3 & Hp3).
  destruct r as [e'|]; cbn in Hleast3; [|exfalso; rewrite <- Hbp2, Hleast3 in He; by apply not_elem_of_nil in He].
  assert (e' = e) as ->.
  { destruct Hleast3 as [H1 H2]. pose proof (H2 e ltac:(by rewrite Hbp2)). rewrite Hbp2 in H1. pose proof (Hleast e' H1). lia. }
  change (set_builder bd3 (set_builder bd2 b)) with (set_builder bd3 b).
  apply wp_bind. apply (wp_condense_round last b bd3 L e); try done.
  - by rewrite <- Hbp2'.
  - congruence.
  - congruence.
  - by rewrite <- Hbp', Hbr.
  - lia.
  - intros b' Hstep Hl' Hlen. eapply wp_mono; [apply (IH _ _ Hl')|].
    + rewrite Hlen. pose proof (Permutation_length Hp3) as Hlp. pose proof (Permutation_length Hbp2') as Hlp2. cbn in Hlp. lia.
    + intros [] b'' [Hrtc Hc]. split; [by eapply rtc_l|done].
Qed.

(** The lists cut off behind the last request. *)
Definition cut b : InputBatch :=
  set_slots (set_outputs (take (num_reqs b) (req_output_token_ids (slots b)))
    (set_req_ids (take (num_reqs b) (_req_ids (slots b))) (slots b))) b.

Lemma compact_take b i id :
  compact b → _req_ids (slots b) !! i = Some (Some id) ↔ take (num_reqs b) (_req_ids (slots b)) !! i = Some (Some id).
Proof.
  intros Hc. rewrite lookup_take_Some. split; [|by intros []]. intros Hi. split; [done|]. apply Hc. by exists id.
Qed.
Lemma compact_length b : compact b → length (take (num_reqs b) (_req_ids (slots b))) = num_reqs b.
Proof.
  intros Hc. rewrite length_take. apply Nat.min_l. destruct (num_reqs b) as [|n] eqn:Hn; [lia|].
  destruct (proj2 (Hc n)) as [id Hi]; [rewrite Hn; lia|]. apply lookup_lt_Some in Hi. lia.
Qed.
Lemma compact_keys {V} (d : gmap nat V) b : compact b → keys_ok d (_req_ids (slots b)) → keys_ok d (take (num_reqs b) (_req_ids (slots b))).
Proof. intros Hc Hd i Hi. destruct (Hd i Hi) as [id Hid]. exists id. by apply compact_take. Qed.

Lemma cut_ok b : batch_ok b → compact b → batch_ok (cut b).
Proof.
  intros [[S1 S2 S3 S4 S5 S6 S7 S8] Hix Hids Hlora Hb] Hc. split; try done; cbn.
  - split; cbn; try done; [by rewrite !length_take, S3|rewrite length_take; lia|by apply compact_keys|by apply compact_keys].
  - intros id i. rewrite <- compact_take by done. apply Hix.
Qed.

Record condensed b b' : Prop := {
  cd_frame : condense_frame b b';
  cd_length : length (_req_ids (slots b')) = num_reqs b';
  cd_dense : dense (_req_ids (slots b'));
  cd_steps : ∃ b1, rtc condense_step b b1 ∧ compact b1 ∧ b' = cut b1
}.

Lemma cut_condensed b b1 : batch_ok b → rtc condense_step b b1 → compact b1 → condensed b (cut b1).
Proof.
  intros Hok Hsteps Hc. pose proof (condense_steps_frame _ _ Hok Hsteps) as [H1 H2 H3 H4 H5 H6]. split.
  - split; try done; [by apply cut_ok|]. rewrite <- H6. apply map_eq. intros id. apply shown_agree; [|done]. cbn.
    destruct (req_id_to_index b1 !! id) as [i|] eqn:Hi; [|done]. unfold row_view. cbn.
    assert (i < num_reqs b1)%nat by (apply Hc; exists id; by apply (bo_index _ H1)). by rewrite lookup_take_lt.
  - exact (compact_length b1 Hc).
  - intros i Hi. cbn in Hi. apply lookup_take_Some in Hi as [Hi Hlt]. apply Hc in Hlt as [id ?]. congruence.
  - by exists b1.
Qed.

Lemma wp_cut b Q :
  Q tt (cut b) →
  wp (n ← gets num_reqs;
      on_slots (modify (λ s, set_req_ids (take n (_req_ids s)) s)) ;;
      on_slots (modify (λ s, set_outputs (take n (req_output_token_ids s)) s))) Q b.
Proof. intros HQ. unfold on_slots. wp_steps. exact HQ. Qed.

(** Without holes the rows are as [condense] leaves them. *)
Lemma open_compact b : batch_open b → _removed (batch_update_builder b) = [] → compact b ∧ cut b = b.
Proof.
  intros [Hok Hholes] Hr. pose proof (rows_counted _ _ _ (bo_index _ Hok) Hholes) as Hl. rewrite Hr in Hl. cbn in Hl.
  assert (compact b) as Hc.
  { intros i. unfold num_reqs. replace (base.size _) with (length (_req_ids (slots b))) by lia. split; [intros [id Hi]; by eapply lookup_lt_Some|].
    intros Hi. destruct (lookup_lt_is_Some_2 _ _ Hi) as [[id|] Hid]; [by exists id|]. apply Hholes in Hid. rewrite Hr in Hid. by apply not_elem_of_nil in Hid. }
  split; [done|]. pose proof (so_outputs _ _ (bo_slots _ Hok)). unfold cut, num_reqs.
  rewrite !take_ge by lia. by destruct b as [? ? [] ? ? ? ? ?].
Qed.

Lemma wp_condense b : batch_open b → wp condense (λ _ b', condensed b b') b.
Proof.
  intros [Hok Hholes]. unfold condense, on_builder. wp_steps. eapply wp_mono; [apply read_removed_spec, (bo_builder _ Hok)|].
  intros empty bd (Hbd & Hbm & Hba & Hbr & Hbp).
  assert (_removed bd ≡ₚ _removed (batch_update_builder b)) as Hbp' by by rewrite Hbr.
  pose proof (sort_step_intro b bd Hok Hbd Hbp' Hbm Hba) as Hsort. set (b1 := set_builder bd b) in *.
  assert (batch_open b1) as Hopen1.
  { split; [apply Hsort|]. unfold b1. batch_simpl. destruct Hholes as [H1 H2]. split; [by rewrite Hbp'|]. intros i. rewrite Hbp'. apply H2. }
  pose proof (rows_counted _ _ _ (bo_index _ (proj1 Hopen1)) (proj2 Hopen1)) as Hl.
  assert (num_reqs b1 = num_reqs b) as Hn by done. change (base.size (req_id_to_index b1)) with (num_reqs b1) in Hl.
  change (_removed (batch_update_builder b1)) with (_removed bd) in Hl. rewrite Hbr in Hl. destruct empty as [|x empty].
  { apply wp_ret. destruct (open_compact b1 Hopen1) as [Hc Hcut]; [done|]. rewrite <- Hcut. apply cut_condensed; [done|by apply rtc_once|done]. }
  apply wp_bind, wp_gets. case_decide as Hz.
  - unfold on_slots. wp_steps. assert (compact b1) as Hc.
    { intros i. rewrite Hz. split; [|lia]. intros [id Hi]. exfalso. apply (bo_index _ Hok) in Hi. change (base.size (req_id_to_index b) = 0%nat) in Hz.
      apply map_size_empty_inv in Hz. by rewrite Hz in Hi. }
    pose proof (cut_condensed b b1 Hok (rtc_once _ _ Hsort) Hc) as Hcond. unfold cut in Hcond. by rewrite Hz in Hcond.
  - apply wp_bind. eapply wp_mono; [apply wp_condense_loop|].
    + pose proof (proj2 Hopen1) as [H1 H2]. split; [apply Hopen1|lia|cbn [length] in *; lia| |done|intros i _; apply H2].
      intros i id Hi. apply lookup_lt_Some in Hi. lia.
    + change (_removed (batch_update_builder b1)) with (_removed bd). rewrite Hbr. lia.
    + intros [] b2 [Hsteps Hc]. apply wp_cut, cut_condensed; [done|by eapply rtc_l|done].
Qed.
End condensing.

(** * The rows of the mask of allowed tokens *)

Definition allowed_of (p : BatchParams) : option (list Z) :=
  match p with Sampling p => allowed_token_ids p | Pooling _ | NoParams => None end.
(** The row [i] of the mask allows the tokens [o], where there are some. *)
Definition mask_for (b : InputBatch) (i : nat) (o : option (list Z)) : Prop :=
  ∀ t ids, o = Some (t :: ids) →
    ∃ row, allow_row (Z.to_nat (vocab_size (cfg b))) (t :: ids) = Ok row ∧ mask_row b i = Some row.
(** Every request of the batch that has allowed tokens has its row of the mask. *)
Definition masks_follow (P : string → option BatchParams) (b : InputBatch) : Prop :=
  ∀ id i p, req_id_to_index b !! id = Some i → P id = Some p → mask_for b i (allowed_of p).
Definition params_in (T : gmap string (BatchParams * list_ref)) (id : string) : option BatchParams := fst <$> T !! id.

Lemma masks_follow_keep P P' b b' :
  (∀ id i, req_id_to_index b' !! id = Some i →
     ∃ i0, req_id_to_index b !! id = Some i0 ∧ mask_row b' i = mask_row b i0 ∧ P' id = P id) →
  cfg b' = cfg b → masks_follow P b → masks_follow P' b'.
Proof.
  intros Hkeep Hcfg H id i p Hi Hp t ids Ho. destruct (Hkeep id i Hi) as (i0 & Hi0 & Hrow & HP). rewrite Hcfg, Hrow.
  rewrite HP in Hp. by apply (H id i0 p).
Qed.

Lemma masks_follow_remove P b id i b' :
  batch_open b → req_id_to_index b !! id = Some i → removed_request b id i b' → masks_follow P b → masks_follow P b'.
Proof.
  intros [Hok _] Hi [_ _ Hcfg _ Hix _ _ Hm]. apply masks_follow_keep; [|done]. intros id' j Hj. exists j.
  rewrite Hix in Hj. apply lookup_delete_Some in Hj as [Hne Hj]. split_and!; [done| |done]. apply Hm. intros ->. apply Hne.
  by eapply index_ok_inj; [apply (bo_index _ Hok)| |].
Qed.

Lemma masks_follow_add to_float32 P P' b r i b' :
  batch_open b → added_request to_float32 b r i b' → P' (req_id r) = Some (params_of r) →
  (∀ id, id ≠ req_id r → P' id = P id) → masks_follow P b → masks_follow P' b'.
Proof.
  intros [Hok _] [_ _ _ Hcfg Hfree _ _ Hix _ _ Hm] Hr HP H id j p Hj Hp t ids Ho. rewrite Hcfg. rewrite Hix in Hj.
  apply lookup_insert_Some in Hj as [[<- <-]|[Hne Hj]].
  - rewrite Hr in Hp. injection Hp as <-. apply (mw_row _ _ _ _ _ Hm t ids). by destruct (params_of r).
  - rewrite HP in Hp by done. destruct (H id j p Hj Hp t ids Ho) as (row & Hrow & Hmr). exists row. split; [done|].
    apply (mw_others _ _ _ _ _ Hm); [|done]. intros ->. apply (bo_index _ Hok) in Hj. by apply (Hfree id).
Qed.

Lemma masks_follow_condense P b b' : batch_ok b → condensed b b' → masks_follow P b → masks_follow P b'.
Proof.
  intros Hok [_ _ _ (b1 & Hsteps & _ & ->)] H. cut (masks_follow P b1); [by intros H1|].
  induction Hsteps as [|b b1 b2 [[F1 F2 F3 F4 F5 F6] Hstep] _ IH]; [done|]. apply IH; [done|]. clear IH.
  revert H. apply masks_follow_keep; [|done]. intros id i Hi. apply (bo_index _ F1) in Hi.
  destruct Hstep as [[S1 _ _]|(j & k & [(id' & Hid & S1) S2 _ _ _ S6 S7])].
  - exists i. rewrite S1 in Hi. split_and!; [by apply (bo_index _ Hok)|unfold mask_row; by rewrite S1|done].
  - rewrite S1, !list_lookup_insert_Some in Hi. destruct (decide (i = k)) as [->|Hne].
    + exists j. rewrite S6. split_and!; [|done|done]. apply (bo_index _ Hok). naive_solver.
    + exists i. rewrite S7 by done. split_and!; [|done|done]. apply (bo_index _ Hok). naive_solver.
Qed.

(** * Exchanging two rows *)
Section swapping.
Implicit Types (b : InputBatch) (c : BatchConfig) (s : Slots).

Lemma swap_entries_ok {A} (l : list A) i j x y :
  l !! i = Some x → l !! j = Some y → swap_entries l i j = Ok (<[j := x]> (<[i := y]> l)).
Proof. intros Hi Hj. unfold swap_entries. by rewrite (array_get_Some _ _ _ Hi), (array_get_Some _ _ _ Hj). Qed.

Lemma lookup_swap_entries {A} (l : list A) i j x y k :
  l !! i = Some x → l !! j = Some y →
  <[j := x]> (<[i := y]> l) !! k = if decide (k = j) then Some x else if decide (k = i) then Some y else l !! k.
Proof.
  intros Hi Hj. pose proof (lookup_lt_Some _ _ _ Hi). pose proof (lookup_lt_Some _ _ _ Hj). repeat case_decide; subst.
  - by rewrite list_lookup_insert_eq by (by rewrite length_insert).
  - by rewrite list_lookup_insert_ne, list_lookup_insert_eq by done.
  - by rewrite !list_lookup_insert_ne by congruence.
Qed.

Lemma lookup_swap_dict {V} (d : gmap nat V) i j k :
  swap_dict_values d i j !! k = if decide (k = i) then d !! j else if decide (k = j) then d !! i else d !! k.
Proof.
  unfold swap_dict_values. repeat case_decide; subst; destruct (d !! i) as [x|] eqn:Hi, (d !! j) as [y|] eqn:Hj;
    repeat first [rewrite lookup_insert_eq|rewrite lookup_delete_eq|rewrite lookup_insert_ne by congruence|rewrite lookup_delete_ne by congruence];
    congruence.
Qed.

(** The rows of the mask are views, and the row [i] is lost: both rows become the row [j]. *)
Definition swapped_mask (i j : nat) (mask : option (list (list bool))) : option (list (list bool)) :=
  (λ m, let row := default [] (m !! j) in <[j := row]> (<[i := row]> m)) <$> mask.

Lemma wp_swap_mask_rows b c i j Q :
  mask_ok c (allowed_token_ids_mask (slots b)) → (i < max_num_reqs c)%nat → (j < max_num_reqs c)%nat →
  (∀ m, mask_ok c m → m = swapped_mask i j (allowed_token_ids_mask (slots b)) → Q tt (set_slots (set_mask m (slots b)) b)) → wp (swap_mask_rows i j) Q b.
Proof.
  intros Hok Hi Hj HQ. unfold swap_mask_rows. apply wp_bind, wp_gets. destruct (allowed_token_ids_mask (slots b)) as [m|] eqn:Hm.
  - pose proof (Hok m eq_refl) as Hl. destruct (lookup_lt_is_Some_2 m i) as [x Hx]; [lia|]. destruct (lookup_lt_is_Some_2 m j) as [y Hy]; [lia|].
    assert (swap_views m i j = Ok (<[j := y]> (<[i := y]> m))) as Hv.
    { unfold swap_views. rewrite (array_get_Some _ _ _ Hx), (array_get_Some _ _ _ Hy). cbn.
      by rewrite (array_get_Some _ i y) by (by rewrite list_lookup_insert_eq by lia). }
    apply wp_bind. eapply wp_lift_outcome; [exact Hv|]. apply wp_zoom, wp_modify. apply HQ; [intros m' [= <-]; by rewrite !length_insert|]. cbn. by rewrite Hy.
  - apply wp_ret. specialize (HQ None). destruct b as [? ? [] ? ? ? ? ?]. cbn in *. subst. by apply HQ.
Qed.

(** The requests in the rows [i] and [j] have exchanged them. *)
Record swapped_requests b i j id1 id2 b' : Prop := {
  sw_ok : batch_ok b';
  sw_builder : batch_update_builder b' = mkBuilder (_removed (batch_update_builder b)) (_is_removed_sorted (batch_update_builder b))
                 (b_moved (batch_update_builder b) ++ [(i, j, SWAP)]) (b_added (batch_update_builder b));
  sw_cfg : cfg b' = cfg b;
  sw_ids : _req_ids (slots b') = <[j := Some id1]> (<[i := Some id2]> (_req_ids (slots b)));
  sw_size : num_reqs b' = num_reqs b;
  sw_tables : tables_frame (block_table (slots b)) (block_table (slots b'));
  sw_shown : shown b' = shown b;
  sw_mask : allowed_token_ids_mask (slots b') = swapped_mask i j (allowed_token_ids_mask (slots b))
}.

Lemma wp_swap_states b i j id1 id2 :
  batch_ok b → _req_ids (slots b) !! i = Some (Some id1) → _req_ids (slots b) !! j = Some (Some id2) →
  wp (swap_states i j) (λ _ b', swapped_requests b i j id1 id2 b') b.
Proof.
  intros [Hs Hix Hids Hlora Hb] Hi Hj. pose proof (lookup_lt_Some _ _ _ Hi) as Hli. pose proof (lookup_lt_Some _ _ _ Hj) as Hlj.
  pose proof (so_ids _ _ Hs) as Hsi. pose proof (proj2 (Hix id1 i) Hi) as Hi1. pose proof (proj2 (Hix id2 j) Hj) as Hj2. pose proof (so_outputs _ _ Hs) as Hso.
  destruct (lookup_lt_is_Some_2 (req_output_token_ids (slots b)) i) as [o1 Ho1]; [lia|].
  destruct (lookup_lt_is_Some_2 (req_output_token_ids (slots b)) j) as [o2 Ho2]; [lia|].
  destruct (lookup_lt_is_Some_2 (rows (slots b)) i) as [r1 Hr1]; [rewrite (ro_length _ _ (so_rows _ _ Hs)); lia|].
  destruct (lookup_lt_is_Some_2 (rows (slots b)) j) as [r2 Hr2]; [rewrite (ro_length _ _ (so_rows _ _ Hs)); lia|].
  unfold swap_states, on_builder, on_slots, on_blocks, record_moved. wp_steps. batch_simpl.
  eapply wp_lift_outcome; [by apply array_get_Some|]. wp_steps. eapply wp_lift_outcome; [by apply array_get_Some|]. wp_steps. batch_simpl.
  eapply wp_lift_outcome; [by apply swap_entries_ok|]. wp_steps. batch_simpl.
  eapply wp_lift_outcome; [by apply swap_entries_ok|]. wp_steps. batch_simpl. rewrite Hi1, Hj2.
  eapply wp_lift_outcome; [done|]. wp_steps. eapply wp_lift_outcome; [done|]. wp_steps. batch_simpl.
  eapply wp_lift_outcome; [by apply swap_entries_ok|]. wp_steps. batch_simpl.
  eapply (wp_swap_mask_rows _ (cfg b)); [exact (so_mask _ _ Hs)|lia|lia|]. intros m Hm Hmask. apply wp_zoom, wp_zoom. batch_simpl.
  eapply wp_mono; [apply (multi_swap_row_spec (max_num_reqs (cfg b))); [exact (so_tables _ _ Hs)|lia|lia]|].
  intros [] ts (Hts & Hframe & Hts1 & Hts2 & Hts3).
  assert (∀ id k, req_id_to_index b !! id = Some k → (id = id1 ∧ k = i) ∨ (id = id2 ∧ k = j) ∨ (id ≠ id1 ∧ id ≠ id2 ∧ k ≠ i ∧ k ≠ j)) as Hcase.
  { intros id k Hk. destruct (decide (id = id1)) as [->|]; [left; split; congruence|]. destruct (decide (id = id2)) as [->|]; [right; left; split; congruence|].
    right. right. split_and!; [done|done| |]; intros ->; apply Hix in Hk; congruence. }
  assert (∀ id k, req_id_to_index b !! id = Some k → ∃ k', <[id2 := i]> (<[id1 := j]> (req_id_to_index b)) !! id = Some k' ∧
    (k' = j ∧ k = i ∨ k' = i ∧ k = j ∧ i ≠ j ∨ k' = k ∧ k ≠ i ∧ k ≠ j)) as Hmoved.
  { intros id k Hk. destruct (decide (id = id2)) as [->|Hne2].
    - exists i. rewrite lookup_insert_eq. split; [done|]. assert (k = j) as -> by congruence. destruct (decide (i = j)) as [->|]; [by left|by right; left].
    - rewrite lookup_insert_ne by done. destruct (Hcase id k Hk) as [[-> ->]|[[-> _]|(H1 & _ & H3 & H4)]]; [exists j; rewrite lookup_insert_eq; by split; [|left]|done|].
      exists k. rewrite lookup_insert_ne by done. by split; [|right; right]. }
  split; try done; batch_simpl.
  - split; batch_simpl; try done.
    + split; batch_simpl; rewrite ?length_insert; try done; [|by eapply keys_ok_swap; [apply (so_generators _ _ Hs)| |]|by eapply keys_ok_swap; [apply (so_bad_words _ _ Hs)| |]|apply (so_needs _ _ Hs)].
      destruct (ro_row _ _ (so_rows _ _ Hs) i r1 Hr1). destruct (ro_row _ _ (so_rows _ _ Hs) j r2 Hr2).
      apply rows_ok_insert; [apply rows_ok_insert; [apply (so_rows _ _ Hs)|done|done]|done|done].
    + by apply index_ok_swap.
    + intros id Hnone. apply lookup_insert_None in Hnone as [[Hnone _]%lookup_insert_None _]. by apply Hids.
    + eapply lora_ok_ext; [exact Hlora|]. intros id. unfold lora_of. destruct (req_id_to_index b !! id) as [k|] eqn:Hk.
      * destruct (Hmoved id k Hk) as (k' & -> & Hk'). cbn. rewrite (lookup_swap_entries _ _ _ _ _ _ Hr1 Hr2).
        destruct Hk' as [[-> ->]|[(-> & -> & Hne)|(-> & H1 & H2)]]; [by rewrite decide_True, Hr1|by rewrite decide_False, decide_True, Hr2|by rewrite !decide_False].
      * rewrite !lookup_insert_ne by congruence. by rewrite Hk.
  - unfold num_reqs. batch_simpl. rewrite !map_size_insert_Some; [done|by exists i|].
    destruct (decide (id1 = id2)) as [->|]; [by rewrite lookup_insert_eq|by rewrite lookup_insert_ne; [exists j|]].
  - apply map_eq. intros id. apply shown_agree; [|done]. batch_simpl. destruct (req_id_to_index b !! id) as [k|] eqn:Hk.
    + destruct (Hmoved id k Hk) as (k' & -> & Hk'). unfold row_view. batch_simpl.
      rewrite (lookup_swap_entries _ _ _ _ _ _ Hr1 Hr2), (lookup_swap_entries _ _ _ _ _ _ Ho1 Ho2), !lookup_swap_dict.
      destruct Hk' as [[-> ->]|[(-> & -> & Hne)|(-> & H1 & H2)]].
      * rewrite !(decide_True (P := j = j)), Hr1, Ho1, Hts2 by done. case_decide as Hd; [subst; by rewrite ?Hd|done].
      * rewrite !(decide_False (P := i = j)), !(decide_True (P := i = i)), Hr2, Ho2, Hts1 by done. done.
      * by rewrite !decide_False, Hts3.
    + rewrite !lookup_insert_ne by congruence. by rewrite Hk.
Qed.
End swapping.
