(* ===== verification/BatchReplay.v ===== *)
(** A logits processor that replays the changes of the persistent batch has, for every
    row, the entry of the request that the row now holds. *)
From Stdlib Require Import ZArith QArith Lia.
From stdpp Require Import base strings countable gmap sets list sorting relations.
From S2P Require Import Prelude Request BlockTable BatchUpdate InputBatch InputBatchFacts InputBatchMoves.
Local Open Scope Z_scope.

Section replay_proofs.
Context {V : Type} (entry : BatchParams → list_ref → option V).
Implicit Types (d : gmap nat V) (b : InputBatch) (i j k : nat) (m : MovedRequest).

(** What is known of the requests of the batch: their parameters and output lists. *)
Abbreviation RequestTable := (gmap string (BatchParams * list_ref)).
Implicit Types (reqs : RequestTable).

(** The entry that belongs to a row. *)
Definition row_entry reqs (ids : list (option string)) i : option V :=
  match ids !! i with
  | Some (Some id) => x ← reqs !! id; entry x.1 x.2
  | _ => None
  end.

(** ** Single changes, without the flag *)
Definition added_to d (a : AddedRequest) : gmap nat V :=
  match entry a.1.2 a.2 with Some v => <[a.1.1 := v]> d | None => delete a.1.1 d end.
Definition moved_in d m : gmap nat V := (apply_moved (d, false) m).1.

Lemma apply_added_fst x a : (apply_added entry x a).1 = added_to x.1 a.
Proof. destruct x as [d f], a as [[i p] r]. unfold added_to. cbn. by destruct (entry p r). Qed.
Lemma apply_moved_fst (x : gmap nat V * bool) m : (apply_moved x m).1 = moved_in x.1 m.
Proof.
  destruct x as [d f], m as [[i j] [|]]; unfold moved_in; cbn; [by destruct (d !! i)|].
  by destruct (d !! i), (delete i d !! j).
Qed.
Lemma apply_removed_fst (x : gmap nat V * bool) i : (apply_removed x i).1 = delete i x.1.
Proof. by destruct x. Qed.

Lemma foldl_fst {A B C} (f : A * B → C → A * B) (g : A → C → A) (x : A * B) l :
  (∀ x c, (f x c).1 = g x.1 c) → (foldl f x l).1 = foldl g x.1 l.
Proof. intros Hf. revert x. induction l as [|c l IH]; intros x; [done|]. cbn. by rewrite IH, Hf. Qed.

Lemma lookup_added_to d a k : added_to d a !! k = if decide (k = a.1.1) then entry a.1.2 a.2 else d !! k.
Proof.
  unfold added_to. case_decide as Hk; [subst|]; destruct (entry a.1.2 a.2) as [v|];
    by rewrite ?lookup_insert_eq, ?lookup_delete_eq, ?lookup_insert_ne, ?lookup_delete_ne by congruence.
Qed.
Lemma lookup_moved_in d i j dir k :
  i ≠ j →
  moved_in d (i, j, dir) !! k =
    if decide (k = j) then d !! i
    else if decide (k = i) then match dir with SWAP => d !! j | UNIDIRECTIONAL => None end else d !! k.
Proof.
  intros Hij. unfold moved_in. cbn. rewrite lookup_delete_ne by done. destruct dir.
  - destruct (d !! i) as [v|] eqn:Hi; cbn; repeat case_decide; subst;
      repeat first [rewrite lookup_insert_eq|rewrite lookup_delete_eq|rewrite lookup_insert_ne by congruence|rewrite lookup_delete_ne by congruence]; congruence.
  - destruct (d !! i) as [v|] eqn:Hi, (d !! j) as [w|] eqn:Hj; cbn; repeat case_decide; subst;
      repeat first [rewrite lookup_insert_eq|rewrite lookup_delete_eq|rewrite lookup_insert_ne by congruence|rewrite lookup_delete_ne by congruence]; congruence.
Qed.
(** A row that is exchanged with itself. *)
Lemma moved_in_self d i : moved_in d (i, i, SWAP) = d.
Proof.
  apply map_eq. intros k. unfold moved_in. cbn. rewrite lookup_delete_eq. destruct (d !! i) as [v|] eqn:Hi; cbn.
  - destruct (decide (k = i)) as [->|]; [by rewrite lookup_insert_eq|]. by rewrite lookup_insert_ne, !lookup_delete_ne.
  - destruct (decide (k = i)) as [->|]; [by rewrite lookup_delete_eq|]. by rewrite !lookup_delete_ne.
Qed.

(** ** What the builder's lists amount to before the removed rows are dropped *)
Definition followed (bd : BatchUpdateBuilder) d : gmap nat V :=
  foldl moved_in (foldl added_to d (b_added bd)) (b_moved bd).

(** The processor's entries [d], as they were when the builder was reset, follow the batch. *)
Record follows d reqs b : Prop := {
  fl_entries : ∀ i, (i ∉ _removed (batch_update_builder b)) →
    followed (batch_update_builder b) d !! i = row_entry reqs (_req_ids (slots b)) i;
  fl_nodup : NoDup (_removed (batch_update_builder b));
  fl_free : ∀ i id, i ∈ _removed (batch_update_builder b) → _req_ids (slots b) !! i ≠ Some (Some id);
  fl_moved : ∀ m, m ∈ b_moved (batch_update_builder b) →
    (m.1.1 ∉ _removed (batch_update_builder b)) ∧ (m.1.2 ∉ _removed (batch_update_builder b)) ∧ (m.1.1 ≠ m.1.2 ∨ m.2 = SWAP)
}.

(** Moves between other rows do not look at the rows [R]. *)
Lemma moves_outside (R : list nat) l d d' :
  (∀ m, m ∈ l → (m.1.1 ∉ R) ∧ (m.1.2 ∉ R) ∧ (m.1.1 ≠ m.1.2 ∨ m.2 = SWAP)) → (∀ k, (k ∉ R) → d !! k = d' !! k) →
  (∀ k, (k ∉ R) → foldl moved_in d l !! k = foldl moved_in d' l !! k) ∧ (∀ k, k ∈ R → foldl moved_in d l !! k = d !! k).
Proof.
  revert d d'. induction l as [|m l IH]; intros d d' Hl Hd; [done|]. cbn [foldl].
  destruct (Hl m ltac:(left)) as (H1 & H2 & H3). destruct m as [[i j] dir]. cbn in H1, H2, H3.
  destruct (decide (i = j)) as [->|Hij].
  { destruct H3 as [|Hd']; [done|]. cbn in Hd'. subst dir. rewrite !moved_in_self. apply IH; [|done]. intros m Hm. apply Hl. by right. }
  destruct (IH (moved_in d (i, j, dir)) (moved_in d' (i, j, dir))) as [IH1 IH2].
  - intros m Hm. apply Hl. by right.
  - intros k Hk. rewrite !lookup_moved_in by done. rewrite !Hd by done. done.
  - split; [done|]. intros k Hk. rewrite IH2, lookup_moved_in by done. rewrite !decide_False by (intros ->; done). done.
Qed.

Lemma lookup_foldl_delete d (R : list nat) k : foldl (λ d i, delete i d) d R !! k = if decide (k ∈ R) then None else d !! k.
Proof.
  revert d. induction R as [|i R IH]; intros d; [done|]. cbn [foldl]. rewrite IH.
  destruct (decide (k = i)) as [->|Hne].
  - rewrite (decide_True (P := i ∈ i :: R)) by by left. rewrite lookup_delete_eq. by case_decide.
  - rewrite lookup_delete_ne by done. destruct (decide (k ∈ R)) as [Hk|Hk].
    + by rewrite decide_True by by right.
    + rewrite decide_False; [done|]. by intros [->|?]%elem_of_cons.
Qed.

(** The processor that replays the update has the entries of the rows. *)
Lemma replay_follows d reqs b n i :
  follows d reqs b → let bd := batch_update_builder b in
  (replay entry (mkBatchUpdate n (_removed bd) (b_moved bd) (b_added bd)) d).1 !! i = row_entry reqs (_req_ids (slots b)) i.
Proof.
  intros [H1 H2 H3 H4] bd. unfold replay. cbn [added removed moved].
  pose proof (foldl_fst (apply_added entry) added_to (d, false) (b_added bd) apply_added_fst) as Ha. cbn [fst] in Ha.
  destruct (foldl (apply_added entry) (d, false) (b_added bd)) as [d1 f1] eqn:E1. cbn [fst] in Ha.
  assert (∀ k, k ∈ _removed bd → row_entry reqs (_req_ids (slots b)) k = None) as Hnone.
  { intros k Hk. unfold row_entry. destruct (_req_ids (slots b) !! k) as [[id|]|] eqn:Hid; [|done|done]. by destruct (H3 k id Hk). }
  case_decide as He; cbn [fst].
  - rewrite He, lookup_empty. destruct (decide (i ∈ _removed bd)) as [Hi|Hi]; [by rewrite Hnone|].
    rewrite <- H1 by done. unfold followed. fold bd. rewrite <- Ha, He. clear.
    induction (b_moved bd) as [|m l IH]; [apply eq_sym, lookup_empty|]. cbn [foldl].
    replace (moved_in ∅ m) with (∅ : gmap nat V); [done|]. destruct m as [[i' j'] [|]]; unfold moved_in; cbn;
      rewrite ?lookup_empty, ?delete_empty; cbn; rewrite ?lookup_empty, ?delete_empty; done.
  - rewrite (foldl_fst _ moved_in _ _ apply_moved_fst), (foldl_fst _ (λ d i, delete i d) _ _ apply_removed_fst). cbn [fst].
    destruct (moves_outside (_removed bd) (b_moved bd) (foldl (λ d i, delete i d) d1 (_removed bd)) d1 H4) as [M1 M2].
    { intros k Hk. by rewrite lookup_foldl_delete, decide_False. }
    destruct (decide (i ∈ _removed bd)) as [Hi|Hi].
    + by rewrite M2, lookup_foldl_delete, decide_True, Hnone.
    + rewrite M1 by done. rewrite <- H1 by done. unfold followed. fold bd. by rewrite Ha.
Qed.

(** ** The operations of the batch *)

Lemma follows_init d reqs b :
  batch_update_builder b = BatchUpdateBuilder_init → (∀ i, d !! i = row_entry reqs (_req_ids (slots b)) i) → follows d reqs b.
Proof.
  intros Hb Hd. split; rewrite Hb; cbn; [intros i _; apply Hd|constructor| |]; by intros ? ?%not_elem_of_nil || intros ? ? ?%not_elem_of_nil.
Qed.

Lemma row_entry_insert reqs (ids ids' : list (option string)) i id p out k :
  (∀ j, ids !! j ≠ Some (Some id)) → ids' !! i = Some (Some id) → (∀ j, j ≠ i → ids' !! j = ids !! j) →
  row_entry (<[id := (p, out)]> reqs) ids' k = if decide (k = i) then entry p out else row_entry reqs ids k.
Proof.
  intros Hid Hi Hj. unfold row_entry. case_decide as Hk.
  - subst k. rewrite Hi, lookup_insert_eq. done.
  - rewrite (Hj k Hk). destruct (ids !! k) as [[id'|]|] eqn:E; [|done|done]. rewrite lookup_insert_ne; [done|]. intros ->. by destruct (Hid k).
Qed.

Lemma follows_remove d reqs b id i b' :
  follows d reqs b → b_moved (batch_update_builder b) = [] → _req_ids (slots b) !! i = Some (Some id) → removed_request b id i b' →
  follows d reqs b'.
Proof.
  intros [H1 H2 H3 H4] Hm Hi [R1 R2 R3 R4 R5 R6 _ _]. pose proof (lookup_lt_Some _ _ _ Hi). split; rewrite ?R2, ?R4; cbn.
  - intros k Hk. assert ((k ∉ _removed (batch_update_builder b)) ∧ k ≠ i) as [Hk1 Hk2].
    { split; intros Hk'; apply Hk, elem_of_app; [by left|right; subst; by left]. }
    change (followed (batch_update_builder b) d !! k = row_entry reqs (<[i:=None]> (_req_ids (slots b))) k).
    rewrite H1 by done. unfold row_entry. by rewrite list_lookup_insert_ne.
  - apply NoDup_app. split_and!; [done| |apply NoDup_singleton]. intros k Hk ->%list_elem_of_singleton. by destruct (H3 i id Hk).
  - intros k id' [Hk| ->%list_elem_of_singleton]%elem_of_app; rewrite list_lookup_insert_Some; [|naive_solver].
    pose proof (H3 k id' Hk). naive_solver.
  - rewrite Hm. by intros ? ?%not_elem_of_nil.
Qed.

Lemma follows_add d reqs b to_float32 request i b' :
  follows d reqs b → b_moved (batch_update_builder b) = [] → batch_open b → req_id_to_index b !! req_id request = None →
  added_request to_float32 b request i b' → follows d (<[req_id request := (params_of request, output_ref request)]> reqs) b'.
Proof.
  intros [H1 H2 H3 H4] Hm [Hok Hholes] Hnew [A1 A2 A3 A4 A5 A6 A7 A8 A9 A10 _]. pose proof A1 as [Hok' Hholes'].
  split; rewrite ?A2, ?Hm; [| |intros k id Hk; apply Hholes' in Hk; congruence|by intros ? ?%not_elem_of_nil].
  - intros k Hk. rewrite (row_entry_insert reqs (_req_ids (slots b)) _ i); [|intros j Hj; apply (bo_index _ Hok) in Hj; congruence|done|done].
    unfold followed. rewrite A2, A3, Hm, foldl_app. cbn [foldl]. rewrite lookup_added_to. cbn. case_decide as Hki; [done|].
    specialize (H1 k). unfold followed in H1. rewrite Hm in H1. apply H1. rewrite (proj2 Hholes). intros Hk'. apply Hk, Hholes'. by rewrite A7.
  - apply Hholes'.
Qed.

(** Only the requests of the rows matter. *)
Lemma follows_reqs d reqs reqs' b :
  (∀ i id, _req_ids (slots b) !! i = Some (Some id) → reqs' !! id = reqs !! id) → follows d reqs b → follows d reqs' b.
Proof.
  intros Heq [H1 H2 H3 H4]. split; [|done..]. intros i Hi. rewrite H1 by done. unfold row_entry.
  destruct (_req_ids (slots b) !! i) as [[id|]|] eqn:Hid; [|done|done]. by rewrite (Heq i id Hid).
Qed.
(** A batch with the same rows and builder. *)
Lemma follows_same d reqs b b' :
  _req_ids (slots b') = _req_ids (slots b) → batch_update_builder b' = batch_update_builder b → follows d reqs b → follows d reqs b'.
Proof. intros Hi Hb [H1 H2 H3 H4]. by split; rewrite ?Hi, ?Hb. Qed.

Lemma follows_condense_step d reqs b b' : follows d reqs b → condense_step b b' → follows d reqs b'.
Proof.
  intros [H1 H2 H3 H4] [[F1 F2 F3 F4 F5 F6] [[S1 S2 S3]|(i & j & [(id & Hid & S1) S2 S3 S4 S5])]].
  - split; rewrite ?S1; unfold followed; rewrite ?F4, ?S3; setoid_rewrite <- S2; done.
  - assert (i ≠ j) as Hij by congruence. pose proof (lookup_lt_Some _ _ _ Hid). pose proof (lookup_lt_Some _ _ _ S2).
    rewrite S4 in H2. apply NoDup_cons in H2 as [Hj2 H2].
    assert (∀ k, k ∉ _removed (batch_update_builder b') ↔ k = j ∨ (k ∉ _removed (batch_update_builder b))) as Hrem.
    { intros k. rewrite S4, elem_of_cons. destruct (decide (k = j)) as [->|]; naive_solver. }
    split; [|done| |].
    + intros k Hk. apply Hrem in Hk. unfold followed. rewrite F4, S5, foldl_app. cbn [foldl].
      change (foldl moved_in (foldl added_to d (b_added (batch_update_builder b))) (b_moved (batch_update_builder b))) with (followed (batch_update_builder b) d).
      rewrite lookup_moved_in by done. unfold row_entry. rewrite S1. destruct (decide (k = j)) as [->|Hkj].
      * rewrite list_lookup_insert_ne, list_lookup_insert_eq by done. rewrite H1 by done. unfold row_entry. by rewrite Hid.
      * case_decide as Hki; [subst k; rewrite list_lookup_insert_eq by (by rewrite length_insert); done|].
        rewrite !list_lookup_insert_ne by done. apply H1. by destruct Hk.
    + intros k id' Hk. assert (k ∈ _removed (batch_update_builder b)) as Hkb by (rewrite S4; by right).
      assert (k ≠ j) by (intros ->; done). rewrite S1, !list_lookup_insert_Some. pose proof (H3 k id' Hkb). naive_solver.
    + intros m. rewrite S5. intros [Hm| ->%list_elem_of_singleton]%elem_of_app; cbn.
      * destruct (H4 m Hm) as (M1 & M2 & M3). rewrite !Hrem. naive_solver.
      * rewrite !Hrem. naive_solver.
Qed.

Lemma follows_condensed d reqs b b' : follows d reqs b → condensed b b' → follows d reqs b'.
Proof.
  intros Hf [_ _ _ (b1 & Hsteps & Hc & ->)]. assert (follows d reqs b1) as [H1 H2 H3 H4].
  { clear Hc. induction Hsteps as [|b b1 b2 Hstep _ IH]; [done|]. by eapply IH, follows_condense_step. }
  assert (∀ k, row_entry reqs (_req_ids (slots (cut b1))) k = row_entry reqs (_req_ids (slots b1)) k) as Hrow.
  { intros k. unfold row_entry. cbn. destruct (_req_ids (slots b1) !! k) as [[id|]|] eqn:Hid.
    - by rewrite (proj1 (compact_take b1 k id Hc) Hid).
    - destruct (take _ _ !! k) as [[id|]|] eqn:E; [|done|done]. apply compact_take in E; [congruence|done].
    - destruct (take _ _ !! k) as [[id|]|] eqn:E; [|done|done]. apply compact_take in E; [congruence|done]. }
  split; [intros k Hk; rewrite Hrow; by apply H1|done| |done].
  intros k id Hk. cbn. intros Hid. apply lookup_take_Some in Hid as [Hid _]. by apply (H3 k id Hk).
Qed.

Lemma follows_swap d reqs b i j id1 id2 b' :
  follows d reqs b → _req_ids (slots b) !! i = Some (Some id1) → _req_ids (slots b) !! j = Some (Some id2) →
  swapped_requests b i j id1 id2 b' → follows d reqs b'.
Proof.
  intros [H1 H2 H3 H4] Hi Hj [W1 W2 W3 W4 W5 W6 W7].
  assert (∀ k, _req_ids (slots b') !! k = if decide (k = j) then Some (Some id1) else if decide (k = i) then Some (Some id2) else _req_ids (slots b) !! k) as Hids.
  { intros k. rewrite W4. by apply lookup_swap_entries. }
  assert (i ∉ _removed (batch_update_builder b)) as Hir by (intros Hr; by apply (H3 i id1)).
  assert (j ∉ _removed (batch_update_builder b)) as Hjr by (intros Hr; by apply (H3 j id2)).
  split; rewrite ?W2; cbn; [|done| |].
  - intros k Hk. unfold followed. cbn [b_added b_moved]. rewrite foldl_app. cbn [foldl].
    change (foldl moved_in (foldl added_to d (b_added (batch_update_builder b))) (b_moved (batch_update_builder b))) with (followed (batch_update_builder b) d).
    unfold row_entry. rewrite Hids. destruct (decide (i = j)) as [->|Hij].
    + rewrite moved_in_self, H1 by done. unfold row_entry. assert (id1 = id2) as -> by congruence. case_decide; subst; [by rewrite Hj|done].
    + rewrite lookup_moved_in by done. rewrite !H1 by done. unfold row_entry. rewrite Hi, Hj. by repeat case_decide.
  - intros k id Hk. rewrite Hids. rewrite !decide_False by (intros ->; done). by apply H3.
  - intros m [Hm| ->%list_elem_of_singleton]%elem_of_app; [by apply H4|]. cbn. by split_and!; [| |right].
Qed.

(** ** The flag that says whether the tensors have to be built again *)
Definition unflagged d (x : gmap nat V * bool) : Prop := x.2 = false → x.1 = d.

Lemma unflagged_added d x a : unflagged d x → unflagged d (apply_added entry x a).
Proof.
  destruct x as [d' f], a as [[i p] r]. unfold unflagged. cbn. intros H. destruct (entry p r); [done|]. cbn.
  destruct (d' !! i) eqn:Hi; [done|]. intros ->. rewrite delete_id by done. by apply H.
Qed.
Lemma unflagged_removed d x i : unflagged d x → unflagged d (apply_removed x i).
Proof.
  destruct x as [d' f]. unfold unflagged. cbn. intros H. destruct (d' !! i) eqn:Hi; [done|]. intros ->. rewrite delete_id by done. by apply H.
Qed.
Lemma unflagged_moved d x m : unflagged d x → unflagged d (apply_moved x m).
Proof.
  destruct x as [d' f], m as [[i j] dir]. unfold unflagged. cbn. intros H.
  destruct (d' !! i) eqn:Hi, (delete i d' !! j) eqn:Hj, dir; cbn; try done; intros ->; rewrite (delete_id d' i) in * by done;
    rewrite delete_id by done; by apply H.
Qed.
Lemma unflagged_foldl {C} (f : gmap nat V * bool → C → gmap nat V * bool) d x l :
  (∀ x c, unflagged d x → unflagged d (f x c)) → unflagged d x → unflagged d (foldl f x l).
Proof. intros Hf. revert x. induction l as [|c l IH]; intros x Hx; [done|]. cbn. apply IH. by apply Hf. Qed.

Lemma replay_unflagged u d : unflagged d (replay entry u d).
Proof.
  unfold replay. assert (unflagged d (foldl (apply_added entry) (d, false) (added u))) as H by (apply unflagged_foldl; [intros; by apply unflagged_added|done]).
  revert H. destruct (foldl _ _ _) as [d1 f1]. intros H. case_decide; [done|].
  apply unflagged_foldl; [intros; by apply unflagged_moved|]. apply unflagged_foldl; [intros; by apply unflagged_removed|done].
Qed.
End replay_proofs.

(** The logit biases of the rows, and the tensors made of them. *)
Record biases_follow (reqs : gmap string (BatchParams * list_ref)) (ids : list (option string)) (p : LogitBiasLogitsProcessor) : Prop := {
  bf_rows : ∀ i, biases p !! i = row_entry bias_entry reqs ids i;
  bf_tensors : bias_tensors p = bias_rows (biases p)
}.
Lemma logit_bias_follows reqs b p n :
  follows bias_entry (biases p) reqs b → bias_tensors p = bias_rows (biases p) →
  ∃ u, (∀ Q, Q u (mkBuilder [] false [] []) → wp (get_and_reset n) Q (batch_update_builder b)) ∧
    biases_follow reqs (_req_ids (slots b)) (logit_bias_update_state u p).
Proof.
  intros Hf Ht. assert (∀ u, u = mkBatchUpdate n (_removed (batch_update_builder b)) (b_moved (batch_update_builder b)) (b_added (batch_update_builder b)) →
    biases_follow reqs (_req_ids (slots b)) (logit_bias_update_state (Some u) p)) as Hsome.
  { intros u ->. cbn. pose proof (replay_follows bias_entry (biases p) reqs b n) as Hr. cbv zeta in Hr.
    pose proof (replay_unflagged bias_entry (mkBatchUpdate n (_removed (batch_update_builder b)) (b_moved (batch_update_builder b)) (b_added (batch_update_builder b))) (biases p)) as Hu.
    destruct (replay _ _ _) as [d f]. cbn in Hr, Hu. split; cbn; [intros i; by apply Hr|]. destruct f; [done|]. unfold unflagged in Hu. cbn in Hu. by rewrite Hu. }
  unfold wp, get_and_reset. destruct (_removed (batch_update_builder b)) as [|i r] eqn:Hr, (b_moved (batch_update_builder b)) as [|m l] eqn:Hm,
    (b_added (batch_update_builder b)) as [|a k] eqn:Ha; try (eexists; split; [by intros Q HQ|by apply Hsome]).
  exists None. split; [by intros Q HQ|]. split; [|done]. intros i. rewrite <- (fl_entries _ _ _ _ Hf) by (rewrite Hr; apply not_elem_of_nil).
  unfold followed. by rewrite Hm, Ha.
Qed.
