(* ===== verification/BatchHistory.v ===== *)
(** Histories of the persistent batch between two steps of the model: requests are removed
    and added, the rows are condensed, and rows are swapped; at the end the logits
    processors replay what has been recorded. *)
From Stdlib Require Import ZArith QArith Lia.
From stdpp Require Import base strings countable gmap sets list.
From S2P Require Import Prelude Request BlockTable BatchUpdate InputBatch InputBatchFacts InputBatchMoves BatchReplay.
Local Open Scope Z_scope.

Abbreviation Table := (gmap string (BatchParams * list_ref)).
Abbreviation Shown := (gmap string (RowView * IdView)).

Section history.
Context (to_float32 : Q → Q) (b0 : InputBatch) (T0 : Table).
Implicit Types (b : InputBatch) (T : Table) (S : Shown) (id : string).

(** The batch, its requests' parameters and output lists, and what it has to show, after
    some requests have been removed and added. *)
Inductive changing : InputBatch → Table → Shown → Prop :=
  | ch_start : changing b0 T0 (shown b0)
  | ch_remove b T S id i b' :
      changing b T S → _is_removed_sorted (batch_update_builder b) = false → req_id_to_index b !! id = Some i →
      remove_request id b = (Ok (Some i), b') → changing b' T (delete id S)
  | ch_add b T S r i b' :
      changing b T S → request_fits b r → add_request to_float32 r b = (Ok i, b') →
      changing b' (<[req_id r := (params_of r, output_ref r)]> T) (<[req_id r := request_shown to_float32 (cfg b) r]> S).

(** Then the rows are condensed, and some are swapped. *)
Inductive arranged : InputBatch → Table → Shown → Prop :=
  | ar_condense b T S b' : changing b T S → condense b = (Ok tt, b') → arranged b' T S
  | ar_swap b T S i j id1 id2 b' :
      arranged b T S → _req_ids (slots b) !! i = Some (Some id1) → _req_ids (slots b) !! j = Some (Some id2) →
      swap_states i j b = (Ok tt, b') → arranged b' T S.

Hypothesis Hdense : batch_dense b0.
Hypothesis Hreset : batch_update_builder b0 = BatchUpdateBuilder_init.

Lemma wp_returned {A} (m : M InputBatch A) Q b x b' : m b = (Ok x, b') → wp m Q b → Q x b'.
Proof. intros H. unfold wp. by rewrite H. Qed.

(** A processor that had the entries of the first batch's rows follows. *)
Definition followed_from b T : Prop := ∀ V (entry : BatchParams → list_ref → option V) d,
  (∀ i, d !! i = row_entry entry T0 (_req_ids (slots b0)) i) → follows entry d T b.

Lemma changing_ok b T S : changing b T S →
  batch_open b ∧ b_moved (batch_update_builder b) = [] ∧ shown b = S ∧ followed_from b T.
Proof.
  induction 1 as [|b T S id i b' _ (Ho & Hm & Hs & Hf) Hsorted Hi Hrun|b T S r i b' _ (Ho & Hm & Hs & Hf) Hfit Hrun].
  - split_and!; [|by rewrite Hreset|done|].
    + destruct Hdense as [Hb Hd]. split; [done|]. rewrite Hreset. split; [constructor|]. intros i. split; [by intros ?%not_elem_of_nil|]. intros Hi. by destruct (Hd i).
    + intros V entry d Hd. by apply follows_init.
  - destruct (wp_returned _ _ _ _ _ Hrun (wp_remove_request b id i Ho Hsorted Hi)) as [_ Hr]. pose proof Hr as [R1 R2 R3 R4 R5 R6 R7 RM].
    split_and!; [done|by rewrite R2|by rewrite R6, Hs|]. intros V entry d Hd. eapply follows_remove; [by apply Hf|done| |exact Hr]. by apply (bo_index _ (proj1 Ho)).
  - pose proof (wp_returned _ _ _ _ _ Hrun (wp_add_request to_float32 b r Ho Hfit)) as Ha. pose proof Ha as [A1 A2 A3 A4 A5 A6 A7 A8 A9 A10 AM].
    split_and!; [done|by rewrite A2|by rewrite A10, Hs|]. intros V entry d Hd. eapply follows_add; [by apply Hf|done|done|apply Hfit|exact Ha].
Qed.

Lemma arranged_ok b T S : arranged b T S → batch_dense b ∧ shown b = S ∧ followed_from b T.
Proof.
  induction 1 as [b T S b' Hc Hrun|b T S i j id1 id2 b' _ ([Hb Hd] & Hs & Hf) Hi Hj Hrun].
  - destruct (changing_ok b T S Hc) as (Ho & Hm & Hs & Hf). pose proof (wp_returned _ _ _ _ _ Hrun (wp_condense b Ho)) as Hcd. pose proof Hcd as [[F1 F2 F3 F4 F5 F6] C2 C3 C4].
    split_and!; [by split|by rewrite F6|]. intros V entry d Hd. eapply follows_condensed; [by apply Hf|done].
  - pose proof (wp_returned _ _ _ _ _ Hrun (wp_swap_states b i j id1 id2 Hb Hi Hj)) as Hw. pose proof Hw as [W1 W2 W3 W4 W5 W6 W7 W8].
    split_and!; [|by rewrite W7|intros V entry d Hd'; eapply (follows_swap entry d T b i j id1 id2); [by apply Hf|done|done|done]].
    split; [done|]. intros k. rewrite W4. rewrite (lookup_swap_entries _ _ _ _ _ _ Hi Hj). repeat case_decide; [done|done|apply Hd].
Qed.

Lemma changing_masks b T S : masks_follow (params_in T0) b0 → changing b T S → masks_follow (params_in T) b.
Proof.
  intros H0. induction 1 as [|b T S id i b' Hc IH Hsorted Hi Hrun|b T S r i b' Hc IH Hfit Hrun]; [done| |];
    destruct (changing_ok _ _ _ Hc) as (Ho & _).
  - destruct (wp_returned _ _ _ _ _ Hrun (wp_remove_request b id i Ho Hsorted Hi)) as [_ Hr]. by eapply masks_follow_remove.
  - pose proof (wp_returned _ _ _ _ _ Hrun (wp_add_request to_float32 b r Ho Hfit)) as Ha. eapply masks_follow_add; [done|done| | |done].
    + unfold params_in. by rewrite lookup_insert_eq.
    + intros id Hne. unfold params_in. by rewrite lookup_insert_ne.
Qed.

(** What the processors get. *)
Definition recorded b : option BatchUpdate :=
  match get_and_reset (num_reqs b) (batch_update_builder b) with (Ok u, _) => u | (Raise _, _) => None end.
Definition replayed {V} (entry : BatchParams → list_ref → option V) (u : option BatchUpdate) (d : gmap nat V) : gmap nat V :=
  match u with Some u => (replay entry u d).1 | None => d end.

Lemma follows_replayed {V} (entry : BatchParams → list_ref → option V) d b T i :
  follows entry d T b → replayed entry (recorded b) d !! i = row_entry entry T (_req_ids (slots b)) i.
Proof.
  intros Hf. unfold recorded, get_and_reset. destruct (_removed (batch_update_builder b)) as [|x r] eqn:Hr, (b_moved (batch_update_builder b)) as [|m l] eqn:Hm,
    (b_added (batch_update_builder b)) as [|a k] eqn:Ha; cbn [replayed]; try (rewrite <- Hr, <- Hm, <- Ha; by apply (replay_follows entry d T b _ i)).
  rewrite <- (fl_entries _ _ _ _ Hf) by (rewrite Hr; apply not_elem_of_nil). unfold followed. by rewrite Hm, Ha.
Qed.
End history.
