(* ===== verification/Arrays.v ===== *)
(** One-dimensional NumPy arrays of integers as lists: the operations the worker uses to
    lay the tokens of a batch out one request after the other, and the algebra of such
    layouts.  Integers are unbounded: the code's int32 and int64 arrays hold positions
    and lengths that are below the maximal model length. *)
From Stdlib Require Import ZArith Lia.
From stdpp Require Import base list.
From S2P Require Import Prelude.
Local Open Scope Z_scope.

(** * The operations *)

(** [np.cumsum]. *)
Fixpoint cumsum_from (acc : Z) (l : list Z) : list Z :=
  match l with [] => [] | x :: l' => (acc + x) :: cumsum_from (acc + x) l' end.
Definition np_cumsum (l : list Z) : list Z := cumsum_from 0 l.

(** Elementwise [a + b] and [a - b] of arrays of one length. *)
Definition np_add (a b : list Z) : list Z := zip_with Z.add a b.
Definition np_sub (a b : list Z) : list Z := zip_with Z.sub a b.

(** [np.repeat(a, counts)] and [np.arange(n)]. *)
Definition np_repeat {A} (a : list A) (counts : list Z) : list A := concat (zip_with (λ x n, replicate (Z.to_nat n) x) a counts).
Definition np_arange (n : Z) : list Z := range n.

(** [a[indices]] for indices that are not negative. *)
Definition np_take {A} (a : list A) (indices : list Z) : outcome (list A) :=
  mapM (λ i, match a !! Z.to_nat i with Some x => Ok x | None => Raise IndexError end) indices.

(** [a[mask] = vals]: the values fill the selected entries in order. *)
Fixpoint mask_fill {A} (mask : list bool) (vals a : list A) : outcome (list A) :=
  match mask, a with
  | true :: mask, _ :: a => match vals with v :: vals => r ← mask_fill mask vals a; Ok (v :: r) | [] => Raise ValueError end
  | false :: mask, x :: a => r ← mask_fill mask vals a; Ok (x :: r)
  | _, _ => match vals with [] => Ok [] | _ => Raise ValueError end
  end.
(** [a[mask]]. *)
Definition mask_select {A} (mask : list bool) (a : list A) : list A := (filter (λ p, p.1 = true) (zip mask a)).*2.

(** [a[indices] = vals]. *)
Definition index_fill {A} (indices : list Z) (vals a : list A) : list A :=
  foldl (λ a p, <[Z.to_nat p.1 := p.2]> a) a (zip indices vals).

(** ** Comprehensions *)
Lemma mapM_Ok_inv {A B} (h : A → outcome B) (l : list A) (k : list B) : mapM h l = Ok k → Forall2 (λ x y, h x = Ok y) l k.
Proof. apply mapM_Ok. Qed.

(** * Layouts

    [batched f ns] is the array that has, one after the other, for the request [i] the
    entries [f i 0], ..., [f i (n - 1)] where [n] is its count. *)
Section layouts.
Implicit Types (ns : list Z).

Fixpoint batched_from {A} (i : nat) (f : nat → nat → A) ns : list A :=
  match ns with
  | [] => []
  | n :: ns' => (f i <$> seq 0 (Z.to_nat n)) ++ batched_from (S i) f ns'
  end.
Definition batched {A} (f : nat → nat → A) ns : list A := batched_from 0 f ns.

Lemma batched_from_ext {A} (f g : nat → nat → A) k ns :
  (∀ i n j, ns !! i = Some n → (j < Z.to_nat n)%nat → f (k + i)%nat j = g (k + i)%nat j) → batched_from k f ns = batched_from k g ns.
Proof.
  revert k. induction ns as [|n ns IH]; intros k Hfg; [done|]. cbn [batched_from]. f_equal.
  - apply list_fmap_ext. intros _ j Hj%list_elem_of_lookup_2. apply elem_of_seq in Hj.
    specialize (Hfg 0%nat n j eq_refl). rewrite Nat.add_0_r in Hfg. apply Hfg. lia.
  - apply IH. intros i m j Hi Hj. replace (S k + i)%nat with (k + S i)%nat by lia. by apply (Hfg (S i) m).
Qed.
Lemma batched_ext {A} (f g : nat → nat → A) ns :
  (∀ i n j, ns !! i = Some n → (j < Z.to_nat n)%nat → f i j = g i j) → batched f ns = batched g ns.
Proof. intros Hfg. by apply batched_from_ext. Qed.

Lemma batched_from_fmap {A B} (h : A → B) (f : nat → nat → A) k ns : h <$> batched_from k f ns = batched_from k (λ i j, h (f i j)) ns.
Proof.
  revert k. induction ns as [|n ns IH]; intros k; [done|]. cbn [batched_from]. rewrite fmap_app, IH. f_equal.
  by rewrite <- list_fmap_compose.
Qed.
Lemma batched_fmap {A B} (h : A → B) (f : nat → nat → A) ns : h <$> batched f ns = batched (λ i j, h (f i j)) ns.
Proof. apply batched_from_fmap. Qed.

Lemma batched_from_zip {A B C} (h : A → B → C) f g k ns :
  zip_with h (batched_from k f ns) (batched_from k g ns) = batched_from k (λ i j, h (f i j) (g i j)) ns.
Proof.
  revert k. induction ns as [|n ns IH]; intros k; [done|]. cbn [batched_from].
  rewrite zip_with_app by by rewrite !length_fmap. rewrite IH. f_equal. by rewrite zip_with_fmap_l, zip_with_fmap_r, zip_with_diag.
Qed.
Lemma batched_zip {A B C} (h : A → B → C) f g ns :
  zip_with h (batched f ns) (batched g ns) = batched (λ i j, h (f i j) (g i j)) ns.
Proof. apply batched_from_zip. Qed.

Lemma batched_from_length {A} (f : nat → nat → A) k ns : (∀ n, n ∈ ns → 0 <= n) → Z.of_nat (length (batched_from k f ns)) = zsum ns.
Proof.
  revert k. induction ns as [|n ns IH]; intros k Hn; [done|]. cbn [batched_from]. rewrite length_app, length_fmap, length_seq, zsum_cons.
  assert (0 <= n) by (apply Hn; by left). rewrite Nat2Z.inj_add, IH; [lia|]. intros m Hm. apply Hn. by right.
Qed.
Lemma batched_length {A} (f : nat → nat → A) ns : (∀ n, n ∈ ns → 0 <= n) → Z.of_nat (length (batched f ns)) = zsum ns.
Proof. apply batched_from_length. Qed.

(** Where the entries of a request begin. *)
Definition start_of ns (i : nat) : Z := zsum (take i ns).

Lemma lookup_batched_from {A} (f : nat → nat → A) k ns i n j :
  (∀ n, n ∈ ns → 0 <= n) → ns !! i = Some n → (j < Z.to_nat n)%nat →
  batched_from k f ns !! (Z.to_nat (start_of ns i) + j)%nat = Some (f (k + i)%nat j).
Proof.
  revert k i. induction ns as [|m ns IH]; intros k i Hn Hi Hj; [done|]. cbn [batched_from].
  assert (0 <= m) by (apply Hn; by left). destruct i as [|i]; cbn in Hi.
  - injection Hi as ->. change (Z.to_nat (start_of (n :: ns) 0) + j)%nat with j. rewrite lookup_app_l by (rewrite length_fmap, length_seq; lia).
    rewrite list_lookup_fmap, lookup_seq_lt by done. cbn. by rewrite Nat.add_0_r.
  - assert (∀ n0, n0 ∈ ns → 0 <= n0) as Hns by (intros n0 Hn0; apply Hn; by right).
    assert (0 <= start_of ns i) by (apply zsum_nonneg; intros x Hx; apply Hns; apply elem_of_take in Hx as (? & ? & ?); by eapply list_elem_of_lookup_2).
    unfold start_of in *. cbn [take]. rewrite zsum_cons. rewrite lookup_app_r by (rewrite length_fmap, length_seq; lia).
    rewrite length_fmap, length_seq. replace (Z.to_nat (m + _) + j - Z.to_nat m)%nat with (Z.to_nat (zsum (take i ns)) + j)%nat by lia.
    rewrite (IH (S k)) by done. f_equal. f_equal. lia.
Qed.
(** [np.repeat] repeats an entry for each element of its request. *)
Lemma np_repeat_batched_from {A} (f : nat → A) (a : list A) k ns :
  length a = length ns → (∀ i x, a !! i = Some x → f (k + i)%nat = x) → np_repeat a ns = batched_from k (λ i _, f i) ns.
Proof.
  revert a k. induction ns as [|n ns IH]; intros [|x a] k Hlen Hf; try done. unfold np_repeat in *. cbn [zip_with concat batched_from]. f_equal.
  - pose proof (Hf 0%nat x eq_refl) as H0. rewrite Nat.add_0_r in H0. rewrite H0. generalize 0%nat. induction (Z.to_nat n) as [|m IHm]; intros s; [done|].
    cbn. f_equal. apply IHm.
  - apply IH; [by injection Hlen|]. intros i y Hy. replace (S k + i)%nat with (k + S i)%nat by lia. by apply (Hf (S i)).
Qed.
Lemma np_repeat_batched {A} (f : nat → A) (a : list A) ns :
  length a = length ns → (∀ i x, a !! i = Some x → f i = x) → np_repeat a ns = batched (λ i _, f i) ns.
Proof. apply (np_repeat_batched_from f a 0). Qed.

Lemma cumsum_from_lookup acc ns i x : cumsum_from acc ns !! i = Some x ↔ (i < length ns)%nat ∧ x = acc + start_of ns (S i).
Proof.
  revert acc i. induction ns as [|n ns IH]; intros acc i; [cbn; rewrite lookup_nil; split; [done|lia]|]. cbn [cumsum_from].
  unfold start_of in *. cbn [take]. rewrite zsum_cons. destruct i as [|i]; cbn [lookup list_lookup length].
  - rewrite take_0. change (zsum []) with 0. split; [intros [= <-]; lia|intros [_ ->]; f_equal; lia].
  - rewrite IH. split; intros [? ->]; lia.
Qed.
Lemma np_cumsum_lookup ns i x : np_cumsum ns !! i = Some x ↔ (i < length ns)%nat ∧ x = start_of ns (S i).
Proof. unfold np_cumsum. by rewrite cumsum_from_lookup. Qed.
Lemma np_cumsum_length ns : length (np_cumsum ns) = length ns.
Proof. unfold np_cumsum. generalize 0. induction ns as [|n ns IH]; intros acc; [done|]. cbn. by rewrite IH. Qed.
Lemma start_of_S ns i n : ns !! i = Some n → start_of ns (S i) = start_of ns i + n.
Proof. apply zsum_take_S. Qed.
Lemma start_of_nonneg ns i : (∀ n, n ∈ ns → 0 <= n) → 0 <= start_of ns i.
Proof. intros Hn. apply zsum_nonneg. intros x Hx. apply Hn. apply elem_of_take in Hx as (? & ? & ?). by eapply list_elem_of_lookup_2. Qed.

(** The cumulative sums without the entries: where each request begins. *)
Lemma start_of_mono ns i j : (∀ n, n ∈ ns → 0 <= n) → (i <= j)%nat → start_of ns i <= start_of ns j.
Proof.
  intros Hns Hij. unfold start_of. replace j with (i + (j - i))%nat at 1 by lia. rewrite <- take_take_drop, zsum_app.
  assert (0 <= zsum (take (j - i) (drop i ns))); [|lia]. apply zsum_nonneg. intros x Hx. apply Hns.
  apply elem_of_take in Hx as (k & Hx & _). rewrite lookup_drop in Hx. by eapply list_elem_of_lookup_2.
Qed.
Lemma start_of_all ns : start_of ns (length ns) = zsum ns.
Proof. unfold start_of. by rewrite take_ge. Qed.
(** The positions of the entries of a batched array are within it, and distinct. *)
Lemma position_lt ns i n pos : (∀ n, n ∈ ns → 0 <= n) → ns !! i = Some n → (pos < Z.to_nat n)%nat →
  (Z.to_nat (start_of ns i) + pos < Z.to_nat (zsum ns))%nat.
Proof.
  intros Hns Hi Hp. pose proof (start_of_S _ _ _ Hi) as HS. pose proof (start_of_nonneg ns i Hns).
  assert (start_of ns (S i) <= start_of ns (length ns)) as Hle by (apply start_of_mono; [done|by eapply lookup_lt_Some]).
  rewrite start_of_all in Hle. lia.
Qed.
Lemma position_inj ns i n pos i' n' pos' : (∀ n, n ∈ ns → 0 <= n) →
  ns !! i = Some n → (pos < Z.to_nat n)%nat → ns !! i' = Some n' → (pos' < Z.to_nat n')%nat →
  (Z.to_nat (start_of ns i) + pos)%nat = (Z.to_nat (start_of ns i') + pos')%nat → i = i' ∧ pos = pos'.
Proof.
  intros Hns Hi Hp Hi' Hp' Heq. pose proof (start_of_S _ _ _ Hi). pose proof (start_of_S _ _ _ Hi').
  pose proof (start_of_nonneg ns i Hns). pose proof (start_of_nonneg ns i' Hns).
  destruct (lt_eq_lt_dec i i') as [[Hlt|Heq']|Hlt].
  - pose proof (start_of_mono ns (S i) i' Hns Hlt). lia.
  - subst i'. split; [done|]. lia.
  - pose proof (start_of_mono ns (S i') i Hns Hlt). lia.
Qed.
Lemma np_starts_lookup ns i x : np_sub (np_cumsum ns) ns !! i = Some x ↔ (i < length ns)%nat ∧ x = start_of ns i.
Proof.
  unfold np_sub. rewrite lookup_zip_with_Some. split.
  - intros (c & n & -> & [Hi ->]%np_cumsum_lookup & Hn). split; [done|]. rewrite (start_of_S _ _ _ Hn). lia.
  - intros [Hi ->]. destruct (lookup_lt_is_Some_2 ns i Hi) as [n Hn]. exists (start_of ns (S i)), n.
    split_and!; [rewrite (start_of_S _ _ _ Hn); lia|by apply np_cumsum_lookup|done].
Qed.
Lemma np_starts_length ns : length (np_sub (np_cumsum ns) ns) = length ns.
Proof. unfold np_sub. rewrite length_zip_with, np_cumsum_length. lia. Qed.

Lemma arange_batched_from acc k ns :
  (∀ n, n ∈ ns → 0 <= n) → range2 acc (acc + zsum ns) = batched_from k (λ i j, acc + start_of ns (i - k) + Z.of_nat j) ns.
Proof.
  revert acc k. induction ns as [|n ns IH]; intros acc k Hn.
  { unfold range2. cbn. by replace (Z.to_nat (acc + 0 - acc)) with 0%nat by lia. }
  assert (0 <= n) by (apply Hn; by left). assert (∀ n0, n0 ∈ ns → 0 <= n0) as Hns by (intros n0 Hn0; apply Hn; by right).
  pose proof (zsum_nonneg ns Hns). rewrite zsum_cons. cbn [batched_from]. unfold range2.
  replace (Z.to_nat (acc + (n + zsum ns) - acc)) with (Z.to_nat n + Z.to_nat (zsum ns))%nat by lia. rewrite seq_app, fmap_app. f_equal.
  - apply list_fmap_ext. intros _ j _. rewrite Nat.sub_diag. unfold start_of. cbn. lia.
  - specialize (IH (acc + n) (S k) Hns). unfold range2 in IH. replace (Z.to_nat (acc + n + zsum ns - (acc + n))) with (Z.to_nat (zsum ns)) in IH by lia.
    rewrite Nat.add_0_l, <- (Nat.add_0_r (Z.to_nat n)), <- fmap_add_seq, <- list_fmap_compose.
    transitivity ((λ i, acc + n + Z.of_nat i) <$> seq 0 (Z.to_nat (zsum ns))); [apply list_fmap_ext; intros _ j _; cbn; lia|].
    rewrite IH. apply batched_from_ext. intros i m j _ _. replace (S k + i - k)%nat with (S i) by lia. replace (S k + i - S k)%nat with i by lia.
    unfold start_of. cbn [take]. rewrite zsum_cons. lia.
Qed.
Lemma arange_batched ns : (∀ n, n ∈ ns → 0 <= n) → np_arange (zsum ns) = batched (λ i j, start_of ns i + Z.of_nat j) ns.
Proof.
  intros Hn. unfold np_arange, range. pose proof (arange_batched_from 0 0 ns Hn) as H. rewrite Z.add_0_l in H. rewrite H. apply batched_ext. intros i n j _ _. by rewrite Nat.sub_0_r.
Qed.

Lemma lookup_batched {A} (f : nat → nat → A) ns i n j :
  (∀ n, n ∈ ns → 0 <= n) → ns !! i = Some n → (j < Z.to_nat n)%nat →
  batched f ns !! (Z.to_nat (start_of ns i) + j)%nat = Some (f i j).
Proof. apply lookup_batched_from. Qed.

(** A loop over the entries of a list together with their indices. *)
Lemma zip_seq_split {A} (l : list A) done k x todo :
  zip (seq 0 (length l)) l = done ++ (k, x) :: todo → k = length done ∧ l !! k = Some x.
Proof.
  intros Heq. assert (zip (seq 0 (length l)) l !! length done = Some (k, x)) as Hk by by rewrite Heq, lookup_app_r, Nat.sub_diag by lia.
  apply lookup_zip_Some in Hk as [[-> _]%lookup_seq Hx]. by split.
Qed.

(** ** Masks *)
Lemma mask_fill_false {A} (l : list nat) (p : nat → bool) (x : nat → A) mask vals a :
  (∀ j, j ∈ l → p j = false) →
  mask_fill ((p <$> l) ++ mask) vals ((x <$> l) ++ a) = (r ← mask_fill mask vals a; Ok ((x <$> l) ++ r)).
Proof.
  induction l as [|j l IH]; intros Hp; [cbn; by destruct (mask_fill mask vals a)|]. rewrite !fmap_cons, <- !app_comm_cons. cbn [mask_fill].
  rewrite (Hp j) by by left. rewrite IH by (intros j' Hj'; apply Hp; by right). by destruct (mask_fill mask vals a).
Qed.

(** Filling the first entry of every request. *)
Lemma mask_fill_first {A} (h : nat → A) (g : nat → nat → A) k ns vals :
  (∀ n, n ∈ ns → 1 <= n) → length vals = length ns → (∀ i x, vals !! i = Some x → h (k + i)%nat = x) →
  mask_fill (batched_from k (λ _ j, bool_decide (Z.of_nat j = 0)) ns) vals (batched_from k g ns)
  = Ok (batched_from k (λ i j, if decide (j = 0%nat) then h i else g i j) ns).
Proof.
  revert k vals. induction ns as [|n ns IH]; intros k [|v vals] Hn Hlen Hv; try done. cbn [batched_from].
  assert (1 <= n) by (apply Hn; by left). destruct (Z.to_nat n) as [|m] eqn:Hm; [lia|]. cbn [seq]. rewrite !fmap_cons, <- !app_comm_cons.
  cbn [mask_fill]. rewrite mask_fill_false by (intros j Hj%elem_of_seq; apply bool_decide_eq_false; lia).
  pose proof (Hv 0%nat v eq_refl) as H0. rewrite Nat.add_0_r in H0. cbn [Z.of_nat]. rewrite bool_decide_eq_true_2 by done.
  rewrite IH; [|intros; apply Hn; by right|by injection Hlen|].
  - cbn [mbind outcome_bind]. rewrite decide_True, H0 by done. do 3 f_equal. apply list_fmap_ext. intros _ j Hj%list_elem_of_lookup_2.
    apply elem_of_seq in Hj. by rewrite decide_False by lia.
  - intros i x Hi. replace (S k + i)%nat with (k + S i)%nat by lia. by apply (Hv (S i)).
Qed.

Lemma mask_fill_select {A} (mask : list bool) (e a : list A) :
  length e = length mask → length a = length mask →
  mask_fill mask (mask_select mask e) a = Ok (zip_with (λ p y, if p.1 : bool then p.2 else y) (zip mask e) a).
Proof.
  revert e a. induction mask as [|p mask IH]; intros [|x e] [|y a] He Ha; try done. injection He as He. injection Ha as Ha.
  unfold mask_select in *. cbn [zip_with]. destruct p.
  - rewrite filter_cons_True, fmap_cons by done. cbn [mask_fill snd fst]. by rewrite IH.
  - rewrite filter_cons_False by done. cbn [mask_fill snd fst]. by rewrite IH.
Qed.

(** Filling the last entry of every request. *)
Lemma index_fill_last (v : nat → Z) c k acc ns vals (p : list Z) :
  (∀ n, n ∈ ns → 1 <= n) → length vals = length ns → (∀ i x, vals !! i = Some x → v (k + i)%nat = x) → len p = acc →
  index_fill ((λ n, n - 1) <$> cumsum_from acc ns) vals (p ++ replicate (Z.to_nat (zsum ns)) c)
  = p ++ batched_from k (λ i j, if decide (Z.of_nat j = ns !!! (i - k)%nat - 1) then v i else c) ns.
Proof.
  revert k acc vals p. induction ns as [|n ns IH]; intros k acc [|x vals] p Hn Hlen Hv Hp; try done. cbn [batched_from cumsum_from].
  assert (1 <= n) by (apply Hn; by left). assert (∀ m, m ∈ ns → 1 <= m) as Hns by (intros m Hm; apply Hn; by right).
  assert (0 <= zsum ns) by (apply zsum_nonneg; intros m Hm; pose proof (Hns m Hm); lia).
  pose proof (Hv 0%nat x eq_refl) as Hv0. rewrite Nat.add_0_r in Hv0. unfold index_fill in *. rewrite fmap_cons. cbn [zip zip_with foldl fst snd].
  set (q := p ++ (replicate (Z.to_nat n - 1) c ++ [x])).
  assert (<[Z.to_nat (acc + n - 1) := x]> (p ++ replicate (Z.to_nat (zsum (n :: ns))) c) = q ++ replicate (Z.to_nat (zsum ns)) c) as Hq.
  { rewrite zsum_cons. replace (Z.to_nat (n + zsum ns)) with ((Z.to_nat n - 1) + S (Z.to_nat (zsum ns)))%nat by lia.
    rewrite replicate_add. cbn [replicate]. unfold q, len in *. rewrite <- !app_assoc.
    replace (Z.to_nat (acc + n - 1)) with (length p + (Z.to_nat n - 1 + 0))%nat by lia. rewrite insert_app_r.
    replace (Z.to_nat n - 1 + 0)%nat with (length (replicate (Z.to_nat n - 1) c) + 0)%nat by (rewrite length_replicate; lia).
    rewrite insert_app_r. done. }
  assert (len q = acc + n) as Hqlen by (unfold q, len in *; rewrite !length_app, length_replicate; cbn; lia).
  rewrite Hq, (IH (S k) (acc + n)); [|done|by injection Hlen| |done].
  - unfold q. rewrite <- app_assoc. f_equal. f_equal.
    + replace (seq 0 (Z.to_nat n)) with (seq 0 (Z.to_nat n - 1) ++ [(Z.to_nat n - 1)%nat]) by (rewrite <- seq_S; f_equal; lia).
      rewrite fmap_app, Nat.sub_diag. cbn [fmap list_fmap lookup_total list_lookup_total]. f_equal.
      * apply list_eq. intros j. rewrite list_lookup_fmap. destruct (decide (j < Z.to_nat n - 1)%nat) as [Hj|Hj].
        -- rewrite lookup_replicate_2, lookup_seq_lt by done. cbn. by rewrite decide_False by lia.
        -- rewrite lookup_ge_None_2 by (rewrite length_replicate; lia). rewrite lookup_ge_None_2 by (rewrite length_seq; lia). done.
      * rewrite decide_True by lia. by rewrite Hv0.
    + apply batched_from_ext. intros i m j _ _. replace (S k + i - S k)%nat with i by lia. by replace (S k + i - k)%nat with (S i) by lia.
  - intros i y Hi. replace (S k + i)%nat with (k + S i)%nat by lia. by apply (Hv (S i)).
Qed.
Lemma batched_lookup_inv {A} (f : nat → nat → A) k (ns : list Z) v x :
  batched_from k f ns !! v = Some x → ∃ i j m, ns !! i = Some m ∧ (j < Z.to_nat m)%nat ∧ x = f (k + i)%nat j.
Proof.
  revert k v. induction ns as [|m ns IH]; intros k v Hv; [done|]. cbn [batched_from] in Hv. apply lookup_app_Some in Hv as [Hv|[_ Hv]].
  - apply list_lookup_fmap_Some in Hv as (j & -> & [-> Hj]%lookup_seq). exists 0%nat, v, m. by rewrite Nat.add_0_r.
  - apply IH in Hv as (i & j & m' & Hi & Hj & ->). exists (S i), j, m'. split_and!; [done|done|]. f_equal. lia.
Qed.

Lemma fmap_concat {A B} (f : A → B) (ls : list (list A)) : f <$> concat ls = concat (fmap (M := list) f <$> ls).
Proof. induction ls as [|l ls IH]; [done|]. cbn [concat]. by rewrite fmap_app, IH. Qed.
End layouts.
