(* ===== verification/AttentionMetadata.v ===== *)
(** The metadata of a step for the attention backends, from [v1/attention/backends/utils.py]:
    chunked local attention as ordinary attention over virtual requests, and where a
    batch in which decodes come first is split. *)
From Stdlib Require Import ZArith Lia.
From stdpp Require Import base list.
From S2P Require Import Prelude Arrays.
Local Open Scope Z_scope.

Record CommonAttentionMetadata : Type := mkCommonAttentionMetadata {
  query_start_loc : list Z;
  seq_lens : list Z;
  meta_num_computed_tokens : list Z;
  meta_num_reqs : Z;
  num_actual_tokens : Z;
  max_query_len : Z;
  block_table_tensor : list (list Z);
  meta_slot_mapping : list Z;
  causal : bool
}.

(** [query_start_loc[1:] - query_start_loc[:-1]]. *)
Definition differences (l : list Z) : list Z := np_sub (tail l) l.

(** [max] of an array. *)
Definition np_max (l : list Z) : outcome Z :=
  match l with [] => Raise ValueError | x :: l => Ok (foldl Z.max x l) end.

(** * Splitting decodes and prefills *)
Definition split_decodes_and_prefills (m : CommonAttentionMetadata) (decode_threshold : Z) : outcome (Z * Z * Z * Z) :=
  if decide (max_query_len m <= decode_threshold) then Ok (meta_num_reqs m, 0, num_actual_tokens m, 0)
  else
    let query_lens := differences (query_start_loc m) in
    match list_find (λ n, n > decode_threshold) query_lens with
    | None => Ok (meta_num_reqs m, 0, num_actual_tokens m, 0)
    | Some (first_prefill, _) =>
      if bool_decide (Forall (λ n, n > decode_threshold) (drop first_prefill query_lens)) then
        if bool_decide (Forall (λ n, n <= decode_threshold) (take first_prefill query_lens)) then
          num_decode_tokens ← py_index (query_start_loc m) (Z.of_nat first_prefill);
          Ok (Z.of_nat first_prefill, meta_num_reqs m - Z.of_nat first_prefill, num_decode_tokens,
              num_actual_tokens m - num_decode_tokens)
        else Raise AssertionError
      else Raise AssertionError
    end.

(** * Chunked local attention *)

(** [block_table[batch_indices, block_indices]], and [.view(rows, -1)] with [w] columns. *)
Definition take_pairs (table : list (list Z)) (batch_indices block_indices : list Z) : outcome (list Z) :=
  mapM (λ '(i, j), r ← py_index table i; py_index r j) (zip batch_indices block_indices).
Fixpoint view_rows {A} (rows w : nat) (l : list A) : list (list A) :=
  match rows with O => [] | S rows => take w l :: view_rows rows w (drop w l) end.

(** [attn_chunk_size] is positive; the code's arrays of one entry per request have one
    length. *)
Definition make_local_attention_virtual_batches (attn_chunk_size : Z) (m : CommonAttentionMetadata) (block_size : Z)
    : outcome CommonAttentionMetadata :=
  let q_seqlens := differences (query_start_loc m) in
  let q_tokens_in_first_block :=
    zip_with (λ s q, Z.min (attn_chunk_size - (s - q) mod attn_chunk_size) q) (seq_lens m) q_seqlens in
  let tokens_in_last_block := (λ s, attn_chunk_size + s mod (- attn_chunk_size)) <$> seq_lens m in
  let local_blocks := (λ n, 1 + cdiv n attn_chunk_size) <$> np_sub q_seqlens q_tokens_in_first_block in
  let cu_num_blocks := np_cumsum local_blocks in
  virtual_batches ← py_index cu_num_blocks (-1);
  let block_offsets := np_repeat (np_sub cu_num_blocks local_blocks) local_blocks in
  let arange := np_sub (np_arange virtual_batches) block_offsets in
  let rarange := (λ n, n - 1) <$> np_sub (np_repeat local_blocks local_blocks) arange in
  let seqlens_q_local := np_repeat (np_sub q_seqlens q_tokens_in_first_block) local_blocks in
  seqlens_q_local ← mask_fill ((λ a, bool_decide (a = 0)) <$> arange) q_tokens_in_first_block seqlens_q_local;
  let later := (λ a, bool_decide (a > 0)) <$> arange in
  seqlens_q_local ← mask_fill later
    (mask_select later (zip_with (λ n a, Z.min (n - attn_chunk_size * (a - 1)) attn_chunk_size) seqlens_q_local arange)) seqlens_q_local;
  let cu_seqlens_q_local := 0 :: np_cumsum seqlens_q_local in
  let seqlens_k_local :=
    index_fill ((λ n, n - 1) <$> cu_num_blocks) tokens_in_last_block (replicate (Z.to_nat virtual_batches) attn_chunk_size) in
  let num_computed_tokens_local := np_sub seqlens_k_local seqlens_q_local in
  let k_seqstarts_absolute :=
    np_sub (np_repeat (seq_lens m) local_blocks)
      (np_add ((λ r, r * attn_chunk_size) <$> rarange) (np_repeat tokens_in_last_block local_blocks)) in
  let block_starts := (λ k, k / block_size) <$> k_seqstarts_absolute in
  if decide (block_size = 0) then Raise ZeroDivisionError
  else if decide (attn_chunk_size mod block_size = 0) then
    let pages_per_local_batch := attn_chunk_size / block_size in
    columns ← match block_table_tensor m with r :: _ => Ok (len r) | [] => Raise IndexError end;
    let block_indices := (λ k, Z.min k (columns - 1)) <$>
      concat ((λ start, (λ p, p + start) <$> np_arange pages_per_local_batch) <$> block_starts) in
    let batch_indices := np_repeat (np_arange (len (seq_lens m))) ((λ n, n * pages_per_local_batch) <$> local_blocks) in
    flat ← take_pairs (block_table_tensor m) batch_indices block_indices;
    max_len ← np_max seqlens_q_local;
    Ok (mkCommonAttentionMetadata cu_seqlens_q_local seqlens_k_local num_computed_tokens_local (len seqlens_k_local)
          (num_actual_tokens m) max_len
          (view_rows (Z.to_nat virtual_batches) (Z.to_nat pages_per_local_batch) flat) (meta_slot_mapping m) true)
  else Raise AssertionError.

Example local_batches_of_the_comment :
  match make_local_attention_virtual_batches 4
    (mkCommonAttentionMetadata [0; 4; 14; 19] [6; 17; 9] [2; 7; 4] 3 19 10
       [[0;1;2;3;4;5;6;7;8;9]; [10;11;12;13;14;15;16;17;18;19]; [20;21;22;23;24;25;26;27;28;29]] [] true) 2 with
  | Ok m => query_start_loc m = [0; 2; 4; 5; 9; 13; 14; 18; 19] ∧ seq_lens m = [4; 2; 4; 4; 4; 1; 4; 1] ∧
            block_table_tensor m = [[0;1]; [2;3]; [12;13]; [14;15]; [16;17]; [18;19]; [22;23]; [24;25]]
  | Raise _ => False
  end.
Proof. vm_compute. done. Qed.
