(* ===== verification/LocalAttention.v ===== *)
(** Chunked local attention over virtual requests: every query of the batch attends, in
    the virtual request it is put in, to the cache slots that a causal mask within its
    chunk would let it attend to. *)
From Stdlib Require Import ZArith Lia Zquot.
From stdpp Require Import base list.
From S2P Require Import Prelude Arrays AttentionMetadata.
Local Open Scope Z_scope.

(** * Lists of lists *)
Lemma mapM_fmap_Ok {A B} (f : A → outcome B) (g : A → B) l : (∀ x, x ∈ l → f x = Ok (g x)) → mapM f l = Ok (g <$> l).
Proof.
  induction l as [|x l IH]; intros Hf; [done|]. cbn. rewrite (Hf x) by by left. cbn.
  rewrite IH by (intros y Hy; apply Hf; by right). done.
Qed.

Lemma zip_concat {A B C} (h : A → B → C) (ls : list (list A)) (ks : list (list B)) :
  length ls = length ks → (∀ i l k, ls !! i = Some l → ks !! i = Some k → length l = length k) →
  zip_with h (concat ls) (concat ks) = concat (zip_with (zip_with h) ls ks).
Proof.
  revert ks. induction ls as [|l ls IH]; intros [|k ks] Hlen Hl; try done. cbn [concat zip_with].
  rewrite zip_with_app by by apply (Hl 0%nat). f_equal. apply IH; [by injection Hlen|]. intros i. apply (Hl (S i)).
Qed.

Lemma view_rows_concat {A} w (ls : list (list A)) : (∀ l, l ∈ ls → length l = w) → view_rows (length ls) w (concat ls) = ls.
Proof.
  induction ls as [|l ls IH]; intros Hl; [done|]. cbn [length view_rows concat]. pose proof (Hl l ltac:(left)) as Hw.
  rewrite take_app_length', drop_app_length' by done. f_equal. apply IH. intros k Hk. apply Hl. by right.
Qed.

Lemma np_repeat_mul {A} (f : nat → A) (a : list A) w k ns :
  (∀ n, n ∈ ns → 0 <= n) → length a = length ns → (∀ i x, a !! i = Some x → f (k + i)%nat = x) →
  np_repeat a ((λ n, n * Z.of_nat w) <$> ns) = concat (batched_from k (λ i _, replicate w (f i)) ns).
Proof.
  revert a k. induction ns as [|n ns IH]; intros [|x a] k Hn Hlen Hf; try done. unfold np_repeat in *. rewrite fmap_cons.
  cbn [zip_with concat batched_from]. rewrite concat_app. f_equal.
  - assert (0 <= n) by (apply Hn; by left). pose proof (Hf 0%nat x eq_refl) as Hf0. rewrite Nat.add_0_r in Hf0. rewrite Hf0.
    replace (Z.to_nat (n * Z.of_nat w)) with (Z.to_nat n * w)%nat by lia. generalize 0%nat.
    induction (Z.to_nat n) as [|m IHm]; intros s; [done|]. cbn [seq]. rewrite fmap_cons. cbn [concat Nat.mul]. by rewrite replicate_add, (IHm (S s)).
  - apply IH; [intros m Hm; apply Hn; by right|by injection Hlen|]. intros i y Hy. replace (S k + i)%nat with (k + S i)%nat by lia. by apply (Hf (S i)).
Qed.

(** * Chunk arithmetic *)
Section chunks.
Context (c : Z) (Hc : 0 < c) (o q : Z) (Ho : 0 <= o) (Hq : 0 < q).

(** The request has [o] computed tokens and [q] queries, at the positions from [o] on. *)
Definition first_queries : Z := Z.min (c - o mod c) q.
Definition local_block_count : Z := 1 + cdiv (q - first_queries) c.
Definition last_length : Z := c + (o + q) mod (- c).
(** The queries of the [j]-th virtual request, and those before it. *)
Definition local_queries (j : Z) : Z := if decide (j = 0) then first_queries else Z.min (q - first_queries - c * (j - 1)) c.
Definition queries_before (j : Z) : Z := if decide (j = 0) then 0 else first_queries + c * (j - 1).
Definition local_keys (j : Z) : Z := if decide (j = local_block_count - 1) then last_length else c.
Definition local_start (j : Z) : Z := o + q - ((local_block_count - j - 1) * c + last_length).

(** The chunk of the first query, and the one behind the last query. *)
Let a := o / c.
Let e := cdiv (o + q) c.

Lemma chunk_bounds : a * c <= o < a * c + c ∧ e * c - c < o + q <= e * c ∧ a < e ∧ 0 <= a.
Proof.
  pose proof (Z.div_mod o c) as H1. pose proof (Z.mod_pos_bound o c Hc) as H2. pose proof (cdiv_bounds (o + q) c Hc) as H3.
  pose proof (Z.div_pos o c Ho Hc) as H4. subst a e. split_and!; try lia; nia.
Qed.
Lemma first_queries_eq : first_queries = Z.min ((a + 1) * c - o) q.
Proof. unfold first_queries. pose proof (Z.div_mod o c). subst a. f_equal. lia. Qed.
Lemma local_block_count_eq : local_block_count = e - a.
Proof.
  unfold local_block_count. rewrite first_queries_eq. destruct chunk_bounds as (H1 & H2 & H3 & H4).
  assert (cdiv (q - Z.min ((a + 1) * c - o) q) c = e - a - 1); [|lia].
  destruct (Z.min_spec ((a + 1) * c - o) q) as [[Hm ->]|[Hm ->]].
  - pose proof (cdiv_bounds (q - ((a + 1) * c - o)) c Hc). nia.
  - rewrite Z.sub_diag. unfold cdiv. rewrite Z.div_0_l by lia. nia.
Qed.
Lemma last_length_eq : last_length = o + q - (e - 1) * c.
Proof.
  unfold last_length. destruct chunk_bounds as (H1 & H2 & H3 & H4).
  assert ((o + q) mod (- c) = o + q - e * c); [|lia]. symmetry. apply (Z.mod_unique_neg _ _ (- e)); lia.
Qed.
Lemma local_start_eq j : local_start j = (a + j) * c.
Proof. unfold local_start. rewrite local_block_count_eq, last_length_eq. lia. Qed.

Lemma local_block_count_pos : 1 <= local_block_count.
Proof. rewrite local_block_count_eq. destruct chunk_bounds. lia. Qed.

(** The query [r] is in the virtual request of its chunk; the keys there end where they
    should, and begin with the chunk. *)
Lemma local_query r :
  0 <= r < q → let j := (o + r) / c - a in let t := r - queries_before j in
  0 <= j < local_block_count ∧ 0 <= t < local_queries j ∧ local_start j = (o + r) / c * c ∧
  local_keys j - local_queries j + t = o + r - local_start j.
Proof.
  intros Hr j t. pose proof (Z.div_mod (o + r) c ltac:(lia)) as Hd. pose proof (Z.mod_pos_bound (o + r) c Hc) as Hm.
  destruct chunk_bounds as (H1 & H2 & H3 & H4). pose proof local_block_count_eq as Hn. pose proof last_length_eq as Hll.
  set (b := (o + r) / c) in *. assert (j = b - a) as Hj by done. assert (a <= b) by nia. assert (b < e) by nia.
  rewrite local_start_eq. split_and!; [lia|lia| |..].
  - unfold t, queries_before. rewrite first_queries_eq. case_decide; [lia|]. assert ((a + 1) * c <= o + r) by nia. nia.
  - unfold t, queries_before, local_queries. rewrite first_queries_eq. case_decide as Hz.
    + assert (b = a) by lia. subst b. nia.
    + assert (a + 1 <= b) by lia. assert ((a + 1) * c <= o + r) by nia. rewrite Z.min_l by nia. nia.
  - rewrite Hj. lia.
  - unfold local_keys, local_queries, t, queries_before. rewrite Hn, Hll, first_queries_eq.
    destruct (decide (j = 0)) as [Hz|Hz]; destruct (decide (j = e - a - 1)) as [Hl|Hl].
    + assert (b = a) by lia. assert (e = a + 1) by lia. rewrite Z.min_r by nia. nia.
    + assert (b = a) by lia. rewrite Z.min_l by nia. nia.
    + assert (b = e - 1) by lia. rewrite (Z.min_l ((a + 1) * c - o)) by nia. rewrite Z.min_l by nia. nia.
    + rewrite (Z.min_l ((a + 1) * c - o)) by nia. rewrite Z.min_r by nia. nia.
Qed.

Lemma queries_before_le j : 0 <= j < local_block_count → queries_before j <= q.
Proof.
  intros Hj. rewrite local_block_count_eq in Hj. destruct chunk_bounds as (H1 & H2 & H3 & H4). unfold queries_before.
  case_decide; [lia|]. rewrite first_queries_eq. nia.
Qed.
Lemma queries_before_all : q <= queries_before local_block_count.
Proof.
  destruct chunk_bounds as (H1 & H2 & H3 & H4). unfold queries_before. rewrite local_block_count_eq, decide_False by lia.
  rewrite first_queries_eq. nia.
Qed.
(** The queries before a virtual request are those of the virtual requests before it. *)
Lemma queries_before_sum (j : nat) :
  Z.of_nat j <= local_block_count → zsum ((λ j, local_queries (Z.of_nat j)) <$> seq 0 j) = Z.min (queries_before (Z.of_nat j)) q.
Proof.
  induction j as [|j IH]; intros Hj; [cbn; unfold queries_before; rewrite decide_True by done; lia|].
  rewrite seq_S, fmap_app, zsum_app, IH by lia. cbn [fmap list_fmap Nat.add]. rewrite zsum_cons. change (zsum []) with 0.
  pose proof (queries_before_le (Z.of_nat j) ltac:(lia)) as Hle. unfold queries_before, local_queries in *.
  rewrite (decide_False (P := Z.of_nat (S j) = 0)) by lia. replace (Z.of_nat (S j) - 1) with (Z.of_nat j) by lia.
  assert (first_queries <= q) by (unfold first_queries; lia). destruct (decide (Z.of_nat j = 0)) as [Hz|Hz]; [rewrite Hz; lia|]. nia.
Qed.
End chunks.

Lemma start_of_batched (f : nat → nat → Z) k (ns : list Z) i n j :
  (∀ n, n ∈ ns → 0 <= n) → ns !! i = Some n → (j <= Z.to_nat n)%nat →
  start_of (batched_from k f ns) (Z.to_nat (start_of ns i) + j)
  = zsum ((λ i', zsum (f (k + i')%nat <$> seq 0 (Z.to_nat (ns !!! i')))) <$> seq 0 i) + zsum (f (k + i)%nat <$> seq 0 j).
Proof.
  unfold start_of. revert k i. induction ns as [|m ns IH]; intros k i Hn Hi Hj; [done|]. cbn [batched_from].
  assert (0 <= m) by (apply Hn; by left). assert (∀ x, x ∈ ns → 0 <= x) as Hns by (intros x Hx; apply Hn; by right).
  destruct i as [|i]; cbn in Hi.
  - injection Hi as ->. rewrite take_0. change (Z.to_nat (zsum []) + j)%nat with j. rewrite take_app_le by (rewrite length_fmap, length_seq; lia).
    cbn [seq fmap list_fmap]. change (zsum []) with 0. rewrite Nat.add_0_r, <- fmap_take, take_seq, Nat.min_l by lia. lia.
  - pose proof (start_of_nonneg ns i Hns) as Hs. unfold start_of in Hs. cbn [take]. rewrite zsum_cons.
    replace (Z.to_nat (m + zsum (take i ns)) + j)%nat with (length (f k <$> seq 0 (Z.to_nat m)) + (Z.to_nat (zsum (take i ns)) + j))%nat
      by (rewrite length_fmap, length_seq; lia).
    rewrite take_app_add. rewrite zsum_app, (IH (S k) i Hns Hi Hj). cbn [seq]. rewrite fmap_cons, zsum_cons, Nat.add_0_r.
    rewrite <- fmap_S_seq, <- list_fmap_compose. replace (S k + i)%nat with (k + S i)%nat by lia.
    assert (zsum ((λ i', zsum (f (S k + i')%nat <$> seq 0 (Z.to_nat (ns !!! i')))) <$> seq 0 i)
      = zsum ((λ i', zsum (f (k + i')%nat <$> seq 0 (Z.to_nat ((m :: ns) !!! i')))) ∘ S <$> seq 0 i)) as ->; [|cbn [lookup_total list_lookup_total]; lia].
    f_equal. apply list_fmap_ext. intros _ i' _. cbn. by replace (k + S i')%nat with (S (k + i')) by lia.
Qed.

Lemma differences_cumsum (l : list Z) v x : l !! v = Some x → differences (0 :: np_cumsum l) !! v = Some x ∧ (0 :: np_cumsum l) !!! v = start_of l v.
Proof.
  intros Hx. pose proof (lookup_lt_Some _ _ _ Hx) as Hv.
  assert ((0 :: np_cumsum l) !! v = Some (start_of l v)) as Hs.
  { destruct v as [|v]; [done|]. cbn [lookup list_lookup]. apply np_cumsum_lookup. split; [lia|done]. }
  split; [|by apply list_lookup_total_correct]. unfold differences, np_sub. cbn [tail]. rewrite lookup_zip_with.
  rewrite (proj2 (np_cumsum_lookup l v (start_of l (S v)))) by done. cbn [mbind option_bind]. rewrite Hs. cbn. f_equal.
  rewrite (start_of_S _ _ _ Hx). lia.
Qed.
(** * The virtual requests that the code builds *)
Section virtual_batches.
Context (c block_size : Z) (Hc : 0 < c) (Hbs : 0 < block_size) (Hdiv : c mod block_size = 0).
Context (m : CommonAttentionMetadata).

(** The computed tokens and the queries of a request. *)
Definition queries_of (i : nat) : Z := differences (query_start_loc m) !!! i.
Definition computed_of (i : nat) : Z := seq_lens m !!! i - queries_of i.
Definition columns_of : Z := match block_table_tensor m with r :: _ => len r | [] => 0 end.

(** The metadata of a batch: every request has a query, its sequence length includes its
    queries, and its blocks are in the table. *)
Record metadata_ok : Prop := {
  mo_some : seq_lens m ≠ [];
  mo_first : query_start_loc m !! 0%nat = Some 0;
  mo_starts : length (query_start_loc m) = S (length (seq_lens m));
  mo_queries : ∀ i, (i < length (seq_lens m))%nat → 0 < queries_of i;
  mo_computed : ∀ i, (i < length (seq_lens m))%nat → 0 <= computed_of i;
  mo_table : length (block_table_tensor m) = length (seq_lens m);
  mo_width : ∀ r, r ∈ block_table_tensor m → len r = columns_of;
  mo_blocks : ∀ i, (i < length (seq_lens m))%nat → seq_lens m !!! i <= columns_of * block_size
}.
Context (Hok : metadata_ok).

Let n := length (seq_lens m).
Let blocks (i : nat) : Z := local_block_count c (computed_of i) (queries_of i).
Definition block_counts : list Z := blocks <$> seq 0 n.
Let pages : nat := Z.to_nat (c / block_size).

(** The entries of the virtual request [j] of the request [i]. *)
Definition virtual_queries (i j : nat) : Z := local_queries c (computed_of i) (queries_of i) (Z.of_nat j).
Definition virtual_keys (i j : nat) : Z := local_keys c (computed_of i) (queries_of i) (Z.of_nat j).
Definition virtual_blocks (i j : nat) : list Z :=
  (λ p, (block_table_tensor m !!! i) !!! Z.to_nat (Z.min (p + local_start c (computed_of i) (queries_of i) (Z.of_nat j) / block_size) (columns_of - 1)))
    <$> range (c / block_size).

Lemma batch_pos : (0 < n)%nat.
Proof. pose proof (mo_some Hok). unfold n. destruct (seq_lens m); [done|cbn; lia]. Qed.

Lemma list_by_seq {A} `{Inhabited A} (l : list A) (f : nat → A) : (∀ i, (i < length l)%nat → l !!! i = f i) → l = f <$> seq 0 (length l).
Proof.
  intros Hf. apply list_eq. intros i. rewrite list_lookup_fmap. destruct (decide (i < length l)%nat) as [Hi|Hi].
  - rewrite lookup_seq_lt by done. cbn. rewrite <- Hf by done. by apply list_lookup_lookup_total_lt.
  - rewrite lookup_ge_None_2 by lia. by rewrite lookup_ge_None_2 by (rewrite length_seq; lia).
Qed.

Lemma differences_length : length (differences (query_start_loc m)) = n.
Proof. unfold differences, np_sub. pose proof (mo_starts Hok). destruct (query_start_loc m) as [|x l]; [done|]. rewrite length_zip_with. cbn in *. lia. Qed.
Lemma queries_by_seq : differences (query_start_loc m) = queries_of <$> seq 0 n.
Proof. rewrite <- differences_length. apply list_by_seq. done. Qed.
Lemma seq_lens_by_seq : seq_lens m = (λ i, computed_of i + queries_of i) <$> seq 0 n.
Proof. apply list_by_seq. intros i _. unfold computed_of. lia. Qed.

Lemma zip_seq {A B C} (h : A → B → C) (f : nat → A) (g : nat → B) k l :
  zip_with h (f <$> seq k l) (g <$> seq k l) = (λ i, h (f i) (g i)) <$> seq k l.
Proof. by rewrite zip_with_fmap_l, zip_with_fmap_r, zip_with_diag. Qed.

Lemma first_by_seq :
  zip_with (λ s q, Z.min (c - (s - q) mod c) q) (seq_lens m) (differences (query_start_loc m))
  = (λ i, first_queries c (computed_of i) (queries_of i)) <$> seq 0 n.
Proof.
  rewrite queries_by_seq, seq_lens_by_seq at 1. rewrite zip_seq. apply list_fmap_ext. intros _ i _. unfold first_queries. do 3 f_equal. lia.
Qed.
Lemma last_by_seq :
  (λ s, c + s mod (- c)) <$> seq_lens m = (λ i, last_length c (computed_of i) (queries_of i)) <$> seq 0 n.
Proof. rewrite seq_lens_by_seq, <- list_fmap_compose. done. Qed.
Lemma counts_by_seq :
  (λ k, 1 + cdiv k c) <$> np_sub (queries_of <$> seq 0 n) ((λ i, first_queries c (computed_of i) (queries_of i)) <$> seq 0 n) = block_counts.
Proof. unfold np_sub. rewrite zip_seq, <- list_fmap_compose. done. Qed.

Lemma rests_by_seq :
  np_sub (queries_of <$> seq 0 n) ((λ i, first_queries c (computed_of i) (queries_of i)) <$> seq 0 n)
  = (λ i, queries_of i - first_queries c (computed_of i) (queries_of i)) <$> seq 0 n.
Proof. apply zip_seq. Qed.

Lemma block_counts_lookup i k : block_counts !! i = Some k ↔ (i < n)%nat ∧ k = blocks i.
Proof.
  unfold block_counts. rewrite list_lookup_fmap_Some. split; [intros (x & -> & [-> ?]%lookup_seq); done|].
  intros [? ->]. exists i. split; [done|]. by apply lookup_seq.
Qed.
Lemma block_counts_pos k : k ∈ block_counts → 1 <= k.
Proof.
  intros [i [Hi ->]%block_counts_lookup]%list_elem_of_lookup_1. apply local_block_count_pos; [done|by apply (mo_computed Hok)|by apply (mo_queries Hok)].
Qed.
Lemma block_counts_nonneg k : k ∈ block_counts → 0 <= k.
Proof. intros Hk. pose proof (block_counts_pos k Hk). lia. Qed.
Lemma block_counts_length : length block_counts = n.
Proof. unfold block_counts. by rewrite length_fmap, length_seq. Qed.
Lemma lookup_seq_fmap {A} (f : nat → A) i x : (f <$> seq 0 n) !! i = Some x → f i = x.
Proof. intros (j & -> & [-> _]%lookup_seq)%list_lookup_fmap_Some. done. Qed.
Lemma repeat_by_seq {A} (f : nat → A) : np_repeat (f <$> seq 0 n) block_counts = batched (λ i _, f i) block_counts.
Proof. apply np_repeat_batched; [rewrite block_counts_length; by rewrite length_fmap, length_seq|]. apply lookup_seq_fmap. Qed.

Lemma total_blocks : py_index (np_cumsum block_counts) (-1) = Ok (zsum block_counts).
Proof.
  assert (0 < n)%nat as Hn by apply batch_pos.
  unfold py_index. pose proof block_counts_length as Hbl. cbv zeta. rewrite (decide_True (P := -1 < 0)) by lia. unfold len. rewrite np_cumsum_length, Hbl. rewrite decide_False by lia.
  assert (np_cumsum block_counts !! Z.to_nat (Z.of_nat n + -1) = Some (zsum block_counts)) as ->; [|done].
  apply np_cumsum_lookup. rewrite block_counts_length. split; [lia|]. unfold start_of. rewrite take_ge; [done|]. rewrite block_counts_length. lia.
Qed.
Lemma offsets_by_seq : np_repeat (np_sub (np_cumsum block_counts) block_counts) block_counts = batched (λ i _, start_of block_counts i) block_counts.
Proof. apply np_repeat_batched; [by rewrite np_starts_length|]. intros i x Hx. by apply np_starts_lookup in Hx as [_ ->]. Qed.
Lemma local_arange :
  np_sub (np_arange (zsum block_counts)) (np_repeat (np_sub (np_cumsum block_counts) block_counts) block_counts)
  = batched (λ _ j, Z.of_nat j) block_counts.
Proof.
  rewrite offsets_by_seq, arange_batched by apply block_counts_nonneg. unfold np_sub. rewrite batched_zip.
  apply batched_ext. intros i k j _ _. lia.
Qed.
Lemma repeat_counts : np_repeat block_counts block_counts = batched (λ i _, blocks i) block_counts.
Proof. apply np_repeat_batched; [done|]. intros i x Hx. by apply block_counts_lookup in Hx as [_ ->]. Qed.

Lemma queries_filled :
  mask_fill ((λ a, bool_decide (a = 0)) <$> batched (λ _ j, Z.of_nat j) block_counts)
    ((λ i, first_queries c (computed_of i) (queries_of i)) <$> seq 0 n)
    (batched (λ i _, queries_of i - first_queries c (computed_of i) (queries_of i)) block_counts)
  = Ok (batched (λ i j, if decide (j = 0%nat) then first_queries c (computed_of i) (queries_of i)
                        else queries_of i - first_queries c (computed_of i) (queries_of i)) block_counts).
Proof.
  rewrite batched_fmap. apply mask_fill_first; [apply block_counts_pos|by rewrite length_fmap, length_seq, block_counts_length|].
  apply lookup_seq_fmap.
Qed.

Lemma later_filled (f : nat → nat → Z) :
  let arange := batched (λ _ j, Z.of_nat j) block_counts in
  let later := (λ a, bool_decide (a > 0)) <$> arange in
  let x := batched f block_counts in
  mask_fill later (mask_select later (zip_with (λ n a, Z.min (n - c * (a - 1)) c) x arange)) x
  = Ok (batched (λ i j, if decide (j = 0%nat) then f i j else Z.min (f i j - c * (Z.of_nat j - 1)) c) block_counts).
Proof.
  cbv zeta. rewrite batched_fmap, batched_zip. rewrite mask_fill_select.
  - f_equal. rewrite !batched_zip. apply batched_ext. intros i k j _ _. cbn.
    destruct (decide (j = 0%nat)) as [->|]; [done|]. by rewrite bool_decide_eq_true_2 by lia.
  - apply Nat2Z.inj. by rewrite !batched_length by apply block_counts_nonneg.
  - apply Nat2Z.inj. by rewrite !batched_length by apply block_counts_nonneg.
Qed.

Lemma keys_filled :
  index_fill ((λ k, k - 1) <$> np_cumsum block_counts) ((λ i, last_length c (computed_of i) (queries_of i)) <$> seq 0 n)
    (replicate (Z.to_nat (zsum block_counts)) c) = batched virtual_keys block_counts.
Proof.
  unfold np_cumsum. change (replicate (Z.to_nat (zsum block_counts)) c) with ([] ++ replicate (Z.to_nat (zsum block_counts)) c).
  rewrite (index_fill_last (λ i, last_length c (computed_of i) (queries_of i)) c 0 0); [|apply block_counts_pos| | |done].
  - apply batched_ext. intros i k j Hi Hj. rewrite Nat.sub_0_r. unfold virtual_keys, local_keys.
    rewrite (list_lookup_total_correct _ _ _ Hi). apply block_counts_lookup in Hi as [_ ->]. done.
  - by rewrite length_fmap, length_seq, block_counts_length.
  - apply lookup_seq_fmap.
Qed.

Lemma starts_filled :
  (λ k, k / block_size) <$>
    np_sub (np_repeat (seq_lens m) block_counts)
      (np_add ((λ r, r * c) <$> ((λ k, k - 1) <$> np_sub (np_repeat block_counts block_counts) (batched (λ _ j, Z.of_nat j) block_counts)))
         (np_repeat ((λ i, last_length c (computed_of i) (queries_of i)) <$> seq 0 n) block_counts))
  = batched (λ i j, local_start c (computed_of i) (queries_of i) (Z.of_nat j) / block_size) block_counts.
Proof.
  assert (np_repeat (seq_lens m) block_counts = batched (λ i _, computed_of i + queries_of i) block_counts) as ->.
  { rewrite <- repeat_by_seq. f_equal. apply seq_lens_by_seq. }
  rewrite !repeat_by_seq, repeat_counts. unfold np_sub, np_add. repeat first [rewrite batched_zip|rewrite batched_fmap].
  apply batched_ext. intros i k j _ _. unfold local_start. f_equal.
Qed.

Lemma pages_pos : 0 < c / block_size.
Proof. pose proof (Z.div_mod c block_size). nia. Qed.

Lemma table_row i : (i < n)%nat → block_table_tensor m !! i = Some (block_table_tensor m !!! i) ∧ len (block_table_tensor m !!! i) = columns_of.
Proof.
  intros Hi. assert (block_table_tensor m !! i = Some (block_table_tensor m !!! i)) as Hr.
  { apply list_lookup_lookup_total_lt. rewrite (mo_table Hok). done. }
  split; [done|]. apply (mo_width Hok). by eapply list_elem_of_lookup_2.
Qed.

Lemma columns_pos : 0 < columns_of.
Proof.
  assert (0 < n)%nat as Hn by apply batch_pos.
  pose proof (mo_blocks Hok 0 Hn). pose proof (mo_queries Hok 0 Hn). pose proof (mo_computed Hok 0 Hn). unfold computed_of in *. nia.
Qed.

(** The blocks of the virtual requests, page by page. *)
Lemma table_gathered :
  take_pairs (block_table_tensor m) (np_repeat (np_arange (len (seq_lens m))) ((λ k, k * (c / block_size)) <$> block_counts))
    ((λ k, Z.min k (columns_of - 1)) <$> concat ((λ start, (λ p, p + start) <$> np_arange (c / block_size)) <$>
      batched (λ i j, local_start c (computed_of i) (queries_of i) (Z.of_nat j) / block_size) block_counts))
  = Ok (concat (batched virtual_blocks block_counts)).
Proof.
  pose proof pages_pos as Hp. replace ((λ k, k * (c / block_size)) <$> block_counts) with ((λ k, k * Z.of_nat pages) <$> block_counts)
    by (apply list_fmap_ext; intros; unfold pages; lia).
  rewrite (np_repeat_mul (λ i, Z.of_nat i) _ pages 0); [|apply block_counts_nonneg| |].
  2:{ unfold np_arange, range, range2, len. rewrite length_fmap, length_seq, block_counts_length. unfold n. lia. }
  2:{ intros i x Hx. unfold np_arange in Hx. apply range_lookup in Hx as [-> _]. done. }
  rewrite batched_fmap, fmap_concat, batched_fmap. unfold take_pairs. rewrite zip_concat.
  - change (batched_from 0 ?f block_counts) with (batched f block_counts). rewrite batched_zip.
    rewrite (mapM_fmap_Ok _ (λ p, (block_table_tensor m !!! Z.to_nat p.1) !!! Z.to_nat p.2)).
    + f_equal. rewrite fmap_concat. f_equal. rewrite batched_fmap. apply batched_ext. intros i k j _ _.
      unfold virtual_blocks, np_arange. rewrite zip_with_replicate_l by (unfold pages, range, range2; rewrite !length_fmap, length_seq; lia).
      rewrite <- !list_fmap_compose. apply list_fmap_ext. intros _ p _. cbn. by rewrite Nat2Z.id.
    + intros [x y] Hxy. apply elem_of_concat in Hxy as (l & [v Hv]%list_elem_of_lookup_1 & Hl).
      apply batched_lookup_inv in Hv as (i & j & k & Hi & Hj & ->). cbn [Nat.add] in Hl.
      apply block_counts_lookup in Hi as [Hi ->]. rewrite zip_with_replicate_l in Hl by (unfold pages, np_arange, range, range2; rewrite !length_fmap, length_seq; lia).
      apply list_elem_of_fmap in Hl as (y0 & [= -> ->] & Hy). apply list_elem_of_fmap in Hy as (z & -> & Hz).
      apply list_elem_of_fmap in Hz as (p & -> & Hp'). apply list_elem_of_lookup_1 in Hp' as [q Hq]. unfold np_arange in Hq. apply range_lookup in Hq as [-> Hq].
      destruct (table_row i Hi) as [Hr Hw]. pose proof columns_pos. cbn [fst snd]. rewrite Nat2Z.id.
      assert (py_index (block_table_tensor m) (Z.of_nat i) = Ok (block_table_tensor m !!! i)) as -> by by apply py_index_lookup. cbn [mbind outcome_bind].
      pose proof (local_start_eq c Hc (computed_of i) (queries_of i) (mo_computed Hok i Hi) (mo_queries Hok i Hi) (Z.of_nat j)) as Hs.
      assert (0 <= computed_of i / c) by (apply Z.div_pos; [by apply (mo_computed Hok)|done]).
      assert (0 <= local_start c (computed_of i) (queries_of i) (Z.of_nat j) / block_size) by (apply Z.div_pos; [rewrite Hs; nia|done]).
      set (z := Z.min _ _). assert (0 <= z < columns_of) by (unfold z; lia).
      replace z with (Z.of_nat (Z.to_nat z)) at 1 by lia. apply py_index_lookup. apply list_lookup_lookup_total_lt. unfold len in Hw. lia.
  - apply Nat2Z.inj. change (batched_from 0 ?f block_counts) with (batched f block_counts). by rewrite !batched_length by apply block_counts_nonneg.
  - intros v l k Hl Hk. apply batched_lookup_inv in Hl as (i & j & x & _ & _ & ->). apply batched_lookup_inv in Hk as (i' & j' & x' & _ & _ & ->).
    unfold np_arange, range, range2, pages. rewrite length_replicate, !length_fmap, length_seq. lia.
Qed.

Lemma virtual_result :
  ∃ max_len, make_local_attention_virtual_batches c m block_size =
    Ok (mkCommonAttentionMetadata (0 :: np_cumsum (batched virtual_queries block_counts)) (batched virtual_keys block_counts)
          (np_sub (batched virtual_keys block_counts) (batched virtual_queries block_counts)) (zsum block_counts) (num_actual_tokens m)
          max_len (batched virtual_blocks block_counts) (meta_slot_mapping m) true).
Proof.
  unfold make_local_attention_virtual_batches. cbv zeta. rewrite first_by_seq, last_by_seq, queries_by_seq, counts_by_seq, total_blocks.
  cbn [mbind outcome_bind]. rewrite local_arange, rests_by_seq, (repeat_by_seq (λ i, queries_of i - _)), queries_filled. cbn [mbind outcome_bind].
  rewrite later_filled. cbn [mbind outcome_bind]. rewrite decide_False by lia. rewrite decide_True by done.
  set (ql := batched (λ i j, if decide (j = 0%nat) then _ else _) block_counts).
  assert (ql = batched virtual_queries block_counts) as ->.
  { apply batched_ext. intros i k j Hi Hj. unfold virtual_queries, local_queries. destruct (decide (j = 0%nat)) as [->|Hz]; [done|].
    by rewrite decide_False by lia. }
  assert (match block_table_tensor m with [] => Raise IndexError | r :: _ => Ok (len r) end = Ok columns_of) as ->.
  { unfold columns_of. pose proof (mo_table Hok) as Ht. pose proof (mo_some Hok). destruct (block_table_tensor m); [by destruct (seq_lens m)|done]. }
  cbn [mbind outcome_bind]. rewrite starts_filled, table_gathered, keys_filled. cbn [mbind outcome_bind].
  assert (Z.of_nat (length (batched virtual_queries block_counts)) = zsum block_counts) as Hlen by (apply batched_length, block_counts_nonneg).
  assert (0 < zsum block_counts) as Hpos.
  { assert (0 < n)%nat as Hn by apply batch_pos.
    pose proof (proj2 (block_counts_lookup 0 _) (conj Hn eq_refl)) as Hb. pose proof (block_counts_pos _ (list_elem_of_lookup_2 _ _ _ Hb)).
    destruct block_counts as [|k l] eqn:E; [done|]. rewrite zsum_cons. injection Hb as ->.
    assert (0 <= zsum l); [|lia]. apply zsum_nonneg. intros x Hx. apply block_counts_nonneg. rewrite E. by right. }
  assert (∃ mx, np_max (batched virtual_queries block_counts) = Ok mx) as [mx ->].
  { destruct (batched virtual_queries block_counts) as [|x l]; [cbn in Hlen; lia|by eexists]. }
  cbn [mbind outcome_bind]. exists mx. f_equal. f_equal.
  - unfold len. apply batched_length, block_counts_nonneg.
  - unfold pages. rewrite <- (view_rows_concat (Z.to_nat (c / block_size)) (batched virtual_blocks block_counts)) at 2.
    + f_equal. apply Nat2Z.inj. rewrite batched_length by apply block_counts_nonneg. lia.
    + intros y [v Hv]%list_elem_of_lookup_1. apply batched_lookup_inv in Hv as (i & j & k & _ & _ & ->).
      unfold virtual_blocks, range, range2. rewrite !length_fmap, length_seq. lia.
Qed.

(** The queries of the virtual requests are those of the batch, in order. *)
Lemma virtual_start i j :
  (i < n)%nat → Z.of_nat j < blocks i →
  start_of (batched virtual_queries block_counts) (Z.to_nat (start_of block_counts i) + j)
  = query_start_loc m !!! i + queries_before c (computed_of i) (queries_of i) (Z.of_nat j).
Proof.
  intros Hi Hj. unfold batched. rewrite (start_of_batched virtual_queries 0 block_counts i (blocks i) j);
    [|apply block_counts_nonneg|by apply block_counts_lookup|lia].
  cbn [Nat.add]. unfold virtual_queries at 2.
  rewrite queries_before_sum by (first [done|by apply (mo_computed Hok)|by apply (mo_queries Hok)|unfold blocks in Hj; lia]).
  rewrite Z.min_l by (apply queries_before_le; first [done|by apply (mo_computed Hok)|by apply (mo_queries Hok)|unfold blocks in Hj; lia]).
  f_equal. transitivity (zsum (queries_of <$> seq 0 i)).
  - f_equal. apply list_fmap_ext. intros _ i' Hi'%list_elem_of_lookup_2. apply elem_of_seq in Hi'.
    assert (i' < n)%nat as Hlt by lia. pose proof (mo_computed Hok i' Hlt) as Hc'. pose proof (mo_queries Hok i' Hlt) as Hq'.
    rewrite (list_lookup_total_correct _ _ (blocks i')) by by apply block_counts_lookup.
    pose proof (local_block_count_pos c Hc _ _ Hc' Hq') as Hpos. unfold virtual_queries.
    rewrite queries_before_sum by (first [done|unfold blocks; lia]). unfold blocks. rewrite Z2Nat.id by lia.
    rewrite Z.min_r; [done|]. by apply queries_before_all.
  - assert (length (query_start_loc m) = S n) as Hl by apply (mo_starts Hok).
    clear Hj. induction i as [|i IH]; [cbn; by rewrite (list_lookup_total_correct _ _ _ (mo_first Hok))|].
    rewrite seq_S, fmap_app, zsum_app, IH by lia. cbn [fmap list_fmap Nat.add]. rewrite zsum_cons. change (zsum []) with 0.
    destruct (lookup_lt_is_Some_2 (query_start_loc m) i) as [x Hx]; [lia|]. destruct (lookup_lt_is_Some_2 (query_start_loc m) (S i)) as [y Hy]; [lia|].
    rewrite (list_lookup_total_correct _ _ _ Hx), (list_lookup_total_correct _ _ _ Hy). unfold queries_of, differences, np_sub.
    rewrite (list_lookup_total_correct _ _ (y - x)); [lia|]. rewrite lookup_zip_with, lookup_tail, Hy. cbn. by rewrite Hx.
Qed.

End virtual_batches.

(** * What a query attends to *)

(** The cache slot of the [k]-th key of a request, through its row of the block table. *)
Definition key_slot (block_size : Z) (blocks : list Z) (k : Z) : Z := blocks !!! Z.to_nat (k / block_size) * block_size + k mod block_size.

(** The slots that causal attention reads for the [t]-th query of the request [v]: the last
    query sees all keys, each one before it one key less. *)
Definition attended (block_size : Z) (m : CommonAttentionMetadata) (v : nat) (t : Z) : list Z :=
  key_slot block_size (block_table_tensor m !!! v) <$> range (seq_lens m !!! v - differences (query_start_loc m) !!! v + t + 1).

(** The slots of the keys up to the query's own position that are in its chunk. *)
Definition chunk_attended (c block_size : Z) (m : CommonAttentionMetadata) (i : nat) (r : Z) : list Z :=
  let p := computed_of m i + r in
  key_slot block_size (block_table_tensor m !!! i) <$> filter (λ k, k / c = p / c) (range (p + 1)).

Lemma chunk_range c p : 0 < c → 0 <= p → filter (λ k, k / c = p / c) (range (p + 1)) = range2 (p / c * c) (p + 1).
Proof.
  intros Hc Hp. pose proof (Z.div_pos p c Hp Hc) as Hd. pose proof (Z.div_mod p c ltac:(lia)) as Hm. pose proof (Z.mod_pos_bound p c Hc) as Hb.
  set (s := p / c * c). assert (0 <= s <= p) by (unfold s; nia). unfold range, range2.
  replace (Z.to_nat (p + 1 - 0)) with (Z.to_nat s + Z.to_nat (p + 1 - s))%nat by lia. rewrite seq_app, fmap_app, filter_app.
  rewrite (list_filter_id _ ((λ i, 0 + Z.of_nat i) <$> seq (0 + Z.to_nat s) _)).
  - assert (filter (λ k, k / c = p / c) ((λ i : nat, 0 + Z.of_nat i) <$> seq 0 (Z.to_nat s)) = []) as ->.
    { apply elem_of_nil_inv. intros x [Heq (i & -> & Hi)%list_elem_of_fmap]%list_elem_of_filter. apply elem_of_seq in Hi.
      assert (p / c <= Z.of_nat i / c) as Hle by (rewrite Z.add_0_l in Heq; lia). assert (p / c * c <= Z.of_nat i) by (pose proof (Z.mul_div_le (Z.of_nat i) c Hc); nia). lia. }
    cbn [app]. rewrite <- (Nat.add_0_r (0 + Z.to_nat s)), <- fmap_add_seq, <- list_fmap_compose. apply list_fmap_ext. intros _ i _. cbn. lia.
  - intros x (i & -> & Hi)%list_elem_of_fmap. apply elem_of_seq in Hi. rewrite Z.add_0_l.
    symmetry. apply (Z.div_unique_pos _ _ _ (Z.of_nat i - s)); unfold s in *; nia.
Qed.

(** A key of a virtual request whose keys begin at [start] is in the slot that it has in the
    request. *)
Lemma key_slot_shift c block_size m i start u blocks :
  0 < c → 0 < block_size → c mod block_size = 0 → metadata_ok block_size m → (i < length (seq_lens m))%nat →
  start mod block_size = 0 → 0 <= start → 0 <= u < c → start + u < seq_lens m !!! i →
  blocks = (λ q, (block_table_tensor m !!! i) !!! Z.to_nat (Z.min (q + start / block_size) (columns_of m - 1))) <$> range (c / block_size) →
  key_slot block_size blocks u = key_slot block_size (block_table_tensor m !!! i) (start + u).
Proof.
  intros Hc Hbs Hdiv Hok Hi Hs Hs0 Hu Hlt ->. unfold key_slot. apply Z.div_exact in Hs; [|lia].
  assert ((start + u) / block_size = u / block_size + start / block_size ∧ (start + u) mod block_size = u mod block_size) as [-> ->].
  { rewrite Hs at 1 3. rewrite Z.add_comm, (Z.mul_comm block_size), Z.div_add, Z.mod_add by lia. done. }
  f_equal. f_equal.
  pose proof (mo_blocks _ _ Hok i Hi) as Hb. pose proof (Z.div_pos u block_size ltac:(lia) Hbs) as Hu0.
  pose proof (Z.div_pos start block_size Hs0 Hbs) as Hst0. pose proof (Z.mul_div_le u block_size Hbs) as Hul.
  assert (u / block_size < c / block_size) as Huc.
  { apply Z.div_exact in Hdiv; [|lia]. apply Z.div_lt_upper_bound; lia. }
  rewrite (list_lookup_total_correct _ _ ((block_table_tensor m !!! i) !!! Z.to_nat (Z.min (u / block_size + start / block_size) (columns_of m - 1)))).
  - rewrite Z.min_l; [done|]. nia.
  - apply list_lookup_fmap_Some. exists (u / block_size). split; [done|]. apply range_lookup. lia.
Qed.

(** Attention over the virtual requests is attention within the chunks: each query of a
    request is a query of one virtual request, at the same place of the batch, and reads
    the same slots in the same order. *)
Lemma local_attention_spec c block_size m :
  0 < c → 0 < block_size → c mod block_size = 0 → metadata_ok block_size m →
  ∃ m', make_local_attention_virtual_batches c m block_size = Ok m' ∧
  ∀ i r, (i < length (seq_lens m))%nat → 0 <= r < queries_of m i →
  ∃ v t, 0 <= t < differences (query_start_loc m') !!! v ∧
    query_start_loc m' !!! v + t = query_start_loc m !!! i + r ∧
    attended block_size m' v t = chunk_attended c block_size m i r.
Proof.
  intros Hc Hbs Hdiv Hok. destruct (virtual_result c block_size Hc Hbs Hdiv m Hok) as [mx Hres]. eexists. split; [exact Hres|].
  intros i r Hi Hr. pose proof (mo_computed _ _ Hok i Hi) as Ho. pose proof (mo_queries _ _ Hok i Hi) as Hq.
  destruct (local_query c Hc (computed_of m i) (queries_of m i) Ho Hq r Hr) as (Hj & Ht & Hstart & Hkeys).
  set (p := computed_of m i + r) in *. set (j := p / c - computed_of m i / c) in *. set (t := r - _) in *.
  set (ns := block_counts c m). assert (∀ k, k ∈ ns → 0 <= k) as Hns by by apply (block_counts_nonneg c block_size Hc m Hok).
  assert (ns !! i = Some (local_block_count c (computed_of m i) (queries_of m i))) as Hni by by apply block_counts_lookup.
  assert (Z.to_nat j < Z.to_nat (local_block_count c (computed_of m i) (queries_of m i)))%nat as Hjn by lia.
  set (v := (Z.to_nat (start_of ns i) + Z.to_nat j)%nat). exists v, t.
  assert (∀ A (f : nat → nat → A), batched f ns !! v = Some (f i (Z.to_nat j))) as Hlook by (intros A f; by eapply lookup_batched).
  unfold attended. cbn [query_start_loc seq_lens block_table_tensor].
  destruct (differences_cumsum _ v _ (Hlook _ (virtual_queries c m))) as [Hdiff Hsv].
  rewrite Hsv, (list_lookup_total_correct _ _ _ Hdiff), !(list_lookup_total_correct _ _ _ (Hlook _ _)).
  assert (virtual_queries c m i (Z.to_nat j) = local_queries c (computed_of m i) (queries_of m i) j) as -> by (unfold virtual_queries; f_equal; lia).
  assert (virtual_keys c m i (Z.to_nat j) = local_keys c (computed_of m i) (queries_of m i) j) as -> by (unfold virtual_keys; f_equal; lia).
  split_and!; [lia|lia| |].
  - unfold v, ns. rewrite (virtual_start c block_size Hc m Hok i (Z.to_nat j) Hi) by lia. rewrite Z2Nat.id by lia. unfold t. lia.
  - assert (0 <= p) by (unfold p; lia). pose proof (Z.div_pos p c ltac:(lia) Hc). pose proof (Z.mul_div_le p c Hc) as Hpc.
    unfold chunk_attended. fold p. rewrite chunk_range by lia. rewrite Hkeys, Hstart. unfold range, range2.
    replace (p - p / c * c + 1 - 0) with (p + 1 - p / c * c) by lia. rewrite <- !list_fmap_compose. apply list_fmap_ext.
    intros _ u Hu%list_elem_of_lookup_2. apply elem_of_seq in Hu. cbn. rewrite Z.add_0_l.
    apply (key_slot_shift c block_size m i (p / c * c) (Z.of_nat u)); try done; try lia.
    + apply Z.mod_divide; [lia|]. apply Z.divide_mul_r. apply Z.mod_divide; [lia|done].
    + pose proof (Z.mod_pos_bound p c Hc). pose proof (Z.div_mod p c ltac:(lia)). lia.
    + unfold p, computed_of in *. lia.
    + unfold virtual_blocks. rewrite Z2Nat.id, Hstart by lia. done.
Qed.
