(* ===== verification/RejectionSampler.v ===== *)
(** The rejection sampler of [v1/sample/rejection_sampler.py]: its kernels, run for one
    request after the other on buffers in global memory, and what the tokens that come
    out of them are.  Probabilities are rationals; the uniform and the exponential random
    numbers are arguments. *)
From Stdlib Require Import ZArith QArith Lia.
From stdpp Require Import base list.
From S2P Require Import Prelude Arrays BlockTable.
Local Open Scope Z_scope.

Definition PLACEHOLDER_TOKEN_ID : Z := -1.

(** A buffer in global memory: [tl.load] and [tl.store] at an index. *)
Definition load {A} (buf : list A) (i : Z) : outcome A :=
  if decide (i < 0) then Raise IndexError else array_get buf (Z.to_nat i).
Definition store {A} (i : Z) (x : A) : M (list A) unit :=
  if decide (i < 0) then raise IndexError else b ← get; b' ← lift_outcome (array_set b (Z.to_nat i) x); put b'.

(** [argmax]: the first index of a largest entry. *)
Fixpoint argmax_from (i best : Z) (best_val : Q) (l : list Q) : Z :=
  match l with
  | [] => best
  | x :: l => if Qle_bool x best_val then argmax_from (i + 1) best best_val l else argmax_from (i + 1) i x l
  end.
Definition argmax (l : list Q) : Z := match l with [] => 0 | x :: l => argmax_from 1 0 x l end.

#[export] Instance Q_inhabited : Inhabited Q := populate 0%Q.

Section kernels.
Context (cu_num_draft_tokens : list Z) (draft_token_ids : list Z) (max_spec_len : Z).

(** [start_idx] and [num_draft_tokens] of a request. *)
Definition draft_range (req_idx : Z) : outcome (Z * Z) :=
  start_idx ← (if decide (req_idx = 0) then Ok 0 else load cu_num_draft_tokens (req_idx - 1));
  end_idx ← load cu_num_draft_tokens req_idx;
  Ok (start_idx, end_idx - start_idx).

(** The loop both kernels share: a token is stored at each position until one is
    rejected; [choose start_idx pos] gives the token and whether it is a rejection. *)
Definition sample_loop (choose : Z → Z → outcome (Z * bool)) (bonus_token_ids : list Z) (req_idx : Z) : M (list Z) unit :=
  '(start_idx, num_draft_tokens) ← lift_outcome (draft_range req_idx);
  rejected ← fold_each (range num_draft_tokens) false (λ rejected pos,
    if rejected : bool then mret rejected
    else
      '(token_id, reject) ← lift_outcome (choose start_idx pos);
      store (req_idx * (max_spec_len + 1) + pos) token_id ;;
      mret reject);
  if rejected : bool then mret tt
  else
    bonus_token_id ← lift_outcome (load bonus_token_ids req_idx);
    store (req_idx * (max_spec_len + 1) + num_draft_tokens) bonus_token_id.

Definition choose_greedy (target_argmax : list Z) (start_idx pos : Z) : outcome (Z * bool) :=
  draft_token_id ← load draft_token_ids (start_idx + pos);
  target_argmax_id ← load target_argmax (start_idx + pos);
  Ok (target_argmax_id, bool_decide (draft_token_id ≠ target_argmax_id)).

(** [is_greedy] is [None] when all requests are greedy. *)
Definition rejection_greedy_sample_kernel (target_argmax bonus_token_ids : list Z) (is_greedy : option (list bool)) (req_idx : Z)
    : M (list Z) unit :=
  greedy ← match is_greedy with None => mret true | Some l => lift_outcome (load l req_idx) end;
  if greedy : bool then sample_loop (choose_greedy target_argmax) bonus_token_ids req_idx else mret tt.

(** [target_prob / draft_prob >= uniform_prob] for a positive [draft_prob]. *)
Definition choose_random (draft_probs : option (list (list Q))) (target_probs : list (list Q)) (recovered_token_ids : list Z)
    (uniform_probs : list Q) (start_idx pos : Z) : outcome (Z * bool) :=
  draft_token_id ← load draft_token_ids (start_idx + pos);
  draft_prob ← match draft_probs with
               | None => Ok 1%Q
               | Some probs => row ← load probs (start_idx + pos); load row draft_token_id
               end;
  row ← load target_probs (start_idx + pos);
  target_prob ← load row draft_token_id;
  uniform_prob ← load uniform_probs (start_idx + pos);
  if negb (Qle_bool draft_prob 0) && Qle_bool uniform_prob (target_prob / draft_prob) then Ok (draft_token_id, false)
  else
    recovered ← load recovered_token_ids (start_idx + pos);
    Ok (recovered, true).

Definition rejection_random_sample_kernel (draft_probs : option (list (list Q))) (target_probs : list (list Q))
    (bonus_token_ids recovered_token_ids : list Z) (uniform_probs : list Q) (is_greedy : list bool) (req_idx : Z) : M (list Z) unit :=
  greedy ← lift_outcome (load is_greedy req_idx);
  if greedy : bool then mret tt
  else sample_loop (choose_random draft_probs target_probs recovered_token_ids uniform_probs) bonus_token_ids req_idx.

(** The token that replaces the rejected draft token at [pos]; without draft
    probabilities the draft token's own probability counts as zero. *)
Definition recovered_token (draft_probs : option (list (list Q))) (target_probs : list (list Q)) (q : list (list Q))
    (req_idx start_idx pos : Z) : outcome Z :=
  target ← load target_probs (start_idx + pos);
  prob ← match draft_probs with
         | None =>
           draft_token_id ← load draft_token_ids (start_idx + pos);
           load target draft_token_id ;;
           Ok (<[Z.to_nat draft_token_id := 0%Q]> target)
         | Some probs =>
           draft ← load probs (start_idx + pos);
           Ok (zip_with (λ t d, if Qle_bool t d then 0%Q else (t - d)%Q) target draft)
         end;
  noise ← load q req_idx;
  Ok (argmax (zip_with Qdiv prob noise)).
Definition sample_recovered_tokens_kernel (draft_probs : option (list (list Q))) (target_probs : list (list Q)) (q : list (list Q))
    (req_idx pos : Z) : M (list Z) unit :=
  '(start_idx, num_draft_tokens) ← lift_outcome (draft_range req_idx);
  if decide (pos >= num_draft_tokens) then mret tt
  else
    id ← lift_outcome (recovered_token draft_probs target_probs q req_idx start_idx pos);
    store (start_idx + pos) id.
End kernels.

(** [sample_recovered_tokens]: a buffer like the draft tokens, filled by one program for
    each request and position. *)
Definition sample_recovered_tokens (max_spec_len : Z) (batch_size : Z) (cu_num_draft_tokens draft_token_ids : list Z)
    (draft_probs : option (list (list Q))) (target_probs : list (list Q)) (q : list (list Q)) (uninitialised : list Z) : outcome (list Z) :=
  match for_each (range batch_size) (λ req_idx, for_each (range max_spec_len) (λ pos,
          sample_recovered_tokens_kernel cu_num_draft_tokens draft_token_ids draft_probs target_probs q req_idx pos)) uninitialised with
  | (Ok _, buf) => Ok buf
  | (Raise e, _) => Raise e
  end.

(** What the sampling metadata says of the batch. *)
Record SamplingKind : Type := mkSamplingKind {
  sk_all_greedy : bool;
  sk_all_random : bool;
  sk_is_greedy : list bool
}.

(** [rejection_sample]: the flat output buffer with [max_spec_len + 1] entries per request. *)
Definition rejection_sample (draft_token_ids : list Z) (batch_size max_spec_len : Z) (cu_num_draft_tokens : list Z)
    (draft_probs : option (list (list Q))) (target_probs : list (list Q)) (bonus_token_ids : list Z) (kind : SamplingKind)
    (uniform_probs : list Q) (q : list (list Q)) (uninitialised : list Z) : outcome (list Z) :=
  let output := replicate (Z.to_nat (batch_size * (max_spec_len + 1))) PLACEHOLDER_TOKEN_ID in
  let is_greedy := if sk_all_greedy kind then None else Some (sk_is_greedy kind) in
  let run (m : M (list Z) unit) (buf : list Z) := match m buf with (Ok _, b) => Ok b | (Raise e, _) => Raise e end in
  output ← (if sk_all_random kind then Ok output
            else run (for_each (range batch_size)
                   (rejection_greedy_sample_kernel cu_num_draft_tokens draft_token_ids max_spec_len (argmax <$> target_probs) bonus_token_ids is_greedy))
                   output);
  if sk_all_greedy kind && negb (sk_all_random kind) then Ok output
  else
    recovered ← sample_recovered_tokens max_spec_len batch_size cu_num_draft_tokens draft_token_ids draft_probs target_probs q uninitialised;
    run (for_each (range batch_size)
           (rejection_random_sample_kernel cu_num_draft_tokens draft_token_ids max_spec_len draft_probs target_probs bonus_token_ids recovered
              uniform_probs (default [] is_greedy))) output.

(** [parse_output]: the rows without placeholders and without tokens beyond the vocabulary. *)
Definition parse_row (vocab_size : Z) (row : list Z) : list Z := filter (λ t, t ≠ PLACEHOLDER_TOKEN_ID ∧ t < vocab_size) row.
Definition parse_output (vocab_size : Z) (rows : list (list Z)) : list (list Z) := parse_row vocab_size <$> rows.

(** * What a request's row holds *)

(** The tokens of the choices up to the first rejection, and the bonus token when there is
    none. *)
Fixpoint kept (l : list (Z * bool)) : list Z :=
  match l with [] => [] | (t, true) :: _ => [t] | (t, false) :: l => t :: kept l end.
Definition rejects (l : list (Z * bool)) : bool := existsb snd l.
Definition sampled (l : list (Z * bool)) (bonus : Z) : list Z := if rejects l then kept l else kept l ++ [bonus].

Section sample_proofs.
Implicit Types (buf : list Z) (l : list (Z * bool)).

(** The buffer has [vals] at [off], and is as it was elsewhere. *)
Definition wrote buf (off : nat) (vals : list Z) buf' : Prop :=
  length buf' = length buf ∧ ∀ k, buf' !! k = if decide (off <= k < off + length vals)%nat then vals !! (k - off)%nat else buf !! k.

Lemma wrote_nil buf off : wrote buf off [] buf.
Proof. split; [done|]. intros k. rewrite decide_False; [done|cbn; lia]. Qed.
Lemma wrote_snoc buf off vals buf' x :
  wrote buf off vals buf' → (off + length vals < length buf)%nat → wrote buf off (vals ++ [x]) (<[off + length vals := x]> buf')%nat.
Proof.
  intros [Hl Hk] Hlt. split; [by rewrite length_insert|]. intros k. rewrite length_app. cbn [length].
  destruct (decide (k = off + length vals)%nat) as [->|Hne].
  - rewrite list_lookup_insert_eq by lia. rewrite decide_True by lia. rewrite lookup_app_r by lia. by replace (_ - _ - _)%nat with 0%nat by lia.
  - rewrite list_lookup_insert_ne by done. rewrite Hk. destruct (decide (off <= k < off + length vals)%nat).
    + rewrite decide_True by lia. by rewrite lookup_app_l by lia.
    + by rewrite decide_False by lia.
Qed.

Lemma kept_snoc l t r : kept (l ++ [(t, r)]) = if rejects l then kept l else kept l ++ [t].
Proof. induction l as [|[t' [|]] l IH]; cbn; [by destruct r|done|]. rewrite IH. unfold rejects. by destruct (existsb snd l). Qed.
Lemma kept_length l : rejects l = false → length (kept l) = length l.
Proof. unfold rejects. induction l as [|[t [|]] l IH]; cbn; [done|done|]. intros H. by rewrite IH. Qed.
Lemma kept_length_le l : (length (kept l) <= length l)%nat.
Proof. induction l as [|[t [|]] l IH]; cbn; lia. Qed.
Lemma rejects_snoc l t r : rejects (l ++ [(t, r)]) = rejects l || r.
Proof. unfold rejects. rewrite existsb_app. cbn. by rewrite orb_false_r. Qed.
Lemma sampled_length l bonus : (0 < length (sampled l bonus) <= length l + 1)%nat.
Proof.
  unfold sampled. pose proof (kept_length_le l). destruct (rejects l) eqn:E; [|rewrite length_app; cbn; lia].
  split; [|lia]. destruct l as [|[t [|]] l]; cbn in *; [done|lia|lia].
Qed.

Lemma load_lookup {A} (b : list A) (i : nat) x : b !! i = Some x → load b (Z.of_nat i) = Ok x.
Proof. intros H. unfold load. rewrite decide_False by lia. rewrite Nat2Z.id. by apply array_get_Some. Qed.
Lemma wp_store {A} (b : list A) (i : nat) x Q : (i < length b)%nat → Q tt (<[i := x]> b) → wp (store (Z.of_nat i) x) Q b.
Proof.
  intros Hi HQ. unfold store. rewrite decide_False by lia. apply wp_bind, wp_get, wp_bind. rewrite Nat2Z.id.
  eapply wp_lift_outcome; [by apply array_set_lt|]. by apply wp_put.
Qed.

(** The layout of the drafts: the counts of the requests, none beyond [w]. *)
Context (ns : list Z) (w : nat) (Hns : ∀ n, n ∈ ns → 0 <= n <= Z.of_nat w).

Lemma draft_range_spec i n : ns !! i = Some n → draft_range (np_cumsum ns) (Z.of_nat i) = Ok (start_of ns i, n).
Proof.
  intros Hi. pose proof (lookup_lt_Some _ _ _ Hi). unfold draft_range.
  assert ((if decide (Z.of_nat i = 0) then Ok 0 else load (np_cumsum ns) (Z.of_nat i - 1)) = Ok (start_of ns i)) as ->.
  { case_decide as Hz; [by replace i with 0%nat by lia|]. destruct i as [|i]; [done|]. replace (Z.of_nat (S i) - 1) with (Z.of_nat i) by lia.
    apply load_lookup, np_cumsum_lookup. split; [lia|done]. }
  cbn [mbind outcome_bind]. rewrite (load_lookup _ i (start_of ns (S i))) by by apply np_cumsum_lookup.
  cbn [mbind outcome_bind]. rewrite (start_of_S _ _ _ Hi). by replace (start_of ns i + n - start_of ns i) with n by lia.
Qed.

Lemma wp_sample_loop choose (c : nat → Z * bool) bonus_ids i n bonus buf :
  ns !! i = Some n → bonus_ids !! i = Some bonus → (i * (w + 1) + (w + 1) <= length buf)%nat →
  (∀ pos, (pos < Z.to_nat n)%nat → choose (start_of ns i) (Z.of_nat pos) = Ok (c pos)) →
  wp (sample_loop (np_cumsum ns) (Z.of_nat w) choose bonus_ids (Z.of_nat i))
    (λ _ buf', wrote buf (i * (w + 1)) (sampled (c <$> seq 0 (Z.to_nat n)) bonus) buf') buf.
Proof.
  intros Hi Hb Hbuf Hc. assert (0 <= n <= Z.of_nat w) as Hn by (apply Hns; by eapply list_elem_of_lookup_2).
  unfold sample_loop. apply wp_bind. eapply wp_lift_outcome; [by apply draft_range_spec|]. cbv beta iota.
  apply wp_bind. eapply wp_fold_each with (I := λ done _ rejected buf',
    rejected = rejects (c <$> seq 0 (length done)) ∧ wrote buf (i * (w + 1)) (kept (c <$> seq 0 (length done))) buf').
  - split; [done|apply wrote_nil].
  - intros done_ pos todo rejected buf' Hrange [-> Hw]. destruct (range_split _ _ _ _ Hrange) as [-> Hpos]. unfold len in *.
    set (k := length done_) in *. rewrite length_app. cbn [length]. rewrite Nat.add_1_r, seq_S, fmap_app. fold k. change (c <$> [(0 + k)%nat]) with [c k].
    set (l := c <$> seq 0 k) in *. assert (length l = k) as Hlk by (unfold l; by rewrite length_fmap, length_seq).
    destruct (c k) as [t r] eqn:Hck. rewrite rejects_snoc, kept_snoc. destruct (rejects l) eqn:Hr; [by apply wp_ret|].
    apply wp_bind. eapply wp_lift_outcome; [apply Hc; lia|]. rewrite Hck. cbv beta iota. apply wp_bind.
    replace (Z.of_nat i * (Z.of_nat w + 1) + Z.of_nat k) with (Z.of_nat (i * (w + 1) + length (kept l))) by (rewrite kept_length, Hlk by done; lia).
    apply wp_store; [rewrite (proj1 Hw), kept_length, Hlk by done; lia|]. apply wp_ret. split; [done|].
    apply wrote_snoc; [done|]. rewrite kept_length, Hlk by done. lia.
  - intros rejected buf' [-> Hw]. unfold range, range2 in Hw |- *. rewrite length_fmap, length_seq, Z.sub_0_r in Hw |- *.
    set (l := c <$> seq 0 (Z.to_nat n)) in *. assert (length l = Z.to_nat n) as Hlk by (unfold l; by rewrite length_fmap, length_seq).
    unfold sampled. destruct (rejects l) eqn:Hr; [by apply wp_ret|]. apply wp_bind. eapply wp_lift_outcome; [by apply load_lookup|].
    replace (Z.of_nat i * (Z.of_nat w + 1) + n) with (Z.of_nat (i * (w + 1) + length (kept l))) by (rewrite kept_length, Hlk by done; lia).
    apply wp_store; [rewrite (proj1 Hw), kept_length, Hlk by done; lia|].
    apply wrote_snoc; [done|]. rewrite kept_length, Hlk by done. lia.
Qed.
End sample_proofs.

(** * The whole batch *)
Section batch_proofs.
Implicit Types (buf : list Z).
Context (w : nat).

(** Every request writes the front of its own row, or nothing. *)
Definition rows_written (B : nat) (out : nat → option (list Z)) buf buf' : Prop :=
  length buf' = length buf ∧
  ∀ i k, (i < B)%nat → (k < w + 1)%nat → buf' !! (i * (w + 1) + k)%nat =
    match out i with Some vals => if decide (k < length vals)%nat then vals !! k else buf !! (i * (w + 1) + k)%nat
    | None => buf !! (i * (w + 1) + k)%nat end.

Lemma wp_each_row B (kernel : Z → M (list Z) unit) (out : nat → option (list Z)) buf :
  (∀ i vals, (i < B)%nat → out i = Some vals → (length vals <= w + 1)%nat) →
  (∀ i buf0, (i < B)%nat → length buf0 = length buf →
     wp (kernel (Z.of_nat i)) (λ _ buf', match out i with Some vals => wrote buf0 (i * (w + 1)) vals buf' | None => buf' = buf0 end) buf0) →
  wp (for_each (range (Z.of_nat B)) kernel) (λ _ buf', rows_written B out buf buf') buf.
Proof.
  intros Hlen Hk. unfold range, range2. rewrite Z.sub_0_r, Nat2Z.id.
  enough (∀ n, (n <= B)%nat → wp (for_each ((λ i, 0 + Z.of_nat i) <$> seq 0 n) kernel)
    (λ _ buf', rows_written n out buf buf' ∧ ∀ j, (n * (w + 1) <= j)%nat → buf' !! j = buf !! j) buf) as H.
  { eapply wp_mono; [by apply (H B)|]. by intros [] buf' [? _]. }
  induction n as [|n IH]; intros Hn; [apply wp_ret; split; [split; [done|lia]|done]|].
  rewrite seq_S, fmap_app. unfold wp. rewrite for_each_app. fold (wp (for_each ((λ i, 0 + Z.of_nat i) <$> seq 0 n) kernel ;; for_each ((λ i : nat, 0 + Z.of_nat i) <$> [(0 + n)%nat]) kernel)
    (λ _ buf', rows_written (S n) out buf buf' ∧ ∀ j, (S n * (w + 1) <= j)%nat → buf' !! j = buf !! j) buf).
  apply wp_bind. eapply wp_mono; [apply IH; lia|]. intros [] buf1 [[Hl1 H1] Hrest]. apply wp_bind.
  change (0 + Z.of_nat (0 + n)) with (Z.of_nat n). eapply wp_mono; [apply (Hk n buf1); [lia|done]|]. intros [] buf2 H2. apply wp_ret.
  destruct (out n) as [vals|] eqn:Hout.
  - destruct H2 as [Hl2 H2]. pose proof (Hlen n vals ltac:(lia) Hout) as Hv. split; [split; [lia|]|].
    + intros i k Hi Hkw. rewrite H2. destruct (decide (i = n)) as [->|Hne].
      * rewrite Hout. destruct (decide (k < length vals)%nat).
        -- rewrite decide_True by lia. f_equal. lia.
        -- rewrite decide_False by lia. apply Hrest. lia.
      * rewrite decide_False by nia. apply H1; lia.
    + intros j Hj. rewrite H2, decide_False by lia. apply Hrest. lia.
  - subst buf2. split; [split; [done|]|].
    + intros i k Hi Hkw. destruct (decide (i = n)) as [->|Hne]; [rewrite Hout; apply Hrest; lia|apply H1; lia].
    + intros j Hj. apply Hrest. lia.
Qed.

(** The row of a request, parsed. *)
Definition row_of_buffer buf (i : nat) : list Z := take (w + 1) (drop (i * (w + 1)) buf).

Lemma parse_row_written B out buf buf' vocab i vals :
  rows_written B out buf buf' → (i < B)%nat → length buf = (B * (w + 1))%nat → out i = Some vals → (length vals <= w + 1)%nat →
  (∀ k, (k < w + 1)%nat → buf !! (i * (w + 1) + k)%nat = Some PLACEHOLDER_TOKEN_ID) →
  parse_row vocab (row_of_buffer buf' i) = parse_row vocab vals.
Proof.
  intros [Hl Hw] Hi Hlen Hout Hv Hph.
  assert (row_of_buffer buf' i = vals ++ replicate (w + 1 - length vals) PLACEHOLDER_TOKEN_ID) as ->.
  { unfold row_of_buffer. apply list_eq. intros k. destruct (decide (k < w + 1)%nat) as [Hk|Hk].
    - rewrite lookup_take_lt, lookup_drop, Hw by done. rewrite Hout. case_decide.
      + by rewrite lookup_app_l.
      + rewrite lookup_app_r by lia. rewrite lookup_replicate_2 by lia. by apply Hph.
    - rewrite lookup_take_ge by lia. rewrite lookup_ge_None_2; [done|]. rewrite length_app, length_replicate. lia. }
  unfold parse_row. rewrite filter_app.
  assert (filter (λ t : Z, t ≠ PLACEHOLDER_TOKEN_ID ∧ t < vocab) (replicate (w + 1 - length vals) PLACEHOLDER_TOKEN_ID) = []) as ->; [|by rewrite app_nil_r].
  apply elem_of_nil_inv. intros x [[Hx _] [-> _]%elem_of_replicate]%list_elem_of_filter. done.
Qed.
End batch_proofs.

(** * [rejection_sample] *)
Section rejection_proofs.
Context (ns drafts : list Z) (w : nat) (draft_probs : option (list (list Q))) (target_probs q : list (list Q)) (uniform_probs : list Q).
Context (bonus_ids : list Z) (is_greedy : list bool) (vocab : nat).

(** Shapes: one count, bonus token and row of noise per request; one draft token, row of
    probabilities and uniform number per position. *)
Record inputs_ok : Prop := {
  io_counts : ∀ n, n ∈ ns → 0 <= n <= Z.of_nat w;
  io_bonus : length bonus_ids = length ns;
  io_greedy : length is_greedy = length ns;
  io_noise : length q = length ns;
  io_drafts : Z.of_nat (length drafts) = zsum ns;
  io_vocab : ∀ t, t ∈ drafts → 0 <= t < Z.of_nat vocab;
  io_targets : Z.of_nat (length target_probs) = zsum ns ∧ ∀ r, r ∈ target_probs → length r = vocab;
  io_draft_probs : ∀ probs, draft_probs = Some probs → Z.of_nat (length probs) = zsum ns ∧ ∀ r, r ∈ probs → length r = vocab;
  io_uniform : Z.of_nat (length uniform_probs) = zsum ns
}.
Context (Hok : inputs_ok).
Let B := length ns.

Lemma drafts_counted n : n ∈ ns → 0 <= n.
Proof. intros Hn. by apply (io_counts Hok) in Hn as []. Qed.
(** What is read at a position. *)
Definition at_pos {A} `{Inhabited A} (l : list A) (i pos : nat) : A := l !!! (Z.to_nat (start_of ns i) + pos)%nat.

Lemma load_at {A} `{Inhabited A} (l : list A) i n pos :
  ns !! i = Some n → (pos < Z.to_nat n)%nat → Z.of_nat (length l) = zsum ns →
  load l (start_of ns i + Z.of_nat pos) = Ok (at_pos l i pos) ∧ at_pos l i pos ∈ l.
Proof.
  intros Hi Hp Hl. pose proof (position_lt ns i n pos drafts_counted Hi Hp). pose proof (start_of_nonneg ns i drafts_counted).
  assert (l !! (Z.to_nat (start_of ns i) + pos)%nat = Some (at_pos l i pos)) as Hx by (apply list_lookup_lookup_total_lt; lia).
  split; [|by eapply list_elem_of_lookup_2]. replace (start_of ns i + Z.of_nat pos) with (Z.of_nat (Z.to_nat (start_of ns i) + pos)) by lia. by apply load_lookup.
Qed.

Lemma load_row {A} `{Inhabited A} (r : list A) t : length r = vocab → 0 <= t < Z.of_nat vocab → load r t = Ok (r !!! Z.to_nat t).
Proof.
  intros Hr Ht. replace t with (Z.of_nat (Z.to_nat t)) at 1 by lia. apply load_lookup. apply list_lookup_lookup_total_lt. lia.
Qed.

(** The greedy choice at a position, and the random one. *)
Definition greedy_choice (i pos : nat) : Z * bool :=
  let t := argmax (at_pos target_probs i pos) in (t, bool_decide (at_pos drafts i pos ≠ t)).
Definition recovered_of (i pos : nat) : Z :=
  let target := at_pos target_probs i pos in
  let prob := match draft_probs with
              | None => <[Z.to_nat (at_pos drafts i pos) := 0%Q]> target
              | Some probs => zip_with (λ t d, if Qle_bool t d then 0%Q else (t - d)%Q) target (at_pos probs i pos)
              end in
  argmax (zip_with Qdiv prob (q !!! i)).
Definition accepts (i pos : nat) : bool :=
  let d := Z.to_nat (at_pos drafts i pos) in
  let draft_prob := match draft_probs with None => 1%Q | Some probs => at_pos probs i pos !!! d end in
  negb (Qle_bool draft_prob 0) && Qle_bool (at_pos uniform_probs i pos) (at_pos target_probs i pos !!! d / draft_prob).
Definition random_choice (i pos : nat) : Z * bool :=
  if accepts i pos then (at_pos drafts i pos, false) else (recovered_of i pos, true).

Lemma recovered_token_spec i n pos :
  ns !! i = Some n → (pos < Z.to_nat n)%nat →
  recovered_token drafts draft_probs target_probs q (Z.of_nat i) (start_of ns i) (Z.of_nat pos) = Ok (recovered_of i pos).
Proof.
  intros Hi Hp. pose proof (io_targets Hok) as [Ht1 Ht2]. unfold recovered_token, recovered_of.
  destruct (load_at target_probs i n pos Hi Hp Ht1) as [-> Ht]. cbn [mbind outcome_bind].
  assert (load q (Z.of_nat i) = Ok (q !!! i)) as Hq.
  { apply load_lookup. apply list_lookup_lookup_total_lt. rewrite (io_noise Hok). by eapply lookup_lt_Some. }
  destruct draft_probs as [probs|] eqn:E.
  - destruct (io_draft_probs Hok probs E) as [Hl _]. destruct (load_at probs i n pos Hi Hp Hl) as [-> _]. cbn [mbind outcome_bind]. by rewrite Hq.
  - destruct (load_at drafts i n pos Hi Hp (io_drafts Hok)) as [-> Hd]. cbn [mbind outcome_bind].
    rewrite (load_row _ _ (Ht2 _ Ht) (io_vocab Hok _ Hd)). cbn [mbind outcome_bind]. by rewrite Hq.
Qed.

Lemma sample_recovered_spec uninit :
  Z.of_nat (length uninit) = zsum ns →
  ∃ R, sample_recovered_tokens (Z.of_nat w) (Z.of_nat B) (np_cumsum ns) drafts draft_probs target_probs q uninit = Ok R ∧
    Z.of_nat (length R) = zsum ns ∧ ∀ i n pos, ns !! i = Some n → (pos < Z.to_nat n)%nat → at_pos R i pos = recovered_of i pos.
Proof.
  intros Hlen. unfold sample_recovered_tokens. set (prog := for_each _ _).
  set (J := λ (i : nat) (pos : nat) (buf : list Z), length buf = length uninit ∧
    ∀ i' n' pos', ns !! i' = Some n' → (pos' < Z.to_nat n')%nat → (i' < i)%nat ∨ i' = i ∧ (pos' < pos)%nat →
      buf !! (Z.to_nat (start_of ns i') + pos')%nat = Some (recovered_of i' pos')).
  assert (wp prog (λ _ buf, J B 0%nat buf) uninit) as Hwp.
  { unfold prog. eapply wp_for_each with (I := λ done _ buf, J (length done) 0%nat buf).
    - split; [done|]. intros i' n' pos' _ _ [Hlt|[_ Hlt]]; cbn in Hlt; lia.
    - intros done_ z todo buf Hr HJ. destruct (range_split _ _ _ _ Hr) as [-> Hz]. unfold len in *. set (i := length done_) in *.
      destruct (lookup_lt_is_Some_2 ns i) as [n Hi]; [unfold B in Hz; lia|].
      assert (0 <= n <= Z.of_nat w) as Hn by (apply (io_counts Hok); by eapply list_elem_of_lookup_2).
      eapply wp_for_each with (I := λ done _ buf, J i (length done) buf); [done| |].
      + intros done2 z2 todo2 buf2 Hr2 HJ2. destruct (range_split _ _ _ _ Hr2) as [-> Hz2]. unfold len in *. set (pos := length done2) in *.
        unfold sample_recovered_tokens_kernel. apply wp_bind. eapply wp_lift_outcome; [by apply draft_range_spec|]. cbv beta iota.
        rewrite length_app. cbn [length]. fold pos. case_decide as Hge.
        * apply wp_ret. split; [apply HJ2|]. intros i' n' pos' Hi' Hp' [?|[-> ?]]; [apply (proj2 HJ2 i' n'); auto|].
          assert (n' = n) as -> by congruence. apply (proj2 HJ2 i n); [done|done|]. right. split; [done|]. lia.
        * apply wp_bind. eapply wp_lift_outcome; [apply (recovered_token_spec i n pos Hi); lia|].
          pose proof (position_lt ns i n pos drafts_counted Hi ltac:(lia)) as Hlt. pose proof (start_of_nonneg ns i drafts_counted) as Hs0.
          replace (start_of ns i + Z.of_nat pos) with (Z.of_nat (Z.to_nat (start_of ns i) + pos)) by lia.
          apply wp_store; [rewrite (proj1 HJ2); lia|]. split; [rewrite length_insert; apply HJ2|]. intros i' n' pos' Hi' Hp' Hbefore.
          destruct (decide (i' = i ∧ pos' = pos)) as [[-> ->]|Hne]; [rewrite list_lookup_insert_eq by (rewrite (proj1 HJ2); lia); done|].
          rewrite list_lookup_insert_ne; [apply (proj2 HJ2 i' n'); [done|done|]; lia|]. intros Heq. apply Hne.
          destruct (position_inj ns i n pos i' n' pos' drafts_counted Hi ltac:(lia) Hi' Hp' Heq). done.
      + intros buf2 [Hl2 H2]. rewrite length_app. cbn [length]. fold i. split; [done|]. intros i' n' pos' Hi' Hp' Hb.
        apply (H2 i' n'); [done|done|]. unfold range, range2. rewrite length_fmap, length_seq.
        destruct (decide (i' = i)) as [->|]; [right; split; [done|]; assert (n' = n) as -> by congruence; lia|left; lia].
    - intros buf HJ. unfold range, range2 in HJ. rewrite length_fmap, length_seq, Z.sub_0_r, Nat2Z.id in HJ. done. }
  unfold wp in Hwp. destruct (prog uninit) as [[[]|e] R]; [|done]. destruct Hwp as [Hl HR]. exists R. split_and!; [done|lia|].
  intros i n pos Hi Hp. unfold at_pos. apply list_lookup_total_correct. apply (HR i n); [done|done|]. left. by eapply lookup_lt_Some.
Qed.

(** The tokens of a request. *)
Definition sampled_tokens (greedy : bool) (i : nat) : list Z :=
  sampled ((if greedy then greedy_choice i else random_choice i) <$> seq 0 (Z.to_nat (ns !!! i))) (bonus_ids !!! i).

Lemma sampled_tokens_length greedy i : (i < B)%nat → (length (sampled_tokens greedy i) <= w + 1)%nat.
Proof.
  intros Hi. unfold sampled_tokens. destruct (lookup_lt_is_Some_2 ns i Hi) as [n Hn]. rewrite (list_lookup_total_correct _ _ _ Hn).
  pose proof (io_counts Hok n ltac:(by eapply list_elem_of_lookup_2)).
  destruct (sampled_length ((if greedy then greedy_choice i else random_choice i) <$> seq 0 (Z.to_nat n)) (bonus_ids !!! i)) as [_ H'].
  rewrite length_fmap, length_seq in H'. lia.
Qed.

Lemma choose_greedy_spec i n pos :
  ns !! i = Some n → (pos < Z.to_nat n)%nat →
  choose_greedy drafts (argmax <$> target_probs) (start_of ns i) (Z.of_nat pos) = Ok (greedy_choice i pos).
Proof.
  intros Hi Hp. unfold choose_greedy, greedy_choice. destruct (load_at drafts i n pos Hi Hp (io_drafts Hok)) as [-> _]. cbn [mbind outcome_bind].
  destruct (load_at (argmax <$> target_probs) i n pos Hi Hp) as [-> _]; [rewrite length_fmap; apply (io_targets Hok)|]. cbn [mbind outcome_bind].
  pose proof (position_lt ns i n pos drafts_counted Hi Hp). pose proof (proj1 (io_targets Hok)). unfold at_pos.
  rewrite (list_lookup_total_correct (argmax <$> target_probs) _ (argmax (target_probs !!! (Z.to_nat (start_of ns i) + pos)%nat))); [done|].
  rewrite list_lookup_fmap, (list_lookup_lookup_total_lt target_probs) by lia. done.
Qed.

Lemma choose_random_spec R i n pos :
  ns !! i = Some n → (pos < Z.to_nat n)%nat → Z.of_nat (length R) = zsum ns → at_pos R i pos = recovered_of i pos →
  choose_random drafts draft_probs target_probs R uniform_probs (start_of ns i) (Z.of_nat pos) = Ok (random_choice i pos).
Proof.
  intros Hi Hp HR HRi. unfold choose_random, random_choice, accepts. destruct (load_at drafts i n pos Hi Hp (io_drafts Hok)) as [-> Hd]. cbn [mbind outcome_bind].
  pose proof (io_vocab Hok _ Hd) as Hv. destruct (load_at target_probs i n pos Hi Hp (proj1 (io_targets Hok))) as [Ht Htin].
  destruct (load_at uniform_probs i n pos Hi Hp (io_uniform Hok)) as [Hu _]. destruct (load_at R i n pos Hi Hp HR) as [HRl _].
  assert (match draft_probs with Some probs => row ← load probs (start_of ns i + Z.of_nat pos); load row (at_pos drafts i pos) | None => Ok 1%Q end
    = Ok (match draft_probs with Some probs => at_pos probs i pos !!! Z.to_nat (at_pos drafts i pos) | None => 1%Q end)) as ->.
  { destruct draft_probs as [probs|] eqn:E; [|done]. destruct (io_draft_probs Hok probs E) as [Hl Hw].
    destruct (load_at probs i n pos Hi Hp Hl) as [-> Hin]. cbn [mbind outcome_bind]. apply load_row; [by apply Hw|done]. }
  cbn [mbind outcome_bind]. rewrite Ht. cbn [mbind outcome_bind]. rewrite (load_row _ _ (proj2 (io_targets Hok) _ Htin) Hv). cbn [mbind outcome_bind].
  rewrite Hu. cbn [mbind outcome_bind]. destruct (negb _ && _); [done|]. rewrite HRl. cbn [mbind outcome_bind]. by rewrite HRi.
Qed.

(** The greedy kernels on a buffer. *)
Lemma wp_greedy_kernels (og : option (list bool)) buf :
  og = None ∨ og = Some is_greedy → length buf = (B * (w + 1))%nat →
  wp (for_each (range (Z.of_nat B)) (rejection_greedy_sample_kernel (np_cumsum ns) drafts (Z.of_nat w) (argmax <$> target_probs) bonus_ids og))
    (λ _ buf', rows_written w B (λ i, if default true (match og with Some l => Some (l !!! i) | None => None end) then Some (sampled_tokens true i) else None) buf buf') buf.
Proof.
  intros Hog Hbuf. apply wp_each_row.
  - intros i vals Hi Hv. destruct (default true _); [|done]. injection Hv as <-. by apply sampled_tokens_length.
  - intros i buf0 Hi Hl. destruct (lookup_lt_is_Some_2 ns i Hi) as [n Hn]. unfold rejection_greedy_sample_kernel.
    apply wp_bind. assert (wp (match og with Some l => lift_outcome (load l (Z.of_nat i)) | None => mret true end)
      (λ g' s, s = buf0 ∧ g' = default true (match og with Some l => Some (l !!! i) | None => None end)) buf0) as Hg.
    { destruct Hog as [->| ->]; [by apply wp_ret|]. eapply wp_lift_outcome; [|split; [done|reflexivity]].
      apply load_lookup, list_lookup_lookup_total_lt. by rewrite (io_greedy Hok). }
    eapply wp_mono; [exact Hg|]. intros g s [-> ->]. cbv beta. destruct (default true _); [|by apply wp_ret].
    assert (bonus_ids !! i = Some (bonus_ids !!! i)) as Hb by (apply list_lookup_lookup_total_lt; by rewrite (io_bonus Hok)).
    unfold sampled_tokens. rewrite (list_lookup_total_correct _ _ _ Hn).
    apply (wp_sample_loop ns w (io_counts Hok) _ (greedy_choice i) bonus_ids i n); [done|done|rewrite Hl, Hbuf; nia|].
    intros pos Hp. by eapply choose_greedy_spec.
Qed.

Lemma wp_random_kernels R buf :
  Z.of_nat (length R) = zsum ns → (∀ i n pos, ns !! i = Some n → (pos < Z.to_nat n)%nat → at_pos R i pos = recovered_of i pos) →
  length buf = (B * (w + 1))%nat →
  wp (for_each (range (Z.of_nat B)) (rejection_random_sample_kernel (np_cumsum ns) drafts (Z.of_nat w) draft_probs target_probs bonus_ids R uniform_probs is_greedy))
    (λ _ buf', rows_written w B (λ i, if is_greedy !!! i : bool then None else Some (sampled_tokens false i)) buf buf') buf.
Proof.
  intros HRl HR Hbuf. apply wp_each_row.
  - intros i vals Hi Hv. destruct (is_greedy !!! i); [done|]. injection Hv as <-. by apply sampled_tokens_length.
  - intros i buf0 Hi Hl. destruct (lookup_lt_is_Some_2 ns i Hi) as [n Hn]. unfold rejection_random_sample_kernel.
    apply wp_bind. eapply wp_lift_outcome; [apply load_lookup, list_lookup_lookup_total_lt; by rewrite (io_greedy Hok)|].
    cbv beta. destruct (is_greedy !!! i); [by apply wp_ret|].
    assert (bonus_ids !! i = Some (bonus_ids !!! i)) as Hb by (apply list_lookup_lookup_total_lt; by rewrite (io_bonus Hok)).
    unfold sampled_tokens. rewrite (list_lookup_total_correct _ _ _ Hn).
    apply (wp_sample_loop ns w (io_counts Hok) _ (random_choice i) bonus_ids i n); [done|done|rewrite Hl, Hbuf; nia|].
    intros pos Hp. eapply choose_random_spec; eauto.
Qed.

(** [all_greedy] and [all_random] say that the other kind of request is missing. *)
Definition kind_ok (kind : SamplingKind) : Prop :=
  sk_is_greedy kind = is_greedy ∧ sk_all_greedy kind && sk_all_random kind = false ∧
  (sk_all_greedy kind = true → ∀ i, (i < B)%nat → is_greedy !!! i = true) ∧
  (sk_all_random kind = true → ∀ i, (i < B)%nat → is_greedy !!! i = false).

Lemma replicate_rows i k : (i < B)%nat → (k < w + 1)%nat →
  replicate (B * (w + 1)) PLACEHOLDER_TOKEN_ID !! (i * (w + 1) + k)%nat = Some PLACEHOLDER_TOKEN_ID.
Proof. intros Hi Hk. apply lookup_replicate_2. nia. Qed.

Lemma rejection_sample_spec kind uninit :
  kind_ok kind → Z.of_nat (length uninit) = zsum ns →
  ∃ out, rejection_sample drafts (Z.of_nat B) (Z.of_nat w) (np_cumsum ns) draft_probs target_probs bonus_ids kind uniform_probs q uninit = Ok out ∧
    ∀ i, (i < B)%nat → parse_row (Z.of_nat vocab) (row_of_buffer w out i) = parse_row (Z.of_nat vocab) (sampled_tokens (is_greedy !!! i) i).
Proof.
  intros (Hkg & Hkb & Hag & Har) Hun. unfold rejection_sample. cbv zeta. rewrite Hkg.
  replace (Z.to_nat (Z.of_nat B * (Z.of_nat w + 1))) with (B * (w + 1))%nat by lia. set (buf0 := replicate (B * (w + 1)) PLACEHOLDER_TOKEN_ID).
  assert (length buf0 = (B * (w + 1))%nat) as Hl0 by apply length_replicate.
  set (og := if sk_all_greedy kind then None else Some is_greedy).
  assert (og = None ∨ og = Some is_greedy) as Hog by (unfold og; destruct (sk_all_greedy kind); auto).
  set (flag := λ i, default true (match og with Some l => Some (l !!! i) | None => None end)).
  assert (∀ i, (i < B)%nat → flag i = is_greedy !!! i) as Hflag.
  { intros i Hi. unfold flag, og. destruct (sk_all_greedy kind); [cbn; by rewrite Hag|done]. }
  destruct (sk_all_random kind) eqn:Er.
  - assert (sk_all_greedy kind = false) as Eg by by destruct (sk_all_greedy kind). cbn [mbind outcome_bind]. unfold og. rewrite Eg. cbn [andb].
    destruct (sample_recovered_spec uninit Hun) as (R & HR & HRl & HRi). rewrite HR. cbn [mbind outcome_bind default].
    pose proof (wp_random_kernels R buf0 HRl HRi Hl0) as Hwp. unfold wp in Hwp.
    destruct (for_each _ _ buf0) as [[[]|e] out]; [|done]. exists out. split; [done|]. intros i Hi.
    rewrite (Har eq_refl i Hi). eapply parse_row_written; [exact Hwp|done|done| | |].
    + cbv beta. by rewrite (Har eq_refl i Hi).
    + by apply sampled_tokens_length.
    + intros k Hk. by apply replicate_rows.
  - pose proof (wp_greedy_kernels og buf0 Hog Hl0) as Hwp. unfold wp in Hwp. fold flag in Hwp.
    destruct (for_each _ _ buf0) as [[[]|e] buf1]; [|done]. cbn [mbind outcome_bind]. destruct (sk_all_greedy kind) eqn:Eg; cbn [andb negb].
    + exists buf1. split; [done|]. intros i Hi. rewrite (Hag eq_refl i Hi). eapply parse_row_written; [exact Hwp|done|done| | |].
      * cbv beta. fold (flag i). by rewrite (Hflag i Hi), (Hag eq_refl i Hi).
      * by apply sampled_tokens_length.
      * intros k Hk. by apply replicate_rows.
    + destruct (sample_recovered_spec uninit Hun) as (R & HR & HRl & HRi). rewrite HR. cbn [mbind outcome_bind default].
      pose proof (proj1 Hwp) as Hl1. rewrite Hl0 in Hl1. pose proof (wp_random_kernels R buf1 HRl HRi Hl1) as Hwp2. unfold wp in Hwp2.
      destruct (for_each _ _ buf1) as [[[]|e] out]; [|done]. exists out. split; [done|]. intros i Hi.
      destruct (is_greedy !!! i) eqn:Egi.
      * assert (row_of_buffer w out i = row_of_buffer w buf1 i) as ->.
        { unfold row_of_buffer. apply list_eq. intros k. rewrite !lookup_take. case_decide; [|done]. rewrite !lookup_drop.
          rewrite (proj2 Hwp2) by done. by rewrite Egi. }
        eapply parse_row_written; [exact Hwp|done|done| | |].
        -- cbv beta. fold (flag i). by rewrite (Hflag i Hi), Egi.
        -- by apply sampled_tokens_length.
        -- intros k Hk. by apply replicate_rows.
      * eapply parse_row_written; [exact Hwp2|done|done| | |].
        -- cbv beta. by rewrite Egi.
        -- by apply sampled_tokens_length.
        -- intros k Hk. rewrite (proj2 Hwp) by done. fold (flag i). rewrite (Hflag i Hi), Egi. by apply replicate_rows.
Qed.
End rejection_proofs.

(** * Speculative decoding is greedy decoding

    [next] is the token the target model chooses greedily after some tokens. *)
Section lossless.
Context (next : list Z → Z).

Fixpoint greedy_run (context : list Z) (n : nat) : list Z :=
  match n with O => [] | S n => let t := next context in t :: greedy_run (context ++ [t]) n end.

(** If the choices of the target model are made after the draft tokens before them, and
    the bonus token after all draft tokens, what is kept is what the model would have
    generated by itself. *)
Lemma sampled_greedy (drafts : list Z) context :
  let choices := imap (λ pos d, let t := next (context ++ take pos drafts) in (t, bool_decide (d ≠ t))) drafts in
  let out := sampled choices (next (context ++ drafts)) in out = greedy_run context (length out).
Proof.
  cbv zeta. revert context. induction drafts as [|d drafts IH]; intros context.
  { cbn. by rewrite app_nil_r. }
  cbn [imap]. rewrite take_0, app_nil_r. set (t := next context). unfold sampled, rejects. cbn [existsb kept snd].
  case_bool_decide as Hd; [done|]. subst d. cbn [orb].
  specialize (IH (context ++ [t])).
  assert (imap ((λ (pos : nat) (d : Z), (next (context ++ take pos (t :: drafts)), bool_decide (d ≠ next (context ++ take pos (t :: drafts))))) ∘ S) drafts
    = imap (λ (pos : nat) (d : Z), (next ((context ++ [t]) ++ take pos drafts), bool_decide (d ≠ next ((context ++ [t]) ++ take pos drafts)))) drafts) as ->.
  { apply imap_ext. intros pos d _. cbn. by rewrite <- app_assoc. }
  unfold sampled, rejects in IH. rewrite <- app_assoc in IH. cbn [app] in IH. destruct (existsb snd _); cbn [length greedy_run app]; fold t; f_equal; exact IH.
Qed.
End lossless.

(** The draft tokens of a request. *)
Definition drafts_at (ns drafts : list Z) (i : nat) : list Z := take (Z.to_nat (ns !!! i)) (drop (Z.to_nat (start_of ns i)) drafts).

(** The target model's choices at the positions of a request's drafts: [next] of what
    comes before, the drafts so far included. *)
Definition target_follows (next : list Z → Z) (ns drafts bonus_ids : list Z) (target_probs : list (list Q)) (i : nat) (context : list Z) : Prop :=
  (∀ pos, (pos < Z.to_nat (ns !!! i))%nat → argmax (at_pos ns target_probs i pos) = next (context ++ take pos (drafts_at ns drafts i))) ∧
  bonus_ids !!! i = next (context ++ drafts_at ns drafts i).

Lemma greedy_row next ns drafts w draft_probs target_probs q uniform_probs bonus_ids is_greedy vocab i context :
  inputs_ok ns drafts w draft_probs target_probs q uniform_probs bonus_ids is_greedy vocab → (i < length ns)%nat →
  target_follows next ns drafts bonus_ids target_probs i context →
  let out := sampled_tokens ns drafts draft_probs target_probs q uniform_probs bonus_ids true i in
  out = greedy_run next context (length out).
Proof.
  intros Hok Hi [Ht Hb]. cbv zeta. pose proof (drafts_counted _ _ _ _ _ _ _ _ _ _ Hok) as Hns. destruct (lookup_lt_is_Some_2 ns i Hi) as [n Hn].
  pose proof (list_lookup_total_correct _ _ _ Hn) as Hn'.
  assert (length (drafts_at ns drafts i) = Z.to_nat n) as Hl.
  { unfold drafts_at. rewrite Hn', length_take, length_drop. pose proof (start_of_S _ _ _ Hn) as HS. pose proof (start_of_nonneg ns i Hns).
    pose proof (start_of_mono ns (S i) (length ns) Hns Hi) as Hm. rewrite start_of_all in Hm. pose proof (io_drafts _ _ _ _ _ _ _ _ _ _ Hok). lia. }
  pose proof (sampled_greedy next (drafts_at ns drafts i) context) as H. cbv zeta in H.
  assert (sampled_tokens ns drafts draft_probs target_probs q uniform_probs bonus_ids true i
    = sampled (imap (λ pos d, (next (context ++ take pos (drafts_at ns drafts i)), bool_decide (d ≠ next (context ++ take pos (drafts_at ns drafts i))))) (drafts_at ns drafts i))
        (next (context ++ drafts_at ns drafts i))) as ->; [|exact H].
  unfold sampled_tokens. rewrite Hn', Hb. f_equal. apply list_eq. intros pos. rewrite list_lookup_fmap, list_lookup_imap.
  destruct (decide (pos < Z.to_nat n)%nat) as [Hp|Hp].
  - rewrite lookup_seq_lt by done. destruct (lookup_lt_is_Some_2 (drafts_at ns drafts i) pos) as [d Hd]; [lia|]. rewrite Hd. cbn. f_equal.
    unfold greedy_choice. rewrite Ht by by rewrite Hn'. f_equal. apply bool_decide_ext.
    assert (at_pos ns drafts i pos = d) as ->; [|done]. unfold at_pos. apply list_lookup_total_correct. unfold drafts_at in Hd. apply lookup_take_Some in Hd as [Hd _]. by rewrite lookup_drop in Hd.
  - rewrite lookup_seq_ge by lia. by rewrite lookup_ge_None_2 by lia.
Qed.

(** Greedy speculative decoding gives the tokens of greedy decoding. *)
Lemma rejection_sample_greedy next ns drafts w draft_probs target_probs q uniform_probs bonus_ids is_greedy vocab kind uninit :
  inputs_ok ns drafts w draft_probs target_probs q uniform_probs bonus_ids is_greedy vocab → kind_ok ns is_greedy kind → Z.of_nat (length uninit) = zsum ns →
  (∀ context, 0 <= next context < Z.of_nat vocab) →
  ∃ out, rejection_sample drafts (Z.of_nat (length ns)) (Z.of_nat w) (np_cumsum ns) draft_probs target_probs bonus_ids kind uniform_probs q uninit = Ok out ∧
    ∀ i context, (i < length ns)%nat → is_greedy !!! i = true → target_follows next ns drafts bonus_ids target_probs i context →
      ∃ k, (0 < k)%nat ∧ Z.of_nat k <= ns !!! i + 1 ∧ parse_row (Z.of_nat vocab) (row_of_buffer w out i) = greedy_run next context k.
Proof.
  intros Hok Hk Hun Hnext. destruct (rejection_sample_spec _ _ _ _ _ _ _ _ _ _ Hok kind uninit Hk Hun) as (out & Hout & Hrows). exists out. split; [done|].
  intros i context Hi Hg Ht. pose proof (greedy_row _ _ _ _ _ _ _ _ _ _ _ i context Hok Hi Ht) as Hrow. cbv zeta in Hrow.
  set (toks := sampled_tokens _ _ _ _ _ _ _ _ _) in *. exists (length toks).
  destruct (lookup_lt_is_Some_2 ns i Hi) as [n Hn]. pose proof (io_counts _ _ _ _ _ _ _ _ _ _ Hok n ltac:(by eapply list_elem_of_lookup_2)) as Hn0.
  assert (0 < length toks <= Z.to_nat n + 1)%nat as Hl.
  { unfold toks, sampled_tokens. rewrite (list_lookup_total_correct _ _ _ Hn). pose proof (sampled_length (greedy_choice ns drafts target_probs i <$> seq 0 (Z.to_nat n)) (bonus_ids !!! i)) as H.
    by rewrite length_fmap, length_seq in H. }
  rewrite (list_lookup_total_correct _ _ _ Hn). split_and!; [lia|lia|].
  rewrite Hrows, Hg by done. fold toks. rewrite Hrow at 1. unfold parse_row. generalize (length toks) as k. clear -Hnext. intros k. revert context.
  induction k as [|k IH]; intros context; [done|]. cbn [greedy_run]. pose proof (Hnext context). rewrite filter_cons_True by (unfold PLACEHOLDER_TOKEN_ID; lia). f_equal. apply IH.
Qed.
