(* ===== verification/ModelRunner.v ===== *)
(** The model runner of [v1/worker/gpu_model_runner.py] around the forward pass: it keeps
    the requests it knows and the persistent batch in step with the scheduler's output,
    lays the inputs of a step out, and caches the tokens that are sampled. *)
From Stdlib Require Import ZArith QArith Lia.
From stdpp Require Import base strings countable gmap sets list.
From S2P Require Import Prelude Request KVCacheSpec SchedulerData Arrays NgramProposer BlockTable BatchUpdate AttentionMetadata InputBatch.
Local Open Scope Z_scope.

(** * Layout of the tokens of a step *)

(** [_get_cumsum_and_arange]; [arange_np] is [np.arange] of a length that bounds the
    tokens of a step. *)
Definition _get_cumsum_and_arange (arange_np num_tokens : list Z) : outcome (list Z * list Z) :=
  let cu_num_tokens := np_cumsum num_tokens in
  total_num_tokens ← py_index cu_num_tokens (-1);
  let cumsums_offsets := np_repeat (np_sub cu_num_tokens num_tokens) num_tokens in
  let upto := slice_to total_num_tokens arange_np in
  if decide (length upto = length cumsums_offsets) then Ok (cu_num_tokens, np_sub upto cumsums_offsets) else Raise ValueError.

Record SpecDecodeMetadata : Type := mkSpecDecodeMetadata {
  sd_draft_token_ids : list Z;
  sd_num_draft_tokens : list Z;
  sd_cu_num_draft_tokens : list Z;
  sd_target_logits_indices : list Z;
  sd_bonus_logits_indices : list Z;
  sd_logits_indices : list Z
}.

(** [_calc_spec_decode_metadata]; [input_ids] are the tokens of the step. *)
Definition _calc_spec_decode_metadata (arange_np input_ids num_draft_tokens cu_num_scheduled_tokens : list Z) : outcome SpecDecodeMetadata :=
  let num_sampled_tokens := (λ n, n + 1) <$> num_draft_tokens in
  '(cu_num_sampled_tokens, arange) ← _get_cumsum_and_arange arange_np num_sampled_tokens;
  let logits_indices := np_add (np_repeat (np_sub cu_num_scheduled_tokens num_sampled_tokens) num_sampled_tokens) arange in
  let bonus_logits_indices := (λ n, n - 1) <$> cu_num_sampled_tokens in
  '(cu_num_draft_tokens, arange) ← _get_cumsum_and_arange arange_np num_draft_tokens;
  let target_logits_indices := np_add (np_repeat (np_sub cu_num_sampled_tokens num_sampled_tokens) num_draft_tokens) arange in
  draft_token_ids ← np_take input_ids logits_indices;
  draft_token_ids ← np_take draft_token_ids ((λ n, n + 1) <$> target_logits_indices);
  Ok (mkSpecDecodeMetadata draft_token_ids num_draft_tokens cu_num_draft_tokens target_logits_indices bonus_logits_indices logits_indices).

Example spec_metadata_of_the_comment :
  match _calc_spec_decode_metadata (range 300) (range 209) [3; 0; 2; 0; 1] [4; 104; 107; 207; 209] with
  | Ok m => sd_cu_num_draft_tokens m = [3; 3; 5; 5; 6] ∧ sd_logits_indices m = [0; 1; 2; 3; 103; 104; 105; 106; 206; 207; 208] ∧
            sd_target_logits_indices m = [0; 1; 2; 5; 6; 9] ∧ sd_bonus_logits_indices m = [3; 4; 7; 8; 10] ∧
            sd_draft_token_ids m = [1; 2; 3; 105; 106; 208]
  | Raise _ => False
  end.
Proof. vm_compute. done. Qed.

(** * The state of the runner *)

(** The logits processors of the batch, and the output lists that they and the batch share
    with the cached requests. *)
Record LogitsProcs : Type := mkLogitsProcs {
  lp_min_tokens : MinTokensLogitsProcessor;
  lp_logit_bias : LogitBiasLogitsProcessor;
  lp_min_p : MinPLogitsProcessor
}.
(** The persistent buffers of a step, on the host and on the device. *)
Record StepBuffers : Type := mkStepBuffers {
  positions_np : list Z;
  input_ids_cpu : list Z;
  query_start_loc_np : list Z;
  seq_lens_np : list Z;
  positions : list Z;
  input_ids : list Z;
  query_start_loc_dev : list Z;
  seq_lens_dev : list Z
}.
(** A row of an encoder's output; [None] is the NaN row of a position without one. *)
Definition Embedding : Type := option handle.

Record RunnerState : Type := mkRunnerState {
  requests : gmap string CachedRequestState;
  input_batch : InputBatch;
  encoder_cache : gmap string (gmap Z (list Embedding));
  output_lists : gmap list_ref (list Z);
  logitsprocs : LogitsProcs;
  buffers : StepBuffers;
  (** The state of the generators. *)
  generator_offsets : gmap handle Z
}.
Definition set_requests v s := mkRunnerState v (input_batch s) (encoder_cache s) (output_lists s) (logitsprocs s) (buffers s) (generator_offsets s).
Definition set_input_batch v s := mkRunnerState (requests s) v (encoder_cache s) (output_lists s) (logitsprocs s) (buffers s) (generator_offsets s).
Definition set_encoder_cache v s := mkRunnerState (requests s) (input_batch s) v (output_lists s) (logitsprocs s) (buffers s) (generator_offsets s).
Definition set_output_lists v s := mkRunnerState (requests s) (input_batch s) (encoder_cache s) v (logitsprocs s) (buffers s) (generator_offsets s).
Definition set_logitsprocs v s := mkRunnerState (requests s) (input_batch s) (encoder_cache s) (output_lists s) v (buffers s) (generator_offsets s).
Definition set_buffers v s := mkRunnerState (requests s) (input_batch s) (encoder_cache s) (output_lists s) (logitsprocs s) v (generator_offsets s).
Definition set_generator_offsets v s := mkRunnerState (requests s) (input_batch s) (encoder_cache s) (output_lists s) (logitsprocs s) (buffers s) v.

Record RunnerConfig : Type := mkRunnerConfig {
  rc_max_model_len : Z;
  rc_max_num_tokens : Z;
  rc_is_last_rank : bool;
  rc_kv_cache_groups : list KVCacheGroupSpec;
  (** The threshold of [reorder_batch_to_split_decodes_and_prefills] for the groups whose
      backends reorder the batch. *)
  rc_decode_threshold : nat → option Z;
  (** The drafter, when the drafts are n-grams of the request. *)
  rc_drafter : option NgramProposer;
  (** [cache_config.block_size]. *)
  rc_block_size : Z;
  rc_cascade_attn_enabled : bool;
  rc_has_speculative_config : bool;
  (** With a chunk size and without the hybrid KV-cache manager: the chunk size and the
      layers that attend locally. *)
  rc_local_attention : option (Z * list string)
}.

(** [__init__], with the input batch that [may_reinitialize_input_batch] leaves: one table
    for every KV-cache group. *)
Definition LogitsProcs_init (max_num_reqs : nat) : LogitsProcs :=
  mkLogitsProcs (mkMinTokens ∅ []) (mkLogitBias ∅ []) (mkMinP 0 (replicate max_num_reqs 0%Q) []).
Definition GPUModelRunner_init (c : BatchConfig) (max_num_tokens : nat) (block_sizes : list Z) : RunnerState :=
  let n := max_num_reqs c in
  mkRunnerState ∅ (InputBatch_init c max_num_tokens block_sizes) ∅ ∅ (LogitsProcs_init n)
    (mkStepBuffers (replicate max_num_tokens 0) (replicate max_num_tokens 0) (replicate (S n) 0) (replicate n 0)
       (replicate max_num_tokens 0) (replicate max_num_tokens 0) (replicate (S n) 0) (replicate n 0)) ∅.

Definition set_cached_computed (n : Z) (r : CachedRequestState) : CachedRequestState :=
  mkCachedRequestState (req_id r) (prompt_token_ids r) (params_of r) (generator r) (block_ids r) n (output_token_ids r)
    (output_ref r) (lora_request r) (cached_mm_inputs r) (cached_mm_positions r).
Definition set_cached_blocks (l : list (list Z)) (r : CachedRequestState) : CachedRequestState :=
  mkCachedRequestState (req_id r) (prompt_token_ids r) (params_of r) (generator r) l (num_computed_tokens r) (output_token_ids r)
    (output_ref r) (lora_request r) (cached_mm_inputs r) (cached_mm_positions r).
Definition set_cached_output (l : list Z) (r : CachedRequestState) : CachedRequestState :=
  mkCachedRequestState (req_id r) (prompt_token_ids r) (params_of r) (generator r) (block_ids r) (num_computed_tokens r) l
    (output_ref r) (lora_request r) (cached_mm_inputs r) (cached_mm_positions r).

Section runner.
Context (to_float32 : Q → Q) (cfg : RunnerConfig).
(** What the worker reads of a request's parameters, and the generator it makes for one that
    has a seed. *)
Context (worker_params : RequestParams → BatchParams) (new_generator : RequestParams → option handle).
Implicit Types (s : RunnerState) (o : SchedulerOutput).

Definition on_batch {A} (m : M InputBatch A) : M RunnerState A := zoom input_batch set_input_batch m.

(** [d[k]]. *)
Definition dict_get {K V} `{Countable K} (d : gmap K V) (k : K) : outcome V :=
  match d !! k with Some v => Ok v | None => Raise KeyError end.
Definition get_request (id : string) : M RunnerState CachedRequestState :=
  s ← get; lift_outcome (dict_get (requests s) id).
Definition update_request (id : string) (f : CachedRequestState → CachedRequestState) : M RunnerState unit :=
  r ← get_request id; modify (λ s, set_requests (<[id := f r]> (requests s)) s).

(** [req_state.output_token_ids.extend(toks)]: the list is shared. *)
Definition extend_output (id : string) (toks : list Z) : M RunnerState unit :=
  r ← get_request id;
  let l := output_token_ids r ++ toks in
  modify (λ s, set_requests (<[id := set_cached_output l r]> (requests s)) s) ;;
  modify (λ s, set_output_lists (<[output_ref r := l]> (output_lists s)) s).

(** * [_update_states] *)
Definition free_encoder_outputs (e : string * Z) : M RunnerState unit :=
  let '(id, input_id) := e in
  modify (λ s, match encoder_cache s !! id with
               | None => s
               | Some outputs =>
                 let outputs := delete input_id outputs in
                 if decide (outputs = ∅) then set_encoder_cache (delete id (encoder_cache s)) s
                 else set_encoder_cache (<[id := outputs]> (encoder_cache s)) s
               end).

(** The cached state of a new request; its output list is a new object. *)
Definition new_request_state (new : NewRequestData) (ref : list_ref) : CachedRequestState :=
  let p := new_params new in
  mkCachedRequestState (new_req_id new) (Request.prompt_token_ids p) (worker_params p) (new_generator p) (new_block_ids_of new)
    (new_num_computed_tokens new) [] ref (Request.lora_request p) (Request.mm_inputs p) (Request.mm_positions p).
Definition add_new_request (new : NewRequestData) : M RunnerState unit :=
  match worker_params (new_params new) with
  | Pooling p => assert_ (bool_decide (is_Some (task p)))
  | _ => mret tt
  end ;;
  s ← get;
  let ref := fresh (dom (output_lists s)) in
  modify (λ s, set_output_lists (<[ref := []]> (output_lists s)) s) ;;
  modify (λ s, set_requests (<[new_req_id new := new_request_state new ref]> (requests s)) s).

(** One entry of [scheduled_cached_reqs]: what the loop reads at its index. *)
Record CachedEntry : Type := mkCachedEntry {
  ce_id : string;
  ce_num_computed_tokens : Z;
  ce_new_block_ids : list (list Z);
  ce_resumed : bool;
  ce_new_token_ids : list Z
}.
Definition cached_entry (d : CachedRequestData) (i : nat) (id : string) : outcome CachedEntry :=
  computed ← array_get (cached_num_computed_tokens d) i;
  blocks ← array_get (new_block_ids d) i;
  resumed ← array_get (resumed_from_preemption d) i;
  toks ← (if rc_is_last_rank cfg then Ok [] else array_get (new_token_ids d) i);
  Ok (mkCachedEntry id computed blocks resumed toks).

(** [for a, b in zip(block_ids, new_ids): a.extend(b)]. *)
Fixpoint extend_blocks (block_ids new_ids : list (list Z)) : list (list Z) :=
  match block_ids, new_ids with
  | a :: block_ids, b :: new_ids => (a ++ b) :: extend_blocks block_ids new_ids
  | _, _ => block_ids
  end.

(** The tokens that an earlier stage of a pipeline is sent back. *)
Definition update_cached_output (e : CachedEntry) : M RunnerState unit :=
  if rc_is_last_rank cfg then mret tt
  else
    r ← get_request (ce_id e);
    let num_new_tokens := ce_num_computed_tokens e + len (ce_new_token_ids e) - cached_num_tokens r in
    if decide (num_new_tokens = 1) then
      t ← lift_outcome (py_index (ce_new_token_ids e) (-1)); extend_output (ce_id e) [t]
    else if decide (num_new_tokens > 0) then extend_output (ce_id e) (slice_from (- num_new_tokens) (ce_new_token_ids e))
    else mret tt.

(** The row of a request that stays in the batch. *)
Definition write_row_tokens (start : Z) (toks : list Z) (r : Row) : outcome (list Z) :=
  assign_slice (row_token_ids r) (Z.to_nat start) toks.
Definition row_with_new_tokens (e : CachedEntry) (r : Row) : outcome Row :=
  let end_token_index := ce_num_computed_tokens e + len (ce_new_token_ids e) in
  toks ← write_row_tokens (ce_num_computed_tokens e) (ce_new_token_ids e) r;
  Ok (set_row_counts end_token_index end_token_index (row_num_prompt_tokens r) (row_num_computed_tokens r) (set_row_tokens toks r)).
Definition row_with_spec_tokens (spec_token_ids : list Z) (r : Row) : outcome Row :=
  toks ← write_row_tokens (row_num_tokens_no_spec r) spec_token_ids r;
  Ok (set_row_counts (row_num_tokens r + len spec_token_ids) (row_num_tokens_no_spec r) (row_num_prompt_tokens r)
        (row_num_computed_tokens r) (set_row_tokens toks r)).
Definition set_row_computed (n : Z) (r : Row) : Row :=
  set_row_counts (row_num_tokens r) (row_num_tokens_no_spec r) (row_num_prompt_tokens r) n r.

Definition update_batch_row (o : SchedulerOutput) (e : CachedEntry) (req_index : nat) : M InputBatch unit :=
  update_row req_index (λ r, Ok (set_row_computed (ce_num_computed_tokens e) r)) ;;
  on_blocks (multi_append_row (ce_new_block_ids e) req_index) ;;
  (if rc_is_last_rank cfg then mret tt else update_row req_index (row_with_new_tokens e)) ;;
  match default [] (scheduled_spec_decode_tokens o !! ce_id e) with
  | [] => mret tt
  | spec_token_ids => update_row req_index (row_with_spec_tokens spec_token_ids)
  end.

(** The loop's body; the result tells whether the request has to be added to the batch. *)
Definition update_cached_request (o : SchedulerOutput) (e : CachedEntry) : M RunnerState bool :=
  update_request (ce_id e) (set_cached_computed (ce_num_computed_tokens e)) ;;
  update_cached_output e ;;
  update_request (ce_id e) (λ r,
    set_cached_blocks (if ce_resumed e then ce_new_block_ids e else extend_blocks (block_ids r) (ce_new_block_ids e)) r) ;;
  s ← get;
  match req_id_to_index (input_batch s) !! ce_id e with
  | None => mret true
  | Some req_index => on_batch (update_batch_row o e req_index) ;; mret false
  end.

(** [reorder_batch_to_split_decodes_and_prefills]: decodes at the back of the batch change
    places with prefills at its front. *)
Fixpoint swap_pairs (num_decodes : nat) (pairs : list (nat * nat)) : M InputBatch bool :=
  match pairs with
  | [] => mret false
  | (decode_idx, prefill_idx) :: pairs =>
    if decide (decode_idx < num_decodes)%nat then mret false
    else swap_states prefill_idx decode_idx ;; swap_pairs num_decodes pairs ;; mret true
  end.
Definition scheduled_count (o : SchedulerOutput) (id : string) : outcome Z :=
  match list_find (λ p, p.1 = id) (num_scheduled_tokens o) with Some (_, (_, n)) => Ok n | None => Raise KeyError end.
(** [req_ids]; a row without a request has no entry in the dictionaries they index. *)
Definition req_id_list (b : InputBatch) : outcome (list string) :=
  mapM (λ e, match e with Some id => Ok id | None => Raise KeyError end) (_req_ids (slots b)).
Definition reorder_batch_to_split_decodes_and_prefills (o : SchedulerOutput) (decode_threshold : Z) : M InputBatch bool :=
  b ← get;
  ids ← lift_outcome (req_id_list b);
  counts ← lift_outcome (mapM (scheduled_count o) ids);
  let indexed := zip (seq 0 (length counts)) counts in
  let decodes := (filter (λ p, p.2 <= decode_threshold) indexed).*1 in
  let prefills := (filter (λ p, ¬ p.2 <= decode_threshold) indexed).*1 in
  swap_pairs (length decodes) (zip (reverse decodes) prefills).

(** [reorder_batch] of the builder of group [g]. *)
Definition reorder_batch (o : SchedulerOutput) (g : nat) : M InputBatch bool :=
  match rc_decode_threshold cfg g with
  | None => mret false
  | Some threshold => reorder_batch_to_split_decodes_and_prefills o threshold
  end.
Definition _may_reorder_batch (o : SchedulerOutput) : M InputBatch unit :=
  match rc_kv_cache_groups cfg with
  | [] => mret tt
  | _ :: others =>
    reorder_batch o 0 ;;
    for_each (seq 1 (length others)) (λ i, batch_reordered ← reorder_batch o i; assert_ (negb batch_reordered))
  end.

(** [refresh_metadata]: the update goes to every logits processor. *)
Definition refresh_metadata : M RunnerState unit :=
  u ← on_batch take_batch_update;
  modify (λ s, let p := logitsprocs s in
    let out_len (ref : list_ref) := len (default [] (output_lists s !! ref)) in
    set_logitsprocs (mkLogitsProcs (min_tokens_update_state out_len u (lp_min_tokens p))
                       (logit_bias_update_state u (lp_logit_bias p)) (min_p_update_state to_float32 u (lp_min_p p))) s).

Definition remove_from_batch (id : string) : M RunnerState unit := on_batch (remove_request id) ;; mret tt.
Definition add_to_batch (id : string) : M RunnerState unit :=
  r ← get_request id; on_batch (add_request to_float32 r) ;; mret tt.

Definition _update_states o : M RunnerState unit :=
  for_each (elements (out_finished_req_ids o)) (λ id,
    modify (λ s, set_requests (delete id (requests s)) s) ;;
    modify (λ s, set_encoder_cache (delete id (encoder_cache s)) s)) ;;
  for_each (elements (out_finished_req_ids o)) remove_from_batch ;;
  for_each (free_encoder_input_ids o) free_encoder_outputs ;;
  s ← get;
  let unscheduled_req_ids := dom (req_id_to_index (input_batch s)) ∖ list_to_set (C := gset string) (num_scheduled_tokens o).*1 in
  for_each (elements unscheduled_req_ids) remove_from_batch ;;
  for_each (scheduled_new_reqs o) add_new_request ;;
  let new_ids := new_req_id <$> scheduled_new_reqs o in
  req_ids_to_add ← fold_each (zip (seq 0 (length (req_ids (scheduled_cached_reqs o)))) (req_ids (scheduled_cached_reqs o))) new_ids
    (λ ids '(i, id),
      e ← lift_outcome (cached_entry (scheduled_cached_reqs o) i id);
      add ← update_cached_request o e;
      mret (if add : bool then ids ++ [id] else ids));
  for_each req_ids_to_add add_to_batch ;;
  on_batch condense ;;
  on_batch (_may_reorder_batch o) ;;
  refresh_metadata.
End runner.
