(* ===== verification/PrepareInputs.v ===== *)
(** The inputs of a step, from [_prepare_inputs] of [v1/worker/gpu_model_runner.py]: the
    tokens that are scheduled are laid out one request after the other, with their
    positions, the slots of the KV cache they are stored in, and the metadata the attention
    backends build theirs from. *)
From Stdlib Require Import ZArith QArith Lia.
From stdpp Require Import base strings countable gmap sets list.
From S2P Require Import Prelude KVCacheSpec SchedulerData Arrays BlockTable AttentionMetadata InputBatch ModelRunner.
Local Open Scope Z_scope.

(** * The buffers *)
Definition set_positions_np v x := mkStepBuffers v (input_ids_cpu x) (query_start_loc_np x) (seq_lens_np x) (positions x) (input_ids x) (query_start_loc_dev x) (seq_lens_dev x).
Definition set_input_ids_cpu v x := mkStepBuffers (positions_np x) v (query_start_loc_np x) (seq_lens_np x) (positions x) (input_ids x) (query_start_loc_dev x) (seq_lens_dev x).
Definition set_query_start_loc_np v x := mkStepBuffers (positions_np x) (input_ids_cpu x) v (seq_lens_np x) (positions x) (input_ids x) (query_start_loc_dev x) (seq_lens_dev x).
Definition set_seq_lens_np v x := mkStepBuffers (positions_np x) (input_ids_cpu x) (query_start_loc_np x) v (positions x) (input_ids x) (query_start_loc_dev x) (seq_lens_dev x).
Definition set_device_buffers p i q l x := mkStepBuffers (positions_np x) (input_ids_cpu x) (query_start_loc_np x) (seq_lens_np x) p i q l.

(** An operation whose [out] is [a[:n]]: the result has to have the slice's length. *)
Definition fill_prefix (n : nat) (vals a : list Z) : outcome (list Z) :=
  if decide (length vals = length (take n a)) then Ok (vals ++ drop n a) else Raise ValueError.
(** [a[:n].copy_(b[:n])]. *)
Definition copy_prefix (n : nat) (b a : list Z) : list Z := take n b ++ drop n a.
(** [a[n:].fill_(x)]. *)
Definition fill_rest (n : nat) (x : Z) (a : list Z) : list Z := take n a ++ replicate (length a - n) x.

(** * The attention metadata *)

(** What a layer's metadata is built from: the builder of a group, the length of the common
    prefix and the metadata all backends share. *)
Record AttnInput : Type := mkAttnInput {
  ai_builder : nat;
  ai_common_prefix_len : Z;
  ai_metadata : CommonAttentionMetadata
}.

(** What [use_cascade_attention] of a group's builder is asked. *)
Record CascadeQuery : Type := mkCascadeQuery {
  cq_builder : nat;
  cq_common_prefix_len : Z;
  cq_query_lens : list Z;
  cq_num_kv_heads : Z;
  cq_use_sliding_window : bool;
  cq_use_local_attention : bool
}.

Record PreparedInputs : Type := mkPreparedInputs {
  pi_attn_metadata : gmap string AttnInput;
  pi_logits_indices : list Z;
  pi_spec_decode_metadata : option SpecDecodeMetadata;
  pi_num_scheduled_tokens : list Z;
  pi_spec_decode_common_attn_metadata : option CommonAttentionMetadata
}.

Definition np_min (l : list Z) : outcome Z :=
  match l with [] => Raise ValueError | x :: l => Ok (foldl Z.min x l) end.

Section prepare.
Context (cfg : RunnerConfig) (use_cascade_attention : CascadeQuery → bool).
Implicit Types (s : RunnerState) (o : SchedulerOutput) (b : InputBatch).

Definition on_buffers {A} (m : M StepBuffers A) : M RunnerState A := zoom buffers set_buffers m.

(** [arange_np]: long enough for the rows and for the tokens of a step. *)
Definition arange_np b : list Z :=
  np_arange (Z.max (Z.of_nat (max_num_reqs (InputBatch.cfg b)) + 1)
               (Z.max (Z.of_nat (max_model_len (InputBatch.cfg b))) (rc_max_num_tokens cfg))).
Definition computed_tokens b : list Z := row_num_computed_tokens <$> rows (slots b).

Definition _compute_cascade_attn_prefix_len (g : nat) (num_scheduled_tokens : list Z) (num_common_prefix_blocks : Z)
    (spec : KVCacheSpec) b : outcome Z :=
  let common_prefix_len := num_common_prefix_blocks * block_size spec in
  if decide (common_prefix_len = 0) then Ok 0
  else
    m ← np_min (take (length num_scheduled_tokens) (computed_tokens b));
    let common_prefix_len := Z.min common_prefix_len m / block_size spec * block_size spec in
    let use_sliding_window := match spec with
      | SlidingWindowSpec _ _ | FullAttentionSpec _ (Some _) _ => true | _ => false end in
    let use_local_attention := match spec with
      | ChunkedLocalAttentionSpec _ _ | FullAttentionSpec _ _ (Some _) => true | _ => false end in
    match attention_of spec with
    | None => Raise AssertionError
    | Some a =>
      if use_cascade_attention (mkCascadeQuery g common_prefix_len num_scheduled_tokens (num_kv_heads a)
           use_sliding_window use_local_attention)
      then Ok common_prefix_len else Ok 0
    end.

(** The number of draft tokens of every row. *)
Definition num_draft_tokens_of (o : SchedulerOutput) b : outcome (list Z) :=
  foldl (λ acc '(id, draft_token_ids), l ← acc;
    match req_id_to_index b !! id with
    | Some req_idx => array_set l req_idx (len draft_token_ids)
    | None => Raise KeyError
    end) (Ok (replicate (num_reqs b) 0)) (map_to_list (scheduled_spec_decode_tokens o)).

(** The part before the attention metadata: positions, tokens and slots of the step. *)
Definition prepare_tokens (n : nat) (num_scheduled_tokens : list Z) (total : nat) : M RunnerState (list Z) :=
  let req_indices := np_repeat (seq 0 n) num_scheduled_tokens in
  b ← gets input_batch;
  '(cu_num_tokens, arange) ← lift_outcome (_get_cumsum_and_arange (arange_np b) num_scheduled_tokens);
  starts ← lift_outcome (np_take (computed_tokens b) (Z.of_nat <$> req_indices));
  on_buffers (x ← get; p ← lift_outcome (fill_prefix total (np_add starts arange) (positions_np x)); modify (set_positions_np p)) ;;
  x ← gets buffers;
  let positions_np := take total (positions_np x) in
  let token_indices := np_add positions_np ((λ i, Z.of_nat i * Z.of_nat (max_model_len (InputBatch.cfg b))) <$> req_indices) in
  tokens ← lift_outcome (np_take (concat (row_token_ids <$> rows (slots b))) token_indices);
  on_buffers (x ← get; l ← lift_outcome (fill_prefix total tokens (input_ids_cpu x)); modify (set_input_ids_cpu l)) ;;
  on_batch (on_blocks (multi_compute_slot_mapping req_indices positions_np)) ;;
  on_batch (on_blocks (multi_commit_slot_mapping total)) ;;
  on_buffers (x ← get;
    q ← lift_outcome (assign_slice (query_start_loc_np x) 0 [0]);
    q ← lift_outcome (assign_slice q 1 cu_num_tokens);
    l ← lift_outcome (assign_slice (seq_lens_np x) 0 (np_add (take n (computed_tokens b)) num_scheduled_tokens));
    modify (set_query_start_loc_np q) ;; modify (set_seq_lens_np l)) ;;
  mret cu_num_tokens.

(** The copies to the device, and what fills the rest of the buffers. *)
Definition copy_buffers (n total : nat) (x : StepBuffers) : StepBuffers :=
  set_device_buffers (copy_prefix total (positions_np x) (positions x)) (copy_prefix total (input_ids_cpu x) (input_ids x))
    (fill_rest (S n) (query_start_loc_np x !!! n) (copy_prefix (S n) (query_start_loc_np x) (query_start_loc_dev x)))
    (fill_rest n 0 (copy_prefix n (seq_lens_np x) (seq_lens_dev x))) x.

(** The metadata that the layers of a group share. *)
Definition common_metadata (n total : nat) (max_num_scheduled_tokens : Z) (t : BlockTable) s : CommonAttentionMetadata :=
  let x := buffers s in
  mkCommonAttentionMetadata (take (S n) (query_start_loc_dev x)) (take n (seq_lens_dev x))
    (take n (computed_tokens (input_batch s))) (Z.of_nat n) (Z.of_nat total) max_num_scheduled_tokens
    (take n (BlockTable.block_table t)) (take total (slot_mapping t)) true.

Definition set_layers (layers : list string) (a : AttnInput) (d : gmap string AttnInput) : gmap string AttnInput :=
  foldl (λ d layer, <[layer := a]> d) d layers.

(** What the builder of a group is given. *)
Definition group_attention (o : SchedulerOutput) (num_scheduled_tokens : list Z) b (common : CommonAttentionMetadata)
    (g : nat) (group : KVCacheGroupSpec) : outcome AttnInput :=
  m ← match kv_cache_spec group with
      | ChunkedLocalAttentionSpec _ chunk => make_local_attention_virtual_batches chunk common (rc_block_size cfg)
      | _ => Ok common
      end;
  common_prefix_len ← (if rc_cascade_attn_enabled cfg then
      blocks ← array_get (num_common_prefix_blocks o) g;
      _compute_cascade_attn_prefix_len g num_scheduled_tokens blocks (kv_cache_spec group) b
    else Ok 0);
  Ok (mkAttnInput g common_prefix_len m).

(** The layers of a group, and those that attend locally without having a group. *)
Definition assign_layers (group : KVCacheGroupSpec) (a : AttnInput) (d : gmap string AttnInput) : outcome (gmap string AttnInput) :=
  let d := set_layers (layer_names group) a d in
  match rc_local_attention cfg with
  | None => Ok d
  | Some (chunk, local_attention_layers) =>
    local ← make_local_attention_virtual_batches chunk (ai_metadata a) (rc_block_size cfg);
    Ok (set_layers local_attention_layers (mkAttnInput (ai_builder a) 0 local) d)
  end.

(** The loop's body for one group; the first group's metadata is kept for the drafter. *)
Definition group_metadata (o : SchedulerOutput) (n total : nat) (num_scheduled_tokens : list Z) (max_num_scheduled_tokens : Z)
    (acc : gmap string AttnInput * option CommonAttentionMetadata) (e : nat * KVCacheGroupSpec)
    : M RunnerState (gmap string AttnInput * option CommonAttentionMetadata) :=
  let '(attn_metadata, spec_common) := acc in
  let '(g, group) := e in
  b ← gets input_batch;
  t ← lift_outcome (array_get (InputBatch.block_table (slots b)) g);
  on_batch (on_blocks (modify (<[g := set_device_slots (fill_rest total (-1) (slot_mapping t)) t]>))) ;;
  s ← get;
  let common := common_metadata n total max_num_scheduled_tokens t s in
  let spec_common := match spec_common with
    | None => if rc_has_speculative_config cfg then Some common else None
    | Some m => Some m
    end in
  a ← lift_outcome (group_attention o num_scheduled_tokens (input_batch s) common g group);
  attn_metadata ← lift_outcome (assign_layers group a attn_metadata);
  mret (attn_metadata, spec_common).

(** Which of the tokens' outputs are turned into logits. *)
Definition logits_indices_of (o : SchedulerOutput) (n : nat) (cu_num_tokens : list Z) (x : StepBuffers) b
    : outcome (list Z * option SpecDecodeMetadata) :=
  if decide (scheduled_spec_decode_tokens o = ∅) then Ok ((λ i, i - 1) <$> tail (take (S n) (query_start_loc_dev x)), None)
  else
    num_draft_tokens ← num_draft_tokens_of o b;
    m ← _calc_spec_decode_metadata (arange_np b) (input_ids x) num_draft_tokens cu_num_tokens;
    Ok (sd_logits_indices m, Some m).

Definition _prepare_inputs o : M RunnerState PreparedInputs :=
  let total := Z.to_nat (total_num_scheduled_tokens o) in
  assert_ (bool_decide (0 < total_num_scheduled_tokens o)) ;;
  b ← gets input_batch;
  let n := num_reqs b in
  assert_ (bool_decide (0 < n)%nat) ;;
  on_batch (on_blocks (multi_commit_block_table n)) ;;
  ids ← lift_outcome (req_id_list b);
  num_scheduled_tokens ← lift_outcome (mapM (scheduled_count o) ids);
  max_num_scheduled_tokens ← lift_outcome (np_max num_scheduled_tokens);
  cu_num_tokens ← prepare_tokens n num_scheduled_tokens total;
  on_buffers (modify (copy_buffers n total)) ;;
  x ← gets buffers;
  '(logits_indices, spec_decode_metadata) ← lift_outcome (logits_indices_of o n cu_num_tokens x b);
  '(attn_metadata, spec_common) ← fold_each (zip (seq 0 (length (rc_kv_cache_groups cfg))) (rc_kv_cache_groups cfg)) (∅, None)
    (group_metadata o n total num_scheduled_tokens max_num_scheduled_tokens);
  mret (mkPreparedInputs attn_metadata logits_indices spec_decode_metadata num_scheduled_tokens spec_common).
End prepare.
