(* ===== verification/PrepareFacts.v ===== *)
(** What [_prepare_inputs] lays out: for every token that is scheduled its position, the
    token itself and its slot in the KV cache of every group. *)
From Stdlib Require Import ZArith QArith Lia.
From stdpp Require Import base strings countable gmap sets list.
From S2P Require Import Prelude KVCacheSpec SchedulerData Arrays BlockTable AttentionMetadata InputBatch InputBatchFacts ModelRunner PrepareInputs.
Local Open Scope Z_scope.

(** * Layouts *)
Section batched.
Implicit Types (ns : list Z).

Lemma Forall2_batched_from {A B} (R : A → B → Prop) f g k ns :
  (∀ i j c, ns !! i = Some c → (j < Z.to_nat c)%nat → R (f (k + i)%nat j) (g (k + i)%nat j)) →
  Forall2 R (batched_from k f ns) (batched_from k g ns).
Proof.
  revert k. induction ns as [|n ns IH]; intros k H; [done|]. cbn [batched_from]. apply Forall2_app.
  - apply Forall2_fmap, Forall_Forall2_diag, Forall_forall. intros j Hj%elem_of_seq.
    specialize (H 0%nat j n eq_refl). rewrite Nat.add_0_r in H. apply H. lia.
  - apply IH. intros i j c Hi Hj. replace (S k + i)%nat with (k + S i)%nat by lia. by apply (H (S i) j c).
Qed.
Lemma mapM_batched {A B} (h : A → outcome B) f g ns :
  (∀ i j c, ns !! i = Some c → (j < Z.to_nat c)%nat → h (f i j) = Ok (g i j)) → mapM h (batched f ns) = Ok (batched g ns).
Proof. intros H. by apply mapM_Ok, Forall2_batched_from. Qed.
Lemma np_take_batched {A} (a : list A) f (g : nat → nat → A) ns :
  (∀ i j c, ns !! i = Some c → (j < Z.to_nat c)%nat → a !! Z.to_nat (f i j) = Some (g i j)) →
  np_take a (batched f ns) = Ok (batched g ns).
Proof. intros H. apply mapM_batched. intros i j c Hi Hj. by rewrite (H i j c). Qed.

Lemma np_repeat_seq ns : np_repeat (seq 0 (length ns)) ns = batched (λ i _, i) ns.
Proof. apply np_repeat_batched; [apply length_seq|]. by intros i x [-> _]%lookup_seq. Qed.

Lemma np_starts_repeat ns : np_repeat (np_sub (np_cumsum ns) ns) ns = batched (λ i _, start_of ns i) ns.
Proof. apply np_repeat_batched; [apply np_starts_length|]. by intros i x [_ ->]%np_starts_lookup. Qed.

Lemma take_range n m : 0 <= n <= m → take (Z.to_nat n) (range m) = range n.
Proof.
  intros H. unfold range, range2. rewrite <- fmap_take, take_seq. do 2 f_equal. lia.
Qed.

Lemma cumsum_arange ns m :
  ns ≠ [] → (∀ n, n ∈ ns → 0 <= n) → zsum ns <= m →
  _get_cumsum_and_arange (np_arange m) ns = Ok (np_cumsum ns, batched (λ _ j, Z.of_nat j) ns).
Proof.
  intros Hne Hn Hm. unfold _get_cumsum_and_arange. pose proof (zsum_nonneg ns Hn) as H0.
  assert (py_index (np_cumsum ns) (-1) = Ok (zsum ns)) as Hlast.
  { assert (length ns ≠ 0%nat) by by destruct ns.
    destruct (lookup_lt_is_Some_2 (np_cumsum ns) (length ns - 1)%nat) as [x Hx]; [rewrite np_cumsum_length; lia|].
    pose proof Hx as [_ Hx']%np_cumsum_lookup. unfold start_of in Hx'. rewrite take_ge in Hx' by lia.
    unfold py_index, len. rewrite np_cumsum_length. rewrite (decide_True (P := (-1 < 0))) by lia. cbv zeta. rewrite decide_False by lia.
    replace (Z.to_nat (Z.of_nat (length ns) + -1)) with (length ns - 1)%nat by lia. by rewrite Hx, Hx'. }
  rewrite Hlast. cbn [mbind outcome_bind].
  assert (slice_to (zsum ns) (np_arange m) = np_arange (zsum ns)) as Hs.
  { unfold slice_to, slice_bound. rewrite decide_False by lia. by apply take_range. }
  rewrite Hs, np_starts_repeat, arange_batched by done.
  assert (∀ A (f g : nat → nat → A), length (batched f ns) = length (batched g ns)) as Hlen
    by (intros; apply Nat2Z.inj; by rewrite !batched_length).
  assert (length (batched (λ i j, start_of ns i + Z.of_nat j) ns) = length (batched (λ i _, start_of ns i) ns)) as Hl by apply Hlen.
  rewrite decide_True by done. unfold np_sub at 1. rewrite batched_zip. do 2 f_equal. apply batched_ext. intros. lia.
Qed.
End batched.

(** * The tokens of a step *)
Definition token_at (b : InputBatch) (i : nat) (p : Z) : Z :=
  default 0 (r ← rows (slots b) !! i; row_token_ids r !! Z.to_nat p).
Definition slot_at (t : BlockTable) (i : nat) (p : Z) : Z :=
  default 0 (row_blocks t i !! Z.to_nat (p / bt_block_size t)) * bt_block_size t + p mod bt_block_size t.
Definition computed_at (b : InputBatch) (i : nat) : Z := default 0 (row_num_computed_tokens <$> rows (slots b) !! i).

Definition step_positions b counts : list Z := batched (λ i j, computed_at b i + Z.of_nat j) counts.
Definition step_tokens b counts : list Z := batched (λ i j, token_at b i (computed_at b i + Z.of_nat j)) counts.
Definition step_slots b t counts : list Z := batched (λ i j, slot_at t i (computed_at b i + Z.of_nat j)) counts.
Definition step_seq_lens b counts : list Z := np_add (take (length counts) (computed_tokens b)) counts.

(** The buffers have their full lengths. *)
Record buffers_ok (max_tokens max_reqs : nat) (x : StepBuffers) : Prop := {
  bu_positions : length (positions_np x) = max_tokens;
  bu_input_ids : length (input_ids_cpu x) = max_tokens;
  bu_query : length (query_start_loc_np x) = S max_reqs;
  bu_seq : length (seq_lens_np x) = max_reqs;
  bu_positions_dev : length (positions x) = max_tokens;
  bu_input_ids_dev : length (input_ids x) = max_tokens;
  bu_query_dev : length (query_start_loc_dev x) = S max_reqs;
  bu_seq_dev : length (seq_lens_dev x) = max_reqs
}.

Section prepare_proofs.
Context (cfg : RunnerConfig).
Implicit Types (s : RunnerState) (b : InputBatch) (counts : list Z).

(** The scheduled tokens of every row are in the row, in blocks and in the buffers. *)
Record step_fits b counts : Prop := {
  sf_slots : slots_ok (InputBatch.cfg b) (slots b);
  sf_rows_le : (length counts <= max_num_reqs (InputBatch.cfg b))%nat;
  sf_nonempty : counts ≠ [];
  sf_counts : ∀ c, c ∈ counts → 0 < c;
  sf_total : zsum counts <= rc_max_num_tokens cfg;
  sf_rows : ∀ i r c, rows (slots b) !! i = Some r → counts !! i = Some c →
    0 <= row_num_computed_tokens r ∧ row_num_computed_tokens r + c <= Z.of_nat (max_model_len (InputBatch.cfg b));
  sf_tables : ∀ g t, InputBatch.block_table (slots b) !! g = Some t → 0 < bt_block_size t ∧
    zsum counts <= len (slot_mapping_np t) ∧ zsum counts <= len (slot_mapping t) ∧
    ∀ i r c, rows (slots b) !! i = Some r → counts !! i = Some c →
      row_num_computed_tokens r + c <= bt_block_size t * len (row_blocks t i)
}.

Lemma step_count_pos b counts i c : step_fits b counts → counts !! i = Some c → 0 < c.
Proof. intros Hf Hi. eapply sf_counts; [done|]. by eapply list_elem_of_lookup_2. Qed.
Lemma step_counts_nonneg b counts : step_fits b counts → ∀ c, c ∈ counts → 0 <= c.
Proof. intros Hf c Hc. pose proof (sf_counts _ _ Hf c Hc). lia. Qed.
Lemma step_row b counts i c : step_fits b counts → counts !! i = Some c → ∃ r, rows (slots b) !! i = Some r ∧
  computed_at b i = row_num_computed_tokens r ∧ 0 <= computed_at b i ∧ computed_at b i + c <= Z.of_nat (max_model_len (InputBatch.cfg b)).
Proof.
  intros Hf Hi. destruct (lookup_lt_is_Some_2 (rows (slots b)) i) as [r Hr].
  { rewrite (ro_length _ _ (so_rows _ _ (sf_slots _ _ Hf))). apply lookup_lt_Some in Hi. pose proof (sf_rows_le _ _ Hf). lia. }
  exists r. unfold computed_at. rewrite Hr. cbn. by destruct (sf_rows _ _ Hf i r c Hr Hi).
Qed.

Lemma step_starts b counts : step_fits b counts →
  np_take (computed_tokens b) (Z.of_nat <$> np_repeat (seq 0 (length counts)) counts) = Ok (batched (λ i _, computed_at b i) counts).
Proof.
  intros Hf. rewrite np_repeat_seq, batched_fmap. apply np_take_batched. intros i j c Hi _.
  destruct (step_row b counts i c Hf Hi) as (r & Hr & Hc & _). unfold computed_tokens. rewrite Nat2Z.id, list_lookup_fmap, Hr, Hc. done.
Qed.

Lemma step_position b counts i j c : step_fits b counts → counts !! i = Some c → (j < Z.to_nat c)%nat →
  0 <= computed_at b i + Z.of_nat j < computed_at b i + c.
Proof. intros Hf Hi Hj. destruct (step_row b counts i c Hf Hi) as (r & _ & _ & H & _). lia. Qed.

Lemma step_take_tokens b counts : step_fits b counts →
  np_take (concat (row_token_ids <$> rows (slots b)))
    (np_add (step_positions b counts) ((λ i, Z.of_nat i * Z.of_nat (max_model_len (InputBatch.cfg b))) <$> np_repeat (seq 0 (length counts)) counts))
  = Ok (step_tokens b counts).
Proof.
  intros Hf. rewrite np_repeat_seq, batched_fmap. unfold np_add, step_positions. rewrite batched_zip. apply np_take_batched.
  intros i j c Hi Hj. destruct (step_row b counts i c Hf Hi) as (r & Hr & _ & H0 & Hm). pose proof (step_position b counts i j c Hf Hi Hj) as Hp.
  destruct (ro_row _ _ (so_rows _ _ (sf_slots _ _ Hf)) i r Hr) as [Hlen _].
  destruct (lookup_lt_is_Some_2 (row_token_ids r) (Z.to_nat (computed_at b i + Z.of_nat j))) as [x Hx]; [lia|].
  unfold token_at. rewrite Hr. cbn. rewrite Hx. cbn.
  replace (Z.to_nat _) with (i * max_model_len (InputBatch.cfg b) + Z.to_nat (computed_at b i + Z.of_nat j))%nat by lia.
  eapply lookup_concat_uniform; [|by rewrite list_lookup_fmap, Hr|done].
  intros k r' Hk. apply list_lookup_fmap_Some in Hk as (r0 & -> & Hk). apply (ro_row _ _ (so_rows _ _ (sf_slots _ _ Hf)) k r0 Hk).
Qed.

Lemma step_slots_ok b counts g t : step_fits b counts → InputBatch.block_table (slots b) !! g = Some t →
  mapM (λ '(r, p), slot_of t r p) (zip (np_repeat (seq 0 (length counts)) counts) (step_positions b counts)) = Ok (step_slots b t counts).
Proof.
  intros Hf Hg. rewrite np_repeat_seq. unfold step_positions. rewrite batched_zip. apply mapM_batched. intros i j c Hi Hj.
  destruct (sf_tables _ _ Hf g t Hg) as (Hbs & _ & _ & Hblocks). destruct (step_row b counts i c Hf Hi) as (r & Hr & Hc & H0 & Hm).
  pose proof (step_position b counts i j c Hf Hi Hj) as Hp. specialize (Hblocks i r c Hr Hi).
  set (p := computed_at b i + Z.of_nat j) in *.
  assert (Z.to_nat (p / bt_block_size t) < length (row_blocks t i))%nat as Hlt.
  { unfold len in *. assert (p / bt_block_size t < Z.of_nat (length (row_blocks t i))); [|pose proof (Z.div_pos p (bt_block_size t)); lia].
    apply Z.div_lt_upper_bound; lia. }
  destruct (lookup_lt_is_Some_2 _ _ Hlt) as [blk Hblk]. unfold slot_at. rewrite Hblk. cbn.
  eapply slot_of_spec; [apply (so_tables _ _ (sf_slots _ _ Hf)); by eapply list_elem_of_lookup_2| |done|lia|done].
  pose proof (sf_rows_le _ _ Hf). apply lookup_lt_Some in Hi. lia.
Qed.

(** ** What the steps before the attention metadata leave *)
Definition total_of counts : nat := Z.to_nat (zsum counts).
Definition stored_table b counts (t : BlockTable) : BlockTable :=
  set_device_slots (step_slots b t counts ++ drop (total_of counts) (slot_mapping t))
    (BlockTable.set_slots (step_slots b t counts ++ drop (total_of counts) (slot_mapping_np t)) t).
Definition set_tables (ts : MultiGroupBlockTable) b : InputBatch := set_slots (set_block_table ts (slots b)) b.
Definition stored_batch b counts : InputBatch :=
  set_tables (stored_table b counts <$> InputBatch.block_table (slots b)) b.
Definition filled_buffers b counts (x : StepBuffers) : StepBuffers :=
  mkStepBuffers (step_positions b counts ++ drop (total_of counts) (positions_np x)) (step_tokens b counts ++ drop (total_of counts) (input_ids_cpu x))
    ((0 :: np_cumsum counts) ++ drop (S (length counts)) (query_start_loc_np x)) (step_seq_lens b counts ++ drop (length counts) (seq_lens_np x))
    (positions x) (input_ids x) (query_start_loc_dev x) (seq_lens_dev x).

Lemma batched_total {A} (f : nat → nat → A) b counts : step_fits b counts → length (batched f counts) = total_of counts.
Proof. intros Hf. apply Nat2Z.inj. rewrite batched_length by by eapply step_counts_nonneg. unfold total_of. rewrite Z2Nat.id; [done|]. eapply zsum_nonneg, step_counts_nonneg, Hf. Qed.
Lemma total_nonneg b counts : step_fits b counts → Z.of_nat (total_of counts) = zsum counts.
Proof. intros Hf. unfold total_of. rewrite Z2Nat.id; [done|]. eapply zsum_nonneg, step_counts_nonneg, Hf. Qed.

Lemma step_seq_lens_length b counts : step_fits b counts → length (step_seq_lens b counts) = length counts.
Proof.
  intros Hf. unfold step_seq_lens, np_add. rewrite length_zip_with, length_take. unfold computed_tokens. rewrite length_fmap.
  rewrite (ro_length _ _ (so_rows _ _ (sf_slots _ _ Hf))). pose proof (sf_rows_le _ _ Hf). lia.
Qed.
Lemma fill_prefix_fits (n : nat) vals a : length vals = n → (n <= length a)%nat → fill_prefix n vals a = Ok (vals ++ drop n a).
Proof. intros Hv Ha. unfold fill_prefix. rewrite length_take, Nat.min_l, decide_True by done. done. Qed.
Lemma assign_slice_prefix {A} (a vals : list A) : (length vals <= length a)%nat → assign_slice a 0 vals = Ok (vals ++ drop (length vals) a).
Proof. intros H. rewrite assign_slice_fits by done. by rewrite take_0, Nat.add_0_l. Qed.

Lemma wp_each_table_exact (F : BlockTable → BlockTable) (f : nat → M BlockTable unit) (ts : MultiGroupBlockTable) :
  (∀ g t, ts !! g = Some t → wp (f g) (λ _ t', t' = F t) t) → wp (on_each_table f) (λ _ ts', ts' = F <$> ts) ts.
Proof.
  intros Hf. eapply wp_mono; [apply (wp_each_table (λ _ t t', t' = F t) f 0 ts); intros g t Hg; by apply Hf|].
  intros [] ts' [Hl HR]. apply list_eq_same_length with (length ts); [by rewrite length_fmap|done|].
  intros g x y Hg Hx Hy. apply list_lookup_fmap_Some in Hy as (t & -> & Ht). by apply (HR g t x).
Qed.

Lemma wp_compute_slots b counts g t : step_fits b counts → InputBatch.block_table (slots b) !! g = Some t →
  wp (compute_slot_mapping (np_repeat (seq 0 (length counts)) counts) (step_positions b counts))
    (λ _ t', t' = BlockTable.set_slots (step_slots b t counts ++ drop (total_of counts) (slot_mapping_np t)) t) t.
Proof.
  intros Hf Hg. unfold compute_slot_mapping. apply wp_bind, wp_get, wp_bind. eapply wp_lift_outcome; [by eapply step_slots_ok|].
  assert (length (step_slots b t counts) = total_of counts) as Hl by by eapply batched_total. rewrite Hl.
  destruct (sf_tables _ _ Hf g t Hg) as (_ & Hs & _). apply wp_bind. eapply wp_lift_outcome; [|by apply wp_modify].
  rewrite decide_True; [done|]. pose proof (total_nonneg _ _ Hf). unfold len in Hs. lia.
Qed.
Definition slots_table b counts (t : BlockTable) : BlockTable :=
  BlockTable.set_slots (step_slots b t counts ++ drop (total_of counts) (slot_mapping_np t)) t.
Lemma wp_multi_compute b counts : step_fits b counts →
  wp (multi_compute_slot_mapping (np_repeat (seq 0 (length counts)) counts) (step_positions b counts))
    (λ _ ts', ts' = slots_table b counts <$> InputBatch.block_table (slots b)) (InputBatch.block_table (slots b)).
Proof. intros Hf. apply wp_each_table_exact. intros g t Hg. by apply (wp_compute_slots b counts g t). Qed.
Lemma wp_multi_commit b counts : step_fits b counts →
  wp (multi_commit_slot_mapping (total_of counts)) (λ _ ts', ts' = stored_table b counts <$> InputBatch.block_table (slots b))
    (slots_table b counts <$> InputBatch.block_table (slots b)).
Proof.
  intros Hf. eapply wp_mono.
  { apply (wp_each_table_exact (λ t, set_device_slots (take (total_of counts) (slot_mapping_np t) ++ drop (total_of counts) (slot_mapping t)) t)).
    intros g t _. by apply wp_modify. }
  intros [] ts' ->. rewrite <- list_fmap_compose. apply list_fmap_ext. intros g t Hg. unfold compose, stored_table, slots_table.
  assert (length (step_slots b t counts) = total_of counts) as Hl by by eapply batched_total.
  cbn. by rewrite <- Hl, take_app_length.
Qed.
Lemma wp_on_tables (m : M MultiGroupBlockTable unit) Q s :
  wp m (λ _ ts, Q tt (set_input_batch (set_tables ts (input_batch s)) s)) (InputBatch.block_table (slots (input_batch s))) →
  wp (on_batch (on_blocks m)) Q s.
Proof. intros H. unfold on_batch, on_blocks, on_slots. do 3 apply wp_zoom. eapply wp_mono; [exact H|]. by intros [] ts HQ. Qed.

Lemma wp_prepare_tokens s counts (max_tokens max_reqs : nat) Q :
  let b := input_batch s in
  step_fits b counts → buffers_ok max_tokens max_reqs (buffers s) → (total_of counts <= max_tokens)%nat → (length counts <= max_reqs)%nat →
  Q (np_cumsum counts) (set_buffers (filled_buffers b counts (buffers s)) (set_input_batch (stored_batch b counts) s)) →
  wp (prepare_tokens cfg (length counts) counts (total_of counts)) Q s.
Proof.
  intros b Hf Hbuf Ht Hr HQ. subst b. set (b := input_batch s) in *. unfold prepare_tokens. destruct Hbuf.
  assert (length (step_positions b counts) = total_of counts) as Hlp by by eapply batched_total.
  assert (length (step_tokens b counts) = total_of counts) as Hlt by by eapply batched_total.
  apply wp_bind, wp_gets, wp_bind. eapply wp_lift_outcome.
  { apply cumsum_arange; [by eapply sf_nonempty|by eapply step_counts_nonneg|]. pose proof (sf_total _ _ Hf). lia. }
  cbv beta iota. apply wp_bind. eapply wp_lift_outcome; [by apply step_starts|].
  fold b.
  assert (np_add (batched (λ i _, computed_at b i) counts) (batched (λ _ j, Z.of_nat j) counts) = step_positions b counts) as -> by apply batched_zip.
  apply wp_bind, wp_zoom, wp_bind, wp_get, wp_bind. eapply wp_lift_outcome; [apply fill_prefix_fits; [done|lia]|]. apply wp_modify.
  apply wp_bind, wp_gets. cbn [buffers set_buffers set_positions_np positions_np]. rewrite <- Hlp at 1. rewrite take_app_length.
  apply wp_bind. eapply wp_lift_outcome; [by apply step_take_tokens|].
  apply wp_bind, wp_zoom, wp_bind, wp_get, wp_bind. eapply wp_lift_outcome; [apply fill_prefix_fits; [done|cbn; lia]|]. apply wp_modify.
  apply wp_bind, wp_on_tables. rewrite <- Hlp at 1. rewrite take_app_length. eapply wp_mono; [by apply wp_multi_compute|]. intros [] ts ->.
  apply wp_bind, wp_on_tables. cbn [input_batch set_input_batch set_tables slots set_slots set_block_table InputBatch.block_table].
  eapply wp_mono; [by apply wp_multi_commit|]. intros [] ts ->.
  apply wp_bind, wp_zoom, wp_bind, wp_get, wp_bind.
  eapply wp_lift_outcome; [apply assign_slice_prefix; cbn; lia|]. apply wp_bind.
  eapply wp_lift_outcome; [apply assign_slice_fits; cbn; rewrite np_cumsum_length, length_drop; lia|]. apply wp_bind.
  pose proof (step_seq_lens_length b counts Hf) as Hls.
  eapply wp_lift_outcome; [apply assign_slice_prefix; fold (step_seq_lens b counts); cbn; lia|].
  apply wp_bind, wp_modify, wp_modify, wp_ret. fold (step_seq_lens b counts). rewrite Hls. cbn.
  rewrite np_cumsum_length. cbn. rewrite drop_drop. cbn. replace (S (length counts)) with (1 + length counts)%nat by lia. exact HQ.
Qed.

(** ** The attention metadata *)
Definition device_buffers b counts (max_reqs : nat) (x : StepBuffers) : StepBuffers :=
  set_device_buffers (step_positions b counts ++ drop (total_of counts) (positions x)) (step_tokens b counts ++ drop (total_of counts) (input_ids x))
    ((0 :: np_cumsum counts) ++ replicate (max_reqs - length counts) (zsum counts))
    (step_seq_lens b counts ++ replicate (max_reqs - length counts) 0) (filled_buffers b counts x).

Lemma copy_prefix_app (vals rest a : list Z) n : length vals = n → copy_prefix n (vals ++ rest) a = vals ++ drop n a.
Proof. intros <-. unfold copy_prefix. by rewrite take_app_length. Qed.
Lemma fill_rest_app (vals rest : list Z) n x : length vals = n → fill_rest n x (vals ++ rest) = vals ++ replicate (length rest) x.
Proof. intros <-. unfold fill_rest. rewrite take_app_length, length_app. do 2 f_equal. lia. Qed.
Lemma cumsum_last counts : counts ≠ [] → (0 :: np_cumsum counts) !! length counts = Some (zsum counts).
Proof.
  intros Hne. destruct (length counts) as [|k] eqn:Hk; [by destruct counts|]. cbn [lookup list_lookup].
  apply np_cumsum_lookup. split; [lia|]. unfold start_of. by rewrite take_ge by lia.
Qed.

Lemma copy_filled b counts max_tokens max_reqs x :
  step_fits b counts → buffers_ok max_tokens max_reqs x → (length counts <= max_reqs)%nat →
  copy_buffers (length counts) (total_of counts) (filled_buffers b counts x) = device_buffers b counts max_reqs x.
Proof.
  intros Hf [] Hr. unfold copy_buffers, device_buffers.
  assert (length (step_positions b counts) = total_of counts) as Hlp by by eapply batched_total.
  assert (length (step_tokens b counts) = total_of counts) as Hlt by by eapply batched_total.
  pose proof (step_seq_lens_length b counts Hf) as Hls.
  assert (length (0 :: np_cumsum counts) = S (length counts)) as Hlq by (cbn; by rewrite np_cumsum_length).
  unfold filled_buffers. cbn [positions_np input_ids_cpu query_start_loc_np seq_lens_np positions input_ids query_start_loc_dev seq_lens_dev].
  rewrite !copy_prefix_app by done. rewrite !fill_rest_app by done. rewrite !length_drop, bu_query_dev0, bu_seq_dev0.
  erewrite (list_lookup_total_correct _ (length counts)); [|apply lookup_app_l_Some, cumsum_last; by eapply sf_nonempty]. done.
Qed.

(** The metadata of a group before it is made local. *)
Definition common_of b counts (mx : Z) (t : BlockTable) : CommonAttentionMetadata :=
  mkCommonAttentionMetadata (0 :: np_cumsum counts) (step_seq_lens b counts) (take (length counts) (computed_tokens b))
    (len counts) (zsum counts) mx (take (length counts) (block_table_np t)) (step_slots b t counts) true.

(** A table whose rows are on the device, before and after the rest of its slots is filled. *)
Definition committed_table (n : nat) (t : BlockTable) : BlockTable :=
  set_device_table (take n (block_table_np t) ++ drop n (BlockTable.block_table t)) t.
Definition committed_batch (n : nat) b : InputBatch := set_tables (committed_table n <$> InputBatch.block_table (slots b)) b.
Definition ready_table b counts (t : BlockTable) : BlockTable :=
  stored_table b counts (committed_table (length counts) t).
Definition padded_table b counts (t : BlockTable) : BlockTable :=
  set_device_slots (step_slots b t counts ++ replicate (length (slot_mapping t) - total_of counts) (-1)) (ready_table b counts t).

Lemma committed_table_ok n m t : table_ok n t → table_ok n (committed_table m t).
Proof. intros []. by split. Qed.
Lemma committed_fits n b counts : step_fits b counts → step_fits (committed_batch n b) counts.
Proof.
  intros [[] ? ? ? ? ? Ht]. split; [split; try done| | | | | |]; [|done..|].
  - intros t (t0 & -> & Ht0)%list_elem_of_fmap. apply committed_table_ok. auto.
  - intros g t (t0 & -> & Ht0)%list_lookup_fmap_Some. destruct (Ht g t0 Ht0) as (? & ? & ? & Hb). split_and!; [done|done|done|]. exact Hb.
Qed.

Lemma stored_committed b counts :
  stored_batch (committed_batch (length counts) b) counts = set_tables (ready_table b counts <$> InputBatch.block_table (slots b)) b.
Proof. unfold stored_batch, committed_batch, set_tables. cbn. by rewrite <- list_fmap_compose. Qed.

Lemma common_metadata_ready b counts max_reqs mx t x s g : step_fits b counts → InputBatch.block_table (slots b) !! g = Some t →
  buffers s = device_buffers b counts max_reqs x → rows (slots (input_batch s)) = rows (slots b) →
  common_metadata (length counts) (total_of counts) mx (ready_table b counts t) s = common_of b counts mx t.
Proof.
  intros Hf Hg Hx Hrows. unfold common_metadata, common_of. rewrite Hx. unfold computed_tokens. rewrite Hrows. cbn.
  assert (length (step_slots b t counts) = total_of counts) as Hl by by eapply batched_total.
  assert (length (block_table_np t) = max_num_reqs (InputBatch.cfg b)) as Hrl.
  { apply (to_rows _ _ (so_tables _ _ (sf_slots _ _ Hf) t (list_elem_of_lookup_2 _ _ _ Hg))). }
  pose proof (sf_rows_le _ _ Hf). f_equal.
  - f_equal. rewrite <- (np_cumsum_length counts). by rewrite take_app_length.
  - rewrite <- (step_seq_lens_length b counts Hf). by rewrite take_app_length.
  - apply total_nonneg with b, Hf.
  - rewrite take_app_le by (rewrite length_take; lia). by rewrite take_take, Nat.min_id.
  - rewrite <- Hl. change (step_slots b (committed_table (length counts) t) counts) with (step_slots b t counts). by rewrite take_app_length.
Qed.

(** The loop over the groups. *)
Definition assign_all (l : list (KVCacheGroupSpec * AttnInput)) : outcome (gmap string AttnInput) :=
  foldl (λ acc p, d ← acc; assign_layers cfg p.1 p.2 d) (Ok ∅) l.
Lemma foldl_raise {A B} (f : A → B → outcome A) (l : list B) e : foldl (λ acc x, a ← acc; f a x) (Raise e) l = Raise e.
Proof. by induction l. Qed.
Lemma assign_all_prefix l k d : assign_all l = Ok d → ∃ d', assign_all (take k l) = Ok d'.
Proof.
  unfold assign_all. intros H. rewrite <- (take_drop k l) in H. rewrite foldl_app in H. destruct (foldl _ (Ok ∅) (take k l)) as [d'|e]; [by eauto|].
  by rewrite (foldl_raise (λ d p, assign_layers cfg p.1 p.2 d)) in H.
Qed.
Lemma assign_all_S l k p : l !! k = Some p → assign_all (take (S k) l) = (d ← assign_all (take k l); assign_layers cfg p.1 p.2 d).
Proof. intros H. unfold assign_all. by rewrite (take_S_r _ _ _ H), foldl_app. Qed.

Definition spec_common_of b counts mx (tables : MultiGroupBlockTable) (k : nat) : option CommonAttentionMetadata :=
  if rc_has_speculative_config cfg then common_of b counts mx <$> head (take k tables) else None.

Context (use_cascade_attention : CascadeQuery → bool).

Definition partly_padded b counts (k : nat) (tables : MultiGroupBlockTable) : MultiGroupBlockTable :=
  imap (λ g t, if decide (g < k)%nat then padded_table b counts t else ready_table b counts t) tables.
Lemma partly_padded_0 b counts tables : partly_padded b counts 0 tables = ready_table b counts <$> tables.
Proof. unfold partly_padded. apply list_eq. intros g. rewrite list_lookup_imap, list_lookup_fmap. by destruct (tables !! g). Qed.
Lemma partly_padded_all b counts tables : partly_padded b counts (length tables) tables = padded_table b counts <$> tables.
Proof.
  unfold partly_padded. apply list_eq. intros g. rewrite list_lookup_imap, list_lookup_fmap. destruct (tables !! g) eqn:Hg; [|done].
  cbn. apply lookup_lt_Some in Hg. by rewrite decide_True.
Qed.
Lemma partly_padded_S b counts k tables t : tables !! k = Some t →
  <[k := padded_table b counts t]> (partly_padded b counts k tables) = partly_padded b counts (S k) tables.
Proof.
  intros Ht. apply list_eq. intros g. unfold partly_padded. destruct (decide (g = k)) as [->|Hg].
  - rewrite list_lookup_insert_eq by (rewrite length_imap; by eapply lookup_lt_Some). rewrite list_lookup_imap, Ht. cbn. by rewrite decide_True by lia.
  - rewrite list_lookup_insert_ne, !list_lookup_imap by done. destruct (tables !! g); [|done]. cbn.
    destruct (decide (g < k)%nat); [by rewrite decide_True by lia|by rewrite decide_False by lia].
Qed.

Lemma wp_groups o b counts max_reqs mx x s inputs d Q :
  let tables := InputBatch.block_table (slots b) in
  let groups := rc_kv_cache_groups cfg in
  step_fits b counts → length groups = length tables → length inputs = length groups →
  input_batch s = set_tables (ready_table b counts <$> tables) b → buffers s = device_buffers b counts max_reqs x →
  (∀ g group t a, groups !! g = Some group → tables !! g = Some t → inputs !! g = Some a →
    group_attention cfg use_cascade_attention o counts b (common_of b counts mx t) g group = Ok a) →
  assign_all (zip groups inputs) = Ok d →
  Q (d, spec_common_of b counts mx tables (length groups)) (set_input_batch (set_tables (padded_table b counts <$> tables) b) s) →
  wp (fold_each (zip (seq 0 (length groups)) groups) (∅, None)
        (group_metadata cfg use_cascade_attention o (length counts) (total_of counts) counts mx)) Q s.
Proof.
  intros tables groups Hf Hlen Hin Hb Hx Hga Hd HQ.
  apply wp_fold_each with (I := λ done _ acc s', assign_all (take (length done) (zip groups inputs)) = Ok acc.1 ∧
    acc.2 = spec_common_of b counts mx tables (length done) ∧
    s' = set_input_batch (set_tables (partly_padded b counts (length done) tables) b) s).
  - split_and!; [done|unfold spec_common_of; cbn; by destruct (rc_has_speculative_config cfg)|].
    cbn [length]. rewrite partly_padded_0, <- Hb. by destruct s.
  - intros done [g group] todo [d0 sc] s' Hsplit (Hd0 & Hsc & ->). apply zip_seq_split in Hsplit as [-> Hgroup].
    cbn [fst snd] in *. set (k := length done) in *.
    destruct (lookup_lt_is_Some_2 tables k) as [t Ht]; [rewrite <- Hlen; by eapply lookup_lt_Some|].
    destruct (lookup_lt_is_Some_2 inputs k) as [a Ha]; [rewrite Hin; by eapply lookup_lt_Some|].
    assert (zip groups inputs !! k = Some (group, a)) as Hzip by by apply lookup_zip_Some.
    destruct (assign_all_prefix _ (S k) _ Hd) as [d1 Hd1]. pose proof (assign_all_S _ _ _ Hzip) as HS. rewrite Hd1, Hd0 in HS. cbn in HS.
    unfold group_metadata. apply wp_bind, wp_gets. cbn [input_batch set_input_batch set_tables slots set_slots set_block_table InputBatch.block_table].
    assert (partly_padded b counts k tables !! k = Some (ready_table b counts t)) as Hpk.
    { unfold partly_padded. rewrite list_lookup_imap, Ht. cbn. by rewrite decide_False by lia. }
    apply wp_bind. eapply wp_lift_outcome; [by apply array_get_Some|]. apply wp_bind, wp_on_tables, wp_modify.
    cbn [input_batch set_input_batch set_tables slots set_slots set_block_table InputBatch.block_table].
    assert (set_device_slots (fill_rest (total_of counts) (-1) (slot_mapping (ready_table b counts t))) (ready_table b counts t) = padded_table b counts t) as ->.
    { unfold ready_table at 1, stored_table. cbn [slot_mapping set_device_slots]. rewrite fill_rest_app by by eapply batched_total.
      unfold padded_table. by rewrite length_drop. }
    rewrite (partly_padded_S _ _ _ _ _ Ht). apply wp_bind, wp_get.
    rewrite (common_metadata_ready b counts max_reqs mx t x _ k) by done.
    apply wp_bind. eapply wp_lift_outcome; [by apply (Hga k group t a)|]. apply wp_bind. eapply wp_lift_outcome; [by rewrite <- HS|]. apply wp_ret.
    rewrite !length_app, Nat.add_1_r. fold k. cbn [fst snd]. split_and!; [done| |done].
    rewrite Hsc. unfold spec_common_of. destruct (rc_has_speculative_config cfg); [|done].
    destruct tables as [|t0 tables']; [done|]. destruct k as [|k']; [cbn in Ht; by injection Ht as <-|done].
  - intros [d' sc'] s' (Hd' & Hsc & ->). rewrite length_zip_with, length_seq, Nat.min_id in *. cbn [fst snd] in *.
    rewrite take_ge in Hd' by (rewrite length_zip_with; lia). rewrite Hd in Hd'. injection Hd' as <-. subst sc'.
    rewrite Hlen, partly_padded_all in *. exact HQ.
Qed.
End prepare_proofs.
