(* ===== verification/StepInputs.v ===== *)
(** Which outputs of a step are sampled from, the common prefix of cascade attention, and the
    correctness of the inputs of a step as a whole. *)
From Stdlib Require Import ZArith QArith Lia.
From stdpp Require Import base strings countable gmap sets list.
From S2P Require Import Prelude KVCacheSpec SchedulerData Arrays BlockTable AttentionMetadata LocalAttention InputBatch InputBatchFacts ModelRunner PrepareInputs PrepareFacts.
Local Open Scope Z_scope.

(** * Speculative decoding

    Of a request with [d] draft tokens the last [d + 1] tokens are sampled from: the one
    before the drafts, and the drafts. *)
Section spec_decode.
Context (counts drafts : list Z) (input_ids : list Z).
Hypothesis Hlen : length drafts = length counts.
Hypothesis Hdrafts : ∀ i c d, counts !! i = Some c → drafts !! i = Some d → 0 <= d < c.
Hypothesis Hinput : zsum counts <= len input_ids.
Hypothesis Hsome : counts ≠ [].

Definition num_samples : list Z := (λ n, n + 1) <$> drafts.
(** The index in the step's tokens of the draft [j] of the request [i]. *)
Definition draft_index (i j : nat) : Z := start_of counts (S i) - drafts !!! i + Z.of_nat j.
Definition spec_logits_indices : list Z := batched (λ i j, draft_index i j - 1) num_samples.

Lemma num_samples_lookup i n : num_samples !! i = Some n → ∃ d c, drafts !! i = Some d ∧ counts !! i = Some c ∧ n = d + 1 ∧ 0 <= d < c.
Proof.
  intros (d & -> & Hd)%list_lookup_fmap_Some. destruct (lookup_lt_is_Some_2 counts i) as [c Hc]; [rewrite <- Hlen; by eapply lookup_lt_Some|].
  exists d, c. pose proof (Hdrafts i c d Hc Hd). split_and!; [done|done|done|lia|lia].
Qed.
Lemma drafts_nonneg d : d ∈ drafts → 0 <= d.
Proof.
  intros [i Hi]%list_elem_of_lookup_1. destruct (lookup_lt_is_Some_2 counts i) as [c Hc]; [rewrite <- Hlen; by eapply lookup_lt_Some|].
  by destruct (Hdrafts i c d Hc Hi).
Qed.
Lemma samples_nonneg n : n ∈ num_samples → 0 <= n.
Proof. intros (d & -> & Hd)%list_elem_of_fmap. pose proof (drafts_nonneg d Hd). lia. Qed.
Lemma counts_nonneg c : c ∈ counts → 0 <= c.
Proof.
  intros [i Hi]%list_elem_of_lookup_1. destruct (lookup_lt_is_Some_2 drafts i) as [d Hd]; [rewrite Hlen; by eapply lookup_lt_Some|].
  destruct (Hdrafts i c d Hi Hd). lia.
Qed.
Lemma samples_le : zsum num_samples <= zsum counts.
Proof.
  apply zsum_le; [unfold num_samples; by rewrite length_fmap|]. intros i n c Hn Hc.
  apply num_samples_lookup in Hn as (d & c' & _ & Hc' & -> & ?). simplify_eq. lia.
Qed.
Lemma drafts_le : zsum drafts <= zsum counts.
Proof. apply zsum_le; [done|]. intros i d c Hd Hc. destruct (Hdrafts i c d Hc Hd). lia. Qed.
Lemma start_of_le (ns : list Z) i : (∀ n, n ∈ ns → 0 <= n) → start_of ns i <= zsum ns.
Proof.
  intros Hn. rewrite <- (take_drop i ns) at 2. rewrite zsum_app. unfold start_of. assert (0 <= zsum (drop i ns)); [|lia].
  apply zsum_nonneg. intros x [k Hk]%list_elem_of_lookup_1. rewrite lookup_drop in Hk. apply Hn. by eapply list_elem_of_lookup_2.
Qed.

(** A draft's index is inside its request, behind at least one other token. *)
Lemma draft_index_bounds i j d : drafts !! i = Some d → (j <= Z.to_nat d)%nat →
  start_of counts i < draft_index i j <= start_of counts (S i) ∧ start_of counts (S i) <= len input_ids.
Proof.
  intros Hd Hj. destruct (lookup_lt_is_Some_2 counts i) as [c Hc]; [rewrite <- Hlen; by eapply lookup_lt_Some|].
  pose proof (Hdrafts i c d Hc Hd). pose proof (start_of_S _ _ _ Hc). unfold draft_index. rewrite (list_lookup_total_correct _ _ _ Hd).
  pose proof (start_of_le counts (S i) counts_nonneg). lia.
Qed.

Lemma ends_repeat : np_repeat (np_sub (np_cumsum counts) num_samples) num_samples = batched (λ i _, draft_index i 0 - 1) num_samples.
Proof.
  assert (length num_samples = length counts) as Hl by (unfold num_samples; by rewrite length_fmap).
  apply np_repeat_batched; [unfold np_sub; rewrite length_zip_with, np_cumsum_length; lia|].
  intros i x (c & n & -> & [Hi ->]%np_cumsum_lookup & Hn)%lookup_zip_with_Some. apply num_samples_lookup in Hn as (d & c & Hd & _ & -> & _).
  unfold draft_index. rewrite (list_lookup_total_correct _ _ _ Hd). lia.
Qed.

Lemma calc_spec_decode_metadata_spec m : zsum counts <= m →
  _calc_spec_decode_metadata (np_arange m) input_ids drafts (np_cumsum counts) = Ok (mkSpecDecodeMetadata
    (batched (λ i j, input_ids !!! Z.to_nat (draft_index i j)) drafts) drafts (np_cumsum drafts)
    (batched (λ i j, start_of num_samples i + Z.of_nat j) drafts) ((λ n, n - 1) <$> np_cumsum num_samples) spec_logits_indices).
Proof.
  intros Hm. unfold _calc_spec_decode_metadata. cbv zeta. change ((λ n, n + 1) <$> drafts) with num_samples.
  assert (num_samples ≠ [] ∧ drafts ≠ []) as [Hs0 Hd0].
  { unfold num_samples. destruct drafts; [|done]. by destruct counts. }
  rewrite (cumsum_arange num_samples); [|done|apply samples_nonneg|pose proof samples_le; lia]. cbn [mbind outcome_bind].
  rewrite (cumsum_arange drafts); [|done|apply drafts_nonneg|pose proof drafts_le; lia]. cbn [mbind outcome_bind].
  rewrite ends_repeat.
  assert (np_add (batched (λ i _, draft_index i 0 - 1) num_samples) (batched (λ _ j, Z.of_nat j) num_samples) = spec_logits_indices) as ->.
  { unfold np_add. rewrite batched_zip. apply batched_ext. intros i n j _ _. unfold draft_index. lia. }
  assert (np_repeat (np_sub (np_cumsum num_samples) num_samples) drafts = batched (λ i _, start_of num_samples i) drafts) as ->.
  { apply np_repeat_batched; [rewrite np_starts_length; unfold num_samples; by rewrite length_fmap|]. by intros i x [_ ->]%np_starts_lookup. }
  assert (np_add (batched (λ i _, start_of num_samples i) drafts) (batched (λ _ j, Z.of_nat j) drafts)
    = batched (λ i j, start_of num_samples i + Z.of_nat j) drafts) as -> by apply batched_zip.
  assert (np_take input_ids spec_logits_indices = Ok (batched (λ i j, input_ids !!! Z.to_nat (draft_index i j - 1)) num_samples)) as ->.
  { apply np_take_batched. intros i j n Hn Hj. apply num_samples_lookup in Hn as (d & c & Hd & Hc & -> & ?).
    pose proof (draft_index_bounds i j d Hd ltac:(lia)). pose proof (start_of_nonneg counts i counts_nonneg). unfold len in *.
    apply list_lookup_lookup_total_lt. lia. }
  cbn [mbind outcome_bind]. rewrite batched_fmap.
  rewrite (np_take_batched _ _ (λ i j, input_ids !!! Z.to_nat (draft_index i j))).
  { cbn [mbind outcome_bind]. done. }
  intros i j d Hd Hj.
  assert (num_samples !! i = Some (d + 1)) as Hn by (unfold num_samples; by rewrite list_lookup_fmap, Hd).
  pose proof (start_of_nonneg num_samples i samples_nonneg).
  replace (Z.to_nat (start_of num_samples i + Z.of_nat j + 1)) with (Z.to_nat (start_of num_samples i) + S j)%nat by lia.
  rewrite (lookup_batched _ num_samples i (d + 1)); [|apply samples_nonneg|done|lia]. do 3 f_equal. unfold draft_index. lia.
Qed.
End spec_decode.

(** ** The drafts of the rows *)
Section drafts.
Implicit Types (ix : gmap string nat) (l : list (string * list Z)).

Definition count_draft ix (acc : outcome (list Z)) (e : string * list Z) : outcome (list Z) :=
  let '(id, toks) := e in
  l ← acc; match ix !! id with Some i => array_set l i (len toks) | None => Raise KeyError end.

Lemma count_drafts ix l acc :
  NoDup l.*1 → (∀ id, id ∈ l.*1 → ∃ i, ix !! id = Some i ∧ (i < length acc)%nat) → (∀ id id' i, ix !! id = Some i → ix !! id' = Some i → id = id') →
  ∃ r, foldl (count_draft ix) (Ok acc) l = Ok r ∧ length r = length acc ∧
    (∀ i id v, ix !! id = Some i → (id, v) ∈ l → r !! i = Some (len v)) ∧ ∀ i, (∀ id, ix !! id = Some i → id ∉ l.*1) → r !! i = acc !! i.
Proof.
  revert acc. induction l as [|[id v] l IH]; intros acc Hnd Hin Hinj; [exists acc; by split_and!; [| |intros ??? _ ?%not_elem_of_nil|]|].
  cbn [fmap list_fmap] in Hnd. apply NoDup_cons in Hnd as [Hid Hnd]. destruct (Hin id) as (i & Hi & Hlt); [by left|].
  cbn [foldl]. unfold count_draft at 2. cbn [mbind outcome_bind]. rewrite Hi, array_set_lt by done.
  destruct (IH (<[i := len v]> acc)) as (r & Hr & Hl & Hset & Hkeep); [done| |done|].
  { intros id' Hid'. rewrite length_insert. apply Hin. by right. }
  exists r. split_and!; [done|by rewrite Hl, length_insert| |].
  - intros k id' v' Hk Hv'. rewrite elem_of_cons in Hv'. destruct Hv' as [[= -> ->]|Hv']; [|by eapply Hset]. assert (k = i) as -> by congruence.
    rewrite Hkeep; [by apply list_lookup_insert_eq|]. intros id2 Hid2. by rewrite (Hinj id2 id i Hid2 Hi).
  - intros k Hk. rewrite Hkeep; [|intros id2 Hid2; specialize (Hk id2 Hid2); set_solver]. apply list_lookup_insert_ne. intros ->.
    apply (Hk id Hi). by left.
Qed.

Definition drafts_of (o : SchedulerOutput) (ids : list string) : list Z := (λ id, len (default [] (scheduled_spec_decode_tokens o !! id))) <$> ids.

Lemma req_id_list_lookup b ids i id : req_id_list b = Ok ids → ids !! i = Some id ↔ _req_ids (slots b) !! i = Some (Some id).
Proof.
  intros H%mapM_Ok_inv. split; intros Hi.
  - destruct (Forall2_lookup_r _ _ _ _ _ H Hi) as (e & He & Heq). destruct e; [by injection Heq as ->|done].
  - destruct (Forall2_lookup_l _ _ _ _ _ H Hi) as (id' & He & [= ->]). done.
Qed.
Lemma req_id_list_dense b : dense (_req_ids (slots b)) → ∃ ids, req_id_list b = Ok ids ∧ length ids = length (_req_ids (slots b)).
Proof.
  unfold dense, req_id_list. generalize (_req_ids (slots b)) as l. induction l as [|e l IH]; intros Hd; [by exists []|].
  destruct e as [id|]; [|by destruct (Hd 0%nat)]. destruct IH as (ids & Hids & Hlen); [intros i; apply (Hd (S i))|].
  exists (id :: ids). cbn. rewrite Hids. cbn. by rewrite Hlen.
Qed.

Lemma num_draft_tokens_ok o b ids :
  batch_ok b → req_id_list b = Ok ids → length ids = num_reqs b → dom (scheduled_spec_decode_tokens o) ⊆ list_to_set ids →
  num_draft_tokens_of o b = Ok (drafts_of o ids).
Proof.
  intros Hb Hids Hlen Hdom. pose proof (bo_index _ Hb) as Hix.
  destruct (count_drafts (req_id_to_index b) (map_to_list (scheduled_spec_decode_tokens o)) (replicate (num_reqs b) 0)) as (r & Hr & Hl & Hset & Hkeep).
  - apply NoDup_fst_map_to_list.
  - intros id Hid. assert (id ∈ ids) as Hidl.
    { apply list_elem_of_fmap in Hid as ([id' v] & -> & Hid%elem_of_map_to_list). apply elem_of_dom_2 in Hid. by apply Hdom, elem_of_list_to_set in Hid. }
    apply list_elem_of_lookup_1 in Hidl as [i Hi]. exists i. rewrite length_replicate. split; [|rewrite <- Hlen; by eapply lookup_lt_Some].
    apply Hix. by apply (req_id_list_lookup b ids).
  - intros id id' i. by apply index_ok_inj with (_req_ids (slots b)).
  - unfold num_draft_tokens_of. change (foldl _ _ _) with (foldl (count_draft (req_id_to_index b)) (Ok (replicate (num_reqs b) 0)) (map_to_list (scheduled_spec_decode_tokens o))).
    rewrite Hr. f_equal. rewrite length_replicate in Hl. apply list_eq_same_length with (num_reqs b); [unfold drafts_of; by rewrite length_fmap|done|].
    intros i x y Hi Hx Hy. apply list_lookup_fmap_Some in Hy as (id & -> & Hid). pose proof Hid as Hix'%(req_id_list_lookup b ids i id Hids).
    apply Hix in Hix'. destruct (scheduled_spec_decode_tokens o !! id) as [v|] eqn:Hv; cbn.
    + rewrite (Hset i id v) in Hx; [by injection Hx|done|by apply elem_of_map_to_list].
    + rewrite Hkeep in Hx; [rewrite lookup_replicate_2 in Hx by done; by injection Hx as <-|]. intros id' Hid' Hin.
      assert (id' = id) as -> by by eapply (index_ok_inj _ _ _ _ _ Hix). apply list_elem_of_fmap in Hin as ([id2 v] & Heq & Hin%elem_of_map_to_list). cbn in Heq, Hin. rewrite <- Heq in Hin. by rewrite Hv in Hin.
Qed.
End drafts.

(** * Cascade attention *)
Section cascade.
Context (cfg : RunnerConfig) (use_cascade_attention : CascadeQuery → bool).
Implicit Types (b : InputBatch) (counts : list Z).

Lemma np_min_spec l : l ≠ [] → ∃ m, np_min l = Ok m ∧ m ∈ l ∧ ∀ x, x ∈ l → m <= x.
Proof.
  destruct l as [|x l]; [done|intros _]. cbn. eexists. split; [done|]. revert x. induction l as [|y l IH]; intros x; cbn [foldl].
  - split; [by left|]. intros z Hz%list_elem_of_singleton. lia.
  - destruct (IH (Z.min x y)) as [Hin Hle]. split.
    + rewrite elem_of_cons in Hin. destruct Hin as [->|Hin]; [|by do 2 right]. destruct (Z.min_spec x y) as [[_ ->]|[_ ->]]; [by left|by right; left].
    + intros z. rewrite !elem_of_cons. pose proof (Hle (Z.min x y) ltac:(by left)). intros [->|[->|Hz]]; [lia|lia|]. apply Hle. by right.
Qed.

Lemma cascade_prefix_ok b counts g blocks spec :
  step_fits cfg b counts → 0 < block_size spec → 0 <= blocks → is_Some (attention_of spec) →
  ∃ p, _compute_cascade_attn_prefix_len use_cascade_attention g counts blocks spec b = Ok p ∧
    0 <= p <= blocks * block_size spec ∧ p mod block_size spec = 0 ∧ ∀ i c, counts !! i = Some c → p <= computed_at b i.
Proof.
  intros Hf Hbs Hblocks [a Ha]. unfold _compute_cascade_attn_prefix_len.
  assert (∀ i c, counts !! i = Some c → 0 <= computed_at b i ∧ computed_at b i ∈ take (length counts) (computed_tokens b)) as Hc.
  { intros i c Hi. destruct (step_row cfg b counts i c Hf Hi) as (r & Hr & Hcr & H0 & _). split; [done|]. rewrite Hcr.
    apply list_elem_of_lookup_2 with i. rewrite lookup_take_lt by by eapply lookup_lt_Some. unfold computed_tokens. by rewrite list_lookup_fmap, Hr. }
  assert (∀ i c, counts !! i = Some c → 0 <= computed_at b i) as Hc0 by (intros i c Hi; by apply (Hc i c)).
  case_decide as H0; [exists 0; split_and!; [done|lia|lia|apply Z.mod_0_l; lia|done]|].
  destruct (np_min_spec (take (length counts) (computed_tokens b))) as (m & Hm & Hin & Hle).
  { pose proof (sf_nonempty _ _ _ Hf) as Hne. destruct counts as [|c counts']; [done|]. destruct (Hc 0%nat c eq_refl) as [_ H]. intros Heq. rewrite Heq in H. by apply elem_of_nil in H. }
  assert (0 <= m) as Hm0.
  { apply list_elem_of_lookup_1 in Hin as [i Hi]. apply lookup_take_Some in Hi as [Hi Hlt]. destruct (lookup_lt_is_Some_2 counts i Hlt) as [c Hci].
    pose proof (Hc0 i c Hci) as H. unfold computed_at in H. unfold computed_tokens in Hi. rewrite list_lookup_fmap in Hi. by rewrite Hi in H. }
  rewrite Hm. cbn [mbind outcome_bind]. rewrite Ha. set (l := Z.min (blocks * block_size spec) m).
  assert (0 <= l / block_size spec * block_size spec <= l) as Hl.
  { split; [apply Z.mul_nonneg_nonneg; [apply Z.div_pos; lia|lia]|]. rewrite Z.mul_comm. by apply Z.mul_div_le. }
  destruct (use_cascade_attention _).
  - eexists. split; [done|]. split_and!; [lia|lia|by apply Z.mod_mul; lia|]. intros i c Hi. destruct (Hc i c Hi) as [_ Hel]. pose proof (Hle _ Hel). lia.
  - exists 0. split_and!; [done|lia|nia|apply Z.mod_0_l; lia|done].
Qed.
End cascade.

(** * The inputs of a step *)
Lemma list_choice {A B} (P : nat → A → B → Prop) (l : list A) :
  (∀ i x, l !! i = Some x → ∃ y, P i x y) → ∃ k, length k = length l ∧ ∀ i x y, l !! i = Some x → k !! i = Some y → P i x y.
Proof.
  revert P. induction l as [|x l IH]; intros P H; [by exists []|].
  destruct (H 0%nat x eq_refl) as [y Hy]. destruct (IH (λ i, P (S i))) as (k & Hk & HP); [intros i z Hz; by apply (H (S i))|].
  exists (y :: k). cbn. split; [by rewrite Hk|]. intros [|i] z w Hz Hw; cbn in *; [by simplify_eq|by apply HP].
Qed.

Section step.
Context (cfg : RunnerConfig) (use_cascade_attention : CascadeQuery → bool).
Implicit Types (s : RunnerState) (b : InputBatch) (counts : list Z) (o : SchedulerOutput).

(** The groups have tables and own their layers; a chunk is a whole number of blocks. *)
Record groups_fit o b : Prop := {
  gf_tables : length (rc_kv_cache_groups cfg) = length (InputBatch.block_table (slots b));
  gf_layers : NoDup (concat (layer_names <$> rc_kv_cache_groups cfg));
  gf_plain : rc_local_attention cfg = None;
  gf_chunked : ∀ g group t a chunk, rc_kv_cache_groups cfg !! g = Some group → InputBatch.block_table (slots b) !! g = Some t →
    kv_cache_spec group = ChunkedLocalAttentionSpec a chunk → 0 < chunk ∧ rc_block_size cfg = bt_block_size t ∧ chunk mod rc_block_size cfg = 0;
  gf_cascade : rc_cascade_attn_enabled cfg = true → ∀ g group, rc_kv_cache_groups cfg !! g = Some group →
    0 < block_size (kv_cache_spec group) ∧ is_Some (attention_of (kv_cache_spec group)) ∧
    ∃ blocks, num_common_prefix_blocks o !! g = Some blocks ∧ 0 <= blocks
}.

(** What a group's builder gets. *)
Record group_given b counts mx (g : nat) (group : KVCacheGroupSpec) (t : BlockTable) (a : AttnInput) : Prop := {
  gg_builder : ai_builder a = g;
  gg_prefix : 0 <= ai_common_prefix_len a ∧ ∀ i c, counts !! i = Some c → ai_common_prefix_len a <= computed_at b i;
  gg_metadata : match kv_cache_spec group with
                | ChunkedLocalAttentionSpec _ chunk =>
                  make_local_attention_virtual_batches chunk (common_of b counts mx t) (rc_block_size cfg) = Ok (ai_metadata a)
                | _ => ai_metadata a = common_of b counts mx t
                end
}.

Lemma common_metadata_ok b counts mx t g : step_fits cfg b counts → InputBatch.block_table (slots b) !! g = Some t →
  metadata_ok (bt_block_size t) (common_of b counts mx t).
Proof.
  intros Hf Hg. pose proof (step_seq_lens_length cfg b counts Hf) as Hlen. pose proof (so_tables _ _ (sf_slots _ _ _ Hf) t (list_elem_of_lookup_2 _ _ _ Hg)) as Ht.
  pose proof (sf_rows_le _ _ _ Hf) as Hle.
  assert (∀ i, (i < length counts)%nat → ∃ c r, counts !! i = Some c ∧ rows (slots b) !! i = Some r ∧ 0 < c ∧ 0 <= computed_at b i ∧
    queries_of (common_of b counts mx t) i = c ∧ seq_lens (common_of b counts mx t) !!! i = computed_at b i + c ∧
    computed_at b i + c <= bt_block_size t * len (row_blocks t i)) as Hrow.
  { intros i Hi. destruct (lookup_lt_is_Some_2 counts i Hi) as [c Hc]. destruct (step_row cfg b counts i c Hf Hc) as (r & Hr & Hcr & H0 & _).
    exists c, r. pose proof (step_count_pos cfg b counts i c Hf Hc). split_and!; [done|done|done|done| | |].
    - unfold queries_of. cbn [query_start_loc common_of]. apply list_lookup_total_correct, differences_cumsum, Hc.
    - cbn [seq_lens common_of]. apply list_lookup_total_correct. unfold step_seq_lens, np_add. rewrite lookup_zip_with, lookup_take_lt, Hc by done.
      unfold computed_tokens. rewrite list_lookup_fmap, Hr. cbn. by rewrite Hcr.
    - rewrite Hcr. destruct (sf_tables _ _ _ Hf g t Hg) as (_ & _ & _ & Hb). by eapply Hb. }
  assert (∀ r, r ∈ take (length counts) (block_table_np t) → length r = max_num_blocks_per_req t) as Hw.
  { intros r [i Hi]%list_elem_of_lookup_1. apply lookup_take_Some in Hi as [Hi _]. by eapply to_width. }
  assert (columns_of (common_of b counts mx t) = Z.of_nat (max_num_blocks_per_req t)) as Hcol.
  { unfold columns_of. cbn [block_table_tensor common_of]. destruct (take _ _) as [|r rs] eqn:Hr; [|unfold len; rewrite (Hw r); [done|by left]].
    pose proof (sf_nonempty _ _ _ Hf). apply (f_equal length) in Hr. rewrite length_take, (to_rows _ _ Ht) in Hr. destruct counts; [done|cbn [length] in *; lia]. }
  split; cbn [seq_lens query_start_loc block_table_tensor common_of]; rewrite ?Hlen.
  - intros Heq. rewrite Heq in Hlen. pose proof (sf_nonempty _ _ _ Hf). by destruct counts.
  - done.
  - cbn. by rewrite np_cumsum_length.
  - intros i Hi. destruct (Hrow i Hi) as (c & r & _ & _ & ? & _ & -> & _). done.
  - intros i Hi. destruct (Hrow i Hi) as (c & r & _ & _ & ? & ? & Hq & Hs & _). unfold computed_of. rewrite Hq, Hs. lia.
  - rewrite length_take, (to_rows _ _ Ht). lia.
  - intros r Hr. rewrite Hcol. unfold len. by rewrite Hw.
  - intros i Hi. destruct (Hrow i Hi) as (c & r & _ & _ & ? & ? & _ & Hs & Hb). cbn [seq_lens common_of] in Hs. rewrite Hs, Hcol.
    destruct (sf_tables _ _ _ Hf g t Hg) as (Hbs & _). assert (len (row_blocks t i) <= Z.of_nat (max_num_blocks_per_req t));
      [|rewrite (Z.mul_comm (Z.of_nat _)); etransitivity; [exact Hb|apply Z.mul_le_mono_nonneg_l; lia]].
    destruct (lookup_row _ t i Ht ltac:(lia)) as (r' & k & Hr' & Hk & Hwr & Hkb). unfold row_blocks, len. rewrite Hr', Hk, length_take. lia.
Qed.

Lemma group_attention_ok o b counts mx g group t :
  step_fits cfg b counts → groups_fit o b → rc_kv_cache_groups cfg !! g = Some group → InputBatch.block_table (slots b) !! g = Some t →
  ∃ a, group_attention cfg use_cascade_attention o counts b (common_of b counts mx t) g group = Ok a ∧ group_given b counts mx g group t a.
Proof.
  intros Hf Hg Hgr Ht. unfold group_attention.
  assert (∃ m, match kv_cache_spec group with
      | ChunkedLocalAttentionSpec _ chunk => make_local_attention_virtual_batches chunk (common_of b counts mx t) (rc_block_size cfg)
      | _ => Ok (common_of b counts mx t) end = Ok m) as [m Hm].
  { destruct (kv_cache_spec group) as [| a chunk| |] eqn:Hs; [by eexists| |by eexists|by eexists].
    destruct (gf_chunked _ _ Hg g group t a chunk Hgr Ht Hs) as (H0 & Hbs & Hmod). destruct (sf_tables _ _ _ Hf g t Ht) as (Hpos & _).
    rewrite Hbs in *. destruct (local_attention_spec chunk (bt_block_size t) (common_of b counts mx t)) as (m & Hm & _); [done|done|done|by eapply common_metadata_ok|].
    by exists m. }
  assert (∃ p, (if rc_cascade_attn_enabled cfg then
      blocks ← array_get (num_common_prefix_blocks o) g;
      _compute_cascade_attn_prefix_len use_cascade_attention g counts blocks (kv_cache_spec group) b else Ok 0) = Ok p ∧
      0 <= p ∧ ∀ i c, counts !! i = Some c → p <= computed_at b i) as (p & Hp & Hp0 & Hple).
  { destruct (rc_cascade_attn_enabled cfg) eqn:Hcas.
    - destruct (gf_cascade _ _ Hg Hcas g group Hgr) as (Hbs & Hatt & blocks & Hbl & Hb0). rewrite (array_get_Some _ _ _ Hbl). cbn [mbind outcome_bind].
      destruct (cascade_prefix_ok cfg use_cascade_attention b counts g blocks (kv_cache_spec group) Hf Hbs Hb0 Hatt) as (p & -> & ? & _ & ?).
      exists p. split_and!; [done|lia|done].
    - exists 0. split_and!; [done|done|]. intros i c Hi. destruct (step_row cfg b counts i c Hf Hi) as (_ & _ & _ & H & _). done. }
  rewrite Hm. cbn [mbind outcome_bind]. rewrite Hp. cbn [mbind outcome_bind]. eexists. split; [done|]. split; [done|done|]. cbn [ai_metadata].
  destruct (kv_cache_spec group); congruence.
Qed.

(** ** The layers *)
Lemma lookup_set_layers layers a (d : gmap string AttnInput) l : set_layers layers a d !! l = if decide (l ∈ layers) then Some a else d !! l.
Proof.
  unfold set_layers. revert d. induction layers as [|x layers IH]; intros d; [by rewrite decide_False by apply not_elem_of_nil|]. cbn [foldl]. rewrite IH.
  destruct (decide (l ∈ layers)); [by rewrite decide_True by by right|]. destruct (decide (l = x)) as [->|Hne].
  - rewrite lookup_insert_eq, decide_True by by left. done.
  - rewrite lookup_insert_ne, decide_False by (rewrite ?elem_of_cons; naive_solver). done.
Qed.
Lemma assign_all_plain (l : list (KVCacheGroupSpec * AttnInput)) : rc_local_attention cfg = None →
  assign_all cfg l = Ok (foldl (λ d p, set_layers (layer_names p.1) p.2 d) ∅ l).
Proof.
  intros Hn. unfold assign_all. generalize (∅ : gmap string AttnInput) as d. induction l as [|p l IH]; intros d; [done|]. cbn [foldl mbind outcome_bind].
  unfold assign_layers at 2. rewrite Hn. apply IH.
Qed.
Lemma lookup_assigned (l : list (KVCacheGroupSpec * AttnInput)) d g group a layer :
  NoDup (concat (layer_names <$> l.*1)) → l !! g = Some (group, a) → layer ∈ layer_names group →
  foldl (λ d p, set_layers (layer_names p.1) p.2 d) d l !! layer = Some a.
Proof.
  revert d g. induction l as [|[gr x] l IH]; intros d g Hnd Hg Hl; [done|]. cbn in Hnd. apply NoDup_app in Hnd as (_ & Hdisj & Hnd). destruct g as [|g]; cbn in Hg.
  - injection Hg as -> ->. cbn [foldl fst snd].
    assert (∀ d', d' !! layer = Some a → foldl (λ d p, set_layers (layer_names p.1) p.2 d) d' l !! layer = Some a) as H.
    { specialize (Hdisj layer Hl). clear IH Hnd. induction l as [|[gr' x'] l IH]; intros d' Hd; [done|]. cbn in *. apply not_elem_of_app in Hdisj as [Hn Hdisj].
      apply IH; [done|]. by rewrite lookup_set_layers, decide_False. }
    apply H. by rewrite lookup_set_layers, decide_True.
  - cbn [foldl]. by eapply IH.
Qed.

(** ** [_prepare_inputs] *)

(** The scheduler's output fits the batch. *)
Record output_fits o b (ids : list string) counts : Prop := {
  of_ids : req_id_list b = Ok ids;
  of_counts : mapM (scheduled_count o) ids = Ok counts;
  of_total : total_num_scheduled_tokens o = zsum counts;
  of_drafts : ∀ id toks c i, scheduled_spec_decode_tokens o !! id = Some toks → ids !! i = Some id → counts !! i = Some c → len toks < c;
  of_known : dom (scheduled_spec_decode_tokens o) ⊆ list_to_set ids
}.

(** The result. *)
Record step_prepared o b (ids : list string) counts s (max_reqs : nat) (out : PreparedInputs) s' : Prop := {
  sp_counts : pi_num_scheduled_tokens out = counts;
  sp_state : s' = set_buffers (device_buffers b counts max_reqs (buffers s))
    (set_input_batch (set_tables (padded_table b counts <$> InputBatch.block_table (slots b)) b) s);
  sp_groups : ∃ mx, ∀ g group t layer, rc_kv_cache_groups cfg !! g = Some group → InputBatch.block_table (slots b) !! g = Some t →
    layer ∈ layer_names group → ∃ a, pi_attn_metadata out !! layer = Some a ∧ group_given b counts mx g group t a;
  sp_plain : scheduled_spec_decode_tokens o = ∅ → pi_spec_decode_metadata out = None ∧
    pi_logits_indices out = (λ n, n - 1) <$> np_cumsum counts;
  sp_spec : scheduled_spec_decode_tokens o ≠ ∅ → ∃ m, pi_spec_decode_metadata out = Some m ∧ pi_logits_indices out = sd_logits_indices m ∧
    m = mkSpecDecodeMetadata (batched (λ i j, input_ids (buffers s') !!! Z.to_nat (draft_index counts (drafts_of o ids) i j)) (drafts_of o ids)) (drafts_of o ids)
      (np_cumsum (drafts_of o ids)) (batched (λ i j, start_of (num_samples (drafts_of o ids)) i + Z.of_nat j) (drafts_of o ids))
      ((λ n, n - 1) <$> np_cumsum (num_samples (drafts_of o ids))) (spec_logits_indices counts (drafts_of o ids))
}.

Lemma logits_indices_ok o b ids counts max_tokens max_reqs x :
  batch_ok b → step_fits cfg b counts → output_fits o b ids counts → length ids = num_reqs b → length counts = length ids → buffers_ok max_tokens max_reqs x →
  (total_of counts <= max_tokens)%nat →
  let x' := device_buffers b counts max_reqs x in
  ∃ l m, logits_indices_of cfg o (length counts) (np_cumsum counts) x' b = Ok (l, m) ∧
    (scheduled_spec_decode_tokens o = ∅ → m = None ∧ l = (λ n, n - 1) <$> np_cumsum counts) ∧
    (scheduled_spec_decode_tokens o ≠ ∅ → ∃ m', m = Some m' ∧ l = sd_logits_indices m' ∧
      m' = mkSpecDecodeMetadata (batched (λ i j, input_ids x' !!! Z.to_nat (draft_index counts (drafts_of o ids) i j)) (drafts_of o ids)) (drafts_of o ids)
      (np_cumsum (drafts_of o ids)) (batched (λ i j, start_of (num_samples (drafts_of o ids)) i + Z.of_nat j) (drafts_of o ids))
      ((λ n, n - 1) <$> np_cumsum (num_samples (drafts_of o ids))) (spec_logits_indices counts (drafts_of o ids))).
Proof.
  intros Hb Hf Ho Hlen Hcl Hbuf Htot x'. unfold logits_indices_of. case_decide as Hs.
  - eexists _, _. split; [done|]. split; [|done]. intros _. split; [done|]. unfold x', device_buffers. cbn [query_start_loc_dev set_device_buffers].
    f_equal. cbn [app take tail]. rewrite <- (np_cumsum_length counts). by rewrite take_app_length.
  - rewrite (num_draft_tokens_ok o b ids Hb (of_ids _ _ _ _ Ho) Hlen (of_known _ _ _ _ Ho)). cbn [mbind outcome_bind].
    assert (length (input_ids x') = max_tokens) as Hil.
    { unfold x'. cbn. rewrite length_app, length_drop, (bu_input_ids_dev _ _ _ Hbuf).
      assert (length (step_tokens b counts) = total_of counts) as -> by by eapply batched_total. lia. }
    unfold arange_np. rewrite (calc_spec_decode_metadata_spec counts (drafts_of o ids) (input_ids x')).
    + cbn [mbind outcome_bind]. eexists _, _. split; [done|]. split; [done|]. intros _. by eexists.
    + unfold drafts_of. by rewrite length_fmap.
    + intros i c d Hc Hd. apply list_lookup_fmap_Some in Hd as (id & -> & Hid). pose proof (step_count_pos cfg b counts i c Hf Hc).
      destruct (scheduled_spec_decode_tokens o !! id) as [toks|] eqn:Ht; cbn [default].
      * pose proof (of_drafts _ _ _ _ Ho id toks c i Ht Hid Hc). cbn. pose proof (len_nonneg toks). lia.
      * cbn. unfold len. cbn. lia.
    + unfold len. rewrite Hil. pose proof (total_nonneg cfg b counts Hf). lia.
    + by eapply sf_nonempty.
    + pose proof (sf_total _ _ _ Hf). lia.
Qed.

Lemma committed_req_ids n b : req_id_list (committed_batch n b) = req_id_list b.
Proof. done. Qed.
Lemma wp_commit_rows n s Q :
  Q tt (set_input_batch (committed_batch n (input_batch s)) s) → wp (on_batch (on_blocks (multi_commit_block_table n))) Q s.
Proof.
  intros HQ. apply wp_on_tables. eapply wp_mono; [by apply (wp_each_table_exact (committed_table n)); intros g t _; apply wp_modify|].
  by intros [] ts ->.
Qed.
Lemma np_max_ok l : l ≠ [] → ∃ m, np_max l = Ok m.
Proof. destruct l as [|x l]; [done|]. intros _. by eexists. Qed.

(** The attention inputs of all groups. *)
Lemma all_groups_ok o b counts mx : step_fits cfg b counts → groups_fit o b →
  ∃ inputs d, length inputs = length (rc_kv_cache_groups cfg) ∧
    (∀ g group t a, rc_kv_cache_groups cfg !! g = Some group → InputBatch.block_table (slots b) !! g = Some t → inputs !! g = Some a →
      group_attention cfg use_cascade_attention o counts b (common_of b counts mx t) g group = Ok a) ∧
    assign_all cfg (zip (rc_kv_cache_groups cfg) inputs) = Ok d ∧
    ∀ g group t layer, rc_kv_cache_groups cfg !! g = Some group → InputBatch.block_table (slots b) !! g = Some t →
      layer ∈ layer_names group → ∃ a, d !! layer = Some a ∧ group_given b counts mx g group t a.
Proof.
  intros Hf Hg.
  destruct (list_choice (λ g group a, ∀ t, InputBatch.block_table (slots b) !! g = Some t →
    group_attention cfg use_cascade_attention o counts b (common_of b counts mx t) g group = Ok a ∧ group_given b counts mx g group t a)
    (rc_kv_cache_groups cfg)) as (inputs & Hl & Hin).
  { intros g group Hgr. destruct (lookup_lt_is_Some_2 (InputBatch.block_table (slots b)) g) as [t Ht].
    { rewrite <- (gf_tables _ _ Hg). by eapply lookup_lt_Some. }
    destruct (group_attention_ok o b counts mx g group t Hf Hg Hgr Ht) as (a & Ha). exists a. intros t' Ht'. by simplify_eq. }
  exists inputs. eexists. split; [done|]. split_and!.
  - intros g group t a Hgr Ht Ha. by apply (Hin g group a Hgr Ha t Ht).
  - apply assign_all_plain, (gf_plain _ _ Hg).
  - intros g group t layer Hgr Ht Hlayer. destruct (lookup_lt_is_Some_2 inputs g) as [a Ha]; [rewrite Hl; by eapply lookup_lt_Some|].
    exists a. split; [|by apply (Hin g group a Hgr Ha t Ht)]. eapply lookup_assigned; [| |exact Hlayer].
    + rewrite fst_zip by lia. apply (gf_layers _ _ Hg).
    + by apply lookup_zip_Some.
Qed.

Lemma wp_prepare_inputs o ids counts s max_tokens max_reqs :
  let b := input_batch s in
  batch_ok b → step_fits cfg b counts → groups_fit o b → output_fits o b ids counts → length ids = num_reqs b →
  buffers_ok max_tokens max_reqs (buffers s) → (total_of counts <= max_tokens)%nat → (length counts <= max_reqs)%nat →
  wp (_prepare_inputs cfg use_cascade_attention o) (step_prepared o b ids counts s max_reqs) s.
Proof.
  intros b Hb Hf Hg Ho Hlen Hbuf Htot Hreqs. subst b.
  assert (length counts = length ids) as Hcl by (symmetry; by eapply Forall2_length, mapM_Ok_inv, of_counts).
  pose proof (total_nonneg cfg _ _ Hf) as Hz. pose proof (sf_nonempty _ _ _ Hf) as Hne.
  assert (0 < zsum counts) as Hpos.
  { destruct counts as [|c counts']; [done|]. rewrite zsum_cons. pose proof (sf_counts _ _ _ Hf c ltac:(by left)).
    assert (0 <= zsum counts'); [|lia]. apply zsum_nonneg. intros x Hx. pose proof (sf_counts _ _ _ Hf x ltac:(by right)). lia. }
  unfold _prepare_inputs. rewrite (of_total _ _ _ _ Ho). apply wp_bind, wp_assert; [by apply bool_decide_eq_true|].
  apply wp_bind, wp_gets. rewrite <- Hlen, <- Hcl. fold (total_of counts).
  apply wp_bind, wp_assert; [apply bool_decide_eq_true; destruct counts; [done|cbn; lia]|].
  apply wp_bind, wp_commit_rows. apply wp_bind. eapply wp_lift_outcome; [exact (of_ids _ _ _ _ Ho)|].
  apply wp_bind. eapply wp_lift_outcome; [exact (of_counts _ _ _ _ Ho)|].
  destruct (np_max_ok counts Hne) as [mx Hmx]. apply wp_bind. eapply wp_lift_outcome; [exact Hmx|].
  pose proof (committed_fits cfg (length counts) _ _ Hf) as Hf'.
  apply wp_bind. eapply wp_prepare_tokens; [exact Hf'|exact Hbuf|done|done|].
  cbn [input_batch set_input_batch buffers]. rewrite stored_committed.
  change (filled_buffers (committed_batch (length counts) (input_batch s)) counts) with (filled_buffers (input_batch s) counts).
  apply wp_bind, wp_zoom, wp_modify. cbn [buffers set_buffers set_input_batch]. rewrite (copy_filled cfg _ _ _ _ _ Hf Hbuf Hreqs).
  apply wp_bind, wp_gets. cbn [buffers set_buffers].
  destruct (logits_indices_ok o (input_batch s) ids counts max_tokens max_reqs (buffers s)) as (l & m & Hl & Hplain & Hspec); [done..|].
  apply wp_bind. eapply wp_lift_outcome; [exact Hl|]. cbv beta iota.
  destruct (all_groups_ok o (input_batch s) counts mx Hf Hg) as (inputs & d & Hil & Hin & Hd & Hlayers).
  apply wp_bind. eapply (wp_groups cfg use_cascade_attention o (input_batch s) counts max_reqs mx (buffers s));
    [exact Hf|exact (gf_tables _ _ Hg)|exact Hil|done|done|exact Hin|exact Hd|].
  cbv beta iota. apply wp_ret. split.
  - done.
  - done.
  - exists mx. exact Hlayers.
  - exact Hplain.
  - exact Hspec.
Qed.
End step.
