(* ===== verification/BatchRows.v ===== *)
(** The row of a request that stays in the persistent batch from one step to the next: the
    part of [_update_states] of [v1/worker/gpu_model_runner.py] that advances it. *)
From Stdlib Require Import ZArith QArith Lia.
From stdpp Require Import base strings countable gmap sets list.
From S2P Require Import Prelude Request KVCacheSpec SchedulerData BlockTable BatchUpdate InputBatch InputBatchFacts ModelRunner.
Local Open Scope Z_scope.

(** * What the update shows *)
Definition add_spec_row (spec : list Z) (r : Row) : Row :=
  set_row_counts (row_num_tokens r + len spec) (row_num_tokens_no_spec r) (row_num_prompt_tokens r) (row_num_computed_tokens r)
    (set_row_tokens (row_token_ids r ++ spec) r).
Definition set_view_row (r : Row) (v : RowView) : RowView := mkRowView r (rv_blocks v) (rv_generator v) (rv_bad_words v) (rv_output v).
Definition set_view_blocks (l : list (list Z)) (v : RowView) : RowView := mkRowView (rv_row v) l (rv_generator v) (rv_bad_words v) (rv_output v).

(** A view with draft tokens behind the request's tokens. *)
Definition with_spec (spec : list Z) (v : RowView) : RowView := set_view_row (add_spec_row spec (rv_row v)) v.
(** The view of a row that has more computed tokens, blocks and drafts. *)
Definition advanced (n : Z) (blocks : list (list Z)) (spec : list Z) (v : RowView) : RowView :=
  with_spec spec (set_view_blocks (extend_blocks (rv_blocks v) blocks) (set_view_row (set_row_computed n (rv_row v)) v)).

Lemma visible_advanced iv n blocks spec v : visible_row iv (advanced n blocks spec v) = advanced n blocks spec (visible_row iv v).
Proof. unfold visible_row. by destruct (iv_pooling iv). Qed.
Lemma visible_tokens iv v : row_num_tokens (rv_row (visible_row iv v)) = row_num_tokens (rv_row v) ∧
  row_num_tokens_no_spec (rv_row (visible_row iv v)) = row_num_tokens_no_spec (rv_row v) ∧ rv_blocks (visible_row iv v) = rv_blocks v ∧
  row_token_ids (rv_row (visible_row iv v)) = row_token_ids (rv_row v) ∧ row_num_computed_tokens (rv_row (visible_row iv v)) = row_num_computed_tokens (rv_row v).
Proof. unfold visible_row. by destruct (iv_pooling iv). Qed.

Lemma extend_blocks_zip (l k : list (list Z)) : length l = length k → extend_blocks l k = zip_with app l k.
Proof. revert k. induction l as [|a l IH]; intros [|b k] H; try done. cbn. f_equal. apply IH. by injection H. Qed.
Lemma extend_blocks_length (l k : list (list Z)) : length (extend_blocks l k) = length l.
Proof. revert k. induction l as [|a l IH]; intros [|b k]; try done. cbn. by rewrite IH. Qed.

Lemma request_shown_advanced to_float32 c r n blocks spec :
  advanced n blocks spec (request_shown to_float32 c r).1
  = with_spec spec (request_shown to_float32 c (set_cached_blocks (extend_blocks (block_ids r) blocks) (set_cached_computed n r))).1.
Proof. unfold request_shown. by destruct r as [? ? [| |]]. Qed.

Section row.
Context (cfg : RunnerConfig).
Implicit Types (b : InputBatch) (o : SchedulerOutput) (e : CachedEntry) (i : nat) (id : string) (n : Z).

(** The row fits the update. *)
Record row_fits b (i : nat) (new_blocks : list (list Z)) (spec : list Z) (v : RowView) : Prop := {
  rwf_view : row_view (slots b) i = Some v;
  rwf_no_spec : row_num_tokens_no_spec (rv_row v) = row_num_tokens (rv_row v);
  rwf_room : row_num_tokens (rv_row v) + len spec <= Z.of_nat (max_model_len (InputBatch.cfg b));
  rwf_groups : length new_blocks = length (block_table (slots b));
  rwf_blocks : blocks_fit (block_table (slots b)) i new_blocks
}.

(** What has changed in the batch. *)
Record advanced_row b (id : string) (n : Z) (new_blocks : list (list Z)) (spec : list Z) (sh : RowView * IdView) b' : Prop := {
  av_ok : batch_ok b';
  av_builder : batch_update_builder b' = batch_update_builder b;
  av_cfg : InputBatch.cfg b' = InputBatch.cfg b;
  av_index : req_id_to_index b' = req_id_to_index b;
  av_ids : _req_ids (slots b') = _req_ids (slots b);
  av_tables : tables_frame (block_table (slots b)) (block_table (slots b'));
  av_shown : shown b' = <[id := (advanced n new_blocks spec sh.1, sh.2)]> (shown b);
  av_mask : ∀ j, mask_row b' j = mask_row b j
}.

(** Replacing a row and its blocks. *)
Lemma advance_intro b i id n new_blocks spec sh r r' ts' :
  batch_ok b → req_id_to_index b !! id = Some i → shown b !! id = Some sh → rows (slots b) !! i = Some r →
  tables_changed (max_num_reqs (InputBatch.cfg b)) (block_table (slots b)) ts' i (extend_blocks (group_blocks (block_table (slots b)) i) new_blocks) →
  length (row_token_ids r') = length (row_token_ids r) → 0 <= row_num_tokens r' <= Z.of_nat (max_model_len (InputBatch.cfg b)) → row_lora r' = row_lora r →
  trim r' = add_spec_row spec (set_row_computed n (trim r)) →
  advanced_row b id n new_blocks spec sh (set_slots (set_block_table ts' (set_rows (<[i := r']> (rows (slots b))) (slots b))) b).
Proof.
  intros Hb Hi Hsh Hr [T1 T2 T3 T4] Hlen Hnum Hlora Htrim. pose proof Hb as [Hs Hix Hids Hl Hbd]. pose proof (lookup_lt_Some _ _ _ Hr) as Hlt.
  pose proof (proj1 (Hix id i) Hi) as Hid.
  assert (∀ j, j ≠ i → row_view (set_block_table ts' (set_rows (<[i := r']> (rows (slots b))) (slots b))) j = row_view (slots b) j) as Hother.
  { intros j Hj. unfold row_view. batch_simpl. rewrite list_lookup_insert_ne by done. destruct (rows (slots b) !! j); [|done]. cbn. by rewrite T4. }
  split; batch_simpl; [split|done..|exact T2| |done]; batch_simpl.
  - destruct Hs. split; batch_simpl; try done. apply rows_ok_insert; [done|rewrite Hlen; by apply (ro_row _ _ so_rows i)|done].
  - done.
  - done.
  - eapply lora_ok_ext; [exact Hl|]. intros id'. unfold lora_of. destruct (req_id_to_index b !! id') as [j|]; [|done]. cbn.
    destruct (decide (j = i)) as [->|Hj]; [|by rewrite list_lookup_insert_ne]. rewrite list_lookup_insert_eq, Hr by done. cbn. by rewrite Hlora.
  - done.
  - apply map_eq. intros id'. destruct (decide (id' = id)) as [->|Hne].
    + rewrite lookup_insert_eq. set (v := mkRowView (trim r) (group_blocks (block_table (slots b)) i) (generators (slots b) !! i) (bad_words (slots b) !! i) (mjoin (req_output_token_ids (slots b) !! i))).
      rewrite (shown_lookup b id i v) in Hsh; [|done|unfold row_view; by rewrite Hr]. injection Hsh as <-. cbn [fst snd].
      erewrite shown_lookup; [|exact Hi|unfold row_view; batch_simpl; rewrite list_lookup_insert_eq by done; cbn; rewrite T3, Htrim; done].
      batch_simpl. rewrite <- visible_advanced. done.
    + rewrite lookup_insert_ne by done. apply shown_agree; batch_simpl; [|done]. destruct (req_id_to_index b !! id') as [j|] eqn:Hj; [|done].
      apply Hother. intros ->. apply Hne. by eapply index_ok_inj.
Qed.

Lemma write_spec_tokens r spec (m : nat) :
  length (row_token_ids r) = m → 0 <= row_num_tokens r → row_num_tokens_no_spec r = row_num_tokens r → row_num_tokens r + len spec <= Z.of_nat m →
  ∃ r', row_with_spec_tokens spec r = Ok r' ∧ length (row_token_ids r') = m ∧ row_num_tokens r' = row_num_tokens r + len spec ∧ row_lora r' = row_lora r ∧
    trim r' = add_spec_row spec (trim r).
Proof.
  intros Hl H0 Hn Hfit. unfold row_with_spec_tokens, write_row_tokens. rewrite Hn.
  destruct (assign_slice_ok (row_token_ids r) (Z.to_nat (row_num_tokens r)) spec) as (t & -> & Hlt & Ht); [unfold len in *; lia|].
  cbn [mbind outcome_bind]. eexists. split; [done|]. cbn. split_and!; [lia|done|done|].
  unfold trim, add_spec_row, valid_tokens. cbn. rewrite Hn.
  assert (Z.to_nat (row_num_tokens r + len spec) = (Z.to_nat (row_num_tokens r) + length spec)%nat) as -> by (unfold len; lia). by rewrite Ht.
Qed.

Lemma wp_update_batch_row o e i id sh v b :
  let n := ce_num_computed_tokens e in
  let spec := default [] (scheduled_spec_decode_tokens o !! ce_id e) in
  rc_is_last_rank cfg = true → batch_ok b → req_id_to_index b !! id = Some i → shown b !! id = Some sh →
  row_fits b i (ce_new_block_ids e) spec v →
  wp (update_batch_row cfg o e i) (λ _ b', advanced_row b id n (ce_new_block_ids e) spec sh b') b.
Proof.
  intros n spec Hlast Hb Hi Hsh [Hv Hns Hroom Hg Hfit]. pose proof Hb as [Hs Hix _ _ _]. unfold update_batch_row. rewrite Hlast.
  pose proof (proj1 (Hix id i) Hi) as Hid. pose proof (occupied_lt _ _ _ _ Hs Hid) as Hmax.
  destruct (lookup_lt_is_Some_2 (rows (slots b)) i) as [r Hr]; [by rewrite (ro_length _ _ (so_rows _ _ Hs))|].
  destruct (ro_row _ _ (so_rows _ _ Hs) i r Hr) as [Hlen Hnum].
  unfold row_view in Hv. rewrite Hr in Hv. injection Hv as <-. cbn [rv_row trim set_row_tokens row_num_tokens row_num_tokens_no_spec] in Hns, Hroom.
  apply wp_bind. eapply wp_update_row; [exact Hr|done|]. apply wp_bind. unfold on_blocks, on_slots. do 2 apply wp_zoom.
  eapply wp_mono; [apply (multi_append_row_spec (max_num_reqs (InputBatch.cfg b))); [apply (so_tables _ _ Hs)|done|exact Hg|exact Hfit]|].
  intros [] ts' Hts. rewrite <- extend_blocks_zip in Hts by (rewrite group_blocks_length; done).
  apply wp_bind, wp_ret. fold spec. set (b1 := set_slots _ _).
  assert (b1 = set_slots (set_block_table ts' (set_rows (<[i := set_row_computed n r]> (rows (slots b))) (slots b))) b) as Hb1 by done.
  destruct spec as [|t spec'] eqn:Hspec.
  - apply wp_ret. rewrite Hb1. eapply advance_intro; try done. unfold add_spec_row. rewrite Z.add_0_r, app_nil_r. done.
  - destruct (write_spec_tokens (set_row_computed n r) (t :: spec') (max_model_len (InputBatch.cfg b))) as (r' & Hr' & Hl' & Hn' & Hlo' & Ht'); [done|apply Hnum|done|done|].
    eapply wp_update_row; [|exact Hr'|].
    { rewrite Hb1. batch_simpl. apply list_lookup_insert_eq. by eapply lookup_lt_Some. }
    rewrite Hb1. batch_simpl. rewrite list_insert_insert_eq. eapply (advance_intro b i id n _ (t :: spec') sh r r'); try done.
    + by rewrite Hl', Hlen.
    + rewrite Hn'. cbn. split; [|done]. pose proof (len_nonneg (t :: spec')). lia.
Qed.
End row.
