(* ===== verification/BatchReorder.v ===== *)
(** [reorder_batch_to_split_decodes_and_prefills] of [v1/attention/backends/utils.py]: it
    rearranges the rows of the batch so that all decodes come before all prefills. *)
From Stdlib Require Import ZArith QArith Lia.
From stdpp Require Import base strings countable gmap sets list relations sorting.
From S2P Require Import Prelude KVCacheSpec SchedulerData Arrays BlockTable BatchUpdate InputBatch InputBatchFacts InputBatchMoves BatchReplay ModelRunner.
Local Open Scope Z_scope.

(** A processor that follows one batch also follows the other. *)
Definition follows_to (b b' : InputBatch) (T T' : gmap string (BatchParams * list_ref)) : Prop :=
  ∀ (V : Type) (entry : BatchParams → list_ref → option V) d, follows entry d T b → follows entry d T' b'.
Lemma follows_to_trans b1 b2 b3 T1 T2 T3 : follows_to b1 b2 T1 T2 → follows_to b2 b3 T2 T3 → follows_to b1 b3 T1 T3.
Proof. intros H1 H2 V entry d Hf. by apply H2, H1. Qed.

Lemma dom_shown b : batch_ok b → dom (shown b) = dom (req_id_to_index b).
Proof.
  intros Hb. apply set_eq. intros id. rewrite !elem_of_dom. destruct (req_id_to_index b !! id) as [i|] eqn:Hi.
  - destruct (row_view_Some _ _ _ (bo_slots _ Hb) (occupied_lt _ _ _ _ (bo_slots _ Hb) (proj1 (bo_index _ Hb id i) Hi))) as [v Hv].
    rewrite (shown_lookup b id i v Hi Hv). split; by eexists.
  - rewrite shown_None by done. split; by intros [].
Qed.

(** * Rearranged rows *)
Record rearranged T b b' : Prop := {
  re_dense : batch_dense b';
  re_cfg : InputBatch.cfg b' = InputBatch.cfg b;
  re_ids : _req_ids (slots b') ≡ₚ _req_ids (slots b);
  re_tables : tables_frame (block_table (slots b)) (block_table (slots b'));
  re_shown : shown b' = shown b;
  re_follows : follows_to b b' T T
}.
Lemma rearranged_refl T b : batch_dense b → rearranged T b b.
Proof. intros Hb. split; try done; [apply tables_frame_refl|by intros V entry d]. Qed.
Lemma rearranged_trans T b1 b2 b3 : rearranged T b1 b2 → rearranged T b2 b3 → rearranged T b1 b3.
Proof.
  intros [A1 A2 A3 A4 A5 A6] [B1 B2 B3 B4 B5 B6].
  split; [done|congruence|by rewrite B3|by eapply tables_frame_trans|congruence|by eapply follows_to_trans].
Qed.

(** ** Exchanging two entries of a list *)
Lemma swap_insert_perm {A} (l : list A) i j x y : l !! i = Some x → l !! j = Some y → <[j := x]> (<[i := y]> l) ≡ₚ l.
Proof.
  intros Hi Hj. destruct (decide (i = j)) as [->|Hij].
  - assert (x = y) as -> by congruence. by rewrite list_insert_insert_eq, list_insert_id.
  - apply Permutation_inj. split; [by rewrite !length_insert|].
    exists (λ k, if decide (k = i) then j else if decide (k = j) then i else k). split.
    + intros k1 k2. cbv beta. repeat case_decide; intros; congruence.
    + intros k. cbv beta. pose proof (lookup_lt_Some _ _ _ Hi). pose proof (lookup_lt_Some _ _ _ Hj).
      repeat case_decide; subst.
      * rewrite list_lookup_insert_ne, list_lookup_insert_eq by done. done.
      * rewrite list_lookup_insert_eq by (by rewrite length_insert). done.
      * by rewrite !list_lookup_insert_ne by done.
Qed.

Lemma rearranged_swap T b i j id1 id2 b' :
  batch_dense b → _req_ids (slots b) !! i = Some (Some id1) → _req_ids (slots b) !! j = Some (Some id2) →
  swapped_requests b i j id1 id2 b' → rearranged T b b'.
Proof.
  intros [Hb Hd] Hi Hj Hs. pose proof Hs as [S1 S2 S3 S4 S5 S6 S7]. pose proof (swap_insert_perm _ _ _ _ _ Hi Hj) as Hp.
  split; [split; [done|]|done|by rewrite S4|done|done|].
  - rewrite S4. intros k Hk. assert (None ∈ _req_ids (slots b)) as [k' Hk']%list_elem_of_lookup_1; [|by apply (Hd k')].
    rewrite <- Hp. by eapply list_elem_of_lookup_2.
  - intros V entry d Hf. exact (follows_swap entry d T b i j id1 id2 b' Hf Hi Hj Hs).
Qed.

(** * The order *)
Section order.
Context (nd : nat) (is_decode : string → bool).
Definition decode_row (e : option string) : bool := match e with Some id => is_decode id | None => false end.

Implicit Types (ids : list (option string)) (Ds Ps : list nat).

(** The decodes behind and the prefills before the border are still to be exchanged: [Ds]
    has the former, from the back, and [Ps] the latter, from the front. *)
Record unsorted ids Ds Ps : Prop := {
  us_behind : ∀ i e, (nd <= i)%nat → ids !! i = Some e → decode_row e = true → i ∈ Ds;
  us_before : ∀ i e, (i < nd)%nat → ids !! i = Some e → decode_row e = false → i ∈ Ps;
  us_decodes : ∀ i, i ∈ Ds → ∃ e, ids !! i = Some e ∧ decode_row e = true;
  us_prefills : ∀ i, i ∈ Ps → ∃ e, ids !! i = Some e ∧ decode_row e = false;
  us_descending : StronglySorted (flip lt) Ds;
  us_ascending : StronglySorted lt Ps;
  us_count : len (filter (λ e, decode_row e = true) ids) = Z.of_nat nd
}.

Definition decodes_first ids : Prop := ∀ i e, ids !! i = Some e → decode_row e = true ↔ (i < nd)%nat.

Lemma decodes_split ids :
  len (filter (λ e, decode_row e = true) ids) = len (filter (λ e, decode_row e = true) (take nd ids)) + len (filter (λ e, decode_row e = true) (drop nd ids)).
Proof. rewrite <- len_app, <- filter_app, take_drop. done. Qed.
Lemma filter_none {A} (P : A → Prop) `{∀ x, Decision (P x)} (l : list A) : (∀ x, x ∈ l → ¬ P x) → filter P l = [].
Proof. intros H0. induction l as [|x l IH]; [done|]. rewrite filter_cons_False by (apply H0; by left). apply IH. intros y Hy. apply H0. by right. Qed.
Lemma filter_len_le {A} (P : A → Prop) `{∀ x, Decision (P x)} (l : list A) : len (filter P l) <= len l.
Proof. unfold len. pose proof (length_filter P l). lia. Qed.

(** Nothing is left to exchange. *)
Lemma none_behind ids : len (filter (λ e, decode_row e = true) ids) = Z.of_nat nd →
  (∀ i e, (nd <= i)%nat → ids !! i = Some e → decode_row e = false) → decodes_first ids.
Proof.
  intros Hc Hb. rewrite decodes_split, (filter_none _ (drop nd ids)) in Hc.
  2: { intros e [i Hi]%list_elem_of_lookup_1 He. rewrite lookup_drop in Hi. rewrite (Hb (nd + i)%nat e) in He by (done || lia). done. }
  intros i e Hi. split; [intros He; destruct (decide (i < nd)%nat); [done|]; rewrite (Hb i e) in He by (done || lia); done|].
  intros Hlt. destruct (decode_row e) eqn:He; [done|exfalso].
  pose proof (len_filter_split (λ e, decode_row e = true) (take nd ids)) as Hs. change (len (@nil (option string))) with 0 in Hc.
  assert (e ∈ filter (λ e, ¬ decode_row e = true) (take nd ids)) as Hel.
  { apply list_elem_of_filter. split; [by rewrite He|]. apply list_elem_of_lookup_2 with i. by rewrite lookup_take_lt. }
  assert (len (take nd ids) <= Z.of_nat nd) by (unfold len; rewrite length_take; lia).
  apply list_elem_of_lookup_1 in Hel as [k Hk]. apply lookup_lt_Some in Hk. unfold len in *. lia.
Qed.
Lemma none_before ids : len (filter (λ e, decode_row e = true) ids) = Z.of_nat nd → (nd <= length ids)%nat →
  (∀ i e, (i < nd)%nat → ids !! i = Some e → decode_row e = true) → decodes_first ids.
Proof.
  intros Hc Hlen Hb. apply none_behind; [done|]. intros i e Hi He. destruct (decode_row e) eqn:Hd; [exfalso|done].
  rewrite decodes_split, (list_filter_id _ (take nd ids)) in Hc.
  2: { intros x [k Hk]%list_elem_of_lookup_1. apply lookup_take_Some in Hk as [Hk Hlt]. by eapply Hb. }
  assert (e ∈ filter (λ e, decode_row e = true) (drop nd ids)) as Hel.
  { apply list_elem_of_filter. split; [done|]. apply list_elem_of_lookup_2 with (i - nd)%nat. rewrite lookup_drop. by replace (nd + (i - nd))%nat with i by lia. }
  apply list_elem_of_lookup_1 in Hel as [k Hk]. apply lookup_lt_Some in Hk. unfold len in *. rewrite length_take in Hc. lia.
Qed.

Lemma count_le ids : len (filter (λ e, decode_row e = true) ids) = Z.of_nat nd → (nd <= length ids)%nat.
Proof. intros H. pose proof (filter_len_le (λ e, decode_row e = true) ids). unfold len in *. lia. Qed.

Lemma unsorted_front ids d p Ds Ps : unsorted ids (d :: Ds) (p :: Ps) → (nd <= d)%nat → (p < nd)%nat.
Proof.
  intros [U1 U2 U3 U4 U5 U6 U7] Hd. destruct (decide (p < nd)%nat) as [|Hp]; [done|exfalso].
  apply StronglySorted_inv in U6 as [_ Hp6]. rewrite Forall_forall in Hp6.
  assert (decodes_first ids) as Hdf.
  { apply none_before; [done|by apply count_le|]. intros i e Hi He. destruct (decode_row e) eqn:Hde; [done|exfalso].
    pose proof (U2 i e Hi He Hde) as Hin. apply elem_of_cons in Hin as [->|Hin]; [lia|]. pose proof (Hp6 i Hin). lia. }
  destruct (U3 d ltac:(by left)) as (e & He & Hdec). pose proof (proj1 (Hdf d e He) Hdec). lia.
Qed.

Lemma unsorted_step ids d p Ds Ps e1 e2 :
  unsorted ids (d :: Ds) (p :: Ps) → (nd <= d)%nat → ids !! p = Some e1 → ids !! d = Some e2 →
  unsorted (<[d := e1]> (<[p := e2]> ids)) Ds Ps.
Proof.
  intros HU Hnd Hp Hd. pose proof (unsorted_front _ _ _ _ _ HU Hnd) as Hpn. destruct HU as [U1 U2 U3 U4 U5 U6 U7].
  destruct (U3 d ltac:(by left)) as (e & He & Hdec). destruct (U4 p ltac:(by left)) as (e' & He' & Hpre).
  assert (e = e2) as -> by congruence. assert (e' = e1) as -> by congruence.
  pose proof (lookup_lt_Some _ _ _ Hp) as Hlp. pose proof (lookup_lt_Some _ _ _ Hd) as Hld.
  assert (∀ i, <[d := e1]> (<[p := e2]> ids) !! i = if decide (i = d) then Some e1 else if decide (i = p) then Some e2 else ids !! i) as Hl.
  { intros i. destruct (decide (i = d)) as [->|]; [by rewrite list_lookup_insert_eq by (by rewrite length_insert)|]. rewrite list_lookup_insert_ne by done.
    destruct (decide (i = p)) as [->|]; [by rewrite list_lookup_insert_eq|by rewrite list_lookup_insert_ne by done]. }
  apply StronglySorted_inv in U5 as [U5 Hd5]. apply StronglySorted_inv in U6 as [U6 Hp6]. rewrite Forall_forall in Hd5, Hp6.
  split; [| | | |done|done|].
  - intros i e Hi. rewrite Hl. repeat case_decide; intros Hie Hd'; [congruence|lia|].
    pose proof (U1 i e Hi Hie Hd') as Hin. by apply elem_of_cons in Hin as [->|].
  - intros i e Hi. rewrite Hl. repeat case_decide; intros Hie Hd'; [lia|congruence|].
    pose proof (U2 i e Hi Hie Hd') as Hin. by apply elem_of_cons in Hin as [->|].
  - intros i Hi. rewrite Hl. destruct (U3 i ltac:(by right)) as (x & Hx & Hdx). pose proof (Hd5 i Hi) as Hlt. cbn in Hlt.
    rewrite decide_False by lia. rewrite decide_False by (intros ->; congruence). by exists x.
  - intros i Hi. rewrite Hl. destruct (U4 i ltac:(by right)) as (x & Hx & Hdx). pose proof (Hp6 i Hi) as Hlt.
    rewrite decide_False by (intros ->; congruence). rewrite decide_False by lia. by exists x.
  - rewrite <- U7. unfold len. f_equal. apply Permutation_length, filter_Permutation, swap_insert_perm; done.
Qed.

Lemma unsorted_done ids d Ds Ps : unsorted ids (d :: Ds) Ps → (d < nd)%nat → decodes_first ids.
Proof.
  intros [U1 U2 U3 U4 U5 U6 U7] Hd. apply none_behind; [done|]. intros i e Hi He. destruct (decode_row e) eqn:Hde; [|done].
  apply StronglySorted_inv in U5 as [_ Hd5]. rewrite Forall_forall in Hd5.
  pose proof (U1 i e Hi He Hde) as Hin. apply elem_of_cons in Hin as [->|Hin]; [lia|]. pose proof (Hd5 i Hin) as Hlt. cbn in Hlt. lia.
Qed.
Lemma unsorted_no_decodes ids Ps : unsorted ids [] Ps → decodes_first ids.
Proof.
  intros [U1 _ _ _ _ _ U7]. apply none_behind; [done|]. intros i e Hi He. destruct (decode_row e) eqn:Hde; [|done]. by apply (U1 i e), not_elem_of_nil in Hde.
Qed.
Lemma unsorted_no_prefills ids Ds : unsorted ids Ds [] → decodes_first ids.
Proof.
  intros [_ U2 _ _ _ _ U7]. apply none_before; [done|by apply count_le|]. intros i e Hi He. destruct (decode_row e) eqn:Hde; [done|]. by apply (U2 i e), not_elem_of_nil in Hde.
Qed.

(** The loop. *)
Lemma wp_swap_pairs T Ds Ps b :
  batch_dense b → unsorted (_req_ids (slots b)) Ds Ps →
  wp (swap_pairs nd (zip Ds Ps)) (λ _ b', rearranged T b b' ∧ decodes_first (_req_ids (slots b'))) b.
Proof.
  revert Ps b. induction Ds as [|d Ds IH]; intros Ps b Hb HU.
  { apply wp_ret. split; [by apply rearranged_refl|by eapply unsorted_no_decodes]. }
  destruct Ps as [|p Ps]; [apply wp_ret; split; [by apply rearranged_refl|by eapply unsorted_no_prefills]|].
  cbn [zip zip_with swap_pairs]. case_decide as Hd; [apply wp_ret; split; [by apply rearranged_refl|by eapply unsorted_done]|].
  destruct (us_decodes _ _ _ HU d ltac:(by left)) as (e2 & He2 & Hd2). destruct (us_prefills _ _ _ HU p ltac:(by left)) as (e1 & He1 & _).
  destruct e1 as [id1|]; [|by destruct (proj2 Hb p)]. destruct e2 as [id2|]; [|by destruct (proj2 Hb d)].
  apply wp_bind. eapply wp_mono; [by apply wp_swap_states; [apply Hb| |]|]. intros [] b' Hs.
  pose proof (rearranged_swap T b p d id1 id2 b' Hb He1 He2 Hs) as Hr. apply wp_bind. eapply wp_mono.
  - apply (IH Ps); [apply Hr|]. rewrite (sw_ids _ _ _ _ _ _ Hs). eapply unsorted_step; [exact HU|lia|done|done].
  - intros x b'' [Hr' Hdf]. apply wp_ret. split; [by eapply rearranged_trans|done].
Qed.
End order.

(** * The function *)
Section reorder.
Context (o : SchedulerOutput) (threshold : Z).
Definition is_decode_of (id : string) : bool := match scheduled_count o id with Ok c => bool_decide (c <= threshold) | Raise _ => false end.

Section indices.
Context (P : nat * Z → Prop) `{∀ p, Decision (P p)}.
Lemma elem_of_indices k (counts : list Z) i :
  i ∈ (filter P (zip (seq k (length counts)) counts)).*1 ↔ ∃ c, (k <= i)%nat ∧ counts !! (i - k)%nat = Some c ∧ P (i, c).
Proof.
  rewrite list_elem_of_fmap. split.
  - intros ([j c] & -> & [HP [x Hx]%list_elem_of_lookup_1]%list_elem_of_filter). apply lookup_zip_Some in Hx as [[-> Hlt]%lookup_seq Hc].
    exists c. cbn. split_and!; [lia| |done]. by replace (k + x - k)%nat with x by lia.
  - intros (c & Hk & Hc & HP). exists (i, c). split; [done|]. apply list_elem_of_filter. split; [done|]. apply list_elem_of_lookup_2 with (i - k)%nat.
    apply lookup_zip_Some. split; [|done]. apply lookup_seq. apply lookup_lt_Some in Hc. lia.
Qed.
Lemma indices_sorted k (counts : list Z) : StronglySorted lt (filter P (zip (seq k (length counts)) counts)).*1.
Proof.
  revert k. induction counts as [|c counts IH]; intros k; [constructor|]. cbn [length seq zip zip_with].
  destruct (decide (P (k, c))); [rewrite filter_cons_True by done|rewrite filter_cons_False by done; apply IH]. cbn [fmap list_fmap]. constructor; [apply IH|].
  apply Forall_forall. intros i (? & ? & _)%elem_of_indices. cbn. lia.
Qed.
End indices.

Lemma sorted_reverse (l : list nat) : StronglySorted lt l → StronglySorted (flip lt) (reverse l).
Proof.
  induction 1 as [|x l _ IH Hx]; [constructor|]. rewrite reverse_cons. clear -IH Hx. rewrite Forall_forall in Hx.
  assert (∀ y, y ∈ reverse l → x < y)%nat as Hr by (intros y Hy; apply Hx; by rewrite elem_of_reverse in Hy). clear Hx. revert IH Hr. generalize (reverse l) as k.
  induction k as [|y k IHk]; intros Hs Hr; cbn; [repeat constructor|]. apply StronglySorted_inv in Hs as [Hs Hy]. constructor.
  - apply IHk; [done|]. intros z Hz. apply Hr. by right.
  - apply Forall_app. split; [done|]. apply Forall_singleton. cbn. apply Hr. by left.
Qed.

Lemma decode_rows_counted (ids : list (option string)) counts k :
  Forall2 (λ e c, decode_row is_decode_of e = bool_decide (c <= threshold)) ids counts →
  length (filter (λ p : nat * Z, p.2 <= threshold) (zip (seq k (length counts)) counts)) = length (filter (λ e, decode_row is_decode_of e = true) ids).
Proof.
  intros Hf. revert k. induction Hf as [|e c ids counts He _ IH]; intros k; [done|]. cbn [length seq zip zip_with].
  destruct (decide (c <= threshold)) as [Hc|Hc].
  - rewrite filter_cons_True by done. rewrite filter_cons_True by (rewrite He; by apply bool_decide_eq_true). cbn. f_equal. apply IH.
  - rewrite filter_cons_False by done. rewrite filter_cons_False by (rewrite He; by apply not_true_iff_false, bool_decide_eq_false). apply IH.
Qed.

(** The rows are all scheduled; the decodes are those with at most [threshold] tokens. *)
Lemma wp_reorder T b (names : list string) counts :
  batch_dense b → req_id_list b = Ok names → mapM (scheduled_count o) names = Ok counts →
  wp (reorder_batch_to_split_decodes_and_prefills o threshold)
    (λ _ b', rearranged T b b' ∧ ∃ nd, decodes_first nd is_decode_of (_req_ids (slots b'))) b.
Proof.
  intros Hb Hnames Hcounts. unfold reorder_batch_to_split_decodes_and_prefills. apply wp_bind, wp_get, wp_bind. eapply wp_lift_outcome; [exact Hnames|].
  apply wp_bind. eapply wp_lift_outcome; [exact Hcounts|].
  set (indexed := zip (seq 0 (length counts)) counts).
  set (Ds := (filter (λ p, p.2 <= threshold) indexed).*1). set (Ps := (filter (λ p, ¬ p.2 <= threshold) indexed).*1).
  assert (Forall2 (λ e c, decode_row is_decode_of e = bool_decide (c <= threshold)) (_req_ids (slots b)) counts) as Hf.
  { apply mapM_Ok_inv in Hnames, Hcounts. eapply Forall2_trans; [|exact Hnames|exact Hcounts].
    intros [id|] id' c; [|done]. intros [= <-] Hc. cbn. unfold is_decode_of. by rewrite Hc. }
  assert (∀ i e c, _req_ids (slots b) !! i = Some e → counts !! i = Some c → decode_row is_decode_of e = bool_decide (c <= threshold)) as Hrow.
  { intros i e c He Hc. by apply (Forall2_lookup_lr _ _ _ i e c Hf). }
  assert (∀ i e, _req_ids (slots b) !! i = Some e → ∃ c, counts !! i = Some c) as Hcs.
  { intros i e He. destruct (Forall2_lookup_l _ _ _ _ _ Hf He) as (c & Hc & _). by exists c. }
  eapply wp_mono; [apply (wp_swap_pairs (length Ds) is_decode_of T (reverse Ds) Ps b Hb)|].
  - split.
    + intros i e _ He Hd. destruct (Hcs i e He) as [c Hc]. apply elem_of_reverse, elem_of_indices. exists c. rewrite Nat.sub_0_r. split_and!; [lia|done|].
      rewrite (Hrow i e c He Hc) in Hd. by apply bool_decide_eq_true in Hd.
    + intros i e _ He Hd. destruct (Hcs i e He) as [c Hc]. apply elem_of_indices. exists c. rewrite Nat.sub_0_r. split_and!; [lia|done|].
      rewrite (Hrow i e c He Hc) in Hd. by apply bool_decide_eq_false in Hd.
    + intros i Hi. rewrite elem_of_reverse in Hi. apply elem_of_indices in Hi as (c & _ & Hc & HP). rewrite Nat.sub_0_r in Hc.
      destruct (Forall2_lookup_r _ _ _ _ _ Hf Hc) as (e & He & Hd). exists e. split; [done|]. rewrite Hd. by apply bool_decide_eq_true.
    + intros i Hi. apply elem_of_indices in Hi as (c & _ & Hc & HP). rewrite Nat.sub_0_r in Hc.
      destruct (Forall2_lookup_r _ _ _ _ _ Hf Hc) as (e & He & Hd). exists e. split; [done|]. rewrite Hd. by apply bool_decide_eq_false.
    + apply sorted_reverse, indices_sorted.
    + apply indices_sorted.
    + unfold len. rewrite <- (decode_rows_counted _ counts 0 Hf). unfold Ds. by rewrite length_fmap.
  - intros x b' [Hr Hd]. split; [done|]. by eexists.
Qed.

(** A batch that is in order is left alone. *)
Lemma wp_reorder_again b (names : list string) counts nd :
  req_id_list b = Ok names → mapM (scheduled_count o) names = Ok counts → decodes_first nd is_decode_of (_req_ids (slots b)) →
  wp (reorder_batch_to_split_decodes_and_prefills o threshold) (λ modified b', modified = false ∧ b' = b) b.
Proof.
  intros Hnames Hcounts Hd. unfold reorder_batch_to_split_decodes_and_prefills. apply wp_bind, wp_get, wp_bind. eapply wp_lift_outcome; [exact Hnames|].
  apply wp_bind. eapply wp_lift_outcome; [exact Hcounts|].
  set (Ds := (filter (λ p, p.2 <= threshold) (zip (seq 0 (length counts)) counts)).*1). set (Ps := (filter _ _).*1).
  assert (Forall2 (λ e c, decode_row is_decode_of e = bool_decide (c <= threshold)) (_req_ids (slots b)) counts) as Hf.
  { apply mapM_Ok_inv in Hnames, Hcounts. eapply Forall2_trans; [|exact Hnames|exact Hcounts].
    intros [id|] id' c; [|done]. intros [= <-] Hc. cbn. unfold is_decode_of. by rewrite Hc. }
  assert (∀ i, i ∈ Ds ↔ (i < nd)%nat ∧ (i < length counts)%nat) as Hin.
  { intros i. unfold Ds. rewrite elem_of_indices, Nat.sub_0_r. split.
    - intros (c & _ & Hc & HP). destruct (Forall2_lookup_r _ _ _ _ _ Hf Hc) as (e & He & Hde). split; [|by eapply lookup_lt_Some].
      apply (Hd i e He). rewrite Hde. by apply bool_decide_eq_true.
    - intros [Hi [c Hc]%lookup_lt_is_Some_2]. destruct (Forall2_lookup_r _ _ _ _ _ Hf Hc) as (e & He & Hde). exists c. split_and!; [lia|done|].
      apply (Hd i e He) in Hi. rewrite Hde in Hi. by apply bool_decide_eq_true in Hi. }
  destruct (reverse Ds) as [|d Ds'] eqn:Hr; [by apply wp_ret|]. destruct Ps as [|p Ps']; [by apply wp_ret|].
  assert (d ∈ Ds) as Hdin by (rewrite <- elem_of_reverse, Hr; by left). apply Hin in Hdin as [Hdn Hdc]. cbn [zip zip_with swap_pairs].
  rewrite decide_True; [by apply wp_ret|]. assert (seq 0 (S d) ⊆+ Ds) as Hsub.
  { apply NoDup_submseteq; [apply NoDup_ListNoDup, seq_NoDup|]. intros i Hi%elem_of_seq. apply Hin. lia. }
  apply submseteq_length in Hsub. by rewrite length_seq in Hsub.
Qed.
End reorder.
