(* ===== verification/UpdateStates.v ===== *)
(** [_update_states] of [v1/worker/gpu_model_runner.py]: after it the persistent batch holds
    exactly the requests that are scheduled, each as its cached state says. *)
From Stdlib Require Import ZArith QArith Lia.
From stdpp Require Import base strings countable gmap sets list relations.
From S2P Require Import Prelude Request KVCacheSpec SchedulerData Arrays BlockTable BatchUpdate InputBatch InputBatchFacts InputBatchMoves BatchReplay ModelRunner BatchRows BatchReorder.
Local Open Scope Z_scope.

Definition request_table (reqs : gmap string CachedRequestState) : gmap string (BatchParams * list_ref) :=
  (λ r, (params_of r, output_ref r)) <$> reqs.

Section update.
Context (to_float32 : Q → Q) (cfg : RunnerConfig).
Context (worker_params : RequestParams → BatchParams) (new_generator : RequestParams → option handle).
Implicit Types (s : RunnerState) (b : InputBatch) (o : SchedulerOutput) (id : string).

(** * Removing requests *)
Record pruned b0 (R : gset string) T b : Prop := {
  pr_open : batch_open b;
  pr_sorted : _is_removed_sorted (batch_update_builder b) = false;
  pr_moved : b_moved (batch_update_builder b) = [];
  pr_cfg : InputBatch.cfg b = InputBatch.cfg b0;
  pr_index : ∀ id, req_id_to_index b !! id = if decide (id ∈ R) then None else req_id_to_index b0 !! id;
  pr_shown : ∀ id, shown b !! id = if decide (id ∈ R) then None else shown b0 !! id;
  pr_tables : block_table (slots b) = block_table (slots b0);
  pr_follows : follows_to b0 b T T;
  pr_masks : masks_follow (params_in T) b0 → masks_follow (params_in T) b
}.

Lemma pruned_step b0 R T b id i b' : pruned b0 R T b → req_id_to_index b !! id = Some i → removed_request b id i b' → pruned b0 (R ∪ {[id]}) T b'.
Proof.
  intros [P1 P2 P3 P4 P5 P6 P7 P8 P9] Hi Hr. pose proof Hr as [R1 R2 R3 R4 R5 R6 R7 _].
  split; [done| | |congruence| | |congruence| |intros Hm; by eapply masks_follow_remove; [| | |apply P9]].
  - by rewrite R2.
  - by rewrite R2.
  - intros id'. rewrite R5. destruct (decide (id' = id)) as [->|Hne]; [rewrite lookup_delete_eq, decide_True by set_solver; done|].
    rewrite lookup_delete_ne, P5 by done. destruct (decide (id' ∈ R)); [by rewrite decide_True by set_solver|by rewrite decide_False by set_solver].
  - intros id'. rewrite R6. destruct (decide (id' = id)) as [->|Hne]; [rewrite lookup_delete_eq, decide_True by set_solver; done|].
    rewrite lookup_delete_ne, P6 by done. destruct (decide (id' ∈ R)); [by rewrite decide_True by set_solver|by rewrite decide_False by set_solver].
  - intros V entry d Hf. eapply follows_remove; [by apply P8|done| |exact Hr]. by apply (bo_index _ (proj1 P1)).
Qed.
Lemma pruned_absent b0 R T b id : pruned b0 R T b → req_id_to_index b !! id = None → pruned b0 (R ∪ {[id]}) T b.
Proof.
  intros [P1 P2 P3 P4 P5 P6 P7 P8 P9] Hi. split; try done.
  - intros id'. rewrite P5. destruct (decide (id' ∈ R)); [by rewrite decide_True by set_solver|].
    destruct (decide (id' = id)) as [->|]; [|by rewrite decide_False by set_solver]. rewrite decide_True by set_solver. rewrite P5, decide_False in Hi; done.
  - intros id'. rewrite P6. destruct (decide (id' ∈ R)); [by rewrite decide_True by set_solver|].
    destruct (decide (id' = id)) as [->|]; [|by rewrite decide_False by set_solver]. rewrite decide_True by set_solver.
    rewrite P5, decide_False in Hi by done. by apply shown_None.
Qed.

Lemma wp_remove_all b0 R T l s Q :
  pruned b0 R T (input_batch s) → (∀ b', pruned b0 (R ∪ list_to_set l) T b' → Q tt (set_input_batch b' s)) →
  wp (for_each l remove_from_batch) Q s.
Proof.
  revert R s. induction l as [|id l IH]; intros R s Hp HQ; cbn [for_each].
  - apply wp_ret. replace s with (set_input_batch (input_batch s) s) by by destruct s. apply HQ. by rewrite list_to_set_nil, union_empty_r_L.
  - unfold remove_from_batch at 1, on_batch. apply wp_bind, wp_bind, wp_zoom.
    destruct (req_id_to_index (input_batch s) !! id) as [i|] eqn:Hi.
    + eapply wp_mono; [by apply wp_remove_request; [apply Hp|apply Hp|]|]. intros x b' [_ Hr]. apply wp_ret.
      apply (IH (R ∪ {[id]})); [by eapply pruned_step|]. intros b2 H2. cbn. apply HQ. cbn. by rewrite union_assoc_L.
    + apply wp_remove_absent; [done|]. apply wp_ret. apply (IH (R ∪ {[id]})); [by apply pruned_absent|]. intros b2 H2. cbn. apply HQ. cbn. by rewrite union_assoc_L.
Qed.

Lemma pruned_init s T : batch_dense (input_batch s) → batch_update_builder (input_batch s) = BatchUpdateBuilder_init → pruned (input_batch s) ∅ T (input_batch s).
Proof.
  intros [Hok Hd] Hb. split.
  - split; [done|]. rewrite Hb. split; [constructor|]. intros i. split; [by intros ?%not_elem_of_nil|]. intros Hi. by destruct (Hd i).
  - by rewrite Hb.
  - by rewrite Hb.
  - done.
  - intros id. by rewrite decide_False by set_solver.
  - intros id. by rewrite decide_False by set_solver.
  - done.
  - by intros V entry d.
  - done.
Qed.

(** * Adding requests *)
Record extended b0 (A : gmap string CachedRequestState) T b : Prop := {
  ex_open : batch_open b;
  ex_moved : b_moved (batch_update_builder b) = [];
  ex_cfg : InputBatch.cfg b = InputBatch.cfg b0;
  ex_index : dom (req_id_to_index b) = dom (req_id_to_index b0) ∪ dom A;
  ex_shown : ∀ id, shown b !! id = match A !! id with Some r => Some (request_shown to_float32 (InputBatch.cfg b0) r) | None => shown b0 !! id end;
  ex_tables : tables_frame (block_table (slots b0)) (block_table (slots b));
  ex_follows : follows_to b0 b T T;
  ex_masks : masks_follow (params_in T) b0 → masks_follow (params_in T) b
}.

(** What a request needs of a batch of a given configuration and width. *)
Record request_valid (c : BatchConfig) (ts : MultiGroupBlockTable) (request : CachedRequestState) : Prop := {
  rv_tokens : (length (prompt_token_ids request) + length (output_token_ids request) <= max_model_len c)%nat;
  rv_groups : length (block_ids request) = length ts;
  rv_fit : ∀ g t l, ts !! g = Some t → block_ids request !! g = Some l → len l <= Z.of_nat (max_num_blocks_per_req t);
  rv_vocab : 0 <= vocab_size c;
  rv_params : match params_of request with
    | Sampling p => ∀ t ids, allowed_token_ids p = Some ids → t ∈ ids → - vocab_size c <= t < vocab_size c
    | Pooling _ => True
    | NoParams => False
    end;
  rv_lora : ∀ l, lora_request request = Some l → lora_int_id l ≠ 0
}.

Lemma request_valid_frame c ts ts' r : tables_frame ts ts' → request_valid c ts r → request_valid c ts' r.
Proof.
  intros Hf [V1 V2 V3 V4 V5 V6]. split; try done.
  - rewrite V2. by eapply Forall2_length.
  - intros g t' l Ht' Hl. destruct (Forall2_lookup_r _ _ _ _ _ Hf Ht') as (t & Ht & Htf). rewrite (tf_width _ _ Htf). by eapply V3.
Qed.
Lemma request_valid_fits b request :
  request_valid (InputBatch.cfg b) (block_table (slots b)) request → req_id_to_index b !! req_id request = None → (num_reqs b < max_num_reqs (InputBatch.cfg b))%nat →
  request_fits b request.
Proof. intros [] ? ?. by split. Qed.

Lemma extended_step b0 A T b r i b' :
  extended b0 A T b → A !! req_id r = None → req_id_to_index b !! req_id r = None → T !! req_id r = Some (params_of r, output_ref r) →
  added_request to_float32 b r i b' → extended b0 (<[req_id r := r]> A) T b'.
Proof.
  intros [E1 E2 E3 E4 E5 E6 E7 E8] HA Hi HT Ha. pose proof Ha as [A1 A2 A3 A4 A5 A6 A7 A8 A9 A10 _].
  split; [done|congruence|congruence| | | | |intros Hm; eapply masks_follow_add; [|exact Ha|unfold params_in; by rewrite HT|done|by apply E8]; done].
  - rewrite A8, !dom_insert_L, E4. set_solver.
  - intros id. rewrite A10. destruct (decide (id = req_id r)) as [->|Hne]; [by rewrite !lookup_insert_eq, E3|]. by rewrite !lookup_insert_ne, E5 by done.
  - by eapply tables_frame_trans.
  - intros V entry d Hf. replace T with (<[req_id r := (params_of r, output_ref r)]> T) by by apply insert_id.
    eapply follows_add; [by apply E7|done|done|done|exact Ha].
Qed.

Lemma wp_get_request s id r Q : requests s !! id = Some r → Q r s → wp (get_request id) Q s.
Proof. intros Hr HQ. unfold get_request, dict_get. apply wp_bind, wp_get. eapply wp_lift_outcome; [by rewrite Hr|done]. Qed.
Lemma wp_add_to_batch s id r Q :
  requests s !! id = Some r → wp (add_request to_float32 r) (λ _ b', Q tt (set_input_batch b' s)) (input_batch s) → wp (add_to_batch to_float32 id) Q s.
Proof.
  intros Hr Hw. unfold add_to_batch. apply wp_bind. eapply wp_get_request; [exact Hr|]. apply wp_bind. unfold on_batch. apply wp_zoom.
  eapply wp_mono; [exact Hw|]. intros i b' HQ. by apply wp_ret.
Qed.

Lemma wp_add_all b0 A l s Q :
  extended b0 A (request_table (requests s)) (input_batch s) → NoDup l →
  (∀ id, id ∈ l → req_id_to_index (input_batch s) !! id = None ∧ A !! id = None ∧
     ∃ r, requests s !! id = Some r ∧ req_id r = id ∧ request_valid (InputBatch.cfg b0) (block_table (slots b0)) r) →
  (num_reqs (input_batch s) + length l <= max_num_reqs (InputBatch.cfg b0))%nat →
  (∀ A' b', extended b0 A' (request_table (requests s)) b' → (∀ id, A' !! id = if decide (id ∈ l) then requests s !! id else A !! id) → Q tt (set_input_batch b' s)) →
  wp (for_each l (add_to_batch to_float32)) Q s.
Proof.
  revert A s. induction l as [|id l IH]; intros A s He Hnd Hin Hroom HQ; cbn [for_each].
  - apply wp_ret. replace s with (set_input_batch (input_batch s) s) by by destruct s. by eapply HQ.
  - apply NoDup_cons in Hnd as [Hid Hnd]. destruct (Hin id) as (Hi & HA & r & Hr & <- & Hv); [by left|].
    apply wp_bind. eapply wp_add_to_batch; [exact Hr|]. eapply wp_mono.
    { apply wp_add_request; [apply He|]. apply request_valid_fits; [|done|rewrite (ex_cfg _ _ _ _ He); cbn in Hroom; lia].
      rewrite (ex_cfg _ _ _ _ He). eapply request_valid_frame; [apply He|done]. }
    intros i b' Ha. pose proof (ar_index _ _ _ _ _ Ha) as Hix.
    assert (num_reqs b' = S (num_reqs (input_batch s))) as Hsz by (unfold num_reqs; rewrite Hix; by apply map_size_insert_None).
    apply (IH (<[req_id r := r]> A)); cbn [input_batch set_input_batch requests].
    + eapply extended_step; [done|done|done| |exact Ha]. unfold request_table. by rewrite lookup_fmap, Hr.
    + done.
    + intros id' Hid'. assert (id' ≠ req_id r) by (intros ->; done). rewrite Hix, !lookup_insert_ne by done. apply Hin. by right.
    + rewrite Hsz. cbn in Hroom. lia.
    + intros A' b2 H2 HA'. apply (HQ A'); [exact H2|]. intros id'. rewrite HA'. destruct (decide (id' ∈ l)) as [Hl|Hl]; [by rewrite decide_True by by right|].
      destruct (decide (id' = req_id r)) as [->|Hne]; [rewrite lookup_insert_eq, decide_True by (by left); by rewrite Hr|].
      rewrite lookup_insert_ne, decide_False by (rewrite ?elem_of_cons; naive_solver). done.
Qed.

(** * The scheduler's output *)
Abbreviation new_ids o := (new_req_id <$> scheduled_new_reqs o).
Abbreviation cached_ids o := (req_ids (scheduled_cached_reqs o)).
Definition spec_of o id : list Z := default [] (scheduled_spec_decode_tokens o !! id).

(** The drafts that are written to the batch: a request without a row is added without its
    drafts. *)
Definition written o s id : list Z :=
  match req_id_to_index (input_batch s) !! id with Some _ => spec_of o id | None => [] end.

(** The cached state of a request that is scheduled, from the state [s] before the step. *)
Definition cached_update o s (j : nat) id r : Prop :=
  ∃ r0 n blocks resumed, requests s !! id = Some r0 ∧ cached_num_computed_tokens (scheduled_cached_reqs o) !! j = Some n ∧
    new_block_ids (scheduled_cached_reqs o) !! j = Some blocks ∧ resumed_from_preemption (scheduled_cached_reqs o) !! j = Some resumed ∧
    r = set_cached_blocks (if resumed : bool then blocks else extend_blocks (block_ids r0) blocks) (set_cached_computed n r0).
Definition scheduled_state o s id r : Prop :=
  (∃ new ref, new ∈ scheduled_new_reqs o ∧ new_req_id new = id ∧ r = new_request_state worker_params new_generator new ref) ∨
  (∃ j, cached_ids o !! j = Some id ∧ cached_update o s j id r).

(** What the worker relies on: the output is about different requests, the running ones are
    known and the new ones are not, a resumed request has left the batch, and what is
    scheduled fits. *)
Definition reorders_agree : Prop := ∀ g threshold, (0 < g < length (rc_kv_cache_groups cfg))%nat →
  rc_decode_threshold cfg g = Some threshold → rc_decode_threshold cfg 0 = Some threshold.
Record update_ok o s : Prop := {
  uk_nodup : NoDup (new_ids o ++ cached_ids o);
  uk_keys : ∀ id, id ∈ (num_scheduled_tokens o).*1 ↔ id ∈ new_ids o ++ cached_ids o;
  uk_finished : ∀ id, id ∈ out_finished_req_ids o → id ∉ cached_ids o;
  uk_new : ∀ id, id ∈ new_ids o → requests s !! id = None ∨ id ∈ out_finished_req_ids o;
  uk_tasks : ∀ new p, new ∈ scheduled_new_reqs o → worker_params (new_params new) = Pooling p → is_Some (task p);
  uk_cached : ∀ id, id ∈ cached_ids o → is_Some (requests s !! id);
  uk_computed : length (cached_num_computed_tokens (scheduled_cached_reqs o)) = length (cached_ids o);
  uk_blocks : length (new_block_ids (scheduled_cached_reqs o)) = length (cached_ids o);
  uk_flags : length (resumed_from_preemption (scheduled_cached_reqs o)) = length (cached_ids o);
  uk_resumed : ∀ j id, cached_ids o !! j = Some id → resumed_from_preemption (scheduled_cached_reqs o) !! j = Some true →
    req_id_to_index (input_batch s) !! id = None;
  uk_spec : ∀ id, spec_of o id ≠ [] → id ∈ cached_ids o;
  uk_room : (length (new_ids o ++ cached_ids o) <= max_num_reqs (InputBatch.cfg (input_batch s)))%nat;
  uk_groups : ∀ j blocks, new_block_ids (scheduled_cached_reqs o) !! j = Some blocks → length blocks = length (block_table (slots (input_batch s)));
  uk_order : reorders_agree;
  uk_fits : ∀ id r, scheduled_state o s id r → request_valid (InputBatch.cfg (input_batch s)) (block_table (slots (input_batch s))) r ∧
    cached_num_tokens r + len (spec_of o id) <= Z.of_nat (max_model_len (InputBatch.cfg (input_batch s)))
}.

(** What is kept for an identifier is what its request asks for; the log-probabilities of
    the prompt are asked for until they are complete, and have a row for each of its
    tokens but the first. *)
Record identifier_shows (c : BatchConfig) r (iv : IdView) : Prop := {
  is_flags : iv_flags iv = iv_flags (request_shown to_float32 c r).2;
  is_logprobs : iv_logprobs iv = iv_logprobs (request_shown to_float32 c r).2;
  is_pooling : iv_pooling iv = iv_pooling (request_shown to_float32 c r).2;
  is_prompt : iv_prompt_logprobs iv = iv_prompt_logprobs (request_shown to_float32 c r).2 ∨ iv_prompt_logprobs iv = None;
  is_progress : ∀ ts, iv_in_progress iv = Some ts → length ts = pred (length (prompt_token_ids r))
}.
Lemma identifier_shown c r : identifier_shows c r (request_shown to_float32 c r).2.
Proof. split; [done|done|done|by left|]. unfold request_shown. by destruct (params_of r). Qed.
Lemma identifier_shows_ext c r r' iv : params_of r' = params_of r → prompt_token_ids r' = prompt_token_ids r → identifier_shows c r iv → identifier_shows c r' iv.
Proof.
  intros Hp Ht [H1 H2 H3 H4 H5].
  assert ((request_shown to_float32 c r').2 = (request_shown to_float32 c r).2) as He by (unfold request_shown; rewrite Hp; by destruct (params_of r)).
  split; rewrite ?He, ?Ht; done.
Qed.

(** The rows of the batch show the cached requests. *)
Record runner_ok s : Prop := {
  rk_batch : batch_dense (input_batch s);
  rk_builder : batch_update_builder (input_batch s) = BatchUpdateBuilder_init;
  rk_ids : ∀ id r, requests s !! id = Some r → req_id r = id;
  rk_rows : ∀ id sh, shown (input_batch s) !! id = Some sh →
    ∃ r, requests s !! id = Some r ∧ sh.1 = (request_shown to_float32 (InputBatch.cfg (input_batch s)) r).1;
  rk_views : ∀ id sh r, shown (input_batch s) !! id = Some sh → requests s !! id = Some r →
    identifier_shows (InputBatch.cfg (input_batch s)) r sh.2
}.

Lemma cached_update_exists o s j id : update_ok o s → cached_ids o !! j = Some id → ∃ r, cached_update o s j id r.
Proof.
  intros Ho Hj. pose proof (lookup_lt_Some _ _ _ Hj) as Hlt. destruct (uk_cached _ _ Ho id (list_elem_of_lookup_2 _ _ _ Hj)) as [r0 Hr0].
  destruct (lookup_lt_is_Some_2 (cached_num_computed_tokens (scheduled_cached_reqs o)) j) as [n Hn]; [by rewrite (uk_computed _ _ Ho)|].
  destruct (lookup_lt_is_Some_2 (new_block_ids (scheduled_cached_reqs o)) j) as [bl Hbl]; [by rewrite (uk_blocks _ _ Ho)|].
  destruct (lookup_lt_is_Some_2 (resumed_from_preemption (scheduled_cached_reqs o)) j) as [f Hf]; [by rewrite (uk_flags _ _ Ho)|].
  eexists. by exists r0, n, bl, f.
Qed.

(** ** New requests *)
Definition new_known o s s' : Prop :=
  (∀ id, id ∈ new_ids o → ∃ r, scheduled_state o s id r ∧ requests s' !! id = Some r) ∧ (∀ id, (id ∉ new_ids o) → requests s' !! id = requests s !! id) ∧
  ∃ R L, s' = set_requests R (set_output_lists L s) ∧ output_lists s ⊆ L.

Lemma wp_add_new_requests o s Q :
  NoDup (new_ids o) → (∀ new p, new ∈ scheduled_new_reqs o → worker_params (new_params new) = Pooling p → is_Some (task p)) →
  (∀ s', new_known o s s' → Q tt s') → wp (for_each (scheduled_new_reqs o) (add_new_request worker_params new_generator)) Q s.
Proof.
  intros Hnd Htask HQ. apply wp_for_each with (I := λ done _ s',
    (∀ id, id ∈ new_req_id <$> done → ∃ r, scheduled_state o s id r ∧ requests s' !! id = Some r) ∧
    (∀ id, (id ∉ new_req_id <$> done) → requests s' !! id = requests s !! id) ∧ ∃ R L, s' = set_requests R (set_output_lists L s) ∧ output_lists s ⊆ L).
  - split_and!; [by intros id ?%not_elem_of_nil|done|]. exists (requests s), (output_lists s). by destruct s.
  - intros done new todo s' Hsplit (H1 & H2 & R & L & -> & HL). unfold add_new_request.
    apply wp_bind, (wp_mono _ (λ _ s1, s1 = set_requests R (set_output_lists L s))).
    { destruct (worker_params (new_params new)) as [p|p|] eqn:Hp; [by apply wp_ret| |by apply wp_ret]. apply wp_assert; [|done].
      apply bool_decide_eq_true, (Htask new); [|done]. rewrite Hsplit. apply elem_of_app. right. by left. }
    intros _ s1 ->. apply wp_bind, wp_get, wp_bind, wp_modify, wp_modify.
    set (ref := fresh (dom L)). cbn [requests set_requests output_lists set_output_lists] in *.
    rewrite Hsplit, fmap_app in Hnd. apply NoDup_app in Hnd as (_ & Hdisj & _).
    assert (new_req_id new ∉ new_req_id <$> done) as Hnew.
    { intros Hin. apply (Hdisj _ Hin). cbn. by left. }
    split_and!.
    + intros id. rewrite fmap_app, elem_of_app. cbn [fmap list_fmap]. rewrite list_elem_of_singleton. intros [Hid| ->].
      * destruct (H1 id Hid) as (r & Hr & Hl). exists r. split; [done|]. rewrite lookup_insert_ne; [done|]. intros <-. done.
      * eexists. split; [|apply lookup_insert_eq]. left. exists new, ref. split_and!; [|done|done]. rewrite Hsplit. apply elem_of_app. right. by left.
    + intros id. rewrite fmap_app, not_elem_of_app. cbn [fmap list_fmap]. rewrite list_elem_of_singleton. intros [Hid Hne]. rewrite lookup_insert_ne by done. by apply H2.
    + exists (<[new_req_id new := new_request_state worker_params new_generator new ref]> R), (<[ref := []]> L). split; [done|].
      etransitivity; [exact HL|]. apply insert_subseteq, not_elem_of_dom, is_fresh.
  - intros s' H. by apply HQ.
Qed.

(** ** Running and resumed requests *)
Lemma request_shown_row c r :
  row_num_tokens (rv_row (request_shown to_float32 c r).1) = cached_num_tokens r ∧
  row_num_tokens_no_spec (rv_row (request_shown to_float32 c r).1) = cached_num_tokens r ∧
  rv_blocks (request_shown to_float32 c r).1 = block_ids r.
Proof. unfold request_shown. by destruct (params_of r). Qed.

Lemma extend_blocks_lookup (l k : list (list Z)) g x y : l !! g = Some x → k !! g = Some y → extend_blocks l k !! g = Some (x ++ y).
Proof.
  revert k g. induction l as [|a l IH]; intros [|b k] [|g] Hx Hy; try done; cbn in *; [by injection Hx as ->; injection Hy as ->|by apply IH].
Qed.

(** The batch after the first [k] of them. *)
Record rows_advanced o s0 (k : nat) b b' : Prop := {
  ra_ok : batch_ok b';
  ra_builder : batch_update_builder b' = batch_update_builder b;
  ra_cfg : InputBatch.cfg b' = InputBatch.cfg b;
  ra_index : req_id_to_index b' = req_id_to_index b;
  ra_ids : _req_ids (slots b') = _req_ids (slots b);
  ra_tables : tables_frame (block_table (slots b)) (block_table (slots b'));
  ra_views : ∀ id, snd <$> shown b' !! id = snd <$> shown b !! id;
  ra_others : ∀ id, (id ∉ take k (cached_ids o)) → shown b' !! id = shown b !! id;
  ra_rows : ∀ j id sh r, (j < k)%nat → cached_ids o !! j = Some id → shown b !! id = Some sh → cached_update o s0 j id r →
    fst <$> shown b' !! id = Some (with_spec (spec_of o id) (request_shown to_float32 (InputBatch.cfg b) r).1);
  ra_masks : ∀ i, mask_row b' i = mask_row b i
}.

(** One of them, in a batch in which it has a row. *)
Lemma advance_fits o b id i n blocks r0 sh :
  let r := set_cached_blocks (extend_blocks (block_ids r0) blocks) (set_cached_computed n r0) in
  batch_ok b → req_id_to_index b !! id = Some i → shown b !! id = Some sh → sh.1 = (request_shown to_float32 (InputBatch.cfg b) r0).1 →
  request_valid (InputBatch.cfg b) (block_table (slots b)) r → length blocks = length (block_table (slots b)) →
  cached_num_tokens r + len (spec_of o id) <= Z.of_nat (max_model_len (InputBatch.cfg b)) →
  ∃ v, row_fits b i blocks (spec_of o id) v.
Proof.
  intros r Hb Hi Hsh Heq Hv Hg Hroom. pose proof (occupied_lt _ _ _ _ (bo_slots _ Hb) (proj1 (bo_index _ Hb id i) Hi)) as Hmax.
  destruct (row_view_Some _ _ _ (bo_slots _ Hb) Hmax) as [v Hview]. exists v.
  rewrite (shown_lookup b id i v Hi Hview) in Hsh. injection Hsh as <-. cbn [fst] in Heq.
  destruct (visible_tokens (id_view (sets b) (dicts b) id) v) as (T1 & T2 & T3 & _). rewrite Heq in T1, T2, T3.
  destruct (request_shown_row (InputBatch.cfg b) r0) as (S1 & S2 & S3). rewrite S1 in T1. rewrite S2 in T2. rewrite S3 in T3.
  split; [done|congruence|rewrite <- T1; exact Hroom|done|].
  intros g t bl Ht Hbl. assert (rv_blocks v = group_blocks (block_table (slots b)) i) as Hgb.
  { unfold row_view in Hview. destruct (rows (slots b) !! i); [|done]. by injection Hview as <-. }
  assert (block_ids r0 !! g = Some (row_blocks t i)) as Hr0g by (rewrite T3, Hgb; unfold group_blocks; by rewrite list_lookup_fmap, Ht).
  pose proof (rv_fit _ _ _ Hv g t (row_blocks t i ++ bl) Ht) as Hfit. rewrite <- len_app. apply Hfit. cbn. by apply extend_blocks_lookup.
Qed.

Lemma rows_advanced_step o s0 k b b' id n blocks r0 sh b'' :
  let r := set_cached_blocks (extend_blocks (block_ids r0) blocks) (set_cached_computed n r0) in
  NoDup (cached_ids o) → rows_advanced o s0 k b b' → cached_ids o !! k = Some id → (∀ r', cached_update o s0 k id r' → r' = r) →
  shown b' !! id = Some sh → sh.1 = (request_shown to_float32 (InputBatch.cfg b) r0).1 →
  advanced_row b' id n blocks (spec_of o id) sh b'' → rows_advanced o s0 (S k) b b''.
Proof.
  intros r Hnd [R1 R2 R3 R4 R5 R6 RV R7 R8 RM] Hk Hr Hsh Heq [A1 A2 A3 A4 A5 A6 A7 AM].
  split; [done|congruence|congruence|congruence|congruence|by eapply tables_frame_trans| | | |intros i; by rewrite AM].
  - intros id'. rewrite <- RV, A7. destruct (decide (id' = id)) as [->|Hne]; [by rewrite lookup_insert_eq, Hsh|by rewrite lookup_insert_ne].
  - intros id' Hid'. rewrite (take_S_r _ _ _ Hk), not_elem_of_app, list_elem_of_singleton in Hid'. destruct Hid' as [Hid' Hne].
    rewrite A7, lookup_insert_ne by done. by apply R7.
  - intros j id' sh' r' Hj Hj' Hsh' Hr'. rewrite A7. destruct (decide (j = k)) as [->|Hjk].
    + assert (id' = id) as -> by congruence. rewrite lookup_insert_eq. cbn [fmap option_fmap option_map fst]. rewrite (Hr r' Hr'), Heq.
      by rewrite request_shown_advanced.
    + assert (id' ≠ id) as Hne by (intros ->; apply Hjk; by eapply NoDup_lookup). rewrite lookup_insert_ne by done. apply (R8 j id' sh' r'); [lia|done..].
Qed.
Lemma rows_advanced_absent o s0 k b b' id :
  rows_advanced o s0 k b b' → cached_ids o !! k = Some id → req_id_to_index b !! id = None → rows_advanced o s0 (S k) b b'.
Proof.
  intros [R1 R2 R3 R4 R5 R6 RV R7 R8 RM] Hk Hid. split; try done.
  - intros id' Hid'. rewrite (take_S_r _ _ _ Hk), not_elem_of_app, list_elem_of_singleton in Hid'. apply R7, Hid'.
  - intros j id' sh' r' Hj Hj' Hsh' Hr'. destruct (decide (j = k)) as [->|Hjk]; [|apply (R8 j id' sh' r'); [lia|done..]].
    assert (id' = id) as -> by congruence. by rewrite shown_None in Hsh'.
Qed.
Lemma cached_update_unique o s j id r r' : cached_update o s j id r → cached_update o s j id r' → r = r'.
Proof. intros (r0 & n & bl & f & H1 & H2 & H3 & H4 & ->) (r1 & n1 & bl1 & f1 & H5 & H6 & H7 & H8 & ->). by simplify_eq. Qed.

Lemma wp_update_cached s id r f Q :
  requests s !! id = Some r → Q tt (set_requests (<[id := f r]> (requests s)) s) → wp (update_request id f) Q s.
Proof. intros Hr HQ. unfold update_request. apply wp_bind. eapply wp_get_request; [exact Hr|]. by apply wp_modify. Qed.

(** The body of the loop: the request's state, and its row if it has one. *)
Lemma wp_update_cached_request o s e r0 Q :
  let r := set_cached_blocks (if ce_resumed e then ce_new_block_ids e else extend_blocks (block_ids r0) (ce_new_block_ids e))
             (set_cached_computed (ce_num_computed_tokens e) r0) in
  let s1 := set_requests (<[ce_id e := r]> (requests s)) s in
  rc_is_last_rank cfg = true → requests s !! ce_id e = Some r0 →
  match req_id_to_index (input_batch s) !! ce_id e with
  | None => Q true s1
  | Some i => wp (update_batch_row cfg o e i) (λ _ b', Q false (set_input_batch b' s1)) (input_batch s)
  end → wp (update_cached_request cfg o e) Q s.
Proof.
  intros r s1 Hlast Hr HQ. unfold update_cached_request. apply wp_bind. eapply wp_update_cached; [exact Hr|].
  apply wp_bind. unfold update_cached_output. rewrite Hlast. apply wp_ret.
  apply wp_bind. eapply wp_update_cached; [apply lookup_insert_eq|]. cbn [requests set_requests]. rewrite insert_insert_eq.
  apply wp_bind, wp_get. cbn [input_batch set_requests]. destruct (req_id_to_index (input_batch s) !! ce_id e) as [i|]; [|by apply wp_ret].
  apply wp_bind. unfold on_batch. apply wp_zoom. eapply wp_mono; [exact HQ|]. intros [] b' H. by apply wp_ret.
Qed.

(** What the loop has done to the requests and to the batch. *)
Record cached_known o s0 s2 (k : nat) (acc : list string) s' : Prop := {
  ck_acc : acc = new_ids o ++ filter (λ id, req_id_to_index (input_batch s2) !! id = None) (take k (cached_ids o));
  ck_done : ∀ j id, (j < k)%nat → cached_ids o !! j = Some id → ∃ r, cached_update o s0 j id r ∧ requests s' !! id = Some r;
  ck_others : ∀ id, (id ∉ take k (cached_ids o)) → requests s' !! id = requests s2 !! id;
  ck_batch : rows_advanced o s0 k (input_batch s2) (input_batch s');
  ck_frame : s' = set_requests (requests s') (set_input_batch (input_batch s') s2)
}.

Lemma cached_entry_ok o s j id : rc_is_last_rank cfg = true → update_ok o s → cached_ids o !! j = Some id →
  ∃ n bl f, cached_entry cfg (scheduled_cached_reqs o) j id = Ok (mkCachedEntry id n bl f []) ∧
    cached_num_computed_tokens (scheduled_cached_reqs o) !! j = Some n ∧ new_block_ids (scheduled_cached_reqs o) !! j = Some bl ∧
    resumed_from_preemption (scheduled_cached_reqs o) !! j = Some f.
Proof.
  intros Hlast Ho Hj. pose proof (lookup_lt_Some _ _ _ Hj) as Hlt.
  destruct (lookup_lt_is_Some_2 (cached_num_computed_tokens (scheduled_cached_reqs o)) j) as [n Hn]; [by rewrite (uk_computed _ _ Ho)|].
  destruct (lookup_lt_is_Some_2 (new_block_ids (scheduled_cached_reqs o)) j) as [bl Hbl]; [by rewrite (uk_blocks _ _ Ho)|].
  destruct (lookup_lt_is_Some_2 (resumed_from_preemption (scheduled_cached_reqs o)) j) as [f Hf]; [by rewrite (uk_flags _ _ Ho)|].
  exists n, bl, f. unfold cached_entry. rewrite (array_get_Some _ _ _ Hn), (array_get_Some _ _ _ Hbl), (array_get_Some _ _ _ Hf), Hlast. done.
Qed.

Section cached_loop.
Context (o : SchedulerOutput) (s0 s2 : RunnerState).
Hypothesis Hlast : rc_is_last_rank cfg = true.
Hypothesis Ho : update_ok o s0.
Hypothesis Hok : batch_ok (input_batch s2).
Hypothesis Hcfg : InputBatch.cfg (input_batch s2) = InputBatch.cfg (input_batch s0).
Hypothesis Htables : block_table (slots (input_batch s2)) = block_table (slots (input_batch s0)).
Hypothesis Hindex : ∀ id, id ∈ cached_ids o → req_id_to_index (input_batch s2) !! id = req_id_to_index (input_batch s0) !! id.
Hypothesis Hreqs : ∀ id, id ∈ cached_ids o → requests s2 !! id = requests s0 !! id.
Hypothesis Hrows : ∀ id sh, shown (input_batch s2) !! id = Some sh →
  ∃ r, requests s0 !! id = Some r ∧ sh.1 = (request_shown to_float32 (InputBatch.cfg (input_batch s2)) r).1.

Lemma cached_nodup : NoDup (cached_ids o).
Proof. pose proof (uk_nodup _ _ Ho) as H. by apply NoDup_app in H as (_ & _ & H). Qed.

Lemma wp_cached_step k id acc s' :
  cached_known o s0 s2 k acc s' → cached_ids o !! k = Some id →
  wp (e ← lift_outcome (cached_entry cfg (scheduled_cached_reqs o) k id); add ← update_cached_request cfg o e; mret (if add : bool then acc ++ [id] else acc))
    (λ acc' s'', cached_known o s0 s2 (S k) acc' s'') s'.
Proof.
  intros [K1 K2 K3 K4 K5] Hk. destruct (cached_entry_ok o s0 k id Hlast Ho Hk) as (n & bl & f & He & Hn & Hbl & Hf).
  pose proof (list_elem_of_lookup_2 _ _ _ Hk) as Hin.
  assert (id ∉ take k (cached_ids o)) as Hnew.
  { intros [j Hj]%list_elem_of_lookup_1. apply lookup_take_Some in Hj as [Hj Hlt]. pose proof (NoDup_lookup _ _ _ _ cached_nodup Hj Hk). lia. }
  destruct (uk_cached _ _ Ho id Hin) as [r0 Hr0].
  assert (requests s' !! id = Some r0) as Hr' by (rewrite K3, Hreqs by done; done).
  set (r := set_cached_blocks (if f then bl else extend_blocks (block_ids r0) bl) (set_cached_computed n r0)).
  assert (cached_update o s0 k id r) as Hupd by by exists r0, n, bl, f.
  assert (∀ s'' acc', rows_advanced o s0 (S k) (input_batch s2) (input_batch s'') → requests s'' = <[id := r]> (requests s') →
    s'' = set_requests (requests s'') (set_input_batch (input_batch s'') s2) →
    acc' = new_ids o ++ filter (λ id, req_id_to_index (input_batch s2) !! id = None) (take (S k) (cached_ids o)) → cached_known o s0 s2 (S k) acc' s'') as Hfinish.
  { intros s'' acc' Hra Hreq Hfr Hacc. split; [done| | |done|done].
    - intros j id' Hj Hj'. rewrite Hreq. destruct (decide (j = k)) as [->|Hjk].
      + assert (id' = id) as -> by congruence. exists r. by rewrite lookup_insert_eq.
      + rewrite lookup_insert_ne; [apply (K2 j); [lia|done]|]. intros <-. apply Hjk. by eapply NoDup_lookup; [exact cached_nodup| |].
    - intros id' Hid'. rewrite (take_S_r _ _ _ Hk), not_elem_of_app, list_elem_of_singleton in Hid'. destruct Hid' as [Hid' Hne].
      rewrite Hreq, lookup_insert_ne by done. by apply K3. }
  apply wp_bind. eapply wp_lift_outcome; [exact He|]. apply wp_bind. eapply wp_update_cached_request; [done|exact Hr'|].
  cbn [ce_id ce_resumed ce_new_block_ids ce_num_computed_tokens]. fold r.
  rewrite (ra_index _ _ _ _ _ K4). destruct (req_id_to_index (input_batch s2) !! id) as [i|] eqn:Hi.
  - assert (f = false) as ->.
    { destruct f; [|done]. pose proof (uk_resumed _ _ Ho k id Hk Hf) as Hres. rewrite Hindex in Hi by done. congruence. }
    assert (req_id_to_index (input_batch s') !! id = Some i) as Hi' by by rewrite (ra_index _ _ _ _ _ K4).
    destruct (row_view_Some _ _ _ (bo_slots _ Hok) (occupied_lt _ _ _ _ (bo_slots _ Hok) (proj1 (bo_index _ Hok id i) Hi))) as [v0 Hv0].
    pose proof (shown_lookup _ id i v0 Hi Hv0) as Hsh. destruct (Hrows id _ Hsh) as (r0' & Hr0' & Hsheq). assert (r0' = r0) as -> by congruence.
    pose proof Hsh as Hsh'. rewrite <- (ra_others _ _ _ _ _ K4 id Hnew) in Hsh'.
    assert (scheduled_state o s0 id r) as Hsched by (right; by exists k).
    destruct (uk_fits _ _ Ho id r Hsched) as [Hval Hroom].
    destruct (advance_fits o (input_batch s') id i n bl r0 _ (ra_ok _ _ _ _ _ K4) Hi' Hsh') as [v Hfits].
    { by rewrite (ra_cfg _ _ _ _ _ K4). }
    { rewrite (ra_cfg _ _ _ _ _ K4), Hcfg. eapply request_valid_frame; [apply (ra_tables _ _ _ _ _ K4)|]. by rewrite Htables. }
    { rewrite (uk_groups _ _ Ho k bl Hbl), <- Htables. by eapply Forall2_length, (ra_tables _ _ _ _ _ K4). }
    { rewrite (ra_cfg _ _ _ _ _ K4), Hcfg. exact Hroom. }
    eapply wp_mono; [eapply (wp_update_batch_row cfg o _ i id); [done|apply (ra_ok _ _ _ _ _ K4)|exact Hi'|exact Hsh'|exact Hfits]|].
    intros [] b'' Hadv. apply wp_ret. apply Hfinish; cbn [requests set_requests input_batch set_input_batch].
    + eapply (rows_advanced_step o s0 k (input_batch s2) (input_batch s') id n bl r0); [exact cached_nodup|exact K4|exact Hk| |exact Hsh'|exact Hsheq|exact Hadv].
      intros r' Hr2. by eapply cached_update_unique.
    + done.
    + rewrite K5. by destruct s2.
    + rewrite K1, (take_S_r _ _ _ Hk), filter_app, filter_cons_False, filter_nil, app_nil_r by congruence. done.
  - apply wp_ret. apply Hfinish; cbn [requests set_requests input_batch set_input_batch].
    + by eapply rows_advanced_absent.
    + done.
    + rewrite K5. by destruct s2.
    + rewrite K1, (take_S_r _ _ _ Hk), filter_app, filter_cons_True, filter_nil, app_assoc by done. done.
Qed.

Lemma wp_update_cached_all Q :
  (∀ acc s', cached_known o s0 s2 (length (cached_ids o)) acc s' → Q acc s') →
  wp (fold_each (zip (seq 0 (length (cached_ids o))) (cached_ids o)) (new_ids o)
    (λ ids '(i, id), e ← lift_outcome (cached_entry cfg (scheduled_cached_reqs o) i id); add ← update_cached_request cfg o e;
      mret (if add : bool then ids ++ [id] else ids))) Q s2.
Proof.
  intros HQ. apply wp_fold_each with (I := λ done _ acc s', cached_known o s0 s2 (length done) acc s').
  - cbn [length]. split; [by rewrite take_0, filter_nil, app_nil_r|lia|done| |by destruct s2].
    split; try done; [apply tables_frame_refl|lia].
  - intros done [k id] todo acc s' Hsplit HK. apply Arrays.zip_seq_split in Hsplit as [-> Hk]. rewrite length_app, Nat.add_1_r. by apply wp_cached_step.
  - intros acc s' HK. rewrite length_zip_with, length_seq, Nat.min_id in HK. by apply HQ.
Qed.
End cached_loop.

(** ** The step as a whole *)
Definition freed (E : gmap string (gmap Z (list Embedding))) (e : string * Z) : gmap string (gmap Z (list Embedding)) :=
  match E !! e.1 with
  | None => E
  | Some outputs => if decide (delete e.2 outputs = ∅) then delete e.1 E else <[e.1 := delete e.2 outputs]> E
  end.
Definition encoder_after o (E : gmap string (gmap Z (list Embedding))) : gmap string (gmap Z (list Embedding)) :=
  foldl freed (foldl (λ E id, delete id E) E (elements (out_finished_req_ids o))) (free_encoder_input_ids o).

Lemma wp_forget_finished l s Q :
  (∀ R, (∀ id, R !! id = if decide (id ∈ l) then None else requests s !! id) →
    Q tt (set_requests R (set_encoder_cache (foldl (λ E id, delete id E) (encoder_cache s) l) s))) →
  wp (for_each l (λ id, modify (λ s, set_requests (delete id (requests s)) s) ;; modify (λ s, set_encoder_cache (delete id (encoder_cache s)) s))) Q s.
Proof.
  revert s. induction l as [|id l IH]; intros s HQ; cbn [for_each].
  - apply wp_ret. specialize (HQ (requests s)). destruct s. apply HQ. intros id. by rewrite decide_False by apply not_elem_of_nil.
  - apply wp_bind, wp_bind, wp_modify, wp_modify. apply IH. intros R HR. apply HQ. intros id'. rewrite HR. cbn [requests set_encoder_cache set_requests].
    destruct (decide (id' ∈ l)); [by rewrite decide_True by by right|]. destruct (decide (id' = id)) as [->|].
    + by rewrite lookup_delete_eq, decide_True by by left.
    + rewrite lookup_delete_ne by done. by rewrite decide_False by (rewrite elem_of_cons; naive_solver).
Qed.
Lemma wp_free_encoder l s Q : Q tt (set_encoder_cache (foldl freed (encoder_cache s) l) s) → wp (for_each l free_encoder_outputs) Q s.
Proof.
  revert s. induction l as [|[id i] l IH]; intros s HQ; cbn [for_each].
  - apply wp_ret. by destruct s.
  - apply wp_bind. unfold free_encoder_outputs. apply wp_modify.
    assert (set_encoder_cache (freed (encoder_cache s) (id, i)) s = match encoder_cache s !! id with
      | None => s
      | Some outputs => if decide (delete i outputs = ∅) then set_encoder_cache (delete id (encoder_cache s)) s
                        else set_encoder_cache (<[id := delete i outputs]> (encoder_cache s)) s end) as <-.
    { unfold freed. cbn. destruct (encoder_cache s !! id); [by case_decide|]. by destruct s. }
    apply IH. exact HQ.
Qed.

Lemma with_spec_nil v : with_spec [] v = v.
Proof.
  destruct v as [r ? ? ? ?]. unfold with_spec, set_view_row, add_spec_row. cbn. f_equal. rewrite app_nil_r, Z.add_0_r. by destruct r.
Qed.

(** The rows of the mask of allowed tokens are those of the requests. *)
Definition masks_ok s : Prop := masks_follow (params_in (request_table (requests s))) (input_batch s).
Definition no_reorder : Prop := ∀ g, rc_decode_threshold cfg g = None.

(** What the step leaves. *)
Record states_updated o s s' : Prop := {
  su_requests : ∀ id, id ∈ new_ids o ++ cached_ids o → ∃ r, scheduled_state o s id r ∧ requests s' !! id = Some r;
  su_others : ∀ id, (id ∉ new_ids o ++ cached_ids o) → requests s' !! id = if decide (id ∈ out_finished_req_ids o) then None else requests s !! id;
  su_batch : batch_dense (input_batch s');
  su_builder : batch_update_builder (input_batch s') = BatchUpdateBuilder_init;
  su_cfg : InputBatch.cfg (input_batch s') = InputBatch.cfg (input_batch s);
  su_tables : tables_frame (block_table (slots (input_batch s))) (block_table (slots (input_batch s')));
  su_ids : dom (req_id_to_index (input_batch s')) = list_to_set (new_ids o ++ cached_ids o);
  su_length : length (_req_ids (slots (input_batch s'))) = num_reqs (input_batch s');
  su_rows : ∀ id r, id ∈ new_ids o ++ cached_ids o → requests s' !! id = Some r →
    fst <$> shown (input_batch s') !! id = Some (with_spec (written o s id) (request_shown to_float32 (InputBatch.cfg (input_batch s)) r).1);
  su_views : ∀ id r sh, id ∈ new_ids o ++ cached_ids o → requests s' !! id = Some r → shown (input_batch s') !! id = Some sh →
    identifier_shows (InputBatch.cfg (input_batch s)) r sh.2;
  su_order : ∀ threshold, rc_decode_threshold cfg 0 = Some threshold → rc_kv_cache_groups cfg ≠ [] →
    ∃ nd, decodes_first nd (is_decode_of o threshold) (_req_ids (slots (input_batch s')));
  su_biases : biases_follow (request_table (requests s)) (_req_ids (slots (input_batch s))) (lp_logit_bias (logitsprocs s)) →
    biases_follow (request_table (requests s')) (_req_ids (slots (input_batch s'))) (lp_logit_bias (logitsprocs s'));
  su_masks : no_reorder → masks_ok s → masks_ok s';
  su_encoder : encoder_cache s' = encoder_after o (encoder_cache s);
  su_buffers : buffers s' = buffers s
}.

(** The last two steps: the batch is reordered, and the processors get the changes. *)
Lemma batch_counted o b :
  batch_dense b → (∀ id, id ∈ dom (req_id_to_index b) → id ∈ (num_scheduled_tokens o).*1) →
  ∃ names counts, req_id_list b = Ok names ∧ mapM (scheduled_count o) names = Ok counts.
Proof.
  intros Hb Hk.
  assert (∃ names, req_id_list b = Ok names) as [names Hnames].
  { unfold req_id_list. pose proof (proj2 Hb) as Hd. unfold dense in Hd. revert Hd. generalize (_req_ids (slots b)) as l. induction l as [|e l IH]; intros Hd; [by exists []|].
    destruct e as [id|]; [|by destruct (Hd 0%nat)]. destruct IH as [names Hn]; [intros i; apply (Hd (S i))|]. exists (id :: names). cbn. by rewrite Hn. }
  assert (∃ counts, mapM (scheduled_count o) names = Ok counts) as [counts Hcounts].
  { assert (∀ id, id ∈ names → ∃ c, scheduled_count o id = Ok c) as Hc.
    { intros id [i Hi]%list_elem_of_lookup_1. pose proof (mapM_Ok_inv _ _ _ Hnames) as Hf. destruct (Forall2_lookup_r _ _ _ _ _ Hf Hi) as (e & He & Heq).
      destruct e as [id'|]; [|done]. injection Heq as ->. assert (id ∈ (num_scheduled_tokens o).*1) as Hin.
      { apply Hk, elem_of_dom. exists i. by apply (bo_index _ (proj1 Hb)). }
      unfold scheduled_count. destruct (list_find (λ p, p.1 = id) (num_scheduled_tokens o)) as [[j [id' c]]|] eqn:Hl; [by eexists|].
      apply list_find_None in Hl. rewrite Forall_forall in Hl. apply list_elem_of_fmap in Hin as ([id' c] & -> & Hin). by destruct (Hl _ Hin). }
    clear Hnames. induction names as [|id names IH]; [by exists []|]. destruct (Hc id ltac:(by left)) as [c Hid]. destruct IH as [cs Hcs]; [intros x Hx; apply Hc; by right|].
    exists (c :: cs). cbn. rewrite Hid. cbn. by rewrite Hcs. }
  by exists names, counts.
Qed.
Lemma rearranged_keys T (ks : list string) b b' :
  rearranged T b b' → (∀ id, id ∈ dom (req_id_to_index b) → id ∈ ks) → batch_dense b → ∀ id, id ∈ dom (req_id_to_index b') → id ∈ ks.
Proof. intros [R1 R2 R3 R4 R5 R6] Hk Hb id Hid. apply Hk. rewrite <- dom_shown by apply Hb. rewrite <- R5. by rewrite dom_shown by apply R1. Qed.
Lemma wp_may_reorder T o b :
  batch_dense b → (∀ id, id ∈ dom (req_id_to_index b) → id ∈ (num_scheduled_tokens o).*1) → reorders_agree →
  wp (_may_reorder_batch cfg o) (λ _ b', rearranged T b b' ∧ ∀ threshold, rc_decode_threshold cfg 0 = Some threshold → rc_kv_cache_groups cfg ≠ [] →
    ∃ nd, decodes_first nd (is_decode_of o threshold) (_req_ids (slots b'))) b.
Proof.
  intros Hb Hk Hagree. unfold _may_reorder_batch. destruct (rc_kv_cache_groups cfg) as [|gr grs] eqn:Hgr; [apply wp_ret; by split; [apply rearranged_refl|]|].
  set (Q := λ b', rearranged T b b' ∧ ∀ threshold, rc_decode_threshold cfg 0 = Some threshold → ∃ nd, decodes_first nd (is_decode_of o threshold) (_req_ids (slots b'))).
  apply wp_bind, (wp_mono _ (λ _ b', Q b')).
  { unfold reorder_batch. destruct (rc_decode_threshold cfg 0) as [th|] eqn:Hth; [|apply wp_ret; by split; [apply rearranged_refl|]].
    destruct (batch_counted o b Hb Hk) as (names & counts & Hnames & Hcounts).
    eapply wp_mono; [by apply (wp_reorder o th T b names counts)|]. intros x b' [Hr Hd]. split; [done|]. by intros th' [= <-]. }
  intros _ b1 HQ. apply (wp_mono _ (λ _ b', Q b')); [|intros _ b' [H1 H2]; split; [done|by intros th Hth _; apply H2]].
  apply wp_for_each with (I := λ _ _ b', Q b'); [done| |done]. intros done g todo b2 Hsplit [Hr Hd]. unfold reorder_batch.
  assert (0 < g < length (gr :: grs))%nat as Hg.
  { assert (g ∈ seq 1 (length grs)) as Hin by (rewrite Hsplit; apply elem_of_app; right; by left). apply elem_of_seq in Hin. cbn. lia. }
  apply wp_bind. destruct (rc_decode_threshold cfg g) as [th|] eqn:Hth.
  - rewrite <- Hgr in Hg. pose proof (Hagree g th Hg Hth) as Hth0. destruct (Hd th Hth0) as [nd Hnd].
    destruct (batch_counted o b2) as (names & counts & Hnames & Hcounts); [apply Hr|by eapply rearranged_keys|].
    eapply wp_mono; [by apply (wp_reorder_again o th b2 names counts nd)|]. intros x b3 [-> ->]. by apply wp_assert.
  - apply wp_ret. by apply wp_assert.
Qed.

Lemma wp_refresh T s Q :
  (∀ lp, (follows bias_entry (biases (lp_logit_bias (logitsprocs s))) T (input_batch s) →
      bias_tensors (lp_logit_bias (logitsprocs s)) = bias_rows (biases (lp_logit_bias (logitsprocs s))) →
      biases_follow T (_req_ids (slots (input_batch s))) (lp_logit_bias lp)) →
    Q tt (set_logitsprocs lp (set_input_batch (set_builder BatchUpdateBuilder_init (input_batch s)) s))) →
  wp (refresh_metadata to_float32) Q s.
Proof.
  intros HQ. unfold refresh_metadata, on_batch, take_batch_update, on_builder. apply wp_bind, wp_zoom, wp_bind, wp_gets, wp_zoom.
  set (bd := batch_update_builder (input_batch s)). set (n := num_reqs (input_batch s)).
  assert (∃ u, get_and_reset n bd = (Ok u, mkBuilder [] false [] [])) as [u Hu].
  { unfold get_and_reset. destruct (_removed bd), (b_moved bd), (b_added bd); by eexists. }
  unfold wp. rewrite Hu. apply (HQ (mkLogitsProcs _ _ _)). intros Hf Ht.
  destruct (logit_bias_follows T (input_batch s) (lp_logit_bias (logitsprocs s)) n Hf Ht) as (u' & Hw & Hbf).
  specialize (Hw (λ u2 bd2, u2 = u') eq_refl). fold bd in Hw. unfold wp in Hw. rewrite Hu in Hw. subst u'. exact Hbf.
Qed.

Lemma wp_no_reorder o b Q : no_reorder → Q tt b → wp (_may_reorder_batch cfg o) Q b.
Proof.
  intros Hno HQ. unfold _may_reorder_batch. destruct (rc_kv_cache_groups cfg) as [|gr grs]; [by apply wp_ret|].
  assert (∀ g, reorder_batch cfg o g = mret false) as Hg by (intros g; unfold reorder_batch; by rewrite Hno).
  rewrite Hg. apply wp_bind, wp_ret. apply wp_for_each with (I := λ _ _ b', b' = b); [done| |by intros b' ->].
  intros done g todo b' Hsplit ->. rewrite Hg. by apply wp_bind, wp_ret, wp_assert.
Qed.
Lemma wp_and_if {S A} (P : Prop) (m : M S A) (Q2 Q1 : A → S → Prop) (st : S) :
  wp m Q1 st → (P → wp m Q2 st) → wp m (λ x st', Q1 x st' ∧ (P → Q2 x st')) st.
Proof. unfold wp. by destruct (m st) as [[] ?]. Qed.

(** The batch in which only what is scheduled is left, and the requests that it shows. *)
Section whole.
Context (o : SchedulerOutput) (s0 : RunnerState).
Hypothesis Hlast : rc_is_last_rank cfg = true.
Hypothesis Ho : update_ok o s0.
Hypothesis Hs : runner_ok s0.
Let K : gset string := list_to_set (new_ids o ++ cached_ids o).
Let b0 := input_batch s0.
Let c0 := InputBatch.cfg b0.

Lemma indexed_known id : is_Some (req_id_to_index b0 !! id) → is_Some (requests s0 !! id).
Proof.
  intros Hi. assert (id ∈ dom (shown b0)) as Hd by (rewrite dom_shown by apply (rk_batch _ Hs); by apply elem_of_dom).
  apply elem_of_dom in Hd as [sh Hsh]. destruct (rk_rows _ Hs id sh Hsh) as (r & Hr & _). by exists r.
Qed.

(** Which requests are left after the removals. *)
Lemma removed_ids id : (id ∈ dom (req_id_to_index b0)) → let R := (out_finished_req_ids o ∪ (dom (req_id_to_index b0) ∖ list_to_set (num_scheduled_tokens o).*1)) in
  id ∉ R ↔ id ∈ cached_ids o.
Proof.
  intros Hid R. unfold R. rewrite not_elem_of_union, elem_of_difference, elem_of_list_to_set.
  assert (id ∈ new_ids o → id ∈ out_finished_req_ids o) as Hnew.
  { intros Hn. apply elem_of_dom in Hid. destruct (indexed_known id Hid) as [r Hr]. destruct (uk_new _ _ Ho id Hn) as [Hr'|]; [congruence|done]. }
  split.
  - intros [Hf Hk]. destruct (decide (id ∈ (num_scheduled_tokens o).*1)) as [Hin|Hin]; [|tauto].
    apply (uk_keys _ _ Ho), elem_of_app in Hin as [|]; [by destruct Hf; apply Hnew|done].
  - intros Hc. assert (id ∈ new_ids o ++ cached_ids o) as Ha by (apply elem_of_app; by right). split.
    + intros Hf. by apply (uk_finished _ _ Ho id Hf).
    + intros [_ Hn]. by apply Hn, (uk_keys _ _ Ho).
Qed.

(** The state before requests are added to the batch. *)
Record ready (acc : list string) s : Prop := {
  rd_acc : acc = new_ids o ++ filter (λ id, req_id_to_index b0 !! id = None) (cached_ids o);
  rd_requests : ∀ id, id ∈ new_ids o ++ cached_ids o → ∃ r, scheduled_state o s0 id r ∧ requests s !! id = Some r;
  rd_others : ∀ id, (id ∉ new_ids o ++ cached_ids o) → requests s !! id = if decide (id ∈ out_finished_req_ids o) then None else requests s0 !! id;
  rd_open : batch_open (input_batch s);
  rd_moved : b_moved (batch_update_builder (input_batch s)) = [];
  rd_cfg : InputBatch.cfg (input_batch s) = c0;
  rd_index : ∀ id, req_id_to_index (input_batch s) !! id = if decide (id ∈ cached_ids o) then req_id_to_index b0 !! id else None;
  rd_tables : tables_frame (block_table (slots b0)) (block_table (slots (input_batch s)));
  rd_rows : ∀ id r, is_Some (req_id_to_index (input_batch s) !! id) → requests s !! id = Some r →
    fst <$> shown (input_batch s) !! id = Some (with_spec (spec_of o id) (request_shown to_float32 c0 r).1);
  rd_views : ∀ id, is_Some (req_id_to_index (input_batch s) !! id) → snd <$> shown (input_batch s) !! id = snd <$> shown b0 !! id;
  rd_follows : follows_to b0 (input_batch s) (request_table (requests s0)) (request_table (requests s));
  rd_masks : masks_ok s0 → masks_ok s;
  rd_logits : logitsprocs s = logitsprocs s0;
  rd_encoder : encoder_cache s = encoder_after o (encoder_cache s0);
  rd_buffers : buffers s = buffers s0
}.

Lemma scheduled_state_table id r : scheduled_state o s0 id r → id ∈ cached_ids o → 
  ∃ r0, requests s0 !! id = Some r0 ∧ params_of r = params_of r0 ∧ output_ref r = output_ref r0 ∧ req_id r = id ∧
    prompt_token_ids r = prompt_token_ids r0.
Proof.
  intros [(new & ref & Hn & Hid & ->)|(j & Hj & r0 & n & bl & f & Hr0 & _ & _ & _ & ->)] Hc.
  - pose proof (uk_nodup _ _ Ho) as Hnd. apply NoDup_app in Hnd as (_ & Hdisj & _). exfalso. apply (Hdisj id); [|done]. apply list_elem_of_fmap. by exists new.
  - exists r0. pose proof (rk_ids _ Hs id r0 Hr0). done.
Qed.
Lemma scheduled_state_id id r : scheduled_state o s0 id r → req_id r = id.
Proof.
  intros [(new & ref & Hn & Hid & ->)|(j & Hj & r0 & n & bl & f & Hr0 & _ & _ & _ & ->)]; [done|]. by apply (rk_ids _ Hs id r0).
Qed.

(** Up to there. *)
Lemma pruned_rows R b : (∀ id, id ∈ dom (req_id_to_index b0) → id ∈ R ↔ id ∉ cached_ids o) → pruned b0 R (request_table (requests s0)) b →
  (∀ id, req_id_to_index b !! id = if decide (id ∈ cached_ids o) then req_id_to_index b0 !! id else None) ∧
  (∀ id, shown b !! id = if decide (id ∈ cached_ids o) then shown b0 !! id else None).
Proof.
  intros HR [_ _ _ _ P5 P6 _ _ _]. split; intros id.
  - rewrite P5. destruct (req_id_to_index b0 !! id) as [i|] eqn:Hi; [|by repeat case_decide]. specialize (HR id). rewrite elem_of_dom, Hi in HR.
    specialize (HR ltac:(by eexists)). destruct (decide (id ∈ cached_ids o)); [by rewrite decide_False by tauto|by rewrite decide_True by tauto].
  - rewrite P6. destruct (shown b0 !! id) as [sh|] eqn:Hi; [|by repeat case_decide].
    assert (id ∈ dom (req_id_to_index b0)) as Hd by (rewrite <- dom_shown by apply (rk_batch _ Hs); apply elem_of_dom; by eexists).
    specialize (HR id Hd). destruct (decide (id ∈ cached_ids o)); [by rewrite decide_False by tauto|by rewrite decide_True by tauto].
Qed.

(** The requests known before the loop over the running ones. *)
Record cleared b s : Prop := {
  cl_batch : input_batch s = b;
  cl_new : ∀ id, id ∈ new_ids o → ∃ r, scheduled_state o s0 id r ∧ requests s !! id = Some r;
  cl_others : ∀ id, (id ∉ new_ids o) → requests s !! id = if decide (id ∈ out_finished_req_ids o) then None else requests s0 !! id;
  cl_logits : logitsprocs s = logitsprocs s0;
  cl_encoder : encoder_cache s = encoder_after o (encoder_cache s0);
  cl_buffers : buffers s = buffers s0
}.

Lemma cleared_cached b s id : cleared b s → id ∈ cached_ids o → requests s !! id = requests s0 !! id.
Proof.
  intros Hc Hid. assert (id ∈ new_ids o ++ cached_ids o) as Ha by (apply elem_of_app; by right).
  pose proof (uk_nodup _ _ Ho) as Hnd. apply NoDup_app in Hnd as (_ & Hdisj & _).
  rewrite (cl_others _ _ Hc); [|intros Hn; by apply (Hdisj id)]. rewrite decide_False; [done|]. intros Hf. by apply (uk_finished _ _ Ho id Hf).
Qed.

Lemma make_ready R b s2 acc s :
  (∀ id, id ∈ dom (req_id_to_index b0) → id ∈ R ↔ id ∉ cached_ids o) → pruned b0 R (request_table (requests s0)) b → cleared b s2 →
  cached_known o s0 s2 (length (cached_ids o)) acc s → ready acc s.
Proof.
  intros HR Hp Hc [K1 K2 K3 K4 K5]. destruct (pruned_rows R b HR Hp) as [Hix Hsh]. pose proof (cl_batch _ _ Hc) as Hb.
  pose proof (uk_nodup _ _ Ho) as Hnd. apply NoDup_app in Hnd as (_ & Hdisj & _). rewrite Hb in *. destruct Hp as [P1 P2 P3 P4 _ _ P7 P8 P9].
  rewrite firstn_all in K1, K3. destruct K4 as [R1 R2 R3 R4 R5 R6 RV R7 R8 RM].
  assert (∀ id, id ∈ cached_ids o → ∃ r, (∃ j, cached_ids o !! j = Some id ∧ cached_update o s0 j id r) ∧ requests s !! id = Some r) as Hcached.
  { intros id [j Hj]%list_elem_of_lookup_1. destruct (K2 j id (lookup_lt_Some _ _ _ Hj) Hj) as (r & Hr & Hl). exists r. split; [by exists j|done]. }
  split.
  - rewrite K1. f_equal. apply filter_ext_in. intros id Hid. rewrite Hix, decide_True by done. done.
  - intros id [Hn|Hid]%elem_of_app.
    + rewrite K3 by (by intros ?; apply (Hdisj id)). by apply (cl_new _ _ Hc).
    + destruct (Hcached id Hid) as (r & Hr & Hl). exists r. split; [by right|done].
  - intros id [Hn Hid]%not_elem_of_app. rewrite K3 by done. by apply (cl_others _ _ Hc).
  - split; [done|]. rewrite R2, R5. apply P1.
  - by rewrite R2.
  - by rewrite R3, P4.
  - intros id. by rewrite R4.
  - by rewrite <- P7.
  - intros id r Hi Hr. rewrite R4, Hix in Hi. case_decide as Hid; [|by destruct Hi].
    destruct (Hcached id Hid) as (r' & (j & Hj & Hu) & Hl). assert (r' = r) as -> by congruence.
    assert (is_Some (shown b !! id)) as [sh Hshid].
    { rewrite Hsh, decide_True by done. apply elem_of_dom. rewrite dom_shown by apply (rk_batch _ Hs). by apply elem_of_dom. }
    rewrite (R8 j id sh r (lookup_lt_Some _ _ _ Hj) Hj Hshid Hu). by rewrite P4.
  - intros id Hi. rewrite R4, Hix in Hi. rewrite RV, Hsh. case_decide; [done|by destruct Hi].
  - intros V entry d Hf. apply P8 in Hf. eapply follows_same; [exact R5|exact R2|]. eapply follows_reqs; [|exact Hf]. intros i id Hi.
    apply (bo_index _ (proj1 P1)) in Hi. rewrite Hix in Hi. case_decide as Hid; [|done]. destruct (Hcached id Hid) as (r & (j & Hj & Hu) & Hl).
    assert (scheduled_state o s0 id r) as Hst by (right; by exists j). destruct (scheduled_state_table id r Hst Hid) as (r0 & Hr0 & Hp & Hout & _).
    unfold request_table. rewrite !lookup_fmap, Hl, Hr0. cbn. by rewrite Hp, Hout.
  - intros Hm. apply P9 in Hm. revert Hm. apply masks_follow_keep; [|done]. intros id i Hi. exists i. rewrite R4 in Hi.
    split_and!; [done|apply RM|]. rewrite Hix in Hi. case_decide as Hid; [|done]. destruct (Hcached id Hid) as (r & (j & Hj & Hu) & Hl).
    destruct (scheduled_state_table id r ltac:(right; by exists j) Hid) as (r0 & Hr0 & Hp & _).
    unfold params_in, request_table. rewrite !lookup_fmap, Hl, Hr0. cbn. by rewrite Hp.
  - rewrite K5. cbn. apply (cl_logits _ _ Hc).
  - rewrite K5. cbn. apply (cl_encoder _ _ Hc).
  - rewrite K5. cbn. apply (cl_buffers _ _ Hc).
Qed.

(** From there to the end. *)
Lemma ready_acc acc s id : ready acc s → id ∈ acc ↔ id ∈ new_ids o ++ cached_ids o ∧ req_id_to_index (input_batch s) !! id = None.
Proof.
  intros Hr. pose proof (uk_nodup _ _ Ho) as Hnd. apply NoDup_app in Hnd as (_ & Hdisj & _).
  rewrite (rd_acc _ _ Hr), (rd_index _ _ Hr), !elem_of_app, list_elem_of_filter. specialize (Hdisj id). case_decide; naive_solver.
Qed.
Lemma ready_written acc s id : ready acc s → id ∈ new_ids o ++ cached_ids o →
  written o s0 id = if decide (id ∈ acc) then [] else spec_of o id.
Proof.
  intros Hr Hin. pose proof (ready_acc acc s id Hr) as Hacc. rewrite (rd_index _ _ Hr) in Hacc. unfold written. fold b0. destruct (decide (id ∈ acc)) as [Ha|Ha].
  - apply Hacc in Ha as [_ Hn]. destruct (decide (id ∈ cached_ids o)) as [Hc|Hc]; [by rewrite Hn|]. destruct (decide (spec_of o id = [])) as [->|Hne]; [by destruct (_ !! _)|].
    by destruct Hc; apply (uk_spec _ _ Ho).
  - destruct (decide (id ∈ cached_ids o)); [|naive_solver]. destruct (req_id_to_index b0 !! id) eqn:Hi; [done|]. naive_solver.
Qed.
Lemma ready_room acc s : ready acc s → (num_reqs (input_batch s) + length acc <= max_num_reqs c0)%nat.
Proof.
  intros Hr. pose proof (uk_room _ _ Ho) as Hroom. fold b0 in Hroom. fold c0 in Hroom. rewrite length_app in Hroom. rewrite (rd_acc _ _ Hr), length_app.
  assert (num_reqs (input_batch s) <= length (filter (λ id, ¬ req_id_to_index b0 !! id = None) (cached_ids o)))%nat as Hle.
  { unfold num_reqs. rewrite <- size_dom. transitivity (base.size (list_to_set (C := gset string) (filter (λ id, ¬ req_id_to_index b0 !! id = None) (cached_ids o)))).
    - apply subseteq_size. intros id. rewrite elem_of_dom, (rd_index _ _ Hr), elem_of_list_to_set, list_elem_of_filter. case_decide; intros [i Hi]; [|done].
      split; [by rewrite Hi|done].
    - rewrite size_list_to_set; [done|]. apply NoDup_filter. pose proof (uk_nodup _ _ Ho) as Hnd. by apply NoDup_app in Hnd as (_ & _ & Hnd). }
  pose proof (len_filter_split (λ id, req_id_to_index b0 !! id = None) (cached_ids o)) as Hsplit. unfold len in Hsplit. lia.
Qed.
Lemma ready_nodup acc s : ready acc s → NoDup acc.
Proof.
  intros Hr. rewrite (rd_acc _ _ Hr). pose proof (uk_nodup _ _ Ho) as Hnd. apply NoDup_app in Hnd as (H1 & Hdisj & H2).
  apply NoDup_app. split_and!; [done| |by apply NoDup_filter]. intros id Hn [_ Hc]%list_elem_of_filter. by apply (Hdisj id).
Qed.
Lemma ready_valid acc s id : ready acc s → id ∈ acc → ∃ r, requests s !! id = Some r ∧ req_id r = id ∧
  request_valid (InputBatch.cfg (input_batch s)) (block_table (slots (input_batch s))) r.
Proof.
  intros Hr Hid. apply (ready_acc acc s id Hr) in Hid as [Hin _]. destruct (rd_requests _ _ Hr id Hin) as (r & Hst & Hl). exists r.
  split_and!; [done|by eapply scheduled_state_id|]. rewrite (rd_cfg _ _ Hr). eapply request_valid_frame; [apply (rd_tables _ _ Hr)|]. apply (uk_fits _ _ Ho id r Hst).
Qed.
Lemma extended_init T b : batch_open b → b_moved (batch_update_builder b) = [] → extended b ∅ T b.
Proof.
  intros Hb Hm. split; try done; [|apply tables_frame_refl|by intros V entry d]. rewrite dom_empty_L. by rewrite union_empty_r_L.
Qed.

(** The requests of the batch once all have been added. *)
Lemma all_added acc s A b : ready acc s → extended (input_batch s) A (request_table (requests s)) b →
  (∀ id, A !! id = if decide (id ∈ acc) then requests s !! id else (∅ : gmap string CachedRequestState) !! id) →
  dom (shown b) = list_to_set (new_ids o ++ cached_ids o) ∧
  (∀ id r, id ∈ new_ids o ++ cached_ids o → requests s !! id = Some r →
     fst <$> shown b !! id = Some (with_spec (written o s0 id) (request_shown to_float32 c0 r).1)) ∧
  (∀ id r sh, id ∈ new_ids o ++ cached_ids o → requests s !! id = Some r → shown b !! id = Some sh → identifier_shows c0 r sh.2).
Proof.
  intros Hr [E1 E2 E3 E4 E5 E6 E7 E8] HA. split_and!.
  - rewrite dom_shown by apply E1. rewrite E4. apply set_eq. intros id. rewrite elem_of_union, elem_of_list_to_set, !elem_of_dom, HA, (rd_index _ _ Hr), lookup_empty.
    pose proof (ready_acc acc s id Hr) as Hacc. rewrite (rd_index _ _ Hr) in Hacc. split.
    + intros [[i Hi]|[r Hl]].
      * case_decide as Hc; [|done]. apply elem_of_app. by right.
      * destruct (decide (id ∈ acc)) as [Ha|]; [|done]. by apply Hacc in Ha as [].
    + intros Hin. destruct (if decide (id ∈ cached_ids o) then req_id_to_index b0 !! id else None) as [i|] eqn:Hi; [left; by eexists|right].
      assert (id ∈ acc) as Ha by by apply Hacc. rewrite decide_True by done. destruct (rd_requests _ _ Hr id Hin) as (r & _ & Hl). by exists r.
  - intros id r Hin Hl. rewrite E5, HA, lookup_empty, (ready_written acc s id Hr Hin). destruct (decide (id ∈ acc)) as [Ha|Ha].
    + rewrite Hl. cbn. by rewrite with_spec_nil, (rd_cfg _ _ Hr).
    + apply (rd_rows _ _ Hr); [|done]. destruct (req_id_to_index (input_batch s) !! id) eqn:Hi; [by eexists|]. by destruct Ha; apply (ready_acc acc s id Hr).
  - intros id r sh Hin Hl. rewrite E5, HA, lookup_empty. destruct (decide (id ∈ acc)) as [Ha|Ha].
    + rewrite Hl, (rd_cfg _ _ Hr). intros [= <-]. apply identifier_shown.
    + intros Hsh. assert (is_Some (req_id_to_index (input_batch s) !! id)) as Hi.
      { destruct (req_id_to_index (input_batch s) !! id) eqn:Hi; [by eexists|]. by destruct Ha; apply (ready_acc acc s id Hr). }
      assert (id ∈ cached_ids o) as Hc by (rewrite (rd_index _ _ Hr) in Hi; case_decide; [done|by destruct Hi]).
      pose proof (rd_views _ _ Hr id Hi) as Hv. rewrite Hsh in Hv. destruct (shown b0 !! id) as [sh0|] eqn:Hsh0; [|done]. injection Hv as Hv. rewrite Hv.
      destruct (rd_requests _ _ Hr id Hin) as (r' & Hst & Hl'). assert (r' = r) as -> by congruence.
      destruct (scheduled_state_table id r Hst Hc) as (r0 & Hr0 & Hp & _ & _ & Ht). eapply identifier_shows_ext; [exact Hp|exact Ht|].
      by apply (rk_views _ Hs id).
Qed.

Lemma wp_finish acc s : ready acc s →
  wp (for_each acc (add_to_batch to_float32) ;; on_batch condense ;; on_batch (_may_reorder_batch cfg o) ;; refresh_metadata to_float32)
    (λ _ s', states_updated o s0 s') s.
Proof.
  intros Hr. apply wp_bind. eapply (wp_add_all (input_batch s) ∅).
  { apply extended_init; apply Hr. } { by eapply ready_nodup. }
  { intros id Hid. split_and!; [by apply (ready_acc acc s id Hr)|done|by eapply ready_valid]. }
  { rewrite (rd_cfg _ _ Hr). by apply ready_room. }
  intros A b3 He HA. destruct (all_added acc s A b3 Hr He HA) as (Hdom & Hrows & Hviews). pose proof He as [E1 E2 E3 E4 E5 E6 E7 E8].
  apply wp_bind. unfold on_batch. apply wp_zoom. eapply wp_mono; [by apply wp_condense|]. intros [] b4 Hc. pose proof Hc as [[F1 F2 F3 F4 F5 F6] C2 C3 C4].
  assert (dom (req_id_to_index b4) = list_to_set (new_ids o ++ cached_ids o)) as Hdom4 by (rewrite <- dom_shown by done; by rewrite F6).
  apply wp_bind, wp_zoom. eapply wp_mono.
  { eapply (wp_and_if no_reorder _ (λ _ b', b' = b4)); [apply (wp_may_reorder (request_table (requests s))); [by split|..]|intros Hno; by apply wp_no_reorder].
    { intros id Hid. cbn in Hid. rewrite Hdom4 in Hid. apply elem_of_list_to_set in Hid. by apply (uk_keys _ _ Ho). }
    { apply (uk_order _ _ Ho). } }
  intros [] b5 [[[G1 G2 G3 G4 G5 G6] Hord] Hsame]. cbn [input_batch set_input_batch] in *.
  assert (dom (req_id_to_index b5) = list_to_set (new_ids o ++ cached_ids o)) as Hdom5 by (rewrite <- dom_shown by apply G1; by rewrite G5, F6).
  apply (wp_refresh (request_table (requests s))). intros lp Hlp. cbn [input_batch set_input_batch logitsprocs] in Hlp. rewrite (rd_logits _ _ Hr) in Hlp.
  split; cbn [requests input_batch logitsprocs encoder_cache buffers set_logitsprocs set_input_batch].
  - apply (rd_requests _ _ Hr).
  - apply (rd_others _ _ Hr).
  - destruct G1 as [[] ?]. split; [|done]. split; batch_simpl; done.
  - done.
  - batch_simpl. by rewrite G2, F2, E3, (rd_cfg _ _ Hr).
  - batch_simpl. eapply tables_frame_trans; [apply (rd_tables _ _ Hr)|]. eapply tables_frame_trans; [exact E6|]. by eapply tables_frame_trans.
  - done.
  - batch_simpl. change (length (_req_ids (slots b5)) = num_reqs b5). rewrite G3, C2. unfold num_reqs. by rewrite <- !size_dom, Hdom4, Hdom5.
  - intros id r Hin Hl. change (shown (set_builder BatchUpdateBuilder_init b5)) with (shown b5). rewrite G5, F6. by apply Hrows.
  - intros id r sh Hin Hl. change (shown (set_builder BatchUpdateBuilder_init b5)) with (shown b5). rewrite G5, F6. by apply Hviews.
  - exact Hord.
  - intros [B1 B2]. batch_simpl. apply Hlp; [|exact B2]. apply G6. apply follows_condensed with b3; [|exact Hc]. apply E7, (rd_follows _ _ Hr).
    apply follows_init; [apply (rk_builder _ Hs)|exact B1].
  - intros Hno Hm. apply (rd_masks _ _ Hr), E8 in Hm. rewrite (Hsame Hno). by apply (masks_follow_condense _ _ _ (proj1 E1) Hc) in Hm.
  - apply (rd_encoder _ _ Hr).
  - apply (rd_buffers _ _ Hr).
Qed.

(** [_update_states]. *)
Lemma wp_update_states :
  wp (_update_states to_float32 cfg worker_params new_generator o) (λ _ s', states_updated o s0 s') s0.
Proof.
  unfold _update_states. apply wp_bind, wp_forget_finished. intros R HR.
  apply wp_bind. eapply (wp_remove_all b0 ∅ (request_table (requests s0))); [exact (pruned_init s0 _ (rk_batch _ Hs) (rk_builder _ Hs))|]. intros b1 Hp1.
  apply wp_bind, wp_free_encoder, wp_bind, wp_get. cbv zeta.
  apply wp_bind. eapply (wp_remove_all b0); [exact Hp1|]. intros b2 Hp2.
  apply wp_bind, wp_add_new_requests; [pose proof (uk_nodup _ _ Ho) as Hnd; by apply NoDup_app in Hnd as (? & _)|apply (uk_tasks _ _ Ho)|].
  intros s3 (N1 & N2 & R3 & L3 & -> & _). cbn [input_batch requests set_requests set_output_lists set_input_batch set_encoder_cache] in *.
  set (RS := _ ∪ list_to_set (elements (dom (req_id_to_index b1) ∖ _))) in Hp2.
  assert (∀ id, id ∈ dom (req_id_to_index b0) → id ∈ RS ↔ id ∉ cached_ids o) as HRS.
  { intros id Hid. pose proof (removed_ids id Hid) as Hrm. cbv zeta in Hrm. unfold RS. rewrite !list_to_set_elements_L, union_empty_l_L.
    rewrite elem_of_union, elem_of_difference, elem_of_dom, (pr_index _ _ _ _ Hp1), list_to_set_elements_L, union_empty_l_L.
    rewrite not_elem_of_union, elem_of_difference in Hrm. pose proof Hid as Hid'. rewrite elem_of_dom in Hid'. case_decide; destruct (decide (id ∈ cached_ids o)); naive_solver. }
  match goal with |- wp _ _ ?st => set (s3 := st) end.
  assert (cleared b2 s3) as Hcl.
  { split; cbn; try done.
    - intros id Hid. destruct (N1 id Hid) as (r & Hr & Hl). exists r. split; [|done]. destruct Hr as [Hr|(j & Hj & _)]; [by left|].
      pose proof (uk_nodup _ _ Ho) as Hnd. apply NoDup_app in Hnd as (_ & Hdisj & _). exfalso. apply (Hdisj id Hid). by eapply list_elem_of_lookup_2.
    - intros id Hid. rewrite (N2 id Hid), HR. by rewrite (decide_ext (id ∈ elements (out_finished_req_ids o)) (id ∈ out_finished_req_ids o)) by apply elem_of_elements. }
  destruct (pruned_rows RS b2 HRS Hp2) as [Hix Hsh].
  apply wp_bind. eapply (wp_update_cached_all o s0 s3 Hlast Ho).
  - apply (pr_open _ _ _ _ Hp2).
  - apply (pr_cfg _ _ _ _ Hp2).
  - apply (pr_tables _ _ _ _ Hp2).
  - intros id Hid. cbn. by rewrite Hix, decide_True.
  - intros id Hid. by eapply cleared_cached.
  - intros id sh Hl. cbn in Hl |- *. rewrite Hsh in Hl. case_decide; [|done]. rewrite (pr_cfg _ _ _ _ Hp2). by apply (rk_rows _ Hs).
  - intros acc s4 Hck. apply wp_finish. by eapply make_ready.
Qed.
End whole.
End update.
