(* ===== verification/WorkerStep.v ===== *)
(** A step of the worker up to the forward pass: [_update_states] followed by
    [_prepare_inputs] of [v1/worker/gpu_model_runner.py].  Every token the scheduler has
    scheduled is fed to the model at its position, from the tokens of its request, and is
    stored in the blocks the scheduler has given to the request. *)
From Stdlib Require Import ZArith QArith Lia.
From stdpp Require Import base strings countable gmap sets list.
From S2P Require Import Prelude Request KVCacheSpec SchedulerData Arrays BlockTable AttentionMetadata LocalAttention BatchUpdate InputBatch InputBatchFacts InputBatchMoves ModelRunner PrepareInputs PrepareFacts StepInputs BatchRows BatchReorder UpdateStates.
Local Open Scope Z_scope.

Section worker_step.
Context (to_float32 : Q → Q) (cfg : RunnerConfig) (use_cascade_attention : CascadeQuery → bool).
Context (worker_params : RequestParams → BatchParams) (new_generator : RequestParams → option handle).
Implicit Types (s : RunnerState) (b : InputBatch) (o : SchedulerOutput) (id : string) (r : CachedRequestState).

Abbreviation scheduled o s id r := (scheduled_state worker_params new_generator o s id r).

(** The tokens a step can look at: the request's, and its drafts behind them. *)
Definition step_token_ids o id r : list Z := (prompt_token_ids r ++ output_token_ids r) ++ spec_of o id.

(** What the scheduler promises about the tokens it schedules. *)
Record tokens_ok o s : Prop := {
  tk_count : ∀ id r c, scheduled o s id r → scheduled_count o id = Ok c → 0 < c ∧ len (spec_of o id) < c ∧ 0 <= num_computed_tokens r ∧
    num_computed_tokens r + c <= len (step_token_ids o id r) ∧
    ∀ g t l, block_table (slots (input_batch s)) !! g = Some t → block_ids r !! g = Some l → num_computed_tokens r + c <= bt_block_size t * len l;
  tk_total : total_num_scheduled_tokens o = zsum (num_scheduled_tokens o).*2;
  tk_distinct : NoDup (num_scheduled_tokens o).*1;
  tk_drafts : ∀ id, spec_of o id ≠ [] → is_Some (req_id_to_index (input_batch s) !! id);
  tk_some : num_scheduled_tokens o ≠ [];
  tk_room : total_num_scheduled_tokens o <= rc_max_num_tokens cfg;
  tk_spec : dom (scheduled_spec_decode_tokens o) ⊆ list_to_set (num_scheduled_tokens o).*1;
  tk_tables : ∀ t, t ∈ block_table (slots (input_batch s)) → 0 < bt_block_size t ∧
    total_num_scheduled_tokens o <= len (slot_mapping_np t) ∧ total_num_scheduled_tokens o <= len (slot_mapping t)
}.

(** ** What a row holds *)
Record holds o b i id r (row : Row) : Prop := {
  ho_row : rows (slots b) !! i = Some row;
  ho_computed : row_num_computed_tokens row = num_computed_tokens r;
  ho_tokens : take (length (step_token_ids o id r)) (row_token_ids row) = step_token_ids o id r;
  ho_blocks : group_blocks (block_table (slots b)) i = block_ids r
}.

Lemma request_shown_tokens c r :
  row_token_ids (rv_row (request_shown to_float32 c r).1) = prompt_token_ids r ++ output_token_ids r ∧
  row_num_computed_tokens (rv_row (request_shown to_float32 c r).1) = num_computed_tokens r.
Proof. unfold request_shown. by destruct (params_of r). Qed.

Lemma shown_holds o b i id r c :
  batch_ok b → req_id_to_index b !! id = Some i →
  fst <$> shown b !! id = Some (with_spec (spec_of o id) (request_shown to_float32 c r).1) → ∃ row, holds o b i id r row.
Proof.
  intros Hb Hi Hsh. pose proof (occupied_lt _ _ _ _ (bo_slots _ Hb) (proj1 (bo_index _ Hb id i) Hi)) as Hmax.
  destruct (lookup_lt_is_Some_2 (rows (slots b)) i) as [row Hrow]; [by rewrite (ro_length _ _ (so_rows _ _ (bo_slots _ Hb)))|].
  exists row. erewrite shown_lookup in Hsh; [|exact Hi|unfold row_view; rewrite Hrow; done]. cbn in Hsh. injection Hsh as Hv.
  set (iv := id_view (sets b) (dicts b) id) in Hv. set (v := mkRowView _ _ _ _ _) in Hv.
  destruct (visible_tokens iv v) as (T1 & _ & T3 & T4 & T5). rewrite Hv in T1, T3, T4, T5. cbn in T1, T3, T4, T5.
  destruct (request_shown_tokens c r) as [S1 S2]. destruct (request_shown_row to_float32 c r) as (S3 & _ & S4).
  split; [done|congruence| |congruence]. unfold step_token_ids. rewrite S1 in T4. etransitivity; [|exact (eq_sym T4)].
  unfold valid_tokens. rewrite <- T1, S3. f_equal. unfold cached_num_tokens, len. rewrite !length_app. lia.
Qed.

(** ** The counts of the rows *)
Lemma scheduled_count_lookup o id c : NoDup (num_scheduled_tokens o).*1 → (id, c) ∈ num_scheduled_tokens o → scheduled_count o id = Ok c.
Proof.
  intros Hnd Hin. unfold scheduled_count. destruct (list_find (λ p, p.1 = id) (num_scheduled_tokens o)) as [[j [id' c']]|] eqn:Hf.
  - apply list_find_Some in Hf as (Hj & Heq & _). cbn in Heq. subst id'. apply list_elem_of_lookup_1 in Hin as [k Hk].
    assert (j = k) as ->; [|by simplify_eq]. eapply NoDup_lookup; [exact Hnd| |]; rewrite list_lookup_fmap; [by rewrite Hj|by rewrite Hk].
  - apply list_find_None in Hf. rewrite Forall_forall in Hf. by destruct (Hf _ Hin).
Qed.
Lemma zsum_perm (l k : list Z) : l ≡ₚ k → zsum l = zsum k.
Proof. induction 1; rewrite ?zsum_cons; lia. Qed.

Lemma counts_total o ids counts :
  NoDup (num_scheduled_tokens o).*1 → ids ≡ₚ (num_scheduled_tokens o).*1 → mapM (scheduled_count o) ids = Ok counts → zsum counts = zsum (num_scheduled_tokens o).*2.
Proof.
  intros Hnd Hp Hc. set (f := λ id, match scheduled_count o id with Ok c => c | Raise _ => 0 end).
  assert (counts = f <$> ids) as ->.
  { apply mapM_Ok_inv in Hc. clear -Hc. induction Hc as [|id c ids counts Hid _ IH]; [done|]. cbn. unfold f at 1. rewrite Hid. by f_equal. }
  assert ((num_scheduled_tokens o).*2 = f <$> (num_scheduled_tokens o).*1) as ->.
  { rewrite <- list_fmap_compose. apply list_fmap_ext. intros i [id c] Hi. cbn. unfold f. by rewrite (scheduled_count_lookup o id c Hnd (list_elem_of_lookup_2 _ _ _ Hi)). }
  by apply zsum_perm, fmap_Permutation.
Qed.

Lemma bind_Ok_inv {A B} (m : outcome A) (f : A → outcome B) y : m ≫= f = Ok y → ∃ x, m = Ok x ∧ f x = Ok y.
Proof. destruct m as [x|e]; [|done]. intros H. by exists x. Qed.
Lemma local_slot_mapping c m block_size m' : make_local_attention_virtual_batches c m block_size = Ok m' → meta_slot_mapping m' = meta_slot_mapping m.
Proof.
  unfold make_local_attention_virtual_batches. cbv zeta. intros (vb & _ & H)%bind_Ok_inv.
  repeat first [apply bind_Ok_inv in H as (? & _ & H)|case_decide|done]. by injection H as <-.
Qed.

(** ** The batch after [_update_states] *)
Section updated.
Context (o : SchedulerOutput) (s s1 : RunnerState).
Hypothesis Ho : update_ok cfg worker_params new_generator o s.
Hypothesis Ht : tokens_ok o s.
Hypothesis Hu : states_updated to_float32 cfg worker_params new_generator o s s1.

Lemma updated_dom id : id ∈ (new_req_id <$> scheduled_new_reqs o) ++ req_ids (scheduled_cached_reqs o) ↔ is_Some (req_id_to_index (input_batch s1) !! id).
Proof. by rewrite <- elem_of_dom, (su_ids _ _ _ _ _ _ _ Hu), elem_of_list_to_set. Qed.

Lemma updated_names : ∃ ids counts, req_id_list (input_batch s1) = Ok ids ∧ length ids = num_reqs (input_batch s1) ∧ ids ≡ₚ (num_scheduled_tokens o).*1 ∧
  mapM (scheduled_count o) ids = Ok counts ∧ zsum counts = total_num_scheduled_tokens o ∧ counts ≠ [].
Proof.
  pose proof (su_batch _ _ _ _ _ _ _ Hu) as [Hb Hd]. destruct (req_id_list_dense _ Hd) as (ids & Hids & Hlen).
  assert (∀ id, id ∈ ids ↔ id ∈ (num_scheduled_tokens o).*1) as Hin.
  { intros id. rewrite (uk_keys _ _ _ _ _ Ho), updated_dom. split.
    - intros [i Hi]%list_elem_of_lookup_1. exists i. apply (bo_index _ Hb). by apply (req_id_list_lookup _ _ _ _ Hids).
    - intros [i Hi]. apply list_elem_of_lookup_2 with i. apply (req_id_list_lookup _ _ _ _ Hids). by apply (bo_index _ Hb). }
  assert (NoDup ids) as Hnd.
  { apply NoDup_by_lookup. intros i j id Hi Hj. apply (req_id_list_lookup _ _ _ _ Hids), (bo_index _ Hb) in Hi, Hj. congruence. }
  assert (ids ≡ₚ (num_scheduled_tokens o).*1) as Hp by (by apply NoDup_Permutation; [|apply (tk_distinct _ _ Ht)|]).
  assert (∃ counts, mapM (scheduled_count o) ids = Ok counts) as [counts Hc].
  { assert (∀ id, id ∈ ids → ∃ c, scheduled_count o id = Ok c) as Hsc.
    { intros id Hid%Hin. apply list_elem_of_fmap in Hid as ([id' c] & -> & Hid). exists c. by apply scheduled_count_lookup; [apply (tk_distinct _ _ Ht)|]. }
    clear -Hsc. induction ids as [|id ids IH]; [by exists []|]. destruct (Hsc id ltac:(by left)) as [c Hid].
    destruct IH as [cs Hcs]; [intros x Hx; apply Hsc; by right|]. exists (c :: cs). cbn. rewrite Hid. cbn. by rewrite Hcs. }
  exists ids, counts. split_and!; [done|by rewrite Hlen, (su_length _ _ _ _ _ _ _ Hu)|done|done| |].
  - rewrite (tk_total _ _ Ht). apply (counts_total o ids counts); [apply (tk_distinct _ _ Ht)|done|done].
  - intros ->. apply mapM_Ok_inv, Forall2_length in Hc. cbn in Hc. apply Permutation_length in Hp. rewrite Hc, length_fmap in Hp.
    pose proof (tk_some _ _ Ht). by destruct (num_scheduled_tokens o).
Qed.

Lemma all_written id : written o s id = spec_of o id.
Proof.
  unfold written. destruct (_ !! id) eqn:Hi; [done|]. destruct (decide (spec_of o id = [])) as [->|Hne]; [done|].
  apply (tk_drafts _ _ Ht) in Hne. rewrite Hi in Hne. by destruct Hne.
Qed.
Lemma updated_holds ids i id : req_id_list (input_batch s1) = Ok ids → ids !! i = Some id →
  ∃ r row, scheduled o s id r ∧ requests s1 !! id = Some r ∧ holds o (input_batch s1) i id r row.
Proof.
  intros Hids Hi. pose proof (su_batch _ _ _ _ _ _ _ Hu) as [Hb Hd]. apply (req_id_list_lookup _ _ _ _ Hids), (bo_index _ Hb) in Hi.
  assert (id ∈ (new_req_id <$> scheduled_new_reqs o) ++ req_ids (scheduled_cached_reqs o)) as Hin.
  { apply updated_dom. by exists i. }
  destruct (su_requests _ _ _ _ _ _ _ Hu id Hin) as (r & Hst & Hr). pose proof (su_rows _ _ _ _ _ _ _ Hu id r Hin Hr) as Hsh. rewrite all_written in Hsh.
  destruct (shown_holds o (input_batch s1) i id r _ Hb Hi Hsh) as [row Hrow]. by exists r, row.
Qed.

Lemma updated_fits ids counts :
  req_id_list (input_batch s1) = Ok ids → length ids = num_reqs (input_batch s1) → mapM (scheduled_count o) ids = Ok counts →
  zsum counts = total_num_scheduled_tokens o → counts ≠ [] → step_fits cfg (input_batch s1) counts.
Proof.
  intros Hids Hlen Hc Hz Hne. pose proof (su_batch _ _ _ _ _ _ _ Hu) as [Hb Hd]. pose proof (mapM_Ok_inv _ _ _ Hc) as Hf. pose proof (Forall2_length _ _ _ Hf) as Hl.
  assert (∀ i c, counts !! i = Some c → ∃ id r row, ids !! i = Some id ∧ scheduled_count o id = Ok c ∧ scheduled o s id r ∧ holds o (input_batch s1) i id r row) as Hrow.
  { intros i c Hi. destruct (Forall2_lookup_r _ _ _ _ _ Hf Hi) as (id & Hid & Hcid). destruct (updated_holds ids i id Hids Hid) as (r & row & Hst & _ & Hh). by exists id, r, row. }
  assert (∀ i id r row c, scheduled o s id r → holds o (input_batch s1) i id r row → scheduled_count o id = Ok c →
    0 < c ∧ 0 <= row_num_computed_tokens row ∧ row_num_computed_tokens row + c <= len (step_token_ids o id r) ∧
    ∀ g t l, block_table (slots (input_batch s)) !! g = Some t → block_ids r !! g = Some l → row_num_computed_tokens row + c <= bt_block_size t * len l) as Htok.
  { intros i id r row c Hst Hh Hcid. rewrite (ho_computed _ _ _ _ _ _ Hh). destruct (tk_count _ _ Ht id r c Hst Hcid) as (? & _ & ? & ? & ?). by split_and!. }
  split.
  - rewrite (su_cfg _ _ _ _ _ _ _ Hu). pose proof (bo_slots _ Hb) as H. by rewrite (su_cfg _ _ _ _ _ _ _ Hu) in H.
  - rewrite <- Hl, Hlen, <- (su_length _ _ _ _ _ _ _ Hu). apply (so_ids _ _ (bo_slots _ Hb)).
  - done.
  - intros c [i Hi]%list_elem_of_lookup_1. destruct (Hrow i c Hi) as (id & r & row & _ & Hcid & Hst & Hh). by destruct (Htok i id r row c Hst Hh Hcid).
  - rewrite Hz. apply (tk_room _ _ Ht).
  - intros i row' c Hr Hi. destruct (Hrow i c Hi) as (id & r & row & _ & Hcid & Hst & Hh). rewrite (ho_row _ _ _ _ _ _ Hh) in Hr. injection Hr as <-.
    destruct (Htok i id r row c Hst Hh Hcid) as (_ & ? & Hle & _). split; [done|]. etransitivity; [exact Hle|]. unfold step_token_ids, len. rewrite length_app.
    destruct (uk_fits _ _ _ _ _ Ho id r Hst) as [_ Hroom]. rewrite (su_cfg _ _ _ _ _ _ _ Hu). unfold cached_num_tokens, len in Hroom. rewrite length_app. lia.
  - intros g t Hg. destruct (Forall2_lookup_r _ _ _ _ _ (su_tables _ _ _ _ _ _ _ Hu) Hg) as (t0 & Hg0 & [F1 F2 F3 F4]).
    destruct (tk_tables _ _ Ht t0 (list_elem_of_lookup_2 _ _ _ Hg0)) as (Hbs & Hs1 & Hs2). rewrite F1, F3, F4, Hz. split_and!; [done|done|done|].
    intros i row' c Hr Hi. destruct (Hrow i c Hi) as (id & r & row & _ & Hcid & Hst & Hh). rewrite (ho_row _ _ _ _ _ _ Hh) in Hr. injection Hr as <-.
    destruct (Htok i id r row c Hst Hh Hcid) as (_ & _ & _ & Hbl). apply (Hbl g t0 _ Hg0). rewrite <- (ho_blocks _ _ _ _ _ _ Hh). unfold group_blocks. by rewrite list_lookup_fmap, Hg.
Qed.

Lemma updated_output ids counts :
  req_id_list (input_batch s1) = Ok ids → ids ≡ₚ (num_scheduled_tokens o).*1 → mapM (scheduled_count o) ids = Ok counts → zsum counts = total_num_scheduled_tokens o →
  output_fits o (input_batch s1) ids counts.
Proof.
  intros Hids Hp Hc Hz. split; [done|done|done| |].
  - intros id toks c i Hs Hi Hci. destruct (updated_holds ids i id Hids Hi) as (r & row & Hst & _). pose proof (mapM_Ok_inv _ _ _ Hc) as Hf.
    pose proof (Forall2_lookup_lr _ _ _ _ _ _ Hf Hi Hci) as Hcid. destruct (tk_count _ _ Ht id r c Hst Hcid) as (_ & Hd & _). unfold spec_of in Hd. by rewrite Hs in Hd.
  - intros id Hid. apply (tk_spec _ _ Ht) in Hid. rewrite elem_of_list_to_set in Hid |- *. by rewrite Hp.
Qed.
Lemma updated_groups : groups_fit cfg o (input_batch s) → groups_fit cfg o (input_batch s1).
Proof.
  intros [G1 G2 G3 G4 G5]. pose proof (su_tables _ _ _ _ _ _ _ Hu) as Hf. split; try done.
  - rewrite G1. by eapply Forall2_length.
  - intros g group t a chunk Hg Hgt. destruct (Forall2_lookup_r _ _ _ _ _ Hf Hgt) as (t0 & Hg0 & [F1 _ _ _]). rewrite F1. by apply (G4 g group t0 a chunk).
Qed.
End updated.

(** ** The inputs of every scheduled token *)
Record token_fed o s s' (out : PreparedInputs) (counts : list Z) (i : nat) id r (j : Z) : Prop := {
  tf_position : positions (buffers s') !! Z.to_nat (start_of counts i + j) = Some (num_computed_tokens r + j);
  tf_token : ∃ tok, step_token_ids o id r !! Z.to_nat (num_computed_tokens r + j) = Some tok ∧
    input_ids (buffers s') !! Z.to_nat (start_of counts i + j) = Some tok;
  tf_slot : ∀ g group t l layer, rc_kv_cache_groups cfg !! g = Some group → block_table (slots (input_batch s)) !! g = Some t → block_ids r !! g = Some l →
    layer ∈ layer_names group → ∃ a blk, pi_attn_metadata out !! layer = Some a ∧ l !! Z.to_nat ((num_computed_tokens r + j) / bt_block_size t) = Some blk ∧
      meta_slot_mapping (ai_metadata a) !! Z.to_nat (start_of counts i + j) = Some (blk * bt_block_size t + (num_computed_tokens r + j) mod bt_block_size t)
}.

Lemma prepared_token o s s1 s' out ids counts i id c r row j :
  update_ok cfg worker_params new_generator o s → states_updated to_float32 cfg worker_params new_generator o s s1 →
  step_fits cfg (input_batch s1) counts →
  step_prepared cfg o (input_batch s1) ids counts s1 (max_num_reqs (InputBatch.cfg (input_batch s))) out s' →
  counts !! i = Some c → holds o (input_batch s1) i id r row → num_computed_tokens r + c <= len (step_token_ids o id r) → 0 <= j < c →
  token_fed o s s' out counts i id r j.
Proof.
  intros Ho Hu Hf Hp Hi Hh Hle Hj. pose proof (start_of_nonneg counts i (step_counts_nonneg cfg _ _ Hf)) as H0.
  assert (computed_at (input_batch s1) i = num_computed_tokens r) as Hc.
  { unfold computed_at. rewrite (ho_row _ _ _ _ _ _ Hh). cbn. apply (ho_computed _ _ _ _ _ _ Hh). }
  destruct (step_row cfg _ _ _ _ Hf Hi) as (row' & _ & _ & Hc0 & _). rewrite Hc in Hc0.
  assert (∀ A (f : nat → nat → A) (rest : list A), (batched f counts ++ rest) !! Z.to_nat (start_of counts i + j) = Some (f i (Z.to_nat j))) as Hat.
  { intros A f rest. apply lookup_app_l_Some. rewrite <- (lookup_batched f counts i c (Z.to_nat j)); [f_equal; lia|by eapply step_counts_nonneg|done|lia]. }
  pose proof (sp_state _ _ _ _ _ _ _ _ _ Hp) as ->.
  split.
  - cbn. unfold step_positions. rewrite Hat, Hc. f_equal. lia.
  - assert (Z.to_nat (num_computed_tokens r + j) < length (step_token_ids o id r))%nat as Hlt by (unfold len in Hle; lia).
    destruct (lookup_lt_is_Some_2 _ _ Hlt) as [tok Htok]. exists tok. split; [done|]. cbn. unfold step_tokens. rewrite Hat, Hc, Z2Nat.id by lia. f_equal.
    unfold token_at. rewrite (ho_row _ _ _ _ _ _ Hh). cbn. rewrite <- (ho_tokens _ _ _ _ _ _ Hh) in Htok. apply lookup_take_Some in Htok as [Htok _]. by rewrite Htok.
  - intros g group t l layer Hg Hgt Hl Hlayer. destruct (Forall2_lookup_l _ _ _ _ _ (su_tables _ _ _ _ _ _ _ Hu) Hgt) as (t1 & Hgt1 & [F1 _ _ _]).
    destruct (sp_groups _ _ _ _ _ _ _ _ _ Hp) as [mx Hgroups]. destruct (Hgroups g group t1 layer Hg Hgt1 Hlayer) as (a & Ha & [_ _ Gm]).
    assert (row_blocks t1 i = l) as Hrl.
    { pose proof (ho_blocks _ _ _ _ _ _ Hh) as Hb. rewrite <- Hb in Hl. unfold group_blocks in Hl. rewrite list_lookup_fmap, Hgt1 in Hl. by injection Hl. }
    destruct (sf_tables _ _ _ Hf g t1 Hgt1) as (Hbs & _ & _ & Hblocks). specialize (Hblocks i row c (ho_row _ _ _ _ _ _ Hh) Hi).
    rewrite (ho_computed _ _ _ _ _ _ Hh), Hrl in Hblocks. rewrite F1 in *. set (p := num_computed_tokens r + j) in *.
    assert (Z.to_nat (p / bt_block_size t) < length l)%nat as Hlt.
    { assert (p / bt_block_size t < len l) by (apply Z.div_lt_upper_bound; lia). pose proof (Z.div_pos p (bt_block_size t)). unfold len in *. lia. }
    destruct (lookup_lt_is_Some_2 _ _ Hlt) as [blk Hblk]. exists a, blk. split_and!; [done|done|].
    assert (meta_slot_mapping (ai_metadata a) = step_slots (input_batch s1) t1 counts) as ->.
    { destruct (kv_cache_spec group); [by rewrite Gm|by apply local_slot_mapping in Gm|by rewrite Gm|by rewrite Gm]. }
    rewrite <- (app_nil_r (step_slots _ _ _)). unfold step_slots. rewrite Hat, Hc, Z2Nat.id by lia. f_equal. fold p.
    unfold slot_at. by rewrite Hrl, F1, Hblk.
Qed.

(** The two steps together: the states between and after them. *)
Record worker_prepared o s (s1 : RunnerState) (ids : list string) (counts : list Z) (out : PreparedInputs) s' : Prop := {
  wk_updated : states_updated to_float32 cfg worker_params new_generator o s s1;
  wk_ids : req_id_list (input_batch s1) = Ok ids;
  wk_order : ids ≡ₚ (num_scheduled_tokens o).*1;
  wk_counts : mapM (scheduled_count o) ids = Ok counts;
  wk_total : zsum counts = total_num_scheduled_tokens o;
  wk_fits : step_fits cfg (input_batch s1) counts;
  wk_prepared : step_prepared cfg o (input_batch s1) ids counts s1 (max_num_reqs (InputBatch.cfg (input_batch s))) out s'
}.
Record step_ok o s : Prop := {
  st_runner : runner_ok to_float32 s;
  st_update : update_ok cfg worker_params new_generator o s;
  st_tokens : tokens_ok o s;
  st_groups : groups_fit cfg o (input_batch s);
  st_buffers : buffers_ok (Z.to_nat (rc_max_num_tokens cfg)) (max_num_reqs (InputBatch.cfg (input_batch s))) (buffers s)
}.
Lemma wp_prepared o s : rc_is_last_rank cfg = true → step_ok o s →
  wp (_update_states to_float32 cfg worker_params new_generator o ;; _prepare_inputs cfg use_cascade_attention o)
    (λ out s', ∃ s1 ids counts, worker_prepared o s s1 ids counts out s') s.
Proof.
  intros Hlast [Hs Ho Ht Hg Hbuf]. apply wp_bind. eapply wp_mono; [by apply (wp_update_states to_float32 cfg worker_params new_generator o s)|].
  intros [] s1 Hu. destruct (updated_names o s s1 Ho Ht Hu) as (ids & counts & Hids & Hlen & Hp & Hc & Hz & Hne).
  pose proof (updated_fits o s s1 Ho Ht Hu ids counts Hids Hlen Hc Hz Hne) as Hf. pose proof (updated_output o s s1 Ht Hu ids counts Hids Hp Hc Hz) as Hof.
  pose proof (updated_groups o s s1 Hu Hg) as Hg1. pose proof (Forall2_length _ _ _ (mapM_Ok_inv _ _ _ Hc)) as Hl.
  eapply wp_mono; [eapply (wp_prepare_inputs cfg use_cascade_attention o ids counts s1 (Z.to_nat (rc_max_num_tokens cfg)) (max_num_reqs (InputBatch.cfg (input_batch s))))|].
  - apply (su_batch _ _ _ _ _ _ _ Hu).
  - exact Hf.
  - exact Hg1.
  - exact Hof.
  - exact Hlen.
  - by rewrite (su_buffers _ _ _ _ _ _ _ Hu).
  - pose proof (tk_room _ _ Ht). unfold total_of. rewrite Hz. lia.
  - pose proof (sf_rows_le _ _ _ Hf). by rewrite (su_cfg _ _ _ _ _ _ _ Hu) in *.
  - intros out s' Hprep. by exists s1, ids, counts.
Qed.

Lemma wp_worker_step o s : rc_is_last_rank cfg = true → step_ok o s →
  wp (_update_states to_float32 cfg worker_params new_generator o ;; _prepare_inputs cfg use_cascade_attention o)
    (λ out s', ∃ ids counts, ids ≡ₚ (num_scheduled_tokens o).*1 ∧ mapM (scheduled_count o) ids = Ok counts ∧
      ∀ i id c, ids !! i = Some id → counts !! i = Some c → ∃ r, scheduled o s id r ∧ requests s' !! id = Some r ∧
        ∀ j, 0 <= j < c → token_fed o s s' out counts i id r j) s.
Proof.
  intros Hlast Hok. eapply wp_mono; [by apply wp_prepared|]. intros out s' (s1 & ids & counts & [Hu Hids Hp Hc _ Hf Hprep]).
  exists ids, counts. split_and!; [done|done|]. intros i id c Hi Hci.
  destruct (updated_holds o s s1 (st_tokens _ _ Hok) Hu ids i id Hids Hi) as (r & row & Hst & Hr & Hh). exists r. split_and!; [done| |].
  - rewrite (sp_state _ _ _ _ _ _ _ _ _ Hprep). exact Hr.
  - intros j Hj. pose proof (Forall2_lookup_lr _ _ _ _ _ _ (mapM_Ok_inv _ _ _ Hc) Hi Hci) as Hcid.
    destruct (tk_count _ _ (st_tokens _ _ Hok) id r c Hst Hcid) as (_ & _ & _ & Hle & _).
    eapply prepared_token; [apply (st_update _ _ Hok)|exact Hu|exact Hf|exact Hprep|exact Hci|exact Hh|exact Hle|exact Hj].
Qed.
End worker_step.
