(* ===== verification/ExecuteModel.v ===== *)
(** The rest of a step of [v1/worker/gpu_model_runner.py]: the multi-modal embeddings, the
    forward pass and the sampler, which are parameters, the masks of the structured outputs,
    and the bookkeeping of what has been sampled; from [v1/worker/utils.py] and
    [multimodal/utils.py] the handling of placeholders. *)
From Stdlib Require Import ZArith QArith Lia.
From stdpp Require Import base strings countable gmap sets list sorting.
From S2P Require Import Prelude Request KVCacheSpec SchedulerData Arrays NgramProposer BlockTable BatchUpdate RejectionSampler InputBatch ModelRunner PrepareInputs.
Local Open Scope Z_scope.

(** * Multi-modal embeddings *)

(** [placeholders[is_embed] = embeds] in a tensor of NaN rows. *)
Definition scatter_mm_placeholders (embeds : list Embedding) (mask : option (list bool)) : outcome (list Embedding) :=
  match mask with
  | None => Ok embeds
  | Some mask => mask_fill mask embeds (replicate (length mask) None)
  end.
Definition gather_mm_placeholders (placeholders : list Embedding) (mask : option (list bool)) : list Embedding :=
  match mask with None => placeholders | Some mask => mask_select mask placeholders end.

(** [itertools.groupby]: runs of neighbours with one key. *)
Fixpoint group_by {A} (key : A → Z) (l : list A) : list (list A) :=
  match l with
  | [] => []
  | x :: l =>
    match group_by key l with
    | (y :: g) :: gs => if decide (key x = key y) then (x :: y :: g) :: gs else [x] :: (y :: g) :: gs
    | gs => [x] :: gs
    end
  end.

Section execute.
Context (cfg : RunnerConfig) (use_cascade_attention : CascadeQuery → bool).
(** [modality_group_func]: the modality of an input, or an identity of its own when it has
    several. *)
Context (modality_key : handle → Z).
(** [get_multimodal_embeddings] of the model, for a batch of inputs. *)
Context (encode : list handle → list (list Embedding)).
Implicit Types (s : RunnerState) (o : SchedulerOutput) (b : InputBatch).

Definition group_mm_inputs_by_modality (mm_inputs : list handle) : list (list handle) := group_by modality_key mm_inputs.

(** The inputs of a request that are scheduled, with what is needed to store their outputs. *)
Definition encoder_requests (id : string) (r : CachedRequestState) (input_ids : list Z) : outcome (list (handle * (string * Z * PlaceholderRange))) :=
  mapM (λ i, x ← py_index (cached_mm_inputs r) i; p ← py_index (cached_mm_positions r) i; Ok (x, (id, i, p))) input_ids.
Definition run_encoder (group : list handle) : outcome (list (list Embedding)) :=
  let outputs := encode group in
  if decide (length outputs = length group) then Ok outputs else Raise AssertionError.
Definition store_encoder_output (e : string * Z * PlaceholderRange) (output : list Embedding) : M RunnerState unit :=
  let '(id, input_id, pos) := e in
  x ← lift_outcome (scatter_mm_placeholders output (is_embed pos));
  modify (λ s, set_encoder_cache (<[id := <[input_id := x]> (default ∅ (encoder_cache s !! id))]> (encoder_cache s)) s).
Definition _execute_mm_encoder o : M RunnerState unit :=
  if decide (scheduled_encoder_inputs o = ∅) then mret tt
  else
    inputs ← map_each (map_to_list (scheduled_encoder_inputs o)) (λ '(id, input_ids),
      r ← get_request id; lift_outcome (encoder_requests id r input_ids));
    let inputs := concat inputs in
    outputs ← lift_outcome (mapM run_encoder (group_mm_inputs_by_modality inputs.*1));
    for_each (zip inputs.*2 (concat outputs)) (λ '(e, output), store_encoder_output e output).

(** The part of one placeholder that a step needs: [None] ends the loop, [Some []] goes on. *)
Definition gather_item (cache : option (gmap Z (list Embedding))) (num_computed_tokens num_scheduled_tokens i : Z) (pos : PlaceholderRange)
    : outcome (option (list (list Embedding))) :=
  if decide (offset pos >= num_computed_tokens + num_scheduled_tokens) then Ok None
  else if decide (offset pos + length_ pos <= num_computed_tokens) then Ok (Some [])
  else
    let start_idx := Z.max (num_computed_tokens - offset pos) 0 in
    let end_idx := Z.min (num_computed_tokens - offset pos + num_scheduled_tokens) (length_ pos) in
    if decide (start_idx < end_idx) then
      match cache ≫= lookup i with
      | None => Raise AssertionError
      | Some encoder_output =>
        Ok (Some [gather_mm_placeholders (slice start_idx end_idx encoder_output) (slice start_idx end_idx <$> is_embed pos)])
      end
    else Raise AssertionError.
Fixpoint gather_items (cache : option (gmap Z (list Embedding))) (num_computed_tokens num_scheduled_tokens i : Z) (l : list PlaceholderRange)
    : outcome (list (list Embedding)) :=
  match l with
  | [] => Ok []
  | pos :: l =>
    x ← gather_item cache num_computed_tokens num_scheduled_tokens i pos;
    match x with
    | None => Ok []
    | Some xs => rest ← gather_items cache num_computed_tokens num_scheduled_tokens (i + 1) l; Ok (xs ++ rest)
    end
  end.
Definition _gather_mm_embeddings o s : outcome (list (list Embedding)) :=
  ids ← req_id_list (input_batch s);
  l ← mapM (λ id,
    n ← scheduled_count o id;
    r ← dict_get (requests s) id;
    gather_items (encoder_cache s !! id) (num_computed_tokens r) n 0 (cached_mm_positions r)) ids;
  Ok (concat l).

(** * The masks of the structured outputs *)

(** [sorted(d.items(), key=lambda x: x[1])]. *)
Definition by_value {K} (p q : K * Z) : Prop := p.2 <= q.2.
#[local] Instance by_value_dec {K} : RelDecision (@by_value K) := λ p q, decide (p.2 <= q.2).
Definition sorted_items {K} `{Countable K} (d : gmap K Z) : list (K * Z) := merge_sort by_value (map_to_list d).
Definition num_spec_tokens o (id : string) : Z := len (default [] (scheduled_spec_decode_tokens o !! id)).

(** The first row of logits of every structured request of the batch. *)
Definition struct_out_indices o b : gmap string Z :=
  (foldl (λ '(d, cumulative_offset) '(id, batch_index),
    ((if decide (is_Some (structured_output_request_ids o !! id)) then <[id := batch_index + cumulative_offset]> d else d),
     cumulative_offset + num_spec_tokens o id))
   ((∅ : gmap string Z), 0) (sorted_items (Z.of_nat <$> req_id_to_index b))).1.

(** The loop's body for a request: the rows of its mask are copied. *)
Definition copy_masks (grammar_bitmask : list (list Z)) (n : nat) (logit_index cumulative_index : Z) (x : list (list Z) * list Z)
    : outcome (list (list Z) * list Z) :=
  foldl (λ acc i, '(sorted, out) ← acc;
    row ← py_index grammar_bitmask (cumulative_index + i);
    sorted ← array_set sorted (Z.to_nat (logit_index + i)) row;
    Ok (sorted, out ++ [logit_index + i])) (Ok x) (range (Z.of_nat n)).
Definition copy_request o (indices : gmap string Z) (grammar_bitmask : list (list Z)) (acc : outcome (list (list Z) * list Z * Z)) (e : string * Z)
    : outcome (list (list Z) * list Z * Z) :=
  '(sorted, out, cumulative_index) ← acc;
  logit_index ← dict_get indices e.1;
  x ← copy_masks grammar_bitmask (Z.to_nat (1 + num_spec_tokens o e.1)) logit_index cumulative_index (sorted, out);
  Ok (x, cumulative_index + (1 + num_spec_tokens o e.1)).
(** [apply_grammar_bitmask]: the mask in the order of the logits, and the rows that are
    masked; [width] is the bitmask's second dimension. *)
Definition apply_grammar_bitmask o (grammar_bitmask : list (list Z)) (width num_logits : nat) b : outcome (list (list Z) * list Z) :=
  '(sorted, out, _) ← foldl (copy_request o (struct_out_indices o b) grammar_bitmask)
    (Ok (replicate num_logits (replicate width 0), [], 0)) (sorted_items (structured_output_request_ids o));
  Ok (sorted, out).

(** * Prompt log-probabilities *)

(** The log-probabilities of one position: those of the hidden state at an index of the
    step, for the token that follows it. *)
Context (prompt_logprobs_row : Z → Z → Z → handle).

Definition set_in_progress (f : gmap string PromptLogprobs → gmap string PromptLogprobs) (b : InputBatch) : InputBatch :=
  let d := dicts b in set_dicts (mkReqDicts (num_logprobs d) (num_prompt_logprobs d) (f (in_progress_prompt_logprobs_cpu d)) (pooling_params d)) b.
Definition set_num_prompt_logprobs (f : gmap string Z → gmap string Z) (b : InputBatch) : InputBatch :=
  let d := dicts b in set_dicts (mkReqDicts (num_logprobs d) (f (num_prompt_logprobs d)) (in_progress_prompt_logprobs_cpu d) (pooling_params d)) b.

(** The loop's body; the accumulators are [completed_prefill_reqs] and
    [prompt_logprobs_dict], which holds the tensors after they have been written. *)
Definition prompt_logprobs_step o (acc : list string * gmap string PromptLogprobs) (e : string * Z)
    : M RunnerState (list string * gmap string PromptLogprobs) :=
  let '(id, num) := e in
  num_tokens ← lift_outcome (scheduled_count o id);
  request ← get_request id;
  let num_prompt_tokens := len (prompt_token_ids request) in
  b ← gets input_batch;
  let tensors := default (replicate (Z.to_nat (num_prompt_tokens - 1)) None) (in_progress_prompt_logprobs_cpu (dicts b) !! id) in
  let start_idx := num_computed_tokens request in
  let start_tok := start_idx + 1 in
  let num_remaining_tokens := num_prompt_tokens - start_tok in
  let last_chunk := bool_decide (num_remaining_tokens < num_tokens) in
  let num_logits := if last_chunk then num_remaining_tokens else num_tokens in
  tensors ←
    (if decide (num_logits <= 0) then mret tensors
     else
       req_idx ← lift_outcome (dict_get (req_id_to_index b) id);
       x ← gets buffers;
       offset ← lift_outcome (array_get (query_start_loc_np x) req_idx);
       let tgt_token_ids := slice start_tok (start_tok + num_logits) (prompt_token_ids request) in
       let rows := imap (λ k tok, Some (prompt_logprobs_row num (offset + Z.of_nat k) tok)) tgt_token_ids in
       lift_outcome (assign_slice tensors (Z.to_nat start_idx) rows));
  on_batch (modify (set_in_progress (<[id := tensors]>))) ;;
  mret (if last_chunk then (acc.1 ++ [id], <[id := tensors]> acc.2) else acc).
Definition _get_prompt_logprobs_dict o : M RunnerState (gmap string PromptLogprobs) :=
  b ← gets input_batch;
  '(completed, prompt_logprobs_dict) ← fold_each (map_to_list (num_prompt_logprobs (dicts b))) ([], ∅) (prompt_logprobs_step o);
  for_each completed (λ id,
    on_batch (modify (set_num_prompt_logprobs (delete id))) ;; on_batch (modify (set_in_progress (delete id)))) ;;
  mret prompt_logprobs_dict.

(** * What has been sampled *)

(** [generator.set_offset(generator.get_offset() - 4)]. *)
Definition rewind_generator (i : nat) : M RunnerState unit :=
  b ← gets input_batch;
  match generators (slots b) !! i with
  | None => mret tt
  | Some g => s ← get; n ← lift_outcome (dict_get (generator_offsets s) g);
              modify (set_generator_offsets (<[g := n - 4]> (generator_offsets s)))
  end.
(** The rows whose prompt is not complete: what is sampled for them is ignored. *)
Definition discard_sampled_tokens_req_indices o : M RunnerState (list nat) :=
  b ← gets input_batch;
  ids ← lift_outcome (req_id_list b);
  fold_each (zip (seq 0 (length ids)) ids) [] (λ acc '(i, id),
    r ← get_request id;
    n ← lift_outcome (scheduled_count o id);
    if decide (num_computed_tokens r + n < cached_num_tokens r) then rewind_generator i ;; mret (acc ++ [i]) else mret acc).
Definition clear_discarded (indices : list nat) (sampled : list (list Z)) : outcome (list (list Z)) :=
  foldl (λ acc i, l ← acc; array_set l i []) (Ok sampled) indices.

(** The sampled tokens of a row are written behind its tokens, and join the request's output. *)
Definition row_with_sampled_tokens (sampled_ids : list Z) (r : Row) : outcome Row :=
  let start_idx := row_num_tokens_no_spec r in
  let end_idx := start_idx + len sampled_ids in
  toks ← write_row_tokens start_idx sampled_ids r;
  Ok (set_row_counts end_idx end_idx (row_num_prompt_tokens r) (row_num_computed_tokens r) (set_row_tokens toks r)).
Definition cache_sampled (req_idx : nat) (sampled_ids : list Z) : M RunnerState unit :=
  match sampled_ids with
  | [] => mret tt
  | _ =>
    b ← gets input_batch;
    r ← lift_outcome (array_get (rows (slots b)) req_idx);
    assert_ (bool_decide (row_num_tokens_no_spec r + len sampled_ids <= rc_max_model_len cfg)) ;;
    on_batch (update_row req_idx (row_with_sampled_tokens sampled_ids)) ;;
    ids ← lift_outcome (req_id_list b);
    id ← lift_outcome (array_get ids req_idx);
    extend_output id sampled_ids
  end.
Definition cache_sampled_tokens (sampled : list (list Z)) : M RunnerState unit :=
  for_each (zip (seq 0 (length sampled)) sampled) (λ '(i, ids), cache_sampled i ids).

(** [propose_ngram_draft_token_ids]. *)
Definition ngram_drafts (drafter : NgramProposer) b (i : nat) (sampled_ids : list Z) : outcome (list Z) :=
  match sampled_ids with
  | [] => Ok []
  | _ =>
    ids ← req_id_list b;
    id ← array_get ids i;
    if decide (id ∈ spec_decode_unsupported_reqs (sets b)) then Ok []
    else
      r ← array_get (rows (slots b)) i;
      let num_tokens := row_num_tokens_no_spec r in
      if decide (num_tokens >= rc_max_model_len cfg) then Ok []
      else drafts ← propose drafter (slice_to num_tokens (row_token_ids r)); Ok (default [] drafts)
  end.
Definition propose_ngram_draft_token_ids (drafter : NgramProposer) (sampled : list (list Z)) b : outcome (list (list Z)) :=
  mapM (λ '(i, ids), ngram_drafts drafter b i ids) (zip (seq 0 (length sampled)) sampled).

(** * The step *)

(** What the sampler, or the rejection sampler, returns: one row per request, all of one
    width; and the generators' states afterwards. *)
Record SamplerOutput : Type := mkSamplerOutput {
  so_sampled_token_ids : list (list Z);
  so_width : Z;
  so_logprobs : option handle;
  so_generator_offsets : gmap handle Z
}.
(** The model, the pooler and the sampler; a grammar's bitmask, and tensors as handles. *)
Context (run_model : PreparedInputs → list (list Embedding) → option (list (list Z) * list Z) → RunnerState → SamplerOutput).
Context (run_pooler : PreparedInputs → list (list Embedding) → RunnerState → list handle).
Context (bitmask_rows : handle → list (list Z)) (pack_logprobs : PromptLogprobs → handle).
(** The drafts of a drafter other than the n-gram one. *)
Context (other_drafts : list (list Z) → RunnerState → list (list Z)).
Context (is_multimodal_model : bool).
Context (to_float32 : Q → Q) (worker_params : RequestParams → BatchParams) (new_generator : RequestParams → option handle).

Definition valid_sampled_token_ids b (out : SamplerOutput) : list (list Z) :=
  if decide (so_width out = 1) then so_sampled_token_ids out else parse_output (vocab_size (InputBatch.cfg b)) (so_sampled_token_ids out).

(** [_pool]: the requests whose prompt is complete have an output. *)
Definition _pool (raw_pooler_output : list handle) s : outcome ModelRunnerOutput :=
  let b := input_batch s in
  let n := num_reqs b in
  if decide (n = base.size (pooling_params (dicts b))) then
  let outputs := zip_with (λ raw '(seq_len, prompt_len), if decide (seq_len = prompt_len) then Some raw else None) raw_pooler_output
                   (zip (take n (seq_lens_dev (buffers s))) (row_num_prompt_tokens <$> take n (rows (slots b)))) in
  Ok (mkModelRunnerOutput (Z.of_nat <$> req_id_to_index b) [] None None ∅ outputs None None None)
  else Raise AssertionError.

Definition grammar_masks o (prepared : PreparedInputs) b : outcome (option (list (list Z) * list Z)) :=
  match grammar_bitmask o with
  | None => Ok None
  | Some h =>
    let rows := bitmask_rows h in
    x ← apply_grammar_bitmask o rows (match rows with r :: _ => length r | [] => 0%nat end) (length (pi_logits_indices prepared)) b;
    Ok (Some x)
  end.
Definition draft_tokens (sampled : list (list Z)) s : outcome (option (list (list Z))) :=
  if rc_has_speculative_config cfg then
    (** [spec_decode_common_attn_metadata] is that of the first group, if there is one. *)
    match rc_kv_cache_groups cfg, rc_drafter cfg with
    | [], _ => Raise AssertionError
    | _, Some drafter => l ← propose_ngram_draft_token_ids drafter sampled (input_batch s); Ok (Some l)
    | _, None => Ok (Some (other_drafts sampled s))
    end
  else Ok None.

(** After the forward pass. *)
Definition finish_step o (prepared : PreparedInputs) (mm_embeds : list (list Embedding)) : M RunnerState ModelRunnerOutput :=
  s ← get;
  masks ← lift_outcome (grammar_masks o prepared (input_batch s));
  let out := run_model prepared mm_embeds masks s in
  modify (set_generator_offsets (so_generator_offsets out)) ;;
  discarded ← discard_sampled_tokens_req_indices o;
  prompt_logprobs ← _get_prompt_logprobs_dict o;
  s ← get;
  sampled ← lift_outcome (clear_discarded discarded (valid_sampled_token_ids (input_batch s) out));
  cache_sampled_tokens sampled ;;
  s ← get;
  drafts ← lift_outcome (draft_tokens sampled s);
  mret (mkModelRunnerOutput (Z.of_nat <$> req_id_to_index (input_batch s)) sampled drafts (so_logprobs out)
          ((Some ∘ pack_logprobs) <$> prompt_logprobs) [] None None (Some ∅)).

(** [execute_model] without a KV connector; an earlier stage of a pipeline returns hidden
    states ([None]). *)
Definition execute_model o : M RunnerState (option ModelRunnerOutput) :=
  _update_states to_float32 cfg worker_params new_generator o ;;
  if decide (total_num_scheduled_tokens o = 0) then mret (Some EMPTY_MODEL_RUNNER_OUTPUT)
  else
    prepared ← _prepare_inputs cfg use_cascade_attention o;
    mm_embeds ← (if is_multimodal_model then
        _execute_mm_encoder o ;; s ← get; lift_outcome (_gather_mm_embeddings o s)
      else mret []);
    if rc_is_last_rank cfg then
      s ← get;
      if decide (pooling_params (dicts (input_batch s)) = ∅) then
        out ← finish_step o prepared mm_embeds; mret (Some out)
      else out ← lift_outcome (_pool (run_pooler prepared mm_embeds s) s); mret (Some out)
    else mret None.
End execute.
