(* ===== verification/ExecuteFacts.v ===== *)
(** After the forward pass: what has been sampled joins the requests and their rows, and the
    batch shows the cached requests again. *)
From Stdlib Require Import ZArith QArith Lia.
From stdpp Require Import base strings countable gmap sets list.
From S2P Require Import Prelude Request KVCacheSpec SchedulerData Arrays BlockTable BatchUpdate InputBatch InputBatchFacts InputBatchMoves ModelRunner PrepareInputs PrepareFacts StepInputs BatchRows BatchReorder UpdateStates WorkerStep ExecuteModel.
Local Open Scope Z_scope.

(** * A row whose tokens are replaced *)
Definition replace_tokens (toks : list Z) (n : Z) (r : Row) : Row :=
  set_row_counts n n (row_num_prompt_tokens r) (row_num_computed_tokens r) (set_row_tokens toks r).
Definition replaced (toks : list Z) (n : Z) (v : RowView) : RowView := set_view_row (replace_tokens toks n (rv_row v)) v.

Lemma visible_replaced iv toks n v : visible_row iv (replaced toks n v) = replaced toks n (visible_row iv v).
Proof. unfold visible_row. by destruct (iv_pooling iv). Qed.
Lemma request_shown_output to_float32 c r spec l :
  replaced ((prompt_token_ids r ++ output_token_ids r) ++ l) (cached_num_tokens r + len l) (with_spec spec (request_shown to_float32 c r).1)
  = (request_shown to_float32 c (set_cached_output (output_token_ids r ++ l) r)).1.
Proof.
  assert (cached_num_tokens r + len l = cached_num_tokens (set_cached_output (output_token_ids r ++ l) r)) as ->.
  { unfold cached_num_tokens. cbn. rewrite len_app. lia. }
  rewrite <- app_assoc. unfold request_shown. by destruct r as [? ? [| |]].
Qed.

(** What has changed in the batch. *)
Record row_replaced b id v' b' : Prop := {
  rp_ok : batch_ok b';
  rp_builder : batch_update_builder b' = batch_update_builder b;
  rp_cfg : InputBatch.cfg b' = InputBatch.cfg b;
  rp_index : req_id_to_index b' = req_id_to_index b;
  rp_ids : _req_ids (slots b') = _req_ids (slots b);
  rp_tables : block_table (slots b') = block_table (slots b);
  rp_sets : sets b' = sets b;
  rp_dicts : dicts b' = dicts b;
  rp_generators : generators (slots b') = generators (slots b);
  rp_shown : fst <$> shown b' = <[id := v']> (fst <$> shown b);
  rp_masks : ∀ i, mask_row b' i = mask_row b i
}.

Lemma replace_intro b i id toks n sh r r' :
  batch_ok b → req_id_to_index b !! id = Some i → shown b !! id = Some sh → rows (slots b) !! i = Some r →
  length (row_token_ids r') = length (row_token_ids r) → 0 <= row_num_tokens r' <= Z.of_nat (max_model_len (InputBatch.cfg b)) → row_lora r' = row_lora r →
  trim r' = replace_tokens toks n (trim r) →
  row_replaced b id (replaced toks n sh.1) (set_slots (set_rows (<[i := r']> (rows (slots b))) (slots b)) b).
Proof.
  intros Hb Hi Hsh Hr Hlen Hnum Hlora Htrim. pose proof Hb as [Hs Hix Hids Hl Hbd]. pose proof (lookup_lt_Some _ _ _ Hr) as Hlt.
  split; batch_simpl; [split|done..| |done]; batch_simpl.
  - destruct Hs. split; batch_simpl; try done. apply rows_ok_insert; [done|rewrite Hlen; by apply (ro_row _ _ so_rows i)|done].
  - done.
  - done.
  - eapply lora_ok_ext; [exact Hl|]. intros id'. unfold lora_of. destruct (req_id_to_index b !! id') as [j|]; [|done]. cbn.
    destruct (decide (j = i)) as [->|Hj]; [|by rewrite list_lookup_insert_ne]. rewrite list_lookup_insert_eq, Hr by done. cbn. by rewrite Hlora.
  - done.
  - apply map_eq. intros id'. rewrite lookup_fmap. destruct (decide (id' = id)) as [->|Hne].
    + rewrite lookup_insert_eq. erewrite shown_lookup in Hsh; [|done|unfold row_view; rewrite Hr; done]. injection Hsh as <-. cbn [fst].
      erewrite shown_lookup; [|exact Hi|unfold row_view; batch_simpl; rewrite list_lookup_insert_eq by done; cbn; rewrite Htrim; done].
      batch_simpl. cbn [fmap option_fmap option_map fst]. rewrite <- visible_replaced. done.
    + rewrite lookup_insert_ne, lookup_fmap by done. f_equal. apply shown_agree; batch_simpl; [|done]. destruct (req_id_to_index b !! id') as [j|] eqn:Hj; [|done].
      assert (j ≠ i) as Hji by (intros ->; apply Hne; by eapply index_ok_inj). unfold row_view. batch_simpl. by rewrite list_lookup_insert_ne.
Qed.

Section cache.
Context (to_float32 : Q → Q) (cfg : RunnerConfig).
Implicit Types (s : RunnerState) (b : InputBatch) (id : string) (r : CachedRequestState).

(** The row of a request with its drafts. *)
Definition row_shows b (spec : list Z) id r : Prop :=
  fst <$> shown b !! id = Some (with_spec spec (request_shown to_float32 (InputBatch.cfg b) r).1).

Lemma row_shows_tokens b spec id i r : batch_ok b → req_id_to_index b !! id = Some i → row_shows b spec id r →
  ∃ row sh, rows (slots b) !! i = Some row ∧ shown b !! id = Some sh ∧ sh.1 = with_spec spec (request_shown to_float32 (InputBatch.cfg b) r).1 ∧
    row_num_tokens_no_spec row = cached_num_tokens r ∧ take (Z.to_nat (cached_num_tokens r)) (row_token_ids row) = prompt_token_ids r ++ output_token_ids r ∧
    row_num_tokens row = cached_num_tokens r + len spec.
Proof.
  intros Hb Hi Hsh. pose proof (occupied_lt _ _ _ _ (bo_slots _ Hb) (proj1 (bo_index _ Hb id i) Hi)) as Hmax.
  destruct (lookup_lt_is_Some_2 (rows (slots b)) i) as [row Hrow]; [by rewrite (ro_length _ _ (so_rows _ _ (bo_slots _ Hb)))|].
  unfold row_shows in Hsh. erewrite shown_lookup in Hsh; [|exact Hi|unfold row_view; rewrite Hrow; done]. cbn in Hsh. injection Hsh as Hv.
  set (iv := id_view (sets b) (dicts b) id) in Hv. set (v := mkRowView _ _ _ _ _) in Hv.
  destruct (visible_tokens iv v) as (T1 & T2 & _ & T4 & _). rewrite Hv in T1, T2, T4. cbn in T1, T2, T4.
  destruct (request_shown_tokens to_float32 (InputBatch.cfg b) r) as [S1 _]. destruct (request_shown_row to_float32 (InputBatch.cfg b) r) as (S3 & S3' & _).
  exists row, (visible_row iv v, iv). split_and!; [done|by apply (shown_lookup b id i v); [|unfold row_view; rewrite Hrow]|done|congruence| |congruence].
  rewrite S1 in T4. rewrite S3 in T1. unfold valid_tokens in T4. rewrite <- T1 in T4. pose proof (len_nonneg spec).
  apply (f_equal (take (Z.to_nat (cached_num_tokens r)))) in T4. rewrite take_take, Nat.min_l in T4 by lia. rewrite <- T4.
  assert (Z.to_nat (cached_num_tokens r) = length (prompt_token_ids r ++ output_token_ids r)) as ->; [unfold cached_num_tokens, len; rewrite length_app; lia|].
  by rewrite take_app_length.
Qed.

(** The state after the sampled tokens of one request have been cached. *)
Definition output_cached s id r (l : list Z) b' : RunnerState :=
  set_output_lists (<[output_ref r := output_token_ids r ++ l]> (output_lists s))
    (set_requests (<[id := set_cached_output (output_token_ids r ++ l) r]> (requests s)) (set_input_batch b' s)).

Lemma wp_cache_sampled s i id r spec l Q :
  batch_dense (input_batch s) → req_id_to_index (input_batch s) !! id = Some i → requests s !! id = Some r → row_shows (input_batch s) spec id r → l ≠ [] →
  cached_num_tokens r + len l <= Z.of_nat (max_model_len (InputBatch.cfg (input_batch s))) → cached_num_tokens r + len l <= rc_max_model_len cfg →
  (∀ b', row_replaced (input_batch s) id (request_shown to_float32 (InputBatch.cfg (input_batch s)) (set_cached_output (output_token_ids r ++ l) r)).1 b' →
     Q tt (output_cached s id r l b')) →
  wp (cache_sampled cfg i l) Q s.
Proof.
  intros [Hb Hd] Hi Hr Hsh Hl Hroom Hmax HQ. destruct (row_shows_tokens _ _ _ _ _ Hb Hi Hsh) as (row & sh & Hrow & Hshl & Hsh1 & Hns & Htoks & Hnum).
  destruct (ro_row _ _ (so_rows _ _ (bo_slots _ Hb)) i row Hrow) as [Hlen Hle]. pose proof (len_nonneg l) as Hl0.
  assert (0 <= cached_num_tokens r) as H0 by (unfold cached_num_tokens, len; lia).
  destruct (assign_slice_ok (row_token_ids row) (Z.to_nat (row_num_tokens_no_spec row)) l) as (t & Ht & Htl & Htt); [unfold len in *; lia|].
  destruct l as [|x l']; [done|]. set (l := x :: l') in *. unfold cache_sampled. fold l.
  apply wp_bind, wp_gets, wp_bind. eapply wp_lift_outcome; [by apply array_get_Some|].
  apply wp_bind, wp_assert; [apply bool_decide_eq_true; lia|].
  apply wp_bind. unfold on_batch. apply wp_zoom. eapply wp_update_row; [exact Hrow|unfold row_with_sampled_tokens, write_row_tokens; rewrite Ht; done|].
  set (row' := set_row_counts _ _ _ _ _). cbv beta. set (b' := set_slots _ _).
  assert (row_replaced (input_batch s) id (request_shown to_float32 (InputBatch.cfg (input_batch s)) (set_cached_output (output_token_ids r ++ l) r)).1 b') as Hrep.
  { rewrite <- (request_shown_output to_float32 _ r spec l), <- Hsh1. eapply replace_intro; [done|done|done|exact Hrow|exact Htl|cbn; lia|done|].
    unfold trim at 1, valid_tokens. subst row'. cbn. rewrite Hns in *. replace (Z.to_nat (cached_num_tokens r + len l)) with (Z.to_nat (cached_num_tokens r) + length l)%nat by (unfold len; lia).
    rewrite Htt, Htoks. done. }
  destruct (req_id_list_dense (input_batch s) Hd) as (ids & Hids & _). pose proof (req_id_list_lookup _ ids i id Hids) as Hidl.
  assert (req_id_list b' = Ok ids) as Hids' by (unfold req_id_list; rewrite (rp_ids _ _ _ _ Hrep); exact Hids).
  apply wp_bind. eapply wp_lift_outcome; [exact Hids'|].
  apply wp_bind. eapply wp_lift_outcome; [apply array_get_Some, Hidl; by apply (bo_index _ Hb)|].
  unfold extend_output. apply wp_bind. eapply wp_get_request; [exact Hr|]. apply wp_bind, wp_modify, wp_modify. by apply (HQ b').
Qed.

(** ** All requests *)
Definition with_output (l : list Z) r : CachedRequestState := set_cached_output (output_token_ids r ++ l) r.
Lemma with_output_nil r : with_output [] r = r.
Proof. unfold with_output. rewrite app_nil_r. by destruct r. Qed.

Definition same_batch b b' : Prop :=
  batch_dense b' ∧ batch_update_builder b' = batch_update_builder b ∧ InputBatch.cfg b' = InputBatch.cfg b ∧ req_id_to_index b' = req_id_to_index b ∧
  _req_ids (slots b') = _req_ids (slots b) ∧ block_table (slots b') = block_table (slots b) ∧ sets b' = sets b ∧ dicts b' = dicts b ∧
  ∀ i, mask_row b' i = mask_row b i.
Lemma same_batch_refl b : batch_dense b → same_batch b b.
Proof. by intros Hb. Qed.
Lemma same_batch_replaced b b1 id v b' : same_batch b b1 → row_replaced b1 id v b' → same_batch b b'.
Proof.
  intros ([H1 H1'] & H2 & H3 & H4 & H5 & H6 & H7 & H8 & H9) [R1 R2 R3 R4 R5 R6 R7 R8 R9 R10 R11]. split_and!; [|congruence..|intros i; by rewrite R11].
  split; [done|]. by rewrite R5.
Qed.

(** The first [k] rows have got what was sampled for them. *)
Record tokens_cached s (spec : string → list Z) (sampled : list (list Z)) (k : nat) s' : Prop := {
  tc_batch : same_batch (input_batch s) (input_batch s');
  tc_requests : ∀ id, requests s' !! id = match req_id_to_index (input_batch s) !! id with
    | Some i => with_output (if decide (i < k)%nat then sampled !!! i else []) <$> requests s !! id
    | None => requests s !! id
    end;
  tc_rows : ∀ id i r, req_id_to_index (input_batch s) !! id = Some i → requests s' !! id = Some r →
    row_shows (input_batch s') (if decide (i < k)%nat then [] else spec id) id r;
  tc_frame : s' = set_output_lists (output_lists s') (set_requests (requests s') (set_input_batch (input_batch s') s))
}.

Record sampled_fits s (spec : string → list Z) (sampled : list (list Z)) : Prop := {
  sa_dense : batch_dense (input_batch s);
  sa_rows : ∀ id i, req_id_to_index (input_batch s) !! id = Some i → ∃ r, requests s !! id = Some r ∧ row_shows (input_batch s) (spec id) id r;
  sa_length : length sampled = length (_req_ids (slots (input_batch s)));
  sa_some : ∀ id i, req_id_to_index (input_batch s) !! id = Some i → sampled !! i = Some [] → spec id = [];
  sa_room : ∀ id i r l, req_id_to_index (input_batch s) !! id = Some i → requests s !! id = Some r → sampled !! i = Some l →
    cached_num_tokens r + len l <= Z.of_nat (max_model_len (InputBatch.cfg (input_batch s))) ∧ cached_num_tokens r + len l <= rc_max_model_len cfg
}.

Lemma row_shows_replaced b id v b' id' spec r : row_replaced b id v b' → id' ≠ id → row_shows b spec id' r → row_shows b' spec id' r.
Proof.
  intros H Hne Hs. unfold row_shows in *. rewrite (rp_cfg _ _ _ _ H), <- Hs, <- !lookup_fmap, (rp_shown _ _ _ _ H). by rewrite lookup_insert_ne.
Qed.

Lemma tokens_cached_step s spec sampled k s' l :
  sampled_fits s spec sampled → tokens_cached s spec sampled k s' → sampled !! k = Some l →
  wp (cache_sampled cfg k l) (λ _ s'', tokens_cached s spec sampled (S k) s'') s'.
Proof.
  intros Hf [T1 T2 T3 T4] Hl. pose proof T1 as (Hd & Hbd & Hcfg & Hix & Hids & Htb & Hset & Hdic & _).
  destruct (lookup_lt_is_Some_2 (_req_ids (slots (input_batch s))) k) as [[id|] Hk]; [rewrite <- (sa_length _ _ _ Hf); by eapply lookup_lt_Some| |by destruct (proj2 (sa_dense _ _ _ Hf) k)].
  pose proof (proj2 (bo_index _ (proj1 (sa_dense _ _ _ Hf)) id k) Hk) as Hi. destruct (sa_rows _ _ _ Hf id k Hi) as (r & Hr & Hsh).
  assert (requests s' !! id = Some r) as Hr' by (rewrite T2, Hi, decide_False, Hr by lia; cbn; by rewrite with_output_nil).
  pose proof (T3 id k r Hi Hr') as Hsh'. rewrite decide_False in Hsh' by lia.
  assert (∀ id' i, req_id_to_index (input_batch s) !! id' = Some i → id' ≠ id → i ≠ k) as Hne.
  { intros id' i Hi' Hid ->. apply Hid. eapply index_ok_inj; [apply (bo_index _ (proj1 (sa_dense _ _ _ Hf)))|exact Hi'|exact Hi]. }
  destruct (decide (l = [])) as [->|Hne'].
  - apply wp_ret. pose proof (sa_some _ _ _ Hf id k Hi Hl) as Hsp. split; [done| | |done].
    + intros id'. rewrite T2. destruct (req_id_to_index (input_batch s) !! id') as [i|] eqn:Hi'; [|done]. f_equal. f_equal.
      destruct (decide (i = k)) as [->|Hik]; [rewrite decide_False, decide_True by lia; symmetry; by apply list_lookup_total_correct|].
      repeat case_decide; done || lia.
    + intros id' i r' Hi' Hr''. pose proof (T3 id' i r' Hi' Hr'') as H. destruct (decide (id' = id)) as [->|Hid].
      * assert (i = k) as -> by congruence. rewrite decide_False in H by lia. rewrite decide_True by lia. by rewrite <- Hsp.
      * pose proof (Hne id' i Hi' Hid). repeat case_decide; done || lia.
  - destruct (sa_room _ _ _ Hf id k r l Hi Hr Hl) as [Hroom Hmax].
    eapply (wp_cache_sampled s' k id r (spec id) l); [done|by rewrite Hix|done|done|done|by rewrite Hcfg|done|]. intros b' Hrep. split.
    + cbn. by eapply same_batch_replaced.
    + cbn. intros id'. destruct (decide (id' = id)) as [->|Hid].
      * rewrite lookup_insert_eq, Hi, decide_True, Hr by lia. cbn. unfold with_output. by rewrite (list_lookup_total_correct _ _ _ Hl).
      * rewrite lookup_insert_ne, T2 by done. destruct (req_id_to_index (input_batch s) !! id') as [i|] eqn:Hi'; [|done]. f_equal. f_equal.
        pose proof (Hne id' i Hi' Hid). repeat case_decide; done || lia.
    + cbn. intros id' i r' Hi'. destruct (decide (id' = id)) as [->|Hid].
      * rewrite lookup_insert_eq. intros [= <-]. assert (i = k) as -> by congruence. rewrite decide_True by lia. unfold row_shows.
        rewrite (rp_cfg _ _ _ _ Hrep), <- lookup_fmap, (rp_shown _ _ _ _ Hrep), lookup_insert_eq. by rewrite with_spec_nil.
      * rewrite lookup_insert_ne by done. intros Hr''. eapply row_shows_replaced; [exact Hrep|done|]. pose proof (T3 id' i r' Hi' Hr'') as H.
        pose proof (Hne id' i Hi' Hid). repeat case_decide; done || lia.
    + unfold output_cached. cbn. rewrite T4. done.
Qed.

Lemma wp_cache_sampled_tokens s spec sampled Q :
  sampled_fits s spec sampled → (∀ s', tokens_cached s spec sampled (length sampled) s' → Q tt s') → wp (cache_sampled_tokens cfg sampled) Q s.
Proof.
  intros Hf HQ. unfold cache_sampled_tokens. apply wp_for_each with (I := λ done _ s', tokens_cached s spec sampled (length done) s').
  - cbn [length]. split; [apply same_batch_refl, Hf| | |by destruct s].
    + intros id. destruct (req_id_to_index (input_batch s) !! id) as [i|]; [|done]. rewrite decide_False by lia. destruct (requests s !! id); [|done]. cbn. by rewrite with_output_nil.
    + intros id i r Hi Hr. rewrite decide_False by lia. destruct (sa_rows _ _ _ Hf id i Hi) as (r' & Hr' & Hsh). by assert (r' = r) as -> by congruence.
  - intros done [k l] todo s' Hsplit HT. apply zip_seq_split in Hsplit as [-> Hk]. rewrite length_app, Nat.add_1_r. by eapply tokens_cached_step.
  - intros s' HT. rewrite length_zip_with, length_seq, Nat.min_id in HT. by apply HQ.
Qed.
End cache.
