(* ===== verification/FinishStep.v ===== *)
(** After the forward pass, continued: what is sampled for incomplete prompts is dropped,
    the log-probabilities of the prompts are collected, and after the whole step the batch
    shows the cached requests again. *)
From Stdlib Require Import ZArith QArith Lia.
From stdpp Require Import base strings countable gmap sets list.
From S2P Require Import Prelude Request KVCacheSpec SchedulerData Arrays NgramProposer RejectionSampler BlockTable BatchUpdate InputBatch InputBatchFacts InputBatchMoves ModelRunner PrepareInputs PrepareFacts StepInputs BatchRows BatchReorder UpdateStates WorkerStep ExecuteModel ExecuteFacts.
Local Open Scope Z_scope.

(** * Dropping what is sampled for incomplete prompts *)
Lemma clear_discarded_ok indices (sampled : list (list Z)) :
  (∀ i, i ∈ indices → (i < length sampled)%nat) →
  ∃ l, clear_discarded indices sampled = Ok l ∧ length l = length sampled ∧
    ∀ i, l !! i = if decide (i ∈ indices) then Some [] else sampled !! i.
Proof.
  unfold clear_discarded. revert sampled. induction indices as [|k indices IH]; intros sampled Hin.
  - exists sampled. split_and!; [done|done|]. intros i. by rewrite decide_False by apply not_elem_of_nil.
  - cbn [foldl]. change (Ok sampled ≫= _) with (array_set sampled k []). rewrite array_set_lt by (apply Hin; by left).
    destruct (IH (<[k := []]> sampled)) as (l & Hl & Hlen & Hlook).
    { intros i Hi. rewrite length_insert. apply Hin. by right. }
    exists l. rewrite length_insert in Hlen. split_and!; [done|done|]. intros i. rewrite Hlook.
    destruct (decide (i ∈ indices)) as [Hi|Hi]; [by rewrite decide_True by by right|].
    destruct (decide (i = k)) as [->|Hne].
    + rewrite decide_True by by left. apply list_lookup_insert_eq. apply Hin. by left.
    + rewrite list_lookup_insert_ne by done. by rewrite decide_False by (rewrite elem_of_cons; naive_solver).
Qed.

Section discard.
Context (o : SchedulerOutput).
Implicit Types (s : RunnerState) (b : InputBatch) (id : string) (r : CachedRequestState).

(** The step does not reach the end of the request's tokens. *)
Definition incomplete s id : Prop := ∃ r c, requests s !! id = Some r ∧ scheduled_count o id = Ok c ∧ num_computed_tokens r + c < cached_num_tokens r.
Definition generators_known s : Prop := ∀ i g, generators (slots (input_batch s)) !! i = Some g → is_Some (generator_offsets s !! g).
Definition requests_known s : Prop := ∀ id, is_Some (req_id_to_index (input_batch s) !! id) → ∃ r c, requests s !! id = Some r ∧ scheduled_count o id = Ok c.

Lemma wp_rewind s i Q :
  generators_known s → (∀ offs, generators_known (set_generator_offsets offs s) → Q tt (set_generator_offsets offs s)) → wp (rewind_generator i) Q s.
Proof.
  intros Hg HQ. unfold rewind_generator. apply wp_bind, wp_gets. destruct (generators (slots (input_batch s)) !! i) as [g|] eqn:Hi.
  - destruct (Hg i g Hi) as [n Hn]. apply wp_bind, wp_get, wp_bind. eapply wp_lift_outcome; [unfold dict_get; by rewrite Hn|]. apply wp_modify, HQ.
    intros j g' Hj. cbn. destruct (decide (g' = g)) as [->|Hne]; [rewrite lookup_insert_eq; by eexists|]. rewrite lookup_insert_ne by done. by apply (Hg j).
  - apply wp_ret. specialize (HQ (generator_offsets s)). destruct s. by apply HQ.
Qed.

Lemma wp_discard s Q :
  batch_dense (input_batch s) → requests_known s → generators_known s →
  (∀ l offs, (∀ i, i ∈ l ↔ ∃ id, req_id_to_index (input_batch s) !! id = Some i ∧ incomplete s id) → Q l (set_generator_offsets offs s)) →
  wp (discard_sampled_tokens_req_indices o) Q s.
Proof.
  intros [Hb Hd] Hk Hg HQ. unfold discard_sampled_tokens_req_indices. apply wp_bind, wp_gets.
  destruct (req_id_list_dense _ Hd) as (ids & Hids & _). apply wp_bind. eapply wp_lift_outcome; [exact Hids|].
  assert (∀ i id, ids !! i = Some id ↔ req_id_to_index (input_batch s) !! id = Some i) as Hix.
  { intros i id. rewrite (req_id_list_lookup _ _ _ _ Hids). symmetry. apply (bo_index _ Hb). }
  apply wp_fold_each with (I := λ done _ l s', ∃ offs, s' = set_generator_offsets offs s ∧ generators_known s' ∧
    ∀ i, i ∈ l ↔ (i < length done)%nat ∧ ∃ id, req_id_to_index (input_batch s) !! id = Some i ∧ incomplete s id).
  - exists (generator_offsets s). split_and!; [by destruct s|done|]. intros i. cbn. rewrite elem_of_nil. lia.
  - intros done [k id] todo l s' Hsplit (offs & -> & Hg' & Hl). apply zip_seq_split in Hsplit as [-> Hid]. apply Hix in Hid.
    destruct (Hk id) as (r & c & Hr & Hc); [by eexists|]. apply wp_bind. eapply wp_get_request; [exact Hr|]. apply wp_bind. eapply wp_lift_outcome; [exact Hc|].
    assert (∀ cut : bool, (cut = true ↔ incomplete s id) → ∀ i, i ∈ (if cut then l ++ [length done] else l) ↔
      (i < length (done ++ [(length done, id)]))%nat ∧ ∃ id, req_id_to_index (input_batch s) !! id = Some i ∧ incomplete s id) as Hnext.
    { intros cut Hbv i. assert (∀ id', req_id_to_index (input_batch s) !! id' = Some (length done) → id' = id) as Hone.
      { intros id' Hid'. by eapply index_ok_inj; [apply (bo_index _ Hb)|..]. }
      rewrite length_app. cbn [length]. destruct cut; rewrite ?elem_of_app, ?list_elem_of_singleton, Hl.
      - split; [intros [[? ?]|H]; [split; [lia|done]|subst i; split; [lia|]; exists id; split; [done|by apply Hbv]]|].
        intros [Hi Hex]. destruct (decide (i = length done)); [by right|left; split; [lia|done]].
      - split; [intros [? ?]; split; [lia|done]|]. intros [Hi (id' & Hid' & Hin)]. split; [|by exists id'].
        destruct (decide (i = length done)) as [->|]; [|lia]. apply Hone in Hid' as ->. by apply Hbv in Hin. }
    case_decide as Hlt.
    + apply wp_bind, wp_rewind; [done|]. intros offs' Hg2. apply wp_ret. exists offs'. split_and!; [done|done|]. apply (Hnext true).
      split; [intros _; by exists r, c|done].
    + apply wp_ret. exists offs. split_and!; [done|done|]. apply (Hnext false). split; [done|]. intros (r' & c' & Hr' & Hc' & Hlt').
      assert (r' = r) as -> by congruence. assert (c' = c) as -> by congruence. done.
  - intros l s' (offs & -> & _ & Hl). apply HQ. intros i. rewrite Hl. rewrite length_zip_with, length_seq, Nat.min_id. split; [by intros [_ ?]|].
    intros (id & Hi & Hin). split; [|by exists id]. apply Hix in Hi. by eapply lookup_lt_Some.
Qed.
End discard.

(** * The log-probabilities of the prompts *)
Section prompt_logprobs.
Context (o : SchedulerOutput) (prompt_logprobs_row : Z → Z → Z → handle).
Implicit Types (s : RunnerState) (b : InputBatch) (id : string) (r : CachedRequestState).

(** Tensors with a row for each token of the prompt but the first. *)
Definition tensors_fit s id (ts : PromptLogprobs) : Prop := ∃ r, requests s !! id = Some r ∧ length ts = pred (length (prompt_token_ids r)).

(** Only the two dictionaries change. *)
Record logprobs_frame s b b' : Prop := {
  lf_frame : b' = set_dicts (mkReqDicts (num_logprobs (dicts b)) (num_prompt_logprobs (dicts b')) (in_progress_prompt_logprobs_cpu (dicts b')) (pooling_params (dicts b))) b;
  lf_asked : ∀ id, num_prompt_logprobs (dicts b') !! id = num_prompt_logprobs (dicts b) !! id ∨ num_prompt_logprobs (dicts b') !! id = None;
  lf_fit : ∀ id ts, in_progress_prompt_logprobs_cpu (dicts b') !! id = Some ts →
    in_progress_prompt_logprobs_cpu (dicts b) !! id = Some ts ∨ (is_Some (num_prompt_logprobs (dicts b) !! id) ∧ tensors_fit s id ts)
}.
Lemma logprobs_frame_refl s b : logprobs_frame s b b.
Proof. split; [by destruct b as [? ? ? ? [] ? ? ?]|by left|by left]. Qed.

Record logprobs_ok s : Prop := {
  lg_asked : ∀ id, is_Some (num_prompt_logprobs (dicts (input_batch s)) !! id) → ∃ i r c, req_id_to_index (input_batch s) !! id = Some i ∧
    is_Some (query_start_loc_np (buffers s) !! i) ∧ requests s !! id = Some r ∧ scheduled_count o id = Ok c ∧ 0 <= num_computed_tokens r;
  lg_fit : ∀ id ts, in_progress_prompt_logprobs_cpu (dicts (input_batch s)) !! id = Some ts → tensors_fit s id ts
}.

Lemma wp_prompt_logprobs_step s b acc e Q :
  logprobs_ok s → logprobs_frame s (input_batch s) b → is_Some (num_prompt_logprobs (dicts (input_batch s)) !! e.1) →
  (∀ acc' b', logprobs_frame s (input_batch s) b' → Q acc' (set_input_batch b' s)) →
  wp (prompt_logprobs_step prompt_logprobs_row o acc e) Q (set_input_batch b s).
Proof.
  intros [Hasked Hfit] Hfr He HQ. destruct e as [id num]. cbn in He. destruct (Hasked id He) as (i & r & c & Hi & [off Hoff] & Hr & Hc & H0).
  assert (∀ id ts, in_progress_prompt_logprobs_cpu (dicts b) !! id = Some ts → tensors_fit s id ts) as Hb.
  { intros id' ts Hts. destruct (lf_fit _ _ _ Hfr id' ts Hts) as [H|[_ H]]; [by apply Hfit|done]. }
  unfold prompt_logprobs_step. apply wp_bind. eapply wp_lift_outcome; [exact Hc|]. apply wp_bind. eapply wp_get_request; [exact Hr|]. cbv zeta.
  apply wp_bind, wp_gets. cbn [input_batch set_input_batch].
  set (tensors := default _ (in_progress_prompt_logprobs_cpu (dicts b) !! id)).
  assert (length tensors = pred (length (prompt_token_ids r))) as Hlen.
  { unfold tensors. destruct (in_progress_prompt_logprobs_cpu (dicts b) !! id) as [ts|] eqn:Hts; cbn.
    - destruct (Hb id ts Hts) as (r' & Hr' & Hl). by assert (r' = r) as -> by congruence.
    - rewrite length_replicate. unfold len. lia. }
  assert (∀ ts acc', length ts = pred (length (prompt_token_ids r)) → Q acc' (set_input_batch (set_in_progress (<[id := ts]>) b) (set_input_batch b s))) as Hfinal.
  { intros ts acc' Hts. change (set_input_batch (set_in_progress (<[id := ts]>) b) (set_input_batch b s)) with (set_input_batch (set_in_progress (<[id := ts]>) b) s).
    apply HQ. destruct Hfr as [F1 F2 F3]. split; [by rewrite F1|done|]. intros id' ts'. cbn. destruct (decide (id' = id)) as [->|Hne].
    - rewrite lookup_insert_eq. intros [= <-]. right. split; [done|]. by exists r.
    - rewrite lookup_insert_ne by done. apply F3. }
  set (last := bool_decide _). set (n := if last then _ else _).
  assert (n <= len (prompt_token_ids r) - (num_computed_tokens r + 1)) as Hn.
  { subst n last. case_bool_decide; lia. }
  apply wp_bind. unfold on_batch. case_decide as Hle.
  - apply wp_ret. apply wp_bind, wp_zoom, wp_modify, wp_ret. by apply Hfinal.
  - apply wp_bind. eapply wp_lift_outcome; [unfold dict_get; rewrite (lf_frame _ _ _ Hfr); cbn; by rewrite Hi|].
    apply wp_bind, wp_gets, wp_bind. eapply wp_lift_outcome; [apply array_get_Some; exact Hoff|].
    set (rows := imap _ _).
    assert (Z.of_nat (length rows) = n) as Hrows.
    { unfold rows. rewrite length_imap. change (Z.of_nat (length ?l)) with (len l). rewrite len_slice by lia. lia. }
    destruct (assign_slice_ok tensors (Z.to_nat (num_computed_tokens r)) rows) as (ts & Hts & Hl & _); [unfold len in *; lia|].
    eapply wp_lift_outcome; [exact Hts|]. apply wp_bind, wp_zoom, wp_modify, wp_ret. apply Hfinal. by rewrite Hl.
Qed.

Lemma wp_get_prompt_logprobs s Q :
  logprobs_ok s → (∀ d b', logprobs_frame s (input_batch s) b' → Q d (set_input_batch b' s)) →
  wp (_get_prompt_logprobs_dict prompt_logprobs_row o) Q s.
Proof.
  intros Hok HQ. unfold _get_prompt_logprobs_dict. apply wp_bind, wp_gets, wp_bind.
  apply wp_fold_each with (I := λ _ _ _ s', ∃ b', s' = set_input_batch b' s ∧ logprobs_frame s (input_batch s) b').
  - exists (input_batch s). split; [by destruct s|apply logprobs_frame_refl].
  - intros done e todo acc s' Hsplit (b & -> & Hfr). eapply wp_prompt_logprobs_step; [done|done| |].
    + destruct e as [id num]. exists num. apply elem_of_map_to_list. rewrite Hsplit. apply elem_of_app. right. by left.
    + intros acc' b' Hfr'. by exists b'.
  - intros [completed d] s' (b & -> & Hfr). apply wp_bind. apply wp_for_each with (I := λ _ _ s', ∃ b', s' = set_input_batch b' s ∧ logprobs_frame s (input_batch s) b').
    + by exists b.
    + intros done id todo s' _ (b' & -> & [F1 F2 F3]). unfold on_batch. apply wp_bind, wp_zoom, wp_modify, wp_zoom, wp_modify.
      eexists. split; [reflexivity|]. split; cbn; [by rewrite F1| |].
      * intros id'. destruct (decide (id' = id)) as [->|Hne]; [right; apply lookup_delete_eq|]. rewrite lookup_delete_ne by done. apply F2.
      * intros id' ts. rewrite lookup_delete_Some. intros [_ H]. by apply F3.
    + intros s' (b' & -> & Hfr'). apply wp_ret. by apply HQ.
Qed.
End prompt_logprobs.

(** * Everything after the forward pass *)
Section finish.
Context (to_float32 : Q → Q) (cfg : RunnerConfig) (prompt_logprobs_row : Z → Z → Z → handle).
Context (run_model : PreparedInputs → list (list Embedding) → option (list (list Z) * list Z) → RunnerState → SamplerOutput).
Context (bitmask_rows : handle → list (list Z)) (pack_logprobs : PromptLogprobs → handle) (other_drafts : list (list Z) → RunnerState → list (list Z)).
Implicit Types (s : RunnerState) (b : InputBatch) (o : SchedulerOutput) (id : string) (r : CachedRequestState) (out : SamplerOutput).

(** The state in which the forward pass runs: every row shows its request and the drafts. *)
Record pass_ok o s : Prop := {
  ps_batch : batch_dense (input_batch s);
  ps_builder : batch_update_builder (input_batch s) = BatchUpdateBuilder_init;
  ps_ids : ∀ id r, requests s !! id = Some r → req_id r = id;
  ps_rows : ∀ id i, req_id_to_index (input_batch s) !! id = Some i → ∃ r c, requests s !! id = Some r ∧ scheduled_count o id = Ok c ∧
    0 <= num_computed_tokens r ∧ row_shows to_float32 (input_batch s) (spec_of o id) id r ∧
    identifier_shows to_float32 (InputBatch.cfg (input_batch s)) r (id_view (sets (input_batch s)) (dicts (input_batch s)) id);
  ps_starts : (length (_req_ids (slots (input_batch s))) <= length (query_start_loc_np (buffers s)))%nat
}.

(** What the sampler promises: a row of tokens for each request of the batch, which fit in
    the model's length; drafts are only given for complete prompts. *)
Record sampler_fits o s out : Prop := {
  sm_length : length (valid_sampled_token_ids (input_batch s) out) = length (_req_ids (slots (input_batch s)));
  sm_some : ∀ l, l ∈ valid_sampled_token_ids (input_batch s) out → l ≠ [];
  sm_complete : ∀ id, incomplete o s id → spec_of o id = [];
  sm_room : ∀ id i r l, req_id_to_index (input_batch s) !! id = Some i → requests s !! id = Some r → valid_sampled_token_ids (input_batch s) out !! i = Some l →
    cached_num_tokens r + len l <= Z.of_nat (max_model_len (InputBatch.cfg (input_batch s))) ∧ cached_num_tokens r + len l <= rc_max_model_len cfg;
  sm_generators : ∀ i g, generators (slots (input_batch s)) !! i = Some g → is_Some (so_generator_offsets out !! g)
}.

(** What a row gets: nothing while the request's prompt is incomplete. *)
Definition cached_tokens o s (sampled : list (list Z)) id (l : list Z) : Prop :=
  ∃ i, req_id_to_index (input_batch s) !! id = Some i ∧ ((incomplete o s id ∧ l = []) ∨ (¬ incomplete o s id ∧ sampled !! i = Some l)).

Record step_finished o s (sampled : list (list Z)) (result : ModelRunnerOutput) s' : Prop := {
  fn_runner : runner_ok to_float32 s';
  fn_known : ∀ id r, is_Some (req_id_to_index (input_batch s) !! id) → requests s !! id = Some r →
    ∃ l, cached_tokens o s sampled id l ∧ requests s' !! id = Some (with_output l r);
  fn_others : ∀ id, req_id_to_index (input_batch s) !! id = None → requests s' !! id = requests s !! id;
  fn_index : req_id_to_index (input_batch s') = req_id_to_index (input_batch s);
  fn_ids : _req_ids (slots (input_batch s')) = _req_ids (slots (input_batch s));
  fn_tables : block_table (slots (input_batch s')) = block_table (slots (input_batch s));
  fn_cfg : InputBatch.cfg (input_batch s') = InputBatch.cfg (input_batch s);
  fn_table : request_table (requests s') = request_table (requests s);
  fn_logits : logitsprocs s' = logitsprocs s;
  fn_encoder : encoder_cache s' = encoder_cache s;
  fn_buffers : buffers s' = buffers s;
  fn_masks : ∀ i, mask_row (input_batch s') i = mask_row (input_batch s) i;
  fn_result : SchedulerData.req_id_to_index result = Z.of_nat <$> req_id_to_index (input_batch s) ∧
    ∀ id l i, cached_tokens o s sampled id l → req_id_to_index (input_batch s) !! id = Some i → sampled_token_ids result !! i = Some l
}.

(** ** The drafts of the n-gram proposer *)
Lemma drafts_ok s sampled :
  batch_dense (input_batch s) → length sampled = length (_req_ids (slots (input_batch s))) →
  (rc_has_speculative_config cfg = true → rc_kv_cache_groups cfg ≠ []) →
  (∀ drafter, rc_drafter cfg = Some drafter → 0 < min_n drafter) → ∃ d, draft_tokens cfg other_drafts sampled s = Ok d.
Proof.
  intros [Hb Hd] Hlen Hgr Hdr. unfold draft_tokens. destruct (rc_has_speculative_config cfg); [|by eexists].
  destruct (rc_kv_cache_groups cfg) as [|gr grs]; [by destruct Hgr|]. destruct (rc_drafter cfg) as [drafter|]; [|by eexists]. specialize (Hdr drafter eq_refl).
  destruct (req_id_list_dense _ Hd) as (ids & Hids & Hl).
  assert (∃ l, propose_ngram_draft_token_ids cfg drafter sampled (input_batch s) = Ok l) as [l ->]; [|by eexists].
  unfold propose_ngram_draft_token_ids.
  assert (∀ p, p ∈ zip (seq 0 (length sampled)) sampled → ∃ x, (λ '(i, ids), ngram_drafts cfg drafter (input_batch s) i ids) p = Ok x) as Hall.
  { intros [i x] [k Hk]%list_elem_of_lookup_1. apply lookup_zip_with_Some in Hk as (i' & x' & [= -> ->] & Hi & Hx). apply lookup_seq in Hi as [-> Hi].
    unfold ngram_drafts. destruct x' as [|t x']; [by eexists|]. rewrite Hids. cbn [mbind outcome_bind].
    destruct (lookup_lt_is_Some_2 ids (0 + k)) as [id Hid]; [lia|]. rewrite (array_get_Some _ _ _ Hid). cbn [mbind outcome_bind].
    case_decide; [by eexists|]. apply (req_id_list_lookup _ _ _ _ Hids) in Hid. pose proof (occupied_lt _ _ _ _ (bo_slots _ Hb) Hid) as Hlt.
    destruct (lookup_lt_is_Some_2 (rows (slots (input_batch s))) (0 + k)) as [row Hrow]; [by rewrite (ro_length _ _ (so_rows _ _ (bo_slots _ Hb)))|].
    rewrite (array_get_Some _ _ _ Hrow). cbn [mbind outcome_bind]. case_decide; [by eexists|].
    rewrite propose_spec by done. cbn. by eexists. }
  revert Hall. generalize (zip (seq 0 (length sampled)) sampled) as ps. induction ps as [|p ps IH]; intros Hall; [by exists []|].
  destruct (Hall p ltac:(by left)) as [x Hx]. destruct IH as [l Hl']; [intros q Hq; apply Hall; by right|].
  exists (x :: l). cbn [mapM]. rewrite Hx. cbn. by rewrite Hl'.
Qed.

(** ** The parts in sequence *)
Lemma row_shows_frame s b b' spec id r : logprobs_frame s b b' → row_shows to_float32 b spec id r → row_shows to_float32 b' spec id r.
Proof.
  intros Hfr H. unfold row_shows in *. rewrite (lf_frame _ _ _ Hfr). cbn [InputBatch.cfg set_dicts]. rewrite <- H.
  unfold shown. rewrite !map_lookup_imap. cbn. destruct (req_id_to_index b !! id) as [i|]; [|done]. cbn. by destruct (row_view (slots b) i).
Qed.
Lemma frame_dense o s b' : batch_dense (input_batch s) → logprobs_ok o s → logprobs_frame s (input_batch s) b' → batch_dense b'.
Proof.
  intros [[B1 B2 B3 B4 B5] Hd] Hok Hfr. pose proof Hfr as [F1 F2 F3]. split; [|by rewrite F1]. split; [by rewrite F1|by rewrite F1| |by rewrite F1|by rewrite F1].
  intros id Hid. assert (req_id_to_index (input_batch s) !! id = None) as Hid0 by by rewrite F1 in Hid. pose proof (B3 id Hid0) as Hblank.
  unfold id_view, blank_id in Hblank |- *. injection Hblank as E1 E2 E3 E4 E5 E6 E7 E8 E9 E10 E11 E12 E13.
  assert (sets b' = sets (input_batch s) ∧ num_logprobs (dicts b') = num_logprobs (dicts (input_batch s)) ∧ pooling_params (dicts b') = pooling_params (dicts (input_batch s))) as (-> & -> & ->)
    by (by rewrite F1).
  rewrite E10, E13. f_equal; [by unfold id_flags; rewrite E1, E2, E3, E4, E5, E6, E7, E8, E9| |].
  - destruct (F2 id) as [->|]; [done|done].
  - destruct (in_progress_prompt_logprobs_cpu (dicts b') !! id) as [ts|] eqn:Hts; [|done]. exfalso. destruct (F3 id ts Hts) as [H|[H _]]; [congruence|].
    rewrite E11 in H. by destruct H.
Qed.

Lemma pass_logprobs o s : pass_ok o s → logprobs_ok o s.
Proof.
  intros [P1 P2 P3 P4 P5]. destruct P1 as [Hb Hd]. assert (∀ id, id_view (sets (input_batch s)) (dicts (input_batch s)) id ≠ blank_id → is_Some (req_id_to_index (input_batch s) !! id)) as Hix.
  { intros id Hne. destruct (req_id_to_index (input_batch s) !! id) eqn:Hi; [by eexists|]. by destruct Hne; apply (bo_ids _ Hb). }
  split.
  - intros id Hid. destruct (Hix id) as [i Hi]; [intros Heq; injection Heq; intros; destruct Hid; congruence|].
    destruct (P4 id i Hi) as (r & c & Hr & Hc & H0 & _). exists i, r, c. split_and!; try done. apply lookup_lt_is_Some_2.
    apply (bo_index _ Hb) in Hi. apply lookup_lt_Some in Hi. lia.
  - intros id ts Hts. destruct (Hix id) as [i Hi]; [intros Heq; injection Heq; congruence|].
    destruct (P4 id i Hi) as (r & c & Hr & _ & _ & _ & Hv). exists r. split; [done|]. by apply (is_progress _ _ _ _ Hv).
Qed.

(** The tokens to cache, and the state they are cached in. *)
Lemma pass_sampled o s out b' (discarded : list nat) sampled offs :
  pass_ok o s → sampler_fits o s out → logprobs_frame s (input_batch s) b' →
  (∀ i, i ∈ discarded ↔ ∃ id, req_id_to_index (input_batch s) !! id = Some i ∧ incomplete o s id) →
  length sampled = length (valid_sampled_token_ids (input_batch s) out) →
  (∀ i, sampled !! i = if decide (i ∈ discarded) then Some [] else valid_sampled_token_ids (input_batch s) out !! i) →
  sampled_fits to_float32 cfg (set_generator_offsets offs (set_input_batch b' s)) (spec_of o) sampled ∧
  ∀ id i, req_id_to_index (input_batch s) !! id = Some i → cached_tokens o s (valid_sampled_token_ids (input_batch s) out) id (sampled !!! i).
Proof.
  intros Hp [S1 S2 S3 S4 S5] Hfr Hdisc Hlen Hs. pose proof Hp as [P1 P2 P3 P4 P5]. pose proof (pass_logprobs o s Hp) as Hlg.
  pose proof (frame_dense o s b' P1 Hlg Hfr) as Hd'. pose proof (lf_frame _ _ _ Hfr) as F1.
  assert (req_id_to_index b' = req_id_to_index (input_batch s) ∧ InputBatch.cfg b' = InputBatch.cfg (input_batch s) ∧ slots b' = slots (input_batch s)) as (Fi & Fc & Fs) by by rewrite F1.
  assert (∀ id i, req_id_to_index (input_batch s) !! id = Some i → (i ∈ discarded ↔ incomplete o s id)) as Hone.
  { intros id i Hi. rewrite Hdisc. split; [|by exists id]. intros (id' & Hi' & Hin). by assert (id' = id) as -> by (eapply index_ok_inj; [apply (bo_index _ (proj1 P1))|..]; done). }
  assert (∀ id i, req_id_to_index (input_batch s) !! id = Some i → ∃ l, valid_sampled_token_ids (input_batch s) out !! i = Some l) as Hval.
  { intros id i Hi. apply lookup_lt_is_Some_2. rewrite S1. apply (bo_index _ (proj1 P1)) in Hi. by eapply lookup_lt_Some. }
  split; [split; cbn|].
  - done.
  - rewrite Fi. intros id i Hi. destruct (P4 id i Hi) as (r & c & Hr & _ & _ & Hsh & _). exists r. split; [done|]. by eapply row_shows_frame.
  - by rewrite Fs, Hlen.
  - rewrite Fi. intros id i Hi Hnil. rewrite Hs in Hnil. apply S3. case_decide as Hdi; [by apply (Hone id i Hi)|]. exfalso.
    by apply (S2 []); [eapply list_elem_of_lookup_2|].
  - rewrite Fi, Fc. intros id i r l Hi Hr Hl. rewrite Hs in Hl. destruct (Hval id i Hi) as [l' Hl'].
    destruct (S4 id i r l' Hi Hr Hl') as [H1 H2]. case_decide; [injection Hl as <-; pose proof (len_nonneg l'); change (len []) with 0; lia|].
    by assert (l = l') as -> by congruence.
  - intros id i Hi. exists i. split; [done|]. destruct (Hval id i Hi) as [l' Hl']. pose proof (Hs i) as Hsi. case_decide as Hdi.
    + left. split; [by apply (Hone id i Hi)|]. by apply list_lookup_total_correct.
    + right. split; [by rewrite <- (Hone id i Hi)|]. rewrite Hl' in Hsi. by rewrite (list_lookup_total_correct _ _ _ Hsi).
Qed.
Lemma with_output_table r l : (params_of (with_output l r), output_ref (with_output l r)) = (params_of r, output_ref r).
Proof. done. Qed.

(** The state after the tokens have been cached. *)
Lemma cached_finished o s out b' sampled offs s' drafts logprobs prompt_logprobs :
  pass_ok o s → sampler_fits o s out → logprobs_frame s (input_batch s) b' →
  sampled_fits to_float32 cfg (set_generator_offsets offs (set_input_batch b' s)) (spec_of o) sampled →
  (∀ id i, req_id_to_index (input_batch s) !! id = Some i → cached_tokens o s (valid_sampled_token_ids (input_batch s) out) id (sampled !!! i)) →
  tokens_cached to_float32 (set_generator_offsets offs (set_input_batch b' s)) (spec_of o) sampled (length sampled) s' →
  step_finished o s (valid_sampled_token_ids (input_batch s) out)
    (mkModelRunnerOutput (Z.of_nat <$> InputBatch.req_id_to_index (input_batch s')) sampled drafts logprobs prompt_logprobs [] None None (Some ∅)) s'.
Proof.
  intros Hp Hsm Hfr [F1 F2 F3 F4 F5] Hcached [T1 T2 T3 T4]. cbn in F1, F2, F3, T1, T2, T3, T4.
  pose proof Hp as [P1 P2 P3 P4 P5]. pose proof (lf_frame _ _ _ Hfr) as Fr.
  assert (req_id_to_index b' = req_id_to_index (input_batch s) ∧ InputBatch.cfg b' = InputBatch.cfg (input_batch s) ∧ slots b' = slots (input_batch s) ∧
    batch_update_builder b' = batch_update_builder (input_batch s) ∧ sets b' = sets (input_batch s)) as (Fi & Fc & Fs & Fb & Fset) by by rewrite Fr.
  destruct T1 as (D1 & D2 & D3 & D4 & D5 & D6 & D7 & D8 & D9). rewrite Fi in *.
  assert (∀ id i, req_id_to_index (input_batch s) !! id = Some i → (i < length sampled)%nat) as Hlt.
  { intros id i Hi. rewrite F3, Fs. apply (bo_index _ (proj1 P1)) in Hi. by eapply lookup_lt_Some. }
  assert (∀ id i r, req_id_to_index (input_batch s) !! id = Some i → requests s !! id = Some r → requests s' !! id = Some (with_output (sampled !!! i) r)) as Hknown.
  { intros id i r Hi Hr. rewrite T2, Hi, Hr, decide_True by by eapply Hlt. done. }
  assert (∀ id, req_id_to_index (input_batch s) !! id = None → requests s' !! id = requests s !! id) as Hothers by (intros id Hi; by rewrite T2, Hi).
  assert (∀ id sh, shown (input_batch s') !! id = Some sh → ∃ i r, req_id_to_index (input_batch s) !! id = Some i ∧ requests s !! id = Some r ∧
    requests s' !! id = Some (with_output (sampled !!! i) r) ∧ sh.2 = id_view (sets b') (dicts b') id) as Hsh.
  { intros id sh Hshid. destruct (req_id_to_index (input_batch s') !! id) as [i|] eqn:Hi; [|by rewrite shown_None in Hshid].
    rewrite D4 in Hi. destruct (P4 id i Hi) as (r & c & Hr & _). exists i, r. split_and!; [done|done|by apply Hknown|].
    pose proof (occupied_lt _ _ _ _ (bo_slots _ (proj1 D1)) (proj1 (bo_index _ (proj1 D1) id i) ltac:(by rewrite D4))) as Hmax.
    destruct (row_view_Some _ _ _ (bo_slots _ (proj1 D1)) Hmax) as [v Hv]. rewrite (shown_lookup _ id i v) in Hshid by (by rewrite ?D4). injection Hshid as <-. cbn.
    by rewrite D7, D8. }
  split.
  - split; [done|by rewrite D2, Fb| | |].
    + intros id r'. rewrite T2. destruct (req_id_to_index (input_batch s) !! id) as [i|]; [|apply P3].
      destruct (requests s !! id) as [r|] eqn:Hr; [|done]. intros [= <-]. cbn. by apply P3.
    + intros id sh Hshid. destruct (Hsh id sh Hshid) as (i & r & Hi & Hr & Hr' & _). exists (with_output (sampled !!! i) r). split; [done|].
      pose proof (T3 id i _ Hi Hr') as Hrow. rewrite decide_True in Hrow by by eapply Hlt. unfold row_shows in Hrow. rewrite with_spec_nil, Hshid in Hrow. by injection Hrow.
    + intros id sh r' Hshid Hr2. destruct (Hsh id sh Hshid) as (i & r & Hi & Hr & Hr' & ->). assert (r' = with_output (sampled !!! i) r) as -> by congruence.
      destruct (P4 id i Hi) as (r0 & c & Hr0 & _ & _ & _ & Hv). assert (r0 = r) as -> by congruence. rewrite D3, Fc.
      apply identifier_shows_ext with r; [done|done|]. destruct Hv as [V1 V2 V3 V4 V5]. rewrite Fset. split; cbn in *; [done|by rewrite Fr|by rewrite Fr| |].
      * destruct (lf_asked _ _ _ Hfr id) as [->| ->]; [done|by right].
      * intros ts Hts. destruct (lf_fit _ _ _ Hfr id ts Hts) as [H|[_ (r0 & Hr1 & Hl)]]; [by apply V5|]. by assert (r0 = r) as -> by congruence.
  - intros id r [i Hi] Hr. exists (sampled !!! i). split; [by apply Hcached|by apply Hknown].
  - done.
  - done.
  - by rewrite D5, Fs.
  - by rewrite D6, Fs.
  - by rewrite D3, Fc.
  - apply map_eq. intros id. unfold request_table. rewrite !lookup_fmap, T2. destruct (req_id_to_index (input_batch s) !! id); [|done].
    by destruct (requests s !! id).
  - by rewrite T4.
  - by rewrite T4.
  - by rewrite T4.
  - intros i. rewrite D9. unfold mask_row. by rewrite Fs.
  - cbn. split; [by rewrite D4|]. intros id l i (i' & Hi' & Hl) Hi. assert (i' = i) as -> by congruence.
    destruct (Hcached id i Hi) as (i' & Hi2 & Hl2). assert (i' = i) as -> by congruence.
    assert (sampled !! i = Some (sampled !!! i)) as Hsi by (apply list_lookup_lookup_total_lt; by eapply Hlt). rewrite Hsi. f_equal.
    destruct Hl as [[? ->]|[? ?]], Hl2 as [[? ->]|[? ?]]; congruence.
Qed.

Lemma wp_finish_step o s prepared mm_embeds masks :
  pass_ok o s → grammar_masks bitmask_rows o prepared (input_batch s) = Ok masks →
  (rc_has_speculative_config cfg = true → rc_kv_cache_groups cfg ≠ []) → (∀ drafter, rc_drafter cfg = Some drafter → 0 < min_n drafter) →
  let out := run_model prepared mm_embeds masks s in sampler_fits o s out →
  wp (finish_step cfg prompt_logprobs_row run_model bitmask_rows pack_logprobs other_drafts o prepared mm_embeds)
    (step_finished o s (valid_sampled_token_ids (input_batch s) out)) s.
Proof.
  intros Hp Hmask Hgr Hdr out Hsm. pose proof Hp as [P1 P2 P3 P4 P5]. pose proof (pass_logprobs o s Hp) as Hlg.
  unfold finish_step. apply wp_bind, wp_get, wp_bind. eapply wp_lift_outcome; [exact Hmask|]. cbv zeta. fold out. apply wp_bind, wp_modify, wp_bind.
  apply wp_discard; [done| |exact (sm_generators _ _ _ Hsm)|].
  { intros id [i Hi]. destruct (P4 id i Hi) as (r & c & Hr & Hc & _). by exists r, c. }
  intros discarded offs Hdisc. change (set_generator_offsets offs (set_generator_offsets _ s)) with (set_generator_offsets offs s).
  apply wp_bind, wp_get_prompt_logprobs; [destruct Hlg as [G1 G2]; by split|]. intros d b' Hfr. cbn [input_batch set_generator_offsets] in Hfr.
  assert (logprobs_frame s (input_batch s) b') as Hfr' by (destruct Hfr as [G1 G2 G3]; by split).
  apply wp_bind, wp_get. cbn [input_batch set_input_batch].
  assert (valid_sampled_token_ids b' out = valid_sampled_token_ids (input_batch s) out) as ->.
  { unfold valid_sampled_token_ids. by rewrite (lf_frame _ _ _ Hfr'). }
  destruct (clear_discarded_ok discarded (valid_sampled_token_ids (input_batch s) out)) as (sampled & Hs & Hlen & Hlook).
  { intros i Hi. apply Hdisc in Hi as (id & Hi & _). rewrite (sm_length _ _ _ Hsm). apply (bo_index _ (proj1 P1)) in Hi. by eapply lookup_lt_Some. }
  apply wp_bind. eapply wp_lift_outcome; [exact Hs|].
  change (set_input_batch b' (set_generator_offsets offs s)) with (set_generator_offsets offs (set_input_batch b' s)).
  destruct (pass_sampled o s out b' discarded sampled offs Hp Hsm Hfr' Hdisc Hlen Hlook) as [Hfits Hcached].
  apply wp_bind. eapply wp_cache_sampled_tokens; [exact Hfits|]. intros s' Ht. apply wp_bind, wp_get.
  destruct (drafts_ok s' sampled) as [drafts Hdrafts]; [apply (tc_batch _ _ _ _ _ _ Ht)| |exact Hgr|exact Hdr|].
  { destruct (tc_batch _ _ _ _ _ _ Ht) as (_ & _ & _ & _ & -> & _). apply (sa_length _ _ _ _ _ Hfits). }
  apply wp_bind. eapply wp_lift_outcome; [exact Hdrafts|]. apply wp_ret. by eapply cached_finished.
Qed.
End finish.
