(* ===== verification/GrammarMask.v ===== *)
(** The masks of the structured outputs, [apply_grammar_bitmask] of
    [v1/worker/gpu_model_runner.py]: the scheduler numbers the rows of the bitmask in its
    own order of the requests, the logits are in the order of the batch, and each request
    has a row for every draft token and one more in both. *)
From Stdlib Require Import ZArith QArith Lia.
From stdpp Require Import base strings countable gmap sets list sorting.
From S2P Require Import Prelude Request SchedulerData Arrays BlockTable BatchUpdate InputBatch InputBatchFacts ModelRunner PrepareInputs PrepareFacts StepInputs BatchRows UpdateStates ExecuteModel.
Local Open Scope Z_scope.

Section grammar.
Context (o : SchedulerOutput).
Implicit Types (b : InputBatch) (id : string) (S : list (string * Z)).

(** ** Where the logits of the rows begin *)
#[local] Instance by_value_total {K} : Total (@by_value K).
Proof. intros p q. unfold by_value. lia. Qed.
#[local] Instance by_value_trans {K} : Transitive (@by_value K).
Proof. intros p q r. unfold by_value. lia. Qed.

Definition rows_of (ids : list string) : list (string * Z) := imap (λ i id, (id, Z.of_nat i)) ids.
Lemma rows_of_snoc ids id : rows_of (ids ++ [id]) = rows_of ids ++ [(id, Z.of_nat (length ids))].
Proof. unfold rows_of. rewrite imap_app. cbn. by rewrite Nat.add_0_r. Qed.
Lemma rows_of_sorted ids : StronglySorted by_value (rows_of ids).
Proof.
  induction ids as [|id ids IH] using rev_ind; [constructor|]. rewrite rows_of_snoc. apply StronglySorted_app. split_and!; [|done|repeat constructor].
  intros p q Hp Hq. apply list_elem_of_singleton in Hq as ->. apply elem_of_lookup_imap in Hp as (i & id' & -> & Hi). apply lookup_lt_Some in Hi.
  unfold by_value. cbn. lia.
Qed.

Lemma sorted_rows b ids : index_ok (req_id_to_index b) (_req_ids (slots b)) → req_id_list b = Ok ids →
  sorted_items (Z.of_nat <$> req_id_to_index b) = rows_of ids.
Proof.
  intros Hix Hids. assert (∀ i id, ids !! i = Some id ↔ req_id_to_index b !! id = Some i) as Hl.
  { intros i id. rewrite (req_id_list_lookup _ _ _ _ Hids). symmetry. apply Hix. }
  assert (∀ p, p ∈ map_to_list (Z.of_nat <$> req_id_to_index b) ↔ p ∈ rows_of ids) as Hin.
  { intros [id z]. rewrite elem_of_map_to_list, lookup_fmap, fmap_Some. unfold rows_of. rewrite elem_of_lookup_imap. split.
    - intros (i & Hi & ->). exists i, id. split; [done|]. by apply Hl.
    - intros (i & id' & [= -> ->] & Hi). exists i. split; [by apply Hl|done]. }
  unfold sorted_items. apply (StronglySorted_unique_strong by_value).
  - intros [id1 z1] [id2 z2] H1 H2 H12 H21. unfold by_value in *. cbn in *. assert (z1 = z2) as -> by lia.
    rewrite merge_sort_Permutation, Hin in H1. unfold rows_of in H1, H2. apply elem_of_lookup_imap in H1 as (i & x & [= -> Hz1] & Hi), H2 as (j & y & [= -> Hz2] & Hj).
    assert (i = j) as -> by lia. by assert (x = y) as -> by congruence.
  - apply (StronglySorted_merge_sort by_value).
  - apply rows_of_sorted.
  - rewrite merge_sort_Permutation. apply NoDup_Permutation; [apply NoDup_map_to_list| |done].
    apply NoDup_fmap_1 with fst. assert ((rows_of ids).*1 = ids) as ->.
    { apply list_eq. intros i. unfold rows_of. rewrite list_lookup_fmap, list_lookup_imap. by destruct (ids !! i). }
    apply NoDup_by_lookup. intros i j id Hi%Hl Hj%Hl. congruence.
Qed.

(** The rows of logits of a request. *)
Definition mask_rows (id : string) : Z := 1 + num_spec_tokens o id.
Lemma mask_rows_pos id : 1 <= mask_rows id.
Proof. unfold mask_rows, num_spec_tokens. pose proof (len_nonneg (default [] (scheduled_spec_decode_tokens o !! id))). lia. Qed.
Lemma mask_rows_nonneg (ids : list string) n : n ∈ mask_rows <$> ids → 0 <= n.
Proof. intros (id & -> & _)%list_elem_of_fmap. pose proof (mask_rows_pos id). lia. Qed.

Lemma struct_indices_spec b ids id : index_ok (req_id_to_index b) (_req_ids (slots b)) → req_id_list b = Ok ids →
  is_Some (structured_output_request_ids o !! id) → ∀ i, ids !! i = Some id → struct_out_indices o b !! id = Some (start_of (mask_rows <$> ids) i).
Proof.
  intros Hix Hids Hst. unfold struct_out_indices. rewrite (sorted_rows b ids Hix Hids).
  assert (NoDup ids) as Hnd.
  { apply NoDup_by_lookup. intros i j x Hi Hj. apply (req_id_list_lookup _ _ _ _ Hids), Hix in Hi, Hj. congruence. }
  clear Hids. match goal with |- context [foldl ?g _ _] => set (f := g) end.
  assert ((foldl f (∅, 0) (rows_of ids)).2 + Z.of_nat (length ids) = zsum (mask_rows <$> ids) ∧
    ∀ i, ids !! i = Some id → (foldl f (∅, 0) (rows_of ids)).1 !! id = Some (start_of (mask_rows <$> ids) i)) as [_ H]; [|done].
  revert Hnd. induction ids as [|x ids IH] using rev_ind; intros Hnd; [done|]. apply NoDup_app in Hnd as (Hnd & Hx & _).
  destruct (IH Hnd) as [IH1 IH2]. rewrite rows_of_snoc, foldl_app. cbn [foldl]. destruct (foldl f (∅, 0) (rows_of ids)) as [d off]. cbn [fst snd] in IH1, IH2.
  unfold f. cbn [fst snd]. split.
  - rewrite fmap_app, zsum_app, length_app. cbn [fmap list_fmap length]. rewrite zsum_cons. change (zsum []) with 0. unfold mask_rows at 2. lia.
  - intros i [Hi|[Hge Hi]]%lookup_app_Some.
    + assert (x ≠ id) as Hne by (intros ->; apply (Hx id); [by eapply list_elem_of_lookup_2|by left]).
      assert (start_of (mask_rows <$> ids ++ [x]) i = start_of (mask_rows <$> ids) i) as ->.
      { unfold start_of. rewrite fmap_app, take_app_le; [done|]. rewrite length_fmap. apply lookup_lt_Some in Hi. lia. }
      case_decide; [rewrite lookup_insert_ne by done|]; by apply IH2.
    + apply list_lookup_singleton_Some in Hi as [Hi ->]. assert (i = length ids) as -> by lia. rewrite decide_True by done. rewrite lookup_insert_eq. f_equal.
      unfold start_of. rewrite fmap_app, take_app_le by by rewrite length_fmap. rewrite take_ge by by rewrite length_fmap. lia.
Qed.

(** ** Copying the rows of one request *)
Lemma copy_masks_spec (G : list (list Z)) n (l c : nat) (M : list (list Z)) (out : list Z) :
  (l + n <= length M)%nat → (c + n <= length G)%nat →
  ∃ M', copy_masks G n (Z.of_nat l) (Z.of_nat c) (M, out) = Ok (M', out ++ ((λ j, Z.of_nat (l + j)) <$> seq 0 n)) ∧ length M' = length M ∧
    ∀ p, M' !! p = if decide (l <= p < l + n)%nat then G !! (c + (p - l))%nat else M !! p.
Proof.
  intros Hl Hc. unfold copy_masks. induction n as [|n IH].
  - exists M. cbn. rewrite app_nil_r. split_and!; [done|done|]. intros p. by rewrite decide_False by lia.
  - destruct IH as (M' & HM & Hlen & Hp); [lia|lia|]. rewrite KVCacheCoordinator.range_succ, foldl_app, HM. cbn [foldl mbind outcome_bind].
    destruct (lookup_lt_is_Some_2 G (c + n)) as [row Hrow]; [lia|].
    replace (Z.of_nat c + Z.of_nat n) with (Z.of_nat (c + n)) by lia. rewrite (py_index_lookup _ _ _ Hrow). cbn [mbind outcome_bind].
    replace (Z.to_nat (Z.of_nat l + Z.of_nat n)) with (l + n)%nat by lia. rewrite array_set_lt by lia. cbn [mbind outcome_bind].
    eexists. split_and!; [|by rewrite length_insert|].
    + rewrite seq_S, fmap_app, <- app_assoc. cbn [fmap list_fmap Nat.add]. by rewrite Nat2Z.inj_add.
    + intros p. destruct (decide (p = l + n)%nat) as [->|Hne].
      * rewrite list_lookup_insert_eq by lia. rewrite decide_True by lia. replace (c + (l + n - l))%nat with (c + n)%nat by lia. done.
      * rewrite list_lookup_insert_ne by done. rewrite Hp. destruct (decide (l <= p < l + n)%nat); [by rewrite decide_True by lia|by rewrite decide_False by lia].
Qed.

(** ** All requests *)
Section all.
Context (b : InputBatch) (ids : list string) (G : list (list Z)) (S : list (string * Z)) (width : nat).
Hypothesis Hix : index_ok (req_id_to_index b) (_req_ids (slots b)).
Hypothesis Hids : req_id_list b = Ok ids.
Hypothesis HS : NoDup S.*1.
Hypothesis Hstruct : ∀ e, e ∈ S → is_Some (structured_output_request_ids o !! e.1) ∧ e.1 ∈ ids.
Hypothesis HG : zsum (mask_rows <$> S.*1) <= Z.of_nat (length G).

Abbreviation starts := (mask_rows <$> ids).
Abbreviation places := (mask_rows <$> S.*1).
(** The row of logits for the [j]-th token of the request in row [i]. *)
Definition logit_row (i j : nat) : nat := (Z.to_nat (start_of starts i) + j)%nat.

Record masks_copied (k : nat) (M : list (list Z)) (out : list Z) (c : Z) : Prop := {
  mc_length : Z.of_nat (length M) = zsum starts;
  mc_cumulative : c = start_of places k;
  mc_masked : ∀ q id i j, (q < k)%nat → S.*1 !! q = Some id → ids !! i = Some id → (j < Z.to_nat (mask_rows id))%nat →
    M !! logit_row i j = G !! (Z.to_nat (start_of places q) + j)%nat;
  mc_free : ∀ id i j, ids !! i = Some id → (id ∉ take k S.*1) → (j < Z.to_nat (mask_rows id))%nat → M !! logit_row i j = Some (replicate width 0);
  mc_out : ∀ z, z ∈ out ↔ ∃ id i j, id ∈ take k S.*1 ∧ ids !! i = Some id ∧ (j < Z.to_nat (mask_rows id))%nat ∧ z = Z.of_nat (logit_row i j)
}.

Lemma copy_request_spec k M out c e : masks_copied k M out c → S !! k = Some e →
  ∃ M' out' c', copy_request o (struct_out_indices o b) G (Ok (M, out, c)) e = Ok (M', out', c') ∧ masks_copied (Datatypes.S k) M' out' c'.
Proof.
  intros [H1 H2 H3 H4 H5] He. destruct e as [id z]. destruct (Hstruct (id, z) (list_elem_of_lookup_2 _ _ _ He)) as [Hst [i Hi]%list_elem_of_lookup_1]. cbn in Hst, Hi.
  assert (S.*1 !! k = Some id) as Hk by (by rewrite list_lookup_fmap, He).
  assert (ids !! i = Some id → starts !! i = Some (mask_rows id)) as Hsi by (intros H; by rewrite list_lookup_fmap, H). specialize (Hsi Hi).
  assert (places !! k = Some (mask_rows id)) as Hpk by by rewrite list_lookup_fmap, Hk.
  pose proof (mask_rows_pos id) as Hpos. pose proof (start_of_nonneg starts i (mask_rows_nonneg ids)) as Hs0. pose proof (start_of_nonneg places k (mask_rows_nonneg S.*1)) as Hp0.
  unfold copy_request. cbn [mbind outcome_bind fst snd]. unfold dict_get. rewrite (struct_indices_spec b ids id Hix Hids Hst i Hi). cbn [mbind outcome_bind].
  destruct (copy_masks_spec G (Z.to_nat (mask_rows id)) (Z.to_nat (start_of starts i)) (Z.to_nat (start_of places k)) M out) as (M' & HM & Hlen & Hlook).
  { pose proof (start_of_S _ _ _ Hsi). pose proof (start_of_mono starts (Datatypes.S i) (length starts) (mask_rows_nonneg ids) ltac:(by eapply lookup_lt_Some)). rewrite start_of_all in *. lia. }
  { pose proof (start_of_S _ _ _ Hpk). pose proof (start_of_mono places (Datatypes.S k) (length places) (mask_rows_nonneg S.*1) ltac:(by eapply lookup_lt_Some)). rewrite start_of_all in *. lia. }
  rewrite !Z2Nat.id in HM by done. rewrite H2. fold (mask_rows id). rewrite HM. cbn [mbind outcome_bind].
  do 3 eexists. split; [reflexivity|].
  assert (∀ i' id' j, ids !! i' = Some id' → (j < Z.to_nat (mask_rows id'))%nat → i' ≠ i →
    ¬ (Z.to_nat (start_of starts i) <= logit_row i' j < Z.to_nat (start_of starts i) + Z.to_nat (mask_rows id))%nat) as Hdisj.
  { intros i' id' j Hi' Hj Hne Hin. apply Hne. unfold logit_row in Hin.
    assert (starts !! i' = Some (mask_rows id')) as Hsi' by by rewrite list_lookup_fmap, Hi'.
    by destruct (position_inj starts i' (mask_rows id') j i (mask_rows id) (Z.to_nat (start_of starts i') + j - Z.to_nat (start_of starts i)) (mask_rows_nonneg ids) Hsi' Hj Hsi ltac:(lia) ltac:(lia)). }
  assert (∀ i' , ids !! i' = Some id → i' = i) as Hone.
  { intros i' Hi'. apply (req_id_list_lookup _ _ _ _ Hids), Hix in Hi. apply (req_id_list_lookup _ _ _ _ Hids), Hix in Hi'. congruence. }
  assert (take (Datatypes.S k) S.*1 = take k S.*1 ++ [id]) as Htake by by apply take_S_r.
  split.
  - by rewrite Hlen.
  - by rewrite (start_of_S _ _ _ Hpk).
  - intros q id' i' j Hq Hq' Hi' Hj. rewrite Hlook. destruct (decide (q = k)) as [->|Hqk].
    + assert (id' = id) as -> by congruence. apply Hone in Hi' as ->. unfold logit_row. rewrite decide_True by lia. f_equal. lia.
    + assert (i' ≠ i) as Hne by (intros ->; apply Hqk; eapply NoDup_lookup; [exact HS|exact Hq'|congruence]).
      rewrite decide_False by by eapply Hdisj. apply (H3 q id'); [lia|done..].
  - intros id' i' j Hi' Hn Hj. rewrite Htake, not_elem_of_app, list_elem_of_singleton in Hn. destruct Hn as [Hn Hne]. rewrite Hlook.
    assert (i' ≠ i) by (intros ->; congruence). rewrite decide_False by by eapply Hdisj. by eapply H4.
  - intros x. rewrite elem_of_app, H5, list_elem_of_fmap. setoid_rewrite Htake. setoid_rewrite elem_of_app. setoid_rewrite list_elem_of_singleton. split.
    + intros [(id' & i' & j & ? & ? & ? & ->)|(j & -> & Hj)]; [exists id', i', j; by split_and!; try left|].
      apply elem_of_seq in Hj. exists id, i, j. split_and!; [by right|done|lia|done].
    + intros (id' & i' & j & [?| ->] & Hi' & Hj & ->); [left; by exists id', i', j|right]. apply Hone in Hi' as ->. exists j. split; [done|]. apply elem_of_seq. lia.
Qed.

Lemma copy_requests_spec : ∃ M out c,
  foldl (copy_request o (struct_out_indices o b) G) (Ok (replicate (Z.to_nat (zsum starts)) (replicate width 0), [], 0)) S = Ok (M, out, c) ∧ masks_copied (length S) M out c.
Proof.
  assert (∀ k, (k <= length S)%nat → ∃ M out c,
    foldl (copy_request o (struct_out_indices o b) G) (Ok (replicate (Z.to_nat (zsum starts)) (replicate width 0), [], 0)) (take k S) = Ok (M, out, c) ∧ masks_copied k M out c) as H.
  { induction k as [|k IH]; intros Hk.
    - do 3 eexists. split; [reflexivity|]. pose proof (zsum_nonneg starts (mask_rows_nonneg ids)). split; [rewrite length_replicate; lia|done|lia| |].
      + intros id i j Hi _ Hj. apply lookup_replicate_2. apply (position_lt starts i (mask_rows id)); [apply mask_rows_nonneg|by rewrite list_lookup_fmap, Hi|done].
      + intros z. rewrite elem_of_nil. split; [done|]. intros (id & i & j & Hno & _). by apply not_elem_of_nil in Hno.
    - destruct IH as (M & out & c & HM & Hc); [lia|]. destruct (lookup_lt_is_Some_2 S k) as [e He]; [lia|].
      rewrite (take_S_r _ _ _ He), foldl_app, HM. cbn [foldl]. destruct (copy_request_spec k M out c e Hc He) as (M' & out' & c' & HM' & Hc'). by exists M', out', c'. }
  destruct (H (length S) ltac:(lia)) as (M & out & c & HM & Hc). rewrite take_ge in HM by lia. by exists M, out, c.
Qed.
End all.

(** What the mask of the logits must be. *)
Record mask_given (ids : list string) (G : list (list Z)) (width : nat) (M : list (list Z)) (out : list Z) : Prop := {
  mg_length : Z.of_nat (length M) = zsum (mask_rows <$> ids);
  mg_masked : ∀ q id i j, (sorted_items (structured_output_request_ids o)).*1 !! q = Some id → ids !! i = Some id → (j < Z.to_nat (mask_rows id))%nat →
    M !! logit_row ids i j = G !! (Z.to_nat (start_of (mask_rows <$> (sorted_items (structured_output_request_ids o)).*1) q) + j)%nat;
  mg_free : ∀ id i j, ids !! i = Some id → structured_output_request_ids o !! id = None → (j < Z.to_nat (mask_rows id))%nat →
    M !! logit_row ids i j = Some (replicate width 0);
  mg_out : ∀ z, z ∈ out ↔ ∃ id i j, is_Some (structured_output_request_ids o !! id) ∧ ids !! i = Some id ∧ (j < Z.to_nat (mask_rows id))%nat ∧
    z = Z.of_nat (logit_row ids i j)
}.

Lemma elem_of_sorted_items id : id ∈ (sorted_items (structured_output_request_ids o)).*1 ↔ is_Some (structured_output_request_ids o !! id).
Proof.
  unfold sorted_items. rewrite list_elem_of_fmap. setoid_rewrite merge_sort_Permutation. split.
  - intros ([id' z] & -> & H%elem_of_map_to_list). by exists z.
  - intros [z Hz]. exists (id, z). split; [done|]. by apply elem_of_map_to_list.
Qed.

Lemma apply_grammar_bitmask_spec b ids G width :
  index_ok (req_id_to_index b) (_req_ids (slots b)) → req_id_list b = Ok ids →
  (∀ id, is_Some (structured_output_request_ids o !! id) → id ∈ ids) →
  zsum (mask_rows <$> (sorted_items (structured_output_request_ids o)).*1) <= Z.of_nat (length G) →
  ∃ M out, apply_grammar_bitmask o G width (Z.to_nat (zsum (mask_rows <$> ids))) b = Ok (M, out) ∧ mask_given ids G width M out.
Proof.
  intros Hix Hids Hin HG. set (S := sorted_items (structured_output_request_ids o)) in *.
  assert (NoDup S.*1) as Hnd.
  { unfold S, sorted_items. rewrite merge_sort_Permutation. apply NoDup_fst_map_to_list. }
  assert (∀ e, e ∈ S → is_Some (structured_output_request_ids o !! e.1) ∧ e.1 ∈ ids) as Hst.
  { intros e He. assert (is_Some (structured_output_request_ids o !! e.1)) as H; [|split; [done|by apply Hin]].
    apply elem_of_sorted_items. apply list_elem_of_fmap. by exists e. }
  destruct (copy_requests_spec b ids G S width Hix Hids Hnd Hst HG) as (M & out & c & HM & [C1 C2 C3 C4 C5]).
  assert (take (length S) S.*1 = S.*1) as Ht by (apply take_ge; by rewrite length_fmap). rewrite Ht in *.
  exists M, out. split; [unfold apply_grammar_bitmask; fold S; by rewrite HM|]. split; fold S.
  - done.
  - intros q id i j Hq Hi Hj. apply (C3 q id); [|done..]. apply lookup_lt_Some in Hq. by rewrite length_fmap in Hq.
  - intros id i j Hi Hn Hj. eapply C4; [exact Hi| |exact Hj]. unfold S. rewrite elem_of_sorted_items, Hn. by intros [? ?].
  - intros z. rewrite C5. split; intros (id & i & j & H & ?); exists id, i, j; (split; [|done]); by apply elem_of_sorted_items.
Qed.
End grammar.
