(* ===== verification/MMEmbeddings.v ===== *)
(** The multi-modal embeddings of a step: [_execute_mm_encoder] and [_gather_mm_embeddings]
    of [v1/worker/gpu_model_runner.py], with the placeholders of [v1/worker/utils.py].  The
    encoder runs once for every input, its output is cached with a row for each position
    of the placeholder, and each chunk of a prompt gets the rows of its own positions. *)
From Stdlib Require Import ZArith QArith Lia.
From stdpp Require Import base strings countable gmap sets list.
From S2P Require Import Prelude Request SchedulerData Arrays BlockTable BatchUpdate InputBatch ModelRunner PrepareInputs ExecuteModel.
From S2P Require Import UpdateStates.
Local Open Scope Z_scope.

(** * Placeholders *)
Definition embeds_of (mask : list bool) : nat := length (filter (λ p, p = true) mask).

Lemma scatter_gather (embeds : list Embedding) mask :
  (∀ m, mask = Some m → length embeds = embeds_of m) →
  ∃ placeholders, scatter_mm_placeholders embeds mask = Ok placeholders ∧ gather_mm_placeholders placeholders mask = embeds ∧
    length placeholders = match mask with Some m => length m | None => length embeds end.
Proof.
  destruct mask as [mask|]; intros Hm; [|by exists embeds]. specialize (Hm mask eq_refl). cbn. revert embeds Hm.
  induction mask as [|b mask IH]; intros embeds Hm; [destruct embeds; [by exists []|done]|]. unfold embeds_of in *. cbn [length replicate mask_fill].
  destruct b.
  - rewrite filter_cons_True in Hm by done. destruct embeds as [|e embeds]; [done|]. injection Hm as Hm. destruct (IH embeds Hm) as (pl & Hs & Hg & Hl).
    rewrite Hs. cbn. eexists. split_and!; [done| |by rewrite <- Hl]. unfold mask_select in *. cbn [zip_with]. rewrite filter_cons_True by done. cbn. by rewrite Hg.
  - rewrite filter_cons_False in Hm by done. destruct (IH embeds Hm) as (pl & Hs & Hg & Hl).
    rewrite Hs. cbn. eexists. split_and!; [done| |by rewrite <- Hl]. unfold mask_select in *. cbn [zip_with]. by rewrite filter_cons_False by done.
Qed.

(** The row of a position of the placeholder, if the position takes one. *)
Definition row_at (E : list Embedding) (mask : option (list bool)) (k : Z) : option Embedding :=
  match mask with
  | None => E !! Z.to_nat k
  | Some m => if default false (m !! Z.to_nat k) then E !! Z.to_nat k else None
  end.

Lemma omap_app {A B} (f : A → option B) (l k : list A) : omap f (l ++ k) = omap f l ++ omap f k.
Proof. induction l as [|x l IH]; [done|]. cbn. destruct (f x); [|done]. cbn. by rewrite IH. Qed.
Lemma omap_none {A B} (f : A → option B) (l : list A) : (∀ x, x ∈ l → f x = None) → omap f l = [].
Proof. induction l as [|x l IH]; intros H; [done|]. cbn. rewrite (H x) by by left. apply IH. intros y Hy. apply H. by right. Qed.
Lemma omap_agree {A B} (f g : A → option B) (l : list A) : (∀ x, x ∈ l → f x = g x) → omap f l = omap g l.
Proof. induction l as [|x l IH]; intros H; [done|]. cbn. rewrite (H x) by (by left). destruct (g x); [f_equal|]; apply IH; intros y Hy; apply H; by right. Qed.
Lemma omap_fmap {A B C} (f : B → option C) (g : A → B) (l : list A) : omap f (g <$> l) = omap (f ∘ g) l.
Proof. induction l as [|x l IH]; [done|]. cbn. unfold compose in *. destruct (f (g x)); [f_equal|]; done. Qed.
Lemma elem_of_range2 a b x : x ∈ range2 a b ↔ a <= x < b.
Proof.
  unfold range2. rewrite list_elem_of_fmap. split.
  - intros (i & -> & Hi%elem_of_seq). lia.
  - intros H. exists (Z.to_nat (x - a)). split; [lia|]. apply elem_of_seq. lia.
Qed.
Lemma range2_split a b c : a <= b <= c → range2 a c = range2 a b ++ range2 b c.
Proof.
  intros H. unfold range2. replace (Z.to_nat (c - a)) with (Z.to_nat (b - a) + Z.to_nat (c - b))%nat by lia.
  rewrite seq_app, fmap_app. f_equal. rewrite <- (Nat.add_0_r (0 + _)), <- fmap_add_seq, <- list_fmap_compose. apply list_fmap_ext. intros _ i _. cbn. lia.
Qed.

(** Selecting in the slices is reading the rows of the positions. *)
Lemma select_slice (E : list Embedding) (mask : list bool) (s n : nat) :
  length mask = length E → (s + n <= length E)%nat →
  mask_select (take n (drop s mask)) (take n (drop s E)) = omap (λ k, if default false (mask !! k) then E !! k else None) (seq s n).
Proof.
  intros Hl. revert s. induction n as [|n IH]; intros s Hs; [done|].
  destruct (lookup_lt_is_Some_2 E s) as [e He]; [lia|]. destruct (lookup_lt_is_Some_2 mask s) as [b Hb]; [lia|].
  rewrite (drop_S _ _ _ He), (drop_S _ _ _ Hb). cbn [take seq omap list_omap]. rewrite Hb, He. cbn [default].
  unfold mask_select in *. cbn [zip_with]. destruct b; cbn [default].
  - rewrite filter_cons_True by done. cbn. f_equal. apply IH. lia.
  - rewrite filter_cons_False by done. apply IH. lia.
Qed.
Lemma slice_take_drop {A} (s e : Z) (l : list A) : 0 <= s <= e → slice s e l = take (Z.to_nat (e - s)) (drop (Z.to_nat s) l).
Proof. intros H. rewrite slice_nonneg by lia. rewrite skipn_firstn_comm. f_equal. lia. Qed.
Lemma gather_slice E mask (s e : Z) :
  (∀ m, mask = Some m → length m = length E) → 0 <= s <= e → e <= len E →
  gather_mm_placeholders (slice s e E) (slice s e <$> mask) = omap (row_at E mask) (range2 s e).
Proof.
  intros Hm Hs He. unfold len in He. rewrite slice_take_drop by done. unfold range2. rewrite omap_fmap.
  assert (∀ i, Z.to_nat (s + Z.of_nat i) = (Z.to_nat s + i)%nat) as Hi by lia.
  replace (Z.to_nat (e - s)) with (Z.to_nat e - Z.to_nat s)%nat by lia. set (n := (Z.to_nat e - Z.to_nat s)%nat).
  destruct mask as [mask|]; cbn [fmap option_fmap option_map gather_mm_placeholders].
  - rewrite slice_take_drop by done. replace (Z.to_nat (e - s)) with n by lia. rewrite (select_slice E mask) by (rewrite ?Hm by done; lia).
    rewrite <- (Nat.add_0_r (Z.to_nat s)) at 1. rewrite <- fmap_add_seq, omap_fmap. apply omap_agree. intros i _. cbn. by rewrite Hi.
  - assert (n + Z.to_nat s <= length E)%nat as Hn by lia. clearbody n. revert Hn Hi. generalize (Z.to_nat s) as a. clear Hs He Hm. intros a Hn Hi.
    transitivity (omap (λ i, E !! (a + i)%nat) (seq 0 n)); [|apply omap_agree; intros i _; cbn; by rewrite Hi]. clear Hi.
    revert a Hn. induction n as [|n IH]; intros a Hn; [done|]. destruct (lookup_lt_is_Some_2 E a) as [x Hx]; [lia|].
    rewrite (drop_S _ _ _ Hx). cbn [take seq omap list_omap]. rewrite Nat.add_0_r, Hx. f_equal. rewrite IH by lia.
    rewrite <- fmap_S_seq, omap_fmap. apply omap_agree. intros i _. cbn. f_equal. lia.
Qed.

(** * The embeddings of a chunk *)
Section gather.
Context (cache : option (gmap Z (list Embedding))).
Implicit Types (l : list PlaceholderRange) (pos : PlaceholderRange) (i c n : Z).

(** The embedding of a position of the prompt. *)
Fixpoint embedding_at l i (p : Z) : option Embedding :=
  match l with
  | [] => None
  | pos :: l =>
    if decide (offset pos <= p < offset pos + length_ pos) then
      E ← cache ≫= lookup i; row_at E (is_embed pos) (p - offset pos)
    else embedding_at l (i + 1) p
  end.

(** The placeholders of a prompt, from a position on: they are ordered and do not overlap. *)
Fixpoint ordered (from : Z) l : Prop :=
  match l with [] => True | pos :: l => from <= offset pos ∧ 0 < length_ pos ∧ ordered (offset pos + length_ pos) l end.
(** The outputs of the inputs whose placeholders a chunk reaches are cached. *)
Fixpoint cached_for c n i l : Prop :=
  match l with
  | [] => True
  | pos :: l =>
    (offset pos < c + n → c < offset pos + length_ pos → ∃ E, cache ≫= lookup i = Some E ∧ len E = length_ pos ∧ ∀ m, is_embed pos = Some m → length m = length E) ∧
    cached_for c n (i + 1) l
  end.

Lemma embedding_before from l i p : ordered from l → p < from → embedding_at l i p = None.
Proof.
  revert from i. induction l as [|pos l IH]; intros from i Ho Hp; [done|]. destruct Ho as (H1 & H2 & H3). cbn. rewrite decide_False by lia.
  apply (IH (offset pos + length_ pos)); [done|lia].
Qed.

(** What is gathered for a chunk are the embeddings of its positions, in order. *)
Lemma gather_items_spec from c n i l :
  0 < n → ordered from l → cached_for c n i l →
  ∃ xs, gather_items cache c n i l = Ok xs ∧ concat xs = omap (embedding_at l i) (range2 c (c + n)).
Proof.
  intros Hn. revert from i. induction l as [|pos l IH]; intros from i Ho Hc.
  { exists []. split; [done|]. symmetry. by apply omap_none. }
  destruct Ho as (H1 & H2 & H3). destruct Hc as [Hc Hcs]. cbn [gather_items]. unfold gather_item.
  case_decide as Hd1; [|case_decide as Hd2].
  - exists []. split; [done|]. symmetry. apply omap_none. intros p Hp%elem_of_range2. apply (embedding_before (offset pos)); [by split|lia].
  - cbn [mbind outcome_bind]. destruct (IH _ (i + 1) H3 Hcs) as (xs & -> & Hxs). exists xs. split; [done|]. rewrite Hxs. apply omap_agree.
    intros p Hp%elem_of_range2. cbn. by rewrite decide_False by lia.
  - destruct (Hc ltac:(lia) ltac:(lia)) as (E & HE & Hlen & Hmask). set (s := Z.max (c - offset pos) 0). set (e := Z.min (c - offset pos + n) (length_ pos)).
    cbv zeta. rewrite decide_True by lia. rewrite HE. cbn [mbind outcome_bind].
    destruct (IH _ (i + 1) H3 Hcs) as (xs & -> & Hxs). cbn [mbind outcome_bind]. eexists. split; [done|]. rewrite concat_app. cbn [concat]. rewrite app_nil_r.
    rewrite (gather_slice E) by (first [done|lia]).
    rewrite (range2_split c (offset pos + s) (c + n)), (range2_split (offset pos + s) (offset pos + e) (c + n)), !omap_app by lia.
    rewrite (omap_none _ (range2 c (offset pos + s))).
    2:{ intros p Hp%elem_of_range2. cbn. rewrite decide_False by lia. apply (embedding_before (offset pos + length_ pos)); [done|lia]. }
    cbn [app]. f_equal.
    + transitivity (omap (row_at E (is_embed pos) ∘ λ p, p - offset pos) (range2 (offset pos + s) (offset pos + e))).
      * unfold range2. rewrite !omap_fmap. replace (Z.to_nat (offset pos + e - (offset pos + s))) with (Z.to_nat (e - s)) by lia.
        apply omap_agree. intros k _. cbn. f_equal. lia.
      * apply omap_agree. intros p Hp%elem_of_range2. cbn. rewrite decide_True by lia. by rewrite HE.
    + rewrite Hxs. transitivity (omap (embedding_at l (i + 1)) (range2 (offset pos + e) (c + n))).
      * rewrite (range2_split c (offset pos + e) (c + n)), omap_app by lia. rewrite omap_none; [done|]. intros p Hp%elem_of_range2.
        apply (embedding_before (offset pos + length_ pos)); [done|lia].
      * apply omap_agree. intros p Hp%elem_of_range2. cbn. by rewrite decide_False by lia.
Qed.
End gather.

(** * Running the encoder *)
Lemma group_by_concat {A} (key : A → Z) (l : list A) : concat (group_by key l) = l.
Proof.
  induction l as [|x l IH]; [done|]. cbn [group_by]. destruct (group_by key l) as [|[|y g] gs]; cbn in IH |- *; [by rewrite <- IH|by rewrite <- IH|].
  case_decide; cbn; by rewrite <- IH.
Qed.

Section encoder.
Context (modality_key : handle → Z) (encode : list handle → list (list Embedding)) (enc : handle → list Embedding).
(** The encoder gives every input of a batch the output it has by itself. *)
Hypothesis encode_spec : ∀ group, encode group = enc <$> group.
Implicit Types (s : RunnerState) (o : SchedulerOutput) (id : string) (i : Z).

(** An input of the step. *)
Record encoder_input o s id i (x : handle) (p : PlaceholderRange) : Prop := {
  ei_scheduled : ∃ l, scheduled_encoder_inputs o !! id = Some l ∧ i ∈ l;
  ei_input : ∃ r, requests s !! id = Some r ∧ py_index (cached_mm_inputs r) i = Ok x ∧ py_index (cached_mm_positions r) i = Ok p
}.
Record inputs_known o s : Prop := {
  ik_requests : ∀ id, is_Some (scheduled_encoder_inputs o !! id) → is_Some (requests s !! id);
  ik_inputs : ∀ id l i, scheduled_encoder_inputs o !! id = Some l → i ∈ l →
    ∃ x p, encoder_input o s id i x p ∧ ∀ m, is_embed p = Some m → length (enc x) = embeds_of m
}.
Definition entry_of o s (e : handle * (string * Z * PlaceholderRange)) : Prop := encoder_input o s e.2.1.1 e.2.1.2 e.1 e.2.2.
Definition cached_output (C : gmap string (gmap Z (list Embedding))) id i : option (list Embedding) := C !! id ≫= lookup i.

Lemma run_groups (l : list handle) :
  mapM (M := outcome) (run_encoder encode) (group_by modality_key l) = Ok (fmap (M := list) (fmap (M := list) enc) (group_by modality_key l)).
Proof.
  apply mapM_Ok, Forall2_fmap_r. apply Forall_Forall2_diag, Forall_true. intros group. unfold run_encoder. rewrite encode_spec, decide_True; [done|]. apply length_fmap.
Qed.
Lemma concat_fmap {A B} (f : A → B) (ls : list (list A)) : concat (fmap (M := list) (fmap (M := list) f) ls) = f <$> concat ls.
Proof. induction ls as [|l ls IH]; [done|]. cbn. by rewrite fmap_app, <- IH. Qed.

Lemma requests_of_input o s id l : inputs_known o s → scheduled_encoder_inputs o !! id = Some l →
  ∃ r ys, requests s !! id = Some r ∧ encoder_requests id r l = Ok ys ∧
    Forall2 (λ i e, py_index (cached_mm_inputs r) i = Ok e.1 ∧ py_index (cached_mm_positions r) i = Ok e.2.2 ∧ e.2.1 = (id, i)) l ys.
Proof.
  intros [K1 K2] Hl. destruct (K1 id) as [r Hr]; [by eexists|]. exists r.
  assert (∀ i, i ∈ l → ∃ x p, py_index (cached_mm_inputs r) i = Ok x ∧ py_index (cached_mm_positions r) i = Ok p) as Hi.
  { intros i Hi. destruct (K2 id l i Hl Hi) as (x & p & [_ (r' & Hr' & Hx & Hp)] & _). assert (r' = r) as -> by congruence. by exists x, p. }
  clear Hl. unfold encoder_requests. induction l as [|i l IH]; [exists []; by split_and!|].
  destruct IH as (ys & _ & Hys & Hf); [intros j Hj; apply Hi; by right|]. destruct (Hi i ltac:(by left)) as (x & p & Hx & Hp).
  exists ((x, (id, i, p)) :: ys). split_and!; [done| |by constructor]. cbn [mapM]. rewrite Hx. cbn [mbind outcome_bind]. rewrite Hp. cbn [mbind outcome_bind]. by rewrite Hys.
Qed.

Lemma collect_inputs o s : inputs_known o s →
  wp (map_each (map_to_list (scheduled_encoder_inputs o)) (λ '(id, input_ids), r ← get_request id; lift_outcome (encoder_requests id r input_ids)))
    (λ inputs s', s' = s ∧ (∀ e, e ∈ concat inputs → entry_of o s e) ∧
       ∀ id l i, scheduled_encoder_inputs o !! id = Some l → i ∈ l → ∃ e, e ∈ concat inputs ∧ e.2.1 = (id, i)) s.
Proof.
  intros Hk. set (R := λ (p : string * list Z) (ys : list (handle * (string * Z * PlaceholderRange))), ∃ r, requests s !! p.1 = Some r ∧
    Forall2 (λ i e, py_index (cached_mm_inputs r) i = Ok e.1 ∧ py_index (cached_mm_positions r) i = Ok e.2.2 ∧ e.2.1 = (p.1, i)) p.2 ys).
  eapply wp_mono; [apply (wp_map_each_read R)|].
  - intros [id l] Hin%elem_of_map_to_list. destruct (requests_of_input o s id l Hk Hin) as (r & ys & Hr & Hys & Hf).
    apply wp_bind. eapply wp_get_request; [exact Hr|]. eapply wp_lift_outcome; [exact Hys|]. split; [done|]. by exists r.
  - intros inputs s' [-> Hf]. split; [done|]. split.
    + intros e (ys & Hys & He)%elem_of_concat. apply list_elem_of_lookup_1 in Hys as [k Hys]. destruct (Forall2_lookup_r _ _ _ _ _ Hf Hys) as ([id l] & Hl & r & Hr & Hyf).
      cbn [fst snd] in *. apply list_elem_of_lookup_1 in He as [j Hj]. destruct (Forall2_lookup_r _ _ _ _ _ Hyf Hj) as (i & Hi & Hx & Hp & Heq).
      assert ((id, l) ∈ map_to_list (scheduled_encoder_inputs o)) as Hl'%elem_of_map_to_list by by eapply list_elem_of_lookup_2.
      unfold entry_of. rewrite Heq. cbn [fst snd]. split; [exists l; split; [done|by eapply list_elem_of_lookup_2]|by exists r].
    + intros id l i Hl Hi. apply elem_of_map_to_list in Hl. apply list_elem_of_lookup_1 in Hl as [k Hk']. destruct (Forall2_lookup_l _ _ _ _ _ Hf Hk') as (ys & Hys & r & Hr & Hyf).
      apply list_elem_of_lookup_1 in Hi as [j Hj]. destruct (Forall2_lookup_l _ _ _ _ _ Hyf Hj) as (e & He & _ & _ & Heq). exists e. split; [|done].
      apply elem_of_concat. exists ys. split; by eapply list_elem_of_lookup_2.
Qed.

(** The cache after the encoder has run: the outputs of the step's inputs, each with the
    rows of its placeholder; other outputs stay. *)
Record encoded o s (C : gmap string (gmap Z (list Embedding))) : Prop := {
  en_new : ∀ id l i, scheduled_encoder_inputs o !! id = Some l → i ∈ l →
    ∃ x p E, encoder_input o s id i x p ∧ scatter_mm_placeholders (enc x) (is_embed p) = Ok E ∧ cached_output C id i = Some E;
  en_old : ∀ id i, (∀ l, scheduled_encoder_inputs o !! id = Some l → i ∉ l) → cached_output C id i = cached_output (encoder_cache s) id i
}.

Lemma cached_output_insert C id i E id' i' :
  cached_output (<[id := <[i := E]> (default ∅ (C !! id))]> C) id' i' = if decide (id' = id ∧ i' = i) then Some E else cached_output C id' i'.
Proof.
  unfold cached_output. destruct (decide (id' = id)) as [->|Hne].
  - rewrite lookup_insert_eq. cbn. destruct (decide (i' = i)) as [->|Hi]; [by rewrite lookup_insert_eq, decide_True|].
    rewrite lookup_insert_ne, decide_False by naive_solver. destruct (C !! id); cbn; [done|apply lookup_empty].
  - rewrite lookup_insert_ne, decide_False by naive_solver. done.
Qed.

Lemma wp_execute_mm_encoder o s Q :
  inputs_known o s → (∀ C, encoded o s C → Q tt (set_encoder_cache C s)) → wp (_execute_mm_encoder modality_key encode o) Q s.
Proof.
  intros Hk HQ. unfold _execute_mm_encoder. case_decide as Hemp.
  { apply wp_ret. replace s with (set_encoder_cache (encoder_cache s) s) by by destruct s. apply HQ. split; [|done]. intros id l i Hl. by rewrite Hemp in Hl. }
  apply wp_bind. eapply wp_mono; [by apply collect_inputs|]. cbv beta. intros inputs s' (-> & Hentry & Hall). cbv zeta. set (flat := concat inputs) in *.
  unfold group_mm_inputs_by_modality. apply wp_bind. eapply wp_lift_outcome; [apply run_groups|]. rewrite concat_fmap, group_by_concat.
  assert (zip flat.*2 (enc <$> flat.*1) = (λ e, (e.2, enc e.1)) <$> flat) as ->.
  { clear. induction flat as [|e l IH]; [done|]. cbn. by f_equal. }
  assert (∀ e, e ∈ flat → ∃ E, scatter_mm_placeholders (enc e.1) (is_embed e.2.2) = Ok E) as Hsc.
  { intros e He. destruct (Hentry e He) as [(l & Hl & Hi) (r & Hr & Hx & Hp)]. destruct (ik_inputs _ _ Hk _ _ _ Hl Hi) as (x & p & [_ (r' & Hr' & Hx' & Hp')] & Hlen).
    assert (r' = r) as -> by congruence. assert (x = e.1) as -> by congruence. assert (p = e.2.2) as -> by congruence.
    destruct (scatter_gather (enc e.1) (is_embed e.2.2) Hlen) as (E & HE & _). by exists E. }
  apply wp_for_each with (I := λ done _ s', ∃ C, s' = set_encoder_cache C s ∧
    (∀ e, e ∈ take (length done) flat → ∃ E, scatter_mm_placeholders (enc e.1) (is_embed e.2.2) = Ok E ∧ cached_output C e.2.1.1 e.2.1.2 = Some E) ∧
    ∀ id i, (∀ e, e ∈ take (length done) flat → e.2.1 ≠ (id, i)) → cached_output C id i = cached_output (encoder_cache s) id i).
  - exists (encoder_cache s). split_and!; [by destruct s| |done]. cbn. by intros e ?%not_elem_of_nil.
  - intros done y todo s' Hsplit (C & -> & H1 & H2).
    assert (((λ e, (e.2, enc e.1)) <$> flat) !! length done = Some y) as Hy by by rewrite Hsplit, lookup_app_r, Nat.sub_diag by lia.
    apply list_lookup_fmap_Some in Hy as (e & -> & He). destruct (Hsc e (list_elem_of_lookup_2 _ _ _ He)) as (E & HE).
    destruct e as [x [[id i] p]]. cbn [fst snd] in *. unfold store_encoder_output. apply wp_bind. eapply wp_lift_outcome; [exact HE|]. apply wp_modify.
    cbn [encoder_cache set_encoder_cache]. eexists. split; [reflexivity|]. rewrite length_app, Nat.add_1_r, (take_S_r _ _ _ He). split.
    + intros e [Hin|Hin%list_elem_of_singleton]%elem_of_app; rewrite cached_output_insert.
      * destruct (H1 e Hin) as (E' & HE' & HC). exists E'. split; [done|]. case_decide as Heq; [|done]. f_equal.
        assert (e ∈ flat) as Hef by by eapply elem_of_take in Hin as (k & Hin & _); eapply list_elem_of_lookup_2.
        destruct (Hentry e Hef) as [_ (r & Hr & Hx & Hp)]. destruct (Hentry _ (list_elem_of_lookup_2 _ _ _ He)) as [_ (r' & Hr' & Hx' & Hp')]. cbn [fst snd] in *.
        destruct Heq as [He1 He2]. rewrite He1, He2 in *. assert (r' = r) as -> by congruence.
        assert (e.1 = x) as Ex by congruence. assert (e.2.2 = p) as Ep by congruence. rewrite Ex, Ep in HE'. congruence.
      * subst e. cbn. exists E. split; [done|]. by rewrite decide_True.
    + intros id' i' Hno. rewrite cached_output_insert, decide_False.
      * apply H2. intros e Hin. apply Hno, elem_of_app. by left.
      * intros [-> ->]. apply (Hno (x, (id, i, p))); [|done]. apply elem_of_app. right. by left.
  - intros s' (C & -> & H1 & H2). apply HQ. rewrite length_fmap, firstn_all in H1, H2. split.
    + intros id l i Hl Hi. destruct (Hall id l i Hl Hi) as (e & He & Heq). destruct (H1 e He) as (E & HE & HC). pose proof (Hentry e He) as Hent. unfold entry_of in Hent.
      rewrite Heq in HC, Hent. by exists e.1, e.2.2, E.
    + intros id i Hno. apply H2. intros e He Heq. destruct (Hentry e He) as [(l & Hl & Hi) _]. rewrite Heq in Hl, Hi. by apply (Hno l).
Qed.
End encoder.

(** * The embeddings of a step *)
Section step_embeddings.
Implicit Types (s : RunnerState) (o : SchedulerOutput) (id : string).

(** The request's placeholders are in order, and the outputs that its tokens need are cached. *)
Definition mm_request_ok o s id : Prop :=
  ∃ from r c, requests s !! id = Some r ∧ scheduled_count o id = Ok c ∧ 0 < c ∧ ordered from (cached_mm_positions r) ∧
    cached_for (encoder_cache s !! id) (num_computed_tokens r) c 0 (cached_mm_positions r).
(** The embeddings of the scheduled tokens of a request. *)
Definition step_embeddings o s id : list Embedding :=
  match requests s !! id, scheduled_count o id with
  | Some r, Ok c => omap (embedding_at (encoder_cache s !! id) (cached_mm_positions r) 0) (range2 (num_computed_tokens r) (num_computed_tokens r + c))
  | _, _ => []
  end.

Lemma gather_mm_spec o s ids : req_id_list (input_batch s) = Ok ids → (∀ id, id ∈ ids → mm_request_ok o s id) →
  ∃ l, _gather_mm_embeddings o s = Ok l ∧ concat l = concat (step_embeddings o s <$> ids).
Proof.
  intros Hids Hok. unfold _gather_mm_embeddings. rewrite Hids. cbn [mbind outcome_bind]. clear Hids.
  match goal with |- context [mapM ?f ids] => set (g := f) end.
  assert (∃ ls, mapM g ids = Ok ls ∧ concat (concat ls) = concat (step_embeddings o s <$> ids)) as (ls & -> & H); [|by exists (concat ls)].
  induction ids as [|id ids IH]; [by exists []|]. destruct IH as (ls & Hls & Hc); [intros x Hx; apply Hok; by right|].
  destruct (Hok id ltac:(by left)) as (from & r & c & Hr & Hcnt & Hc0 & Ho & Hcf). destruct (gather_items_spec _ _ _ _ _ _ Hc0 Ho Hcf) as (xs & Hxs & Hx).
  assert (g id = Ok xs) as Hg.
  { unfold g. rewrite Hcnt. cbn [mbind outcome_bind]. unfold dict_get. by rewrite Hr. }
  exists (xs :: ls). cbn [mapM]. rewrite Hg. cbn [mbind outcome_bind].
  rewrite Hls. split; [done|]. cbn. rewrite concat_app, Hx, Hc. unfold step_embeddings at 2. by rewrite Hr, Hcnt.
Qed.
End step_embeddings.
