(* ===== verification/ExecuteStep.v ===== *)
(** A step of the worker as a whole: [execute_model] of [v1/worker/gpu_model_runner.py] for
    a batch of requests that sample.  After the step every scheduled request has got the
    tokens that were sampled for it, and the persistent batch shows the cached requests,
    ready for the next step. *)
From Stdlib Require Import ZArith QArith Lia.
From stdpp Require Import base strings countable gmap sets list.
From S2P Require Import Prelude Request KVCacheSpec SchedulerData Arrays NgramProposer RejectionSampler BlockTable AttentionMetadata BatchUpdate InputBatch InputBatchFacts InputBatchMoves BatchReplay ModelRunner PrepareInputs PrepareFacts StepInputs BatchRows BatchReorder UpdateStates WorkerStep ExecuteModel ExecuteFacts FinishStep GrammarMask MMEmbeddings.
Local Open Scope Z_scope.

Section execute_step.
Context (to_float32 : Q → Q) (cfg : RunnerConfig) (use_cascade_attention : CascadeQuery → bool).
Context (worker_params : RequestParams → BatchParams) (new_generator : RequestParams → option handle).
Context (modality_key : handle → Z) (encode : list handle → list (list Embedding)) (enc : handle → list Embedding).
Context (prompt_logprobs_row : Z → Z → Z → handle).
Context (run_model : PreparedInputs → list (list Embedding) → option (list (list Z) * list Z) → RunnerState → SamplerOutput).
Context (run_pooler : PreparedInputs → list (list Embedding) → RunnerState → list handle).
Context (bitmask_rows : handle → list (list Z)) (pack_logprobs : PromptLogprobs → handle) (other_drafts : list (list Z) → RunnerState → list (list Z)).
Context (is_multimodal_model : bool).
Implicit Types (s : RunnerState) (b : InputBatch) (o : SchedulerOutput) (id : string) (r : CachedRequestState).

Abbreviation scheduled o s id r := (scheduled_state worker_params new_generator o s id r).
Abbreviation prepared_step o s s1 ids counts out s' := (worker_prepared to_float32 cfg worker_params new_generator o s s1 ids counts out s').

(** ** The state in which the model runs *)
Lemma padded_group_blocks b counts (ts : MultiGroupBlockTable) i : group_blocks (padded_table b counts <$> ts) i = group_blocks ts i.
Proof. unfold group_blocks. rewrite <- list_fmap_compose. done. Qed.
Lemma padded_shown b b' counts : shown (set_tables (padded_table b' counts <$> block_table (slots b)) b) = shown b.
Proof.
  apply map_eq. intros id. apply shown_agree; [|done]. unfold set_tables. batch_simpl. destruct (req_id_to_index b !! id) as [i|]; [|done]. unfold row_view. batch_simpl. by rewrite padded_group_blocks.
Qed.
Lemma padded_dense b b' counts : batch_dense b → batch_dense (set_tables (padded_table b' counts <$> block_table (slots b)) b).
Proof.
  intros [[[] ? ? ? ?] ?]. split; [|done]. split; try done. split; try done. intros t (t0 & -> & Ht)%list_elem_of_fmap. cbn in *.
  destruct (so_tables t0 Ht) as []. by split.
Qed.

Lemma prepared_state o s s1 ids counts out s' : prepared_step o s s1 ids counts out s' →
  buffers s' = device_buffers (input_batch s1) counts (max_num_reqs (InputBatch.cfg (input_batch s))) (buffers s1) ∧
  input_batch s' = set_tables (padded_table (input_batch s1) counts <$> block_table (slots (input_batch s1))) (input_batch s1) ∧
  requests s' = requests s1 ∧ encoder_cache s' = encoder_cache s1 ∧ logitsprocs s' = logitsprocs s1.
Proof. intros [_ _ _ _ _ _ Hp]. rewrite (sp_state _ _ _ _ _ _ _ _ _ Hp). done. Qed.

Lemma prepared_ids o s s1 ids counts out s' id : prepared_step o s s1 ids counts out s' →
  id ∈ ids ↔ is_Some (req_id_to_index (input_batch s') !! id).
Proof.
  intros Hw. destruct (prepared_state _ _ _ _ _ _ _ Hw) as (_ & -> & _). cbn. pose proof (su_batch _ _ _ _ _ _ _ (wk_updated _ _ _ _ _ _ _ _ _ _ _ Hw)) as [Hb _].
  split.
  - intros [i Hi]%list_elem_of_lookup_1. apply (req_id_list_lookup _ _ _ _ (wk_ids _ _ _ _ _ _ _ _ _ _ _ Hw)), (bo_index _ Hb) in Hi. by exists i.
  - intros [i Hi%(bo_index _ Hb)]. apply (req_id_list_lookup _ _ _ _ (wk_ids _ _ _ _ _ _ _ _ _ _ _ Hw)) in Hi. by eapply list_elem_of_lookup_2.
Qed.

(** A row of the prepared batch. *)
Lemma prepared_row o s s1 ids counts out s' id i :
  step_ok to_float32 cfg worker_params new_generator o s → prepared_step o s s1 ids counts out s' → req_id_to_index (input_batch s') !! id = Some i →
  ∃ r c, scheduled o s id r ∧ requests s' !! id = Some r ∧ scheduled_count o id = Ok c ∧ 0 <= num_computed_tokens r ∧
    row_shows to_float32 (input_batch s') (spec_of o id) id r ∧
    identifier_shows to_float32 (InputBatch.cfg (input_batch s')) r (id_view (sets (input_batch s')) (dicts (input_batch s')) id).
Proof.
  intros Hok Hw Hi. destruct (prepared_state _ _ _ _ _ _ _ Hw) as (_ & Hb & Hreq & _). rewrite Hb in Hi. cbn in Hi. rewrite Hb, Hreq.
  pose proof (wk_updated _ _ _ _ _ _ _ _ _ _ _ Hw) as Hu. pose proof (su_batch _ _ _ _ _ _ _ Hu) as [Hbo Hd].
  assert (id ∈ (new_req_id <$> scheduled_new_reqs o) ++ req_ids (scheduled_cached_reqs o)) as Hin.
  { eapply updated_dom; [exact Hu|by eexists]. }
  destruct (su_requests _ _ _ _ _ _ _ Hu id Hin) as (r & Hst & Hr).
  assert (∃ c, scheduled_count o id = Ok c) as [c Hc].
  { apply (uk_keys _ _ _ _ _ (st_update _ _ _ _ _ _ Hok)) in Hin. apply list_elem_of_fmap in Hin as ([id' c] & -> & Hin). exists c.
    apply scheduled_count_lookup; [apply (tk_distinct _ _ _ _ _ (st_tokens _ _ _ _ _ _ Hok))|done]. }
  exists r, c. split_and!; [done|done|done| | |].
  - by destruct (tk_count _ _ _ _ _ (st_tokens _ _ _ _ _ _ Hok) id r c Hst Hc) as (_ & _ & ? & _).
  - unfold row_shows. rewrite padded_shown. cbn [InputBatch.cfg set_tables set_slots]. rewrite (su_cfg _ _ _ _ _ _ _ Hu). rewrite <- (all_written cfg worker_params new_generator o s (st_tokens _ _ _ _ _ _ Hok)). by apply (su_rows _ _ _ _ _ _ _ Hu).
  - pose proof (occupied_lt _ _ _ _ (bo_slots _ Hbo) (proj1 (bo_index _ Hbo id i) Hi)) as Hmax.
    destruct (row_view_Some _ _ _ (bo_slots _ Hbo) Hmax) as [v Hv]. pose proof (shown_lookup _ id i v Hi Hv) as Hsh.
    pose proof (su_views _ _ _ _ _ _ _ Hu id r _ Hin Hr Hsh) as Hview. cbn. by rewrite (su_cfg _ _ _ _ _ _ _ Hu).
Qed.

Lemma prepared_pass o s s1 ids counts out s' :
  step_ok to_float32 cfg worker_params new_generator o s → prepared_step o s s1 ids counts out s' → pass_ok to_float32 o s'.
Proof.
  intros Hok Hw. destruct (prepared_state _ _ _ _ _ _ _ Hw) as (Hbuf & Hb & Hreq & _). pose proof (wk_updated _ _ _ _ _ _ _ _ _ _ _ Hw) as Hu.
  pose proof (su_batch _ _ _ _ _ _ _ Hu) as Hd. split.
  - rewrite Hb. by apply padded_dense.
  - rewrite Hb. cbn. apply (su_builder _ _ _ _ _ _ _ Hu).
  - rewrite Hreq. intros id r Hr. destruct (decide (id ∈ (new_req_id <$> scheduled_new_reqs o) ++ req_ids (scheduled_cached_reqs o))) as [Hin|Hin].
    + destruct (su_requests _ _ _ _ _ _ _ Hu id Hin) as (r' & Hst & Hr'). assert (r' = r) as -> by congruence.
      by eapply scheduled_state_id; [apply (st_runner _ _ _ _ _ _ Hok)|].
    + rewrite (su_others _ _ _ _ _ _ _ Hu id Hin) in Hr. case_decide; [done|]. by apply (rk_ids _ _ (st_runner _ _ _ _ _ _ Hok)).
  - intros id i Hi. destruct (prepared_row _ _ _ _ _ _ _ id i Hok Hw Hi) as (r & c & _ & H1 & H2 & H3 & H4 & H5). by exists r, c.
  - rewrite Hbuf, Hb. cbn [slots set_tables set_slots _req_ids set_block_table]. unfold device_buffers, filled_buffers. cbn [query_start_loc_np set_device_buffers].
    rewrite length_app, length_drop. cbn [length]. rewrite np_cumsum_length.
    pose proof (bu_query _ _ _ (st_buffers _ _ _ _ _ _ Hok)) as Hq. rewrite (su_buffers _ _ _ _ _ _ _ Hu).
    pose proof (so_ids _ _ (bo_slots _ (proj1 Hd))) as Hle. rewrite (su_cfg _ _ _ _ _ _ _ Hu) in Hle. lia.
Qed.

(** ** The masks of the step *)
Definition masks_fit o : Prop := ∀ h, grammar_bitmask o = Some h →
  (∀ id, is_Some (structured_output_request_ids o !! id) → id ∈ (num_scheduled_tokens o).*1) ∧
  zsum (mask_rows o <$> (sorted_items (structured_output_request_ids o)).*1) <= Z.of_nat (length (bitmask_rows h)).

Lemma logits_counted o s s1 ids counts out s' : prepared_step o s s1 ids counts out s' →
  Z.of_nat (length (pi_logits_indices out)) = zsum (mask_rows o <$> ids).
Proof.
  intros [_ Hids _ Hc _ _ Hp]. assert (length counts = length ids) as Hl by (symmetry; by eapply Forall2_length, mapM_Ok_inv).
  assert (num_samples (drafts_of o ids) = mask_rows o <$> ids) as Hns.
  { unfold num_samples, drafts_of. rewrite <- list_fmap_compose. apply list_fmap_ext. intros _ id _. unfold mask_rows, num_spec_tokens. cbn. lia. }
  destruct (decide (scheduled_spec_decode_tokens o = ∅)) as [He|He].
  - destruct (sp_plain _ _ _ _ _ _ _ _ _ Hp He) as [_ ->]. rewrite length_fmap, np_cumsum_length, Hl. clear -He. unfold mask_rows, num_spec_tokens. rewrite He.
    induction ids as [|id ids IH]; [done|]. cbn [fmap list_fmap length]. rewrite zsum_cons, lookup_empty. change (len (default [] None)) with 0. cbn in IH. lia.
  - destruct (sp_spec _ _ _ _ _ _ _ _ _ Hp He) as (m & _ & -> & ->). cbn. unfold spec_logits_indices. rewrite batched_length; [by rewrite Hns|].
    rewrite Hns. apply mask_rows_nonneg.
Qed.

(** The masks are on the rows of logits of the structured requests. *)
Lemma masks_made o s s1 ids counts out s' : prepared_step o s s1 ids counts out s' → masks_fit o →
  ∃ masks, grammar_masks bitmask_rows o out (input_batch s') = Ok masks ∧
    match grammar_bitmask o with
    | None => masks = None
    | Some h => ∃ width M rows, masks = Some (M, rows) ∧ mask_given o ids (bitmask_rows h) width M rows
    end.
Proof.
  intros Hw Hm. unfold grammar_masks, masks_fit in *. destruct (grammar_bitmask o) as [h|]; [|by exists None]. destruct (Hm h eq_refl) as [H1 H2].
  destruct (prepared_state _ _ _ _ _ _ _ Hw) as (_ & Hb & _). pose proof (su_batch _ _ _ _ _ _ _ (wk_updated _ _ _ _ _ _ _ _ _ _ _ Hw)) as [Hbo _].
  pose proof (wk_ids _ _ _ _ _ _ _ _ _ _ _ Hw) as Hids. set (width := match bitmask_rows h with r :: _ => length r | [] => 0%nat end).
  destruct (apply_grammar_bitmask_spec o (input_batch s') ids (bitmask_rows h) width) as (M & rows & HM & Hg).
  - rewrite Hb. apply (bo_index _ Hbo).
  - by rewrite Hb.
  - intros id Hid. rewrite (wk_order _ _ _ _ _ _ _ _ _ _ _ Hw). by apply H1.
  - exact H2.
  - pose proof (logits_counted _ _ _ _ _ _ _ Hw) as Hl. replace (length (pi_logits_indices out)) with (Z.to_nat (zsum (mask_rows o <$> ids))) by lia.
    rewrite HM. exists (Some (M, rows)). split; [done|]. by exists width, M, rows.
Qed.

(** ** The multi-modal part *)
Definition mm_ready o s : Prop :=
  inputs_known enc o s ∧ ∀ C, encoded enc o s C → ∀ id, is_Some (req_id_to_index (input_batch s) !! id) → mm_request_ok o (set_encoder_cache C s) id.

(** ** The step *)
(** The sampler returns between one token and one more than there are drafts for every row. *)
Definition sampler_promise o : Prop := ∀ prepared mm_embeds masks s, let out := run_model prepared mm_embeds masks s in
  let l := valid_sampled_token_ids (input_batch s) out in
  length l = length (_req_ids (slots (input_batch s))) ∧
  (∀ i id toks, req_id_to_index (input_batch s) !! id = Some i → l !! i = Some toks → 0 < len toks <= 1 + len (spec_of o id)) ∧
  (∀ toks, toks ∈ l → toks ≠ []) ∧
  (∀ i g, generators (slots (input_batch s)) !! i = Some g → is_Some (so_generator_offsets out !! g)).

(** What the step needs besides: requests that sample, and room for what is sampled. *)
Record output_ok o s : Prop := {
  oo_sampling : ∀ id r, scheduled o s id r → ∃ p, params_of r = Sampling p;
  oo_complete : ∀ id r c, scheduled o s id r → scheduled_count o id = Ok c → num_computed_tokens r + c < cached_num_tokens r → spec_of o id = [];
  oo_room : ∀ id r, scheduled o s id r → cached_num_tokens r + 1 + len (spec_of o id) <= Z.of_nat (max_model_len (InputBatch.cfg (input_batch s))) ∧
    cached_num_tokens r + 1 + len (spec_of o id) <= rc_max_model_len cfg;
  oo_masks : masks_fit o;
  oo_groups : rc_has_speculative_config cfg = true → rc_kv_cache_groups cfg ≠ [];
  oo_drafter : ∀ drafter, rc_drafter cfg = Some drafter → 0 < min_n drafter;
  oo_mm : is_multimodal_model = true → (∀ group, encode group = enc <$> group) ∧ ∀ s1 ids counts out s', prepared_step o s s1 ids counts out s' → mm_ready o s'
}.

(** Tables of one shape. *)
Record table_alike (t t' : BlockTable) : Prop := {
  ta_block_size : bt_block_size t' = bt_block_size t;
  ta_width : max_num_blocks_per_req t' = max_num_blocks_per_req t;
  ta_slots : len (slot_mapping_np t') = len (slot_mapping_np t);
  ta_device_slots : len (slot_mapping t') = len (slot_mapping t)
}.

Record step_executed o s (result : ModelRunnerOutput) s' : Prop := {
  ex_runner : runner_ok to_float32 s';
  ex_requests : ∀ id, id ∈ (num_scheduled_tokens o).*1 → ∃ r c i toks, scheduled o s id r ∧ scheduled_count o id = Ok c ∧
    req_id_to_index (input_batch s') !! id = Some i ∧ SchedulerData.req_id_to_index result !! id = Some (Z.of_nat i) ∧
    sampled_token_ids result !! i = Some toks ∧ requests s' !! id = Some (with_output toks r) ∧
    (toks = [] ↔ num_computed_tokens r + c < cached_num_tokens r) ∧ len toks <= 1 + len (spec_of o id);
  ex_others : ∀ id, (id ∉ (num_scheduled_tokens o).*1) → requests s' !! id = if decide (id ∈ out_finished_req_ids o) then None else requests s !! id;
  ex_ids : dom (req_id_to_index (input_batch s')) = list_to_set (num_scheduled_tokens o).*1;
  ex_cfg : InputBatch.cfg (input_batch s') = InputBatch.cfg (input_batch s);
  ex_tables : Forall2 table_alike (block_table (slots (input_batch s))) (block_table (slots (input_batch s')));
  ex_buffers : buffers_ok (Z.to_nat (rc_max_num_tokens cfg)) (max_num_reqs (InputBatch.cfg (input_batch s'))) (buffers s');
  ex_biases : biases_follow (request_table (requests s)) (_req_ids (slots (input_batch s))) (lp_logit_bias (logitsprocs s)) →
    biases_follow (request_table (requests s')) (_req_ids (slots (input_batch s'))) (lp_logit_bias (logitsprocs s'));
  ex_masks : no_reorder cfg → masks_ok s → masks_ok s'
}.

Lemma sampler_fits_promised o s s1 ids counts out s' prepared mm_embeds masks :
  step_ok to_float32 cfg worker_params new_generator o s → prepared_step o s s1 ids counts out s' → output_ok o s → sampler_promise o →
  ∀ s2, requests s2 = requests s' → input_batch s2 = input_batch s' → sampler_fits cfg o s2 (run_model prepared mm_embeds masks s2).
Proof.
  intros Hok Hw Ho Hsm s2 Hr2 Hb2. destruct (Hsm prepared mm_embeds masks s2) as (S1 & S2 & S3 & S4). cbv zeta in *.
  assert (∀ id r, requests s2 !! id = Some r → (∃ c, scheduled_count o id = Ok c) → scheduled o s id r) as Hst.
  { rewrite Hr2. destruct (prepared_state _ _ _ _ _ _ _ Hw) as (_ & _ & -> & _). pose proof (wk_updated _ _ _ _ _ _ _ _ _ _ _ Hw) as Hu.
    intros id r Hr [c Hc]. destruct (su_requests _ _ _ _ _ _ _ Hu id) as (r' & Hst & Hr'); [|by assert (r' = r) as -> by congruence].
    apply (uk_keys _ _ _ _ _ (st_update _ _ _ _ _ _ Hok)). unfold scheduled_count in Hc. destruct (list_find _ _) as [[j [id' c']]|] eqn:Hf; [|done].
    apply list_find_Some in Hf as (Hj & Heq & _). cbn in Heq. subst id'. apply list_elem_of_fmap. exists (id, c'). split; [done|]. by eapply list_elem_of_lookup_2. }
  split; [done|done| | |done].
  - intros id (r & c & Hr & Hc & Hlt). by apply (oo_complete _ _ Ho id r c); [apply Hst; [|exists c]|..].
  - intros id i r l Hi Hr Hl. destruct (S2 i id l Hi Hl) as [_ Hle].
    assert (scheduled o s id r) as Hsr.
    { rewrite Hb2 in Hi. destruct (prepared_row _ _ _ _ _ _ _ id i Hok Hw Hi) as (r' & c & Hst' & Hr' & _). rewrite Hr2 in Hr. by assert (r' = r) as -> by congruence. }
    destruct (oo_room _ _ Ho id r Hsr) as [H1 H2]. destruct (prepared_state _ _ _ _ _ _ _ Hw) as (_ & Hb & _). rewrite Hb2, Hb. cbn [InputBatch.cfg set_tables set_slots].
    rewrite (su_cfg _ _ _ _ _ _ _ (wk_updated _ _ _ _ _ _ _ _ _ _ _ Hw)). lia.
Qed.

(** ** The parts in sequence *)
Lemma wp_guarded {A B} (m1 : M RunnerState unit) (c : Prop) `{Decision c} (e : M RunnerState B) (m2 : M RunnerState A) (k : A → M RunnerState B) Q s :
  ¬ c → wp (m1 ;; m2) (λ x s', wp (k x) Q s') s → wp (m1 ;; if decide c then e else x ← m2; k x) Q s.
Proof.
  intros Hc Hw. unfold wp, mbind, M_bind in *. destruct (m1 s) as [[[]|?] s1]; [|done]. rewrite decide_False by done.
  by destruct (m2 s1) as [[x|?] s2].
Qed.
Lemma no_pooling o s s1 ids counts out s' : step_ok to_float32 cfg worker_params new_generator o s → prepared_step o s s1 ids counts out s' → output_ok o s →
  pooling_params (dicts (input_batch s')) = ∅.
Proof.
  intros Hok Hw Ho. apply map_eq. intros id. rewrite lookup_empty. destruct (req_id_to_index (input_batch s') !! id) as [i|] eqn:Hi.
  - destruct (prepared_row _ _ _ _ _ _ _ id i Hok Hw Hi) as (r & c & Hst & _ & _ & _ & _ & [_ _ Hp _ _]). destruct (oo_sampling _ _ Ho id r Hst) as [p Hpar].
    cbn in Hp. rewrite Hp. unfold request_shown. by rewrite Hpar.
  - destruct (prepared_pass _ _ _ _ _ _ _ Hok Hw) as [[Hb _] _ _ _ _]. pose proof (bo_ids _ Hb id Hi) as Hv. unfold id_view, blank_id in Hv. congruence.
Qed.
Lemma padded_frame b counts : step_fits cfg b counts → Forall2 table_alike (block_table (slots b)) (padded_table b counts <$> block_table (slots b)).
Proof.
  intros Hf. apply Forall2_fmap_r, Forall_Forall2_diag, Forall_forall. intros t [g Hg]%list_elem_of_lookup_1. destruct (sf_tables _ _ _ Hf g t Hg) as (_ & H1 & H2 & _).
  assert (∀ t', length (step_slots b t' counts) = total_of counts) as Hl by (intros t'; by eapply batched_total). pose proof (total_nonneg _ _ _ Hf) as Htot. unfold len in *.
  split; [done|done| |]; unfold padded_table, ready_table, stored_table; cbn [slot_mapping_np slot_mapping set_device_slots BlockTable.set_slots]; unfold len;
    rewrite length_app, Hl, ?length_drop, ?length_replicate; cbn; lia.
Qed.
Lemma device_buffers_ok max_tokens max_reqs b counts x : step_fits cfg b counts → (total_of counts <= max_tokens)%nat → (length counts <= max_reqs)%nat →
  buffers_ok max_tokens max_reqs x → buffers_ok max_tokens max_reqs (device_buffers b counts max_reqs x).
Proof.
  intros Hf Ht Hr [B1 B2 B3 B4 B5 B6 B7 B8].
  assert (length (step_positions b counts) = total_of counts) as Hlp by by eapply batched_total.
  assert (length (step_tokens b counts) = total_of counts) as Hlt by by eapply batched_total.
  pose proof (step_seq_lens_length _ b counts Hf) as Hls.
  split; cbn; rewrite ?length_app, ?length_drop, ?length_replicate, ?np_cumsum_length, ?Hlp, ?Hlt, ?Hls; lia.
Qed.

Lemma finished_executed o s s1 ids counts out s' s2 out2 result s3 :
  step_ok to_float32 cfg worker_params new_generator o s → prepared_step o s s1 ids counts out s' → output_ok o s →
  requests s2 = requests s' → input_batch s2 = input_batch s' → logitsprocs s2 = logitsprocs s' → buffers s2 = buffers s' →
  (∀ i id toks, req_id_to_index (input_batch s2) !! id = Some i → valid_sampled_token_ids (input_batch s2) out2 !! i = Some toks → 0 < len toks <= 1 + len (spec_of o id)) →
  step_finished to_float32 o s2 (valid_sampled_token_ids (input_batch s2) out2) result s3 → step_executed o s result s3.
Proof.
  intros Hok Hw Ho Hr2 Hb2 Hl2 Hbuf2 Hlen [F1 F2 F3 F4 F5 F6 F7 F8 F9 F10 F11 FM [F12 F13]].
  destruct (prepared_state _ _ _ _ _ _ _ Hw) as (Hbuf & Hb & Hreq & _ & Hlog). pose proof (wk_updated _ _ _ _ _ _ _ _ _ _ _ Hw) as Hu. pose proof (wk_fits _ _ _ _ _ _ _ _ _ _ _ Hw) as Hf.
  assert (∀ id, id ∈ (num_scheduled_tokens o).*1 ↔ is_Some (req_id_to_index (input_batch s') !! id)) as Hin.
  { intros id. rewrite <- (prepared_ids _ _ _ _ _ _ _ id Hw). by rewrite (wk_order _ _ _ _ _ _ _ _ _ _ _ Hw). }
  split.
  - done.
  - intros id [i Hi]%Hin. destruct (prepared_row _ _ _ _ _ _ _ id i Hok Hw Hi) as (r & c & Hst & Hr & Hc & _). rewrite <- Hb2 in Hi. rewrite <- Hr2 in Hr.
    destruct (F2 id r ltac:(by eexists) Hr) as (toks & Htoks & Hr3). exists r, c, i, toks. pose proof Htoks as (i' & Hi' & Hcase). assert (i' = i) as -> by congruence.
    assert (incomplete o s2 id ↔ num_computed_tokens r + c < cached_num_tokens r) as Hinc.
    { split; [|intros Hlt; by exists r, c]. intros (r' & c' & Hr' & Hc' & Hlt). assert (r' = r) as -> by congruence. by assert (c' = c) as -> by congruence. }
    split_and!; [done|done|by rewrite F4|by rewrite F12, lookup_fmap, Hi|by eapply F13|done| |].
    + rewrite <- Hinc. destruct Hcase as [[? ->]|[Hn Hl]]; [done|]. split; [intros ->; destruct (Hlen i id [] Hi Hl) as [H0 _]; by apply Z.lt_irrefl in H0|done].
    + destruct Hcase as [[? ->]|[Hn Hl]]; [pose proof (len_nonneg (spec_of o id)); change (len []) with 0; lia|]. by destruct (Hlen i id toks Hi Hl).
  - intros id Hid. rewrite F3 by (rewrite Hb2; destruct (req_id_to_index (input_batch s') !! id) eqn:Hi; [by destruct Hid; apply Hin; eexists|done]).
    rewrite Hr2, Hreq. apply (su_others _ _ _ _ _ _ _ Hu). by rewrite <- (uk_keys _ _ _ _ _ (st_update _ _ _ _ _ _ Hok)).
  - rewrite F4, Hb2. apply set_eq. intros id. by rewrite elem_of_dom, elem_of_list_to_set, Hin.
  - rewrite F7, Hb2, Hb. cbn. apply (su_cfg _ _ _ _ _ _ _ Hu).
  - rewrite F6, Hb2, Hb. cbn [slots set_tables InputBatch.set_slots block_table set_block_table]. pose proof (su_tables _ _ _ _ _ _ _ Hu) as H1. pose proof (padded_frame _ _ Hf) as H2.
    eapply Forall2_trans; [|exact H1|exact H2]. intros t t1 t2 [A1 A2 A3 A4] [B1 B2 B3 B4]. split; congruence.
  - rewrite F11, F7, Hb2, Hbuf2, Hb, Hbuf. cbn [InputBatch.cfg set_tables InputBatch.set_slots]. rewrite (su_cfg _ _ _ _ _ _ _ Hu). apply device_buffers_ok; [done| | |].
    + pose proof (tk_room _ _ _ _ _ (st_tokens _ _ _ _ _ _ Hok)). unfold total_of. rewrite (wk_total _ _ _ _ _ _ _ _ _ _ _ Hw). lia.
    + pose proof (sf_rows_le _ _ _ Hf) as Hle. by rewrite (su_cfg _ _ _ _ _ _ _ Hu) in Hle.
    + rewrite (su_buffers _ _ _ _ _ _ _ Hu). apply (st_buffers _ _ _ _ _ _ Hok).
  - intros Hbf. rewrite F8, F5, F9, Hr2, Hb2, Hl2, Hreq, Hlog, Hb. cbn. by apply (su_biases _ _ _ _ _ _ _ Hu).
  - intros Hno Hm. apply (su_masks _ _ _ _ _ _ _ Hu Hno) in Hm. revert Hm. unfold masks_ok. rewrite F8, Hr2, Hreq.
    apply masks_follow_keep; [|by rewrite F7, Hb2, Hb]. intros id i. rewrite F4, FM, Hb2, Hb. intros Hi. by exists i.
Qed.

Lemma step_total o s : rc_is_last_rank cfg = true → step_ok to_float32 cfg worker_params new_generator o s → total_num_scheduled_tokens o ≠ 0.
Proof.
  intros Hlast Hok. destruct (proj1 (wp_elim _ _ _) (wp_prepared to_float32 cfg use_cascade_attention worker_params new_generator o s Hlast Hok)) as (? & ? & _ & s1 & ids & counts & Hw).
  rewrite <- (wk_total _ _ _ _ _ _ _ _ _ _ _ Hw). pose proof (wk_fits _ _ _ _ _ _ _ _ _ _ _ Hw) as Hf. pose proof (sf_nonempty _ _ _ Hf) as Hne.
  destruct counts as [|c counts]; [done|]. rewrite zsum_cons. pose proof (sf_counts _ _ _ Hf c ltac:(by left)).
  assert (0 <= zsum counts); [|lia]. apply zsum_nonneg. intros y Hy. pose proof (sf_counts _ _ _ Hf y ltac:(by right)). lia.
Qed.

Lemma wp_execute_model o s :
  rc_is_last_rank cfg = true → step_ok to_float32 cfg worker_params new_generator o s → output_ok o s → sampler_promise o →
  wp (execute_model cfg use_cascade_attention modality_key encode prompt_logprobs_row run_model run_pooler bitmask_rows pack_logprobs other_drafts is_multimodal_model
        to_float32 worker_params new_generator o)
    (λ x s', ∃ result, x = Some result ∧ step_executed o s result s') s.
Proof.
  intros Hlast Hok Ho Hsm. unfold execute_model. apply wp_guarded; [by eapply step_total|].
  eapply wp_mono; [by apply (wp_prepared to_float32 cfg use_cascade_attention)|]. intros prepared s' (s1 & ids & counts & Hw).
  pose proof (prepared_pass _ _ _ _ _ _ _ Hok Hw) as Hpass. destruct (masks_made _ _ _ _ _ _ _ Hw (oo_masks _ _ Ho)) as (masks & Hmasks & _).
  assert (∀ mm_embeds s2, requests s2 = requests s' → input_batch s2 = input_batch s' → logitsprocs s2 = logitsprocs s' → buffers s2 = buffers s' →
    wp (if rc_is_last_rank cfg then s ← get; if decide (pooling_params (dicts (input_batch s)) = ∅) then
          out ← finish_step cfg prompt_logprobs_row run_model bitmask_rows pack_logprobs other_drafts o prepared mm_embeds; mret (Some out)
        else out ← lift_outcome (_pool (run_pooler prepared mm_embeds s) s); mret (Some out) else mret None)
      (λ x s', ∃ result, x = Some result ∧ step_executed o s result s') s2) as Hfinish.
  { intros mm_embeds s2 Hr2 Hb2 Hl2 Hbuf2. rewrite Hlast. apply wp_bind, wp_get. rewrite Hb2, decide_True by by eapply no_pooling.
    apply wp_bind. eapply wp_mono; [eapply (wp_finish_step to_float32)|].
    - destruct Hpass as [P1 P2 P3 P4 P5]. split; rewrite ?Hb2, ?Hr2, ?Hbuf2; done.
    - by rewrite Hb2.
    - apply (oo_groups _ _ Ho).
    - apply (oo_drafter _ _ Ho).
    - cbv zeta. by eapply sampler_fits_promised.
    - intros result s3 Hfin. apply wp_ret. exists result. split; [done|]. cbv beta in Hfin. eapply finished_executed; [exact Hok|exact Hw|exact Ho|exact Hr2|exact Hb2|exact Hl2|exact Hbuf2| |exact Hfin].
      intros i id toks Hi Hl. destruct (Hsm prepared mm_embeds masks s2) as (_ & H & _). by eapply H. }
  destruct is_multimodal_model eqn:Hmm.
  - destruct (oo_mm _ _ Ho Hmm) as [Henc Hready]. destruct (Hready _ _ _ _ _ Hw) as [Hknown Hcached].
    apply wp_bind, wp_bind. eapply wp_execute_mm_encoder; [exact Henc|exact Hknown|]. intros C HC. apply wp_bind, wp_get.
    destruct (gather_mm_spec o (set_encoder_cache C s') ids) as (l & Hl & _).
    { cbn. destruct (prepared_state _ _ _ _ _ _ _ Hw) as (_ & -> & _). apply (wk_ids _ _ _ _ _ _ _ _ _ _ _ Hw). }
    { intros id Hid. apply Hcached; [done|]. by apply (prepared_ids _ _ _ _ _ _ _ id Hw). }
    eapply wp_lift_outcome; [exact Hl|]. by apply Hfinish.
  - apply wp_bind, wp_ret. by apply Hfinish.
Qed.
End execute_step.
