(* ===== verification/WorkerRun.v ===== *)
(** The worker over many steps: from a new model runner ([GPUModelRunner.__init__] of
    [v1/worker/gpu_model_runner.py]), every sequence of scheduler outputs that fit the
    state they arrive in is executed. *)
From Stdlib Require Import ZArith QArith Lia.
From stdpp Require Import base strings countable gmap sets list.
From S2P Require Import Prelude Request KVCacheSpec SchedulerData Arrays NgramProposer RejectionSampler BlockTable AttentionMetadata BatchUpdate InputBatch InputBatchFacts InputBatchMoves BatchReplay ModelRunner PrepareInputs PrepareFacts StepInputs BatchRows BatchReorder UpdateStates WorkerStep ExecuteModel ExecuteFacts FinishStep GrammarMask MMEmbeddings ExecuteStep.
Local Open Scope Z_scope.

(** ** A new runner *)
Lemma new_table_ok bs n m k : table_ok n (BlockTable_init bs n m k).
Proof.
  split; cbn; rewrite ?length_replicate; try done.
  - intros i r [-> _]%lookup_replicate. apply length_replicate.
  - intros i x [-> _]%lookup_replicate. lia.
Qed.
Lemma new_batch_dense c n bs : batch_dense (InputBatch_init c n bs).
Proof.
  split; [split|by intros i]; cbn.
  - split; cbn; rewrite ?length_replicate; try done; try lia; try by (intros i; rewrite lookup_empty; intros [? ?]).
    + split; [apply length_replicate|]. intros i r [-> _]%lookup_replicate. cbn. rewrite length_replicate. lia.
    + intros t (b & -> & _)%list_elem_of_fmap. apply new_table_ok.
  - intros id i. by rewrite lookup_empty.
  - done.
  - split.
    + intros l id. rewrite lookup_empty. cbn. unfold lora_of. rewrite lookup_empty. set_solver.
    + intros l. by rewrite lookup_empty.
    + intros l. by rewrite !lookup_empty.
  - done.
Qed.

Section run.
Context (to_float32 : Q → Q) (cfg : RunnerConfig) (use_cascade_attention : CascadeQuery → bool).
Context (worker_params : RequestParams → BatchParams) (new_generator : RequestParams → option handle).
Context (modality_key : handle → Z) (encode : list handle → list (list Embedding)) (enc : handle → list Embedding).
Context (prompt_logprobs_row : Z → Z → Z → handle).
Context (run_model : PreparedInputs → list (list Embedding) → option (list (list Z) * list Z) → RunnerState → SamplerOutput).
Context (run_pooler : PreparedInputs → list (list Embedding) → RunnerState → list handle).
Context (bitmask_rows : handle → list (list Z)) (pack_logprobs : PromptLogprobs → handle) (other_drafts : list (list Z) → RunnerState → list (list Z)).
Context (is_multimodal_model : bool).
Implicit Types (s : RunnerState) (o : SchedulerOutput) (id : string).

(** What holds between steps. *)
Record worker_ok s : Prop := {
  wo_runner : runner_ok to_float32 s;
  wo_buffers : buffers_ok (Z.to_nat (rc_max_num_tokens cfg)) (max_num_reqs (InputBatch.cfg (input_batch s))) (buffers s);
  wo_biases : biases_follow (request_table (requests s)) (_req_ids (slots (input_batch s))) (lp_logit_bias (logitsprocs s));
  wo_masks : no_reorder cfg → masks_ok s
}.

Lemma new_worker_ok c bs : worker_ok (GPUModelRunner_init c (Z.to_nat (rc_max_num_tokens cfg)) bs).
Proof.
  split; [split|split|split|]; cbn; rewrite ?length_replicate; try done.
  - apply new_batch_dense.
Qed.

Definition step o : M RunnerState (option ModelRunnerOutput) :=
  execute_model cfg use_cascade_attention modality_key encode prompt_logprobs_row run_model run_pooler bitmask_rows pack_logprobs other_drafts is_multimodal_model
    to_float32 worker_params new_generator o.

(** A step that schedules tokens, and one that only says which requests have ended. *)
Record busy_step o s : Prop := {
  bs_update : update_ok cfg worker_params new_generator o s;
  bs_tokens : tokens_ok cfg worker_params new_generator o s;
  bs_groups : groups_fit cfg o (input_batch s);
  bs_output : output_ok to_float32 cfg worker_params new_generator encode enc bitmask_rows is_multimodal_model o s;
  bs_sampler : sampler_promise run_model o
}.
Record idle_step o s : Prop := {
  is_update : update_ok cfg worker_params new_generator o s;
  is_total : total_num_scheduled_tokens o = 0;
  is_none : num_scheduled_tokens o = []
}.

Lemma idle_executed o s : rc_is_last_rank cfg = true → worker_ok s → idle_step o s →
  wp (step o) (λ x s', x = Some EMPTY_MODEL_RUNNER_OUTPUT ∧ worker_ok s' ∧ req_id_to_index (input_batch s') = ∅ ∧
    ∀ id, requests s' !! id = if decide (id ∈ out_finished_req_ids o) then None else requests s !! id) s.
Proof.
  intros Hlast [Hs Hbuf Hbias Hmask] [Ho Htot Hnone]. unfold step, execute_model. apply wp_bind.
  eapply wp_mono; [by apply (wp_update_states to_float32 cfg worker_params new_generator o s)|]. intros [] s' Hu. rewrite decide_True by done. apply wp_ret.
  assert (∀ id, id ∉ (new_req_id <$> scheduled_new_reqs o) ++ req_ids (scheduled_cached_reqs o)) as Hno.
  { intros id Hid. apply (uk_keys _ _ _ _ _ Ho) in Hid. rewrite Hnone in Hid. by apply not_elem_of_nil in Hid. }
  assert (req_id_to_index (input_batch s') = ∅) as Hemp.
  { apply map_eq. intros id. rewrite lookup_empty. apply not_elem_of_dom. rewrite (su_ids _ _ _ _ _ _ _ Hu), elem_of_list_to_set. apply Hno. }
  split_and!; [done| |done|intros id; by apply (su_others _ _ _ _ _ _ _ Hu)].
  split.
  - split; [apply Hu|apply Hu| | |].
    + intros id r. rewrite (su_others _ _ _ _ _ _ _ Hu id (Hno id)). case_decide; [done|]. apply (rk_ids _ _ Hs).
    + intros id sh. rewrite shown_None; [done|by rewrite Hemp].
    + intros id sh r. rewrite shown_None; [done|by rewrite Hemp].
  - by rewrite (su_cfg _ _ _ _ _ _ _ Hu), (su_buffers _ _ _ _ _ _ _ Hu).
  - by apply (su_biases _ _ _ _ _ _ _ Hu).
  - intros Hno'. by apply (su_masks _ _ _ _ _ _ _ Hu Hno'), Hmask.
Qed.

Lemma busy_executed o s : rc_is_last_rank cfg = true → worker_ok s → busy_step o s →
  wp (step o) (λ x s', ∃ result, x = Some result ∧ worker_ok s' ∧ step_executed to_float32 cfg worker_params new_generator o s result s') s.
Proof.
  intros Hlast [Hs Hbuf Hbias Hmask] [Ho Ht Hg Hout Hsm]. eapply wp_mono.
  { eapply (wp_execute_model to_float32 cfg use_cascade_attention worker_params new_generator modality_key encode enc); [done|by split|exact Hout|exact Hsm]. }
  intros x s' (result & -> & Hex). exists result. split_and!; [done| |done]. split; [apply Hex|apply Hex|by apply (ex_biases _ _ _ _ _ _ _ _ Hex)|].
  intros Hno. by apply (ex_masks _ _ _ _ _ _ _ _ Hex Hno), Hmask.
Qed.

(** The states of a worker. *)
Inductive worker_reaches : RunnerState → Prop :=
  | worker_new c bs : worker_reaches (GPUModelRunner_init c (Z.to_nat (rc_max_num_tokens cfg)) bs)
  | worker_steps s o x s' : worker_reaches s → busy_step o s ∨ idle_step o s → step o s = (x, s') → worker_reaches s'.

Lemma worker_reaches_ok s : rc_is_last_rank cfg = true → worker_reaches s → worker_ok s.
Proof.
  intros Hlast. induction 1 as [c bs|s o x s' _ IH Hst Heq]; [apply new_worker_ok|]. destruct Hst as [Hb|Hi].
  - pose proof (busy_executed o s Hlast IH Hb) as Hw. unfold wp in Hw. rewrite Heq in Hw. destruct x as [x|]; [|done]. by destruct Hw as (result & _ & Hok & _).
  - pose proof (idle_executed o s Hlast IH Hi) as Hw. unfold wp in Hw. rewrite Heq in Hw. destruct x as [x|]; [|done]. by destruct Hw as (_ & Hok & _).
Qed.
End run.
