(* ===== verification/WorkerSamples.v ===== *)
(** Concrete data for the witnesses of the worker's theorems: a model runner for one group
    of full attention, the scheduler's outputs of two steps, and a sampler. *)
From Stdlib Require Import ZArith QArith Lia.
From stdpp Require Import base strings countable gmap sets list.
From S2P Require Import Prelude Request KVCacheSpec SchedulerData Samples Arrays NgramProposer RejectionSampler BlockTable AttentionMetadata BatchUpdate InputBatch InputBatchFacts InputBatchMoves BatchReplay ModelRunner PrepareInputs PrepareFacts StepInputs BatchRows BatchReorder UpdateStates WorkerStep ExecuteModel ExecuteFacts FinishStep GrammarMask MMEmbeddings ExecuteStep WorkerRun.
Local Open Scope Z_scope.

(** ** The runner *)
Definition float_sample (x : Q) : Q := x.
Definition runner_config_sample : RunnerConfig :=
  mkRunnerConfig 16 8 true [mkKVCacheGroupSpec ["layer"%string] sample_spec] (λ _, Some 1) (Some (mkNgramProposer 1 2 2 16)) 4 true true None.
Definition batch_config_sample : BatchConfig := mkBatchConfig 2 16 100 true.
Definition runner_sample : RunnerState := GPUModelRunner_init batch_config_sample 8 [4].
Definition sampling_sample : SamplingParams := BatchUpdate.mkSamplingParams 0 1 0 0 0 0 1 (Some 2) (Some 1) (Some [7; 8]) None (Some {[ 7 := 2%Q ]}) 0 ∅.
Definition worker_params_sample (p : RequestParams) : BatchParams := Sampling sampling_sample.
Definition new_generator_sample (p : RequestParams) : option handle := Some 1.
Definition no_cascade (q : CascadeQuery) : bool := false.
Definition no_modality (x : handle) : Z := 0.
Definition no_encoding (l : list handle) : list (list Embedding) := (λ _, []) <$> l.
Definition logprobs_sample (num k tok : Z) : handle := tok.
(** One token for every row. *)
Definition model_sample (p : PreparedInputs) (e : list (list Embedding)) (m : option (list (list Z) * list Z)) (s : RunnerState) : SamplerOutput :=
  let b := input_batch s in
  mkSamplerOutput (replicate (length (_req_ids (slots b))) [7]) 1 None
    (list_to_map ((λ p : nat * handle, (p.2, 10)) <$> map_to_list (generators (slots b)))).
Definition no_pooler (p : PreparedInputs) (e : list (list Embedding)) (s : RunnerState) : list handle := [].
Definition bitmask_sample (h : handle) : list (list Z) := [[1; 2]].
Definition pack_sample (p : PromptLogprobs) : handle := len p.
Definition no_drafts (l : list (list Z)) (s : RunnerState) : list (list Z) := [].

(** ** Two steps: a prompt of five tokens is computed in chunks of three and two. *)
Definition first_output : SchedulerOutput :=
  mkSchedulerOutput [from_request (sample_request "a" 0 0) [[5; 6]]] make_empty [("a"%string, 3)] 3 ∅ ∅ [0] ∅ [] {[ "a"%string := 0 ]} (Some 1) None.
Definition second_output : SchedulerOutput :=
  mkSchedulerOutput [] (mkCachedRequestData ["a"%string] [false] [[]] [[[]]] [3]) [("a"%string, 2)] 2 ∅ ∅ [0] ∅ [] ∅ None None.

Abbreviation step_sample := (step float_sample runner_config_sample no_cascade worker_params_sample new_generator_sample no_modality no_encoding logprobs_sample
  model_sample no_pooler bitmask_sample pack_sample no_drafts false).
Abbreviation busy_sample := (busy_step float_sample runner_config_sample worker_params_sample new_generator_sample no_encoding (λ _, []) model_sample bitmask_sample false).
Abbreviation reaches_sample := (worker_reaches float_sample runner_config_sample no_cascade worker_params_sample new_generator_sample no_modality no_encoding (λ _, [])
  logprobs_sample model_sample no_pooler bitmask_sample pack_sample no_drafts false).
Abbreviation scheduled_sample := (scheduled_state worker_params_sample new_generator_sample).

(** The first chunk leaves no token, the second one samples one; the context has no earlier
    occurrence of it, so no draft follows. *)
Example two_steps :
  match (step_sample first_output ;; step_sample second_output) runner_sample with
  | (Ok (Some x), s) => (sampled_token_ids x, runner_spec_token_ids x, output_token_ids <$> requests s !! "a"%string) = ([[7]], Some [[]], Some [7])
  | _ => False
  end.
Proof. vm_compute. reflexivity. Qed.

Lemma sampler_sample o : sampler_promise model_sample o.
Proof.
  intros prepared e masks s out l. subst l out. unfold valid_sampled_token_ids. cbn [so_width model_sample so_sampled_token_ids]. rewrite decide_True by done.
  split_and!.
  - by rewrite length_replicate.
  - intros i id toks _ Hl. apply lookup_replicate in Hl as [-> _]. change (len [7]) with 1. pose proof (len_nonneg (spec_of o id)). lia.
  - intros toks [-> _]%elem_of_replicate. done.
  - intros i g Hi. cbn [so_generator_offsets model_sample]. set (l := _ <$> _). assert (g ∈ l.*1) as Hg.
    { unfold l. rewrite <- list_fmap_compose. apply list_elem_of_fmap. exists (i, g). split; [done|]. by apply elem_of_map_to_list. }
    destruct (list_to_map l !! g) eqn:Hm; [by eexists|]. by apply not_elem_of_list_to_map in Hm.
Qed.

(** The only request of the first step. *)
Lemma first_scheduled s id r : scheduled_sample first_output s id r →
  ∃ ref, id = "a"%string ∧ r = new_request_state worker_params_sample new_generator_sample (from_request (sample_request "a" 0 0) [[5; 6]]) ref.
Proof. intros [(new & ref & Hn & <- & ->)|(j & Hj & _)]; [|done]. apply list_elem_of_singleton in Hn as ->. by exists ref. Qed.

Lemma first_update : update_ok runner_config_sample worker_params_sample new_generator_sample first_output runner_sample.
Proof.
  split.
  - vm_compute. repeat constructor. by intros ?%not_elem_of_nil.
  - done.
  - intros id Hid. by apply not_elem_of_empty in Hid.
  - intros id _. left. apply lookup_empty.
  - intros new p ->%list_elem_of_singleton. done.
  - intros id Hid. by apply not_elem_of_nil in Hid.
  - done.
  - done.
  - done.
  - done.
  - intros id Hid. exfalso. apply Hid. unfold spec_of. cbn. by rewrite lookup_empty.
  - cbn. lia.
  - done.
  - intros g th Hg. cbn in Hg. lia.
  - intros id r (ref & -> & ->)%first_scheduled. split; [|vm_compute; done]. split.
    + vm_compute. lia.
    + done.
    + intros [|g] t l Ht Hl; [|done]. injection Ht as <-. injection Hl as <-. vm_compute. done.
    + vm_compute. done.
    + cbn. intros t ids [= <-] Ht. repeat (apply elem_of_cons in Ht as [->|Ht]); [lia|lia|by apply not_elem_of_nil in Ht].
    + done.
Qed.
Lemma first_tokens : tokens_ok runner_config_sample worker_params_sample new_generator_sample first_output runner_sample.
Proof.
  split.
  - intros id r c (ref & -> & ->)%first_scheduled [= <-]. split_and!; [done|vm_compute; done|done|vm_compute; done|].
    intros [|g] t l Ht Hl; [|done]. injection Ht as <-. injection Hl as <-. vm_compute. done.
  - done.
  - vm_compute. repeat constructor. by intros ?%not_elem_of_nil.
  - intros id Hid. exfalso. apply Hid. unfold spec_of. cbn. by rewrite lookup_empty.
  - done.
  - done.
  - cbn. by rewrite dom_empty_L.
  - intros t Ht. apply list_elem_of_singleton in Ht as ->. vm_compute. done.
Qed.
Lemma first_busy : busy_sample first_output runner_sample.
Proof.
  split; [apply first_update|apply first_tokens| | |apply sampler_sample].
  - split; [done|vm_compute; repeat constructor; by intros ?%not_elem_of_nil|done| |].
    + intros [|g] group t a chunk Hg Ht Hs; [|done]. by injection Hg as <-.
    + intros _ [|g] group Hg; [|done]. injection Hg as <-. split_and!; [done|by eexists|by exists 0].
  - split.
    + intros id r (ref & -> & ->)%first_scheduled. by eexists.
    + intros id r c _ _ _. unfold spec_of. cbn. by rewrite lookup_empty.
    + intros id r (ref & -> & ->)%first_scheduled. split; vm_compute; done.
    + intros h [= <-]. split; [|vm_compute; done]. intros id Hid. cbn in Hid. apply lookup_singleton_is_Some in Hid as <-. by left.
    + done.
    + intros drafter [= <-]. done.
    + done.
Qed.
