(* ===== verification/WorkerTheorems.v ===== *)
(** What makes the worker correct: the persistent batch, the inputs of a step, the
    speculative decoding and the masks, and the composition of all of them in
    [execute_model]. *)
From Stdlib Require Import ZArith QArith Lia.
From stdpp Require Import base strings countable gmap sets list.
From S2P Require Import Prelude Request KVCacheSpec SchedulerData Samples Arrays NgramProposer RejectionSampler BlockTable AttentionMetadata LocalAttention BatchUpdate InputBatch InputBatchFacts InputBatchMoves BatchReplay BatchHistory ModelRunner PrepareInputs PrepareFacts StepInputs BatchRows BatchReorder UpdateStates WorkerStep ExecuteModel ExecuteFacts FinishStep GrammarMask MMEmbeddings ExecuteStep WorkerRun WorkerSamples.
Local Open Scope Z_scope.

(** * The step as a whole *)
Section worker.
Context (to_float32 : Q → Q) (cfg : RunnerConfig) (use_cascade_attention : CascadeQuery → bool).
Context (worker_params : RequestParams → BatchParams) (new_generator : RequestParams → option handle).
Context (modality_key : handle → Z) (encode : list handle → list (list Embedding)) (enc : handle → list Embedding).
Context (prompt_logprobs_row : Z → Z → Z → handle).
Context (run_model : PreparedInputs → list (list Embedding) → option (list (list Z) * list Z) → RunnerState → SamplerOutput).
Context (run_pooler : PreparedInputs → list (list Embedding) → RunnerState → list handle).
Context (bitmask_rows : handle → list (list Z)) (pack_logprobs : PromptLogprobs → handle) (other_drafts : list (list Z) → RunnerState → list (list Z)).
Context (is_multimodal_model : bool).

(** C6: in every state that a worker on the last rank reaches from a new model runner by
    steps that fit, [execute_model] on the next fitting scheduler output raises nothing and
    returns a result: every scheduled request gets exactly the tokens the result reports
    for its row, none while its prompt is incomplete and otherwise between one token and
    one more than it had drafts; the other requests are as before, or gone if they have
    finished; the persistent batch holds exactly the scheduled requests and shows their
    tokens, blocks and parameters; the entries of the logit-bias processor (of this one)
    are those of its rows; and, where no attention backend reorders the batch, every
    request has its row of the mask of allowed tokens. A step fits ([busy_step]) when its
    requests sample, its drafts are for requests with a row, no layer is chunked-local,
    the KV-cache groups that reorder agree, a speculative configuration has such a group,
    and what is scheduled and sampled has room. *)
Theorem worker_executes_every_step s o :
  rc_is_last_rank cfg = true →
  worker_reaches to_float32 cfg use_cascade_attention worker_params new_generator modality_key encode enc prompt_logprobs_row run_model run_pooler bitmask_rows
    pack_logprobs other_drafts is_multimodal_model s →
  busy_step to_float32 cfg worker_params new_generator encode enc run_model bitmask_rows is_multimodal_model o s →
  ∃ result s',
    execute_model cfg use_cascade_attention modality_key encode prompt_logprobs_row run_model run_pooler bitmask_rows pack_logprobs other_drafts
      is_multimodal_model to_float32 worker_params new_generator o s = (Ok (Some result), s') ∧
    step_executed to_float32 cfg worker_params new_generator o s result s' ∧ worker_ok to_float32 cfg s'.
Proof.
  intros Hlast Hs Hb. pose proof (worker_reaches_ok _ _ _ _ _ _ _ _ _ _ _ _ _ _ _ s Hlast Hs) as Hok.
  destruct (proj1 (wp_elim _ _ _) (busy_executed to_float32 cfg use_cascade_attention worker_params new_generator modality_key encode enc prompt_logprobs_row run_model
    run_pooler bitmask_rows pack_logprobs other_drafts is_multimodal_model o s Hlast Hok Hb)) as (x & s' & Hrun & result & -> & Hw & Hex).
  by exists result, s'.
Qed.

(** C7: after [_update_states] and [_prepare_inputs] on the last rank every token the
    scheduler has scheduled is fed to the model: at its place in the flattened batch stand
    its position, the token of its request (or the draft) at that position, and in every
    layer the slot of the block the scheduler gave to the request for that position. The
    output fits the state ([step_ok]): no layer is chunked-local, and drafts are scheduled
    only for requests that have a row in the batch. *)
Theorem step_feeds_scheduled_tokens o s :
  rc_is_last_rank cfg = true → step_ok to_float32 cfg worker_params new_generator o s →
  wp (_update_states to_float32 cfg worker_params new_generator o ;; _prepare_inputs cfg use_cascade_attention o)
    (λ out s', ∃ ids counts, ids ≡ₚ (num_scheduled_tokens o).*1 ∧ mapM (scheduled_count o) ids = Ok counts ∧
      ∀ i id c, ids !! i = Some id → counts !! i = Some c → ∃ r, scheduled_state worker_params new_generator o s id r ∧ requests s' !! id = Some r ∧
        ∀ j, 0 <= j < c → token_fed cfg o s s' out counts i id r j) s.
Proof. apply wp_worker_step. Qed.

(** C8: [_update_states] brings the cached requests and the persistent batch in step with
    the scheduler's output: finished requests are forgotten (also when an id comes back as
    a new request in the same step), scheduled ones have the tokens and blocks of the
    output, the batch holds exactly the scheduled requests, in rows without holes that
    show them, with their drafts if they had a row before the step and without them
    otherwise, decodes before prefills where the first KV-cache group's backend asks for
    it; the logit biases follow the rows, and so do the rows of the mask of allowed tokens
    where no backend reorders the batch. The output is one that fits ([update_ok]): about
    known and unknown requests as it should be, with room, and with KV-cache groups that
    agree on the order if more than one reorders. *)
Theorem update_states_tracks_requests o s :
  rc_is_last_rank cfg = true → update_ok cfg worker_params new_generator o s → runner_ok to_float32 s →
  wp (_update_states to_float32 cfg worker_params new_generator o) (λ _ s', states_updated to_float32 cfg worker_params new_generator o s s') s.
Proof. apply wp_update_states. Qed.
End worker.

Lemma worker_executes_every_step_witness :
  ∃ result s', step_sample first_output runner_sample = (Ok (Some result), s') ∧
    step_executed float_sample runner_config_sample worker_params_sample new_generator_sample first_output runner_sample result s' ∧
    worker_ok float_sample runner_config_sample s'.
Proof.
  apply (worker_executes_every_step float_sample runner_config_sample no_cascade worker_params_sample new_generator_sample no_modality no_encoding (λ _, [])
    logprobs_sample model_sample no_pooler bitmask_sample pack_sample no_drafts false); [reflexivity|apply worker_new|apply first_busy].
Defined.

Lemma first_step_ok : step_ok float_sample runner_config_sample worker_params_sample new_generator_sample first_output runner_sample.
Proof.
  pose proof (new_worker_ok float_sample runner_config_sample batch_config_sample [4]) as [H1 H2 H3 _].
  pose proof first_busy as [B1 B2 B3 _ _]. by split.
Qed.
Lemma step_feeds_scheduled_tokens_witness :
  wp (_update_states float_sample runner_config_sample worker_params_sample new_generator_sample first_output ;; _prepare_inputs runner_config_sample no_cascade first_output)
    (λ out s', ∃ ids counts, ids ≡ₚ (num_scheduled_tokens first_output).*1 ∧ mapM (scheduled_count first_output) ids = Ok counts ∧
      ∀ i id c, ids !! i = Some id → counts !! i = Some c → ∃ r, scheduled_sample first_output runner_sample id r ∧ requests s' !! id = Some r ∧
        ∀ j, 0 <= j < c → token_fed runner_config_sample first_output runner_sample s' out counts i id r j) runner_sample.
Proof. apply step_feeds_scheduled_tokens; [reflexivity|apply first_step_ok]. Defined.

Lemma update_states_tracks_requests_witness :
  wp (_update_states float_sample runner_config_sample worker_params_sample new_generator_sample first_output)
    (λ _ s', states_updated float_sample runner_config_sample worker_params_sample new_generator_sample first_output runner_sample s') runner_sample.
Proof. apply update_states_tracks_requests; [reflexivity|apply first_update|apply first_step_ok]. Defined.

(** * The persistent batch *)

(** C9: the persistent batch is a map from request ids to what is kept for them: whatever
    requests have been removed and added since the last step, the batch is well formed
    and shows the map with exactly these changes (the row of values, the blocks of every
    group, the generator, the bad words, the output list, the sets and the dictionaries),
    and every request with allowed tokens has the row of the mask that allows them; a
    further request that fits can be added, and [condense] closes the holes without
    changing what is shown or losing a row of the mask. Two things are not among what the
    rows keep, because [condense] gets them wrong (see below): the flag
    of a request that needs token ids, and the mask's row of one without allowed tokens. *)
Theorem batch_implements_map to_float32 b0 T0 b T S :
  batch_dense b0 → batch_update_builder b0 = BatchUpdateBuilder_init → masks_follow (params_in T0) b0 →
  changing to_float32 b0 T0 b T S →
  batch_open b ∧ shown b = S ∧ masks_follow (params_in T) b ∧
  (∀ r, request_fits b r → ∃ i b', add_request to_float32 r b = (Ok i, b')) ∧
  ∃ b', condense b = (Ok tt, b') ∧ batch_dense b' ∧ length (_req_ids (slots b')) = num_reqs b' ∧ shown b' = S ∧
    masks_follow (params_in T) b'.
Proof.
  intros Hd Hr Hm0 Hc. destruct (changing_ok to_float32 b0 T0 Hd Hr b T S Hc) as (Ho & _ & Hs & _).
  pose proof (changing_masks to_float32 b0 T0 Hd Hr b T S Hm0 Hc) as Hm. split_and!; [done|done|done| |].
  - intros r Hf. destruct (proj1 (wp_elim _ _ _) (wp_add_request to_float32 b r Ho Hf)) as (i & b' & Hrun & _). by exists i, b'.
  - destruct (proj1 (wp_elim _ _ _) (wp_condense b Ho)) as ([] & b' & Hrun & Hcd). pose proof Hcd as [[F1 F2 F3 F4 F5 F6] C2 C3 C4].
    exists b'. split_and!; [done|by split|done|by rewrite F6|]. eapply masks_follow_condense; [apply Ho|done|done].
Qed.

(** The sample request as the worker caches it. *)
Definition cached_sample (id : string) (ref : list_ref) (blocks : list Z) : CachedRequestState :=
  mkCachedRequestState id [1; 2; 3] (Sampling sampling_sample) (Some 1) [blocks] 0 [] ref None [] [].
Definition new_batch_sample : InputBatch := InputBatch_init batch_config_sample 8 [4].
Lemma sample_fits b id ref blk : InputBatch.cfg b = batch_config_sample → (num_reqs b < 2)%nat → req_id_to_index b !! id = None →
  (∃ t, block_table (slots b) = [t] ∧ (1 <= max_num_blocks_per_req t)%nat) → request_fits b (cached_sample id ref [blk]).
Proof.
  intros Hc Hn Hi (t & Ht & Hw). split; rewrite ?Hc, ?Ht; try done; [cbn; lia| |].
  - intros [|g] t' l Ht' Hl; [|done]. injection Ht' as <-. injection Hl as <-. unfold len. cbn. lia.
  - cbn. intros x ids [= <-] Hx. repeat (apply elem_of_cons in Hx as [->|Hx]); [lia|lia|by apply not_elem_of_nil in Hx].
Qed.
Definition run_state {S A} (m : M S A) (s : S) : S := (m s).2.
Definition one_request : InputBatch := run_state (add_request float_sample (cached_sample "a" 0 [5])) new_batch_sample.
Definition two_requests : InputBatch := run_state (add_request float_sample (cached_sample "b" 1 [6])) one_request.
Lemma two_requests_changed : changing float_sample new_batch_sample ∅ two_requests
  (<["b"%string := (Sampling sampling_sample, 1)]> (<["a"%string := (Sampling sampling_sample, 0)]> ∅))
  (<["b"%string := request_shown float_sample batch_config_sample (cached_sample "b" 1 [6])]>
    (<["a"%string := request_shown float_sample batch_config_sample (cached_sample "a" 0 [5])]> (shown new_batch_sample))).
Proof.
  assert (request_fits new_batch_sample (cached_sample "a" 0 [5])) as Ha.
  { apply sample_fits; [done|vm_compute; lia|done|]. eexists. split; [reflexivity|]. vm_compute. lia. }
  assert (add_request float_sample (cached_sample "a" 0 [5]) new_batch_sample = (Ok 0%nat, one_request)) as Hrun by (vm_compute; reflexivity).
  assert (request_fits one_request (cached_sample "b" 1 [6])) as Hb.
  { apply sample_fits; [vm_compute; reflexivity|vm_compute; lia|vm_compute; reflexivity|]. eexists. split; [vm_compute; reflexivity|]. cbn. lia. }
  pose proof (ch_add float_sample new_batch_sample ∅ _ _ _ _ _ _ (ch_start _ _ _) Ha Hrun) as H1.
  assert (add_request float_sample (cached_sample "b" 1 [6]) one_request = (Ok 1%nat, two_requests)) as Hrun2 by (vm_compute; reflexivity).
  exact (ch_add float_sample new_batch_sample ∅ _ _ _ _ _ _ H1 Hb Hrun2).
Qed.
Lemma batch_implements_map_witness : batch_open two_requests ∧
  ∃ b', condense two_requests = (Ok tt, b') ∧ batch_dense b' ∧ length (_req_ids (slots b')) = num_reqs b' ∧ is_Some (shown b' !! "b"%string).
Proof.
  assert (masks_follow (params_in ∅) new_batch_sample) as H0 by done.
  destruct (batch_implements_map float_sample new_batch_sample ∅ two_requests _ _ (new_batch_dense _ _ _) eq_refl H0 two_requests_changed)
    as (H1 & H2 & _ & _ & b' & H3 & H4 & H5 & H6 & _).
  split; [exact H1|]. exists b'. split_and!; [exact H3|exact H4|exact H5|]. rewrite H6. eexists. reflexivity.
Defined.

(** C10: the logits processors that keep an entry for some rows replay the recorded changes
    of the batch (removals, additions, moves and swaps), and end with the entries that they
    would compute from the batch's rows afresh: for every entry function, every history of
    the batch and every row. *)
Theorem logits_processors_follow_rows {V} (entry : BatchParams → list_ref → option V) to_float32 b0 T0 b T S d :
  batch_dense b0 → batch_update_builder b0 = BatchUpdateBuilder_init → arranged to_float32 b0 T0 b T S →
  (∀ i, d !! i = row_entry entry T0 (_req_ids (slots b0)) i) →
  ∀ i, replayed entry (recorded b) d !! i = row_entry entry T (_req_ids (slots b)) i.
Proof.
  intros Hd Hr Ha Hi i. destruct (arranged_ok to_float32 b0 T0 Hd Hr b T S Ha) as (_ & _ & Hf). apply follows_replayed. by apply Hf.
Qed.

Definition condensed_sample : InputBatch := run_state condense two_requests.
Definition swapped_sample : InputBatch := run_state (swap_states 0 1) condensed_sample.
Lemma swapped_arranged : arranged float_sample new_batch_sample ∅ swapped_sample
  (<["b"%string := (Sampling sampling_sample, 1)]> (<["a"%string := (Sampling sampling_sample, 0)]> ∅))
  (<["b"%string := request_shown float_sample batch_config_sample (cached_sample "b" 1 [6])]>
    (<["a"%string := request_shown float_sample batch_config_sample (cached_sample "a" 0 [5])]> (shown new_batch_sample))).
Proof.
  eapply (ar_swap _ _ _ condensed_sample _ _ 0 1 "a" "b"); [|vm_compute; reflexivity|vm_compute; reflexivity|vm_compute; reflexivity].
  eapply ar_condense; [apply two_requests_changed|vm_compute; reflexivity].
Qed.
Lemma logits_processors_follow_rows_witness :
  replayed bias_entry (recorded swapped_sample) ∅ !! 1%nat
    = row_entry bias_entry (<["b"%string := (Sampling sampling_sample, 1)]> (<["a"%string := (Sampling sampling_sample, 0)]> ∅)) (_req_ids (slots swapped_sample)) 1 ∧
  replayed bias_entry (recorded swapped_sample) ∅ !! 1%nat = Some {[ 7 := 2%Q ]}.
Proof.
  split; [|vm_compute; reflexivity].
  apply (logits_processors_follow_rows bias_entry float_sample new_batch_sample ∅ swapped_sample _ _ ∅ (new_batch_dense _ _ _) eq_refl swapped_arranged).
  intros i. by rewrite lookup_empty.
Defined.

(** C22: [swap_states] loses a row of the mask of allowed tokens, because the rows of a
    tensor are views: afterwards the rows of both requests have the mask of the second
    one, while everything else has changed places. *)
Theorem swap_states_loses_mask b i j id1 id2 mask row1 row2 :
  batch_dense b → _req_ids (slots b) !! i = Some (Some id1) → _req_ids (slots b) !! j = Some (Some id2) →
  allowed_token_ids_mask (slots b) = Some mask → mask !! i = Some row1 → mask !! j = Some row2 →
  wp (swap_states i j) (λ _ b', shown b' = shown b ∧ _req_ids (slots b') = <[j := Some id1]> (<[i := Some id2]> (_req_ids (slots b))) ∧
    ∃ mask', allowed_token_ids_mask (slots b') = Some mask' ∧ mask' !! i = Some row2 ∧ mask' !! j = Some row2) b.
Proof.
  intros [Hb _] Hi Hj Hm H1 H2. eapply wp_mono; [by apply wp_swap_states|]. intros [] b' [W1 W2 W3 W4 W5 W6 W7 W8]. split_and!; [done|done|].
  rewrite W8, Hm. cbn. rewrite H2. eexists. split; [done|]. cbn. apply lookup_lt_Some in H1, H2. split.
  - destruct (decide (i = j)) as [->|]; [by rewrite list_lookup_insert_eq by by rewrite length_insert|]. by rewrite list_lookup_insert_ne, list_lookup_insert_eq.
  - by rewrite list_lookup_insert_eq by by rewrite length_insert.
Qed.

(** Two requests that allow different tokens. *)
Definition allowing (t : Z) : SamplingParams := BatchUpdate.mkSamplingParams 0 1 0 0 0 0 1 None None (Some [t]) None None 0 ∅.
Definition allowing_request (id : string) (ref : list_ref) (t : Z) : CachedRequestState :=
  mkCachedRequestState id [1; 2; 3] (Sampling (allowing t)) None [[5]] 0 [] ref None [] [].
Definition masked_sample : InputBatch :=
  run_state (add_request float_sample (allowing_request "a" 0 7) ;; add_request float_sample (allowing_request "b" 1 8) ;; condense)
    (InputBatch_init (mkBatchConfig 2 16 10 false) 8 [4]).
Lemma masked_dense : batch_dense masked_sample.
Proof.
  assert (∀ b r, batch_open b → request_fits b r → ∀ b', (add_request float_sample r b).2 = b' → batch_open b') as Hadd.
  { intros b r Hb Hf b' <-. pose proof (wp_add_request float_sample b r Hb Hf) as Hw. unfold wp in Hw. destruct (add_request float_sample r b) as [[i|] b']; [apply Hw|done]. }
  set (b0 := InputBatch_init (mkBatchConfig 2 16 10 false) 8 [4]). set (b1 := run_state (add_request float_sample (allowing_request "a" 0 7)) b0).
  set (b2 := run_state (add_request float_sample (allowing_request "b" 1 8)) b1).
  assert (batch_open b0) as H0 by apply (changing_ok float_sample b0 ∅ (new_batch_dense _ _ _) eq_refl b0 ∅ _ (ch_start _ _ _)).
  assert (∀ b id ref t, InputBatch.cfg b = mkBatchConfig 2 16 10 false → (num_reqs b < 2)%nat → req_id_to_index b !! id = None → 0 <= t < 10 →
    (∃ tb, block_table (slots b) = [tb] ∧ (1 <= max_num_blocks_per_req tb)%nat) → request_fits b (allowing_request id ref t)) as Hfit.
  { intros b id ref t Hc Hn Hi Ht (tb & Htb & Hw). split; rewrite ?Hc, ?Htb; try done; [cbn; lia| |].
    - intros [|g] t' l Ht' Hl; [|done]. injection Ht' as <-. injection Hl as <-. unfold len. cbn. lia.
    - cbn. intros x ids [= <-] ->%list_elem_of_singleton. lia. }
  assert (batch_open b1) as H1.
  { eapply (Hadd b0); [exact H0| |reflexivity]. apply Hfit; [done|vm_compute; lia|done|lia|]. eexists. split; [reflexivity|]. vm_compute. lia. }
  assert (batch_open b2) as H2.
  { eapply (Hadd b1); [exact H1| |reflexivity]. apply Hfit; [vm_compute; reflexivity|vm_compute; lia|vm_compute; reflexivity|lia|].
    eexists. split; [vm_compute; reflexivity|]. cbn. lia. }
  pose proof (wp_condense b2 H2) as Hw. unfold wp in Hw.
  assert (masked_sample = run_state condense b2) as -> by (vm_compute; reflexivity). unfold run_state.
  destruct (condense b2) as [[[]|] b3]; [|done]. destruct Hw as [[F1 _ _ _ _ _] _ F3 _]. by split.
Qed.
Lemma swap_states_loses_mask_witness :
  wp (swap_states 0 1) (λ _ b', ∃ mask', allowed_token_ids_mask (slots b') = Some mask' ∧
    mask' !! 0%nat = mask' !! 1%nat ∧ mask' !! 0%nat = Some [true; true; true; true; true; true; true; true; false; true]) masked_sample.
Proof.
  eapply wp_mono; [eapply (swap_states_loses_mask masked_sample 0 1 "a" "b" _ _ _ masked_dense); vm_compute; reflexivity|].
  intros [] b' (_ & _ & mask' & Hm & H0 & H1). exists mask'. rewrite H0, H1. by split_and!.
Defined.



(** * A request that a step has passed over *)


