(* ===== verification/PartTheorems.v ===== *)
(** What the worker's parts compute, each against a reference definition: the n-gram
    search, chunked local attention, rejection sampling, the placeholders and embeddings
    of multimodal inputs, and the grammar masks. *)
From Stdlib Require Import ZArith QArith Lia.
From stdpp Require Import base strings countable gmap sets list.
From S2P Require Import Prelude Request KVCacheSpec SchedulerData Samples Arrays NgramProposer RejectionSampler BlockTable BatchUpdate InputBatch InputBatchFacts InputBatchMoves BatchReplay BatchHistory ModelRunner PrepareInputs PrepareFacts StepInputs ExecuteModel GrammarMask UpdateStates MMEmbeddings WorkerRun WorkerSamples WorkerTheorems AttentionMetadata LocalAttention.
Local Open Scope Z_scope.

(** * The n-gram proposer *)

(** C16: the search of Knuth, Morris and Pratt proposes what a search at every position
    proposes: the tokens after the first earlier occurrence of the longest suffix of the
    context, of at most [max_n] and at least [min_n] tokens, that occurs again before;
    the search always ends and reads no index out of range. *)
Theorem ngram_search_equivalent self ctx : 0 < min_n self → propose self ctx = Ok (reference_propose self ctx).
Proof. apply propose_spec. Qed.
Lemma ngram_search_equivalent_witness :
  propose (mkNgramProposer 2 3 4 100) [1; 2; 1; 2; 3; 1; 2; 1; 2] = Ok (reference_propose (mkNgramProposer 2 3 4 100) [1; 2; 1; 2; 3; 1; 2; 1; 2]) ∧
  reference_propose (mkNgramProposer 2 3 4 100) [1; 2; 1; 2; 3; 1; 2; 1; 2] = Some [3; 1; 2; 1].
Proof. split; [apply ngram_search_equivalent; cbn; lia|vm_compute; reflexivity]. Defined.

(** * Chunked local attention *)

(** C17: attention over the virtual requests is attention within the chunks:
    [make_local_attention_virtual_batches] succeeds on every well-formed batch, and every
    query of a request is a query of one virtual request, at the same place of the batch,
    that reads exactly the cache slots of the keys of its own chunk up to itself. *)
Theorem local_attention_equivalent c block_size m :
  0 < c → 0 < block_size → c mod block_size = 0 → metadata_ok block_size m →
  ∃ m', make_local_attention_virtual_batches c m block_size = Ok m' ∧
  ∀ i r, (i < length (seq_lens m))%nat → 0 <= r < queries_of m i →
  ∃ v t, 0 <= t < differences (query_start_loc m') !!! v ∧ query_start_loc m' !!! v + t = query_start_loc m !!! i + r ∧
    attended block_size m' v t = chunk_attended c block_size m i r.
Proof. apply local_attention_spec. Qed.

(** Two requests: three queries after two computed tokens, two queries of a new prompt. *)
Definition local_sample : CommonAttentionMetadata := mkCommonAttentionMetadata [0; 3; 5] [5; 2] [2; 0] 2 5 3 [[4; 7; 9]; [2; 0; 0]] [] true.
Lemma local_attention_equivalent_witness :
  ∃ m', make_local_attention_virtual_batches 4 local_sample 2 = Ok m' ∧
    ∃ v t, query_start_loc m' !!! v + t = 2 ∧ attended 2 m' v t = [18].
Proof.
  destruct (local_attention_equivalent 4 2 local_sample) as (m' & Hm & H); [lia|lia|done| |].
  - split; cbn; try done.
    + intros [|[|i]] Hi; [vm_compute; done..|lia].
    + intros [|[|i]] Hi; [vm_compute; done..|lia].
    + intros r Hr. repeat (apply elem_of_cons in Hr as [->|Hr]); [done|done|by apply elem_of_nil in Hr].
    + intros [|[|i]] Hi; [vm_compute; done..|lia].
  - exists m'. split; [done|]. destruct (H 0%nat 2) as (v & t & _ & Hv & Ha); [cbn; lia|vm_compute; done|].
    exists v, t. rewrite Hv, Ha. vm_compute. done.
Defined.

(** * Rejection sampling *)

(** C18: [rejection_sample] leaves in the row of every request, greedy and random requests
    mixed, the draft tokens up to the first rejected one, then the token chosen instead of
    it, or the bonus token when none is rejected: a greedy request rejects the drafts that
    are not the target's most likely token and takes that one; a random request accepts
    where the uniform number is below the ratio of the probabilities, and otherwise takes
    the most likely token of the remaining distribution under its noise; every row is
    written in the flat buffer from its own place only. *)
Theorem rejection_sampling_rows ns drafts w draft_probs target_probs q uniform_probs bonus_ids is_greedy vocab kind uninit :
  inputs_ok ns drafts w draft_probs target_probs q uniform_probs bonus_ids is_greedy vocab → kind_ok ns is_greedy kind → Z.of_nat (length uninit) = zsum ns →
  ∃ out, rejection_sample drafts (Z.of_nat (length ns)) (Z.of_nat w) (np_cumsum ns) draft_probs target_probs bonus_ids kind uniform_probs q uninit = Ok out ∧
    ∀ i, (i < length ns)%nat → parse_row (Z.of_nat vocab) (row_of_buffer w out i)
      = parse_row (Z.of_nat vocab) (sampled_tokens ns drafts draft_probs target_probs q uniform_probs bonus_ids (is_greedy !!! i) i).
Proof. intros Hok Hk Hun. by eapply rejection_sample_spec. Qed.

(** C15: speculative decoding is lossless for greedy requests: when the target's rows are
    computed after the draft tokens before them, the tokens that are kept for a greedy
    request are the first tokens that the target model would generate by itself after the
    request's tokens, at least one of them and at most one more than the drafts, whatever
    the drafts are. *)
Theorem greedy_speculation_lossless next ns drafts w draft_probs target_probs q uniform_probs bonus_ids is_greedy vocab kind uninit :
  inputs_ok ns drafts w draft_probs target_probs q uniform_probs bonus_ids is_greedy vocab → kind_ok ns is_greedy kind → Z.of_nat (length uninit) = zsum ns →
  (∀ context, 0 <= next context < Z.of_nat vocab) →
  ∃ out, rejection_sample drafts (Z.of_nat (length ns)) (Z.of_nat w) (np_cumsum ns) draft_probs target_probs bonus_ids kind uniform_probs q uninit = Ok out ∧
    ∀ i context, (i < length ns)%nat → is_greedy !!! i = true → target_follows next ns drafts bonus_ids target_probs i context →
      ∃ k, (0 < k)%nat ∧ Z.of_nat k <= ns !!! i + 1 ∧ parse_row (Z.of_nat vocab) (row_of_buffer w out i) = greedy_run next context k.
Proof. intros Hok Hk Hun Hn. by eapply rejection_sample_greedy. Qed.

(** Two requests, with two drafts and with one, the second one random; the target counts
    upwards modulo four. *)
Definition next_sample (context : list Z) : Z := (default 0 (last context) + 1) mod 4.
Definition one_hot (t : nat) : list Q := <[t := 1%Q]> (replicate 4 0%Q).
Definition targets_sample : list (list Q) := [one_hot 2; one_hot 1; [1 # 4; 1 # 4; 1 # 2; 0]%Q].
Definition noise_sample : list (list Q) := [[1; 1; 1; 1]%Q; [1; 1; 1; 1]%Q].
Lemma sample_inputs_ok : inputs_ok [2; 1] [2; 0; 1] 2 None targets_sample noise_sample [1 # 2; 1 # 2; 1 # 2]%Q [1; 3] [true; false] 4.
Proof.
  split; try done.
  - intros n Hn. repeat (apply elem_of_cons in Hn as [->|Hn]); [lia|lia|by apply elem_of_nil in Hn].
  - intros t Ht. repeat (apply elem_of_cons in Ht as [->|Ht]); [lia|lia|lia|by apply elem_of_nil in Ht].
  - split; [done|]. intros r Hr. repeat (apply elem_of_cons in Hr as [->|Hr]); [done|done|done|by apply elem_of_nil in Hr].
Qed.
Definition kind_sample : SamplingKind := mkSamplingKind false false [true; false].
Lemma sample_kind_ok : kind_ok [2; 1] [true; false] kind_sample.
Proof. by split_and!. Qed.
Lemma rejection_sampling_rows_witness :
  ∃ out, rejection_sample [2; 0; 1] 2 2 [2; 3] None targets_sample [1; 3] kind_sample [1 # 2; 1 # 2; 1 # 2]%Q noise_sample [0; 0; 0] = Ok out ∧
    parse_row 4 (row_of_buffer 2 out 0) = [2; 1] ∧ parse_row 4 (row_of_buffer 2 out 1) = [2].
Proof.
  destruct (rejection_sampling_rows _ _ _ _ _ _ _ _ _ _ kind_sample [0; 0; 0] sample_inputs_ok sample_kind_ok eq_refl) as (out & Hout & H).
  exists out. split; [exact Hout|]. split.
  - change (parse_row 4 (row_of_buffer 2 out 0)) with (parse_row (Z.of_nat 4) (row_of_buffer 2 out 0)). rewrite H by (cbn; lia). vm_compute. done.
  - change (parse_row 4 (row_of_buffer 2 out 1)) with (parse_row (Z.of_nat 4) (row_of_buffer 2 out 1)). rewrite H by (cbn; lia). vm_compute. done.
Defined.
(** After [1], the drafts [2] and [0] where the target says [2] and [3]. *)
Definition lossless_targets : list (list Q) := [one_hot 2; one_hot 3; [1 # 4; 1 # 4; 1 # 2; 0]%Q].
Lemma lossless_inputs_ok : inputs_ok [2; 1] [2; 0; 1] 2 None lossless_targets noise_sample [1 # 2; 1 # 2; 1 # 2]%Q [1; 3] [true; false] 4.
Proof.
  pose proof sample_inputs_ok as [H1 H2 H3 H4 H5 H6 _ H8 H9]. split; try done.
  split; [done|]. intros r Hr. repeat (apply elem_of_cons in Hr as [->|Hr]); [done|done|done|by apply elem_of_nil in Hr].
Qed.
Lemma greedy_speculation_lossless_witness :
  ∃ out, rejection_sample [2; 0; 1] 2 2 [2; 3] None lossless_targets [1; 3] kind_sample [1 # 2; 1 # 2; 1 # 2]%Q noise_sample [0; 0; 0] = Ok out ∧
    ∃ k, (0 < k)%nat ∧ Z.of_nat k <= 3 ∧ parse_row 4 (row_of_buffer 2 out 0) = greedy_run next_sample [0; 1] k.
Proof.
  destruct (greedy_speculation_lossless next_sample _ _ _ _ _ _ _ _ _ _ kind_sample [0; 0; 0] lossless_inputs_ok sample_kind_ok eq_refl) as (out & Hout & H).
  { intros context. apply Z.mod_pos_bound. lia. }
  exists out. split; [exact Hout|]. apply (H 0%nat [0; 1]); [cbn; lia|done|]. split; [|vm_compute; done].
  intros [|[|pos]] Hp; [vm_compute; done..|]. cbn in Hp. lia.
Defined.

(** * Multimodal inputs *)

(** Scattering the embeddings of an input over the positions of its placeholder and
    gathering them at the positions of the mask gives the embeddings back, and the
    scattered tensor has one row per position: for every mask with as many positions as
    there are embeddings, and for no mask. *)
Theorem placeholders_roundtrip (embeds : list Embedding) mask :
  (∀ m, mask = Some m → length embeds = embeds_of m) →
  ∃ placeholders, scatter_mm_placeholders embeds mask = Ok placeholders ∧ gather_mm_placeholders placeholders mask = embeds ∧
    length placeholders = match mask with Some m => length m | None => length embeds end.
Proof. apply scatter_gather. Qed.
Lemma placeholders_roundtrip_witness :
  ∃ placeholders, scatter_mm_placeholders [Some 5; Some 6] (Some [false; true; false; true; false]) = Ok placeholders ∧
    gather_mm_placeholders placeholders (Some [false; true; false; true; false]) = [Some 5; Some 6] ∧ length placeholders = 5%nat.
Proof. apply (placeholders_roundtrip [Some 5; Some 6] (Some [false; true; false; true; false])). by intros m [= <-]. Defined.

(** C21: the embeddings gathered for a chunk of a request are those of the positions of the
    chunk that take one, in the order of the positions: whichever placeholders the chunk
    covers, cuts at either end or leaves out, provided the outputs of the ones it reaches
    are cached. *)
Theorem gathered_embeddings cache from c n i l :
  0 < n → ordered from l → cached_for cache c n i l →
  ∃ xs, gather_items cache c n i l = Ok xs ∧ concat xs = omap (embedding_at cache l i) (range2 c (c + n)).
Proof. intros Hn Ho Hc. by eapply gather_items_spec. Qed.
Lemma gathered_embeddings_witness :
  ∃ xs, gather_items (Some {[ 0 := [Some 10; Some 11; Some 12]; 1 := [Some 20; None; Some 22] ]}) 2 5 0
      [mkPlaceholderRange 0 3 None; mkPlaceholderRange 4 3 (Some [true; false; true])] = Ok xs ∧ concat xs = [Some 12; Some 20; Some 22].
Proof.
  destruct (gathered_embeddings (Some {[ 0 := [Some 10; Some 11; Some 12]; 1 := [Some 20; None; Some 22] ]}) 0 2 5 0
    [mkPlaceholderRange 0 3 None; mkPlaceholderRange 4 3 (Some [true; false; true])]) as (xs & Hxs & H).
  - lia.
  - cbn. lia.
  - cbn. split; [|split; [|done]]; intros _ _; (eexists; split; [reflexivity|]; split; [reflexivity|]); [done|by intros m [= <-]].
  - exists xs. split; [done|]. rewrite H. vm_compute. done.
Defined.

(** * Grammar masks *)

(** [apply_grammar_bitmask] brings the scheduler's rows of the bitmask, which are in
    the order of the structured requests, to the rows of the logits: the mask has a row
    for every sampled token of the batch, each structured request has its own rows of the
    bitmask there, one for every draft token and one more, the rows of the other requests
    are zero, and the reported indices are exactly the structured requests' rows. *)
Theorem grammar_masks_follow_rows o b ids G width :
  index_ok (req_id_to_index b) (_req_ids (slots b)) → req_id_list b = Ok ids →
  (∀ id, is_Some (structured_output_request_ids o !! id) → id ∈ ids) →
  zsum (mask_rows o <$> (sorted_items (structured_output_request_ids o)).*1) <= Z.of_nat (length G) →
  ∃ M out, apply_grammar_bitmask o G width (Z.to_nat (zsum (mask_rows o <$> ids))) b = Ok (M, out) ∧ mask_given o ids G width M out.
Proof. apply apply_grammar_bitmask_spec. Qed.

(** The first request of the batch has two drafts, the second one is structured. *)
Definition structured_sample : SchedulerOutput :=
  mkSchedulerOutput [] make_empty [("a"%string, 3); ("b"%string, 2)] 5 {[ "a"%string := [4; 5]; "b"%string := [6] ]} ∅ [0] ∅ [] {[ "b"%string := 0 ]} (Some 1) None.
Lemma grammar_masks_follow_rows_witness :
  ∃ M out, apply_grammar_bitmask structured_sample [[1; 2]; [3; 4]] 2 5 two_requests = Ok (M, out) ∧
    mask_given structured_sample ["a"%string; "b"%string] [[1; 2]; [3; 4]] 2 M out.
Proof.
  apply (grammar_masks_follow_rows structured_sample two_requests ["a"%string; "b"%string]).
  - pose proof (changing_ok float_sample new_batch_sample ∅ (new_batch_dense _ _ _) eq_refl _ _ _ two_requests_changed) as ([[_ H _ _ _] _] & _). exact H.
  - vm_compute. reflexivity.
  - intros id Hid. cbn in Hid. apply lookup_singleton_is_Some in Hid as <-. right. by left.
  - vm_compute. done.
Defined.
