(* ===== verification/StructuredOutput.v ===== *)
(** Structured outputs: the grammars of the three backends
    ([v1/structured_output/backend_xgrammar.py], [backend_guidance.py],
    [backend_outlines.py]) over the matchers of their libraries, which are parameters, and
    the manager of [v1/structured_output/__init__.py] and [request.py], which compiles the
    grammars of requests and fills the bitmask of a step. *)
From Stdlib Require Import ZArith QArith Lia.
From stdpp Require Import base strings countable gmap sets list.
From S2P Require Import Prelude Request SchedulerData ExecuteModel.
Local Open Scope Z_scope.

(** * Grammars *)

(** [StructuredOutputGrammar] of [backend_types.py]; [fill_bitmask] gives the row it
    writes. *)
Class Grammar (B : Type) : Type := {
  accept_tokens : string → list Z → M B bool;
  validate_tokens : list Z → M B (list Z);
  rollback : Z → M B unit;
  fill_bitmask : M B (list Z);
  is_terminated : M B bool;
  reset : M B unit
}.

(** ** xgrammar *)
Record XgrammarGrammar {X : Type} : Type := mkXgrammarGrammar { matcher : X; num_processed_tokens : Z }.
Arguments XgrammarGrammar : clear implicits.

(** The library's matcher. *)
Record GrammarMatcher (X : Type) : Type := mkGrammarMatcher {
  accept_token : Z → X → bool * X;
  rollback_matcher : Z → X → X;
  next_token_bitmask : X → list Z;
  matcher_terminated : X → bool;
  reset_matcher : X → X
}.
Arguments accept_token {X} g. Arguments rollback_matcher {X} g. Arguments next_token_bitmask {X} g.
Arguments matcher_terminated {X} g. Arguments reset_matcher {X} g.

Section xgrammar.
Context {X : Type} (lib : GrammarMatcher X).
Implicit Types (g : XgrammarGrammar X).
Definition set_matcher (v : X) g : XgrammarGrammar X := mkXgrammarGrammar X v (num_processed_tokens g).
Definition on_matcher {A} (m : M X A) : M (XgrammarGrammar X) A := zoom matcher set_matcher m.
Definition try_token (token : Z) : M X bool := λ x, let '(ok, x) := accept_token lib token x in (Ok ok, x).

Fixpoint xgrammar_accept_tokens (tokens : list Z) : M (XgrammarGrammar X) bool :=
  match tokens with
  | [] => mret true
  | token :: tokens =>
    ok ← on_matcher (try_token token);
    if ok : bool then
      modify (λ g, mkXgrammarGrammar X (matcher g) (num_processed_tokens g + 1)) ;;
      xgrammar_accept_tokens tokens
    else mret false
  end.
(** The loop of [validate_tokens]. *)
Fixpoint accepted_prefix (tokens : list Z) : M X (list Z) :=
  match tokens with
  | [] => mret []
  | token :: tokens =>
    ok ← try_token token;
    if ok : bool then accepted ← accepted_prefix tokens; mret (token :: accepted) else mret []
  end.
Definition xgrammar_validate_tokens (tokens : list Z) : M (XgrammarGrammar X) (list Z) :=
  accepted_tokens ← on_matcher (accepted_prefix tokens);
  (if decide (len accepted_tokens > 0) then on_matcher (modify (rollback_matcher lib (len accepted_tokens))) else mret tt) ;;
  mret accepted_tokens.
Definition xgrammar_rollback (num_tokens : Z) : M (XgrammarGrammar X) unit :=
  modify (λ g, mkXgrammarGrammar X (rollback_matcher lib num_tokens (matcher g)) (num_processed_tokens g - num_tokens)).
#[export] Instance XgrammarGrammar_grammar : Grammar (XgrammarGrammar X) := {|
  accept_tokens _ := xgrammar_accept_tokens;
  validate_tokens := xgrammar_validate_tokens;
  rollback := xgrammar_rollback;
  fill_bitmask := gets (λ g, next_token_bitmask lib (matcher g));
  is_terminated := gets (λ g, matcher_terminated lib (matcher g));
  reset := modify (λ g, mkXgrammarGrammar X (reset_matcher lib (matcher g)) 0)
|}.
End xgrammar.

(** ** guidance *)
Record GuidanceGrammar {L : Type} : Type := mkGuidanceGrammar { ll_matcher : L; printed_error : bool; terminated : bool }.
Arguments GuidanceGrammar : clear implicits.
Record LLMatcher (L : Type) : Type := mkLLMatcher {
  is_stopped : L → bool;
  consume_tokens : list Z → L → bool * L;
  ll_validate_tokens : list Z → L → Z;
  ll_rollback : Z → L → L;
  ll_bitmask : L → list Z;
  has_error : L → bool;
  ll_reset : L → L
}.
Arguments is_stopped {L} l. Arguments consume_tokens {L} l. Arguments ll_validate_tokens {L} l. Arguments ll_rollback {L} l.
Arguments ll_bitmask {L} l. Arguments has_error {L} l. Arguments ll_reset {L} l.

Section guidance.
Context {L : Type} (lib : LLMatcher L) (eos_token : Z).
Implicit Types (g : GuidanceGrammar L).
Definition set_ll_matcher (v : L) g : GuidanceGrammar L := mkGuidanceGrammar L v (printed_error g) (terminated g).
Definition check_error : M (GuidanceGrammar L) unit :=
  modify (λ g, mkGuidanceGrammar L (ll_matcher g) (printed_error g || has_error lib (ll_matcher g)) (terminated g)).
Definition guidance_accept_tokens (tokens : list Z) : M (GuidanceGrammar L) bool :=
  (if decide (eos_token ∈ tokens) then modify (λ g, mkGuidanceGrammar L (ll_matcher g) (printed_error g) true) else mret tt) ;;
  g ← get;
  if is_stopped lib (ll_matcher g) then mret true
  else
    let '(r, m) := consume_tokens lib tokens (ll_matcher g) in
    put (set_ll_matcher m g) ;; check_error ;; mret r.
Definition guidance_validate_tokens (tokens : list Z) : M (GuidanceGrammar L) (list Z) :=
  g ← get;
  match tokens with
  | [] => mret []
  | _ =>
    if is_stopped lib (ll_matcher g) then mret []
    else check_error ;; mret (slice_to (ll_validate_tokens lib tokens (ll_matcher g)) tokens)
  end.
Definition guidance_rollback (num_tokens : Z) : M (GuidanceGrammar L) unit :=
  modify (λ g, set_ll_matcher (ll_rollback lib num_tokens (ll_matcher g)) g) ;; check_error.
Definition guidance_fill_bitmask : M (GuidanceGrammar L) (list Z) :=
  g ← get; check_error ;; mret (ll_bitmask lib (ll_matcher g)).
#[export] Instance GuidanceGrammar_grammar : Grammar (GuidanceGrammar L) := {|
  accept_tokens _ := guidance_accept_tokens;
  validate_tokens := guidance_validate_tokens;
  rollback := guidance_rollback;
  fill_bitmask := guidance_fill_bitmask;
  is_terminated := gets terminated;
  reset := modify (λ g, set_ll_matcher (ll_reset lib (ll_matcher g)) g)
|}.
End guidance.

(** ** outlines *)
Record OutlinesGrammar {O : Type} : Type := mkOutlinesGrammar { guide : O; num_advanced : Z; _prev_finished : bool }.
Arguments OutlinesGrammar : clear implicits.
Record Guide (O : Type) : Type := mkGuide {
  accepts_tokens : list Z → O → bool;
  advance : Z → O → O;
  rollback_state : Z → O → O;
  guide_mask : O → list Z;
  is_finished : O → bool;
  guide_reset : O → O
}.
Arguments accepts_tokens {O} g. Arguments advance {O} g. Arguments rollback_state {O} g. Arguments guide_mask {O} g.
Arguments is_finished {O} g. Arguments guide_reset {O} g.

Section outlines.
Context {O : Type} (lib : Guide O).
Implicit Types (g : OutlinesGrammar O).
Definition outlines_accept_tokens (tokens : list Z) : M (OutlinesGrammar O) bool :=
  g ← get;
  if accepts_tokens lib tokens (guide g) then
    for_each tokens (λ t, modify (λ g, mkOutlinesGrammar O (advance lib t (guide g)) (num_advanced g + 1) (_prev_finished g))) ;;
    mret true
  else mret false.
Fixpoint outlines_prefix (g : OutlinesGrammar O) (accepted tokens : list Z) : list Z :=
  match tokens with
  | [] => accepted
  | tok :: tokens =>
    if accepts_tokens lib (accepted ++ [tok]) (guide g) then outlines_prefix g (accepted ++ [tok]) tokens else accepted
  end.
Definition outlines_rollback (num_tokens : Z) : M (OutlinesGrammar O) unit :=
  modify (λ g, mkOutlinesGrammar O (rollback_state lib num_tokens (guide g)) (num_advanced g - num_tokens) (_prev_finished g)).
(** The flag of the call before is returned. *)
Definition outlines_is_terminated : M (OutlinesGrammar O) bool :=
  g ← get;
  put (mkOutlinesGrammar O (guide g) (num_advanced g) (is_finished lib (guide g))) ;; mret (_prev_finished g).
#[export] Instance OutlinesGrammar_grammar : Grammar (OutlinesGrammar O) := {|
  accept_tokens _ := outlines_accept_tokens;
  validate_tokens tokens := gets (λ g, outlines_prefix g [] tokens);
  rollback := outlines_rollback;
  fill_bitmask := gets (λ g, guide_mask lib (guide g));
  is_terminated := outlines_is_terminated;
  reset := modify (λ g, mkOutlinesGrammar O (guide_reset lib (guide g)) 0 false)
|}.
End outlines.
