(* ===== verification/GrammarManager.v ===== *)
(** The structured-output manager of [v1/structured_output/__init__.py]: it has the
    grammars of requests compiled in the background ([v1/structured_output/request.py]) and
    fills the bitmask of a step, with a row for every draft token of a structured request
    and one more.  A future that is polled more than once within an operation gives the
    same answer each time. *)
From Stdlib Require Import ZArith QArith Lia.
From stdpp Require Import base strings countable gmap sets list.
From S2P Require Import Prelude Request SchedulerData ModelRunner ExecuteModel StructuredOutput.
Local Open Scope Z_scope.

(** * What is compiled *)
Inductive StructuredOutputOptions : Type := JSON | JSON_OBJECT | REGEX | GRAMMAR | CHOICE | STRUCTURAL_TAG.
Definition StructuredOutputKey : Type := StructuredOutputOptions * string.

(** [GuidedDecodingParams]: a JSON schema and a choice are strings or objects, which are
    handles. *)
Record GuidedDecodingParams : Type := mkGuidedDecodingParams {
  gd_json : option (string + handle);
  gd_regex : option string;
  gd_choice : option (string + handle);
  gd_grammar : option string;
  gd_json_object : option bool;
  gd_structural_tag : option string;
  gd_backend : option string
}.
(** [json.dumps] of the object behind a handle. *)
Definition json_string (dumps : handle → string) (v : string + handle) : string := match v with inl s => s | inr h => dumps h end.
Definition get_structured_output_key (dumps : handle → string) (p : GuidedDecodingParams) : outcome StructuredOutputKey :=
  match gd_json p with
  | Some v => Ok (JSON, json_string dumps v)
  | None =>
    if default false (gd_json_object p) then Ok (JSON_OBJECT, ""%string)
    else match gd_regex p, gd_choice p, gd_grammar p, gd_structural_tag p with
    | Some s, _, _, _ => Ok (REGEX, s)
    | None, Some v, _, _ => Ok (CHOICE, json_string dumps v)
    | None, None, Some s, _ => Ok (GRAMMAR, s)
    | None, None, None, Some s => Ok (STRUCTURAL_TAG, s)
    | None, None, None, None => Raise ValueError
    end
  end.

(** * The manager *)

(** [_grammar] of a [StructuredOutputRequest]: not set, a future, or compiled. *)
Inductive GrammarSlot (B : Type) : Type := NoGrammar | Pending (p : option GuidedDecodingParams) | Compiled (g : B).
Arguments NoGrammar {B}. Arguments Pending {B} p. Arguments Compiled {B} g.
Record StructuredOutputRequest {B : Type} : Type := mkStructuredOutputRequest { _grammar : GrammarSlot B; reasoning_ended : option bool }.
Arguments StructuredOutputRequest : clear implicits.

(** [so_requests] are the objects of the requests, [_grammar_bitmask] the rows of the
    tensor. *)
Record Manager {B : Type} : Type := mkManager {
  backend : option string;
  so_requests : gmap handle (StructuredOutputRequest B);
  _grammar_bitmask : option (list (list Z))
}.
Arguments Manager : clear implicits.

Section manager.
Context {B : Type} `{Gr : !Grammar B}.
(** [GuidedDecodingParams] by the request's handle, whether the future of a request is
    done, and [compile_grammar] of the backend. *)
Context (guided : handle → GuidedDecodingParams) (dumps : handle → string) (future_done : handle → bool).
Context (compile_grammar : StructuredOutputKey → outcome B).
(** [is_reasoning_end] of the reasoning parser, if there is one. *)
Context (reasoner : option (list Z → bool)).
Context (max_num_seqs : Z) (num_speculative_tokens : option Z) (allocate_token_bitmask : Z → list (list Z)).
Implicit Types (s : Manager B) (request : Request).

Definition set_backend (v : option string) s : Manager B := mkManager B v (so_requests s) (_grammar_bitmask s).
Definition set_so_requests v s : Manager B := mkManager B (backend s) v (_grammar_bitmask s).
Definition set_bitmask v s : Manager B := mkManager B (backend s) (so_requests s) v.
Definition set_grammar (v : GrammarSlot B) (r : StructuredOutputRequest B) : StructuredOutputRequest B := mkStructuredOutputRequest B v (reasoning_ended r).
Definition set_reasoning_ended (v : bool) (r : StructuredOutputRequest B) : StructuredOutputRequest B := mkStructuredOutputRequest B (_grammar r) (Some v).

(** ** Requests *)
Definition on_request {A} (h : handle) (m : M (StructuredOutputRequest B) A) : M (Manager B) A :=
  s ← get;
  match so_requests s !! h with
  | None => raise DanglingReference
  | Some r => zoom (λ _, r) (λ r s, set_so_requests (<[h := r]> (so_requests s)) s) m
  end.
(** [_check_grammar_completion]. *)
Definition _check_grammar_completion (h : handle) : M (StructuredOutputRequest B) bool :=
  r ← get;
  match _grammar r with
  | Pending p =>
    if future_done h then
      key ← lift_outcome (match p with Some p => get_structured_output_key dumps p | None => Raise AssertionError end);
      g ← lift_outcome (compile_grammar key);
      modify (set_grammar (Compiled g)) ;; mret true
    else mret false
  | _ => mret true
  end.
(** A call on the property [grammar], which may be [None]. *)
Definition on_grammar {A} (h : handle) (m : M B A) : M (Manager B) A :=
  on_request h (
    _check_grammar_completion h ;;
    r ← get;
    match _grammar r with
    | Compiled g => zoom (λ _, g) (λ g, set_grammar (Compiled g)) m
    | _ => raise AttributeError
    end).

Definition grammar_init request : M (Manager B) unit :=
  match structured_output_request request with
  | None => mret tt
  | Some h =>
    s ← get;
    (match backend s with
     | Some _ => mret tt
     | None =>
       match sampling_params request with
       | None => raise AssertionError
       | Some sp =>
         match guided_decoding sp with
         | None => raise AttributeError
         | Some p =>
           if decide (gd_backend (guided p) ∈ [Some "xgrammar"; Some "guidance"; Some "outlines"]%string) then modify (set_backend (gd_backend (guided p)))
           else raise ValueError
         end
       end
     end) ;;
    on_request h (modify (set_grammar (Pending (guided <$> (sampling_params request ≫= guided_decoding)))))
  end.
Definition should_advance request : M (Manager B) bool :=
  if use_structured_output request then
    match reasoner with
    | None => mret true
    | Some is_reasoning_end =>
      match structured_output_request request with
      | None => raise AttributeError
      | Some h =>
        on_request h (
          r ← get;
          if default false (reasoning_ended r) then mret true
          else (if is_reasoning_end (all_token_ids request) then modify (set_reasoning_ended true) else mret tt) ;; mret false)
      end
    end
  else mret false.

(** ** The bitmask of a step *)
Definition full_mask (row : list Z) : list Z := (λ _, -1) <$> row.
(** [bitmask_tensor[:n].fill_(self._full_mask)]. *)
Definition fill_rows (n : nat) (tensor : list (list Z)) : list (list Z) := (full_mask <$> take n tensor) ++ drop n tensor.
Definition write_row (i : Z) (row : list Z) : M (Manager B) unit :=
  s ← get;
  match _grammar_bitmask s with
  | None => raise AssertionError
  | Some tensor => if decide (0 <= i < len tensor) then put (set_bitmask (Some (<[Z.to_nat i := row]> tensor)) s) else raise IndexError
  end.

(** The inner loop, with [cumulative_index] and [state_advancements]. *)
Definition mask_token (h : handle) (req_id : string) (apply_bitmask : bool) (acc : Z * Z) (token : option Z) : M (Manager B) (Z * Z) :=
  let '(cumulative_index, state_advancements) := acc in
  state_advancements ← (if apply_bitmask then
      stopped ← on_grammar h is_terminated;
      if stopped : bool then mret state_advancements
      else
        row ← on_grammar h fill_bitmask;
        write_row cumulative_index row ;;
        match token with
        | None => mret state_advancements
        | Some token =>
          ok ← on_grammar h (accept_tokens req_id [token]);
          if ok : bool then mret (state_advancements + 1) else raise AssertionError
        end
    else mret state_advancements);
  mret (cumulative_index + 1, state_advancements).
(** [apply_bitmask]: not before the reasoning has ended. *)
Definition reasoning_over (h : handle) request : M (Manager B) bool :=
  match reasoner with
  | None => mret true
  | Some is_reasoning_end =>
    on_request h (
      r ← get;
      match reasoning_ended r with
      | Some v => mret v
      | None => let v := is_reasoning_end (prompt_token_ids request) in modify (set_reasoning_ended v) ;; mret v
      end)
  end.
Definition mask_tokens (cumulative_index : Z) (req_id : string) (drafts : list Z) request : M (Manager B) Z :=
  match structured_output_request request with
  | None => raise AttributeError
  | Some h =>
    apply_bitmask ← reasoning_over h request;
    '(cumulative_index, state_advancements) ← fold_each ((Some <$> drafts) ++ [None]) (cumulative_index, 0) (mask_token h req_id apply_bitmask);
    (if decide (state_advancements > 0) then on_grammar h (rollback state_advancements) else mret tt) ;;
    mret cumulative_index
  end.
Definition mask_request (requests : gmap string Request) (scheduled_spec_decode_tokens : gmap string (list Z)) (cumulative_index : Z) (item : string * Z)
    : M (Manager B) Z :=
  request ← lift_outcome (dict_get requests item.1);
  mask_tokens cumulative_index item.1 (default [] (scheduled_spec_decode_tokens !! item.1)) request.
Definition mask_positions : Z := 1 + default 0 num_speculative_tokens.
Definition grammar_bitmask (requests : gmap string Request) (structured_output_request_ids : gmap string Z)
    (scheduled_spec_decode_tokens : gmap string (list Z)) : M (Manager B) (option (list (list Z))) :=
  if decide (structured_output_request_ids = ∅) then mret None
  else
    s ← get;
    (match _grammar_bitmask s, backend s with
     | Some _, _ => mret tt
     | None, None => raise AssertionError
     | None, Some _ => modify (set_bitmask (Some (allocate_token_bitmask (max_num_seqs * mask_positions))))
     end) ;;
    let ordered_seq := sorted_items structured_output_request_ids in
    modify (λ s, set_bitmask (fill_rows (Z.to_nat (len ordered_seq * mask_positions)) <$> _grammar_bitmask s) s) ;;
    cumulative_index ← fold_each ordered_seq 0 (mask_request requests scheduled_spec_decode_tokens);
    s ← get;
    let tensor := default [] (_grammar_bitmask s) in
    mret (Some (if decide (cumulative_index < len tensor) then slice_to cumulative_index tensor else tensor)).
End manager.
