(* ===== verification/GrammarFacts.v ===== *)
(** What a grammar promises to the manager, as an interface with laws; xgrammar's grammar
    keeps them when its matcher does; and the bitmask of a step: the grammars are where
    they were, and every structured request has the masks after each of its drafts. *)
From Stdlib Require Import ZArith QArith Lia.
From stdpp Require Import base strings countable gmap sets list.
From S2P Require Import Prelude Request SchedulerData ModelRunner ExecuteModel StructuredOutput GrammarManager.
Local Open Scope Z_scope.

(** * The contract of a grammar *)
Fixpoint steps {B} (step : Z → B → option B) (tokens : list Z) (g : B) : option B :=
  match tokens with [] => Some g | t :: tokens => g ← step t g; steps step tokens g end.
Lemma steps_app {B} (step : Z → B → option B) a b g : steps step (a ++ b) g = (g ← steps step a g; steps step b g).
Proof. revert g. induction a as [|t a IH]; intros g; [done|]. cbn. destruct (step t g); cbn; [apply IH|done]. Qed.

(** Asking and masking leave the grammar as it is, a single token is accepted where there
    is a step, and up to [max_rollback] steps can be taken back. *)
Class GrammarLaws (B : Type) `{Grammar B} (max_rollback : Z) : Type := {
  stopped : B → bool;
  mask : B → list Z;
  step : Z → B → option B;
  terminated_reads : ∀ g, is_terminated g = (Ok (stopped g), g);
  fill_reads : ∀ g, fill_bitmask g = (Ok (mask g), g);
  accepts_step : ∀ id t g g', step t g = Some g' → accept_tokens id [t] g = (Ok true, g');
  rollback_steps : ∀ ts g g', steps step ts g = Some g' → 0 < len ts <= max_rollback → rollback (len ts) g' = (Ok tt, g);
  validates_prefix : ∀ ts g, len ts <= max_rollback → ∃ k, validate_tokens ts g = (Ok (take k ts), g) ∧ is_Some (steps step (take k ts) g) ∧
    ∀ t, ts !! k = Some t → steps step (take (S k) ts) g = None
}.

(** ** xgrammar *)
Section xgrammar.
Context {X : Type} (lib : GrammarMatcher X) (max_rollback : Z).
Definition matcher_step (t : Z) (x : X) : option X := let '(ok, x) := accept_token lib t x in if ok : bool then Some x else None.
(** What the library documents: a token that is not accepted changes nothing, and accepted
    tokens can be taken back. *)
Record matcher_ok : Prop := {
  mo_reject : ∀ t x x', accept_token lib t x = (false, x') → x' = x;
  mo_rollback : ∀ ts x x', steps matcher_step ts x = Some x' → 0 < len ts <= max_rollback → rollback_matcher lib (len ts) x' = x
}.
Context (Hlib : matcher_ok).

Definition xgrammar_step (t : Z) (g : XgrammarGrammar X) : option (XgrammarGrammar X) :=
  (λ x, mkXgrammarGrammar X x (num_processed_tokens g + 1)) <$> matcher_step t (matcher g).
Lemma xgrammar_steps ts g g' : steps xgrammar_step ts g = Some g' →
  steps matcher_step ts (matcher g) = Some (matcher g') ∧ num_processed_tokens g' = num_processed_tokens g + len ts.
Proof.
  revert g. induction ts as [|t ts IH]; intros g H.
  - injection H as <-. split; [done|]. unfold len. cbn. lia.
  - cbn [steps] in *. destruct (xgrammar_step t g) as [g1|] eqn:E; [|done]. unfold xgrammar_step in E. destruct (matcher_step t (matcher g)) as [x|]; [|done].
    injection E as <-. apply IH in H as [H1 H2]. split; [exact H1|].
    rewrite H2. unfold len. cbn. lia.
Qed.
Lemma steps_xgrammar ts g x : steps matcher_step ts (matcher g) = Some x →
  steps xgrammar_step ts g = Some (mkXgrammarGrammar X x (num_processed_tokens g + len ts)).
Proof.
  revert g. induction ts as [|t ts IH]; intros g H.
  - injection H as <-. cbn. destruct g. unfold len. cbn. by rewrite Z.add_0_r.
  - cbn [steps] in *. destruct (matcher_step t (matcher g)) as [y|] eqn:E; [|done].
    assert (xgrammar_step t g = Some (mkXgrammarGrammar X y (num_processed_tokens g + 1))) as -> by (unfold xgrammar_step; by rewrite E). cbn in *.
    rewrite (IH (mkXgrammarGrammar X y (num_processed_tokens g + 1)) H). cbn. do 2 f_equal. unfold len. cbn. lia.
Qed.

Lemma accepted_prefix_spec ts x : ∃ k x', accepted_prefix lib ts x = (Ok (take k ts), x') ∧ (k <= length ts)%nat ∧ steps matcher_step (take k ts) x = Some x' ∧
  ∀ t, ts !! k = Some t → steps matcher_step (take (S k) ts) x = None.
Proof using Hlib.
  revert x. induction ts as [|t ts IH]; intros x; [by exists 0%nat, x|].
  cbn [accepted_prefix]. unfold mbind, M_bind, try_token at 1. destruct (accept_token lib t x) as [[|] y] eqn:E.
  - destruct (IH y) as (k & x' & H1 & Hk & H2 & H3). rewrite H1. exists (S k), x'. split; [done|]. split; [cbn; lia|].
    assert (matcher_step t x = Some y) as Hs by (unfold matcher_step; by rewrite E). cbn [take steps]. rewrite Hs. cbn [mbind option_bind]. split; [exact H2|].
    intros t' Ht'. exact (H3 t' Ht').
  - exists 0%nat, x. rewrite (mo_reject Hlib t x y E). split; [done|]. split; [cbn; lia|]. split; [done|]. intros t' [= <-]. cbn. unfold matcher_step. by rewrite E.
Qed.

Lemma xgrammar_validates ts g : len ts <= max_rollback → ∃ k, xgrammar_validate_tokens lib ts g = (Ok (take k ts), g) ∧
  is_Some (steps xgrammar_step (take k ts) g) ∧ ∀ t, ts !! k = Some t → steps xgrammar_step (take (S k) ts) g = None.
Proof using Hlib.
  intros Hl. destruct (accepted_prefix_spec ts (matcher g)) as (k & x' & Hp & Hk & Hs & Hn). exists k. split_and!.
  - unfold xgrammar_validate_tokens, mbind, M_bind, on_matcher, zoom. rewrite Hp. destruct (decide (len (take k ts) > 0)) as [Hgt|Hle].
    + cbn. rewrite (mo_rollback Hlib _ _ _ Hs); [by destruct g|]. unfold len in *. rewrite length_take in *. lia.
    + assert (take k ts = []) as E by (destruct (take k ts); [done|unfold len in Hle; cbn in Hle; lia]). rewrite E in Hs |- *. injection Hs as <-. by destruct g.
  - eexists. by apply steps_xgrammar.
  - intros t Ht. specialize (Hn t Ht). destruct (steps xgrammar_step (take (S k) ts) g) as [g'|] eqn:E; [|done]. apply xgrammar_steps in E as [E _]. congruence.
Qed.

#[export] Instance xgrammar_laws : @GrammarLaws (XgrammarGrammar X) (XgrammarGrammar_grammar lib) max_rollback.
Proof using Hlib.
  refine {| stopped g := matcher_terminated lib (matcher g); mask g := next_token_bitmask lib (matcher g); step := xgrammar_step |}.
  - done.
  - done.
  - intros id t g g' H. unfold xgrammar_step, matcher_step in H. cbn. unfold mbind, M_bind, on_matcher, zoom, try_token.
    destruct (accept_token lib t (matcher g)) as [[|] x]; [|done]. by injection H as <-.
  - intros ts g g' H Hlen. apply xgrammar_steps in H as [Hs Hn]. cbn. unfold xgrammar_rollback, modify. rewrite (mo_rollback Hlib _ _ _ Hs Hlen), Hn.
    do 2 f_equal. destruct g. cbn. f_equal. lia.
  - apply xgrammar_validates.
Defined.
End xgrammar.

(** * The masks of a request *)
Section masks.
Context {B : Type} `{Gr : !Grammar B} {max_rollback : Z} `{GL : !@GrammarLaws B Gr max_rollback}.
Implicit Types (g : B) (drafts : list Z).

(** The masks after every prefix of the drafts, as long as the grammar has not
    terminated; then all tokens are allowed. *)
Fixpoint draft_masks (full : list Z) g drafts : list (list Z) :=
  let row := if stopped g then full else mask g in
  match drafts with
  | [] => [row]
  | t :: drafts => row :: draft_masks full (if stopped g then g else default g (step t g)) drafts
  end.
(** The grammar accepts the drafts, until it has terminated. *)
Fixpoint drafts_ok g drafts : Prop :=
  match drafts with
  | [] => True
  | t :: drafts => stopped g = true ∨ ∃ g', step t g = Some g' ∧ drafts_ok g' drafts
  end.
Lemma drafts_ok_stopped g drafts : stopped g = true → drafts_ok g drafts.
Proof. destruct drafts; cbn; auto. Qed.
Lemma length_draft_masks full g drafts : length (draft_masks full g drafts) = S (length drafts).
Proof. revert g. induction drafts as [|t drafts IH]; intros g; [done|]. cbn. by rewrite IH. Qed.
(** The drafts that [validate_tokens] leaves are accepted. *)
Lemma drafts_ok_steps g drafts : is_Some (steps step drafts g) → drafts_ok g drafts.
Proof.
  revert g. induction drafts as [|t drafts IH]; intros g [g' H]; [done|]. cbn [steps] in H. cbn. right.
  destruct (step t g) as [g1|] eqn:E; [|done]. exists g1. split; [done|]. apply IH. by exists g'.
Qed.

(** * The bitmask *)
Context (dumps : handle → string) (future_done : handle → bool) (compile_grammar : StructuredOutputKey → outcome B).
Context (reasoner : option (list Z → bool)) (max_num_seqs : Z) (num_speculative_tokens : option Z) (allocate_token_bitmask : Z → list (list Z)).
Implicit Types (s : Manager B) (r : StructuredOutputRequest B) (request : Request).

Lemma wp_on_grammar {A} h r g (m : M B A) x g' Q s :
  so_requests s !! h = Some r → _grammar r = Compiled g → m g = (Ok x, g') →
  Q x (set_so_requests (<[h := set_grammar (Compiled g') r]> (so_requests s)) s) → wp (on_grammar dumps future_done compile_grammar h m) Q s.
Proof.
  intros Hr Hg Hm HQ. unfold on_grammar, on_request. apply wp_bind, wp_get. rewrite Hr. apply wp_zoom, wp_bind. unfold _check_grammar_completion.
  apply wp_bind, wp_get. rewrite Hg. apply wp_ret, wp_bind, wp_get. rewrite Hg. apply wp_zoom. unfold wp. by rewrite Hm.
Qed.
Lemma set_same_grammar r g : _grammar r = Compiled g → set_grammar (Compiled g) r = r.
Proof. destruct r. cbn. by intros ->. Qed.
Lemma wp_ask_grammar {A} h r g (m : M B A) x Q s :
  so_requests s !! h = Some r → _grammar r = Compiled g → m g = (Ok x, g) → Q x s → wp (on_grammar dumps future_done compile_grammar h m) Q s.
Proof.
  intros Hr Hg Hm HQ. apply (wp_on_grammar h r g m x g); [done..|]. rewrite (set_same_grammar r g Hg), insert_id by done. by destruct s.
Qed.

Lemma insert_after (pre : list (list Z)) row x post : <[length pre := row]> (pre ++ x :: post) = (pre ++ [row]) ++ post.
Proof. rewrite insert_app_r_alt by lia. rewrite Nat.sub_diag. cbn. by rewrite <- app_assoc. Qed.

(** The loop over the tokens of a request writes the masks, and has taken as many steps
    as it has counted. *)
Lemma wp_mask_loop h id full drafts pre post r g n s :
  so_requests s !! h = Some r → _grammar r = Compiled g → _grammar_bitmask s = Some (pre ++ replicate (S (length drafts)) full ++ post) → drafts_ok g drafts →
  wp (fold_each ((Some <$> drafts) ++ [None]) (len pre, n) (mask_token dumps future_done compile_grammar h id true)) (λ '(c, n') s',
    c = len pre + len drafts + 1 ∧ ∃ ts g', steps step ts g = Some g' ∧ n' = n + len ts ∧ len ts <= len drafts ∧
    s' = mkManager B (backend s) (<[h := set_grammar (Compiled g') r]> (so_requests s)) (Some (pre ++ draft_masks full g drafts ++ post))) s.
Proof.
  revert pre r g n s. induction drafts as [|t drafts IH]; intros pre r g n s Hr Hg HT Hok; cbn [fmap list_fmap app fold_each].
  - apply wp_bind. unfold mask_token. apply wp_bind, wp_bind. eapply wp_ask_grammar; [done|done|apply terminated_reads|]. cbn [draft_masks].
    assert (s = mkManager B (backend s) (<[h := set_grammar (Compiled g) r]> (so_requests s)) (_grammar_bitmask s)) as Hs.
    { rewrite (set_same_grammar r g Hg), insert_id by done. by destruct s. }
    destruct (stopped g).
    + apply wp_ret, wp_ret, wp_ret. split; [unfold len; cbn; lia|]. exists [], g. split_and!; [done|unfold len; cbn; lia|done|]. by rewrite HT in Hs.
    + apply wp_bind. eapply wp_ask_grammar; [done|done|apply fill_reads|]. apply wp_bind. unfold write_row. apply wp_bind, wp_get. rewrite HT.
      assert (0 <= len pre < len (pre ++ replicate (S (length (A := Z) [])) full ++ post)) as Hlt by (unfold len; rewrite !length_app; cbn; lia). rewrite decide_True by exact Hlt.
      apply wp_put, wp_ret, wp_ret, wp_ret. split; [unfold len; cbn; lia|]. exists [], g. split_and!; [done|unfold len; cbn; lia|done|].
      rewrite (set_same_grammar r g Hg), insert_id by done. unfold set_bitmask. do 2 f_equal. unfold len. rewrite Nat2Z.id. cbn [replicate length app]. by rewrite insert_after, <- app_assoc.
  - apply wp_bind. unfold mask_token at 1. apply wp_bind, wp_bind. eapply wp_ask_grammar; [done|done|apply terminated_reads|]. cbn [draft_masks].
    destruct (stopped g) eqn:Est.
    + apply wp_ret, wp_ret. replace (len pre + 1) with (len (pre ++ [full])) by (unfold len; rewrite length_app; cbn; lia).
      eapply wp_mono; [apply (IH (pre ++ [full]) r g n s Hr Hg)|].
      * rewrite HT. cbn [length replicate app]. by rewrite <- app_assoc.
      * by apply drafts_ok_stopped.
      * cbn beta. intros [c n'] s' (-> & ts & g' & H1 & H2 & H3 & ->). split; [unfold len; rewrite length_app; cbn; lia|]. exists ts, g'. split_and!; [done|done|unfold len in *; cbn; lia|].
        by rewrite <- app_assoc.
    + cbn [drafts_ok] in Hok. destruct Hok as [Hok|(g1 & Hstep & Hok)]; [congruence|]. rewrite Hstep. cbn [default].
      apply wp_bind. eapply wp_ask_grammar; [done|done|apply fill_reads|]. apply wp_bind. unfold write_row. apply wp_bind, wp_get. rewrite HT.
      assert (0 <= len pre < len (pre ++ replicate (S (length (t :: drafts))) full ++ post)) as Hlt by (unfold len; rewrite !length_app; cbn; lia). rewrite decide_True by exact Hlt.
      apply wp_put, wp_bind. set (s1 := set_bitmask _ s). eapply (wp_on_grammar h r g _ true g1 _ s1); [done|done|by apply accepts_step|]. apply wp_ret, wp_ret.
      set (s2 := set_so_requests _ s1). set (r1 := set_grammar (Compiled g1) r).
      replace (len pre + 1) with (len (pre ++ [mask g])) by (unfold len; rewrite length_app; cbn; lia).
      eapply wp_mono; [apply (IH (pre ++ [mask g]) r1 g1 (n + 1) s2)|].
      * apply lookup_insert_eq.
      * done.
      * cbn. do 2 f_equal. unfold len. rewrite Nat2Z.id. cbn [replicate length app]. by rewrite insert_after.
      * done.
      * cbn beta. intros [c n'] s' (-> & ts & g' & H1 & H2 & H3 & ->). split; [unfold len; rewrite length_app; cbn; lia|]. exists (t :: ts), g'. split_and!.
        -- cbn [steps]. by rewrite Hstep.
        -- unfold len in *. cbn. lia.
        -- unfold len in *. cbn. lia.
        -- cbn. by rewrite insert_insert_eq, <- app_assoc.
Qed.

(** ** One request *)

(** Whether the masks of a request are applied, and its object after it was asked for
    the end of the reasoning. *)
Definition applies (request : Request) r : bool :=
  match reasoner with None => true | Some f => default (f (prompt_token_ids request)) (reasoning_ended r) end.
Definition asked (request : Request) r : StructuredOutputRequest B :=
  match reasoner, reasoning_ended r with Some f, None => set_reasoning_ended (f (prompt_token_ids request)) r | _, _ => r end.
Definition request_masks (full : list Z) (request : Request) r g drafts : list (list Z) :=
  if applies request r then draft_masks full g drafts else replicate (S (length drafts)) full.
Lemma length_request_masks full request r g drafts : length (request_masks full request r g drafts) = S (length drafts).
Proof. unfold request_masks. destruct (applies _ _); [apply length_draft_masks|by rewrite length_replicate]. Qed.

Lemma wp_reasoning_over h request r s : so_requests s !! h = Some r →
  wp (reasoning_over reasoner h request) (λ b s', b = applies request r ∧ s' = set_so_requests (<[h := asked request r]> (so_requests s)) s) s.
Proof.
  intros Hr. unfold reasoning_over, applies, asked. destruct reasoner as [f|].
  - unfold on_request. apply wp_bind, wp_get. rewrite Hr. apply wp_zoom, wp_bind, wp_get. destruct (reasoning_ended r) as [v|].
    + by apply wp_ret.
    + by apply wp_bind, wp_modify, wp_ret.
  - apply wp_ret. split; [done|]. rewrite insert_id by done. by destruct s.
Qed.

Lemma wp_mask_nothing h id drafts c n s :
  wp (fold_each ((Some <$> drafts) ++ [None]) (c, n) (mask_token dumps future_done compile_grammar h id false)) (λ '(c', n') s', c' = c + len drafts + 1 ∧ n' = n ∧ s' = s) s.
Proof.
  revert c. induction drafts as [|t drafts IH]; intros c; cbn [fmap list_fmap app fold_each].
  - apply wp_bind. unfold mask_token. apply wp_bind, wp_ret, wp_ret, wp_ret. split; [unfold len; cbn; lia|done].
  - apply wp_bind. unfold mask_token at 1. apply wp_bind, wp_ret, wp_ret. eapply wp_mono; [apply IH|]. cbn beta. intros [c' n'] s' (-> & -> & ->). split; [unfold len; cbn; lia|done].
Qed.

Lemma wp_mask_tokens h id full drafts pre post request r g s :
  structured_output_request request = Some h → so_requests s !! h = Some r → _grammar r = Compiled g →
  _grammar_bitmask s = Some (pre ++ replicate (S (length drafts)) full ++ post) → drafts_ok g drafts → len drafts <= max_rollback →
  wp (mask_tokens dumps future_done compile_grammar reasoner (len pre) id drafts request) (λ c s', c = len pre + len drafts + 1 ∧
    s' = mkManager B (backend s) (<[h := asked request r]> (so_requests s)) (Some (pre ++ request_masks full request r g drafts ++ post))) s.
Proof.
  intros Hh Hr Hg HT Hok Hmax. unfold mask_tokens. rewrite Hh. apply wp_bind. eapply wp_mono; [by apply (wp_reasoning_over h request r s)|]. cbn beta. intros b s1 [-> ->].
  unfold request_masks. set (r1 := asked request r). assert (_grammar r1 = Compiled g) as Hg1 by (unfold r1, asked; by destruct reasoner, (reasoning_ended r)).
  set (s1 := set_so_requests _ s). assert (so_requests s1 !! h = Some r1) as Hr1 by apply lookup_insert_eq. apply wp_bind. destruct (applies request r).
  - eapply wp_mono; [by apply (wp_mask_loop h id full drafts pre post r1 g 0 s1)|]. cbn beta. intros [c n] s2 (-> & ts & g' & Hsteps & -> & Hts & Hs2).
    set (r2 := set_grammar (Compiled g') r1) in *. assert (so_requests s2 !! h = Some r2) as Hr2 by (rewrite Hs2; apply lookup_insert_eq).
    apply wp_bind. case_decide as Hn.
    + eapply (wp_on_grammar h r2 g' _ tt g); [done|done|apply rollback_steps; [exact Hsteps|lia]|]. apply wp_ret. split; [done|].
      assert (set_grammar (Compiled g) r2 = r1) as -> by (unfold r2; destruct r1; cbn in *; by rewrite Hg1). rewrite Hs2. unfold s1. cbn. by rewrite !insert_insert_eq.
    + assert (ts = []) as -> by (destruct ts; [done|unfold len in Hn; cbn in Hn; lia]). injection Hsteps as <-. apply wp_ret, wp_ret. split; [done|].
      rewrite Hs2. unfold r2, s1. rewrite (set_same_grammar r1 g Hg1). cbn. by rewrite !insert_insert_eq.
  - eapply wp_mono; [apply wp_mask_nothing|]. cbn beta. intros [c n] s2 (-> & -> & ->). apply wp_bind. rewrite decide_False by lia. apply wp_ret, wp_ret. split; [done|].
    unfold s1, set_so_requests. by rewrite <- HT.
Qed.

(** ** All requests *)
Section bitmask.
Context (requests : gmap string Request) (spec : gmap string (list Z)) (width : nat).
Definition all_allowed : list Z := replicate width (-1).
Definition drafts_of (id : string) : list Z := default [] (spec !! id).

(** The structured request [id] with its object and its compiled grammar. *)
Definition structured s (id : string) (request : Request) (h : handle) r g : Prop :=
  requests !! id = Some request ∧ structured_output_request request = Some h ∧ so_requests s !! h = Some r ∧ _grammar r = Compiled g.
(** The rows of the request [id]. *)
Definition masks_of s (id : string) : list (list Z) :=
  match (requests !! id : option Request) with
  | None => []
  | Some request =>
    match structured_output_request request ≫= (so_requests s !!.) with
    | Some r => match _grammar r with Compiled g => request_masks all_allowed request r g (drafts_of id) | _ => [] end
    | None => []
    end
  end.
Lemma masks_of_structured s id request h r g : structured s id request h r g → masks_of s id = request_masks all_allowed request r g (drafts_of id).
Proof. intros (H1 & H2 & H3 & H4). unfold masks_of. rewrite H1, H2. cbn. by rewrite H3, H4. Qed.

(** What must hold of the structured requests of a step: their grammars are compiled and
    accept the drafts, of which there are not too many, and no two share an object. *)
Record maskable s (ids : list string) : Prop := {
  mk_nodup : NoDup ids;
  mk_structured : ∀ id, id ∈ ids → ∃ request h r g, structured s id request h r g ∧ drafts_ok g (drafts_of id);
  mk_drafts : ∀ id, id ∈ ids → len (drafts_of id) <= max_rollback ∧ len (drafts_of id) < mask_positions num_speculative_tokens;
  mk_objects : ∀ (id1 id2 : string) (q1 q2 : Request) (h : handle), id1 ∈ ids → id2 ∈ ids → requests !! id1 = Some q1 → requests !! id2 = Some q2 →
    structured_output_request q1 = Some h → structured_output_request q2 = Some h → id1 = id2
}.
(** The grammars are where they were. *)
Definition same_grammars s s' : Prop := ∀ h, _grammar <$> so_requests s' !! h = _grammar <$> so_requests s !! h.

(** While the requests [done] of the list have been masked. *)
Record masked s (done todo : list string) (c : Z) s' : Prop := {
  md_grammars : same_grammars s s';
  md_todo : ∀ (id : string) (request : Request) (h : handle), id ∈ todo → requests !! id = Some request → structured_output_request request = Some h → so_requests s' !! h = so_requests s !! h;
  md_cumulative : c = len (concat (masks_of s <$> done));
  md_tensor : ∃ post k, _grammar_bitmask s' = Some (concat (masks_of s <$> done) ++ replicate k all_allowed ++ post) ∧ len todo * mask_positions num_speculative_tokens <= Z.of_nat k
}.

Lemma wp_mask_request s items done id z todo c s' :
  maskable s items → items = done ++ id :: todo → masked s done (id :: todo) c s' →
  wp (mask_request dumps future_done compile_grammar reasoner requests spec c (id, z)) (λ c' s2, masked s (done ++ [id]) todo c' s2) s'.
Proof.
  intros [Hnd Hst Hdr Hobj] Hitems [Hgr Htodo -> (post & k & HT & Hk)]. assert (id ∈ items) as Hin by (rewrite Hitems; apply elem_of_app; right; by left).
  destruct (Hst id Hin) as (request & h & r & g & (H1 & H2 & H3 & H4) & Hok). destruct (Hdr id Hin) as [Hd1 Hd2].
  unfold mask_request. apply wp_bind. cbn [fst]. eapply wp_lift_outcome; [unfold dict_get; by rewrite H1|].
  assert (so_requests s' !! h = Some r) as Hr by (rewrite (Htodo id request h); [done|by left|done|done]).
  unfold len in Hk, Hd2. cbn [length] in Hk. change (default [] (spec !! id)) with (drafts_of id).
  set (positions := mask_positions num_speculative_tokens) in *. assert (positions <= Z.of_nat k ∧ Z.of_nat (length todo) * positions <= Z.of_nat k - positions) as [Hk1 Hk2] by nia.
  assert (k = (S (length (drafts_of id)) + (k - S (length (drafts_of id))))%nat) as Hsplit by lia. rewrite Hsplit, replicate_add, <- app_assoc in HT.
  eapply wp_mono; [by eapply (wp_mask_tokens h id all_allowed (drafts_of id))|]. cbn beta. intros c s2 (-> & ->).
  assert (concat (masks_of s <$> done ++ [id]) = concat (masks_of s <$> done) ++ request_masks all_allowed request r g (drafts_of id)) as Hcat.
  { rewrite fmap_app, concat_app. cbn. rewrite app_nil_r. by rewrite (masks_of_structured s id request h r g). }
  split.
  - intros h'. cbn. destruct (decide (h' = h)) as [->|Hne]; [|rewrite lookup_insert_ne by done; apply Hgr]. rewrite lookup_insert_eq, H3. cbn. f_equal.
    unfold asked. by destruct reasoner, (reasoning_ended r).
  - intros id' request' h' Hin' Hreq' Hh'. cbn. rewrite lookup_insert_ne; [apply (Htodo id' request'); [by right|done|done]|]. intros ->.
    assert (id = id') as ->; [|].
    { apply (Hobj id id' request request' h'); [done| |done|done|done|done]. rewrite Hitems. apply elem_of_app. right. by right. }
    rewrite Hitems in Hnd. apply NoDup_app in Hnd as (_ & _ & [Hno _]%NoDup_cons). done.
  - rewrite Hcat. unfold len. rewrite length_app, length_request_masks. lia.
  - exists post, (k - S (length (drafts_of id)))%nat. split; [cbn; by rewrite Hcat, <- app_assoc|]. unfold len. lia.
Qed.

Lemma wp_grammar_bitmask s ids :
  ids ≠ ∅ → maskable s (sorted_items ids).*1 → is_Some (backend s) → len (sorted_items ids) <= max_num_seqs →
  let rows := Z.to_nat (max_num_seqs * mask_positions num_speculative_tokens) in
  length (allocate_token_bitmask (max_num_seqs * mask_positions num_speculative_tokens)) = rows →
  (∀ T, T = default (allocate_token_bitmask (max_num_seqs * mask_positions num_speculative_tokens)) (_grammar_bitmask s) → length T = rows ∧ Forall (λ row, length row = width) T) →
  wp (grammar_bitmask dumps future_done compile_grammar reasoner max_num_seqs num_speculative_tokens allocate_token_bitmask requests ids spec)
    (λ res s', res = Some (concat (masks_of s <$> (sorted_items ids).*1)) ∧ same_grammars s s') s.
Proof.
  intros Hids Hmask [be Hbe] Hlen rows Hrows HT. unfold grammar_bitmask. rewrite decide_False by done. apply wp_bind, wp_get, wp_bind.
  set (T := default _ (_grammar_bitmask s)) in HT. destruct (HT T eq_refl) as [HTl HTw]. rewrite Hbe.
  assert (wp (match _grammar_bitmask s, Some be with Some _, _ => mret tt | None, None => raise AssertionError
     | None, Some _ => modify (set_bitmask (Some (allocate_token_bitmask (max_num_seqs * mask_positions num_speculative_tokens)))) end)
     (λ _ s1, s1 = set_bitmask (Some T) s) s) as Hstart.
  { unfold T. destruct (_grammar_bitmask s) as [T0|] eqn:E; [|by apply wp_modify]. apply wp_ret. destruct s. cbn in *. by rewrite E. }
  eapply wp_mono; [exact Hstart|]. cbn beta. intros _ s1 ->. apply wp_bind, wp_modify. cbn [_grammar_bitmask set_bitmask fmap option_fmap].
  set (S := sorted_items ids) in *. set (n := Z.to_nat (len S * mask_positions num_speculative_tokens)).
  assert (full_mask <$> take n T = replicate n all_allowed) as Hfull.
  { apply list_eq. intros i. rewrite list_lookup_fmap. destruct (decide (i < n)%nat) as [Hi|Hi].
    - rewrite lookup_take_lt by done. rewrite lookup_replicate_2 by done.
      assert (i < length T)%nat as Hi2 by (rewrite HTl; unfold rows, n, len in *; assert (0 < mask_positions num_speculative_tokens ∨ mask_positions num_speculative_tokens <= 0) as [?|?] by lia; [nia|nia]).
      destruct (lookup_lt_is_Some_2 T i Hi2) as [row Hrow]. rewrite Hrow. cbn. f_equal. rewrite Forall_lookup in HTw. specialize (HTw i row Hrow).
      unfold full_mask, all_allowed. rewrite <- HTw. clear. induction row as [|x row IH]; [done|]. cbn. by rewrite IH.
    - rewrite lookup_take_ge by lia. symmetry. apply lookup_ge_None. rewrite length_replicate. lia. }
  apply wp_bind. eapply wp_mono; [apply (wp_fold_each (λ done todo c s', masked s done.*1 todo.*1 c s')) with (Q := λ c s', masked s S.*1 [] c s')|].
  - split; [done|by intros|done|]. exists (drop n T), n. split; [cbn; unfold fill_rows; by rewrite Hfull|]. unfold n, len. rewrite length_fmap. lia.
  - intros done [id z] todo c s' HS Hm. rewrite fmap_app. cbn [fmap list_fmap fst] in *. eapply (wp_mask_request s S.*1); [done|rewrite HS, fmap_app; reflexivity|done].
  - done.
  - cbn beta. intros c s' [Hgr _ -> (post & k & HT' & _)]. apply wp_bind, wp_get, wp_ret. split; [|done]. f_equal. rewrite HT'. cbn [default id].
    set (R := concat _). unfold slice_to, slice_bound, len, id. case_decide as Hc.
    + rewrite decide_False by lia. rewrite Nat2Z.id, take_app_le by lia. by apply take_ge.
    + rewrite !length_app in Hc. assert (length (replicate k all_allowed ++ post) = 0%nat) as E by (rewrite length_app; lia). apply length_zero_iff_nil in E. by rewrite E, app_nil_r.
Qed.
End bitmask.
End masks.
