(* ===== verification/GrammarTheorems.v ===== *)
(** Structured outputs from the manager to the logits: the rows of a structured request are
    masked by its grammar after each of its drafts, and the grammars are left where they
    were; but a guidance grammar does not take the end of the text back. *)
From Stdlib Require Import ZArith QArith Lia.
From stdpp Require Import base strings countable gmap sets list sorting.
From S2P Require Import Prelude Request SchedulerData Arrays BlockTable BatchUpdate InputBatch InputBatchFacts ModelRunner StepInputs ExecuteModel GrammarMask StructuredOutput GrammarManager GrammarFacts BatchHistory WorkerRun WorkerSamples WorkerTheorems PartTheorems.
Local Open Scope Z_scope.

(** * From the manager to the logits *)
Lemma lookup_concat_start {A} (ls : list (list A)) (ns : list Z) q l j :
  (λ l, Z.of_nat (length l)) <$> ls = ns → ls !! q = Some l → (j < length l)%nat → concat ls !! (Z.to_nat (start_of ns q) + j)%nat = l !! j.
Proof.
  intros <-. revert q. induction ls as [|l0 ls IH]; intros q Hq Hj; [done|]. destruct q as [|q]; cbn [concat].
  - injection Hq as ->. unfold start_of. cbn. by apply lookup_app_l.
  - cbn in Hq. assert (start_of ((λ l, Z.of_nat (length l)) <$> l0 :: ls) (S q) = Z.of_nat (length l0) + start_of ((λ l, Z.of_nat (length l)) <$> ls) q) as ->.
    { unfold start_of. cbn [fmap list_fmap take]. by rewrite zsum_cons. }
    assert (0 <= start_of ((λ l, Z.of_nat (length l)) <$> ls) q) by (apply start_of_nonneg; intros n (x & -> & _)%list_elem_of_fmap; lia).
    rewrite lookup_app_r by lia. rewrite <- (IH q Hq Hj). f_equal. lia.
Qed.

(** C19: the logits of a step are masked by the grammars: for a backend whose grammars
    keep the contract [GrammarLaws] (that of xgrammar does; those of guidance and outlines
    do not, because a rollback does not undo their end), and for a step with structured
    requests whose grammars accept their drafts ([maskable]), the manager raises
    nothing and leaves every grammar where it was; and its bitmask, brought to the
    order of the batch by the worker, has for every structured request in the row of its
    [j]-th token the mask of its grammar after the first [j] drafts (everything is
    allowed once it has terminated, and while the reasoning lasts), and masks no row of
    another request. *)
Theorem logits_masked_by_grammars {B} `{Gr : !Grammar B} {max_rollback} `{GL : !@GrammarLaws B Gr max_rollback} dumps future_done compile_grammar reasoner
    max_num_seqs num_speculative_tokens allocate_token_bitmask requests width (s : Manager B) o b ids :
  structured_output_request_ids o ≠ ∅ → is_Some (backend s) →
  maskable num_speculative_tokens requests (scheduled_spec_decode_tokens o) s (sorted_items (structured_output_request_ids o)).*1 →
  len (sorted_items (structured_output_request_ids o)) <= max_num_seqs →
  let rows := Z.to_nat (max_num_seqs * mask_positions num_speculative_tokens) in
  let allocated := allocate_token_bitmask (max_num_seqs * mask_positions num_speculative_tokens) in
  length allocated = rows →
  length (default allocated (_grammar_bitmask s)) = rows ∧ Forall (λ row, length row = width) (default allocated (_grammar_bitmask s)) →
  index_ok (req_id_to_index b) (_req_ids (slots b)) → req_id_list b = Ok ids →
  (∀ id, is_Some (structured_output_request_ids o !! id) → id ∈ ids) →
  wp (grammar_bitmask dumps future_done compile_grammar reasoner max_num_seqs num_speculative_tokens allocate_token_bitmask requests
        (structured_output_request_ids o) (scheduled_spec_decode_tokens o))
    (λ res s', same_grammars s s' ∧ ∃ bitmask M out, res = Some bitmask ∧
      apply_grammar_bitmask o bitmask width (Z.to_nat (zsum (mask_rows o <$> ids))) b = Ok (M, out) ∧
      (∀ id i j, is_Some (structured_output_request_ids o !! id) → ids !! i = Some id → (j < Z.to_nat (mask_rows o id))%nat →
        M !! logit_row o ids i j = masks_of reasoner requests (scheduled_spec_decode_tokens o) width s id !! j) ∧
      ∀ z, z ∈ out ↔ ∃ id i j, is_Some (structured_output_request_ids o !! id) ∧ ids !! i = Some id ∧ (j < Z.to_nat (mask_rows o id))%nat ∧ z = Z.of_nat (logit_row o ids i j)) s.
Proof.
  intros Hne Hbe Hmask Hlen rows allocated Hal HT Hix Hids Hin. eapply wp_mono; [by apply (wp_grammar_bitmask dumps future_done compile_grammar reasoner max_num_seqs num_speculative_tokens allocate_token_bitmask requests (scheduled_spec_decode_tokens o) width s); [..|intros T ->]|].
  cbn beta. intros res s' [-> Hgr]. split; [done|]. set (S := (sorted_items (structured_output_request_ids o)).*1) in *. set (bitmask := concat _).
  assert (∀ id, id ∈ S → Z.of_nat (length (masks_of reasoner requests (scheduled_spec_decode_tokens o) width s id)) = mask_rows o id) as Hrow.
  { intros id Hid. destruct (mk_structured _ _ _ _ _ Hmask id Hid) as (request & h & r & g & Hst & _). rewrite (masks_of_structured _ _ _ _ _ _ _ _ _ _ Hst), length_request_masks.
    unfold mask_rows, num_spec_tokens, drafts_of, len. lia. }
  assert ((λ l, Z.of_nat (length l)) <$> (masks_of reasoner requests (scheduled_spec_decode_tokens o) width s <$> S) = mask_rows o <$> S) as Hrows.
  { rewrite <- list_fmap_compose. apply list_fmap_ext. intros i id Hid. apply Hrow. by eapply list_elem_of_lookup_2. }
  destruct (apply_grammar_bitmask_spec o b ids bitmask width Hix Hids Hin) as (M & out & HM & [_ G2 _ G4]).
  { fold S. rewrite <- Hrows. unfold bitmask. clear. induction S as [|id l IH]; [done|]. cbn [fmap list_fmap concat]. rewrite zsum_cons, length_app. lia. }
  exists bitmask, M, out. split_and!; [done|done| |done].
  intros id i j Hst Hi Hj. apply elem_of_sorted_items in Hst. fold S in Hst. pose proof Hst as [q Hq]%list_elem_of_lookup_1.
  rewrite (G2 q id i j Hq Hi Hj). apply lookup_concat_start; [exact Hrows|by rewrite list_lookup_fmap, Hq|]. specialize (Hrow id Hst). lia.
Qed.

(** * The guidance backend *)
Lemma sorted_singleton (id : string) : sorted_items {[ id := 0 ]} = [(id, 0)].
Proof. unfold sorted_items. by rewrite map_to_list_singleton. Qed.

Section guidance.
Context {L : Type} (lib : LLMatcher L) (eos_token : Z).
Context (dumps : handle → string) (future_done : handle → bool) (compile_grammar : StructuredOutputKey → outcome (GuidanceGrammar L)).
Context (allocate_token_bitmask : Z → list (list Z)) (requests : gmap string Request) (id : string) (h : handle) (width : nat).
Abbreviation bitmask_of := (grammar_bitmask (Gr := GuidanceGrammar_grammar lib eos_token) dumps future_done compile_grammar None 1 (Some 1) allocate_token_bitmask
  requests {[ id := 0 ]}).

(** The manager with the one grammar [g] and a bitmask of two rows. *)
Definition with_grammar (g : GuidanceGrammar L) (row0 row1 : list Z) : Manager (GuidanceGrammar L) :=
  mkManager _ (Some "guidance"%string) {[ h := mkStructuredOutputRequest _ (Compiled g) None ]} (Some [row0; row1]).

Lemma wp_with_grammar {A} (m : M (GuidanceGrammar L) A) g x g' row0 row1 Q :
  m g = (Ok x, g') → Q x (with_grammar g' row0 row1) → wp (on_grammar dumps future_done compile_grammar h m) Q (with_grammar g row0 row1).
Proof.
  intros Hm HQ. eapply wp_on_grammar; [apply lookup_singleton_eq|done|exact Hm|]. unfold set_so_requests. cbn. by rewrite insert_singleton_eq.
Qed.
Lemma wp_one_bitmask drafts g row0 row1 Q (request : Request) :
  requests !! id = Some request → structured_output_request request = Some h →
  wp (mask_tokens (Gr := GuidanceGrammar_grammar lib eos_token) dumps future_done compile_grammar None 0 id (default [] (drafts !! id)) request)
    (λ c s', let tensor := default [] (_grammar_bitmask s') in Q (Some (if decide (c < len tensor) then slice_to c tensor else tensor)) s')
    (with_grammar g (full_mask row0) (full_mask row1)) →
  wp (bitmask_of drafts) Q (with_grammar g row0 row1).
Proof.
  intros Hreq Hh H. unfold grammar_bitmask. rewrite decide_False by apply map_non_empty_singleton. apply wp_bind, wp_get, wp_bind, wp_ret, wp_bind, wp_modify.
  rewrite sorted_singleton. cbn [fold_each]. apply wp_bind, wp_bind. unfold mask_request. apply wp_bind. cbn [fst]. eapply wp_lift_outcome; [unfold ModelRunner.dict_get; by rewrite Hreq|].
  eapply wp_mono; [exact H|]. cbn beta. intros c s' HQ. by apply wp_ret, wp_bind, wp_get, wp_ret.
Qed.

(** The matcher at [m] accepts the end of the text and takes it back. *)
Record takes_eos (m m1 : L) : Prop := {
  te_running : is_stopped lib m = false;
  te_accepts : consume_tokens lib [eos_token] m = (true, m1);
  te_rollback : ll_rollback lib 1 m1 = m;
  te_no_error : has_error lib m = false ∧ has_error lib m1 = false
}.

Lemma guidance_fills m t : has_error lib m = false → guidance_fill_bitmask lib (mkGuidanceGrammar L m false t) = (Ok (ll_bitmask lib m), mkGuidanceGrammar L m false t).
Proof. intros He. unfold guidance_fill_bitmask, mbind, M_bind, get, check_error, modify, mret, M_ret. cbn. by rewrite He. Qed.
Lemma guidance_accepts_eos m m1 t : takes_eos m m1 → guidance_accept_tokens lib eos_token [eos_token] (mkGuidanceGrammar L m false t) = (Ok true, mkGuidanceGrammar L m1 false true).
Proof.
  intros [H1 H2 H3 [H4 H5]]. unfold guidance_accept_tokens. rewrite decide_True by by left. unfold mbind, M_bind, get, check_error, modify, put, mret, M_ret. cbn. rewrite H1, H2. cbn. by rewrite H5.
Qed.
Lemma guidance_rolls_back m m1 t : takes_eos m m1 → guidance_rollback lib 1 (mkGuidanceGrammar L m1 false t) = (Ok tt, mkGuidanceGrammar L m false t).
Proof. intros [H1 H2 H3 [H4 H5]]. unfold guidance_rollback, mbind, M_bind, check_error, modify. cbn. by rewrite H3, H4. Qed.
End guidance.

(** C20: the guidance backend does not take the end of the text back: when the end of the
    text is among the drafts of a request and its grammar accepts it, the manager rolls
    the matcher back after it has filled the bitmask, but the grammar stays terminated;
    so at the next step, where nothing has been generated, every token is allowed,
    although the matcher is where it was and would allow only its own tokens. *)
Theorem guidance_forgets_rollback {L} (lib : LLMatcher L) eos_token dumps future_done compile_grammar allocate_token_bitmask requests id h width (request : Request) m m1 row0 row1 :
  takes_eos lib eos_token m m1 → requests !! id = Some request → structured_output_request request = Some h →
  length row0 = width → length row1 = width → length (ll_bitmask lib m) = width →
  let bitmask := grammar_bitmask (Gr := GuidanceGrammar_grammar lib eos_token) dumps future_done compile_grammar None 1 (Some 1) allocate_token_bitmask requests {[ id := 0 ]} in
  wp (first ← bitmask {[ id := [eos_token] ]}; second ← bitmask ∅; mret (first, second))
    (λ res s, res = (Some [ll_bitmask lib m; all_allowed width], Some [all_allowed width]) ∧ ∃ row0' row1', s = with_grammar h (mkGuidanceGrammar L m false true) row0' row1')
    (with_grammar h (mkGuidanceGrammar L m false false) row0 row1).
Proof.
  intros Heos Hreq Hh Hr0 Hr1 Hm bitmask. pose proof Heos as [_ _ _ [He _]].
  assert (∀ row, length row = width → full_mask row = all_allowed width) as Hfull.
  { intros row <-. unfold full_mask, all_allowed. clear. induction row as [|x row IH]; [done|]. cbn. by rewrite IH. }
  apply wp_bind. eapply (wp_one_bitmask lib eos_token _ _ _ _ _ id h _ _ _ _ _ request Hreq Hh). rewrite lookup_singleton_eq. change (default [] (Some [eos_token])) with [eos_token].
  unfold mask_tokens. rewrite Hh. apply wp_bind, wp_ret, wp_bind. cbn [fmap list_fmap app fold_each]. rewrite (Hfull row0 Hr0), (Hfull row1 Hr1).
  apply wp_bind. unfold mask_token at 1. apply wp_bind, wp_bind. eapply wp_with_grammar; [reflexivity|]. cbn [terminated].
  apply wp_bind. eapply wp_with_grammar; [by apply guidance_fills|]. apply wp_bind. unfold write_row. apply wp_bind, wp_get, wp_put.
  change (set_bitmask _ _) with (with_grammar h (mkGuidanceGrammar L m false false) (ll_bitmask lib m) (all_allowed width)).
  apply wp_bind. eapply wp_with_grammar; [by eapply guidance_accepts_eos|]. apply wp_ret, wp_ret.
  apply wp_bind. unfold mask_token at 1. apply wp_bind, wp_bind. eapply wp_with_grammar; [reflexivity|]. cbn [terminated]. apply wp_ret, wp_ret, wp_ret.
  rewrite decide_True by lia. apply wp_bind. eapply wp_with_grammar; [by eapply guidance_rolls_back|]. apply wp_ret.
  apply wp_bind. eapply (wp_one_bitmask lib eos_token _ _ _ _ _ id h _ _ _ _ _ request Hreq Hh). rewrite lookup_empty. change (default [] None) with (@nil Z).
  unfold mask_tokens. rewrite Hh. apply wp_bind, wp_ret, wp_bind. cbn [fmap list_fmap app fold_each].
  apply wp_bind. unfold mask_token at 1. apply wp_bind, wp_bind. eapply wp_with_grammar; [reflexivity|]. cbn [terminated]. apply wp_ret, wp_ret, wp_ret.
  rewrite decide_False by lia. apply wp_bind, wp_ret, wp_ret, wp_ret. split; [|by do 2 eexists].
  cbn [with_grammar _grammar_bitmask default]. f_equal. f_equal. by rewrite (Hfull _ Hm).
Qed.

Definition structured_request (h : handle) : Request :=
  mkRequest (mkRequestParams "b" 0 0 0 (Some (Request.mkSamplingParams (Some 16) (Some h) None None None false None)) None None None (Some h) None [1; 2; 3] [] [] [])
    16 None RUNNING [] None [] [1; 2; 3] 0 [] 0 (-1) 0.
(** A matcher whose state are the tokens it has accepted. *)
Definition ll_sample : LLMatcher (list Z) :=
  mkLLMatcher _ (λ _, false) (λ ts l, (true, l ++ ts)) (λ ts _, len ts) (λ n l, take (length l - Z.to_nat n) l) (λ l, [len l]) (λ _, false) (λ _, []).
Lemma guidance_forgets_rollback_witness :
  wp (first ← grammar_bitmask (Gr := GuidanceGrammar_grammar ll_sample 2) (λ _, ""%string) (λ _, true) (λ _, Raise ValueError) None 1 (Some 1) (λ _, [])
        {[ "b"%string := structured_request 7 ]} {[ "b"%string := 0 ]} {[ "b"%string := [2] ]};
      second ← grammar_bitmask (Gr := GuidanceGrammar_grammar ll_sample 2) (λ _, ""%string) (λ _, true) (λ _, Raise ValueError) None 1 (Some 1) (λ _, [])
        {[ "b"%string := structured_request 7 ]} {[ "b"%string := 0 ]} ∅;
      mret (first, second))
    (λ res s, res = (Some [[3]; [-1]], Some [[-1]]) ∧ ∃ row0 row1, s = with_grammar 7 (mkGuidanceGrammar (list Z) [4; 5; 6] false true) row0 row1)
    (with_grammar 7 (mkGuidanceGrammar (list Z) [4; 5; 6] false false) [0] [0]).
Proof.
  apply (guidance_forgets_rollback ll_sample 2 (λ _, ""%string) (λ _, true) (λ _, Raise ValueError) (λ _, []) {[ "b"%string := structured_request 7 ]} "b"%string 7 1
    (structured_request 7) [4; 5; 6] [4; 5; 6; 2] [0] [0]).
  - by split.
  - apply lookup_singleton_eq.
  - reflexivity.
  - reflexivity.
  - reflexivity.
  - reflexivity.
Defined.

(** ** A step with one structured request *)
Definition matcher_sample : GrammarMatcher (list Z) :=
  mkGrammarMatcher _ (λ t l, if decide (t < 10) then (true, l ++ [t]) else (false, l)) (λ n l, take (length l - Z.to_nat n) l) (λ l, [len l; len l]) (λ _, false) (λ _, []).
Lemma matcher_sample_ok : matcher_ok matcher_sample 3.
Proof.
  assert (∀ ts x x', steps (matcher_step matcher_sample) ts x = Some x' → x' = x ++ ts) as H.
  { induction ts as [|t ts IH]; intros x x' Hs; [injection Hs as <-; by rewrite app_nil_r|]. cbn [steps] in Hs.
    destruct (matcher_step matcher_sample t x) as [y|] eqn:E; [|done]. unfold matcher_step in E. cbn in E. case_decide; [|done]. injection E as <-.
    apply IH in Hs. rewrite Hs. by rewrite <- app_assoc. }
  split.
  - intros t x x'. cbn. case_decide; by intros [= <-].
  - intros ts x x' ->%H _. cbn. unfold len. rewrite length_app, Nat2Z.id. replace (length x + length ts - length ts)%nat with (length x) by lia. by apply take_app_length.
Qed.
#[export] Instance matcher_sample_grammar : Grammar (XgrammarGrammar (list Z)) := XgrammarGrammar_grammar matcher_sample.
#[export] Instance matcher_sample_laws : @GrammarLaws (XgrammarGrammar (list Z)) matcher_sample_grammar 3 := xgrammar_laws matcher_sample 3 matcher_sample_ok.
Definition manager_sample : Manager (XgrammarGrammar (list Z)) :=
  mkManager _ (Some "xgrammar"%string) {[ 7 := mkStructuredOutputRequest _ (Compiled (mkXgrammarGrammar _ [8; 9] 2)) None ]} None.
Lemma logits_masked_by_grammars_witness :
  wp (grammar_bitmask (λ _, ""%string) (λ _, true) (λ _, Raise ValueError) None 2 (Some 3) (λ n, replicate (Z.to_nat n) [0; 0]) {[ "b"%string := structured_request 7 ]}
        (structured_output_request_ids structured_sample) (scheduled_spec_decode_tokens structured_sample))
    (λ res s', same_grammars manager_sample s' ∧ ∃ bitmask M out, res = Some bitmask ∧
      apply_grammar_bitmask structured_sample bitmask 2 5 two_requests = Ok (M, out) ∧ M !! 3%nat = Some [2; 2] ∧ M !! 4%nat = Some [3; 3]) manager_sample.
Proof.
  eapply wp_mono.
  - apply (logits_masked_by_grammars (λ _, ""%string) (λ _, true) (λ _, Raise ValueError) None 2 (Some 3) (λ n, replicate (Z.to_nat n) [0; 0]) {[ "b"%string := structured_request 7 ]} 2
      manager_sample structured_sample two_requests ["a"%string; "b"%string]).
    + by apply map_non_empty_singleton.
    + by eexists.
    + cbn [structured_output_request_ids structured_sample]. rewrite sorted_singleton. split.
      * apply NoDup_singleton.
      * intros id ->%list_elem_of_singleton. exists (structured_request 7), 7, (mkStructuredOutputRequest _ (Compiled (mkXgrammarGrammar _ [8; 9] 2)) None), (mkXgrammarGrammar _ [8; 9] 2).
        split; [split_and!; [apply lookup_singleton_eq|done|apply lookup_singleton_eq|done]|]. apply drafts_ok_steps. vm_compute. by eexists.
      * intros id ->%list_elem_of_singleton. vm_compute. done.
      * intros id1 id2 q1 q2 h ->%list_elem_of_singleton ->%list_elem_of_singleton. done.
    + cbn [structured_output_request_ids structured_sample]. by rewrite sorted_singleton.
    + reflexivity.
    + split; [reflexivity|]. by apply Forall_replicate.
    + pose proof (changing_ok float_sample new_batch_sample ∅ (new_batch_dense _ _ _) eq_refl _ _ _ two_requests_changed) as ([[_ H _ _ _] _] & _). exact H.
    + vm_compute. reflexivity.
    + intros id Hid. cbn in Hid. apply lookup_singleton_is_Some in Hid as <-. right. by left.
  - cbn beta. intros res s' (Hgr & bitmask & M & out & Hres & HM & Hrows & _). split; [exact Hgr|]. exists bitmask, M, out. split; [exact Hres|]. split; [exact HM|].
    split; [apply (Hrows "b"%string 1%nat 0%nat)|apply (Hrows "b"%string 1%nat 1%nat)]; first [by eexists|reflexivity|by vm_compute; lia].
Defined.
