(* ===== verification/Middleware.v ===== *)
(** The middleware of [src/middleware/src]: the tables it creates at its start
    ([database.py]), the queries of its routes ([database.py], [routes.py]) and the schemas
    they must answer with ([schemas.py]).  DuckDB is a parameter: [execute] runs one SQL
    statement, and [duckdb_ok] says what the code relies on.  A statement holds what the
    text of its SQL names; the operations that take the lock are single steps. *)
From Stdlib Require Import ZArith Lia.
From stdpp Require Import base strings countable gmap sets list.
From S2P Require Import Prelude.
Local Open Scope Z_scope.

(** * SQL *)
Inductive kind : Type := Table | Sequence | View.
#[export] Instance kind_eq_dec : EqDecision kind.
Proof. solve_decision. Defined.

(** The parameters bound to the [?] of a statement. *)
Inductive param : Type :=
  | PString (s : string)
  | PInt (n : Z)
  | PDate (year month : Z).

(** [CREATE TABLE IF NOT EXISTS] with the sequences its defaults draw from and the tables
    its foreign keys refer to; [CREATE SEQUENCE IF NOT EXISTS]; [CREATE OR REPLACE VIEW] over
    one relation; [INSERT]; [SELECT] with its conditions [column = ?] and, for a
    query that is ordered and limited, the ordering column and [LIMIT ?]. *)
Inductive statement : Type :=
  | CreateTable (name : string) (columns defaults references : list string)
  | CreateSequence (name : string)
  | CreateView (name : string) (columns : list string) (source : string)
  | Insert (table : string) (columns : list string)
  | Select (columns : list string) (source : string) (conditions : list string) (order_limit : option string).

(** The relations that a statement needs, and the one it creates. *)
Definition needs (st : statement) : list string :=
  match st with
  | CreateTable _ _ defaults references => defaults ++ references
  | CreateSequence _ => []
  | CreateView _ _ source => [source]
  | Insert table _ => [table]
  | Select _ source _ _ => [source]
  end.
Definition creates (st : statement) : option (string * kind) :=
  match st with
  | CreateTable name _ _ _ => Some (name, Table)
  | CreateSequence name => Some (name, Sequence)
  | CreateView name _ _ => Some (name, View)
  | _ => None
  end.
Definition inserts (st : statement) : bool := match st with Insert _ _ => true | _ => false end.
(** What a parameter stands for: the columns of an [INSERT], the conditions and the limit. *)
Definition placeholders (st : statement) : list string :=
  match st with
  | Insert _ columns => columns
  | Select _ _ conditions order_limit => conditions ++ match order_limit with Some _ => ["LIMIT"%string] | None => [] end
  | _ => []
  end.

Definition projects_table : statement := CreateTable "projects" ["project_id"%string] [] [].
Definition access_logs_sequence : statement := CreateSequence "seq_access_logs_id".
Definition access_logs_columns : list string :=
  ["access_logs_id"; "project_id"; "project_source"; "tokens_in"; "tokens_out"; "timestamp"]%string.
Definition access_logs_table : statement :=
  CreateTable "access_logs" access_logs_columns ["seq_access_logs_id"%string] ["projects"%string].
Definition erro_log_columns : list string := ["erro_id"; "project_id"; "inference_log"; "middleware_log"; "timestamp"]%string.
Definition recent_erro_log_view : statement := CreateView "recent_erro_log_view" erro_log_columns "erro_log".
Definition erro_log_sequence : statement := CreateSequence "seq_erro_log_id".
Definition erro_log_table : statement := CreateTable "erro_log" erro_log_columns ["seq_erro_log_id"%string] ["projects"%string].

(** * The database *)
Section database.
Context {db row : Type} (execute : statement → list param → M db (list row)).

Definition execute_all (l : list statement) : M db unit := for_each l (λ st, execute st [] ;; mret tt).

(** [init_db]: the statements in the order of the code. *)
Definition schema : list statement :=
  [projects_table; access_logs_sequence; access_logs_table; recent_erro_log_view; erro_log_sequence; erro_log_table].
Definition init_db : M db unit := execute_all schema.

Definition insert_usage (project_id project_source : string) (tokens_in tokens_out : Z) : M db unit :=
  execute (Insert "access_logs" ["project_id"; "project_source"; "tokens_in"; "tokens_out"]%string)
    [PString project_id; PString project_source; PInt tokens_in; PInt tokens_out] ;; mret tt.

(** [datetime(year, month, 1, ...)]. *)
Definition month_start (year month : Z) : outcome param :=
  if decide (1 <= year <= 9999 ∧ 1 <= month <= 12) then Ok (PDate year month) else Raise ValueError.

(** [if project_id]: an empty string is no filter. *)
Definition usage_query (project_id : option string) (start : param) : statement * list param :=
  let filter := match project_id with Some id => if decide (id = EmptyString) then None else Some id | None => None end in
  (Select ["project_id"; "tokens_usage"; "last_update"]%string "tokens_usage_view"
     ("month"%string :: match filter with Some _ => ["project_id"%string] | None => [] end) None,
   start :: match filter with Some id => [PString id] | None => [] end).
Definition query_usage_month (project_id : option string) (year month : Z) : M db (list row) :=
  start ← lift_outcome (month_start year month);
  let '(st, params) := usage_query project_id start in execute st params.

(** [is not None]; the parameter of the condition is put before the limit. *)
Definition errors_query (n : Z) (project_id : option string) : statement * list param :=
  (Select erro_log_columns "recent_erro_log_view" match project_id with Some _ => ["project_id"%string] | None => [] end (Some "timestamp"%string),
   match project_id with Some id => [PString id] | None => [] end ++ [PInt n]).
Definition get_last_error_logs (n : Z) (project_id : option string) : M db (list row) :=
  let '(st, params) := errors_query n project_id in execute st params.

(** * The routes *)

(** The values the coroutines and the handlers return. *)
Inductive value : Type :=
  | VNone
  | VRows (l : list row)
  | VCoroutine
  | VDict (key : string) (v : value).

(** [await asyncio.to_thread(f, ...)] runs [f] in a thread; for a coroutine function the
    call only makes a coroutine, which nothing runs. *)
Definition to_thread (f : M db value) : M db value := f.
Definition call_coroutine_function : M db value := mret VCoroutine.

(** The function hands itself to the thread, where [insert_usage] is meant. *)
Definition async_insert_usage (project_id project_source : string) (tokens_in tokens_out : Z) : M db value :=
  to_thread call_coroutine_function ;; mret VNone.
(** There is no [return]. *)
Definition async_get_last_error_logs (n : Z) (project_id : option string) : M db value :=
  to_thread (l ← get_last_error_logs n project_id; mret (VRows l)) ;; mret VNone.
Definition async_query_usage_month (project_id : option string) (year month : Z) : M db value :=
  to_thread (l ← query_usage_month project_id year month; mret (VRows l)).

Definition get_errors (n : Z) (project_id : option string) : M db value :=
  await_result ← async_get_last_error_logs n project_id; mret (VDict "errors" await_result).
Definition get_usage (project_id : option string) (year month : Z) : M db value :=
  result ← async_query_usage_month project_id year month; mret (VDict "usage" result).

(** The parameters that the declarations of the routes let through. *)
Definition errors_request (n : Z) : Prop := 0 < n.
Definition usage_request (year month : Z) : Prop := 2000 <= year <= 2100 ∧ 1 <= month <= 12.

(** The schemas: [errors] is a list of [ErrorLog], [usage] a list of [UsageLog]; the check
    of an element is left to the parameter of the response. *)
Definition is_response (field : string) (element_ok : row → bool) (v : value) : bool :=
  match v with
  | VDict key (VRows l) => bool_decide (key = field) && forallb element_ok l
  | _ => false
  end.
Definition ErrorsResponse : (row → bool) → value → bool := is_response "errors".
Definition UsageResponse : (row → bool) → value → bool := is_response "usage".
End database.
Arguments value : clear implicits.

(** * What the code relies on *)

(** The catalog of a database, and the rows of its tables. *)
Section contract.
Context {db row : Type} (execute : statement → list param → M db (list row)).
Context (catalog : db → gmap string kind) (rows_in : db → string → list row).

(** The documented behaviour of DuckDB: a statement over a relation that does not exist
    raises a catalog error and does nothing; one that creates a relation creates it,
    unless it is there, when what it needs is there and its name does not belong to a
    relation of another kind; no other relation is created, and only [INSERT] adds rows. *)
Record duckdb_ok : Prop := {
  dk_missing : ∀ st ps d name, name ∈ needs st → catalog d !! name = None → execute st ps d = (Raise CatalogException, d);
  dk_create : ∀ st d name k, creates st = Some (name, k) → (∀ n, n ∈ needs st → is_Some (catalog d !! n)) →
    (catalog d !! name = None ∨ catalog d !! name = Some k) →
    ∃ d', execute st [] d = (Ok [], d') ∧ catalog d' = <[name := k]> (catalog d);
  dk_catalog : ∀ st ps d name, (∀ k, creates st ≠ Some (name, k)) → catalog (execute st ps d).2 !! name = catalog d !! name;
  dk_rows : ∀ st ps d table, inserts st = false → rows_in (execute st ps d).2 table = rows_in d table
}.
Context (Hok : duckdb_ok).
Implicit Types (d : db) (st : statement) (name : string).

(** ** The first start *)

(** A database that holds at most what the statements before the view create. *)
Definition early : list (string * kind) := [("projects"%string, Table); ("seq_access_logs_id"%string, Sequence); ("access_logs"%string, Table)].
Definition early_database d : Prop := ∀ name k, catalog d !! name = Some k → (name, k) ∈ early.

Lemma early_create d st name k : (name, k) ∈ early → creates st = Some (name, k) → early_database d →
  (∀ n, n ∈ needs st → is_Some (catalog d !! n)) →
  ∃ d', execute st [] d = (Ok [], d') ∧ early_database d' ∧ catalog d' = <[name := k]> (catalog d).
Proof.
  intros Hin Hst Hd Hneeds. assert (∀ k', (name, k') ∈ early → k' = k) as Hk.
  { intros k' Hk'. unfold early in *. repeat (apply elem_of_cons in Hin as [Hin|Hin]; [simplify_eq;
      repeat (apply elem_of_cons in Hk' as [Hk'|Hk']; [by simplify_eq|]); by apply elem_of_nil in Hk'|]). by apply elem_of_nil in Hin. }
  destruct (dk_create Hok st d name k Hst Hneeds) as (d' & Hrun & Hc).
  { destruct (catalog d !! name) as [k'|] eqn:E; [right; f_equal; by apply Hk, Hd|by left]. }
  exists d'. split_and!; [done| |done]. intros n k'. rewrite Hc. intros [[<- <-]|[_ Hn]]%lookup_insert_Some; [done|by apply Hd].
Qed.

(** [init_db] fails at the view, and leaves a database of the same kind. *)
Lemma init_db_early d : early_database d → ∃ d', init_db execute d = (Raise CatalogException, d') ∧ early_database d'.
Proof.
  intros Hd. unfold init_db, execute_all, schema. cbn [for_each].
  destruct (early_create d projects_table "projects" Table) as (d1 & H1 & Hd1 & C1); [by left|done|done|intros n Hn; by apply elem_of_nil in Hn|].
  destruct (early_create d1 access_logs_sequence "seq_access_logs_id" Sequence) as (d2 & H2 & Hd2 & C2); [by right; left|done|done|intros n Hn; by apply elem_of_nil in Hn|].
  destruct (early_create d2 access_logs_table "access_logs" Table) as (d3 & H3 & Hd3 & C3); [by right; right; left|done|done| |].
  { intros n Hn. cbn in Hn. rewrite C2, C1. apply elem_of_cons in Hn as [->|Hn]; [rewrite lookup_insert_eq; by eexists|].
    apply list_elem_of_singleton in Hn as ->. rewrite lookup_insert_ne, lookup_insert_eq by done. by eexists. }
  exists d3. split; [|done]. unfold mbind, M_bind. rewrite H1. cbn. rewrite H2. cbn. rewrite H3. cbn.
  rewrite (dk_missing Hok recent_erro_log_view [] d3 "erro_log"); [done|by left|].
  destruct (catalog d3 !! "erro_log"%string) as [k|] eqn:E; [|done]. apply Hd3 in E. unfold early in E.
  repeat (apply elem_of_cons in E as [E|E]; [done|]). by apply elem_of_nil in E.
Qed.

(** Starting the server again and again. *)
Fixpoint restarted (n : nat) d : db := match n with O => d | S n => (init_db execute (restarted n d)).2 end.
Lemma restarted_early n d : early_database d → early_database (restarted n d).
Proof. intros Hd. induction n as [|n IH]; [done|]. cbn [restarted]. destruct (init_db_early _ IH) as (d' & Hrun & Hd'). by rewrite Hrun. Qed.

(** ** The requests *)

(** A server at work: starts, logged usages and requests. *)
Inductive serves d0 : db → Prop :=
  | sv_start : serves d0 d0
  | sv_init d : serves d0 d → serves d0 (init_db execute d).2
  | sv_log d id source tokens_in tokens_out : serves d0 d → serves d0 (async_insert_usage (row := row) id source tokens_in tokens_out d).2
  | sv_errors d n project_id : serves d0 d → errors_request n → serves d0 (get_errors execute n project_id d).2
  | sv_usage d project_id year month : serves d0 d → usage_request year month → serves d0 (get_usage execute project_id year month d).2.

(** What no statement of the server changes. *)
Definition kept d0 d : Prop :=
  catalog d !! "tokens_usage_view"%string = catalog d0 !! "tokens_usage_view"%string ∧ ∀ table, rows_in d table = rows_in d0 table.
Lemma kept_execute d0 d st ps : kept d0 d → inserts st = false → (∀ k, creates st ≠ Some ("tokens_usage_view"%string, k)) →
  kept d0 (execute st ps d).2.
Proof. intros [H1 H2] Hi Hc. split; [by rewrite (dk_catalog Hok)|]. intros table. by rewrite (dk_rows Hok). Qed.
Lemma kept_all d0 d l : kept d0 d → (∀ st, st ∈ l → inserts st = false ∧ ∀ k, creates st ≠ Some ("tokens_usage_view"%string, k)) →
  kept d0 (execute_all execute l d).2.
Proof.
  unfold execute_all. revert d. induction l as [|st l IH]; intros d Hd Hl; [done|]. cbn [for_each]. unfold mbind, M_bind.
  destruct (Hl st ltac:(by left)) as [Hi Hc]. pose proof (kept_execute d0 d st [] Hd Hi Hc) as Hd'.
  destruct (execute st [] d) as [[r|e] d']; [|done]. cbn in *. apply IH; [done|]. intros st' Hst'. apply Hl. by right.
Qed.
Lemma month_start_request year month : usage_request year month → month_start year month = Ok (PDate year month).
Proof. intros [H1 H2]. unfold month_start. rewrite decide_True by lia. done. Qed.

Lemma serves_kept d0 d : serves d0 d → kept d0 d.
Proof.
  induction 1 as [|d _ IH|d id source ti to _ IH|d n p _ IH _|d p y m _ IH Hr].
  - by split.
  - apply kept_all; [done|]. intros st Hst. unfold schema in Hst.
    repeat (apply elem_of_cons in Hst as [->|Hst]; [by split|]). by apply elem_of_nil in Hst.
  - done.
  - unfold get_errors, async_get_last_error_logs, to_thread, get_last_error_logs, errors_query, mbind, M_bind.
    pose proof (kept_execute d0 d (errors_query n p).1 (errors_query n p).2 IH eq_refl ltac:(done)) as Hk. cbn in *.
    destruct (execute _ _ d) as [[r|e] d']; done.
  - unfold get_usage, async_query_usage_month, to_thread, query_usage_month, mbind, M_bind, lift_outcome. rewrite (month_start_request _ _ Hr).
    pose proof (kept_execute d0 d (usage_query p (PDate y m)).1 (usage_query p (PDate y m)).2 IH eq_refl ltac:(done)) as Hk.
    destruct (usage_query p (PDate y m)) as [st ps]. cbn in *. destruct (execute st ps d) as [[r|e] d']; done.
Qed.
End contract.
