(* ===== verification/MiddlewareTheorems.v ===== *)
(** The middleware does not work: it cannot start on a database of its own, and on a
    database that was prepared elsewhere its routes answer nothing. *)
From Stdlib Require Import ZArith Lia.
From stdpp Require Import base strings countable gmap sets list.
From S2P Require Import Prelude Middleware.
Local Open Scope Z_scope.

(** C35: the server never starts on a database that it has made itself: on an empty database
    [init_db] raises, because it creates the view of the error log before the table,
    and every further start, with the tables the earlier ones have left, raises again. *)
Theorem middleware_never_starts {db row} (execute : statement → list param → M db (list row)) catalog rows_in (d : db) n :
  duckdb_ok execute catalog rows_in → catalog d = ∅ → (init_db execute (restarted execute n d)).1 = Raise CatalogException.
Proof.
  intros Hok Hd. assert (early_database catalog d) as He by (intros name k; by rewrite Hd, lookup_empty).
  by destruct (init_db_early execute catalog rows_in Hok _ (restarted_early execute catalog rows_in Hok n d He)) as (d' & -> & _).
Qed.

(** C36: no answer has the type its route declares, and nothing is recorded: in every state
    that a server reaches from a database without the view [tokens_usage_view], which no
    statement of the code creates, every permitted request for the usage raises; what
    the request for the error log returns is never an [ErrorsResponse], because the coroutine drops the
    rows it has read; and all tables have the rows they had, however often usage was logged,
    because the coroutine makes a coroutine of itself instead of inserting. *)
Theorem middleware_answers_nothing {db row} (execute : statement → list param → M db (list row)) catalog rows_in (d0 d : db) :
  duckdb_ok execute catalog rows_in → catalog d0 !! "tokens_usage_view"%string = None → serves execute d0 d →
  (∀ project_id year month, usage_request year month → (get_usage execute project_id year month d).1 = Raise CatalogException) ∧
  (∀ n project_id element_ok v, (get_errors execute n project_id d).1 = Ok v → ErrorsResponse element_ok v = false) ∧
  (∀ table, rows_in d table = rows_in d0 table).
Proof.
  intros Hok Hv Hs. destruct (serves_kept execute catalog rows_in Hok d0 d Hs) as [Hc Hr]. split_and!; [| |done].
  - intros p y m Hreq. unfold get_usage, async_query_usage_month, to_thread, query_usage_month, mbind, M_bind, lift_outcome. rewrite (month_start_request _ _ Hreq).
    unfold usage_query. rewrite (dk_missing _ _ _ Hok _ _ d "tokens_usage_view"); [done|by left|by rewrite Hc].
  - intros n p ok v. unfold get_errors, async_get_last_error_logs, to_thread, mbind, M_bind. destruct (get_last_error_logs execute n p d) as [[l|e] d']; [|done].
    by intros [= <-].
Qed.

(** ** A database *)
Record store : Type := mkStore { st_catalog : gmap string kind; st_rows : gmap string (list (list param)) }.
Definition rows_of_table (d : store) (table : string) : list (list param) := default [] (st_rows d !! table).
Definition run_statement (st : statement) (ps : list param) (d : store) : outcome (list (list param)) * store :=
  if existsb (λ n, bool_decide (st_catalog d !! n = None)) (needs st) then (Raise CatalogException, d)
  else match st with
       | Insert table _ => (Ok [], mkStore (st_catalog d) (<[table := rows_of_table d table ++ [ps]]> (st_rows d)))
       | Select _ source _ _ => (Ok (rows_of_table d source), d)
       | _ =>
         match creates st with
         | Some (name, k) =>
           if decide (st_catalog d !! name = None ∨ st_catalog d !! name = Some k) then (Ok [], mkStore (<[name := k]> (st_catalog d)) (st_rows d))
           else (Raise CatalogException, d)
         | None => (Ok [], d)
         end
       end.
Lemma run_statement_ok : duckdb_ok run_statement st_catalog rows_of_table.
Proof.
  split.
  - intros st ps d name Hn Hd. unfold run_statement. assert (existsb (λ n, bool_decide (st_catalog d !! n = None)) (needs st) = true) as ->; [|done].
    apply existsb_exists. exists name. split; [by apply list_elem_of_In|]. by apply bool_decide_eq_true_2.
  - intros st d name k Hst Hn Hk. unfold run_statement. assert (existsb (λ n, bool_decide (st_catalog d !! n = None)) (needs st) = false) as ->.
    { apply not_true_iff_false. intros (n & Hin & Hnone%bool_decide_eq_true)%existsb_exists. apply list_elem_of_In, Hn in Hin as [x Hx]. congruence. }
    rewrite Hst. rewrite decide_True by done. destruct st; try done; by eexists.
  - intros st ps d name Hst. unfold run_statement. destruct (existsb _ _); [done|].
    destruct st as [n| n | n | |]; try done; cbn [creates]; case_decide; try done; cbn; apply lookup_insert_ne; intros ->; by eapply Hst.
  - intros st ps d table Hst. unfold run_statement. destruct (existsb _ _); [done|]. destruct st; try done; cbn [creates]; by case_decide.
Qed.

Definition empty_store : store := mkStore ∅ ∅.
(** A database in which the table of the error log was made before. *)
Definition prepared_store : store := mkStore {[ "projects"%string := Table; "seq_erro_log_id"%string := Sequence; "erro_log"%string := Table ]} ∅.

Lemma middleware_never_starts_witness :
  (init_db run_statement (restarted run_statement 2 empty_store)).1 = Raise CatalogException ∧
  (init_db run_statement prepared_store).1 = Ok tt.
Proof. split; [apply (middleware_never_starts run_statement st_catalog rows_of_table empty_store 2 run_statement_ok eq_refl)|vm_compute; reflexivity]. Defined.
Lemma middleware_answers_nothing_witness :
  let d := (async_insert_usage (row := list param) "p" "web" 3 4 (init_db run_statement prepared_store).2).2 in
  (get_usage run_statement (Some "p"%string) 2025 7 d).1 = Raise CatalogException ∧ rows_of_table d "access_logs" = [] ∧
  (get_errors run_statement 10 None d).1 = Ok (VDict "errors" VNone).
Proof.
  cbv zeta. destruct (middleware_answers_nothing run_statement st_catalog rows_of_table prepared_store
    (async_insert_usage (row := list param) "p" "web" 3 4 (init_db run_statement prepared_store).2).2 run_statement_ok eq_refl) as (H1 & _ & H3).
  { apply sv_log, sv_init, sv_start. }
  split_and!; [apply H1; split; lia|apply H3|vm_compute; reflexivity].
Defined.
