(* ===== verification/Detokenizer.v ===== *)
(** The text of a request, from [v1/engine/detokenizer.py]: the tokens that the engine
    reports are turned into text, stop strings are searched in it
    ([engine/output_processor/stop_checker.py]), and the text is handed out whole or in
    deltas.  Texts are lists of code points.  Decoding is an interface: [decode_next] is
    the method that the two kinds of detokenizers implement, over a library's stream or
    over [transformers_utils/detokenizer_utils.py]. *)
From Stdlib Require Import ZArith Lia.
From stdpp Require Import base strings countable gmap sets list.
From S2P Require Import Prelude.
Local Open Scope Z_scope.

Abbreviation text := (list Z).

(** * Stop strings *)
Definition starts_at (sub t : text) (i : nat) : Prop := take (length sub) (drop i t) = sub.
#[export] Instance starts_at_dec sub t i : Decision (starts_at sub t i) := decide (_ = _).

(** [t.find(sub, start)]: a negative start counts from the end. *)
Definition find_start (t : text) (start : Z) : nat := Z.to_nat (if decide (start < 0) then start + len t else start).
Definition str_find (t sub : text) (start : Z) : Z :=
  let s := find_start t start in
  match list_find (starts_at sub t) (seq s (S (length t) - length sub - s)) with
  | Some (_, i) => Z.of_nat i
  | None => -1
  end.

Definition check_one_stop (output_text : text) (new_char_count : Z) (include_in_output : bool) (stop_str : text) : option (text * Z) :=
  let stop_index := str_find output_text stop_str (1 - new_char_count - len stop_str) in
  if decide (stop_index = -1) then None
  else if include_in_output then
    let stop_index := stop_index + len stop_str in
    if decide (stop_index >= len output_text) then Some (stop_str, -1) else Some (stop_str, stop_index)
  else Some (stop_str, stop_index).
Fixpoint check_stops (output_text : text) (new_char_count : Z) (stop : list text) (include_in_output : bool) : option (text * Z) :=
  match stop with
  | [] => None
  | stop_str :: stop =>
    match check_one_stop output_text new_char_count include_in_output stop_str with
    | Some r => Some r
    | None => check_stops output_text new_char_count stop include_in_output
    end
  end.
Definition check_stop_strings (output_text : text) (new_char_count : Z) (stop : list text) (include_in_output : bool) : option (text * Z) :=
  if decide (new_char_count = 0 ∨ stop = []) then None else check_stops output_text new_char_count stop include_in_output.

(** * The detokenizer of a request *)

(** [decoder] is the state of [decode_next], [dt_prompt_len] the number of prompt tokens
    that a slow detokenizer keeps in [token_ids]. *)
Record Detokenizer {D : Type} : Type := mkDetokenizer {
  dt_stop : list text;
  include_stop_str_in_output : bool;
  stop_buffer_length : Z;
  _last_output_text_offset : Z;
  output_text : text;
  token_ids : list Z;
  dt_prompt_len : nat;
  decoder : D
}.
Arguments Detokenizer : clear implicits.

Section detokenizer.
Context {D : Type} (decode_next : list Z → Z → M D text).
Implicit Types (d : Detokenizer D).

Definition set_text (v : text) d : Detokenizer D :=
  mkDetokenizer D (dt_stop d) (include_stop_str_in_output d) (stop_buffer_length d) (_last_output_text_offset d) v (token_ids d) (dt_prompt_len d) (decoder d).
Definition set_offset (v : Z) d : Detokenizer D :=
  mkDetokenizer D (dt_stop d) (include_stop_str_in_output d) (stop_buffer_length d) v (output_text d) (token_ids d) (dt_prompt_len d) (decoder d).
Definition set_token_ids (v : list Z) d : Detokenizer D :=
  mkDetokenizer D (dt_stop d) (include_stop_str_in_output d) (stop_buffer_length d) (_last_output_text_offset d) (output_text d) v (dt_prompt_len d) (decoder d).
Definition set_decoder (v : D) d : Detokenizer D :=
  mkDetokenizer D (dt_stop d) (include_stop_str_in_output d) (stop_buffer_length d) (_last_output_text_offset d) (output_text d) (token_ids d) (dt_prompt_len d) v.

(** [BaseIncrementalDetokenizer.__init__]. *)
Definition Detokenizer_init (stop : list text) (include : bool) (prompt_token_ids : list Z) (decoder : D) : Detokenizer D :=
  mkDetokenizer D stop include (if decide (stop ≠ [] ∧ include = false) then foldl Z.max 0 (len <$> stop) - 1 else 0) 0 []
    prompt_token_ids (length prompt_token_ids) decoder.
Definition output_token_ids d : list Z := if decide (dt_prompt_len d = 0%nat) then token_ids d else drop (dt_prompt_len d) (token_ids d).

Definition decode_token (id : Z) : M (Detokenizer D) unit :=
  modify (λ d, set_token_ids (token_ids d ++ [id]) d) ;;
  d ← get;
  x ← zoom decoder set_decoder (decode_next (token_ids d) id);
  modify (λ d, set_text (output_text d ++ x) d).

(** [update]: the matched stop string, if there is one. *)
Definition update (new_token_ids : list Z) (stop_terminated : bool) : M (Detokenizer D) (option text) :=
  match last new_token_ids with
  | None => mret None
  | Some last_id =>
    d ← get;
    let skip := stop_terminated && negb (include_stop_str_in_output d) in
    for_each (if skip then removelast new_token_ids else new_token_ids) decode_token ;;
    if stop_terminated then
      (if skip then modify (λ d, set_token_ids (token_ids d ++ [last_id]) d) else mret tt) ;;
      mret None
    else
      d' ← get;
      match check_stop_strings (output_text d') (len (output_text d') - len (output_text d)) (dt_stop d') (include_stop_str_in_output d') with
      | None => mret None
      | Some (stop_string, truncate_to) =>
        (if decide (truncate_to ≠ -1) then modify (λ d, set_text (slice_to truncate_to (output_text d)) d) else mret tt) ;;
        mret (Some stop_string)
      end
  end.

Definition get_next_output_text (finished delta : bool) : M (Detokenizer D) text :=
  d ← get;
  let buffer_length := if finished then 0 else stop_buffer_length d in
  if delta then
    let length := len (output_text d) - buffer_length in
    let last_offset := _last_output_text_offset d in
    if decide (last_offset < length) then
      modify (set_offset length) ;; mret (slice last_offset length (output_text d))
    else mret []
  else mret (if decide (buffer_length = 0) then output_text d else slice_to (- buffer_length) (output_text d)).
End detokenizer.
