(* ===== verification/DetokenizerFacts.v ===== *)
(** What the text of a request is: where a stop string is found, what [update] leaves, and
    that the deltas put together are the text. *)
From Stdlib Require Import ZArith Lia.
From stdpp Require Import base strings countable gmap sets list.
From S2P Require Import Prelude Detokenizer.
Local Open Scope Z_scope.

(** * Finding stop strings *)

(** The occurrence of [s] at [i] reaches beyond the first [from] characters. *)
Definition reaches (from : nat) (s t : text) (i : nat) : Prop := (from < i + length s)%nat ∧ (i + length s <= length t)%nat ∧ starts_at s t i.
(** It is the first such one. *)
Definition first_reaching (from : nat) (s t : text) (i : nat) : Prop := reaches from s t i ∧ ∀ j, reaches from s t j → (i <= j)%nat.
Definition unreached (from : nat) (s t : text) : Prop := ∀ i, ¬ reaches from s t i.

Lemma elem_of_starts s n i : i ∈ seq s n ↔ (s <= i < s + n)%nat.
Proof. apply elem_of_seq. Qed.

Lemma str_find_spec from s t :
  s ≠ [] → (from < length t)%nat → let r := str_find t s (1 - (len t - Z.of_nat from) - len s) in
  r = -1 ∧ unreached from s t ∨ ∃ i, r = Z.of_nat i ∧ first_reaching from s t i.
Proof.
  intros Hs Hf r. subst r. unfold str_find. set (b := find_start _ _). assert (b = from + 1 - length s)%nat as Hb.
  { unfold b, find_start, len. assert (0 < length s)%nat by (destruct s; [done|cbn; lia]). rewrite decide_True by lia. lia. }
  assert (∀ i, reaches from s t i ↔ i ∈ seq b (S (length t) - length s - b) ∧ starts_at s t i) as Hreach.
  { intros i. unfold reaches. rewrite elem_of_starts, Hb. assert (0 < length s)%nat by (destruct s; [done|cbn; lia]). split; intros H'; [|destruct H' as [? ?]]; split_and?; try tauto; lia. }
  destruct (list_find _ _) as [[k i]|] eqn:E; [right|left].
  - apply list_find_Some in E as (Hk & Hi & Hbefore). exists i. split; [done|]. split; [apply Hreach; split; [by eapply list_elem_of_lookup_2|done]|].
    intros j [Hj Hsj]%Hreach. apply list_elem_of_lookup_1 in Hj as [k' Hk']. destruct (decide (k' < k)%nat) as [Hlt|Hge]; [by destruct (Hbefore k' j Hk' Hlt)|].
    apply lookup_seq in Hk as [-> _], Hk' as [-> _]. lia.
  - split; [done|]. apply list_find_None in E. intros i [Hi Hsi]%Hreach. rewrite Forall_forall in E. by destruct (E i Hi).
Qed.

(** What is left of the text when a stop string at [i] is found. *)
Definition cut (include : bool) (s t : text) (i : nat) : text := take (if include then i + length s else i) t.
Definition truncated (k : Z) (t : text) : text := if decide (k ≠ -1) then slice_to k t else t.

Lemma check_one_spec from include s t :
  s ≠ [] → (from < length t)%nat →
  match check_one_stop t (len t - Z.of_nat from) include s with
  | None => unreached from s t
  | Some (s', k) => s' = s ∧ ∃ i, first_reaching from s t i ∧ truncated k t = cut include s t i
  end.
Proof.
  intros Hs Hf. unfold check_one_stop. destruct (str_find_spec from s t Hs Hf) as [[-> Hu]|(i & -> & Hi)]; [by rewrite decide_True|].
  rewrite decide_False by lia. pose proof Hi as [[_ [Hl _]] _]. unfold truncated, cut, slice_to, slice_bound, len in *. destruct include.
  - case_decide as Hge; (split; [done|]; exists i; split; [done|]).
    + rewrite decide_False by (intros []; done). rewrite take_ge; [done|lia].
    + rewrite decide_True, decide_False by lia. f_equal. lia.
  - split; [done|]. exists i. split; [done|]. rewrite decide_True, decide_False by lia. f_equal. lia.
Qed.

Lemma check_stop_strings_spec from include stop t :
  (∀ s, s ∈ stop → s ≠ []) → (from <= length t)%nat →
  match check_stop_strings t (len t - Z.of_nat from) stop include with
  | None => ∀ s, s ∈ stop → unreached from s t
  | Some (s, k) => ∃ before after i, stop = before ++ s :: after ∧ (∀ s', s' ∈ before → unreached from s' t) ∧
      first_reaching from s t i ∧ truncated k t = cut include s t i
  end.
Proof.
  intros Hs Hf. unfold check_stop_strings. case_decide as H0.
  - intros s Hin i (H1 & H2 & _). unfold len in H0. destruct H0 as [H0| ->]; [lia|by apply elem_of_nil in Hin].
  - assert (from < length t)%nat as Hlt by (unfold len in H0; lia). clear H0. induction stop as [|s stop IH]; [by intros ? ?%elem_of_nil|]. cbn [check_stops].
    pose proof (check_one_spec from include s t (Hs s ltac:(by left)) Hlt) as H1. destruct (check_one_stop _ _ _ _) as [[s' k]|].
    + destruct H1 as (-> & i & Hi & Hk). exists [], stop, i. split_and!; [done|intros ? ?%elem_of_nil; done|done|done].
    + specialize (IH (λ s Hin, Hs s ltac:(by right))). destruct (check_stops _ _ _ _) as [[s' k]|].
      * destruct IH as (before & after & i & -> & Hb & Hi & Hk). exists (s :: before), after, i. split_and!; [done| |done|done].
        intros x [->|Hx]%elem_of_cons; [done|by apply Hb].
      * intros x [->|Hx]%elem_of_cons; [done|by apply IH].
Qed.

(** * [update] *)
Section update.
Context {D : Type} (decode_next : list Z → Z → M D text).
(** Decoding the last token raises nothing. *)
Context (decodes : ∀ ids id s, ∃ x s', decode_next (ids ++ [id]) id s = (Ok x, s')).
Implicit Types (d : Detokenizer D).

(** The text of some tokens, decoded after the ones before. *)
Fixpoint decode_run (before ids : list Z) (s : D) : text * D :=
  match ids with
  | [] => ([], s)
  | id :: ids =>
    match decode_next (before ++ [id]) id s with
    | (Ok x, s) => let '(y, s) := decode_run (before ++ [id]) ids s in (x ++ y, s)
    | (Raise _, s) => ([], s)
    end
  end.

(** What [update] does not change. *)
Record same_settings d d' : Prop := {
  ss_stop : dt_stop d' = dt_stop d;
  ss_include : include_stop_str_in_output d' = include_stop_str_in_output d;
  ss_buffer : stop_buffer_length d' = stop_buffer_length d;
  ss_offset : _last_output_text_offset d' = _last_output_text_offset d;
  ss_prompt : dt_prompt_len d' = dt_prompt_len d
}.

Lemma wp_decode_tokens ids d :
  wp (for_each ids (decode_token decode_next)) (λ _ d', same_settings d d' ∧ token_ids d' = token_ids d ++ ids ∧
    output_text d' = output_text d ++ (decode_run (token_ids d) ids (decoder d)).1) d.
Proof.
  revert d. induction ids as [|id ids IH]; intros d; cbn [for_each].
  { apply wp_ret. cbn. by rewrite !app_nil_r. }
  apply wp_bind. unfold decode_token. apply wp_bind, wp_modify, wp_bind, wp_get, wp_bind, wp_zoom. cbn [decode_run token_ids set_token_ids decoder].
  destruct (decodes (token_ids d) id (decoder d)) as (x & s' & Hx). unfold wp. rewrite Hx. change (wp (modify (λ d0, set_text (output_text d0 ++ x) d0)) (λ _ s, wp (for_each ids (decode_token decode_next)) (λ _ d', same_settings d d' ∧ token_ids d' = token_ids d ++ id :: ids ∧
    output_text d' = output_text d ++ (let '(y, s) := decode_run (token_ids d ++ [id]) ids s' in (x ++ y, s)).1) s) (set_decoder s' (set_token_ids (token_ids d ++ [id]) d))).
  apply wp_modify. eapply wp_mono; [apply IH|]. cbn. intros _ d' ([H1 H2 H3 H4 H5] & Ht & Hx'). destruct (decode_run _ ids s') as [y s'']. cbn in *. split_and!.
  - by split.
  - by rewrite Ht, <- app_assoc.
  - by rewrite Hx', <- app_assoc.
Qed.

(** The text after the new tokens, before it is cut; a final stop token is not decoded
    when it is to be left out. *)
Definition extended_text d (ids : list Z) (stop_terminated : bool) : text :=
  output_text d ++ (decode_run (token_ids d) (if stop_terminated && negb (include_stop_str_in_output d) then removelast ids else ids) (decoder d)).1.

Record updated d (ids : list Z) (stop_terminated : bool) (r : option text) d' : Prop := {
  up_settings : same_settings d d';
  up_tokens : token_ids d' = token_ids d ++ ids;
  up_text : let t := extended_text d ids stop_terminated in
    match r with
    | None => output_text d' = t ∧ (stop_terminated = false → ∀ s, s ∈ dt_stop d → unreached (length (output_text d)) s t)
    | Some s => stop_terminated = false ∧ ∃ before after i, dt_stop d = before ++ s :: after ∧
        (∀ s', s' ∈ before → unreached (length (output_text d)) s' t) ∧
        first_reaching (length (output_text d)) s t i ∧ output_text d' = cut (include_stop_str_in_output d) s t i
    end
}.

Lemma wp_update d ids stop_terminated :
  (∀ s, s ∈ dt_stop d → s ≠ []) →
  wp (update decode_next ids stop_terminated) (λ r d', updated d ids stop_terminated r d') d.
Proof.
  intros Hs. unfold update. destruct (last ids) as [x|] eqn:Hlast.
  2:{ apply last_None in Hlast as ->. apply wp_ret. assert (extended_text d [] stop_terminated = output_text d) as He.
      { unfold extended_text. cbn. destruct (_ && _); cbn; by rewrite app_nil_r. }
      split; [by split|by rewrite app_nil_r|]. cbv zeta. rewrite He. split; [done|]. intros _ s _ i (H1 & H2 & _). lia. }
  apply last_Some in Hlast as [ids' ->]. apply wp_bind, wp_get, wp_bind. set (skip := _ && _).
  eapply wp_mono; [apply wp_decode_tokens|]. cbn beta. intros _ d1 (Hset & Htok & Htext). change (output_text d1 = extended_text d (ids' ++ [x]) stop_terminated) in Htext.
  unfold skip in *. clear skip. destruct stop_terminated; cbn [andb] in *.
  - destruct (include_stop_str_in_output d) eqn:Ei; cbn [negb] in *.
    + apply wp_bind, wp_ret, wp_ret. by split.
    + apply wp_bind, wp_modify, wp_ret. destruct Hset as [S1 S2 S3 S4 S5]. split; [by split| |by split].
      cbn. rewrite Htok, removelast_last. by rewrite <- app_assoc.
  - apply wp_bind, wp_get. pose proof Hset as [S1 S2 S3 S4 S5]. rewrite S1, S2.
    pose proof (check_stop_strings_spec (length (output_text d)) (include_stop_str_in_output d) (dt_stop d) (output_text d1) Hs) as H.
    change (Z.of_nat (length (output_text d))) with (len (output_text d)) in H.
    assert (length (output_text d) <= length (output_text d1))%nat as Hl by (rewrite Htext; unfold extended_text; rewrite length_app; lia). specialize (H Hl).
    destruct (check_stop_strings _ _ _ _) as [[s k]|].
    + destruct H as (before & after & i & Hst & Hb & Hi & Hk). rewrite Htext in *. apply wp_bind. unfold truncated in Hk.
      assert (∀ d2, same_settings d d2 → token_ids d2 = token_ids d ++ ids' ++ [x] →
        output_text d2 = cut (include_stop_str_in_output d) s (extended_text d (ids' ++ [x]) false) i → updated d (ids' ++ [x]) false (Some s) d2) as Hdone.
      { intros d2 H1 H2 H3. split; [done|done|]. split; [done|]. by exists before, after, i. }
      destruct (decide (k ≠ -1)) as [Hne|Heq].
      * apply wp_modify, wp_ret, Hdone; [by split|done|]. cbn. by rewrite Htext.
      * apply wp_ret, wp_ret, Hdone; [done|done|]. by rewrite Htext.
    + apply wp_ret. split; [done|done|]. split; [done|]. intros _ s Hin. rewrite <- Htext. by apply H.
Qed.

(** * The stream of deltas *)

(** A detokenizer between two steps; no stop string is empty, and what is held back is
    enough for every stop string to begin in it. *)
Record detokenizer_ok d : Prop := {
  do_stop : ∀ s, s ∈ dt_stop d → s ≠ [];
  do_buffer : 0 <= stop_buffer_length d ∧ (include_stop_str_in_output d = false → ∀ s, s ∈ dt_stop d → len s - 1 <= stop_buffer_length d);
  do_offset : 0 <= _last_output_text_offset d <= Z.max 0 (len (output_text d) - stop_buffer_length d)
}.
(** The text that has been handed out. *)
Definition handed_out d : text := slice_to (_last_output_text_offset d) (output_text d).

Lemma foldl_max_bounds (l : list Z) b : b <= foldl Z.max b l ∧ ∀ x, x ∈ l → x <= foldl Z.max b l.
Proof.
  revert b. induction l as [|y l IH]; intros b; [split; [done|by intros ? ?%elem_of_nil]|]. cbn. destruct (IH (Z.max b y)) as [H1 H2]. split; [lia|].
  intros x [->|Hx]%elem_of_cons; [lia|by apply H2].
Qed.
Lemma new_detokenizer_ok stop include prompt (s : D) : (∀ s, s ∈ stop → s ≠ []) → detokenizer_ok (Detokenizer_init stop include prompt s).
Proof.
  intros Hs. split; [done| |].
  - cbn. case_decide as H.
    + destruct (foldl_max_bounds (len <$> stop) 0) as [_ Hm]. split.
      * destruct stop as [|x stop]; [by destruct H|]. specialize (Hm (len x) ltac:(by left)). pose proof (Hs x ltac:(by left)). destruct x; [done|]. unfold len in *. cbn [length] in *. lia.
      * intros _ x Hx. specialize (Hm (len x) ltac:(by apply list_elem_of_fmap; exists x)). lia.
    + split; [done|]. intros Hi x Hx. destruct H. split; [|done]. intros ->. by apply elem_of_nil in Hx.
  - cbn [_last_output_text_offset output_text Detokenizer_init]. lia.
Qed.

(** [update] takes back nothing that has been handed out. *)
Lemma updated_handed_out d ids st r d' : detokenizer_ok d → updated d ids st r d' →
  _last_output_text_offset d <= len (output_text d') ∧ handed_out d' = handed_out d ∧
  (r = None → detokenizer_ok d').
Proof.
  intros [Hs [Hb0 Hb] Ho] [[S1 S2 S3 S4 S5] Ht Hx]. cbv zeta in Hx. set (t := extended_text d ids st) in *. set (off := _last_output_text_offset d) in *.
  assert (output_text d `prefix_of` t) as [u Hu] by (unfold t, extended_text; by eexists).
  assert (off <= len (output_text d)) as Hol by (unfold len in *; lia).
  assert (∃ k, output_text d' = take k t ∧ (Z.to_nat off <= k)%nat ∧ (r = None → k = length t)) as (k & Hk & Hok & Hkr).
  { destruct r as [s|].
    - destruct Hx as (_ & before & after & i & Hst & _ & [[H1 [H2 H3]] _] & ->). unfold cut. eexists. split; [done|]. split; [|done].
      unfold len in *. destruct (include_stop_str_in_output d) eqn:Ei; [lia|]. assert (s ∈ dt_stop d) as Hin by (rewrite Hst; apply elem_of_app; right; by left).
      pose proof (Hb eq_refl s Hin). pose proof (Hs s Hin). destruct s as [|c s]; [done|]. cbn [length] in *. lia.
    - destruct Hx as [-> _]. exists (length t). rewrite take_ge by done. split_and!; [done| |done]. rewrite Hu, length_app. unfold len in *. lia. }
  assert (off <= len (output_text d')) as Hl.
  { rewrite Hk. unfold len in *. rewrite length_take, Hu, length_app. lia. }
  split_and!; [done| |].
  - unfold handed_out. rewrite S4. fold off. unfold slice_to, slice_bound. rewrite !decide_False by lia. rewrite Hk, take_take, Nat.min_l by done.
    rewrite Hu, take_app_le; [done|]. unfold len in *. lia.
  - intros Hr. specialize (Hkr Hr). subst k. rewrite take_ge in Hk by done. split; rewrite ?S1, ?S2, ?S3, ?S4; [done|done|]. fold off. rewrite Hk, Hu. unfold len in *. rewrite length_app. lia.
Qed.

Lemma slice_to_app (a b : Z) (t : text) : 0 <= a <= b → slice_to a t ++ slice a b t = slice_to b t.
Proof.
  intros H. unfold slice, slice_to, slice_bound. rewrite !decide_False by lia. rewrite skipn_firstn_comm.
  replace (take (Z.to_nat a) t) with (take (Z.to_nat a) (take (Z.to_nat b) t)) by (rewrite take_take; f_equal; lia).
  rewrite <- skipn_firstn_comm. apply take_drop.
Qed.

Lemma wp_get_delta d finished :
  0 <= stop_buffer_length d → 0 <= _last_output_text_offset d <= len (output_text d) → (finished = false → detokenizer_ok d) →
  wp (get_next_output_text finished true) (λ x d', handed_out d ++ x = handed_out d' ∧ (∃ v, d' = set_offset v d) ∧
    (finished = true → handed_out d' = output_text d') ∧
    (finished = false → detokenizer_ok d' ∧ len (output_text d') - stop_buffer_length d' <= _last_output_text_offset d')) d.
Proof.
  intros Hb Ho Hok. unfold get_next_output_text. apply wp_bind, wp_get. set (l := len (output_text d) - _).
  case_decide as Hlt.
  - apply wp_bind, wp_modify, wp_ret. assert (l <= len (output_text d)) as Hl by (unfold l; destruct finished; lia). unfold handed_out. cbn. split_and!; [|by exists l| |].
    + apply slice_to_app. lia.
    + intros ->. unfold l, slice_to, slice_bound, len. rewrite decide_False by lia. rewrite take_ge; [done|lia].
    + intros ->. split; [|cbn; unfold l; lia]. destruct (Hok eq_refl) as [H1 H2 H3]. split; [done|done|]. cbn. unfold l in *. lia.
  - apply wp_ret. rewrite app_nil_r. split_and!; [done|exists (_last_output_text_offset d); by destruct d| |intros ->; split; [by apply Hok|unfold l in Hlt; lia]]. intros ->. unfold l in Hlt. unfold handed_out, slice_to, slice_bound, len in *.
    rewrite decide_False by lia. rewrite take_ge; [done|lia].
Qed.

(** * What has been handed out does not matter for the text *)
Lemma update_offset ids stop_terminated v d :
  update decode_next ids stop_terminated (set_offset v d) =
  (let '(r, d') := update decode_next ids stop_terminated d in (r, set_offset v d')).
Proof.
  assert (∀ l d, for_each l (decode_token decode_next) (set_offset v d) = (let '(r, d') := for_each l (decode_token decode_next) d in (r, set_offset v d'))) as Hfor.
  { clear d. induction l as [|x l IH]; intros d; [done|]. cbn [for_each].
    assert (decode_token decode_next x (set_offset v d) = (let '(r, d') := decode_token decode_next x d in (r, set_offset v d'))) as Hone.
    { unfold decode_token, mbind, M_bind, modify, get, zoom. cbn. by destruct (decode_next _ _ _) as [[y|e] s']. }
    unfold mbind, M_bind in *. rewrite Hone. destruct (decode_token _ _ d) as [[[]|e] d']; [apply IH|done]. }
  unfold update. destruct (last ids) as [y|]; [|done]. unfold mbind, M_bind, get in *. cbn [include_stop_str_in_output set_offset].
  rewrite Hfor. destruct (for_each _ _ d) as [[[]|e] d']; [|done]. destruct stop_terminated.
  - by destruct (true && _).
  - cbn [dt_stop include_stop_str_in_output output_text set_offset]. destruct (check_stop_strings _ _ _ _) as [[s k]|]; [|done]. by case_decide.
Qed.
End update.
