(* ===== verification/IncrementalDecoding.v ===== *)
(** The two ways tokens are decoded one after the other: the Python one of
    [transformers_utils/detokenizer_utils.py], which [SlowIncrementalDetokenizer] of
    [v1/engine/detokenizer.py] uses, and the decoding stream of the tokenizers library,
    which [FastIncrementalDetokenizer] uses.  The tokenizers are parameters.  A token is
    the string that the tokenizer's vocabulary has for it. *)
From Stdlib Require Import ZArith Lia.
From stdpp Require Import base strings countable gmap sets list.
From S2P Require Import Prelude Detokenizer.
Local Open Scope Z_scope.

(** The replacement character, U+FFFD. *)
Definition replacement : Z := 65533.
Definition incomplete (t : text) : bool := bool_decide (last t = Some replacement).
Definition INITIAL_INCREMENTAL_DETOKENIZATION_OFFSET : Z := 5.

(** * The Python way *)

(** What is used of a tokenizer: [len], [convert_ids_to_tokens] with and without the special
    tokens, [convert_tokens_to_string], [is_fast], the added tokens and the special ones. *)
Record Tokenizer : Type := mkTokenizer {
  tok_len : Z;
  convert_ids_to_tokens : list Z → bool → list (option text);
  convert_tokens_to_string : list text → text;
  is_fast : bool;
  added_vocab : list text;
  all_special_tokens : list text
}.

Section slow.
Context (tok : Tokenizer) (skip_special_tokens spaces_between_special_tokens : bool).

(** The loop collects the texts of the added tokens and of the runs of other tokens. *)
Fixpoint sub_texts (current_sub_text output_tokens : list text) : list text :=
  let flushed := if decide (current_sub_text = []) then [] else [convert_tokens_to_string tok current_sub_text] in
  match output_tokens with
  | [] => flushed
  | token :: output_tokens =>
    if decide (skip_special_tokens = true ∧ token ∈ all_special_tokens tok) then sub_texts current_sub_text output_tokens
    else if decide (token ∈ added_vocab tok) then flushed ++ token :: sub_texts [] output_tokens
    else sub_texts (current_sub_text ++ [token]) output_tokens
  end.
(** [separator.join(texts)]. *)
Fixpoint join (separator : text) (texts : list text) : text :=
  match texts with [] => [] | [t] => t | t :: texts => t ++ separator ++ join separator texts end.
Definition _convert_tokens_to_string_with_added_encoders (output_tokens : list text) : text :=
  join (if spaces_between_special_tokens then [32] else []) (sub_texts [] output_tokens).

Definition _replace_none_with_empty (tokens : list (option text)) : list text := default [] <$> tokens.
Definition convert_prompt_ids_to_tokens (prompt_ids : list Z) : list text * Z * Z :=
  let new_tokens := convert_ids_to_tokens tok (slice_from (- INITIAL_INCREMENTAL_DETOKENIZATION_OFFSET - 2) prompt_ids) skip_special_tokens in
  let read_offset := len new_tokens in
  (_replace_none_with_empty new_tokens, Z.max (read_offset - INITIAL_INCREMENTAL_DETOKENIZATION_OFFSET) 0, read_offset).

(** The two branches on [tokenizer.is_fast] and the added tokens. *)
Definition tokens_to_text (tokens : list text) : text :=
  if decide (is_fast tok = true ∨ added_vocab tok = []) then convert_tokens_to_string tok tokens
  else _convert_tokens_to_string_with_added_encoders tokens.

(** The tokens of a new id; converting a token that is [None] to a string raises. *)
Definition new_tokens_of (new_token_id : Z) : outcome (list text) :=
  if decide (0 <= new_token_id < tok_len tok) then
    mapM (λ t, match t with Some t => Ok t | None => Raise TypeError end) (convert_ids_to_tokens tok [new_token_id] skip_special_tokens)
  else Ok [[]].

(** [detokenize_incrementally], as it is called: with the tokens before. *)
Definition detokenize_incrementally (all_input_ids : list Z) (prev_tokens : list text) (prefix_offset read_offset : Z)
    : outcome (list text * text * Z * Z) :=
  new_token_id ← py_index all_input_ids (-1);
  new_tokens ← new_tokens_of new_token_id;
  let output_tokens := prev_tokens ++ new_tokens in
  let prefix_text := tokens_to_text (slice prefix_offset read_offset output_tokens) in
  let new_text := tokens_to_text (slice_from prefix_offset output_tokens) in
  Ok (if bool_decide (len new_text <= len prefix_text) || incomplete new_text then (new_tokens, [], prefix_offset, read_offset)
      else (new_tokens, slice_from (len prefix_text) new_text, read_offset, len output_tokens)).

Record SlowDecoder : Type := mkSlowDecoder { tokens : list text; prefix_offset : Z; read_offset : Z }.
Definition SlowDecoder_init (prompt_token_ids : list Z) : SlowDecoder :=
  let '(tokens, prefix_offset, read_offset) := convert_prompt_ids_to_tokens prompt_token_ids in mkSlowDecoder tokens prefix_offset read_offset.
Definition slow_decode_next (token_ids : list Z) (next_token_id : Z) : M SlowDecoder text :=
  s ← get;
  '(new_tokens, decoded_text, prefix_offset, read_offset) ← lift_outcome (detokenize_incrementally token_ids (tokens s) (prefix_offset s) (read_offset s));
  put (mkSlowDecoder (tokens s ++ new_tokens) prefix_offset read_offset) ;; mret decoded_text.
End slow.

(** * The library's stream *)

(** [DecodeStream]: a new one, and a step, which gives a string or none, or fails; the
    failure is the error of an invalid prefix or another one. *)
Record StreamLibrary (T : Type) : Type := mkStreamLibrary {
  new_stream : T;
  stream_step : Z → T → (option text + bool) * T;
  decode_ids : list Z → text
}.
Arguments new_stream {T} s. Arguments stream_step {T} s. Arguments decode_ids {T} s.

Section fast.
Context {T : Type} (lib : StreamLibrary T).
(** [added_token_ids], when spaces between special tokens have to be suppressed. *)
Context (added_token_ids : option (gmap Z text)).

Record FastDecoder : Type := mkFastDecoder { stream : T; last_special : bool }.
Definition try_step (next_token_id : Z) : M FastDecoder (option text + bool) := λ s,
  let '(r, t) := stream_step lib next_token_id (stream s) in (Ok r, mkFastDecoder t (last_special s)).
Definition _protected_step (next_token_id : Z) : M FastDecoder (option text) :=
  r ← try_step next_token_id;
  match r with
  | inl token => mret token
  | inr false => raise RuntimeError
  | inr true =>
    modify (λ s, mkFastDecoder (new_stream lib) (last_special s)) ;;
    r ← try_step next_token_id;
    match r with inl token => mret token | inr _ => raise RuntimeError end
  end.
(** The shortest suffix of the prompt, of 4 to 23 tokens, whose text is complete. *)
Definition prompt_suffix (prompt_token_ids : list Z) : list Z :=
  let prompt_len := len prompt_token_ids in
  if decide (prompt_len > 4) then
    match list_find (λ i, replacement ∉ decode_ids lib (slice_from (- i) prompt_token_ids)) (range2 4 (Z.min (prompt_len + 1) 24)) with
    | Some (_, i) => slice_from (- i) prompt_token_ids
    | None => prompt_token_ids
    end
  else prompt_token_ids.
(** [__init__]: the stream is primed with the end of the prompt. *)
Definition prime (prompt_token_ids : list Z) : M FastDecoder unit := for_each (prompt_suffix prompt_token_ids) (λ tid, _protected_step tid ;; mret tt).
Definition fast_decode_next (token_ids : list Z) (next_token_id : Z) : M FastDecoder text :=
  token ← _protected_step next_token_id;
  match added_token_ids with
  | None => mret (default [] token)
  | Some added =>
    s ← get;
    let special_token := added !! next_token_id in
    let is_special := bool_decide (is_Some special_token) in
    put (mkFastDecoder (stream s) is_special) ;;
    mret (default [] (if is_special && last_special s then special_token else token))
  end.
End fast.
