(* ===== verification/DecodingFacts.v ===== *)
(** Decoding token by token gives the text of all tokens, as far as it is complete, when the
    tokenizer is local: what tokens add to a text depends only on the few tokens before
    them. *)
From Stdlib Require Import ZArith Lia.
From stdpp Require Import base strings countable gmap sets list.
From S2P Require Import Prelude Detokenizer DetokenizerFacts IncrementalDecoding.
Local Open Scope Z_scope.

Section decoding.
Context (tok : Tokenizer) (skip spaces : bool).
Abbreviation str := (tokens_to_text tok skip spaces).
Abbreviation decode := (slow_decode_next tok skip spaces).
Implicit Types (a b c : list text) (s : SlowDecoder).

(** What [c] adds after [a] and [b] is what it adds after [b] alone, provided that [b] is
    not empty and the text before [c] is complete. *)
Record local_decoding : Prop := {
  ld_empty : str [] = [];
  ld_local : ∀ a b c, b ≠ [] → incomplete (str (a ++ b)) = false → str (a ++ b ++ c) = str (a ++ b) ++ drop (length (str b)) (str (b ++ c))
}.
Context (Hlocal : local_decoding).

Lemma incomplete_app (t u : text) : u ≠ [] → incomplete (t ++ u) = incomplete u.
Proof. intros Hu. unfold incomplete. rewrite last_app. by destruct (last u) eqn:E; [|apply last_None in E]. Qed.
Lemma incomplete_drop k (t : text) : drop k t ≠ [] → incomplete (drop k t) = incomplete t.
Proof. intros Hd. rewrite <- (take_drop k t) at 2. by rewrite incomplete_app. Qed.

(** The context and the emitted tokens are [a ++ b], where [b] starts at the prefix offset;
    [c] are held back, because nothing is new or what is new is not complete. *)
Record decoded (prompt context : list text) (emitted held : list text) (x : text) s : Prop := {
  dc_tokens : ∃ skipped, prompt = skipped ++ context ∧ tokens s = skipped ++ context ++ emitted ++ held;
  dc_split : ∃ a b, context ++ emitted = a ++ b ∧ prefix_offset s = len prompt - len context + len a ∧ read_offset s = prefix_offset s + len b ∧
    (∀ c, str (a ++ b ++ c) = str (a ++ b) ++ drop (length (str b)) (str (b ++ c))) ∧
    (held = [] ∨ len (str (b ++ held)) <= len (str b) ∨ incomplete (str (b ++ held)) = true);
  dc_text : str (context ++ emitted) = str context ++ x
}.

Lemma decoded_start prompt_ids prompt p r :
  convert_prompt_ids_to_tokens tok skip prompt_ids = (prompt, p, r) → let context := slice_from p prompt in
  context = [] ∨ incomplete (str context) = false → decoded prompt context [] [] [] (SlowDecoder_init tok skip prompt_ids).
Proof using Hlocal.
  intros Hp context Hc. assert (0 <= p <= len prompt ∧ r = len prompt) as [Hpr ->].
  { unfold convert_prompt_ids_to_tokens in Hp. injection Hp as <- <- <-. unfold _replace_none_with_empty, len, INITIAL_INCREMENTAL_DETOKENIZATION_OFFSET. rewrite length_fmap. lia. }
  assert (context = drop (Z.to_nat p) prompt) as Ectx by (unfold context, slice_from, slice_bound; by rewrite decide_False by lia).
  unfold SlowDecoder_init. rewrite Hp. split.
  - exists (take (Z.to_nat p) prompt). cbn [tokens]. rewrite !app_nil_r, Ectx. by rewrite take_drop.
  - exists [], context. cbn [prefix_offset read_offset]. rewrite app_nil_r. split_and!; [done| | | |by left].
    + rewrite Ectx. unfold len in *. rewrite length_drop. cbn. lia.
    + rewrite Ectx. unfold len in *. rewrite length_drop. lia.
    + intros c. destruct Hc as [-> | Hc].
      * cbn [app]. by rewrite (ld_empty Hlocal).
      * destruct (decide (context = [])) as [->|Hne]; [cbn [app]; by rewrite (ld_empty Hlocal)|]. by apply (ld_local Hlocal []).
  - by rewrite !app_nil_r.
Qed.

Lemma slice_offsets a b c : slice (len a) (len a + len b) (a ++ b ++ c) = b ∧ slice_from (len a) (a ++ b ++ c) = b ++ c.
Proof.
  unfold slice, slice_from, slice_to, slice_bound, len. rewrite !decide_False by lia. split.
  - rewrite Nat2Z.id. replace (Z.to_nat (Z.of_nat (length a) + Z.of_nat (length b))) with (length (a ++ b)) by (rewrite length_app; lia).
    rewrite app_assoc, take_app_length. by apply drop_app_length.
  - rewrite Nat2Z.id. by apply drop_app_length.
Qed.

(** One token: it is held back with those before, or all that was held back is emitted. *)
Lemma wp_decode prompt context emitted held x s before id new :
  decoded prompt context emitted held x s → new_tokens_of tok skip id = Ok new →
  wp (decode (before ++ [id]) id) (λ y s', ∃ emitted' held', emitted ++ held ++ new = emitted' ++ held' ∧ decoded prompt context emitted' held' (x ++ y) s') s.
Proof using Hlocal.
  intros [(skipped & Hprompt & Htok) (a & b & Hab & Hpre & Hread & Hloc & Hheld) Hx] Hnew. unfold slow_decode_next. apply wp_bind, wp_get.
  assert (prefix_offset s = len (skipped ++ a) ∧ read_offset s = len (skipped ++ a) + len b) as [Ep Er].
  { rewrite Hread, Hpre, Hprompt. unfold len. rewrite !length_app. lia. }
  assert (tokens s ++ new = (skipped ++ a) ++ b ++ (held ++ new)) as Et.
  { rewrite Htok, (app_assoc context), Hab, <- !app_assoc. done. }
  apply wp_bind. set (d := match bool_decide (len (str (b ++ held ++ new)) <= len (str b)) || incomplete (str (b ++ held ++ new)) return list text * text * Z * Z with
    | true => (new, [], prefix_offset s, read_offset s)
    | false => (new, drop (length (str b)) (str (b ++ held ++ new)), read_offset s, len (tokens s ++ new)) end).
  eapply (wp_lift_outcome _ d).
  { unfold detokenize_incrementally. rewrite py_index_last. cbn [mbind outcome_bind]. rewrite Hnew. cbn [mbind outcome_bind]. rewrite Et, Er, Ep.
    destruct (slice_offsets (skipped ++ a) b (held ++ new)) as [-> ->]. unfold d. rewrite Et, Er, Ep. destruct (_ || _); [done|].
    unfold slice_from, slice_bound, len. rewrite decide_False by lia. by rewrite Nat2Z.id. }
  unfold d. destruct (bool_decide (len (str (b ++ held ++ new)) <= len (str b)) || incomplete (str (b ++ held ++ new))) eqn:E.
  - apply wp_bind, wp_put, wp_ret. exists emitted, (held ++ new). split; [done|]. split.
    + exists skipped. split; [done|]. cbn [tokens]. rewrite Htok. by rewrite <- !app_assoc.
    + exists a, b. cbn [prefix_offset read_offset]. split_and!; [done|done|done|done|]. right. apply orb_true_iff in E as [E%bool_decide_eq_true|E]; [by left|by right].
    + by rewrite app_nil_r.
  - apply orb_false_iff in E as [Hlong%bool_decide_eq_false Hcomplete]. set (y := drop (length (str b)) (str (b ++ held ++ new))).
    assert (y ≠ []) as Hy by (intros E; apply (f_equal length) in E; unfold y in E; rewrite length_drop in E; unfold len in Hlong; cbn in E; lia).
    assert (str ((a ++ b) ++ (held ++ new)) = str (a ++ b) ++ y) as Hall by (rewrite <- app_assoc; apply Hloc).
    assert (held ++ new ≠ []) as Hne by (intros E; unfold y in Hy; rewrite E, app_nil_r in Hy; apply Hy; by rewrite drop_ge by lia).
    apply wp_bind, wp_put, wp_ret. exists (emitted ++ held ++ new), []. split; [by rewrite app_nil_r|]. split.
    + exists skipped. split; [done|]. cbn [tokens]. rewrite Htok, app_nil_r. by rewrite <- !app_assoc.
    + exists (a ++ b), (held ++ new). cbn [prefix_offset read_offset]. split_and!; [by rewrite app_assoc, Hab| | | |by left].
      * rewrite Hread, Hpre. unfold len. rewrite length_app. lia.
      * rewrite Et, Er. unfold len. rewrite !length_app. lia.
      * intros c. apply (ld_local Hlocal); [done|]. rewrite Hall, incomplete_app by done. unfold y. by rewrite incomplete_drop.
    + rewrite (app_assoc context), Hab, Hall, <- Hab, Hx. by rewrite app_assoc.
Qed.

(** The tokens of some ids, one list for each. *)
Lemma decode_run_decoded prompt context before ids news emitted held x s :
  decoded prompt context emitted held x s → Forall2 (λ id new, new_tokens_of tok skip id = Ok new) ids news →
  ∃ emitted' held', emitted ++ held ++ concat news = emitted' ++ held' ∧
    decoded prompt context emitted' held' (x ++ (decode_run decode before ids s).1) (decode_run decode before ids s).2.
Proof using Hlocal.
  intros Hd Hnews. revert before emitted held x s Hd. induction Hnews as [|id new ids news Hid _ IH]; intros before emitted held x s Hd.
  - exists emitted, held. cbn. by rewrite !app_nil_r.
  - pose proof (wp_decode prompt context emitted held x s before id new Hd Hid) as (y & s' & Hrun & emitted' & held' & Heq & Hd')%wp_elim.
    cbn [decode_run concat]. rewrite Hrun. destruct (IH (before ++ [id]) emitted' held' (x ++ y) s' Hd') as (emitted2 & held2 & Heq2 & Hd2).
    destruct (decode_run _ _ ids s') as [z s2] eqn:E. cbn [fst snd] in *. exists emitted2, held2. split; [|by rewrite app_assoc].
    rewrite <- Heq2, !app_assoc. f_equal. rewrite <- !app_assoc. exact Heq.
Qed.

(** What is held back is not needed when the whole text is complete. *)
Lemma decoded_complete prompt context emitted held x s :
  decoded prompt context emitted held x s → incomplete (str (context ++ emitted ++ held)) = false → str (context ++ emitted ++ held) = str context ++ x.
Proof.
  intros [_ (a & b & Hab & _ & _ & Hloc & Hheld) Hx] Hc. rewrite <- Hx, (app_assoc context) in *. rewrite Hab in *. rewrite <- app_assoc, Hloc in *.
  set (u := drop (length (str b)) (str (b ++ held))) in *. destruct (decide (u = [])) as [->|Hu]; [by rewrite app_nil_r|]. exfalso.
  rewrite incomplete_app in Hc by done. destruct Hheld as [->|[Hle|Hinc]].
  - apply Hu. unfold u. rewrite app_nil_r. by apply drop_ge.
  - apply Hu. unfold u. apply drop_ge. unfold len in Hle. lia.
  - unfold u in *. rewrite incomplete_drop in Hc by done. congruence.
Qed.

(** With a token for every id, decoding raises nothing, as the detokenizer's users need. *)
Lemma slow_decodes : (∀ id, is_Some (match new_tokens_of tok skip id with Ok l => Some l | Raise _ => None end)) →
  ∀ ids id s, ∃ x s', decode (ids ++ [id]) id s = (Ok x, s').
Proof.
  intros Htok ids id s. specialize (Htok id). unfold slow_decode_next, mbind, M_bind, get. unfold detokenize_incrementally. rewrite py_index_last. cbn [mbind outcome_bind].
  destruct (new_tokens_of tok skip id) as [l|e]; [|by destruct Htok]. cbn. destruct (_ || _); by do 2 eexists.
Qed.
End decoding.
