(* ===== verification/RequestOutputs.v ===== *)
(** The outputs of the requests, from [v1/engine/logprobs.py],
    [v1/engine/parallel_sampling.py], [outputs.py] and the collector of
    [v1/engine/output_processor.py]: the log-probabilities of a request, its outputs and how
    two of them are merged, the collector a consumer reads from, and the parent of the
    children of a parallel-sampling request. *)
From Stdlib Require Import ZArith QArith Lia.
From stdpp Require Import base strings countable pretty gmap sets list.
From S2P Require Import Prelude Request SchedulerData Detokenizer.
Local Open Scope Z_scope.

(** * Parameters and requests *)
Inductive RequestOutputKind : Type := CUMULATIVE | DELTA | FINAL_ONLY.
#[export] Instance output_kind_eq_dec : EqDecision RequestOutputKind.
Proof. solve_decision. Defined.

(** What the front end reads of [SamplingParams]. *)
Record OutputParams : Type := mkOutputParams {
  op_n : Z;
  op_output_kind : RequestOutputKind;
  op_detokenize : bool;
  op_stop : list text;
  op_include_stop : bool;
  op_logprobs : option Z;
  op_prompt_logprobs : option Z;
  op_seed : option Z
}.
Definition set_child_params (seed : option Z) (p : OutputParams) : OutputParams :=
  mkOutputParams 1 (op_output_kind p) (op_detokenize p) (op_stop p) (op_include_stop p) (op_logprobs p) (op_prompt_logprobs p) seed.

(** The request as the front end sends it; without sampling parameters it is a pooling
    request with an output kind. *)
Record EngineRequest : Type := mkEngineRequest {
  er_request_id : string;
  er_prompt_token_ids : list Z;
  er_params : OutputParams + RequestOutputKind;
  er_lora_name : option string
}.

Inductive StopReason : Type := StopToken (id : Z) | StopString (s : text).

(** * Log-probabilities *)
Record Logprob : Type := mkLogprob { lp_logprob : Q; lp_rank : Z; lp_decoded_token : option text }.
(** The tokens, log-probabilities and the sampled token's rank for every position. *)
Abbreviation LogprobRows := (list (list Z) * list (list Q) * list Z)%type.
Abbreviation LogprobDict := (gmap Z Logprob).

Record LogprobsProcessor : Type := mkLogprobsProcessor {
  lp_has_tokenizer : bool;
  lp_logprobs : option (list LogprobDict);
  lp_prompt_logprobs : option (list (option LogprobDict));
  lp_cumulative_logprob : option Q;
  lp_num_logprobs : option Z;
  lp_num_prompt_logprobs : option Z
}.
Definition LogprobsProcessor_init (has_tokenizer : bool) (num_logprobs num_prompt_logprobs : option Z) : LogprobsProcessor :=
  mkLogprobsProcessor has_tokenizer ((λ _, []) <$> num_logprobs) ((λ _, [None]) <$> num_prompt_logprobs) ((λ _, 0%Q) <$> num_logprobs)
    num_logprobs num_prompt_logprobs.
Definition set_logprobs (l : option (list LogprobDict)) (c : option Q) (p : LogprobsProcessor) : LogprobsProcessor :=
  mkLogprobsProcessor (lp_has_tokenizer p) l (lp_prompt_logprobs p) c (lp_num_logprobs p) (lp_num_prompt_logprobs p).
Definition set_prompt_logprobs (l : option (list (option LogprobDict))) (p : LogprobsProcessor) : LogprobsProcessor :=
  mkLogprobsProcessor (lp_has_tokenizer p) (lp_logprobs p) l (lp_cumulative_logprob p) (lp_num_logprobs p) (lp_num_prompt_logprobs p).

Section logprobs.
(** [tokenizer.decode([id])]. *)
Context (decode_one : Z → text).

(** The rank of the sampled token, then the ranks of the most likely ones; without a
    tokenizer the decoded tokens are [None]. *)
Definition _make_logprob_dict (p : LogprobsProcessor) (logprobs : list Q) (ids : list Z) (rank num_logprobs : Z) : LogprobDict :=
  let ranks := rank :: range2 1 (num_logprobs + 1) in
  let decoded := (λ id, if lp_has_tokenizer p then Some (decode_one id) else None) <$> ids in
  foldl (λ d '(id, l, r, t), <[id := mkLogprob l r t]> d) ∅ (zip (zip (zip ids logprobs) ranks) decoded).

Definition add_sample_logprobs (acc : outcome LogprobsProcessor) (e : Z * list Q * list Z) : outcome LogprobsProcessor :=
  p ← acc;
  let '(rank, logprobs, ids) := e in
  match lp_num_logprobs p, lp_logprobs p, lp_cumulative_logprob p with
  | Some n, Some l, Some c =>
    sampled_token_logprob ← match logprobs with x :: _ => Ok x | [] => Raise IndexError end;
    Ok (set_logprobs (Some (l ++ [_make_logprob_dict p logprobs ids rank n])) (Some (c + sampled_token_logprob)%Q) p)
  | _, _, _ => Raise AssertionError
  end.
Definition _update_sample_logprobs (rows : LogprobRows) (p : LogprobsProcessor) : outcome LogprobsProcessor :=
  match lp_num_logprobs p, lp_logprobs p, lp_cumulative_logprob p with
  | Some _, Some _, Some _ =>
    let '(ids, logprobs, ranks) := rows in foldl add_sample_logprobs (Ok p) (zip (zip ranks logprobs) ids)
  | _, _, _ => Raise AssertionError
  end.
Definition _update_prompt_logprobs (rows : LogprobRows) (p : LogprobsProcessor) : outcome LogprobsProcessor :=
  match lp_num_prompt_logprobs p, lp_prompt_logprobs p with
  | Some n, Some l =>
    let '(ids, logprobs, ranks) := rows in
    Ok (set_prompt_logprobs (Some (l ++ ((λ '(i, lps, rank), Some (_make_logprob_dict p lps i rank n)) <$> zip (zip ids logprobs) ranks))) p)
  | _, _ => Raise AssertionError
  end.
(** [pop_prompt_logprobs]: an empty list is returned as it is. *)
Definition pop_prompt_logprobs (p : LogprobsProcessor) : option (list (option LogprobDict)) * LogprobsProcessor :=
  (lp_prompt_logprobs p, match lp_prompt_logprobs p with Some (_ :: _) => set_prompt_logprobs (Some []) p | _ => p end).

(** [update_from_output]; [unpack] and [unpack_prompt] are the contents of the tensors. *)
Definition logprobs_update_from_output (unpack unpack_prompt : handle → LogprobRows) (o : EngineCoreOutput) (p : LogprobsProcessor) : outcome LogprobsProcessor :=
  p ← match eco_new_logprobs o with Some h => _update_sample_logprobs (unpack h) p | None => Ok p end;
  match eco_new_prompt_logprobs_tensors o with Some h => _update_prompt_logprobs (unpack_prompt h) p | None => Ok p end.
End logprobs.

(** * Outputs *)
Record CompletionOutput : Type := mkCompletionOutput {
  co_index : Z;
  co_text : text;
  co_token_ids : list Z;
  co_logprobs : option (list LogprobDict);
  co_cumulative_logprob : option Q;
  co_finish_reason : option FinishReason;
  co_stop_reason : option StopReason
}.
(** [None] among the outputs is a slot of the aggregator that has not been filled. *)
Record RequestOutput : Type := mkRequestOutput {
  ro_request_id : string;
  ro_prompt_token_ids : list Z;
  ro_prompt_logprobs : option (list (option LogprobDict));
  ro_outputs : list (option CompletionOutput);
  ro_finished : bool;
  ro_kv_transfer_params : option handle;
  ro_num_cached_tokens : Z
}.
Record PoolingRequestOutput : Type := mkPoolingRequestOutput {
  po_request_id : string;
  po_data : handle;
  po_prompt_token_ids : list Z;
  po_finished : bool
}.
Inductive AnyOutput : Type :=
  | Completion (o : RequestOutput)
  | Pooled (o : PoolingRequestOutput)
  | Failed (e : exn).

(** Merging two outputs with one index: the list of log-probabilities is extended by a list
    that is not empty. *)
Definition merge_completion (aggregate : bool) (c next : CompletionOutput) : outcome CompletionOutput :=
  if aggregate then
    logprobs ← match co_logprobs next with
               | Some ((_ :: _) as l) => match co_logprobs c with Some k => Ok (Some (k ++ l)) | None => Raise AssertionError end
               | _ => Ok (co_logprobs c)
               end;
    Ok (mkCompletionOutput (co_index c) (co_text c ++ co_text next) (co_token_ids c ++ co_token_ids next) logprobs
          (co_cumulative_logprob next) (co_finish_reason next) (co_stop_reason next))
  else Ok next.
(** The inner loop of [add], with its [else]. *)
Fixpoint add_completion (aggregate : bool) (next : CompletionOutput) (outputs : list (option CompletionOutput)) : outcome (list (option CompletionOutput)) :=
  match outputs with
  | [] => Ok [Some next]
  | None :: _ => Raise AttributeError
  | Some c :: outputs' =>
    if decide (co_index c = co_index next) then c ← merge_completion aggregate c next; Ok (Some c :: outputs')
    else outputs' ← add_completion aggregate next outputs'; Ok (Some c :: outputs')
  end.
Definition add_completions (aggregate : bool) (nexts outputs : list (option CompletionOutput)) : outcome (list (option CompletionOutput)) :=
  foldl (λ acc next, l ← acc; match next with Some c => add_completion aggregate c l | None => Raise AttributeError end) (Ok outputs) nexts.
(** [RequestOutput.add]. *)
Definition output_add (aggregate : bool) (o next : RequestOutput) : outcome RequestOutput :=
  outputs ← add_completions aggregate (ro_outputs next) (ro_outputs o);
  Ok (mkRequestOutput (ro_request_id o) (ro_prompt_token_ids o) (ro_prompt_logprobs o) outputs (ro_finished o || ro_finished next)
        (ro_kv_transfer_params next) (ro_num_cached_tokens o)).

(** * The collector of a request *)
Record RequestOutputCollector : Type := mkCollector { rc_aggregate : bool; rc_output : option AnyOutput; rc_ready : bool }.
Definition RequestOutputCollector_init (output_kind : RequestOutputKind) : RequestOutputCollector :=
  mkCollector (bool_decide (output_kind = DELTA)) None false.
Definition collector_put (output : AnyOutput) : M RequestOutputCollector unit :=
  c ← get;
  match rc_output c, output with
  | None, _ | _, Failed _ => put (mkCollector (rc_aggregate c) (Some output) true)
  | Some (Completion o), Completion next =>
    o ← lift_outcome (output_add (rc_aggregate c) o next);
    put (mkCollector (rc_aggregate c) (Some (Completion o)) (rc_ready c))
  | Some (Completion _), Pooled _ | Some (Pooled _), _ => raise AttributeError
  | Some (Failed _), _ => mret tt
  end.
(** [get_nowait]; [get] does the same once there is an output. *)
Definition collector_get_nowait : M RequestOutputCollector (option AnyOutput) :=
  c ← get;
  match rc_output c with
  | None => mret None
  | Some output =>
    put (mkCollector (rc_aggregate c) None false) ;;
    match output with Failed e => raise e | _ => mret (Some output) end
  end.

(** * Parallel sampling *)
Record ParentRequest : Type := mkParentRequest {
  pr_request_id : string;
  pr_sampling_params : OutputParams;
  child_requests : gset string;
  output_aggregator : list (option CompletionOutput);
  cached_child_sampling_params : option OutputParams
}.
Definition ParentRequest_init (request_id : string) (p : OutputParams) : ParentRequest :=
  mkParentRequest request_id p ∅ (if decide (op_output_kind p = FINAL_ONLY) then replicate (Z.to_nat (op_n p)) None else []) None.
Definition set_children (v : gset string) (p : ParentRequest) : ParentRequest :=
  mkParentRequest (pr_request_id p) (pr_sampling_params p) v (output_aggregator p) (cached_child_sampling_params p).
Definition set_aggregator (v : list (option CompletionOutput)) (p : ParentRequest) : ParentRequest :=
  mkParentRequest (pr_request_id p) (pr_sampling_params p) (child_requests p) v (cached_child_sampling_params p).
Definition set_cached_params (v : option OutputParams) (p : ParentRequest) : ParentRequest :=
  mkParentRequest (pr_request_id p) (pr_sampling_params p) (child_requests p) (output_aggregator p) v.

Definition _get_child_sampling_params (index : Z) : M ParentRequest OutputParams :=
  p ← get;
  match cached_child_sampling_params p with
  | Some c => mret c
  | None =>
    match op_seed (pr_sampling_params p) with
    | None => let c := set_child_params None (pr_sampling_params p) in modify (set_cached_params (Some c)) ;; mret c
    | Some seed => mret (set_child_params (Some (seed + index)) (pr_sampling_params p))
    end
  end.
Definition child_id (index : Z) (request_id : string) : string := (pretty index +:+ "_" +:+ request_id)%string.
Definition get_child_info (index : Z) : M ParentRequest (string * OutputParams) :=
  p ← get;
  let child_req_id := child_id index (pr_request_id p) in
  modify (set_children ({[ child_req_id ]} ∪ child_requests p)) ;;
  c ← _get_child_sampling_params index;
  mret (child_req_id, c).
Definition get_outputs (child_request_id : string) (output : CompletionOutput) : M ParentRequest (string * list (option CompletionOutput) * bool) :=
  (match co_finish_reason output with
   | Some _ =>
     p ← get;
     if decide (child_request_id ∈ child_requests p) then modify (set_children (child_requests p ∖ {[ child_request_id ]})) else raise KeyError
   | None => mret tt
   end) ;;
  p ← get;
  outputs ← (if decide (op_output_kind (pr_sampling_params p) ≠ FINAL_ONLY) then mret [Some output]
             else
               if decide (0 <= co_index output < len (output_aggregator p)) then
                 let l := <[Z.to_nat (co_index output) := Some output]> (output_aggregator p) in
                 modify (set_aggregator l) ;;
                 mret (if decide (child_requests p = ∅) then l else [])
               else raise IndexError);
  mret (pr_request_id p, outputs, bool_decide (child_requests p = ∅)).
