(* ===== verification/OutputProcessor.v ===== *)
(** The processor of the outputs, [v1/engine/output_processor.py]: for every request the
    state of its text and log-probabilities, and the loop over what the engine core
    reports.  The objects that are shared, the parents and the consumers' collectors, are
    in stores.  The iteration statistics are not modelled ([iteration_stats] is [None]). *)
From Stdlib Require Import ZArith QArith Lia.
From stdpp Require Import base strings countable gmap sets list.
From S2P Require Import Prelude Request SchedulerData Detokenizer RequestOutputs.
Local Open Scope Z_scope.

#[export] Instance finish_reason_eq_dec : EqDecision FinishReason.
Proof. solve_decision. Defined.

(** A request that is not detokenized only collects its tokens. *)
Inductive IncrementalDetokenizer (D : Type) : Type :=
  | TokensOnly (token_ids : list Z)
  | Texts (d : Detokenizer D).
Arguments TokensOnly {D} token_ids.
Arguments Texts {D} d.

(** [rs_queue] and [rs_parent_req] refer to the stores. *)
Record RequestState {D : Type} : Type := mkRequestState {
  rs_request_id : string;
  rs_parent_req : option string;
  rs_request_index : Z;
  rs_lora_name : option string;
  rs_output_kind : RequestOutputKind;
  rs_prompt_token_ids : list Z;
  rs_logprobs_processor : option LogprobsProcessor;
  rs_detokenizer : option (IncrementalDetokenizer D);
  rs_is_prefilling : bool;
  rs_queue : option nat
}.
Arguments RequestState : clear implicits.

Record LoRAStats : Type := mkLoRAStats { waiting_requests : gset string; running_requests : gset string }.

(** [op_parents] and [op_queues] are the objects, [op_parent_requests] the dictionary's keys. *)
Record OutputProcessor {D : Type} : Type := mkOutputProcessor {
  request_states : gmap string (RequestState D);
  op_parents : gmap string ParentRequest;
  op_parent_requests : gset string;
  op_queues : gmap nat RequestOutputCollector;
  op_lora_states : gmap string LoRAStats
}.
Arguments OutputProcessor : clear implicits.

Section processor.
Context {D : Type} (decode_next : list Z → Z → M D text) (decode_one : Z → text).
(** Whether there is a tokenizer, the decoder of a new request, and whether its kind of
    detokenizer keeps the prompt's tokens. *)
Context (has_tokenizer : bool) (new_decoder : EngineRequest → D) (keeps_prompt : bool).
Context (unpack unpack_prompt : handle → LogprobRows).
Implicit Types (s : OutputProcessor D) (r : RequestState D).

Definition set_states v s : OutputProcessor D := mkOutputProcessor D v (op_parents s) (op_parent_requests s) (op_queues s) (op_lora_states s).
Definition set_parents v s : OutputProcessor D := mkOutputProcessor D (request_states s) v (op_parent_requests s) (op_queues s) (op_lora_states s).
Definition set_parent_requests v s : OutputProcessor D := mkOutputProcessor D (request_states s) (op_parents s) v (op_queues s) (op_lora_states s).
Definition set_queues v s : OutputProcessor D := mkOutputProcessor D (request_states s) (op_parents s) (op_parent_requests s) v (op_lora_states s).
Definition set_lora v s : OutputProcessor D := mkOutputProcessor D (request_states s) (op_parents s) (op_parent_requests s) (op_queues s) v.
Definition set_detokenizer v r : RequestState D :=
  mkRequestState D (rs_request_id r) (rs_parent_req r) (rs_request_index r) (rs_lora_name r) (rs_output_kind r) (rs_prompt_token_ids r)
    (rs_logprobs_processor r) v (rs_is_prefilling r) (rs_queue r).
Definition set_logprobs_processor v r : RequestState D :=
  mkRequestState D (rs_request_id r) (rs_parent_req r) (rs_request_index r) (rs_lora_name r) (rs_output_kind r) (rs_prompt_token_ids r)
    v (rs_detokenizer r) (rs_is_prefilling r) (rs_queue r).
Definition set_prefilling v r : RequestState D :=
  mkRequestState D (rs_request_id r) (rs_parent_req r) (rs_request_index r) (rs_lora_name r) (rs_output_kind r) (rs_prompt_token_ids r)
    (rs_logprobs_processor r) (rs_detokenizer r) v (rs_queue r).

(** * One request *)

Definition new_detokenizer (request : EngineRequest) (p : OutputParams) : IncrementalDetokenizer D :=
  if has_tokenizer && op_detokenize p then
    Texts (Detokenizer_init (op_stop p) (op_include_stop p) (if keeps_prompt then er_prompt_token_ids request else []) (new_decoder request))
  else TokensOnly [].
Definition from_new_request (request : EngineRequest) (parent_req : option string) (request_index : Z) (queue : option nat) : RequestState D :=
  let state := mkRequestState D (er_request_id request) parent_req request_index (er_lora_name request) in
  match er_params request with
  | inl p => state (op_output_kind p) (er_prompt_token_ids request)
      (Some (LogprobsProcessor_init (has_tokenizer && op_detokenize p) (op_logprobs p) (op_prompt_logprobs p))) (Some (new_detokenizer request p)) true queue
  | inr kind => state kind (er_prompt_token_ids request) None None true queue
  end.

(** The methods of the detokenizer, on the state of the request. *)
Definition detokenizer_update (new_token_ids : list Z) (stop_terminated : bool) : M (RequestState D) (option text) :=
  r ← get;
  match rs_detokenizer r with
  | None => raise AssertionError
  | Some (TokensOnly l) => put (set_detokenizer (Some (TokensOnly (l ++ new_token_ids))) r) ;; mret None
  | Some (Texts d) =>
    zoom (λ _, d) (λ d, set_detokenizer (Some (Texts d))) (Detokenizer.update decode_next new_token_ids stop_terminated)
  end.
Definition detokenizer_text (finished delta : bool) : M (RequestState D) text :=
  r ← get;
  match rs_detokenizer r with
  | None => raise AssertionError
  | Some (TokensOnly _) => mret []
  | Some (Texts d) => zoom (λ _, d) (λ d, set_detokenizer (Some (Texts d))) (get_next_output_text finished delta)
  end.
Definition detokenizer_tokens (d : IncrementalDetokenizer D) : list Z :=
  match d with TokensOnly l => l | Texts d => Detokenizer.output_token_ids d end.

(** [l[-n:]]: all of the list when [n] is 0. *)
Definition last_entries {A} (n : nat) (l : list A) : list A := slice_from (- Z.of_nat n) l.

Definition _new_completion_output (new_token_ids : list Z) (finish_reason : option FinishReason) (stop_reason : option StopReason)
    : M (RequestState D) CompletionOutput :=
  r ← get;
  match rs_detokenizer r, rs_logprobs_processor r with
  | Some _, Some lp =>
    let finished := bool_decide (is_Some finish_reason) in
    let delta := bool_decide (rs_output_kind r = DELTA) in
    text ← detokenizer_text finished delta;
    r' ← get;
    let token_ids := if delta then new_token_ids else match rs_detokenizer r' with Some d => detokenizer_tokens d | None => [] end in
    let logprobs := match lp_logprobs lp with
                    | Some ((_ :: _) as l) => Some (if delta then last_entries (length token_ids) l else l)
                    | l => l
                    end in
    mret (mkCompletionOutput (rs_request_index r) text token_ids logprobs (lp_cumulative_logprob lp) finish_reason
            (match finish_reason with Some _ => stop_reason | None => None end))
  | _, _ => raise AssertionError
  end.

(** [_new_request_output] for completions; in delta mode the prompt's log-probabilities are
    handed out once. *)
Definition _new_request_output (request_id : string) (outputs : list (option CompletionOutput)) (finished : bool)
    (kv_transfer_params : option handle) (num_cached_tokens : Z) : M (RequestState D) RequestOutput :=
  r ← get;
  match rs_logprobs_processor r with
  | None => raise AssertionError
  | Some lp =>
    prompt_logprobs ← (if decide (rs_output_kind r = DELTA) then
        let '(l, lp) := pop_prompt_logprobs lp in put (set_logprobs_processor (Some lp) r) ;; mret l
      else mret (lp_prompt_logprobs lp));
    mret (mkRequestOutput request_id (rs_prompt_token_ids r) prompt_logprobs outputs finished kv_transfer_params num_cached_tokens)
  end.

(** * The processor *)
Definition on_state {A} (req_id : string) (m : M (RequestState D) A) : M (OutputProcessor D) A :=
  s ← get;
  match request_states s !! req_id with
  | None => raise KeyError
  | Some r => zoom (λ _, r) (λ r s, set_states (<[req_id := r]> (request_states s)) s) m
  end.
Definition on_parent {A} (parent : string) (m : M ParentRequest A) : M (OutputProcessor D) A :=
  s ← get;
  match op_parents s !! parent with
  | None => raise DanglingReference
  | Some p => zoom (λ _, p) (λ p s, set_parents (<[parent := p]> (op_parents s)) s) m
  end.
Definition on_queue {A} (q : nat) (m : M RequestOutputCollector A) : M (OutputProcessor D) A :=
  s ← get;
  match op_queues s !! q with
  | None => raise DanglingReference
  | Some c => zoom (λ _, c) (λ c s, set_queues (<[q := c]> (op_queues s)) s) m
  end.

Definition make_request_output (req_id : string) (new_token_ids : list Z) (pooling_output : option handle) (finish_reason : option FinishReason)
    (stop_reason : option StopReason) (kv_transfer_params : option handle) (num_cached_tokens : Z) : M (OutputProcessor D) (option AnyOutput) :=
  r ← on_state req_id get;
  let finished := bool_decide (is_Some finish_reason) in
  if negb finished && bool_decide (rs_output_kind r = FINAL_ONLY) then mret None
  else
    match pooling_output with
    | Some data => mret (Some (Pooled (mkPoolingRequestOutput (rs_request_id r) data (rs_prompt_token_ids r) finished)))
    | None =>
      output ← on_state req_id (_new_completion_output new_token_ids finish_reason stop_reason);
      match rs_parent_req r with
      | None =>
        o ← on_state req_id (_new_request_output (rs_request_id r) [Some output] finished kv_transfer_params num_cached_tokens);
        mret (Some (Completion o))
      | Some parent =>
        '(request_id, outputs, finished) ← on_parent parent (get_outputs (rs_request_id r) output);
        match outputs with
        | [] => mret None
        | _ =>
          o ← on_state req_id (_new_request_output request_id outputs finished kv_transfer_params num_cached_tokens);
          mret (Some (Completion o))
        end
      end
    end.

Definition get_num_unfinished_requests s : nat := base.size (request_states s).
Definition has_unfinished_requests s : bool := bool_decide (0 < get_num_unfinished_requests s)%nat.
Definition propagate_error (e : exn) : M (OutputProcessor D) unit :=
  s ← get;
  for_each (map_to_list (request_states s)) (λ p,
    match rs_queue p.2 with Some q => on_queue q (collector_put (Failed e)) | None => raise AssertionError end).

(** ** LoRA statistics *)
Definition lora_add_request r s : OutputProcessor D :=
  match rs_lora_name r with
  | None => s
  | Some l =>
    let st := default (mkLoRAStats ∅ ∅) (op_lora_states s !! l) in
    set_lora (<[l := mkLoRAStats ({[ rs_request_id r ]} ∪ waiting_requests st) (running_requests st)]> (op_lora_states s)) s
  end.
Definition lora_abort_request r : M (OutputProcessor D) unit :=
  match rs_lora_name r with
  | None => mret tt
  | Some l =>
    s ← get;
    match op_lora_states s !! l with
    | None => raise KeyError
    | Some st => put (set_lora (<[l := mkLoRAStats (waiting_requests st ∖ {[ rs_request_id r ]}) (running_requests st ∖ {[ rs_request_id r ]})]> (op_lora_states s)) s)
    end
  end.

(** ** Adding and aborting *)
Definition add_request (request : EngineRequest) (parent_req : option string) (request_index : Z) (queue : option nat) : M (OutputProcessor D) unit :=
  s ← get;
  if decide (is_Some (request_states s !! er_request_id request)) then raise ValueError
  else
    let r := from_new_request request parent_req request_index queue in
    modify (λ s, set_states (<[er_request_id request := r]> (request_states s)) s) ;;
    modify (lora_add_request r) ;;
    match parent_req with
    | Some p => modify (λ s, set_parent_requests ({[ p ]} ∪ op_parent_requests s) s)
    | None => mret tt
    end.

(** The recursion takes a parent out of the dictionary each time, so the number of parents
    is enough fuel. *)
Definition abort_one (children : list string → M (OutputProcessor D) unit) (request_id : string) : M (OutputProcessor D) (list string) :=
  s ← get;
  match request_states s !! request_id with
  | Some r => modify (λ s, set_states (delete request_id (request_states s)) s) ;; lora_abort_request r ;; mret [request_id]
  | None =>
    modify (λ s, set_parent_requests (op_parent_requests s ∖ {[ request_id ]}) s) ;;
    if decide (request_id ∈ op_parent_requests s) then
      match op_parents s !! request_id with
      | None => raise DanglingReference
      | Some parent =>
        let ids := elements (child_requests parent) in
        if decide (ids = []) then mret [] else children ids ;; mret ids
      end
    else mret []
  end.
Fixpoint abort_loop (fuel : nat) (request_ids : list string) : M (OutputProcessor D) (list string) :=
  ids ← map_each request_ids (abort_one (λ ids, match fuel with O => raise OutOfFuel | S fuel => abort_loop fuel ids ;; mret tt end));
  mret (concat ids).
Definition abort_requests (request_ids : list string) : M (OutputProcessor D) (list string) :=
  s ← get; abort_loop (base.size (op_parent_requests s)) request_ids.

(** ** [process_outputs] *)

(** Which requests are finished, and which the engine core has to abort. *)
Record OutputProcessorOutput : Type := mkOutputProcessorOutput { request_outputs : list AnyOutput; reqs_to_abort : list string }.

(** Detokenizing and the log-probabilities; a stop string finishes the request. *)
Definition process_tokens (o : EngineCoreOutput) (stop_reason : option StopReason) : M (OutputProcessor D) (option FinishReason * option StopReason) :=
  on_state (eco_request_id o) (
    r ← get;
    match rs_detokenizer r, rs_logprobs_processor r with
    | Some _, Some _ =>
      stop_string ← detokenizer_update (eco_new_token_ids o) (bool_decide (eco_finish_reason o = Some STOP));
      r ← get;
      lp ← lift_outcome (match rs_logprobs_processor r with
                         | Some lp => logprobs_update_from_output decode_one unpack unpack_prompt o lp
                         | None => Raise AssertionError
                         end);
      modify (set_logprobs_processor (Some lp)) ;;
      mret (match stop_string with
            | Some ((_ :: _) as x) => (Some STOP, Some (StopString x))
            | _ => (eco_finish_reason o, stop_reason)
            end)
    | _, _ => raise AssertionError
    end).

(** What becomes of a finished request. *)
Definition free_finished (o : EngineCoreOutput) : M (OutputProcessor D) (list string) :=
  let req_id := eco_request_id o in
  r ← on_state req_id get;
  modify (λ s, set_states (delete req_id (request_states s)) s) ;;
  (match rs_parent_req r with
   | None => mret tt
   | Some parent =>
     p ← on_parent parent get;
     if decide (child_requests p = ∅) then modify (λ s, set_parent_requests (op_parent_requests s ∖ {[ pr_request_id p ]}) s) else mret tt
   end) ;;
  mret (if eco_finished o then [] else [req_id]).

Definition process_one (acc : OutputProcessorOutput) (o : EngineCoreOutput) : M (OutputProcessor D) OutputProcessorOutput :=
  let req_id := eco_request_id o in
  s ← get;
  match request_states s !! req_id with
  | None => mret acc
  | Some _ =>
    on_state req_id (modify (set_prefilling false)) ;;
    let stop_reason := StopToken <$> eco_stop_reason o in
    '(finish_reason, stop_reason) ← match eco_pooling_output o with
      | None => process_tokens o stop_reason
      | Some _ => mret (eco_finish_reason o, stop_reason)
      end;
    request_output ← make_request_output req_id (eco_new_token_ids o) (eco_pooling_output o) finish_reason stop_reason
      (eco_kv_transfer_params o) (eco_num_cached_tokens o);
    r ← on_state req_id get;
    returned ← match request_output with
      | None => mret []
      | Some output => match rs_queue r with Some q => on_queue q (collector_put output) ;; mret [] | None => mret [output] end
      end;
    aborted ← (match finish_reason with Some _ => free_finished o | None => mret [] end);
    mret (mkOutputProcessorOutput (request_outputs acc ++ returned) (reqs_to_abort acc ++ aborted))
  end.
Definition process_outputs (engine_core_outputs : list EngineCoreOutput) : M (OutputProcessor D) OutputProcessorOutput :=
  fold_each engine_core_outputs (mkOutputProcessorOutput [] []) process_one.
End processor.
