(* ===== verification/OutputFacts.v ===== *)
(** One step of the output processor for a request that streams deltas to its collector:
    the delta joins what waits for the consumer, and is what the detokenizer has handed
    out since the step before. *)
From Stdlib Require Import ZArith QArith Lia.
From stdpp Require Import base strings countable pretty gmap sets list.
From S2P Require Import Prelude Request SchedulerData Detokenizer DetokenizerFacts RequestOutputs OutputProcessor.
Local Open Scope Z_scope.

(** * The collector *)

(** What waits in a collector for one completion: its text and tokens. *)
Definition waiting (c : RequestOutputCollector) : text * list Z :=
  match rc_output c with
  | Some (Completion o) => match ro_outputs o with [Some x] => (co_text x, co_token_ids x) | _ => ([], []) end
  | _ => ([], [])
  end.
(** A collector of the deltas of the completion [index], with or without log-probabilities. *)
Definition delta_collector (index : Z) (with_logprobs : bool) (c : RequestOutputCollector) : Prop :=
  rc_aggregate c = true ∧
  match rc_output c with
  | None => True
  | Some (Completion o) => ∃ x, ro_outputs o = [Some x] ∧ co_index x = index ∧ bool_decide (is_Some (co_logprobs x)) = with_logprobs
  | Some _ => False
  end.

Lemma wp_put_delta index w c o x :
  delta_collector index w c → ro_outputs o = [Some x] → co_index x = index → bool_decide (is_Some (co_logprobs x)) = w →
  wp (collector_put (Completion o)) (λ _ c', delta_collector index w c' ∧ waiting c' = ((waiting c).1 ++ co_text x, (waiting c).2 ++ co_token_ids x)) c.
Proof.
  intros [Ha Hc] Ho Hi Hw. unfold collector_put. apply wp_bind, wp_get. destruct (rc_output c) as [[o'|?|?]|] eqn:E; [|done|done|].
  - destruct Hc as (y & Hy & Hyi & Hyw). rewrite Ha. unfold output_add, add_completions. rewrite Ho, Hy. cbn [foldl].
    assert (∃ z, add_completion true x [Some y] = Ok [Some z] ∧ co_index z = index ∧ bool_decide (is_Some (co_logprobs z)) = w ∧
      co_text z = co_text y ++ co_text x ∧ co_token_ids z = co_token_ids y ++ co_token_ids x) as (z & Hz & Hzi & Hzw & Hzt & Hzk).
    { cbn. rewrite decide_True by congruence. unfold merge_completion. destruct (co_logprobs x) as [[|l0 l]|] eqn:Ex; cbn.
      - eexists. split; [done|]. cbn. by rewrite Hyi, Hyw.
      - destruct (co_logprobs y) as [k|]; [|cbn in *; congruence]. cbn. eexists. split; [done|]. cbn. by rewrite Hyi.
      - eexists. split; [done|]. cbn. by rewrite Hyi, Hyw. }
    apply wp_bind. eapply wp_lift_outcome; [cbn [mbind outcome_bind]; rewrite Hz; reflexivity|]. apply wp_put. split.
    + split; [done|]. cbn. by exists z.
    + unfold waiting. rewrite E. cbn. by rewrite Hy, Hzt, Hzk.
  - apply wp_put. split.
    + split; [done|]. cbn. by exists x.
    + unfold waiting. rewrite E. cbn. by rewrite Ho.
Qed.

Lemma wp_get_waiting index w c : delta_collector index w c →
  wp collector_get_nowait (λ x c', delta_collector index w c' ∧ waiting c' = ([], []) ∧
    waiting c = match x with Some (Completion o) => match ro_outputs o with [Some y] => (co_text y, co_token_ids y) | _ => ([], []) end | _ => ([], []) end) c.
Proof.
  intros [Ha Hc]. unfold collector_get_nowait. apply wp_bind, wp_get. destruct (rc_output c) as [[o|?|?]|] eqn:E; [|done|done|].
  - apply wp_bind, wp_put, wp_ret. split_and!; [by split|done|]. unfold waiting. by rewrite E.
  - apply wp_ret. split_and!; [split; [done|by rewrite E]|unfold waiting; by rewrite E|unfold waiting; by rewrite E].
Qed.

(** * The state of the request *)
Section facts.
Context {D : Type} (decode_next : list Z → Z → M D text) (decode_one : Z → text).
Context (unpack unpack_prompt : handle → LogprobRows).
Context (decodes : ∀ ids id s, ∃ x s', decode_next (ids ++ [id]) id s = (Ok x, s')).
Implicit Types (s : OutputProcessor D) (r : RequestState D) (o : EngineCoreOutput) (d : Detokenizer D) (id : string).

Lemma wp_on_state {A} id (m : M (RequestState D) A) Q s r :
  request_states s !! id = Some r → wp m (λ x r', Q x (set_states (<[id := r']> (request_states s)) s)) r → wp (on_state id m) Q s.
Proof. intros Hr Hm. unfold on_state. apply wp_bind, wp_get. rewrite Hr. by apply wp_zoom. Qed.
Lemma wp_read_state id Q s r : request_states s !! id = Some r → Q r s → wp (on_state id get) Q s.
Proof.
  intros Hr HQ. apply (wp_on_state _ _ _ _ r Hr). apply wp_get. unfold set_states. rewrite insert_id by done. by destruct s.
Qed.
Lemma wp_on_queue {A} q (m : M RequestOutputCollector A) Q s c :
  op_queues s !! q = Some c → wp m (λ x c', Q x (set_queues (<[q := c']> (op_queues s)) s)) c → wp (on_queue q m) Q s.
Proof. intros Hc Hm. unfold on_queue. apply wp_bind, wp_get. rewrite Hc. by apply wp_zoom. Qed.

(** The log-probabilities are kept as the request asks for them: [w] for those of the
    sampled tokens, [pw] for those of the prompt. *)
Record processor_ok (w pw : bool) lp : Prop := {
  pk_num : bool_decide (is_Some (lp_num_logprobs lp)) = w;
  pk_logprobs : bool_decide (is_Some (lp_logprobs lp)) = w;
  pk_cumulative : bool_decide (is_Some (lp_cumulative_logprob lp)) = w;
  pk_num_prompt : bool_decide (is_Some (lp_num_prompt_logprobs lp)) = pw;
  pk_prompt : bool_decide (is_Some (lp_prompt_logprobs lp)) = pw
}.
(** The output reports log-probabilities only to a request that asks for them, and for the
    sampled token in every row. *)
Definition output_fits (w pw : bool) o : Prop :=
  (∀ h, eco_new_logprobs o = Some h → w = true ∧ Forall (.≠ []) (unpack h).1.2) ∧ (is_Some (eco_new_prompt_logprobs_tensors o) → pw = true).

Lemma processor_init_ok b n np : processor_ok (bool_decide (is_Some n)) (bool_decide (is_Some np)) (LogprobsProcessor_init b n np).
Proof. by split; destruct n, np. Qed.
Lemma add_rows_ok w pw rows lp : w = true → processor_ok w pw lp → (∀ e, e ∈ rows → e.1.2 ≠ []) →
  ∃ lp', foldl (add_sample_logprobs decode_one) (Ok lp) rows = Ok lp' ∧ processor_ok w pw lp'.
Proof.
  intros ->. revert lp. induction rows as [|[[rank l] ids] rows IH]; intros lp Hok Hrows; [by exists lp|].
  pose proof Hok as [(n & En)%bool_decide_eq_true (k & Ek)%bool_decide_eq_true (c & Ec)%bool_decide_eq_true H4 H5].
  destruct l as [|x l]; [by destruct (Hrows (rank, [], ids) ltac:(by left))|].
  cbn [foldl]. unfold add_sample_logprobs at 2. cbn [mbind outcome_bind]. rewrite En, Ek, Ec. cbn [mbind outcome_bind]. apply IH; [|intros e He; apply Hrows; by right].
  split; cbn; [by rewrite En|done|done|done|done].
Qed.
Lemma logprobs_update_ok w pw o lp : processor_ok w pw lp → output_fits w pw o →
  ∃ lp', logprobs_update_from_output decode_one unpack unpack_prompt o lp = Ok lp' ∧ processor_ok w pw lp'.
Proof.
  intros Hok [Hs Hp]. unfold logprobs_update_from_output.
  assert (∃ lp', match eco_new_logprobs o with Some h => _update_sample_logprobs decode_one (unpack h) lp | None => Ok lp end = Ok lp' ∧ processor_ok w pw lp') as (lp1 & -> & Hok1).
  { destruct (eco_new_logprobs o) as [h|]; [|by exists lp]. destruct (Hs h eq_refl) as [Hw Hrows]. unfold _update_sample_logprobs.
    pose proof Hok as [H1 H2 H3 _ _]. rewrite Hw in H1, H2, H3. apply bool_decide_eq_true in H1 as [? ->], H2 as [? ->], H3 as [? ->].
    destruct (unpack h) as [[ids l] ranks]. cbn in Hrows. apply (add_rows_ok w pw); [done|done|].
    intros [[rank y] i] Hx%elem_of_zip_l%elem_of_zip_r. rewrite Forall_forall in Hrows. by apply Hrows. }
  cbn [mbind outcome_bind]. destruct (eco_new_prompt_logprobs_tensors o) as [h|]; [|by exists lp1]. specialize (Hp ltac:(by eexists)).
  pose proof Hok1 as [H1 H2 H3 H4 H5]. rewrite Hp in H4, H5. apply bool_decide_eq_true in H4 as [? E4], H5 as [? E5]. unfold _update_prompt_logprobs. rewrite E4, E5.
  destruct (unpack_prompt h) as [[ids l] ranks]. eexists. split; [done|]. split; cbn; [done|done|done|by rewrite E4, Hp|by rewrite Hp].
Qed.

(** A request that streams: its own collector, no parent, and text. *)
Record streaming (w pw : bool) q r d lp : Prop := {
  sr_parent : rs_parent_req r = None;
  sr_kind : rs_output_kind r = DELTA;
  sr_queue : rs_queue r = Some q;
  sr_detokenizer : rs_detokenizer r = Some (Texts d);
  sr_logprobs : rs_logprobs_processor r = Some lp;
  sr_ok : processor_ok w pw lp
}.

(** What the update and the delta of a step give for the output [o]: the stop string that
    was found, the detokenizer after the update and the detokenizer after the delta [x]. *)
Record streamed o d (stop : option text) d1 d2 (x : text) : Prop := {
  sd_run : Detokenizer.update decode_next (eco_new_token_ids o) (bool_decide (eco_finish_reason o = Some STOP)) d = (Ok stop, d1);
  sd_updated : updated decode_next d (eco_new_token_ids o) (bool_decide (eco_finish_reason o = Some STOP)) stop d1;
  sd_offset : ∃ v, d2 = set_offset v d1;
  sd_delta : handed_out d ++ x = handed_out d2;
  sd_finished : is_Some stop ∨ is_Some (eco_finish_reason o) → handed_out d2 = output_text d2;
  sd_ok : stop = None → eco_finish_reason o = None → detokenizer_ok d2 ∧ len (output_text d2) - stop_buffer_length d2 <= _last_output_text_offset d2
}.
(** The reasons to finish after the stop string [stop]. *)
Definition finish_of o (stop : option text) : option FinishReason := match stop with Some _ => Some STOP | None => eco_finish_reason o end.
Definition stop_reason_of (stop : option text) (sr : option StopReason) : option StopReason := match stop with Some x => Some (StopString x) | None => sr end.

Lemma set_states_twice m m' s : set_states m (set_states m' s) = set_states m s.
Proof. done. Qed.

Lemma wp_process_tokens w pw s r q d lp o sr :
  request_states s !! eco_request_id o = Some r → streaming w pw q r d lp → detokenizer_ok d → output_fits w pw o →
  wp (process_tokens decode_next decode_one unpack unpack_prompt o sr) (λ res s', ∃ stop d1 lp',
    Detokenizer.update decode_next (eco_new_token_ids o) (bool_decide (eco_finish_reason o = Some STOP)) d = (Ok stop, d1) ∧
    updated decode_next d (eco_new_token_ids o) (bool_decide (eco_finish_reason o = Some STOP)) stop d1 ∧
    processor_ok w pw lp' ∧
    s' = set_states (<[eco_request_id o := set_logprobs_processor (Some lp') (set_detokenizer (Some (Texts d1)) r)]> (request_states s)) s ∧
    res = (finish_of o stop, stop_reason_of stop sr)) s.
Proof.
  intros Hr [Hp Hk Hq Hd Hl Hlok] Hok Hfit. destruct (logprobs_update_ok w pw o lp Hlok Hfit) as (lp' & Hlp & Hw). unfold process_tokens. apply (wp_on_state _ _ _ _ r Hr).
  apply wp_bind, wp_get. rewrite Hd, Hl. apply wp_bind. unfold detokenizer_update. apply wp_bind, wp_get. rewrite Hd. apply wp_zoom.
  pose proof (wp_update decode_next decodes d (eco_new_token_ids o) (bool_decide (eco_finish_reason o = Some STOP)) (do_stop d Hok)) as (stop & d1 & Hrun & Hup)%wp_elim.
  unfold wp at 1. rewrite Hrun. apply wp_bind, wp_get. apply wp_bind. eapply wp_lift_outcome; [cbn [rs_logprobs_processor set_detokenizer]; rewrite Hl; exact Hlp|].
  apply wp_bind, wp_modify, wp_ret. exists stop, d1, lp'. split_and!; [done|done|done|done|].
  destruct stop as [[|c x]|]; [|done|done]. destruct Hup as [_ _ (_ & before & after & i & Hst & _)]. exfalso.
  apply (do_stop d Hok []); [|done]. rewrite Hst. apply elem_of_app. right. by left.
Qed.

Lemma wp_new_completion_output w pw r q d lp ids fr sr :
  streaming w pw q r d lp → 0 <= stop_buffer_length d → 0 <= _last_output_text_offset d <= len (output_text d) → (fr = None → detokenizer_ok d) →
  wp (_new_completion_output ids fr sr) (λ y r', ∃ d2, r' = set_detokenizer (Some (Texts d2)) r ∧ (∃ v, d2 = set_offset v d) ∧
    handed_out d ++ co_text y = handed_out d2 ∧ (is_Some fr → handed_out d2 = output_text d2) ∧ (fr = None → detokenizer_ok d2 ∧ len (output_text d2) - stop_buffer_length d2 <= _last_output_text_offset d2) ∧
    co_token_ids y = ids ∧ co_index y = rs_request_index r ∧ bool_decide (is_Some (co_logprobs y)) = w) r.
Proof.
  intros [Hp Hk Hq Hd Hl Hlok] Hb Ho Hok. unfold _new_completion_output. apply wp_bind, wp_get. rewrite Hd, Hl, Hk, bool_decide_eq_true_2 by done.
  apply wp_bind. unfold detokenizer_text. apply wp_bind, wp_get. rewrite Hd. apply wp_zoom.
  eapply wp_mono; [apply wp_get_delta; [done|done|intros Hf%bool_decide_eq_false; by apply Hok, eq_None_not_Some]|]. cbn beta. intros x d2 (Hx & Hv & Hfin & Hok2).
  apply wp_bind, wp_get, wp_ret. exists d2. split_and!; [done|done|done| | |done|done|].
  - intros Hf. by apply Hfin, bool_decide_eq_true.
  - intros ->. by apply Hok2.
  - cbn. rewrite <- (pk_logprobs _ _ _ Hlok). by destruct (lp_logprobs lp) as [[|]|].
Qed.

Lemma wp_new_request_output w pw r q d lp id outputs fin kv n :
  streaming w pw q r d lp →
  wp (_new_request_output id outputs fin kv n) (λ y r', ro_outputs y = outputs ∧ ro_finished y = fin ∧
    ∃ lp', r' = set_logprobs_processor (Some lp') r ∧ processor_ok w pw lp') r.
Proof.
  intros [Hp Hk Hq Hd Hl Hlok]. unfold _new_request_output. apply wp_bind, wp_get. rewrite Hl, Hk, decide_True by done.
  apply wp_bind. unfold pop_prompt_logprobs. apply wp_bind, wp_put, wp_ret, wp_ret. split_and!; [done|done|]. eexists. split; [done|].
  destruct Hlok as [H1 H2 H3 H4 H5]. destruct (lp_prompt_logprobs lp) as [[|]|] eqn:E; split; cbn; by rewrite ?E.
Qed.

(** * One step *)

(** The request [id] streams its text to the collector [c], as completion [index]. *)
Definition streams (w pw : bool) index s id q d c : Prop := ∃ r lp,
  request_states s !! id = Some r ∧ streaming w pw q r d lp ∧ rs_request_index r = index ∧ op_queues s !! q = Some c ∧ delta_collector index w c.

Lemma wp_make_streaming w pw s r q d lp id ids fr sr kv n :
  request_states s !! id = Some r → streaming w pw q r d lp → 0 <= stop_buffer_length d → 0 <= _last_output_text_offset d <= len (output_text d) →
  (fr = None → detokenizer_ok d) →
  wp (make_request_output id ids None fr sr kv n) (λ y s', ∃ d2 r2 lp2 out x, y = Some (Completion out) ∧ ro_outputs out = [Some x] ∧
    s' = set_states (<[id := r2]> (request_states s)) s ∧ streaming w pw q r2 d2 lp2 ∧ rs_request_index r2 = rs_request_index r ∧
    (∃ v, d2 = set_offset v d) ∧ handed_out d ++ co_text x = handed_out d2 ∧ (is_Some fr → handed_out d2 = output_text d2) ∧ (fr = None → detokenizer_ok d2 ∧ len (output_text d2) - stop_buffer_length d2 <= _last_output_text_offset d2) ∧
    co_token_ids x = ids ∧ co_index x = rs_request_index r ∧ bool_decide (is_Some (co_logprobs x)) = w) s.
Proof.
  intros Hr Hst Hb Ho Hok. pose proof Hst as [Hp Hk Hq Hd Hl Hlok]. unfold make_request_output. apply wp_bind, (wp_read_state _ _ _ r Hr).
  rewrite Hk, (bool_decide_eq_false_2 (DELTA = FINAL_ONLY)), andb_false_r by done. apply wp_bind, (wp_on_state _ _ _ _ r Hr).
  eapply wp_mono; [by apply (wp_new_completion_output w pw r q d lp)|]. cbn beta. intros x r1 (d2 & -> & Hv & Hx & Hfin & Hok2 & Hids & Hidx & Hw). rewrite Hp.
  set (r1 := set_detokenizer _ r). assert (streaming w pw q r1 d2 lp) as Hst1 by done.
  apply wp_bind, (wp_on_state _ _ _ _ r1); [apply lookup_insert_eq|].
  eapply wp_mono; [by apply (wp_new_request_output w pw r1 q d2 lp)|]. cbn beta. intros out r2 (Hout & _ & lp2 & -> & Hlok2). apply wp_ret.
  exists d2, (set_logprobs_processor (Some lp2) r1), lp2, out, x. split_and!; try done. cbn. by rewrite insert_insert_eq.
Qed.

(** The requests that the engine core has to be told of. *)
Definition to_abort o (stop : option text) : list string := match finish_of o stop with Some _ => if eco_finished o then [] else [eco_request_id o] | None => [] end.

Lemma wp_finish_streaming s r id o q d lp w pw :
  id = eco_request_id o → request_states s !! id = Some r → streaming w pw q r d lp →
  wp (free_finished o) (λ l s', l = (if eco_finished o then [] else [id]) ∧ s' = set_states (delete id (request_states s)) s) s.
Proof.
  intros -> Hr [Hp _ _ _ _ _]. unfold free_finished. apply wp_bind, (wp_read_state _ _ _ r Hr). apply wp_bind, wp_modify. rewrite Hp. apply wp_bind, wp_ret, wp_ret. done.
Qed.

Lemma wp_process_streaming w pw index s id q d c acc o :
  id = eco_request_id o → streams w pw index s id q d c → detokenizer_ok d → output_fits w pw o → eco_pooling_output o = None →
  wp (process_one decode_next decode_one unpack unpack_prompt acc o) (λ acc' s', ∃ stop d1 d2 x c', streamed o d stop d1 d2 x ∧
    waiting c' = ((waiting c).1 ++ x, (waiting c).2 ++ eco_new_token_ids o) ∧ op_queues s' !! q = Some c' ∧ delta_collector index w c' ∧
    request_outputs acc' = request_outputs acc ∧ reqs_to_abort acc' = reqs_to_abort acc ++ to_abort o stop ∧
    match finish_of o stop with None => streams w pw index s' id q d2 c' | Some _ => request_states s' !! id = None end) s.
Proof.
  intros Hid (r & lp & Hr & Hst & Hindex & Hc & Hcol) Hok Hfit Hpool. subst id. set (id := eco_request_id o) in *. unfold process_one. apply wp_bind, wp_get. fold id. rewrite Hr.
  apply wp_bind, (wp_on_state _ _ _ _ r Hr), wp_modify. set (r0 := set_prefilling false r). set (s0 := set_states _ s).
  assert (request_states s0 !! id = Some r0) as Hr0 by apply lookup_insert_eq. assert (streaming w pw q r0 d lp) as Hst0 by (by destruct Hst).
  rewrite Hpool. apply wp_bind. eapply wp_mono; [by eapply (wp_process_tokens w pw)|]. cbn beta. intros res s1 (stop & d1 & lp1 & Hrun & Hup & Hlok1 & Hs1 & ->).
  fold id in Hs1. set (r1 := set_logprobs_processor _ _) in Hs1. assert (request_states s1 !! id = Some r1) as Hr1 by (rewrite Hs1; apply lookup_insert_eq).
  assert (streaming w pw q r1 d1 lp1) as Hst1 by (by destruct Hst). destruct (updated_handed_out _ d _ _ _ d1 Hok Hup) as (Hol & Hho & Hok1). pose proof Hup as [[_ _ Sb So _] _ _].
  destruct Hok as [_ [Hb _] Hofs]. set (sr := stop_reason_of _ _). set (fr := finish_of o stop).
  apply wp_bind. eapply wp_mono; [apply (wp_make_streaming w pw s1 r1 q d1 lp1); [done|done|by rewrite Sb|rewrite So; lia|]|].
  { intros Hfr. apply Hok1. unfold fr in Hfr. by destruct stop. }
  cbn beta. intros y s2 (d2 & r2 & lp2 & out & x & -> & Hout & Hs2 & Hst2 & Hri & Hv & Hx & Hfin & Hok2 & Hids & Hidx & Hw).
  assert (request_states s2 !! id = Some r2) as Hr2 by (rewrite Hs2; apply lookup_insert_eq).
  apply wp_bind, (wp_read_state _ _ _ r2 Hr2). rewrite (sr_queue _ _ _ _ _ _ Hst2). apply wp_bind, wp_bind, (wp_on_queue _ _ _ _ c); [by rewrite Hs2, Hs1|].
  eapply wp_mono; [apply (wp_put_delta index w c out x); [done|done|by rewrite Hidx|done]|]. cbn beta. intros _ c' [Hc' Hwait]. apply wp_ret.
  assert (streamed o d stop d1 d2 (co_text x)) as Hstr.
  { split; [done|done|done|by rewrite <- Hho| |].
    - intros Hf. apply Hfin. unfold fr. destruct stop; [by eexists|]. by destruct Hf as [[? ?]|?].
    - intros -> ?. by apply Hok2. }
  rewrite Hids in Hwait. set (s3 := set_queues _ s2). assert (request_states s3 !! id = Some r2) as Hr3 by done.
  assert (op_queues s3 !! q = Some c') as Hq3 by apply lookup_insert_eq. apply wp_bind. unfold to_abort. destruct fr as [f|] eqn:Efr; unfold fr in Efr.
  - eapply wp_mono; [by apply (wp_finish_streaming s3 r2 id o q d2 lp2 w pw)|]. cbn beta. intros l s4 [-> ->]. apply wp_ret. exists stop, d1, d2, (co_text x), c'.
    split_and!; [done|done|done|done|cbn; by rewrite app_nil_r|by rewrite Efr|]. rewrite Efr. apply lookup_delete_eq.
  - apply wp_ret, wp_ret. exists stop, d1, d2, (co_text x), c'. split_and!; [done|done|done|done|cbn; by rewrite app_nil_r|by rewrite Efr|].
    rewrite Efr. exists r2, lp2. split_and!; [done|done|by rewrite Hri|done|done].
Qed.
End facts.

(** * The children of a parallel-sampling request *)
Lemma append_inj_l (a b c : string) : (a +:+ c = b +:+ c)%string → a = b.
Proof.
  assert (∀ x y : string, String.length (x +:+ y) = (String.length x + String.length y)%nat) as Hlen by (induction x as [|? x IH]; intros y; [done|]; exact (f_equal S (IH y))).
  revert b. induction a as [|x a IH]; intros [|y b] H; [done| | |].
  - apply (f_equal String.length) in H. rewrite !Hlen in H. simpl in H. lia.
  - apply (f_equal String.length) in H. rewrite !Hlen in H. simpl in H. lia.
  - injection H as -> H. f_equal. by apply IH.
Qed.
#[export] Instance child_id_inj id : Inj (=) (=) (λ i, child_id i id).
Proof. intros i j H%append_inj_l. by apply (inj pretty). Qed.

(** The parent after some children have been created and some have finished. *)
Record parent_state (id : string) (p : OutputParams) (children : list Z) (aggregator : list (option CompletionOutput)) (pr : ParentRequest) : Prop := {
  pp_id : pr_request_id pr = id;
  pp_params : pr_sampling_params pr = p;
  pp_children : child_requests pr = list_to_set ((λ i, child_id i id) <$> children);
  pp_aggregator : output_aggregator pr = aggregator;
  pp_cached : ∀ c, cached_child_sampling_params pr = Some c → op_n c = 1
}.

Lemma wp_get_child_info id p children aggregator i pr :
  parent_state id p children aggregator pr →
  wp (get_child_info i) (λ x pr', x.1 = child_id i id ∧ op_n x.2 = 1 ∧ parent_state id p (children ++ [i]) aggregator pr') pr.
Proof.
  intros [H1 H2 H3 H4 H5]. unfold get_child_info. apply wp_bind, wp_get, wp_bind, wp_modify, wp_bind.
  unfold _get_child_sampling_params. apply wp_bind, wp_get. cbn [cached_child_sampling_params set_children pr_sampling_params].
  assert ({[ child_id i id ]} ∪ child_requests pr = list_to_set ((λ i, child_id i id) <$> children ++ [i])) as Hset.
  { rewrite H3, fmap_app, list_to_set_app_L. cbn. set_solver. }
  destruct (cached_child_sampling_params pr) as [c|] eqn:Ec; [|destruct (op_seed _)].
  - apply wp_ret, wp_ret. cbn. rewrite H1. split_and!; [done|by apply H5|]. split; cbn; [done|done|done|done|by rewrite Ec].
  - apply wp_ret, wp_ret. cbn. rewrite H1. split_and!; [done|done|]. split; cbn; [done|done|done|done|by rewrite Ec].
  - apply wp_bind, wp_modify, wp_ret, wp_ret. cbn. rewrite H1. split_and!; [done|done|]. split; cbn; [done|done|done|done|by intros c [= <-]].
Qed.

(** What [get_outputs] returns for the final output of a child. *)
Definition parent_answer (id : string) (p : OutputParams) (todo : list Z) (aggregator : list (option CompletionOutput)) (out : CompletionOutput)
    : string * list (option CompletionOutput) * bool :=
  (id, if decide (op_output_kind p = FINAL_ONLY) then (if decide (todo = []) then aggregator else []) else [Some out], bool_decide (todo = [])).

Lemma wp_get_outputs id p i todo aggregator out pr :
  parent_state id p (i :: todo) aggregator pr → i ∉ todo → is_Some (co_finish_reason out) → co_index out = i →
  (op_output_kind p = FINAL_ONLY → 0 <= i < len aggregator) →
  let aggregator' := if decide (op_output_kind p = FINAL_ONLY) then <[Z.to_nat i := Some out]> aggregator else aggregator in
  wp (get_outputs (child_id i id) out) (λ x pr', x = parent_answer id p todo aggregator' out ∧ parent_state id p todo aggregator' pr') pr.
Proof.
  intros [H1 H2 H3 H4 H5] Hnin [f Hf] Hi Hlt aggregator'. unfold get_outputs. rewrite Hf. apply wp_bind, wp_bind, wp_get.
  rewrite decide_True by (rewrite H3; set_solver). apply wp_modify, wp_bind, wp_get. cbn [pr_sampling_params set_children child_requests output_aggregator pr_request_id].
  rewrite H1, H2, H4, Hi. unfold aggregator', parent_answer.
  assert (child_requests pr ∖ {[child_id i id]} = list_to_set ((λ i, child_id i id) <$> todo)) as Hset.
  { rewrite H3. cbn. assert (child_id i id ∉@{gset string} list_to_set ((λ i, child_id i id) <$> todo)); [|set_solver].
    rewrite elem_of_list_to_set, list_elem_of_fmap. by intros (j & ->%child_id_inj & ?). }
  assert (child_requests pr ∖ {[child_id i id]} = ∅ ↔ todo = []) as Hempty by (rewrite Hset; destruct todo; cbn; set_solver).
  apply wp_bind. destruct (decide (op_output_kind p = FINAL_ONLY)) as [Hk|Hk].
  - rewrite decide_False by tauto. specialize (Hlt Hk). rewrite decide_True by done. apply wp_bind, wp_modify, wp_ret, wp_ret. split.
    + rewrite (bool_decide_ext _ _ Hempty). destruct (decide (todo = [])) as [E|E]; [by rewrite decide_True by (by apply Hempty)|by rewrite decide_False by (by rewrite Hempty)].
    + by split.
  - rewrite decide_True by done. apply wp_ret, wp_ret. split; [by rewrite (bool_decide_ext _ _ Hempty)|]. by split.
Qed.

(** * Aborting ends *)

(** The computation does not run out of fuel and adds no parent. *)
Definition ends {D A} (m : M (OutputProcessor D) A) (s : OutputProcessor D) : Prop :=
  (m s).1 ≠ Raise OutOfFuel ∧ op_parent_requests (m s).2 ⊆ op_parent_requests s.

Lemma ends_bind {D A B} (m : M (OutputProcessor D) A) (f : A → M (OutputProcessor D) B) s :
  ends m s → (∀ a s', m s = (Ok a, s') → ends (f a) s') → ends (x ← m; f x) s.
Proof.
  unfold ends, mbind, M_bind. intros [H1 H2] Hf. destruct (m s) as [[a|e] s'] eqn:E; [|split; [|done]; cbn in *; congruence].
  destruct (Hf a s' eq_refl) as [H3 H4]. split; [done|]. cbn in H2. set_solver.
Qed.
Lemma ends_map_each {D A B} (l : list A) (f : A → M (OutputProcessor D) B) P :
  (∀ x s, op_parent_requests s ⊆ P → ends (f x) s) → ∀ s, op_parent_requests s ⊆ P → ends (map_each l f) s.
Proof.
  intros Hf. induction l as [|x l IH]; intros s Hs; cbn [map_each]; [done|].
  apply ends_bind; [by apply Hf|]. intros y s' Hy. destruct (Hf x s Hs) as [_ H]. rewrite Hy in H. cbn in H.
  apply ends_bind; [apply IH; set_solver|]. done.
Qed.

Lemma abort_one_ends {D} (children : list string → M (OutputProcessor D) unit) id s :
  (∀ ids s', id ∈ op_parent_requests s → op_parent_requests s' ⊆ op_parent_requests s ∖ {[ id ]} → ends (children ids) s') → ends (abort_one children id) s.
Proof.
  intros Hc. unfold abort_one. apply ends_bind; [done|]. intros s0 s1 [= <- <-]. destruct (request_states s !! id) as [r|].
  - apply ends_bind; [done|]. intros [] s1 [= <-]. apply ends_bind; [|done].
    unfold lora_abort_request, ends, mbind, M_bind, get. destruct (rs_lora_name r); [|done]. cbn. by destruct (op_lora_states s !! _).
  - apply ends_bind; [split; [done|cbn; set_solver]|]. intros [] s1 [= <-]. case_decide as Hin; [|done].
    destruct (op_parents s !! id) as [p|]; [|done]. case_decide; [done|]. apply ends_bind; [by apply Hc|done].
Qed.

(** [abort_requests] never runs out of fuel. *)
Lemma abort_requests_ends {D} ids (s : OutputProcessor D) : ends (abort_requests ids) s.
Proof.
  unfold abort_requests. apply ends_bind; [done|]. intros s0 s1 [= <- <-]. remember (base.size (op_parent_requests s)) as fuel eqn:Hf.
  assert (base.size (op_parent_requests s) <= fuel)%nat as Hle by lia. clear Hf. revert ids s Hle. induction fuel as [|fuel IH]; intros ids s Hle; cbn [abort_loop].
  - apply ends_bind; [|done]. apply (ends_map_each _ _ (op_parent_requests s)); [|done]. intros id s' Hs'. apply abort_one_ends. intros ids' s'' Hid _.
    exfalso. assert (op_parent_requests s = ∅) as He by (apply leibniz_equiv, size_empty_inv; lia). set_solver.
  - apply ends_bind; [|done]. apply (ends_map_each _ _ (op_parent_requests s)); [|done]. intros id s' Hs'. apply abort_one_ends. intros ids' s'' Hid Hs''.
    apply ends_bind; [|done]. apply IH. apply subseteq_size in Hs''. rewrite size_difference in Hs'' by set_solver. rewrite size_singleton in Hs''.
    apply subseteq_size in Hs'. lia.
Qed.
