(* ===== verification/OutputTheorems.v ===== *)
(** What the processing of outputs promises: the deltas a client receives are the text that
    would be returned at once, a stop string ends the text where it is first found, and the
    outputs of the children of a parallel-sampling request are put together. *)
From Stdlib Require Import ZArith QArith Lia.
From stdpp Require Import base strings countable pretty gmap sets list.
From S2P Require Import Prelude Request SchedulerData Detokenizer DetokenizerFacts IncrementalDecoding DecodingFacts RequestOutputs OutputProcessor OutputFacts.
Local Open Scope Z_scope.

(** * Streams *)

(** A request's outputs come from the engine core and its consumer reads in between. *)
Inductive stream_event : Type := Produced (o : EngineCoreOutput) | Consumed.
Definition produced (e : stream_event) : option EngineCoreOutput := match e with Produced o => Some o | Consumed => None end.

Section stream.
Context {D : Type} (decode_next : list Z → Z → M D text) (decode_one : Z → text).
Context (unpack unpack_prompt : handle → LogprobRows).

Definition read_output (received : text * list Z) (y : option AnyOutput) : text * list Z :=
  match y with
  | Some (Completion o) => match ro_outputs o with [Some x] => (received.1 ++ co_text x, received.2 ++ co_token_ids x) | _ => received end
  | _ => received
  end.
Definition stream_step (q : nat) (received : text * list Z) (e : stream_event) : M (OutputProcessor D) (text * list Z) :=
  match e with
  | Produced o => process_outputs decode_next decode_one unpack unpack_prompt [o] ;; mret received
  | Consumed => y ← on_queue q collector_get_nowait; mret (read_output received y)
  end.

(** The detokenizer by itself, up to the output that finishes the request, the tokens it
    was given, and whether the request has finished. *)
Fixpoint detokenize (d : Detokenizer D) (ids : list Z) (outputs : list EngineCoreOutput) : Detokenizer D * list Z * bool :=
  match outputs with
  | [] => (d, ids, false)
  | o :: outputs =>
    match Detokenizer.update decode_next (eco_new_token_ids o) (bool_decide (eco_finish_reason o = Some STOP)) d with
    | (Ok stop, d) =>
      match finish_of o stop with Some _ => (d, ids ++ eco_new_token_ids o, true) | None => detokenize d (ids ++ eco_new_token_ids o) outputs end
    | (Raise _, d) => (d, ids, false)
    end
  end.

(** What the consumer has received and what waits for it are what the detokenizer [d] has
    handed out. *)
Definition in_step (w pw : bool) (index : Z) (id : string) (q : nat) (d : Detokenizer D) (ids : list Z) (finished : bool)
    (received : text * list Z) (s : OutputProcessor D) : Prop :=
  ∃ c d', op_queues s !! q = Some c ∧ delta_collector index w c ∧ (∃ v, d' = set_offset v d) ∧
    received.1 ++ (waiting c).1 = handed_out d' ∧ received.2 ++ (waiting c).2 = ids ∧
    if finished then request_states s !! id = None ∧ handed_out d' = output_text d'
    else streams w pw index s id q d' c ∧ detokenizer_ok d' ∧ len (output_text d') - stop_buffer_length d' <= _last_output_text_offset d'.

Context (decodes : ∀ ids id s, ∃ x s', decode_next (ids ++ [id]) id s = (Ok x, s')).

Lemma wp_produced w pw index id q d ids received s o :
  in_step w pw index id q d ids false received s → eco_request_id o = id → output_fits unpack w pw o → eco_pooling_output o = None →
  wp (stream_step q received (Produced o)) (λ received' s', ∃ d' (finished : bool),
    (∀ outputs, detokenize d ids (o :: outputs) = if finished then (d', ids ++ eco_new_token_ids o, true) else detokenize d' (ids ++ eco_new_token_ids o) outputs) ∧
    in_step w pw index id q d' (ids ++ eco_new_token_ids o) finished received' s') s.
Proof.
  intros (c & dv & Hc & Hcol & [v ->] & Hx & Hids & Hst & Hok & _) <- Hfit Hpool. cbn [stream_step]. unfold process_outputs. cbn [fold_each].
  apply wp_bind, wp_bind. eapply wp_mono; [by eapply (wp_process_streaming decode_next decode_one unpack unpack_prompt decodes w pw index)|].
  cbn beta. intros acc s' (stop & d1 & d2 & x & c' & [Hrun Hup Hv Hdel Hfin Hok2] & Hwait & Hq & Hcol' & _ & _ & Hs'). apply wp_ret, wp_ret.
  rewrite update_offset in Hrun. destruct (Detokenizer.update _ _ _ d) as [[stop'|e] d0] eqn:Eup; [|done]. injection Hrun as -> <-.
  destruct Hv as [v' ->]. exists d0, (bool_decide (is_Some (finish_of o stop))). split; [intros outputs; cbn [detokenize]; rewrite Eup; by destruct (finish_of o stop)|].
  exists c', (set_offset v' d0). split_and!; [done|done|by exists v'|by rewrite Hwait; cbn; rewrite app_assoc, Hx|by rewrite Hwait; cbn; rewrite app_assoc, Hids|].
  destruct (finish_of o stop) as [f|] eqn:Ef; cbn.
  - split; [done|]. apply Hfin. destruct stop; [by left|right; by exists f].
  - destruct stop; [done|]. by destruct (Hok2 eq_refl Ef).
Qed.

Lemma wp_ignored w pw index id q d ids received s o :
  in_step w pw index id q d ids true received s → eco_request_id o = id →
  wp (stream_step q received (Produced o)) (λ received' s', received' = received ∧ s' = s) s.
Proof.
  intros (c & dv & Hc & _ & _ & _ & _ & Hs & _) <-. cbn [stream_step]. unfold process_outputs. cbn [fold_each]. apply wp_bind, wp_bind.
  unfold process_one. apply wp_bind, wp_get. rewrite Hs. by apply wp_ret, wp_ret, wp_ret.
Qed.

Lemma wp_consumed w pw index id q d ids finished received s :
  in_step w pw index id q d ids finished received s → wp (stream_step q received Consumed) (λ received' s', in_step w pw index id q d ids finished received' s') s.
Proof.
  intros (c & dv & Hc & Hcol & Hv & Hx & Hids & Hs). cbn [stream_step]. apply wp_bind, (wp_on_queue _ _ _ _ c Hc).
  eapply wp_mono; [by apply (wp_get_waiting index w)|]. cbn beta. intros y c' (Hcol' & Hw' & Hw). apply wp_ret.
  assert (read_output received y = (received.1 ++ (waiting c).1, received.2 ++ (waiting c).2)) as ->.
  { rewrite Hw. destruct y as [[o|?|?]|]; cbn; rewrite ?app_nil_r; [|by destruct received..]. destruct (ro_outputs o) as [|[x|] [|]]; cbn; rewrite ?app_nil_r; by destruct received. }
  exists c', dv. rewrite Hw'. cbn. rewrite !app_nil_r. split_and!; [apply lookup_insert_eq|done|done|done|done|].
  destruct finished; [done|]. destruct Hs as ((r & lp & Hr & Hst & Hi & _) & Hok). split; [|done]. exists r, lp. split_and!; [done|done|done|apply lookup_insert_eq|done].
Qed.

Definition event_fits (w pw : bool) (id : string) (e : stream_event) : Prop :=
  match e with Produced o => eco_request_id o = id ∧ eco_pooling_output o = None ∧ output_fits unpack w pw o | Consumed => True end.

Lemma wp_stream w pw index id q evs d ids finished received s :
  in_step w pw index id q d ids finished received s → Forall (event_fits w pw id) evs →
  wp (fold_each evs received (stream_step q)) (λ received' s', ∃ d' ids' finished',
    (if finished then (d, ids, true) else detokenize d ids (omap produced evs)) = (d', ids', finished') ∧
    in_step w pw index id q d' ids' finished' received' s') s.
Proof.
  revert d ids finished received s. induction evs as [|e evs IH]; intros d ids finished received s Hin Hfits; cbn [fold_each].
  { apply wp_ret. exists d, ids, finished. by destruct finished. }
  apply Forall_cons in Hfits as [He Hfits]. apply wp_bind. destruct e as [o|].
  - destruct He as (Hid & Hpool & Hfit). destruct finished.
    + eapply wp_mono; [by eapply wp_ignored|]. intros ? ? [-> ->]. by apply (IH d ids true).
    + eapply wp_mono; [by eapply wp_produced|]. cbn beta. intros received' s' (d' & fin & Hd & Hin'). eapply wp_mono; [by eapply IH|].
      cbn beta. intros received2 s2 (d2 & ids2 & fin2 & Hd2 & Hin2). exists d2, ids2, fin2. split; [|done].
      change (omap produced (Produced o :: evs)) with (o :: omap produced evs). rewrite Hd. by destruct fin.
  - eapply wp_mono; [by eapply wp_consumed|]. cbn beta. intros received' s' Hin'. eapply wp_mono; [by eapply IH|]. done.
Qed.

Context (has_tokenizer : bool) (new_decoder : EngineRequest → D) (keeps_prompt : bool).
(** The detokenizer of a new request. *)
Definition first_detokenizer (request : EngineRequest) (p : OutputParams) : Detokenizer D :=
  Detokenizer_init (op_stop p) (op_include_stop p) (if keeps_prompt then er_prompt_token_ids request else []) (new_decoder request).

Lemma wp_start_stream request p q s :
  er_params request = inl p → op_output_kind p = DELTA → has_tokenizer && op_detokenize p = true → (∀ x, x ∈ op_stop p → x ≠ []) →
  request_states s !! er_request_id request = None → op_queues s !! q = Some (RequestOutputCollector_init DELTA) →
  wp (add_request has_tokenizer new_decoder keeps_prompt request None 0 (Some q)) (λ _ s',
    in_step (bool_decide (is_Some (op_logprobs p))) (bool_decide (is_Some (op_prompt_logprobs p))) 0 (er_request_id request) q (first_detokenizer request p) [] false ([], []) s') s.
Proof.
  intros Hp Hk Htext Hstop Hnew Hq. unfold add_request. apply wp_bind, wp_get. rewrite decide_False by (rewrite Hnew; by intros [? ?]).
  apply wp_bind, wp_modify, wp_bind, wp_modify, wp_ret. set (r := from_new_request _ _ _ _ _ _ _). set (s1 := set_states _ s).
  set (d := first_detokenizer request p). pose proof (new_detokenizer_ok (op_stop p) (op_include_stop p) (if keeps_prompt then er_prompt_token_ids request else []) (new_decoder request) Hstop) as Hok.
  change (detokenizer_ok d) in Hok.
  assert (request_states (lora_add_request r s1) = request_states s1 ∧ op_queues (lora_add_request r s1) = op_queues s1) as [Hst Hqs].
  { unfold lora_add_request. by destruct (rs_lora_name r). }
  exists (RequestOutputCollector_init DELTA), d. split; [by rewrite Hqs|]. split; [by split|]. split; [by exists 0|]. split; [done|]. split; [done|].
  split; [|split; [done|]]. 2:{ destruct Hok as [_ [Hb _] _]. change (0 - stop_buffer_length d <= 0). lia. }
  exists r, (LogprobsProcessor_init true (op_logprobs p) (op_prompt_logprobs p)). rewrite Hst, Hqs. split_and!; [apply lookup_insert_eq| |unfold r, from_new_request; by rewrite Hp|done|by split].
  unfold r, from_new_request, new_detokenizer. rewrite Hp, Htext. split; [done|done|done|done|done|]. apply processor_init_ok.
Qed.
End stream.

(** * Samples *)

(** A token is its own text, code point by code point. *)
Definition sample_decode (ids : list Z) (id : Z) : M unit text := mret [id].
Definition sample_params (kind : RequestOutputKind) (n : Z) : OutputParams := mkOutputParams n kind true [[99; 97]] false None None None.
Definition sample_request : EngineRequest := mkEngineRequest "r" [1; 2] (inl (sample_params DELTA 1)) None.
Definition sample_output (ids : list Z) (finish : option FinishReason) : EngineCoreOutput := mkEngineCoreOutput "r" ids None None None finish None None None 0.
Definition sample_rows (h : handle) : LogprobRows := ([], [], []).
(** The stop string comes in two steps, and a token after it. *)
Definition sample_events : list stream_event :=
  [Produced (sample_output [97; 98] None); Consumed; Produced (sample_output [99] None); Consumed; Produced (sample_output [97; 100] None);
   Consumed; Produced (sample_output [101] None)].
Definition sample_processor : OutputProcessor unit := mkOutputProcessor unit ∅ ∅ ∅ {[ 0%nat := RequestOutputCollector_init DELTA ]} ∅.
Lemma sample_events_fit : Forall (event_fits sample_rows false false "r") sample_events.
Proof. repeat constructor; cbn; try done; intros H; inversion H; done. Qed.

Lemma Ok_inj {A} (x y : A) : Ok x = Ok y → x = y.
Proof. by intros [= ->]. Qed.
Lemma sample_detokenized :
  ∃ d, detokenize sample_decode (first_detokenizer (λ _, tt) false sample_request (sample_params DELTA 1)) [] (omap produced sample_events) = (d, [97; 98; 99; 97; 100], true) ∧
    output_text d = [97; 98].
Proof. eexists. split; [vm_compute; reflexivity|done]. Qed.

(** C11: the deltas are the text: whatever the engine core reports for a new request that
    streams its text, and whenever the consumer reads, nothing is raised; what the
    consumer has received together with what waits for it are all tokens reported so far, and
    their text up to at most [stop_buffer_length] characters that are held back; and
    once the request has finished it is exactly the text that the request would get at once,
    and outputs that come later change nothing. *)
Theorem streamed_text_is_final_text {D} (decode_next : list Z → Z → M D text) decode_one unpack unpack_prompt has_tokenizer new_decoder keeps_prompt
    request p q evs s :
  (∀ ids id s, ∃ x s', decode_next (ids ++ [id]) id s = (Ok x, s')) →
  er_params request = inl p → op_output_kind p = DELTA → has_tokenizer && op_detokenize p = true → (∀ x, x ∈ op_stop p → x ≠ []) →
  request_states s !! er_request_id request = None → op_queues s !! q = Some (RequestOutputCollector_init DELTA) →
  Forall (event_fits unpack (bool_decide (is_Some (op_logprobs p))) (bool_decide (is_Some (op_prompt_logprobs p))) (er_request_id request)) evs →
  wp (add_request has_tokenizer new_decoder keeps_prompt request None 0 (Some q) ;;
      fold_each evs ([], []) (stream_step decode_next decode_one unpack unpack_prompt q))
    (λ received s', ∃ c, op_queues s' !! q = Some c ∧
      let '(d, ids, finished) := detokenize decode_next (first_detokenizer new_decoder keeps_prompt request p) [] (omap produced evs) in
      received.2 ++ (waiting c).2 = ids ∧
      if finished then (get_next_output_text true false d).1 = Ok (received.1 ++ (waiting c).1) ∧ request_states s' !! er_request_id request = None
      else ∃ held, received.1 ++ (waiting c).1 ++ held = output_text d ∧ len held <= stop_buffer_length d) s.
Proof.
  intros Hdec Hp Hk Htext Hstop Hnew Hq Hfits. apply wp_bind. eapply wp_mono; [by eapply (wp_start_stream has_tokenizer new_decoder keeps_prompt request p q)|].
  cbn beta. intros _ s1 Hin. eapply wp_mono; [by eapply (wp_stream decode_next decode_one unpack unpack_prompt Hdec)|].
  cbn beta. intros received s2 (d & ids & finished & -> & c & dv & Hc & _ & [v ->] & Hx & Hids & Hs). exists c. split_and!; [done..|]. destruct finished.
  - destruct Hs as [Hs Hall]. split; [|done]. rewrite Hx, Hall. done.
  - destruct Hs as (_ & [_ [Hb _] Ho] & Hheld). cbn in Hb, Ho, Hheld. exists (slice_from v (output_text d)). rewrite app_assoc, Hx. unfold handed_out, slice_to, slice_from, slice_bound.
    cbn. split; [apply take_drop|]. unfold len in *. rewrite length_drop. rewrite decide_False by lia. lia.
Qed.

Lemma streamed_text_is_final_text_witness :
  wp (add_request true (λ _, tt) false sample_request None 0 (Some 0%nat) ;; fold_each sample_events ([], []) (stream_step sample_decode (λ _, []) sample_rows sample_rows 0))
    (λ received s', ∃ c, op_queues s' !! 0%nat = Some c ∧ received.2 ++ (waiting c).2 = [97; 98; 99; 97; 100] ∧ received.1 ++ (waiting c).1 = [97; 98] ∧ request_states s' !! "r"%string = None)
    sample_processor.
Proof.
  destruct sample_detokenized as (d & Hd & Htext).
  eapply wp_mono.
  - apply (streamed_text_is_final_text sample_decode (λ _, []) sample_rows sample_rows true (λ _, tt) false sample_request (sample_params DELTA 1) 0 sample_events sample_processor).
    + intros ids id s. by exists [id], s.
    + done.
    + done.
    + done.
    + by intros x ->%list_elem_of_singleton.
    + done.
    + done.
    + exact sample_events_fit.
  - cbn beta. intros received s' (c & Hc & H). exists c. split; [exact Hc|].
    rewrite Hd in H. destruct H as (Hids & Ht & Hgone).
    assert ((get_next_output_text true false d).1 = Ok (output_text d)) as E by reflexivity. rewrite E, Htext in Ht.
    split; [exact Hids|]. split; [|exact Hgone]. symmetry. exact (Ok_inj _ _ Ht).
Defined.




(** A stop string that is listed later is left in the text, although it is not to be
    included: of "abc" with the stop strings "c" and "a" the text "ab" is kept. *)
Theorem later_stop_string_remains :
  ∃ d', Detokenizer.update sample_decode [97; 98; 99] false (Detokenizer_init [[99]; [97]] false [] tt) = (Ok (Some [99]), d') ∧
    include_stop_str_in_output d' = false ∧ output_text d' = [97; 98] ∧ [97] ∈ dt_stop d' ∧ reaches 0 [97] (output_text d') 0.
Proof. eexists. split; [vm_compute; reflexivity|]. split_and!; [done|done|right; by left|]. split_and!; vm_compute; (lia || done). Qed.

(** * Parallel sampling *)
Lemma length_range n : length (range n) = Z.to_nat n.
Proof. unfold range, range2. rewrite length_fmap, length_seq. f_equal. lia. Qed.
Lemma elem_of_range n i : i ∈ range n ↔ 0 <= i < n.
Proof.
  unfold range, range2. rewrite list_elem_of_fmap. split.
  - intros (k & -> & Hk%elem_of_seq). lia.
  - intros H. exists (Z.to_nat i). split; [lia|]. apply elem_of_seq. lia.
Qed.

(** All children are created. *)
Lemma wp_create_children id p :
  wp (map_each (range (op_n p)) get_child_info) (λ children pr, Forall2 (λ i x, x.1 = child_id i id ∧ op_n x.2 = 1) (range (op_n p)) children ∧
    parent_state id p (range (op_n p)) (output_aggregator (ParentRequest_init id p)) pr) (ParentRequest_init id p).
Proof.
  apply (wp_map_each (λ done todo ys pr, done ++ todo = range (op_n p) ∧ Forall2 (λ i x, x.1 = child_id i id ∧ op_n x.2 = 1) done ys ∧
    parent_state id p done (output_aggregator (ParentRequest_init id p)) pr)).
  - split_and!; [done|constructor|by split].
  - intros done x todo ys pr _ (Hl & Hys & Hpr). eapply wp_mono; [by apply wp_get_child_info|]. cbn beta. intros y pr' (Hy & Hn & Hpr').
    split_and!; [by rewrite <- app_assoc|apply Forall2_app; [done|by constructor]|done].
  - intros ys pr (_ & Hys & Hpr). by split.
Qed.

(** What the parent keeps while the children finish one after the other. *)
Record collected (id : string) (p : OutputParams) (done todo : list CompletionOutput) (answers : list (string * list (option CompletionOutput) * bool))
    (aggregator : list (option CompletionOutput)) (pr : ParentRequest) : Prop := {
  cl_state : parent_state id p (co_index <$> todo) aggregator pr;
  cl_length : op_output_kind p = FINAL_ONLY → length aggregator = Z.to_nat (op_n p);
  cl_done : op_output_kind p = FINAL_ONLY → ∀ o, o ∈ done → aggregator !! Z.to_nat (co_index o) = Some (Some o);
  cl_answers : ∀ k o, done !! k = Some o → answers !! k = Some (parent_answer id p (co_index <$> (drop (S k) done ++ todo)) aggregator o);
  cl_number : length answers = length done
}.

Lemma parent_answer_more id p todo aggregator aggregator' o : todo ≠ [] → parent_answer id p todo aggregator o = parent_answer id p todo aggregator' o.
Proof. intros Hne. unfold parent_answer. by destruct (decide (todo = [])). Qed.

Lemma wp_collect id p done o todo answers aggregator pr :
  collected id p done (o :: todo) answers aggregator pr → NoDup (co_index <$> done ++ o :: todo) →
  is_Some (co_finish_reason o) → (∀ x, x ∈ done ++ [o] → 0 <= co_index x < op_n p) →
  wp (get_outputs (child_id (co_index o) id) o) (λ y pr', ∃ aggregator', collected id p (done ++ [o]) todo (answers ++ [y]) aggregator' pr') pr.
Proof.
  intros [Hst Hlen Hdone Hans Hnum] Hnd Hfin Hidx. rewrite fmap_app, fmap_cons in Hnd. apply NoDup_app in Hnd as (_ & Hdis & [Hnin _]%NoDup_cons).
  assert (0 <= co_index o < op_n p) as Ho by (apply Hidx, elem_of_app; right; by left).
  eapply wp_mono; [apply (wp_get_outputs id p (co_index o) (co_index <$> todo) aggregator o pr); [done|done|done|done|]|].
  { intros Hk. unfold len. rewrite Hlen by done. lia. }
  cbn beta zeta. intros y pr' [-> Hst']. eexists. split; [exact Hst'| | | |].
  - intros Hk. rewrite decide_True, length_insert by done. by apply Hlen.
  - intros Hk x Hx. rewrite decide_True by done. apply elem_of_app in Hx as [Hx| ->%list_elem_of_singleton].
    + rewrite list_lookup_insert_ne; [by apply Hdone|]. intros Heq. apply (Hdis (co_index x)); [by apply list_elem_of_fmap_2|].
      assert (0 <= co_index x < op_n p) by (apply Hidx, elem_of_app; by left). replace (co_index x) with (co_index o) by lia. by left.
    + apply list_lookup_insert_eq. rewrite Hlen by done. lia.
  - intros k x Hk. apply lookup_app_Some in Hk as [Hk|[Hge Hk]].
    + pose proof (lookup_lt_Some _ _ _ Hk). rewrite lookup_app_l by lia. rewrite (Hans k x Hk). f_equal.
      rewrite (drop_app_le done [o]) by lia. rewrite <- app_assoc. cbn [app]. apply parent_answer_more. rewrite fmap_app, fmap_cons. by intros [_ ?]%app_eq_nil.
    + apply list_lookup_singleton_Some in Hk as [Hk ->]. assert (k = length done) as -> by lia. rewrite lookup_app_r by lia. rewrite Hnum, Nat.sub_diag. cbn [lookup list_lookup].
      rewrite drop_ge by (rewrite length_app; cbn; lia). done.
  - rewrite !length_app. cbn. lia.
Qed.

(** C14: the outputs of the children are put together: with [n] children that were created
    for the indices below [n], under distinct ids, and that finish in any order, nothing is
    raised; with [FINAL_ONLY] every answer but the last is empty and not finished, and
    the last is finished and has the output of every child at its index; otherwise every
    answer has the child's own output, and only the last is finished. *)
Theorem parallel_outputs_complete id p (outs : list CompletionOutput) :
  co_index <$> outs ≡ₚ range (op_n p) → Forall (λ o, is_Some (co_finish_reason o)) outs →
  wp (children ← map_each (range (op_n p)) get_child_info;
      answers ← map_each outs (λ o, get_outputs (child_id (co_index o) id) o);
      mret (children.*1, answers))
    (λ '(children, answers) pr, NoDup children ∧ children = (λ i, child_id i id) <$> range (op_n p) ∧ child_requests pr = ∅ ∧ length answers = length outs ∧
      ∀ k o, outs !! k = Some o → ∃ l, answers !! k = Some (id, l, bool_decide (S k = length outs)) ∧
        if decide (op_output_kind p = FINAL_ONLY) then
          if decide (S k = length outs) then len l = op_n p ∧ ∀ o', o' ∈ outs → l !! Z.to_nat (co_index o') = Some (Some o') else l = []
        else l = [Some o]) (ParentRequest_init id p).
Proof.
  intros Hperm Hfin. apply wp_bind. eapply wp_mono; [apply wp_create_children|]. cbn beta. intros children pr [Hch [P1 P2 P3 P4 P5]].
  assert (NoDup (co_index <$> outs)) as Hnd by (rewrite Hperm; unfold range, range2; apply NoDup_fmap_2; [intros ? ? ?; lia|apply NoDup_seq]).
  assert (∀ o, o ∈ outs → 0 <= co_index o < op_n p) as Hidx by (intros o Ho; apply elem_of_range; rewrite <- Hperm; by apply list_elem_of_fmap_2).
  apply wp_bind. eapply wp_mono; [apply (wp_map_each (λ done todo ys pr, done ++ todo = outs ∧ ∃ aggregator, collected id p done todo ys aggregator pr)) with (Q := λ ys pr, ∃ aggregator, collected id p outs [] ys aggregator pr)|].
  - split; [done|]. exists (output_aggregator pr). split; [| |by intros _ o ?%elem_of_nil|done|done].
    + split; [done|done| |done|done]. rewrite P3. apply list_to_set_perm_L. by rewrite Hperm.
    + intros Hk. rewrite P4. cbn. by rewrite decide_True, length_replicate.
  - intros done o todo ys pr1 Hl [_ [aggregator Hc]]. rewrite Hl in Hnd, Hidx, Hfin.
    eapply wp_mono; [apply (wp_collect id p done o todo ys aggregator pr1 Hc Hnd)|].
    + by apply Forall_app in Hfin as [_ [? _]%Forall_cons].
    + intros x Hx. apply Hidx. apply elem_of_app in Hx as [Hx| ->%list_elem_of_singleton]; apply elem_of_app; [by left|right; by left].
    + cbn beta. intros y pr2 [aggregator' Hc']. split; [by rewrite <- app_assoc|by eexists].
  - by intros ys pr1 [_ [aggregator Hc]]; exists aggregator.
  - cbn beta. intros answers pr1 (aggregator & [[Q1 Q2 Q3 Q4 Q5] Hlen Hdone Hans Hnum]). apply wp_ret.
    assert (children.*1 = (λ i, child_id i id) <$> range (op_n p)) as Hids.
    { clear -Hch. induction Hch as [|i x l k [Hx _] _ IH]; cbn; [done|]. by rewrite Hx, IH. }
    split; [rewrite Hids; apply NoDup_fmap_2; [apply _|]; by rewrite <- Hperm|]. split_and!; [done|done|done|].
    intros k o Hk. specialize (Hans k o Hk). rewrite app_nil_r in Hans. pose proof (lookup_lt_Some _ _ _ Hk) as Hlt.
    assert (co_index <$> drop (S k) outs = [] ↔ S k = length outs) as Hiff.
    { split; intros H.
      - apply (f_equal length) in H. rewrite length_fmap, length_drop in H. cbn in H. lia.
      - by rewrite drop_ge by lia. }
    unfold parent_answer in Hans. rewrite (bool_decide_ext _ _ Hiff) in Hans. eexists. split; [exact Hans|].
    destruct (decide (op_output_kind p = FINAL_ONLY)) as [Hkd|Hkd]; [|done]. destruct (decide (S k = length outs)) as [He|He].
    + rewrite decide_True by (by apply Hiff). specialize (Hlen Hkd). split; [unfold len; rewrite Hlen|by apply Hdone].
      pose proof (Hidx o ltac:(by eapply list_elem_of_lookup_2)). lia.
    + by rewrite decide_False by (by rewrite Hiff).
Qed.

Definition sample_completion (i : Z) : CompletionOutput := mkCompletionOutput i [i] [i] None None (Some STOP) None.
Lemma parallel_outputs_complete_witness :
  wp (children ← map_each (range 3) get_child_info;
      answers ← map_each (sample_completion <$> [2; 0; 1]) (λ o, get_outputs (child_id (co_index o) "r") o);
      mret (children.*1, answers))
    (λ '(children, answers) pr, children = ["0_r"; "1_r"; "2_r"]%string ∧ child_requests pr = ∅ ∧ answers !! 0%nat = Some ("r"%string, [], false) ∧
      ∃ l, answers !! 2%nat = Some ("r"%string, l, true) ∧ l !! 0%nat = Some (Some (sample_completion 0))) (ParentRequest_init "r" (sample_params FINAL_ONLY 3)).
Proof.
  eapply wp_mono.
  - apply (parallel_outputs_complete "r" (sample_params FINAL_ONLY 3) (sample_completion <$> [2; 0; 1])).
    + change ([2; 0; 1] ≡ₚ [0; 1; 2]). by rewrite (Permutation_cons_append [0; 1] 2).
    + repeat constructor; by eexists.
  - cbn beta. intros [children answers] pr (_ & Hc & Hno & _ & H). split_and!; [by rewrite Hc|done| |].
    + destruct (H 0%nat _ eq_refl) as (l & Hl & ->). exact Hl.
    + destruct (H 2%nat _ eq_refl) as (l & Hl & _ & Hall). exists l. split; [exact Hl|]. apply (Hall (sample_completion 0)). right. left.
Defined.

(** * Decoding *)

(** C13: decoding token by token is decoding at once: for a local tokenizer and a prompt
    whose last tokens make a complete text, [SlowIncrementalDetokenizer] hands out, for
    ids that have tokens, the text that a first part of their tokens adds to the
    prompt's; and when the text of all of them is complete, it is what all of them add. *)
Theorem incremental_decoding_is_decoding tok skip spaces prompt_ids prompt p r before ids news :
  local_decoding tok skip spaces → convert_prompt_ids_to_tokens tok skip prompt_ids = (prompt, p, r) →
  let str := tokens_to_text tok skip spaces in let context := slice_from p prompt in
  context = [] ∨ incomplete (str context) = false → Forall2 (λ id new, new_tokens_of tok skip id = Ok new) ids news →
  let '(x, s) := decode_run (slow_decode_next tok skip spaces) before ids (SlowDecoder_init tok skip prompt_ids) in
  tokens s = prompt ++ concat news ∧ (∃ emitted held, concat news = emitted ++ held ∧ str (context ++ emitted) = str context ++ x) ∧
  (incomplete (str (context ++ concat news)) = false → str (context ++ concat news) = str context ++ x).
Proof.
  intros Hlocal Hp str context Hc Hnews. pose proof (decoded_start tok skip spaces Hlocal prompt_ids prompt p r Hp Hc) as Hd.
  destruct (decode_run_decoded tok skip spaces Hlocal prompt context before ids news [] [] [] _ Hd Hnews) as (emitted & held & Heq & Hd').
  destruct (decode_run _ before ids _) as [x s]. cbn [app fst snd] in *. pose proof Hd' as [(skipped & Hprompt & Htok) _ Hx]. split_and!.
  - by rewrite Htok, Heq, Hprompt, <- app_assoc.
  - by exists emitted, held.
  - rewrite Heq. by apply (decoded_complete tok skip spaces prompt context emitted held x s).
Qed.

(** A tokenizer with a character of two bytes, 1000 and 1001; the first one alone is shown
    as the replacement character. *)
Fixpoint two_bytes (l : list Z) : text :=
  match l with
  | [] => []
  | x :: l' =>
    if decide (x = 1000) then match l' with y :: l'' => if decide (y = 1001) then 233 :: two_bytes l'' else replacement :: two_bytes l' | [] => [replacement] end
    else x :: two_bytes l'
  end.
Definition tokenizer_sample : Tokenizer :=
  mkTokenizer 3 (λ ids _, (λ id, Some (if decide (id = 0) then [97] else if decide (id = 1) then [1000] else [1001])) <$> ids) (λ ts, two_bytes (concat ts)) true [] [].
Lemma two_bytes_app n l w : (length l <= n)%nat → last l ≠ Some 1000 → two_bytes (l ++ w) = two_bytes l ++ two_bytes w.
Proof.
  revert l. induction n as [|n IH]; intros [|x l] Hn Hl; [done|cbn in Hn; lia|done|]. cbn [length] in Hn. cbn [app two_bytes]. case_decide as Hx.
  - destruct l as [|y l]; [by subst|]. cbn [app length] in *. assert (last l ≠ Some 1000 ∨ l = []) as Hl' by (destruct l; [by right|by left]). case_decide as Hy.
    + destruct Hl' as [Hl'| ->]; [|done]. rewrite IH by (done || lia). done.
    + change (y :: l ++ w) with ((y :: l) ++ w). rewrite IH; [done|cbn; lia|done].
  - assert (last l ≠ Some 1000 ∨ l = []) as [Hl'| ->] by (destruct l; [by right|by left]); [|done]. rewrite IH by (done || lia). done.
Qed.
Lemma two_bytes_incomplete n l : (length l <= n)%nat → last l = Some 1000 → incomplete (two_bytes l) = true.
Proof.
  revert l. induction n as [|n IH]; intros [|x l] Hn Hl; [done|cbn in Hn; lia|done|]. cbn [length] in Hn. cbn [two_bytes]. case_decide as Hx.
  - destruct l as [|y l]; [done|]. case_decide as Hy.
    + destruct l as [|z l]; [injection Hl as ->; lia|]. change (233 :: two_bytes (z :: l)) with ([233] ++ two_bytes (z :: l)).
      assert (incomplete (two_bytes (z :: l)) = true) as Hi by (apply IH; [cbn in *; lia|done]). rewrite incomplete_app; [done|]. intros E. by rewrite E in Hi.
    + change (replacement :: two_bytes (y :: l)) with ([replacement] ++ two_bytes (y :: l)).
      assert (incomplete (two_bytes (y :: l)) = true) as Hi by (apply IH; [cbn in *; lia|done]). rewrite incomplete_app; [done|]. intros E. by rewrite E in Hi.
  - destruct l as [|z l]; [injection Hl as ->; done|]. change (x :: two_bytes (z :: l)) with ([x] ++ two_bytes (z :: l)).
    assert (incomplete (two_bytes (z :: l)) = true) as Hi by (apply IH; [cbn in *; lia|done]). rewrite incomplete_app; [done|]. intros E. by rewrite E in Hi.
Qed.
Lemma tokenizer_sample_local : local_decoding tokenizer_sample true true.
Proof.
  split; [done|]. intros a b c Hb Hi. change (tokens_to_text tokenizer_sample true true) with (λ ts, two_bytes (concat ts)) in *. cbn beta in *. rewrite !concat_app in *.
  assert (last (concat a ++ concat b) ≠ Some 1000) as Hl by (intros E; rewrite (two_bytes_incomplete _ _ (Nat.le_refl _) E) in Hi; done).
  rewrite (app_assoc (concat a)), (two_bytes_app _ (concat a ++ concat b) (concat c) (Nat.le_refl _) Hl). f_equal.
  destruct (decide (concat b = [])) as [->|Hne]; [done|].
  rewrite (two_bytes_app _ (concat b) (concat c) (Nat.le_refl _)); [by rewrite drop_app_length|]. rewrite last_app in Hl. by destruct (last (concat b)) eqn:E; [|apply last_None in E].
Qed.
Lemma incremental_decoding_is_decoding_witness :
  ∃ x s, decode_run (slow_decode_next tokenizer_sample true true) [0; 0] [0; 1; 2; 0] (SlowDecoder_init tokenizer_sample true [0; 0]) = (x, s) ∧
    x = [97; 233; 97] ∧ tokens_to_text tokenizer_sample true true [[97]; [97]; [97]; [1000]; [1001]; [97]] = [97; 97] ++ x.
Proof.
  pose proof (incremental_decoding_is_decoding tokenizer_sample true true [0; 0] [[97]; [97]] 0 2 [0; 0] [0; 1; 2; 0] [[[97]]; [[1000]]; [[1001]]; [[97]]] tokenizer_sample_local eq_refl
    ltac:(right; reflexivity) ltac:(repeat constructor)) as H.
  destruct (decode_run _ _ _ _) as [x s] eqn:E. exists x, s. split; [reflexivity|]. destruct H as (_ & _ & H). specialize (H eq_refl).
  split; [|exact H]. vm_compute in E. by injection E as <- _.
Defined.
