(* ===== verification/SchedulerTheorems.v ===== *)
(** The properties of the scheduler, each with a concrete instance.  They are stated
    with the KV-cache manager of full-attention groups; [hf] and [none] are the block
    hash function and the hash of the empty prefix. *)
From Stdlib Require Import ZArith Lia QArith.
From stdpp Require Import base strings countable gmap sets fin_maps sorting list relations.
From S2P Require Import Prelude Request FreeBlockQueue BlockHash BlockPool KVCacheSpec SingleTypeManager KVCacheCoordinator KVCacheManager SlotContract RequestQueue EncoderCache SchedulerData Scheduler SchedulerEncoder SchedulerInvariant SchedulerRunning SchedulerStep SchedulerLifecycle SchedulerUpdate SchedulerSystem Samples CacheTheorems SchedulerSamples.
Local Open Scope Z_scope.

(** * The scheduler as a state machine *)

(** What a new scheduler reaches by adding requests, aborting requests and taking engine
    steps satisfies the invariant. *)
Lemma reachable_ok {C G} `{!KVConnector C, !StructuredOutputManager G} hf none `{!CollisionFree hf none} slice truthy tok cfg kv_cfg
    caching eagle ev blocks size inc g (s s' : Scheduler C G) :
  structured_total (G := G) → config_ok cfg → is_async cfg = false → 0 <= max_num_running_reqs cfg → full_config kv_cfg caching →
  Scheduler_init cfg kv_cfg caching eagle ev blocks size inc None g = Ok s →
  rtc (engine_step hf none slice truthy tok) s s' → engine_ok hf none tok s'.
Proof.
  intros Hst Hcfg Has Hmax Hsup Hinit Hr. eapply (engine_reachable_ok hf none slice truthy tok Hst); [|exact Hr].
  destruct (Scheduler_init_spec hf none tok cfg kv_cfg caching eagle ev blocks size inc g s Hcfg Hmax)
    as (Hok & Hc & _); [exact Hsup|exact Hinit|]. split; [done|by rewrite Hc].
Qed.

(** C1: in every state a new scheduler reaches by adding requests, aborting requests and
    taking engine steps (schedule, model run, update), no operation raises: not adding a
    new well-formed request, not aborting, not [schedule], and not [update_from_output]
    for any model output that fits what was scheduled. The scheduler is synchronous and
    first come first served, without KV connector and adapter limit, and all KV-cache
    groups are full attention. (Under the priority policy an operation can raise, see below.) *)
Theorem scheduler_never_raises {C G} `{!KVConnector C, !StructuredOutputManager G} hf none
    `{!CollisionFree hf none} slice truthy tok cfg kv_cfg caching eagle ev blocks size inc g (s s' : Scheduler C G) :
  structured_total (G := G) → config_ok cfg → is_async cfg = false →
  0 <= max_num_running_reqs cfg → full_config kv_cfg caching →
  Scheduler_init cfg kv_cfg caching eagle ev blocks size inc None g = Ok s →
  rtc (engine_step hf none slice truthy tok) s s' →
  never_raises hf none slice truthy tok s'.
Proof.
  intros Hst Hcfg Has Hmax Hsup Hinit Hr. apply (engine_ok_never_raises hf none slice truthy tok Hst). by eapply reachable_ok.
Qed.

Definition no_slice : handle → Z → Z → handle := λ h _ _, h.
Definition no_truthy : handle → bool := λ _, false.

Lemma scheduler_never_raises_witness :
  rtc (engine_step sample_hash sample_none no_slice no_truthy sample_tok) sample_scheduler scheduler_a ∧
  never_raises sample_hash sample_none no_slice no_truthy sample_tok scheduler_a.
Proof.
  assert (Hr : rtc (engine_step sample_hash sample_none no_slice no_truthy sample_tok) sample_scheduler scheduler_a).
  { apply rtc_once. exact (step_add sample_hash sample_none no_slice no_truthy sample_tok 0 request_a _ _ sample_arriving (proj1 scheduler_a_ok)). }
  split; [exact Hr|].
  exact (scheduler_never_raises sample_hash sample_none no_slice no_truthy sample_tok sample_cfg sample_config true false false 8 0
    false tt sample_scheduler scheduler_a no_structured_output_total sample_cfg_ok eq_refl
    ltac:(done) sample_supported sample_scheduler_ok Hr).
Defined.

(** C2: one call of [schedule], also of the asynchronous scheduler, ends within its fuel,
    raises nothing, keeps the scheduler's invariant and promises of its output
    ([step_output]): distinct running requests, each with a positive number of tokens,
    a total within the budget, new and cached requests that are exactly the scheduled
    ones, the ids of the requests finished since the last step, and draft tokens that
    come after all tokens of their request. (First come first served, no KV connector, no
    adapter limit, full-attention groups.) *)
Theorem schedule_step {C G} `{!KVConnector C, !StructuredOutputManager G} hf none `{!CollisionFree hf none} tok now (s : Scheduler C G) :
  structured_total (G := G) → sched_ok hf none tok s →
  ∃ out s', schedule hf none now s = (Ok out, s') ∧ sched_ok hf none tok s' ∧ step_output s s' out.
Proof.
  intros Hst Hok. pose proof (schedule_spec hf none tok (st_bitmask Hst) now s Hok) as H. unfold wp in H.
  destruct (schedule hf none now s) as [[out|e] s']; [|done]. by exists out, s'.
Qed.

Lemma schedule_step_witness :
  ∃ out s', schedule sample_hash sample_none 1 scheduler_a = (Ok out, s') ∧
    sched_ok sample_hash sample_none sample_tok s' ∧ step_output scheduler_a s' out.
Proof.
  exact (schedule_step sample_hash sample_none sample_tok 1 scheduler_a no_structured_output_total
    (proj1 (proj2 scheduler_a_ok))).
Defined.

(** C3: [update_from_output] of the synchronous scheduler, for a model output that fits
    what was scheduled and requests that still run, raises nothing and keeps the invariant.  Every scheduled request
    has got a prefix of its new tokens, all of them unless it has stopped, its computed
    tokens are set back by the rejected drafts, the stopped requests and no others have
    left the running list and the dictionary, and the outputs report every request that
    got tokens once, with its tokens and its reason to finish. *)
Theorem update_step {C G} `{!KVConnector C, !StructuredOutputManager G} hf none `{!CollisionFree hf none} slice truthy tok 
    (s : Scheduler C G) so mro :
  structured_total (G := G) → sched_ok hf none tok s → is_async (config s) = false →
  scheduled s so → runner_ok s so mro →
  ∃ res s', update_from_output hf none slice truthy so mro s = (Ok res, s') ∧ sched_ok hf none tok s' ∧
    update_result s so mro res s'.
Proof.
  intros Hst Hok Has Hsc Hro. pose proof (update_from_output_spec hf none slice truthy tok Hst s so mro Hok Has Hsc Hro) as H.
  unfold wp in H. destruct (update_from_output hf none slice truthy so mro s) as [[res|e] s']; [|done]. by exists res, s'.
Qed.

Lemma update_step_witness :
  ∃ res s', update_from_output sample_hash sample_none no_slice no_truthy output_a runner_a scheduler_b = (Ok res, s') ∧
    sched_ok sample_hash sample_none sample_tok s' ∧ update_result scheduler_b output_a runner_a res s'.
Proof.
  destruct step_a as (_ & Hok & Hout & Has).
  exact (update_step sample_hash sample_none no_slice no_truthy sample_tok scheduler_b output_a runner_a
    no_structured_output_total Hok Has (step_output_scheduled _ _ _ Hout) runner_a_ok).
Defined.

(** Every running request has blocks of every group for its computed tokens, and every
    waiting one has none. *)
Definition slots_allocated {C G} (s : Scheduler C G) : Prop :=
  ∀ i g, single_type_managers (coordinator (kv_cache_manager s)) !! i = Some g →
    (∀ id, id ∈ running s → ∃ req, objects s !! id = Some req ∧ status req = RUNNING ∧
       0 <= num_computed_tokens req < max_model_len (config s) ∧
       num_computed_tokens req <= len (blocks_of g id) * manager_block_size g) ∧
    ∀ id, id ∈ queue_refs (waiting s) → ∃ req, objects s !! id = Some req ∧ num_computed_tokens req = 0 ∧ blocks_of g id = [].

Lemma sched_ok_allocated {C G} hf none `{!CollisionFree hf none} tok (s : Scheduler C G) : sched_ok hf none tok s → slots_allocated s.
Proof.
  intros (w & Hwa & Hc & [Hr Hw] & _) i g Hg. rewrite Hwa. split; intros id Hid.
  - destruct (Hr id Hid) as (req & Hreq & _ & Hs & Hc0 & _ & Hsl & _ & Hb). rewrite Z.add_0_r in *.
    exists req. split_and!; try done. eapply full_slots_cover; [exact (co_kv _ _ _ _ Hc)|exact Hsl|exact Hg].
  - destruct (Hw id Hid) as (req & Hreq & _ & _ & Hz & Hno). exists req. split_and!; try done. by apply (Hno i g Hg).
Qed.

(** C4: in every state that a new scheduler reaches, and after [schedule] in every such
    state, when the computed tokens include those just scheduled, every running request
    has blocks of every group for all its computed tokens, so that the model writes to no
    slot that is not allocated, and they are fewer than the longest sequence has; a
    waiting request has no computed tokens and no block. *)
Theorem running_requests_have_blocks {C G} `{!KVConnector C, !StructuredOutputManager G} hf none `{!CollisionFree hf none} slice truthy tok
    cfg kv_cfg caching eagle ev blocks size inc g (s s' : Scheduler C G) :
  structured_total (G := G) → config_ok cfg → is_async cfg = false → 0 <= max_num_running_reqs cfg → full_config kv_cfg caching →
  Scheduler_init cfg kv_cfg caching eagle ev blocks size inc None g = Ok s →
  rtc (engine_step hf none slice truthy tok) s s' →
  slots_allocated s' ∧ ∀ now, ∃ out s1, schedule hf none now s' = (Ok out, s1) ∧ slots_allocated s1 ∧
    ∀ id, id ∈ (num_scheduled_tokens out).*1 → id ∈ running s1.
Proof.
  intros Hst Hcfg Has Hmax Hsup Hinit Hr.
  destruct (reachable_ok hf none slice truthy tok cfg kv_cfg caching eagle ev blocks size inc g s s' Hst Hcfg Has Hmax Hsup Hinit Hr) as [Hok _].
  split; [by eapply sched_ok_allocated|]. intros now.
  destruct (proj1 (wp_elim _ _ _) (schedule_spec hf none tok (st_bitmask Hst) now s' Hok)) as (out & s1 & Hrun & Hok1 & Hout).
  exists out, s1. split_and!; [done|by eapply sched_ok_allocated|apply (so_running _ _ _ Hout)].
Qed.

Lemma scheduler_a_reached : rtc (engine_step sample_hash sample_none no_slice no_truthy sample_tok) sample_scheduler scheduler_a.
Proof. apply rtc_once. exact (step_add sample_hash sample_none no_slice no_truthy sample_tok 0 request_a _ _ sample_arriving (proj1 scheduler_a_ok)). Qed.
Lemma running_requests_have_blocks_witness :
  slots_allocated scheduler_a ∧ ∀ now, ∃ out s1, schedule sample_hash sample_none now scheduler_a = (Ok out, s1) ∧ slots_allocated s1 ∧
    ∀ id, id ∈ (num_scheduled_tokens out).*1 → id ∈ running s1.
Proof.
  exact (running_requests_have_blocks sample_hash sample_none no_slice no_truthy sample_tok sample_cfg sample_config true false false 8 0
    false tt sample_scheduler scheduler_a no_structured_output_total sample_cfg_ok eq_refl
    ltac:(done) sample_supported sample_scheduler_ok scheduler_a_reached).
Defined.

(** C5: in every state that a new scheduler reaches no block is lost, counted twice or
    given to two requests by mistake: the free blocks of the queue, the blocks with a
    reference and the null block are all blocks of the pool, each once; the reference
    count of every other block than the null block is the number of its occurrences in
    the tables of the requests; and a block that is in the tables of two requests, or in
    those of one request in two groups, is a block of the prefix cache and not free. *)
Theorem reachable_blocks_accounted {C G} `{!KVConnector C, !StructuredOutputManager G} hf none `{!CollisionFree hf none} slice truthy tok
    cfg kv_cfg caching eagle ev blocks size inc g (s s' : Scheduler C G) :
  structured_total (G := G) → config_ok cfg → is_async cfg = false → 0 <= max_num_running_reqs cfg → full_config kv_cfg caching →
  Scheduler_init cfg kv_cfg caching eagle ev blocks size inc None g = Ok s →
  rtc (engine_step hf none slice truthy tok) s s' →
  let p := the_pool (kv_cache_manager s') in let ms := single_type_managers (coordinator (kv_cache_manager s')) in
  ∃ free, get_all_free_blocks (free_block_queue p) = (Ok free, free_block_queue p) ∧
    free ++ used_blocks p ++ [null_block p] ≡ₚ BlockPool.blocks p ∧ NoDup (BlockPool.blocks p) ∧
    (∀ q, q ∈ BlockPool.blocks p → q ≠ null_block p → blk_ref p q = held q ms) ∧
    ∀ i j g1 g2 id1 id2 q, ms !! i = Some g1 → ms !! j = Some g2 → q ∈ blocks_of g1 id1 → q ∈ blocks_of g2 id2 →
      q ≠ null_block p → (q ∉ free) ∧ ((i ≠ j ∨ id1 ≠ id2) → is_Some (blk_hash p q)).
Proof.
  intros Hst Hcfg Has Hmax Hsup Hinit Hr p ms.
  destruct (reachable_ok hf none slice truthy tok cfg kv_cfg caching eagle ev blocks size inc g s s' Hst Hcfg Has Hmax Hsup Hinit Hr)
    as [(w & _ & Hc & _) _].
  destruct (fi_inv _ _ _ _ (co_kv _ _ _ _ Hc)) as [free Hm]. pose proof (km_inv _ _ _ _ _ Hm) as Hk. pose proof (ki_pool _ _ _ _ _ Hk) as Hp.
  exists free. split_and!.
  - apply get_all_free_blocks_spec, (pc_queue _ _ (proj1 Hp)).
  - by apply (pool_conserves_blocks p free).
  - by apply (pool_conserves_blocks p free).
  - intros q Hq Hne. rewrite (ki_refs _ _ _ _ _ Hk); [apply Z.add_0_r|by apply (blocks_valid _ _ _ (proj1 Hp))|done].
  - intros i j g1 g2 id1 id2 q Hi Hj H1 H2 Hq.
    by destruct (sharing_needs_cache hf none _ _ free i j g1 g2 id1 id2 q Hm Hi Hj H1 H2 Hq) as (_ & ? & ?).
Qed.
Lemma reachable_blocks_accounted_witness :
  let p := the_pool (kv_cache_manager scheduler_a) in
  ∃ free, get_all_free_blocks (free_block_queue p) = (Ok free, free_block_queue p) ∧
    free ++ used_blocks p ++ [null_block p] ≡ₚ BlockPool.blocks p ∧ length (BlockPool.blocks p) = 8%nat.
Proof.
  destruct (reachable_blocks_accounted sample_hash sample_none no_slice no_truthy sample_tok sample_cfg sample_config true false false 8 0
    false tt sample_scheduler scheduler_a no_structured_output_total sample_cfg_ok eq_refl
    ltac:(done) sample_supported sample_scheduler_ok scheduler_a_reached) as (free & H1 & H2 & _).
  exists free. split_and!; [exact H1|exact H2|vm_compute; reflexivity].
Defined.

(** Adding a new well-formed request raises nothing, keeps the invariant, puts the
    request at the end of the waiting queue and leaves all other requests alone. *)
Theorem add_request_queues {C G} hf none `{!CollisionFree hf none} tok now (s : Scheduler C G) req :
  sched_ok hf none tok s → arriving tok s req →
  ∃ s', add_request req now s = (Ok tt, s') ∧ sched_ok hf none tok s' ∧
    queue_refs (waiting s') = queue_refs (waiting s) ++ [request_id req] ∧ running s' = running s ∧
    requests s' = {[request_id req]} ∪ requests s ∧
    ∀ x : req_ref, x ≠ request_id req → objects s' !! x = objects s !! x.
Proof.
  intros Hok Har. pose proof (add_request_spec hf none tok now s req Hok Har) as H. unfold wp in H.
  destruct (add_request req now s) as [[[]|e] s']; [|done]. destruct H as (? & _ & ? & ? & ? & ? & _). by exists s'.
Qed.

Lemma add_request_queues_witness :
  ∃ s', add_request request_a 0 sample_scheduler = (Ok tt, s') ∧ sched_ok sample_hash sample_none sample_tok s' ∧
    queue_refs (waiting s') = queue_refs (waiting sample_scheduler) ++ ["a"%string] ∧ running s' = running sample_scheduler ∧
    requests s' = {["a"%string]} ∪ requests sample_scheduler ∧
    ∀ x : req_ref, x ≠ "a"%string → objects s' !! x = objects sample_scheduler !! x.
Proof.
  exact (add_request_queues sample_hash sample_none sample_tok 0 sample_scheduler request_a (proj1 sample_scheduler_inv)
    sample_arriving).
Defined.

(** C25: aborting a list of distinct ids raises nothing, keeps the invariant, and takes
    exactly these ids out of the running list, the waiting queue (both in order) and the
    dictionary; the known ones are reported as finished. *)
Theorem finish_requests_removes {C G} `{!KVConnector C} hf none `{!CollisionFree hf none} tok (s : Scheduler C G) ids st :
  sched_ok hf none tok s → NoDup ids → status_is_finished st = true →
  ∃ s', finish_requests ids st s = (Ok tt, s') ∧ sched_ok hf none tok s' ∧
    running s' = filter (.∉ ids) (running s) ∧ queue_refs (waiting s') = filter (.∉ ids) (queue_refs (waiting s)) ∧
    requests s' = requests s ∖ list_to_set ids ∧
    finished_req_ids s' = (list_to_set ids ∩ requests s) ∪ finished_req_ids s.
Proof.
  intros Hok Hnd Hst. pose proof (finish_requests_spec hf none tok s ids st Hok Hnd Hst) as H. unfold wp in H.
  destruct (finish_requests ids st s) as [[[]|e] s']; [|done]. destruct H as (? & _ & _ & ? & ? & ? & _ & ?). by exists s'.
Qed.

Lemma finish_requests_removes_witness :
  ∃ s', finish_requests ["a"; "z"]%string FINISHED_ABORTED scheduler_b = (Ok tt, s') ∧
    sched_ok sample_hash sample_none sample_tok s' ∧
    running s' = filter (.∉ ["a"; "z"]%string) (running scheduler_b) ∧
    queue_refs (waiting s') = filter (.∉ ["a"; "z"]%string) (queue_refs (waiting scheduler_b)) ∧
    requests s' = requests scheduler_b ∖ list_to_set ["a"; "z"]%string ∧
    finished_req_ids s' = (list_to_set ["a"; "z"]%string ∩ requests scheduler_b) ∪ finished_req_ids scheduler_b.
Proof.
  refine (finish_requests_removes sample_hash sample_none sample_tok scheduler_b ["a"; "z"]%string FINISHED_ABORTED
    (proj1 (proj2 step_a)) _ eq_refl).
  apply (bool_decide_unpack _). vm_compute. exact I.
Defined.

(** * Multi-modal inputs *)

(** C26: the choice of a step's encoder inputs raises nothing and never schedules more
    tokens than asked for.  The chosen inputs are distinct inputs of the request that
    are not cached, and fit the compute budget; when tokens are scheduled, every input
    that feeds one of them is cached or chosen. *)
Theorem encoder_inputs_cover tok cfg ecm (r : Request) c n budget :
  tok_of tok r → len (mm_inputs r) = len (mm_positions r) → 0 <= n →
  ∃ inputs n' budget', _try_schedule_encoder_inputs cfg ecm r c n budget = Ok (inputs, n', budget') ∧
    0 <= n' <= n ∧ NoDup inputs ∧ (∀ i, i ∈ inputs → input_of r i ∧ has_cache ecm r i = false) ∧
    budget' + zsum (tok (request_id r) <$> inputs) = budget ∧ (0 <= budget → 0 <= budget') ∧
    (0 < n' → StronglySorted (λ a b, offset a <= offset b) (mm_positions r) →
      ∀ (i : nat) pos, mm_positions r !! i = Some pos → offset pos < c + n' → c < offset pos + length_ pos →
        has_cache ecm r (Z.of_nat i) = true ∨ Z.of_nat i ∈ inputs).
Proof.
  intros Ht Hl Hn. destruct (try_schedule_encoder_inputs_spec tok cfg ecm r c n budget Ht Hl Hn)
    as (inputs & n' & b' & -> & [H1 H2 H3 H4 H5 H6]). exists inputs, n', b'. cbn in H4. split_and!; try done; [lia..|].
  intros Hpos Hs i pos Hi Hf1 Hf2. eapply H6; [done|done| |exact Hi|done]. intros j q Hj. lia.
Qed.

(** A request of two inputs of six tokens each. *)
Definition mm_request : Request :=
  mkRequest (mkRequestParams "m" 0 0 0 (Some (mkSamplingParams (Some 16) None None None None false None))
               None None None None None (replicate 12 1) [0; 1] [mkPlaceholderRange 0 6 None; mkPlaceholderRange 6 6 None] ["x"; "y"]%string)
    16 None WAITING [] None [] (replicate 12 1) 0 [] 0 (-1) 0.
Definition six_tokens : string → Z → Z := λ _ _, 6.
Lemma mm_request_tokens : tok_of six_tokens mm_request.
Proof.
  intros i Hi. change (len (mm_positions mm_request)) with 2 in Hi. assert (i = 0 ∨ i = 1) as [-> | ->] by lia; reflexivity.
Qed.
(** An encoder cache of sixteen slots of which eight are taken. *)
Definition half_full : EncoderCacheManager := mkEncoderCacheManager 16 8 {["other"%string := {[0]}]} [].

Lemma encoder_inputs_cover_witness :
  ∃ inputs n' budget', _try_schedule_encoder_inputs sample_cfg half_full mm_request 0 12 16 = Ok (inputs, n', budget') ∧
    0 <= n' <= 12 ∧ NoDup inputs ∧ (∀ i, i ∈ inputs → input_of mm_request i ∧ has_cache half_full mm_request i = false) ∧
    budget' + zsum (six_tokens "m" <$> inputs) = 16 ∧ (0 <= 16 → 0 <= budget') ∧
    (0 < n' → StronglySorted (λ a b, offset a <= offset b) (mm_positions mm_request) →
      ∀ (i : nat) pos, mm_positions mm_request !! i = Some pos → offset pos < 0 + n' → 0 < offset pos + length_ pos →
        has_cache half_full mm_request (Z.of_nat i) = true ∨ Z.of_nat i ∈ inputs).
Proof.
  apply (encoder_inputs_cover six_tokens sample_cfg half_full mm_request 0 12 16 mm_request_tokens); [reflexivity|lia].
Defined.

(** The room of the encoder cache is checked for each input by itself, not for the
    inputs of a step together: with eight free slots both inputs of six tokens are
    chosen, and allocating them leaves a negative number of free slots. *)
Theorem encoder_cache_overcommitted :
  _try_schedule_encoder_inputs sample_cfg half_full mm_request 0 12 16 = Ok ([0; 1], 12, 4) ∧
  ∃ m, for_each [0; 1] (EncoderCache.allocate mm_request) half_full = (Ok tt, m) ∧ num_free_slots m = -4.
Proof. split; [reflexivity|]. eexists. split; [vm_compute; reflexivity|reflexivity]. Qed.

(** The slots in use are those of the cached inputs: caching a new input takes its
    tokens off the free slots, and freeing a request gives back those of all its cached
    inputs, reports each once, and touches no other request. *)
Theorem encoder_cache_accounts tok m (r : Request) i :
  enc_inv tok m → tok_of tok r → input_of r i → (∀ j, j ∈ ids_of m (request_id r) → input_of r j) →
  (has_cache m r i = false → ∃ m', EncoderCache.allocate r i m = (Ok tt, m') ∧ enc_inv tok m' ∧
     num_free_slots m' = num_free_slots m - tok (request_id r) i ∧ has_cache m' r i = true) ∧
  ∃ m', EncoderCache.free r m = (Ok tt, m') ∧ enc_inv tok m' ∧
    num_free_slots m' = num_free_slots m + set_tokens tok (request_id r) (ids_of m (request_id r)) ∧
    freed m' = freed m ++ (pair (request_id r) <$> elements (ids_of m (request_id r))) ∧
    ∀ id, ids_of m' id = if decide (id = request_id r) then ∅ else ids_of m id.
Proof.
  intros Hm Ht Hi Hids. split.
  - intros Hc. pose proof (allocate_spec tok m r i Hm Ht Hi Hc) as H. unfold wp in H.
    destruct (EncoderCache.allocate r i m) as [[[]|e] m']; [|done]. destruct H as (? & ? & _ & _ & Hid). exists m'.
    split_and!; try done. apply bool_decide_eq_true. unfold get_cached_input_ids.
    change (i ∈ ids_of m' (request_id r)). rewrite Hid, decide_True by done. set_solver.
  - pose proof (encoder_free_spec tok m r Hm Ht Hids) as H. unfold wp in H.
    destruct (EncoderCache.free r m) as [[[]|e] m']; [|done]. destruct H as (? & ? & _ & ? & ?). by exists m'.
Qed.

Lemma encoder_cache_accounts_witness :
  (has_cache (EncoderCacheManager_init 16) mm_request 1 = false →
   ∃ m', EncoderCache.allocate mm_request 1 (EncoderCacheManager_init 16) = (Ok tt, m') ∧ enc_inv six_tokens m' ∧
     num_free_slots m' = 16 - 6 ∧ has_cache m' mm_request 1 = true) ∧
  ∃ m', EncoderCache.free mm_request (EncoderCacheManager_init 16) = (Ok tt, m') ∧ enc_inv six_tokens m' ∧
    num_free_slots m' = 16 + set_tokens six_tokens "m" (ids_of (EncoderCacheManager_init 16) "m") ∧
    freed m' = [] ++ (pair "m"%string <$> elements (ids_of (EncoderCacheManager_init 16) "m")) ∧
    ∀ id, ids_of m' id = if decide (id = "m"%string) then ∅ else ids_of (EncoderCacheManager_init 16) id.
Proof.
  apply (encoder_cache_accounts six_tokens (EncoderCacheManager_init 16) mm_request 1 (new_encoder_inv six_tokens 16) mm_request_tokens).
  - vm_compute. by split.
  - intros j Hj. exfalso. apply (not_elem_of_empty (C := gset Z) j). exact Hj.
Defined.

(** * Stopping *)

(** When a request is to stop: too long, answered by the pooler, or its last token is
    the end of the sequence or one of its stop tokens. *)
Definition should_stop (r : Request) (max_model_len : Z) (pooled : bool) : Prop :=
  num_tokens r >= max_model_len ∨ num_output_tokens r >= max_tokens r ∨
  (is_Some (pooling_params r) ∧ pooled = true) ∨
  (pooling_params r = None ∧ ∃ sp x, sampling_params r = Some sp ∧ last (output_token_ids r) = Some x ∧
     ((ignore_eos sp = false ∧ eos_token_id r = Some x) ∨ x ∈ default [] (stop_token_ids sp))).

(** [check_stop] of an unfinished request with an output token returns [true] exactly
    when the request is to stop; then the request ends, capped exactly when it is too
    long, and only its status and stop reason change; else nothing changes. *)
Theorem check_stop_decides (r : Request) max_model_len pooled :
  is_Some (pooling_params r) ∨ is_Some (sampling_params r) → (pooling_params r = None → output_token_ids r ≠ []) →
  is_finished r = false →
  ∃ b r', check_stop r max_model_len pooled = Ok (b, r') ∧ (b = true ↔ should_stop r max_model_len pooled) ∧
    is_finished r' = b ∧ extended r r' [] ∧ (b = false → r' = r) ∧
    (status r' = FINISHED_LENGTH_CAPPED ↔ num_tokens r >= max_model_len ∨ num_output_tokens r >= max_tokens r).
Proof.
  intros Hpar Hout Hfin.
  assert (Hne : status r ≠ FINISHED_LENGTH_CAPPED) by (intros E; unfold is_finished in Hfin; by rewrite E in Hfin).
  unfold check_stop. destruct (decide (num_tokens r >= max_model_len ∨ num_output_tokens r >= max_tokens r)) as [Hl|Hl].
  { eexists true, _. split; [done|]. split; [unfold should_stop; tauto|].
    split; [done|]. split; [by split; rewrite ?app_nil_r|]. split; [done|]. by split. }
  assert (Hgo : ¬ should_stop r max_model_len pooled → ∃ b r', Ok (false, r) = Ok (b, r') ∧
    (b = true ↔ should_stop r max_model_len pooled) ∧ is_finished r' = b ∧ extended r r' [] ∧ (b = false → r' = r) ∧
    (status r' = FINISHED_LENGTH_CAPPED ↔ num_tokens r >= max_model_len ∨ num_output_tokens r >= max_tokens r)).
  { intros Hno. exists false, r. split; [done|]. split; [by split|]. split; [done|]. split; [apply extended_refl|]. by split. }
  assert (Hstop : ∀ why, should_stop r max_model_len pooled → ∃ b r',
    Ok (true, set_stop_reason why (set_status FINISHED_STOPPED r)) = Ok (b, r') ∧
    (b = true ↔ should_stop r max_model_len pooled) ∧ is_finished r' = b ∧ extended r r' [] ∧ (b = false → r' = r) ∧
    (status r' = FINISHED_LENGTH_CAPPED ↔ num_tokens r >= max_model_len ∨ num_output_tokens r >= max_tokens r)).
  { intros why Hs. eexists true, _. split; [done|]. split; [done|]. split; [done|].
    split; [by split; rewrite ?app_nil_r|]. split; [done|]. by split. }
  pose proof (Hstop (stop_reason r)) as Hstop'. change (set_stop_reason (stop_reason r) (set_status FINISHED_STOPPED r))
    with (set_status FINISHED_STOPPED r) in Hstop'. unfold should_stop in Hgo, Hstop, Hstop' |- *.
  destruct (pooling_params r) as [pp|].
  { destruct pooled; [apply Hstop'; right; right; left; split; [by eexists|done]|].
    apply Hgo. intros [?|[?|[[_ ?]|[? _]]]]; try done; tauto. }
  destruct (sampling_params r) as [sp|]; [|by destruct Hpar as [[? ?]|[? ?]]].
  destruct (destruct_last (output_token_ids r)) as [(l & x & Hx)|Hx]; [|by destruct (Hout eq_refl)].
  rewrite Hx, py_index_last, last_snoc in *. cbn [mbind outcome_bind].
  case_decide as H1; [|case_decide as H2].
  - apply Hstop'. right; right; right. split; [done|]. exists sp, x. destruct H1. split_and!; try done. by left.
  - apply Hstop. right; right; right. split; [done|]. exists sp, x. split_and!; try done. by right.
  - apply Hgo. intros [?|[?|[[[? ?] _]|(_ & sp' & x' & [= <-] & [= <-] & [[? ?]|?])]]]; try done; [tauto|tauto|].
    apply H1. by split.
Qed.

Definition request_done_a : Request :=
  mkRequest (params request_a) 16 None RUNNING [] None [9] [1; 2; 3; 4; 5; 9] 0 [] 5 0 0.
Lemma check_stop_decides_witness :
  ∃ b r', check_stop request_done_a 64 false = Ok (b, r') ∧ (b = true ↔ should_stop request_done_a 64 false) ∧
    is_finished r' = b ∧ extended request_done_a r' [] ∧ (b = false → r' = request_done_a) ∧
    (status r' = FINISHED_LENGTH_CAPPED ↔
       num_tokens request_done_a >= 64 ∨ num_output_tokens request_done_a >= max_tokens request_done_a).
Proof. apply (check_stop_decides request_done_a 64 false); [right; by eexists|done|done]. Defined.

(** * Where the scheduler does not do what it means to *)

(** The loop of the engine core for given times and given outputs of the model. *)
Fixpoint engine_run {C G} `{!KVConnector C, !StructuredOutputManager G} (hf : Z * list Z * option (list extra_key) → Z) (none : Z)
    (slice : handle → Z → Z → handle) (truthy : handle → bool) (steps : list (Z * ModelRunnerOutput)) : M (Scheduler C G) (list SchedulerOutput) :=
  match steps with
  | [] => mret []
  | (now, mro) :: steps =>
    out ← schedule hf none now;
    update_from_output hf none slice truthy out mro ;;
    outs ← engine_run hf none slice truthy steps;
    mret (out :: outs)
  end.

Section stuck.
Context {C G : Type} `{!KVConnector C, !StructuredOutputManager G}.
Context (hf : Z * list Z * option (list extra_key) → Z) (none : Z) (slice : handle → Z → Z → handle) (truthy : handle → bool).
Context (Hst : structured_total (G := G)).
Implicit Types (s : Scheduler C G) (r : req_ref) (req : Request).

(** The only request of a scheduler, running, with a prompt as long as the longest
    sequence, of which all but the last token is computed. *)
Record stuck s r req : Prop := {
  sk_running : running s = [r];
  sk_waiting : queue_nonempty (waiting s) = false;
  sk_request : objects s !! r = Some req;
  sk_status : status req = RUNNING;
  sk_full : num_tokens req = max_model_len (config s);
  sk_computed : num_computed_tokens req = max_model_len (config s) - 1;
  sk_placeholders : 0 <= num_output_placeholders req;
  sk_text : has_encoder_inputs req = false;
  sk_budget : 0 < max_num_scheduled_tokens (config s);
  sk_room : 1 <= max_num_running_reqs (config s);
  sk_adapters : max_loras (config s) = None;
  sk_connector : connector s = None;
  sk_clients : finished_req_ids_dict s = None;
  sk_events : enable_kv_cache_events (the_pool (kv_cache_manager s)) = false;
  sk_common : ∃ l, KVCacheManager.get_num_common_prefix_blocks req 1 (kv_cache_manager s) = (Ok l, kv_cache_manager s)
}.

(** The loop over the running requests passes over it. *)
Lemma stuck_passed_over now s p r req :
  stuck s r req → 0 < token_budget p →
  schedule_running_one hf none now r (s, p) = (Ok true, (s, set_req_index (req_index p + 1) p)).
Proof.
  intros [_ _ Hr _ Hn Hc Hpl He _ _ _ _ _ _ _] Hb.
  assert (Hz : new_tokens_running (config s) req (token_budget p) = 0).
  { unfold new_tokens_running, num_tokens_with_spec, num_tokens in *. pose proof (len_nonneg (spec_token_ids req)).
    case_decide; lia. }
  enough (wp (schedule_running_one hf none now r)
    (λ go st, go = true ∧ st = (s, set_req_index (req_index p + 1) p)) (s, p)) as H.
  { unfold wp in H. destruct (schedule_running_one hf none now r (s, p)) as [[go|e] st]; [|done]. by destruct H as [-> ->]. }
  unfold schedule_running_one, on_plan, plan_of. apply wp_bind, wp_zoom. eapply wp_the_request; [exact Hr|].
  apply wp_bind, wp_zoom, wp_gets, wp_bind, wp_gets, wp_bind, wp_zoom, wp_gets. cbn [fst snd]. rewrite He, Hz. cbv zeta.
  apply wp_bind. eapply wp_lift_outcome; [reflexivity|]. cbv beta iota. rewrite decide_True by done. by wp_steps.
Qed.

Lemma stuck_plan now s r req :
  stuck s r req →
  wp (plan_step hf none now) (λ _ st, st.1 = s ∧ plan_tokens st.2 = [] ∧ scheduled_new st.2 = [] ∧ scheduled_running st.2 = [] ∧ scheduled_resumed st.2 = [])
    (s, initial_plan (config s)).
Proof.
  intros Hs. pose proof Hs as [Hrun Hw _ _ _ _ _ _ Hb Hroom Hl _ _ _ _]. unfold plan_step, sched_of, plan_of.
  apply wp_bind, wp_gets, wp_bind. cbn [fst]. rewrite Hrun. cbn [length schedule_running]. unfold plan_of. apply wp_bind, wp_gets, wp_bind, wp_zoom, wp_gets.
  cbn [fst snd]. rewrite Hrun, decide_True by (split; [done|cbn; lia]). apply wp_bind. eapply wp_lift_outcome; [reflexivity|]. apply wp_bind.
  unfold wp at 1. rewrite (stuck_passed_over now s _ r req Hs) by done. apply wp_bind, wp_gets, wp_bind, wp_zoom, wp_gets. cbn [fst snd].
  rewrite Hrun, decide_False by (by intros [? _]). apply wp_ret. unfold record_loras. apply wp_bind, wp_bind, wp_zoom, wp_gets. cbn [fst snd]. rewrite Hl. apply wp_ret.
  apply wp_bind, wp_gets, wp_bind, wp_gets, wp_bind. cbn [fst snd]. rewrite decide_True by done. cbn [schedule_waiting]. unfold sched_of, plan_of.
  apply wp_bind, wp_gets, wp_bind, wp_gets. cbn [fst snd]. rewrite Hw. cbn [negb orb]. apply wp_ret. apply wp_bind.
  assert (queue_nonempty (create_request_queue (policy (config s))) = false) as -> by by destruct (policy (config s)).
  apply wp_ret. unfold check_constraints, sched_of, plan_of. apply wp_bind, wp_gets, wp_bind, wp_gets. cbn [fst snd]. rewrite Hrun.
  apply wp_bind, wp_assert; [apply bool_decide_eq_true; change (0 <= max_num_scheduled_tokens (config s)); lia|].
  apply wp_bind, wp_assert; [apply bool_decide_eq_true; change (max_num_scheduled_tokens (config s) >= 0); lia|].
  apply wp_bind, wp_assert; [by apply bool_decide_eq_true|]. by apply wp_assert.
Qed.

Lemma take_events_off m : enable_kv_cache_events (the_pool m) = false → KVCacheManager.take_events m = (Ok [], m).
Proof.
  destruct m as [? ? ? [] ? ? ? ?]. intros He. unfold KVCacheManager.take_events, on_block_pool, on_coordinator, zoom, BlockPool.take_events.
  unfold mbind, M_bind, gets. cbn in He |- *. by rewrite He.
Qed.

(** One step: nothing is scheduled, and the request stays as it is. *)
Lemma stuck_step now mro s r req :
  stuck s r req → finished_recving mro = None → finished_sending mro = None →
  wp (out ← schedule hf none now; update_from_output hf none slice truthy out mro ;; mret out) (λ out s', num_scheduled_tokens out = [] ∧ stuck s' r req ∧ kv_cache_manager s' = kv_cache_manager s) s.
Proof.
  intros Hs Hrecv Hsend. apply wp_bind. pose proof (stuck_plan now s r req Hs) as Hp. unfold wp in Hp. unfold schedule, wp at 1.
  destruct (plan_step hf none now (s, initial_plan (config s))) as [[[]|e] [s1 p]]; [|done]. cbn [fst snd] in Hp. destruct Hp as (-> & Htok & Hnew & Hru & Hre).
  match goal with |- match ?m s with _ => _ end => enough (wp m (λ out s', wp (update_from_output hf none slice truthy out mro ;; mret out)
    (λ out s', num_scheduled_tokens out = [] ∧ stuck s' r req ∧ kv_cache_manager s' = kv_cache_manager s) s') s) as Hwp by exact Hwp end.
  pose proof Hs as [Hrun Hw Hr Hstat Hn Hc Hpl He Hb Hroom Hl Hcon Hcl Hev [common Hcommon]].
  unfold make_output, common_prefix_blocks. apply wp_bind, wp_bind, wp_bind, wp_gets. rewrite Hrun. apply wp_bind. eapply wp_the_request; [exact Hr|].
  apply wp_zoom. change (len [r]) with 1. unfold wp at 1. rewrite Hcommon. apply wp_bind, wp_get, wp_bind. unfold on_structured. apply wp_zoom.
  match goal with |- wp (make_grammar_bitmask ?a ?b ?c) _ ?g => destruct (st_bitmask Hst a b c g) as (v & g' & E) end. unfold wp at 1. rewrite E.
  rewrite Hnew. cbn [map_each]. apply wp_bind, wp_ret. unfold _make_cached_request_data. rewrite Hru, Hre. cbn [map_each app].
  apply wp_bind, wp_bind, wp_gets, wp_bind, wp_gets, wp_bind, wp_ret, wp_ret. apply wp_bind, wp_gets, wp_bind. unfold on_encoder, get_freed_ids.
  apply wp_zoom, wp_bind, wp_gets, wp_bind, wp_modify, wp_ret, wp_ret. apply wp_bind, wp_gets. 
  cbn [connector set_encoder set_structured set_kv]. rewrite Hcon. apply wp_bind, wp_ret, wp_bind. unfold publish_events. apply wp_bind, wp_zoom.
  match goal with |- wp _ _ ?m => change m with (kv_cache_manager s) end. unfold wp at 1. rewrite (take_events_off _ Hev). apply wp_ret, wp_bind.
  unfold _update_after_schedule, base_update_after_schedule. cbn [num_scheduled_tokens]. rewrite Htok. cbn [for_each].
  apply wp_bind, wp_bind, wp_ret, wp_modify, wp_bind, wp_gets.
  match goal with |- wp (if is_async ?c then _ else _) ?Q ?st => apply (wp_mono _ (λ _ st', st' = st)); [by destruct (is_async c); apply wp_ret|] end.
  intros [] st' ->. apply wp_ret, wp_bind. unfold update_from_output. cbn [num_scheduled_tokens fold_each]. apply wp_bind, wp_ret. cbn [stopped_running stopped_preempted].
  apply wp_bind, wp_ret, wp_bind, wp_ret, wp_bind. unfold _update_from_kv_xfer_finished. rewrite Hrecv, Hsend. cbn [default for_each].
  apply wp_bind, wp_ret, wp_ret, wp_bind, wp_gets. cbn [finished_req_ids_dict set_finished_req_ids set_kv set_encoder set_structured]. rewrite Hcl.
  cbn [outs]. apply wp_bind, wp_modify, wp_ret, wp_ret. split; [done|]. split; [|done]. split; try done; [by cbn; rewrite Hcl|by exists common].
Qed.

(** Any number of steps. *)
Lemma stuck_run steps s r req :
  stuck s r req → Forall (λ st, finished_recving st.2 = None ∧ finished_sending st.2 = None) steps →
  wp (engine_run hf none slice truthy steps) (λ outs s', length outs = length steps ∧ Forall (λ out, num_scheduled_tokens out = []) outs ∧ stuck s' r req ∧
    kv_cache_manager s' = kv_cache_manager s) s.
Proof.
  intros Hs Hl. revert s Hs. induction Hl as [|[now mro] steps [H1 H2] _ IH]; intros s Hs; cbn [engine_run]; [by apply wp_ret|].
  pose proof (stuck_step now mro s r req Hs H1 H2) as Hstep. apply wp_bind. apply wp_elim in Hstep as (out & s' & Hrun & Hout & Hs' & Hkv).
  unfold mbind, M_bind in Hrun. destruct (schedule hf none now s) as [[out1|e] s1] eqn:E; [|done]. unfold wp at 1. rewrite E.
  apply wp_bind. destruct (update_from_output hf none slice truthy out1 mro s1) as [[res|e] s2] eqn:E2; [|done]. injection Hrun as -> ->.
  unfold wp at 1. rewrite E2. apply wp_bind. eapply wp_mono; [by apply IH|]. intros outs s3 (Hn & Hz & Hs3 & Hkv3). apply wp_ret.
  cbn [length]. rewrite Hn. split_and!; [done|by constructor|done|congruence].
Qed.

(** C27: a running request whose prompt is exactly as long as the longest sequence is
    stuck once all but its last token are computed. As long as it is the only request and
    nobody aborts it, no step of the engine schedules any token: for any number of steps,
    at any times and for whatever the model returns, it stays in the running list and
    keeps its blocks, and it is never answered. (Synchronous or asynchronous scheduler,
    no KV connector, no adapters, no KV-cache events, one client.) *)
Theorem full_length_prompt_is_stuck steps s r req :
  stuck s r req → Forall (λ st, finished_recving st.2 = None ∧ finished_sending st.2 = None) steps →
  ∃ outs s', engine_run hf none slice truthy steps s = (Ok outs, s') ∧
    length outs = length steps ∧ Forall (λ out, num_scheduled_tokens out = []) outs ∧
    running s' = [r] ∧ objects s' !! r = Some req ∧ kv_cache_manager s' = kv_cache_manager s.
Proof.
  intros Hs Hl. destruct (proj1 (wp_elim _ _ _) (stuck_run steps s r req Hs Hl)) as (outs & s' & Hrun & Hn & Hz & Hs' & Hkv).
  exists outs, s'. destruct Hs'. by split_and!.
Qed.
End stuck.

(** A scheduler for sequences of at most five tokens, four of them in a step, after the
    first step of the prompt of "a", which has five. *)
Definition short_cfg : SchedulerConfig :=
  mkSchedulerConfig FCFS 2 4 5 0 true false None true 0 0 false 4 0 false.
Definition no_token_yet : ModelRunnerOutput := mkModelRunnerOutput {["a"%string := 0]} [[]] None None ∅ [] None None None.
Definition stuck_scheduler : Scheduler unit unit :=
  ((add_request request_a 0 ;; out ← schedule sample_hash sample_none 1;
    update_from_output sample_hash sample_none no_slice no_truthy out no_token_yet ;; mret tt)
    (or_else no_scheduler (Scheduler_init short_cfg sample_config true false false 8 0 false None tt))).2.
Definition stuck_request : Request :=
  from_option (λ r, r) request_a (objects stuck_scheduler !! ("a"%string : req_ref)).
Lemma full_length_prompt_is_stuck_witness :
  ∃ outs s', engine_run sample_hash sample_none no_slice no_truthy (replicate 100 (7, EMPTY_MODEL_RUNNER_OUTPUT)) stuck_scheduler = (Ok outs, s') ∧
    length outs = 100%nat ∧ Forall (λ out, num_scheduled_tokens out = []) outs ∧
    running s' = ["a"%string] ∧ objects s' !! ("a"%string : req_ref) = Some stuck_request ∧
    kv_cache_manager s' = kv_cache_manager stuck_scheduler.
Proof.
  apply (full_length_prompt_is_stuck sample_hash sample_none no_slice no_truthy no_structured_output_total (replicate 100 (7, EMPTY_MODEL_RUNNER_OUTPUT))
    stuck_scheduler "a"%string stuck_request); [|by apply Forall_replicate].
  split; try (vm_compute; (reflexivity || discriminate)). eexists. vm_compute. reflexivity.
Defined.

(** Two requests that run under the priority policy: "low" came first, "high" has the
    higher priority, and together they need more than the pool's seven blocks. *)
Definition priority_cfg : SchedulerConfig :=
  mkSchedulerConfig PRIORITY 4 32 64 0 true false None false 0 0 false 4 0 false.
Definition priority_scheduler : Scheduler unit unit :=
  or_else no_scheduler (Scheduler_init priority_cfg sample_config false false false 8 0 false None tt).
Definition low_request : Request := sample_request_of "low" 1 0 [1; 2; 3; 4; 5; 6; 7; 8; 9; 10; 11; 12].
Definition high_request : Request := sample_request_of "high" 0 1 [1; 2; 3; 4; 5; 6; 7; 8; 9; 10; 11].
Definition both_running : M (Scheduler unit unit) unit :=
  add_request low_request 0 ;; sample_step 1 ;; add_request high_request 2 ;; sample_step 3 ;; sample_step 4.

(** C28: under the priority policy the victim of a preemption may have been scheduled
    earlier in the same step; it stays among the scheduled requests, and [schedule]
    ends with an assertion error, in a state that is reached without any error. *)
Theorem priority_preemption_asserts :
  ∃ s, both_running priority_scheduler = (Ok tt, s) ∧ running s = ["low"; "high"]%string ∧
    (schedule sample_hash sample_none 5 s).1 = Raise AssertionError.
Proof. eexists. split; [vm_compute; reflexivity|]. split; vm_compute; reflexivity. Qed.

(** A sliding window of two tokens, and blocks of four. *)
Definition window_scheduler : Scheduler unit unit :=
  or_else no_scheduler (Scheduler_init sample_cfg window_config true false false 8 0 false None tt).
Definition window_request : Request := sample_request_of "w" 0 0 [1; 2; 3; 4; 5; 6; 7; 8; 9; 10].

(** With a sliding window no larger than a block and prefix caching, the blocks that
    have left the window may include the last cached one. In its third step a request of
    ten tokens completes its third block, whose parent is the null block by then, and
    [schedule] ends with the assertion on the parent's hash, in a state that is reached
    without any error. *)
Theorem small_window_asserts :
  ∃ s, (add_request window_request 0 ;; sample_step 1 ;; sample_step 2) window_scheduler = (Ok tt, s) ∧ running s = ["w"]%string ∧
    (schedule sample_hash sample_none 3 s).1 = Raise AssertionError.
Proof.
  assert (∀ A B (x : A * B) y, x.1 = y → x = (y, x.2)) as Hpair by (by intros A B [] y <-).
  exists ((add_request window_request 0 ;; sample_step 1 ;; sample_step 2) window_scheduler).2.
  split; [apply Hpair; vm_compute; reflexivity|]. split; vm_compute; reflexivity.
Qed.

(** Three requests; the first two wait for their grammars, the third for the budget. *)
Definition fsm_request (id : string) : Request := set_status WAITING_FOR_FSM (sample_request id 0 0).
Definition fsm_waiting : M (Scheduler unit unit) unit :=
  add_request (fsm_request "first") 0 ;; add_request (fsm_request "second") 1.

(** Requests that are skipped in a step come back to the queue in the reverse order,
    although the policy is first come first served. *)
Theorem skipped_requests_are_reversed :
  ∃ s, fsm_waiting sample_scheduler = (Ok tt, s) ∧ queue_refs (waiting s) = ["first"; "second"]%string ∧
    ∃ out s', schedule sample_hash sample_none 5 s = (Ok out, s') ∧ num_scheduled_tokens out = [] ∧
      queue_refs (waiting s') = ["second"; "first"]%string.
Proof.
  eexists. split; [vm_compute; reflexivity|]. split; [vm_compute; reflexivity|].
  eexists _, _. split; [vm_compute; reflexivity|]. split; vm_compute; reflexivity.
Qed.
