(* ===== verification/PlanningFacts.v ===== *)
(** Lemmas on the planning of the KV cache: memory as a function of the model length,
    the bisection, the grouping of the layers and the order of the groups. *)
From Stdlib Require Import ZArith QArith Lia.
From stdpp Require Import base strings countable gmap sets fin_maps list sorting.
From S2P Require Import Prelude KVCacheSpec KVCachePlanning.
Local Open Scope Z_scope.

Lemma Forall2_elem_l {A B} (P : A → B → Prop) l k x : Forall2 P l k → x ∈ l → ∃ y, y ∈ k ∧ P x y.
Proof.
  induction 1 as [|x' y' l k HP _ IH]; [by intros ?%not_elem_of_nil|].
  intros [->|Hx]%elem_of_cons; [exists y'; split; [by left|done]|].
  destruct (IH Hx) as (y & ? & ?). exists y. split; [by right|done].
Qed.

Section memory.
Context (get_dtype_size : dtype → Z).

(** What the planning relies on: positive block sizes, and page sizes that are there. *)
Definition spec_ok (s : KVCacheSpec) : Prop :=
  0 < block_size s ∧ ∃ p, page_size_bytes get_dtype_size s = Ok p ∧ 0 < p.
Definition specs_ok (specs : LayerSpecs) : Prop := Forall spec_ok specs.*2.

Definition page_of (s : KVCacheSpec) : Z :=
  match page_size_bytes get_dtype_size s with Ok p => p | Raise _ => 0 end.

Lemma page_of_ok s : spec_ok s → page_size_bytes get_dtype_size s = Ok (page_of s) ∧ 0 < page_of s.
Proof. intros (_ & p & Hp & ?). unfold page_of. by rewrite Hp. Qed.

(** The memory of the layers, as a number. *)
Definition memory (c : VllmConfig) (l : list KVCacheSpec) : Z :=
  zsum ((λ s, max_blocks s (limits c) * page_of s) <$> l).

Lemma max_memory_usage_bytes_ok c l :
  Forall spec_ok l → max_memory_usage_bytes get_dtype_size c l = Ok (memory c l).
Proof.
  intros Hl. unfold max_memory_usage_bytes.
  assert (mapM (λ s, KVCacheSpec.max_memory_usage_bytes get_dtype_size s (limits c)) l
          = Ok ((λ s, max_blocks s (limits c) * page_of s) <$> l)) as ->; [|done].
  apply mapM_Ok, Forall2_fmap_r, Forall_Forall2_diag. eapply Forall_impl; [exact Hl|].
  intros s Hs. unfold KVCacheSpec.max_memory_usage_bytes. by destruct (page_of_ok s Hs) as [-> _].
Qed.

Lemma memory_cons c s l : memory c (s :: l) = max_blocks s (limits c) * page_of s + memory c l.
Proof. done. Qed.

(** A longer model needs no less memory. *)
Lemma memory_mono c l n n' :
  Forall spec_ok l → n <= n' → memory (set_max_model_len n c) l <= memory (set_max_model_len n' c) l.
Proof.
  intros Hl Hn. induction Hl as [|s l Hs _ IH]; [done|]. rewrite !memory_cons.
  destruct (page_of_ok s Hs) as [_ Hp]. destruct Hs as [Hbs _].
  pose proof (max_blocks_mono s (limits (set_max_model_len n c)) (limits (set_max_model_len n' c)) Hbs Hn eq_refl).
  nia.
Qed.

Lemma set_max_model_len_twice n n' c : set_max_model_len n (set_max_model_len n' c) = set_max_model_len n c.
Proof. done. Qed.

Lemma fits_in_memory_spec specs avail n c Q :
  specs_ok specs →
  Q (bool_decide (memory (set_max_model_len n c) specs.*2 <= avail)) (set_max_model_len n c) →
  wp (fits_in_memory get_dtype_size specs avail n) Q c.
Proof.
  intros Hok HQ. unfold fits_in_memory. wp_steps. rewrite max_memory_usage_bytes_ok by done. exact HQ.
Qed.

(** The bisection keeps: [result] fits, nothing beyond [right] does, and there is
    nothing between [result] and [left]. *)
Lemma bisect_spec specs avail top c0 fuel left right result m :
  specs_ok specs →
  let fits n := memory (set_max_model_len n c0) specs.*2 <= avail in
  (Z.to_nat (right + 1 - left) < fuel)%nat →
  1 <= left → left - 1 <= result → right <= top → 1 <= result <= top →
  fits result → (∀ n, right < n <= top → ¬ fits n) →
  wp (bisect get_dtype_size fuel specs avail left right result)
    (λ best c, (∃ m', c = set_max_model_len m' c0) ∧ 1 <= best <= top ∧
       ∀ n, 1 <= n <= top → fits n ↔ n <= best) (set_max_model_len m c0).
Proof.
  intros Hok fits. revert left right result m.
  assert (Hmono : ∀ n n', n <= n' → fits n' → fits n).
  { intros n n' Hn Hf. unfold fits in *. pose proof (memory_mono c0 specs.*2 n n' Hok Hn). lia. }
  induction fuel as [|fuel IH]; intros left right result m Hfuel Hl Hgap Hr Htop Hfit Hbeyond; [lia|].
  cbn [bisect]. case_decide as Hle.
  - set (mid := (left + right) / 2). assert (left <= mid <= right) by (unfold mid; split; [apply Z.div_le_lower_bound|apply Z.div_le_upper_bound]; lia).
    apply wp_bind, fits_in_memory_spec; [done|]. rewrite set_max_model_len_twice. case_bool_decide as Hm.
    + apply IH; try lia; [done|]. intros n Hn. by apply Hbeyond.
    + apply IH; try lia; [done|]. intros n Hn Hf. apply Hm. apply (Hmono mid n); [lia|done].
  - apply wp_ret. split; [by eexists|]. split; [lia|]. intros n Hn. split.
    + intros Hf. destruct (decide (right < n)); [destruct (Hbeyond n); [lia|done]|lia].
    + intros Hn'. by apply (Hmono n result).
Qed.

Lemma estimate_spec specs avail c :
  specs_ok specs → 1 <= max_model_len (limits c) →
  wp (estimate_max_model_len get_dtype_size specs avail)
    (λ best c', (∃ m, c' = set_max_model_len m c) ∧ 0 <= best <= max_model_len (limits c) ∧
       ∀ n, 1 <= n <= max_model_len (limits c) →
         memory (set_max_model_len n c) specs.*2 <= avail ↔ n <= best) c.
Proof.
  intros Hok Hmax. unfold estimate_max_model_len. apply wp_bind, wp_gets. unfold compose.
  apply wp_bind, fits_in_memory_spec; [done|]. case_bool_decide as H1.
  - eapply wp_mono; [apply (bisect_spec specs avail (max_model_len (limits c))); try done; try lia|].
    intros best c' (? & ? & ?). split_and!; [done|lia|lia|done].
  - apply wp_ret. split_and!; [by eexists|lia|lia|]. intros n Hn. split; [|lia].
    intros Hf. destruct H1. pose proof (memory_mono c specs.*2 1 n Hok ltac:(lia)). lia.
Qed.
End memory.

(** * Rows and columns *)

(** Taking the [i]-th element of every row, for every [i], takes every element once. *)
Lemma concat_split_each {A B} (f g : A → list B) (l : list A) :
  concat ((λ x, f x ++ g x) <$> l) ≡ₚ concat (f <$> l) ++ concat (g <$> l).
Proof.
  induction l as [|x l IH]; [done|]. rewrite !fmap_cons. cbn [concat]. rewrite IH. solve_Permutation.
Qed.
Lemma concat_lookups {A} (l : list A) n :
  (length l <= n)%nat → concat ((λ i, option_list (l !! i)) <$> seq 0 n) = l.
Proof.
  revert n. induction l as [|x l IH]; intros n Hn.
  - induction (seq 0 n) as [|i js IH]; [done|]. by rewrite fmap_cons.
  - destruct n as [|n]; cbn [length] in Hn; [lia|]. cbn [seq]. rewrite fmap_cons. cbn. f_equal.
    etransitivity; [|apply (IH n); lia]. by rewrite <- fmap_S_seq, <- list_fmap_compose.
Qed.
Lemma transpose_perm {A} (ls : list (list A)) n :
  (∀ l, l ∈ ls → (length l <= n)%nat) →
  concat ((λ i, omap (λ l : list A, l !! i) ls) <$> seq 0 n) ≡ₚ concat ls.
Proof.
  induction ls as [|l ls IH]; intros Hn.
  - induction (seq 0 n) as [|i js IH]; [done|]. by rewrite fmap_cons.
  - pose proof (concat_split_each (λ i, option_list (l !! i)) (λ i, omap (λ l : list A, l !! i) ls) (seq 0 n)) as H.
    rewrite concat_lookups in H by (apply Hn; by left). rewrite IH in H by (intros l' ?; apply Hn; by right).
    cbn [concat]. rewrite <- H. f_equiv. apply reflexive_eq, list_fmap_ext. intros i x _. cbn. by destruct (l !! x).
Qed.

Lemma NoDup_concat_row {A} (ls : list (list A)) j k l l' x :
  NoDup (concat ls) → ls !! j = Some l → ls !! k = Some l' → x ∈ l → x ∈ l' → j = k.
Proof.
  revert j k. induction ls as [|l0 ls IH]; intros j k Hnd Hj Hk Hx Hx'; [done|].
  cbn [concat] in Hnd. apply NoDup_app in Hnd as (_ & Hd & Hnd).
  assert (Hin : ∀ i l1, ls !! i = Some l1 → x ∈ l1 → x ∈ concat ls).
  { intros i l1 Hi ?. apply elem_of_concat. exists l1. split; [by eapply list_elem_of_lookup_2|done]. }
  destruct j as [|j], k as [|k]; simplify_eq/=; [done|..].
  - destruct (Hd x); [done|by eapply Hin].
  - destruct (Hd x); [done|by eapply Hin].
  - f_equal. by eapply IH.
Qed.

(** * Chunks *)
Lemma chunks_concat_seq n (l : list string) m :
  (0 < n)%nat → (length l <= m * n)%nat →
  concat ((λ i, take n (drop (i * n) l)) <$> seq 0 m) = l.
Proof.
  intros Hn. revert l. induction m as [|m IH]; intros l Hl.
  - destruct l; [done|]. cbn [length] in Hl. lia.
  - cbn [seq]. rewrite fmap_cons. cbn [concat]. rewrite drop_0. etransitivity; [|apply (take_drop n l)]. f_equal.
    etransitivity; [|apply (IH (drop n l)); rewrite length_drop; lia]. rewrite <- fmap_S_seq, <- list_fmap_compose.
    f_equal. apply list_fmap_ext. intros i x _. cbn. by rewrite drop_drop.
Qed.

Lemma chunks_eq g l :
  0 < g → chunks g l = (λ i, take (Z.to_nat g) (drop (i * Z.to_nat g) l)) <$> seq 0 (Z.to_nat (cdiv (len l) g)).
Proof.
  intros Hg. unfold chunks, range_step. rewrite Z.sub_0_r, <- list_fmap_compose. apply list_fmap_ext.
  intros i x _. unfold compose, slice, slice_to, slice_bound. rewrite !decide_False by lia.
  rewrite take_drop_commute. repeat f_equal; lia.
Qed.

Lemma chunks_concat g l : 0 < g → concat (chunks g l) = l.
Proof.
  intros Hg. rewrite chunks_eq by done. apply chunks_concat_seq; [lia|].
  pose proof (cdiv_bounds (len l) g Hg). unfold len in *. nia.
Qed.
Lemma chunks_short g l names : 0 < g → names ∈ chunks g l → (length names <= Z.to_nat g)%nat.
Proof.
  intros Hg. rewrite chunks_eq by done. intros (i & -> & _)%list_elem_of_fmap. rewrite length_take. lia.
Qed.

(** * Layers of one spec *)
Lemma add_layer_concat s name d : concat (add_layer s name d).*2 ≡ₚ name :: concat d.*2.
Proof.
  induction d as [|[s' names] d IH]; [done|]. cbn [add_layer]. case_decide.
  - rewrite !fmap_cons. cbn [concat]. cbn. solve_Permutation.
  - rewrite !fmap_cons. cbn [concat]. rewrite IH. cbn. solve_Permutation.
Qed.
Lemma add_layer_nonempty s name d :
  (∀ e, e ∈ d → e.2 ≠ []) → ∀ e, e ∈ add_layer s name d → e.2 ≠ [].
Proof.
  induction d as [|[s' names] d IH]; intros Hd e; cbn [add_layer].
  - intros ->%list_elem_of_singleton. done.
  - case_decide.
    + intros [->|He]%elem_of_cons; [by destruct names|apply Hd; by right].
    + intros [->|He]%elem_of_cons; [apply (Hd (s', names)); by left|].
      apply IH; [|done]. intros e' ?. apply Hd. by right.
Qed.
Lemma same_type_layers_spec specs :
  concat (same_type_layers specs).*2 ≡ₚ specs.*1 ∧ (∀ e, e ∈ same_type_layers specs → e.2 ≠ []).
Proof.
  unfold same_type_layers.
  enough (∀ d, (∀ e, e ∈ d → e.2 ≠ []) →
    concat (foldl (λ d '(layer_name, s), add_layer s layer_name d) d specs).*2 ≡ₚ concat d.*2 ++ specs.*1 ∧
    (∀ e, e ∈ foldl (λ d '(layer_name, s), add_layer s layer_name d) d specs → e.2 ≠ [])) as H.
  { apply (H []). intros e ?%not_elem_of_nil. done. }
  induction specs as [|[name s] specs IH]; intros d Hd; cbn [foldl].
  - by rewrite app_nil_r.
  - destruct (IH (add_layer s name d)) as [Hp Hne]; [by apply add_layer_nonempty|].
    split; [|done]. rewrite Hp, add_layer_concat, fmap_cons. cbn. by rewrite Permutation_middle.
Qed.

Lemma py_min_lower l m : py_min l = Ok m → m ∈ l ∧ ∀ x, x ∈ l → m <= x.
Proof.
  destruct l as [|x l]; [done|]. intros [= <-]. revert x. induction l as [|y l IH]; intros x; cbn [foldl].
  - split; [by left|]. intros z ->%list_elem_of_singleton. done.
  - destruct (IH (Z.min x y)) as [Hin Hle]. split.
    + apply elem_of_cons in Hin as [->|Hin]; [|by do 2 right].
      destruct (Z.min_spec x y) as [[_ ->]|[_ ->]]; [by left|right; by left].
    + pose proof (Hle (Z.min x y) ltac:(by left)). intros z [->|[->|Hz]%elem_of_cons]%elem_of_cons; try lia.
      apply Hle. by right.
Qed.

(** * Plans *)
Section plans.
Context (get_dtype_size : dtype → Z).
Abbreviation page s := (page_of get_dtype_size s).

(** A merged spec has the block and page sizes of the specs it merges. *)
Lemma merge_sizes l m s :
  merge l = Ok m → s ∈ l →
  block_size s = block_size m ∧ page_size_bytes get_dtype_size s = page_size_bytes get_dtype_size m.
Proof.
  unfold merge. destruct (py_index l 0) as [s0|]; cbn [mbind outcome_bind]; [|done]. destruct (is_full_attention s0).
  - intros (a & w & c & -> & _ & Hall)%merge_full_spec Hs. by destruct (Hall s Hs) as (? & ? & -> & _).
  - intros Hm Hs. by rewrite (merge_equal_spec l m Hm s Hs).
Qed.

Lemma layer_spec_Ok specs name s : layer_spec specs name = Ok s → (name, s) ∈ specs.
Proof.
  unfold layer_spec. destruct (list_find _ specs) as [[i [k s']]|] eqn:Hf; [|done]. intros [= ->].
  apply list_find_Some in Hf as (Hi & Hk & _). cbn in Hk. subst k. by eapply list_elem_of_lookup_2.
Qed.

Lemma create_groups_spec specs grouped groups :
  create_kv_cache_group_specs specs grouped = Ok groups →
  layer_names <$> groups = grouped ∧
  ∀ g, g ∈ groups → ∃ l, merge l = Ok (kv_cache_spec g) ∧ l ≠ [] ∧
    Forall2 (λ name s, (name, s) ∈ specs) (layer_names g) l.
Proof.
  intros H%mapM_Ok. induction H as [|names g grouped groups Hg _ [IH IHg]]; [split; [done|]; by intros g ?%not_elem_of_nil|].
  cbn beta in Hg. destruct (mapM (layer_spec specs) names) as [l|] eqn:Hl; cbn [mbind outcome_bind] in Hg; [|done].
  destruct (merge l) as [m|] eqn:Hm; cbn [mbind outcome_bind] in Hg; [|done]. injection Hg as <-. split.
  - rewrite fmap_cons. cbn. by rewrite IH.
  - intros g [->|Hg]%elem_of_cons; [|by apply IHg]. exists l. cbn. split_and!; [done|by intros ->|].
    apply mapM_Ok in Hl. eapply Forall2_impl; [exact Hl|]. intros name s. apply layer_spec_Ok.
Qed.

Lemma get_uniform_page_size_spec specs p :
  get_uniform_page_size get_dtype_size specs = Ok p →
  ∀ name s, (name, s) ∈ specs → page_size_bytes get_dtype_size s = Ok p.
Proof.
  unfold get_uniform_page_size, page_sizes. destruct (mapM _ specs.*2) as [sizes|] eqn:Hm; cbn [mbind outcome_bind]; [|done].
  destruct (remove_dups sizes) as [|q [|??]] eqn:Hd; try done. intros [= <-] name s Hin.
  apply mapM_Ok in Hm. destruct (Forall2_elem_l _ _ _ s Hm) as (q' & Hq' & Hq).
  { by apply (list_elem_of_fmap_2 snd specs (name, s)). }
  cbn in Hq. pose proof (remove_dups_singleton _ _ _ Hd Hq') as ->. done.
Qed.

Lemma uniform_page_positive specs p :
  specs_ok get_dtype_size specs → specs ≠ [] → get_uniform_page_size get_dtype_size specs = Ok p → 0 < p.
Proof.
  intros Hok Hne Hp. destruct specs as [|[name s] specs]; [done|].
  pose proof (get_uniform_page_size_spec _ p Hp name s ltac:(by left)).
  apply Forall_cons in Hok as [(_ & q & Hq & ?) _]. cbn in Hq. assert (p = q) as -> by congruence. done.
Qed.

Lemma get_num_blocks_spec c layers avail p n :
  num_gpu_blocks_override c = None → 0 < p → 0 < layers → 0 <= avail →
  get_num_blocks c layers avail p = Ok n →
  n = avail / (p * layers) ∧ 0 <= n ∧ p * layers * n <= avail < p * layers * (n + 1).
Proof.
  intros Ho Hp Hl Ha. unfold get_num_blocks, floordiv. rewrite !decide_False by lia. cbn [mbind outcome_bind].
  rewrite decide_False by lia. cbn [mbind outcome_bind]. rewrite Ho. cbn.
  rewrite Z.div_div by lia. pose proof (Z.div_pos avail (p * layers) Ha ltac:(nia)).
  intros [= <-]. rewrite Z.max_l by done. split_and!; [done|done|apply Z.mul_div_le; nia|].
  pose proof (Z.mul_succ_div_gt avail (p * layers)). nia.
Qed.

(** What a plan promises: every layer is in one group and uses one tensor, the layers
    that share a tensor are in different groups, the tensors have room for all blocks,
    and no further block would fit. *)
Record planned (specs : LayerSpecs) (available_memory : Z) (kv : KVCacheConfig) (p : Z) : Prop := {
  pl_groups : concat (layer_names <$> kv_cache_groups kv) ≡ₚ specs.*1;
  pl_specs : ∀ g name, g ∈ kv_cache_groups kv → name ∈ layer_names g →
    ∃ s, (name, s) ∈ specs ∧ block_size s = block_size (kv_cache_spec g) ∧
      page_size_bytes get_dtype_size s = Ok p ∧ page_size_bytes get_dtype_size (kv_cache_spec g) = Ok p;
  pl_tensors : concat (shared_by <$> kv_cache_tensors kv) ≡ₚ specs.*1;
  pl_disjoint : ∀ t g x y, t ∈ kv_cache_tensors kv → g ∈ kv_cache_groups kv →
    x ∈ shared_by t → y ∈ shared_by t → x ∈ layer_names g → y ∈ layer_names g → x = y;
  pl_sizes : ∀ t, t ∈ kv_cache_tensors kv → KVCacheSpec.size t = p * num_blocks kv;
  pl_fits : zsum (KVCacheSpec.size <$> kv_cache_tensors kv) <= available_memory;
  pl_most : available_memory < p * len (kv_cache_tensors kv) * (num_blocks kv + 1)
}.

Lemma group_specs_planned specs grouped groups p g name :
  create_kv_cache_group_specs specs grouped = Ok groups →
  (∀ name s, (name, s) ∈ specs → page_size_bytes get_dtype_size s = Ok p) →
  g ∈ groups → name ∈ layer_names g →
  ∃ s, (name, s) ∈ specs ∧ block_size s = block_size (kv_cache_spec g) ∧
    page_size_bytes get_dtype_size s = Ok p ∧ page_size_bytes get_dtype_size (kv_cache_spec g) = Ok p.
Proof.
  intros Hc Hp Hg Hname. destruct (create_groups_spec _ _ _ Hc) as [_ Hgs].
  destruct (Hgs g Hg) as (l & Hm & _ & Hl). destruct (Forall2_elem_l _ _ _ name Hl Hname) as (s & Hs & Hin).
  destruct (merge_sizes l _ s Hm Hs) as [Hb Hps]. exists s. rewrite <- Hps. split_and!; try done; by eapply Hp.
Qed.

Lemma zsum_const {A} (f : A → Z) l k : (∀ x, x ∈ l → f x = k) → zsum (f <$> l) = len l * k.
Proof.
  induction l as [|x l IH]; intros H; [done|]. rewrite fmap_cons, zsum_cons, len_cons, IH by (intros y ?; apply H; by right).
  rewrite (H x) by by left. lia.
Qed.

Lemma uniform_type_planned c specs avail kv :
  specs_ok get_dtype_size specs → specs ≠ [] → NoDup specs.*1 → num_gpu_blocks_override c = None → 0 <= avail →
  _get_kv_cache_config_uniform_type get_dtype_size c specs avail = Ok kv →
  ∃ p, 0 < p ∧ planned specs avail kv p ∧ num_blocks kv = avail / (p * len specs).
Proof.
  intros Hok Hne Hnd Ho Ha. unfold _get_kv_cache_config_uniform_type.
  destruct (get_uniform_page_size _ specs) as [p|] eqn:Hp; cbn [mbind outcome_bind]; [|done].
  destruct (get_num_blocks c _ avail p) as [n|] eqn:Hn; cbn [mbind outcome_bind]; [|done].
  destruct (create_kv_cache_group_specs specs _) as [groups|] eqn:Hg; cbn [mbind outcome_bind]; [|done].
  destruct (get_max_concurrency_for_kv_cache_config _ _ _); cbn [mbind outcome_bind]; [|done]. intros [= <-].
  pose proof (get_uniform_page_size_spec specs p Hp) as Hps. destruct (create_groups_spec _ _ _ Hg) as [Hnames _].
  assert (Hpos : 0 < p) by by eapply uniform_page_positive.
  assert (Hlen : 0 < len specs) by (destruct specs; [done|]; rewrite len_cons; unfold len; lia).
  destruct (get_num_blocks_spec c _ _ _ _ Ho Hpos Hlen Ha Hn) as (Hdiv & Hn0 & Hfit & Hmost).
  exists p. split; [done|]. split; [|done]. split; cbn.
  - rewrite Hnames. cbn. by rewrite app_nil_r.
  - intros g name. by apply (group_specs_planned specs [specs.*1]).
  - rewrite <- list_fmap_compose. apply reflexive_eq. clear. induction specs as [|[name s] specs IH]; [done|].
    rewrite !fmap_cons. cbn [concat]. cbn. by rewrite IH.
  - intros t g x y (name & -> & _)%list_elem_of_fmap _ ->%list_elem_of_singleton ->%list_elem_of_singleton. done.
  - by intros t (name & -> & _)%list_elem_of_fmap.
  - rewrite (zsum_const _ _ (p * n)) by by intros t (name & -> & _)%list_elem_of_fmap.
    unfold len in *. rewrite !length_fmap. lia.
  - unfold len in *. rewrite !length_fmap. lia.
Qed.

Lemma uniform_page_size_planned c specs avail kv :
  specs_ok get_dtype_size specs → specs ≠ [] → NoDup specs.*1 → num_gpu_blocks_override c = None → 0 <= avail →
  _get_kv_cache_config_uniform_page_size get_dtype_size c specs avail = Ok kv →
  ∃ p, 0 < p ∧ planned specs avail kv p.
Proof.
  intros Hok Hne Hnd Ho Ha. unfold _get_kv_cache_config_uniform_page_size.
  destruct (py_min _) as [gs|] eqn:Hgs; cbn [mbind outcome_bind]; [|done].
  set (grouped := concat ((λ d, chunks gs d.2) <$> same_type_layers specs)).
  destruct (create_kv_cache_group_specs specs _) as [groups|] eqn:Hg; cbn [mbind outcome_bind]; [|done].
  destruct (get_uniform_page_size _ specs) as [p|] eqn:Hp; cbn [mbind outcome_bind]; [|done].
  destruct (get_num_blocks c _ avail p) as [n|] eqn:Hn; cbn [mbind outcome_bind]; [|done].
  destruct (get_max_concurrency_for_kv_cache_config _ _ _); cbn [mbind outcome_bind]; [|done]. intros [= <-].
  pose proof (get_uniform_page_size_spec specs p Hp) as Hps. destruct (create_groups_spec _ _ _ Hg) as [Hnames _].
  destruct (same_type_layers_spec specs) as [Hsame Hnonempty].
  assert (Hpos : 0 < p) by by eapply uniform_page_positive.
  assert (Hgs0 : 0 < gs).
  { apply py_min_lower in Hgs as [(e & -> & He)%list_elem_of_fmap _]. specialize (Hnonempty e He).
    unfold len. destruct (e.2); [done|]. cbn. lia. }
  assert (Hgrouped : concat grouped = concat (same_type_layers specs).*2).
  { unfold grouped. clear -Hgs0. induction (same_type_layers specs) as [|[s names] d IH]; [done|].
    rewrite !fmap_cons. cbn [concat]. rewrite concat_app, chunks_concat by done. by rewrite IH. }
  assert (Hperm : concat grouped ≡ₚ specs.*1) by by rewrite Hgrouped.
  assert (Htake : take (length groups) grouped = grouped).
  { apply take_ge. by rewrite <- Hnames, length_fmap. }
  rewrite Htake. destruct (get_num_blocks_spec c _ _ _ _ Ho Hpos Hgs0 Ha Hn) as (_ & Hn0 & Hfit & Hmost).
  assert (Hrange : len (range gs) = gs). { unfold len, range, range2. rewrite length_fmap, length_seq. lia. }
  exists p. split; [done|]. split; cbn.
  - by rewrite Hnames.
  - intros g name. by apply (group_specs_planned specs grouped).
  - rewrite <- list_fmap_compose. unfold range, range2. rewrite <- list_fmap_compose, Z.sub_0_r.
    rewrite <- Hperm, <- (transpose_perm grouped (Z.to_nat gs)).
    + apply reflexive_eq. f_equal. apply list_fmap_ext. intros i x _. unfold compose. cbn [shared_by]. by replace (Z.to_nat (0 + Z.of_nat x)) with x by lia.
    + unfold grouped. intros l (row & (e & -> & _)%list_elem_of_fmap & Hl)%elem_of_concat. by eapply chunks_short.
  - intros t g x y (i & -> & _)%list_elem_of_fmap Hin. cbn.
    intros (l & Hl & Hx)%list_elem_of_omap (k & Hk & Hy)%list_elem_of_omap Hxg Hyg.
    apply list_elem_of_lookup_1 in Hl as [ia Hl]. apply list_elem_of_lookup_1 in Hk as [ib Hk].
    assert (layer_names g ∈ grouped) as Hgg by (rewrite <- Hnames; by apply list_elem_of_fmap_2).
    apply list_elem_of_lookup_1 in Hgg as [j Hj]. assert (NoDup (concat grouped)) as Hnd' by by rewrite Hperm.
    assert (ia = j) as -> by (eapply (NoDup_concat_row grouped ia j l _ x); eauto; by eapply list_elem_of_lookup_2).
    assert (ib = j) as -> by (eapply (NoDup_concat_row grouped ib j k _ y); eauto; by eapply list_elem_of_lookup_2).
    congruence.
  - by intros t (i & -> & _)%list_elem_of_fmap.
  - rewrite (zsum_const _ _ (p * n)) by by intros t (i & -> & _)%list_elem_of_fmap.
    unfold len in *. rewrite !length_fmap. lia.
  - unfold len in *. rewrite !length_fmap. lia.
Qed.
End plans.

(** * The order of the groups *)

(** What a comparison must satisfy to order: [lt] may raise where it is not asked. *)
Record ordering {A} (lt : A → A → outcome bool) : Prop := {
  od_irrefl : ∀ x, lt x x ≠ Ok true;
  od_trans : ∀ x y z, lt x y = Ok true → lt y z = Ok true → lt x z = Ok true;
  od_connex : ∀ x y, lt x y = Ok false → x = y ∨ lt y x = Ok true
}.

Lemma int_ordering : ordering int_lt.
Proof.
  unfold int_lt. split.
  - intros x [= H%bool_decide_eq_true]. lia.
  - intros x y z [= H1%bool_decide_eq_true] [= H2%bool_decide_eq_true]. by rewrite bool_decide_eq_true_2 by lia.
  - intros x y [= H%bool_decide_eq_false]. destruct (decide (x = y)); [by left|right]. by rewrite bool_decide_eq_true_2 by lia.
Qed.

Lemma string_ltb_spec (x y : string) : String.ltb x y = true ↔ x ≠ y ∧ String.le x y.
Proof.
  unfold String.ltb, String.le, String.leb. destruct (String.compare x y) eqn:E; split; try done.
  - intros [Hne _]. by apply String.compare_eq_iff in E.
  - intros _. split; [|done]. intros ->. pose proof (String.compare_antisym y y) as H. by rewrite E in H.
  - by intros [_ ?].
Qed.

Lemma string_ordering : ordering (λ x y : string, Ok (String.ltb x y)).
Proof.
  split.
  - by intros x [= [? _]%string_ltb_spec].
  - intros x y z [= [Hn1 H1]%string_ltb_spec] [= [Hn2 H2]%string_ltb_spec]. f_equal. apply string_ltb_spec.
    split; [|by etrans]. intros ->. apply Hn1. by apply (anti_symm String.le).
  - intros x y [= H]. destruct (decide (x = y)); [by left|right]. f_equal. apply string_ltb_spec. split; [done|].
    destruct (total String.le x y) as [Hle|]; [|done]. by rewrite (proj2 (string_ltb_spec x y)) in H.
Qed.

Lemma lex_ordering {A} `{EqDecision A} (lt : A → A → outcome bool) : ordering lt → ordering (lex_lt lt).
Proof.
  intros [Hirr Htrans Hconn]. split.
  - intros l. induction l as [|x l IH]; [done|]. cbn [lex_lt]. by rewrite decide_True.
  - intros l. induction l as [|x l IH]; intros [|y k] [|z m]; cbn [lex_lt]; try done.
    destruct (decide (x = y)) as [->|Hxy], (decide (y = z)) as [->|Hyz]; rewrite ?decide_True by done.
    + apply IH.
    + by intros _ ?.
    + rewrite (decide_False (P := x = z)) by done. by intros ? _.
    + intros H1 H2. destruct (decide (x = z)) as [->|]; [|by eapply Htrans]. destruct (Hirr z). by eapply Htrans.
  - intros l. induction l as [|x l IH]; intros [|y k]; cbn [lex_lt]; try done; [by left|by right|].
    destruct (decide (x = y)) as [->|Hne].
    + rewrite decide_True by done. intros [->|?]%IH; [by left|by right].
    + rewrite decide_False by done. intros [->|?]%Hconn; [done|by right].
Qed.

Lemma field_ordering : ordering field_lt.
Proof.
  pose proof int_ordering as Hi. pose proof string_ordering as Hs.
  pose proof (lex_ordering (lex_lt int_lt) (lex_ordering int_lt Hi)) as Hl.
  split.
  - intros []; cbn; try done; [apply Hi|apply Hl|apply Hs].
  - intros [] [] []; cbn; try done; [apply Hi|apply Hl|apply Hs].
  - intros [] []; cbn; try done.
    + intros [->|?]%(od_connex _ Hi); auto.
    + intros [->|?]%(od_connex _ Hl); auto.
    + intros [->|?]%(od_connex _ Hs); auto.
Qed.

(** The sort key tells specs apart. *)
Lemma key_option_inj o o' : key_option o = key_option o' → o = o'.
Proof. destruct o, o'; simpl; congruence. Qed.
Lemma attn_tuple_inj a a' l l' : attn_tuple a ++ l = attn_tuple a' ++ l' → a = a' ∧ l = l'.
Proof. destruct a as [???? []], a' as [???? []]; cbn; intros [=]; subst; done. Qed.
Lemma astuple_inj x y : class_name x = class_name y → astuple x = astuple y → x = y.
Proof.
  destruct x, y; try done; intros _.
  - cbn [astuple]. intros [-> [= ->%key_option_inj ->%key_option_inj]]%attn_tuple_inj. done.
  - cbn [astuple]. intros [-> [= ->]]%attn_tuple_inj. done.
  - cbn [astuple]. intros [-> [= ->]]%attn_tuple_inj. done.
  - cbn. by intros [= -> -> -> ->%key_option_inj ->].
Qed.

Lemma spec_ordering : ordering spec_lt.
Proof.
  pose proof string_ordering as Hs. pose proof (lex_ordering field_lt field_ordering) as Hl. unfold spec_lt. split.
  - intros x. rewrite decide_True by done. apply Hl.
  - intros x y z. destruct (decide (class_name x = class_name y)) as [Exy|Exy], (decide (class_name y = class_name z)) as [Eyz|Eyz].
    + rewrite decide_True by congruence. apply Hl.
    + rewrite decide_False by congruence. rewrite Exy. by intros _ ?.
    + rewrite decide_False by congruence. rewrite <- Eyz. by intros ? _.
    + intros H1 H2. pose proof (od_trans _ Hs _ _ _ H1 H2) as H3. rewrite decide_False; [done|].
      intros Exz. rewrite Exz in H3. by apply (od_irrefl _ Hs) in H3.
  - intros x y. case_decide as Hc.
    + rewrite decide_True by done. intros [?|?]%(od_connex _ Hl); [left; by apply astuple_inj|by right].
    + rewrite decide_False by done. intros [?|?]%(od_connex _ Hs); [done|by right].
Qed.

(** ** The sort *)
Definition spec_le (x y : KVCacheSpec) : Prop := x = y ∨ spec_lt x y = Ok true.
#[export] Instance spec_le_trans : Transitive spec_le.
Proof.
  intros x y z [->|H1] [->|H2]; try (by left); [by right|by right|]. right. by apply (od_trans _ spec_ordering _ y).
Qed.
#[export] Instance spec_le_antisymm : AntiSymm (=) spec_le.
Proof.
  intros x y [->|H1] [H2|H2]; try done. destruct (od_irrefl _ spec_ordering x). by apply (od_trans _ spec_ordering _ y).
Qed.

Definition group_specs (l : list KVCacheGroupSpec) : list KVCacheSpec := kv_cache_spec <$> l.
Definition comparable (l : list KVCacheSpec) : Prop := ∀ x y, x ∈ l → y ∈ l → ∃ b, spec_lt x y = Ok b.

Lemma insert_group_spec g l :
  comparable (kv_cache_spec g :: group_specs l) → Sorted spec_le (group_specs l) →
  ∃ l', insert_group g l = Ok l' ∧ l' ≡ₚ g :: l ∧ Sorted spec_le (group_specs l').
Proof.
  intros Hc. induction l as [|h l IH]; intros Hs; cbn [insert_group].
  - exists [g]. split_and!; [done|done|]. repeat constructor.
  - destruct (Hc (kv_cache_spec g) (kv_cache_spec h)) as [b Hb]; [by left|right; by left|]. rewrite Hb. cbn [mbind outcome_bind].
    unfold group_specs in Hs. rewrite fmap_cons in Hs. destruct b.
    + eexists. split_and!; [done|done|]. unfold group_specs. rewrite !fmap_cons. constructor; [done|]. constructor. by right.
    + apply Sorted_inv in Hs as [Hs Hd]. destruct IH as (l' & Hl' & Hp & Hs'); [|done|].
      { intros x y Hx Hy. apply Hc; set_solver. }
      rewrite Hl'. cbn [mbind outcome_bind]. eexists. split_and!; [done| |].
      * rewrite Hp. apply Permutation_swap.
      * unfold group_specs. rewrite fmap_cons. constructor; [done|]. apply (od_connex _ spec_ordering) in Hb.
        assert (∀ x, x ∈ l' → spec_le (kv_cache_spec h) (kv_cache_spec x)) as Hall.
        { intros x. rewrite Hp. intros [->|Hx]%elem_of_cons; [destruct Hb; [by left|by right]|].
          assert (StronglySorted spec_le (kv_cache_spec <$> h :: l)) as Hss by (apply Sorted_StronglySorted; [apply _|by rewrite fmap_cons; constructor]).
          rewrite fmap_cons in Hss. apply StronglySorted_inv in Hss as [_ Hf]. rewrite Forall_forall in Hf. apply Hf.
          by apply list_elem_of_fmap_2. }
        destruct l' as [|x l']; constructor. apply Hall. by left.
Qed.

Lemma sort_groups_spec l :
  comparable (group_specs l) →
  ∃ l', sort_groups l = Ok l' ∧ l' ≡ₚ l ∧ Sorted spec_le (group_specs l').
Proof.
  unfold sort_groups. enough (∀ done, comparable (group_specs (done ++ l)) → Sorted spec_le (group_specs done) →
    ∃ l', foldl (λ acc g, sorted ← acc; insert_group g sorted) (Ok done) l = Ok l' ∧ l' ≡ₚ done ++ l ∧
      Sorted spec_le (group_specs l')) as H by (intros Hc; apply (H []); [done|constructor]).
  induction l as [|g l IH]; intros acc Hc Hs; cbn [foldl].
  - exists acc. by rewrite app_nil_r.
  - assert (∀ x, x ∈ kv_cache_spec g :: group_specs acc → x ∈ group_specs (acc ++ g :: l)) as Hsub.
    { intros x. unfold group_specs. rewrite fmap_app, fmap_cons. set_solver. }
    destruct (insert_group_spec g acc) as (acc' & Ha & Hp & Hs'); [by intros x y ??; apply Hc; apply Hsub|done|].
    cbn [mbind outcome_bind]. rewrite Ha. destruct (IH acc') as (l' & Hl' & Hp' & Hs''); [|done|].
    + intros x y Hx Hy. apply Hc; unfold group_specs in *; rewrite fmap_app in *; rewrite Hp in *; set_solver.
    + exists l'. split_and!; [done| |done]. rewrite Hp', Hp. cbn. by rewrite Permutation_middle.
Qed.

(** * The whole planning of a worker *)
Section worker.
Context (get_dtype_size : dtype → Z).

(** The check passes exactly when the memory is there, and refuses with [ValueError]. *)
Lemma check_enough_spec specs avail c :
  specs_ok get_dtype_size specs → specs ≠ [] → 1 <= max_model_len (limits c) →
  match check_enough_kv_cache_memory get_dtype_size specs avail c with
  | (Ok _, c') => c' = c ∧ 0 < avail ∧ memory get_dtype_size c specs.*2 <= avail
  | (Raise e, _) => e = ValueError ∧ (avail <= 0 ∨ avail < memory get_dtype_size c specs.*2)
  end.
Proof.
  intros Hok Hne Hlen. destruct specs as [|ls specs]; [done|]. unfold check_enough_kv_cache_memory.
  destruct (decide (avail <= 0)); [by split; [|left]|].
  unfold mbind, M_bind, get, lift_outcome. rewrite max_memory_usage_bytes_ok by done. case_decide.
  - pose proof (estimate_spec get_dtype_size (ls :: specs) avail c Hok Hlen) as H1. unfold wp in H1.
    destruct (estimate_max_model_len _ _ _ c) as [[best|e] c']; [|done]. split; [done|]. right. lia.
  - split; [done|]. split; lia.
Qed.

Lemma to_full_sizes s :
  block_size (to_full_attention s) = block_size s ∧
  page_size_bytes get_dtype_size (to_full_attention s) = page_size_bytes get_dtype_size s.
Proof. by destruct s. Qed.

(** Unifying the specs changes neither the layers nor their sizes. *)
Lemma unify_hybrid_spec specs specs' :
  unify_hybrid_kv_cache_specs specs = Ok specs' →
  (specs' = specs ∨ specs' = prod_map id to_full_attention <$> specs) ∧ is_kv_cache_type_uniform specs' = Ok true.
Proof.
  unfold unify_hybrid_kv_cache_specs. destruct (is_kv_cache_type_uniform specs) as [[]|] eqn:E; cbn [mbind outcome_bind]; try done.
  { intros [= <-]. split; [by left|done]. }
  match goal with |- context [is_kv_cache_type_uniform ?l ≫= _] => set (specs1 := l) end. destruct (is_kv_cache_type_uniform specs1) as [[]|] eqn:E1; cbn [mbind outcome_bind]; try done.
  intros [= <-]. split; [|done]. unfold specs1. case_match; auto.
Qed.

Lemma unified_sizes specs specs' :
  specs' = specs ∨ specs' = prod_map id to_full_attention <$> specs →
  specs'.*1 = specs.*1 ∧ (specs_ok get_dtype_size specs → specs_ok get_dtype_size specs') ∧
  (∀ name s', (name, s') ∈ specs' → ∃ s, (name, s) ∈ specs ∧ block_size s = block_size s' ∧
     page_size_bytes get_dtype_size s = page_size_bytes get_dtype_size s').
Proof.
  intros [->| ->]; [split_and!; [done|done|by intros name s ?; exists s]|]. split_and!.
  - rewrite <- list_fmap_compose. by apply list_fmap_ext.
  - unfold specs_ok. intros H. rewrite <- list_fmap_compose. rewrite Forall_fmap in H. rewrite Forall_fmap.
    eapply Forall_impl; [exact H|]. intros [name s]. unfold compose, spec_ok. cbn. by destruct (to_full_sizes s) as [-> ->].
  - intros name s' ([name' s] & [= -> ->] & Hin)%list_elem_of_fmap. exists s. by destruct (to_full_sizes s) as [-> ->].
Qed.

Lemma planned_unified specs specs' avail kv p :
  specs' = specs ∨ specs' = prod_map id to_full_attention <$> specs →
  planned get_dtype_size specs' avail kv p → planned get_dtype_size specs avail kv p.
Proof.
  intros (Hnames & _ & Hs)%unified_sizes []. rewrite Hnames in *. split; try done.
  intros g name Hg Hname. destruct (pl_specs0 g name Hg Hname) as (s' & Hin & Hb & Hp & Hgp).
  destruct (Hs name s' Hin) as (s & ? & Hb' & Hp'). exists s. rewrite Hb', Hp'. done.
Qed.

Lemma get_kv_cache_config_planned specs avail c kv c' :
  specs_ok get_dtype_size specs → specs ≠ [] → NoDup specs.*1 → 1 <= max_model_len (limits c) →
  num_gpu_blocks_override c = None →
  get_kv_cache_config get_dtype_size specs avail c = (Ok kv, c') →
  c' = c ∧ 0 < avail ∧ memory get_dtype_size c specs.*2 <= avail ∧ ∃ p, 0 < p ∧ planned get_dtype_size specs avail kv p.
Proof.
  intros Hok Hne Hnd Hlen Ho. unfold get_kv_cache_config, mbind, M_bind at 1.
  pose proof (check_enough_spec specs avail c Hok Hne Hlen) as Hcheck.
  destruct (check_enough_kv_cache_memory _ specs avail c) as [[[]|e] c1]; [|done]. destruct Hcheck as (-> & Ha & Hm).
  unfold mbind, M_bind, get, lift_outcome.
  destruct (if disable_hybrid_kv_cache_manager c then _ else _) as [specs1|] eqn:Eu; [|done].
  assert (Hu : specs1 = specs ∨ specs1 = prod_map id to_full_attention <$> specs).
  { destruct (disable_hybrid_kv_cache_manager c); [by apply unify_hybrid_spec in Eu as [? _]|]. injection Eu as ->. by left. }
  destruct (unified_sizes specs specs1 Hu) as (Hnames & Hok1 & _). specialize (Hok1 Hok).
  assert (Hne1 : specs1 ≠ []) by (intros ->; by destruct specs). assert (Hnd1 : NoDup specs1.*1) by by rewrite Hnames.
  assert (is_kv_cache_type_attention_free specs1 = false) as -> by by destruct specs1.
  destruct (is_kv_cache_type_uniform specs1) as [[]|]; [| |done].
  - destruct (_get_kv_cache_config_uniform_type _ c specs1 avail) as [kv1|] eqn:E; [|done]. intros [= <- <-].
    destruct (uniform_type_planned _ c specs1 avail kv1 Hok1 Hne1 Hnd1 Ho ltac:(lia) E) as (p & ? & Hp & _).
    split_and!; try done. exists p. split; [done|]. by eapply planned_unified.
  - destruct (is_kv_cache_page_size_uniform _ specs1) as [[]|]; [|done|done].
    destruct (_get_kv_cache_config_uniform_page_size _ c specs1 avail) as [kv1|] eqn:E; [|done]. intros [= <- <-].
    destruct (uniform_page_size_planned _ c specs1 avail kv1 Hok1 Hne1 Hnd1 Ho ltac:(lia) E) as (p & ? & Hp).
    split_and!; try done. exists p. split; [done|]. by eapply planned_unified.
Qed.

(** With one spec for all layers there are blocks for a request of the maximal length. *)
Lemma uniform_blocks_enough c s specs avail p n :
  p = page_of get_dtype_size s → 0 < p → specs ≠ [] → (∀ e : string * KVCacheSpec, e ∈ specs → e.2 = s) →
  memory get_dtype_size c specs.*2 <= avail → n = avail / (p * len specs) → max_blocks s (limits c) <= n.
Proof.
  intros Hp Hpos Hne Hall Hm ->. assert (0 < len specs) by (destruct specs; [done|]; rewrite len_cons; unfold len; lia).
  apply Z.div_le_lower_bound; [nia|]. unfold memory in Hm. rewrite (zsum_const _ _ (max_blocks s (limits c) * p)) in Hm.
  - unfold len in *. rewrite length_fmap in Hm. lia.
  - intros s' (e & -> & He)%list_elem_of_fmap. by rewrite (Hall e He), Hp.
Qed.
End worker.

(** * The plans of the workers *)
Lemma mapM_ex {A B} (f : A → outcome B) (P : A → B → Prop) l :
  (∀ x, x ∈ l → ∃ y, f x = Ok y ∧ P x y) → ∃ k, mapM f l = Ok k ∧ Forall2 P l k.
Proof.
  induction l as [|x l IH]; intros H; [by exists []|]. destruct (H x) as (y & Hy & HP); [by left|].
  destruct IH as (k & Hk & HP'); [intros z ?; apply H; by right|]. exists (y :: k). cbn [mapM]. rewrite Hy.
  cbn [mbind outcome_bind]. rewrite Hk. split; [done|by constructor].
Qed.

(** The plan of a worker after the agreement: the same groups, in an order all share. *)
Record agreed (specs : list KVCacheSpec) (n : Z) (kv kv' : KVCacheConfig) : Prop := {
  ag_groups : kv_cache_groups kv' ≡ₚ kv_cache_groups kv;
  ag_specs : group_specs (kv_cache_groups kv') = specs;
  ag_tensors : kv_cache_tensors kv' = kv_cache_tensors kv;
  ag_blocks : num_blocks kv' = n;
  ag_least : n <= num_blocks kv
}.

Lemma unify_spec kv0 rest :
  (∀ kv, kv ∈ rest → group_specs (kv_cache_groups kv) ≡ₚ group_specs (kv_cache_groups kv0)) →
  comparable (group_specs (kv_cache_groups kv0)) →
  ∃ specs n kvs', unify_kv_cache_configs (kv0 :: rest) = Ok kvs' ∧
    n ∈ num_blocks <$> kv0 :: rest ∧ Forall2 (agreed specs n) (kv0 :: rest) kvs'.
Proof.
  intros Hperm Hc. destruct (sort_groups_spec (kv_cache_groups kv0) Hc) as (l0 & Hl0 & Hp0 & Hs0).
  assert (Hall : ∀ kv, kv ∈ kv0 :: rest → ∃ kv', (groups ← sort_groups (kv_cache_groups kv); Ok (set_groups groups kv)) = Ok kv' ∧
    (kv ∈ kv0 :: rest ∧ kv_cache_groups kv' ≡ₚ kv_cache_groups kv ∧ group_specs (kv_cache_groups kv') = group_specs l0 ∧
     kv_cache_tensors kv' = kv_cache_tensors kv ∧ num_blocks kv' = num_blocks kv)).
  { intros kv Hkv. assert (group_specs (kv_cache_groups kv) ≡ₚ group_specs (kv_cache_groups kv0)) as Hp.
    { apply elem_of_cons in Hkv as [->|?]; [done|by apply Hperm]. }
    destruct (sort_groups_spec (kv_cache_groups kv)) as (l & Hl & Hpl & Hsl).
    { intros x y. rewrite Hp. apply Hc. }
    exists (set_groups l kv). rewrite Hl. split; [done|]. split_and!; try done. cbn.
    apply (Sorted_unique spec_le); [done|done|]. unfold group_specs in *. by rewrite Hpl, Hp, Hp0. }
  unfold unify_kv_cache_configs. destruct (mapM_ex _ _ _ Hall) as (kvs & Hkvs & HF). rewrite Hkvs. cbn [mbind outcome_bind].
  assert (Hblocks : num_blocks <$> kvs = num_blocks <$> kv0 :: rest).
  { clear -HF. induction HF as [|x y l k (_ & _ & _ & _ & H) _ IH]; [done|]. rewrite !fmap_cons. by rewrite IH, H. }
  assert (match kvs with [] => true | k0 :: rest' => forallb (same_group_specs k0) rest' end = true) as ->.
  { destruct kvs as [|k0 rest']; [done|]. assert (∀ kv', kv' ∈ k0 :: rest' → group_specs (kv_cache_groups kv') = group_specs l0) as Hsp.
    { intros kv' Hin. destruct (Forall2_elem_l (flip _) _ _ kv' (proj1 (Forall2_flip _ _ _) HF) Hin) as (kv & _ & _ & _ & ? & _). done. }
    apply forallb_forall. intros kv' Hin%list_elem_of_In. unfold same_group_specs. apply forallb_forall.
    intros [g0 g] [i Hi]%list_elem_of_In%list_elem_of_lookup_1. apply bool_decide_eq_true.
    apply lookup_zip_with_Some in Hi as (x & y & [= -> ->] & Hx & Hy).
    pose proof (Hsp k0 ltac:(by left)) as E0. pose proof (Hsp kv' ltac:(by right)) as E1. unfold group_specs in E0, E1.
    assert ((kv_cache_spec <$> kv_cache_groups k0) !! i = (kv_cache_spec <$> kv_cache_groups kv') !! i) as E by by rewrite E0, E1.
    rewrite !list_lookup_fmap, Hx, Hy in E. by injection E. }
  rewrite Hblocks. destruct (py_min (num_blocks <$> kv0 :: rest)) as [n|] eqn:Hn; [|done]. cbn [mbind outcome_bind].
  apply py_min_lower in Hn as [Hin Hle]. exists (group_specs l0), n, (set_num_blocks n <$> kvs). split; [done|]. split; [done|].
  apply Forall2_fmap_r. eapply Forall2_impl; [exact HF|].
  intros kv kv' (Hkv & Hg & Hs & Ht & Hb). split; try done. apply Hle. by apply list_elem_of_fmap_2.
Qed.

(** * From the layers to the scheduler's plan *)

(** A plan for one group of full attention. *)
Definition one_full_group (kv : KVCacheConfig) : Prop :=
  0 < num_blocks kv ∧ ∃ g a w c, kv_cache_groups kv = [g] ∧ kv_cache_spec g = FullAttentionSpec a w c ∧ 0 < attn_block_size a.

Definition window_positive (s : KVCacheSpec) : Prop :=
  match s with SlidingWindowSpec _ n | ChunkedLocalAttentionSpec _ n => 0 < n | _ => True end.

(** The layers of a worker whose plan has one such group when hybrid plans are disabled. *)
Record full_worker (get_dtype_size : dtype → Z) (specs : LayerSpecs) : Prop := {
  fw_ok : specs_ok get_dtype_size specs;
  fw_windows : Forall window_positive specs.*2;
  fw_nodup : NoDup specs.*1;
  fw_full : ∃ s, s ∈ specs.*2 ∧ is_full_attention s = true
}.

Lemma max_blocks_positive s lim :
  0 < block_size s → window_positive s → 1 <= max_model_len lim → 0 <= max_num_batched_tokens lim → 1 <= max_blocks s lim.
Proof.
  intros Hb Hw Hl Ht. destruct s as [a w c|a c|a w|]; cbn in *; [| | |lia].
  - pose proof (cdiv_bounds (max_model_len lim) (attn_block_size a) Hb). nia.
  - pose proof (cdiv_bounds (Z.min (c + max_num_batched_tokens lim) (max_model_len lim)) (attn_block_size a) Hb). nia.
  - pose proof (cdiv_bounds (Z.min (w - 1 + max_num_batched_tokens lim) (max_model_len lim)) (attn_block_size a) Hb). nia.
Qed.

Lemma memory_lower get_dtype_size c (l : list KVCacheSpec) p :
  (∀ s, s ∈ l → page_size_bytes get_dtype_size s = Ok p ∧ 1 <= max_blocks s (limits c)) → 0 < p →
  len l * p <= memory get_dtype_size c l.
Proof.
  intros Hl Hp. induction l as [|s l IH]; [done|]. rewrite memory_cons, len_cons.
  destruct (Hl s) as [Hs Hb]; [by left|]. unfold page_of. rewrite Hs. specialize (IH ltac:(intros s' ?; apply Hl; by right)). nia.
Qed.

Lemma merge_full_member l m s :
  merge l = Ok m → s ∈ l → is_full_attention s = true → ∃ a w c, m = FullAttentionSpec a w c.
Proof.
  unfold merge. destruct (py_index l 0) as [s0|]; cbn [mbind outcome_bind]; [|done]. destruct (is_full_attention s0).
  - intros (a & w & c & -> & _)%merge_full_spec _ _. eauto.
  - intros Hm Hs. rewrite (merge_equal_spec l m Hm s Hs). destruct m; try done. eauto.
Qed.

Lemma to_full_member specs s :
  s ∈ specs.*2 → is_full_attention s = true → s ∈ (prod_map id to_full_attention <$> specs : LayerSpecs).*2.
Proof.
  intros ([name s'] & -> & Hin)%list_elem_of_fmap Hf. apply list_elem_of_fmap. exists (name, s'). split; [done|].
  apply list_elem_of_fmap. exists (name, s'). split; [|done]. by destruct s'.
Qed.

Lemma layer_spec_member specs name s : NoDup specs.*1 → (name, s) ∈ specs → layer_spec specs name = Ok s.
Proof.
  intros Hnd [i Hi]%list_elem_of_lookup_1. unfold layer_spec.
  assert (list_find (λ kv : string * KVCacheSpec, kv.1 = name) specs = Some (i, (name, s))) as ->; [|done].
  apply list_find_Some. split_and!; [done|done|]. intros j [name' s'] Hj Hji Hname. cbn in Hname. subst name'.
  assert (i = j); [|lia]. by eapply (NoDup_lookup specs.*1); rewrite ?list_lookup_fmap, ?Hi, ?Hj.
Qed.
Lemma one_group specs groups :
  NoDup specs.*1 → create_kv_cache_group_specs specs [specs.*1] = Ok groups →
  ∃ m, groups = [mkKVCacheGroupSpec specs.*1 m] ∧ merge specs.*2 = Ok m.
Proof.
  intros Hnd. unfold create_kv_cache_group_specs. cbn [mapM].
  assert (mapM (layer_spec specs) specs.*1 = Ok specs.*2) as ->.
  { apply mapM_Ok, Forall2_fmap_2, Forall_Forall2_diag, Forall_forall. intros [name s]. by apply layer_spec_member. }
  cbn [mbind outcome_bind]. destruct (merge specs.*2) as [m|]; cbn [mbind outcome_bind]; [|done]. intros [= <-]. by exists m.
Qed.

Lemma full_uniform_plan get_dtype_size specs avail c kv s :
  specs_ok get_dtype_size specs → NoDup specs.*1 → num_gpu_blocks_override c = None → 0 < avail →
  s ∈ specs.*2 → is_full_attention s = true →
  (∀ p, (∀ s', s' ∈ specs.*2 → page_size_bytes get_dtype_size s' = Ok p) → len specs * p <= avail) →
  _get_kv_cache_config_uniform_type get_dtype_size c specs avail = Ok kv → one_full_group kv.
Proof.
  intros Hok Hnd Ho Ha Hs Hf Hm E. assert (specs ≠ []) as Hne by (intros ->; by apply not_elem_of_nil in Hs).
  destruct (uniform_type_planned _ c specs avail kv Hok Hne Hnd Ho ltac:(lia) E) as (p & Hp & Hpl & Hn).
  revert E. unfold _get_kv_cache_config_uniform_type.
  destruct (get_uniform_page_size _ specs) as [p1|]; cbn [mbind outcome_bind]; [|done].
  destruct (get_num_blocks c _ avail p1) as [n|]; cbn [mbind outcome_bind]; [|done].
  destruct (create_kv_cache_group_specs specs _) as [groups|] eqn:Hg; cbn [mbind outcome_bind]; [|done].
  destruct (get_max_concurrency_for_kv_cache_config _ _ _); cbn [mbind outcome_bind]; [|done]. intros [= <-]. cbn in Hn.
  apply one_group in Hg as (m & -> & Hmerge); [|done]. destruct (merge_full_member _ _ _ Hmerge Hs Hf) as (attn & w & ch & ->).
  destruct (merge_sizes get_dtype_size _ _ s Hmerge Hs) as [Hbs _].
  assert (Hspec : spec_ok get_dtype_size s) by (unfold specs_ok in Hok; rewrite Forall_forall in Hok; by apply Hok).
  assert (Hpages : ∀ s', s' ∈ specs.*2 → page_size_bytes get_dtype_size s' = Ok p).
  { intros s' ([name s''] & -> & Hin)%list_elem_of_fmap. cbn.
    destruct (pl_specs _ _ _ _ _ Hpl (mkKVCacheGroupSpec specs.*1 (FullAttentionSpec attn w ch)) name) as (s3 & Hin3 & _ & Hp3 & _).
    { by left. } { by apply (list_elem_of_fmap_2 fst specs (name, s'')). }
    pose proof (layer_spec_member _ _ _ Hnd Hin). pose proof (layer_spec_member _ _ _ Hnd Hin3). assert (s'' = s3) as -> by congruence. done. }
  split; cbn.
  - rewrite Hn. apply Z.div_str_pos. specialize (Hm p Hpages).
    assert (0 < len specs) by (destruct specs; [done|]; rewrite len_cons; unfold len; lia). nia.
  - eexists _, attn, w, ch. split_and!; try done. change (attn_block_size attn) with (block_size (FullAttentionSpec attn w ch)).
    rewrite <- Hbs. apply Hspec.
Qed.

Lemma full_worker_plan get_dtype_size specs avail c kv c' :
  full_worker get_dtype_size specs → disable_hybrid_kv_cache_manager c = true → num_gpu_blocks_override c = None →
  1 <= max_model_len (limits c) → 0 <= max_num_batched_tokens (limits c) →
  get_kv_cache_config get_dtype_size specs avail c = (Ok kv, c') → c' = c ∧ one_full_group kv.
Proof.
  intros [Hok Hw Hnd (s & Hs & Hf)] Hd Ho Hlen Hb. assert (specs ≠ []) as Hne by (intros ->; by apply not_elem_of_nil in Hs).
  unfold get_kv_cache_config, mbind, M_bind at 1.
  pose proof (check_enough_spec get_dtype_size specs avail c Hok Hne Hlen) as Hcheck.
  destruct (check_enough_kv_cache_memory _ specs avail c) as [[[]|e] c1]; [|done]. destruct Hcheck as (-> & Ha & Hm).
  unfold mbind, M_bind, get, lift_outcome. rewrite Hd. destruct (unify_hybrid_kv_cache_specs specs) as [specs1|] eqn:Eu; [|done].
  apply unify_hybrid_spec in Eu as [Hu Huni]. destruct (unified_sizes get_dtype_size specs specs1 Hu) as (Hnames & Hok1 & _).
  specialize (Hok1 Hok). assert (Hs1 : s ∈ specs1.*2) by (destruct Hu as [->| ->]; [done|by apply to_full_member]).
  assert (is_kv_cache_type_attention_free specs1 = false) as -> by (destruct specs1; [by apply not_elem_of_nil in Hs1|done]).
  rewrite Huni. destruct (_get_kv_cache_config_uniform_type _ c specs1 avail) as [kv1|] eqn:E; [|done]. intros [= <- <-].
  split; [done|]. apply (full_uniform_plan get_dtype_size specs1 avail c kv1 s); try done; [by rewrite Hnames|].
  intros p Hpages. etrans; [|exact Hm]. replace (len specs1) with (len specs.*2).
  - destruct (decide (0 < p)) as [Hp|Hp].
    + apply memory_lower; [|done]. intros s' ([name s''] & -> & Hin)%list_elem_of_fmap. cbn. split.
      * destruct Hu as [->| ->]; [by apply Hpages, (list_elem_of_fmap_2 snd specs (name, s''))|].
        destruct (to_full_sizes get_dtype_size s'') as [_ <-]. apply Hpages. rewrite <- list_fmap_compose.
        by apply (list_elem_of_fmap_2 (snd ∘ prod_map id to_full_attention) specs (name, s'')).
      * unfold specs_ok in Hok. rewrite Forall_fmap, Forall_forall in Hok, Hw.
        apply max_blocks_positive; try done; [apply (Hok _ Hin)|apply (Hw _ Hin)].
    + unfold specs_ok in Hok1. rewrite Forall_forall in Hok1. destruct (Hok1 s Hs1) as (_ & q & Hq & ?).
      rewrite (Hpages s Hs1) in Hq. simplify_eq.
  - unfold len. rewrite <- (length_fmap fst specs1), Hnames. by rewrite !length_fmap.
Qed.

Lemma map_each_inv {S A B} (f : A → M S B) (P : B → Prop) l s ys s' :
  (∀ x y s'', x ∈ l → f x s = (Ok y, s'') → s'' = s ∧ P y) →
  map_each l f s = (Ok ys, s') → s' = s ∧ Forall P ys.
Proof.
  revert ys s'. induction l as [|x l IH]; intros ys s' Hf; cbn [map_each].
  - intros [= <- <-]. done.
  - unfold mbind, M_bind. destruct (f x s) as [[y|e] s1] eqn:Hx; [|done]. destruct (Hf x y s1) as [-> HP]; [by left|done|].
    destruct (map_each l f s) as [[ys1|e] s2] eqn:Hl; [|done]. intros [= <- <-].
    destruct (IH ys1 s2) as [-> ?]; [|done|by split; [|constructor]]. intros z y' s'' ?. apply Hf. by right.
Qed.

(** The agreement keeps such plans such plans. *)
Lemma unify_one_full kvs kvs' :
  Forall one_full_group kvs → unify_kv_cache_configs kvs = Ok kvs' → Forall one_full_group kvs'.
Proof.
  intros Hkvs. unfold unify_kv_cache_configs. destruct (mapM _ kvs) as [kvs1|] eqn:E1; cbn [mbind outcome_bind]; [|done].
  destruct (match kvs1 with [] => true | kv0 :: rest => forallb (same_group_specs kv0) rest end); [|done].
  destruct (py_min (num_blocks <$> kvs1)) as [n|] eqn:En; cbn [mbind outcome_bind]; [|done]. intros [= <-].
  assert (Forall one_full_group kvs1) as Hkvs1.
  { clear En. apply mapM_Ok in E1. revert Hkvs. induction E1 as [|kv kv1 l k Hkv _ IH]; [done|].
    intros [(? & g & a & w & c & Hg & ? & ?) ?]%Forall_cons. constructor; [|by apply IH]. cbn beta in Hkv. rewrite Hg in Hkv.
    injection Hkv as <-. split; [done|]. by exists g, a, w, c. }
  apply py_min_lower in En as [(kv & -> & Hin)%list_elem_of_fmap _]. apply Forall_fmap.
  assert (0 < num_blocks kv) as Hpos by (rewrite Forall_forall in Hkvs1; by apply Hkvs1).
  eapply Forall_impl; [exact Hkvs1|]. by intros kv' (_ & Hg).
Qed.

Lemma initialize_one_full get_dtype_size specs mem synced c n cpu kv kvs c' :
  Forall (full_worker get_dtype_size) specs → disable_hybrid_kv_cache_manager c = true → num_gpu_blocks_override c = None →
  1 <= max_model_len (limits c) → 0 <= max_num_batched_tokens (limits c) →
  _initialize_kv_caches get_dtype_size specs mem synced c = (Ok (n, cpu, kv, kvs), c') →
  c' = c ∧ n = num_blocks kv ∧ cpu = 0 ∧ one_full_group kv.
Proof.
  intros Hw Hd Ho Hlen Hb. unfold _initialize_kv_caches.
  set (avail := if existsb _ specs then _ else _). unfold mbind at 1, M_bind at 1.
  assert (∀ o c1, avail c = (o, c1) → c1 = c) as Havail.
  { intros o c1. unfold avail. destruct (existsb _ specs); [|by intros [= _ <-]].
    destruct synced; [by intros [= _ <-]|]. unfold mbind, M_bind, lift_outcome.
    destruct (py_index mem 0); by intros [= _ <-]. }
  destruct (avail c) as [[l|e] c1] eqn:E; [|done]. pose proof (Havail _ _ eq_refl) as ->.
  unfold mbind at 1, M_bind at 1. destruct (bool_decide (length specs = length l)); cbn [assert_]; [|done].
  cbn [mret M_ret]. unfold mret, M_ret. unfold mbind at 1, M_bind at 1.
  destruct (map_each (zip specs l) _ c) as [[kvs0|e] c1] eqn:E1; [|done].
  apply (map_each_inv _ one_full_group) in E1 as [-> Hkvs0].
  2:{ intros [sp a] kv1 c2 Hin Ekv. apply elem_of_zip_l in Hin. rewrite Forall_forall in Hw.
      by apply (full_worker_plan get_dtype_size sp a c kv1 c2 (Hw sp Hin)). }
  unfold mbind, M_bind, lift_outcome. destruct (unify_kv_cache_configs kvs0) as [kvs1|] eqn:E2; [|done].
  apply (unify_one_full _ _ Hkvs0) in E2. destruct kvs1 as [|kv0 kvs1]; [done|].
  rewrite (py_index_lookup _ 0 kv0) by done. destruct (forallb _ (kv0 :: kvs1)); [|done]. cbn. intros [= <- <- <- <- <-].
  by apply Forall_cons in E2 as [? _].
Qed.

(** A model without attention layers has an empty dictionary, whose first spec is asked
    for when hybrid plans are disabled. *)
Example attention_free_raises get_dtype_size c avail :
  disable_hybrid_kv_cache_manager c = true → get_kv_cache_config get_dtype_size [] avail c = (Raise IndexError, c).
Proof. intros Hd. unfold get_kv_cache_config, mbind, M_bind, get, lift_outcome. cbn. by rewrite Hd. Qed.
