(* ===== verification/PlanningTheorems.v ===== *)
(** The properties of the planning of the KV cache, each with a concrete instance, and
    the way from the layers of the workers to a scheduler that works. *)
From Stdlib Require Import ZArith QArith Lia.
From stdpp Require Import base strings countable gmap sets fin_maps sorting list relations.
From S2P Require Import Prelude Request FreeBlockQueue BlockHash BlockPool SingleTypeManager KVCacheCoordinator KVCacheManager SlotContract RequestQueue EncoderCache SchedulerData Scheduler SchedulerEncoder SchedulerInvariant SchedulerRunning SchedulerStep SchedulerLifecycle SchedulerUpdate SchedulerSystem Samples SchedulerSamples KVCacheSpec KVCachePlanning PlanningFacts.
Local Open Scope Z_scope.

(** Two layers of full attention and three of a sliding window, of one page size. *)
Definition one_byte : dtype → Z := λ _, 1.
Definition sample_attn : AttentionSpec := mkAttentionSpec 4 1 1 0 false.
Definition full_layer : KVCacheSpec := FullAttentionSpec sample_attn None None.
Definition window_layer : KVCacheSpec := SlidingWindowSpec sample_attn 8.
Definition hybrid_layers : LayerSpecs :=
  [("full.0", full_layer); ("sw.0", window_layer); ("sw.1", window_layer); ("full.1", full_layer); ("sw.2", window_layer)]%string.
Definition sample_vllm_config (max_model_len : Z) (disable_hybrid : bool) : VllmConfig :=
  mkVllmConfig (mkModelLimits max_model_len 8) None disable_hybrid.

Lemma full_layer_ok : spec_ok one_byte full_layer.
Proof. split; [done|]. by eexists. Qed.
Lemma hybrid_layers_ok : specs_ok one_byte hybrid_layers.
Proof. repeat constructor; (done || by eexists). Qed.
Lemma hybrid_layers_nodup : NoDup hybrid_layers.*1.
Proof. apply (bool_decide_unpack _). vm_compute. done. Qed.

(** * The longest model *)

(** C37: the bisection of [estimate_max_model_len] ends within its fuel and raises nothing;
    its answer is the greatest length up to the configured one whose KV cache fits the
    memory, and 0 when none does: a length fits exactly when it is at most the answer. *)
Theorem estimate_max_model_len_is_greatest get_dtype_size specs avail c :
  specs_ok get_dtype_size specs → 1 <= max_model_len (limits c) →
  ∃ best m, estimate_max_model_len get_dtype_size specs avail c = (Ok best, set_max_model_len m c) ∧
    0 <= best <= max_model_len (limits c) ∧
    ∀ n, 1 <= n <= max_model_len (limits c) → ∃ needed,
      max_memory_usage_bytes get_dtype_size (set_max_model_len n c) specs.*2 = Ok needed ∧
      (needed <= avail ↔ n <= best).
Proof.
  intros Hok Hlen. pose proof (estimate_spec get_dtype_size specs avail c Hok Hlen) as H. unfold wp in H.
  destruct (estimate_max_model_len _ specs avail c) as [[best|e] c']; [|done]. destruct H as ([m ->] & Hb & Hiff).
  exists best, m. split; [done|]. split; [done|]. intros n Hn. eexists.
  split; [by apply max_memory_usage_bytes_ok|]. by apply Hiff.
Qed.

Lemma estimate_max_model_len_is_greatest_witness :
  ∃ best m, estimate_max_model_len one_byte hybrid_layers 200 (sample_vllm_config 1000 false) =
      (Ok best, set_max_model_len m (sample_vllm_config 1000 false)) ∧
    0 <= best <= 1000 ∧
    ∀ n, 1 <= n <= 1000 → ∃ needed,
      max_memory_usage_bytes one_byte (set_max_model_len n (sample_vllm_config 1000 false)) hybrid_layers.*2 = Ok needed ∧
      (needed <= 200 ↔ n <= best).
Proof.
  apply (estimate_max_model_len_is_greatest one_byte hybrid_layers 200 (sample_vllm_config 1000 false) hybrid_layers_ok).
  cbn. lia.
Defined.

(** * The plan of a worker *)

(** C38: a plan that [get_kv_cache_config] makes without an override leaves the
    configuration as it is and is one for which the longest request's cache was found
    to fit; every layer is in exactly one group, whose merged spec has the layer's
    block and page size, and uses exactly one tensor; layers that share a tensor are in
    different groups; every tensor has room for exactly the planned blocks, together
    they fit the memory, and they would not with one more block. *)
Theorem plan_shares_out_memory get_dtype_size specs avail c kv c' :
  specs_ok get_dtype_size specs → specs ≠ [] → NoDup specs.*1 → 1 <= max_model_len (limits c) →
  num_gpu_blocks_override c = None →
  get_kv_cache_config get_dtype_size specs avail c = (Ok kv, c') →
  c' = c ∧ memory get_dtype_size c specs.*2 <= avail ∧
  ∃ p, 0 < p ∧ planned get_dtype_size specs avail kv p.
Proof.
  intros Hok Hne Hnd Hlen Ho E.
  destruct (get_kv_cache_config_planned get_dtype_size specs avail c kv c' Hok Hne Hnd Hlen Ho E) as (-> & _ & ? & ?). done.
Qed.

Definition hybrid_plan : KVCacheConfig :=
  or_else _get_kv_cache_config_attention_free (get_kv_cache_config one_byte hybrid_layers 500 (sample_vllm_config 32 false)).1.
Lemma plan_shares_out_memory_witness :
  (layer_names <$> kv_cache_groups hybrid_plan) = [["full.0"; "full.1"]; ["sw.0"; "sw.1"]; ["sw.2"]]%string ∧
  num_blocks hybrid_plan = 31 ∧
  sample_vllm_config 32 false = sample_vllm_config 32 false ∧
  memory one_byte (sample_vllm_config 32 false) hybrid_layers.*2 <= 500 ∧
  ∃ p, 0 < p ∧ planned one_byte hybrid_layers 500 hybrid_plan p.
Proof.
  split; [vm_compute; reflexivity|]. split; [vm_compute; reflexivity|].
  apply (plan_shares_out_memory one_byte hybrid_layers 500 (sample_vllm_config 32 false) hybrid_plan (sample_vllm_config 32 false)
    hybrid_layers_ok); [done|exact hybrid_layers_nodup|done|done|]. vm_compute. reflexivity.
Defined.

(** * The agreement of the workers *)

(** When the workers' groups have the same specs, in whatever order, and the specs
    can be compared, [unify_kv_cache_configs] succeeds: every worker keeps its groups and
    tensors, the specs of the groups come in one order for all workers, and all have the
    number of blocks of the worker with the fewest. *)
Theorem workers_agree kv0 rest :
  (∀ kv, kv ∈ rest → group_specs (kv_cache_groups kv) ≡ₚ group_specs (kv_cache_groups kv0)) →
  comparable (group_specs (kv_cache_groups kv0)) →
  ∃ specs n kvs, unify_kv_cache_configs (kv0 :: rest) = Ok kvs ∧
    n ∈ num_blocks <$> kv0 :: rest ∧ Forall2 (agreed specs n) (kv0 :: rest) kvs.
Proof. apply unify_spec. Qed.

Definition worker_plan (n : Z) (groups : list (string * KVCacheSpec)) : KVCacheConfig :=
  mkKVCacheConfig n [] ((λ '(name, s), mkKVCacheGroupSpec [name] s) <$> groups).
Lemma workers_agree_witness :
  ∃ specs n kvs, unify_kv_cache_configs
      [worker_plan 9 [("sw.0", window_layer); ("full.0", full_layer)]%string; worker_plan 7 [("full.9", full_layer); ("sw.9", window_layer)]%string] = Ok kvs ∧
    n ∈ [9; 7] ∧ Forall2 (agreed specs n)
      [worker_plan 9 [("sw.0", window_layer); ("full.0", full_layer)]%string; worker_plan 7 [("full.9", full_layer); ("sw.9", window_layer)]%string] kvs.
Proof.
  apply (workers_agree (worker_plan 9 [("sw.0", window_layer); ("full.0", full_layer)]%string)
           [worker_plan 7 [("full.9", full_layer); ("sw.9", window_layer)]%string]).
  - intros kv ->%list_elem_of_singleton. apply Permutation_swap.
  - intros x y [->|[->|?%not_elem_of_nil]%elem_of_cons]%elem_of_cons [->|[->|?%not_elem_of_nil]%elem_of_cons]%elem_of_cons;
      try done; eexists; vm_compute; reflexivity.
Defined.

(** * From the plan to the scheduler *)
Lemma one_full_group_config kv caching : one_full_group kv → full_config kv caching.
Proof.
  intros (Hn & g & a & w & c & Hg & Hs & Hb). split; [done| |by intros _; exists g].
  intros g'. rewrite Hg. intros ->%list_elem_of_singleton. eauto.
Qed.

Lemma one_full_group_init kv max_model_len caching eagle stats ev :
  one_full_group kv → ∃ m, KVCacheManager_init kv max_model_len caching eagle stats ev = Ok m.
Proof.
  intros (Hn & g & a & w & c & Hg & Hs & Hb). unfold KVCacheManager_init, get_kv_cache_coordinator, base_init. rewrite Hg.
  rewrite decide_False by done.
  destruct (BlockPool_init_spec (num_blocks kv) caching ev) as (p & Hp & _); [lia|].
  destruct caching; cbn [fmap list_fmap remove_dups negb mbind outcome_bind]; rewrite Hp; cbn [mbind outcome_bind]; eauto.
Qed.

(** C39: when hybrid plans are disabled and every worker has a layer of full attention,
    the number of blocks and the plan that [_initialize_kv_caches] gives are accepted by
    the scheduler's constructor: the new scheduler is there, and, if it is synchronous and
    first come first served, without KV connector and adapter limit ([config_ok]), no
    operation raises in any state it reaches. *)
Theorem planned_engine_never_raises {C G} `{!KVConnector C, !StructuredOutputManager G} hf none
    `{!CollisionFree hf none} slice truthy tok cfg caching eagle ev ecs inc g get_dtype_size specs mem synced c n cpu kv kvs c' :
  structured_total (G := G) → config_ok cfg → is_async cfg = false → 0 <= max_num_running_reqs cfg →
  Forall (full_worker get_dtype_size) specs → disable_hybrid_kv_cache_manager c = true → num_gpu_blocks_override c = None →
  1 <= max_model_len (limits c) → 0 <= max_num_batched_tokens (limits c) →
  _initialize_kv_caches get_dtype_size specs mem synced c = (Ok (n, cpu, kv, kvs), c') →
  ∃ s : Scheduler C G, Scheduler_init cfg kv caching eagle ev n ecs inc None g = Ok s ∧ c' = c ∧
    ∀ s', rtc (engine_step hf none slice truthy tok) s s' → never_raises hf none slice truthy tok s'.
Proof.
  intros Hst Hcfg Has Hmax Hw Hd Ho Hlen Hb Hinit.
  apply initialize_one_full in Hinit as (-> & -> & _ & Hone); try done.
  destruct (one_full_group_init kv (Scheduler.max_model_len cfg) caching eagle (cfg_log_stats cfg) ev Hone) as [m Hm].
  assert (∃ s : Scheduler C G, Scheduler_init cfg kv caching eagle ev (num_blocks kv) ecs inc None g = Ok s) as [s Hs].
  { unfold Scheduler_init. rewrite decide_False by (intros [[? ?] _]; done). rewrite decide_True by (destruct Hone; lia).
    rewrite Hm. cbn [mbind outcome_bind]. eauto. }
  exists s. split; [done|]. split; [done|]. intros s' Hr. apply (engine_ok_never_raises hf none slice truthy tok Hst).
  eapply (engine_reachable_ok hf none slice truthy tok Hst); [|exact Hr].
  destruct (Scheduler_init_spec hf none tok cfg kv caching eagle ev (num_blocks kv) ecs inc g s Hcfg Hmax) as (Hok & Hc & _);
    [by apply one_full_group_config|exact Hs|]. split; [done|by rewrite Hc].
Qed.

Lemma hybrid_worker : full_worker one_byte hybrid_layers.
Proof.
  split; [exact hybrid_layers_ok|repeat constructor|exact hybrid_layers_nodup|].
  exists full_layer. split; [by left|done].
Qed.
Definition unified_plan : KVCacheConfig :=
  mkKVCacheConfig 12 (kv_cache_tensors (or_else _get_kv_cache_config_attention_free
      (get_kv_cache_config one_byte hybrid_layers 500 (sample_vllm_config 32 true)).1))
    [mkKVCacheGroupSpec hybrid_layers.*1 (FullAttentionSpec sample_attn (Some 8) None)].
Lemma planned_engine_never_raises_witness :
  ∃ s : Scheduler unit unit, Scheduler_init sample_cfg unified_plan true false false 12 0 false None tt = Ok s ∧
    sample_vllm_config 32 true = sample_vllm_config 32 true ∧
    ∀ s', rtc (engine_step sample_hash sample_none (λ h _ _, h) (λ _, false) sample_tok) s s' →
      never_raises sample_hash sample_none (λ h _ _, h) (λ _, false) sample_tok s'.
Proof.
  apply (planned_engine_never_raises sample_hash sample_none (λ h _ _, h) (λ _, false) sample_tok sample_cfg true false false 0 false tt
    one_byte [hybrid_layers] [500] None (sample_vllm_config 32 true) 12 0 unified_plan [unified_plan]).
  - exact no_structured_output_total.
  - exact sample_cfg_ok.
  - done.
  - done.
  - constructor; [exact hybrid_worker|constructor].
  - done.
  - done.
  - done.
  - done.
  - vm_compute. reflexivity.
Defined.

(** * Where the planning does not do what it means to *)

(** Room for exactly 16 tokens of one layer, and a request of 13. *)
Definition tight_layers : LayerSpecs := [("full.0"%string, full_layer)].
Definition tight_plan : KVCacheConfig :=
  mkKVCacheConfig 4 [mkKVCacheTensor 32 ["full.0"%string]] [mkKVCacheGroupSpec ["full.0"%string] full_layer].
Definition tight_cfg : SchedulerConfig :=
  mkSchedulerConfig FCFS 2 32 16 0 true false None false 0 0 false 4 0 false.
Definition tight_request : Request := sample_request_of "t" 0 0 (Z.of_nat <$> seq 1 13).
Definition tight_scheduler : M (Scheduler unit unit) unit :=
  add_request tight_request 0 ;; schedule sample_hash sample_none 0 ;; mret tt.

(** C40: the planning accepts the memory of exactly one request of the maximal length, but
    one of the blocks becomes the null block: a request that is shorter than the maximal
    length, alone in the scheduler and within its budget, then waits forever: a first step
    schedules nothing, and every later one schedules nothing and leaves the state as it is. *)
Theorem accepted_memory_starves_request :
  get_kv_cache_config one_byte tight_layers 32 (sample_vllm_config 16 false) = (Ok tight_plan, sample_vllm_config 16 false) ∧
  num_tokens tight_request < Scheduler.max_model_len tight_cfg ∧
  ∃ s0 s, Scheduler_init tight_cfg tight_plan false false false 4 0 false None tt = Ok s0 ∧
    tight_scheduler s0 = (Ok tt, s) ∧ queue_refs (waiting s) = ["t"%string] ∧
    ∀ now, ∃ out, schedule sample_hash sample_none now s = (Ok out, s) ∧ num_scheduled_tokens out = [].
Proof.
  split; [vm_compute; reflexivity|]. split; [vm_compute; reflexivity|].
  eexists _, _. split; [vm_compute; reflexivity|]. split; [vm_compute; reflexivity|]. split; [vm_compute; reflexivity|].
  intros now. eexists. split; vm_compute; reflexivity.
Qed.
